(* ===== verification/_CoqProject ===== *)
-Q . S2P
Prelude.v
Wasi.v
Sim.v
Unistd.v
Mman.v
MmanTable.v
MmanProofs.v
MmanTheorems.v
MmanExamples.v
Paths.v
PathsProofs.v
PathsResolve.v
TimeConv.v
At.v
AtProofs.v
Utf8.v
Utf8Proofs.v
Utf8Strings.v
Utf8Mbs.v
Utf8MbsTheorems.v
Avl.v
AvlTree.v
AvlProofs.v
AvlTheorems.v
Hsearch.v
HsearchProofs.v
Calendar.v
CalendarProofs.v
Dirent.v
DirentProofs.v
PathsExamples.v
Sort.v
SortTrees.v
SortWords.v
SortProofs.v
SortTheorems.v
SearchExamples.v
IntScan.v
IntScanProofs.v
IntScanTheorems.v
TextExamples.v
Threads.v
Lock.v
Sem.v
Rwlock.v
ThreadsExamples.v
Poll.v
PollProofs.v
TimeExamples.v
Fd.v
FdProofs.v
Sock.v
SockProofs.v
SockTheorems.v
SockExamples.v
Stdio.v
StdioDev.v
StdioProofs.v
StdioOps.v
StdioHost.v
Printf.v
PrintfProofs.v
StdioTheorems.v
PrintfTheorems.v
StdioExamples.v
Emmalloc.v
EmmallocHeap.v
EmmallocCore.v
EmmallocSteps.v
EmmallocAlloc.v
EmmallocMemory.v
EmmallocFree.v
EmmallocTheorems.v
EmmallocRefine.v
EmmallocExamples.v
Hash.v
HashProofs.v
Crypt.v
CryptProofs.v
CryptExamples.v
