(* ===== verification/Prelude.v ===== *)
(** * wasix-libc: a verification of parts of the C library

    wasix-libc is a C library for WebAssembly.  Its bottom half
    ([src/libc-bottom-half]) turns POSIX calls into calls of the host (WASI and
    WASIX imports) and keeps in user space what the host does not have: mapped
    files, the table of preopened directories, the working directory, directory
    streams.  Its top half ([src/libc-top-half/musl]) is musl.  The model is that
    of wasm32 with threads compiled in: [size_t], [long] and pointers have 32
    bits, [off_t] and [time_t] 64.

    ** Conventions

    Words are integers ([Z]) with their wrap-around written out ([w8], [w16],
    [w32], [w64] unsigned, [s32], [s64] signed).  C strings are the lists of
    their bytes without the terminator.  A stateful function is a program in the
    monad [M S A] below: from a state it ends with a value and a new state
    ([Ret]) or stops ([Stop]) because the process aborts, because a lock is
    waited for that will not be released, because the C code is undefined there,
    or because the fuel that replaces an unbounded loop is spent.  Theorems say
    [Ret], hence none of these happens.

    The host, the memory instructions and the allocator are not code of the
    repository: they are operations of the classes of [Wasi] over an abstract
    state [W] ([WasiFd], [WasiPath], [WasmMem], [Alloc]; [WasiDir] is in
    [Dirent], [WasiPoll] in [Poll], [WasiFile] in [Fd], [WasiSock] in [Sock]).
    Theorems hold for every instance; what they rely on is stated by the law
    classes ([WasiFdLaws], [WasmMemLaws], [AllocLaws], [StableFile], [FileStore],
    [Preopened], [StableDir], [PollLaws], [FdTable], [FileHost], [SockFds],
    [SockNames], [SockOpts]), and concrete hosts for which the laws hold ([Sim]
    and the example files) run the witnesses.  The allocator may deny memory at
    any time; the theorems on paths and directories that let a call fail for that
    say that the last request was denied ([denied]).  Memory may grow to its 65536
    pages.  Where a mapping ends with the last page, [addr + len] wraps to 0 and
    [munmap] does not find it: such a mapping is a way of its own for [mmap] to
    end ([last_page]), after which the theorems follow no further call.
    [Below4GiB] says that memory stays smaller; only the theorems on emmalloc,
    whose own bounds wrap as well, assume it.

    ** The parts

    - Positioned I/O ([Unistd]): [pread], [pwrite], [dup], [close] of
      [cloudlibc/src/libc/unistd], used by the next part.
    - Userspace [mmap], [munmap], [msync] ([Mman]; [mman/mman.c],
      [sources/sbrk.c]).  State: the sorted table of regions, the cache of
      duplicated descriptors with reference counts, memory and the host.
      [MmanTable] reads the table as a map from addresses to attributes and shows
      what splitting and removing do to it; [MmanProofs] has the invariant
      [minv] and a lemma for each internal function; [MmanTheorems] has the
      properties: the three calls return in every state that satisfies the
      invariant, refine the operations on the address map, keep the invariant
      over any sequence of calls, and write back what memory holds.
    - Preopened directories, working directory and path resolution ([Paths];
      [preopens.c], [chdir.c], [getcwd.c]).  [PathsProofs] has the specification of
      the search for the best preopen and the functions on the table,
      [PathsResolve] the resolution into the static buffers, which must be kept
      apart: blocks on the heap with their sizes, against which every store is
      checked.
    - Path functions ([At]; [posix.c], [at_fdcwd.c] and the wrappers of
      [cloudlibc] they end in; [chdir]).  They call [Paths] and [TimeConv].
      [AtProofs] has the host calls each of the common functions amounts to, on
      the descriptor and the path that were resolved, and their results.
    - Times and file status ([TimeConv]; [common/time.h], [stat_impl.h]).
    - Directory streams ([Dirent]; [cloudlibc/src/libc/dirent]).  [readdir] and
      [scandirat] parse what the host writes into a buffer; [DirentProofs]
      shows that over a directory that does not change every entry is delivered
      once and in order, whatever is cut at the end of the buffer, and those
      listed without an inode number with their status.
    - Multibyte characters ([Utf8]; [musl/src/multibyte]).  [Utf8Proofs] has the
      definition of UTF-8 by its encoder and the decoder's state machine,
      [Utf8Strings] the functions on strings and UTF-16; [Utf8Mbs] and
      [Utf8MbsTheorems] the conversion of multibyte strings, whole and resumed
      in the middle of a character ([mbsrtowcs], [mbstowcs], [mbsnrtowcs]).
    - Search trees ([Avl]; [tsearch.c], [tdelete.c], [tfind.c], [twalk.c],
      [tdestroy.c]).  The operations work on a heap of nodes through pointers to
      pointers; [AvlTree] has trees as data and rebalancing, [AvlProofs] how they
      lie in the heap and that the code does to the heap what the functions on
      trees do, and [AvlTheorems] gives the refinement of sets by the five
      functions.
    - Hash table ([Hsearch]; [hsearch.c]).  [HsearchProofs] shows that probe
      sequences reach every slot and that the table refines a finite map.
    - Calendar ([Calendar]; [__secs_to_tm.c], [__tm_to_secs.c],
      [__year_to_secs.c], [__month_to_secs.c], [timegm.c], [gmtime.c]), proved
      against the Gregorian calendar in [CalendarProofs].
    - Sorting ([Sort]; [qsort.c], [bsearch.c]): smoothsort on bytes in memory.
      [SortTrees] has Leonardo heaps and their rows as predicates on an array,
      [SortWords] the double word that encodes a row and the cyclic moves of
      elements, [SortProofs] sifting and trinkling, [SortTheorems] that the
      result is a sorted permutation and that the search ends and finds.
    - Integer parsing ([IntScan]; [intscan.c], [strtol.c], [atoi.c] and the
      like): the scanner over a buffered string with its overflow rules.
      [IntScanProofs] has the value of a numeral, by digits of its own rather than
      the code's table, [IntScanTheorems] what the
      [strtol] family returns, where it stops and when it sets [ERANGE].
    - Threads ([Threads]; [musl/src/thread]): machines whose states are shared
      words and the program counters of any number of threads; one step is one
      access of a shared word (compare-and-swap, wait, wake), and the futex is a
      queue of sleeping threads.  [Lock] is the lock of the library's own tables
      ([__lock.c]), [Sem] semaphores, [Rwlock] reader-writer locks and
      [pthread_once]: exclusion and conservation are invariants of every
      interleaving, wake-ups are liveness statements about reachable states.
      A host may answer a wait on a changed word with [EINVAL], on which the
      waiter traps ([trapped]): the wake-up of the lock allows for it.
    - Clocks and polling ([Poll]; [clock_gettime.c], [nanosleep.c], [poll.c],
      [select.c], [pselect.c]): what the calls subscribe to and what they report
      from the events of the host ([PollProofs]).
    - Descriptors ([Fd]; [fcntl.c], [pipe.c], [dup3.c], [ioctl.c], [lseek.c] and
      others): flag conversions and the sequences of host calls, undone on
      failure ([FdProofs]).
    - Sockets ([Sock]; [cloudlibc/src/libc/sys/socket]): addresses to and from
      the host's representation, options, and the calls ([SockProofs],
      [SockTheorems]).
    - Allocator ([Emmalloc]; [emmalloc.c]): regions with their size at both ends
      in a memory of bytes, 64 circular lists, memory claimed with [sbrk].
      [EmmallocHeap] reads memory as a list of regions (a layout) and a list as a
      segment of links; [EmmallocCore] and [EmmallocSteps] have what holds
      between two stores of an operation, [EmmallocAlloc] the invariant of the
      heap and allocation from a free region, [EmmallocMemory] claiming memory,
      [EmmallocFree] freeing and resizing, [EmmallocTheorems] the calls, and
      [EmmallocRefine] the refinement of a ledger of blocks.

    - Password hashing ([Hash], [Crypt]; [crypt_md5.c], [crypt_sha256.c],
      [crypt_sha512.c]): digests whose contexts buffer a block, and the crypt
      schemes built on them.  [HashProofs] shows that a message hashed in pieces
      has the digest of the whole ([Digests] is the interface of the three
      digests), [CryptProofs] that the crypt functions compute their schemes,
      written down apart from the code, and that a hash, used as the setting, verifies its password.
    - Buffered streams ([Stdio]; [musl/src/stdio], [stdio_impl.h]): the [FILE]
      structure with its buffer and pointers, and byte input and output, lines,
      pushing back, flushing and positions on it, with the locks taken.  What
      lies below is the class [Device]; [StdioDev] has its instances, descriptors
      ([__stdio_read.c], [__stdio_write.c]) and the memory of [open_memstream].
      [StdioProofs] has the law of a device ([DeviceLaws]: short transfers and
      failures included), the invariant [inv] of a stream and what a program sees
      of it ([view]); [StdioOps] a lemma for each operation; [StdioHost] shows
      that both instances keep the law, descriptors over a host that keeps files
      ([FileHost]); [StdioTheorems] that every allowed call is safe, how a write
      ends, and that sessions refine a stream without a buffer.
    - Formatted output ([Printf]; [vfprintf.c], [vsnprintf.c], [vdprintf.c] and
      the functions that call them): the two passes over the format, the
      variables that outlive a conversion, the state machine of length
      modifiers, and the output on a stream.  [PrintfProofs] says what a format
      prints ([formats]: ordered arguments; integers, characters and strings) and
      that [printf_core] prints it on whatever takes text ([Sink]);
      [PrintfTheorems] shows that the stream of [vsnprintf] over the caller's
      bytes and a buffered stream are such, and that [strtoll] reads back what
      the signed conversions print.

    The files [*Examples] apply the theorems at concrete states and evaluate the
    functions there.

    ** Fuel

    Loops over data the state bounds are structural or get a count from the
    state (the length of the table, the number of slots).  Transfers that the
    host interrupts ([EINTR]) are repeated for as long as its [budget] says,
    which the laws make finite.  [readdir] takes three rounds at most (read,
    grow, return) and [scandirat] three for each entry; doubling a 32-bit size
    takes at most 32 steps; a descent in a search tree is bounded by
    [MAXH].  [trinkle] passes at most 64 trees, a table of Leonardo numbers has
    48 entries, [qsort] takes a round for each element, [bsearch] 32, [strtox] a
    round for each byte and the end.  In the allocator a search passes at most
    65 bits, a list has fewer than 2^28 regions (each has 16 bytes), and an
    allocation is tried again after each claim of at least a page, so 65537
    levels are enough.  A digest takes a round for each block of its input, and
    [hashmd] one for each byte of the key.  [fread] and [fgets] take at most a
    round for each byte asked for, and a write on a descriptor one for each byte
    to be written: a transfer that is not the last moves at least one.
    [printf_core] takes a round for each character of the format and the end, and
    the digits of a number are at most 22.  The
    machines of [Threads] have no fuel.  The theorems state the fuel that is
    enough.

    ** What is not modelled

    The import wrappers, which are generated; dlmalloc, which is vendored (the
    parts above emmalloc use the contract of [malloc] only); mathematics,
    regular expressions, locales, name resolution and process creation.  Of
    stdio: scanning, the digits of floating-point numbers ([fmt_fp] is an
    argument of [Printf]), wide streams, and the list of open files with
    [fopen], [fclose] and [fflush] of all streams.  Of password hashing: Blowfish
    and DES.
    Threads interleave in the machines of [Threads] only: in the other parts a
    call runs alone, and a lock is a flag there (taking it twice is a deadlock).
    [need_locks] is 1 there, so that locks are really taken; the trap of a timed
    wait on [EINVAL] and cancellation are left out.
    Mutexes, condition variables and barriers are not modelled.  Memory is
    modelled where the code shares it (regions, the buffers of [Paths], tree
    nodes, the elements of [qsort], the heap of [Emmalloc]) and values are passed
    where it does not. *)
From stdpp Require Export base numbers list list_numbers gmap strings.
From stdpp Require Import options.
From Stdlib Require Import ZArith Lia.

#[global] Open Scope Z_scope.
#[global] Unset Default Proof Using.

(** ** Machine words *)

(** [size_t], [uintptr_t], [unsigned] and [uint32_t] of wasm32 are 32 bits
    wide and wrap; [int] is the two's complement reading of the same bits. *)
Definition w8 (x : Z) : Z := x mod 2 ^ 8.
Definition w16 (x : Z) : Z := x mod 2 ^ 16.
Definition w32 (x : Z) : Z := x mod 2 ^ 32.
Definition w64 (x : Z) : Z := x mod 2 ^ 64.
Definition s32 (x : Z) : Z := (x + 2 ^ 31) mod 2 ^ 32 - 2 ^ 31.
Definition s64 (x : Z) : Z := (x + 2 ^ 63) mod 2 ^ 64 - 2 ^ 63.

(** Bit tests of the source: [(x & m) != 0]. *)
Definition has (x m : Z) : bool := negb (Z.land x m =? 0).

Lemma w32_small x : 0 <= x < 2 ^ 32 -> w32 x = x.
Proof. apply Z.mod_small. Qed.
Lemma w32_range x : 0 <= w32 x < 2 ^ 32.
Proof. apply Z.mod_pos_bound. lia. Qed.
Lemma w32_idem x : w32 (w32 x) = w32 x.
Proof. unfold w32. by rewrite Z.mod_mod. Qed.
Lemma w64_range x : 0 <= w64 x < 2 ^ 64.
Proof. apply Z.mod_pos_bound. lia. Qed.
Lemma w64_small x : 0 <= x < 2 ^ 64 -> w64 x = x.
Proof. apply Z.mod_small. Qed.
Lemma w8_range x : 0 <= w8 x < 256.
Proof. apply Z.mod_pos_bound. lia. Qed.
Lemma w8_small x : 0 <= x < 256 -> w8 x = x.
Proof. apply Z.mod_small. Qed.
Lemma s32_small x : - 2 ^ 31 <= x < 2 ^ 31 -> s32 x = x.
Proof. intros. unfold s32. rewrite Z.mod_small; lia. Qed.
Lemma s64_small x : - 2 ^ 63 <= x < 2 ^ 63 -> s64 x = x.
Proof. intros. unfold s64. rewrite Z.mod_small; lia. Qed.
Lemma s32_range x : - 2 ^ 31 <= s32 x < 2 ^ 31.
Proof. unfold s32. pose proof (Z.mod_pos_bound (x + 2 ^ 31) (2 ^ 32)). lia. Qed.
Lemma s64_add_l x y : s64 (s64 x + y) = s64 (x + y).
Proof.
  unfold s64. f_equal.
  replace ((x + 2 ^ 63) `mod` 2 ^ 64 - 2 ^ 63 + y + 2 ^ 63)
    with ((x + 2 ^ 63) `mod` 2 ^ 64 + y) by lia.
  rewrite Zplus_mod_idemp_l. f_equal. lia.
Qed.

(** Disjoint bits add up. *)
Lemma lor_add k a b : 0 <= k -> 0 <= b < 2 ^ k -> Z.lor (a * 2 ^ k) b = a * 2 ^ k + b.
Proof.
  intros Hk Hb. assert (Hz : Z.land (a * 2 ^ k) b = 0).
  { apply Z.bits_inj'. intros n Hn. rewrite Z.land_spec, Z.bits_0.
    destruct (Z.lt_ge_cases n k).
    - by rewrite Z.mul_pow2_bits_low.
    - rewrite <- (Z.mod_small b (2 ^ k)) by done. by rewrite Z.mod_pow2_bits_high, andb_false_r by lia. }
  by rewrite Z.add_nocarry_lxor, Z.lxor_lor.
Qed.

Lemma has_bit x k : 0 <= k -> has x (2 ^ k) = Z.testbit x k.
Proof.
  intros Hk. unfold has. destruct (Z.eqb_spec (Z.land x (2 ^ k)) 0) as [He|Hne]; symmetry.
  - apply (f_equal (fun z => Z.testbit z k)) in He. by rewrite Z.land_spec, Z.pow2_bits_true, andb_true_r, Z.bits_0 in He.
  - apply not_false_iff_true. intros Hb. apply Hne. apply Z.bits_inj'. intros n Hn. rewrite Z.land_spec, Z.bits_0, Z.pow2_bits_eqb by done.
    destruct (Z.eqb_spec k n) as [->|]; [by rewrite Hb|by rewrite andb_false_r].
Qed.

Lemma has_or x a b : has x (Z.lor a b) = has x a || has x b.
Proof.
  unfold has. rewrite Z.land_lor_distr_r. destruct (Z.eqb_spec (Z.land x a) 0) as [->|Ha]; [by rewrite Z.lor_0_l|].
  destruct (Z.eqb_spec (Z.lor (Z.land x a) (Z.land x b)) 0) as [[? _]%Z.lor_eq_0_iff|]; done.
Qed.

Lemma has_top x : 0 <= x < 2 ^ 32 -> has x (2 ^ 31) = (2 ^ 31 <=? x).
Proof.
  intros Hx. unfold has. rewrite Z.land_comm. destruct (Z.leb_spec (2 ^ 31) x) as [Hle|Hlt].
  - replace x with (1 * 2 ^ 31 + (x - 2 ^ 31)) by lia. rewrite <- lor_add, Z.land_lor_distr_r by lia.
    rewrite Z.mul_1_l, Z.land_diag. apply negb_true_iff, Z.eqb_neq. intros [? _]%Z.lor_eq_0_iff. lia.
  - rewrite <- (Z.mod_small x (2 ^ 31)), <- Z.land_ones by lia.
    rewrite (Z.land_comm x), Z.land_assoc. change (Z.land (2 ^ 31) (Z.ones 31)) with 0. by rewrite Z.land_0_l.
Qed.

Lemma land_low x k : 0 <= k -> Z.land x (Z.ones k) = x mod 2 ^ k.
Proof. intros. by apply Z.land_ones. Qed.

(** A property of the integers of an interval, by evaluation. *)
Lemma forall_below (P : Z -> bool) lo n : forallb P (seqZ lo n) = true -> forall x, lo <= x < lo + n -> P x = true.
Proof. rewrite List.forallb_forall. intros HP x Hx. apply HP, list_elem_of_In, elem_of_seqZ. lia. Qed.

(** ** Effects: state, stopping, fuel

    A C function that reads and writes static storage is a function of the
    state record of its component.  It either returns a value and the new
    state, or it stops: the process is aborted or exits, the behaviour of C
    is undefined, it waits for a lock that it holds itself, or (for loops whose length the host decides) the fuel of
    the model is spent. *)
Inductive stop : Type :=
  | Aborted
  | Trapped
  | Exited (code : Z)
  | Deadlock
  | Undefined
  | OutOfFuel.

Inductive outcome (A : Type) : Type :=
  | Ret (a : A)
  | Stop (r : stop).
Arguments Ret {A} _.
Arguments Stop {A} _.

Definition M (S A : Type) : Type := S -> outcome (A * S).

#[global] Instance M_ret S : MRet (M S) := fun A a s => Ret (a, s).
#[global] Instance M_bind S : MBind (M S) := fun A B f m s =>
  match m s with
  | Ret (a, s') => f a s'
  | Stop r => Stop r
  end.

Definition get {S} : M S S := fun s => Ret (s, s).
Definition put {S} (s : S) : M S unit := fun _ => Ret (tt, s).
Definition modify {S} (f : S -> S) : M S unit := fun s => Ret (tt, f s).
Definition gets {S A} (f : S -> A) : M S A := fun s => Ret (f s, s).
Definition halt {S A} (r : stop) : M S A := fun _ => Stop r.
Definition when {S} (b : bool) (m : M S unit) : M S unit :=
  if b then m else mret tt.

Lemma bind_Ret {S A B} (m : M S A) (f : A -> M S B) s a s' :
  m s = Ret (a, s') -> (m ≫= f) s = f a s'.
Proof. intros H. unfold mbind, M_bind. by rewrite H. Qed.

Lemma bind_assoc {S A B C} (m : M S A) (g : A -> M S B) (k : B -> M S C) s :
  mbind k (mbind g m) s = mbind (fun x => mbind k (g x)) m s.
Proof. unfold mbind, M_bind. by destruct (m s) as [[]|]. Qed.

Lemma bind_Stop {S A B} (m : M S A) (f : A -> M S B) s r : m s = Stop r -> (m ≫= f) s = Stop r.
Proof. intros H. unfold mbind, M_bind. by rewrite H. Qed.

Lemma get_Ret {S} (s : S) : get s = Ret (s, s).
Proof. reflexivity. Qed.

(** Steps through one monadic call whose result is known. *)
Ltac mstep H := rewrite (bind_Ret _ _ _ _ _ H).
(** Steps through a call at the head of the goal's left side that evaluates by
    computation, or by the given equation. *)
Ltac mnext := etransitivity; [eapply bind_Ret; reflexivity|]; cbn beta iota.
Ltac mnext_by H := etransitivity; [eapply bind_Ret; exact H|]; cbn beta iota.
(** Evaluates the state primitives in front of a monadic program. *)
Ltac mprim :=
  repeat (unfold mbind at 1, M_bind at 1, get at 1, put at 1, modify at 1,
          gets at 1, when at 1, mret at 1, M_ret at 1; cbn beta iota zeta).

(** ** C strings

    A C string is the list of its bytes, without the terminator: [at_ s i]
    is [s[i]], the terminator at [i = length s].  *)
Definition at_ (s : list Z) (i : nat) : Z := default 0 (s !! i).

Definition bytes_of (s : string) : list Z :=
  map (fun c => Z.of_N (Ascii.N_of_ascii c)) (String.list_ascii_of_string s).

Definition c_string (s : list Z) : Prop := Forall (fun b => 0 < b < 256) s.

(** The C string in a buffer: its bytes up to the first NUL. *)
Fixpoint c_str (l : list Z) : list Z :=
  match l with
  | [] => []
  | b :: l => if b =? 0 then [] else b :: c_str l
  end.

(** [memcmp] ([string/memcmp.c]). *)
Fixpoint memcmp (l r : list Z) (n : nat) : Z :=
  match n with
  | O => 0
  | S n => if at_ l 0 =? at_ r 0 then memcmp (tail l) (tail r) n else at_ l 0 - at_ r 0
  end.

Definition slash : Z := 47.
Definition dot : Z := 46.

Lemma at_lookup s i b : s !! i = Some b -> at_ s i = b.
Proof. unfold at_. by intros ->. Qed.
Lemma at_end s i : (length s <= i)%nat -> at_ s i = 0.
Proof. intros. unfold at_. by rewrite lookup_ge_None_2. Qed.
Lemma at_app_r (s t : list Z) i : at_ (s ++ t) (length s + i) = at_ t i.
Proof.
  unfold at_. rewrite lookup_app_r by lia. do 2 f_equal. lia.
Qed.

Lemma c_string_c_str s : c_string s -> c_str s = s.
Proof.
  induction 1 as [|b s Hb _ IH]; simpl; [done|]. destruct (Z.eqb_spec b 0); [lia|]. by rewrite IH.
Qed.

Lemma at_0_tail s i : at_ (tail s) i = at_ s (S i).
Proof. by destruct s. Qed.
Lemma at_cons b s i : at_ (b :: s) (S i) = at_ s i.
Proof. reflexivity. Qed.

(** On C strings a prefix test: [memcmp] stops at the first difference, so at
    the terminator of [l] at the latest. *)
Lemma memcmp_prefix l r n : c_string l -> c_string r -> (n <= length r)%nat ->
  memcmp l r n = 0 <-> take n r `prefix_of` l.
Proof.
  intros Hl Hr. revert l Hl n. induction Hr as [|b r Hb Hr IH]; intros l Hl n Hn; simpl in Hn.
  { replace n with O by lia. simpl. split; [intros _; apply prefix_nil|done]. }
  destruct n as [|n]; [simpl; split; [intros _; apply prefix_nil|done]|]. cbn [memcmp take].
  destruct Hl as [|a l Ha Hl]; cbn [tail].
  - change (at_ [] 0) with 0. change (at_ (b :: r) 0) with b. destruct (Z.eqb_spec 0 b); [lia|].
    split; [lia|intros Hp%prefix_length; simpl in Hp; lia].
  - change (at_ (a :: l) 0) with a. change (at_ (b :: r) 0) with b. destruct (Z.eqb_spec a b) as [->|Hab].
    + rewrite IH by (done || lia). split; [apply prefix_cons|apply prefix_cons_inv_2].
    + split; [lia|intros Hp%prefix_cons_inv_1; by subst].
Qed.

(** ** Comparison functions

    What C callers promise of a [cmp]: a total preorder. *)
Class Comparison {K} (cmp : K -> K -> Z) : Prop := {
  cmp_swap x y : Z.sgn (cmp y x) = - Z.sgn (cmp x y);
  cmp_le_trans x y z : cmp x y <= 0 -> cmp y z <= 0 -> cmp x z <= 0;
}.

Section Comparison.
Context {K : Type} (cmp : K -> K -> Z) `{!Comparison cmp}.

Lemma cmp_gt x y : 0 < cmp x y <-> cmp y x < 0.
Proof. pose proof (cmp_swap x y). lia. Qed.
Lemma cmp_ge x y : 0 <= cmp x y <-> cmp y x <= 0.
Proof. pose proof (cmp_swap x y). lia. Qed.
Lemma cmp_refl x : cmp x x = 0.
Proof. pose proof (cmp_swap x x). lia. Qed.
Lemma cmp_lt_trans x y z : cmp x y < 0 -> cmp y z <= 0 -> cmp x z < 0.
Proof.
  intros Hxy Hyz. assert (cmp x z <= 0) by (apply (cmp_le_trans x y z); lia).
  pose proof (cmp_swap x z). pose proof (cmp_swap x y). destruct (decide (cmp x z = 0)); [|lia].
  assert (cmp y x <= 0) by (apply (cmp_le_trans y z x); lia). lia.
Qed.
Lemma cmp_lt_trans' x y z : cmp x y <= 0 -> cmp y z < 0 -> cmp x z < 0.
Proof.
  intros Hxy Hyz. assert (cmp x z <= 0) by (apply (cmp_le_trans x y z); lia).
  pose proof (cmp_swap x z). pose proof (cmp_swap y z). destruct (decide (cmp x z = 0)); [|lia].
  assert (cmp z y <= 0) by (apply (cmp_le_trans z x y); lia). lia.
Qed.
End Comparison.

(** ** Hints *)
Create HintDb words.
Create Rewrite HintDb words.
#[export] Hint Rewrite w32_idem s64_add_l : words.
#[export] Hint Resolve w32_range w64_range w8_range s32_range : words.

(** ** Little-endian numbers *)
Fixpoint le (l : list Z) : Z := match l with [] => 0 | b :: l => b + 256 * le l end.
Fixpoint lb (n : nat) (x : Z) : list Z := match n with O => [] | S n => x mod 256 :: lb n (x / 256) end.

Lemma length_lb n x : length (lb n x) = n.
Proof. revert x. induction n as [|n IH]; intros x; simpl; [done|]. by rewrite IH. Qed.

Lemma le_lb n x : 0 <= x < 256 ^ Z.of_nat n -> le (lb n x) = x.
Proof.
  revert x. induction n as [|n IH]; intros x Hx; [simpl in *; lia|].
  rewrite Nat2Z.inj_succ, Z.pow_succ_r in Hx by lia. cbn [lb le]. rewrite IH.
  - pose proof (Z.div_mod x 256). lia.
  - split; [apply Z.div_pos; lia|apply Z.div_lt_upper_bound; lia].
Qed.
