(* ===== verification/Wasi.v ===== *)
(** The world below libc: the WASI imports, the [memory.size] and
    [memory.grow] instructions and the heap allocator, as classes over an
    abstract host state [W].  The host is not code of this repository, so the
    components are proved for every instance; what a theorem relies on is
    stated by the law classes, which record documented behaviour only.

    [Env] pairs [errno] with the host state: the state threaded through the
    thin system-call wrappers of the bottom half. *)
From S2P Require Import Prelude.

(** ** Error numbers ([__errno_values.h]: the WASI numbers) *)
Definition EACCES : Z := 2.
Definition EAGAIN : Z := 6.
Definition EBADF : Z := 8.
Definition EILSEQ : Z := 25.
Definition EINTR : Z := 27.
Definition EINVAL : Z := 28.
Definition EISDIR : Z := 31.
Definition ENOENT : Z := 44.
Definition ENOMEM : Z := 48.
Definition ENOSYS : Z := 52.
Definition ENOTDIR : Z := 54.
Definition ENOTSUP : Z := 58.
Definition EOVERFLOW : Z := 61.
Definition ERANGE : Z := 68.
Definition ESPIPE : Z := 70.
Definition ENOTCAPABLE : Z := 76.

(** ** Host data *)
Record fdstat := FdStat {
  fs_filetype : Z;
  fs_flags : Z;
  fs_rights_base : Z;
  fs_rights_inheriting : Z }.

Record filestat := FileStat {
  fst_dev : Z; fst_ino : Z; fst_filetype : Z; fst_nlink : Z;
  fst_size : Z; fst_atim : Z; fst_mtim : Z; fst_ctim : Z }.

Definition RIGHTS_FD_DATASYNC : Z := 1.
Definition RIGHTS_FD_ALLOCATE : Z := 256.
Definition RIGHTS_FD_READDIR : Z := 16384.
Definition RIGHTS_FD_FILESTAT_SET_SIZE : Z := 4194304.
Definition RIGHTS_FD_READ : Z := 2.
Definition RIGHTS_FD_WRITE : Z := 64.

(** ** Host operations: each returns the WASI error number and its results *)
Class WasiFd (W : Type) := {
  wasi_fd_pread : Z -> Z -> Z -> W -> Z * list Z * W;
  wasi_fd_pwrite : Z -> list Z -> Z -> W -> Z * Z * W;
  wasi_fd_dup : Z -> W -> Z * Z * W;
  wasi_fd_close : Z -> W -> Z * W;
  wasi_fd_fdstat_get : Z -> W -> Z * fdstat * W }.

(** A preopened resource: its tag and the length of its name. *)
Record prestat := Prestat { pr_tag : Z; pr_name_len : Z }.

(** Path operations.  A path is a C string; [wasi_getcwd] is told whether a
    buffer is given and its size, and returns the bytes it leaves there and
    the size it asks for.  A timestamp is [None] where the caller passes a
    variable it has not set. *)
Class WasiPath (W : Type) := {
  wasi_fd_prestat_get : Z -> W -> Z * prestat * W;
  wasi_fd_prestat_dir_name : Z -> Z -> W -> Z * list Z * W;
  wasi_getcwd : bool -> Z -> W -> Z * list Z * Z * W;
  wasi_chdir : list Z -> W -> Z * W;
  wasi_path_open2 : Z -> Z -> list Z -> Z -> Z -> Z -> Z -> Z -> W -> Z * Z * W;
  wasi_path_link : Z -> Z -> list Z -> Z -> list Z -> W -> Z * W;
  wasi_path_rename : Z -> list Z -> Z -> list Z -> W -> Z * W;
  wasi_path_symlink : list Z -> Z -> list Z -> W -> Z * W;
  wasi_path_readlink : Z -> list Z -> Z -> W -> Z * list Z * W;
  wasi_path_create_directory : Z -> list Z -> W -> Z * W;
  wasi_path_unlink_file : Z -> list Z -> W -> Z * W;
  wasi_path_remove_directory : Z -> list Z -> W -> Z * W;
  wasi_path_filestat_get : Z -> Z -> list Z -> W -> Z * filestat * W;
  wasi_path_filestat_set_times : Z -> Z -> list Z -> option Z -> option Z -> Z -> W -> Z * W;
  wasi_fd_filestat_get : Z -> W -> Z * filestat * W;
  wasi_fd_filestat_set_times : Z -> option Z -> option Z -> Z -> W -> Z * W }.

Class WasmMem (W : Type) := {
  memory_size : W -> Z;
  memory_grow : Z -> W -> Z * W }.

(** The allocator: whether a request of the given size succeeds. *)
Class Alloc (W : Type) := {
  malloc_ok : Z -> W -> bool * W }.

Record env (W : Type) := Env { errno : Z; world : W }.
Arguments Env {W} _ _.
Arguments errno {W} _.
Arguments world {W} _.

Definition set_errno {W} (e : Z) : M (env W) unit :=
  fun s => Ret (tt, Env e (world s)).

(** Runs a host operation on the world inside [env]. *)
Definition host {W A} (f : W -> A * W) : M (env W) A :=
  fun s => let '(a, w) := f (world s) in Ret (a, Env (errno s) w).

(** ** Laws of the host *)

(** Interrupted or empty transfers are retried by the callers, so what makes
    those loops end is that the host does not interrupt for ever: [budget]
    bounds how many more transfers it leaves without progress. *)
Class Patience (W : Type) := { budget : W -> nat }.

(** How the world may move under a host operation other than [memory.grow]:
    memory never shrinks, patience never grows. *)
Definition host_le {W} `{WasmMem W, Patience W} (w w' : W) : Prop :=
  memory_size w <= memory_size w' /\ (budget w' <= budget w)%nat.

#[export] Instance host_le_preorder {W} `{WasmMem W, Patience W} : PreOrder (host_le (W := W)).
Proof. split; [intros ?; split; lia | intros ??? [] []; split; lia]. Qed.

(** WebAssembly: growing by [n] pages returns the old size and adds [n] pages,
    or returns -1 and changes nothing; a memory has at most 65536 pages, that is
    4 GiB. *)
Class WasmMemLaws (W : Type) `{WasmMem W, Patience W} := {
  memory_size_range : forall w, 0 <= memory_size w <= 65536;
  memory_grow_spec : forall n w r w', 0 < n -> memory_grow n w = (r, w') ->
    (budget w' <= budget w)%nat /\
    ((r = memory_size w /\ memory_size w' = memory_size w + n) \/
     (r = 2 ^ 32 - 1 /\ memory_size w' = memory_size w)) }.

(** The configuration of a program whose memory has a declared maximum below
    4 GiB, so that no address reaches [2^32].  It is not a law of hosts: a
    program may be linked with [--max-memory=4294967296]. *)
Class Below4GiB (W : Type) `{WasmMem W} : Prop := below_4GiB : forall w : W, memory_size w < 65536.

Lemma memory_size_below {W} `{WasmMemLaws W} `{!Below4GiB W} (w : W) : 0 <= memory_size w < 65536.
Proof. pose proof (memory_size_range w). pose proof (below_4GiB w). lia. Qed.

(** System calls read at most what was asked for and write at most what they
    are given; a transfer that moves nothing uses up patience. *)
Class WasiFdLaws (W : Type) `{WasiFd W, WasmMem W, Patience W} := {
  pread_spec : forall fd n o w e l w', wasi_fd_pread fd n o w = (e, l, w') -> 0 <= n ->
    host_le w w' /\ Z.of_nat (length l) <= n /\ Forall (fun b => 0 <= b < 256) l /\
    (e = EINTR -> (budget w' < budget w)%nat);
  pwrite_spec : forall fd l o w e n w', wasi_fd_pwrite fd l o w = (e, n, w') ->
    host_le w w' /\ 0 <= n <= Z.of_nat (length l) /\
    (e = EINTR \/ (e = 0 /\ n = 0 /\ l <> []) -> (budget w' < budget w)%nat);
  dup_spec : forall fd w e n w', wasi_fd_dup fd w = (e, n, w') -> host_le w w';
  close_spec : forall fd w e w', wasi_fd_close fd w = (e, w') -> host_le w w';
  fdstat_spec : forall fd w e st w', wasi_fd_fdstat_get fd w = (e, st, w') -> host_le w w' }.

Class AllocLaws (W : Type) `{Alloc W, WasmMem W, Patience W} := {
  malloc_spec : forall n w b w', malloc_ok n w = (b, w') -> host_le w w' }.

(** A file that nobody writes while it is read: [file_byte fd i] is its byte at
    offset [i], [None] past the end.  A read that returns nothing is at the
    end of the file. *)
Class StableFile (W : Type) `{WasiFd W} := {
  file_byte : Z -> Z -> option Z;
  pread_bytes : forall fd n o w l w', wasi_fd_pread fd n o w = (0, l, w') -> 0 < n ->
    (forall i b, l !! i = Some b -> file_byte fd (o + Z.of_nat i) = Some b) /\
    (l = [] -> forall j, o <= j -> file_byte fd j = None) }.

(** A file store: [stored w fd i] is the byte at offset [i] of the file behind
    [fd].  A successful write of [n] bytes replaces exactly those bytes; a
    failed one, or a rights query, changes nothing. *)
Class FileStore (W : Type) `{WasiFd W} := {
  stored : W -> Z -> Z -> Z;
  pwrite_stored : forall fd l o w e n w', wasi_fd_pwrite fd l o w = (e, n, w') ->
    forall j, stored w' fd j =
      if (e =? 0) && (o <=? j) && (j <? o + n) then default 0 (l !! Z.to_nat (j - o)) else stored w fd j;
  fdstat_stored : forall fd w e st w', wasi_fd_fdstat_get fd w = (e, st, w') ->
    forall fd' j, stored w' fd' j = stored w fd' j }.
