(* ===== verification/Sim.v ===== *)
(** Two small concrete hosts that satisfy the laws of [Wasi], so that the
    theorems proved for every host can be run: [ro], whose files never change,
    and [rw], a store of writable files.  Both interrupt the first transfers
    ([EINTR]) until their patience is spent. *)
From S2P Require Import Prelude.
From S2P Require Import Wasi.

(** ** Memory, shared by both hosts *)
Record ro := Ro { ro_pages : nat; ro_budget : nat }.
Record rw := Rw { rw_pages : nat; rw_budget : nat; rw_store : Z -> Z -> Z }.

Definition size_of (pages : nat) : Z := Z.min (Z.of_nat pages) 65535.

#[export] Instance ro_patience : Patience ro := {| budget := ro_budget |}.
#[export] Instance rw_patience : Patience rw := {| budget := rw_budget |}.

#[export] Instance ro_mem : WasmMem ro := {|
  memory_size w := size_of (ro_pages w);
  memory_grow n w :=
    let n0 := size_of (ro_pages w) in
    if n0 + n <? 65536 then (n0, Ro (Z.to_nat (n0 + n)) (ro_budget w)) else (2 ^ 32 - 1, w) |}.
#[export] Instance rw_mem : WasmMem rw := {|
  memory_size w := size_of (rw_pages w);
  memory_grow n w :=
    let n0 := size_of (rw_pages w) in
    if n0 + n <? 65536 then (n0, Rw (Z.to_nat (n0 + n)) (rw_budget w) (rw_store w)) else (2 ^ 32 - 1, w) |}.

Lemma size_of_range p : 0 <= size_of p < 65536.
Proof. unfold size_of. lia. Qed.
Lemma size_of_to_nat z : 0 <= z < 65536 -> size_of (Z.to_nat z) = z.
Proof. unfold size_of. lia. Qed.

#[export] Instance ro_mem_laws : WasmMemLaws ro.
Proof.
  split; [intros w; pose proof (size_of_range (ro_pages w)); simpl; lia|]. intros n w r w' Hn. simpl.
  pose proof (size_of_range (ro_pages w)). destruct (Z.ltb_spec (size_of (ro_pages w) + n) 65536);
    intros [= <- <-]; simpl; (split; [lia|]); [left|right; done].
  by rewrite size_of_to_nat by lia.
Qed.
#[export] Instance rw_mem_laws : WasmMemLaws rw.
Proof.
  split; [intros w; pose proof (size_of_range (rw_pages w)); simpl; lia|]. intros n w r w' Hn. simpl.
  pose proof (size_of_range (rw_pages w)). destruct (Z.ltb_spec (size_of (rw_pages w) + n) 65536);
    intros [= <- <-]; simpl; (split; [lia|]); [left|right; done].
  by rewrite size_of_to_nat by lia.
Qed.

#[export] Instance ro_below : Below4GiB ro.
Proof. intros w. apply size_of_range. Qed.
#[export] Instance rw_below : Below4GiB rw.
Proof. intros w. apply size_of_range. Qed.

#[export] Instance ro_alloc : Alloc ro := {| malloc_ok n w := (true, w) |}.
#[export] Instance rw_alloc : Alloc rw := {| malloc_ok n w := (true, w) |}.
#[export] Instance ro_alloc_laws : AllocLaws ro.
Proof. split. intros n w b w' [= <- <-]. reflexivity. Qed.
#[export] Instance rw_alloc_laws : AllocLaws rw.
Proof. split. intros n w b w' [= <- <-]. reflexivity. Qed.

(** ** Files *)

(** The contents of every read-only file. *)
Definition greeting : list Z := bytes_of "hello"%string.

#[export] Instance ro_fd : WasiFd ro := {|
  wasi_fd_pread fd n o w :=
    if o <? 0 then (EINVAL, [], w) else
    match ro_budget w with
    | O => (0, take (Z.to_nat n) (drop (Z.to_nat o) greeting), w)
    | S b => (EINTR, [], Ro (ro_pages w) b)
    end;
  wasi_fd_pwrite fd l o w := (EBADF, 0, w);
  wasi_fd_dup fd w := (0, fd + 100, w);
  wasi_fd_close fd w := (0, w);
  wasi_fd_fdstat_get fd w := (0, FdStat 4 0 RIGHTS_FD_READ 0, w) |}.

#[export] Instance rw_fd : WasiFd rw := {|
  wasi_fd_pread fd n o w := (0, map (fun i => rw_store w fd i `mod` 256) (seqZ o n), w);
  wasi_fd_pwrite fd l o w :=
    match rw_budget w with
    | O => (0, Z.of_nat (length l),
            Rw (rw_pages w) 0 (fun fd' j =>
              if (fd' =? fd) && (o <=? j) && (j <? o + Z.of_nat (length l))
              then default 0 (l !! Z.to_nat (j - o)) else rw_store w fd' j))
    | S b => (EINTR, 0, Rw (rw_pages w) b (rw_store w))
    end;
  wasi_fd_dup fd w := (0, fd + 100, w);
  wasi_fd_close fd w := (0, w);
  wasi_fd_fdstat_get fd w := (0, FdStat 4 0 RIGHTS_FD_WRITE 0, w) |}.

#[export] Instance ro_fd_laws : WasiFdLaws ro.
Proof.
  split; simpl.
  - intros fd n o w e l w' Hp Hn. destruct (o <? 0); [by simplify_eq|].
    destruct (ro_budget w) as [|b] eqn:Hb; simplify_eq.
    + split; [reflexivity|]. split; [rewrite length_take; lia|]. split; [|done].
      apply Forall_take, Forall_drop. repeat constructor; vm_compute; done.
    + split; [split; simpl; lia|]. split; [simpl; lia|]. split; [done|]. simpl. lia.
  - intros fd l o w e n w' [= <- <- <-]. split; [reflexivity|]. split; [lia|]. intros [?|(?&?&?)]; done.
  - intros fd w e n w' [= <- <- <-]. reflexivity.
  - intros fd w e w' [= <- <-]. reflexivity.
  - intros fd w e st w' [= <- <- <-]. reflexivity.
Qed.

#[export] Instance rw_fd_laws : WasiFdLaws rw.
Proof.
  split; simpl.
  - intros fd n o w e l w' [= <- <- <-] Hn. split; [reflexivity|].
    split; [rewrite length_map, length_seqZ; lia|]. split; [|done].
    apply Forall_forall. intros b (i & -> & _)%list_elem_of_fmap. by apply Z.mod_pos_bound.
  - intros fd l o w e n w' Hp. destruct (rw_budget w) as [|b] eqn:Hb; simplify_eq.
    + split; [split; simpl; lia|]. split; [lia|]. intros [?|(_&Hl&Hn)]; [done|]. by destruct l.
    + split; [split; simpl; lia|]. split; [lia|]. simpl. lia.
  - intros fd w e n w' [= <- <- <-]. reflexivity.
  - intros fd w e w' [= <- <-]. reflexivity.
  - intros fd w e st w' [= <- <- <-]. reflexivity.
Qed.

#[export] Instance ro_stable : StableFile ro.
Proof.
  refine {| file_byte fd i := if i <? 0 then None else greeting !! Z.to_nat i |}.
  intros fd n o w l w' Hp Hn. simpl in Hp. destruct (Z.ltb_spec o 0); [done|].
  destruct (ro_budget w); simplify_eq. split.
  - intros i b [Hi ?]%lookup_take_Some. rewrite lookup_drop in Hi.
    destruct (Z.ltb_spec (o + Z.of_nat i) 0); [lia|]. rewrite <- Hi. f_equal. lia.
  - intros Hl j Hj. destruct (Z.ltb_spec j 0); [lia|]. apply lookup_ge_None_2.
    assert (Hlen : length (take (Z.to_nat n) (drop (Z.to_nat o) greeting)) = 0%nat) by (by rewrite Hl).
    rewrite length_take, length_drop in Hlen. lia.
Defined.

#[export] Instance rw_files : FileStore rw.
Proof.
  refine {| stored := rw_store |}; [|by intros fd w e st w' [= <- <- <-]].
  intros fd l o w e n w' Hp j. simpl in Hp. destruct (rw_budget w); simplify_eq; simpl; [|done].
  by rewrite Z.eqb_refl.
Defined.

(** The state and the value a run leaves. *)
Definition after {S A} (m : M S A) (s : S) : S :=
  match m s with Ret (_, s') => s' | Stop _ => s end.
Definition result {S A} (m : M S A) (s : S) : option A :=
  match m s with Ret (a, _) => Some a | Stop _ => None end.

(** So that a run can be evaluated without evaluating the state it leaves. *)
Lemma result_after {S A} (m : M S A) s a : result m s = Some a -> m s = Ret (a, after m s).
Proof. unfold result, after. destruct (m s) as [[a' s']|]; [|done]. by intros [= ->]. Qed.
