(* ===== verification/Unistd.v ===== *)
(** The file-descriptor wrappers of [libc-bottom-half/cloudlibc/src/libc/unistd]
    that other components call, over the host operations of [Wasi]. *)
From S2P Require Import Prelude.
From S2P Require Import Wasi.

Section Unistd.
  Context {W : Type} `{WasiFd W}.

(** Why a transfer was refused: [ENOTCAPABLE] is refined by the rights of the
    descriptor, as in [pread] and [pwrite]. *)
Definition refine_notcapable (fildes right error : Z) : M (env W) Z :=
  if error =? ENOTCAPABLE then
    '(e, fds) ← host (wasi_fd_fdstat_get fildes);
    if e =? 0 then
      mret (if Z.land (fs_rights_base fds) right =? 0 then EBADF else ESPIPE)
    else mret error
  else mret error.

(** [pread]: the return value and the bytes stored at [buf]. *)
Definition pread (fildes nbyte offset : Z) : M (env W) (Z * list Z) :=
  if offset <? 0 then set_errno EINVAL;; mret (-1, []) else
  '(error, l) ← host (wasi_fd_pread fildes nbyte (w64 offset));
  if error =? 0 then mret (s32 (Z.of_nat (length l)), l)
  else
    error' ← refine_notcapable fildes RIGHTS_FD_READ error;
    set_errno error';; mret (-1, []).

Definition pwrite (fildes : Z) (buf : list Z) (offset : Z) : M (env W) Z :=
  if offset <? 0 then set_errno EINVAL;; mret (-1) else
  '(error, n) ← host (wasi_fd_pwrite fildes buf (w64 offset));
  if error =? 0 then mret (s32 n)
  else
    error' ← refine_notcapable fildes RIGHTS_FD_WRITE error;
    set_errno error';; mret (-1).

Definition dup (fd : Z) : M (env W) Z :=
  '(error, newfd) ← host (wasi_fd_dup fd);
  if error =? 0 then mret newfd else set_errno error;; mret (-1).

Definition close (fildes : Z) : M (env W) Z :=
  error ← host (wasi_fd_close fildes);
  if error =? 0 then mret 0 else set_errno error;; mret (-1).

End Unistd.

(** ** What the callers rely on *)
Section Laws.
  Context {W : Type} `{WasiFdLaws W}.

Definition env_le (e e' : env W) : Prop := host_le (world e) (world e').

#[export] Instance env_le_preorder : PreOrder env_le.
Proof. split; [intros ?; unfold env_le; reflexivity | intros ???; unfold env_le; apply transitivity]. Qed.

Lemma refine_notcapable_spec fd right er e :
  exists er' e', refine_notcapable fd right er e = Ret (er', e') /\ env_le e e' /\
    (er' = EINTR -> er = EINTR).
Proof.
  unfold refine_notcapable. destruct (er =? ENOTCAPABLE) eqn:E.
  - unfold mbind, M_bind, host.
    destruct (wasi_fd_fdstat_get fd (world e)) as [[e1 st] w1] eqn:Hf.
    apply fdstat_spec in Hf. apply Z.eqb_eq in E as ->.
    destruct (e1 =? 0); [destruct (Z.land _ _ =? 0)|]; eexists _, _;
      (split; [reflexivity | split; [exact Hf | done]]).
  - eexists _, e. split; [reflexivity | split; [reflexivity | done]].
Qed.

(** [pread] always returns; it yields at most [n] bytes, a negative result
    sets [errno], and an interrupted call has used up patience. *)
Lemma pread_total fd n o e : 0 <= n < 2 ^ 31 ->
  exists r l e', pread fd n o e = Ret ((r, l), e') /\ env_le e e' /\
    ((r = Z.of_nat (length l) /\ r <= n /\ Forall (fun b => 0 <= b < 256) l) \/
     (r = -1 /\ l = [] /\ (errno e' = EINTR -> (budget (world e') < budget (world e))%nat))).
Proof.
  intros Hn. unfold pread. destruct (o <? 0).
  { eexists _, _, _. split; [reflexivity|]. split; [unfold env_le; simpl; reflexivity|]. right. done. }
  unfold mbind at 1, M_bind at 1, host.
  destruct (wasi_fd_pread fd n (w64 o) (world e)) as [[er l] w'] eqn:Hp.
  apply pread_spec in Hp as (Hle & Hlen & Hb & Hi); [|lia].
  destruct (er =? 0) eqn:E0.
  - eexists _, _, _. split; [reflexivity|]. split; [exact Hle|]. left.
    rewrite s32_small by lia. done.
  - destruct (refine_notcapable_spec fd RIGHTS_FD_READ er (Env (errno e) w')) as (er' & e' & Hr & Hle' & Hi').
    rewrite (bind_Ret _ _ _ _ _ Hr). eexists _, _, _. split; [reflexivity|].
    destruct Hle, Hle' as [? Hb']. simpl in Hb'. split; [split; simpl in *; lia|]. right.
    split_and!; [done..|]. simpl. intros ?%Hi'%Hi. lia.
Qed.

(** [pwrite] likewise; a call that writes nothing has used up patience. *)
Lemma pwrite_total fd l o e : Z.of_nat (length l) < 2 ^ 31 ->
  exists r e', pwrite fd l o e = Ret (r, e') /\ env_le e e' /\
    ((0 <= r <= Z.of_nat (length l) /\ (r = 0 -> l <> [] -> (budget (world e') < budget (world e))%nat)) \/
     (r = -1 /\ (errno e' = EINTR -> (budget (world e') < budget (world e))%nat))).
Proof.
  intros Hl. unfold pwrite. destruct (o <? 0).
  { eexists _, _. split; [reflexivity|]. split; [unfold env_le; simpl; reflexivity|]. right. done. }
  unfold mbind at 1, M_bind at 1, host.
  destruct (wasi_fd_pwrite fd l (w64 o) (world e)) as [[er n] w'] eqn:Hp.
  apply pwrite_spec in Hp as (Hle & Hn & Hi).
  destruct (er =? 0) eqn:E0.
  - eexists _, _. split; [reflexivity|]. split; [exact Hle|]. left.
    rewrite s32_small by lia. split; [lia|]. intros ??. apply Hi. right. split_and!; [lia..|done].
  - destruct (refine_notcapable_spec fd RIGHTS_FD_WRITE er (Env (errno e) w')) as (er' & e' & Hr & Hle' & Hi').
    rewrite (bind_Ret _ _ _ _ _ Hr). eexists _, _. split; [reflexivity|].
    destruct Hle, Hle' as [? Hb']. simpl in Hb'. split; [split; simpl in *; lia|]. right.
    split; [done|]. simpl. intros He%Hi'. specialize (Hi (or_introl He)). lia.
Qed.

Lemma dup_total fd e : exists r e', dup fd e = Ret (r, e') /\ env_le e e'.
Proof.
  unfold dup, mbind, M_bind, host. destruct (wasi_fd_dup fd (world e)) as [[er n] w'] eqn:Hd.
  apply dup_spec in Hd. destruct (er =? 0); eexists _, _; (split; [reflexivity|exact Hd]).
Qed.

Lemma close_total fd e : exists r e', close fd e = Ret (r, e') /\ env_le e e'.
Proof.
  unfold close, mbind, M_bind, host. destruct (wasi_fd_close fd (world e)) as [er w'] eqn:Hd.
  apply close_spec in Hd. destruct (er =? 0); eexists _, _; (split; [reflexivity|exact Hd]).
Qed.

End Laws.

Lemma pread_stable {W} `{StableFile W} fd n o e r l e' :
  pread fd n o e = Ret ((r, l), e') -> 0 <= o < 2 ^ 63 -> 0 < n -> 0 <= r ->
  (forall i b, l !! i = Some b -> file_byte fd (o + Z.of_nat i) = Some b) /\
  (l = [] -> forall j, o <= j -> file_byte fd j = None).
Proof.
  intros Hp Ho Hn Hr. unfold pread in Hp. replace (o <? 0) with false in Hp by lia.
  unfold mbind at 1, M_bind at 1, host in Hp. rewrite w64_small in Hp by lia.
  destruct (wasi_fd_pread fd n o (world e)) as [[er l'] w'] eqn:Hf. cbn beta iota in Hp.
  destruct (Z.eqb_spec er 0) as [->|].
  - injection Hp as <- <- <-. by apply pread_bytes in Hf.
  - exfalso. unfold mbind, M_bind in Hp. destruct (refine_notcapable _ _ _ _) as [[er' e1]|]; [|done].
    simpl in Hp. injection Hp as <- _ _. lia.
Qed.

Lemma refine_notcapable_stored {W} `{FileStore W} fd right er e er' e' :
  refine_notcapable fd right er e = Ret (er', e') ->
  forall fd' j, stored (world e') fd' j = stored (world e) fd' j.
Proof.
  unfold refine_notcapable. destruct (er =? ENOTCAPABLE); [|by intros [= <- <-]].
  unfold mbind, M_bind, host. destruct (wasi_fd_fdstat_get fd (world e)) as [[e1 st] w1] eqn:Hf.
  pose proof (fdstat_stored _ _ _ _ _ Hf) as Hs.
  cbn beta iota. destruct (e1 =? 0); [destruct (Z.land _ _ =? 0)|]; intros [= <- <-]; exact Hs.
Qed.

(** A [pwrite] that returns [n >= 0] has stored the first [n] bytes of the
    buffer; one that returns -1 has stored nothing. *)
Lemma pwrite_store {W} `{FileStore W, Patience W, WasmMem W, !WasiFdLaws W} fd l o e r e' :
  pwrite fd l o e = Ret (r, e') -> 0 <= o < 2 ^ 63 -> Z.of_nat (length l) < 2 ^ 31 ->
  forall j, stored (world e') fd j =
    if (o <=? j) && (j <? o + r) then default 0 (l !! Z.to_nat (j - o)) else stored (world e) fd j.
Proof.
  intros Hp Ho Hl. unfold pwrite in Hp. replace (o <? 0) with false in Hp by lia.
  unfold mbind at 1, M_bind at 1, host in Hp. rewrite w64_small in Hp by lia.
  destruct (wasi_fd_pwrite fd l o (world e)) as [[er n] w'] eqn:Hf. cbn beta iota in Hp.
  pose proof (pwrite_stored _ _ _ _ _ _ _ Hf) as Hs.
  pose proof (pwrite_spec _ _ _ _ _ _ _ Hf) as (_ & Hn & _).
  destruct (Z.eqb_spec er 0) as [->|].
  - rewrite s32_small in Hp by lia. injection Hp as <- <-. exact Hs.
  - unfold mbind, M_bind in Hp.
    destruct (refine_notcapable _ _ _ _) as [[er' e1]|] eqn:Hr; [|done].
    simpl in Hp. injection Hp as <- <-. intros j. simpl.
    rewrite (refine_notcapable_stored _ _ _ _ _ _ Hr). simpl. rewrite Hs.
    simpl. destruct ((o <=? j) && (j <? o + -1)) eqn:E; [lia|done].
Qed.
