(* ===== verification/Mman.v ===== *)
(** Userspace [mmap], [munmap] and [msync] over a region table
    ([libc-bottom-half/mman/mman.c], [sources/sbrk.c]). *)
From S2P Require Import Prelude.
From S2P Require Import Wasi.
From S2P Require Import Unistd.

(** ** Data *)

Definition PAGE : Z := 65536.

Record file_ref := FileRef { fr_fd : Z; fr_refs : Z }.

Inductive rkind := R_FREE | R_ANON | R_FILE.

#[export] Instance rkind_eq : EqDecision rkind.
Proof. solve_decision. Defined.

(** [fref] is the address of a [file_ref] block, [None] for [NULL]. *)
Record region := Region {
  base : Z; len : Z; kind : rkind; dirty : bool; prot : Z; flags : Z;
  fref : option Z; off : Z; data_len : Z }.

#[export] Instance region_eq : EqDecision region.
Proof. solve_decision. Defined.

(** The static table, the [file_ref] blocks on the heap, linear memory, and
    [errno] with the host. *)
Record mstate (W : Type) := MState {
  regs : list region;
  capregs : Z;
  frefs : gmap Z file_ref;
  mem : Z -> Z;
  menv : env W }.
Arguments MState {W} _ _ _ _ _.
Arguments regs {W} _.
Arguments capregs {W} _.
Arguments frefs {W} _.
Arguments mem {W} _ _.
Arguments menv {W} _.

Definition MAP_SHARED : Z := 1.
Definition MAP_PRIVATE : Z := 2.
Definition MAP_SHARED_VALIDATE : Z := 3.
Definition MAP_FIXED : Z := 16.
Definition MAP_ANON : Z := 32.
Definition MAP_GROWSDOWN : Z := 256.
Definition MAP_HUGETLB : Z := 262144.
Definition MAP_FIXED_NOREPLACE : Z := 1048576.
Definition PROT_NONE : Z := 0.
Definition PROT_WRITE : Z := 2.
Definition PROT_EXEC : Z := 4.
Definition MS_ASYNC : Z := 1.
Definition MS_INVALIDATE : Z := 2.
Definition MS_SYNC : Z := 4.
Definition PTRDIFF_MAX : Z := 2 ^ 31 - 1.
Definition MAP_FAILED : Z := 2 ^ 32 - 1.

Definition page_ceil (n : Z) : Z :=
  Z.land (w32 (n + PAGE - 1)) (w32 (Z.lnot (PAGE - 1))).

(** [regs[i].base + regs[i].len], on [uintptr_t]. *)
Definition rend (r : region) : Z := w32 (base r + len r).

(** ** The table *)

(** The binary search of [first_overlap]; the interval halves each turn. *)
Fixpoint first_overlap_loop (fuel : nat) (rs : list region) (addr : Z) (lo hi : nat) : option nat :=
  if bool_decide (lo < hi)%nat then
    match fuel with
    | O => None
    | S fuel =>
        let mid := (lo + (hi - lo) / 2)%nat in
        match rs !! mid with
        | None => None
        | Some r => if rend r <=? addr then first_overlap_loop fuel rs addr (S mid) hi
                    else first_overlap_loop fuel rs addr lo mid
        end
    end
  else Some lo.

Definition first_overlap (rs : list region) (addr : Z) : nat :=
  default 0%nat (first_overlap_loop (length rs) rs addr 0 (length rs)).

Definition insert_at (i : nat) (r : region) (rs : list region) : list region :=
  take i rs ++ r :: drop i rs.

Definition remove_at (i : nat) (rs : list region) : list region :=
  take i rs ++ drop (S i) rs.

Fixpoint coalesce_loop (fuel : nat) (i : nat) (en : Z) (rs : list region) : list region :=
  match fuel with
  | O => rs
  | S fuel =>
      match rs !! i, rs !! S i with
      | Some r, Some r' =>
          if base r <=? en then
            if bool_decide (kind r = R_FREE) && bool_decide (kind r' = R_FREE)
               && (rend r =? base r') then
              let r1 := Region (base r) (w32 (len r + len r')) (kind r) (dirty r || dirty r')
                          (prot r) (flags r) (fref r) (off r) (data_len r) in
              coalesce_loop fuel i en (remove_at (S i) (<[i := r1]> rs))
            else coalesce_loop fuel (S i) en rs
          else rs
      | _, _ => rs
      end
  end.

Definition coalesce_around (start en : Z) (rs : list region) : list region :=
  let i := first_overlap rs start in
  coalesce_loop (length rs) (pred i) en rs.

Section Mman.
  Context {W : Type} `{WasiFd W, WasmMem W, Alloc W}.

Abbreviation MM := (M (mstate W)).

Definition set_regs (rs : list region) : MM unit :=
  modify (fun s => MState rs (capregs s) (frefs s) (mem s) (menv s)).
Definition set_frefs (f : gmap Z file_ref) : MM unit :=
  modify (fun s => MState (regs s) (capregs s) f (mem s) (menv s)).
Definition set_mem (m : Z -> Z) : MM unit :=
  modify (fun s => MState (regs s) (capregs s) (frefs s) m (menv s)).

(** Calls a wrapper of [Unistd], which touches [errno] and the host only. *)
Definition call {A} (m : M (env W) A) : MM A := fun s =>
  match m (menv s) with
  | Ret (a, e) => Ret (a, MState (regs s) (capregs s) (frefs s) (mem s) e)
  | Stop r => Stop r
  end.

Definition fail_errno (e : Z) : MM unit := call (set_errno e).

(** [memset(p, 0, n)] and the store of a read buffer at [p]. *)
Definition zero_fill (p n : Z) (m : Z -> Z) : Z -> Z :=
  fun a => if (p <=? a) && (a <? p + n) then 0 else m a.
Definition store_bytes (p : Z) (l : list Z) (m : Z -> Z) : Z -> Z :=
  fun a => if (p <=? a) && (a <? p + Z.of_nat (length l))
           then default 0 (l !! Z.to_nat (a - p)) else m a.
Definition load_bytes (p n : Z) (m : Z -> Z) : list Z := map m (seqZ p n).

(** ** [reserve] *)
Fixpoint grow_cap (fuel : nat) (newcap need : Z) : option Z :=
  if newcap <? need then
    match fuel with
    | O => None
    | S fuel => grow_cap fuel (w32 (newcap * 2)) need
    end
  else Some newcap.

Definition SIZEOF_REGION : Z := 48.

(** The doubling starts at 16 or above, so 32 turns reach any [size_t]. *)
Definition reserve (extra : Z) : MM Z :=
  s ← get;
  let nregs := Z.of_nat (length (regs s)) in
  if w32 (nregs + extra) <=? capregs s then mret 0 else
  let cap0 := if capregs s =? 0 then 16 else w32 (capregs s * 2) in
  match grow_cap 32 cap0 (w32 (nregs + extra)) with
  | None => halt OutOfFuel
  | Some newcap =>
      ok ← call (host (malloc_ok (w32 (newcap * SIZEOF_REGION))));
      if ok : bool then
        modify (fun s => MState (regs s) newcap (frefs s) (mem s) (menv s));; mret 0
      else mret (-1)
  end.

(** ** [sbrk] ([sources/sbrk.c]) *)
Definition sbrk (increment : Z) : M (env W) Z :=
  s ← get;
  if increment =? 0 then mret (w32 (memory_size (world s) * PAGE)) else
  if negb (Z.rem increment PAGE =? 0) then halt Aborted else
  if increment <? 0 then halt Aborted else
  old ← host (memory_grow (Z.quot increment PAGE));
  if old =? 2 ^ 32 - 1 then set_errno ENOMEM;; mret MAP_FAILED
  else mret (w32 (old * PAGE)).

(** ** [file_ref] blocks *)
Definition fref_release (fr : option Z) : MM unit :=
  match fr with
  | None => mret tt
  | Some p =>
      s ← get;
      match frefs s !! p with
      | None => halt Undefined
      | Some b =>
          let refs' := w32 (fr_refs b - 1) in
          if refs' =? 0 then
            call (close (fr_fd b));; set_frefs (delete p (frefs s))
          else set_frefs (<[p := FileRef (fr_fd b) refs']> (frefs s))
      end
  end.

Definition fref_retain (fr : option Z) : MM unit :=
  match fr with
  | None => mret tt
  | Some p =>
      s ← get;
      match frefs s !! p with
      | None => halt Undefined
      | Some b => set_frefs (<[p := FileRef (fr_fd b) (w32 (fr_refs b + 1))]> (frefs s))
      end
  end.

(** ** [writeback]

    [io_fuel] bounds the turns of the loops whose length the host decides
    (a transfer interrupted by a signal is retried for ever). *)
Variable io_fuel : nat.

Fixpoint writeback_loop (fuel : nat) (fd body remaining offset : Z) : MM Z :=
  if 0 <? remaining then
    match fuel with
    | O => halt OutOfFuel
    | S fuel =>
        s ← get;
        n ← call (pwrite fd (load_bytes body remaining (mem s)) offset);
        if n <? 0 then
          s' ← get;
          if errno (menv s') =? EINTR then writeback_loop fuel fd body remaining offset
          else mret (-1)
        else writeback_loop fuel fd (w32 (body + n)) (w32 (remaining - n)) (s64 (offset + n))
    end
  else mret 0.

Definition writeback (r : region) (start en : Z) : MM Z :=
  let backed_end := w32 (base r + data_len r) in
  let en := if backed_end <? en then backed_end else en in
  if en <=? start then mret 0 else
  s ← get;
  match fref r ≫= (fun p => frefs s !! p) with
  | None => halt Undefined
  | Some b => writeback_loop io_fuel (fr_fd b) start (w32 (en - start))
                (s64 (off r + (start - base r)))
  end.

(** ** [acquire_pages] *)
Definition is_free_fit (n : Z) (r : region) : Prop := kind r = R_FREE /\ n <= len r.

#[local] Instance is_free_fit_dec n r : Decision (is_free_fit n r).
Proof. unfold is_free_fit. apply _. Defined.

(** The region handed out from the free region [r], which is rewritten field
    by field, and what is left of [r] when it is larger. *)
Definition taken (r : region) (n : Z) (k : rkind) (pr fl : Z) : region :=
  Region (base r) n k false pr fl None 0 0.
Definition rest_of (r : region) (n : Z) : region :=
  Region (w32 (base r + n)) (w32 (len r - n)) (kind r) (dirty r) (prot r) (flags r)
    (fref r) (off r) (data_len r).

Definition acquire_pages (n : Z) (k : rkind) (pr fl : Z) : MM (option nat) :=
  s ← get;
  match list_find (is_free_fit n) (regs s) with
  | Some (i, r) =>
      (if n <? len r then
         set_regs (insert_at i (taken r n k pr fl) (<[i := rest_of r n]> (regs s)))
       else set_regs (<[i := taken r (len r) k pr fl]> (regs s)));;
      when (dirty r) (set_mem (zero_fill (base r) n (mem s)));;
      mret (Some i)
  | None =>
      grown ← call (sbrk (s32 n));
      if grown =? MAP_FAILED then fail_errno ENOMEM;; mret None else
      s ← get;
      let fresh := Region grown n k false pr fl None 0 0 in
      let i := first_overlap (regs s) grown in
      set_regs (insert_at i fresh (regs s));;
      mret (Some i)
  end.

(** ** [unmap_range] *)

Definition to_free (r : region) (n : Z) : region :=
  Region (base r) n R_FREE true (prot r) (flags r) None (off r) (data_len r).
Definition freed (b n : Z) : region := Region b n R_FREE true 0 0 None 0 0.
(** The copy of [r] that starts at [oend]. *)
Definition tail_of (r : region) (oend : Z) : region :=
  let n := w32 (rend r - oend) in
  if bool_decide (kind r = R_FILE) then
    let cut := w32 (oend - base r) in
    Region oend n (kind r) (dirty r) (prot r) (flags r) (fref r) (s64 (off r + cut))
      (if cut <? data_len r then w32 (data_len r - cut) else 0)
  else Region oend n (kind r) (dirty r) (prot r) (flags r) (fref r) (off r) (data_len r).
(** [r] shortened to end at [ostart]. *)
Definition head_of (r : region) (ostart : Z) : region :=
  let n := w32 (ostart - base r) in
  Region (base r) n (kind r) (dirty r) (prot r) (flags r) (fref r) (off r)
    (if bool_decide (kind r = R_FILE) && (n <? data_len r) then n else data_len r).

Definition shared_writable (r : region) : bool :=
  bool_decide (kind r = R_FILE) && bool_decide (is_Some (fref r)) && has (prot r) PROT_WRITE.

(** One turn of the loop on a live region [r] at index [i]; the result is the
    next index. *)
Definition unmap_region (i : nat) (r : region) (start en : Z) : MM nat :=
  let rbase := base r in
  let re := rend r in
  let ostart := if start <? rbase then rbase else start in
  let oend := if re <? en then re else en in
  when (shared_writable r) (_ ← writeback r ostart oend; mret tt);;
  s ← get;
  if (ostart =? rbase) && (oend =? re) then
    when (bool_decide (kind r = R_FILE)) (fref_release (fref r));;
    s ← get;
    set_regs (<[i := to_free r (len r)]> (regs s));;
    mret (S i)
  else if ostart =? rbase then
    set_regs (insert_at (S i) (tail_of r oend) (<[i := to_free r (w32 (oend - rbase))]> (regs s)));;
    mret (i + 2)%nat
  else if oend =? re then
    set_regs (insert_at (S i) (freed ostart (w32 (re - ostart))) (<[i := head_of r ostart]> (regs s)));;
    mret (i + 2)%nat
  else
    when (bool_decide (kind r = R_FILE)) (fref_retain (fref r));;
    s ← get;
    set_regs (insert_at (i + 2) (tail_of r oend)
               (insert_at (S i) (freed ostart (w32 (oend - ostart))) (<[i := head_of r ostart]> (regs s))));;
    mret (i + 3)%nat.

(** Every turn leaves fewer regions to the right of [i], so the number of
    regions bounds the turns. *)
Fixpoint unmap_loop (fuel i : nat) (start en : Z) : MM unit :=
  s ← get;
  match regs s !! i with
  | None => mret tt
  | Some r =>
      if base r <? en then
        match fuel with
        | O => halt OutOfFuel
        | S fuel =>
            if bool_decide (kind r = R_FREE) then unmap_loop fuel (S i) start en
            else i' ← unmap_region i r start en; unmap_loop fuel i' start en
        end
      else mret tt
  end.

Definition unmap_range (start en : Z) : MM unit :=
  s ← get;
  unmap_loop (length (regs s)) (first_overlap (regs s) start) start en;;
  s ← get;
  set_regs (coalesce_around start en (regs s)).

(** ** [mmap] *)

(** The argument checks of [mmap], in order; [0] when they all pass. *)
Definition mmap_check (length pr fl fd offset : Z) : Z :=
  if (Z.land fl (Z.lor MAP_PRIVATE MAP_SHARED) =? 0) || has fl MAP_FIXED
     || (Z.land fl MAP_SHARED_VALIDATE =? MAP_SHARED_VALIDATE)
     || has fl MAP_GROWSDOWN || has fl MAP_HUGETLB || has fl MAP_FIXED_NOREPLACE
  then EINVAL
  else if (pr =? PROT_NONE) || has pr PROT_EXEC then EINVAL
  else if length =? 0 then EINVAL
  else if PTRDIFF_MAX <=? length then ENOMEM
  else if negb (has fl MAP_ANON) && (fd <? 0) then EBADF
  else if negb (has fl MAP_ANON) && ((offset <? 0) || has offset (PAGE - 1)) then EINVAL
  else if page_ceil length <? length then ENOMEM
  else 0.

(** The read loop: the total read, or the saved [errno]. *)
Fixpoint read_loop (fuel : nat) (fd body remaining offset total : Z) : MM (Z + Z) :=
  if 0 <? remaining then
    match fuel with
    | O => halt OutOfFuel
    | S fuel =>
        '(n, l) ← call (pread fd remaining offset);
        s ← get;
        if n <? 0 then
          if errno (menv s) =? EINTR then read_loop fuel fd body remaining offset total
          else mret (inr (errno (menv s)))
        else if n =? 0 then mret (inl total)
        else
          set_mem (store_bytes body l (mem s));;
          read_loop fuel fd (w32 (body + n)) (w32 (remaining - n)) (s64 (offset + n)) (w32 (total + n))
    end
  else mret (inl total).

Definition set_file (i : nat) (fr : option Z) (o : Z) (dl : Z) : MM unit :=
  s ← get;
  match regs s !! i with
  | None => halt Undefined
  | Some r => set_regs (<[i := Region (base r) (len r) (kind r) (dirty r) (prot r) (flags r) fr o dl]> (regs s))
  end.

(** Undoes the mapping and fails with the saved [errno]. *)
Definition mmap_undo (b n saved : Z) : MM Z :=
  unmap_range b (w32 (b + n));; fail_errno saved;; mret MAP_FAILED.

(** A new [file_ref] block: [malloc] may fail; the address is fresh. *)
Definition SIZEOF_FILE_REF : Z := 8.

Definition attach_file (i : nat) (fd offset total pr fl b n : Z) : MM Z :=
  set_file i None offset total;;
  if has fl MAP_SHARED && has pr PROT_WRITE then
    ok ← call (host (malloc_ok SIZEOF_FILE_REF));
    if ok : bool then
      newfd ← call (dup fd);
      if newfd <? 0 then
        s ← get; mmap_undo b n (errno (menv s))
      else
        s ← get;
        let p := fresh (dom (frefs s)) in
        set_frefs (<[p := FileRef newfd 1]> (frefs s));;
        set_file i (Some p) offset total;;
        mret b
    else mmap_undo b n ENOMEM
  else mret b.

Definition mmap (length pr fl fd offset : Z) : MM Z :=
  let e := mmap_check length pr fl fd offset in
  if negb (e =? 0) then fail_errno e;; mret MAP_FAILED else
  let anon := has fl MAP_ANON in
  let n := page_ceil length in
  ok ← reserve 2;
  if negb (ok =? 0) then fail_errno ENOMEM;; mret MAP_FAILED else
  r ← acquire_pages n (if anon then R_ANON else R_FILE) pr fl;
  match r with
  | None => fail_errno ENOMEM;; mret MAP_FAILED
  | Some i =>
      s ← get;
      match regs s !! i with
      | None => halt Undefined
      | Some rg =>
          let b := base rg in
          if anon then mret b else
          res ← read_loop io_fuel fd b n offset 0;
          match res with
          | inr saved => mmap_undo b n saved
          | inl total => attach_file i fd offset total pr fl b n
          end
      end
  end.

(** ** [munmap] *)
Definition munmap (addr length : Z) : MM Z :=
  let n := page_ceil length in
  if has addr (PAGE - 1) || (length =? 0) then fail_errno EINVAL;; mret (-1) else
  if (n <? length) || (w32 (addr + n) <? addr) then fail_errno EINVAL;; mret (-1) else
  ok ← reserve 2;
  if negb (ok =? 0) then fail_errno ENOMEM;; mret (-1) else
  unmap_range addr (w32 (addr + n));; mret 0.

(** ** [msync] *)

(** Whether live regions cover [[cursor, end)] from index [i] on. *)
Fixpoint covered (fuel i : nat) (rs : list region) (cursor en : Z) : bool :=
  if cursor <? en then
    match fuel, rs !! i with
    | S fuel, Some r =>
        if bool_decide (kind r = R_FREE) || (cursor <? base r) then false
        else covered fuel (S i) rs (rend r) en
    | _, _ => false
    end
  else true.

Fixpoint sync_loop (rs : list region) (start en result : Z) : MM Z :=
  match rs with
  | [] => mret result
  | r :: rs =>
      if base r <? en then
        if shared_writable r then
          let ostart := if start <? base r then base r else start in
          let oend := if rend r <? en then rend r else en in
          v ← writeback r ostart oend;
          sync_loop rs start en (if v =? 0 then result else -1)
        else sync_loop rs start en result
      else mret result
  end.

Definition msync (addr length fl : Z) : MM Z :=
  if has addr (PAGE - 1) || (has fl MS_ASYNC && has fl MS_SYNC)
     || has fl (Z.lnot (Z.lor MS_ASYNC (Z.lor MS_SYNC MS_INVALIDATE)))
  then fail_errno EINVAL;; mret (-1) else
  if length =? 0 then mret 0 else
  let n := page_ceil length in
  if (n <? length) || (w32 (addr + n) <? addr) then fail_errno ENOMEM;; mret (-1) else
  let en := w32 (addr + n) in
  s ← get;
  let begin := first_overlap (regs s) addr in
  if covered (List.length (regs s)) begin (regs s) addr en then
    sync_loop (drop begin (regs s)) addr en 0
  else fail_errno ENOMEM;; mret (-1).

End Mman.
