(* ===== verification/MmanTable.v ===== *)
(** The region table of [Mman] as an ordered sequence of page runs: its
    well-formedness, the map from addresses to mapping attributes it denotes,
    and what the table operations do to both. *)
From S2P Require Import Prelude.
From S2P Require Import Wasi.
From S2P Require Import Unistd.
From S2P Require Import Mman.

(** ** Well-formed tables *)

Definition wf_kind (r : region) : Prop :=
  match kind r with
  | R_FREE => dirty r = true /\ fref r = None
  | R_ANON => fref r = None
  | R_FILE => 0 <= data_len r <= len r /\ len r < 2 ^ 31
  end.

Definition wf_region (r : region) : Prop :=
  (PAGE | base r) /\ (PAGE | len r) /\ 0 <= base r /\ 0 < len r /\
  base r + len r < 2 ^ 32 /\ wf_kind r.

(** The regions are well formed, disjoint and in address order inside
    [[lo, hi)]. *)
Fixpoint tab (lo hi : Z) (rs : list region) : Prop :=
  match rs with
  | [] => lo <= hi
  | r :: rs => lo <= base r /\ wf_region r /\ tab (base r + len r) hi rs
  end.

(** ** The address map *)

(** What an address of the table belongs to: a mapping with its attributes
    and, in a file mapping, the file offset that backs the address. *)
Inductive cell :=
  | CFree
  | CAnon (pr fl : Z)
  | CFile (pr fl : Z) (fr : option Z) (foff : Z) (backed : bool).

Definition cell_of (r : region) (a : Z) : cell :=
  match kind r with
  | R_FREE => CFree
  | R_ANON => CAnon (prot r) (flags r)
  | R_FILE => CFile (prot r) (flags r) (fref r) (s64 (off r + (a - base r)))
                (a - base r <? data_len r)
  end.

Fixpoint view (rs : list region) (a : Z) : option cell :=
  match rs with
  | [] => None
  | r :: rs => if (base r <=? a) && (a <? base r + len r) then Some (cell_of r a) else view rs a
  end.

Definition live (c : option cell) : bool :=
  match c with None | Some CFree => false | Some _ => true end.

(** How many regions hold the [file_ref] block [p]. *)
Definition hold (p : Z) (fr : option Z) : Z := if bool_decide (fr = Some p) then 1 else 0.
Fixpoint count (p : Z) (rs : list region) : Z :=
  match rs with
  | [] => 0
  | r :: rs => hold p (fref r) + count p rs
  end.

Lemma hold_range p fr : 0 <= hold p fr <= 1.
Proof. unfold hold. case_bool_decide; lia. Qed.
Lemma hold_same p : hold p (Some p) = 1.
Proof. unfold hold. by rewrite bool_decide_eq_true_2. Qed.
Lemma hold_None p : hold p None = 0.
Proof. reflexivity. Qed.
Lemma hold_ne p q : p <> q -> hold p (Some q) = 0.
Proof. intros. unfold hold. by rewrite bool_decide_eq_false_2 by congruence. Qed.
Lemma count_app p l1 l2 : count p (l1 ++ l2) = count p l1 + count p l2.
Proof. induction l1 as [|r l1 IH]; simpl; lia. Qed.
Lemma count_cons p r l : count p (r :: l) = hold p (fref r) + count p l.
Proof. reflexivity. Qed.
Lemma count_nil p : count p [] = 0.
Proof. reflexivity. Qed.
Lemma count_bound p l : 0 <= count p l <= Z.of_nat (length l).
Proof. induction l as [|r l IH]; simpl; [lia|]. pose proof (hold_range p (fref r)). lia. Qed.

Create Rewrite HintDb table.
#[export] Hint Rewrite count_app count_cons count_nil : table.

Lemma rend_wf r : wf_region r -> rend r = base r + len r.
Proof. intros (?&?&?&?&?&?). unfold rend. apply w32_small. lia. Qed.

Lemma tab_le lo hi rs : tab lo hi rs -> lo <= hi.
Proof.
  revert lo. induction rs as [|r rs IH]; simpl; intros lo; [done|].
  intros (?&(?&?&?&?&?&?)&Ht%IH). lia.
Qed.

Lemma tab_app lo hi l1 l2 :
  tab lo hi (l1 ++ l2) <-> exists mid, tab lo mid l1 /\ tab mid hi l2.
Proof.
  revert lo. induction l1 as [|r l1 IH]; intros lo; simpl.
  - split; [intros Ht; exists lo; split; [lia|done] |].
    intros (mid & Hle & Ht). destruct l2 as [|r l2]; simpl in *; [lia|].
    destruct Ht as (?&?&?). split_and!; [lia|done..].
  - rewrite IH. split.
    + intros (?&?&mid&?&?). exists mid. auto.
    + intros (mid & (?&?&?) & ?). split_and!; [done..|]. exists mid. auto.
Qed.

Lemma tab_weaken lo lo' hi hi' rs : lo' <= lo -> hi <= hi' -> tab lo hi rs -> tab lo' hi' rs.
Proof.
  revert lo lo'. induction rs as [|r rs IH]; intros lo lo' ? ?; simpl; [lia|].
  intros (?&?&?). split_and!; [lia|done|]. eapply IH; [|done..]. lia.
Qed.

Lemma tab_wf lo hi rs : tab lo hi rs -> Forall wf_region rs.
Proof.
  revert lo. induction rs as [|r rs IH]; intros lo; [done|]. intros (?&?&?). constructor; eauto.
Qed.

Lemma view_app l1 l2 a :
  view (l1 ++ l2) a = match view l1 a with None => view l2 a | c => c end.
Proof. induction l1 as [|r l1 IH]; simpl; [done|]. by destruct (_ && _). Qed.

Lemma view_out lo hi rs a : tab lo hi rs -> a < lo \/ hi <= a -> view rs a = None.
Proof.
  revert lo. induction rs as [|r rs IH]; intros lo; simpl; [done|].
  intros (?&(?&?&?&?&?&?)&Ht) Ha. pose proof (tab_le _ _ _ Ht).
  destruct (_ && _) eqn:E; [lia|]. apply (IH _ Ht). lia.
Qed.

Lemma view_cons_in r rs a : base r <= a < base r + len r -> view (r :: rs) a = Some (cell_of r a).
Proof. intros. simpl. destruct (_ && _) eqn:E; [done|lia]. Qed.
Lemma view_cons_out r rs a : ~ (base r <= a < base r + len r) -> view (r :: rs) a = view rs a.
Proof. intros. simpl. destruct (_ && _) eqn:E; [lia|done]. Qed.

Lemma view_before rs a : Forall (fun r => base r + len r <= a) rs -> view rs a = None.
Proof.
  induction 1 as [|r rs Hr _ IH]; simpl; [done|]. destruct (_ && _) eqn:E; [lia|done].
Qed.

Lemma tab_above lo hi rs : tab lo hi rs -> Forall (fun r => lo < base r + len r) rs.
Proof.
  revert lo. induction rs as [|r rs IH]; intros lo; simpl; [done|].
  intros (?&(?&?&?&?&?&?)&Ht%IH). constructor; [lia|].
  eapply Forall_impl; [exact Ht|]. simpl. intros. lia.
Qed.

(** A region in the middle of a table answers for its own addresses. *)
Lemma view_middle lo hi l1 r l2 a :
  tab lo hi (l1 ++ r :: l2) -> base r <= a < base r + len r ->
  view (l1 ++ r :: l2) a = Some (cell_of r a).
Proof.
  intros (mid & H1 & Hlo & _)%tab_app Ha. rewrite view_app, (view_out lo mid l1 a) by (done || lia).
  by apply view_cons_in.
Qed.

Lemma view_middle_out l1 r l2 a :
  ~ (base r <= a < base r + len r) -> view (l1 ++ r :: l2) a = view (l1 ++ l2) a.
Proof. intros. by rewrite !view_app, view_cons_out. Qed.

(** ** [first_overlap] *)

Lemma tab_ends lo hi rs i j r r' :
  tab lo hi rs -> rs !! i = Some r -> rs !! j = Some r' -> (i <= j)%nat ->
  base r + len r <= base r' + len r'.
Proof.
  revert lo i j. induction rs as [|x rs IH]; intros lo i j; [done|].
  intros (?&?&Ht) Hi Hj Hij. destruct i as [|i], j as [|j]; simpl in *; simplify_eq; [lia| |lia|].
  - assert (H1 : tab (base r + len r) hi (take j rs ++ r' :: drop (S j) rs)) by by rewrite take_drop_middle.
    apply tab_app in H1 as (mid & H1%tab_le & ? & (?&?&?&?&?&?) & ?). lia.
  - eapply (IH _ i j); eauto with lia.
Qed.

Lemma first_overlap_loop_spec hi0 rs addr fuel lo hi :
  tab 0 hi0 rs -> (hi - lo <= fuel)%nat -> (lo <= hi <= length rs)%nat ->
  (forall i r, (i < lo)%nat -> rs !! i = Some r -> base r + len r <= addr) ->
  (forall i r, (hi <= i)%nat -> rs !! i = Some r -> addr < base r + len r) ->
  exists n, first_overlap_loop fuel rs addr lo hi = Some n /\ (n <= length rs)%nat /\
    (forall i r, (i < n)%nat -> rs !! i = Some r -> base r + len r <= addr) /\
    (forall i r, (n <= i)%nat -> rs !! i = Some r -> addr < base r + len r).
Proof.
  intros Ht. revert lo hi. induction fuel as [|fuel IH]; intros lo hi Hf Hb Hlo Hhi; cbn [first_overlap_loop];
    (case_bool_decide as Hd; [|exists lo; split_and!; [done|lia|done|]; intros; apply (Hhi i r); [lia|done]]);
    [lia|].
  pose proof (Nat.div_lt (hi - lo) 2). set (mid := (lo + (hi - lo) `div` 2)%nat) in *.
  destruct (lookup_lt_is_Some_2 rs mid) as [r Hr]; [lia|]. rewrite Hr.
  rewrite rend_wf by (eapply Forall_lookup_1; [eapply tab_wf; eauto|eauto]).
  destruct (base r + len r <=? addr) eqn:E; apply IH; try lia; auto.
  - intros i r' Hi Hr'. pose proof (tab_ends _ _ _ i mid r' r Ht Hr' Hr). lia.
  - intros i r' Hi Hr'. pose proof (tab_ends _ _ _ mid i r r' Ht Hr Hr'). lia.
Qed.

(** [first_overlap] splits the table at [addr]. *)
Lemma first_overlap_split hi rs addr : tab 0 hi rs ->
  exists l1 l2, rs = l1 ++ l2 /\ first_overlap rs addr = length l1 /\
    Forall (fun r => base r + len r <= addr) l1 /\
    Forall (fun r => addr < base r + len r) l2.
Proof.
  intros Ht. unfold first_overlap.
  destruct (first_overlap_loop_spec hi rs addr (length rs) 0 (length rs)) as (n & -> & Hn & H1 & H2);
    [done|lia|lia|lia| |].
  { intros i r Hi Hr%lookup_lt_Some. lia. }
  exists (take n rs), (drop n rs). split_and!; simpl.
  - by rewrite take_drop.
  - rewrite length_take. lia.
  - apply Forall_lookup. intros i r Hr. apply lookup_take_Some in Hr as [Hr ?]. eauto.
  - apply Forall_lookup. intros i r Hr. rewrite lookup_drop in Hr. eapply H2; [|done]. lia.
Qed.

(** Two runs with the same ends split a table at the same place. *)
Lemma first_overlap_app lo hi l1 l2 addr :
  0 <= lo -> tab lo hi (l1 ++ l2) ->
  Forall (fun r => base r + len r <= addr) l1 ->
  Forall (fun r => addr < base r + len r) l2 ->
  first_overlap (l1 ++ l2) addr = length l1.
Proof.
  intros Hlo Ht H1 H2.
  destruct (first_overlap_split hi (l1 ++ l2) addr) as (k1 & k2 & E & -> & H3 & H4).
  { eapply tab_weaken; [|reflexivity|done]. lia. }
  revert k1 E H3. clear Ht. induction l1 as [|r l1 IH]; intros [|r' k1] E H3; simplify_eq/=; auto.
  - apply Forall_cons in H3 as [? ?]. apply Forall_cons in H2 as [? ?]. lia.
  - apply Forall_cons in H1 as [? ?]. apply Forall_cons in H4 as [? ?]. lia.
  - f_equal. apply Forall_cons in H1 as [? ?]. apply Forall_cons in H3 as [? ?]. auto.
Qed.

(** ** [unmap_range] on the table *)

(** What the loop leaves in the place of one live region. *)
Definition pieces (start en : Z) (r : region) : list region :=
  let ostart := if start <? base r then base r else start in
  let oend := if rend r <? en then rend r else en in
  if (ostart =? base r) && (oend =? rend r) then [to_free r (len r)]
  else if ostart =? base r then [to_free r (w32 (oend - base r)); tail_of r oend]
  else if oend =? rend r then [head_of r ostart; freed ostart (w32 (rend r - ostart))]
  else [head_of r ostart; freed ostart (w32 (oend - ostart)); tail_of r oend].

Fixpoint unmap_list (start en : Z) (rs : list region) : list region :=
  match rs with
  | [] => []
  | r :: rs =>
      if base r <? en then
        (if bool_decide (kind r = R_FREE) then [r] else pieces start en r) ++ unmap_list start en rs
      else r :: rs
  end.

(** The specification: live addresses of the range become pool addresses. *)
Definition unmapped (start en a : Z) (c : option cell) : option cell :=
  if live c && (start <=? a) && (a <? en) then Some CFree else c.

Ltac page_div :=
  repeat first [assumption | apply Z.divide_sub_r | apply Z.divide_add_r].

Lemma tail_of_spec r oend :
  wf_region r -> (PAGE | oend) -> base r < oend < base r + len r ->
  wf_region (tail_of r oend) /\ base (tail_of r oend) = oend /\
  len (tail_of r oend) = base r + len r - oend /\ fref (tail_of r oend) = fref r /\
  forall a, oend <= a -> cell_of (tail_of r oend) a = cell_of r a.
Proof.
  intros Hwf Hp Ho. pose proof (rend_wf _ Hwf) as Hend.
  destruct r as [b l k d pr fl fr o dl], Hwf as (Hb & Hl & ? & ? & ? & Hk). simpl in *.
  unfold tail_of, wf_region, wf_kind in *. rewrite Hend. simpl in *. rewrite !w32_small by lia.
  destruct k; simpl; (split; [split_and!; try lia; try tauto; page_div | split_and!; try done; try (intros; reflexivity)]).
  - destruct (_ <? dl) eqn:E; [rewrite w32_small|]; lia.
  - destruct (_ <? dl) eqn:E; [rewrite w32_small|]; lia.
  - intros a Ha. unfold cell_of. simpl. rewrite s64_add_l. f_equal.
    + f_equal. lia.
    + destruct (_ <? dl) eqn:E; [rewrite w32_small|]; lia.
Qed.

Lemma head_of_spec r ostart :
  wf_region r -> (PAGE | ostart) -> base r < ostart < base r + len r ->
  wf_region (head_of r ostart) /\ base (head_of r ostart) = base r /\
  len (head_of r ostart) = ostart - base r /\ fref (head_of r ostart) = fref r /\
  forall a, a < ostart -> cell_of (head_of r ostart) a = cell_of r a.
Proof.
  intros Hwf Hp Ho.
  destruct r as [b l k d pr fl fr o dl], Hwf as (Hb & Hl & ? & ? & ? & Hk). simpl in *.
  unfold head_of, wf_region, wf_kind in *. simpl in *. rewrite !w32_small by lia.
  destruct k; simpl; (split; [split_and!; try lia; try tauto; page_div | split_and!; try done; try (intros; reflexivity)]).
  - destruct (_ <? dl) eqn:E; lia.
  - destruct (_ <? dl) eqn:E; lia.
  - intros a Ha. unfold cell_of. simpl. destruct (_ <? dl) eqn:E; [|done]. f_equal. lia.
Qed.

Lemma freed_wf b n : (PAGE | b) -> (PAGE | n) -> 0 <= b -> 0 < n -> b + n < 2 ^ 32 -> wf_region (freed b n).
Proof. intros. unfold wf_region, wf_kind, freed; simpl. done. Qed.

Lemma to_free_wf r n : wf_region r -> (PAGE | n) -> 0 < n <= len r -> wf_region (to_free r n).
Proof. intros (?&?&?&?&?&?) ??. unfold wf_region, wf_kind, to_free; simpl. split_and!; (done || lia). Qed.

Lemma live_cell r a : kind r <> R_FREE -> live (Some (cell_of r a)) = true.
Proof. unfold cell_of. by destruct (kind r). Qed.

(** Decides a lookup in a short run of regions whose bounds are known. *)
Ltac view_run :=
  repeat first
    [ rewrite view_cons_in by (simpl; lia)
    | rewrite view_cons_out by (simpl; lia) ].

Section OneRegion.
  Context (start en : Z) (r : region).
  Hypotheses (Hwf : wf_region r) (Hlive : kind r <> R_FREE).
  Hypotheses (Hs : (PAGE | start)) (He : (PAGE | en)) (Hse : start < en).
  Hypotheses (Hov1 : start < base r + len r) (Hov2 : base r < en).

Lemma pieces_tab : tab (base r) (base r + len r) (pieces start en r).
Proof.
  pose proof (rend_wf _ Hwf) as Hend. pose proof Hwf as (Hb & Hl & ? & ? & ? & _).
  unfold pieces. rewrite Hend.
  destruct (start <? base r) eqn:E1, (base r + len r <? en) eqn:E2;
    rewrite ?Z.eqb_refl; simpl;
    repeat match goal with |- context [?x =? ?y] => destruct (Z.eqb_spec x y) end; simpl;
    rewrite ?w32_small by lia;
    try (destruct (tail_of_spec r en) as (? & Hb1 & Hl1 & _ & _); [done|done|lia|]);
    try (destruct (head_of_spec r start) as (? & Hb2 & Hl2 & _ & _); [done|done|lia|]);
    rewrite ?Hb1, ?Hl1, ?Hb2, ?Hl2; simpl;
    split_and!; try lia; try done.
  all: lazymatch goal with |- wf_region (freed _ _) => apply freed_wf | _ => apply to_free_wf end; try done; try lia; page_div.
Qed.

Lemma pieces_view a : base r <= a < base r + len r ->
  view (pieces start en r) a = unmapped start en a (Some (cell_of r a)).
Proof.
  intros Ha. unfold unmapped. rewrite live_cell by done.
  pose proof (rend_wf _ Hwf) as Hend. pose proof Hwf as (Hb & Hl & ? & ? & ? & _).
  unfold pieces. rewrite Hend.
  destruct (start <? base r) eqn:E1, (base r + len r <? en) eqn:E2;
    rewrite ?Z.eqb_refl; simpl;
    repeat match goal with |- context [?x =? ?y] => destruct (Z.eqb_spec x y) end; simpl;
    rewrite ?w32_small by lia;
    try (destruct (tail_of_spec r en) as (? & Hb1 & Hl1 & _ & Hc1); [done|done|lia|]);
    try (destruct (head_of_spec r start) as (? & Hb2 & Hl2 & _ & Hc2); [done|done|lia|]);
    rewrite ?Hb1, ?Hl1, ?Hb2, ?Hl2; simpl;
    repeat match goal with |- context [?x <=? ?y] => destruct (Z.leb_spec x y)
                         | |- context [?x <? ?y] => destruct (Z.ltb_spec x y) end;
    simpl; try lia; rewrite ?Hc1, ?Hc2 by lia; done.
Qed.

Lemma pieces_length : (length (pieces start en r) <= 3)%nat.
Proof. unfold pieces. repeat case_match; simpl; lia. Qed.

End OneRegion.

Section Range.
  Context (start en : Z).
  Hypotheses (Hs : (PAGE | start)) (He : (PAGE | en)) (Hse : start < en).

Lemma unmap_list_tab lo hi rs :
  tab lo hi rs -> Forall (fun r => start < base r + len r) rs -> tab lo hi (unmap_list start en rs).
Proof.
  revert lo. induction rs as [|r rs IH]; intros lo; [done|].
  intros (Hlo & Hwf & Ht) [Hov Hovs]%Forall_cons. cbn [unmap_list].
  destruct (base r <? en) eqn:E; [|done].
  apply tab_app. exists (base r + len r). split; [|by apply IH].
  case_bool_decide; [simpl; split_and!; (done || lia)|].
  eapply tab_weaken; [exact Hlo|reflexivity|]. apply pieces_tab; (done || lia).
Qed.

Lemma unmap_list_view lo hi rs a :
  tab lo hi rs -> Forall (fun r => start < base r + len r) rs ->
  view (unmap_list start en rs) a = unmapped start en a (view rs a).
Proof.
  revert lo. induction rs as [|r rs IH]; intros lo; [done|].
  intros (Hlo & Hwf & Ht) [Hov Hovs]%Forall_cons. cbn [unmap_list].
  destruct (base r <? en) eqn:E.
  - rewrite view_app. destruct (decide (base r <= a < base r + len r)) as [Hin|Hout].
    + rewrite (view_cons_in r rs) by done. case_bool_decide as Hk.
      * rewrite view_cons_in by done. unfold cell_of, unmapped. by rewrite Hk.
      * rewrite pieces_view by (done || lia). unfold unmapped. destruct (_ && _); [done|].
        by destruct (cell_of r a).
    + rewrite (view_cons_out r rs) by done. rewrite <- (IH _ Ht Hovs). case_bool_decide as Hk.
      * by rewrite view_cons_out.
      * rewrite (view_out (base r) (base r + len r)); [done| |lia]. apply pieces_tab; (done || lia).
  - unfold unmapped. destruct (a <? en) eqn:Ea; [|by rewrite andb_false_r].
    rewrite (view_out (base r) hi (r :: rs)); [done| |lia]. simpl. split_and!; (done || lia).
Qed.

(** At most two slots are needed: the run that starts before the range and the
    one that ends after it are the only ones cut. *)
Lemma unmap_list_length_right lo hi rs :
  tab lo hi rs -> start <= lo -> (length (unmap_list start en rs) <= S (length rs))%nat.
Proof.
  revert lo. induction rs as [|r rs IH]; intros lo; [simpl; lia|].
  intros (Hlo & Hwf & Ht) Hsl. cbn [unmap_list]. destruct (base r <? en) eqn:E; [|simpl; lia].
  pose proof (rend_wf _ Hwf) as Hend. pose proof Hwf as (?&?&?&?&?&?).
  specialize (IH _ Ht ltac:(lia)). rewrite length_app. case_bool_decide; [simpl; lia|].
  unfold pieces. rewrite Hend. destruct (start <? base r) eqn:E1.
  all: replace (_ =? base r) with true by lia; simpl.
  all: destruct (base r + len r <? en) eqn:E2; [rewrite Z.eqb_refl; simpl; lia|].
  all: destruct (en =? base r + len r) eqn:E3; [simpl; lia|].
  all: replace (unmap_list start en rs) with rs; [simpl; lia|].
  all: destruct rs as [|r2 rs]; [done|]; simpl; destruct Ht as (?&?&?).
  all: replace (base r2 <? en) with false by lia; done.
Qed.

Lemma unmap_list_length lo hi rs :
  tab lo hi rs -> Forall (fun r => start < base r + len r) rs ->
  (length (unmap_list start en rs) <= length rs + 2)%nat.
Proof.
  intros Ht Hov. destruct rs as [|r rs]; [simpl; lia|].
  destruct Ht as (Hlo & Hwf & Ht). apply Forall_cons in Hov as [Hr Hov].
  cbn [unmap_list]. destruct (base r <? en) eqn:E; [|simpl; lia].
  pose proof (rend_wf _ Hwf) as Hend.
  pose proof (unmap_list_length_right _ _ _ Ht ltac:(lia)) as Hlen.
  rewrite length_app. case_bool_decide; [simpl; lia|].
  destruct (decide (length (pieces start en r) = 3%nat)) as [H3|H3];
    [|pose proof (pieces_length start en r); simpl; lia].
  replace (unmap_list start en rs) with rs; [simpl; lia|].
  destruct rs as [|r2 rs]; [done|]. simpl. destruct Ht as (?&?&?).
  enough (en < base r + len r) by (replace (base r2 <? en) with false by lia; done).
  unfold pieces in H3. rewrite Hend in H3. destruct (base r + len r <? en) eqn:E2; [|].
  - rewrite Z.eqb_refl, andb_true_r in H3. repeat case_match; simpl in *; lia.
  - destruct (decide (en = base r + len r)) as [->|]; [|lia].
    rewrite Z.eqb_refl, andb_true_r in H3. repeat case_match; simpl in *; lia.
Qed.

(** A range that is exactly one region of the table cuts nothing. *)
Lemma unmap_list_exact lo hi rs r :
  tab lo hi rs -> Forall (fun r => start < base r + len r) rs -> r ∈ rs ->
  base r = start -> base r + len r = en ->
  (length (unmap_list start en rs) <= length rs)%nat.
Proof.
  intros Ht Hov Hin Hb Hl. destruct rs as [|r0 rs]; [by apply not_elem_of_nil in Hin|].
  destruct Ht as (Hlo & Hwf & Ht). apply Forall_cons in Hov as [Hr0 Hov].
  assert (r0 = r) as ->.
  { apply elem_of_cons in Hin as [->|Hin]; [done|exfalso].
    apply list_elem_of_split in Hin as (l1 & l2 & ->).
    apply tab_app in Ht as (mid & Ht1%tab_le & Hm & _). lia. }
  cbn [unmap_list]. replace (base r <? en) with true by (destruct Hwf as (?&?&?&?&?); lia).
  rewrite length_app. simpl.
  replace (unmap_list start en rs) with rs.
  2:{ destruct rs as [|r2 rs]; [done|]. simpl. destruct Ht as (?&?&?).
      by replace (base r2 <? en) with false by lia. }
  enough (length (if bool_decide (kind r = R_FREE) then [r] else pieces start en r) = 1%nat) by lia.
  case_bool_decide; [done|]. unfold pieces. rewrite (rend_wf r Hwf), Hl, Hb.
  rewrite (Z.ltb_irrefl start), (Z.ltb_irrefl en), !Z.eqb_refl. done.
Qed.

End Range.

(** ** Page arithmetic *)

Lemma page_ceil_eq n : page_ceil n = w32 (n + 65535) / 65536 * 65536.
Proof.
  unfold page_ceil, PAGE. replace (n + 65536 - 1) with (n + 65535) by lia.
  replace (w32 (Z.lnot (65536 - 1))) with (Z.land (Z.ones 32) (Z.lnot (Z.ones 16))) by reflexivity.
  rewrite Z.land_assoc, Z.land_ones by lia. change (w32 (n + 65535) mod 2 ^ 32) with (w32 (w32 (n + 65535))).
  rewrite w32_idem. change (Z.land ?x (Z.lnot (Z.ones 16))) with (Z.ldiff x (Z.ones 16)).
  rewrite Z.ldiff_ones_r, Z.shiftr_div_pow2, Z.shiftl_mul_pow2 by lia. done.
Qed.

Lemma page_ceil_spec n : 0 <= n -> n + 65535 < 2 ^ 32 ->
  (PAGE | page_ceil n) /\ n <= page_ceil n < n + PAGE.
Proof.
  intros. rewrite page_ceil_eq, w32_small by lia. split; [by eexists|].
  pose proof (Z.div_mod (n + 65535) 65536 ltac:(lia)).
  pose proof (Z.mod_pos_bound (n + 65535) 65536 ltac:(lia)). unfold PAGE. lia.
Qed.

(** An overflowing [page_ceil] is caught by the callers' comparison. *)
Lemma page_ceil_overflow n : 2 ^ 32 <= n + 65535 -> n < 2 ^ 32 -> page_ceil n < n.
Proof.
  intros. rewrite page_ceil_eq. unfold w32.
  replace (n + 65535) with (n + 65535 - 2 ^ 32 + 1 * 2 ^ 32) by lia.
  rewrite Z_mod_plus_full, Z.mod_small by lia.
  pose proof (Z.mul_div_le (n + 65535 - 2 ^ 32) 65536 ltac:(lia)). lia.
Qed.

Lemma has_page addr : has addr (PAGE - 1) = false <-> (PAGE | addr).
Proof.
  unfold has, PAGE. change (65536 - 1) with (Z.ones 16). rewrite Z.land_ones by lia.
  change (2 ^ 16) with 65536. rewrite negb_false_iff, Z.eqb_eq.
  split; [apply Z.mod_divide; lia|intros; apply Z.mod_divide; (done || lia)].
Qed.

(** ** [coalesce_around] *)

(** Two tables that denote the same map and hold the same blocks. *)
Record same_table (lo hi : Z) (rs rs' : list region) : Prop := {
  st_tab : tab lo hi rs';
  st_view : forall a, view rs' a = view rs a;
  st_count : forall p, count p rs' = count p rs;
  st_length : (length rs' <= length rs)%nat }.

Lemma same_table_refl lo hi rs : tab lo hi rs -> same_table lo hi rs rs.
Proof. by split. Qed.
Lemma same_table_trans lo hi l1 l2 l3 :
  same_table lo hi l1 l2 -> same_table lo hi l2 l3 -> same_table lo hi l1 l3.
Proof. intros [] []. split; [done|..]; intros; [congruence|congruence|lia]. Qed.

Definition merged (r r' : region) : region :=
  Region (base r) (w32 (len r + len r')) (kind r) (dirty r || dirty r')
    (prot r) (flags r) (fref r) (off r) (data_len r).

Lemma merge_same lo hi l1 r r' l2 :
  tab lo hi (l1 ++ r :: r' :: l2) -> kind r = R_FREE -> kind r' = R_FREE ->
  base r + len r = base r' ->
  same_table lo hi (l1 ++ r :: r' :: l2) (l1 ++ merged r r' :: l2).
Proof.
  intros (mid & H1 & Hlo & Hr & _ & Hr' & H2)%tab_app Hk Hk' Hadj.
  pose proof Hr as (?&?&?&?&?&Hw). pose proof Hr' as (?&?&?&?&?&Hw').
  unfold wf_kind in Hw, Hw'. rewrite Hk in Hw. rewrite Hk' in Hw'. destruct Hw as [? Hf], Hw' as [? Hf'].
  assert (Hlen : len (merged r r') = len r + len r') by (simpl; apply w32_small; lia).
  split.
  - apply tab_app. exists mid. split; [done|]. cbn [tab]. rewrite Hlen.
    split_and!; [done| |].
    + unfold wf_region. rewrite Hlen. unfold wf_kind, merged; simpl. rewrite Hk.
      split_and!; try lia; try done; [by apply Z.divide_add_r|by destruct (dirty r)].
    + replace (base (merged r r') + (len r + len r')) with (base r' + len r') by (simpl; lia). done.
  - intros a. rewrite !view_app. destruct (view l1 a); [done|].
    destruct (decide (base r <= a < base r' + len r')) as [Hin|Hout].
    + rewrite view_cons_in by (rewrite Hlen; simpl; lia).
      replace (cell_of (merged r r') a) with CFree by (unfold cell_of; simpl; by rewrite Hk).
      destruct (decide (a < base r')).
      * rewrite view_cons_in by lia. unfold cell_of. by rewrite Hk.
      * rewrite view_cons_out, view_cons_in by lia. unfold cell_of. by rewrite Hk'.
    + rewrite view_cons_out by (rewrite Hlen; simpl; lia). by rewrite !view_cons_out by lia.
  - intros p. autorewrite with table. cbn [merged fref]. by rewrite Hf, Hf'.
  - rewrite !length_app. simpl. lia.
Qed.

Lemma coalesce_loop_same lo hi en fuel i rs :
  tab lo hi rs -> same_table lo hi rs (coalesce_loop fuel i en rs).
Proof.
  revert i rs. induction fuel as [|fuel IH]; intros i rs Ht; [by apply same_table_refl|].
  cbn [coalesce_loop]. destruct (rs !! i) as [r|] eqn:E1; [|by apply same_table_refl].
  destruct (rs !! S i) as [r'|] eqn:E2; [|by apply same_table_refl].
  destruct (base r <=? en); [|by apply same_table_refl].
  destruct (_ && _ && _) eqn:E; [|by apply IH].
  apply andb_prop in E as [[Hk Hk']%andb_prop Hadj].
  apply bool_decide_eq_true in Hk, Hk'. apply Z.eqb_eq in Hadj.
  apply take_drop_middle in E1 as Hsplit. rewrite (drop_S _ r' (S i)) in Hsplit by done.
  assert (Hi : length (take i rs) = i) by (apply length_take_le; apply lookup_lt_Some in E1; lia).
  revert Hsplit Hi. generalize (take i rs) as l1, (drop (S (S i)) rs) as l2. intros l1 l2 <- Hi.
  clear E1 E2. subst i.
  assert (Hm : same_table lo hi (l1 ++ r :: r' :: l2) (l1 ++ merged r r' :: l2)).
  { apply merge_same; try done. rewrite <- Hadj. symmetry. apply rend_wf.
    apply tab_wf in Ht. apply Forall_app in Ht as [_ Ht]. by apply Forall_cons in Ht as [? _]. }
  eapply same_table_trans; [exact Hm|].
  replace (remove_at _ _) with (l1 ++ merged r r' :: l2); [apply IH, Hm|].
  unfold remove_at. rewrite (insert_app_r_alt l1) by done. rewrite Nat.sub_diag. simpl.
  rewrite take_app_ge, drop_app_ge by lia.
  replace (S (length l1) - length l1)%nat with 1%nat by lia.
  replace (S (S (length l1)) - length l1)%nat with 2%nat by lia. simpl.
  rewrite <- app_assoc. simpl. by rewrite drop_0.
Qed.

Lemma coalesce_around_same lo hi start en rs :
  tab lo hi rs -> same_table lo hi rs (coalesce_around start en rs).
Proof. apply coalesce_loop_same. Qed.
