(* ===== verification/MmanProofs.v ===== *)
(** The state invariant of [Mman], the loops that end because the host is
    patient, and the lemmas on each internal operation of [mman.c] from which
    the theorems of [MmanTheorems] follow. *)
From S2P Require Import Prelude.
From S2P Require Import Wasi.
From S2P Require Import Unistd.
From S2P Require Import Mman.
From S2P Require Import MmanTable.

Section Proofs.
  Context {W : Type} `{WasiFdLaws W} `{!WasmMemLaws W} `{!Alloc W} `{!AllocLaws W}.
  Variable io_fuel : nat.

Abbreviation st := (mstate W).
Abbreviation top s := (memory_size (world (menv s)) * PAGE).

(** The last page of a memory of 4 GiB.  No region may reach into it: its end
    would be 0 as a [uintptr_t]. *)
Definition LAST : Z := 65535 * PAGE.
Abbreviation bound s := (Z.min (top s) LAST).

(** ** Invariant *)

(** Every block counts the regions that hold it; there are no others. *)
Definition frefs_ok (fm : gmap Z file_ref) (rs : list region) : Prop :=
  forall p, match fm !! p with
            | Some b => fr_refs b = count p rs /\ 0 < fr_refs b
            | None => count p rs = 0
            end.

Record minv (s : st) : Prop := {
  mi_tab : tab 0 (bound s) (regs s);
  mi_cap : Z.of_nat (length (regs s)) <= capregs s < 2 ^ 18;
  mi_frefs : frefs_ok (frefs s) (regs s);
  mi_zero : forall a, top s <= a -> mem s a = 0 }.

(** The fuel outlasts the host's interruptions of one transfer. *)
Definition patient (s : st) : Prop :=
  Z.of_nat (budget (world (menv s))) + 2 ^ 31 <= Z.of_nat io_fuel.

Definition upd (s : st) (rs : list region) (fm : gmap Z file_ref) (e : env W) : st :=
  MState rs (capregs s) fm (mem s) e.

Lemma frefs_ok_count fm rs rs' :
  (forall p, count p rs' = count p rs) -> frefs_ok fm rs -> frefs_ok fm rs'.
Proof. intros Hc Hf p. specialize (Hf p). by rewrite Hc. Qed.

Lemma tab_length lo hi rs : tab lo hi rs -> Z.of_nat (length rs) * PAGE <= hi - lo.
Proof.
  revert lo. induction rs as [|r rs IH]; simpl; intros lo; [lia|].
  intros (?&((q&?)&(q'&?)&?&?&?&?)&Ht%IH). unfold PAGE in *. lia.
Qed.

Lemma minv_length (s : st) : minv s -> Z.of_nat (length (regs s)) <= 65535.
Proof.
  intros [Ht _ _ _]. apply tab_length in Ht. unfold LAST, PAGE in *. lia.
Qed.

(** The environment may move on under a well-formed state. *)
Lemma minv_env s e : minv s -> env_le (menv s) e -> minv (upd s (regs s) (frefs s) e).
Proof.
  intros [Ht Hc Hf Hz] [Hm _]. split; simpl; auto.
  - eapply tab_weaken; [reflexivity| |done]. unfold PAGE in *. lia.
  - intros a Ha. apply Hz. unfold PAGE in *. lia.
Qed.

Lemma upd_same (s : st) : upd s (regs s) (frefs s) (menv s) = s.
Proof. by destruct s. Qed.

Lemma call_Ret {A} (m : M (env W) A) s a e :
  m (menv s) = Ret (a, e) -> call m s = Ret (a, upd s (regs s) (frefs s) e).
Proof. unfold call, upd. by intros ->. Qed.

Lemma fail_errno_Ret er (s : st) :
  fail_errno er s = Ret (tt, upd s (regs s) (frefs s) (Env er (world (menv s)))).
Proof. reflexivity. Qed.

Lemma set_regs_Ret rs (s : st) : set_regs rs s = Ret (tt, upd s rs (frefs s) (menv s)).
Proof. reflexivity. Qed.
Lemma env_le_errno (e : env W) er : env_le e (Env er (world e)).
Proof. unfold env_le. simpl. reflexivity. Qed.
#[local] Hint Resolve env_le_errno : core.

Lemma load_bytes_length p n (m : Z -> Z) : 0 <= n -> Z.of_nat (length (load_bytes p n m)) = n.
Proof. intros. unfold load_bytes. rewrite length_map, length_seqZ. lia. Qed.

(** ** [writeback] *)

Lemma writeback_loop_Ret fuel fd body rem o s :
  0 <= rem < 2 ^ 31 -> Z.of_nat (budget (world (menv s))) + rem < Z.of_nat fuel ->
  exists v e, writeback_loop fuel fd body rem o s = Ret (v, upd s (regs s) (frefs s) e) /\
    env_le (menv s) e.
Proof.
  revert body rem o s. induction fuel as [|fuel IH]; intros body rem o s Hr Hf; [lia|].
  cbn [writeback_loop]. destruct (Z.ltb_spec 0 rem) as [Hpos|];
    [|exists 0, (menv s); rewrite upd_same; split; [done|reflexivity]].
  rewrite (bind_Ret _ _ _ _ _ (get_Ret s)).
  pose proof (load_bytes_length body rem (mem s) ltac:(lia)) as Hlen.
  destruct (pwrite_total fd (load_bytes body rem (mem s)) o (menv s)) as (r & e & Hw & Hle & Hcase);
    [lia|].
  rewrite (bind_Ret _ _ _ _ _ (call_Ret _ _ _ _ Hw)). destruct Hle as [Hm Hb].
  destruct Hcase as [[Hn Hprog]|[-> Hprog]].
  - replace (r <? 0) with false by lia. rewrite (w32_small (rem - r)) by lia.
    destruct (IH (w32 (body + r)) (rem - r) (s64 (o + r)) (upd s (regs s) (frefs s) e))
      as (v & e' & Heq & Hle'); [lia| |].
    { simpl. destruct (decide (r = 0)) as [Hr0|]; [|lia].
      assert (budget (world e) < budget (world (menv s)))%nat; [|lia].
      apply Hprog; [done|]. destruct (load_bytes _ _ _); simpl in *; [lia|done]. }
    exists v, e'. split; [exact Heq|]. eapply transitivity; [|exact Hle']. by split.
  - simpl. rewrite (bind_Ret _ _ _ _ _ (get_Ret _)). simpl.
    destruct (Z.eqb_spec (errno e) EINTR) as [Hi|];
      [|exists (-1), e; split; [done|by split]].
    destruct (IH body rem o (upd s (regs s) (frefs s) e)) as (v & e' & Heq & Hle');
      [lia|simpl; specialize (Hprog Hi); lia|].
    exists v, e'. split; [exact Heq|]. eapply transitivity; [|exact Hle']. by split.
Qed.

Lemma writeback_Ret r start en s :
  wf_region r -> kind r = R_FILE -> frefs_ok (frefs s) (regs s) -> r ∈ regs s ->
  is_Some (fref r) -> patient s -> base r <= start -> 0 <= en <= base r + len r ->
  exists v e, writeback io_fuel r start en s = Ret (v, upd s (regs s) (frefs s) e) /\
    env_le (menv s) e.
Proof.
  intros (?&?&?&?&?&Hk) Hkind Hok Hin [p Hp] Hpat ??. unfold wf_kind in Hk. rewrite Hkind in Hk.
  unfold writeback. rewrite (w32_small (base r + data_len r)) by lia.
  set (en' := if base r + data_len r <? en then _ else en).
  destruct (Z.leb_spec en' start) as [|Hlt];
    [exists 0, (menv s); rewrite upd_same; split; [done|reflexivity]|].
  rewrite (bind_Ret _ _ _ _ _ (get_Ret s)). rewrite Hp. simpl.
  specialize (Hok p). destruct (frefs s !! p) as [b|] eqn:Eb.
  - apply writeback_loop_Ret; unfold patient in Hpat; subst en';
      destruct (_ <? en) eqn:?; rewrite w32_small; lia.
  - exfalso. apply list_elem_of_split in Hin as (l1 & l2 & Heq).
    rewrite Heq, count_app, count_cons, Hp, hold_same in Hok.
    pose proof (count_bound p l1). pose proof (count_bound p l2). lia.
Qed.

(** ** Reference counts *)

Lemma fref_release_Ret fr s rs' :
  frefs_ok (frefs s) (regs s) -> Z.of_nat (length (regs s)) <= 65535 ->
  (forall p, count p (regs s) = hold p fr + count p rs') ->
  exists fm e, fref_release fr s = Ret (tt, upd s (regs s) fm e) /\ frefs_ok fm rs' /\
    env_le (menv s) e.
Proof.
  intros Hok Hlen Hc. destruct fr as [p|]; simpl.
  2:{ exists (frefs s), (menv s). rewrite upd_same. split_and!; [done| |reflexivity].
      eapply frefs_ok_count; [|done]. intros p. specialize (Hc p). rewrite hold_None in Hc. lia. }
  rewrite (bind_Ret _ _ _ _ _ (get_Ret s)).
  pose proof (Hok p) as Hp. pose proof (Hc p) as Hcp. rewrite hold_same in Hcp.
  pose proof (count_bound p (regs s)). pose proof (count_bound p rs').
  destruct (frefs s !! p) as [b|] eqn:Eb; [|lia].
  assert (Hne : forall q, q <> p -> count q rs' = count q (regs s)).
  { intros q Hq. specialize (Hc q). rewrite hold_ne in Hc by done. lia. }
  rewrite w32_small by lia. destruct (Z.eqb_spec (fr_refs b - 1) 0) as [Hz|Hz].
  - destruct (close_total (fr_fd b) (menv s)) as (v & e & Hcl & Hle).
    assert (Hcall : (call (close (fr_fd b)) : M st Z) s = Ret (v, upd s (regs s) (frefs s) e))
      by by apply call_Ret.
    exists (delete p (frefs s)), e. split_and!; [|  |done].
    + rewrite (bind_Ret _ _ _ _ _ Hcall). reflexivity.
    + intros q. rewrite lookup_delete. case_decide as Hq; [subst; lia|].
      rewrite Hne by done. apply Hok.
  - exists (<[p:=FileRef (fr_fd b) (fr_refs b - 1)]> (frefs s)), (menv s).
    split_and!; [reflexivity| |reflexivity].
    intros q. rewrite lookup_insert. case_decide as Hq; [subst; simpl; lia|].
    rewrite Hne by done. apply Hok.
Qed.

Lemma fref_retain_Ret fr s rs' :
  frefs_ok (frefs s) (regs s) -> Z.of_nat (length (regs s)) <= 65535 ->
  (forall p, count p rs' = hold p fr + count p (regs s)) ->
  (forall p, fr = Some p -> 0 < count p (regs s)) ->
  exists fm, fref_retain fr s = Ret (tt, upd s (regs s) fm (menv s)) /\ frefs_ok fm rs'.
Proof.
  intros Hok Hlen Hc Hpos. destruct fr as [p|]; simpl.
  2:{ exists (frefs s). rewrite upd_same. split; [done|].
      eapply frefs_ok_count; [|done]. intros p. specialize (Hc p). rewrite hold_None in Hc. lia. }
  rewrite (bind_Ret _ _ _ _ _ (get_Ret s)).
  pose proof (Hok p) as Hp. pose proof (Hc p) as Hcp. rewrite hold_same in Hcp.
  specialize (Hpos p eq_refl). pose proof (count_bound p (regs s)).
  destruct (frefs s !! p) as [b|] eqn:Eb; [|lia].
  rewrite w32_small by lia.
  exists (<[p:=FileRef (fr_fd b) (fr_refs b + 1)]> (frefs s)). split; [reflexivity|].
  intros q. rewrite lookup_insert. case_decide as Hq; [subst; simpl; lia|].
  rewrite Hc, hold_ne by done. apply Hok.
Qed.

(** ** [unmap_range] *)

Lemma insert_at_app (l1 : list region) x y l2 :
  insert_at (S (length l1)) y (<[length l1 := x]> (l1 ++ l2)) =
  match l2 with [] => l1 ++ [y] | _ :: l2 => l1 ++ x :: y :: l2 end.
Proof.
  unfold insert_at. rewrite insert_app_r_alt, Nat.sub_diag by done.
  rewrite take_app_ge, drop_app_ge by lia.
  replace (S (length l1) - length l1)%nat with 1%nat by lia.
  destruct l2; simpl; [by rewrite app_nil_r|]. rewrite <- app_assoc. simpl. by rewrite drop_0.
Qed.

Lemma insert_app_here (l1 : list region) x y l2 : <[length l1 := x]> (l1 ++ y :: l2) = l1 ++ x :: l2.
Proof. rewrite insert_app_r_alt, Nat.sub_diag by done. done. Qed.

Lemma insert_at_app2 (l1 : list region) x y z l2 :
  insert_at (length l1 + 2) z (l1 ++ x :: y :: l2) = l1 ++ x :: y :: z :: l2.
Proof.
  unfold insert_at. rewrite take_app_ge, drop_app_ge by lia.
  replace (length l1 + 2 - length l1)%nat with 2%nat by lia. simpl.
  rewrite <- app_assoc. simpl. by rewrite drop_0.
Qed.

Section UnmapRegion.
  Context (s : st) (pre suf : list region) (r : region) (start en lo hi : Z).
  Hypotheses (Hregs : regs s = pre ++ r :: suf) (Htab : tab lo hi (regs s)).
  Hypotheses (Hok : frefs_ok (frefs s) (regs s)) (Hlen : Z.of_nat (length (regs s)) <= 65535).
  Hypotheses (Hpat : patient s) (Hlive : kind r <> R_FREE).
  Hypotheses (Hov1 : start < base r + len r) (Hov2 : base r < en) (Hen : en < 2 ^ 32).

Lemma wf_here : wf_region r.
Proof.
  apply tab_wf in Htab. rewrite Hregs in Htab. apply Forall_app in Htab as [_ Htab].
  by apply Forall_cons in Htab as [? _].
Qed.

(** The writeback of the overlap, best effort. *)
Lemma unmap_writeback :
  exists e, (when (shared_writable r)
      (_ ← writeback io_fuel r (if start <? base r then base r else start)
             (if rend r <? en then rend r else en); mret tt) : M st unit) s
    = Ret (tt, upd s (regs s) (frefs s) e) /\ env_le (menv s) e.
Proof.
  pose proof wf_here as Hwf. pose proof Hwf as (?&?&?&?&?&?).
  destruct (shared_writable r) eqn:Hsw; simpl.
  2:{ exists (menv s). rewrite upd_same. split; [done|reflexivity]. }
  apply andb_prop in Hsw as [[Hk Hf]%andb_prop _]. apply bool_decide_eq_true in Hk, Hf.
  rewrite (rend_wf r) by done.
  destruct (writeback_Ret r (if start <? base r then base r else start)
     (if base r + len r <? en then base r + len r else en) s) as (v & e & Hw & Hle); try done.
  - rewrite Hregs. apply elem_of_app. right. left.
  - destruct (start <? base r) eqn:?; lia.
  - destruct (_ <? en) eqn:?; lia.
  - exists e. by rewrite (bind_Ret _ _ _ _ _ Hw).
Qed.

Lemma anon_no_fref : kind r <> R_FILE -> fref r = None.
Proof.
  intros Hk. pose proof wf_here as (_&_&_&_&_&Hw). unfold wf_kind in Hw. by destruct (kind r).
Qed.

Lemma release_here s1 rs' : frefs s1 = frefs s -> regs s1 = regs s ->
  (forall p, count p (regs s) = hold p (fref r) + count p rs') ->
  exists fm e, when (bool_decide (kind r = R_FILE)) (fref_release (fref r)) s1 =
    Ret (tt, upd s1 (regs s1) fm e) /\ frefs_ok fm rs' /\ env_le (menv s1) e.
Proof.
  intros Hf Hr Hc. case_bool_decide as Hk.
  - apply fref_release_Ret; rewrite ?Hf, ?Hr; done.
  - exists (frefs s1), (menv s1). rewrite upd_same. split_and!; [done| |reflexivity].
    rewrite Hf. eapply frefs_ok_count; [|exact Hok]. intros p. rewrite Hc, anon_no_fref, hold_None by done. lia.
Qed.

Lemma retain_here s1 rs' : frefs s1 = frefs s -> regs s1 = regs s ->
  (forall p, count p rs' = hold p (fref r) + count p (regs s)) ->
  exists fm, when (bool_decide (kind r = R_FILE)) (fref_retain (fref r)) s1 =
    Ret (tt, upd s1 (regs s1) fm (menv s1)) /\ frefs_ok fm rs'.
Proof.
  intros Hf Hr Hc. case_bool_decide as Hk.
  - apply fref_retain_Ret; rewrite ?Hf, ?Hr; try done.
    intros p Hp. rewrite Hregs, count_app, count_cons, Hp, hold_same.
    pose proof (count_bound p pre). pose proof (count_bound p suf). lia.
  - exists (frefs s1). rewrite upd_same. split; [done|].
    rewrite Hf. eapply frefs_ok_count; [|exact Hok]. intros p. rewrite Hc, anon_no_fref, hold_None by done. lia.
Qed.

(** One turn replaces [r] by its pieces and moves past them. *)
Lemma unmap_region_Ret :
  exists fm e, unmap_region io_fuel (length pre) r start en s =
    Ret ((length pre + length (pieces start en r))%nat, upd s (pre ++ pieces start en r ++ suf) fm e) /\
    frefs_ok fm (pre ++ pieces start en r ++ suf) /\ env_le (menv s) e.
Proof.
  destruct unmap_writeback as (e & Hw & Hle). unfold unmap_region, pieces.
  rewrite (bind_Ret _ _ _ _ _ Hw). clear Hw.
  set (ostart := if start <? base r then base r else start).
  set (oend := if rend r <? en then rend r else en).
  set (s1 := upd s (regs s) (frefs s) e).
  rewrite (bind_Ret _ _ _ _ _ (get_Ret s1)).
  destruct ((ostart =? base r) && (oend =? rend r));
    [|destruct (ostart =? base r); [|destruct (oend =? rend r)]].
  - destruct (release_here s1 (pre ++ [to_free r (len r)] ++ suf)) as (fm & e' & Hrel & Hok' & Hle');
      [done|done| |].
    { intros p. rewrite Hregs. autorewrite with table. simpl. rewrite hold_None. lia. }
    rewrite (bind_Ret _ _ _ _ _ Hrel). exists fm, e'. split_and!; [|done|by etransitivity].
    rewrite (bind_Ret _ _ _ _ _ (get_Ret _)), (bind_Ret _ _ _ _ _ (set_regs_Ret _ _)).
    change (regs (upd s1 (regs s1) fm e')) with (regs s). rewrite Hregs, insert_app_here, <- Nat.add_1_r. done.
  - exists (frefs s), e. split_and!; [| |done].
    + rewrite (bind_Ret _ _ _ _ _ (set_regs_Ret _ _)).
      change (regs s1) with (regs s). by rewrite Hregs, insert_at_app.
    + eapply frefs_ok_count; [|exact Hok]. intros p. rewrite Hregs. autorewrite with table. simpl.
      rewrite hold_None. unfold tail_of. case_bool_decide; simpl; lia.
  - exists (frefs s), e. split_and!; [| |done].
    + rewrite (bind_Ret _ _ _ _ _ (set_regs_Ret _ _)).
      change (regs s1) with (regs s). by rewrite Hregs, insert_at_app.
    + eapply frefs_ok_count; [|exact Hok]. intros p. rewrite Hregs. autorewrite with table. simpl.
      rewrite hold_None. lia.
  - destruct (retain_here s1 (pre ++ [head_of r ostart; freed ostart (w32 (oend - ostart)); tail_of r oend] ++ suf))
      as (fm & Hret & Hok'); [done|done| |].
    { intros p. rewrite Hregs. autorewrite with table. simpl. rewrite hold_None.
      unfold tail_of. case_bool_decide; simpl; lia. }
    rewrite (bind_Ret _ _ _ _ _ Hret). exists fm, e. split_and!; [|done|done].
    rewrite (bind_Ret _ _ _ _ _ (get_Ret _)), (bind_Ret _ _ _ _ _ (set_regs_Ret _ _)).
    change (regs (upd s1 (regs s1) fm (menv s1))) with (regs s). by rewrite Hregs, insert_at_app, insert_at_app2.
Qed.

End UnmapRegion.

Lemma patient_upd s rs fm e : patient s -> env_le (menv s) e -> patient (upd s rs fm e).
Proof. unfold patient. intros ? [_ ?]. simpl. lia. Qed.

Section UnmapRange.
  Context (start en : Z).
  Hypotheses (Hs : (PAGE | start)) (He : (PAGE | en)) (Hse : start < en) (Hen : en < 2 ^ 32).

Lemma unmap_loop_Ret suf : forall fuel pre hi s,
  regs s = pre ++ suf -> tab 0 hi (regs s) -> hi <= 65535 * PAGE ->
  frefs_ok (frefs s) (regs s) -> patient s ->
  Forall (fun r => start < base r + len r) suf -> (length suf <= fuel)%nat ->
  exists fm e, unmap_loop io_fuel fuel (length pre) start en s =
    Ret (tt, upd s (pre ++ unmap_list start en suf) fm e) /\
    frefs_ok fm (pre ++ unmap_list start en suf) /\ env_le (menv s) e.
Proof.
  induction suf as [|r suf IH]; intros fuel pre hi s Hregs Ht Hhi Hok Hpat Hov Hf.
  { exists (frefs s), (menv s). cbn [unmap_list]. rewrite app_nil_r in *.
    rewrite <- Hregs, upd_same. split_and!; [|done|reflexivity].
    destruct fuel; cbn [unmap_loop]; rewrite (bind_Ret _ _ _ _ _ (get_Ret s));
      rewrite lookup_ge_None_2 by (rewrite Hregs; done); done. }
  assert (Hhere : regs s !! length pre = Some r) by (rewrite Hregs; by apply list_lookup_middle).
  destruct fuel as [|fuel]; cbn [unmap_loop]; [simpl in Hf; lia|].
  rewrite (bind_Ret _ _ _ _ _ (get_Ret s)), Hhere.
  apply Forall_cons in Hov as [Hr Hov].
  cbn [unmap_list]. destruct (base r <? en) eqn:E; cycle 1.
  { exists (frefs s), (menv s). rewrite <- Hregs, upd_same. split_and!; (done || reflexivity). }
  pose proof (tab_length _ _ _ Ht) as Hlen. unfold PAGE in Hlen, Hhi.
  simpl in Hf. case_bool_decide as Hk.
  - rewrite (cons_middle r pre suf), app_assoc in Hregs.
    destruct (IH fuel (pre ++ [r]) hi s) as (fm & e & Heq & Hok' & ?); try done; try lia.
    rewrite length_app, Nat.add_1_r in Heq. rewrite <- app_assoc in Heq, Hok'. by exists fm, e.
  - destruct (unmap_region_Ret s pre suf r start en 0 hi) as (fm & e & Heq & Hok' & Hle); try done; try lia.
    rewrite (bind_Ret _ _ _ _ _ Heq). clear Heq.
    set (s' := upd s (pre ++ pieces start en r ++ suf) fm e) in *.
    rewrite Hregs in Ht. apply tab_app in Ht as (mid & Hpre & Hlo & Hwf & Hsuf).
    destruct (IH fuel (pre ++ pieces start en r) hi s') as (fm' & e' & Heq & Hok'' & Hle');
      try (simpl; rewrite <- app_assoc; done); try done; try lia.
    { simpl. apply tab_app. exists mid. split; [done|]. apply tab_app. exists (base r + len r).
      split; [|done]. eapply tab_weaken; [exact Hlo|reflexivity|]. apply pieces_tab; (done || lia). }
    { by apply patient_upd. }
    rewrite length_app in Heq. rewrite <- app_assoc in Heq, Hok''.
    exists fm', e'. split_and!; [exact Heq|done|by etransitivity].
Qed.

Lemma unmapped_front hi l1 a : tab 0 hi l1 -> Forall (fun r => base r + len r <= start) l1 ->
  forall c, view l1 a = Some c -> unmapped start en a (Some c) = Some c.
Proof.
  intros Ht Hl c Hc. unfold unmapped. destruct (start <=? a) eqn:E; [|by rewrite andb_false_r].
  exfalso. revert Hc. induction l1 as [|r l1 IH]; [done|].
  apply Forall_cons in Hl as [? Hl]. cbn [tab] in Ht. destruct Ht as (Hle & Hwf & Ht).
  rewrite view_cons_out by lia. apply IH; [|done]. eapply tab_weaken; [|reflexivity|exact Ht].
  destruct Hwf as (?&?&?&?&?). lia.
Qed.

(** [unmap_range] always returns, keeps the invariant and frees exactly the
    live addresses of the range. *)
Lemma unmap_range_Ret s : minv s -> patient s ->
  exists rs fm e, unmap_range io_fuel start en s = Ret (tt, upd s rs fm e) /\
    env_le (menv s) e /\ tab 0 (bound s) rs /\ frefs_ok fm rs /\
    (length rs <= length (regs s) + 2)%nat /\
    (forall r, r ∈ regs s -> base r = start -> base r + len r = en -> (length rs <= length (regs s))%nat) /\
    (forall a, view rs a = unmapped start en a (view (regs s) a)).
Proof.
  intros [Ht Hcap Hok Hz] Hpat. unfold unmap_range. rewrite (bind_Ret _ _ _ _ _ (get_Ret s)).
  destruct (first_overlap_split _ _ start Ht) as (l1 & l2 & Heq & -> & H3 & H4).
  destruct (unmap_loop_Ret l2 (length (regs s)) l1 (bound s) s) as (fm & e & Hl & Hok' & Hle); try done.
  { unfold LAST. lia. } { rewrite Heq, length_app. lia. }
  rewrite (bind_Ret _ _ _ _ _ Hl). clear Hl.
  rewrite (bind_Ret _ _ _ _ _ (get_Ret _)), set_regs_Ret. simpl.
  set (rs := l1 ++ unmap_list start en l2) in *.
  rewrite Heq in Ht. apply tab_app in Ht as (mid & Ht1 & Ht2).
  assert (Htab : tab 0 (bound s) rs).
  { apply tab_app. exists mid. split; [done|]. by apply unmap_list_tab. }
  destruct (coalesce_around_same _ _ start en rs Htab) as [Hst Hsv Hsc Hsl].
  eexists _, fm, e. split_and!; [reflexivity|done|done| | | |].
  - by eapply frefs_ok_count.
  - rewrite Heq, length_app. subst rs. rewrite length_app in Hsl.
    assert (length (unmap_list start en l2) <= length l2 + 2)%nat by (eapply unmap_list_length; eassumption). lia.
  - intros r Hin Hb Hl. rewrite Heq, length_app. subst rs. rewrite length_app in Hsl.
    assert (length (unmap_list start en l2) <= length l2)%nat; [|lia].
    eapply unmap_list_exact; try eassumption.
    rewrite Heq in Hin. apply elem_of_app in Hin as [Hin|Hin]; [|done].
    rewrite Forall_forall in H3. specialize (H3 r Hin). simpl in H3. lia.
  - intros a. rewrite Hsv. subst rs. rewrite Heq, !view_app.
    destruct (view l1 a) eqn:Ev; [symmetry; eapply (unmapped_front mid l1); eassumption|].
    eapply unmap_list_view; eassumption.
Qed.

End UnmapRange.

(** ** [reserve] *)

Lemma grow_cap_spec fuel c need :
  1 <= c < 2 ^ 18 -> need <= 65537 -> need <= c * 2 ^ Z.of_nat fuel ->
  exists c', grow_cap fuel c need = Some c' /\ need <= c' < 2 ^ 18.
Proof.
  revert c. induction fuel as [|fuel IH]; intros c Hc Hn Hf; cbn [grow_cap];
    (destruct (Z.ltb_spec c need); [|exists c; split; [done|lia]]).
  - change (2 ^ Z.of_nat 0) with 1 in Hf. lia.
  - rewrite w32_small by lia. apply IH; [lia|done|].
    rewrite Nat2Z.inj_succ, Z.pow_succ_r in Hf by lia. lia.
Qed.

Definition recap (s : st) (cap : Z) (e : env W) : st := MState (regs s) cap (frefs s) (mem s) e.

Lemma malloc_Ret n (e : env W) : exists b e', host (malloc_ok n) e = Ret (b, e') /\ env_le e e'.
Proof.
  unfold host. destruct (malloc_ok n (world e)) as [b w'] eqn:Hm.
  apply malloc_spec in Hm. eexists _, _. split; [reflexivity|exact Hm].
Qed.

Lemma reserve_Ret s : minv s ->
  exists v cap e, reserve 2 s = Ret (v, recap s cap e) /\ env_le (menv s) e /\
    minv (recap s cap e) /\ ((v = 0 /\ Z.of_nat (length (regs s)) + 2 <= cap) \/ v = -1).
Proof.
  intros Hinv. pose proof Hinv as [Ht Hcap Hok Hz]. pose proof (minv_length s Hinv).
  assert (Hre : forall cap e, Z.of_nat (length (regs s)) <= cap < 2 ^ 18 -> env_le (menv s) e -> minv (recap s cap e)).
  { intros cap e Hc Hle. destruct (minv_env s e Hinv Hle). by split. }
  unfold reserve. rewrite (bind_Ret _ _ _ _ _ (get_Ret s)).
  rewrite (w32_small (_ + 2)) by lia.
  destruct (Z.leb_spec (Z.of_nat (length (regs s)) + 2) (capregs s)) as [Hfit|Hnofit].
  { exists 0, (capregs s), (menv s). split_and!; [by destruct s|reflexivity| |left; lia].
    apply Hre; [lia|reflexivity]. }
  destruct (grow_cap_spec 32 (if capregs s =? 0 then 16 else w32 (capregs s * 2))
    (Z.of_nat (length (regs s)) + 2)) as (c' & -> & Hc').
  { destruct (Z.eqb_spec (capregs s) 0); [lia|]. rewrite w32_small; lia. }
  { lia. }
  { change (2 ^ Z.of_nat 32) with 4294967296.
    destruct (Z.eqb_spec (capregs s) 0); [lia|]. rewrite w32_small; lia. }
  destruct (malloc_Ret (w32 (c' * SIZEOF_REGION)) (menv s)) as (b & e & Hm & Hle).
  rewrite (bind_Ret _ _ _ _ _ (call_Ret _ _ _ _ Hm)). destruct b.
  - exists 0, c', e. split_and!; [reflexivity|done| |left; lia]. apply Hre; [lia|done].
  - exists (-1), (capregs s), e. split_and!; [by destruct s|done| |by right]. apply Hre; [lia|done].
Qed.

(** ** [acquire_pages] *)

Record acquired (s s' : st) (i : nat) (rg : region) : Prop := {
  aq_inv : minv s';
  aq_env : env_le (menv s) (menv s');
  aq_frefs : frefs s' = frefs s;
  aq_here : regs s' !! i = Some rg;
  aq_new : forall a, base rg <= a < base rg + len rg ->
    live (view (regs s) a) = false /\ view (regs s') a = Some (cell_of rg a) /\ mem s' a = 0;
  aq_old : forall a, ~ (base rg <= a < base rg + len rg) ->
    view (regs s') a = view (regs s) a /\ mem s' a = mem s a }.

Lemma taken_wf r n k pr fl :
  wf_region r -> (PAGE | n) -> 0 < n <= len r -> n < 2 ^ 31 -> k <> R_FREE -> wf_region (taken r n k pr fl).
Proof.
  intros (?&?&?&?&?&?) ????. unfold wf_region, taken, wf_kind; simpl.
  split_and!; try (done || lia). destruct k; (done || lia).
Qed.

Lemma sbrk_Ret n (e : env W) : (PAGE | n) -> 0 < n ->
  exists r e', sbrk n e = Ret (r, e') /\ env_le e e' /\
    ((r = MAP_FAILED /\ memory_size (world e') = memory_size (world e)) \/
     (r = memory_size (world e) * PAGE /\
      memory_size (world e') * PAGE = memory_size (world e) * PAGE + n)).
Proof.
  intros [q Hq] Hn. unfold sbrk. rewrite (bind_Ret get _ e e e eq_refl).
  replace (n =? 0) with false by lia. unfold PAGE in *. rewrite Hq, Z.rem_mul by lia.
  replace (q * 65536 <? 0) with false by lia. rewrite Z.quot_mul by lia.
  destruct (memory_grow q (world e)) as [old w'] eqn:Hg.
  assert (Hh : host (memory_grow q) e = Ret (old, Env (errno e) w')) by (unfold host; by rewrite Hg).
  change (negb (0 =? 0)) with false. cbn iota. rewrite (bind_Ret _ _ _ _ _ Hh).
  apply memory_grow_spec in Hg as (Hb & Hcase); [|lia].
  pose proof (memory_size_range (world e)). pose proof (memory_size_range w').
  destruct Hcase as [[-> Hm]|[-> Hm]].
  - replace (memory_size (world e) =? 2 ^ 32 - 1) with false by lia.
    eexists _, _. split; [reflexivity|]. split; [split; simpl; lia|].
    right. rewrite w32_small; simpl; lia.
  - rewrite Z.eqb_refl. eexists _, _. split; [reflexivity|]. split; [split; simpl; lia|]. by left.
Qed.

Section Acquire.
  Context (s : st) (n : Z) (k : rkind) (pr fl : Z).
  Hypotheses (Hinv : minv s) (Hroom : Z.of_nat (length (regs s)) + 2 <= capregs s).
  Hypotheses (Hn : (PAGE | n)) (Hpos : 0 < n < 2 ^ 31) (Hk : k <> R_FREE).

(** First fit: the front of a pool region, zeroed. *)
Lemma acquire_pool i r :
  regs s !! i = Some r -> is_free_fit n r ->
  exists s', acquired s s' i (Region (base r) n k false pr fl None 0 0) /\
    ((if n <? len r then set_regs (insert_at i (taken r n k pr fl) (<[i := rest_of r n]> (regs s)))
      else set_regs (<[i := taken r (len r) k pr fl]> (regs s)));;
     when (dirty r) (set_mem (zero_fill (base r) n (mem s)));; mret (Some i)) s = Ret (Some i, s').
Proof.
  intros Hi [Hfree Hfit]. pose proof Hinv as [Ht Hcap Hok Hz].
  apply take_drop_middle in Hi as Hsplit.
  assert (Hil : length (take i (regs s)) = i)
    by (apply length_take_le; apply lookup_lt_Some in Hi; lia).
  revert Hsplit Hil. generalize (take i (regs s)) as l1, (drop (S i) (regs s)) as l2.
  intros l1 l2 Heq Hil.
  pose proof Ht as Ht'. rewrite <- Heq in Ht'. pose proof Ht' as (mid & Ht1 & Hlo & Hwf & Ht2)%tab_app.
  pose proof Hwf as (Hb&Hl&?&?&?&Hw). unfold wf_kind in Hw. rewrite Hfree in Hw. destruct Hw as [Hd Hfr].
  set (mid_l := if n <? len r then [taken r n k pr fl; rest_of r n] else [taken r n k pr fl]).
  set (rs := l1 ++ mid_l ++ l2).
  assert (Htab : tab 0 (bound s) rs).
  { subst rs mid_l. apply tab_app. exists mid. split; [done|].
    pose proof (taken_wf r n k pr fl Hwf Hn ltac:(lia) ltac:(lia) Hk).
    destruct (Z.ltb_spec n (len r)); simpl; rewrite ?w32_small by lia.
    - split_and!; [lia|done|lia| |by replace (base r + n + (len r - n)) with (base r + len r) by lia].
      unfold wf_region, wf_kind, rest_of; simpl. rewrite !w32_small, Hfree by lia.
      split_and!; try (done || lia); page_div.
    - split_and!; [lia|done|]. by replace n with (len r) by lia. }
  exists (MState rs (capregs s) (frefs s) (zero_fill (base r) n (mem s)) (menv s)).
  assert (Hcnt : forall p, count p rs = count p (regs s)).
  { intros p. subst rs mid_l. rewrite <- Heq. autorewrite with table.
    destruct (n <? len r); simpl; rewrite Hfr, hold_None; lia. }
  split; [split; simpl|].
  - split; simpl.
    + done.
    + subst rs mid_l. rewrite <- Heq in Hroom, Hcap. rewrite !length_app in *.
      destruct (n <? len r); simpl in *; lia.
    + by eapply frefs_ok_count.
    + intros a Ha. pose proof (tab_le _ _ _ Ht2). unfold zero_fill. destruct (_ && _); auto.
  - reflexivity.
  - done.
  - subst rs mid_l. rewrite <- Hil.
    destruct (n <? len r); simpl; by rewrite list_lookup_middle.
  - intros a Ha. split_and!.
    + rewrite <- Heq, (view_middle 0 (bound s)) by (done || lia). unfold cell_of. by rewrite Hfree.
    + subst rs mid_l. destruct (n <? len r); simpl in *;
        erewrite view_middle by (done || exact Htab); done.
    + unfold zero_fill. destruct (_ && _) eqn:E; [done|lia].
  - intros a Ha. split; [|unfold zero_fill; destruct (_ && _) eqn:E; [lia|done]].
    subst rs mid_l. rewrite <- Heq. destruct (Z.ltb_spec n (len r)); simpl.
    + rewrite view_middle_out by (simpl; lia).
      destruct (decide (base r <= a < base r + len r)).
      * rewrite (view_middle 0 (bound s) l1 r) by done.
        erewrite (view_middle 0 (bound s)); [|eapply (tab_app _ _ l1); exists mid|].
        -- unfold cell_of, rest_of; simpl. by rewrite Hfree.
        -- split; [done|]. apply tab_app in Htab as (m & _ & _ & _ & Htab).
           simpl in Htab. destruct Htab as (?&?&?). simpl. split_and!; (done || lia).
        -- simpl. rewrite !w32_small by lia. lia.
      * rewrite !view_middle_out; try done. simpl. rewrite !w32_small by lia. lia.
    + rewrite !view_middle_out by (simpl; lia). done.
  - rewrite Hd. subst rs mid_l.
    destruct (Z.ltb_spec n (len r)) as [Hlt|Hge]; rewrite (bind_Ret _ _ _ _ _ (set_regs_Ret _ _)), <- Heq, <- Hil.
    + unfold insert_at. rewrite insert_app_here, take_app_length, drop_app_length. reflexivity.
    + rewrite insert_app_here. replace (len r) with n by lia. reflexivity.
Qed.

(** Fresh pages from [memory.grow] go after every region of the table. *)
Lemma below_top : Forall (fun r => base r + len r <= top s) (regs s).
Proof.
  pose proof (mi_tab _ Hinv) as Ht. assert (Ht' : tab 0 (top s) (regs s)) by (eapply tab_weaken; [reflexivity| |exact Ht]; lia).
  clear - Ht'. revert Ht'. generalize 0. induction (regs s) as [|r rs IH]; intros lo Ht; [done|].
  cbn [tab] in Ht. destruct Ht as (?&?&Ht). constructor; [by apply tab_le in Ht|by eapply IH].
Qed.

Lemma fresh_place : first_overlap (regs s) (top s) = length (regs s).
Proof.
  pose proof (mi_tab _ Hinv) as Ht. assert (Ht' : tab 0 (top s) (regs s)) by (eapply tab_weaken; [reflexivity| |exact Ht]; lia).
  pose proof below_top. rewrite <- (app_nil_r (regs s)) at 1. apply (first_overlap_app 0 (top s)); rewrite ?app_nil_r; done.
Qed.

(** The grown memory has the full 4 GiB: the new region ends at [2 ^ 32] and is
    out of the reach of the invariant. *)
Record last_page (s s' : st) (rg : region) : Prop := {
  lp_full : memory_size (world (menv s')) = 65536;
  lp_end : (PAGE | base rg) /\ top s <= base rg /\ base rg + len rg = 2 ^ 32;
  lp_regs : regs s' = regs s ++ [rg];
  lp_mem : forall a, mem s' a = mem s a;
  lp_env : env_le (menv s) (menv s') }.

Lemma acquire_fresh e :
  env_le (menv s) e -> memory_size (world e) * PAGE = top s + n -> memory_size (world e) < 65536 ->
  let rg := Region (top s) n k false pr fl None 0 0 in
  let s' := upd s (regs s ++ [rg]) (frefs s) e in
  acquired s s' (length (regs s)) rg.
Proof.
  intros Hle Htop Hbelow rg s'. pose proof Hinv as [Ht Hcap Hok Hz].
  assert (Hbound : bound s = top s) by (unfold LAST, PAGE in *; lia). rewrite Hbound in Ht.
  pose proof (tab_le _ _ _ Ht).
  assert (Hrg : wf_region rg).
  { unfold wf_region, wf_kind, rg; simpl. unfold PAGE in *.
    split_and!; try (done || lia); [by exists (memory_size (world (menv s)))|]. destruct k; (done || lia). }
  assert (Htab : tab 0 (top s + n) (regs s ++ [rg])).
  { apply tab_app. exists (top s). split; [done|]. simpl. split_and!; (done || lia). }
  split; simpl.
  - split; simpl; [replace (Z.min _ LAST) with (top s + n) by (unfold LAST, PAGE in *; lia); exact Htab| | |].
    + rewrite length_app. simpl. lia.
    + eapply frefs_ok_count; [|done]. intros p. rewrite count_app. simpl. rewrite hold_None. lia.
    + intros a Ha. apply Hz. lia.
  - done.
  - done.
  - by apply list_lookup_middle.
  - intros a Ha. split_and!; [|by erewrite (view_middle 0 (top s + n))|apply Hz; lia].
    by erewrite view_out by (eauto || lia).
  - intros a Ha. split; [|done]. rewrite view_middle_out by done. by rewrite app_nil_r.
Qed.

Lemma acquire_pages_Ret :
  (exists i b s', acquire_pages n k pr fl s = Ret (Some i, s') /\ regs s' !! i = Some (Region b n k false pr fl None 0 0) /\
     (acquired s s' i (Region b n k false pr fl None 0 0) \/ last_page s s' (Region b n k false pr fl None 0 0))) \/
  (exists e, acquire_pages n k pr fl s = Ret (None, upd s (regs s) (frefs s) e) /\
     env_le (menv s) e /\ errno e = ENOMEM /\
     forall i r, regs s !! i = Some r -> kind r = R_FREE -> len r < n).
Proof.
  unfold acquire_pages. rewrite (bind_Ret _ _ _ _ _ (get_Ret s)).
  destruct (list_find _ _) as [[i r]|] eqn:Hfind.
  - left. apply list_find_Some in Hfind as (Hi & Hfit & _).
    destruct (acquire_pool i r Hi Hfit) as (s' & Haq & Heq). exists i, (base r), s'.
    split; [done|]. split; [by destruct Haq|by left].
  - rewrite s32_small by lia.
    destruct (sbrk_Ret n (menv s) Hn ltac:(lia)) as (v & e & Hs & Hle & [[-> Hm]|[-> Hm]]);
      rewrite (bind_Ret _ _ _ _ _ (call_Ret _ _ _ _ Hs)).
    + right. exists (Env ENOMEM (world e)). split_and!; [reflexivity|by etransitivity|done|].
      intros i r Hi Hfree. apply list_find_None in Hfind. rewrite Forall_lookup in Hfind.
      specialize (Hfind i r Hi). unfold is_free_fit in Hfind.
      destruct (decide (n <= len r)); [|lia]. by destruct Hfind.
    + left. replace (_ =? MAP_FAILED) with false
        by (unfold MAP_FAILED, PAGE; pose proof (memory_size_range (world (menv s))); lia).
      set (rg := Region (top s) n k false pr fl None 0 0).
      exists (length (regs s)), (top s), (upd s (regs s ++ [rg]) (frefs s) e). split; [|split].
      * rewrite (bind_Ret _ _ _ _ _ (get_Ret _)), (bind_Ret _ _ _ _ _ (set_regs_Ret _ _)).
        change (regs (upd s (regs s) (frefs s) e)) with (regs s). rewrite fresh_place.
        unfold insert_at. by rewrite take_ge, drop_ge by done.
      * by apply list_lookup_middle.
      * pose proof (memory_size_range (world e)). destruct (decide (memory_size (world e) < 65536)); [left; by apply acquire_fresh|right].
        split; try done; simpl; [lia|]. split; [by exists (memory_size (world (menv s)))|]. unfold PAGE in *. lia.
Qed.

End Acquire.

(** ** [mmap] *)

Definition remem (s : st) (m : Z -> Z) (e : env W) : st := MState (regs s) (capregs s) (frefs s) m e.

Lemma remem_same (s : st) : remem s (mem s) (menv s) = s.
Proof. by destruct s. Qed.

Lemma store_bytes_out p l m a : ~ (p <= a < p + Z.of_nat (length l)) -> store_bytes p l m a = m a.
Proof. intros. unfold store_bytes. destruct (_ && _) eqn:E; [lia|done]. Qed.

Lemma read_loop_Ret fuel : forall fd body rem o tot s,
  0 <= body -> body + rem < 2 ^ 32 -> 0 <= rem < 2 ^ 31 -> 0 <= tot -> tot + rem < 2 ^ 32 ->
  Z.of_nat (budget (world (menv s))) + rem < Z.of_nat fuel ->
  exists res m e, read_loop fuel fd body rem o tot s = Ret (res, remem s m e) /\
    env_le (menv s) e /\ (forall a, ~ (body <= a < body + rem) -> m a = mem s a) /\
    match res with inl t => tot <= t <= tot + rem | inr _ => True end.
Proof.
  induction fuel as [|fuel IH]; intros fd body rem o tot s Hb1 Hb2 Hr Ht1 Ht2 Hf; [lia|].
  cbn [read_loop]. destruct (Z.ltb_spec 0 rem) as [Hpos|].
  2:{ exists (inl tot), (mem s), (menv s). rewrite remem_same. split_and!; (done || lia || reflexivity). }
  destruct (pread_total fd rem o (menv s)) as (r & l & e & Hp & Hle & Hcase); [lia|].
  rewrite (bind_Ret _ _ _ _ _ (call_Ret _ _ _ _ Hp)). cbn beta iota.
  rewrite (bind_Ret _ _ _ _ _ (get_Ret _)). pose proof Hle as [Hm Hbud].
  destruct Hcase as [(Hlen & Hrn & _)|(-> & -> & Hint)].
  - replace (r <? 0) with false by lia. destruct (Z.eqb_spec r 0).
    { exists (inl tot), (mem s), e. split_and!; (done || lia). }
    rewrite (w32_small (body + r)), (w32_small (rem - r)), (w32_small (tot + r)) by lia.
    unfold set_mem at 1, modify at 1, mbind at 1, M_bind at 1. simpl.
    edestruct (IH fd (body + r) (rem - r) (s64 (o + r)) (tot + r)
      (remem s (store_bytes body l (mem s)) e)) as (res & m & e' & Heq & Hle' & Hout & Hres);
      try lia; [simpl; lia|].
    exists res, m, e'. split_and!; [exact Heq|by etransitivity| |destruct res; (done || lia)].
    intros a Ha. rewrite Hout by lia. simpl. apply store_bytes_out. lia.
  - change (-1 <? 0) with true. cbn iota.
    change (menv (upd s (regs s) (frefs s) e)) with e. destruct (Z.eqb_spec (errno e) EINTR) as [Hi|].
    2:{ eexists _, (mem s), e. split_and!; [reflexivity|done..]. }
    specialize (Hint Hi).
    edestruct (IH fd body rem o tot (remem s (mem s) e)) as (res & m & e' & Heq & Hle' & Hout & Hres);
      try lia; [simpl; lia|].
    exists res, m, e'. split_and!; [exact Heq|by etransitivity|done|done].
Qed.

(** What the read loop stores is the file, up to its end. *)
Lemma read_loop_content `{!StableFile W} fuel : forall fd body rem o tot s t s',
  read_loop fuel fd body rem o tot s = Ret (inl t, s') ->
  0 <= body -> body + rem < 2 ^ 32 -> 0 <= rem < 2 ^ 31 -> 0 <= tot -> tot + rem < 2 ^ 32 ->
  0 <= o -> o + rem < 2 ^ 63 ->
  (forall j, 0 <= j < t - tot -> file_byte fd (o + j) = Some (mem s' (body + j))) /\
  (forall a, a < body -> mem s' a = mem s a) /\ tot <= t /\
  (t - tot < rem -> (forall j, t - tot <= j -> file_byte fd (o + j) = None /\ mem s' (body + j) = mem s (body + j))).
Proof.
  induction fuel as [|fuel IH]; intros fd body rem o tot s t s' Hrun Hb1 Hb2 Hr Ht1 Ht2 Ho1 Ho2;
    cbn [read_loop] in Hrun; (destruct (Z.ltb_spec 0 rem) as [Hpos|];
      [|injection Hrun as <- <-; split_and!; intros; (done || lia)]); [done|].
  destruct (pread_total fd rem o (menv s)) as (r & l & e & Hp & Hle & Hcase); [lia|].
  rewrite (bind_Ret _ _ _ _ _ (call_Ret _ _ _ _ Hp)) in Hrun. cbn beta iota in Hrun.
  rewrite (bind_Ret _ _ _ _ _ (get_Ret _)) in Hrun.
  destruct Hcase as [(Hlen & Hrn & _)|(-> & -> & Hint)].
  - apply pread_stable in Hp as [Hbytes Heof]; [|lia..].
    replace (r <? 0) with false in Hrun by lia. destruct (Z.eqb_spec r 0).
    { injection Hrun as <- <-. destruct l; [|simpl in *; lia]. split_and!; intros; try (done || lia).
      split; [apply Heof; (done || lia)|done]. }
    rewrite (w32_small (body + r)), (w32_small (rem - r)), (w32_small (tot + r)), (s64_small (o + r)) in Hrun by lia.
    unfold set_mem at 1, modify at 1, mbind at 1, M_bind at 1 in Hrun. simpl in Hrun.
    apply IH in Hrun as (Hc1 & Hc2 & Hc3 & Hc4); try lia.
    split_and!; [|  |lia|].
    + intros j Hj. destruct (Z.le_gt_cases r j).
      * replace (o + j) with (o + r + (j - r)) by lia. rewrite Hc1 by lia. do 2 f_equal. lia.
      * rewrite Hc2 by lia. simpl. unfold store_bytes.
        replace ((body <=? body + j) && (body + j <? body + Z.of_nat (length l))) with true by lia.
        replace (body + j - body) with j by lia.
        destruct (lookup_lt_is_Some_2 l (Z.to_nat j)) as [b Hb]; [lia|]. rewrite Hb. simpl.
        apply Hbytes in Hb. by rewrite Z2Nat.id in Hb by lia.
    + intros a Ha. rewrite Hc2 by lia. simpl. apply store_bytes_out. lia.
    + intros Hlt j Hj. destruct (Hc4 ltac:(lia) (j - r) ltac:(lia)) as [Hc5 Hc6].
      replace (o + r + (j - r)) with (o + j) in Hc5 by lia.
      replace (body + r + (j - r)) with (body + j) in Hc6 by lia. split; [done|].
      rewrite Hc6. simpl. apply store_bytes_out. lia.
  - change (-1 <? 0) with true in Hrun. cbn iota in Hrun.
    change (menv (upd s (regs s) (frefs s) e)) with e in Hrun.
    destruct (Z.eqb_spec (errno e) EINTR); [|done]. by apply IH in Hrun.
Qed.

(** *** Outcomes of [mmap] *)

(** A failed call: live mappings and their contents are as before; the pool
    may have grown. *)
Record untouched (s s' : st) : Prop := {
  un_inv : minv s';
  un_env : env_le (menv s) (menv s');
  un_live : forall a, live (view (regs s) a) = true ->
    view (regs s') a = view (regs s) a /\ mem s' a = mem s a;
  un_dead : forall a, live (view (regs s) a) = false -> live (view (regs s') a) = false }.

(** A new mapping of [n] bytes at [b] whose cells are given by [c]: no address
    of it was mapped before and every other address is as before. *)
Record mapped (s s' : st) (b n : Z) (c : Z -> cell) : Prop := {
  mp_inv : minv s';
  mp_env : env_le (menv s) (menv s');
  mp_page : (PAGE | b) /\ 0 <= b /\ b + n < 2 ^ 32;
  mp_new : forall a, b <= a < b + n -> live (view (regs s) a) = false /\ view (regs s') a = Some (c a);
  mp_old : forall a, ~ (b <= a < b + n) -> view (regs s') a = view (regs s) a /\ mem s' a = mem s a }.

Lemma untouched_env s e : minv s -> env_le (menv s) e -> untouched s (upd s (regs s) (frefs s) e).
Proof. intros. split; [by apply minv_env|done|done|done]. Qed.

Lemma minv_here s i r : minv s -> regs s !! i = Some r -> wf_region r /\ base r + len r <= bound s.
Proof.
  intros [Ht _ _ _] Hi. apply take_drop_middle in Hi. rewrite <- Hi in Ht.
  apply tab_app in Ht as (mid & _ & _ & ? & Ht%tab_le). done.
Qed.

Lemma acquired_mapped s s' i b n k pr fl :
  acquired s s' i (Region b n k false pr fl None 0 0) ->
  mapped s s' b n (cell_of (Region b n k false pr fl None 0 0)).
Proof.
  intros [Hinv Henv _ Hi Hnew Hold]. pose proof (minv_here _ _ _ Hinv Hi) as [(?&?&?&?&?&?) Htop].
  simpl in *. split; try done.
  intros a Ha. destruct (Hnew a Ha) as (?&?&?). done.
Qed.

(** Rewriting the file attributes of one region. *)
Lemma set_file_Ret s i r fr o dl :
  minv s -> regs s !! i = Some r -> kind r = R_FILE -> 0 <= dl <= len r ->
  let r' := Region (base r) (len r) (kind r) (dirty r) (prot r) (flags r) fr o dl in
  let rs := <[i := r']> (regs s) in
  set_file i fr o dl s = Ret (tt, upd s rs (frefs s) (menv s)) /\
  tab 0 (bound s) rs /\ rs !! i = Some r' /\ length rs = length (regs s) /\
  (forall p, count p rs + hold p (fref r) = count p (regs s) + hold p fr) /\
  (forall a, base r <= a < base r + len r -> view rs a = Some (cell_of r' a)) /\
  (forall a, ~ (base r <= a < base r + len r) -> view rs a = view (regs s) a).
Proof.
  intros Hinv Hi Hk Hdl r' rs. pose proof Hinv as [Ht _ _ _].
  assert (Hset : set_file i fr o dl s = Ret (tt, upd s rs (frefs s) (menv s))).
  { unfold set_file. rewrite (bind_Ret _ _ _ _ _ (get_Ret s)), Hi. by rewrite set_regs_Ret. }
  apply take_drop_middle in Hi as Hsplit.
  assert (Hil : length (take i (regs s)) = i) by (apply length_take_le; apply lookup_lt_Some in Hi; lia).
  revert Hsplit Hil. generalize (take i (regs s)) as l1, (drop (S i) (regs s)) as l2. intros l1 l2 Heq Hil.
  assert (Hrs : rs = l1 ++ r' :: l2) by (subst rs; rewrite <- Heq, <- Hil; apply insert_app_here).
  pose proof Ht as Ht'. rewrite <- Heq in Ht'. pose proof Ht' as (mid & Ht1 & Hlo & Hwf & Ht2)%tab_app.
  assert (Htab : tab 0 (bound s) rs).
  { rewrite Hrs. apply tab_app. exists mid. split; [done|]. simpl. split_and!; [done| |done].
    destruct Hwf as (?&?&?&?&?&Hw). unfold wf_region, wf_kind in *; simpl. rewrite Hk in *.
    split_and!; (done || lia). }
  split_and!; [done|done| | | | |].
  - rewrite Hrs, <- Hil. by apply list_lookup_middle.
  - by unfold rs; rewrite length_insert.
  - intros p. rewrite Hrs, <- Heq. autorewrite with table. simpl. lia.
  - intros a Ha. rewrite Hrs in *. by apply (view_middle 0 (bound s)).
  - intros a Ha. rewrite Hrs, <- Heq. by rewrite !view_middle_out.
Qed.

(** Undoing a mapping that occupies exactly one region. *)
Lemma mmap_undo_Ret s0 s i r saved c :
  mapped s0 s (base r) (len r) c -> regs s !! i = Some r -> patient s ->
  exists s', mmap_undo io_fuel (base r) (len r) saved s = Ret (MAP_FAILED, s') /\
    untouched s0 s' /\ errno (menv s') = saved.
Proof.
  intros [Hinv Henv Hpage Hnew Hold] Hi Hpat. pose proof Hinv as [Ht Hcap Hok Hz].
  pose proof (minv_here _ _ _ Hinv Hi) as [(?&?&?&?&?&?) Htop].
  unfold mmap_undo. rewrite w32_small by lia.
  destruct (unmap_range_Ret (base r) (base r + len r)) with (s := s)
    as (rs & fm & e & Hu & Hle & Htab & Hok' & _ & Hlen & Hview); try done; try lia.
  { by apply Z.divide_add_r. }
  rewrite (bind_Ret _ _ _ _ _ Hu). eexists. split; [reflexivity|].
  specialize (Hlen r (list_elem_of_lookup_2 _ _ _ Hi) eq_refl eq_refl).
  assert (Hmem : top s <= memory_size (world e) * PAGE) by (destruct Hle; unfold PAGE; lia).
  split; [|done]. split; simpl.
  - split; simpl; [eapply tab_weaken; [reflexivity| |exact Htab]; clear -Hmem; lia|lia|done|].
    intros a Ha. apply Hz. lia.
  - etransitivity; [exact Henv|exact Hle].
  - intros a Ha. rewrite Hview. destruct (decide (base r <= a < base r + len r)) as [Hin|Hout].
    + destruct (Hnew a Hin) as [Hd _]. congruence.
    + destruct (Hold a Hout) as [-> ->]. split; [|done]. unfold unmapped.
      destruct (_ && _) eqn:E; [|done]. lia.
  - intros a Ha. rewrite Hview. unfold unmapped.
    destruct (live (view (regs s) a)) eqn:El; simpl; [|done].
    destruct (decide (base r <= a < base r + len r)) as [Hin|Hout].
    + by replace ((base r <=? a) && (a <? base r + len r)) with true by lia.
    + destruct (Hold a Hout) as [Heq _]. rewrite Heq in El. congruence.
Qed.

(** ** What [writeback] puts in the file *)

Lemma load_bytes_lookup p n (m : Z -> Z) i :
  0 <= i < n -> load_bytes p n m !! Z.to_nat i = Some (m (p + i)).
Proof.
  intros. unfold load_bytes. rewrite list_lookup_fmap, lookup_seqZ_lt by lia. simpl. do 2 f_equal. lia.
Qed.

Lemma writeback_loop_store `{!FileStore W} fuel : forall fd body rem o s s',
  writeback_loop fuel fd body rem o s = Ret (0, s') ->
  0 <= body -> body + rem < 2 ^ 32 -> 0 <= rem < 2 ^ 31 -> 0 <= o -> o + rem < 2 ^ 63 ->
  forall j, stored (world (menv s')) fd j =
    if (o <=? j) && (j <? o + rem) then mem s (body + (j - o)) else stored (world (menv s)) fd j.
Proof.
  induction fuel as [|fuel IH]; intros fd body rem o s s' Hrun Hb1 Hb2 Hr Ho1 Ho2 j;
    cbn [writeback_loop] in Hrun; (destruct (Z.ltb_spec 0 rem) as [Hpos|];
      [|injection Hrun as <-; destruct (_ && _) eqn:E; (done || lia)]); [done|].
  rewrite (bind_Ret _ _ _ _ _ (get_Ret s)) in Hrun.
  pose proof (load_bytes_length body rem (mem s) ltac:(lia)) as Hlen.
  destruct (pwrite_total fd (load_bytes body rem (mem s)) o (menv s)) as (r & e & Hw & Hle & Hcase); [lia|].
  rewrite (bind_Ret _ _ _ _ _ (call_Ret _ _ _ _ Hw)) in Hrun.
  pose proof (pwrite_store _ _ _ _ _ _ Hw ltac:(lia) ltac:(lia)) as Hst.
  destruct Hcase as [[Hn _]|[-> _]].
  - replace (r <? 0) with false in Hrun by lia.
    rewrite (w32_small (body + r)), (w32_small (rem - r)), (s64_small (o + r)) in Hrun by lia.
    rewrite (IH _ _ _ _ _ _ Hrun) by lia. simpl. rewrite Hst.
    destruct ((o + r <=? j) && (j <? o + r + (rem - r))) eqn:E1.
    + replace ((o <=? j) && (j <? o + rem)) with true by lia. f_equal. lia.
    + destruct ((o <=? j) && (j <? o + r)) eqn:E2.
      * replace ((o <=? j) && (j <? o + rem)) with true by lia.
        by rewrite load_bytes_lookup by lia.
      * by replace ((o <=? j) && (j <? o + rem)) with false by lia.
  - change (-1 <? 0) with true in Hrun. cbn iota in Hrun.
    rewrite (bind_Ret _ _ _ _ _ (get_Ret _)) in Hrun.
    change (menv (upd s (regs s) (frefs s) e)) with e in Hrun.
    destruct (Z.eqb_spec (errno e) EINTR); [|done].
    rewrite (IH _ _ _ _ _ _ Hrun) by lia. simpl. rewrite Hst.
    destruct ((o <=? j) && (j <? o + -1)) eqn:E; [lia|done].
Qed.

End Proofs.
