(* ===== verification/MmanTheorems.v ===== *)
(** What [mmap], [munmap] and [msync] promise: the functions always return,
    keep the table well formed and change the address map as POSIX says. *)
From S2P Require Import Prelude.
From S2P Require Import Wasi.
From S2P Require Import Unistd.
From S2P Require Import Mman.
From S2P Require Import MmanTable.
From S2P Require Import MmanProofs.

Section Mmap.
  Context {W : Type} `{WasiFdLaws W} `{!WasmMemLaws W} `{!Alloc W} `{!AllocLaws W}.
  Variable io_fuel : nat.

Abbreviation st := (mstate W).

(** The cells of a file mapping. *)
Definition file_cell (b pr fl : Z) (fr : option Z) (offset total a : Z) : cell :=
  CFile pr fl fr (s64 (offset + (a - b))) (a - b <? total).

Lemma mapped_env (s0 s : st) b n c e :
  mapped s0 s b n c -> env_le (menv s) e -> mapped s0 (upd s (regs s) (frefs s) e) b n c.
Proof.
  intros [Hi He Hp Hn Ho] Hle. split; auto; [by apply minv_env|simpl; by etransitivity].
Qed.

Lemma set_file_mapped (s0 s s' : st) i b n k pr fl fr o dl c :
  mapped s0 s b n c -> regs s !! i = Some (Region b n k false pr fl None 0 0) -> k = R_FILE ->
  0 <= dl <= n -> minv s' -> menv s' = menv s -> mem s' = mem s ->
  (forall a, b <= a < b + n -> view (regs s') a = Some (cell_of (Region b n k false pr fl fr o dl) a)) ->
  (forall a, ~ (b <= a < b + n) -> view (regs s') a = view (regs s) a) ->
  mapped s0 s' b n (file_cell b pr fl fr o dl).
Proof.
  intros [Hi He Hp Hn Ho] Hreg -> Hdl Hinv Henv Hmem Hin Hout. split; auto.
  - by rewrite Henv.
  - intros a Ha. split; [by apply Hn|]. by rewrite Hin.
  - intros a Ha. rewrite Hout, Hmem by done. by apply Ho.
Qed.

Lemma attach_file_Ret (s0 s : st) i fd offset total pr fl b n :
  let rg := Region b n R_FILE false pr fl None 0 0 in
  mapped s0 s b n (cell_of rg) -> regs s !! i = Some rg -> 0 <= total <= n -> patient io_fuel s ->
  exists v s', attach_file io_fuel i fd offset total pr fl b n s = Ret (v, s') /\
    ((v = MAP_FAILED /\ untouched s0 s') \/
     (v = b /\ mem s' = mem s /\ exists fr, mapped s0 s' b n (file_cell b pr fl fr offset total) /\
        (is_Some fr <-> has fl MAP_SHARED && has pr PROT_WRITE = true))).
Proof.
  intros rg Hmap Hi Hdl Hpat. pose proof (mp_inv _ _ _ _ _ Hmap) as Hinv.
  destruct (set_file_Ret s i rg None offset total Hinv Hi eq_refl Hdl)
    as (Hset & Htab & Hi2 & Hlen & Hcnt & Hin & Hout).
  simpl in Hset, Htab, Hi2, Hlen, Hcnt, Hin, Hout.
  set (rg2 := Region b n R_FILE false pr fl None offset total) in *.
  set (s2 := upd s (<[i:=rg2]> (regs s)) (frefs s) (menv s)) in *.
  pose proof Hinv as [Ht Hcap Hok Hz].
  assert (Hinv2 : minv s2).
  { split; simpl; [done|by rewrite Hlen| |done]. eapply frefs_ok_count; [|done].
    intros p. specialize (Hcnt p). lia. }
  assert (Hmap2 : mapped s0 s2 b n (file_cell b pr fl None offset total)) by (eapply set_file_mapped; eauto).
  unfold attach_file. rewrite (bind_Ret _ _ _ _ _ Hset).
  destruct (has fl MAP_SHARED && has pr PROT_WRITE) eqn:Hshared.
  2:{ exists b, s2. split; [done|]. right. split_and!; [done..|]. exists None. split; [done|].
      split; [by intros []|done]. }
  destruct (malloc_Ret SIZEOF_FILE_REF (menv s2)) as (ok & e & Hm & Hle).
  rewrite (bind_Ret _ _ _ _ _ (call_Ret _ _ _ _ Hm)). clear Hm.
  pose proof (mapped_env _ _ _ _ _ e Hmap2 Hle) as Hmap3.
  assert (Hpat3 : patient io_fuel (upd s2 (regs s2) (frefs s2) e)) by (by apply patient_upd).
  set (s3 := upd s2 (regs s2) (frefs s2) e) in *. destruct ok.
  2:{ destruct (mmap_undo_Ret io_fuel s0 s3 i rg2 ENOMEM _ Hmap3 Hi2 Hpat3) as (s' & Hu & Hun & _).
      exists MAP_FAILED, s'. split; [exact Hu|by left]. }
  destruct (dup_total fd (menv s3)) as (newfd & e2 & Hd & Hle2).
  rewrite (bind_Ret _ _ _ _ _ (call_Ret _ _ _ _ Hd)). clear Hd.
  pose proof (mapped_env _ _ _ _ _ e2 Hmap3 Hle2) as Hmap4.
  assert (Hpat4 : patient io_fuel (upd s3 (regs s3) (frefs s3) e2)) by (by apply patient_upd).
  set (s4 := upd s3 (regs s3) (frefs s3) e2) in *.
  destruct (newfd <? 0); rewrite (bind_Ret _ _ _ _ _ (get_Ret s4)).
  { destruct (mmap_undo_Ret io_fuel s0 s4 i rg2 (errno (menv s4)) _ Hmap4 Hi2 Hpat4) as (s' & Hu & Hun & _).
    exists MAP_FAILED, s'. split; [exact Hu|by left]. }
  set (p := fresh (dom (frefs s4))).
  assert (Hfresh : frefs s4 !! p = None) by (apply not_elem_of_dom; apply is_fresh).
  set (s5 := upd s4 (regs s4) (<[p:=FileRef newfd 1]> (frefs s4)) (menv s4)).
  assert (Hset5 : set_frefs (<[p:=FileRef newfd 1]> (frefs s4)) s4 = Ret (tt, s5)) by done.
  rewrite (bind_Ret _ _ _ _ _ Hset5).
  pose proof (mp_inv _ _ _ _ _ Hmap4) as Hinv4.
  destruct (set_file_Ret s4 i rg2 (Some p) offset total Hinv4 Hi2 eq_refl Hdl)
    as (Hset6 & Htab6 & Hi6 & Hlen6 & Hcnt6 & Hin6 & Hout6).
  assert (Hset6' : set_file i (Some p) offset total s5 =
    Ret (tt, upd s5 (<[i:=Region b n R_FILE false pr fl (Some p) offset total]> (regs s4)) (frefs s5) (menv s5))).
  { unfold set_file. rewrite (bind_Ret _ _ _ _ _ (get_Ret s5)).
    assert (Hreg : regs s5 !! i = Some rg2) by exact Hi2. by rewrite Hreg. }
  rewrite (bind_Ret _ _ _ _ _ Hset6'). eexists b, _. split; [reflexivity|]. right.
  split_and!; [done..|]. exists (Some p). split; [|split; eauto].
  destruct Hinv4 as [_ Hcap4 Hok4 Hz4].
  set (rs6 := <[i:=Region b n R_FILE false pr fl (Some p) offset total]> (regs s4)).
  assert (Hl6 : length rs6 = length (regs s4)) by exact Hlen6.
  assert (Hc6 : forall q, count q rs6 + 0 = count q (regs s4) + hold q (Some p)) by exact Hcnt6.
  assert (Hok6 : frefs_ok (<[p:=FileRef newfd 1]> (frefs s4)) rs6).
  { intros q. specialize (Hc6 q). specialize (Hok4 q). rewrite lookup_insert.
    case_decide as Hq.
    - subst q. rewrite Hfresh in Hok4. rewrite hold_same in Hc6. cbn [fr_refs]. lia.
    - rewrite hold_ne in Hc6 by done. destruct (frefs s4 !! q); lia. }
  split; try apply Hmap4.
  - split; [exact Htab6| |exact Hok6|exact Hz4].
    change (Z.of_nat (length rs6) <= capregs s4 < 2 ^ 18). by rewrite Hl6.
  - intros a Ha. split; [by apply Hmap4|]. exact (Hin6 a Ha).
  - intros a Ha. destruct (mp_old _ _ _ _ _ Hmap4 a Ha) as [Hv Hm]. split; [|exact Hm].
    rewrite <- Hv. exact (Hout6 a Ha).
Qed.

Lemma check_length length pr fl fd offset :
  mmap_check length pr fl fd offset = 0 -> 0 <= length <= 2 ^ 31 - PAGE ->
  (PAGE | page_ceil length) /\ 0 < page_ceil length < 2 ^ 31 /\
  (has fl MAP_ANON = false -> 0 <= offset).
Proof.
  intros Hc Hl. unfold PAGE in Hl. unfold mmap_check in Hc.
  destruct (_ || _ || _ || _ || _ || _); [done|]. destruct (_ || _); [done|].
  destruct (Z.eqb_spec length 0); [done|].
  destruct (page_ceil_spec length) as [Hd Hb]; [lia..|]. split; [done|].
  split. { destruct Hd as [q Hq]. unfold PAGE in *. lia. }
  intros Ha. rewrite Ha in Hc. simpl in Hc. repeat case_match; try done. lia.
Qed.

(** A call that is given the last page of a memory of 4 GiB. *)
Definition file_kind (fl : Z) : rkind := if has fl MAP_ANON then R_ANON else R_FILE.
Definition takes_last (s : st) (length pr fl : Z) : Prop :=
  exists s1 s2 i b, reserve 2 s = Ret (0, s1) /\
    acquire_pages (page_ceil length) (file_kind fl) pr fl s1 = Ret (Some i, s2) /\
    last_page s1 s2 (Region b (page_ceil length) (file_kind fl) false pr fl None 0 0).

Section Call.
  Context (s : st) (length pr fl fd offset : Z).
  Hypotheses (Hinv : minv s) (Hpat : patient io_fuel s).
  Hypotheses (Hlen : 0 <= length <= 2 ^ 31 - PAGE) (Hcheck : mmap_check length pr fl fd offset = 0).

Lemma patient_env e cap : env_le (menv s) e -> patient io_fuel (recap s cap e).
Proof. unfold patient. intros [_ ?]. simpl. unfold patient in Hpat. lia. Qed.

Lemma untouched_recap cap e er : minv (recap s cap e) -> env_le (menv s) e ->
  untouched s (recap s cap (Env er (world e))).
Proof.
  intros Hi Hle. split; try done. apply (minv_env (recap s cap e)); [done|]. apply env_le_errno.
Qed.

(** The first half of a call that passes the checks: it fails with [ENOMEM],
    or a region is in place, perhaps with the last page of 4 GiB. *)
Lemma mmap_front :
  (exists s', mmap io_fuel length pr fl fd offset s = Ret (MAP_FAILED, s') /\
     untouched s s' /\ errno (menv s') = ENOMEM) \/
  (exists i b s1, let n := page_ceil length in
     let rg := Region b n (if has fl MAP_ANON then R_ANON else R_FILE) false pr fl None 0 0 in
     mapped s s1 b n (cell_of rg) /\ regs s1 !! i = Some rg /\ patient io_fuel s1 /\
     (forall a, b <= a < b + n -> mem s1 a = 0) /\
     mmap io_fuel length pr fl fd offset s =
       (if has fl MAP_ANON then mret b else
        res ← read_loop io_fuel fd b n offset 0;
        match res with
        | inr saved => mmap_undo io_fuel b n saved
        | inl total => attach_file io_fuel i fd offset total pr fl b n
        end) s1) \/
  (exists i b s1, let n := page_ceil length in
     let rg := Region b n (file_kind fl) false pr fl None 0 0 in
     last_page s s1 rg /\ takes_last s length pr fl /\
     (has fl MAP_ANON = true -> mmap io_fuel length pr fl fd offset s = Ret (b, s1)) /\ regs s1 !! i = Some rg).
Proof.
  destruct (check_length _ _ _ _ _ Hcheck Hlen) as (Hd & Hn & _).
  unfold mmap. rewrite Hcheck. change (negb (0 =? 0)) with false. cbn iota.
  destruct (reserve_Ret s Hinv) as (v & cap & e & Hres & Hle & Hinv1 & Hroom).
  rewrite (bind_Ret _ _ _ _ _ Hres).
  destruct Hroom as [[-> Hroom]| ->].
  2:{ left. eexists. split; [reflexivity|]. split; [|done]. by apply untouched_recap. }
  change (negb (0 =? 0)) with false. cbn iota.
  change (if has fl MAP_ANON then R_ANON else R_FILE) with (file_kind fl). set (k := file_kind fl).
  assert (Hk : k <> R_FREE) by (subst k; unfold file_kind; by destruct (has fl MAP_ANON)).
  destruct (acquire_pages_Ret (recap s cap e) (page_ceil length) k pr fl Hinv1 Hroom Hd Hn Hk)
    as [(i & b & s1 & Hacq & Hi & [Haq|Hlast])|(e' & Hacq & Hle' & Herr & _)].
  3:{ left. rewrite (bind_Ret _ _ _ _ _ Hacq). eexists. split; [reflexivity|]. split; [|done].
      apply (untouched_recap cap e'); [by apply (minv_env (recap s cap e))|by etransitivity]. }
  2:{ right. right. exists i, b, s1. split; [|split; [|split]].
    - destruct Hlast as [Hf (Hp & Ht & He) Hr Hm Hv]. split; [done| |done|done|].
      + split; [done|]. split; [|done]. simpl in *. destruct Hle as [Hm' _]. unfold PAGE in *. lia.
      + etransitivity; [exact Hle|exact Hv].
    - exists (recap s cap e), s1, i, b. done.
    - intros Hanon. rewrite (bind_Ret _ _ _ _ _ Hacq), (bind_Ret _ _ _ _ _ (get_Ret s1)), Hi. by rewrite Hanon.
    - done. }
  right. left. exists i, b, s1. pose proof (acquired_mapped _ _ _ _ _ _ _ _ Haq) as Hmap.
  split_and!.
  - destruct Hmap as [Hi1 He Hp Hnw Ho]. split; try done. by etransitivity.
  - by destruct Haq.
  - pose proof (patient_env e cap Hle) as Hp. destruct Haq as [_ [_ He] _ _ _ _].
    unfold patient in *. simpl in *. lia.
  - intros a Ha. by apply (aq_new _ _ _ _ Haq).
  - rewrite (bind_Ret _ _ _ _ _ Hacq), (bind_Ret _ _ _ _ _ (get_Ret s1)).
    rewrite (aq_here _ _ _ _ Haq). done.
Qed.

End Call.

(** A call that fails the argument checks returns [MAP_FAILED] with the
    documented [errno] and changes nothing else: neither table nor memory. *)
Theorem mmap_rejects (s : st) length pr fl fd offset :
  mmap_check length pr fl fd offset <> 0 ->
  mmap io_fuel length pr fl fd offset s =
    Ret (MAP_FAILED, upd s (regs s) (frefs s)
      (Env (mmap_check length pr fl fd offset) (world (menv s)))).
Proof.
  intros Hc. unfold mmap. destruct (Z.eqb_spec (mmap_check length pr fl fd offset) 0); [done|].
  reflexivity.
Qed.

(** What the last page of the address space means for an anonymous mapping:
    nothing was mapped there and it reads as zero. *)
Lemma last_page_fresh (s s' : st) rg : minv s -> last_page s s' rg ->
  forall a, base rg <= a < base rg + len rg -> live (view (regs s) a) = false /\ mem s' a = 0.
Proof.
  intros [Ht _ _ Hz] [_ (_ & Htop & _) _ Hm _] a Ha. rewrite Hm, Hz by lia. split; [|done].
  by rewrite (view_out _ _ _ _ Ht) by lia.
Qed.

(** C1: an anonymous [mmap] of a length of at most 2 GiB less a page that
    passes the argument checks always returns: [MAP_FAILED] with [ENOMEM] and
    every live mapping and its contents intact; or a page-aligned block that
    overlaps no live mapping, has the requested attributes on every byte, reads
    as zero (recycled pages included), and leaves every other address of the
    table and of memory as it was, with the invariant kept; or, when [memory.grow]
    has just made the memory the full 4 GiB, the block that ends with it: nothing
    was mapped there, it reads as zero, and its region is added behind the
    others, but no invariant covers it (see [last_page_stays]).  Longer requests
    abort, see [mmap_huge_aborts]. *)
Theorem mmap_anonymous (s : st) length pr fl fd offset :
  minv s -> patient io_fuel s -> 0 <= length <= 2 ^ 31 - PAGE ->
  mmap_check length pr fl fd offset = 0 -> has fl MAP_ANON = true ->
  exists v s', mmap io_fuel length pr fl fd offset s = Ret (v, s') /\
    ((v = MAP_FAILED /\ errno (menv s') = ENOMEM /\ untouched s s') \/
     (mapped s s' v (page_ceil length) (fun _ => CAnon pr fl) /\
      forall a, v <= a < v + page_ceil length -> mem s' a = 0) \/
     (last_page s s' (Region v (page_ceil length) R_ANON false pr fl None 0 0) /\
      forall a, v <= a < v + page_ceil length -> live (view (regs s) a) = false /\ mem s' a = 0)).
Proof.
  intros Hinv Hpat Hlen Hcheck Hanon.
  destruct (mmap_front s _ _ _ _ _ Hinv Hpat Hlen Hcheck)
    as [(s' & Heq & Hun & Herr)|[(i & b & s1 & Hmap & Hi & _ & Hz & Heq)|(i & b & s1 & Hlast & _ & Heq & _)]].
  { exists MAP_FAILED, s'. split; [done|by left]. }
  - rewrite Hanon in *. exists b, s1. split; [done|right; left]. split; [|done].
    destruct Hmap as [? ? ? Hn ?]. by split.
  - unfold file_kind in Hlast. rewrite Hanon in Hlast. exists b, s1. split; [by apply Heq|right; right]. split; [done|].
    exact (last_page_fresh s s1 _ Hinv Hlast).
Qed.

(** A file mapping that is not given the last page of 4 GiB always returns:
    undone, or in place with what the read loop left in memory. *)
Lemma mmap_file_steps (s : st) length pr fl fd offset :
  minv s -> patient io_fuel s -> 0 <= length <= 2 ^ 31 - PAGE ->
  mmap_check length pr fl fd offset = 0 -> has fl MAP_ANON = false ->
  takes_last s length pr fl \/
  exists v s', mmap io_fuel length pr fl fd offset s = Ret (v, s') /\
    ((v = MAP_FAILED /\ untouched s s') \/
     exists fr total s1 e, mapped s s' v (page_ceil length) (file_cell v pr fl fr offset total) /\
       (is_Some fr <-> has fl MAP_SHARED && has pr PROT_WRITE = true) /\
       (forall a, v <= a < v + page_ceil length -> mem s1 a = 0) /\
       read_loop io_fuel fd v (page_ceil length) offset 0 s1 = Ret (inl total, remem s1 (mem s') e)).
Proof.
  intros Hinv Hpat Hlen Hcheck Hanon.
  destruct (check_length _ _ _ _ _ Hcheck Hlen) as (Hd & Hn & Ho). specialize (Ho Hanon).
  destruct (mmap_front s _ _ _ _ _ Hinv Hpat Hlen Hcheck)
    as [(s' & Heq & Hun & Herr)|[(i & b & s1 & Hmap & Hi & Hpat1 & Hz & Heq)|(i & b & s1 & _ & Hlast & _)]]; [right| |by left].
  { exists MAP_FAILED, s'. split; [done|by left]. }
  right. rewrite Hanon in *. rewrite Heq. clear Heq.
  pose proof (mp_page _ _ _ _ _ Hmap) as (_ & Hb1 & Hb2).
  destruct (read_loop_Ret io_fuel fd b (page_ceil length) offset 0 s1)
    as (res & m & e & Hread & Hle & Hout & Hres); try lia.
  { unfold patient in Hpat1. lia. }
  rewrite (bind_Ret _ _ _ _ _ Hread).
  pose proof (mp_inv _ _ _ _ _ Hmap) as Hinv1.
  pose proof (minv_here _ _ _ Hinv1 Hi) as [_ Htop]. simpl in Htop.
  assert (Hmap2 : mapped s (remem s1 m e) b (page_ceil length) (cell_of (Region b (page_ceil length) R_FILE false pr fl None 0 0))).
  { destruct (minv_env _ _ Hinv1 Hle) as [Ht Hcap Hok Hz1]. destruct Hmap as [? Henv ? Hnew Hold].
    split; try done.
    - split; try done. intros a Ha. simpl in *. rewrite Hout; [by apply Hz1|].
      destruct Hle as [Hm _]. unfold PAGE in *. lia.
    - simpl. by etransitivity.
    - intros a Ha. simpl. rewrite Hout by done. by apply Hold. }
  assert (Hpat2 : patient io_fuel (remem s1 m e)).
  { unfold patient in *. destruct Hle. simpl in *. lia. }
  destruct res as [total|saved].
  - destruct (attach_file_Ret s (remem s1 m e) i fd offset total pr fl b (page_ceil length))
      as (v & s' & Hat & Hcase); try done; try lia.
    exists v, s'. split; [exact Hat|]. destruct Hcase as [[-> Hun]|(-> & Hmem & fr & Hmap3 & Hfr)]; [by left|].
    right. exists fr, total, s1, e. split_and!; [done..|]. by rewrite Hmem.
  - destruct (mmap_undo_Ret io_fuel s (remem s1 m e) i
      (Region b (page_ceil length) R_FILE false pr fl None 0 0) saved _ Hmap2 Hi Hpat2) as (s' & Hu & Hun & _).
    exists MAP_FAILED, s'. split; [exact Hu|by left].
Qed.

(** A file mapping of a file that nobody is writing, unless it is given the
    last page of 4 GiB: [MAP_FAILED] with
    every live mapping intact, or a fresh page-aligned block whose byte [j] is
    the byte at [offset + j] of the file, zero beyond its end; the table
    records for each address its file offset and whether the file backs it,
    and a [file_ref] exactly for a shared writable mapping. *)
Theorem mmap_file `{!StableFile W} (s : st) length pr fl fd offset :
  minv s -> patient io_fuel s -> 0 <= length <= 2 ^ 31 - PAGE ->
  mmap_check length pr fl fd offset = 0 -> has fl MAP_ANON = false ->
  offset + page_ceil length < 2 ^ 63 ->
  takes_last s length pr fl \/
  exists v s', mmap io_fuel length pr fl fd offset s = Ret (v, s') /\
    ((v = MAP_FAILED /\ untouched s s') \/
     exists fr total, mapped s s' v (page_ceil length) (file_cell v pr fl fr offset total) /\
       (is_Some fr <-> has fl MAP_SHARED && has pr PROT_WRITE = true) /\
       forall j, 0 <= j < page_ceil length ->
         mem s' (v + j) = default 0 (file_byte fd (offset + j)) /\
         (j < total <-> is_Some (file_byte fd (offset + j)))).
Proof.
  intros Hinv Hpat Hlen Hcheck Hanon Hoff.
  destruct (check_length _ _ _ _ _ Hcheck Hlen) as (Hd & Hn & Ho). specialize (Ho Hanon).
  destruct (mmap_file_steps s _ _ _ _ _ Hinv Hpat Hlen Hcheck Hanon)
    as [Hlast|(v & s' & Hrun & [?|(fr & total & s1 & e & Hmap & Hfr & Hz & Hread)])]; [by left|right..];
    exists v, s'; (split; [done|]); [by left|right].
  pose proof (mp_page _ _ _ _ _ Hmap) as (_ & Hb1 & Hb2).
  exists fr, total. split_and!; [done..|]. intros j Hj.
  apply read_loop_content in Hread as (Hc1 & _ & _ & Hc2); simpl mem in *; try lia.
  destruct (Z.lt_ge_cases j total).
  - specialize (Hc1 j ltac:(lia)). rewrite Hc1. simpl. split; [done|]. split; [eauto|done].
  - destruct (Hc2 ltac:(lia) j ltac:(lia)) as [Hn1 Hn2]. rewrite Hn1, Hn2, Hz by lia. split; [done|].
    split; [lia|by intros []].
Qed.

(** ** [munmap] *)

(** The end of the page-rounded range, without wrap-around. *)
Definition range_end (addr length : Z) : Z := addr + (length + 65535) / 65536 * 65536.

Lemma range_end_w addr length : 0 <= addr < 2 ^ 32 -> 0 <= length < 2 ^ 32 ->
  (page_ceil length <? length) || (w32 (addr + page_ceil length) <? addr) = false <->
  range_end addr length < 2 ^ 32.
Proof.
  intros Ha Hl. unfold range_end. destruct (Z.le_gt_cases (2 ^ 32) (length + 65535)) as [Hov|Hno].
  - pose proof (page_ceil_overflow length Hov ltac:(lia)).
    assert (65536 <= (length + 65535) / 65536) by (apply Z.div_le_lower_bound; lia).
    destruct (page_ceil length <? length) eqn:E; simpl; [split; [done|lia]|lia].
  - pose proof (page_ceil_spec length ltac:(lia) ltac:(lia)) as [_ Hb].
    rewrite page_ceil_eq, (w32_small (length + 65535)) in * by lia. unfold PAGE in Hb.
    set (n := (length + 65535) / 65536 * 65536) in *.
    replace (n <? length) with false by lia. simpl.
    destruct (Z.le_gt_cases (2 ^ 32) (addr + n)) as [H32|H32].
    + unfold w32. replace (addr + n) with (addr + n - 2 ^ 32 + 1 * 2 ^ 32) by lia.
      rewrite Z_mod_plus_full. split; [|lia]. rewrite Z.mod_small by lia. lia.
    + rewrite w32_small by lia. split; [done|]. lia.
Qed.

Lemma munmap_steps (s : st) addr length :
  minv s -> patient io_fuel s -> 0 <= addr < 2 ^ 32 -> 0 <= length < 2 ^ 32 ->
  exists v s', munmap io_fuel addr length s = Ret (v, s') /\
    ((v = -1 /\ s' = upd s (regs s) (frefs s) (Env EINVAL (world (menv s))) /\
        (~ (PAGE | addr) \/ length = 0 \/ 2 ^ 32 <= range_end addr length)) \/
     ((PAGE | addr) /\ 0 < length /\ range_end addr length < 2 ^ 32 /\ minv s' /\ env_le (menv s) (menv s') /\
        mem s' = mem s /\
        ((v = -1 /\ errno (menv s') = ENOMEM /\ regs s' = regs s) \/
         (v = 0 /\ forall a, view (regs s') a =
            unmapped addr (range_end addr length) a (view (regs s) a))))).
Proof.
  intros Hinv Hpat Ha Hl. unfold munmap.
  destruct (has addr (PAGE - 1)) eqn:Hp; [|apply has_page in Hp].
  { eexists _, _. split; [reflexivity|]. left. split_and!; [done..|]. left. intros Hd%has_page. congruence. }
  destruct (Z.eqb_spec length 0) as [->|Hl0].
  { eexists _, _. split; [reflexivity|]. left. split_and!; [done..|]. tauto. }
  change (false || false) with false. cbn iota. destruct (_ || _) eqn:Hw.
  { eexists _, _. split; [reflexivity|]. left. split_and!; [done..|]. right. right.
    destruct (Z.le_gt_cases (2 ^ 32) (range_end addr length)) as [?|Hlt]; [done|].
    apply range_end_w in Hlt; [congruence|done..]. }
  apply range_end_w in Hw; [|done..].
  assert (Hno : length + 65535 < 2 ^ 32).
  { unfold range_end in Hw. pose proof (Z.mul_succ_div_gt (length + 65535) 65536 ltac:(lia)). lia. }
  destruct (page_ceil_spec length ltac:(lia) Hno) as [Hd Hb]. unfold PAGE in Hb.
  assert (Hend : range_end addr length = addr + page_ceil length)
    by (rewrite page_ceil_eq, w32_small by lia; done).
  destruct (reserve_Ret s Hinv) as (v & cap & e & Hres & Hle & Hinv1 & Hroom).
  rewrite (bind_Ret _ _ _ _ _ Hres).
  destruct Hroom as [[-> Hroom]| ->].
  2:{ eexists _, _. split; [reflexivity|]. right. split_and!; [done|lia|done| |done|done|by left].
      apply (minv_env (recap s cap e)); [done|]. apply env_le_errno. }
  change (negb (0 =? 0)) with false. cbn iota. rewrite (w32_small (addr + _)) by lia.
  destruct (unmap_range_Ret io_fuel addr (addr + page_ceil length)) with (s := recap s cap e)
    as (rs & fm & e' & Hu & Hle' & Htab & Hok & Hlen & _ & Hview); try done; try lia.
  { by apply Z.divide_add_r. }
  { by apply (patient_env s). }
  rewrite (bind_Ret _ _ _ _ _ Hu). eexists _, _. split; [reflexivity|]. right.
  split_and!; [done|lia|done| |by etransitivity|done|].
  - destruct Hinv1 as [Ht Hcap Hok1 Hz]. simpl in *. destruct Hle' as [Hm _]. simpl in Hm.
    split; simpl; [|lia|done|].
    + eapply tab_weaken; [reflexivity| |exact Htab]. unfold PAGE in *. lia.
    + intros a Ha'. apply Hz. unfold PAGE in *. lia.
  - right. split; [done|]. intros a. rewrite Hend. apply Hview.
Qed.

(** C2: [munmap] always returns.  It rejects a misaligned address, a zero
    length and a range that wraps with [EINVAL] and does nothing; it fails
    with [ENOMEM] when the table cannot grow, with every mapping intact;
    otherwise it returns 0, keeps the invariant (reference counts included)
    and memory contents, and turns exactly the live addresses of the
    page-rounded range into pool addresses: mappings cut by the range keep
    their attributes and file offsets outside it, gaps stay gaps. *)
Theorem munmap_refines (s : st) addr length :
  minv s -> patient io_fuel s -> 0 <= addr < 2 ^ 32 -> 0 <= length < 2 ^ 32 ->
  exists v s', munmap io_fuel addr length s = Ret (v, s') /\
    ((v = -1 /\ s' = upd s (regs s) (frefs s) (Env EINVAL (world (menv s))) /\
        (~ (PAGE | addr) \/ length = 0 \/ 2 ^ 32 <= range_end addr length)) \/
     ((PAGE | addr) /\ 0 < length /\ range_end addr length < 2 ^ 32 /\ minv s' /\ env_le (menv s) (menv s') /\
        mem s' = mem s /\
        ((v = -1 /\ errno (menv s') = ENOMEM /\ regs s' = regs s) \/
         (v = 0 /\ forall a, view (regs s') a =
            unmapped addr (range_end addr length) a (view (regs s) a))))).
Proof. apply munmap_steps. Qed.

(** A [writeback] that returns 0 has put into the file behind the region
    exactly the bytes of memory in [[start, end)] that the file backs, each at
    the file offset of its address, and has changed no other byte of it. *)
Theorem writeback_stores `{!FileStore W} (s s' : st) r b start en :
  writeback io_fuel r start en s = Ret (0, s') ->
  wf_region r -> kind r = R_FILE -> fref r ≫= (fun p => frefs s !! p) = Some b ->
  base r <= start -> en <= base r + len r -> 0 <= off r -> off r + len r < 2 ^ 63 ->
  forall j, stored (world (menv s')) (fr_fd b) j =
    let a := base r + (j - off r) in
    if (start <=? a) && (a <? en) && (a <? base r + data_len r) then mem s a
    else stored (world (menv s)) (fr_fd b) j.
Proof.
  intros Hrun (?&?&?&?&?&Hk) Hkind Hb Hst Hen Ho1 Ho2 j. unfold wf_kind in Hk. rewrite Hkind in Hk.
  unfold writeback in Hrun. rewrite (w32_small (base r + data_len r)) in Hrun by lia.
  set (en' := if base r + data_len r <? en then base r + data_len r else en) in Hrun.
  assert (Hen' : forall a, (a <? en) && (a <? base r + data_len r) = (a <? en'))
    by (intros a; subst en'; destruct (Z.ltb_spec (base r + data_len r) en); lia).
  cbn zeta. rewrite <- andb_assoc, Hen'.
  destruct (Z.leb_spec en' start).
  { injection Hrun as <-. destruct (_ && _) eqn:E; [lia|done]. }
  rewrite (bind_Ret _ _ _ _ _ (get_Ret s)), Hb in Hrun.
  assert (en' <= en /\ en' <= base r + data_len r)
    by (subst en'; destruct (Z.ltb_spec (base r + data_len r) en); lia).
  rewrite w32_small, s64_small in Hrun by lia.
  rewrite (writeback_loop_store _ _ _ _ _ _ _ Hrun) by lia.
  replace ((off r + (start - base r) <=? j) && (j <? off r + (start - base r) + (en' - start)))
    with ((start <=? base r + (j - off r)) && (base r + (j - off r) <? en')) by lia.
  destruct (_ && _); [f_equal; lia|done].
Qed.

(** ** [msync] *)

Lemma live_kind r a : live (Some (cell_of r a)) = negb (bool_decide (kind r = R_FREE)).
Proof. unfold cell_of. by destruct (kind r). Qed.

(** The coverage scan from index [length l1] looks at [l2] only. *)
Lemma covered_spec fuel lo hi l1 l2 cursor en :
  tab lo hi l2 -> (length l2 <= fuel)%nat -> 0 <= cursor -> Forall (fun r => cursor < base r + len r) l2 ->
  covered fuel (length l1) (l1 ++ l2) cursor en = true <->
  forall a, cursor <= a < en -> live (view l2 a) = true.
Proof.
  revert lo l1 l2 cursor. induction fuel as [|fuel IH]; intros lo l1 l2 cursor Ht Hf Hc Hall.
  { destruct l2; [|simpl in Hf; lia]. simpl. destruct (Z.ltb_spec cursor en); [|split; [lia|done]].
    split; [done|]. intros Hv. by specialize (Hv cursor ltac:(lia)). }
  cbn [covered]. destruct (Z.ltb_spec cursor en) as [Hlt|]; [|split; [lia|done]].
  rewrite lookup_app_r, Nat.sub_diag by done. destruct l2 as [|r l2]; cbn [lookup list_lookup].
  { split; [done|]. intros Hv. by specialize (Hv cursor ltac:(lia)). }
  destruct Ht as (Hlo & Hwf & Ht). apply Forall_cons in Hall as [Hr Hall].
  pose proof Hwf as (_ & _ & Hb & Hl & _ & _). simpl in Hf.
  destruct (Z.ltb_spec cursor (base r)) as [Hgap|Hin].
  { rewrite orb_true_r. split; [done|]. intros Hv. specialize (Hv cursor ltac:(lia)).
    rewrite view_cons_out, (view_out _ _ _ _ Ht) in Hv by lia. done. }
  rewrite orb_false_r. case_bool_decide as Hk.
  { split; [done|]. intros Hv. specialize (Hv cursor ltac:(lia)).
    rewrite view_cons_in, live_kind, Hk in Hv by lia. done. }
  rewrite rend_wf by done.
  replace (l1 ++ r :: l2) with ((l1 ++ [r]) ++ l2) by (by rewrite <- app_assoc).
  replace (S (length l1)) with (length (l1 ++ [r])) by (rewrite length_app; simpl; lia).
  rewrite (IH (base r + len r)); [|done|lia|lia|by eapply tab_above].
  split; intros Hv a Ha.
  - destruct (Z.lt_ge_cases a (base r + len r)).
    + rewrite view_cons_in, live_kind, bool_decide_eq_false_2 by (done || lia). done.
    + rewrite view_cons_out by lia. apply Hv. lia.
  - specialize (Hv a ltac:(lia)). by rewrite view_cons_out in Hv by lia.
Qed.

Lemma sync_loop_Ret rs start en result (s : st) :
  minv s -> patient io_fuel s -> rs ⊆ regs s -> 0 <= start -> 0 <= en ->
  exists v e, sync_loop io_fuel rs start en result s = Ret (v, upd s (regs s) (frefs s) e) /\
    env_le (menv s) e /\ (v = result \/ v = -1).
Proof.
  revert result s. induction rs as [|r rs IH]; intros result s Hinv Hpat Hsub Hst Hen; simpl.
  { exists result, (menv s). rewrite upd_same. split; [done|]. split; [reflexivity|by left]. }
  assert (Hin : r ∈ regs s) by (apply Hsub; by left).
  assert (Hsub' : rs ⊆ regs s) by (intros x Hx; apply Hsub; by right).
  destruct (base r <? en); [|exists result, (menv s); rewrite upd_same; split; [done|]; split; [reflexivity|by left]].
  destruct (shared_writable r) eqn:Hsw; [|by apply IH].
  unfold shared_writable in Hsw. apply andb_true_iff in Hsw as [[Hk%bool_decide_eq_true Hfr%bool_decide_eq_true]%andb_true_iff _].
  pose proof Hinv as [Ht _ Hok _]. pose proof (proj1 (Forall_forall _ _) (tab_wf _ _ _ Ht) r Hin) as Hwf.
  pose proof (rend_wf _ Hwf) as Hend. pose proof Hwf as (_ & _ & ? & ? & _ & _).
  destruct (writeback_Ret io_fuel r (if start <? base r then base r else start)
    (if rend r <? en then rend r else en) s) as (v & e & Hw & Hle); try done.
  { destruct (Z.ltb_spec start (base r)); lia. }
  { rewrite Hend. destruct (Z.ltb_spec (base r + len r) en); lia. }
  rewrite (bind_Ret _ _ _ _ _ Hw).
  destruct (IH (if v =? 0 then result else -1) (upd s (regs s) (frefs s) e)) as (v' & e' & Hl & Hle' & Hv');
    [by apply minv_env|by apply patient_upd|done..|].
  exists v', e'. split; [exact Hl|]. split; [by etransitivity|].
  destruct (v =? 0); [done|]. right. by destruct Hv'.
Qed.

Lemma msync_steps (s : st) addr length fl :
  minv s -> patient io_fuel s -> 0 <= addr < 2 ^ 32 -> 0 <= length < 2 ^ 32 ->
  exists v e, msync io_fuel addr length fl s = Ret (v, upd s (regs s) (frefs s) e) /\
    env_le (menv s) e /\
    let bad := has addr (PAGE - 1) || (has fl MS_ASYNC && has fl MS_SYNC) ||
               has fl (Z.lnot (Z.lor MS_ASYNC (Z.lor MS_SYNC MS_INVALIDATE))) in
    let whole := range_end addr length < 2 ^ 32 /\
      forall a, addr <= a < range_end addr length -> live (view (regs s) a) = true in
    if bad then v = -1 /\ errno e = EINVAL
    else if length =? 0 then v = 0 /\ e = menv s
    else (whole /\ (v = 0 \/ v = -1)) \/ (~ whole /\ v = -1 /\ errno e = ENOMEM).
Proof.
  intros Hinv Hpat Ha Hl. unfold msync.
  destruct (_ || _ || _).
  { eexists _, _. split; [reflexivity|]. split; [apply env_le_errno|done]. }
  destruct (Z.eqb_spec length 0) as [->|Hl0].
  { exists 0, (menv s). rewrite upd_same. split; [done|]. split; [reflexivity|done]. }
  destruct (_ || _) eqn:Hw.
  { eexists _, _. split; [reflexivity|]. split; [apply env_le_errno|]. right. split; [|done].
    intros [Hlt _]. apply range_end_w in Hlt; [congruence|done..]. }
  apply range_end_w in Hw as Hlt; [|done..].
  assert (Hend : w32 (addr + page_ceil length) = range_end addr length).
  { unfold range_end in *. pose proof (Z.mul_succ_div_gt (length + 65535) 65536 ltac:(lia)).
    rewrite page_ceil_eq, (w32_small (length + 65535)), w32_small by lia. done. }
  rewrite Hend, (bind_Ret _ _ _ _ _ (get_Ret s)).
  assert (Hre : addr <= range_end addr length).
  { unfold range_end. pose proof (Z.div_pos (length + 65535) 65536 ltac:(lia) ltac:(lia)). lia. }
  pose proof Hinv as [Ht _ _ _].
  destruct (first_overlap_split _ _ addr Ht) as (l1 & l2 & Hrs & Hfo & Hl1 & Hl2).
  assert (Hview : forall a, addr <= a -> view (regs s) a = view l2 a).
  { intros a Hle. rewrite Hrs, view_app. rewrite Hrs in Ht. apply tab_app in Ht as (mid & Ht1 & _).
    rewrite view_before; [done|]. eapply Forall_impl; [exact Hl1|]. simpl. intros. lia. }
  rewrite Hfo. assert (Ht2 := Ht). rewrite Hrs in Ht2. apply tab_app in Ht2 as (mid & _ & Ht2).
  pose proof (covered_spec (List.length (regs s)) mid _ l1 l2 addr (range_end addr length) Ht2
    ltac:(rewrite Hrs, length_app; lia) ltac:(lia) Hl2) as Hcov.
  rewrite <- Hrs in Hcov.
  destruct (covered _ _ _ _ _) eqn:Ec.
  - destruct (sync_loop_Ret (drop (List.length l1) (regs s)) addr (range_end addr length) 0 s)
      as (v & e & Hrun & Hle & Hv); [done|done| |lia|lia|].
    { intros x Hx. rewrite <- (take_drop (List.length l1) (regs s)). apply elem_of_app. by right. }
    exists v, e. split; [exact Hrun|]. split; [done|]. left. split; [|done].
    split; [done|]. intros a Hain. rewrite Hview by lia. by apply Hcov.
  - eexists _, _. split; [reflexivity|]. split; [apply env_le_errno|]. right. split; [|done].
    intros [_ Hall]. assert (false = true); [|done]. apply Hcov. intros a Hain. rewrite <- Hview by lia. by apply Hall.
Qed.

(** [msync] always returns and never changes the table or memory.  It
    rejects a misaligned address and bad flags with [EINVAL], accepts an empty
    range, and reports [ENOMEM] exactly when the page-rounded range wraps or
    some address of it is not mapped; otherwise it returns 0, or -1 when a
    write of some shared mapping failed. *)
Theorem msync_refines (s : st) addr length fl :
  minv s -> patient io_fuel s -> 0 <= addr < 2 ^ 32 -> 0 <= length < 2 ^ 32 ->
  exists v e, msync io_fuel addr length fl s = Ret (v, upd s (regs s) (frefs s) e) /\
    env_le (menv s) e /\
    let bad := has addr (PAGE - 1) || (has fl MS_ASYNC && has fl MS_SYNC) ||
               has fl (Z.lnot (Z.lor MS_ASYNC (Z.lor MS_SYNC MS_INVALIDATE))) in
    let whole := range_end addr length < 2 ^ 32 /\
      forall a, addr <= a < range_end addr length -> live (view (regs s) a) = true in
    if bad then v = -1 /\ errno e = EINVAL
    else if length =? 0 then v = 0 /\ e = menv s
    else (whole /\ (v = 0 \/ v = -1)) \/ (~ whole /\ v = -1 /\ errno e = ENOMEM).
Proof. apply msync_steps. Qed.

(** ** Sessions *)

(** A program's calls to the three functions, in the order the global lock
    serialises them. *)
Inductive call_ :=
  | CMmap (length pr fl fd offset : Z)
  | CMunmap (addr length : Z)
  | CMsync (addr length fl : Z).

Definition run_call (c : call_) : M st Z :=
  match c with
  | CMmap length pr fl fd offset => mmap io_fuel length pr fl fd offset
  | CMunmap addr length => munmap io_fuel addr length
  | CMsync addr length fl => msync io_fuel addr length fl
  end.

Fixpoint session (cs : list call_) : M st (list Z) :=
  match cs with
  | [] => mret []
  | c :: cs => v ← run_call c; vs ← session cs; mret (v :: vs)
  end.

(** Arguments are machine words; a mapping is below the size from which the
    rounded length no longer fits [intptr_t] (see [mmap_huge_aborts]). *)
Definition word_args (c : call_) : Prop :=
  match c with
  | CMmap length _ _ _ _ => 0 <= length <= 2 ^ 31 - PAGE
  | CMunmap addr length | CMsync addr length _ => 0 <= addr < 2 ^ 32 /\ 0 <= length < 2 ^ 32
  end.

(** A call that is given the last page of a memory of 4 GiB. *)
Definition last_call (c : call_) (s : st) : Prop :=
  match c with CMmap length pr fl _ _ => takes_last s length pr fl | _ => False end.

Lemma patient_le (s s' : st) : patient io_fuel s -> env_le (menv s) (menv s') -> patient io_fuel s'.
Proof. unfold patient. intros ? [_ ?]. lia. Qed.

Lemma run_call_Ret c (s : st) :
  minv s -> patient io_fuel s -> word_args c ->
  (exists v s', run_call c s = Ret (v, s') /\ minv s' /\ patient io_fuel s') \/ last_call c s.
Proof.
  intros Hinv Hpat Hargs. destruct c as [length pr fl fd offset|addr length|addr length fl]; simpl in *.
  - destruct (decide (mmap_check length pr fl fd offset = 0)) as [Hc|Hc].
    2:{ left. unfold mmap. destruct (Z.eqb_spec (mmap_check length pr fl fd offset) 0); [done|].
        eexists _, _. split; [reflexivity|]. split; [apply minv_env; [done|apply env_le_errno]|done]. }
    destruct (has fl MAP_ANON) eqn:Hanon.
    + destruct (mmap_front s _ _ _ _ _ Hinv Hpat Hargs Hc)
        as [(s' & Heq & Hun & _)|[(i & b & s1 & Hmap & _ & Hp & _ & Heq)|(i & b & s1 & _ & Hlast & _)]]; [left|left|by right].
      * exists MAP_FAILED, s'. split; [done|]. destruct Hun as [? Hle _ _]. eauto using patient_le.
      * rewrite Hanon in Heq. exists b, s1. by destruct Hmap.
    + destruct (mmap_file_steps s _ _ _ _ _ Hinv Hpat Hargs Hc Hanon)
        as [Hlast|(v & s' & Hrun & [[_ [? Hle _ _]]|(fr & total & s1 & e & [? Hle _ _ _] & _)])]; [by right|left..];
        exists v, s'; eauto using patient_le.
  - left. destruct (munmap_steps s addr length) as (v & s' & Hrun & Hcase); try tauto.
    exists v, s'. split; [done|]. destruct Hcase as [(_ & -> & _)|(_ & _ & _ & Hi & Hle & _)].
    + split; [apply minv_env; [done|apply env_le_errno]|done].
    + eauto using patient_le.
  - left. destruct (msync_steps s addr length fl) as (v & e & Hrun & Hle & _); try tauto.
    exists v, (upd s (regs s) (frefs s) e). split; [done|]. split; [by apply minv_env|]. by apply patient_upd.
Qed.

(** C3: from a state that satisfies the invariant every sequence of [mmap]
    (of lengths up to 2 GiB less a page), [munmap] and [msync] calls runs to
    completion - no loop spins, no pointer is read after its block was freed,
    [sbrk] never aborts - and ends in a state that satisfies it again: an
    ordered table of disjoint page runs below the top of memory, with exact
    reference counts on the descriptors it holds.  The only exception is a
    sequence in which a call of [mmap] is given the last page of a memory of the
    full 4 GiB: it runs up to that call. *)
Theorem session_safe cs (s : st) :
  minv s -> patient io_fuel s -> Forall word_args cs ->
  (exists vs s', session cs s = Ret (vs, s') /\ List.length vs = List.length cs /\ minv s' /\ patient io_fuel s') \/
  (exists cs1 c cs2 vs s1, cs = cs1 ++ c :: cs2 /\ session cs1 s = Ret (vs, s1) /\ minv s1 /\ patient io_fuel s1 /\ last_call c s1).
Proof.
  intros Hinv Hpat Hall. revert s Hinv Hpat. induction Hall as [|c cs Hc _ IH]; intros s Hinv Hpat; simpl.
  { left. by exists [], s. }
  destruct (run_call_Ret c s Hinv Hpat Hc) as [(v & s1 & Hrun & Hinv1 & Hpat1)|Hlast].
  2: { right. by exists [], c, cs, [], s. }
  destruct (IH s1 Hinv1 Hpat1) as [(vs & s2 & Hrest & Hlen & Hinv2 & Hpat2)|(cs1 & c' & cs2 & vs & s2 & -> & Hrest & Hi & Hp & Hl)].
  - left. exists (v :: vs), s2. rewrite (bind_Ret _ _ _ _ _ Hrun), (bind_Ret _ _ _ _ _ Hrest). by rewrite <- Hlen.
  - right. exists (c :: cs1), c', cs2, (v :: vs), s2. split; [done|]. split; [|done]. simpl.
    by rewrite (bind_Ret _ _ _ _ _ Hrun), (bind_Ret _ _ _ _ _ Hrest).
Qed.

(** A program whose memory is limited below 4 GiB never meets the exception. *)
Lemma below_never_last `{!Below4GiB W} c (s : st) : ~ last_call c s.
Proof.
  destruct c as [length pr fl fd offset| |]; simpl; [|tauto..]. intros (s1 & s2 & i & b & _ & _ & [Hfull _ _ _ _]).
  pose proof (below_4GiB (world (menv s2))). lia.
Qed.

(** The state of a program that has mapped nothing. *)
Definition mstate_init (e : env W) : st := MState [] 0 ∅ (fun _ => 0) e.

Lemma minv_init e : minv (mstate_init e).
Proof.
  split; simpl.
  - pose proof (memory_size_range (world e)). unfold LAST, PAGE. lia.
  - lia.
  - intros p. by rewrite lookup_empty.
  - done.
Qed.

Lemma page_ceil_huge length :
  2 ^ 31 - PAGE < length < PTRDIFF_MAX -> page_ceil length = 2 ^ 31.
Proof.
  unfold PAGE, PTRDIFF_MAX. intros. rewrite page_ceil_eq, w32_small by lia.
  replace (length + 65535) with (32768 * 65536 + (length - (2 ^ 31 - 65535))) by lia.
  rewrite Z.div_add_l, Z.div_small by lia. done.
Qed.

(** An anonymous request between 2 GiB less a page and [PTRDIFF_MAX]
    passes every argument check, but its rounded length is negative as an
    [intptr_t]: unless the pool happens to hold 2 GiB, [sbrk] aborts the
    process where [ENOMEM] was meant. *)
Theorem mmap_huge_aborts (s : st) length pr fl fd offset :
  2 ^ 31 - PAGE < length < PTRDIFF_MAX -> mmap_check length pr fl fd offset = 0 ->
  Z.of_nat (List.length (regs s)) + 2 <= capregs s -> Z.of_nat (List.length (regs s)) < 2 ^ 31 ->
  Forall (fun r => len r < 2 ^ 31) (regs s) ->
  mmap io_fuel length pr fl fd offset s = Stop Aborted.
Proof.
  intros Hlen Hcheck Hroom Hsmall Hfit. unfold mmap. rewrite Hcheck, page_ceil_huge by done.
  change (negb (0 =? 0)) with false. cbn iota.
  assert (Hres : reserve 2 s = Ret (0, s)).
  { unfold reserve. rewrite (bind_Ret _ _ _ _ _ (get_Ret s)), w32_small by lia.
    by destruct (Z.leb_spec (Z.of_nat (List.length (regs s)) + 2) (capregs s)); [|lia]. }
  rewrite (bind_Ret _ _ _ _ _ Hres). change (negb (0 =? 0)) with false. cbn iota.
  unfold acquire_pages at 1. unfold mbind at 1, M_bind at 1. rewrite (bind_Ret _ _ _ _ _ (get_Ret s)).
  rewrite (proj2 (list_find_None _ _)); [done|].
  eapply Forall_impl; [exact Hfit|]. unfold is_free_fit. simpl. lia.
Qed.

End Mmap.
