(* ===== verification/MmanExamples.v ===== *)
(** The theorems on [mmap], [munmap] and [msync] at concrete states of the
    hosts of [Sim]. *)
From S2P Require Import Prelude.
From S2P Require Import Wasi.
From S2P Require Import Sim.
From S2P Require Import Unistd.
From S2P Require Import Mman.
From S2P Require Import MmanTable.
From S2P Require Import MmanProofs.
From S2P Require Import MmanTheorems.

Definition fuel0 : nat := Z.to_nat (2 ^ 32).

Lemma fuel0_enough : Z.of_nat fuel0 = 2 ^ 32.
Proof. unfold fuel0. rewrite Z2Nat.id; [done|]. apply Z.pow_nonneg. lia. Qed.
#[global] Opaque fuel0.

(** Memory of four pages: a free page, a shared writable file mapping of two
    pages of which 70000 bytes are backed, and an anonymous page. *)
Definition regs0 : list region := [
  Region 0 65536 R_FREE true 0 0 None 0 0;
  Region 65536 131072 R_FILE false 3 1 (Some 1) 65536 70000;
  Region 196608 65536 R_ANON false 3 34 None 0 0].

Definition pages0 (a : Z) : Z := if a <? 262144 then a mod 256 else 0.

Definition state_ro : mstate ro :=
  MState regs0 16 {[1 := FileRef 7 1]} pages0 (Env 0 (Ro 4 3)).
Definition state_rw : mstate rw :=
  MState regs0 16 {[1 := FileRef 7 1]} pages0 (Env 0 (Rw 4 1 (fun _ _ => 0))).

Lemma regs0_ok : tab 0 262144 regs0.
Proof.
  simpl. unfold wf_region, wf_kind. simpl.
  split_and!; try done; try lia; apply Z.mod_divide; done.
Qed.

Lemma frefs0_ok : frefs_ok {[1 := FileRef 7 1]} regs0.
Proof.
  intros p. destruct (decide (p = 1)) as [->|Hp]; [by vm_compute|].
  rewrite lookup_singleton_ne by done. unfold regs0. autorewrite with table. simpl.
  rewrite !hold_None, hold_ne by done. done.
Qed.

Lemma state_ro_inv : minv state_ro.
Proof.
  split; [exact regs0_ok|simpl; lia|exact frefs0_ok|].
  intros a Ha. change (262144 <= a) in Ha. simpl. unfold pages0. destruct (Z.ltb_spec a 262144); [lia|done].
Qed.
Lemma state_rw_inv : minv state_rw.
Proof.
  split; [exact regs0_ok|simpl; lia|exact frefs0_ok|].
  intros a Ha. change (262144 <= a) in Ha. simpl. unfold pages0. destruct (Z.ltb_spec a 262144); [lia|done].
Qed.
Lemma state_ro_patient : patient fuel0 state_ro.
Proof. unfold patient. rewrite fuel0_enough. simpl. lia. Qed.
Lemma state_rw_patient : patient fuel0 state_rw.
Proof. unfold patient. rewrite fuel0_enough. simpl. lia. Qed.

Lemma mmap_rejects_witness :
  mmap_check 100 3 (MAP_FIXED + 34) (-1) 0 <> 0 /\
  mmap fuel0 100 3 (MAP_FIXED + 34) (-1) 0 state_ro =
    Ret (MAP_FAILED, upd state_ro regs0 {[1 := FileRef 7 1]} (Env EINVAL (Ro 4 3))).
Proof.
  split; [vm_compute; discriminate|].
  apply (mmap_rejects fuel0 state_ro 100 3 (MAP_FIXED + 34) (-1) 0). vm_compute. discriminate.
Defined.

Lemma mmap_anonymous_witness :
  minv state_ro /\ patient fuel0 state_ro /\ mmap_check 100 3 34 (-1) 0 = 0 /\
  exists v s', mmap fuel0 100 3 34 (-1) 0 state_ro = Ret (v, s') /\
    ((v = MAP_FAILED /\ errno (menv s') = ENOMEM /\ untouched state_ro s') \/
     (mapped state_ro s' v (page_ceil 100) (fun _ => CAnon 3 34) /\
      forall a, v <= a < v + page_ceil 100 -> mem s' a = 0)).
Proof.
  split; [exact state_ro_inv|]. split; [exact state_ro_patient|]. split; [reflexivity|].
  destruct (mmap_anonymous fuel0 state_ro 100 3 34 (-1) 0 state_ro_inv state_ro_patient) as (v & s' & Hrun & [H|[H|[[Hfull _ _ _ _] _]]]);
    [unfold PAGE; lia|reflexivity|reflexivity|exists v, s'; split; [done|by left]|exists v, s'; split; [done|by right]|].
  exfalso. pose proof (below_4GiB (world (menv s'))). lia.
Defined.

Lemma mmap_file_witness :
  minv state_ro /\ patient fuel0 state_ro /\ mmap_check 10 3 1 5 0 = 0 /\
  exists v s', mmap fuel0 10 3 1 5 0 state_ro = Ret (v, s') /\
    ((v = MAP_FAILED /\ untouched state_ro s') \/
     exists fr total, mapped state_ro s' v (page_ceil 10) (file_cell v 3 1 fr 0 total) /\
       (is_Some fr <-> has 1 MAP_SHARED && has 3 PROT_WRITE = true) /\
       forall j, 0 <= j < page_ceil 10 ->
         mem s' (v + j) = default 0 (file_byte 5 (0 + j)) /\
         (j < total <-> is_Some (file_byte 5 (0 + j)))).
Proof.
  split; [exact state_ro_inv|]. split; [exact state_ro_patient|]. split; [reflexivity|].
  destruct (mmap_file fuel0 state_ro 10 3 1 5 0) as [Hlast|H];
    [exact state_ro_inv|exact state_ro_patient|unfold PAGE; lia|reflexivity|reflexivity|by vm_compute| |exact H].
  destruct (below_never_last (CMmap 10 3 1 5 0) state_ro Hlast).
Defined.

(** The second page of the file mapping and the page after it. *)
Lemma munmap_refines_witness :
  minv state_rw /\ patient fuel0 state_rw /\
  exists v s', munmap fuel0 131072 70000 state_rw = Ret (v, s') /\
    ((v = -1 /\ s' = upd state_rw (regs state_rw) (frefs state_rw) (Env EINVAL (world (menv state_rw))) /\
        (~ (PAGE | 131072) \/ 70000 = 0 \/ 2 ^ 32 <= range_end 131072 70000)) \/
     ((PAGE | 131072) /\ 0 < 70000 /\ range_end 131072 70000 < 2 ^ 32 /\ minv s' /\
        env_le (menv state_rw) (menv s') /\ mem s' = mem state_rw /\
        ((v = -1 /\ errno (menv s') = ENOMEM /\ regs s' = regs state_rw) \/
         (v = 0 /\ forall a, view (regs s') a =
            unmapped 131072 (range_end 131072 70000) a (view (regs state_rw) a))))).
Proof.
  split; [exact state_rw_inv|]. split; [exact state_rw_patient|].
  apply (munmap_refines fuel0 state_rw 131072 70000);
    [exact state_rw_inv|exact state_rw_patient|lia|lia].
Defined.

Definition region0 : region := Region 65536 131072 R_FILE false 3 1 (Some 1) 65536 70000.
Definition region0_small : region := Region 65536 65536 R_FILE false 3 1 (Some 1) 65536 5.

(** A mapping whose file is five bytes long, after one interrupted write. *)
Lemma writeback_stores_witness :
  writeback 3 region0_small 65536 131072 state_rw = Ret (0, after (writeback 3 region0_small 65536 131072) state_rw) /\
  forall j, stored (world (menv (after (writeback 3 region0_small 65536 131072) state_rw))) 7 j =
    let a := 65536 + (j - 65536) in
    if (65536 <=? a) && (a <? 131072) && (a <? 65536 + 5) then pages0 a else 0.
Proof.
  assert (Hrun : writeback 3 region0_small 65536 131072 state_rw =
    Ret (0, after (writeback 3 region0_small 65536 131072) state_rw)) by (apply result_after; vm_compute; reflexivity).
  split; [exact Hrun|]. refine (writeback_stores 3 state_rw _ region0_small (FileRef 7 1) 65536 131072 Hrun _ _ _ _ _ _ _).
  - unfold wf_region, wf_kind. simpl. split_and!; try done; apply Z.mod_divide; done.
  - reflexivity.
  - reflexivity.
  - simpl. lia.
  - simpl. lia.
  - simpl. lia.
  - simpl. lia.
Defined.

Lemma msync_refines_witness :
  minv state_rw /\ patient fuel0 state_rw /\
  exists v e, msync fuel0 65536 200000 MS_SYNC state_rw = Ret (v, upd state_rw regs0 {[1 := FileRef 7 1]} e) /\
    env_le (menv state_rw) e /\
    ((range_end 65536 200000 < 2 ^ 32 /\
      forall a, 65536 <= a < range_end 65536 200000 -> live (view regs0 a) = true) /\ (v = 0 \/ v = -1) \/
     ~ (range_end 65536 200000 < 2 ^ 32 /\
      forall a, 65536 <= a < range_end 65536 200000 -> live (view regs0 a) = true) /\ v = -1 /\ errno e = ENOMEM).
Proof.
  split; [exact state_rw_inv|]. split; [exact state_rw_patient|].
  exact (msync_refines fuel0 state_rw 65536 200000 MS_SYNC state_rw_inv state_rw_patient
    ltac:(lia) ltac:(lia)).
Defined.

Definition calls0 : list call_ :=
  [CMmap 10 3 1 5 0; CMmap 200000 3 34 (-1) 0; CMsync 65536 131072 MS_SYNC; CMunmap 131072 131072;
   CMunmap 0 1000000; CMmap 65536 3 34 (-1) 0].

Lemma session_safe_witness :
  minv state_ro /\ patient fuel0 state_ro /\ Forall word_args calls0 /\
  exists vs s', session fuel0 calls0 state_ro = Ret (vs, s') /\ List.length vs = 6%nat /\
    minv s' /\ patient fuel0 s'.
Proof.
  assert (Hargs : Forall word_args calls0).
  { unfold calls0. repeat constructor; unfold word_args, PAGE; lia. }
  split; [exact state_ro_inv|]. split; [exact state_ro_patient|]. split; [exact Hargs|].
  destruct (session_safe fuel0 calls0 state_ro state_ro_inv state_ro_patient Hargs)
    as [H|(cs1 & c & cs2 & vs & s1 & _ & _ & _ & _ & Hlast)]; [exact H|].
  destruct (below_never_last c s1 Hlast).
Defined.

(** ** The last page of 4 GiB

    A host whose memory may have 65536 pages, all calls of which fail but
    [memory.grow] and [malloc]. *)
Record full := Full { full_pages : Z }.

#[export] Instance full_mem : WasmMem full := {|
  memory_size w := Z.max 0 (Z.min 65536 (full_pages w));
  memory_grow n w :=
    let n0 := Z.max 0 (Z.min 65536 (full_pages w)) in
    if n0 + n <=? 65536 then (n0, Full (n0 + n)) else (2 ^ 32 - 1, w) |}.
#[export] Instance full_patience : Patience full := {| budget _ := 0%nat |}.
#[export] Instance full_mem_laws : WasmMemLaws full.
Proof.
  split; [intros w; simpl; lia|]. intros n w r w' Hn. simpl.
  destruct (Z.leb_spec (Z.max 0 (Z.min 65536 (full_pages w)) + n) 65536); intros [= <- <-]; simpl; (split; [lia|]); [left; lia|by right].
Qed.
#[export] Instance full_fd : WasiFd full := {|
  wasi_fd_pread fd n o w := (EBADF, [], w);
  wasi_fd_pwrite fd l o w := (EBADF, 0, w);
  wasi_fd_dup fd w := (EBADF, 0, w);
  wasi_fd_close fd w := (EBADF, w);
  wasi_fd_fdstat_get fd w := (EBADF, FdStat 0 0 0 0, w) |}.
#[export] Instance full_alloc : Alloc full := {| malloc_ok n w := (true, w) |}.

(** The last two pages are mapped; unmapping the first of them returns 0 and
    does nothing, and unmapping both fails with [EINVAL]: the end of the region
    is 0 as a [uintptr_t], so [first_overlap] passes over it. *)
Definition before_last : mstate full := mstate_init (Env 0 (Full 65534)).
Definition after_last : mstate full := after (mmap 1 131072 3 34 (-1) 0) before_last.

Example last_page_stays :
  let v := 65534 * 65536 in
  result (mmap 1 131072 3 34 (-1) 0) before_last = Some v /\
  live (view (regs after_last) v) = true /\
  (result (munmap 1 v 65536) after_last = Some 0 /\
   regs (after (munmap 1 v 65536) after_last) = regs after_last) /\
  result (munmap 1 v 131072) after_last = Some (-1).
Proof. vm_compute. done. Qed.

Lemma mmap_huge_aborts_witness :
  mmap_check (2 ^ 31 - 2) 3 34 (-1) 0 = 0 /\ mmap fuel0 (2 ^ 31 - 2) 3 34 (-1) 0 state_ro = Stop Aborted.
Proof.
  split; [reflexivity|].
  apply (mmap_huge_aborts fuel0 state_ro (2 ^ 31 - 2) 3 34 (-1) 0);
    [unfold PAGE, PTRDIFF_MAX; lia|reflexivity|simpl; lia|simpl; lia|].
  unfold state_ro, regs0. simpl. repeat constructor; simpl; lia.
Defined.
