(* ===== verification/Paths.v ===== *)
(** Preopened directories and path resolution
    ([libc-bottom-half/sources/preopens.c], [chdir.c], [getcwd.c]). *)
From S2P Require Import Prelude.
From S2P Require Import Wasi.

(** ** Pure path functions *)

Record preopen := Preopen { prefix_ : list Z; pfd : Z }.

(** Drops leading slashes and dot components, and turns a lone dot into the
    empty string; every turn consumes a byte of the string. *)
Fixpoint strip_loop (fuel : nat) (path : list Z) : list Z :=
  match fuel with
  | O => path
  | S fuel =>
      if at_ path 0 =? slash then strip_loop fuel (drop 1 path)
      else if (at_ path 0 =? dot) && (at_ path 1 =? slash) then strip_loop fuel (drop 2 path)
      else if (at_ path 0 =? dot) && (at_ path 1 =? 0) then strip_loop fuel (drop 1 path)
      else path
  end.
Definition strip_prefixes (path : list Z) : list Z := strip_loop (length path) path.

(** [while (i > 0 && prefix[i - 1] == '/') --i;] *)
Fixpoint trim_slashes (prefix : list Z) (i : nat) : nat :=
  match i with
  | O => O
  | S i' => if at_ prefix i' =? slash then trim_slashes prefix i' else i
  end.

Definition prefix_matches (prefix : list Z) (prefix_len : nat) (path : list Z) : bool :=
  if negb (at_ path 0 =? slash) && (prefix_len =? 0)%nat then true
  else if negb (memcmp path prefix prefix_len =? 0) then false
  else
    let last := at_ path (trim_slashes prefix prefix_len) in
    (last =? slash) || (last =? 0).

(** The length of the run of slashes at the start of a string. *)
Fixpoint slash_run (path : list Z) : nat :=
  match path with
  | b :: path => if b =? slash then S (slash_run path) else O
  | [] => O
  end.

(** The search through the table, most recent entry first, with the best
    match so far: descriptor, [match_len] and [abs_prefix]. *)
Record best := Best { bfd : Z; match_len : nat; abs_prefix : list Z }.

Definition scan_step (path : list Z) (b : best) (pre : preopen) : best :=
  let search_path := drop (slash_run path) path in
  let prefix := prefix_ pre in
  let len := length prefix in
  if ((bfd b =? -1) || (match_len b <? len)%nat) && prefix_matches prefix len search_path then
    let m :=
      if (len =? 0)%nat then O
      else let m := (len + (length path - length search_path))%nat in
           (m + slash_run (drop m path))%nat in
    Best (pfd pre) m prefix
  else b.

(** The scan: best match, or [None] when nothing matches. *)
Definition scan (pres : list preopen) (path : list Z) : best :=
  fold_left (scan_step path) (reverse pres) (Best (-1) 0 []).

Definition relative_of (path : list Z) (m : nat) : list Z :=
  let computed := drop m path in
  if (length computed =? 0)%nat then [dot] else computed.

(** ** State *)

(** A block on the heap: the bytes allocated, and the string stored in it. *)
Record cblock := CBlock { cb_size : Z; cb_string : option (list Z) }.

(** A growable path buffer: its block on the heap and the size kept beside the
    pointer. *)
Record pbuf := PBuf { bptr : option Z; bcap : Z }.

(** Which of the static buffers: [find_relpath]'s, [find_relpath_alt]'s
    ([posix.c]), [chdir_legacy]'s or [make_absolute]'s. *)
Inductive which := REL | ALT | CHDIR | ABS.

Record pstate (W : Type) := PState {
  preopens : list preopen;
  preopen_capacity : Z;
  lock : bool;
  populated : bool;
  cwd : option (list Z);
  cwd_lock : bool;
  cwd_mallocd : bool;
  cwd_is_synced : bool;
  bufs : which -> pbuf;
  heap : gmap Z cblock;
  penv : env W }.
Arguments PState {W} _ _ _ _ _ _ _ _ _ _ _.
Arguments preopens {W} _.
Arguments preopen_capacity {W} _.
Arguments lock {W} _.
Arguments populated {W} _.
Arguments cwd {W} _.
Arguments cwd_lock {W} _.
Arguments cwd_mallocd {W} _.
Arguments cwd_is_synced {W} _.
Arguments bufs {W} _ _.
Arguments heap {W} _.
Arguments penv {W} _.

Definition EX_SOFTWARE : Z := 70.
Definition EX_OSERR : Z := 71.
Definition PREOPENTYPE_DIR : Z := 0.
Definition SIZEOF_PREOPEN : Z := 8.

Section Paths.
  Context {W : Type} `{WasiPath W, Alloc W}.

(** Whether the process has started threads: only then do locks wait. *)
Variable threaded : bool.

Abbreviation PM := (M (pstate W)).

Definition set_table (l : list preopen) (c : Z) (s : pstate W) : pstate W :=
  PState l c (lock s) (populated s) (cwd s) (cwd_lock s) (cwd_mallocd s) (cwd_is_synced s)
    (bufs s) (heap s) (penv s).
Definition set_lock (b : bool) (s : pstate W) : pstate W :=
  PState (preopens s) (preopen_capacity s) b (populated s) (cwd s) (cwd_lock s) (cwd_mallocd s)
    (cwd_is_synced s) (bufs s) (heap s) (penv s).
Definition set_populated (b : bool) (s : pstate W) : pstate W :=
  PState (preopens s) (preopen_capacity s) (lock s) b (cwd s) (cwd_lock s) (cwd_mallocd s)
    (cwd_is_synced s) (bufs s) (heap s) (penv s).
Definition set_cwd (c : option (list Z)) (m sy : bool) (s : pstate W) : pstate W :=
  PState (preopens s) (preopen_capacity s) (lock s) (populated s) c (cwd_lock s) m sy
    (bufs s) (heap s) (penv s).
Definition set_cwd_lock (b : bool) (s : pstate W) : pstate W :=
  PState (preopens s) (preopen_capacity s) (lock s) (populated s) (cwd s) b (cwd_mallocd s)
    (cwd_is_synced s) (bufs s) (heap s) (penv s).
Definition set_bufs (f : which -> pbuf) (h : gmap Z cblock) (s : pstate W) : pstate W :=
  PState (preopens s) (preopen_capacity s) (lock s) (populated s) (cwd s) (cwd_lock s) (cwd_mallocd s)
    (cwd_is_synced s) f h (penv s).
Definition set_env (e : env W) (s : pstate W) : pstate W :=
  PState (preopens s) (preopen_capacity s) (lock s) (populated s) (cwd s) (cwd_lock s) (cwd_mallocd s)
    (cwd_is_synced s) (bufs s) (heap s) e.

Definition pcall {A} (m : M (env W) A) : PM A := fun s =>
  match m (penv s) with
  | Ret (a, e) => Ret (a, set_env e s)
  | Stop r => Stop r
  end.
Definition pfail (e : Z) : PM unit := pcall (set_errno e).
Definition malloc (n : Z) : PM bool := pcall (host (malloc_ok n)).

Definition LOCK : PM unit :=
  if threaded then s ← get; if lock s then halt Deadlock else modify (set_lock true) else mret tt.
Definition UNLOCK : PM unit := if threaded then modify (set_lock false) else mret tt.
Definition __wasilibc_cwd_lock : PM unit :=
  if threaded then s ← get; if cwd_lock s then halt Deadlock else modify (set_cwd_lock true) else mret tt.
Definition __wasilibc_cwd_unlock : PM unit := if threaded then modify (set_cwd_lock false) else mret tt.

(** ** [preopens.c] *)

Definition resize : PM Z :=
  LOCK;;
  s ← get;
  let new_capacity := if preopen_capacity s =? 0 then 4 else w32 (preopen_capacity s * 2) in
  ok ← malloc (w32 (SIZEOF_PREOPEN * new_capacity));
  if negb (ok : bool) then UNLOCK;; mret (-1) else
  modify (set_table (preopens s) new_capacity);;
  UNLOCK;;
  mret 0.

Definition internal_register_preopened_fd (fd : Z) (relprefix : list Z) : PM Z :=
  LOCK;;
  s ← get;
  r ← (if Z.of_nat (length (preopens s)) =? preopen_capacity s then resize else mret 0);
  if negb (r =? 0) then UNLOCK;; mret (-1) else
  let prefix := strip_prefixes relprefix in
  ok ← malloc (w32 (Z.of_nat (length prefix) + 1));
  if negb (ok : bool) then UNLOCK;; mret (-1) else
  modify (fun s => set_table (preopens s ++ [Preopen prefix fd]) (preopen_capacity s) s);;
  UNLOCK;;
  mret 0.

Definition __wasilibc_register_preopened_fd (fd : Z) (prefix : list Z) : PM Z :=
  internal_register_preopened_fd fd prefix.

(** Descriptor, [*abs_prefix] and [*relative_path]; the latter are set on
    success only. *)
Definition __wasilibc_find_abspath (path : list Z) : PM (Z * list Z * list Z) :=
  LOCK;;
  s ← get;
  let b := scan (preopens s) path in
  UNLOCK;;
  if bfd b =? -1 then pfail ENOENT;; mret (-1, [], [])
  else mret (bfd b, abs_prefix b, relative_of path (match_len b)).

(** The loop over the descriptors from 3 on; the fuel bounds how many are
    preopened. *)
Fixpoint populate_loop (fuel : nat) (fd : Z) : PM unit :=
  match fuel with
  | O => halt OutOfFuel
  | S fuel =>
      if fd =? 0 then mret tt else
      '(ret, prestat) ← pcall (host (wasi_fd_prestat_get fd));
      if ret =? EBADF then mret tt
      else if negb (ret =? 0) then halt (Exited EX_OSERR)
      else if pr_tag prestat =? PREOPENTYPE_DIR then
        ok ← malloc (w32 (pr_name_len prestat + 1));
        if negb (ok : bool) then halt (Exited EX_SOFTWARE) else
        '(ret, prefix) ← pcall (host (wasi_fd_prestat_dir_name fd (pr_name_len prestat)));
        if negb (ret =? 0) then halt (Exited EX_OSERR) else
        r ← internal_register_preopened_fd fd (c_str prefix);
        if negb (r =? 0) then halt (Exited EX_SOFTWARE) else
        populate_loop fuel (s32 (fd + 1))
      else populate_loop fuel (s32 (fd + 1))
  end.

Definition __wasilibc_populate_preopens (fuel : nat) : PM unit :=
  s ← get;
  if populated s then mret tt else
  modify (set_populated true);;
  populate_loop fuel 3.

(** ** [getcwd.c] *)

(** The string returned, [None] for [NULL]; [null] says that [buf] is. *)
Definition getcwd (null : bool) (size : Z) : PM (option (list Z)) :=
  '(error, l, bufsize) ← pcall (host (wasi_getcwd (negb null) size));
  if (error =? ERANGE) && null then
    ok ← malloc bufsize;
    if negb (ok : bool) then mret None else
    '(error, l, _) ← pcall (host (wasi_getcwd true bufsize));
    if negb (error =? 0) then pfail error;; mret None else mret (Some (c_str l))
  else if negb (error =? 0) then pfail error;; mret None
  else if null then mret None else mret (Some (c_str l)).

Definition getcwd_legacy (null : bool) (size : Z) : PM (option (list Z)) :=
  __wasilibc_cwd_lock;;
  s ← get;
  match cwd s with
  | None => halt Undefined
  | Some c =>
      if null then
        ok ← malloc (w32 (Z.of_nat (length c) + 1));
        if negb (ok : bool) then pfail ENOMEM;; __wasilibc_cwd_unlock;; mret None
        else __wasilibc_cwd_unlock;; mret (Some c)
      else if size <? w32 (Z.of_nat (length c) + 1) then
        pfail ERANGE;; __wasilibc_cwd_unlock;; mret None
      else __wasilibc_cwd_unlock;; mret (Some c)
  end.

(** ** [chdir.c] *)

(** A new block of [n] bytes that the string [l] is copied into; [None] if there
    is no memory. *)
Definition malloc_strcpy (n : Z) (l : list Z) : PM (option (list Z)) :=
  ok ← malloc n;
  if negb (ok : bool) then mret None else
  if n <? Z.of_nat (length l) + 1 then halt Undefined else mret (Some l).

(** Fetches the host's working directory the first time; [false] when
    [make_absolute] then returns [NULL]. *)
Definition sync_cwd : PM bool :=
  s ← get;
  if cwd_is_synced s then mret true else
  c ← getcwd false 256;
  match c with
  | None => mret false
  | Some c =>
      new_cwd ← malloc_strcpy (w32 (Z.of_nat (length c) + 1)) c;
      __wasilibc_cwd_lock;;
      modify (set_cwd new_cwd true true);;
      __wasilibc_cwd_unlock;;
      mret true
  end.

Definition is_dot (path : list Z) : bool :=
  bool_decide (path = []) || bool_decide (path = [dot]) || bool_decide (path = [dot; slash]).

Definition set_buf (b : which) (v : pbuf) (f : which -> pbuf) : which -> pbuf := fun b' =>
  match b, b' with
  | REL, REL | ALT, ALT | CHDIR, CHDIR | ABS, ABS => v
  | _, _ => f b'
  end.

(** [realloc] of a path buffer: a block under a new name with the string of the
    old one, if that fits; the old block, and every pointer to it, is gone. *)
Definition realloc (p : option Z) (n : Z) : PM (option Z) :=
  ok ← malloc n;
  if negb (ok : bool) then mret None else
  s ← get;
  let q := fresh (dom (heap s)) in
  match p with
  | None => modify (set_bufs (bufs s) (<[q := CBlock n None]> (heap s)));; mret (Some q)
  | Some p =>
      match heap s !! p with
      | None => halt Undefined
      | Some old =>
          let l := l ← cb_string old; if Z.of_nat (length l) <? n then Some l else None in
          modify (set_bufs (bufs s) (<[q := CBlock n l]> (delete p (heap s))));;
          mret (Some q)
      end
  end.

(** [strcpy] to the offset [off] of a heap block.  The string in the block is
    then what was there before the offset and [l], or stays if it ends before
    the offset. *)
Definition strcpy_at (p : option Z) (off : Z) (l : list Z) : PM unit :=
  s ← get;
  match p with
  | None => halt Undefined
  | Some p =>
      match heap s !! p with
      | None => halt Undefined
      | Some x =>
          if cb_size x <? off + Z.of_nat (length l) + 1 then halt Undefined else
          let l' :=
            match cb_string x with
            | Some old => Some (if off <=? Z.of_nat (length old) then take (Z.to_nat off) old ++ l else old)
            | None => if off =? 0 then Some l else None
            end in
          modify (set_bufs (bufs s) (<[p := CBlock (cb_size x) l']> (heap s)))
      end
  end.
Definition strcpy (p : option Z) (l : list Z) : PM unit := strcpy_at p 0 l.

(** What a pointer to a path buffer reads. *)
Definition deref (p : option Z) : PM (list Z) :=
  s ← get;
  match x ← p ≫= (heap s !!.); cb_string x with
  | None => halt Undefined
  | Some l => mret l
  end.

(** [realloc] of a buffer to [n] bytes, and [len] as its size; [false] if there
    is no memory. *)
Definition grow_buf (b : which) (n len : Z) : PM bool :=
  s ← get;
  tmp ← realloc (bptr (bufs s b)) n;
  match tmp with
  | None => mret false
  | Some q => modify (fun s => set_bufs (set_buf b (PBuf (Some q) len) (bufs s)) (heap s) s);; mret true
  end.

(** The string returned, [None] for [NULL]. *)
Definition make_absolute (path : list Z) : PM (option (list Z)) :=
  ok ← sync_cwd;
  if negb ok then mret None else
  if at_ path 0 =? slash then mret (Some path) else
  let path := if (at_ path 0 =? dot) && (at_ path 1 =? slash) then drop 2 path else path in
  __wasilibc_cwd_lock;;
  s ← get;
  match cwd s with
  | None | Some [] => halt Undefined
  | Some c =>
      let cwd_len := Z.of_nat (length c) in
      let path_len := Z.of_nat (length path) in
      let need_slash := if at_ c (pred (length c)) =? slash then 0 else 1 in
      let alloc_len := w32 (cwd_len + path_len + 1 + need_slash) in
      ok ← (if bcap (bufs s ABS) <? alloc_len then grow_buf ABS alloc_len alloc_len else mret true);
      if negb (ok : bool) then __wasilibc_cwd_unlock;; mret None else
      s ← get;
      let make_absolute_buf := bptr (bufs s ABS) in
      strcpy make_absolute_buf c;;
      __wasilibc_cwd_unlock;;
      (if is_dot path then mret tt else
       (if need_slash =? 0 then mret tt else strcpy_at make_absolute_buf cwd_len [slash]);;
       strcpy_at make_absolute_buf (cwd_len + need_slash) path);;
      l ← deref make_absolute_buf;
      mret (Some l)
  end.

(** With one of the static buffers ([can_realloc] is 1 in every such call):
    the descriptor and [*abs_prefix]. *)
Definition find_relpath_alloc (path : list Z) (b : which) : PM (Z * list Z) :=
  abspath ← make_absolute path;
  match abspath with
  | None => pfail ENOMEM;; mret (-1, [])
  | Some abspath =>
      '(fd, abs, rel) ← __wasilibc_find_abspath abspath;
      if fd =? -1 then mret (-1, []) else
      let rel_len := Z.of_nat (length rel) in
      s ← get;
      ok ← (if bcap (bufs s b) <? w32 (rel_len + 1) then
              grow_buf b (w32 (rel_len + 1)) (w32 (rel_len + 1))
            else mret true);
      if negb (ok : bool) then pfail ENOMEM;; mret (-1, abs) else
      s ← get;
      strcpy (bptr (bufs s b)) rel;;
      mret (fd, abs)
  end.

(** With the caller's buffer of [relative_path_len] bytes ([can_realloc] is
    0): the descriptor, [*abs_prefix] and the bytes copied to the buffer. *)
Definition __wasilibc_find_relpath (path : list Z) (relative_path_len : Z) : PM (Z * list Z * list Z) :=
  abspath ← make_absolute path;
  match abspath with
  | None => pfail ENOMEM;; mret (-1, [], [])
  | Some abspath =>
      '(fd, abs, rel) ← __wasilibc_find_abspath abspath;
      if fd =? -1 then mret (-1, [], []) else
      if relative_path_len <? w32 (Z.of_nat (length rel) + 1) then pfail ERANGE;; mret (-1, abs, [])
      else mret (fd, abs, rel)
  end.

End Paths.
