(* ===== verification/PathsProofs.v ===== *)
(** What path resolution promises: [strip_prefixes] keeps the path, the scan
    of the preopen table finds a best match, registration appends, and the
    buffers of [Paths] hold what was resolved. *)
From stdpp Require Import sorting.
From S2P Require Import Prelude.
From S2P Require Import Wasi.
From S2P Require Import Paths.

(** The allocator was asked for memory, once at least or any number of times,
    and left the host as it is: with the last request denied, or in all. *)
Definition denied {W : Type} `{Alloc W} (w : W) : Prop := exists n w0, malloc_ok n w0 = (false, w).
Definition mallocs {W : Type} `{Alloc W} : W -> W -> Prop := rtc (fun w w' => exists n ok, malloc_ok n w = (ok, w')).

(** ** Components of a path *)

Fixpoint split_slash (p : list Z) : list (list Z) :=
  match p with
  | [] => [[]]
  | b :: p =>
      if b =? slash then [] :: split_slash p
      else match split_slash p with h :: t => (b :: h) :: t | [] => [[b]] end
  end.

(** A path as a relative sequence of names: empty and dot components do not
    count. *)
Definition comps (p : list Z) : list (list Z) :=
  filter (fun c => c <> [] /\ c <> [dot]) (split_slash p).

Lemma comps_slash p : comps (slash :: p) = comps p.
Proof. unfold comps. simpl. rewrite filter_cons_False; [done|]. by intros [? _]. Qed.
Lemma comps_dot_slash p : comps (dot :: slash :: p) = comps p.
Proof. unfold comps. simpl. rewrite filter_cons_False; [done|]. by intros [_ ?]. Qed.
Lemma comps_dot : comps [dot] = [].
Proof. unfold comps. simpl. rewrite filter_cons_False; [done|]. by intros [_ ?]. Qed.

(** A string that [strip_prefixes] leaves alone. *)
Definition stripped (p : list Z) : Prop :=
  at_ p 0 <> slash /\ ~ (at_ p 0 = dot /\ (at_ p 1 = slash \/ at_ p 1 = 0)).

Lemma strip_loop_spec fuel p : c_string p -> (length p <= fuel)%nat ->
  comps (strip_loop fuel p) = comps p /\ strip_loop fuel p `suffix_of` p /\ stripped (strip_loop fuel p).
Proof.
  revert p. induction fuel as [|fuel IH]; intros p Hp Hf; simpl.
  { destruct p; [|simpl in Hf; lia]. split_and!; [done|done|]. split; [done|]. by intros [? _]. }
  destruct p as [|a p].
  { simpl. split_and!; [done|done|]. split; [done|]. by intros [? _]. }
  apply Forall_cons in Hp as [Ha Hp]. simpl in Hf. change (at_ (a :: p) 0) with a.
  destruct (Z.eqb_spec a slash) as [->|Hslash].
  { simpl drop. destruct (IH p) as (H1 & H2 & H3); [done|lia|].
    split_and!; [by rewrite comps_slash|by apply suffix_cons_r|done]. }
  rewrite at_cons. destruct (Z.eqb_spec a dot) as [->|Hdot]; simpl.
  2:{ split_and!; [done|done|]. split; [done|]. by intros [? _]. }
  destruct p as [|b p].
  { simpl. destruct (IH []) as (H1 & H2 & H3); [done|simpl; lia|].
    split_and!; [by rewrite comps_dot, H1|by apply suffix_cons_r|done]. }
  apply Forall_cons in Hp as [Hb Hp]. change (at_ (b :: p) 0) with b.
  destruct (Z.eqb_spec b slash) as [->|Hb1]; simpl.
  { simpl in Hf. destruct (IH p) as (H1 & H2 & H3); [done|lia|].
    split_and!; [by rewrite comps_dot_slash|by do 2 apply suffix_cons_r|done]. }
  destruct (Z.eqb_spec b 0) as [->|Hb0]; [lia|].
  split_and!; [done|done|]. split; [done|]. by intros [_ [?|?]].
Qed.

(** [strip_prefixes] returns a suffix of the path that names the same
    components, and strips all there is to strip: the result starts with no
    slash and no dot component. *)
Theorem strip_prefixes_spec p : c_string p ->
  comps (strip_prefixes p) = comps p /\ strip_prefixes p `suffix_of` p /\ stripped (strip_prefixes p).
Proof. intros Hp. by apply strip_loop_spec. Qed.

(** ** Matching *)

(** [prefix] is a leading part of [path] that ends where a component does. *)
Definition covers (prefix path : list Z) : Prop :=
  exists rest, path = prefix ++ rest /\
    (prefix = [] \/ last prefix = Some slash \/ rest = [] \/ head rest = Some slash).

Lemma trim_slashes_le prefix i : (trim_slashes prefix i <= i)%nat.
Proof. induction i; simpl; [lia|]. destruct (_ =? _); lia. Qed.

Lemma trim_slashes_run prefix i j : (trim_slashes prefix i <= j < i)%nat -> at_ prefix j = slash.
Proof.
  induction i as [|i IH]; simpl; [lia|]. destruct (Z.eqb_spec (at_ prefix i) slash); [|lia].
  intros. destruct (decide (j = i)) as [->|]; [done|]. apply IH. lia.
Qed.

Lemma last_at (p : list Z) : p <> [] -> last p = Some (at_ p (pred (length p))).
Proof.
  intros Hne. rewrite last_lookup. unfold at_. destruct (lookup_lt_is_Some_2 p (pred (length p))) as [x Hx];
    [destruct p; simpl; [done|lia]|]. by rewrite Hx.
Qed.

Lemma at_app_l (p q : list Z) i : (i < length p)%nat -> at_ (p ++ q) i = at_ p i.
Proof. intros. unfold at_. by rewrite lookup_app_l. Qed.

Lemma at_pos p i : c_string p -> (i < length p)%nat -> 0 < at_ p i < 256.
Proof.
  intros Hp Hi. destruct (lookup_lt_is_Some_2 p i Hi) as [b Hb]. rewrite (at_lookup _ _ _ Hb).
  exact (Forall_lookup_1 _ _ _ _ Hp Hb).
Qed.

Lemma prefix_matches_spec prefix path :
  c_string prefix -> c_string path -> at_ path 0 <> slash ->
  prefix_matches prefix (length prefix) path = true <-> covers prefix path.
Proof.
  intros Hpre Hpath Hs. unfold prefix_matches. destruct (Z.eqb_spec (at_ path 0) slash); [done|]. simpl.
  destruct (Nat.eqb_spec (length prefix) 0) as [Hz|Hz].
  { apply length_zero_iff_nil in Hz as ->. split; [|done]. exists path. by split; [|left]. }
  assert (Hne : prefix <> []) by (by intros ->).
  destruct (Z.eqb_spec (memcmp path prefix (length prefix)) 0) as [Hm|Hm]; simpl;
    rewrite memcmp_prefix, take_ge in Hm by (done || lia).
  2:{ split; [done|]. intros (rest & -> & _). destruct Hm. by apply prefix_app_r. }
  destruct Hm as [rest ->]. apply Forall_app in Hpath as [_ Hrest].
  pose proof (last_at prefix Hne) as Hlast.
  destruct (length prefix) as [|k] eqn:En; [done|]. simpl in Hlast. cbn [trim_slashes].
  destruct (Z.eqb_spec (at_ prefix k) slash) as [Hsl|Hsl].
  - pose proof (trim_slashes_le prefix k). rewrite at_app_l by lia.
    rewrite (trim_slashes_run prefix (S k)); [|simpl; rewrite Hsl; simpl; lia].
    split; [|done]. intros _. exists rest. split; [done|]. right. left. by rewrite Hlast, Hsl.
  - replace (S k) with (length prefix + 0)%nat by lia. rewrite at_app_r. split.
    + intros Hor. exists rest. split; [done|]. right. right. destruct rest as [|b rest]; [by left|right].
      change (at_ (b :: rest) 0) with b in Hor. apply Forall_cons in Hrest as [? _].
      destruct (Z.eqb_spec b slash) as [->|]; [done|]. destruct (Z.eqb_spec b 0); [lia|done].
    + intros (rest' & Heq & [?|[Hl|Hr]]); [done|rewrite Hlast in Hl; congruence|].
      apply app_inv_head in Heq as <-. destruct Hr as [->|Hr]; [done|].
      destruct rest as [|b rest]; [done|]. injection Hr as ->. done.
Qed.

(** ** The scan *)

Lemma slash_run_le p : (slash_run p <= length p)%nat.
Proof. induction p as [|b p IH]; simpl; [lia|]. destruct (b =? slash); lia. Qed.

Lemma slash_run_split p : p = replicate (slash_run p) slash ++ drop (slash_run p) p /\
  at_ (drop (slash_run p) p) 0 <> slash.
Proof.
  induction p as [|b p [IH1 IH2]]; simpl; [done|].
  destruct (Z.eqb_spec b slash) as [->|]; simpl; [split; [congruence|done]|]. split; [done|]. by unfold at_.
Qed.

Section Scan.
  Context (path : list Z).
  Hypothesis Hpath : c_string path.

Definition search_path : list Z := drop (slash_run path) path.

(** What a match of [pre] leaves in [match_len]. *)
Definition reach (pre : preopen) : nat :=
  let len := length (prefix_ pre) in
  if (len =? 0)%nat then O
  else (len + slash_run path + slash_run (drop (len + slash_run path) path))%nat.

Definition best_of (pre : preopen) : best := Best (pfd pre) (reach pre) (prefix_ pre).

Definition matching (pre : preopen) : bool := prefix_matches (prefix_ pre) (length (prefix_ pre)) search_path.

Lemma scan_step_eq b pre :
  scan_step path b pre =
    if ((bfd b =? -1) || (match_len b <? length (prefix_ pre))%nat) && matching pre then best_of pre else b.
Proof.
  unfold scan_step, best_of, reach, matching. fold search_path.
  replace (length path - length search_path)%nat with (slash_run path); [done|].
  unfold search_path. rewrite length_drop. pose proof (slash_run_le path). lia.
Qed.

Lemma reach_len pre : (length (prefix_ pre) <= reach pre)%nat.
Proof. unfold reach. destruct (Nat.eqb_spec (length (prefix_ pre)) 0); lia. Qed.

(** [q] is the best match of the processed entries [l]: a match, longer than
    every match before it and no shorter than those after it could be. *)
Definition winner (l : list preopen) (q : preopen) : Prop :=
  exists l1 l2, l = l1 ++ q :: l2 /\ matching q = true /\
    Forall (fun x => matching x = true -> (length (prefix_ x) < length (prefix_ q))%nat) l1 /\
    Forall (fun x => matching x = true -> (length (prefix_ x) <= reach q)%nat) l2.

Lemma winner_bound l q : winner l q ->
  Forall (fun x => matching x = true -> (length (prefix_ x) <= reach q)%nat) l.
Proof.
  intros (l1 & l2 & -> & _ & H1 & H2). pose proof (reach_len q).
  apply Forall_app. split; [|by constructor]. eapply Forall_impl; [exact H1|]. simpl. intros x Hx Hm.
  specialize (Hx Hm). lia.
Qed.

Lemma scan_from l : forall seen p, pfd p <> -1 -> Forall (fun q => pfd q <> -1) l -> winner seen p ->
  exists q, fold_left (scan_step path) l (best_of p) = best_of q /\ pfd q <> -1 /\ winner (seen ++ l) q.
Proof.
  induction l as [|x l IH]; intros seen p Hp Hl Hw; simpl.
  { exists p. by rewrite app_nil_r. }
  apply Forall_cons in Hl as [Hx Hl]. rewrite scan_step_eq. cbn [bfd match_len best_of].
  destruct (Z.eqb_spec (pfd p) (-1)); [done|]. simpl orb.
  replace (seen ++ x :: l) with ((seen ++ [x]) ++ l) by (by rewrite <- app_assoc).
  pose proof (winner_bound _ _ Hw) as Hbound.
  destruct (Nat.ltb_spec (reach p) (length (prefix_ x))) as [Hlt|Hge]; simpl;
    [destruct (matching x) eqn:Hm|]; apply IH; try done.
  - exists seen, []. split_and!; [done..| |constructor]. eapply Forall_impl; [exact Hbound|]. simpl.
    intros y Hy Hmy. specialize (Hy Hmy). lia.
  - destruct Hw as (l1 & l2 & -> & Hmp & H1 & H2). exists l1, (l2 ++ [x]).
    split_and!; [by rewrite <- app_assoc|done|done|]. apply Forall_app. split; [done|].
    constructor; [by rewrite Hm|done].
  - destruct Hw as (l1 & l2 & -> & Hmp & H1 & H2). exists l1, (l2 ++ [x]).
    split_and!; [by rewrite <- app_assoc|done|done|]. apply Forall_app. split; [done|]. by constructor.
Qed.

Lemma scan_none l : forall seen, Forall (fun q => pfd q <> -1) l -> Forall (fun q => matching q = false) seen ->
  (fold_left (scan_step path) l (Best (-1) 0 []) = Best (-1) 0 [] /\ Forall (fun q => matching q = false) l) \/
  exists q, fold_left (scan_step path) l (Best (-1) 0 []) = best_of q /\ pfd q <> -1 /\ winner (seen ++ l) q.
Proof.
  induction l as [|x l IH]; intros seen Hl Hs; simpl; [by left|].
  apply Forall_cons in Hl as [Hx Hl]. rewrite scan_step_eq. simpl.
  replace (seen ++ x :: l) with ((seen ++ [x]) ++ l) by (by rewrite <- app_assoc).
  destruct (matching x) eqn:Hm.
  - right. apply scan_from; [done..|]. exists seen, []. split_and!; [done..| |constructor].
    eapply Forall_impl; [exact Hs|]. simpl. by intros y ->.
  - destruct (IH (seen ++ [x])) as [[? ?]|?]; [done|apply Forall_app; by repeat constructor| |by right].
    left. split; [done|]. by constructor.
Qed.

(** The scan of a table: no entry matches, or the entry found is longer than
    every match registered after it, and a match registered before it is
    longer by no more than the slashes around the prefix. *)
Lemma scan_spec pres : Forall (fun q => pfd q <> -1) pres ->
  (scan pres path = Best (-1) 0 [] /\ Forall (fun q => matching q = false) pres) \/
  exists earlier q later, pres = earlier ++ q :: later /\ scan pres path = best_of q /\
    pfd q <> -1 /\ matching q = true /\
    Forall (fun x => matching x = true -> (length (prefix_ x) < length (prefix_ q))%nat) later /\
    Forall (fun x => matching x = true -> (length (prefix_ x) <= reach q)%nat) earlier.
Proof.
  intros Hfd. unfold scan. assert (Hrev : Forall (fun q => pfd q <> -1) (reverse pres)) by (by apply Forall_reverse).
  destruct (scan_none (reverse pres) [] Hrev) as [[? ?]|(q & Hs & Hq & l1 & l2 & Heq & Hm & H1 & H2)]; [done| |right].
  - left. split; [done|]. by apply Forall_reverse.
  - exists (reverse l2), q, (reverse l1). split_and!; [|done..|by apply Forall_reverse|by apply Forall_reverse].
    rewrite <- (reverse_involutive pres). simpl in Heq. rewrite Heq, reverse_app, reverse_cons, <- app_assoc. done.
Qed.

Lemma search_path_string : c_string search_path /\ at_ search_path 0 <> slash.
Proof. split; [by apply Forall_drop|]. apply slash_run_split. Qed.

(** How the path splits at a match: slashes, the prefix, slashes, the rest. *)
Lemma match_split q : matching q = true -> c_string (prefix_ q) -> prefix_ q <> [] ->
  exists seps rest, path = replicate (slash_run path) slash ++ prefix_ q ++ replicate seps slash ++ rest /\
    reach q = (slash_run path + length (prefix_ q) + seps)%nat /\ at_ rest 0 <> slash /\
    drop (reach q) path = rest.
Proof.
  intros Hm Hq Hne. destruct search_path_string as [Hs Hs0].
  unfold matching in Hm. apply prefix_matches_spec in Hm as (tail & Heq & _); [|done..].
  assert (Hsplit : path = replicate (slash_run path) slash ++ prefix_ q ++ tail).
  { rewrite <- Heq. apply slash_run_split. }
  assert (Htail : drop (slash_run path + length (prefix_ q)) path = tail).
  { rewrite Hsplit at 2. rewrite app_assoc, drop_app_length'; [done|].
    rewrite length_app, length_replicate. done. }
  destruct (slash_run_split tail) as [Ht Ht0].
  exists (slash_run tail), (drop (slash_run tail) tail).
  assert (Hreach : reach q = (slash_run path + length (prefix_ q) + slash_run tail)%nat).
  { unfold reach. destruct (Nat.eqb_spec (length (prefix_ q)) 0) as [Hz|]; [by apply length_zero_iff_nil in Hz|].
    rewrite (Nat.add_comm (length _)), Htail. lia. }
  split_and!; [congruence|done|done|].
  rewrite Hreach, <- drop_drop, Htail. done.
Qed.

End Scan.

(** * The stateful operations of [Paths]: what each returns, what it leaves in
    the table and the buffers, and that it releases its locks. *)

Section Proofs.
  Context {W : Type} `{WasiPath W, Alloc W}.
  Variable threaded : bool.

Abbreviation st := (pstate W).

(** ** State primitives *)

(** Only the host and [errno] moved. *)
Definition moved (s s' : st) : Prop := exists e, s' = set_env e s.

#[export] Instance moved_preorder : PreOrder moved.
Proof.
  split; [intros s; exists (penv s); by destruct s|].
  intros s1 s2 s3 [e2 ->] [e3 ->]. by exists e3.
Qed.

Lemma moved_env e (s : st) : moved s (set_env e s).
Proof. by exists e. Qed.

Lemma path_malloc_Ret n (s : st) : exists ok w, malloc n s = Ret (ok, set_env (Env (errno (penv s)) w) s).
Proof. unfold malloc, pcall, host. destruct (malloc_ok n _) as [ok w]. by exists ok, w. Qed.

Lemma pfail_Ret er (s : st) : pfail er s = Ret (tt, set_env (Env er (world (penv s))) s).
Proof. reflexivity. Qed.

Lemma LOCK_Ret (s : st) : lock s = false -> LOCK threaded s = Ret (tt, set_lock threaded s).
Proof.
  intros Hl. unfold LOCK. destruct threaded; [|by destruct s; simpl in *; subst].
  unfold mbind, M_bind, get. by rewrite Hl.
Qed.
Lemma UNLOCK_Ret (s : st) : lock s = threaded -> UNLOCK threaded s = Ret (tt, set_lock false s).
Proof. intros Hl. unfold UNLOCK. destruct threaded; [done|]. by destruct s; simpl in *; subst. Qed.
Lemma LOCK_held (s : st) : lock s = true -> threaded = true -> LOCK threaded s = Stop Deadlock.
Proof. intros Hl ->. unfold LOCK, mbind, M_bind, get. by rewrite Hl. Qed.
Lemma cwd_lock_Ret (s : st) : cwd_lock s = false -> __wasilibc_cwd_lock threaded s = Ret (tt, set_cwd_lock threaded s).
Proof.
  intros Hl. unfold __wasilibc_cwd_lock. destruct threaded; [|by destruct s; simpl in *; subst].
  unfold mbind, M_bind, get. by rewrite Hl.
Qed.
Lemma cwd_unlock_Ret (s : st) : cwd_lock s = threaded -> __wasilibc_cwd_unlock threaded s = Ret (tt, set_cwd_lock false s).
Proof. intros Hl. unfold __wasilibc_cwd_unlock. destruct threaded; [done|]. by destruct s; simpl in *; subst. Qed.

Lemma set_lock_back (s : st) b : lock s = false -> set_lock false (set_lock b s) = s.
Proof. destruct s. simpl. by intros ->. Qed.

(** ** [__wasilibc_find_abspath] *)

Definition table_ok (pres : list preopen) : Prop :=
  Forall (fun p => c_string (prefix_ p) /\ pfd p <> -1) pres.

Lemma table_ok_fds pres : table_ok pres -> Forall (fun p => pfd p <> -1) pres.
Proof. intros Hok. eapply Forall_impl; [exact Hok|]. by intros p [_ ?]. Qed.

Lemma find_abspath_Ret path (s : st) : lock s = false ->
  __wasilibc_find_abspath threaded path s =
    (let b := scan (preopens s) path in
     if bfd b =? -1 then Ret ((-1, [], []), set_env (Env ENOENT (world (penv s))) s)
     else Ret ((bfd b, abs_prefix b, relative_of path (match_len b)), s)).
Proof.
  intros Hl. unfold __wasilibc_find_abspath. rewrite (bind_Ret _ _ _ _ _ (LOCK_Ret s Hl)).
  rewrite (bind_Ret _ _ _ _ _ (get_Ret _)), (bind_Ret _ _ _ _ _ (UNLOCK_Ret (set_lock threaded s) eq_refl)).
  rewrite set_lock_back by done. cbn [preopens set_lock]. by destruct (_ =? _).
Qed.

(** A path without its leading slashes, and how much of a path a prefix takes
    up with the slashes in front of it and behind it. *)
Fixpoint unslashed (p : list Z) : list Z :=
  match p with
  | b :: p' => if decide (b = slash) then unslashed p' else p
  | [] => []
  end.
Definition taken (path prefix : list Z) : nat :=
  if decide (prefix = []) then 0%nat
  else (length path - length (unslashed (drop (length prefix) (unslashed path))))%nat.

Lemma unslashed_run p : unslashed p = drop (slash_run p) p.
Proof.
  induction p as [|b p IH]; [done|]. cbn [unslashed slash_run]. destruct (Z.eqb_spec b slash) as [->|Hb].
  - by rewrite decide_True.
  - by rewrite decide_False.
Qed.
Lemma search_path_unslashed path : search_path path = unslashed path.
Proof. by rewrite unslashed_run. Qed.

Lemma taken_reach path p : covers (prefix_ p) (unslashed path) -> taken path (prefix_ p) = reach path p.
Proof.
  intros (rest & Hrest & _). unfold taken, reach. destruct (decide (prefix_ p = [])) as [->|Hne]; [done|].
  destruct (Nat.eqb_spec (length (prefix_ p)) 0) as [Hz|_]; [by apply length_zero_iff_nil in Hz|].
  pose proof (f_equal length Hrest) as Hl. rewrite length_app in Hl. rewrite unslashed_run, length_drop in Hl.
  assert (Hx : drop (length (prefix_ p)) (unslashed path) = drop (length (prefix_ p) + slash_run path) path).
  { rewrite unslashed_run, drop_drop. f_equal. lia. }
  rewrite Hx, unslashed_run, length_drop.
  pose proof (slash_run_le path). pose proof (slash_run_le (drop (length (prefix_ p) + slash_run path) path)) as Hle.
  rewrite length_drop in *. lia.
Qed.

(** What the search promises for a path: the entry [p] found covers it, beats
    every later entry that does, and loses to an earlier one by no more than the
    slashes around it. *)
Record chosen (pres : list preopen) (path : list Z) (p : preopen) : Prop := {
  ch_covers : covers (prefix_ p) (unslashed path);
  ch_best : exists earlier later, pres = earlier ++ p :: later /\
    Forall (fun q => covers (prefix_ q) (unslashed path) -> (length (prefix_ q) < length (prefix_ p))%nat) later /\
    Forall (fun q => covers (prefix_ q) (unslashed path) -> (length (prefix_ q) <= taken path (prefix_ p))%nat) earlier }.

(** The relative path handed out for it: what is left, or a dot. *)
Definition or_dot (p : list Z) : list Z := if decide (p = []) then [dot] else p.
Lemma relative_or_dot path m : relative_of path m = or_dot (drop m path).
Proof. unfold relative_of, or_dot. by destruct (drop m path). Qed.
Definition rest_path (path abs rel : list Z) : Prop :=
  (abs = [] /\ rel = or_dot path) \/
  (abs <> [] /\ exists lead seps rest,
     path = replicate lead slash ++ abs ++ replicate seps slash ++ rest /\
     at_ rest 0 <> slash /\ rel = or_dot rest).

Lemma scan_found pres path : table_ok pres -> c_string path ->
  (scan pres path = Best (-1) 0 [] /\ Forall (fun q => ~ covers (prefix_ q) (unslashed path)) pres) \/
  exists p, p ∈ pres /\ scan pres path = best_of path p /\ pfd p <> -1 /\ chosen pres path p /\
    rest_path path (prefix_ p) (relative_of path (reach path p)).
Proof.
  intros Hok Hpath. pose proof (search_path_string path Hpath) as [Hs Hs0].
  assert (Hm : forall q, q ∈ pres -> matching path q = true <-> covers (prefix_ q) (unslashed path)).
  { intros q Hq. rewrite <- search_path_unslashed. apply prefix_matches_spec; [|done..]. by apply (proj1 (Forall_forall _ _) Hok). }
  destruct (scan_spec path pres (table_ok_fds _ Hok)) as [[Hsc Hno]|(earlier & p & later & Heq & Hsc & Hfd & Hp & H1 & H2)].
  { left. split; [done|]. apply Forall_forall. intros q Hq Hc%Hm; [|done].
    rewrite (proj1 (Forall_forall _ _) Hno q Hq) in Hc. done. }
  right. assert (Hin : p ∈ pres) by (rewrite Heq; apply elem_of_app; right; by left).
  exists p. split_and!; [done..| |].
  - assert (Hcp : covers (prefix_ p) (unslashed path)) by (by apply Hm).
    split; [done|]. exists earlier, later. split; [done|]. rewrite taken_reach by done.
    split; apply Forall_forall; intros q Hq Hc.
    + apply (proj1 (Forall_forall _ _) H1 q Hq), Hm; [|done]. rewrite Heq. apply elem_of_app. right. by right.
    + apply (proj1 (Forall_forall _ _) H2 q Hq), Hm; [|done]. rewrite Heq. apply elem_of_app. by left.
  - destruct (decide (prefix_ p = [])) as [Hz|Hz]; [left|right; split; [done|]].
    + split; [done|]. unfold reach. rewrite Hz. apply relative_or_dot.
    + pose proof (proj1 (Forall_forall _ _) Hok p Hin) as [Hps _].
      destruct (match_split path Hpath p Hp Hps Hz) as (seps & rest & Hsplit & _ & Hr0 & Hdrop).
      exists (slash_run path), seps, rest. split_and!; [done..|]. by rewrite relative_or_dot, Hdrop.
Qed.

(** [__wasilibc_find_abspath] fails with [ENOENT] exactly when no preopen
    covers the path; otherwise it returns the descriptor and prefix of one
    that does - the most recent of its length, longer than every later match -
    and the rest of the path after the prefix and the slashes around it
    (the whole path for the root preopen), or a dot when nothing is left.
    The table and the lock are left as they were. *)
Theorem find_abspath_spec path (s : st) :
  c_string path -> table_ok (preopens s) -> lock s = false ->
  (__wasilibc_find_abspath threaded path s = Ret ((-1, [], []), set_env (Env ENOENT (world (penv s))) s) /\
   Forall (fun q => ~ covers (prefix_ q) (unslashed path)) (preopens s)) \/
  exists p rel, __wasilibc_find_abspath threaded path s = Ret ((pfd p, prefix_ p, rel), s) /\
    pfd p <> -1 /\ chosen (preopens s) path p /\ rest_path path (prefix_ p) rel.
Proof.
  intros Hpath Hok Hl. rewrite find_abspath_Ret by done.
  destruct (scan_found _ path Hok Hpath) as [[Hsc Hno]|(p & _ & Hsc & Hfd & Hch & Hrest)]; rewrite Hsc; simpl.
  - by left.
  - right. destruct (Z.eqb_spec (pfd p) (-1)); [done|]. by eexists p, _.
Qed.

(** When no preopen is shorter than one registered before it, the search
    finds the longest preopen that covers the path. *)
Theorem find_abspath_longest path (s : st) fd abs rel s' :
  c_string path -> table_ok (preopens s) -> lock s = false ->
  StronglySorted (fun p q => (length (prefix_ p) <= length (prefix_ q))%nat) (preopens s) ->
  __wasilibc_find_abspath threaded path s = Ret ((fd, abs, rel), s') -> fd <> -1 ->
  Forall (fun q => covers (prefix_ q) (unslashed path) -> (length (prefix_ q) <= length abs)%nat) (preopens s).
Proof.
  intros Hpath Hok Hl Hsort Hrun Hfd. rewrite find_abspath_Ret in Hrun by done.
  destruct (scan_found _ path Hok Hpath) as [[Hsc _]|(p & _ & Hsc & Hp & [_ (l1 & l2 & Heq & Hlater & _)] & _)];
    rewrite Hsc in Hrun; simpl in Hrun; [simplify_eq|].
  destruct (Z.eqb_spec (pfd p) (-1)); [done|]. injection Hrun as <- <- <- <-.
  rewrite Heq in *. apply StronglySorted_app in Hsort as (Hs & _ & _).
  apply Forall_app. split; [|constructor; [done|]].
  - apply Forall_forall. intros q Hq _. apply (Hs q p Hq). by left.
  - eapply Forall_impl; [exact Hlater|]. simpl. intros q Hq Hc. specialize (Hq Hc). lia.
Qed.

(** The slashes that [match_len] counts on top of the prefix are compared
    with prefix lengths: with [a/b] registered before [a], the path [/a/b/c]
    is resolved against [a], although the longer preopen covers it. *)
Theorem find_abspath_shadowed (s : st) : lock s = false ->
  preopens s = [Preopen (bytes_of "a/b") 3; Preopen (bytes_of "a") 4] ->
  covers (bytes_of "a/b") (unslashed (bytes_of "/a/b/c")) /\
  __wasilibc_find_abspath threaded (bytes_of "/a/b/c") s = Ret ((4, bytes_of "a", bytes_of "b/c"), s).
Proof.
  intros Hl Hp. split.
  - exists (bytes_of "/c"). split; [done|]. right. right. by right.
  - rewrite find_abspath_Ret, Hp by done. reflexivity.
Qed.

(** ** Registration *)

Definition new_capacity (cap : Z) : Z := if cap =? 0 then 4 else w32 (cap * 2).

Lemma grow_table_Ret (s : st) : threaded = false ->
  exists ok w, resize threaded s = Ret (if ok : bool then 0 else -1,
    set_env (Env (errno (penv s)) w)
      (set_table (preopens s) (if ok then new_capacity (preopen_capacity s) else preopen_capacity s) s)).
Proof.
  intros ->. unfold resize, LOCK, UNLOCK. rewrite (bind_Ret _ _ _ tt s) by done.
  rewrite (bind_Ret _ _ _ _ _ (get_Ret s)).
  destruct (path_malloc_Ret (w32 (SIZEOF_PREOPEN * new_capacity (preopen_capacity s))) s) as (ok & w & Hm).
  rewrite (bind_Ret _ _ _ _ _ Hm). exists ok, w. by destruct ok, s.
Qed.

(** The second half of a registration, under the lock. *)
Lemma append_Ret fd prefix (s : st) : lock s = threaded ->
  exists v w, (ok ← malloc (w32 (Z.of_nat (length (strip_prefixes prefix)) + 1));
      if negb (ok : bool) then UNLOCK threaded;; mret (-1) else
      modify (fun s => set_table (preopens s ++ [Preopen (strip_prefixes prefix) fd]) (preopen_capacity s) s);;
      UNLOCK threaded;; mret 0) s =
    Ret (v, set_env (Env (errno (penv s)) w) (set_lock false
      (set_table (preopens s ++ if v =? 0 then [Preopen (strip_prefixes prefix) fd] else []) (preopen_capacity s) s))) /\
    (v = 0 \/ v = -1).
Proof.
  intros Hl.
  destruct (path_malloc_Ret (w32 (Z.of_nat (length (strip_prefixes prefix)) + 1)) s) as (ok & w & Hm).
  rewrite (bind_Ret _ _ _ _ _ Hm). destruct ok; cbn [negb].
  - exists 0, w. split; [|by left]. mnext.
    mnext_by (UNLOCK_Ret (set_table (preopens s ++ [Preopen (strip_prefixes prefix) fd]) (preopen_capacity s)
      (set_env (Env (errno (penv s)) w) s)) Hl). done.
  - exists (-1), w. split; [|by right].
    mnext_by (UNLOCK_Ret (set_env (Env (errno (penv s)) w) s) Hl). simpl. rewrite app_nil_r. by destruct s.
Qed.

Lemma register_Ret fd prefix (s : st) :
  lock s = false -> Z.of_nat (length (preopens s)) <= preopen_capacity s < 2 ^ 28 ->
  let full := Z.of_nat (length (preopens s)) =? preopen_capacity s in
  if threaded && full then internal_register_preopened_fd threaded fd prefix s = Stop Deadlock
  else exists v cap w, internal_register_preopened_fd threaded fd prefix s =
      Ret (v, set_env (Env (errno (penv s)) w)
        (set_table (preopens s ++ if v =? 0 then [Preopen (strip_prefixes prefix) fd] else []) cap s)) /\
    (v = 0 \/ v = -1) /\
    ((cap = preopen_capacity s /\ (v = 0 -> full = false)) \/
     (full = true /\ cap = new_capacity (preopen_capacity s))).
Proof.
  intros Hl [Hroom Hcap] full. unfold internal_register_preopened_fd.
  rewrite (bind_Ret _ _ _ _ _ (LOCK_Ret s Hl)), (bind_Ret _ _ _ _ _ (get_Ret _)).
  change (preopens (set_lock threaded s)) with (preopens s).
  change (preopen_capacity (set_lock threaded s)) with (preopen_capacity s). fold full.
  destruct (Z.eqb_spec (Z.of_nat (length (preopens s))) (preopen_capacity s)) as [Hfull|Hnot]; subst full.
  - destruct (decide (threaded = true)) as [Ht|Ht%not_true_is_false].
    { rewrite Ht. reflexivity. }
    replace (threaded && true) with false by (by rewrite Ht).
    destruct (grow_table_Ret (set_lock threaded s) Ht) as (ok & w & Hr).
    rewrite (bind_Ret _ _ _ _ _ Hr). destruct ok; cbn [Z.eqb negb].
    + destruct (append_Ret fd prefix (set_env (Env (errno (penv s)) w)
        (set_table (preopens s) (new_capacity (preopen_capacity s)) (set_lock threaded s))) eq_refl) as (v & w' & Ha & Hv).
      exists v, (new_capacity (preopen_capacity s)), w'. split; [etransitivity; [exact Ha|]; by destruct s; simpl in *; subst|].
      split; [done|]. by right.
    + exists (-1), (preopen_capacity s), w. rewrite app_nil_r. split; [|split; [by right|by left]].
      mnext_by (UNLOCK_Ret (set_env (Env (errno (penv s)) w)
        (set_table (preopens s) (preopen_capacity s) (set_lock threaded s))) eq_refl).
      by destruct s; simpl in *; subst.
  - rewrite andb_false_r. unfold mbind at 1, M_bind at 1, mret at 1, M_ret at 1. cbn [Z.eqb negb].
    destruct (append_Ret fd prefix (set_lock threaded s) eq_refl) as (v & w & Ha & Hv). rewrite Ha.
    exists v, (preopen_capacity s), w. split; [by destruct s; simpl in *; subst|]. split; [done|]. by left.
Qed.

(** Registering appends the stripped prefix with its descriptor and
    returns 0, or returns -1 for lack of memory with the table as it was; the
    capacity grows to hold the entry, no other state changes and the lock is
    free again.  But in a process with threads a full table is never enlarged:
    [resize] waits for the lock its caller holds. *)
Theorem register_spec fd prefix (s : st) :
  lock s = false -> Z.of_nat (length (preopens s)) <= preopen_capacity s < 2 ^ 28 ->
  let full := Z.of_nat (length (preopens s)) =? preopen_capacity s in
  if threaded && full then __wasilibc_register_preopened_fd threaded fd prefix s = Stop Deadlock
  else exists v cap w, __wasilibc_register_preopened_fd threaded fd prefix s =
      Ret (v, set_env (Env (errno (penv s)) w)
        (set_table (preopens s ++ if v =? 0 then [Preopen (strip_prefixes prefix) fd] else []) cap s)) /\
    (v = 0 \/ v = -1) /\
    Z.of_nat (length (preopens s)) + (if v =? 0 then 1 else 0) <= cap < 2 ^ 29 /\ preopen_capacity s <= cap.
Proof.
  intros Hl Hroom full. pose proof (register_Ret fd prefix s Hl Hroom) as Hreg. cbv zeta in Hreg. fold full in Hreg.
  destruct (threaded && full); [exact Hreg|].
  destruct Hreg as (v & cap & w & Hrun & Hv & Hcap). exists v, cap, w. split; [exact Hrun|]. split; [done|].
  unfold new_capacity in Hcap.
  destruct Hcap as [[-> Hnot]|[Hfull ->]], Hv as [-> | ->]; subst full; simpl in *;
    [specialize (Hnot eq_refl)|..]; try lia;
    (destruct (Z.eqb_spec (preopen_capacity s) 0) as [Hz|Hz]; [|rewrite w32_small by lia]; lia).
Qed.

(** ** [__wasilibc_populate_preopens] *)

(** A host that has given the process a fixed list of descriptors from 3 on:
    the tag and the name of each. *)
Class Preopened := {
  given : list (Z * list Z);
  given_prestat : forall i w,
    wasi_fd_prestat_get (3 + Z.of_nat i) w =
      match given !! i with
      | Some (t, name) => (0, Prestat t (Z.of_nat (length name)), w)
      | None => (EBADF, Prestat 0 0, w)
      end;
  given_name : forall i t name w, given !! i = Some (t, name) ->
    wasi_fd_prestat_dir_name (3 + Z.of_nat i) (Z.of_nat (length name)) w = (0, name, w) }.

Lemma set_env_same (s : st) : set_env (Env (errno (penv s)) (world (penv s))) s = s.
Proof. by destruct s as [??????????[]]. Qed.

Lemma pcall_host {A} (f : W -> A * W) (s : st) a w :
  f (world (penv s)) = (a, w) -> pcall (host f) s = Ret (a, set_env (Env (errno (penv s)) w) s).
Proof. intros Hf. unfold pcall, host. by rewrite Hf. Qed.

(** The table entries for a list of descriptors that starts at [fd]. *)
Fixpoint dirs_from (fd : Z) (l : list (Z * list Z)) : list preopen :=
  match l with
  | [] => []
  | (t, name) :: l =>
      (if t =? PREOPENTYPE_DIR then [Preopen (strip_prefixes (c_str name)) fd] else []) ++ dirs_from (fd + 1) l
  end.

Lemma populate_loop_Ret `{!Preopened} fuel : forall i (s : st),
  threaded = false -> lock s = false ->
  Z.of_nat (length (preopens s)) <= preopen_capacity s <= 2 * Z.of_nat (length (preopens s)) + 4 ->
  Z.of_nat (length (preopens s) + (length given - i)) < 2 ^ 26 -> Z.of_nat (length given) < 2 ^ 26 ->
  (length given - i < fuel)%nat -> (i <= length given)%nat ->
  populate_loop threaded fuel (3 + Z.of_nat i) s = Stop (Exited EX_SOFTWARE) \/
  exists cap e, populate_loop threaded fuel (3 + Z.of_nat i) s =
    Ret (tt, set_env e (set_table (preopens s ++ dirs_from (3 + Z.of_nat i) (drop i given)) cap s)).
Proof.
  induction fuel as [|fuel IH]; intros i s Ht Hl Hroom Hsmall Hg26 Hf Hi; [lia|]. cbn [populate_loop].
  destruct (Z.eqb_spec (3 + Z.of_nat i) 0); [lia|].
  assert (Hnext : s32 (3 + Z.of_nat i + 1) = 3 + Z.of_nat (S i)) by (rewrite s32_small; lia).
  pose proof (given_prestat i (world (penv s))) as Hps.
  destruct (given !! i) as [[t name]|] eqn:Hg;
    (eassert (Hcall : pcall (host _) s = _) by (apply pcall_host; by rewrite Hps)); rewrite set_env_same in Hcall.
  2:{ right. rewrite drop_ge by (by apply lookup_ge_None). exists (preopen_capacity s), (penv s).
      mnext_by Hcall. simpl. rewrite app_nil_r. by destruct s. }
  apply lookup_lt_Some in Hg as Hlt. rewrite (drop_S _ _ _ Hg). cbn [dirs_from pr_tag pr_name_len].
  rewrite !(bind_Ret _ _ _ _ _ Hcall). clear Hcall. cbn beta iota. cbn [pr_tag pr_name_len].
  change (0 =? EBADF) with false. change (0 =? 0) with true. cbn [negb].
  replace (3 + Z.of_nat i + 1) with (3 + Z.of_nat (S i)) in * by lia.
  destruct (Z.eqb_spec t PREOPENTYPE_DIR) as [->|Htag].
  2:{ rewrite Hnext. apply IH; try done; lia. }
  destruct (path_malloc_Ret (w32 (Z.of_nat (length name) + 1)) s) as (ok & w & Hm).
  rewrite !(bind_Ret _ _ _ _ _ Hm). destruct ok; [|by left]. cbn [negb].
  set (s1 := set_env _ s).
  (eassert (Hcall : pcall (host _) s1 = _) by (apply pcall_host; by rewrite (given_name i _ _ _ Hg))).
  rewrite set_env_same in Hcall. rewrite !(bind_Ret _ _ _ _ _ Hcall). clear Hcall. cbn beta iota.
  change (0 =? 0) with true. cbn [negb].
  pose proof (register_Ret (3 + Z.of_nat i) (c_str name) s1 Hl ltac:(subst s1; simpl; lia)) as Hreg.
  cbv zeta in Hreg.
  replace (threaded && (Z.of_nat (length (preopens s1)) =? preopen_capacity s1)) with false in Hreg by (by rewrite Ht).
  destruct Hreg as (v & cap & w2 & Hrun & Hv & Hcap).
  rewrite !(bind_Ret _ _ _ _ _ Hrun). destruct Hv as [-> | ->]; [|by left].
  change (0 =? 0) with true. cbn [negb]. rewrite Hnext.
  set (s2 := set_env _ (set_table _ cap s1)).
  assert (Hlen : length (preopens s2) = S (length (preopens s))) by (subst s2; simpl; rewrite length_app; simpl; lia).
  assert (Hcap2 : Z.of_nat (length (preopens s2)) <= preopen_capacity s2 <= 2 * Z.of_nat (length (preopens s2)) + 4).
  { rewrite Hlen. subst s2 s1. simpl in *. unfold new_capacity in Hcap.
    destruct Hcap as [[-> Hnot]|[Hfull ->]]; [specialize (Hnot eq_refl); lia|].
    destruct (Z.eqb_spec (preopen_capacity s) 0); [lia|]. rewrite w32_small; lia. }
  destruct (IH (S i) s2 Ht Hl Hcap2) as [Hstop|(cap' & e & Hres)]; [lia..| |].
  - left. exact Hstop.
  - right. exists cap', e. etransitivity; [exact Hres|]. subst s2 s1. simpl. rewrite <- app_assoc. done.
Qed.

(** At start-up the table receives one entry for each directory the host
    has given the process, in descriptor order and stripped, and nothing else
    changes; the process exits with [EX_SOFTWARE] if memory runs out.  A second
    call does nothing. *)
Theorem populate_spec `{!Preopened} fuel (s : st) :
  threaded = false -> lock s = false ->
  Z.of_nat (length (preopens s)) <= preopen_capacity s <= 2 * Z.of_nat (length (preopens s)) + 4 ->
  Z.of_nat (length (preopens s) + length given) < 2 ^ 26 -> (length given < fuel)%nat ->
  if populated s then __wasilibc_populate_preopens threaded fuel s = Ret (tt, s)
  else __wasilibc_populate_preopens threaded fuel s = Stop (Exited EX_SOFTWARE) \/
    exists cap e, __wasilibc_populate_preopens threaded fuel s =
      Ret (tt, set_env e (set_populated true (set_table (preopens s ++ dirs_from 3 given) cap s))).
Proof.
  intros Ht Hl Hroom Hsmall Hf. unfold __wasilibc_populate_preopens.
  destruct (populated s) eqn:Hp; [by mnext; rewrite Hp|].
  destruct (populate_loop_Ret fuel 0 (set_populated true s) Ht Hl Hroom ltac:(simpl; lia) ltac:(lia) ltac:(lia) ltac:(lia))
    as [Hs|(cap & e & Hs)]; simpl in Hs.
  - left. mnext. rewrite Hp. mnext. exact Hs.
  - right. exists cap, e. mnext. rewrite Hp. mnext. etransitivity; [exact Hs|]. done.
Qed.

End Proofs.
