(* ===== verification/PathsResolve.v ===== *)
(** Relative paths: [make_absolute] and the search into a growable buffer
    ([find_relpath_alloc]), with the invariant that keeps the buffers of the
    path functions apart and large enough. *)
From S2P Require Import Prelude.
From S2P Require Import Wasi.
From S2P Require Import Paths.
From S2P Require Import PathsProofs.

(** ** Specification *)

(** The absolute path a path stands for in the working directory [c]: an
    absolute one itself; the working directory for an empty path, [.] or [./];
    and otherwise the two with a slash between them, a leading [./] left out. *)
Definition absolutize (c path : list Z) : list Z :=
  if decide (head path = Some slash) then path else
  let p := if decide (take 2 path = [dot; slash]) then drop 2 path else path in
  if decide (p ∈ [[]; [dot]; [dot; slash]]) then c
  else c ++ (if decide (last c = Some slash) then [] else [slash]) ++ p.

(** What a search finds: a preopen with its descriptor and prefix and the rest
    of the path, or that none covers the path. *)
Definition located (pres : list preopen) (path : list Z) (fd : Z) (abs rel : list Z) : Prop :=
  exists p, pfd p = fd /\ fd <> -1 /\ prefix_ p = abs /\ chosen pres path p /\ rest_path path abs rel.
Definition unlocated (pres : list preopen) (path : list Z) : Prop :=
  Forall (fun q => ~ covers (prefix_ q) (unslashed path)) pres.

(** The string in a buffer. *)
Definition content (f : which -> pbuf) (h : gmap Z cblock) (b : which) : option (list Z) :=
  x ← bptr (f b) ≫= (h !!.); cb_string x.

(** Every buffer is empty or owns a live block of its own, of the size kept
    beside the pointer. *)
Record bufs_ok (f : which -> pbuf) (h : gmap Z cblock) : Prop := {
  bo_block : forall b, match bptr (f b) with
    | None => bcap (f b) = 0
    | Some p => exists l, h !! p = Some (CBlock (bcap (f b)) l)
    end;
  bo_apart : forall b b' p, bptr (f b) = Some p -> bptr (f b') = Some p -> b = b' }.

(** The buffers but [b], and the strings in them, are the same. *)
Definition others_kept (b : which) (f : which -> pbuf) (h : gmap Z cblock) (f' : which -> pbuf) (h' : gmap Z cblock) : Prop :=
  forall b', b' <> b -> f' b' = f b' /\ content f' h' b' = content f h b'.

#[export] Instance which_eq : EqDecision which.
Proof. solve_decision. Defined.

Lemma set_buf_same b v f : set_buf b v f b = v.
Proof. by destruct b. Qed.
Lemma set_buf_other b b' v f : b' <> b -> set_buf b v f b' = f b'.
Proof. by destruct b, b'. Qed.

Lemma bufs_ok_write f h b p l : bufs_ok f h -> bptr (f b) = Some p ->
  let h' := <[p := CBlock (bcap (f b)) (Some l)]> h in
  bufs_ok f h' /\ content f h' b = Some l /\ others_kept b f h f h'.
Proof.
  intros [Hblock Hapart] Hp. split_and!.
  - split; [|done]. intros b'. specialize (Hblock b'). destruct (bptr (f b')) as [q|] eqn:Hq; [|done].
    destruct (decide (p = q)) as [->|Hne].
    + rewrite (Hapart b b' q Hp Hq). exists (Some l). by rewrite lookup_insert_eq.
    + by rewrite lookup_insert_ne.
  - unfold content. rewrite Hp. cbn [mbind option_bind]. by rewrite lookup_insert_eq.
  - intros b' Hne. split; [done|]. unfold content. destruct (bptr (f b')) as [q|] eqn:Hq; [|done]. cbn [mbind option_bind].
    rewrite lookup_insert_ne; [done|]. intros ->. by destruct Hne, (Hapart b b' q Hp Hq).
Qed.

(** After a [realloc] of buffer [b]. *)
Lemma bufs_ok_realloc f h b n q l : bufs_ok f h -> h !! q = None ->
  let f' := set_buf b (PBuf (Some q) n) f in
  let h' := <[q := CBlock n l]> (match bptr (f b) with Some p => delete p h | None => h end) in
  bufs_ok f' h' /\ others_kept b f h f' h'.
Proof.
  intros [Hblock Hapart] Hq f' h'.
  assert (Hother : forall b' p, b' <> b -> bptr (f b') = Some p -> h' !! p = h !! p).
  { intros b' p Hne Hp. specialize (Hblock b'). rewrite Hp in Hblock. destruct Hblock as (l' & Hl).
    subst h'. rewrite lookup_insert_ne by congruence.
    destruct (bptr (f b)) as [p0|] eqn:Hp0; [|done].
    rewrite lookup_delete_ne; [done|]. intros ->. by destruct Hne, (Hapart b b' p Hp0 Hp). }
  split; [split|].
  - intros b'. destruct (decide (b' = b)) as [->|Hne].
    + subst f'. rewrite set_buf_same. exists l. subst h'. by rewrite lookup_insert_eq.
    + subst f'. rewrite set_buf_other by done. specialize (Hblock b').
      destruct (bptr (f b')) as [p|] eqn:Hp; [|done]. by rewrite (Hother b' p).
  - assert (Hfresh : forall b' p, b' <> b -> bptr (f b') = Some p -> p <> q).
    { intros b' p Hne Hp ->. specialize (Hblock b'). rewrite Hp, Hq in Hblock. by destruct Hblock. }
    intros b1 b2 p. subst f'.
    destruct (decide (b1 = b)) as [->|H1], (decide (b2 = b)) as [->|H2];
      rewrite ?set_buf_same, ?set_buf_other by done; [done|..].
    + intros [= <-] Hp. by destruct (Hfresh b2 q).
    + intros Hp [= <-]. by destruct (Hfresh b1 q).
    + apply Hapart.
  - intros b' Hne. subst f'. rewrite set_buf_other by done. split; [done|].
    unfold content. rewrite set_buf_other by done. destruct (bptr (f b')) as [p|] eqn:Hp; [|done].
    cbn [mbind option_bind]. by rewrite (Hother b' p Hne Hp).
Qed.

(** A buffer's block stays where it is, or is freed for a new one. *)
Definition kept_or_gone (old new : option Z) (h : gmap Z cblock) : Prop :=
  old = new \/ forall p, old = Some p -> h !! p = None.

(** The model's own names for what the search finds. *)
Definition resolve (pres : list preopen) (path : list Z) : option (Z * list Z * list Z) :=
  let b := scan pres path in
  if bfd b =? -1 then None else Some (bfd b, abs_prefix b, relative_of path (match_len b)).

Lemma resolve_located pres path : table_ok pres -> c_string path ->
  match resolve pres path with
  | Some (fd, abs, rel) => located pres path fd abs rel
  | None => unlocated pres path
  end.
Proof.
  intros Hok Hpath. unfold resolve.
  destruct (scan_found pres path Hok Hpath) as [[-> Hno]|(p & _ & -> & Hfd & Hch & Hrest)]; [exact Hno|].
  cbn [bfd best_of abs_prefix match_len]. replace (pfd p =? -1) with false by lia. by exists p.
Qed.

Section Resolve.
  Context {W : Type} `{WasiPath W, Alloc W}.
  Variable threaded : bool.

Abbreviation st := (pstate W).

(** The working directory is known and both locks are free. *)
Record settled (s : st) (c : list Z) : Prop := {
  se_sync : cwd_is_synced s = true;
  se_cwd : cwd s = Some c;
  se_ne : c <> [];
  se_lock : lock s = false;
  se_cwd_lock : cwd_lock s = false }.

(** The effect of a resolution: host and buffers. *)
Definition with_bufs (f : which -> pbuf) (h : gmap Z cblock) (e : env W) (s : st) : st := set_bufs f h (set_env e s).

(** One request for memory. *)
Lemma malloc_mallocs n (w : W) ok w' : malloc_ok n w = (ok, w') -> mallocs w w'.
Proof. intros Hm. apply rtc_once. by exists n, ok. Qed.

Lemma realloc_Ret p n (s : st) : (forall p', p = Some p' -> is_Some (heap s !! p')) -> exists ok e, mallocs (world (penv s)) (world e) /\
  errno e = errno (penv s) /\
  if ok : bool then exists q l, heap s !! q = None /\
    realloc p n s = Ret (Some q, with_bufs (bufs s) (<[q := CBlock n l]> (match p with Some p => delete p (heap s) | None => heap s end)) e s)
  else realloc p n s = Ret (None, set_env e s) /\ denied (world e).
Proof.
  intros Hlive. unfold realloc. destruct (malloc_ok n (world (penv s))) as [ok w] eqn:Em.
  assert (Hm : malloc n s = Ret (ok, set_env (Env (errno (penv s)) w) s)) by (by apply pcall_host).
  exists ok, (Env (errno (penv s)) w). split; [by eapply malloc_mallocs|]. split; [done|].
  destruct ok; [|split; [by mnext_by Hm|by exists n, (world (penv s))]].
  exists (fresh (dom (heap s))). destruct p as [p|].
  - destruct (Hlive p eq_refl) as [old Hold].
    exists (l ← cb_string old; if Z.of_nat (length l) <? n then Some l else None).
    split; [apply not_elem_of_dom, is_fresh|]. mnext_by Hm. cbn [negb]. mnext.
    change (heap (set_env (Env (errno (penv s)) w) s)) with (heap s). rewrite Hold. by mnext.
  - exists None. split; [apply not_elem_of_dom, is_fresh|]. mnext_by Hm. cbn [negb]. mnext. by mnext.
Qed.

(** Room for [n > 0] bytes in buffer [b]. *)
Lemma ensure_Ret b n (s : st) : bufs_ok (bufs s) (heap s) -> 0 < n ->
  exists ok f h e, (if bcap (bufs s b) <? n then grow_buf b n n else mret true) s = Ret (ok, with_bufs f h e s) /\
    bufs_ok f h /\ mallocs (world (penv s)) (world e) /\ errno e = errno (penv s) /\
    kept_or_gone (bptr (bufs s b)) (bptr (f b)) h /\ others_kept b (bufs s) (heap s) f h /\
    if ok : bool then n <= bcap (f b) else denied (world e).
Proof.
  intros Hok Hn. destruct (Z.ltb_spec (bcap (bufs s b)) n) as [Hlt|Hge].
  2:{ exists true, (bufs s), (heap s), (penv s). split; [by destruct s|]. split_and!; try done; by left. }
  assert (Hlive : forall p, bptr (bufs s b) = Some p -> is_Some (heap s !! p)).
  { intros p Hp. pose proof (bo_block _ _ Hok b) as Hb. rewrite Hp in Hb. destruct Hb as [l ->]. eauto. }
  destruct (realloc_Ret (bptr (bufs s b)) n s Hlive) as (ok & e & Hms & Her & Hr).
  destruct ok; [|destruct Hr as [Hr Hden]; exists false, (bufs s), (heap s), e; split;
    [unfold grow_buf; mnext; mnext_by Hr; by destruct s|split_and!; try done; by left]].
  destruct Hr as (q & l & Hq & Hr). destruct (bufs_ok_realloc _ _ b n q l Hok Hq) as [Hok' Hoth].
  eexists true, _, _, e. split; [unfold grow_buf; mnext; mnext_by Hr; mnext; by destruct s|].
  split; [exact Hok'|]. split; [done|]. split; [done|]. split; [|split; [exact Hoth|by rewrite set_buf_same]].
  right. intros p Hp. rewrite Hp. destruct (Hlive p Hp) as [x Hx]. cbn.
  rewrite lookup_insert_ne by congruence. apply lookup_delete_eq.
Qed.

(** A string copied into a buffer with room for it. *)
Lemma put_Ret b off old l (s : st) : bufs_ok (bufs s) (heap s) -> off + Z.of_nat (length l) + 1 <= bcap (bufs s b) ->
  off = 0 /\ old = [] \/ content (bufs s) (heap s) b = Some old /\ off = Z.of_nat (length old) ->
  exists h, strcpy_at (bptr (bufs s b)) off l s = Ret (tt, set_bufs (bufs s) h s) /\ bufs_ok (bufs s) h /\
    content (bufs s) h b = Some (old ++ l) /\ others_kept b (bufs s) (heap s) (bufs s) h /\
    (forall p, bptr (bufs s b) <> Some p -> h !! p = heap s !! p).
Proof.
  intros Hok Hroom Hold. pose proof (bo_block _ _ Hok b) as Hb. destruct (bptr (bufs s b)) as [p|] eqn:Hp; [|destruct Hold as [[? _]|[_ ?]]; lia].
  destruct Hb as [l0 Hl0]. destruct (bufs_ok_write _ _ b p (old ++ l) Hok Hp) as (Hok' & Hc & Hoth).
  eexists. split; [|split; [exact Hok'|split; [exact Hc|split; [exact Hoth|]]]].
  2:{ intros p' Hne. apply lookup_insert_ne. congruence. }
  unfold strcpy_at. mnext. rewrite Hl0. cbn [cb_size cb_string].
  destruct (Z.ltb_spec (bcap (bufs s b)) (off + Z.of_nat (length l) + 1)) as [|_]; [lia|].
  enough (Heq : match l0 with
      | Some old => Some (if off <=? Z.of_nat (length old) then take (Z.to_nat off) old ++ l else old)
      | None => if off =? 0 then Some l else None end = Some (old ++ l)) by (by rewrite Heq).
  destruct Hold as [[-> ->]|[Hold ->]].
  - destruct l0 as [l0|]; [|done]. rewrite (proj2 (Z.leb_le 0 (Z.of_nat (length l0)))) by lia. done.
  - unfold content in Hold. rewrite Hp in Hold. cbn [mbind option_bind] in Hold. rewrite Hl0 in Hold. cbn in Hold. subst l0.
    rewrite Z.leb_refl, Nat2Z.id. by rewrite take_ge.
Qed.

Lemma deref_Ret (s : st) b l : content (bufs s) (heap s) b = Some l -> deref (bptr (bufs s b)) s = Ret (l, s).
Proof. intros Hc. unfold deref. mnext. unfold content in Hc. by rewrite Hc. Qed.

Lemma others_trans b f h f1 h1 f2 h2 : others_kept b f h f1 h1 -> others_kept b f1 h1 f2 h2 -> others_kept b f h f2 h2.
Proof. intros H1' H2' b' Hne. destruct (H1' b' Hne) as [<- <-]. by apply H2'. Qed.

(** ** [make_absolute] *)

Lemma head_at (p : list Z) b : b <> 0 -> at_ p 0 = b <-> head p = Some b.
Proof. intros Hb. destruct p as [|c p]; [split; [by intros <-|done]|]. change (at_ (c :: p) 0) with c. split; [by intros ->|by intros [= ->]]. Qed.

Lemma take2_at (p : list Z) : at_ p 0 = dot /\ at_ p 1 = slash <-> take 2 p = [dot; slash].
Proof.
  destruct p as [|a [|b p]]; [split; [by intros [? _]|done]|split; [by intros [_ ?]|done]|].
  change (at_ (a :: b :: p) 0) with a. change (at_ (a :: b :: p) 1) with b.
  split; [by intros [-> ->]|by intros [= -> ->]].
Qed.

Lemma is_dot_spec p : is_dot p = true <-> p ∈ [[]; [dot]; [dot; slash]].
Proof. unfold is_dot. rewrite !orb_true_iff, !bool_decide_eq_true, !elem_of_cons, elem_of_nil. intuition congruence. Qed.

(** The path behind a leading [./]. *)
Lemma drop_dot_slash path : (if (at_ path 0 =? dot) && (at_ path 1 =? slash) then drop 2 path else path) =
  if decide (take 2 path = [dot; slash]) then drop 2 path else path.
Proof.
  pose proof (take2_at path). destruct (Z.eqb_spec (at_ path 0) dot), (Z.eqb_spec (at_ path 1) slash); cbn [andb];
    case_decide; tauto.
Qed.

Lemma ends_slash (c : list Z) : c <> [] -> (if at_ c (pred (length c)) =? slash then 0 else 1) = if decide (last c = Some slash) then 0 else 1.
Proof.
  intros Hc. rewrite (last_at c Hc). destruct (Z.eqb_spec (at_ c (pred (length c))) slash) as [->|Hne]; case_decide; congruence.
Qed.

(** What is stored in [make_absolute]'s buffer once it is large enough. *)
Lemma build_absolute c p (s : st) : let need := if decide (last c = Some slash) then 0 else 1 in
  bufs_ok (bufs s) (heap s) -> Z.of_nat (length c) + Z.of_nat (length p) + 1 + need <= bcap (bufs s ABS) -> cwd_lock s = threaded ->
  exists h, (strcpy (bptr (bufs s ABS)) c;;
      __wasilibc_cwd_unlock threaded;;
      (if is_dot p then mret tt else
       (if need =? 0 then mret tt else strcpy_at (bptr (bufs s ABS)) (Z.of_nat (length c)) [slash]);;
       strcpy_at (bptr (bufs s ABS)) (Z.of_nat (length c) + need) p);;
      l ← deref (bptr (bufs s ABS));
      mret (Some l)) s =
    Ret (Some (if decide (p ∈ [[]; [dot]; [dot; slash]]) then c
               else c ++ (if decide (last c = Some slash) then [] else [slash]) ++ p), set_bufs (bufs s) h (set_cwd_lock false s)) /\
    bufs_ok (bufs s) h /\ others_kept ABS (bufs s) (heap s) (bufs s) h.
Proof.
  intros need Hok Hroom Hl.
  destruct (put_Ret ABS 0 [] c s Hok ltac:(subst need; case_decide; lia) ltac:(by left)) as (h1 & Hput1 & Hok1 & Hc1 & Hoth1 & _).
  set (s1 := set_bufs (bufs s) h1 (set_cwd_lock false s)).
  assert (Hun : __wasilibc_cwd_unlock threaded (set_bufs (bufs s) h1 s) = Ret (tt, s1)) by (exact (cwd_unlock_Ret threaded (set_bufs (bufs s) h1 s) Hl)).
  destruct (is_dot p) eqn:Hdot.
  { rewrite decide_True by (by apply is_dot_spec). exists h1. split; [|done].
    mnext_by Hput1. mnext_by Hun. mnext. by mnext_by (deref_Ret s1 ABS c Hc1). }
  rewrite decide_False by (intros Hin%is_dot_spec; congruence).
  assert (Hslash : exists h2, (if need =? 0 then mret tt else strcpy_at (bptr (bufs s ABS)) (Z.of_nat (length c)) [slash]) s1 =
      Ret (tt, set_bufs (bufs s) h2 s1) /\ bufs_ok (bufs s) h2 /\
      content (bufs s) h2 ABS = Some (c ++ if decide (last c = Some slash) then [] else [slash]) /\
      others_kept ABS (bufs s) h1 (bufs s) h2).
  { subst need. case_decide.
    - exists h1. rewrite app_nil_r. by split.
    - destruct (put_Ret ABS (Z.of_nat (length c)) c [slash] s1 Hok1 ltac:(cbn in *; lia) ltac:(by right)) as (h2 & Hput2 & Hok2 & Hc2 & Hoth2 & _).
      exists h2. by split. }
  destruct Hslash as (h2 & Hput2 & Hok2 & Hc2 & Hoth2). set (s2 := set_bufs (bufs s) h2 s1) in *.
  destruct (put_Ret ABS (Z.of_nat (length c) + need) (c ++ if decide (last c = Some slash) then [] else [slash]) p s2 Hok2) as
    (h3 & Hput3 & Hok3 & Hc3 & Hoth3 & _).
  { change (bufs s2 ABS) with (bufs s ABS). lia. }
  { right. split; [done|]. rewrite length_app. subst need. case_decide; cbn [length]; lia. }
  exists h3. split; [|split; [done|]; eapply others_trans; [exact Hoth1|]; eapply others_trans; [exact Hoth2|exact Hoth3]].
  mnext_by Hput1. mnext_by Hun. 
  etransitivity; [eapply bind_Ret; etransitivity; [eapply bind_Ret; exact Hput2|]; cbn beta iota; exact Hput3|]. cbn beta iota.
  mnext_by (deref_Ret (set_bufs (bufs s2) h3 s2) ABS _ Hc3). by rewrite <- app_assoc.
Qed.

Lemma sync_done (s : st) : cwd_is_synced s = true -> sync_cwd threaded s = Ret (true, s).
Proof. intros Hsync. unfold sync_cwd. mnext. by rewrite Hsync. Qed.

Lemma make_absolute_Ret path (s : st) c : settled s c -> bufs_ok (bufs s) (heap s) ->
  Z.of_nat (length c + length path) < 2 ^ 31 ->
  exists r f h e, make_absolute threaded path s = Ret (r, with_bufs f h e s) /\
    bufs_ok f h /\ others_kept ABS (bufs s) (heap s) f h /\ mallocs (world (penv s)) (world e) /\
    match r with Some a => a = absolutize c path | None => denied (world e) end.
Proof.
  intros [Hsync Hcwd Hne Hl Hcl] Hok Hlen. unfold make_absolute.
  rewrite (bind_Ret _ _ _ _ _ (sync_done s Hsync)). cbn [negb]. unfold absolutize.
  pose proof (head_at path slash ltac:(done)) as Hhead. destruct (Z.eqb_spec (at_ path 0) slash) as [Hs|Hs].
  { rewrite decide_True by tauto. exists (Some path), (bufs s), (heap s), (penv s). split; [by destruct s|]. split_and!; done. }
  rewrite decide_False by tauto. rewrite drop_dot_slash.
  set (p := if decide (take 2 path = _) then drop 2 path else path).
  assert (Hp : (length p <= length path)%nat) by (subst p; case_decide; [rewrite length_drop|]; lia). clearbody p.
  rewrite (bind_Ret _ _ _ _ _ (cwd_lock_Ret threaded s Hcl)), (bind_Ret _ _ _ _ _ (get_Ret _)).
  change (cwd (set_cwd_lock threaded s)) with (cwd s). rewrite Hcwd. destruct c as [|c0 c]; [done|]. set (cc := c0 :: c) in *.
  rewrite (ends_slash cc Hne). set (need := if decide (last cc = Some slash) then 0 else 1).
  assert (Hneed : 0 <= need <= 1) by (subst need; case_decide; lia).
  rewrite (w32_small (Z.of_nat (length cc) + Z.of_nat (length p) + 1 + need)) by lia.
  destruct (ensure_Ret ABS (Z.of_nat (length cc) + Z.of_nat (length p) + 1 + need) (set_cwd_lock threaded s) Hok ltac:(lia))
    as (ok & f & h & e & Hg & Hok1 & Hms & Her & _ & Hoth & Hroom).
  rewrite (bind_Ret _ _ _ _ _ Hg). destruct ok; cbn [negb].
  - rewrite (bind_Ret _ _ _ _ _ (get_Ret _)).
    destruct (build_absolute cc p (with_bufs f h e (set_cwd_lock threaded s)) Hok1 Hroom eq_refl) as (h' & Hb & Hok2 & Hoth2).
    eexists (Some _), f, h', e. split; [etransitivity; [exact Hb|]; by destruct s; simpl in *; subst|].
    split; [exact Hok2|]. split; [eapply others_trans; [exact Hoth|exact Hoth2]|]. by split.
  - assert (Hun : __wasilibc_cwd_unlock threaded (with_bufs f h e (set_cwd_lock threaded s)) = Ret (tt, with_bufs f h e s)).
    { etransitivity; [exact (cwd_unlock_Ret threaded (with_bufs f h e (set_cwd_lock threaded s)) eq_refl)|]. by destruct s; simpl in *; subst. }
    rewrite (bind_Ret _ _ _ _ _ Hun). exists None, f, h, e. by split_and!.
Qed.

Lemma find_abspath_resolve path (s : st) : lock s = false ->
  __wasilibc_find_abspath threaded path s =
    match resolve (preopens s) path with
    | Some r => Ret (r, s)
    | None => Ret ((-1, [], []), set_env (Env ENOENT (world (penv s))) s)
    end.
Proof. intros Hl. rewrite find_abspath_Ret by done. unfold resolve. by destruct (bfd _ =? -1). Qed.

Lemma resolve_fd pres path fd abs rel : resolve pres path = Some (fd, abs, rel) -> fd <> -1.
Proof. unfold resolve. destruct (Z.eqb_spec (bfd (scan pres path)) (-1)); [done|]. by intros [= <- _ _]. Qed.

Lemma resolve_length pres path fd abs rel : resolve pres path = Some (fd, abs, rel) ->
  (length rel <= S (length path))%nat.
Proof.
  unfold resolve. destruct (_ =? -1); [done|]. intros [= _ _ <-]. unfold relative_of.
  destruct (_ =? 0)%nat; simpl; [lia|]. rewrite length_drop. lia.
Qed.

Lemma absolutize_length c path : (length (absolutize c path) <= length c + S (length path))%nat.
Proof.
  unfold absolutize. case_decide; [lia|]. set (p := if decide (take 2 path = _) then drop 2 path else path).
  assert (length p <= length path)%nat by (subst p; case_decide; [rewrite length_drop|]; lia).
  case_decide; [lia|]. rewrite !length_app. case_decide; simpl; lia.
Qed.

Lemma absolutize_string c path : c_string c -> c_string path -> c_string (absolutize c path).
Proof.
  intros Hc Hp. unfold absolutize. case_decide; [done|]. set (p := if decide (take 2 path = _) then drop 2 path else path).
  assert (c_string p) by (subst p; case_decide; [by apply Forall_drop|done]).
  case_decide; [done|]. apply Forall_app. split; [done|]. apply Forall_app. split; [|done]. case_decide; by repeat constructor.
Qed.

(** Why a resolution failed, and what it left in [errno]. *)
Definition resolved (s : st) (b : which) (a : list Z) (v : Z) (abs : list Z) (f : which -> pbuf) (h : gmap Z cblock) (e : env W) : Prop :=
  (v = -1 /\ errno e = ENOMEM /\ denied (world e)) \/
  match resolve (preopens s) a with
  | None => v = -1 /\ errno e = ENOENT
  | Some (fd, prefix, rel) => v = fd /\ abs = prefix /\ content f h b = Some rel
  end.

Lemma find_relpath_alloc_Ret path b (s : st) c :
  settled s c -> bufs_ok (bufs s) (heap s) -> b <> ABS ->
  Z.of_nat (length c + length path) < 2 ^ 31 ->
  exists v abs f h e, find_relpath_alloc threaded path b s = Ret ((v, abs), with_bufs f h e s) /\
    bufs_ok f h /\ mallocs (world (penv s)) (world e) /\
    (forall b', b' <> b -> b' <> ABS -> f b' = bufs s b' /\ content f h b' = content (bufs s) (heap s) b') /\
    kept_or_gone (bptr (bufs s b)) (bptr (f b)) h /\ resolved s b (absolutize c path) v abs f h e.
Proof.
  intros Hset Hok Hb Hlen. unfold find_relpath_alloc.
  destruct (make_absolute_Ret path s c Hset Hok Hlen) as (r & f & h & e & Hm & Hok1 & Hoth & Hms & Hr). rewrite (bind_Ret _ _ _ _ _ Hm).
  pose proof Hset as [_ _ _ Hl _].
  assert (Hkept : kept_or_gone (bptr (bufs s b)) (bptr (f b)) h) by (left; by destruct (Hoth b Hb) as [-> _]).
  destruct r as [a|].
  2:{ exists (-1), [], f, h, (Env ENOMEM (world e)). split; [by destruct s|].
      split_and!; try done; [intros b' _ Hne; by apply Hoth|]. by left. }
  subst a. set (s1 := with_bufs f h e s). pose proof (find_abspath_resolve (absolutize c path) s1 Hl) as Hf.
  change (preopens s1) with (preopens s) in Hf. unfold resolved.
  destruct (resolve (preopens s) (absolutize c path)) as [[[fd prefix] rel]|] eqn:Hres.
  2:{ rewrite (bind_Ret _ _ _ _ _ Hf). exists (-1), [], f, h, (Env ENOENT (world e)). split; [by destruct s|].
      split_and!; try done; [intros b' _ Hne; by apply Hoth|]. by right. }
  rewrite (bind_Ret _ _ _ _ _ Hf). cbn beta iota.
  destruct (Z.eqb_spec fd (-1)) as [->|Hfd]; [by apply resolve_fd in Hres|].
  rewrite (bind_Ret _ _ _ _ _ (get_Ret s1)).
  pose proof (resolve_length _ _ _ _ _ Hres). pose proof (absolutize_length c path).
  rewrite (w32_small (Z.of_nat (length rel) + 1)) by lia.
  destruct (ensure_Ret b (Z.of_nat (length rel) + 1) s1 Hok1 ltac:(lia)) as (ok & f2 & h2 & e2 & Hg & Hok2 & Hms2 & Her2 & Hgone & Hoth2 & Hroom).
  assert (Hfr : forall b', b' <> b -> b' <> ABS -> f2 b' = bufs s b' /\ content f2 h2 b' = content (bufs s) (heap s) b').
  { intros b' H1' H2'. destruct (Hoth b' H2') as [<- <-]. exact (Hoth2 b' H1'). }
  assert (Hms' : mallocs (world (penv s)) (world e2)) by (by etransitivity).
  assert (Hk2 : kept_or_gone (bptr (bufs s b)) (bptr (f2 b)) h2) by (by destruct (Hoth b Hb) as [<- _]).
  rewrite (bind_Ret _ _ _ _ _ Hg). destruct ok; cbn [negb].
  2:{ exists (-1), prefix, f2, h2, (Env ENOMEM (world e2)). split; [by destruct s|]. split_and!; try done. by left. }
  rewrite (bind_Ret _ _ _ _ _ (get_Ret _)). set (s2 := with_bufs f2 h2 e2 s1) in *.
  destruct (put_Ret b 0 [] rel s2 Hok2 ltac:(change (bufs s2 b) with (f2 b); lia) ltac:(by left)) as (h3 & Hput & Hok3 & Hc3 & Hoth3 & Hrest).
  exists fd, prefix, f2, h3, e2. split; [mnext_by Hput; by destruct s|]. split; [done|]. split; [done|].
  split; [intros b' H1' H2'; destruct (Hfr b' H1' H2') as [<- <-]; exact (Hoth3 b' H1')|]. split; [|by right].
  destruct Hk2 as [Hk2|Hk2]; [by left|]. destruct (decide (bptr (bufs s b) = bptr (f2 b))) as [|Hne]; [by left|right].
  intros p Hp. rewrite Hrest; [exact (Hk2 p Hp)|]. change (bufs s2 b) with (f2 b). congruence.
Qed.


End Resolve.
