(* ===== verification/TimeConv.v ===== *)
(** Conversions between WASI timestamps and the C time structures
    ([cloudlibc/src/common/time.h], [libc/sys/stat/stat_impl.h]). *)
From S2P Require Import Prelude.
From S2P Require Import Wasi.

Definition NSEC_PER_SEC : Z := 1000000000.

Record timespec := Timespec { tv_sec : Z; tv_nsec : Z }.
Record timeval := Timeval { tval_sec : Z; tval_usec : Z }.

#[export] Instance timespec_eq : EqDecision timespec.
Proof. solve_decision. Defined.

(** A representable C value: [time_t] has 64 bits, [long] has 32. *)
Definition timespec_ok (t : timespec) : Prop :=
  - 2 ^ 63 <= tv_sec t < 2 ^ 63 /\ - 2 ^ 31 <= tv_nsec t < 2 ^ 31.

(** [__builtin_mul_overflow] and [__builtin_add_overflow] into a 64-bit
    timestamp: [None] when they report an overflow. *)
Definition u64_exact (x : Z) : option Z := if (0 <=? x) && (x <? 2 ^ 64) then Some x else None.

Definition to_nanos (t : timespec) : option Z :=
  ts ← u64_exact (tv_sec t * NSEC_PER_SEC); u64_exact (ts + tv_nsec t).

Definition timespec_to_timestamp_exact (t : timespec) : option Z :=
  if (tv_nsec t <? 0) || (NSEC_PER_SEC <=? tv_nsec t) then None
  else if tv_sec t <? 0 then None
  else to_nanos t.

Definition timespec_to_timestamp_clamp (t : timespec) : option Z :=
  if (tv_nsec t <? 0) || (NSEC_PER_SEC <=? tv_nsec t) then None
  else if tv_sec t <=? 0 then Some 1
  else Some (default (2 ^ 64 - 1) (to_nanos t)).

Definition timestamp_to_timespec (timestamp : Z) : timespec :=
  Timespec (s64 (timestamp / NSEC_PER_SEC)) (timestamp mod NSEC_PER_SEC).

Definition timestamp_to_timeval (timestamp : Z) : timeval :=
  let ts := timestamp_to_timespec timestamp in
  Timeval (tv_sec ts) (Z.quot (tv_nsec ts) 1000).

(** ** [stat_impl.h] *)

Definition S_IFBLK : Z := 24576.
Definition S_IFCHR : Z := 8192.
Definition S_IFDIR : Z := 16384.
Definition S_IFLNK : Z := 40960.
Definition S_IFREG : Z := 32768.
Definition S_IFSOCK : Z := 57344.
Definition S_IFIFO : Z := 49152.
Definition S_IFMT : Z :=
  Z.lor S_IFBLK (Z.lor S_IFCHR (Z.lor S_IFDIR (Z.lor S_IFIFO (Z.lor S_IFLNK (Z.lor S_IFREG S_IFSOCK))))).

Inductive filetype :=
  | FT_UNKNOWN | FT_BLOCK_DEVICE | FT_CHARACTER_DEVICE | FT_DIRECTORY | FT_REGULAR_FILE
  | FT_SOCKET_DGRAM | FT_SOCKET_STREAM | FT_SYMBOLIC_LINK | FT_SOCKET_RAW | FT_SOCKET_SEQPACKET.

Definition filetype_code (t : filetype) : Z :=
  match t with
  | FT_UNKNOWN => 0 | FT_BLOCK_DEVICE => 1 | FT_CHARACTER_DEVICE => 2 | FT_DIRECTORY => 3
  | FT_REGULAR_FILE => 4 | FT_SOCKET_DGRAM => 5 | FT_SOCKET_STREAM => 6 | FT_SYMBOLIC_LINK => 7
  | FT_SOCKET_RAW => 8 | FT_SOCKET_SEQPACKET => 9
  end.

(** The fields of [struct stat] that are not zero. *)
Record stat := Stat {
  st_dev : Z; st_ino : Z; st_nlink : Z; st_mode : Z; st_size : Z;
  st_atim : timespec; st_mtim : timespec; st_ctim : timespec }.

Definition mode_of_filetype (t : Z) : Z :=
  if t =? filetype_code FT_BLOCK_DEVICE then S_IFBLK
  else if t =? filetype_code FT_CHARACTER_DEVICE then S_IFCHR
  else if t =? filetype_code FT_DIRECTORY then S_IFDIR
  else if t =? filetype_code FT_REGULAR_FILE then S_IFREG
  else if (t =? filetype_code FT_SOCKET_DGRAM) || (t =? filetype_code FT_SOCKET_STREAM)
       || (t =? filetype_code FT_SOCKET_SEQPACKET) || (t =? filetype_code FT_SOCKET_RAW) then S_IFSOCK
  else if t =? filetype_code FT_SYMBOLIC_LINK then S_IFLNK
  else 0.

Definition to_public_stat (f : filestat) : stat :=
  Stat (fst_dev f) (fst_ino f) (fst_nlink f) (mode_of_filetype (fst_filetype f)) (s64 (fst_size f))
    (timestamp_to_timespec (fst_atim f)) (timestamp_to_timespec (fst_mtim f))
    (timestamp_to_timespec (fst_ctim f)).

Definition S_ISDIR (mode : Z) : bool := Z.land mode S_IFMT =? S_IFDIR.

Definition UTIME_NOW : Z := -1.
Definition UTIME_OMIT : Z := -2.
Definition FSTFLAGS_ATIM : Z := 1.
Definition FSTFLAGS_ATIM_NOW : Z := 2.
Definition FSTFLAGS_MTIM : Z := 4.
Definition FSTFLAGS_MTIM_NOW : Z := 8.

(** One of the two times: its flags and the timestamp it sets. *)
Definition get_timestamp (t : timespec) (set now : Z) : option (option Z * Z) :=
  if tv_nsec t =? UTIME_NOW then Some (None, now)
  else if tv_nsec t =? UTIME_OMIT then Some (None, 0)
  else ts ← timespec_to_timestamp_exact t; Some (Some ts, set).

(** [None] when the function returns [false]; otherwise the timestamps set and
    the flags. *)
Definition utimens_get_timestamps (times : option (timespec * timespec)) : option (option Z * option Z * Z) :=
  match times with
  | None => Some (None, None, Z.lor FSTFLAGS_ATIM_NOW FSTFLAGS_MTIM_NOW)
  | Some (t0, t1) =>
      '(a, fa) ← get_timestamp t0 FSTFLAGS_ATIM FSTFLAGS_ATIM_NOW;
      '(m, fm) ← get_timestamp t1 FSTFLAGS_MTIM FSTFLAGS_MTIM_NOW;
      Some (a, m, Z.lor fa fm)
  end.

(** ** Correctness *)

(** The nanoseconds a timespec stands for. *)
Definition nanos (t : timespec) : Z := tv_sec t * NSEC_PER_SEC + tv_nsec t.

Definition normal (t : timespec) : Prop := 0 <= tv_nsec t < NSEC_PER_SEC.

Lemma to_nanos_spec t : 0 <= tv_nsec t -> 0 <= tv_sec t ->
  to_nanos t = if nanos t <? 2 ^ 64 then Some (nanos t) else None.
Proof.
  intros Hn Hs. unfold to_nanos, u64_exact, nanos, NSEC_PER_SEC.
  destruct (Z.ltb_spec (tv_sec t * 1000000000) (2 ^ 64)).
  - replace (0 <=? tv_sec t * 1000000000) with true by lia. simpl.
    replace (0 <=? tv_sec t * 1000000000 + tv_nsec t) with true by lia. done.
  - rewrite andb_false_r. simpl. destruct (_ <? _) eqn:E; [lia|done].
Qed.

Lemma exact_spec t : timespec_to_timestamp_exact t =
  if bool_decide (normal t) && (0 <=? tv_sec t) && (nanos t <? 2 ^ 64) then Some (nanos t) else None.
Proof.
  unfold timespec_to_timestamp_exact, normal. case_bool_decide as Hn.
  - replace (tv_nsec t <? 0) with false by lia. replace (NSEC_PER_SEC <=? tv_nsec t) with false by lia. simpl.
    destruct (Z.ltb_spec (tv_sec t) 0); [by replace (0 <=? tv_sec t) with false by lia|].
    replace (0 <=? tv_sec t) with true by lia. simpl. apply to_nanos_spec; lia.
  - simpl. destruct (_ || _) eqn:E; [done|lia].
Qed.

Lemma clamp_spec t : timespec_to_timestamp_clamp t =
  if bool_decide (normal t) then Some (if tv_sec t <=? 0 then 1 else Z.min (nanos t) (2 ^ 64 - 1)) else None.
Proof.
  unfold timespec_to_timestamp_clamp, normal. case_bool_decide as Ht.
  - replace (tv_nsec t <? 0) with false by lia. replace (NSEC_PER_SEC <=? tv_nsec t) with false by lia. simpl.
    destruct (Z.leb_spec (tv_sec t) 0); [done|]. rewrite to_nanos_spec by lia.
    destruct (Z.ltb_spec (nanos t) (2 ^ 64)); simpl; do 2 f_equal; lia.
  - destruct (_ || _) eqn:E; [done|lia].
Qed.

(** The exact conversion succeeds on precisely the normalised, non-negative
    times below 2^64 nanoseconds, where it is the number of nanoseconds; it
    undoes [timestamp_to_timespec] on every timestamp, whose result is always
    normalised and loses nothing.  The clamping conversion agrees with it on
    positive times and saturates beyond them. *)
Theorem timestamp_roundtrip t ts : 0 <= ts < 2 ^ 64 ->
  timespec_to_timestamp_exact t =
    (if bool_decide (normal t) && (0 <=? tv_sec t) && (nanos t <? 2 ^ 64) then Some (nanos t) else None) /\
  normal (timestamp_to_timespec ts) /\
  timespec_to_timestamp_exact (timestamp_to_timespec ts) = Some ts /\
  timespec_to_timestamp_clamp t =
    if bool_decide (normal t) then Some (if tv_sec t <=? 0 then 1 else Z.min (nanos t) (2 ^ 64 - 1)) else None.
Proof.
  intros Hts. split; [apply exact_spec|].
  assert (Hn : normal (timestamp_to_timespec ts)) by (apply Z.mod_pos_bound; done).
  split; [done|]. split.
  - rewrite exact_spec, bool_decide_eq_true_2 by done. unfold nanos, timestamp_to_timespec, NSEC_PER_SEC in *. simpl.
    pose proof (Z.div_mod ts 1000000000 ltac:(lia)).
    assert (0 <= ts / 1000000000 < 2 ^ 63) by (split; [apply Z.div_pos; lia|apply Z.div_lt_upper_bound; lia]).
    rewrite s64_small by lia. replace (0 <=? ts / 1000000000) with true by lia.
    replace (ts / 1000000000 * 1000000000 + ts mod 1000000000) with ts by lia.
    replace (ts <? 2 ^ 64) with true by lia. done.
  - apply clamp_spec.
Qed.

Lemma get_timestamp_flags t set now r f : get_timestamp t set now = Some (r, f) ->
  (r = None /\ (f = now /\ tv_nsec t = UTIME_NOW \/ f = 0 /\ tv_nsec t = UTIME_OMIT)) \/
  (r = Some (nanos t) /\ f = set).
Proof.
  unfold get_timestamp. destruct (Z.eqb_spec (tv_nsec t) UTIME_NOW); [intros [= <- <-]; by left; split; [|left]|].
  destruct (Z.eqb_spec (tv_nsec t) UTIME_OMIT); [intros [= <- <-]; by left; split; [|right]|].
  rewrite exact_spec. destruct (_ && _); simpl; [|done]. intros [= <- <-]. by right.
Qed.

(** A timestamp handed to the host with its "set" flag is always the
    number of nanoseconds asked for: an unset variable is passed only with a
    "now" flag or none. *)
Theorem utimens_flags t0 t1 a m flags :
  utimens_get_timestamps (Some (t0, t1)) = Some (a, m, flags) ->
  (has flags FSTFLAGS_ATIM = true <-> a = Some (nanos t0)) /\
  (has flags FSTFLAGS_MTIM = true <-> m = Some (nanos t1)) /\
  (has flags FSTFLAGS_ATIM_NOW = true <-> tv_nsec t0 = UTIME_NOW) /\
  (has flags FSTFLAGS_MTIM_NOW = true <-> tv_nsec t1 = UTIME_NOW).
Proof.
  unfold utimens_get_timestamps.
  destruct (get_timestamp t0 _ _) as [[r0 f0]|] eqn:H0; [|done].
  destruct (get_timestamp t1 _ _) as [[r1 f1]|] eqn:H1; [|done]. simpl. intros [= <- <- <-].
  assert (Hexact : forall t set now f, get_timestamp t set now = Some (Some (nanos t), f) -> tv_nsec t <> UTIME_NOW).
  { intros t set now f. unfold get_timestamp. destruct (Z.eqb_spec (tv_nsec t) UTIME_NOW); done. }
  apply get_timestamp_flags in H0 as Hc0. apply get_timestamp_flags in H1 as Hc1.
  destruct Hc0 as [(-> & [[-> Hn0]|[-> Hn0]])|[-> ->]], Hc1 as [(-> & [[-> Hn1]|[-> Hn1]])|[-> ->]];
    try apply Hexact in H0; try apply Hexact in H1;
    split_and!; split; intros; try done; try (vm_compute; done); try congruence;
    unfold UTIME_NOW, UTIME_OMIT in *; try lia.
Qed.
