(* ===== verification/At.v ===== *)
(** The path functions: the system-call wrappers of [cloudlibc] that take a
    directory descriptor, the POSIX functions that resolve a path first
    ([libc-bottom-half/sources/posix.c]), the [*at] functions that choose
    between the two ([at_fdcwd.c]), and [chdir]. *)
From S2P Require Import Prelude.
From S2P Require Import Wasi.
From S2P Require Import Unistd.
From S2P Require Import TimeConv.
From S2P Require Import Paths.

Definition AT_FDCWD : Z := -2.
Definition AT_EACCESS : Z := 0.
Definition AT_SYMLINK_NOFOLLOW : Z := 1.
Definition AT_SYMLINK_FOLLOW : Z := 2.
Definition AT_REMOVEDIR : Z := 4.
Definition SYMLINK_FOLLOW : Z := 1.

Definition O_NONBLOCK : Z := 4.
Definition O_NOFOLLOW : Z := 16777216.
Definition O_EXEC : Z := 33554432.
Definition O_RDONLY : Z := 67108864.
Definition O_SEARCH : Z := 134217728.
Definition O_WRONLY : Z := 268435456.
Definition O_RDWR : Z := Z.lor O_RDONLY O_WRONLY.
Definition O_ACCMODE : Z := Z.lor O_EXEC (Z.lor O_RDWR O_SEARCH).

Definition F_OK : Z := 0.
Definition X_OK : Z := 1.
Definition W_OK : Z := 2.
Definition R_OK : Z := 4.

Section Nocwd.
  Context {W : Type} `{WasiFd W, WasiPath W}.

Abbreviation EM := (M (env W)).

(** The common end of the wrappers: [errno] and -1, or 0. *)
Definition ret_errno (error : Z) : EM Z :=
  if negb (error =? 0) then set_errno error;; mret (-1) else mret 0.

(** The rights [openat] asks for: all, less those that contradict the access
    mode; [None] for an access mode that is not one. *)
Definition open_rights (oflag : Z) : option Z :=
  let max0 := w64 (Z.lnot (Z.lor RIGHTS_FD_DATASYNC (Z.lor RIGHTS_FD_READ (Z.lor RIGHTS_FD_WRITE
                (Z.lor RIGHTS_FD_ALLOCATE (Z.lor RIGHTS_FD_READDIR RIGHTS_FD_FILESTAT_SET_SIZE)))))) in
  let mode := Z.land oflag O_ACCMODE in
  if (mode =? O_RDONLY) || (mode =? O_RDWR) || (mode =? O_WRONLY) then
    let max1 := if has oflag O_RDONLY then Z.lor max0 (Z.lor RIGHTS_FD_READ RIGHTS_FD_READDIR) else max0 in
    Some (if has oflag O_WRONLY
          then Z.lor max1 (Z.lor RIGHTS_FD_DATASYNC (Z.lor RIGHTS_FD_WRITE
                 (Z.lor RIGHTS_FD_ALLOCATE RIGHTS_FD_FILESTAT_SET_SIZE)))
          else max1)
  else if mode =? O_EXEC then Some max0
  else if mode =? O_SEARCH then Some max0
  else None.

Definition __wasilibc_nocwd_openat_nomode (fd : Z) (path : list Z) (oflag : Z) : EM Z :=
  match open_rights oflag with
  | None => set_errno EINVAL;; mret (-1)
  | Some max =>
      '(error, fsb_cur) ← host (wasi_fd_fdstat_get fd);
      if negb (error =? 0) then set_errno error;; mret (-1) else
      let lookup_flags := if has oflag O_NOFOLLOW then 0 else SYMLINK_FOLLOW in
      let fs_flags := Z.land oflag 4095 in
      let fd_flags := Z.land (Z.shiftr oflag 30) 3 in
      let fs_rights_base := Z.land max (fs_rights_inheriting fsb_cur) in
      '(error, newfd) ← host (wasi_path_open2 fd lookup_flags path (Z.land (Z.shiftr oflag 12) 4095)
                                fs_rights_base (fs_rights_inheriting fsb_cur) fs_flags fd_flags);
      if negb (error =? 0) then set_errno error;; mret (-1) else mret newfd
  end.

Definition __wasilibc_nocwd_linkat (fd1 : Z) (path1 : list Z) (fd2 : Z) (path2 : list Z) (flag : Z) : EM Z :=
  let lookup1_flags := if has flag AT_SYMLINK_FOLLOW then SYMLINK_FOLLOW else 0 in
  error ← host (wasi_path_link fd1 lookup1_flags path1 fd2 path2);
  ret_errno error.

Definition __wasilibc_nocwd_renameat (oldfd : Z) (old : list Z) (newfd : Z) (new : list Z) : EM Z :=
  error ← host (wasi_path_rename oldfd old newfd new);
  ret_errno error.

Definition __wasilibc_nocwd_symlinkat (path1 : list Z) (fd : Z) (path2 : list Z) : EM Z :=
  error ← host (wasi_path_symlink path1 fd path2);
  ret_errno error.

(** The length and the bytes stored at [buf]. *)
Definition __wasilibc_nocwd_readlinkat (fd : Z) (path : list Z) (bufsize : Z) : EM (Z * list Z) :=
  '(error, buf) ← host (wasi_path_readlink fd path bufsize);
  if negb (error =? 0) then set_errno error;; mret (-1, [])
  else mret (s32 (Z.of_nat (length buf)), buf).

Definition __wasilibc_nocwd_mkdirat_nomode (fd : Z) (path : list Z) : EM Z :=
  error ← host (wasi_path_create_directory fd path);
  ret_errno error.

Definition __wasilibc_nocwd___wasilibc_unlinkat (fd : Z) (path : list Z) : EM Z :=
  error ← host (wasi_path_unlink_file fd path);
  ret_errno error.

Definition __wasilibc_nocwd___wasilibc_rmdirat (fd : Z) (path : list Z) : EM Z :=
  error ← host (wasi_path_remove_directory fd path);
  ret_errno error.

Definition __wasilibc_nocwd_faccessat (fd : Z) (path : list Z) (amode flag : Z) : EM Z :=
  if has amode (Z.lnot (Z.lor F_OK (Z.lor R_OK (Z.lor W_OK X_OK)))) || has flag (Z.lnot AT_EACCESS)
  then set_errno EINVAL;; mret (-1) else
  '(error, file) ← host (wasi_path_filestat_get fd SYMLINK_FOLLOW path);
  if negb (error =? 0) then set_errno error;; mret (-1) else
  if negb (amode =? 0) then
    '(error, directory) ← host (wasi_fd_fdstat_get fd);
    if negb (error =? 0) then set_errno error;; mret (-1) else
    let min := Z.lor
      (if has amode R_OK
       then if fst_filetype file =? filetype_code FT_DIRECTORY then RIGHTS_FD_READDIR else RIGHTS_FD_READ
       else 0)
      (if has amode W_OK then RIGHTS_FD_WRITE else 0) in
    if negb (Z.land min (fs_rights_inheriting directory) =? min)
    then set_errno EACCES;; mret (-1) else mret 0
  else mret 0.

(** The return value and the structure stored. *)
Definition __wasilibc_nocwd_fstatat (fd : Z) (path : list Z) (flag : Z) : EM (Z * option stat) :=
  let lookup_flags := if has flag AT_SYMLINK_NOFOLLOW then 0 else SYMLINK_FOLLOW in
  '(error, st) ← host (wasi_path_filestat_get fd lookup_flags path);
  if negb (error =? 0) then set_errno error;; mret (-1, None)
  else mret (0, Some (to_public_stat st)).

Definition fstat (fildes : Z) : EM (Z * option stat) :=
  '(error, st) ← host (wasi_fd_filestat_get fildes);
  if negb (error =? 0) then set_errno error;; mret (-1, None)
  else mret (0, Some (to_public_stat st)).

Definition __wasilibc_nocwd_utimensat (fd : Z) (path : list Z) (times : option (timespec * timespec)) (flag : Z) : EM Z :=
  match utimens_get_timestamps times with
  | None => mret (-1)
  | Some (st_atim, st_mtim, flags) =>
      let lookup_flags := if has flag AT_SYMLINK_NOFOLLOW then 0 else SYMLINK_FOLLOW in
      error ← host (wasi_path_filestat_set_times fd lookup_flags path st_atim st_mtim flags);
      ret_errno error
  end.

Definition futimens (fd : Z) (times : option (timespec * timespec)) : EM Z :=
  match utimens_get_timestamps times with
  | None => set_errno EINVAL;; mret (-1)
  | Some (st_atim, st_mtim, flags) =>
      error ← host (wasi_fd_filestat_set_times fd st_atim st_mtim flags);
      ret_errno error
  end.

End Nocwd.

(** ** [posix.c] *)
Section Posix.
  Context {W : Type} `{WasiFd W, WasiPath W, Alloc W}.
  Variable threaded : bool.

Abbreviation PM := (M (pstate W)).

(** The descriptor, and the pointer stored at [*relative]. *)
Definition find_relpath (path : list Z) : PM (Z * option Z) :=
  '(fd, _) ← find_relpath_alloc threaded path REL;
  s ← get;
  mret (fd, bptr (bufs s REL)).

Definition find_relpath_alt (path : list Z) : PM (Z * option Z) :=
  '(fd, _) ← find_relpath_alloc threaded path ALT;
  s ← get;
  mret (fd, bptr (bufs s ALT)).

(** How every function with one path begins: resolve, or fail with [ENOENT]
    and [bad]; the relative path is read when it is used. *)
Definition with_relpath {A} (bad : A) (path : list Z) (k : Z -> list Z -> M (env W) A) : PM A :=
  '(dirfd, relative_path) ← find_relpath path;
  if dirfd =? -1 then pfail ENOENT;; mret bad else
  rel ← deref relative_path;
  pcall (k dirfd rel).

Definition __wasilibc_open_nomode (path : list Z) (oflag : Z) : PM Z :=
  with_relpath (-1) path (fun dirfd rel => __wasilibc_nocwd_openat_nomode dirfd rel oflag).

Definition open (path : list Z) (oflag : Z) : PM Z := __wasilibc_open_nomode path oflag.

Definition access (path : list Z) (amode : Z) : PM Z :=
  with_relpath (-1) path (fun dirfd rel => __wasilibc_nocwd_faccessat dirfd rel amode 0).

Definition readlink (path : list Z) (bufsize : Z) : PM (Z * list Z) :=
  with_relpath (-1, []) path (fun dirfd rel => __wasilibc_nocwd_readlinkat dirfd rel bufsize).

Definition stat_ (path : list Z) : PM (Z * option stat) :=
  with_relpath (-1, None) path (fun dirfd rel => __wasilibc_nocwd_fstatat dirfd rel 0).

Definition lstat (path : list Z) : PM (Z * option stat) :=
  with_relpath (-1, None) path (fun dirfd rel => __wasilibc_nocwd_fstatat dirfd rel AT_SYMLINK_NOFOLLOW).

(** [times]: access and modification time in seconds. *)
Definition utime (path : list Z) (times : option (Z * Z)) : PM Z :=
  with_relpath (-1) path (fun dirfd rel =>
    __wasilibc_nocwd_utimensat dirfd rel
      (option_map (fun '(a, m) => (Timespec a 0, Timespec m 0)) times) 0).

Definition timeval_to_timespec (t : timeval) : timespec := Timespec (tval_sec t) (s32 (tval_usec t * 1000)).

Definition utimes (path : list Z) (times : option (timeval * timeval)) : PM Z :=
  with_relpath (-1) path (fun dirfd rel =>
    __wasilibc_nocwd_utimensat dirfd rel
      (option_map (fun '(a, m) => (timeval_to_timespec a, timeval_to_timespec m)) times) 0).

Definition unlink (path : list Z) : PM Z :=
  with_relpath (-1) path __wasilibc_nocwd___wasilibc_unlinkat.

Definition rmdir (path : list Z) : PM Z :=
  with_relpath (-1) path __wasilibc_nocwd___wasilibc_rmdirat.

(** The two attempts of [remove]. *)
Definition remove_at (dirfd : Z) (rel : list Z) : M (env W) Z :=
  r ← __wasilibc_nocwd___wasilibc_unlinkat dirfd rel;
  e ← gets errno;
  if negb (r =? 0) && ((e =? EISDIR) || (e =? ENOENT)) then
    r ← __wasilibc_nocwd___wasilibc_rmdirat dirfd rel;
    e ← gets errno;
    when (e =? ENOTDIR) (set_errno ENOENT);;
    mret r
  else mret r.

Definition remove (path : list Z) : PM Z := with_relpath (-1) path remove_at.

Definition mkdir (path : list Z) : PM Z :=
  with_relpath (-1) path __wasilibc_nocwd_mkdirat_nomode.

Definition symlink (target linkpath : list Z) : PM Z :=
  with_relpath (-1) linkpath (__wasilibc_nocwd_symlinkat target).

Definition __wasilibc_access (path : list Z) (mode flags : Z) : PM Z :=
  with_relpath (-1) path (fun dirfd rel => __wasilibc_nocwd_faccessat dirfd rel mode flags).

Definition __wasilibc_utimens (path : list Z) (times : option (timespec * timespec)) (flags : Z) : PM Z :=
  with_relpath (-1) path (fun dirfd rel => __wasilibc_nocwd_utimensat dirfd rel times flags).

Definition __wasilibc_stat (path : list Z) (flags : Z) : PM (Z * option stat) :=
  with_relpath (-1, None) path (fun dirfd rel => __wasilibc_nocwd_fstatat dirfd rel flags).

(** Two paths: the old one in the other buffer. *)
Definition with_relpaths (old new : list Z) (k : Z -> list Z -> Z -> list Z -> M (env W) Z) : PM Z :=
  '(old_dirfd, old_relative_path) ← find_relpath_alt old;
  if negb (old_dirfd =? -1) then
    '(new_dirfd, new_relative_path) ← find_relpath new;
    if negb (new_dirfd =? -1) then
      o ← deref old_relative_path;
      n ← deref new_relative_path;
      pcall (k old_dirfd o new_dirfd n)
    else pfail ENOENT;; mret (-1)
  else pfail ENOENT;; mret (-1).

Definition link (old new : list Z) : PM Z :=
  with_relpaths old new (fun ofd o nfd n => __wasilibc_nocwd_linkat ofd o nfd n 0).

Definition rename (old new : list Z) : PM Z := with_relpaths old new __wasilibc_nocwd_renameat.

Definition __wasilibc_link (oldpath newpath : list Z) (flags : Z) : PM Z :=
  '(old_dirfd, old_relative_path) ← find_relpath oldpath;
  '(new_dirfd, new_relative_path) ← find_relpath newpath;
  if (old_dirfd =? -1) || (new_dirfd =? -1) then pfail ENOENT;; mret (-1) else
  o ← deref old_relative_path;
  n ← deref new_relative_path;
  pcall (__wasilibc_nocwd_linkat old_dirfd o new_dirfd n flags).

Definition __wasilibc_link_oldat (olddirfd : Z) (oldpath newpath : list Z) (flags : Z) : PM Z :=
  with_relpath (-1) newpath (fun new_dirfd n => __wasilibc_nocwd_linkat olddirfd oldpath new_dirfd n flags).

Definition __wasilibc_link_newat (oldpath : list Z) (newdirfd : Z) (newpath : list Z) (flags : Z) : PM Z :=
  with_relpath (-1) oldpath (fun old_dirfd o => __wasilibc_nocwd_linkat old_dirfd o newdirfd newpath flags).

Definition __wasilibc_rename_oldat (fromdirfd : Z) (from to : list Z) : PM Z :=
  with_relpath (-1) to (fun to_dirfd t => __wasilibc_nocwd_renameat fromdirfd from to_dirfd t).

Definition __wasilibc_rename_newat (from : list Z) (todirfd : Z) (to : list Z) : PM Z :=
  with_relpath (-1) from (fun from_dirfd f => __wasilibc_nocwd_renameat from_dirfd f todirfd to).

(** ** [at_fdcwd.c] *)

Definition to_cwd (dirfd : Z) (path : list Z) : bool := (dirfd =? AT_FDCWD) || (at_ path 0 =? slash).

Definition openat (dirfd : Z) (pathname : list Z) (flags : Z) : PM Z :=
  if to_cwd dirfd pathname then open pathname flags
  else pcall (__wasilibc_nocwd_openat_nomode dirfd pathname flags).

Definition symlinkat (target : list Z) (dirfd : Z) (linkpath : list Z) : PM Z :=
  if to_cwd dirfd linkpath then symlink target linkpath
  else pcall (__wasilibc_nocwd_symlinkat target dirfd linkpath).

Definition readlinkat (dirfd : Z) (pathname : list Z) (bufsiz : Z) : PM (Z * list Z) :=
  if to_cwd dirfd pathname then readlink pathname bufsiz
  else pcall (__wasilibc_nocwd_readlinkat dirfd pathname bufsiz).

Definition mkdirat (dirfd : Z) (pathname : list Z) : PM Z :=
  if to_cwd dirfd pathname then mkdir pathname
  else pcall (__wasilibc_nocwd_mkdirat_nomode dirfd pathname).

Definition faccessat (dirfd : Z) (pathname : list Z) (mode flags : Z) : PM Z :=
  if to_cwd dirfd pathname then __wasilibc_access pathname mode flags
  else pcall (__wasilibc_nocwd_faccessat dirfd pathname mode flags).

Definition fstatat (dirfd : Z) (pathname : list Z) (flags : Z) : PM (Z * option stat) :=
  if to_cwd dirfd pathname then __wasilibc_stat pathname flags
  else pcall (__wasilibc_nocwd_fstatat dirfd pathname flags).

Definition utimensat (dirfd : Z) (pathname : list Z) (times : option (timespec * timespec)) (flags : Z) : PM Z :=
  if to_cwd dirfd pathname then __wasilibc_utimens pathname times flags
  else pcall (__wasilibc_nocwd_utimensat dirfd pathname times flags).

Definition linkat (olddirfd : Z) (oldpath : list Z) (newdirfd : Z) (newpath : list Z) (flags : Z) : PM Z :=
  if to_cwd olddirfd oldpath && to_cwd newdirfd newpath then __wasilibc_link oldpath newpath flags
  else if to_cwd olddirfd oldpath then __wasilibc_link_newat oldpath newdirfd newpath flags
  else if to_cwd newdirfd newpath then __wasilibc_link_oldat olddirfd oldpath newpath flags
  else pcall (__wasilibc_nocwd_linkat olddirfd oldpath newdirfd newpath flags).

Definition renameat (olddirfd : Z) (oldpath : list Z) (newdirfd : Z) (newpath : list Z) : PM Z :=
  if to_cwd olddirfd oldpath && to_cwd newdirfd newpath then rename oldpath newpath
  else if to_cwd olddirfd oldpath then __wasilibc_rename_newat oldpath newdirfd newpath
  else if to_cwd newdirfd newpath then __wasilibc_rename_oldat olddirfd oldpath newpath
  else pcall (__wasilibc_nocwd_renameat olddirfd oldpath newdirfd newpath).

Definition __wasilibc_unlinkat (dirfd : Z) (path : list Z) : PM Z :=
  if to_cwd dirfd path then unlink path
  else pcall (__wasilibc_nocwd___wasilibc_unlinkat dirfd path).

Definition __wasilibc_rmdirat (dirfd : Z) (path : list Z) : PM Z :=
  if to_cwd dirfd path then rmdir path
  else pcall (__wasilibc_nocwd___wasilibc_rmdirat dirfd path).

Definition unlinkat (fd : Z) (path : list Z) (flag : Z) : PM Z :=
  if has flag AT_REMOVEDIR then __wasilibc_rmdirat fd path else __wasilibc_unlinkat fd path.

(** ** [chdir] ([chdir.c]) *)

(** The size of the block for the new working directory and the string built
    in it. *)
Definition new_cwd_size (abs rel : list Z) : Z :=
  let abs_len := Z.of_nat (length abs) in
  let copy_relative := negb (bool_decide (rel = [dot])) in
  let mid := copy_relative && negb (at_ abs 0 =? 0) in
  w32 (1 + abs_len + (if mid then 1 else 0) + (if copy_relative then Z.of_nat (length rel) else 0) + 1).
Definition new_cwd (abs rel : list Z) : list Z :=
  let copy_relative := negb (bool_decide (rel = [dot])) in
  let mid := copy_relative && negb (at_ abs 0 =? 0) in
  [slash] ++ abs ++ (if mid then [slash] else []) ++ (if copy_relative then rel else []).

Definition chdir_legacy (path : list Z) : PM Z :=
  '(parent_fd, abs) ← find_relpath_alloc threaded path CHDIR;
  if parent_fd =? -1 then mret (-1) else
  s ← get;
  relative_buf ← deref (bptr (bufs s CHDIR));
  '(ret, dirinfo) ← fstatat parent_fd relative_buf 0;
  match dirinfo with
  | None => mret (-1)
  | Some dirinfo =>
      if negb (S_ISDIR (st_mode dirinfo)) then pfail ENOTDIR;; mret (-1) else
      n ← malloc_strcpy (new_cwd_size abs relative_buf) (new_cwd abs relative_buf);
      match n with
      | None => pfail ENOMEM;; mret (-1)
      | Some n =>
          __wasilibc_cwd_lock threaded;;
          modify (fun s => set_cwd (Some n) true (cwd_is_synced s) s);;
          __wasilibc_cwd_unlock threaded;;
          mret 0
      end
  end.

Definition chdir (path : list Z) : PM Z :=
  r ← chdir_legacy path;
  if negb (r =? 0) then mret (-1) else
  error ← pcall (host (wasi_chdir path));
  if negb (error =? 0) then pfail error;; mret (-1) else mret 0.

End Posix.
