(* ===== verification/AtProofs.v ===== *)
(** What the path functions of [At] promise: the host calls they amount to, on
    the directory and relative path found for a path ([host_call],
    [path_calls_spec]), on two paths at once without mixing them up; and the
    working directory follows [chdir]. *)
From S2P Require Import Prelude.
From S2P Require Import Wasi.
From S2P Require Import Unistd.
From S2P Require Import TimeConv.
From S2P Require Import Paths.
From S2P Require Import PathsProofs.
From S2P Require Import PathsResolve.
From S2P Require Import At.

(** ** Rights *)

(** The rights that only a readable, and only a writable, descriptor has. *)
Definition READ_RIGHTS : Z := Z.lor RIGHTS_FD_READ RIGHTS_FD_READDIR.
Definition WRITE_RIGHTS : Z :=
  Z.lor RIGHTS_FD_DATASYNC (Z.lor RIGHTS_FD_WRITE (Z.lor RIGHTS_FD_ALLOCATE RIGHTS_FD_FILESTAT_SET_SIZE)).

(** A file opened without the read (write) flag never has a right to read
    (write) requested for it, one opened with it has all of them requested;
    every other right is requested; and an access mode that combines flags
    otherwise is refused. *)
Theorem open_rights_spec oflag i : 0 <= i < 64 ->
  match open_rights oflag with
  | Some max =>
      Z.testbit max i =
        if Z.testbit READ_RIGHTS i then has oflag O_RDONLY && negb (has oflag O_EXEC) && negb (has oflag O_SEARCH)
        else if Z.testbit WRITE_RIGHTS i then has oflag O_WRONLY && negb (has oflag O_EXEC) && negb (has oflag O_SEARCH)
        else true
  | None => ~ (Z.land oflag O_ACCMODE = O_RDONLY \/ Z.land oflag O_ACCMODE = O_WRONLY \/
               Z.land oflag O_ACCMODE = O_RDWR \/ Z.land oflag O_ACCMODE = O_EXEC \/
               Z.land oflag O_ACCMODE = O_SEARCH)
  end.
Proof.
  intros Hi.
  assert (Hhas : forall m, Z.land O_ACCMODE m = m -> has oflag m = has (Z.land oflag O_ACCMODE) m).
  { intros m Hm. unfold has. by rewrite <- Z.land_assoc, Hm. }
  rewrite !(Hhas O_RDONLY), !(Hhas O_WRONLY), !(Hhas O_EXEC), !(Hhas O_SEARCH) by reflexivity.
  unfold open_rights. rewrite !(Hhas O_RDONLY), !(Hhas O_WRONLY) by reflexivity.
  set (mode := Z.land oflag O_ACCMODE). clearbody mode.
  unfold O_ACCMODE in mode.
  assert (Hbits : forall a b c, forallb (fun i => eqb (Z.testbit a i)
      (if Z.testbit READ_RIGHTS i then b else if Z.testbit WRITE_RIGHTS i then c else true)) (seqZ 0 64) = true ->
    Z.testbit a i = if Z.testbit READ_RIGHTS i then b else if Z.testbit WRITE_RIGHTS i then c else true).
  { intros a b c Hf. apply eqb_true_iff. rewrite List.forallb_forall in Hf.
    apply (Hf i). apply list_elem_of_In, elem_of_seqZ. lia. }
  destruct (Z.eqb_spec mode O_RDONLY) as [->|H1]; [by apply Hbits|].
  destruct (Z.eqb_spec mode O_RDWR) as [->|H2]; [by apply Hbits|].
  destruct (Z.eqb_spec mode O_WRONLY) as [->|H3]; [by apply Hbits|].
  cbn [orb]. destruct (Z.eqb_spec mode O_EXEC) as [->|H4]; [by apply Hbits|].
  destruct (Z.eqb_spec mode O_SEARCH) as [->|H5]; [by apply Hbits|]. tauto.
Qed.

Section Proofs.
  Context {W : Type} `{WasiFd W, WasiPath W, Alloc W}.
  Variable threaded : bool.

Abbreviation st := (pstate W).

(** ** One path *)

(** What a function with one path has before it runs. *)
Record ready (s : st) (c : list Z) : Prop := {
  rd_settled : settled s c;
  rd_bufs : bufs_ok (bufs s) (heap s) }.

Lemma ready_with s c f h e : ready s c -> bufs_ok f h -> ready (with_bufs f h e s) c.
Proof. intros [[] _] Hok. split; [by split|done]. Qed.

Lemma ready_env f h e e' s c : ready (with_bufs f h e s) c -> ready (with_bufs f h e' s) c.
Proof. intros [[] Hok]. split; [by split|exact Hok]. Qed.

(** [find_relpath_alloc] as the searches of [posix.c] see it: the pointer
    stored is the buffer's. *)
Lemma find_Ret path b (s : st) c : ready s c -> b <> ABS -> Z.of_nat (length c + length path) < 2 ^ 31 ->
  exists v abs f h e,
    ('(fd, _) ← find_relpath_alloc threaded path b; s ← get; mret (fd, bptr (bufs s b))) s =
      Ret ((v, bptr (f b)), with_bufs f h e s) /\
    ready (with_bufs f h e s) c /\ mallocs (world (penv s)) (world e) /\
    (forall b', b' <> b -> b' <> ABS -> f b' = bufs s b' /\ content f h b' = content (bufs s) (heap s) b') /\
    kept_or_gone (bptr (bufs s b)) (bptr (f b)) h /\ resolved s b (absolutize c path) v abs f h e.
Proof.
  intros [Hset Hok] Hb Hlen.
  destruct (find_relpath_alloc_Ret threaded path b s c Hset Hok Hb Hlen) as (v & abs & f & h & e & Hrun & Hok' & Hms & Hfr & Hmv & Hres).
  exists v, abs, f, h, e. split; [mnext_by Hrun; by mnext|]. split; [by apply ready_with|]. done.
Qed.

(** A function with one path: the operation on what the path resolves to, or
    [ENOENT] because it does not or memory was denied. *)
Definition relpath_run {A} (bad : A) path (k : Z -> list Z -> M (env W) A) (s : st) c (m : M (pstate W) A) : Prop :=
  exists s', ready s' c /\ preopens s' = preopens s /\ mallocs (world (penv s)) (world (penv s')) /\
    ((exists fd abs rel, resolve (preopens s) (absolutize c path) = Some (fd, abs, rel) /\ m s = pcall (k fd rel) s') \/
     (errno (penv s') = ENOENT /\ m s = Ret (bad, s') /\
      (resolve (preopens s) (absolutize c path) = None \/ denied (world (penv s'))))).

Lemma with_relpath_Ret {A} (bad : A) path k (s : st) c :
  ready s c -> Z.of_nat (length c + length path) < 2 ^ 31 -> relpath_run bad path k s c (with_relpath threaded bad path k).
Proof.
  intros Hr Hlen. destruct (find_Ret path REL s c Hr ltac:(done) Hlen) as (v & abs & f & h & e & Hrun & Hr' & Hms & _ & _ & Hres).
  assert (Hbad : v = -1 -> with_relpath threaded bad path k s = Ret (bad, with_bufs f h (Env ENOENT (world e)) s)).
  { intros ->. mnext_by Hrun. by destruct s. }
  assert (Hfail : v = -1 -> resolve (preopens s) (absolutize c path) = None \/ denied (world e) -> relpath_run bad path k s c (with_relpath threaded bad path k)).
  { intros Hv Hwhy. exists (with_bufs f h (Env ENOENT (world e)) s). split; [by eapply ready_env|]. split; [done|]. split; [done|].
    right. split; [done|]. split; [by apply Hbad|done]. }
  destruct Hres as [(Hv & _ & Hden)|Hres]; [apply Hfail; [done|by right]|].
  destruct (resolve _ _) as [[[fd pre] rel]|] eqn:Er; [|apply Hfail; [by destruct Hres|by left]].
  destruct Hres as (-> & -> & Hc). exists (with_bufs f h e s). split; [done|]. split; [done|]. split; [done|]. left. exists fd, pre, rel.
  split; [done|]. apply resolve_fd in Er as Hfd. mnext_by Hrun. destruct (Z.eqb_spec fd (-1)); [done|].
  by mnext_by (deref_Ret (with_bufs f h e s) REL rel Hc).
Qed.

(** ** The calls with one path *)

(** A path relative to the working directory (the POSIX functions) or to a
    descriptor (the [*at] functions), and what is done with it. *)
Inductive via := Plain | From (dirfd : Z).
Inductive request :=
  | Mkdir | Unlink | Rmdir | Symlink (target : list Z) | Readlink (n : Z)
  | Status (follow : bool) | Access (mode : Z) | Open (oflag : Z).
Inductive answer := Result (v : Z) | Bytes (v : Z) (l : list Z) | Stat_ (v : Z) (st : option stat).

(** The answer of a function of the library. *)
Definition answering {S A} (F : A -> answer) (m : M S A) : M S answer := r ← m; mret (F r).
Definition bytes_answer '((v, l) : Z * list Z) : answer := Bytes v l.
Definition stat_answer '((v, st) : Z * option stat) : answer := Stat_ v st.

(** The function a request stands for. *)
Definition perform (v : via) (q : request) (path : list Z) : M (pstate W) answer :=
  match q, v with
  | Mkdir, Plain => answering Result (mkdir threaded path)
  | Mkdir, From d => answering Result (mkdirat threaded d path)
  | Unlink, Plain => answering Result (unlink threaded path)
  | Unlink, From d => answering Result (unlinkat threaded d path 0)
  | Rmdir, Plain => answering Result (rmdir threaded path)
  | Rmdir, From d => answering Result (unlinkat threaded d path AT_REMOVEDIR)
  | Symlink t, Plain => answering Result (symlink threaded t path)
  | Symlink t, From d => answering Result (symlinkat threaded t d path)
  | Readlink n, Plain => answering bytes_answer (readlink threaded path n)
  | Readlink n, From d => answering bytes_answer (readlinkat threaded d path n)
  | Status true, Plain => answering stat_answer (stat_ threaded path)
  | Status false, Plain => answering stat_answer (lstat threaded path)
  | Status follow, From d => answering stat_answer (fstatat threaded d path (if follow then 0 else AT_SYMLINK_NOFOLLOW))
  | Access mode, Plain => answering Result (access threaded path mode)
  | Access mode, From d => answering Result (faccessat threaded d path mode 0)
  | Open oflag, Plain => answering Result (open threaded path oflag)
  | Open oflag, From d => answering Result (openat threaded d path oflag)
  end.

(** What a request answers when it fails. *)
Definition failed (q : request) : answer :=
  match q with Readlink _ => Bytes (-1) [] | Status _ => Stat_ (-1) None | _ => Result (-1) end.

(** The bits of a word that pass a test. *)
Definition keep_bits (f : Z -> bool) (x : Z) : Z :=
  foldr (fun i acc => if f i && Z.testbit x i then Z.lor (2 ^ i) acc else acc) 0 (seqZ 0 64).

(** The rights to ask for: reading (bits 1 and 14) if the file is opened for
    reading (flag bit 26), writing (bits 0, 6, 8 and 22) if for writing (bit 28),
    and all others; nothing unless it is opened for reading or writing, or else
    for either executing (bit 25) or searching (bit 27). *)
Definition rights_wanted (oflag i : Z) : bool :=
  if decide (i ∈ [1; 14]) then Z.testbit oflag 26
  else if decide (i ∈ [0; 6; 8; 22]) then Z.testbit oflag 28 else true.
Definition mode_valid (oflag : Z) : bool :=
  let r := Z.testbit oflag 26 || Z.testbit oflag 28 in
  let x := Z.testbit oflag 25 in let search := Z.testbit oflag 27 in
  (r && negb x && negb search) || (negb r && xorb x search).

(** What the host does for a request on a directory descriptor and a path below
    it: the error (0 for none), the answer if there is none, and the host
    afterwards. *)
Definition host_call (q : request) (fd : Z) (path : list Z) (w : W) : Z * answer * W :=
  match q with
  | Mkdir => let '(er, w) := wasi_path_create_directory fd path w in (er, Result 0, w)
  | Unlink => let '(er, w) := wasi_path_unlink_file fd path w in (er, Result 0, w)
  | Rmdir => let '(er, w) := wasi_path_remove_directory fd path w in (er, Result 0, w)
  | Symlink t => let '(er, w) := wasi_path_symlink t fd path w in (er, Result 0, w)
  | Readlink n => let '(er, l, w) := wasi_path_readlink fd path n w in (er, Bytes (s32 (Z.of_nat (length l))) l, w)
  | Status follow =>
      let '(er, st, w) := wasi_path_filestat_get fd (if follow then 1 else 0) path w in
      (er, Stat_ 0 (Some (to_public_stat st)), w)
  | Access mode =>
      if decide (Z.land mode (Z.lnot 7) <> 0) then (EINVAL, Result 0, w) else
      let '(er, file, w) := wasi_path_filestat_get fd 1 path w in
      if decide (er <> 0 \/ mode = 0) then (er, Result 0, w) else
      let '(er, dir, w) := wasi_fd_fdstat_get fd w in
      let granted := Z.testbit (fs_rights_inheriting dir) in
      let lacking := (Z.testbit mode 2 && negb (granted (if fst_filetype file =? 3 then 14 else 1)))
                     || (Z.testbit mode 1 && negb (granted 6)) in
      (if decide (er <> 0) then er else if lacking then EACCES else 0, Result 0, w)
  | Open oflag =>
      if negb (mode_valid oflag) then (EINVAL, Result 0, w) else
      let '(er, st, w) := wasi_fd_fdstat_get fd w in
      if decide (er <> 0) then (er, Result 0, w) else
      let '(er, newfd, w) :=
        wasi_path_open2 fd (if Z.testbit oflag 24 then 0 else 1) path (oflag / 2 ^ 12 mod 2 ^ 12)
          (keep_bits (rights_wanted oflag) (fs_rights_inheriting st)) (fs_rights_inheriting st)
          (oflag mod 2 ^ 12) (oflag / 2 ^ 30 mod 2 ^ 2) w in
      (er, Result newfd, w)
  end.

(** The descriptor of a request that needs no resolution. *)
Definition direct (v : via) (path : list Z) : option Z :=
  match v with
  | Plain => None
  | From d => if decide (d = -2 \/ head path = Some slash) then None else Some d
  end.

Lemma testbit_keep f x l j : Forall (fun i => 0 <= i) l -> 0 <= j ->
  Z.testbit (foldr (fun i acc => if f i && Z.testbit x i then Z.lor (2 ^ i) acc else acc) 0 l) j =
    bool_decide (j ∈ l) && f j && Z.testbit x j.
Proof.
  intros Hl Hj. induction l as [|i l IH]; cbn [foldr]; [by rewrite Z.bits_0|]. apply Forall_cons in Hl as [Hi Hl].
  rewrite (bool_decide_ext (j ∈ i :: l) (j = i \/ j ∈ l)) by apply elem_of_cons.
  rewrite bool_decide_or. destruct (decide (j = i)) as [->|Hne].
  - rewrite (bool_decide_eq_true_2 (i = i)) by done. cbn [orb andb].
    destruct (f i && Z.testbit x i) eqn:Hf; [by rewrite Z.lor_spec, Z.pow2_bits_true|].
    rewrite IH by done. by rewrite <- andb_assoc, Hf, andb_false_r.
  - rewrite (bool_decide_eq_false_2 (j = i)) by done. cbn [orb].
    destruct (f i && Z.testbit x i); [|by apply IH]. rewrite Z.lor_spec, Z.pow2_bits_false by congruence. by apply IH.
Qed.

Lemma testbit_keep_bits f x j : 0 <= j -> Z.testbit (keep_bits f x) j = bool_decide (j < 64) && f j && Z.testbit x j.
Proof.
  intros Hj. unfold keep_bits. rewrite testbit_keep; [|apply Forall_forall; intros i Hi%elem_of_seqZ; lia|done].
  do 2 f_equal. apply bool_decide_ext. rewrite elem_of_seqZ. lia.
Qed.

(** Masking with bits that another word has to have. *)
Lemma land_all m x : Z.land m x = m <-> (forall i, 0 <= i -> Z.testbit m i = true -> Z.testbit x i = true).
Proof.
  split.
  - intros Heq i Hi Hm. rewrite <- Heq, Z.land_spec, andb_true_iff in Hm. tauto.
  - intros Hall. apply Z.bits_inj'. intros i Hi. rewrite Z.land_spec.
    destruct (Z.testbit m i) eqn:Hm; [|done]. by rewrite (Hall i Hi Hm).
Qed.
Lemma land_bit k x : 0 <= k -> (Z.land (2 ^ k) x =? 2 ^ k) = Z.testbit x k.
Proof.
  intros Hk. apply eq_bool_prop_intro. rewrite !Is_true_true, Z.eqb_eq, land_all. split.
  - intros Hall. by apply Hall, Z.pow2_bits_true.
  - intros Hx i Hi. rewrite Z.pow2_bits_eqb by done. by intros ->%Z.eqb_eq.
Qed.
Lemma land_or a b x : (Z.land (Z.lor a b) x =? Z.lor a b) = (Z.land a x =? a) && (Z.land b x =? b).
Proof.
  apply eq_bool_prop_intro. rewrite !Is_true_true, andb_true_iff, !Z.eqb_eq, !land_all. split.
  - intros Hall. split; intros i Hi Hb; apply Hall; try done; rewrite Z.lor_spec, Hb; [done|by rewrite orb_true_r].
  - intros [Ha Hb] i Hi. rewrite Z.lor_spec. intros [?|?]%orb_true_iff; [by apply Ha|by apply Hb].
Qed.

(** The access mode and the rights of [openat]. *)
Lemma land_pow2 x k : 0 <= k -> Z.land x (2 ^ k) = if Z.testbit x k then 2 ^ k else 0.
Proof.
  intros Hk. apply Z.bits_inj'. intros i Hi. rewrite Z.land_spec, Z.pow2_bits_eqb by done.
  destruct (Z.eqb_spec k i) as [->|Hne].
  - destruct (Z.testbit x i) eqn:Hx; [by rewrite Z.pow2_bits_true|by rewrite Z.bits_0].
  - rewrite andb_false_r. destruct (Z.testbit x k); [by rewrite Z.pow2_bits_false|by rewrite Z.bits_0].
Qed.

Lemma accmode_bits oflag : Z.land oflag O_ACCMODE =
  Z.lor (if Z.testbit oflag 25 then 2 ^ 25 else 0) (Z.lor (Z.lor (if Z.testbit oflag 26 then 2 ^ 26 else 0)
    (if Z.testbit oflag 28 then 2 ^ 28 else 0)) (if Z.testbit oflag 27 then 2 ^ 27 else 0)).
Proof. rewrite <- !land_pow2 by done. by rewrite <- !Z.land_lor_distr_r. Qed.

Lemma mask_bits m r w inh : 0 <= m < 2 ^ 64 ->
  forallb (fun i => eqb (Z.testbit m i) (if decide (i ∈ [1; 14]) then r else if decide (i ∈ [0; 6; 8; 22]) then w else true))
    (seqZ 0 64) = true ->
  Z.land m inh = keep_bits (fun i => if decide (i ∈ [1; 14]) then r else if decide (i ∈ [0; 6; 8; 22]) then w else true) inh.
Proof.
  intros Hm Hf. apply Z.bits_inj'. intros i Hi. rewrite Z.land_spec, testbit_keep_bits by done.
  destruct (Z.lt_ge_cases i 64) as [Hlt|Hge].
  - rewrite bool_decide_eq_true_2 by done. rewrite List.forallb_forall in Hf.
    specialize (Hf i ltac:(apply list_elem_of_In, elem_of_seqZ; lia)). by apply eqb_true_iff in Hf as ->.
  - rewrite bool_decide_eq_false_2 by lia. rewrite <- (Z.mod_small m (2 ^ 64)) by lia. by rewrite Z.mod_pow2_bits_high by lia.
Qed.

Lemma open_rights_mode oflag :
  match open_rights oflag with
  | Some m => mode_valid oflag = true /\ forall inh, Z.land m inh = keep_bits (rights_wanted oflag) inh
  | None => mode_valid oflag = false
  end.
Proof.
  unfold open_rights. rewrite accmode_bits. change O_RDONLY with (2 ^ 26). change O_WRONLY with (2 ^ 28).
  rewrite !has_bit by done. unfold mode_valid, rights_wanted.
  destruct (Z.testbit oflag 25), (Z.testbit oflag 26), (Z.testbit oflag 27), (Z.testbit oflag 28);
    cbn -[Z.land Z.lor Z.lnot w64 keep_bits]; first [done|split; [done|intros inh; apply mask_bits; [by vm_compute|by vm_compute]]].
Qed.

(** What a request runs on its directory. *)
Definition operation (q : request) (fd : Z) (path : list Z) : M (env W) answer :=
  match q with
  | Mkdir => answering Result (__wasilibc_nocwd_mkdirat_nomode fd path)
  | Unlink => answering Result (__wasilibc_nocwd___wasilibc_unlinkat fd path)
  | Rmdir => answering Result (__wasilibc_nocwd___wasilibc_rmdirat fd path)
  | Symlink t => answering Result (__wasilibc_nocwd_symlinkat t fd path)
  | Readlink n => answering bytes_answer (__wasilibc_nocwd_readlinkat fd path n)
  | Status follow => answering stat_answer (__wasilibc_nocwd_fstatat fd path (if follow then 0 else AT_SYMLINK_NOFOLLOW))
  | Access mode => answering Result (__wasilibc_nocwd_faccessat fd path mode 0)
  | Open oflag => answering Result (__wasilibc_nocwd_openat_nomode fd path oflag)
  end.

Definition host_ends (q : request) (fd : Z) (path : list Z) (e : env W) : answer * env W :=
  let '(er, a, w) := host_call q fd path (world e) in
  if decide (er = 0) then (a, Env (errno e) w) else (failed q, Env er w).

Lemma ret_errno_Ret er (e : env W) : ret_errno er e = if decide (er = 0) then Ret (0, e) else Ret (-1, Env er (world e)).
Proof. unfold ret_errno. case_decide as Her; [by subst|]. by rewrite (proj2 (Z.eqb_neq er 0)). Qed.

Lemma faccessat_Ret mode fd path e : operation (Access mode) fd path e = Ret (host_ends (Access mode) fd path e).
Proof.
  unfold host_ends, operation, answering, __wasilibc_nocwd_faccessat. cbn [host_call].
  change (Z.lnot (Z.lor F_OK (Z.lor R_OK (Z.lor W_OK X_OK)))) with (Z.lnot 7). 
  change (has 0 (Z.lnot AT_EACCESS)) with false. rewrite orb_false_r. unfold has at 1. 
  destruct (Z.eqb_spec (Z.land mode (Z.lnot 7)) 0) as [Hz|Hz]; cbn [negb]; [rewrite decide_False by tauto|by rewrite decide_True].
  unfold mbind, M_bind, host. destruct (wasi_path_filestat_get fd SYMLINK_FOLLOW path (world e)) as [[er file] w] eqn:Est.
  change SYMLINK_FOLLOW with 1 in Est. rewrite Est.
  destruct (Z.eqb_spec er 0) as [->|Her]; cbn [negb]; [|by rewrite decide_True, decide_False by tauto].
  destruct (Z.eqb_spec mode 0) as [->|Hm]; cbn [negb]; [by rewrite decide_True by tauto|].
  rewrite decide_False by tauto. cbn [world].
  destruct (wasi_fd_fdstat_get fd w) as [[er dir] w'].
  destruct (Z.eqb_spec er 0) as [->|Her]; cbn [negb]; [|by rewrite !(decide_True (P := er <> 0)), decide_False by done].
  rewrite (decide_False (P := 0 <> 0)) by tauto. rewrite land_or.
  change R_OK with (2 ^ 2). change W_OK with (2 ^ 1). rewrite !has_bit by done.
  change (filetype_code FT_DIRECTORY) with 3.
  change RIGHTS_FD_READDIR with (2 ^ 14). change RIGHTS_FD_READ with (2 ^ 1). change RIGHTS_FD_WRITE with (2 ^ 6).
  destruct (Z.testbit mode 2), (Z.testbit mode 1), (fst_filetype file =? 3); cbn [andb orb];
    rewrite ?land_bit, ?Z.land_0_l by done; cbn [andb orb Z.eqb];
    repeat match goal with |- context [Z.testbit (fs_rights_inheriting dir) ?k] => destruct (Z.testbit (fs_rights_inheriting dir) k) end;
    reflexivity.
Qed.

Lemma openat_Ret oflag fd path e : operation (Open oflag) fd path e = Ret (host_ends (Open oflag) fd path e).
Proof.
  unfold host_ends, operation, answering, __wasilibc_nocwd_openat_nomode. cbn [host_call].
  pose proof (open_rights_mode oflag) as Hmode. destruct (open_rights oflag) as [m|]; [destruct Hmode as [-> Hm]|by rewrite Hmode].
  cbn [negb]. unfold mbind, M_bind, host. destruct (wasi_fd_fdstat_get fd (world e)) as [[er st] w].
  destruct (Z.eqb_spec er 0) as [->|Her]; cbn [negb]; [|by rewrite (decide_True (P := er <> 0)), decide_False by done].
  rewrite (decide_False (P := 0 <> 0)) by tauto. change O_NOFOLLOW with (2 ^ 24). rewrite has_bit, Hm by done. cbn [world].
  change SYMLINK_FOLLOW with 1. change 4095 with (Z.ones 12). change 3 with (Z.ones 2).
  rewrite !Z.land_ones, !Z.shiftr_div_pow2 by done.
  destruct (wasi_path_open2 fd _ path _ _ _ _ _ w) as [[er newfd] w'].
  by destruct (Z.eqb_spec er 0) as [->|Her]; cbn [negb]; [|rewrite decide_False by done].
Qed.

Lemma operation_Ret q fd path e : operation q fd path e = Ret (host_ends q fd path e).
Proof.
  destruct q; [..|apply faccessat_Ret|apply openat_Ret];
    unfold host_ends, operation, answering; cbn [host_call];
    unfold __wasilibc_nocwd_mkdirat_nomode, __wasilibc_nocwd___wasilibc_unlinkat, __wasilibc_nocwd___wasilibc_rmdirat,
      __wasilibc_nocwd_symlinkat, __wasilibc_nocwd_readlinkat, __wasilibc_nocwd_fstatat, host, mbind, M_bind.
  1-4: match goal with |- context [let '(er, w) := ?f in _] => destruct f as [er w] end; rewrite ret_errno_Ret; by case_decide.
  - destruct (wasi_path_readlink fd path n (world e)) as [[er l] w].
    destruct (Z.eqb_spec er 0) as [->|Her]; cbn [negb]; [done|by rewrite decide_False].
  - assert (Hf : (if has (if follow then 0 else AT_SYMLINK_NOFOLLOW) AT_SYMLINK_NOFOLLOW then 0 else SYMLINK_FOLLOW) =
      if follow then 1 else 0) by (by destruct follow).
    rewrite Hf. destruct (wasi_path_filestat_get fd _ path (world e)) as [[er st] w].
    destruct (Z.eqb_spec er 0) as [->|Her]; cbn [negb]; [done|by rewrite decide_False].
Qed.

(** Every function with one path is its operation behind the resolution, or on
    the descriptor. *)
Lemma answering_relpath {A} (F : A -> answer) bad path k (s : st) :
  answering F (with_relpath threaded bad path k) s = with_relpath threaded (F bad) path (fun fd rel => answering F (k fd rel)) s.
Proof.
  unfold answering, with_relpath, mbind, M_bind. destruct (find_relpath threaded path s) as [[[d p] s1]|]; [|done].
  destruct (d =? -1); [done|]. destruct (deref p s1) as [[rel s2]|]; [|done].
  unfold pcall. by destruct (k d rel (penv s2)) as [[]|].
Qed.
Lemma answering_pcall {A} (F : A -> answer) (m : M (env W) A) (s : st) : answering F (pcall m) s = pcall (answering F m) s.
Proof. unfold answering, pcall, mbind, M_bind. by destruct (m (penv s)) as [[]|]. Qed.

Lemma to_cwd_spec d path : to_cwd d path = bool_decide (d = -2 \/ head path = Some slash).
Proof.
  unfold to_cwd, AT_FDCWD. rewrite bool_decide_or. f_equal.
  - destruct (Z.eqb_spec d (-2)); [by rewrite bool_decide_eq_true_2|by rewrite bool_decide_eq_false_2].
  - pose proof (head_at path slash ltac:(done)). destruct (Z.eqb_spec (at_ path 0) slash);
      [rewrite bool_decide_eq_true_2; tauto|rewrite bool_decide_eq_false_2; tauto].
Qed.

Lemma perform_runs v q path (s : st) : perform v q path s =
  match direct v path with
  | Some d => pcall (operation q d path) s
  | None => with_relpath threaded (failed q) path (operation q) s
  end.
Proof.
  destruct v as [|d].
  { destruct q as [| | | | | [] | |]; cbn [perform direct]; (etransitivity; [apply answering_relpath|reflexivity]). }
  cbn [direct]. pose proof (to_cwd_spec d path) as Hto.
  destruct (to_cwd d path) eqn:Hc; symmetry in Hto;
    [apply bool_decide_eq_true in Hto; rewrite decide_True by done|apply bool_decide_eq_false in Hto; rewrite decide_False by done];
    destruct q as [| | | | | [] | |]; cbn [perform];
    unfold mkdirat, unlinkat, __wasilibc_unlinkat, __wasilibc_rmdirat, symlinkat, readlinkat, fstatat, faccessat, openat;
    cbn [Z.eqb has Z.land negb AT_REMOVEDIR]; rewrite ?Hc;
    (etransitivity; [first [apply answering_relpath|apply answering_pcall]|reflexivity]).
Qed.

(** C5: the calls with one path ([mkdir], [unlink], [rmdir], [symlink],
    [readlink], [stat], [lstat], [access] and [open], and their [*at] forms), once
    the working directory is known.  A path relative to a descriptor is given
    to the host as it is, on that descriptor.  Any other is resolved, which asks
    the host for memory only.  If a preopen was chosen for the absolute path, the
    host is called on its descriptor and the rest of the path, with the flags and
    rights that [host_call] states, and the call returns the host's answer, or
    its failure value and the host's error in [errno].  If not, it fails with
    [ENOENT] and the host is not called; this happens only when no preopen covers
    the path or the allocator has just denied memory. *)
Theorem path_calls_spec v q path (s : st) c :
  ready s c -> table_ok (preopens s) -> c_string c -> c_string path -> Z.of_nat (length c + length path) < 2 ^ 31 ->
  exists s1, ready s1 c /\ preopens s1 = preopens s /\ mallocs (world (penv s)) (world (penv s1)) /\
    let ends fd rel := let '(a, e) := host_ends q fd rel (penv s1) in perform v q path s = Ret (a, set_env e s1) in
    match direct v path with
    | Some d => s1 = s /\ ends d path
    | None =>
        (exists fd abs rel, located (preopens s) (absolutize c path) fd abs rel /\ ends fd rel) \/
        (perform v q path s = Ret (failed q, s1) /\ errno (penv s1) = ENOENT /\
         (unlocated (preopens s) (absolutize c path) \/ denied (world (penv s1))))
    end.
Proof.
  intros Hr Htab Hc Hp Hlen. rewrite perform_runs. destruct (direct v path) as [d|].
  { exists s. split; [done|]. split; [done|]. split; [done|]. cbv zeta. unfold pcall. rewrite operation_Ret. by destruct (host_ends q d path (penv s)). }
  pose proof (resolve_located (preopens s) _ Htab (absolutize_string c path Hc Hp)) as Hloc.
  destruct (with_relpath_Ret (failed q) path (operation q) s c Hr Hlen) as (s1 & Hr1 & Hpre & Hms & Hcase).
  exists s1. split; [done|]. split; [done|]. split; [done|].
  destruct Hcase as [(fd & abs & rel & Hres & Hrun)|(Her & Hrun & Hwhy)].
  - left. exists fd, abs, rel. rewrite Hres in Hloc. split; [done|]. rewrite Hrun. unfold pcall. rewrite operation_Ret.
    by destruct (host_ends q fd rel (penv s1)).
  - right. split; [done|]. split; [done|]. destruct Hwhy as [Hres|Hden]; [left|by right]. by rewrite Hres in Hloc.
Qed.

(** ** Two paths *)

(** [rename] and [link] run their operation on the descriptors and the
    relative paths of the old and of the new path, each its own: the second
    search never disturbs the result of the first.  When either path cannot
    be resolved, or memory was denied, they fail with [ENOENT] and nothing
    runs. *)
Theorem two_paths_spec old new (s : st) c :
  ready s c -> Z.of_nat (length c + length old) < 2 ^ 31 -> Z.of_nat (length c + length new) < 2 ^ 31 ->
  exists s', ready s' c /\ preopens s' = preopens s /\
    ((exists ofd oabs orel nfd nabs nrel,
        resolve (preopens s) (absolutize c old) = Some (ofd, oabs, orel) /\
        resolve (preopens s) (absolutize c new) = Some (nfd, nabs, nrel) /\
        rename threaded old new s = pcall (__wasilibc_nocwd_renameat ofd orel nfd nrel) s' /\
        link threaded old new s = pcall (__wasilibc_nocwd_linkat ofd orel nfd nrel 0) s') \/
     (errno (penv s') = ENOENT /\ rename threaded old new s = Ret (-1, s') /\
      link threaded old new s = Ret (-1, s') /\
      (resolve (preopens s) (absolutize c old) = None \/ resolve (preopens s) (absolutize c new) = None \/
       denied (world (penv s'))))).
Proof.
  intros Hr Ho Hn. unfold rename, link.
  destruct (find_Ret old ALT s c Hr ltac:(done) Ho) as (v1 & a1 & f1 & h1 & e1 & Hrun1 & Hr1 & _ & _ & _ & Hres1).
  destruct (decide (v1 = -1)) as [->|Hv1].
  { exists (with_bufs f1 h1 (Env ENOENT (world e1)) s). split; [by eapply ready_env|]. split; [done|]. right.
    split; [done|]. split; [mnext_by Hrun1; by destruct s|]. split; [mnext_by Hrun1; by destruct s|].
    destruct Hres1 as [(_ & _ & Hden)|Hres1]; [by right; right|left].
    destruct (resolve _ _) as [[[fd pre] rel]|] eqn:Er; [|done]. destruct Hres1 as [<- _]. by apply resolve_fd in Er. }
  set (s1 := with_bufs f1 h1 e1 s) in *.
  destruct (find_Ret new REL s1 c Hr1 ltac:(done) Hn) as (v2 & a2 & f2 & h2 & e2 & Hrun2 & Hr2 & _ & Hfr & _ & Hres2).
  set (s2 := with_bufs f2 h2 e2 s1) in *. unfold resolved in Hres1, Hres2. change (preopens s1) with (preopens s) in Hres2.
  destruct (decide (v2 = -1)) as [->|Hv2].
  { exists (with_bufs f2 h2 (Env ENOENT (world e2)) s1). split; [by eapply ready_env|]. split; [done|]. right.
    split; [done|]. split; [|split; [|right]].
    1-2: mnext_by Hrun1; destruct (Z.eqb_spec v1 (-1)); [done|]; cbn [negb]; by mnext_by Hrun2.
    destruct Hres2 as [(_ & _ & Hden)|Hres2]; [by right|left].
    destruct (resolve _ (absolutize c new)) as [[[fd pre] rel]|] eqn:Er; [|done]. destruct Hres2 as [<- _]. by apply resolve_fd in Er. }
  exists s2. split; [done|]. split; [done|]. left.
  destruct Hres1 as [[? _]|Hres1]; [done|]. destruct Hres2 as [[? _]|Hres2]; [done|].
  destruct (resolve (preopens s) (absolutize c old)) as [[[ofd oabs] orel]|]; [|by destruct Hres1].
  destruct (resolve (preopens s) (absolutize c new)) as [[[nfd nabs] nrel]|]; [|by destruct Hres2].
  destruct Hres1 as (-> & _ & Hc1). destruct Hres2 as (-> & _ & Hc2).
  exists ofd, oabs, orel, nfd, nabs, nrel. split; [done|]. split; [done|].
  destruct (Hfr ALT ltac:(done) ltac:(done)) as [Hb Hcont].
  assert (Hp : bptr (f1 ALT) = bptr (bufs s2 ALT)) by (change (bptr (f1 ALT) = bptr (f2 ALT)); by rewrite Hb).
  assert (Hc1' : content (bufs s2) (heap s2) ALT = Some orel) by (change (content f2 h2 ALT = Some orel); by rewrite Hcont).
  split; (mnext_by Hrun1; destruct (Z.eqb_spec ofd (-1)); [done|]; cbn [negb];
    mnext_by Hrun2; destruct (Z.eqb_spec nfd (-1)); [done|]; cbn [negb];
    rewrite Hp; mnext_by (deref_Ret s2 ALT orel Hc1'); mnext_by (deref_Ret s2 REL nrel Hc2); done).
Qed.

(** [__wasilibc_link] (that is, [linkat] with two working-directory or
    absolute paths) resolves both paths into the same buffer: whenever both
    resolve, the old path is lost - the pointer to it dangles if the buffer
    had to grow, and the link is made from the new path otherwise. *)
Theorem link_loses_old_path old new flags (s : st) c ofd oabs orel nfd nabs nrel :
  ready s c -> Z.of_nat (length c + length old) < 2 ^ 31 -> Z.of_nat (length c + length new) < 2 ^ 31 ->
  resolve (preopens s) (absolutize c old) = Some (ofd, oabs, orel) ->
  resolve (preopens s) (absolutize c new) = Some (nfd, nabs, nrel) ->
  exists s', __wasilibc_link threaded old new flags s = Stop Undefined \/
    (errno (penv s') = ENOENT /\ __wasilibc_link threaded old new flags s = Ret (-1, s')) \/
    __wasilibc_link threaded old new flags s = pcall (__wasilibc_nocwd_linkat ofd nrel nfd nrel flags) s'.
Proof.
  intros Hr Ho Hn Hro Hrn.
  destruct (find_Ret old REL s c Hr ltac:(done) Ho) as (v1 & a1 & f1 & h1 & e1 & Hrun1 & Hr1 & _ & _ & _ & Hres1).
  set (s1 := with_bufs f1 h1 e1 s) in *.
  destruct (find_Ret new REL s1 c Hr1 ltac:(done) Hn) as (v2 & a2 & f2 & h2 & e2 & Hrun2 & Hr2 & _ & _ & Hgone & Hres2).
  set (s2 := with_bufs f2 h2 e2 s1) in *. unfold resolved in Hres1, Hres2.
  rewrite Hro in Hres1. change (preopens s1) with (preopens s) in Hres2. rewrite Hrn in Hres2.
  unfold __wasilibc_link. change (find_relpath threaded old s = Ret (v1, bptr (f1 REL), s1)) in Hrun1.
  change (find_relpath threaded new s1 = Ret (v2, bptr (f2 REL), s2)) in Hrun2.
  rewrite (bind_Ret _ _ _ _ _ Hrun1). cbn beta iota. rewrite (bind_Ret _ _ _ _ _ Hrun2). cbn beta iota.
  destruct ((v1 =? -1) || (v2 =? -1)) eqn:Hbad.
  { exists (set_env (Env ENOENT (world e2)) s2). right. left. by split. }
  apply orb_false_iff in Hbad as [H1'%Z.eqb_neq H2'%Z.eqb_neq].
  destruct Hres1 as [[? _]|(-> & _ & Hc1)]; [done|]. destruct Hres2 as [[? _]|(-> & _ & Hc2)]; [done|].
  pose proof (deref_Ret s2 REL nrel Hc2) as Hd2. change (bptr (bufs s2 REL)) with (bptr (f2 REL)) in Hd2.
  exists s2. destruct Hgone as [Hsame|Hgone].
  - right. right. change (bptr (bufs s1 REL)) with (bptr (f1 REL)) in Hsame. rewrite Hsame.
    by rewrite (bind_Ret _ _ _ _ _ Hd2), (bind_Ret _ _ _ _ _ Hd2).
  - left. change (bptr (bufs s1 REL)) with (bptr (f1 REL)) in Hgone. unfold content in Hc1.
    destruct (bptr (f1 REL)) as [p|] eqn:Hp; [|done]. specialize (Hgone p eq_refl).
    assert (Hd1 : deref (Some p) s2 = Stop Undefined).
    { unfold deref. mnext. cbn [mbind option_bind]. change (heap s2) with h2. by rewrite Hgone. }
    cbn [mbind M_bind]. unfold mbind, M_bind at 1. by rewrite Hd1.
Qed.

(** ** [remove] *)

(** [remove] succeeds exactly when the entry could be removed as a file
    or, after [EISDIR] or [ENOENT], as a directory, and tries the directory in
    no other case; it never reports that the entry is not a directory. *)
Theorem remove_at_spec dirfd rel (e : env W) :
  let '(err1, w1) := wasi_path_unlink_file dirfd rel (world e) in
  let '(err2, w2) := wasi_path_remove_directory dirfd rel w1 in
  remove_at dirfd rel e =
    if err1 =? 0 then Ret (0, Env (errno e) w1)
    else if (err1 =? EISDIR) || (err1 =? ENOENT) then
      if err2 =? 0 then Ret (0, Env err1 w2)
      else Ret (-1, Env (if err2 =? ENOTDIR then ENOENT else err2) w2)
    else Ret (-1, Env err1 w1).
Proof.
  destruct (wasi_path_unlink_file dirfd rel (world e)) as [err1 w1] eqn:H1'.
  destruct (wasi_path_remove_directory dirfd rel w1) as [err2 w2] eqn:H2'.
  assert (Hu : __wasilibc_nocwd___wasilibc_unlinkat dirfd rel e =
    Ret (if err1 =? 0 then 0 else -1, Env (if err1 =? 0 then errno e else err1) w1)).
  { unfold __wasilibc_nocwd___wasilibc_unlinkat, host, ret_errno, mbind, M_bind. rewrite H1'. by destruct (err1 =? 0). }
  assert (Hd : forall e0, __wasilibc_nocwd___wasilibc_rmdirat dirfd rel (Env e0 w1) =
    Ret (if err2 =? 0 then 0 else -1, Env (if err2 =? 0 then e0 else err2) w2)).
  { intros e0. unfold __wasilibc_nocwd___wasilibc_rmdirat, host, ret_errno, mbind, M_bind. simpl. rewrite H2'.
    by destruct (err2 =? 0). }
  unfold remove_at. mnext_by Hu. mnext. destruct (err1 =? 0); [done|]. cbn [negb andb Z.eqb errno].
  destruct ((err1 =? EISDIR) || (err1 =? ENOENT)) eqn:Hor; [|done].
  mnext_by (Hd err1). mnext. destruct (err2 =? 0); cbn [errno].
  - destruct (Z.eqb_spec err1 ENOTDIR) as [->|]; [done|]. by mnext.
  - destruct (err2 =? ENOTDIR); by mnext.
Qed.

(** ** [chdir] *)

Lemma fstatat_env fd path flag (e : env W) :
  exists r o e', __wasilibc_nocwd_fstatat fd path flag e = Ret ((r, o), e').
Proof.
  unfold __wasilibc_nocwd_fstatat, host, mbind, M_bind.
  destruct (wasi_path_filestat_get fd _ path (world e)) as [[er st] w]. destruct (er =? 0); simpl; eauto.
Qed.

Lemma ready_set_env e s c : ready s c -> ready (set_env e s) c.
Proof. intros [[] Hok]. split; [by split|exact Hok]. Qed.

Lemma fstatat_Ret fd path flag (s : st) c : ready s c -> Z.of_nat (length c + length path) < 2 ^ 31 ->
  exists r o s', fstatat threaded fd path flag s = Ret ((r, o), s') /\ ready s' c.
Proof.
  intros Hr Hlen. unfold fstatat. destruct (to_cwd fd path).
  - destruct (with_relpath_Ret (-1, None) path (fun dirfd rel => __wasilibc_nocwd_fstatat dirfd rel flag) s c Hr Hlen)
      as (s1 & Hr' & _ & _ & [(dirfd & abs & rel & _ & Hrun)|(_ & Hrun & _)]); unfold __wasilibc_stat; rewrite Hrun.
    + destruct (fstatat_env dirfd rel flag (penv s1)) as (r & o & e' & He).
      unfold pcall. rewrite He. eexists r, o, _. split; [reflexivity|]. by apply ready_set_env.
    + eexists (-1), None, _. by split.
  - destruct (fstatat_env fd path flag (penv s)) as (r & o & e' & He). unfold pcall. rewrite He.
    eexists r, o, _. split; [reflexivity|]. by apply ready_set_env.
Qed.

(** A prefix found is no longer than the path. *)
Lemma located_length pres path fd abs rel : located pres path fd abs rel -> (length abs <= length path)%nat.
Proof.
  intros (p & _ & _ & <- & [(rest & Hrest & _) _] & _). apply (f_equal length) in Hrest.
  rewrite unslashed_run, length_drop, length_app in Hrest. lia.
Qed.

(** The block for the new working directory is large enough. *)
Lemma new_cwd_fits abs rel (s : st) : Z.of_nat (length abs + length rel) < 2 ^ 32 - 8 ->
  exists n w, malloc_strcpy (new_cwd_size abs rel) (new_cwd abs rel) s = Ret (n, set_env (Env (errno (penv s)) w) s) /\
    (n = Some (new_cwd abs rel) \/ n = None).
Proof.
  intros Hlen. destruct (path_malloc_Ret (new_cwd_size abs rel) s) as (ok & w & Hm).
  assert (Hfit : Z.of_nat (length (new_cwd abs rel)) + 1 = new_cwd_size abs rel).
  { unfold new_cwd, new_cwd_size. set (cr := negb (bool_decide (rel = [dot]))). set (mid := cr && negb (at_ abs 0 =? 0)).
    rewrite !length_app, w32_small; destruct cr, mid; cbn [length]; lia. }
  unfold malloc_strcpy. rewrite (bind_Ret _ _ _ _ _ Hm). destruct ok; cbn [negb].
  - replace (_ <? _) with false by lia. exists (Some (new_cwd abs rel)), w. split; [done|by left].
  - exists None, w. split; [done|by right].
Qed.

(** [chdir_legacy] always returns; it fails with the working directory as it
    was, or changes it to the string built from prefix and relative path. *)
Lemma chdir_legacy_Ret path (s : st) c : ready s c -> table_ok (preopens s) -> c_string c -> c_string path ->
  Z.of_nat (2 * length c + length path) + 2 < 2 ^ 30 ->
  exists v s', chdir_legacy threaded path s = Ret (v, s') /\
    ((v = -1 /\ cwd s' = Some c) \/
     (v = 0 /\ exists fd abs rel, resolve (preopens s) (absolutize c path) = Some (fd, abs, rel) /\
        cwd s' = Some (new_cwd abs rel))) /\ lock s' = false /\ cwd_lock s' = false.
Proof.
  intros Hr Htab Hcs Hps Hlen. destruct Hr as [Hset Hok].
  destruct (find_relpath_alloc_Ret threaded path CHDIR s c Hset Hok ltac:(done) ltac:(lia))
    as (v & abs & f & h & e & Hrun & Hok' & _ & _ & _ & Hres). unfold resolved in Hres.
  assert (Hr1 : ready (with_bufs f h e s) c) by (by apply ready_with).
  unfold chdir_legacy. rewrite (bind_Ret _ _ _ _ _ Hrun). cbn beta iota.
  assert (Hfail : forall s', ready s' c -> ((-1 = -1 /\ cwd s' = Some c) \/
     (-1 = 0 /\ exists fd abs rel, resolve (preopens s) (absolutize c path) = Some (fd, abs, rel) /\
        cwd s' = Some (new_cwd abs rel))) /\ lock s' = false /\ cwd_lock s' = false).
  { intros s' [[] _]. split; [by left|done]. }
  destruct (Z.eqb_spec v (-1)) as [->|Hv]; [eexists _, _; split; [reflexivity|by apply Hfail]|].
  destruct Hres as [[? _]|Hres]; [done|].
  destruct (resolve (preopens s) (absolutize c path)) as [[[fd pre] rel]|] eqn:Er; [|by destruct Hres].
  destruct Hres as (-> & -> & Hc).
  rewrite (bind_Ret _ _ _ _ _ (get_Ret _)), (bind_Ret _ _ _ _ _ (deref_Ret (with_bufs f h e s) CHDIR rel Hc)).
  apply resolve_length in Er as Hrl. pose proof (absolutize_length c path).
  destruct (fstatat_Ret fd rel 0 (with_bufs f h e s) c Hr1 ltac:(lia)) as (r & o & s2 & Hst & Hr2).
  rewrite (bind_Ret _ _ _ _ _ Hst). cbn beta iota.
  destruct o as [di|]; [|eexists _, _; split; [reflexivity|by apply Hfail]].
  destruct (S_ISDIR (st_mode di)); cbn [negb];
    [|eexists _, _; split; [reflexivity|by apply Hfail, ready_set_env]].
  pose proof (resolve_located (preopens s) _ Htab (absolutize_string c path Hcs Hps)) as Hpl.
  rewrite Er in Hpl. apply located_length in Hpl.
  destruct (new_cwd_fits pre rel s2 ltac:(lia)) as (n & w & Hm & Hn).
  rewrite (bind_Ret _ _ _ _ _ Hm). set (s3 := set_env _ s2).
  assert (Hr3 : ready s3 c) by (by apply ready_set_env).
  destruct Hn as [-> | ->]; [|eexists _, _; split; [reflexivity|by apply Hfail, ready_set_env]].
  rewrite (bind_Ret _ _ _ _ _ (cwd_lock_Ret threaded s3 (se_cwd_lock _ _ (rd_settled _ _ Hr3)))).
  exists 0, (set_cwd_lock false (set_cwd (Some (new_cwd pre rel)) true (cwd_is_synced s3) (set_cwd_lock threaded s3))).
  split; [mnext; by rewrite (bind_Ret _ _ _ _ _ (cwd_unlock_Ret threaded (set_cwd (Some (new_cwd pre rel)) true (cwd_is_synced s3)
      (set_cwd_lock threaded s3)) eq_refl))|].
  split; [right; split; [done|]; by exists fd, pre, rel|].
  split; [apply (se_lock _ _ (rd_settled _ _ Hr3))|done].
Qed.

(** [chdir] always returns.  On success the working directory is the
    string built from the preopen's prefix and the relative path; when the
    path does not resolve to a directory the call fails and nothing changes.
    But when only the host refuses the new directory the call fails after
    libc's copy has been changed. *)
Theorem chdir_spec path (s : st) c : ready s c -> table_ok (preopens s) -> c_string c -> c_string path ->
  Z.of_nat (2 * length c + length path) + 2 < 2 ^ 30 ->
  exists v s1 s', chdir_legacy threaded path s = Ret (v, s1) /\
    (v = 0 \/ v = -1) /\
    (if v =? 0
     then (exists fd abs rel, resolve (preopens s) (absolutize c path) = Some (fd, abs, rel) /\
             cwd s1 = Some (new_cwd abs rel)) /\
          let '(err, w) := wasi_chdir path (world (penv s1)) in
          chdir threaded path s = Ret (if err =? 0 then 0 else -1, s') /\ cwd s' = cwd s1 /\
          (err <> 0 -> errno (penv s') = err)
     else cwd s1 = Some c /\ s' = s1 /\ chdir threaded path s = Ret (-1, s1)).
Proof.
  intros Hr Htab Hcs Hps Hlen.
  destruct (chdir_legacy_Ret path s c Hr Htab Hcs Hps Hlen) as (v & s1 & Hrun & [[-> Hc]|(-> & Hres)] & _).
  { exists (-1), s1, s1. split; [done|]. split; [by right|]. cbn [Z.eqb]. split; [done|]. split; [done|].
    unfold chdir. by rewrite (bind_Ret _ _ _ _ _ Hrun). }
  unfold chdir. rewrite (bind_Ret _ _ _ _ _ Hrun). cbn [Z.eqb negb].
  destruct (wasi_chdir path (world (penv s1))) as [err w] eqn:Hw.
  set (s2 := set_env (Env (if err =? 0 then errno (penv s1) else err) w) s1).
  exists 0, s1, s2. split; [done|]. split; [by left|]. change (0 =? 0) with true. cbn iota. rewrite Hw.
  split; [done|]. split; [|split; [by subst s2|]].
  - assert (Hcall : pcall (host (wasi_chdir path)) s1 = Ret (err, set_env (Env (errno (penv s1)) w) s1))
      by (by apply pcall_host).
    rewrite (bind_Ret _ _ _ _ _ Hcall). subst s2. destruct (err =? 0); reflexivity.
  - intros Hne. subst s2. simpl. destruct (Z.eqb_spec err 0); done.
Qed.

End Proofs.

(** Below the root preopen the relative path keeps the leading slash of
    an absolute path, so [chdir] to the absolute path [/x] stores [//x], and
    every further relative [chdir] adds one more slash. *)
Theorem chdir_root_slashes pres path fd rel :
  c_string path -> at_ path 0 = slash -> resolve pres path = Some (fd, [], rel) ->
  path <> [] -> rel = path /\ new_cwd [] rel = slash :: path.
Proof.
  intros Hs H0 Hres Hne. unfold resolve in Hres. destruct (_ =? -1) eqn:Hfd; [done|].
  injection Hres as _ Habs Hrel.
  assert (Hm : match_len (scan pres path) = 0%nat).
  { unfold scan in *. revert Habs. clear Hfd Hrel.
    assert (Hinv : forall l b, (abs_prefix b = [] -> match_len b = 0%nat) ->
      abs_prefix (fold_left (scan_step path) l b) = [] -> match_len (fold_left (scan_step path) l b) = 0%nat).
    { induction l as [|x l IH]; intros b Hb; simpl; [done|]. apply IH. rewrite scan_step_eq.
      destruct (_ && _); [|done]. simpl. unfold reach. by intros ->. }
    by apply Hinv. }
  rewrite Hm in Hrel. unfold relative_of in Hrel. rewrite drop_0 in Hrel.
  destruct (Nat.eqb_spec (length path) 0) as [Hz|_]; [by apply length_zero_iff_nil in Hz|].
  subst rel. split; [done|]. unfold new_cwd. rewrite bool_decide_eq_false_2; [done|].
  intros ->. done.
Qed.

(** [utimensat] reports invalid times by -1 alone: unlike [futimens], it leaves
    [errno] as it was. *)
Lemma utimensat_silent {W : Type} `{WasiFd W, WasiPath W} fd path t0 t1 flag (e : env W) :
  utimens_get_timestamps (Some (t0, t1)) = None ->
  __wasilibc_nocwd_utimensat fd path (Some (t0, t1)) flag e = Ret (-1, e) /\
  futimens fd (Some (t0, t1)) e = Ret (-1, Env EINVAL (world e)).
Proof. intros Hn. unfold __wasilibc_nocwd_utimensat, futimens. by rewrite Hn. Qed.
