(* ===== verification/Utf8.v ===== *)
(** Multibyte characters ([musl/src/multibyte]): the UTF-8 decoder and encoder
    and the string conversions built on them. *)
From S2P Require Import Prelude.
From S2P Require Import Wasi.

(** ** [internal.h], [internal.c] *)

(** [#define R(a,b)]: the interval of the next byte, as 32 bits. *)
Definition R_ (a b : Z) : Z := w32 (Z.shiftl (w32 (if a =? 128 then 64 - b else 0 - a)) 23).

Definition C_ (x : Z) : Z := if x <? 2 then w32 (-1) else Z.lor (R_ 128 192) x.
Definition D_ (x : Z) : Z := C_ (x + 16).
Definition E_ (x : Z) : Z :=
  Z.lor (Z.lor (if x =? 0 then R_ 160 192 else if x =? 13 then R_ 128 160 else R_ 128 192)
    (Z.shiftr (R_ 128 192) 6)) x.
Definition F_ (x : Z) : Z :=
  Z.lor (Z.lor (Z.lor (if 5 <=? x then 0 else if x =? 0 then R_ 144 192 else if x =? 4 then R_ 128 144 else R_ 128 192)
    (Z.shiftr (R_ 128 192) 6)) (Z.shiftr (R_ 128 192) 12)) x.

Definition bittab : list Z :=
  map C_ (seqZ 2 14) ++ map D_ (seqZ 0 16) ++ map E_ (seqZ 0 16) ++ map F_ (seqZ 0 5).

Definition SA : Z := 194.
Definition SB : Z := 244.

Definition OOB (c b : Z) : bool :=
  negb (Z.land (Z.lor (Z.shiftr b 3 - 16) (Z.shiftr b 3 + Z.shiftr (s32 c) 26)) (Z.lnot 7) =? 0).

(** [(signed char)c] of a byte. *)
Definition schar (b : Z) : Z := if 128 <=? b then b - 256 else b.
Definition CODEUNIT (c : Z) : Z := Z.land 57343 (schar (w8 c)).
Definition IS_CODEUNIT (c : Z) : bool := w32 (c - 57216) <? 128.

(** [(size_t)-1], [-2] and [-3]. *)
Definition SZ1 : Z := 2 ^ 32 - 1.
Definition SZ2 : Z := 2 ^ 32 - 2.
Definition SZ3 : Z := 2 ^ 32 - 3.
Definition WEOF : Z := 2 ^ 32 - 1.
Definition EOF : Z := -1.

(** The conversion state the call uses ([*st], or the function's own static
    one when [st] is [NULL]) and [errno]. *)
Record mbenv := MbEnv { shift : Z; mb_errno : Z }.
Abbreviation MB := (M mbenv).

Definition set_shift (c : Z) : MB unit := modify (fun s => MbEnv c (mb_errno s)).
Definition fail_ilseq : MB unit := modify (fun s => MbEnv (shift s) EILSEQ).
(** The label [ilseq] of [mbrtowc]. *)
Definition ilseq : MB (Z * option Z) := modify (fun _ => MbEnv 0 EILSEQ);; mret (SZ1, None).

Section Utf8.
(** [MB_CUR_MAX]: 4 in a UTF-8 locale, 1 in the C locale. *)
Variable mb_cur_max : Z.

(** ** Decoding *)

(** The loop of [mbrtowc] on [n > 0] bytes of [s]; [used] bytes are behind. *)
Fixpoint mb_loop (n : nat) (s : list Z) (c used : Z) : MB (Z * option Z) :=
  match n with
  | O => set_shift c;; mret (SZ2, None)
  | S n' =>
      let c := Z.lor (w32 (Z.shiftl c 6)) (w32 (at_ s 0 - 128)) in
      if negb (has c (2 ^ 31)) then set_shift 0;; mret (used + 1, Some c)
      else match n' with
           | O => set_shift c;; mret (SZ2, None)
           | S _ => if 64 <=? w32 (at_ s 1 - 128) then ilseq else mb_loop n' (drop 1 s) c (used + 1)
           end
  end.

(** From the check of the first continuation byte on. *)
Definition mb_rest (n : nat) (s : list Z) (c used : Z) : MB (Z * option Z) :=
  if (n =? 0)%nat then set_shift c;; mret (SZ2, None)
  else if OOB c (at_ s 0) then ilseq else mb_loop n s c used.

(** The return value and what is stored at [*wc]. *)
Definition mbrtowc (src : option (list Z)) (n : nat) : MB (Z * option Z) :=
  st ← get;
  let c := shift st in
  match src with
  | None => if negb (c =? 0) then ilseq else mret (0, None)
  | Some s =>
      if (n =? 0)%nat then mret (SZ2, None) else
      if c =? 0 then
        let b := at_ s 0 in
        if b <? 128 then mret (if b =? 0 then 0 else 1, Some b)
        else if mb_cur_max =? 1 then mret (1, Some (CODEUNIT b))
        else if SB - SA <? w32 (b - SA) then ilseq
        else mb_rest (pred n) (drop 1 s) (default 0 (bittab !! Z.to_nat (b - SA))) 1
      else mb_rest n s c 0
  end.

Definition mbtowc (src : option (list Z)) (n : nat) : MB (Z * option Z) :=
  match src with
  | None => mret (0, None)
  | Some s =>
      let bad : MB (Z * option Z) := fail_ilseq;; mret (-1, None) in
      if (n =? 0)%nat then bad else
      let b := at_ s 0 in
      if b <? 128 then mret (if b =? 0 then 0 else 1, Some b)
      else if mb_cur_max =? 1 then mret (1, Some (CODEUNIT b))
      else if SB - SA <? w32 (b - SA) then bad
      else
        let c := default 0 (bittab !! Z.to_nat (b - SA)) in
        if (n <? 4)%nat && has (w32 (Z.shiftl c (6 * Z.of_nat n - 6))) (2 ^ 31) then bad
        else if OOB c (at_ s 1) then bad
        else
          let c := Z.lor (w32 (Z.shiftl c 6)) (w32 (at_ s 1 - 128)) in
          if negb (has c (2 ^ 31)) then mret (2, Some c)
          else if 64 <=? w32 (at_ s 2 - 128) then bad
          else
            let c := Z.lor (w32 (Z.shiftl c 6)) (w32 (at_ s 2 - 128)) in
            if negb (has c (2 ^ 31)) then mret (3, Some c)
            else if 64 <=? w32 (at_ s 3 - 128) then bad
            else mret (4, Some (Z.lor (w32 (Z.shiftl c 6)) (w32 (at_ s 3 - 128))))
  end.

Definition mblen (s : option (list Z)) (n : nat) : MB Z := r ← mbtowc s n; mret (fst r).
Definition mbrlen (s : option (list Z)) (n : nat) : MB Z := r ← mbrtowc s n; mret (fst r).

Definition mbsinit (st : option Z) : bool := match st with None => true | Some c => c =? 0 end.

Definition btowc (c : Z) : Z :=
  let b := w8 c in
  if b <? 128 then b
  else if (mb_cur_max =? 1) && negb (c =? EOF) then CODEUNIT c else WEOF.

Definition wctob (c : Z) : Z :=
  if c <? 128 then c
  else if (mb_cur_max =? 1) && IS_CODEUNIT c then w8 c else EOF.

(** ** Encoding *)

(** The return value and the bytes stored at [s]; [wc] is an [int]. *)
Definition wcrtomb (null : bool) (wc : Z) : MB (Z * list Z) :=
  if null then mret (1, []) else
  if w32 wc <? 128 then mret (1, [w8 wc])
  else if mb_cur_max =? 1 then
    if negb (IS_CODEUNIT wc) then fail_ilseq;; mret (SZ1, []) else mret (1, [w8 wc])
  else if w32 wc <? 2048 then
    mret (2, [w8 (Z.lor 192 (Z.shiftr wc 6)); w8 (Z.lor 128 (Z.land wc 63))])
  else if (w32 wc <? 55296) || (w32 (w32 wc - 57344) <? 8192) then
    mret (3, [w8 (Z.lor 224 (Z.shiftr wc 12)); w8 (Z.lor 128 (Z.land (Z.shiftr wc 6) 63));
              w8 (Z.lor 128 (Z.land wc 63))])
  else if w32 (w32 wc - 65536) <? 1048576 then
    mret (4, [w8 (Z.lor 240 (Z.shiftr wc 18)); w8 (Z.lor 128 (Z.land (Z.shiftr wc 12) 63));
              w8 (Z.lor 128 (Z.land (Z.shiftr wc 6) 63)); w8 (Z.lor 128 (Z.land wc 63))])
  else fail_ilseq;; mret (SZ1, []).

Definition wctomb (null : bool) (wc : Z) : MB (Z * list Z) :=
  if null then mret (0, []) else r ← wcrtomb false wc; mret (s32 (fst r), snd r).

(** ** UTF-16 and UTF-32 *)

(** A non-zero state without the high bit is a pending low surrogate. *)
Definition mbrtoc16_from (s : list Z) (n : nat) : MB (Z * option Z) :=
  st ← get;
  if 0 <? s32 (shift st) then
    set_shift 0;; mret (SZ3, Some (w16 (shift st)))
  else
    '(ret, wc) ← mbrtowc (Some s) n;
    if ret <=? 4 then
      match wc with
      | None => mret (ret, None)
      | Some wc =>
          if 65536 <=? wc then
            set_shift (Z.land wc 1023 + 56320);; mret (ret, Some (w16 (55232 + Z.shiftr wc 10)))
          else mret (ret, Some (w16 wc))
      end
    else mret (ret, None).

(** With a null source the empty string is read and nothing is stored. *)
Definition mbrtoc16 (src : option (list Z)) (n : nat) : MB (Z * option Z) :=
  match src with
  | None => r ← mbrtoc16_from [] 1; mret (fst r, None)
  | Some s => mbrtoc16_from s n
  end.

Definition mbrtoc32 (src : option (list Z)) (n : nat) : MB (Z * option Z) :=
  match src with
  | None => r ← mbrtowc (Some []) 1; mret (fst r, None)
  | Some s => '(ret, wc) ← mbrtowc (Some s) n; mret (ret, if ret <=? 4 then wc else None)
  end.

Definition c16rtomb (null : bool) (c16 : Z) : MB (Z * list Z) :=
  st ← get;
  let x := shift st in
  let ilseq := (modify (fun _ => MbEnv 0 EILSEQ);; mret (SZ1, [])) : MB (Z * list Z) in
  if null then if negb (x =? 0) then ilseq else mret (1, []) else
  if (x =? 0) && (w32 (c16 - 55296) <? 1024) then
    set_shift (w32 (Z.shiftl (c16 - 55232) 10));; mret (0, [])
  else if negb (x =? 0) then
    if 1024 <=? w32 (c16 - 56320) then ilseq
    else set_shift 0;; wcrtomb false (s32 (x + c16 - 56320))
  else wcrtomb false c16.

Definition c32rtomb (null : bool) (c32 : Z) : MB (Z * list Z) := wcrtomb null (s32 c32).

(** ** Strings

    A wide string is the list of its characters without the terminator. *)

(** [wcsrtombs] with a null destination. *)
Fixpoint wcs_count (ws : list Z) (n : Z) : MB Z :=
  match ws with
  | [] => mret n
  | w :: ws =>
      if w =? 0 then mret n else
      if 128 <=? w32 w then
        '(l, _) ← wcrtomb false w;
        if w32 (l + 1) =? 0 then mret SZ1 else wcs_count ws (w32 (n + l))
      else wcs_count ws (w32 (n + 1))
  end.

(** The two storing loops.  The result is the return value, the bytes stored
    and how many characters are behind, [None] when [*ws] becomes [NULL]. *)
Fixpoint wcs_tail (ws : list Z) (n N : nat) (out : list Z) (k : nat) : MB (Z * list Z * option nat) :=
  if (n =? 0)%nat then mret (Z.of_nat N, out, Some k) else
  let finish : MB (Z * list Z * option nat) := mret (Z.of_nat (N - n), out ++ [0], None) in
  match ws with
  | [] => finish
  | w :: ws =>
      if 127 <=? w32 (w - 1) then
        if w =? 0 then finish else
        '(l, buf) ← wcrtomb false w;
        if w32 (l + 1) =? 0 then mret (SZ1, out, Some k)
        else if Z.of_nat n <? l then mret (Z.of_nat (N - n), out, Some k)
        else wcs_tail ws (n - Z.to_nat l) N (out ++ buf) (S k)
      else wcs_tail ws (pred n) N (out ++ [w8 w]) (S k)
  end.

Fixpoint wcs_store (ws : list Z) (n N : nat) (out : list Z) (k : nat) : MB (Z * list Z * option nat) :=
  if (n <? 4)%nat then wcs_tail ws n N out k else
  let finish : MB (Z * list Z * option nat) := mret (Z.of_nat (N - n), out ++ [0], None) in
  match ws with
  | [] => finish
  | w :: ws =>
      if 127 <=? w32 (w - 1) then
        if w =? 0 then finish else
        '(l, buf) ← wcrtomb false w;
        if w32 (l + 1) =? 0 then mret (SZ1, out, Some k)
        else wcs_store ws (n - Z.to_nat l) N (out ++ buf) (S k)
      else wcs_store ws (pred n) N (out ++ [w8 w]) (S k)
  end.

Definition wcsrtombs (null : bool) (ws : list Z) (n : nat) : MB (Z * list Z * option nat) :=
  if null then r ← wcs_count ws 0; mret (r, [], Some 0%nat) else wcs_store ws n n [] 0.

Definition wcstombs (null : bool) (ws : list Z) (n : nat) : MB (Z * list Z) :=
  r ← wcsrtombs null ws n; mret (fst r).

Definition MB_LEN_MAX : nat := 4.

(** [wcsnrtombs]: at most [wn] characters into at most [n] bytes. *)
Fixpoint wcsn_loop (ws : list Z) (wn n : nat) (null : bool) (cnt : Z) (out : list Z) (k : nat)
    : MB (Z * list Z * option nat) :=
  match wn with
  | O => mret (cnt, out, Some k)
  | S wn' =>
      '(l, tmp) ← wcrtomb false (at_ ws 0);
      if l =? SZ1 then mret (SZ1, out, Some k) else
      if negb null && (n <? MB_LEN_MAX)%nat && (Z.of_nat n <? l) then mret (cnt, out, Some k) else
      let out := if null then out else out ++ tmp in
      let n := if null then n else (n - Z.to_nat l)%nat in
      if at_ ws 0 =? 0 then mret (cnt, out, None)
      else wcsn_loop (drop 1 ws) wn' n null (w32 (cnt + l)) out (S k)
  end.

(** With a null destination [*wcs] is left alone. *)
Definition wcsnrtombs (null : bool) (ws : list Z) (wn n : nat) : MB (Z * list Z * option nat) :=
  r ← wcsn_loop ws wn (if null then 0%nat else n) null 0 [] 0;
  mret (fst r, if null then Some 0%nat else snd r).

End Utf8.
