(* ===== verification/Utf8Proofs.v ===== *)
(** The UTF-8 converter of [Utf8] against the definition of the encoding:
    [wcrtomb] is the encoder, [mbrtowc] recognises exactly the encodings and
    their prefixes and can be fed in pieces. *)
From S2P Require Import Prelude.
From S2P Require Import Wasi.
From S2P Require Import Utf8.

(** ** The encoding form (Unicode, table 3-6), by arithmetic *)

Definition scalar (wc : Z) : Prop := 0 <= wc < 55296 \/ 57344 <= wc < 1114112.

Definition cont (x : Z) : Z := 128 + x mod 64.

Definition utf8 (wc : Z) : list Z :=
  if wc <? 128 then [wc]
  else if wc <? 2048 then [192 + wc / 64; cont wc]
  else if wc <? 65536 then [224 + wc / 4096; cont (wc / 64); cont wc]
  else [240 + wc / 262144; cont (wc / 4096); cont (wc / 64); cont wc].

(** ** Encoding *)

Lemma cont_range x : 128 <= cont x < 192.
Proof. unfold cont. pose proof (Z.mod_pos_bound x 64). lia. Qed.

Lemma lor_cont x : w8 (Z.lor 128 (Z.land x 63)) = cont x.
Proof.
  change 63 with (Z.ones 6). rewrite land_low by lia. unfold cont. change (2 ^ 6) with 64.
  pose proof (Z.mod_pos_bound x 64 ltac:(lia)). change 128 with (2 * 2 ^ 6).
  rewrite lor_add by lia. apply w8_small. lia.
Qed.

Lemma lor_lead k a x : 0 <= k -> 0 <= x < 2 ^ k -> 0 <= a * 2 ^ k -> a * 2 ^ k + 2 ^ k <= 256 ->
  w8 (Z.lor (a * 2 ^ k) x) = a * 2 ^ k + x.
Proof. intros. rewrite lor_add by done. apply w8_small. lia. Qed.

#[export] Instance scalar_dec wc : Decision (scalar wc).
Proof. unfold scalar. apply _. Defined.

Ltac div_lia := Z.to_euclidean_division_equations; lia.

Lemma wcrtomb_utf8 wc s : - 2 ^ 31 <= wc < 2 ^ 31 ->
  wcrtomb 4 false wc s =
    if decide (scalar wc) then Ret ((Z.of_nat (length (utf8 wc)), utf8 wc), s)
    else Ret ((SZ1, []), MbEnv (shift s) EILSEQ).
Proof.
  intros Hwc. unfold wcrtomb, utf8. change (4 =? 1) with false. cbn iota.
  destruct (Z.lt_ge_cases wc 0) as [Hneg|Hpos].
  { assert (Hw : w32 wc = wc + 2 ^ 32).
    { unfold w32. rewrite <- (Z.mod_small (wc + 2 ^ 32) (2 ^ 32)) by lia.
      replace (wc + 2 ^ 32) with (wc + 1 * 2 ^ 32) by lia. by rewrite Z.mod_add. }
    rewrite Hw. rewrite (w32_small (wc + 2 ^ 32 - 57344)), (w32_small (wc + 2 ^ 32 - 65536)) by lia.
    replace (wc + 2 ^ 32 <? 128) with false by lia. replace (wc + 2 ^ 32 <? 2048) with false by lia.
    replace (wc + 2 ^ 32 <? 55296) with false by lia. replace (wc + 2 ^ 32 - 57344 <? 8192) with false by lia.
    replace (wc + 2 ^ 32 - 65536 <? 1048576) with false by lia.
    cbn [orb]. rewrite decide_False; [done|unfold scalar; lia]. }
  rewrite (w32_small wc) by lia. rewrite !lor_cont, !Z.shiftr_div_pow2 by lia.
  change (2 ^ 6) with 64. change (2 ^ 12) with 4096. change (2 ^ 18) with 262144.
  destruct (Z.ltb_spec wc 128).
  { rewrite decide_True by (unfold scalar; lia). by rewrite w8_small by lia. }
  destruct (Z.ltb_spec wc 2048).
  { rewrite decide_True by (unfold scalar; lia). change 192 with (6 * 2 ^ 5).
    rewrite lor_lead by div_lia. done. }
  assert (Hsur : (wc <? 55296) || (w32 (wc - 57344) <? 8192) = bool_decide (wc < 55296 \/ 57344 <= wc < 65536)).
  { destruct (Z.lt_ge_cases wc 57344).
    - replace (w32 (wc - 57344)) with (wc - 57344 + 2 ^ 32).
      + case_bool_decide; destruct (Z.ltb_spec wc 55296), (Z.ltb_spec (wc - 57344 + 2 ^ 32) 8192); try lia; done.
      + unfold w32. rewrite <- (Z.mod_add _ 1) by lia. by rewrite Z.mod_small by lia.
    - rewrite w32_small by lia. case_bool_decide; destruct (Z.ltb_spec wc 55296), (Z.ltb_spec (wc - 57344) 8192); try lia; done. }
  rewrite Hsur. case_bool_decide as Hin.
  { rewrite decide_True by (unfold scalar; lia). replace (wc <? 65536) with true by lia.
    change 224 with (14 * 2 ^ 4). rewrite lor_lead by div_lia. done. }
  destruct (Z.lt_ge_cases wc 65536).
  { replace (w32 (wc - 65536)) with (wc - 65536 + 2 ^ 32)
      by (unfold w32; rewrite <- (Z.mod_add _ 1) by lia; by rewrite Z.mod_small by lia).
    replace (wc - 65536 + 2 ^ 32 <? 1048576) with false by lia. rewrite decide_False; [done|unfold scalar; lia]. }
  rewrite w32_small by lia. replace (wc <? 65536) with false by lia.
  destruct (Z.ltb_spec (wc - 65536) 1048576).
  - rewrite decide_True by (unfold scalar; lia). change 240 with (30 * 2 ^ 3). rewrite lor_lead by div_lia. done.
  - rewrite decide_False; [done|unfold scalar; lia].
Qed.

Lemma utf8_length wc : (1 <= length (utf8 wc) <= 4)%nat.
Proof. unfold utf8. repeat case_match; simpl; lia. Qed.

(** ** Decoding, byte by byte

    After a lead byte the decoder is waiting for [r] more bytes, has the value
    [v], and accepts a next byte in [lo .. hi]. *)
Inductive fed :=
  | Done (wc : Z) (k : Z)
  | More (r : nat) (v lo hi : Z)
  | Bad.

Fixpoint feed (r : nat) (v lo hi : Z) (l : list Z) : fed :=
  match l with
  | [] => More r v lo hi
  | b :: l =>
      if (lo <=? b) && (b <=? hi) then
        match r with
        | S (S r') => match feed (S r') (v * 64 + (b - 128)) 128 191 l with
                      | Done wc k => Done wc (k + 1)
                      | x => x
                      end
        | _ => Done (v * 64 + (b - 128)) 1
        end
      else Bad
  end.

(** What a lead byte announces. *)
Definition lead (b : Z) : option (nat * Z * Z * Z) :=
  if b <? 194 then None
  else if b <? 224 then Some (1%nat, b - 192, 128, 191)
  else if b <? 240 then Some (2%nat, b - 224, if b =? 224 then 160 else 128, if b =? 237 then 159 else 191)
  else if b <? 245 then Some (3%nat, b - 240, if b =? 240 then 144 else 128, if b =? 244 then 143 else 191)
  else None.

Definition tag (r : nat) : Z := match r with 3%nat => 51118080 | 2%nat => 50331648 | _ => 0 end.
Definition vmax (r : nat) : Z := match r with 3%nat => 5 | 2%nat => 320 | _ => 20480 end.

(** The word [c] encodes that state. *)
Record good (c : Z) (r : nat) (v lo hi : Z) : Prop := {
  gd_r : (1 <= r <= 3)%nat;
  gd_c : 0 < c < 2 ^ 32;
  gd_low : c mod 2 ^ 26 = tag r + v;
  gd_v : 0 <= v < vmax r;
  gd_lohi : 128 <= lo /\ hi < 192;
  gd_oob : forall b, 0 <= b < 256 -> OOB c b = negb ((lo <=? b) && (b <=? hi)) }.

Definition in_range (lo hi b : Z) : bool := (lo <=? b) && (b <=? hi).

Lemma bittab_good b : 194 <= b <= 244 ->
  exists r v lo hi, lead b = Some (r, v, lo, hi) /\ good (default 0 (bittab !! Z.to_nat (b - SA))) r v lo hi.
Proof.
  intros Hb.
  assert (Hcheck : forallb (fun b =>
    match lead b with
    | None => false
    | Some (r, v, lo, hi) =>
        let c := default 0 (bittab !! Z.to_nat (b - SA)) in
        (1 <=? r)%nat && (r <=? 3)%nat && (0 <? c) && (c <? 2 ^ 32) && (c mod 2 ^ 26 =? tag r + v) &&
        (0 <=? v) && (v <? vmax r) && (128 <=? lo) && (hi <? 192) &&
        forallb (fun x => eqb (OOB c x) (negb (in_range lo hi x))) (seqZ 0 256)
    end) (seqZ 194 51) = true) by (vm_compute; reflexivity).
  pose proof (forall_below _ _ _ Hcheck b ltac:(lia)) as H. cbv beta in H.
  destruct (lead b) as [[[[r v] lo] hi]|]; [|done]. cbv zeta in H. rewrite !andb_true_iff in H.
  destruct H as (((((((((H1 & H2) & H3) & H4) & H5) & H6) & H7) & H8) & H9) & H10).
  exists r, v, lo, hi. split; [done|].
  apply Nat.leb_le in H1, H2. split; try lia.
  intros x Hx. apply eqb_prop. exact (forall_below _ _ _ H10 x ltac:(lia)).
Qed.

Lemma oob_plain c : 3221225472 <= c < 3288334336 -> forall b, 0 <= b < 256 ->
  OOB c b = negb ((128 <=? b) && (b <=? 191)).
Proof.
  intros Hc b Hb. unfold OOB.
  assert (Hs : Z.shiftr (s32 c) 26 = -16).
  { rewrite Z.shiftr_div_pow2 by lia. replace (s32 c) with (c - 2 ^ 32).
    - symmetry. apply (Z.div_unique _ _ _ (c - 3221225472)); lia.
    - unfold s32. replace (c + 2 ^ 31) with (c - 2 ^ 31 + 1 * 2 ^ 32) by lia.
      rewrite Z.mod_add, Z.mod_small by lia. lia. }
  rewrite Hs. apply eqb_prop.
  refine (forall_below (fun b => eqb (negb (Z.land (Z.lor (Z.shiftr b 3 - 16) (Z.shiftr b 3 + -16)) (Z.lnot 7) =? 0))
    (negb ((128 <=? b) && (b <=? 191)))) 0 256 _ b ltac:(lia)). vm_compute. reflexivity.
Qed.

(** One continuation byte. *)
Lemma shift_in c r v lo hi b : good c r v lo hi -> 128 <= b < 192 ->
  let c' := Z.lor (w32 (Z.shiftl c 6)) (w32 (b - 128)) in
  match r with
  | S (S r') => has c' (2 ^ 31) = true /\ good c' (S r') (v * 64 + (b - 128)) 128 191
  | _ => c' = v * 64 + (b - 128) /\ has c' (2 ^ 31) = false
  end.
Proof.
  intros [Hr Hc Hlow Hv Hlh _] Hb c'.
  assert (Hc' : c' = (tag r + v) * 64 + (b - 128)).
  { subst c'. rewrite (w32_small (b - 128)) by lia. rewrite Z.shiftl_mul_pow2 by lia. unfold w32.
    replace (2 ^ 32) with (2 ^ 26 * 2 ^ 6) by lia. rewrite Z.mul_mod_distr_r, Hlow by lia.
    rewrite lor_add by lia. done. }
  clearbody c'. subst c'.
  destruct r as [|[|[|[|r]]]]; try lia; cbn [tag vmax] in *.
  - split; [lia|]. rewrite has_top by lia. lia.
  - split; [rewrite has_top by lia; lia|]. split; cbn [tag vmax]; try lia.
    + replace ((50331648 + v) * 64 + (b - 128)) with (v * 64 + (b - 128) + 48 * 2 ^ 26) by lia.
      rewrite Z.mod_add, Z.mod_small by lia. lia.
    + intros x Hx. apply oob_plain; lia.
  - split; [rewrite has_top by lia; lia|]. split; cbn [tag vmax]; try lia.
    + replace ((51118080 + v) * 64 + (b - 128)) with (50331648 + (v * 64 + (b - 128)) + 48 * 2 ^ 26) by lia.
      rewrite Z.mod_add, Z.mod_small by lia. lia.
    + intros x Hx. apply oob_plain; lia.
Qed.

Definition bytes (l : list Z) : Prop := Forall (fun b => 0 <= b < 256) l.

(** What a call leaves after the bytes fed. *)
Definition fed_ret (x : fed) (used : Z) (s s' : mbenv) (r : Z) (wc : option Z) : Prop :=
  match x with
  | Done c k => r = used + k /\ wc = Some c /\ s' = MbEnv 0 (mb_errno s)
  | More r' v lo hi => r = SZ2 /\ wc = None /\ mb_errno s' = mb_errno s /\ good (shift s') r' v lo hi
  | Bad => r = SZ1 /\ wc = None /\ s' = MbEnv 0 EILSEQ
  end.

Lemma mb_loop_feed n : forall l c used r v lo hi s,
  length l = S n -> bytes l -> good c r v lo hi -> in_range lo hi (at_ l 0) = true ->
  exists ret wc s', mb_loop (S n) l c used s = Ret ((ret, wc), s') /\ fed_ret (feed r v lo hi l) used s s' ret wc.
Proof.
  induction n as [|n IH]; intros l c used r v lo hi s Hlen Hl Hg Hin;
    (destruct l as [|b l]; [done|]); simpl in Hlen; apply Forall_cons in Hl as [Hb Hl];
    change (at_ (b :: l) 0) with b in Hin; cbn [mb_loop feed]; change (at_ (b :: l) 0) with b;
    unfold in_range in Hin; rewrite Hin;
    pose proof (gd_lohi _ _ _ _ _ Hg) as Hlh; pose proof (gd_r _ _ _ _ _ Hg) as Hr;
    apply andb_true_iff in Hin as [H1 H2];
    pose proof (shift_in c r v lo hi b Hg ltac:(lia)) as Hs; cbv zeta in Hs;
    (destruct r as [|[|r']]; [lia|destruct Hs as [Hc Ht]; rewrite Ht; cbn [negb]; rewrite Hc;
      eexists _, _, _; split; [reflexivity|by simpl]|destruct Hs as [Ht Hg']; rewrite Ht; cbn [negb]]).
  - destruct l; [|done]. eexists _, _, _. split; [reflexivity|]. simpl. split_and!; done.
  - destruct l as [|b2 l]; [done|]. change (at_ (b :: b2 :: l) 1) with b2.
    apply Forall_cons in Hl as Hl2. destruct Hl2 as [Hb2 _].
    assert (Hchk : (64 <=? w32 (b2 - 128)) = negb ((128 <=? b2) && (b2 <=? 191))).
    { destruct (Z.lt_ge_cases b2 128).
      - replace (w32 (b2 - 128)) with (b2 - 128 + 2 ^ 32)
          by (unfold w32; rewrite <- (Z.mod_add _ 1) by lia; by rewrite Z.mod_small by lia). lia.
      - rewrite w32_small by lia. lia. }
    rewrite Hchk. destruct ((128 <=? b2) && (b2 <=? 191)) eqn:E2; cbn [negb].
    + destruct (IH (b2 :: l) (Z.lor (w32 (Z.shiftl c 6)) (w32 (b - 128))) (used + 1) (S r') (v * 64 + (b - 128)) 128 191 s)
        as (ret & wc & s' & Hrun & Hfed); [simpl in *; lia|done|done|exact E2|].
      exists ret, wc, s'. split; [exact Hrun|]. destruct (feed (S r') _ _ _ (b2 :: l)); simpl in *; [|done..].
      destruct Hfed as (-> & ? & ?). split; [lia|done].
    + eexists _, _, _. split; [reflexivity|]. cbn [feed]. rewrite E2. done.
Qed.

Lemma mb_rest_feed l c used r v lo hi s : bytes l -> good c r v lo hi ->
  exists ret wc s', mb_rest (length l) l c used s = Ret ((ret, wc), s') /\ fed_ret (feed r v lo hi l) used s s' ret wc.
Proof.
  intros Hl Hg. unfold mb_rest. destruct l as [|b l].
  { eexists _, _, _. split; [reflexivity|]. simpl. by split_and!. }
  cbn [length Nat.eqb]. change (at_ (b :: l) 0) with b. apply Forall_cons in Hl as Hb. destruct Hb as [Hb _].
  rewrite (gd_oob _ _ _ _ _ Hg) by done. destruct ((lo <=? b) && (b <=? hi)) eqn:E; cbn [negb].
  - apply mb_loop_feed; auto.
  - eexists _, _, _. split; [reflexivity|]. cbn [feed]. by rewrite E.
Qed.

(** ** The automaton and the encoding *)

Lemma feed_app l1 : forall l2 r v lo hi,
  feed r v lo hi (l1 ++ l2) =
    match feed r v lo hi l1 with
    | More r' v' lo' hi' =>
        match feed r' v' lo' hi' l2 with Done wc k => Done wc (k + Z.of_nat (length l1)) | x => x end
    | x => x
    end.
Proof.
  induction l1 as [|b l1 IH]; intros l2 r v lo hi; simpl.
  { destruct (feed r v lo hi l2); [|done..]. f_equal. lia. }
  destruct (_ && _); [|done]. destruct r as [|[|r]]; [done..|]. rewrite IH.
  destruct (feed (S r) _ _ _ l1) as [|r' v' lo' hi'|]; [done| |done].
  destruct (feed r' v' lo' hi' l2); [|done..]. f_equal. lia.
Qed.

Lemma utf8_ascii b : 0 <= b < 128 -> utf8 b = [b].
Proof. intros. unfold utf8. by replace (b <? 128) with true by lia. Qed.

Lemma scalar_ascii b : 0 <= b < 128 -> scalar b.
Proof. unfold scalar. lia. Qed.

Lemma lead_range b r v lo hi : lead b = Some (r, v, lo, hi) -> 194 <= b <= 244.
Proof. unfold lead. repeat case_match; intros; simplify_eq; lia. Qed.

Lemma lead_None b : lead b = None -> b < 194 \/ 244 < b.
Proof. unfold lead. repeat case_match; intros; simplify_eq; lia. Qed.

(** A character beyond ASCII: its lead byte, and the rest completes it. *)
Lemma utf8_complete wc : scalar wc -> 128 <= wc ->
  exists b t r v lo hi, utf8 wc = b :: t /\ lead b = Some (r, v, lo, hi) /\
    feed r v lo hi t = Done wc (Z.of_nat (length t)).
Proof.
  intros Hs Hw. unfold scalar in Hs. unfold utf8, cont. replace (wc <? 128) with false by lia.
  destruct (Z.ltb_spec wc 2048).
  { exists (192 + wc / 64), [128 + wc mod 64], 1%nat, (wc / 64), 128, 191. split; [done|]. split.
    - unfold lead. replace (192 + wc / 64 <? 194) with false by div_lia.
      replace (192 + wc / 64 <? 224) with true by div_lia. do 4 f_equal. lia.
    - simpl. replace (_ && _) with true by div_lia. f_equal. div_lia. }
  destruct (Z.ltb_spec wc 65536).
  { set (x := wc / 4096). assert (0 <= x < 16) by (subst x; div_lia).
    exists (224 + x), [128 + (wc / 64) mod 64; 128 + wc mod 64], 2%nat, x,
      (if x =? 0 then 160 else 128), (if x =? 13 then 159 else 191). split; [done|]. split.
    - unfold lead. replace (224 + x <? 194) with false by lia. replace (224 + x <? 224) with false by lia.
      replace (224 + x <? 240) with true by lia. replace (224 + x =? 224) with (x =? 0) by lia.
      replace (224 + x =? 237) with (x =? 13) by lia. do 4 f_equal. lia.
    - cbn [feed length]. replace (_ && _) with true.
      2:{ destruct (Z.eqb_spec x 0), (Z.eqb_spec x 13); subst x; div_lia. }
      replace (_ && _) with true by div_lia. f_equal. subst x. div_lia. }
  set (x := wc / 262144). assert (0 <= x < 5) by (subst x; div_lia).
  exists (240 + x), [128 + (wc / 4096) mod 64; 128 + (wc / 64) mod 64; 128 + wc mod 64], 3%nat, x,
    (if x =? 0 then 144 else 128), (if x =? 4 then 143 else 191). split; [done|]. split.
  - unfold lead. replace (240 + x <? 194) with false by lia. replace (240 + x <? 224) with false by lia.
    replace (240 + x <? 240) with false by lia. replace (240 + x <? 245) with true by lia.
    replace (240 + x =? 240) with (x =? 0) by lia. replace (240 + x =? 244) with (x =? 4) by lia. do 4 f_equal. lia.
  - cbn [feed length]. replace (_ && _) with true.
    2:{ destruct (Z.eqb_spec x 0), (Z.eqb_spec x 4); subst x; div_lia. }
    replace (_ && _) with true by div_lia. replace (_ && _) with true by div_lia. f_equal. subst x. div_lia.
Qed.

(** Whatever the automaton accepts is an encoding. *)
Lemma utf8_sound b r v lo hi l wc k : lead b = Some (r, v, lo, hi) -> feed r v lo hi l = Done wc k ->
  scalar wc /\ 128 <= wc /\ exists rest, b :: l = utf8 wc ++ rest /\ k + 1 = Z.of_nat (length (utf8 wc)).
Proof.
  intros Hlead Hf. pose proof (lead_range _ _ _ _ _ Hlead) as Hb. unfold lead in Hlead.
  destruct (Z.ltb_spec b 194); [lia|]. unfold scalar, utf8, cont.
  destruct (Z.ltb_spec b 224); [|destruct (Z.ltb_spec b 240)]; [| |replace (b <? 245) with true in Hlead by lia];
    injection Hlead as <- <- <- <-; cbn [feed] in Hf.
  - destruct l as [|b1 l]; [done|]. cbn [feed] in Hf. destruct (_ && _) eqn:E1 in Hf; [|done]. injection Hf as <- <-.
    set (wc := (b - 192) * 64 + (b1 - 128)). assert (128 <= wc < 2048) by lia.
    split; [lia|]. split; [lia|]. exists l.
    replace (wc <? 128) with false by lia. replace (wc <? 2048) with true by lia. split; [|done].
    simpl. repeat f_equal; subst wc; div_lia.
  - destruct l as [|b1 l]; [done|]. cbn [feed] in Hf. destruct (_ && _) eqn:E1 in Hf; [|done].
    destruct l as [|b2 l]; [done|]. cbn [feed] in Hf. destruct (_ && _) eqn:E2 in Hf; [|done].
    cbv beta iota in Hf. injection Hf as <- <-.
    set (wc := ((b - 224) * 64 + (b1 - 128)) * 64 + (b2 - 128)).
    assert (2048 <= wc < 65536 /\ (wc < 55296 \/ 57344 <= wc)).
    { subst wc. destruct (Z.eqb_spec b 224), (Z.eqb_spec b 237); lia. }
    split; [lia|]. split; [lia|]. exists l.
    replace (wc <? 128) with false by lia. replace (wc <? 2048) with false by lia.
    replace (wc <? 65536) with true by lia. split; [|done].
    simpl. destruct (Z.eqb_spec b 224), (Z.eqb_spec b 237); repeat f_equal; subst wc; div_lia.
  - destruct l as [|b1 l]; [done|]. cbn [feed] in Hf. destruct (_ && _) eqn:E1 in Hf; [|done].
    destruct l as [|b2 l]; [done|]. cbn [feed] in Hf. destruct (_ && _) eqn:E2 in Hf; [|done].
    destruct l as [|b3 l]; [done|]. cbn [feed] in Hf. destruct (_ && _) eqn:E3 in Hf; [|done].
    cbv beta iota in Hf. injection Hf as <- <-.
    set (wc := (((b - 240) * 64 + (b1 - 128)) * 64 + (b2 - 128)) * 64 + (b3 - 128)).
    assert (65536 <= wc < 1114112).
    { subst wc. destruct (Z.eqb_spec b 240), (Z.eqb_spec b 244); lia. }
    split; [lia|]. split; [lia|]. exists l.
    replace (wc <? 128) with false by lia. replace (wc <? 2048) with false by lia.
    replace (wc <? 65536) with false by lia. split; [|done].
    simpl. destruct (Z.eqb_spec b 240), (Z.eqb_spec b 244); repeat f_equal; subst wc; div_lia.
Qed.

(** An unfinished sequence can be finished. *)
Lemma feed_more r v lo hi l r' v' lo' hi' : feed r v lo hi l = More r' v' lo' hi' ->
  (1 <= r <= 3)%nat -> lo <= hi -> (1 <= r' <= 3)%nat /\ lo' <= hi' /\
  exists q wc k, q <> [] /\ feed r v lo hi (l ++ q) = Done wc k.
Proof.
  intros Hf Hr Hlh.
  assert (Hr' : (1 <= r' <= 3)%nat /\ lo' <= hi').
  { revert r v lo hi Hf Hr Hlh. induction l as [|b l IH]; intros r v lo hi Hf Hr Hlh; simpl in Hf; [by simplify_eq|].
    destruct (_ && _); [|done]. destruct r as [|[|r]]; [done..|].
    destruct (feed (S r) _ _ _ l) eqn:E; [done| |done]. simplify_eq. apply IH in E; lia. }
  destruct Hr' as [Hr' Hlh']. split; [done|]. split; [done|].
  assert (Hfin : forall r v lo hi, (1 <= r <= 3)%nat -> lo <= hi -> exists q wc k, q <> [] /\ feed r v lo hi q = Done wc k).
  { clear. intros r. induction r as [|r IH]; intros v lo hi Hr Hlh; [lia|].
    destruct r as [|r].
    - exists [lo], (v * 64 + (lo - 128)), 1. split; [done|]. simpl. by replace (_ && _) with true by lia.
    - destruct (IH (v * 64 + (lo - 128)) 128 191) as (q & wc & k & _ & Hq); [lia..|].
      exists (lo :: q), wc, (k + 1). split; [done|]. cbn [feed]. replace (_ && _) with true by lia. by rewrite Hq. }
  destruct (Hfin r' v' lo' hi' Hr' Hlh') as (q & wc & k & Hq & Hd).
  exists q, wc, (k + Z.of_nat (length l)). split; [done|]. by rewrite feed_app, Hf, Hd.
Qed.

(** A sequence that goes wrong starts no encoding. *)
Lemma feed_bad b r v lo hi l wc : lead b = Some (r, v, lo, hi) -> feed r v lo hi l = Bad -> scalar wc ->
  ~ (utf8 wc `prefix_of` b :: l) /\ ~ (b :: l `prefix_of` utf8 wc).
Proof.
  intros Hlead Hf Hs. pose proof (lead_range _ _ _ _ _ Hlead) as Hb.
  destruct (Z.lt_ge_cases wc 128) as [Ha|Ha].
  { rewrite utf8_ascii by (unfold scalar in Hs; lia).
    split; [intros Hp%prefix_cons_inv_1; lia|intros Hp%prefix_cons_inv_1; lia]. }
  destruct (utf8_complete wc Hs Ha) as (b' & t & r' & v' & lo' & hi' & Hu & Hl' & Hd). rewrite Hu.
  split; intros Hp; pose proof (prefix_cons_inv_1 _ _ _ _ Hp); subst b';
    apply prefix_cons_inv_2 in Hp as [q ->]; rewrite Hl' in Hlead; simplify_eq.
  - by rewrite feed_app, Hd in Hf.
  - by rewrite feed_app, Hf in Hd.
Qed.

(** ** [mbrtowc] *)

Definition initial (s : mbenv) : Prop := shift s = 0.

Lemma mbrtowc_lead b l s : initial s -> bytes (b :: l) ->
  exists ret wc s', mbrtowc 4 (Some (b :: l)) (S (length l)) s = Ret ((ret, wc), s') /\
    if b <? 128 then ret = (if b =? 0 then 0 else 1) /\ wc = Some b /\ s' = s
    else match lead b with
         | None => ret = SZ1 /\ wc = None /\ s' = MbEnv 0 EILSEQ
         | Some (r, v, lo, hi) => fed_ret (feed r v lo hi l) 1 s s' ret wc
         end.
Proof.
  intros Hi [Hb Hl]%Forall_cons. unfold mbrtowc. rewrite !(bind_Ret _ _ _ _ _ (get_Ret s)). rewrite Hi.
  cbn [Nat.eqb]. change (0 =? 0) with true. change (at_ (b :: l) 0) with b. change (4 =? 1) with false. cbn iota.
  destruct (Z.ltb_spec b 128) as [Ha|Ha]; [by eexists _, _, _|].
  assert (Hw : SB - SA <? w32 (b - SA) = bool_decide (lead b = None)).
  { unfold SA, SB. destruct (Z.lt_ge_cases b 194).
    - rewrite bool_decide_eq_true_2 by (unfold lead; by replace (b <? 194) with true by lia).
      replace (w32 (b - 194)) with (b - 194 + 2 ^ 32); [lia|].
      unfold w32. rewrite <- (Z.mod_add _ 1) by lia. by rewrite Z.mod_small by lia.
    - rewrite w32_small by lia. case_bool_decide as Hn.
      + apply lead_None in Hn. lia.
      + destruct (Z.ltb_spec (244 - 194) (b - 194)); [|done]. destruct Hn. unfold lead.
        by repeat (rewrite (proj2 (Z.ltb_ge _ _)) by lia). }
  rewrite Hw. case_bool_decide as Hn; [rewrite Hn; by eexists _, _, _|].
  destruct (lead b) as [[[[r v] lo] hi]|] eqn:El; [|done].
  destruct (bittab_good b) as (r' & v' & lo' & hi' & El' & Hg); [by eapply lead_range|].
  rewrite El in El'. simplify_eq. cbn [pred drop]. by apply mb_rest_feed.
Qed.

Lemma mbrtowc_resume_feed l s r v lo hi : l <> [] -> bytes l -> good (shift s) r v lo hi ->
  exists ret wc s', mbrtowc 4 (Some l) (length l) s = Ret ((ret, wc), s') /\ fed_ret (feed r v lo hi l) 0 s s' ret wc.
Proof.
  intros Hne Hl Hg. unfold mbrtowc. rewrite !(bind_Ret _ _ _ _ _ (get_Ret s)).
  destruct (Nat.eqb_spec (length l) 0) as [Hz|_]; [by apply length_zero_iff_nil in Hz|].
  pose proof (gd_c _ _ _ _ _ Hg). replace (shift s =? 0) with false by lia. by apply mb_rest_feed.
Qed.

(** C37: from the initial state [mbrtowc] decodes exactly UTF-8.  On [n > 0]
    bytes it returns the length of the first character (0 for NUL) and stores
    the character when the bytes begin with the encoding of a scalar value;
    it returns -2 when they are a proper beginning of one; and it returns -1
    with [EILSEQ], in the initial state again, when no scalar value's encoding
    agrees with them: surrogates, overlong forms and values past 10FFFF
    included. *)
Theorem mbrtowc_spec l s : initial s -> bytes l -> l <> [] ->
  exists ret out s', mbrtowc 4 (Some l) (length l) s = Ret ((ret, out), s') /\
    ((exists wc rest, scalar wc /\ l = utf8 wc ++ rest /\
        ret = (if wc =? 0 then 0 else Z.of_nat (length (utf8 wc))) /\ out = Some wc /\ initial s') \/
     (exists wc more, scalar wc /\ utf8 wc = l ++ more /\ more <> [] /\ ret = SZ2 /\ out = None /\ ~ initial s') \/
     ((forall wc, scalar wc -> ~ (utf8 wc `prefix_of` l) /\ ~ (l `prefix_of` utf8 wc)) /\
        ret = SZ1 /\ out = None /\ s' = MbEnv 0 EILSEQ)).
Proof.
  intros Hi Hl Hne. destruct l as [|b l]; [done|].
  destruct (mbrtowc_lead b l s Hi Hl) as (ret & out & s' & Hrun & Hcase).
  exists ret, out, s'. split; [exact Hrun|]. apply Forall_cons in Hl as [Hb Hl].
  destruct (Z.ltb_spec b 128) as [Ha|Ha].
  { destruct Hcase as (-> & -> & ->). left. exists b, l. rewrite utf8_ascii by lia.
    split; [apply scalar_ascii; lia|]. by split_and!. }
  destruct (lead b) as [[[[r v] lo] hi]|] eqn:El.
  2:{ right. right. split; [|done]. intros wc Hs.
      destruct (Z.lt_ge_cases wc 128) as [Hw|Hw].
      { rewrite utf8_ascii by (unfold scalar in Hs; lia). split; intros Hp%prefix_cons_inv_1; lia. }
      destruct (utf8_complete wc Hs Hw) as (b' & t & r' & v' & lo' & hi' & Hu & Hl' & _). rewrite Hu.
      split; intros Hp%prefix_cons_inv_1; subst b'; congruence. }
  destruct (feed r v lo hi l) as [wc k|r' v' lo' hi'|] eqn:Ef; cbn [fed_ret] in Hcase.
  - destruct Hcase as (-> & -> & ->). left.
    destruct (utf8_sound _ _ _ _ _ _ _ _ El Ef) as (Hs & Hw & rest & Heq & Hk).
    exists wc, rest. split_and!; try done. replace (wc =? 0) with false by lia. lia.
  - destruct Hcase as (-> & -> & _ & Hg). right. left.
    destruct (bittab_good b) as (r0 & v0 & lo0 & hi0 & El0 & Hg0); [by eapply lead_range|].
    rewrite El in El0. simplify_eq.
    destruct (feed_more _ _ _ _ _ _ _ _ _ Ef (gd_r _ _ _ _ _ Hg0)) as (_ & _ & q & wc & k & Hq & Hd).
    { unfold lead in El. repeat case_match; simplify_eq; lia. }
    destruct (utf8_sound _ _ _ _ _ _ _ _ El Hd) as (Hs & Hw & rest & Heq & Hk).
    exists wc. pose proof (utf8_length wc).
    assert (Hpre : b :: l `prefix_of` utf8 wc \/ utf8 wc `prefix_of` b :: l).
    { apply (prefix_weak_total _ _ (b :: l ++ q)); [exists q; done|exists rest; done]. }
    destruct Hpre as [[more Hm]|[x Hx]].
    + exists more. split_and!; try done.
      * intros ->. rewrite app_nil_r in Hm. destruct (utf8_complete wc Hs Hw) as (b' & t & ? & ? & ? & ? & Hu & Hl' & Hdone).
        rewrite Hu in Hm. injection Hm as -> ->. rewrite El in Hl'. simplify_eq. congruence.
      * unfold initial. pose proof (gd_c _ _ _ _ _ Hg). lia.
    + destruct (utf8_complete wc Hs Hw) as (b' & t & ? & ? & ? & ? & Hu & Hl' & Hdone).
      rewrite Hu in Hx. simpl in Hx. injection Hx as <- ->. rewrite El in Hl'. simplify_eq.
      by rewrite feed_app, Hdone in Ef.
  - right. right. destruct Hcase as (-> & -> & ->). split; [|done]. intros wc Hs. by apply (feed_bad _ _ _ _ _ _ _ El Ef Hs).
Qed.

(** The decoder may be fed in pieces: after [p] left it waiting (-2), the
    next bytes [q] give the character, the error or the new waiting state that
    [p ++ q] gives at once, and the return value counts the bytes of [q]. *)
Theorem mbrtowc_pieces p q s s1 : initial s -> bytes (p ++ q) -> p <> [] -> q <> [] ->
  mbrtowc 4 (Some p) (length p) s = Ret ((SZ2, None), s1) ->
  exists ret out s2 s3, mbrtowc 4 (Some q) (length q) s1 = Ret ((ret, out), s2) /\
    mbrtowc 4 (Some (p ++ q)) (length (p ++ q)) s =
      Ret ((if ret <=? 4 then ret + Z.of_nat (length p) else ret, out), s3) /\
    (initial s2 <-> initial s3) /\ mb_errno s2 = mb_errno s3.
Proof.
  intros Hi Hb Hp Hq Hrun. apply Forall_app in Hb as Hb'. destruct Hb' as [Hbp Hbq].
  destruct p as [|b p]; [done|]. destruct (mbrtowc_lead b p s Hi Hbp) as (ret1 & o1 & s1' & Hrun1 & Hcase).
  simpl length in Hrun. rewrite Hrun in Hrun1. injection Hrun1 as <- <- <-.
  destruct (mbrtowc_lead b (p ++ q) s Hi Hb) as (ret3 & o3 & s3 & Hrun3 & Hcase3).
  destruct (b <? 128); [destruct Hcase as [Hc _]; by destruct (b =? 0)|].
  destruct (lead b) as [[[[r v] lo] hi]|] eqn:El; [|by destruct Hcase].
  rewrite feed_app in Hcase3.
  destruct (feed r v lo hi p) as [wc k|r' v' lo' hi'|]; cbn [fed_ret] in Hcase; [by destruct Hcase as (_ & ? & _)| |by destruct Hcase].
  destruct Hcase as (_ & _ & He & Hg).
  destruct (mbrtowc_resume_feed q s1 r' v' lo' hi' Hq Hbq Hg) as (ret2 & o2 & s2 & Hrun2 & Hcase2).
  exists ret2, o2, s2, s3. split; [exact Hrun2|].
  assert (Hk : forall wc k, feed r' v' lo' hi' q = Done wc k -> k <= 4).
  { assert (Hgen : forall l r v lo hi wc k, feed r v lo hi l = Done wc k -> (r <= 3)%nat -> k <= 3 /\ k <= Z.max 1 (Z.of_nat r)).
    { clear. induction l as [|x l IH]; intros r v lo hi wc k; simpl; [done|]. destruct (_ && _); [|done].
      destruct r as [|[|r]]; [intros [= <- <-]; lia..|]. destruct (feed (S r) _ _ _ l) as [wc' k'| |] eqn:E; [|done..].
      intros [= <- <-] Hr. apply IH in E; lia. }
    intros wc k Hd. pose proof (gd_r _ _ _ _ _ Hg). apply Hgen in Hd; lia. }
  simpl app. simpl length. rewrite Hrun3.
  destruct (feed r' v' lo' hi' q) as [wc k|r2 v2 lo2 hi2|] eqn:Eq; cbn [fed_ret] in Hcase2, Hcase3.
  - destruct Hcase2 as (-> & -> & ->), Hcase3 as (-> & -> & ->). specialize (Hk _ _ eq_refl).
    replace (0 + k <=? 4) with true by lia. split; [do 3 f_equal; lia|]. split; [done|]. simpl. congruence.
  - destruct Hcase2 as (-> & -> & He2 & Hg2), Hcase3 as (-> & -> & He3 & Hg3). split; [done|].
    unfold initial. pose proof (gd_c _ _ _ _ _ Hg2). pose proof (gd_c _ _ _ _ _ Hg3). split; [lia|congruence].
  - destruct Hcase2 as (-> & -> & ->), Hcase3 as (-> & -> & ->). by split_and!.
Qed.

(** C38: [wcrtomb] stores the UTF-8 encoding of a scalar value and returns its
    length; every other [int], surrogates and negative values included, is
    refused with [EILSEQ] and nothing stored.  Decoding what it stored gives
    the character back. *)
Theorem wcrtomb_spec wc s : - 2 ^ 31 <= wc < 2 ^ 31 ->
  wcrtomb 4 false wc s =
    (if decide (scalar wc) then Ret ((Z.of_nat (length (utf8 wc)), utf8 wc), s)
     else Ret ((SZ1, []), MbEnv (shift s) EILSEQ)) /\
  (scalar wc -> initial s -> exists s', mbrtowc 4 (Some (utf8 wc)) (length (utf8 wc)) s =
     Ret ((if wc =? 0 then 0 else Z.of_nat (length (utf8 wc)), Some wc), s') /\ initial s').
Proof.
  intros Hwc. split; [by apply wcrtomb_utf8|]. intros Hs Hi.
  destruct (Z.lt_ge_cases wc 128) as [Ha|Ha].
  - rewrite utf8_ascii by (unfold scalar in Hs; lia).
    destruct (mbrtowc_lead wc [] s Hi) as (ret & o & s' & Hrun & Hcase).
    { constructor; [unfold scalar in Hs; lia|done]. }
    replace (wc <? 128) with true in Hcase by lia. destruct Hcase as (-> & -> & ->).
    exists s. split; [exact Hrun|done].
  - destruct (utf8_complete wc Hs Ha) as (b & t & r & v & lo & hi & Hu & Hl & Hd). rewrite Hu.
    destruct (mbrtowc_lead b t s Hi) as (ret & o & s' & Hrun & Hcase).
    { rewrite <- Hu. unfold utf8, bytes. pose proof (cont_range wc). pose proof (cont_range (wc / 64)).
      pose proof (cont_range (wc / 4096)). unfold scalar in Hs.
      repeat case_match; repeat constructor; try lia; div_lia. }
    pose proof (lead_range _ _ _ _ _ Hl). replace (b <? 128) with false in Hcase by lia.
    rewrite Hl, Hd in Hcase. destruct Hcase as (-> & -> & ->).
    exists (MbEnv 0 (mb_errno s)). split; [|done]. replace (wc =? 0) with false by lia.
    cbn [length]. rewrite Hrun. do 3 f_equal. lia.
Qed.
