(* ===== verification/Utf8Strings.v ===== *)
(** The conversions built on the UTF-8 decoder and encoder: [mbtowc], wide
    strings, and UTF-16 with its pending surrogates. *)
From S2P Require Import Prelude.
From S2P Require Import Wasi.
From S2P Require Import Utf8.
From S2P Require Import Utf8Proofs.

(** ** [mbtowc] *)

Lemma feed_short l : forall r v lo hi, (length l < r)%nat ->
  match feed r v lo hi l with Done _ _ => False | _ => True end.
Proof.
  induction l as [|b l IH]; intros r v lo hi Hl; simpl in *; [done|]. destruct (_ && _); [|done].
  destruct r as [|[|r]]; [lia..|]. pose proof (IH (S r) (v * 64 + (b - 128)) 128 191 ltac:(lia)).
  by destruct (feed (S r) _ _ _ l).
Qed.

(** The early test: shifting the lead state [n - 1] times leaves the high bit
    set just when the character needs more than [n] bytes. *)
Lemma lead_needs b n r v lo hi : lead b = Some (r, v, lo, hi) -> (1 <= n <= 3)%nat ->
  has (w32 (Z.shiftl (default 0 (bittab !! Z.to_nat (b - SA))) (6 * Z.of_nat n - 6))) (2 ^ 31) = (n <=? r)%nat.
Proof.
  intros Hl Hn. pose proof (lead_range _ _ _ _ _ Hl) as Hb. apply eqb_prop.
  assert (Hcheck : forallb (fun b => forallb (fun n =>
      match lead b with
      | Some (r, v, lo, hi) =>
          eqb (has (w32 (Z.shiftl (default 0 (bittab !! Z.to_nat (b - SA))) (6 * n - 6))) (2 ^ 31)) (Z.to_nat n <=? r)%nat
      | None => true
      end) (seqZ 1 3)) (seqZ 194 51) = true) by (vm_compute; reflexivity).
  pose proof (forall_below _ _ _ Hcheck b ltac:(lia)) as H1.
  pose proof (forall_below _ _ _ H1 (Z.of_nat n) ltac:(lia)) as H2. cbv beta in H2. rewrite Hl in H2.
  by rewrite Nat2Z.id in H2.
Qed.

Lemma cont_check b : 0 <= b < 256 -> (64 <=? w32 (b - 128)) = negb ((128 <=? b) && (b <=? 191)).
Proof.
  intros Hb. destruct (Z.lt_ge_cases b 128).
  - replace (w32 (b - 128)) with (b - 128 + 2 ^ 32)
      by (unfold w32; rewrite <- (Z.mod_add _ 1) by lia; by rewrite Z.mod_small by lia). lia.
  - rewrite w32_small by lia. lia.
Qed.

Definition mbtowc_bad (s : mbenv) : outcome (Z * option Z * mbenv) := Ret ((-1, None), MbEnv (shift s) EILSEQ).

(** The unrolled decoder after a lead byte with enough bytes. *)
Lemma mbtowc_feed b l r v lo hi s : bytes (b :: l) -> lead b = Some (r, v, lo, hi) ->
  mbtowc 4 (Some (b :: l)) (S (length l)) s =
    match feed r v lo hi l with
    | Done wc k => Ret ((1 + k, Some wc), s)
    | _ => mbtowc_bad s
    end.
Proof.
  intros [Hb Hl]%Forall_cons Hlead. pose proof (lead_range _ _ _ _ _ Hlead) as Hbr.
  destruct (bittab_good b Hbr) as (r0 & v0 & lo0 & hi0 & El0 & Hg). rewrite Hlead in El0. simplify_eq.
  unfold mbtowc. cbn [Nat.eqb]. change (at_ (b :: l) 0) with b.
  replace (b <? 128) with false by lia. change (4 =? 1) with false. cbn iota.
  replace (SB - SA <? w32 (b - SA)) with false by (unfold SB, SA; rewrite w32_small by lia; lia).
  set (c := default 0 _) in *.
  destruct ((S (length l) <? 4)%nat && has (w32 (Z.shiftl c (6 * Z.of_nat (S (length l)) - 6))) (2 ^ 31)) eqn:Hneed.
  { apply andb_true_iff in Hneed as [Hlt%Nat.ltb_lt Hneed]. subst c. rewrite (lead_needs b _ _ _ _ _ Hlead) in Hneed by lia.
    apply Nat.leb_le in Hneed. pose proof (feed_short l r0 v0 lo0 hi0 ltac:(lia)). by destruct (feed r0 v0 lo0 hi0 l). }
  assert (Henough : (r0 <= length l)%nat).
  { pose proof (gd_r _ _ _ _ _ Hg). apply andb_false_iff in Hneed as [Hge%Nat.ltb_ge|Hneed]; [lia|].
    destruct (decide (length l < 3)%nat); [|lia]. subst c. rewrite (lead_needs b _ _ _ _ _ Hlead) in Hneed by lia.
    apply Nat.leb_gt in Hneed. lia. }
  pose proof (gd_r _ _ _ _ _ Hg). destruct l as [|b1 l]; [simpl in Henough; lia|].
  apply Forall_cons in Hl as [Hb1 Hl]. change (at_ (b :: b1 :: l) 1) with b1. cbn [feed].
  rewrite (gd_oob _ _ _ _ _ Hg) by done. pose proof (gd_lohi _ _ _ _ _ Hg).
  destruct ((lo0 <=? b1) && (b1 <=? hi0)) eqn:E1; cbn [negb]; [|done].
  pose proof (shift_in c r0 v0 lo0 hi0 b1 Hg ltac:(lia)) as Hs1. cbv zeta in Hs1.
  destruct r0 as [|[|r1]]; [lia|by destruct Hs1 as [-> Ht1]; rewrite Ht1|].
  destruct Hs1 as [Ht1 Hg1]. rewrite Ht1. cbn [negb]. set (c1 := Z.lor (w32 (Z.shiftl c 6)) (w32 (b1 - 128))) in *.
  destruct l as [|b2 l]; [simpl in Henough; lia|].
  apply Forall_cons in Hl as [Hb2 Hl]. change (at_ (b :: b1 :: b2 :: l) 2) with b2. cbn [feed].
  rewrite cont_check by done. destruct ((128 <=? b2) && (b2 <=? 191)) eqn:E2; cbn [negb]; [|done].
  pose proof (shift_in c1 _ _ _ _ b2 Hg1 ltac:(lia)) as Hs2. cbv zeta in Hs2.
  destruct r1 as [|r2]; [by destruct Hs2 as [-> Ht2]; rewrite Ht2|].
  destruct Hs2 as [Ht2 Hg2]. rewrite Ht2. cbn [negb]. set (c2 := Z.lor (w32 (Z.shiftl c1 6)) (w32 (b2 - 128))) in *.
  destruct l as [|b3 l]; [simpl in Henough; lia|].
  apply Forall_cons in Hl as [Hb3 Hl]. change (at_ (b :: b1 :: b2 :: b3 :: l) 3) with b3. cbn [feed].
  rewrite cont_check by done. destruct ((128 <=? b3) && (b3 <=? 191)) eqn:E3; cbn [negb]; [|done].
  pose proof (shift_in c2 _ _ _ _ b3 Hg2 ltac:(lia)) as Hs3. cbv zeta in Hs3.
  destruct r2 as [|r3]; [by destruct Hs3 as [-> _]|lia].
Qed.

(** The unrolled decoder [mbtowc] agrees with [mbrtowc] from the initial
    state on all bytes, except that an incomplete character is an error too;
    it never touches a conversion state. *)
Theorem mbtowc_mbrtowc l s : bytes l -> l <> [] ->
  exists ret out s', mbrtowc 4 (Some l) (length l) (MbEnv 0 (mb_errno s)) = Ret ((ret, out), s') /\
    mbtowc 4 (Some l) (length l) s =
      if ret <=? 4 then Ret ((ret, out), s) else Ret ((-1, None), MbEnv (shift s) EILSEQ).
Proof.
  intros Hl Hne. destruct l as [|b l]; [done|].
  destruct (mbrtowc_lead b l (MbEnv 0 (mb_errno s)) eq_refl Hl) as (ret & out & s' & Hrun & Hcase).
  exists ret, out, s'. split; [exact Hrun|].
  destruct (Z.ltb_spec b 128) as [Ha|Ha].
  { destruct Hcase as (-> & -> & _). unfold mbtowc. cbn [length Nat.eqb]. change (at_ (b :: l) 0) with b.
    replace (b <? 128) with true by lia. by destruct (b =? 0). }
  destruct (lead b) as [[[[r v] lo] hi]|] eqn:El.
  - rewrite (mbtowc_feed _ _ _ _ _ _ _ Hl El).
    destruct (feed r v lo hi l) as [wc k| |] eqn:Ef; destruct Hcase as (-> & -> & _); [|done..].
    destruct (utf8_sound _ _ _ _ _ _ _ _ El Ef) as (_ & _ & rest & _ & Hk).
    pose proof (utf8_length wc). by replace (1 + k <=? 4) with true by lia.
  - destruct Hcase as (-> & -> & _). apply Forall_cons in Hl as [Hb _]. apply lead_None in El.
    unfold mbtowc. cbn [length Nat.eqb]. change (at_ (b :: l) 0) with b.
    replace (b <? 128) with false by lia. change (4 =? 1) with false. cbn iota.
    replace (SB - SA <? w32 (b - SA)) with true; [done|]. unfold SB, SA. destruct (Z.lt_ge_cases b 194).
    + replace (w32 (b - 194)) with (b - 194 + 2 ^ 32); [lia|].
      unfold w32. rewrite <- (Z.mod_add _ 1) by lia. by rewrite Z.mod_small by lia.
    + rewrite w32_small by lia. lia.
Qed.

(** ** Wide strings *)

Definition wide (ws : list Z) : Prop := Forall (fun w => scalar w /\ w <> 0) ws.
Definition encode (ws : list Z) : list Z := concat (map utf8 ws).

(** How many characters of [ws] fit whole into [n] bytes. *)
Fixpoint fit (n : nat) (ws : list Z) : nat :=
  match ws with
  | [] => O
  | w :: ws => if (length (utf8 w) <=? n)%nat then S (fit (n - length (utf8 w)) ws) else O
  end.

(** What is stored: the characters that fit, and the terminator if there is
    room for it behind all of them. *)
Definition stored_string (ws : list Z) (n : nat) : Z * list Z * option nat :=
  let k := fit n ws in
  let out := encode (take k ws) in
  if (k =? length ws)%nat && (length out <? n)%nat then (Z.of_nat (length out), out ++ [0], None)
  else (Z.of_nat (length out), out, Some k).

Lemma scalar_range w : scalar w -> - 2 ^ 31 <= w < 2 ^ 31.
Proof. unfold scalar. lia. Qed.

Lemma wcrtomb_scalar w s : scalar w -> wcrtomb 4 false w s = Ret ((Z.of_nat (length (utf8 w)), utf8 w), s).
Proof. intros Hs. rewrite wcrtomb_utf8 by (by apply scalar_range). by rewrite decide_True. Qed.

Lemma small_char w : scalar w -> w <> 0 -> (127 <=? w32 (w - 1)) = negb (w <? 128).
Proof. intros Hs Hw. unfold scalar in Hs. rewrite w32_small by lia. lia. Qed.

(** One character of the storing loops. *)
Definition append_stored (out : list Z) (k : nat) (r : Z * list Z * option nat) : Z * list Z * option nat :=
  let '(ret, o, p) := r in (Z.of_nat (length out) + ret, out ++ o, option_map (Nat.add k) p).

Lemma stored_cons w ws n : (length (utf8 w) <= n)%nat ->
  stored_string (w :: ws) n = append_stored (utf8 w) 1 (stored_string ws (n - length (utf8 w))).
Proof.
  intros Hn. unfold stored_string, encode. cbn [fit]. rewrite (proj2 (Nat.leb_le _ _) Hn).
  cbn [take map concat length Nat.eqb]. set (k := fit _ ws). set (o := concat _).
  rewrite length_app. replace (length (utf8 w) + length o <? n)%nat with (length o <? n - length (utf8 w))%nat.
  2:{ destruct (Nat.ltb_spec (length o) (n - length (utf8 w))), (Nat.ltb_spec (length (utf8 w) + length o) n); done || lia. }
  destruct (_ && _); simpl; rewrite Nat2Z.inj_add, ?app_assoc; done.
Qed.

Lemma append_append o1 k1 o2 k2 r : append_stored o1 k1 (append_stored o2 k2 r) = append_stored (o1 ++ o2) (k1 + k2) r.
Proof.
  destruct r as [[ret o] [p|]]; simpl; rewrite length_app, app_assoc, Nat2Z.inj_add, Z.add_assoc; [|done].
  by rewrite Nat.add_assoc.
Qed.

Lemma stored_nil n : (0 < n)%nat -> stored_string [] n = (0, [0], None).
Proof. intros Hn. by destruct n; [lia|]. Qed.

Lemma stored_full ws n : (length (encode (take 1 ws)) > n)%nat -> ws <> [] -> stored_string ws n = (0, [], Some 0%nat).
Proof.
  intros Hn Hne. destruct ws as [|w ws]; [done|]. unfold encode in Hn. cbn [take map concat] in Hn. rewrite app_nil_r in Hn.
  unfold stored_string. cbn [fit]. by rewrite (proj2 (Nat.leb_gt _ _) Hn).
Qed.

Ltac same_result :=
  lazymatch goal with
  | |- @eq Z _ _ => lia
  | |- @eq nat _ _ => lia
  | |- mret ?x ?s = ?r => change (Ret (x, s) = r); same_result
  | |- _ => (reflexivity || (progress f_equal; same_result))
  end.

Lemma wcs_tail_Ret ws : wide ws -> forall n N out k s, N = (n + length out)%nat ->
  wcs_tail 4 ws n N out k s = Ret (append_stored out k (stored_string ws n), s).
Proof.
  induction 1 as [|w ws [Hs Hw0] _ IH]; intros n N out k s HN; cbn [wcs_tail].
  - destruct (Nat.eqb_spec n 0) as [->|Hn].
    + simpl. rewrite app_nil_r. subst N. same_result.
    + rewrite stored_nil by lia. simpl. subst N. same_result.
  - pose proof (utf8_length w). destruct (Nat.eqb_spec n 0) as [->|Hn].
    { rewrite stored_full; [|unfold encode; cbn [take map concat]; rewrite app_nil_r; lia|done].
      simpl. rewrite app_nil_r. subst N. same_result. }
    rewrite small_char by done. destruct (Z.ltb_spec w 128) as [Ha|Ha]; cbn [negb].
    + assert (Hu : utf8 w = [w]) by (apply utf8_ascii; unfold scalar in Hs; lia).
      rewrite IH by (rewrite length_app; simpl; lia).
      rewrite stored_cons by (rewrite Hu; simpl; lia). rewrite append_append, Hu. simpl length.
      rewrite w8_small by (unfold scalar in Hs; lia). same_result.
    + replace (w =? 0) with false by lia. rewrite (bind_Ret _ _ _ _ _ (wcrtomb_scalar w s Hs)). cbn beta iota.
      replace (w32 (Z.of_nat (length (utf8 w)) + 1) =? 0) with false by (rewrite w32_small by lia; lia).
      destruct (Z.ltb_spec (Z.of_nat n) (Z.of_nat (length (utf8 w)))).
      * rewrite stored_full; [|unfold encode; cbn [take map concat]; rewrite app_nil_r; lia|done].
        simpl. rewrite app_nil_r. subst N. same_result.
      * rewrite Nat2Z.id, IH by (rewrite length_app; lia).
        rewrite stored_cons by lia. rewrite append_append. same_result.
Qed.

Lemma wcs_store_Ret ws : wide ws -> forall n N out k s, N = (n + length out)%nat ->
  wcs_store 4 ws n N out k s = Ret (append_stored out k (stored_string ws n), s).
Proof.
  intros Hws. induction Hws as [|w ws [Hs Hw0] Hws IH]; intros n N out k s HN; cbn [wcs_store].
  - destruct (Nat.ltb_spec n 4); [apply wcs_tail_Ret; [by constructor|done]|].
    rewrite stored_nil by lia. simpl. subst N. same_result.
  - destruct (Nat.ltb_spec n 4); [apply wcs_tail_Ret; [by constructor|done]|].
    pose proof (utf8_length w). rewrite small_char by done. destruct (Z.ltb_spec w 128) as [Ha|Ha]; cbn [negb].
    + assert (Hu : utf8 w = [w]) by (apply utf8_ascii; unfold scalar in Hs; lia).
      rewrite IH by (rewrite length_app; simpl; lia).
      rewrite stored_cons by (rewrite Hu; simpl; lia). rewrite append_append, Hu. simpl length.
      rewrite w8_small by (unfold scalar in Hs; lia). same_result.
    + replace (w =? 0) with false by lia. rewrite (bind_Ret _ _ _ _ _ (wcrtomb_scalar w s Hs)). cbn beta iota.
      replace (w32 (Z.of_nat (length (utf8 w)) + 1) =? 0) with false by (rewrite w32_small by lia; lia).
      rewrite Nat2Z.id, IH by (rewrite length_app; lia).
      rewrite stored_cons by lia. rewrite append_append. same_result.
Qed.

Lemma wcs_count_Ret ws : wide ws -> forall n s, 0 <= n -> n + Z.of_nat (length (encode ws)) < 2 ^ 32 ->
  wcs_count 4 ws n s = Ret (n + Z.of_nat (length (encode ws)), s).
Proof.
  induction 1 as [|w ws [Hs Hw0] _ IH]; intros n s Hn Hlen; cbn [wcs_count]; [unfold encode; simpl; same_result|].
  unfold encode in Hlen |- *. cbn [map concat] in *. rewrite length_app in *. fold (encode ws) in *.
  pose proof (utf8_length w). replace (w =? 0) with false by lia. rewrite (w32_small w) by (unfold scalar in Hs; lia).
  destruct (Z.leb_spec 128 w) as [Ha|Ha].
  - rewrite (bind_Ret _ _ _ _ _ (wcrtomb_scalar w s Hs)). cbn beta iota.
    replace (w32 (Z.of_nat (length (utf8 w)) + 1) =? 0) with false by (rewrite w32_small by lia; lia).
    rewrite w32_small, IH by lia. do 2 f_equal. lia.
  - rewrite utf8_ascii in * by (unfold scalar in Hs; lia). simpl length in *.
    rewrite w32_small, IH by lia. do 2 f_equal. lia.
Qed.

Lemma fit_spec n ws : (fit n ws <= length ws)%nat /\ (length (encode (take (fit n ws) ws)) <= n)%nat /\
  ((fit n ws < length ws)%nat -> (n < length (encode (take (S (fit n ws)) ws)))%nat).
Proof.
  revert n. induction ws as [|w ws IH]; intros n; simpl; [unfold encode; simpl; lia|].
  destruct (Nat.leb_spec (length (utf8 w)) n).
  - destruct (IH (n - length (utf8 w))%nat) as (H1 & H2 & H3). unfold encode in *. cbn [take map concat].
    rewrite !length_app. split; [lia|]. split; [lia|]. intros Hlt. specialize (H3 ltac:(lia)).
    change (take (S (fit (n - length (utf8 w)) ws)) ws) with (take (S (fit (n - length (utf8 w)) ws)) ws) in H3. lia.
  - unfold encode. simpl. rewrite app_nil_r. lia.
Qed.

(** [wcsrtombs] of a string of scalar values stores the encodings of the
    longest prefix that fits into [n] bytes whole, never a part of a
    character, and the terminator when the whole string and it fit; it returns
    the number of bytes before the terminator, and with no destination the
    length of the whole encoding. *)
Theorem wcsrtombs_spec ws n s : wide ws -> Z.of_nat (length (encode ws)) < 2 ^ 32 ->
  wcsrtombs 4 true ws n s = Ret ((Z.of_nat (length (encode ws)), [], Some 0%nat), s) /\
  exists k out, out = encode (take k ws) /\ (k <= length ws)%nat /\ (length out <= n)%nat /\
    ((k < length ws)%nat -> (n < length (encode (take (S k) ws)))%nat) /\
    wcsrtombs 4 false ws n s =
      Ret (if decide (k = length ws /\ (length out < n)%nat)
           then (Z.of_nat (length out), out ++ [0], None)
           else (Z.of_nat (length out), out, Some k), s).
Proof.
  intros Hws Hlen. split.
  - unfold wcsrtombs. assert (Hc : wcs_count 4 ws 0 s = Ret (Z.of_nat (length (encode ws)), s)) by (by apply wcs_count_Ret).
    by rewrite (bind_Ret _ _ _ _ _ Hc).
  - destruct (fit_spec n ws) as (H1 & H2 & H3). exists (fit n ws), (encode (take (fit n ws) ws)). split_and!; [done..|].
    unfold wcsrtombs. rewrite wcs_store_Ret by (done || simpl; lia). unfold stored_string.
    destruct (Nat.eqb_spec (fit n ws) (length ws)), (Nat.ltb_spec (length (encode (take (fit n ws) ws))) n);
      cbn [andb]; case_decide; try lia; done.
Qed.

(** ** UTF-16 *)

(** The surrogate pair of a character past FFFF. *)
Definition high (wc : Z) : Z := 55232 + wc / 1024.
Definition low (wc : Z) : Z := 56320 + wc mod 1024.

Lemma mbrtowc_utf8 wc s : scalar wc -> initial s -> 128 <= wc ->
  mbrtowc 4 (Some (utf8 wc)) (length (utf8 wc)) s = Ret ((Z.of_nat (length (utf8 wc)), Some wc), MbEnv 0 (mb_errno s)).
Proof.
  intros Hs Hi Ha. destruct (utf8_complete wc Hs Ha) as (b & t & r & v & lo & hi & Hu & Hl & Hd). rewrite Hu.
  destruct (mbrtowc_lead b t s Hi) as (ret & o & s' & Hrun & Hcase).
  { rewrite <- Hu. unfold utf8, bytes. pose proof (cont_range wc). pose proof (cont_range (wc / 64)).
    pose proof (cont_range (wc / 4096)). unfold scalar in Hs. repeat case_match; repeat constructor; try lia; div_lia. }
  pose proof (lead_range _ _ _ _ _ Hl). replace (b <? 128) with false in Hcase by lia.
  rewrite Hl, Hd in Hcase. destruct Hcase as (-> & -> & ->). cbn [length]. rewrite Hrun. do 3 f_equal. lia.
Qed.

(** UTF-16 in both directions.  A character past FFFF is read as its high
    and then, without reading further bytes (-3), its low surrogate; given in
    that order the two surrogates are written as the character; the
    conversion state is initial again after each pair.  A high surrogate not
    followed by a low one is refused. *)
Theorem utf16_pairs wc any n c s : scalar wc -> 65536 <= wc -> initial s ->
  0 <= c < 65536 -> ~ (56320 <= c < 57344) ->
  exists s1 s2 s3 s4 s5,
    mbrtoc16 4 (Some (utf8 wc)) 4 s = Ret ((4, Some (high wc)), s1) /\
    mbrtoc16 4 any n s1 = Ret ((SZ3, match any with Some _ => Some (low wc) | None => None end), s2) /\ initial s2 /\
    c16rtomb 4 false (high wc) s = Ret ((0, []), s3) /\
    c16rtomb 4 false (low wc) s3 = Ret ((4, utf8 wc), s4) /\ initial s4 /\
    c16rtomb 4 false c s3 = Ret ((SZ1, []), s5) /\ s5 = MbEnv 0 EILSEQ.
Proof.
  intros Hs Hw Hi Hc Hnl. unfold scalar in Hs.
  assert (Hlen : length (utf8 wc) = 4%nat).
  { unfold utf8. replace (wc <? 128) with false by lia. replace (wc <? 2048) with false by lia.
    by replace (wc <? 65536) with false by lia. }
  set (s1 := MbEnv (low wc) (mb_errno s)).
  set (s3 := MbEnv (w32 (Z.shiftl (high wc - 55232) 10)) (mb_errno s)).
  assert (Hlow : 56320 <= low wc < 57344) by (unfold low; div_lia).
  assert (Hhigh : 55296 <= high wc < 56320) by (unfold high; div_lia).
  assert (Hx : w32 (Z.shiftl (high wc - 55232) 10) = wc / 1024 * 1024).
  { rewrite Z.shiftl_mul_pow2 by lia. unfold high. rewrite w32_small by div_lia. lia. }
  assert (Hx0 : (w32 (Z.shiftl (high wc - 55232) 10) =? 0) = false) by (rewrite Hx; div_lia).
  exists s1, (MbEnv 0 (mb_errno s)), s3, (MbEnv 0 (mb_errno s)), (MbEnv 0 EILSEQ).
  split_and!; try done.
  - unfold mbrtoc16, mbrtoc16_from. rewrite (bind_Ret _ _ _ _ _ (get_Ret s)). rewrite Hi. change (0 <? s32 0) with false. cbn iota.
    pose proof (mbrtowc_utf8 wc s ltac:(unfold scalar; lia) Hi ltac:(lia)) as Hm. rewrite Hlen in Hm.
    rewrite (bind_Ret _ _ _ _ _ Hm). cbn beta iota. change (Z.of_nat 4 <=? 4) with true. cbn iota.
    replace (65536 <=? wc) with true by lia. change 1023 with (Z.ones 10). rewrite land_low, Z.shiftr_div_pow2 by lia.
    mnext. unfold w16. change (2 ^ 10) with 1024. rewrite Z.mod_small by (unfold high in Hhigh; lia).
    unfold s1, low, high. cbn [mb_errno]. rewrite (Z.add_comm 56320). reflexivity.
  - assert (Hfrom : forall l m, mbrtoc16_from 4 l m s1 = Ret ((SZ3, Some (low wc)), MbEnv 0 (mb_errno s))).
    { intros l m. unfold mbrtoc16_from. rewrite (bind_Ret _ _ _ _ _ (get_Ret s1)). cbn [shift s1].
      rewrite s32_small by lia. replace (0 <? low wc) with true by lia. mnext. unfold w16. by rewrite Z.mod_small by lia. }
    destruct any as [l|]; [apply Hfrom|]. unfold mbrtoc16. by rewrite (bind_Ret _ _ _ _ _ (Hfrom [] 1%nat)).
  - unfold c16rtomb. rewrite (bind_Ret _ _ _ _ _ (get_Ret s)). rewrite Hi. change (0 =? 0) with true. cbn [andb].
    rewrite w32_small by lia. by replace (high wc - 55296 <? 1024) with true by lia.
  - unfold c16rtomb. rewrite (bind_Ret _ _ _ _ _ (get_Ret s3)). cbn [shift s3]. rewrite Hx0. cbn [andb negb].
    rewrite (w32_small (low wc - 56320)) by lia. replace (1024 <=? low wc - 56320) with false by lia. mnext.
    replace (s32 (w32 (Z.shiftl (high wc - 55232) 10) + low wc - 56320)) with wc.
    + rewrite wcrtomb_scalar by (unfold scalar; lia). by rewrite Hlen.
    + rewrite Hx. unfold low. rewrite s32_small; div_lia.
  - unfold c16rtomb. rewrite (bind_Ret _ _ _ _ _ (get_Ret s3)). cbn [shift s3]. rewrite Hx0. cbn [andb negb].
    replace (1024 <=? w32 (c - 56320)) with true; [done|]. destruct (Z.lt_ge_cases c 56320).
    + replace (w32 (c - 56320)) with (c - 56320 + 2 ^ 32); [lia|].
      unfold w32. rewrite <- (Z.mod_add _ 1) by lia. by rewrite Z.mod_small by lia.
    + rewrite w32_small by lia. lia.
Qed.
