(* ===== verification/Utf8Mbs.v ===== *)
(** Multibyte strings to wide strings ([mbsrtowcs.c], [mbsnrtowcs.c],
    [mbstowcs.c]): the decoder unrolled into two loops, with whole words of
    ASCII taken at a time and entries in the middle of both loops for a
    character begun by an earlier call. *)
From S2P Require Import Prelude.
From S2P Require Import Wasi.
From S2P Require Import Utf8.
From S2P Require Import Utf8Proofs.
From S2P Require Import Utf8Strings.

(** A pointer into the string is its offset from [*src]; the bytes are read
    by [byte_at], the terminator past the end of the list. *)
Definition byte_at (s : list Z) (i : Z) : Z := at_ s (Z.to_nat i).

(** The [w32] at [s + i], little-endian. *)
Definition word_at (s : list Z) (i : Z) : Z :=
  byte_at s i + 2 ^ 8 * (byte_at s (i + 1) + 2 ^ 8 * (byte_at s (i + 2) + 2 ^ 8 * byte_at s (i + 3))).

(** [!((x | x-0x01010101) & 0x80808080)]. *)
Definition ascii_word (x : Z) : bool := negb (has (Z.lor x (w32 (x - 16843009))) 2155905152).

(** [*s-1u < 0x7f], and the test in front of the loop on words. *)
Definition ascii (b : Z) : bool := w32 (b - 1) <? 127.
Definition on_word (base : Z) (s : list Z) (i : Z) : bool :=
  ascii (byte_at s i) && (w32 (base + i) mod 4 =? 0).

(** *** With a null destination *)

Fixpoint skip_words (fuel : nat) (s : list Z) (i wn : Z) : MB (Z * Z) :=
  match fuel with
  | O => halt OutOfFuel
  | S fuel => if ascii_word (word_at s i) then skip_words fuel s (i + 4) (w32 (wn - 4)) else mret (i, wn)
  end.

(** From [resume0] to the end of the body: the new [s], and whether it did
    not [break]. *)
Definition count_rest (s : list Z) (c i : Z) : Z * bool :=
  if OOB c (byte_at s i) then (i - 1, false) else
  let i := i + 1 in
  if has c (2 ^ 25) then
    if 64 <=? w32 (byte_at s i - 128) then (i - 2, false) else
    let i := i + 1 in
    if has c (2 ^ 19) then
      if 64 <=? w32 (byte_at s i - 128) then (i - 3, false) else (i + 1, true)
    else (i, true)
  else (i, true).

(** The loop, entered at its head with [c = 0]; it ends with [s], [c] and [wn]. *)
Fixpoint count_loop (fuel : nat) (base : Z) (s : list Z) (i wn : Z) : MB (Z * Z * Z) :=
  match fuel with
  | O => halt OutOfFuel
  | S fuel =>
      '(i, wn) ← if on_word base s i then skip_words (S (length s)) s i wn else mret (i, wn);
      let b := byte_at s i in
      if ascii b then count_loop fuel base s (i + 1) (w32 (wn - 1))
      else if SB - SA <? w32 (b - SA) then mret (i, 0, wn)
      else
        let c := default 0 (bittab !! Z.to_nat (b - SA)) in
        match count_rest s c (i + 1) with
        | (i, false) => mret (i, c, wn)
        | (i, true) => count_loop fuel base s i (w32 (wn - 1))
        end
  end.

(** *** With a destination

    [out] are the characters stored so far. *)

Fixpoint copy_words (fuel : nat) (s : list Z) (i wn : Z) (out : list Z) : MB (Z * Z * list Z) :=
  match fuel with
  | O => halt OutOfFuel
  | S fuel =>
      if (5 <=? wn) && ascii_word (word_at s i) then
        copy_words fuel s (i + 4) (w32 (wn - 4))
          (out ++ [byte_at s i; byte_at s (i + 1); byte_at s (i + 2); byte_at s (i + 3)])
      else mret (i, wn, out)
  end.

(** From [resume] to the store: the new [s], [c], and whether it did not
    [break]. *)
Definition shift_byte (s : list Z) (c i : Z) : Z := Z.lor (w32 (Z.shiftl c 6)) (w32 (byte_at s i - 128)).
Definition store_rest (s : list Z) (c i : Z) : Z * Z * bool :=
  if OOB c (byte_at s i) then (i - 1, c, false) else
  let c := shift_byte s c i in
  let i := i + 1 in
  if has c (2 ^ 31) then
    if 64 <=? w32 (byte_at s i - 128) then (i - 2, c, false) else
    let c := shift_byte s c i in
    let i := i + 1 in
    if has c (2 ^ 31) then
      if 64 <=? w32 (byte_at s i - 128) then (i - 3, c, false) else (i + 1, shift_byte s c i, true)
    else (i, c, true)
  else (i, c, true).

(** How the storing loop is left: by its [return wn0], or by a [break]. *)
Inductive store_end := StoreFull (i : Z) (out : list Z) | StoreBreak (i c wn : Z) (out : list Z).

Fixpoint store_loop (fuel : nat) (base : Z) (s : list Z) (i wn : Z) (out : list Z) : MB store_end :=
  match fuel with
  | O => halt OutOfFuel
  | S fuel =>
      if wn =? 0 then mret (StoreFull i out) else
      '(i, wn, out) ← if on_word base s i then copy_words (S (length s)) s i wn out else mret (i, wn, out);
      let b := byte_at s i in
      if ascii b then store_loop fuel base s (i + 1) (w32 (wn - 1)) (out ++ [b])
      else if SB - SA <? w32 (b - SA) then mret (StoreBreak i 0 wn out)
      else
        match store_rest s (default 0 (bittab !! Z.to_nat (b - SA))) (i + 1) with
        | (i, c, false) => mret (StoreBreak i c wn out)
        | (i, c, true) => store_loop fuel base s i (w32 (wn - 1)) (out ++ [c])
        end
  end.

(** [MB_CUR_MAX == 1]. *)
Fixpoint byte_loop (fuel : nat) (s : list Z) (i wn wn0 : Z) (out : list Z) : MB (Z * list Z * option Z) :=
  match fuel with
  | O => halt OutOfFuel
  | S fuel =>
      if wn =? 0 then mret (wn0, out, Some i)
      else if byte_at s i =? 0 then mret (w32 (wn0 - wn), out ++ [0], None)
      else byte_loop fuel s (i + 1) (w32 (wn - 1)) wn0 (out ++ [CODEUNIT (byte_at s i)])
  end.

(** *** The functions

    The result is the return value, what is stored at [ws], and [*src] (an
    offset, or [None] for [NULL]).  [st] says whether the caller passes a
    state; its word is [shift]. *)
Section Mbs.
Variable mb_cur_max : Z.

(** Behind the loops. *)
Definition mbs_end (null : bool) (s : list Z) (i c wn wn0 : Z) (out : list Z) : MB (Z * list Z * option Z) :=
  if (c =? 0) && (byte_at s i =? 0) then
    mret (w32 (wn0 - wn), if null then out else out ++ [0], if null then Some 0 else None)
  else fail_ilseq;; mret (SZ1, out, if null then Some 0 else Some i).

Definition store_end_at (s : list Z) (wn0 : Z) (e : store_end) : MB (Z * list Z * option Z) :=
  match e with
  | StoreFull i out => mret (wn0, out, Some i)
  | StoreBreak i c wn out => mbs_end false s i c wn wn0 out
  end.

Definition mbsrtowcs (null : bool) (base : Z) (s : list Z) (wn : Z) (st : bool) : MB (Z * list Z * option Z) :=
  let fuel := S (length s) in
  x ← get;
  let c := if st then shift x else 0 in
  if negb (c =? 0) then
    if null then
      match count_rest s c 0 with
      | (i, false) => mbs_end true s i c wn wn []
      | (i, true) => '(i, c, wn') ← count_loop fuel base s i (w32 (wn - 1)); mbs_end true s i c wn' wn []
      end
    else
      set_shift 0;;
      match store_rest s c 0 with
      | (i, c, false) => mbs_end false s i c wn wn []
      | (i, c, true) => store_loop fuel base s i (w32 (wn - 1)) [c] ≫= store_end_at s wn
      end
  else if mb_cur_max =? 1 then
    if null then mret (Z.of_nat (length (c_str s)), [], Some 0)
    else byte_loop fuel s 0 wn wn []
  else if null then
    '(i, c, wn') ← count_loop fuel base s 0 wn; mbs_end true s i c wn' wn []
  else store_loop fuel base s 0 wn [] ≫= store_end_at s wn.

Definition mbstowcs (null : bool) (base : Z) (s : list Z) (wn : Z) : MB (Z * list Z) :=
  r ← mbsrtowcs null base s wn false; mret (fst r).

(** [mbsnrtowcs]: large pieces by [mbsrtowcs], of at most [n / 4] characters,
    while there are many bytes; [s] is [None] when it is [NULL].  The loop ends
    with [s], [n], [wn], [cnt] and what is stored. *)
Fixpoint mbsn_blocks (fuel : nat) (null : bool) (base : Z) (buf : list Z) (st : bool)
    (s : option Z) (n wn cnt : Z) (out : list Z) : MB (option Z * Z * Z * Z * list Z) :=
  match fuel with
  | O => halt OutOfFuel
  | S fuel =>
      match s with
      | None => mret (s, n, wn, cnt, out)
      | Some i =>
          let n2 := n / 4 in
          if negb (wn =? 0) && ((wn <=? n2) || (32 <? n2)) then
            let n2 := if wn <=? n2 then wn else n2 in
            '(l, stored, src) ← mbsrtowcs false (base + i) (drop (Z.to_nat i) buf) n2 st;
            let out := if null then out else out ++ stored in
            let s := option_map (Z.add i) src in
            if w32 (l + 1) =? 0 then mret (s, n, 0, l, out)
            else
              let wn := if null then wn else w32 (wn - l) in
              let n := match s with Some j => w32 (n - (j - i)) | None => 0 end in
              mbsn_blocks fuel null base buf st s n wn (w32 (cnt + l)) out
          else mret (s, n, wn, cnt, out)
      end
  end.

(** Then single characters by [mbrtowc].  [*(unsigned * )st = 0] rolls a
    partial character back: there is no such object when [st] is [NULL]. *)
Fixpoint mbsn_chars (fuel : nat) (null : bool) (buf : list Z) (st : bool) (i n wn cnt : Z) (out : list Z)
    : MB (Z * list Z * option Z) :=
  match fuel with
  | O => halt OutOfFuel
  | S fuel =>
      if negb (wn =? 0) && negb (n =? 0) then
        '(l, wc) ← mbrtowc mb_cur_max (Some (drop (Z.to_nat i) buf)) (Z.to_nat n);
        let out := match wc with Some wc => if null then out else out ++ [wc] | None => out end in
        if w32 (l + 2) <=? 2 then
          if w32 (l + 1) =? 0 then mret (l, out, Some i)
          else if l =? 0 then mret (cnt, out, None)
          else (if st then set_shift 0 else halt Undefined);; mret (cnt, out, Some i)
        else mbsn_chars fuel null buf st (i + l) (w32 (n - l)) (w32 (wn - 1)) (w32 (cnt + 1)) out
      else mret (cnt, out, Some i)
  end.

(** With a null destination the characters go to [wbuf], of 256, and [*src]
    stays. *)
Definition mbsnrtowcs (null : bool) (base : Z) (buf : list Z) (n wn : Z) (st : bool) : MB (Z * list Z * option Z) :=
  let fuel := S (S (length buf)) in
  '(s, n, wn, cnt, out) ← mbsn_blocks fuel null base buf st (Some 0) n (if null then 256 else wn) 0 [];
  '(cnt, out, s) ← match s with
                   | None => mret (cnt, out, None)
                   | Some i => mbsn_chars fuel null buf st i n wn cnt out
                   end;
  mret (cnt, out, if null then Some 0 else s).

End Mbs.

(** * [mbsrtowcs] decodes: the unrolled loops follow the automaton of
    [Utf8Proofs], the words of ASCII are whole characters. *)

(** ** Bits *)

Lemma has_testbit x k : 0 <= k -> has x (2 ^ k) = Z.testbit x k.
Proof.
  intros Hk. unfold has. destruct (Z.testbit x k) eqn:E.
  - apply negb_true_iff, Z.eqb_neq. intros H0. apply (f_equal (fun y => Z.testbit y k)) in H0.
    rewrite Z.land_spec, E, Z.pow2_bits_true, Z.bits_0 in H0 by done. done.
  - apply negb_false_iff, Z.eqb_eq. apply Z.bits_inj'. intros n Hn. rewrite Z.land_spec, Z.bits_0.
    destruct (decide (n = k)) as [->|Hne]; [by rewrite E|]. by rewrite Z.pow2_bits_false, andb_false_r by lia.
Qed.

(** The top bit of a byte inside an integer. *)
Lemma top_bit y k q b r : 0 <= k -> y = q * 2 ^ (k + 8) + b * 2 ^ k + r -> 0 <= r < 2 ^ k -> 0 <= b < 256 ->
  Z.testbit y (k + 7) = (128 <=? b).
Proof.
  intros Hk Hy Hr Hb. rewrite Z.testbit_eqb by lia.
  replace (y / 2 ^ (k + 7)) with (2 * q + b / 128).
  - replace ((2 * q + b / 128) `mod` 2) with (b / 128); [div_lia|].
    rewrite Z.add_comm, Z.mul_comm, Z.mod_add by lia. symmetry. apply Z.mod_small. div_lia.
  - rewrite (Z.pow_add_r 2 k 7), <- Z.div_div by lia.
    replace (y / 2 ^ k) with (q * 256 + b); [div_lia|].
    rewrite Hy, Z.pow_add_r by lia. apply (Z.div_unique _ _ _ r); lia.
Qed.

Lemma ascii_mask y k : has y 2155905152 = false -> In k [7; 15; 23; 31] -> Z.testbit y k = false.
Proof.
  unfold has. intros H%negb_false_iff%Z.eqb_eq Hin. apply (f_equal (fun z => Z.testbit z k)) in H.
  rewrite Z.land_spec, Z.bits_0 in H.
  assert (Hk : Z.testbit 2155905152 k = true) by (repeat destruct Hin as [<-|Hin]; try done).
  by rewrite Hk, andb_true_r in H.
Qed.

Definition plain (b : Z) : Prop := 0 < b < 128.

Lemma ascii_word_sound b0 b1 b2 b3 : 0 <= b0 < 256 -> 0 <= b1 < 256 -> 0 <= b2 < 256 -> 0 <= b3 < 256 ->
  ascii_word (b0 + 2 ^ 8 * (b1 + 2 ^ 8 * (b2 + 2 ^ 8 * b3))) = true -> plain b0 /\ plain b1 /\ plain b2 /\ plain b3.
Proof.
  intros H0 H1 H2 H3. set (x := b0 + _). unfold ascii_word. intros Hm%negb_true_iff.
  assert (Hbits : forall k, In k [7; 15; 23; 31] -> Z.testbit x k = false /\ Z.testbit (x - 16843009) k = false).
  { intros k Hk. pose proof (ascii_mask _ k Hm Hk) as Hb. rewrite Z.lor_spec in Hb. apply orb_false_iff in Hb as [? Hb].
    split; [done|]. unfold w32 in Hb. rewrite Z.mod_pow2_bits_low in Hb; [done|]. simpl in Hk. lia. }
  assert (Htop : b0 < 128 /\ b1 < 128 /\ b2 < 128 /\ b3 < 128).
  { split_and!; apply Z.leb_gt.
    - rewrite <- (top_bit x 0 (b1 + 2 ^ 8 * (b2 + 2 ^ 8 * b3)) b0 0) by (subst x; lia). by apply Hbits; left.
    - rewrite <- (top_bit x 8 (b2 + 2 ^ 8 * b3) b1 b0) by (subst x; lia). apply Hbits. simpl. tauto.
    - rewrite <- (top_bit x 16 b3 b2 (b0 + 2 ^ 8 * b1)) by (subst x; lia). apply Hbits. simpl. tauto.
    - rewrite <- (top_bit x 24 0 b3 (b0 + 2 ^ 8 * (b1 + 2 ^ 8 * b2))) by (subst x; lia). apply Hbits. simpl. tauto. }
  assert (Hno : forall k q b r, In (k + 7) [7; 15; 23; 31] -> 0 <= k -> x - 16843009 = q * 2 ^ (k + 8) + b * 2 ^ k + r ->
    0 <= r < 2 ^ k -> 0 <= b < 256 -> b <> 255).
  { intros k q b r Hin Hk Hq Hr Hb ->. pose proof (top_bit _ _ _ _ _ Hk Hq Hr Hb) as Ht.
    rewrite (proj2 (Hbits _ Hin)) in Ht. done. }
  assert (b0 <> 0).
  { intros Hz. apply (Hno 0 ((x - 16843009 - 255) / 256) 255 0); [by left|lia| |lia..|done].
    subst x. rewrite Hz. div_lia. }
  assert (b1 <> 0).
  { intros Hz. apply (Hno 8 (b2 - 2 + 2 ^ 8 * (b3 - 1)) 255 (b0 - 1)); [simpl; tauto|lia|subst x; lia..|done]. }
  assert (b2 <> 0).
  { intros Hz. apply (Hno 16 (b3 - 2) 255 (b0 - 1 + 2 ^ 8 * (b1 - 1))); [simpl; tauto|lia|subst x; lia..|done]. }
  assert (b3 <> 0).
  { intros Hz. apply (Hno 24 (-1) 255 (b0 - 1 + 2 ^ 8 * (b1 - 1 + 2 ^ 8 * (b2 - 1)))); [simpl; tauto|lia|subst x; lia..|done]. }
  unfold plain. lia.
Qed.

(** ** The remaining bytes of a character *)

Lemma good_bits c r v lo hi : good c r v lo hi -> has c (2 ^ 25) = (2 <=? r)%nat /\
  ((2 <= r)%nat -> has c (2 ^ 19) = (3 <=? r)%nat).
Proof.
  intros [Hr Hc Hlow Hv _ _]. rewrite !has_testbit by lia.
  rewrite <- (Z.mod_pow2_bits_low c 26 25), <- (Z.mod_pow2_bits_low c 26 19), Hlow, !Z.testbit_eqb by lia.
  destruct r as [|[|[|[|r]]]]; try lia; cbn [tag vmax] in *; (split; [|intros ?]); try lia.
  all: apply Z.eqb_eq || apply Z.eqb_neq; div_lia.
Qed.

Lemma byte_drop s i j : 0 <= i -> byte_at s (i + Z.of_nat j) = at_ (drop (Z.to_nat i) s) j.
Proof. intros Hi. unfold byte_at, at_. rewrite lookup_drop. do 2 f_equal. lia. Qed.

Lemma byte_range s i : bytes s -> 0 <= byte_at s i < 256.
Proof.
  intros Hs. unfold byte_at, at_. destruct (s !! Z.to_nat i) as [b|] eqn:E; simpl; [|lia].
  exact (proj1 (Forall_lookup _ _) Hs _ _ E).
Qed.

(** One byte of the automaton, read from the string: past the end is the
    terminator, which no state accepts. *)
Lemma feed_byte s i r v lo hi : 0 <= i -> 128 <= lo ->
  feed (S r) v lo hi (drop (Z.to_nat i) s) =
    let b := byte_at s i in
    if (lo <=? b) && (b <=? hi) then
      match r with
      | S r' => match feed (S r') (v * 64 + (b - 128)) 128 191 (drop (Z.to_nat (i + 1)) s) with
                | Done wc k => Done wc (k + 1)
                | x => x
                end
      | O => Done (v * 64 + (b - 128)) 1
      end
    else if (length s <=? Z.to_nat i)%nat then More (S r) v lo hi else Bad.
Proof.
  intros Hi Hlo. cbv zeta. replace (byte_at s i) with (at_ (drop (Z.to_nat i) s) 0).
  2:{ rewrite <- byte_drop by done. f_equal. lia. }
  replace (Z.to_nat (i + 1)) with (1 + Z.to_nat i)%nat by lia. replace (drop (1 + Z.to_nat i) s) with (drop 1 (drop (Z.to_nat i) s)) by (rewrite drop_drop; f_equal; lia).
  destruct (Nat.leb_spec (length s) (Z.to_nat i)) as [Hl|Hl].
  - rewrite (drop_ge s) by done. change (at_ [] 0) with 0. by replace (lo <=? 0) with false by lia.
  - destruct (drop (Z.to_nat i) s) as [|b l] eqn:E.
    { apply (f_equal length) in E. rewrite length_drop in E. simpl in E. lia. }
    change (at_ (b :: l) 0) with b. change (drop 1 (b :: l)) with l. cbn [feed].
    destruct ((lo <=? b) && (b <=? hi)); [|done]. by destruct r.
Qed.

Definition accepted (x : fed) (P : Z -> Z -> Prop) (Q : Prop) : Prop :=
  match x with Done wc k => P wc k | _ => Q end.

Ltac pairs := repeat (match goal with |- (_, _) = (_, _) => f_equal end); try lia; try done.

Lemma good_pos c r v lo hi : good c r v lo hi -> exists r', r = S r' /\ (r' <= 2)%nat /\ 128 <= lo.
Proof. intros [Hr _ _ _ ? _]. destruct r as [|r']; [lia|]. exists r'. split; [done|]. lia. Qed.

Lemma count_rest_feed s c i r v lo hi : bytes s -> 0 <= i -> good c r v lo hi ->
  accepted (feed r v lo hi (drop (Z.to_nat i) s)) (fun _ k => count_rest s c i = (i + k, true)) (count_rest s c i = (i - 1, false)).
Proof.
  intros Hs Hi Hg. destruct (good_pos _ _ _ _ _ Hg) as (r' & -> & Hr' & Hlo).
  rewrite feed_byte by lia. unfold count_rest. cbv zeta. rewrite (gd_oob _ _ _ _ _ Hg) by (by apply byte_range).
  destruct (good_bits _ _ _ _ _ Hg) as [H25 H19]. rewrite H25.
  destruct (_ && _) eqn:E1; cbn [negb]; [|by destruct (length s <=? _)%nat].
  destruct r' as [|r']; [done|]. cbn [Nat.leb]. rewrite H19, cont_check by (lia || by apply byte_range).
  rewrite feed_byte by lia. cbv zeta.
  destruct ((128 <=? byte_at s (i + 1)) && _) eqn:E2; cbn [negb]; [|destruct (length s <=? _)%nat; simpl; f_equal; lia].
  destruct r' as [|r']; [simpl; f_equal; lia|]. cbn [Nat.leb]. rewrite cont_check by (by apply byte_range).
  rewrite feed_byte by lia. cbv zeta.
  destruct ((128 <=? byte_at s (i + 1 + 1)) && _) eqn:E3; cbn [negb]; [|destruct (length s <=? _)%nat; simpl; f_equal; lia].
  destruct r'; [simpl; f_equal; lia|lia].
Qed.

Lemma store_rest_feed s c i r v lo hi : bytes s -> 0 <= i -> good c r v lo hi ->
  accepted (feed r v lo hi (drop (Z.to_nat i) s)) (fun wc k => store_rest s c i = (i + k, wc, true))
    (exists c', store_rest s c i = (i - 1, c', false) /\ c' <> 0).
Proof.
  intros Hs Hi Hg. destruct (good_pos _ _ _ _ _ Hg) as (r' & -> & Hr' & Hlo).
  assert (Hnz : forall c r v lo hi, good c r v lo hi -> c <> 0) by (intros ????? [_ ? _ _ _ _]; lia).
  assert (Hin : forall j lo hi, 128 <= lo -> (lo <=? byte_at s j) && (byte_at s j <=? hi) = true -> hi < 192 -> 128 <= byte_at s j < 192) by lia.
  rewrite feed_byte by lia. unfold store_rest. cbv zeta. rewrite (gd_oob _ _ _ _ _ Hg) by (by apply byte_range).
  pose proof (gd_lohi _ _ _ _ _ Hg) as Hlh.
  destruct (_ && _) eqn:E1; cbn [negb]; [|destruct (length s <=? _)%nat; simpl; eauto].
  pose proof (shift_in c _ _ _ _ _ Hg (Hin _ _ _ Hlo E1 ltac:(lia))) as Hs1. cbv zeta in Hs1. fold (shift_byte s c i) in Hs1.
  destruct r' as [|r']; [destruct Hs1 as [-> Ht]; by rewrite Ht|]. destruct Hs1 as [Ht1 Hg1]. rewrite Ht1, cont_check by (by apply byte_range).
  rewrite feed_byte by lia. cbv zeta.
  destruct ((128 <=? byte_at s (i + 1)) && _) eqn:E2; cbn [negb].
  2:{ destruct (length s <=? _)%nat; simpl; exists (shift_byte s c i); split; eauto; pairs. }
  pose proof (shift_in _ _ _ _ _ _ Hg1 (Hin _ 128 191 ltac:(lia) E2 ltac:(lia))) as Hs2. cbv zeta in Hs2.
  fold (shift_byte s (shift_byte s c i) (i + 1)) in Hs2.
  destruct r' as [|r']; [destruct Hs2 as [-> Ht]; rewrite Ht; simpl; pairs|].
  destruct Hs2 as [Ht2 Hg2]. rewrite Ht2, cont_check by (by apply byte_range). rewrite feed_byte by lia. cbv zeta.
  destruct ((128 <=? byte_at s (i + 1 + 1)) && _) eqn:E3; cbn [negb].
  2:{ destruct (length s <=? _)%nat; simpl; eexists; (split; [pairs|eauto]). }
  pose proof (shift_in _ _ _ _ _ _ Hg2 (Hin _ 128 191 ltac:(lia) E3 ltac:(lia))) as Hs3. cbv zeta in Hs3.
  destruct r' as [|r']; [|lia]. destruct Hs3 as [Hs3 _]. unfold shift_byte at 1. rewrite Hs3. simpl. pairs.
Qed.

(** ** The characters of a string

    A string is the encoding of [ws] followed by bytes no encoding begins. *)
Definition no_char (rest : list Z) : Prop := forall wc, scalar wc -> ~ (utf8 wc `prefix_of` rest).

(** The pointer [s + i] is in front of the characters [ws] and then [rest]. *)
Record at_chars (s : list Z) (i : Z) (ws rest : list Z) : Prop := {
  ac_pos : 0 <= i;
  ac_drop : drop (Z.to_nat i) s = encode ws ++ rest;
  ac_wide : wide ws;
  ac_no : no_char rest;
  ac_str : c_string s }.

Lemma c_string_bytes s : c_string s -> bytes s.
Proof. intros Hs. eapply Forall_impl; [exact Hs|]. intros b Hb. cbv beta in *. lia. Qed.

Lemma encode_cons w ws : encode (w :: ws) = utf8 w ++ encode ws.
Proof. done. Qed.
Lemma encode_length ws : (length ws <= length (encode ws))%nat.
Proof.
  induction ws as [|w ws IH]; [done|]. rewrite encode_cons, length_app. pose proof (utf8_length w). simpl. lia.
Qed.
Lemma encode_app ws1 ws2 : encode (ws1 ++ ws2) = encode ws1 ++ encode ws2.
Proof. unfold encode. by rewrite map_app, concat_app. Qed.

Lemma at_chars_byte s i ws rest : at_chars s i ws rest -> byte_at s i = at_ (encode ws ++ rest) 0.
Proof. intros [Hi Hd _ _ _]. rewrite <- Hd, <- byte_drop by done. f_equal. lia. Qed.

Lemma at_chars_skip s i w ws rest : at_chars s i (w :: ws) rest -> at_chars s (i + Z.of_nat (length (utf8 w))) ws rest.
Proof.
  intros [Hi Hd Hw Hn Hs]. apply Forall_cons in Hw as [_ Hw]. split; try done; [lia|].
  rewrite Z2Nat.inj_add, Nat2Z.id by lia. rewrite <- drop_drop, Hd, encode_cons, <- app_assoc. apply drop_app_length.
Qed.

Lemma at_chars_length s i ws rest : at_chars s i ws rest -> (length (encode ws) + length rest <= length s)%nat.
Proof. intros H. pose proof (f_equal length (ac_drop _ _ _ _ H)) as Hl. rewrite length_drop, length_app in Hl. lia. Qed.

Lemma ascii_plain b : 0 <= b < 256 -> ascii b = bool_decide (0 < b < 128).
Proof.
  intros Hb. unfold ascii. case_bool_decide.
  - rewrite w32_small by lia. lia.
  - destruct (decide (b = 0)) as [->|]; [done|]. rewrite w32_small by lia. lia.
Qed.

(** What the byte tests find in front of a character and where there is none. *)
Lemma front_ascii s i w ws rest : at_chars s i (w :: ws) rest -> w < 128 ->
  byte_at s i = w /\ ascii w = true /\ utf8 w = [w].
Proof.
  intros H Hw. pose proof (ac_wide _ _ _ _ H) as [[Hs Hnz] _]%Forall_cons.
  assert (0 < w < 128) by (unfold scalar in Hs; lia). rewrite (at_chars_byte _ _ _ _ H), encode_cons, utf8_ascii by lia.
  split; [done|]. split; [|done]. rewrite ascii_plain by lia. by apply bool_decide_eq_true_2.
Qed.

Lemma lead_test b : 128 <= b < 256 -> (SB - SA <? w32 (b - SA)) = bool_decide (lead b = None).
Proof.
  intros Hb. unfold SB, SA. case_bool_decide as Hl.
  - apply lead_None in Hl as [?|?]; [|rewrite w32_small by lia; lia].
    replace (w32 (b - 194)) with (b - 194 + 2 ^ 32); [lia|].
    unfold w32. rewrite <- (Z.mod_add _ 1) by lia. by rewrite Z.mod_small by lia.
  - destruct (lead b) as [[[[r v] lo] hi]|] eqn:El; [|done]. apply lead_range in El. rewrite w32_small by lia. lia.
Qed.

Lemma front_multi s i w ws rest : at_chars s i (w :: ws) rest -> 128 <= w ->
  let b := byte_at s i in
  ascii b = false /\ (SB - SA <? w32 (b - SA)) = false /\
  exists r v lo hi k, good (default 0 (bittab !! Z.to_nat (b - SA))) r v lo hi /\
    feed r v lo hi (drop (Z.to_nat (i + 1)) s) = Done w k /\ Z.of_nat (length (utf8 w)) = k + 1.
Proof.
  intros H Hw b. pose proof (ac_wide _ _ _ _ H) as [[Hs Hnz] _]%Forall_cons.
  destruct (utf8_complete w Hs Hw) as (b' & t & r & v & lo & hi & Hu & Hl & Hd).
  assert (Hdrop : drop (Z.to_nat i) s = b' :: t ++ encode ws ++ rest).
  { rewrite (ac_drop _ _ _ _ H), encode_cons, Hu. simpl. by rewrite <- app_assoc. }
  assert (Hb : b = b') by (unfold b; rewrite (at_chars_byte _ _ _ _ H), <- (ac_drop _ _ _ _ H), Hdrop; done).
  pose proof (lead_range _ _ _ _ _ Hl) as Hr. destruct (bittab_good b' Hr) as (r0 & v0 & lo0 & hi0 & Hl0 & Hg).
  rewrite Hl in Hl0. injection Hl0 as <- <- <- <-. rewrite Hb.
  rewrite ascii_plain, lead_test by lia. rewrite !bool_decide_eq_false_2 by (lia || by rewrite Hl).
  split_and!; [done..|]. exists r, v, lo, hi, (Z.of_nat (length t)). split; [done|]. split.
  - pose proof (ac_pos _ _ _ _ H). replace (Z.to_nat (i + 1)) with (Z.to_nat i + 1)%nat by lia.
    rewrite <- drop_drop, Hdrop. change (drop 1 (b' :: ?l)) with l. rewrite feed_app, Hd. done.
  - rewrite Hu. simpl. lia.
Qed.

Lemma front_none s i rest : at_chars s i [] rest ->
  let b := byte_at s i in
  ascii b = false /\
  if SB - SA <? w32 (b - SA) then (b = 0 <-> rest = [])
  else rest <> [] /\ default 0 (bittab !! Z.to_nat (b - SA)) <> 0 /\
    exists r v lo hi, good (default 0 (bittab !! Z.to_nat (b - SA))) r v lo hi /\
      forall P Q, accepted (feed r v lo hi (drop (Z.to_nat (i + 1)) s)) P Q -> Q.
Proof.
  intros H b. pose proof (at_chars_byte _ _ _ _ H) as Hb. simpl in Hb. fold b in Hb.
  pose proof (ac_no _ _ _ _ H) as Hno. pose proof (ac_drop _ _ _ _ H) as Hd. change (encode [] ++ rest) with rest in Hd.
  pose proof (ac_str _ _ _ _ H) as Hs. destruct rest as [|b' t].
  { change (at_ [] 0) with 0 in Hb. rewrite Hb. split; [done|]. by change (SB - SA <? w32 (0 - SA)) with true. }
  change (at_ (b' :: t) 0) with b' in Hb. assert (Hr : 0 < b' < 256).
  { apply (Forall_drop _ (Z.to_nat i)) in Hs. rewrite Hd in Hs. by apply Forall_cons in Hs as [? _]. }
  assert (Hna : 128 <= b').
  { destruct (Z.lt_ge_cases b' 128); [|done]. destruct (Hno b' (scalar_ascii b' ltac:(lia))).
    rewrite utf8_ascii by lia. apply prefix_cons, prefix_nil. }
  rewrite Hb, ascii_plain, lead_test by lia. rewrite bool_decide_eq_false_2 by lia. split; [done|].
  case_bool_decide as Hl; [split; [lia|done]|]. destruct (lead b') as [[[[r v] lo] hi]|] eqn:El; [|done].
  pose proof (lead_range _ _ _ _ _ El) as Hlr. destruct (bittab_good b' Hlr) as (r0 & v0 & lo0 & hi0 & Hl0 & Hg).
  rewrite El in Hl0. injection Hl0 as <- <- <- <-. split; [done|]. split; [pose proof (gd_c _ _ _ _ _ Hg); lia|].
  exists r, v, lo, hi. split; [done|]. intros P Q. pose proof (ac_pos _ _ _ _ H).
  replace (Z.to_nat (i + 1)) with (Z.to_nat i + 1)%nat by lia. rewrite <- drop_drop, Hd. change (drop 1 (b' :: t)) with t.
  destruct (feed r v lo hi t) as [wc k| |] eqn:Ef; simpl; [|done..].
  destruct (utf8_sound _ _ _ _ _ _ _ _ El Ef) as (Hsc & _ & more & Heq & _).
  destruct (Hno wc Hsc). rewrite Heq. by exists more.
Qed.

(** Every string has such a reading. *)
Lemma char_or_none b t : 0 < b < 256 -> (exists wc rest, scalar wc /\ wc <> 0 /\ b :: t = utf8 wc ++ rest) \/ no_char (b :: t).
Proof.
  intros Hb. destruct (Z.lt_ge_cases b 128) as [Ha|Ha].
  { left. exists b, t. rewrite utf8_ascii by lia. split_and!; [apply scalar_ascii; lia|lia|done]. }
  destruct (lead b) as [[[[r v] lo] hi]|] eqn:El.
  2:{ right. intros wc Hs Hp. destruct (Z.lt_ge_cases wc 128) as [Hw|Hw].
    - rewrite utf8_ascii in Hp by (unfold scalar in Hs; lia). apply prefix_cons_inv_1 in Hp. lia.
    - destruct (utf8_complete wc Hs Hw) as (b' & t' & r & v & lo & hi & Hu & Hl & _). rewrite Hu in Hp.
      apply prefix_cons_inv_1 in Hp. congruence. }
  assert (Hno : (forall wc k, feed r v lo hi t <> Done wc k) -> no_char (b :: t)).
  { intros Hf wc Hs Hp. destruct (Z.lt_ge_cases wc 128) as [Hw|Hw].
    - rewrite utf8_ascii in Hp by (unfold scalar in Hs; lia). apply prefix_cons_inv_1 in Hp. lia.
    - destruct (utf8_complete wc Hs Hw) as (b' & t' & r' & v' & lo' & hi' & Hu & Hl & Hd). rewrite Hu in Hp.
      pose proof (prefix_cons_inv_1 _ _ _ _ Hp). subst b'. apply prefix_cons_inv_2 in Hp as [q ->].
      rewrite El in Hl. injection Hl as <- <- <- <-. apply (Hf wc (Z.of_nat (length t'))). by rewrite feed_app, Hd. }
  destruct (feed r v lo hi t) as [wc k| |] eqn:Ef; [|right; apply Hno; congruence..].
  left. destruct (utf8_sound _ _ _ _ _ _ _ _ El Ef) as (Hs & Hw & rest & Heq & _). exists wc, rest. split_and!; [done|lia|done].
Qed.

Lemma string_chars s : c_string s -> exists ws rest, at_chars s 0 ws rest.
Proof.
  intros Hs. assert (Hg : forall n l, (length l <= n)%nat -> c_string l ->
    exists ws rest, l = encode ws ++ rest /\ wide ws /\ no_char rest).
  { induction n as [|n IH]; intros l Hl Hc;
      (destruct l as [|b t]; [exists [], []; split_and!; [done|constructor|];
        intros wc _ Hp%prefix_length; pose proof (utf8_length wc); simpl in Hp; lia|]).
    - simpl in Hl. lia.
    - pose proof Hc as [Hb _]%Forall_cons. destruct (char_or_none b t Hb) as [(wc & more & Hsc & Hnz & Heq)|Hno].
      + rewrite Heq in *. pose proof (utf8_length wc). rewrite length_app in Hl. apply Forall_app in Hc as [_ Hc2].
        destruct (IH more) as (ws & rest & -> & Hw & Hn); [lia|done|].
        exists (wc :: ws), rest. split_and!; [by rewrite encode_cons, app_assoc| |done]. by constructor.
      + exists [], (b :: t). split_and!; [done|constructor|done]. }
  destruct (Hg (length s) s (le_n _) Hs) as (ws & rest & -> & Hw & Hn). exists ws, rest. by split.
Qed.

(** ** The loops on words *)

Lemma word_chars s i ws rest : at_chars s i ws rest -> ascii_word (word_at s i) = true ->
  exists w0 w1 w2 w3 ws', ws = w0 :: w1 :: w2 :: w3 :: ws' /\ at_chars s (i + 4) ws' rest /\
    [byte_at s i; byte_at s (i + 1); byte_at s (i + 2); byte_at s (i + 3)] = [w0; w1; w2; w3] /\
    encode [w0; w1; w2; w3] = [w0; w1; w2; w3].
Proof.
  intros H Hw. pose proof (c_string_bytes _ (ac_str _ _ _ _ H)) as Hb.
  apply ascii_word_sound in Hw as (H0 & H1 & H2 & H3); [|by apply byte_range..].
  assert (Hstep : forall i ws, at_chars s i ws rest -> plain (byte_at s i) ->
    exists ws', ws = byte_at s i :: ws' /\ at_chars s (i + 1) ws' rest).
  { clear i ws H H0 H1 H2 H3. intros i ws H Hp. destruct ws as [|w ws].
    - destruct (front_none _ _ _ H) as [Hna _]. cbv zeta in Hna. unfold plain in Hp.
      rewrite ascii_plain, bool_decide_eq_true_2 in Hna by lia. done.
    - destruct (Z.lt_ge_cases w 128) as [Ha|Ha].
      + destruct (front_ascii _ _ _ _ _ H Ha) as (Hbw & _ & Hu). exists ws. rewrite Hbw. split; [done|].
        apply at_chars_skip in H. by rewrite Hu in H.
      + destruct (front_multi _ _ _ _ _ H Ha) as [Hna _]. unfold plain in Hp.
        rewrite ascii_plain, bool_decide_eq_true_2 in Hna by lia. done. }
  destruct (Hstep _ _ H H0) as (ws1 & -> & A1). destruct (Hstep _ _ A1 H1) as (ws2 & -> & A2).
  replace (i + 1 + 1) with (i + 2) in * by lia. destruct (Hstep _ _ A2 H2) as (ws3 & -> & A3).
  replace (i + 2 + 1) with (i + 3) in * by lia. destruct (Hstep _ _ A3 H3) as (ws4 & -> & A4).
  replace (i + 3 + 1) with (i + 4) in * by lia. unfold plain in *.
  eexists _, _, _, _, ws4. split_and!; [done|done|done|]. rewrite !encode_cons, !utf8_ascii by lia. done.
Qed.

Lemma w32_sub_l x y : w32 (w32 x - y) = w32 (x - y).
Proof. unfold w32. by rewrite Zminus_mod_idemp_l. Qed.

(** After the loops on words the pointer is some characters further. *)
Lemma skip_words_Ret fuel : forall s i ws rest wn x, at_chars s i ws rest -> (length ws < fuel)%nat ->
  exists m, (m <= length ws)%nat /\
    let j := i + Z.of_nat (length (encode (take m ws))) in
    skip_words fuel s i (w32 wn) x = Ret ((j, w32 (wn - Z.of_nat m)), x) /\ at_chars s j (drop m ws) rest.
Proof.
  induction fuel as [|fuel IH]; intros s i ws rest wn x H Hf; [lia|]. cbn [skip_words].
  destruct (ascii_word _) eqn:E.
  - destruct (word_chars _ _ _ _ H E) as (w0 & w1 & w2 & w3 & ws' & -> & H' & _ & He).
    destruct (IH s (i + 4) ws' rest (wn - 4) x H') as (m & Hm & Hrun & Hat); [simpl in Hf; lia|].
    exists (4 + m)%nat. split; [simpl; lia|]. cbv zeta in *.
    change (take (4 + m) _) with ([w0; w1; w2; w3] ++ take m ws'). rewrite encode_app, length_app, He. simpl length.
    replace (i + Z.of_nat (4 + length (encode (take m ws')))) with (i + 4 + Z.of_nat (length (encode (take m ws')))) by lia.
    split; [|done]. rewrite w32_sub_l, Hrun. do 4 f_equal. lia.
  - exists 0%nat. split; [lia|]. simpl. rewrite !Z.add_0_r, Z.sub_0_r. done.
Qed.

Lemma copy_words_Ret fuel : forall s i ws rest wn out x, at_chars s i ws rest -> (length ws < fuel)%nat -> 0 < wn < 2 ^ 32 ->
  exists m, (m <= length ws)%nat /\ Z.of_nat m < wn /\
    let j := i + Z.of_nat (length (encode (take m ws))) in
    copy_words fuel s i wn out x = Ret ((j, wn - Z.of_nat m, out ++ take m ws), x) /\ at_chars s j (drop m ws) rest.
Proof.
  induction fuel as [|fuel IH]; intros s i ws rest wn out x H Hf Hwn; [lia|]. cbn [copy_words].
  destruct ((5 <=? wn) && _) eqn:E.
  - apply andb_true_iff in E as [H5 E]. destruct (word_chars _ _ _ _ H E) as (w0 & w1 & w2 & w3 & ws' & -> & H' & Hb & He).
    rewrite Hb, w32_small by lia.
    destruct (IH s (i + 4) ws' rest (wn - 4) (out ++ [w0; w1; w2; w3]) x H') as (m & Hm & Hmw & Hrun & Hat); [simpl in Hf; lia|lia|].
    exists (4 + m)%nat. split; [simpl; lia|]. split; [lia|]. cbv zeta in *.
    change (take (4 + m) _) with ([w0; w1; w2; w3] ++ take m ws'). rewrite encode_app, length_app, He. simpl length.
    replace (i + Z.of_nat (4 + length (encode (take m ws')))) with (i + 4 + Z.of_nat (length (encode (take m ws')))) by lia.
    split; [|done]. rewrite Hrun, <- app_assoc. do 3 f_equal. f_equal. lia.
  - exists 0%nat. split; [lia|]. split; [lia|]. simpl. by rewrite !Z.add_0_r, Z.sub_0_r, app_nil_r.
Qed.
