(* ===== verification/Utf8MbsTheorems.v ===== *)
(** What [mbsrtowcs] returns, stores and leaves in [*src], and what it does
    when an earlier call left a character unfinished. *)
From S2P Require Import Prelude.
From S2P Require Import Wasi.
From S2P Require Import Utf8.
From S2P Require Import Utf8Proofs.
From S2P Require Import Utf8Strings.
From S2P Require Import Utf8Mbs.

(** ** The counting loop *)

Lemma chars_fuel s i ws rest : at_chars s i ws rest -> (length ws < S (length s))%nat.
Proof. intros H. apply at_chars_length in H. pose proof (encode_length ws). lia. Qed.

Lemma end_test (b : Z) (rest : list Z) : (b = 0 <-> rest = []) -> (0 =? 0) && (b =? 0) = bool_decide (rest = []).
Proof. intros Hb. simpl. case_bool_decide; destruct (Z.eqb_spec b 0); tauto. Qed.

Lemma count_loop_Ret fuel : forall base s i ws rest wn x, at_chars s i ws rest -> (length ws < fuel)%nat ->
  exists j c, count_loop fuel base s i (w32 wn) x = Ret ((j, c, w32 (wn - Z.of_nat (length ws))), x) /\
    (c =? 0) && (byte_at s j =? 0) = bool_decide (rest = []).
Proof.
  induction fuel as [|fuel IH]; intros base s i ws rest wn x H Hf; [lia|]. cbn [count_loop].
  assert (Hhead : exists m j, (m <= length ws)%nat /\ at_chars s j (drop m ws) rest /\
    (if on_word base s i then skip_words (S (length s)) s i (w32 wn) else mret (i, w32 wn)) x =
      Ret ((j, w32 (wn - Z.of_nat m)), x)).
  { destruct (on_word base s i).
    - destruct (skip_words_Ret _ _ _ _ _ wn x H (chars_fuel _ _ _ _ H)) as (m & Hm & Hrun & Hat). by eexists m, _.
    - exists 0%nat, i. split; [lia|]. split; [done|]. by rewrite Z.sub_0_r. }
  destruct Hhead as (m & j & Hm & Hat & Hrun). setoid_rewrite (bind_Ret _ _ _ _ _ Hrun). clear Hrun H. cbv beta iota zeta.
  pose proof (length_drop ws m) as Hlen. destruct (drop m ws) as [|w ws'] eqn:Ed; simpl in Hlen.
  - replace (length ws) with m by lia. destruct (front_none _ _ _ Hat) as [-> Hcase]. cbv zeta in Hcase.
    destruct (SB - SA <? _).
    + exists j, 0. split; [done|]. by apply end_test.
    + destruct Hcase as (Hne & Hc & r & v & lo & hi & Hg & Hno).
      pose proof (count_rest_feed s _ (j + 1) _ _ _ _ (c_string_bytes _ (ac_str _ _ _ _ Hat)) ltac:(pose proof (ac_pos _ _ _ _ Hat); lia) Hg) as Hr.
      apply Hno in Hr. rewrite Hr. eexists _, _. split; [reflexivity|].
      rewrite (bool_decide_eq_false_2 _ Hne). by rewrite (proj2 (Z.eqb_neq _ _) Hc).
  - assert (Hnext : forall k, k = Z.of_nat (length (utf8 w)) ->
      exists j' c, count_loop fuel base s (j + k) (w32 (w32 (wn - Z.of_nat m) - 1)) x =
        Ret ((j', c, w32 (wn - Z.of_nat (length ws))), x) /\ (c =? 0) && (byte_at s j' =? 0) = bool_decide (rest = [])).
    { intros k ->. apply at_chars_skip in Hat. rewrite w32_sub_l.
      destruct (IH base s _ ws' rest (wn - Z.of_nat m - 1) x Hat ltac:(lia)) as (j' & c & Hrun & Hend).
      exists j', c. split; [|done]. rewrite Hrun. do 4 f_equal. lia. }
    destruct (Z.lt_ge_cases w 128) as [Ha|Ha].
    + destruct (front_ascii _ _ _ _ _ Hat Ha) as (-> & -> & Hu). apply Hnext. by rewrite Hu.
    + destruct (front_multi _ _ _ _ _ Hat Ha) as (-> & -> & r & v & lo & hi & k & Hg & Hd & Hk).
      pose proof (count_rest_feed s _ (j + 1) _ _ _ _ (c_string_bytes _ (ac_str _ _ _ _ Hat)) ltac:(pose proof (ac_pos _ _ _ _ Hat); lia) Hg) as Hr.
      rewrite Hd in Hr. cbn [accepted] in Hr. rewrite Hr. replace (j + 1 + k) with (j + (k + 1)) by lia. by apply Hnext.
Qed.

(** ** The storing loop *)

Definition ends_at (rest : list Z) (s : list Z) (j c : Z) : Prop := (c =? 0) && (byte_at s j =? 0) = bool_decide (rest = []).

(** How it is left, with [j] the place in front of what was not converted.
    A failure puts the pointer back in front of the bad character. *)
Definition store_result (i : Z) (ws rest : list Z) (wn : Z) (s out : list Z) (e : store_end) : Prop :=
  if wn <=? Z.of_nat (length ws) then
    e = StoreFull (i + Z.of_nat (length (encode (take (Z.to_nat wn) ws)))) (out ++ take (Z.to_nat wn) ws)
  else exists c, ends_at rest s (i + Z.of_nat (length (encode ws))) c /\
    e = StoreBreak (i + Z.of_nat (length (encode ws))) c (wn - Z.of_nat (length ws)) (out ++ ws).

Lemma store_result_skip i ws1 ws2 rest wn s out e : Z.of_nat (length ws1) <= wn ->
  store_result (i + Z.of_nat (length (encode ws1))) ws2 rest (wn - Z.of_nat (length ws1)) s (out ++ ws1) e ->
  store_result i (ws1 ++ ws2) rest wn s out e.
Proof.
  intros Hwn. unfold store_result. rewrite length_app, encode_app, length_app.
  destruct (Z.leb_spec (wn - Z.of_nat (length ws1)) (Z.of_nat (length ws2))) as [Hle|Hgt].
  - rewrite (proj2 (Z.leb_le _ _)) by lia. intros ->. rewrite take_app, (take_ge ws1), encode_app, length_app, app_assoc by lia. f_equal; [|repeat f_equal; lia].
    replace (Z.to_nat (wn - Z.of_nat (length ws1))) with (Z.to_nat wn - length ws1)%nat by lia. lia.
  - rewrite (proj2 (Z.leb_gt _ _)) by lia. intros (c & Hc & ->). replace (i + Z.of_nat (length (encode ws1) + length (encode ws2)))
      with (i + Z.of_nat (length (encode ws1)) + Z.of_nat (length (encode ws2))) by lia.
    exists c. split; [done|]. rewrite app_assoc. f_equal. lia.
Qed.

Lemma store_loop_Ret fuel : forall base s i ws rest wn out x, at_chars s i ws rest -> (length ws < fuel)%nat ->
  0 <= wn < 2 ^ 32 ->
  exists e, store_loop fuel base s i wn out x = Ret (e, x) /\ store_result i ws rest wn s out e.
Proof.
  induction fuel as [|fuel IH]; intros base s i ws rest wn out x H Hf Hwn; [lia|]. cbn [store_loop].
  destruct (Z.eqb_spec wn 0) as [->|Hnz].
  { eexists. split; [reflexivity|]. unfold store_result. replace (0 <=? _) with true by lia.
    simpl. by rewrite Z.add_0_r, app_nil_r. }
  assert (Hhead : exists m, (m <= length ws)%nat /\ Z.of_nat m < wn /\
    let j := i + Z.of_nat (length (encode (take m ws))) in at_chars s j (drop m ws) rest /\
    (if on_word base s i then copy_words (S (length s)) s i wn out else mret (i, wn, out)) x =
      Ret ((j, wn - Z.of_nat m, out ++ take m ws), x)).
  { destruct (on_word base s i).
    - destruct (copy_words_Ret _ _ _ _ _ wn out x H (chars_fuel _ _ _ _ H)) as (m & Hm & Hmw & Hrun & Hat); [lia|]. by exists m.
    - exists 0%nat. split; [lia|]. split; [lia|]. simpl. by rewrite Z.sub_0_r, Z.add_0_r, app_nil_r. }
  destruct Hhead as (m & Hm & Hmw & Hat & Hrun). setoid_rewrite (bind_Ret _ _ _ _ _ Hrun). clear Hrun. cbv beta iota zeta.
  assert (Hsplit : forall e, store_result (i + Z.of_nat (length (encode (take m ws)))) (drop m ws) rest (wn - Z.of_nat m) s (out ++ take m ws) e ->
    store_result i ws rest wn s out e).
  { intros e He. rewrite <- (take_drop m ws). apply store_result_skip; rewrite length_take, Nat.min_l by lia; [lia|done]. }
  set (j := i + Z.of_nat (length (encode (take m ws)))) in *. pose proof (ac_pos _ _ _ _ Hat) as Hj.
  pose proof (c_string_bytes _ (ac_str _ _ _ _ H)) as Hb.
  pose proof (length_drop ws m) as Hlen. destruct (drop m ws) as [|w ws'] eqn:Ed; simpl in Hlen.
  - assert (Hstop : forall c, ends_at rest s j c ->
      store_result i ws rest wn s out (StoreBreak j c (wn - Z.of_nat m) (out ++ take m ws))).
    { intros c Hc. apply Hsplit. unfold store_result. rewrite (proj2 (Z.leb_gt _ _)) by (simpl; lia).
      exists c. simpl. rewrite !Z.add_0_r, Z.sub_0_r, app_nil_r. done. }
    destruct (front_none _ _ _ Hat) as [-> Hcase]. cbv zeta in Hcase. destruct (SB - SA <? _).
    + eexists. split; [reflexivity|]. by apply Hstop, end_test.
    + destruct Hcase as (Hne & Hc & r & v & lo & hi & Hg & Hno).
      pose proof (store_rest_feed s _ (j + 1) _ _ _ _ Hb ltac:(lia) Hg) as Hr.
      apply Hno in Hr as (c' & -> & Hc'). eexists. split; [reflexivity|].
      replace (j + 1 - 1) with j by lia. apply Hstop. unfold ends_at.
      rewrite (bool_decide_eq_false_2 _ Hne). by rewrite (proj2 (Z.eqb_neq _ _) Hc').
  - assert (Hnext : forall k, k = Z.of_nat (length (utf8 w)) ->
      exists e, store_loop fuel base s (j + k) (w32 (wn - Z.of_nat m - 1)) ((out ++ take m ws) ++ [w]) x = Ret (e, x) /\
        store_result i ws rest wn s out e).
    { intros k ->. rewrite w32_small by lia. pose proof (at_chars_skip _ _ _ _ _ Hat) as Hat'.
      destruct (IH base s _ ws' rest (wn - Z.of_nat m - 1) ((out ++ take m ws) ++ [w]) x Hat' ltac:(lia) ltac:(lia)) as (e & Hrun & He).
      exists e. split; [exact Hrun|]. apply Hsplit. apply (store_result_skip j [w] ws'); [simpl; lia|].
      rewrite encode_cons, app_nil_r. done. }
    destruct (Z.lt_ge_cases w 128) as [Ha|Ha].
    + destruct (front_ascii _ _ _ _ _ Hat Ha) as (-> & -> & Hu). apply Hnext. by rewrite Hu.
    + destruct (front_multi _ _ _ _ _ Hat Ha) as (-> & -> & r & v & lo & hi & k & Hg & Hd & Hk).
      pose proof (store_rest_feed s _ (j + 1) _ _ _ _ Hb ltac:(lia) Hg) as Hr.
      rewrite Hd in Hr. cbn [accepted] in Hr. rewrite Hr. replace (j + 1 + k) with (j + (k + 1)) by lia. by apply Hnext.
Qed.

(** ** The functions *)

Lemma w32_sub_r x y : w32 (x - w32 y) = w32 (x - y).
Proof. unfold w32. by rewrite Zminus_mod_idemp_r. Qed.

(** What the call returns on a string of the characters [ws] and then
    [rest], the first [back] bytes of which an earlier call has read. *)
Definition mbs_result (back : nat) (ws rest : list Z) (wn : Z) (x : mbenv) : Z * list Z * option Z * mbenv :=
  if (0 <? wn) && (wn <=? Z.of_nat (length ws)) then
    ((wn, take (Z.to_nat wn) ws, Some (Z.of_nat (length (encode (take (Z.to_nat wn) ws))) - Z.of_nat back)), x)
  else if decide (rest = []) then ((Z.of_nat (length ws), ws ++ [0], None), x)
  else ((SZ1, ws, Some (Z.of_nat (length (encode ws)) - Z.of_nat back)), MbEnv (shift x) EILSEQ).

Lemma mbs_end_Ret null s i c wn wn0 out rest x : ends_at rest s i c ->
  mbs_end null s i c wn wn0 out x =
    if decide (rest = []) then Ret ((w32 (wn0 - wn), if null then out else out ++ [0], if null then Some 0 else None), x)
    else Ret ((SZ1, out, if null then Some 0 else Some i), MbEnv (shift x) EILSEQ).
Proof.
  unfold ends_at, mbs_end. intros ->. destruct (decide (rest = [])) as [Hr|Hr];
    [by rewrite bool_decide_eq_true_2|by rewrite bool_decide_eq_false_2].
Qed.

(** The storing loop from the place behind [back] bytes on. *)
Lemma store_end_Ret back i ws0 ws rest wn0 wn s e x :
  i + Z.of_nat back = Z.of_nat (length (encode ws0)) -> wn0 = w32 (wn + Z.of_nat (length ws0)) -> 0 <= wn < 2 ^ 32 ->
  Z.of_nat (length (ws0 ++ ws)) < 2 ^ 32 -> (wn0 = 0 -> Z.of_nat (length ws) < wn) -> (wn0 <> 0 -> Z.of_nat (length ws0) <= wn0) ->
  store_result i ws rest wn s ws0 e -> store_end_at s wn0 e x = Ret (mbs_result back (ws0 ++ ws) rest wn0 x).
Proof.
  intros Hi Hwn0 Hwn Hlen H0 Hpos He. unfold store_result in He. unfold mbs_result.
  assert (Hw : wn0 <> 0 -> wn0 = wn + Z.of_nat (length ws0)).
  { intros Hnz. specialize (Hpos Hnz). subst wn0. unfold w32 in *. rewrite length_app in Hlen.
    destruct (Z.lt_ge_cases (wn + Z.of_nat (length ws0)) (2 ^ 32)); [by rewrite Z.mod_small by lia|].
    rewrite <- (Z.mod_add _ (-1)) in Hpos by lia. rewrite Z.mod_small in Hpos by lia. lia. }
  destruct (Z.leb_spec wn (Z.of_nat (length ws))) as [Hle|Hgt].
  - assert (Hnz : wn0 <> 0) by lia. specialize (Hw Hnz). subst e. cbn [store_end_at]. pose proof (w32_range (wn + Z.of_nat (length ws0))).
    rewrite length_app in *. replace (0 <? wn0) with true by lia.
    rewrite (proj2 (Z.leb_le wn0 _)) by lia. simpl. rewrite take_app, (take_ge ws0) by lia.
    replace (Z.to_nat wn0 - length ws0)%nat with (Z.to_nat wn) by lia.
    rewrite encode_app, length_app. same_result.
  - destruct He as (c & Hc & ->). cbn [store_end_at]. rewrite (mbs_end_Ret _ _ _ _ _ _ _ _ _ Hc).
    replace (_ && _) with false.
    2:{ symmetry. apply andb_false_iff. destruct (decide (wn0 = 0)); [left; lia|right].
        rewrite length_app. apply Z.leb_gt. specialize (Hw n). lia. }
    assert (Hret : w32 (wn0 - (wn - Z.of_nat (length ws))) = Z.of_nat (length (ws0 ++ ws))).
    { subst wn0. rewrite w32_sub_l. rewrite length_app in *. rewrite w32_small by lia. lia. }
    rewrite Hret, encode_app, !length_app. destruct (decide (rest = [])); same_result.
Qed.

(** C39: [mbsrtowcs] from the initial state.  A string is the encoding of some
    characters [ws] followed by bytes that begin no encoding.  With a null
    destination the call counts [ws], or fails when there are such bytes; with
    one of [wn] characters it stores as many of [ws] as fit and leaves [*src]
    behind them, with the terminator and [NULL] if all fit; an ill-formed byte
    is found only when it is reached, [*src] is left at it and [errno] is
    [EILSEQ].  The alignment of the string, on which the loops on words
    depend, makes no difference. *)
Theorem mbsrtowcs_spec s x : c_string s -> Z.of_nat (length s) < 2 ^ 32 -> initial x ->
  exists ws rest, s = encode ws ++ rest /\ wide ws /\ no_char rest /\
    forall base st wn, 0 <= wn < 2 ^ 32 ->
      mbsrtowcs 4 true base s wn st x =
        Ret (if decide (rest = []) then ((Z.of_nat (length ws), [], Some 0), x)
             else ((SZ1, [], Some 0), MbEnv 0 EILSEQ)) /\
      mbsrtowcs 4 false base s wn st x =
        Ret (if wn =? 0 then ((0, [], Some 0), x) else mbs_result 0 ws rest wn x).
Proof.
  intros Hs Hlen Hx. destruct (string_chars s Hs) as (ws & rest & Hat). exists ws, rest.
  pose proof (ac_drop _ _ _ _ Hat) as Hd. split; [done|]. split; [apply Hat|]. split; [apply Hat|].
  intros base st wn Hwn. pose proof (chars_fuel _ _ _ _ Hat) as Hfuel. unfold initial in Hx. unfold mbsrtowcs.
  rewrite !(bind_Ret _ _ _ _ _ (get_Ret x)), Hx. replace (if st then 0 else 0) with 0 by (by destruct st).
  change (4 =? 1) with false. change (0 =? 0) with true. cbn [negb]. cbv iota. split.
  - destruct (count_loop_Ret _ base s 0 ws rest wn x Hat Hfuel) as (j & c & Hrun & Hend).
    rewrite w32_small in Hrun by lia. mstep Hrun. cbn beta iota. rewrite (mbs_end_Ret _ _ _ _ _ _ _ _ _ Hend).
    pose proof (encode_length ws). pose proof (at_chars_length _ _ _ _ Hat).
    rewrite w32_sub_r. replace (wn - (wn - Z.of_nat (length ws))) with (Z.of_nat (length ws)) by lia.
    rewrite w32_small by lia. destruct (decide (rest = [])); [done|by rewrite Hx].
  - destruct (store_loop_Ret _ base s 0 ws rest wn [] x Hat Hfuel Hwn) as (e & Hrun & He).
    mstep Hrun. destruct (Z.eqb_spec wn 0) as [->|Hnz].
    + unfold store_result in He. replace (0 <=? _) with true in He by lia. subst e. done.
    + apply (store_end_Ret 0 0 [] ws rest wn wn s e x); try done; try lia; simpl; try lia.
      rewrite w32_small by lia. lia.
Qed.

(** ** A character begun by an earlier call *)

(** The state [mbrtowc] leaves after the proper beginning [p] of a character. *)
Definition pending (p : list Z) (x : mbenv) : Prop :=
  exists b t r v lo hi r' v' lo' hi', p = b :: t /\ lead b = Some (r, v, lo, hi) /\
    feed r v lo hi t = More r' v' lo' hi' /\ good (shift x) r' v' lo' hi'.

Lemma mbrtowc_pending p e x : bytes p -> p <> [] -> mbrtowc 4 (Some p) (length p) (MbEnv 0 e) = Ret ((SZ2, None), x) ->
  pending p x /\ mb_errno x = e.
Proof.
  intros Hb Hp Hrun. destruct p as [|b t]; [done|].
  destruct (mbrtowc_lead b t (MbEnv 0 e) eq_refl Hb) as (ret & wc & s' & Hrun' & Hcase).
  simpl length in Hrun. rewrite Hrun in Hrun'. injection Hrun' as <- <- <-.
  destruct (b <? 128); [destruct Hcase as (Hc & _); by destruct (b =? 0)|].
  destruct (lead b) as [[[[r v] lo] hi]|] eqn:El; [|by destruct Hcase].
  destruct (feed r v lo hi t) as [| r' v' lo' hi' |] eqn:Ef; simpl in Hcase; [by destruct Hcase as (_ & ? & _)| |by destruct Hcase].
  destruct Hcase as (_ & _ & He & Hg). split; [|done]. by exists b, t, r, v, lo, hi, r', v', lo', hi'.
Qed.

(** The rest of the character, if the string goes on with it. *)
Lemma pending_rest p s x ws rest : pending p x -> at_chars (p ++ s) 0 ws rest ->
  exists r v lo hi, good (shift x) r v lo hi /\
    match ws with
    | [] => forall P Q, accepted (feed r v lo hi s) P Q -> Q
    | w :: ws' => exists k, feed r v lo hi s = Done w k /\ Z.of_nat (length p) + k = Z.of_nat (length (utf8 w)) /\
                    0 <= k /\ at_chars s k ws' rest
    end.
Proof.
  intros (b & t & r & v & lo & hi & r' & v' & lo' & hi' & -> & El & Ef & Hg) Hat. exists r', v', lo', hi'. split; [done|].
  pose proof (lead_range _ _ _ _ _ El) as Hb. pose proof (ac_drop _ _ _ _ Hat) as Hd. simpl in Hd.
  pose proof (feed_app t s r v lo hi) as Happ. rewrite Ef in Happ. destruct ws as [|w ws].
  - intros P Q. destruct (feed r' v' lo' hi' s) as [wc k| |]; simpl; [|done..].
    destruct (utf8_sound _ _ _ _ _ _ _ _ El Happ) as (Hsc & _ & more & Heq & _).
    destruct (ac_no _ _ _ _ Hat wc Hsc). change rest with (encode [] ++ rest). rewrite <- Hd, Heq. by exists more.
  - pose proof (ac_wide _ _ _ _ Hat) as [[Hsc Hnz] _]%Forall_cons. rewrite encode_cons in Hd.
    assert (Ha : 128 <= w).
    { destruct (Z.lt_ge_cases w 128); [|done]. rewrite utf8_ascii in Hd by (unfold scalar in Hsc; lia). simpl in Hd.
      injection Hd as -> _. lia. }
    destruct (utf8_complete w Hsc Ha) as (b' & t' & r0 & v0 & lo0 & hi0 & Hu & Hl & Hdone). rewrite Hu in Hd. simpl in Hd.
    injection Hd as <- Hd. rewrite El in Hl. injection Hl as <- <- <- <-.
    rewrite Hd, <- app_assoc, feed_app, Hdone in Happ.
    destruct (feed r' v' lo' hi' s) as [wc k| |] eqn:Es; [|done..]. injection Happ as -> Hk. exists k.
    rewrite Hu. simpl length in *. split; [done|]. split; [lia|].
    assert (Hk0 : 0 <= k).
    { clear - Es. revert r' v' lo' hi' wc k Es. induction s as [|c s IH]; intros r v lo hi wc k; simpl; [done|].
      destruct (_ && _); [|done]. destruct r as [|[|r]]; [intros [= _ <-]; lia..|].
      destruct (feed (S r) _ _ _ s) as [wc' k'| |] eqn:E; [|done..]. intros [= _ <-]. apply IH in E. lia. }
    split; [done|]. apply at_chars_skip in Hat. destruct Hat as [_ Hdrop Hw Hn Hs]. split; try done.
    + rewrite <- Hdrop, Hu. simpl length. rewrite Z.add_0_l, Nat2Z.id. simpl drop. rewrite drop_app, (drop_ge t) by lia. simpl. f_equal. lia.
    + simpl in Hs. apply Forall_cons in Hs as [_ Hs]. by apply Forall_app in Hs as [_ Hs].
Qed.

(** C40: [mbsrtowcs] on a string [s] that goes on after the beginning [p] of a
    character which [mbrtowc] has read.  It behaves as on [p ++ s], except
    that [*src] is one before the string when the character turns out to be
    bad, and that the destination is not looked at before the first character
    is stored: with room for [wn = 0] characters it stores the whole string. *)
Theorem mbsrtowcs_resume p s e x : c_string (p ++ s) -> Z.of_nat (length (p ++ s)) < 2 ^ 32 -> p <> [] ->
  mbrtowc 4 (Some p) (length p) (MbEnv 0 e) = Ret ((SZ2, None), x) ->
  exists ws rest, p ++ s = encode ws ++ rest /\ wide ws /\ no_char rest /\
    forall base wn, 0 <= wn < 2 ^ 32 ->
      mbsrtowcs 4 true base s wn true x =
        Ret (if decide (ws <> [] /\ rest = []) then ((Z.of_nat (length ws), [], Some 0), x)
             else ((SZ1, [], Some 0), MbEnv (shift x) EILSEQ)) /\
      mbsrtowcs 4 false base s wn true x =
        Ret (match ws with
             | [] => ((SZ1, [], Some (-1)), MbEnv 0 EILSEQ)
             | _ => mbs_result (length p) ws rest wn (MbEnv 0 e)
             end).
Proof.
  intros Hs Hlen Hp Hrun. apply mbrtowc_pending in Hrun as [Hpend He]; [|by apply Forall_app in Hs as [?%c_string_bytes _]|done].
  destruct (string_chars _ Hs) as (ws & rest & Hat). exists ws, rest.
  split; [apply Hat|]. split; [apply Hat|]. split; [apply Hat|]. intros base wn Hwn.
  assert (Hbs : bytes s) by (by apply Forall_app in Hs as [_ ?%c_string_bytes]).
  pose proof (at_chars_length _ _ _ _ Hat) as Hl. pose proof (encode_length ws).
  assert (Hmax : Z.of_nat (length ws) < 2 ^ 32) by lia.
  destruct (pending_rest _ _ _ _ _ Hpend Hat) as (r & v & lo & hi & Hg & Hws).
  pose proof (gd_c _ _ _ _ _ Hg). unfold mbsrtowcs. rewrite !(bind_Ret _ _ _ _ _ (get_Ret x)).
  rewrite (proj2 (Z.eqb_neq (shift x) 0)) by lia. cbn [negb].
  pose proof (count_rest_feed s _ 0 _ _ _ _ Hbs ltac:(lia) Hg) as Hcount.
  pose proof (store_rest_feed s _ 0 _ _ _ _ Hbs ltac:(lia) Hg) as Hstore. change (drop (Z.to_nat 0) s) with s in *.
  assert (Hbad : forall i c, c <> 0 -> (c =? 0) && (byte_at s i =? 0) = false).
  { intros i c Hc. by rewrite (proj2 (Z.eqb_neq _ _) Hc). }
  destruct ws as [|w ws].
  - apply Hws in Hcount, Hstore. destruct Hstore as (c' & Hstore & Hc'). rewrite Hcount.
    rewrite decide_False by tauto. split; [unfold mbs_end; rewrite Hbad by lia; done|].
    rewrite (bind_Ret _ _ x tt (MbEnv 0 (mb_errno x))) by done. rewrite Hstore. unfold mbs_end. by rewrite Hbad.
  - destruct Hws as (k & Hdone & Hk & Hk0 & Hat'). rewrite Hdone in Hcount, Hstore. simpl in Hcount, Hstore.
    pose proof (chars_fuel _ _ _ _ Hat') as Hfuel. rewrite Hcount. simpl length in *. split.
    + destruct (count_loop_Ret _ base s k ws rest (wn - 1) x Hat' Hfuel) as (j & c & Hloop & Hend).
      mstep Hloop. cbn beta iota. rewrite (mbs_end_Ret _ _ _ _ _ _ _ _ _ Hend), w32_sub_r.
      replace (wn - (wn - 1 - Z.of_nat (length ws))) with (Z.of_nat (S (length ws))) by lia. rewrite w32_small by lia.
      destruct (decide (rest = [])); [by rewrite decide_True|rewrite decide_False; [done|tauto]].
    + rewrite (bind_Ret _ _ x tt (MbEnv 0 e)) by (by rewrite <- He). rewrite Hstore.
      destruct (store_loop_Ret _ base s k ws rest (w32 (wn - 1)) [w] (MbEnv 0 e) Hat' Hfuel (w32_range _)) as (en & Hloop & Hres).
      mstep Hloop. pose proof (w32_range (wn - 1)) as Hr. rewrite encode_cons, length_app in *.
      assert (Hw1 : wn = 0 -> w32 (wn - 1) = 2 ^ 32 - 1) by (by intros ->).
      apply (store_end_Ret (length p) k [w] ws rest wn (w32 (wn - 1)) s en); try done.
      * rewrite encode_cons, app_nil_r. lia.
      * unfold w32. simpl length. rewrite Zplus_mod_idemp_l. replace (wn - 1 + Z.of_nat 1) with wn by lia. by rewrite Z.mod_small.
      * simpl. lia.
      * simpl length. lia.
Qed.
