(* ===== verification/Avl.v ===== *)
(** Balanced search trees ([musl/src/search]: tsearch, tdelete, tfind, twalk,
    tdestroy) as operations on a heap of nodes. *)
From S2P Require Import Prelude.

(** ** Nodes and the places that hold pointers to them *)

Definition addr : Type := positive.

(** [struct node]; [kid false] and [kid true] are [a[0]] and [a[1]]. *)
Record node (K : Type) := Node { key : K; kid0 : option addr; kid1 : option addr; h : Z }.
Arguments Node {K} _ _ _ _.
Arguments key {K} _.
Arguments kid0 {K} _.
Arguments kid1 {K} _.
Arguments h {K} _.

(** A [void **]: the caller's root pointer or a field [a[dir]] of a node. *)
Inductive slot : Type :=
  | Root
  | Kid (a : addr) (dir : bool).

Inductive VISIT : Type := preorder | postorder | endorder | leaf.

(** [MAXH] for 32-bit pointers. *)
Definition MAXH : nat := Z.to_nat (4 * 8 * 3 / 2).

Section Operations.
Context {K : Type} (cmp : K -> K -> Z).

Definition kid (dir : bool) (n : node K) : option addr := if dir then kid1 n else kid0 n.
Definition set_kid (dir : bool) (p : option addr) (n : node K) : node K :=
  if dir then Node (key n) (kid0 n) p (h n) else Node (key n) p (kid1 n) (h n).
Definition set_h (x : Z) (n : node K) : node K := Node (key n) (kid0 n) (kid1 n) x.
Definition set_key (k : K) (n : node K) : node K := Node k (kid0 n) (kid1 n) (h n).

(** The root pointer of one tree and all nodes of the heap. *)
Record tstate := TState { rootp : option addr; nodes : gmap addr (node K) }.
Abbreviation TM := (M tstate).

(** The allocator: the address it gives, if any, is not in use. *)
Variable malloc : gmap addr (node K) -> option addr.

Definition node_at (p : option addr) : TM (node K) := fun s =>
  match p ≫= fun a => nodes s !! a with
  | Some n => Ret (n, s)
  | None => Stop Undefined
  end.
Definition upd (p : option addr) (f : node K -> node K) : TM unit :=
  n ← node_at p;
  modify (fun s => TState (rootp s) (match p with Some a => <[a := f n]> (nodes s) | None => nodes s end)).
Definition free (p : option addr) : TM unit :=
  node_at p;;
  modify (fun s => TState (rootp s) (match p with Some a => delete a (nodes s) | None => nodes s end)).
Definition load (p : slot) : TM (option addr) :=
  match p with
  | Root => gets rootp
  | Kid a d => n ← node_at (Some a); mret (kid d n)
  end.
Definition store (p : slot) (v : option addr) : TM unit :=
  match p with
  | Root => modify (fun s => TState v (nodes s))
  | Kid a d => upd (Some a) (set_kid d v)
  end.

(** ** Balancing *)

Definition height (n : option addr) : TM Z :=
  match n with
  | None => mret 0
  | Some _ => nd ← node_at n; mret (h nd)
  end.

Definition rot (p : slot) (x : option addr) (dir : bool) : TM Z :=
  nx ← node_at x;
  let y := kid dir nx in
  ny ← node_at y;
  let z := kid (negb dir) ny in
  let hx := h nx in
  hz ← height z;
  hd ← height (kid dir ny);
  z' ← (if hd <? hz then
          nz ← node_at z;
          upd x (set_kid dir (kid (negb dir) nz));;
          nz ← node_at z;
          upd y (set_kid (negb dir) (kid dir nz));;
          upd z (set_kid (negb dir) x);;
          upd z (set_kid dir y);;
          upd x (set_h hz);;
          upd y (set_h hz);;
          upd z (set_h (hz + 1));;
          mret z
        else
          upd x (set_kid dir z);;
          upd y (set_kid (negb dir) x);;
          upd x (set_h (hz + 1));;
          upd y (set_h (hz + 2));;
          mret y);
  store p z';;
  nz ← node_at z';
  mret (h nz - hx).

Definition __tsearch_balance (p : slot) : TM Z :=
  n ← load p;
  nd ← node_at n;
  h0 ← height (kid0 nd);
  h1 ← height (kid1 nd);
  if w32 (h0 - h1 + 1) <? 3 then
    let old := h nd in
    let new := if h0 <? h1 then h1 + 1 else h0 + 1 in
    upd n (set_h new);;
    mret (new - old)
  else rot p n (h0 <? h1).

(** The loop over the array of slots, the last entry first. *)
Fixpoint rebalance (a : list slot) : TM unit :=
  match a with
  | [] => mret tt
  | p :: a => c ← __tsearch_balance p; if c =? 0 then mret tt else rebalance a
  end.

(** ** Searching

    [a] lists the slots on the way down, the last first; [room] entries of
    the array [a[MAXH]] are left. *)
Fixpoint descend (room : nat) (k : K) (n : option addr) (a : list slot) : TM (option addr * list slot) :=
  match n with
  | None => mret (None, a)
  | Some na =>
      nd ← node_at n;
      let c := cmp k (key nd) in
      if c =? 0 then mret (n, a) else
      match room with
      | O => halt Undefined
      | S room => descend room k (kid (0 <? c) nd) (Kid na (0 <? c) :: a)
      end
  end.

Definition tsearch (k : K) (null : bool) : TM (option addr) :=
  if null then mret None else
  n ← load Root;
  '(n, a) ← descend (MAXH - 1) k n [Root];
  match n with
  | Some _ => mret n
  | None =>
      s ← get;
      match malloc (nodes s) with
      | None => mret None
      | Some r =>
          put (TState (rootp s) (<[r := Node k None None 1]> (nodes s)));;
          store (hd Root a) (Some r);;
          rebalance (tail a);;
          mret (Some r)
      end
  end.

(** To the rightmost node below [n]. *)
Fixpoint rightmost (room : nat) (n : addr) (a : list slot) : TM (addr * list slot) :=
  nd ← node_at (Some n);
  match kid1 nd with
  | None => mret (n, a)
  | Some m =>
      match room with
      | O => halt Undefined
      | S room => rightmost room m (Kid n true :: a)
      end
  end.

(** From the node with the key on: [a] holds its slot and those above. *)
Definition remove_node (deleted : addr) (a : list slot) (parent : option addr) : TM (option addr) :=
  nd ← node_at (Some deleted);
  '(n, child, a) ←
    (match kid0 nd with
     | Some l =>
         match (MAXH + 1 - length a)%nat with
         | O => halt Undefined
         | S room =>
             '(n, a) ← rightmost room l (Kid deleted false :: a);
             nn ← node_at (Some n);
             upd (Some deleted) (set_key (key nn));;
             mret (n, kid0 nn, a)
         end
     | None => mret (deleted, kid1 nd, a)
     end);
  free (Some n);;
  store (hd Root a) child;;
  rebalance (tail (removelast a));;
  mret parent.

(** The array holds [MAXH + 1] slots, the first of them the root pointer
    once more; it is not rebalanced. *)
Definition tdelete (k : K) (null : bool) : TM (option addr) :=
  if null then mret None else
  n ← load Root;
  '(n, a) ← descend (MAXH - 1) k n [Root; Root];
  match n with
  | None => mret None
  | Some n => parent ← load (nth 1 a Root); remove_node n a parent
  end.

Fixpoint find_loop (fuel : nat) (k : K) (n : option addr) : TM (option addr) :=
  match n with
  | None => mret None
  | Some _ =>
      nd ← node_at n;
      let c := cmp k (key nd) in
      if c =? 0 then mret n else
      match fuel with
      | O => halt OutOfFuel
      | S fuel => find_loop fuel k (kid (0 <? c) nd)
      end
  end.
Definition tfind (fuel : nat) (k : K) (null : bool) : TM (option addr) :=
  if null then mret None else n ← load Root; find_loop fuel k n.

(** ** Visiting all nodes *)

(** The calls of [action], in order. *)
Fixpoint walk (fuel : nat) (r : option addr) (d : Z) : TM (list (addr * VISIT * Z)) :=
  match r with
  | None => mret []
  | Some a =>
      match fuel with
      | O => halt OutOfFuel
      | S fuel =>
          nd ← node_at r;
          if h nd =? 1 then mret [(a, leaf, d)] else
          e0 ← walk fuel (kid0 nd) (d + 1);
          e1 ← walk fuel (kid1 nd) (d + 1);
          mret ((a, preorder, d) :: e0 ++ (a, postorder, d) :: e1 ++ [(a, endorder, d)])
      end
  end.
Definition twalk (fuel : nat) (root : option addr) : TM (list (addr * VISIT * Z)) := walk fuel root 0.

(** The calls of [freekey], in order. *)
Fixpoint tdestroy (fuel : nat) (r : option addr) (freekey : bool) : TM (list K) :=
  match r with
  | None => mret []
  | Some a =>
      match fuel with
      | O => halt OutOfFuel
      | S fuel =>
          nd ← node_at r;
          e0 ← tdestroy fuel (kid0 nd) freekey;
          nd ← node_at r;
          e1 ← tdestroy fuel (kid1 nd) freekey;
          nd ← node_at r;
          free r;;
          mret (e0 ++ e1 ++ if freekey then [key nd] else [])
      end
  end.

End Operations.
Arguments TState {K} _ _.
Arguments rootp {K} _.
Arguments nodes {K} _.
