(* ===== verification/AvlTree.v ===== *)
(** Balanced trees as data: the invariant, rebalancing along a path, the
    height bound; and how a tree lies in the heap of nodes. *)
From S2P Require Import Prelude.
From S2P Require Import Avl.

(** ** Trees and paths into them *)

Inductive tree (K : Type) : Type :=
  | Leaf
  | Br (a : addr) (k : K) (x : Z) (l r : tree K).
Arguments Leaf {K}.
Arguments Br {K} _ _ _ _ _.

(** One step of a path: the node, the side the path takes, the other side. *)
Record frame (K : Type) := Frame { f_a : addr; f_k : K; f_h : Z; f_dir : bool; f_other : tree K }.
Arguments Frame {K} _ _ _ _ _.
Arguments f_a {K} _.
Arguments f_k {K} _.
Arguments f_h {K} _.
Arguments f_dir {K} _.
Arguments f_other {K} _.

Section Trees.
Context {K : Type}.
Implicit Types (t l r : tree K) (f : frame K) (c : list (frame K)).

Definition br (d : bool) (a : addr) (k : K) (x : Z) (side other : tree K) : tree K :=
  if d then Br a k x other side else Br a k x side other.
Definition fill f t : tree K := br (f_dir f) (f_a f) (f_k f) (f_h f) t (f_other f).
Fixpoint plug c t : tree K := match c with [] => t | f :: c => plug c (fill f t) end.

Definition ht t : Z := match t with Leaf => 0 | Br _ _ x _ _ => x end.
Definition root_of t : option addr := match t with Leaf => None | Br a _ _ _ _ => Some a end.
Fixpoint depth t : nat := match t with Leaf => O | Br _ _ _ l r => S (depth l `max` depth r) end.
Fixpoint pairs t : list (addr * K) :=
  match t with Leaf => [] | Br a k _ l r => pairs l ++ (a, k) :: pairs r end.
Definition keys t : list K := map snd (pairs t).

(** The balance invariant, with the stored heights. *)
Fixpoint avl t : Prop :=
  match t with
  | Leaf => True
  | Br _ _ x l r => avl l /\ avl r /\ x = 1 + Z.max (ht l) (ht r) /\ - 1 <= ht l - ht r <= 1
  end.

(** What surrounds the hole of a path, in order. *)
Fixpoint before c : list (addr * K) :=
  match c with
  | [] => []
  | f :: c => before c ++ (if f_dir f then pairs (f_other f) ++ [(f_a f, f_k f)] else [])
  end.
Fixpoint behind c : list (addr * K) :=
  match c with
  | [] => []
  | f :: c => (if f_dir f then [] else (f_a f, f_k f) :: pairs (f_other f)) ++ behind c
  end.

Lemma pairs_plug c t : pairs (plug c t) = before c ++ pairs t ++ behind c.
Proof.
  revert t. induction c as [|f c IH]; intros t; simpl; [by rewrite app_nil_r|].
  rewrite IH. unfold fill, br. destruct (f_dir f); simpl; by rewrite <- ?app_assoc, ?app_nil_r, ?app_nil_l.
Qed.

Lemma avl_depth t : avl t -> ht t = Z.of_nat (depth t).
Proof. induction t as [|a k x l IHl r IHr]; simpl; [done|]. intros (Hl & Hr & -> & _). rewrite IHl, IHr by done. lia. Qed.
Lemma avl_ht t : avl t -> 0 <= ht t /\ (root_of t <> None -> 1 <= ht t).
Proof. intros H. rewrite (avl_depth t H). destruct t; simpl; [done|lia]. Qed.

(** ** Rebalancing *)

(** [rot] on a tree whose side [d] is the deeper one. *)
Definition rotated (d : bool) (a : addr) (k : K) (deep other : tree K) : tree K :=
  match deep with
  | Leaf => Leaf
  | Br y ky _ yl yr =>
      let inner := if d then yl else yr in
      let outer := if d then yr else yl in
      match inner with
      | Br z kz hz zl zr =>
          if ht outer <? hz then
            let near := if d then zl else zr in
            let far := if d then zr else zl in
            br d z kz (hz + 1) (br d y ky hz outer far) (br d a k hz near other)
          else br d y ky (hz + 2) outer (br d a k (hz + 1) inner other)
      | Leaf => br d y ky 2 outer (br d a k 1 Leaf other)
      end
  end.

Definition bal t : tree K * Z :=
  match t with
  | Leaf => (Leaf, 0)
  | Br a k x l r =>
      if w32 (ht l - ht r + 1) <? 3 then
        let x' := if ht l <? ht r then ht r + 1 else ht l + 1 in (Br a k x' l r, x' - x)
      else
        let t := if ht l <? ht r then rotated true a k r l else rotated false a k l r in
        (t, ht t - x)
  end.

(** Rebalancing upwards from a replaced subtree, stopping where the height
    is the old one. *)
Fixpoint up c t : tree K :=
  match c with
  | [] => t
  | f :: c =>
      let '(t', delta) := bal (fill f t) in
      if delta =? 0 then plug c t' else up c t'
  end.

Lemma pairs_br d a k x s o : pairs (br d a k x s o) =
  if d then pairs o ++ (a, k) :: pairs s else pairs s ++ (a, k) :: pairs o.
Proof. by destruct d. Qed.

Lemma rotated_pairs d a k x deep other : deep <> Leaf ->
  pairs (rotated d a k deep other) = pairs (br d a k x deep other).
Proof.
  destruct deep as [|y ky hy yl yr]; [done|]. intros _. unfold rotated.
  destruct d; [destruct yl|destruct yr]; try case_match; simpl; by repeat (rewrite <- ?app_assoc; simpl).
Qed.

Lemma ht_br d a k x s o : ht (br d a k x s o) = x.
Proof. by destruct d. Qed.
Lemma avl_br d a k x s o : avl (br d a k x s o) <->
  avl s /\ avl o /\ x = 1 + Z.max (ht s) (ht o) /\ - 1 <= ht s - ht o <= 1.
Proof. destruct d; simpl; split; intros (? & ? & ? & ?); split_and!; try done; lia. Qed.

Lemma rotated_avl d a k deep other : avl deep -> avl other -> ht deep = ht other + 2 ->
  avl (rotated d a k deep other) /\ ht deep <= ht (rotated d a k deep other) <= ht deep + 1.
Proof.
  intros Hd Ho Hh. pose proof (avl_ht _ Ho) as [Ho0 _]. destruct deep as [|y ky hy yl yr]; [simpl in *; lia|].
  simpl in Hd. destruct Hd as (Hyl & Hyr & Hy & Hb). simpl ht in Hh. unfold rotated.
  pose proof (avl_ht _ Hyl). pose proof (avl_ht _ Hyr).
  destruct d.
  - destruct yl as [|z kz hz zl zr].
    + simpl in *. split_and!; try done; lia.
    + simpl in Hyl. destruct Hyl as (Hzl & Hzr & Hz & Hzb). simpl ht in *. case_match; simpl.
      * pose proof (avl_ht _ Hzl). pose proof (avl_ht _ Hzr). split_and!; try done; lia.
      * split_and!; try done; lia.
  - destruct yr as [|z kz hz zl zr].
    + simpl in *. split_and!; try done; lia.
    + simpl in Hyr. destruct Hyr as (Hzl & Hzr & Hz & Hzb). simpl ht in *. case_match; simpl.
      * pose proof (avl_ht _ Hzl). pose proof (avl_ht _ Hzr). split_and!; try done; lia.
      * split_and!; try done; lia.
Qed.

Lemma balanced_test h0 h1 : 0 <= h0 < 2 ^ 31 -> 0 <= h1 < 2 ^ 31 ->
  (w32 (h0 - h1 + 1) <? 3) = bool_decide (- 1 <= h0 - h1 <= 1).
Proof.
  intros H0 H1. case_bool_decide as Hb; [rewrite w32_small by lia; lia|].
  destruct (Z.lt_ge_cases (h0 - h1) (- 1)); [|rewrite w32_small by lia; lia].
  unfold w32. rewrite <- (Z.mod_add _ 1), Z.mod_small by lia. lia.
Qed.

Lemma bal_spec d a k x t o : avl t -> avl o -> ht t < 2 ^ 31 -> ht o < 2 ^ 31 -> - 2 <= ht t - ht o <= 2 ->
  let t' := fst (bal (br d a k x t o)) in
  snd (bal (br d a k x t o)) = ht t' - x /\ avl t' /\ pairs t' = pairs (br d a k x t o) /\
  (- 1 <= ht t - ht o <= 1 /\ ht t' = 1 + Z.max (ht t) (ht o) \/
   (ht t = ht o + 2 \/ ht o = ht t + 2) /\ Z.max (ht t) (ht o) <= ht t' <= 1 + Z.max (ht t) (ht o)).
Proof.
  intros Ht Ho Hbt Hbo Hd t'. pose proof (avl_ht _ Ht) as [Ht0 _]. pose proof (avl_ht _ Ho) as [Ho0 _].
  assert (Hne : forall u, 1 <= ht u -> u <> Leaf) by (intros [|] ?; [simpl in *; lia|done]).
  subst t'. unfold br, bal. destruct d; rewrite balanced_test by lia; case_bool_decide; cbn [fst snd].
  - destruct (Z.ltb_spec (ht o) (ht t)); simpl; split_and!; try done; lia.
  - destruct (Z.ltb_spec (ht o) (ht t)).
    + destruct (rotated_avl true a k t o Ht Ho ltac:(lia)). rewrite (rotated_pairs true a k x) by (apply Hne; lia).
      split_and!; try done; lia.
    + destruct (rotated_avl false a k o t Ho Ht ltac:(lia)). rewrite (rotated_pairs false a k x) by (apply Hne; lia).
      split_and!; try done; lia.
  - destruct (Z.ltb_spec (ht t) (ht o)); simpl; split_and!; try done; lia.
  - destruct (Z.ltb_spec (ht t) (ht o)).
    + destruct (rotated_avl true a k o t Ho Ht ltac:(lia)). rewrite (rotated_pairs true a k x) by (apply Hne; lia).
      split_and!; try done; lia.
    + destruct (rotated_avl false a k t o Ht Ho ltac:(lia)). rewrite (rotated_pairs false a k x) by (apply Hne; lia).
      split_and!; try done; lia.
Qed.

Lemma plug_avl c t : avl (plug c t) -> avl t.
Proof.
  revert t. induction c as [|f c IH]; intros t; simpl; [done|]. intros Ha%IH. unfold fill in Ha.
  by apply avl_br in Ha as (? & _).
Qed.

Lemma plug_avl_replace c t t' : avl (plug c t) -> avl t' -> ht t' = ht t -> avl (plug c t').
Proof.
  revert t t'. induction c as [|f c IH]; intros t t'; simpl; [done|]. intros Ha Ht' Hh.
  apply (IH _ _ Ha); [|unfold fill; by rewrite !ht_br].
  apply plug_avl in Ha. unfold fill in *. apply avl_br in Ha as (? & ? & ? & ?).
  apply avl_br. rewrite Hh. split_and!; try done; lia.
Qed.

Lemma ht_plug_le c t : avl (plug c t) -> ht t <= ht (plug c t).
Proof.
  revert t. induction c as [|g c IH]; intros u Hu; simpl in *; [lia|].
  specialize (IH _ Hu). apply plug_avl in Hu. unfold fill in *. rewrite ht_br in IH. apply avl_br in Hu. lia.
Qed.

Lemma ht_plug_same c t t' : ht t = ht t' -> ht (plug c t) = ht (plug c t').
Proof. revert t t'. induction c as [|g c IH]; intros t t' Ht; simpl; [done|]. apply IH. unfold fill. by rewrite !ht_br. Qed.

(** One step up from a subtree whose height has changed by at most one. *)
Lemma bal_step c f t0 t : avl (plug c (fill f t0)) -> ht (plug c (fill f t0)) < 2 ^ 31 - 1 ->
  avl t -> - 1 <= ht t - ht t0 <= 1 ->
  let t' := fst (bal (fill f t)) in
  avl (f_other f) /\ snd (bal (fill f t)) = ht t' - ht (fill f t0) /\ avl t' /\ pairs t' = pairs (fill f t) /\
  - 1 <= ht t' - ht (fill f t0) <= 1.
Proof.
  intros Ha Hlt Ht Hd. pose proof (ht_plug_le _ _ Ha) as Hmono.
  pose proof (plug_avl _ _ Ha) as Hf. unfold fill in *. rewrite !ht_br in *. apply avl_br in Hf as (Ht0 & Ho & Hx & Hb).
  pose proof (avl_ht _ Ht0) as [? _]. pose proof (avl_ht _ Ho) as [? _].
  destruct (bal_spec (f_dir f) (f_a f) (f_k f) (f_h f) t (f_other f) Ht Ho ltac:(lia) ltac:(lia) ltac:(lia))
    as (Hdelta & Ht' & Hpairs & Hcases).
  split_and!; try done; lia.
Qed.

(** Stopping where the height is the old one leaves a balanced tree. *)
Lemma up_spec c t0 t : avl (plug c t0) -> ht (plug c t0) < 2 ^ 31 - 1 -> avl t -> - 1 <= ht t - ht t0 <= 1 ->
  avl (up c t) /\ pairs (up c t) = pairs (plug c t).
Proof.
  revert t0 t. induction c as [|f c IH]; intros t0 t Ha Hlt Ht Hd; simpl in *; [done|].
  destruct (bal_step c f t0 t Ha Hlt Ht Hd) as (_ & Hdelta & Ht' & Hpairs & Hd').
  assert (Hp : pairs (plug c (fst (bal (fill f t)))) = pairs (plug c (fill f t))) by (by rewrite !pairs_plug, Hpairs).
  destruct (bal (fill f t)) as [t' delta]. simpl in *. destruct (Z.eqb_spec delta 0).
  - split; [|done]. apply (plug_avl_replace c (fill f t0)); [done..|lia].
  - rewrite <- Hp. by apply (IH (fill f t0)).
Qed.

(** ** The height bound

    A balanced tree of height [n] has at least [fewest n] nodes. *)
Fixpoint fewest2 (n : nat) : Z * Z :=
  match n with
  | O => (0, 1)
  | S n => let '(x, y) := fewest2 n in (y, x + y + 1)
  end.
Definition fewest (n : nat) : Z := fst (fewest2 n).

Lemma fewest_SS n : fewest (S (S n)) = fewest n + fewest (S n) + 1.
Proof. unfold fewest. simpl. by destruct (fewest2 n). Qed.
Lemma fewest_mono n : 0 <= fewest n <= fewest (S n).
Proof. induction n as [|n IH]; [vm_compute; done|]. rewrite fewest_SS. lia. Qed.
Lemma fewest_le m n : (m <= n)%nat -> fewest m <= fewest n.
Proof. induction 1 as [|n _ IH]; [lia|]. pose proof (fewest_mono n). lia. Qed.

Lemma avl_fewest t : avl t -> fewest (depth t) <= Z.of_nat (length (pairs t)).
Proof.
  induction t as [|a k x l IHl r IHr]; [done|]. intros (Hl & Hr & _ & Hb). specialize (IHl Hl). specialize (IHr Hr).
  rewrite (avl_depth l), (avl_depth r) in Hb by done. simpl. rewrite length_app. simpl.
  destruct (Nat.max_spec (depth l) (depth r)) as [[Hlt ->]|[Hle ->]].
  - assert (depth r = S (depth l)) as Hdr by lia. rewrite Hdr in *. rewrite fewest_SS. lia.
  - destruct (decide (depth l = depth r)) as [He|].
    + destruct (depth l) as [|n] eqn:E.
      * change (fewest 1) with 1. lia.
      * rewrite fewest_SS. rewrite <- He in *. pose proof (fewest_mono n). lia.
    + assert (depth l = S (depth r)) as Hdl by lia. rewrite Hdl in *. rewrite fewest_SS. lia.
Qed.

(** With fewer than 2^32 nodes a path has at most 45 steps. *)
Lemma avl_depth_bound t : avl t -> Z.of_nat (length (pairs t)) < 2 ^ 32 -> (depth t <= 45)%nat.
Proof.
  intros Ha Hn. pose proof (avl_fewest t Ha). destruct (decide (depth t <= 45)%nat); [done|].
  pose proof (fewest_le 46 (depth t) ltac:(lia)) as Hle. change (fewest 46) with 4807526975 in Hle. lia.
Qed.

Lemma plug_depth c t : (length c + depth t <= depth (plug c t))%nat.
Proof.
  revert t. induction c as [|f c IH]; intros t; simpl; [done|]. specialize (IH (fill f t)).
  enough (S (depth t) <= depth (fill f t))%nat by lia. unfold fill, br. destruct (f_dir f); simpl; lia.
Qed.
End Trees.
