(* ===== verification/AvlProofs.v ===== *)
(** How trees and paths lie in the heap of nodes, and what the pointer
    operations do to them. *)
From Stdlib Require Import Sorted.
From S2P Require Import Prelude.
From S2P Require Import Avl.
From S2P Require Import AvlTree.

(** ** Owned nodes

    The heap is a list of nodes with distinct addresses and a [rest] that the
    operations do not touch. *)
Definition own {V} (m : gmap addr V) (L : list (addr * V)) (rest : gmap addr V) : Prop :=
  NoDup L.*1 /\ (forall a, a ∈ L.*1 -> rest !! a = None) /\ m = list_to_map L ∪ rest.

Section Own.
Context {V : Type}.
Implicit Types (m rest : gmap addr V) (L : list (addr * V)).

Lemma own_perm m L L' rest : L ≡ₚ L' -> own m L rest -> own m L' rest.
Proof.
  intros Hp (Hn & Hr & ->). split; [by rewrite <- Hp|]. split; [intros a; rewrite <- Hp; apply Hr|].
  by rewrite (list_to_map_proper L L').
Qed.

#[global] Instance own_proper m : Proper (Permutation ==> eq ==> iff) (own m).
Proof. intros L L' Hp rest ? <-. split; by apply own_perm. Qed.

Lemma own_lookup m L rest a n : own m L rest -> (a, n) ∈ L -> m !! a = Some n.
Proof.
  intros (Hn & _ & ->) Hin. apply lookup_union_Some_l. by apply elem_of_list_to_map_1.
Qed.

Lemma own_head m a n L rest : own m ((a, n) :: L) rest -> m !! a = Some n.
Proof. intros Ho. eapply own_lookup; [done|]. apply elem_of_cons. by left. Qed.

Lemma own_set m a n n' L rest : own m ((a, n) :: L) rest -> own (<[a := n']> m) ((a, n') :: L) rest.
Proof.
  intros (Hn & Hr & ->). split; [done|]. split; [done|]. simpl.
  by rewrite insert_union_l, insert_insert_eq.
Qed.

Lemma own_new m a n L rest : own m L rest -> m !! a = None -> own (<[a := n]> m) ((a, n) :: L) rest.
Proof.
  intros (Hn & Hr & ->) [Hl Hrest]%lookup_union_None. split.
  - simpl. apply NoDup_cons. split; [|done]. by apply not_elem_of_list_to_map.
  - split; [|by rewrite insert_union_l]. intros b. simpl. intros [->|Hb]%elem_of_cons; [done|by apply Hr].
Qed.

Lemma own_free m a n L rest : own m ((a, n) :: L) rest -> own (delete a m) L rest.
Proof.
  intros (Hn & Hr & ->). simpl in Hn. apply NoDup_cons in Hn as [Ha Hn]. split; [done|].
  split; [intros b Hb; apply Hr; simpl; by apply elem_of_cons; right|].
  simpl. rewrite delete_union, delete_insert_eq.
  rewrite (delete_id rest a) by (apply Hr; simpl; apply elem_of_cons; by left).
  by rewrite delete_id by (by apply not_elem_of_list_to_map).
Qed.

Lemma own_nil m rest : own m [] rest <-> m = rest.
Proof.
  split; [intros (_ & _ & ->); simpl; by rewrite (left_id_L ∅ _)|intros ->].
  split; [constructor|]. split; [intros a Ha; by apply elem_of_nil in Ha|]. simpl. by rewrite (left_id_L ∅ _).
Qed.

Lemma own_length m L rest : own m L rest -> (length L <= size m)%nat.
Proof.
  intros (Hn & Hr & ->).
  assert (Hd : list_to_map L ##ₘ rest).
  { apply map_disjoint_spec. intros a x y Hx%elem_of_list_to_map_2 Hy.
    rewrite Hr in Hy; [done|]. by apply (list_elem_of_fmap_2 fst) in Hx. }
  rewrite map_size_disj_union by done.
  enough (size (list_to_map L : gmap addr V) = length L) by lia.
  rewrite <- (length_map_to_list (list_to_map L)). by rewrite map_to_list_to_map.
Qed.

Lemma own_distinct m a b n1 n2 L rest : own m ((a, n1) :: (b, n2) :: L) rest -> a <> b.
Proof. intros (Hn & _) ->. simpl in Hn. apply NoDup_cons in Hn as [Hn _]. apply Hn. by left. Qed.
End Own.

(** ** The nodes of a tree and of a path *)

Section Cells.
Context {K : Type}.
Implicit Types (t l r : tree K) (f : frame K) (c : list (frame K)) (s : tstate (K := K)).

Fixpoint cells t : list (addr * node K) :=
  match t with
  | Leaf => []
  | Br a k x l r => (a, Node k (root_of l) (root_of r) x) :: cells l ++ cells r
  end.

(** [q]: the pointer in the hole. *)
Definition node_of (d : bool) (k : K) (x : Z) (q o : option addr) : node K :=
  if d then Node k o q x else Node k q o x.
Fixpoint around c (q : option addr) : list (addr * node K) :=
  match c with
  | [] => []
  | f :: c => (f_a f, node_of (f_dir f) (f_k f) (f_h f) q (root_of (f_other f))) ::
      cells (f_other f) ++ around c (Some (f_a f))
  end.
Definition top_root c (q : option addr) : option addr :=
  match last c with None => q | Some f => Some (f_a f) end.

(** The place of the hole, and those on the way to it. *)
Definition top c : slot := match c with [] => Root | f :: _ => Kid (f_a f) (f_dir f) end.
Fixpoint slots c : list slot := match c with [] => [Root] | f :: c' => top c :: slots c' end.

(** The heap holds the tree [t] under the root pointer, or the path [c] with
    the pointer [q] in its hole and the nodes [L]. *)
Definition holds s t (rest : gmap addr (node K)) : Prop := rootp s = root_of t /\ own (nodes s) (cells t) rest.
Definition focus s c q (L : list (addr * node K)) rest : Prop :=
  rootp s = top_root c q /\ own (nodes s) (L ++ around c q) rest.

Lemma cells_br d a k x t o :
  cells (br d a k x t o) ≡ₚ (a, node_of d k x (root_of t) (root_of o)) :: cells t ++ cells o.
Proof. destruct d; simpl; [|done]. by rewrite (Permutation_app_comm (cells o)). Qed.
Lemma root_br d a k x t o : root_of (br d a k x t o) = Some a.
Proof. by destruct d. Qed.

Lemma cells_plug c t : cells (plug c t) ≡ₚ cells t ++ around c (root_of t).
Proof.
  revert t. induction c as [|f c IH]; intros t; simpl; [by rewrite app_nil_r|].
  rewrite IH. unfold fill. rewrite cells_br, root_br. simpl.
  by rewrite Permutation_middle, <- app_assoc, <- Permutation_middle, Permutation_middle.
Qed.

Lemma root_plug c t : root_of (plug c t) = top_root c (root_of t).
Proof.
  unfold top_root. revert t. induction c as [|f c IH]; intros t; simpl; [done|]. rewrite IH. unfold fill. rewrite root_br.
  rewrite last_cons. by destruct (last c).
Qed.

Lemma holds_focus s c t rest : holds s (plug c t) rest <-> focus s c (root_of t) (cells t) rest.
Proof. unfold holds, focus. by rewrite root_plug, cells_plug. Qed.

Lemma pairs_cells t : length (cells t) = length (pairs t).
Proof. induction t as [|a k x l IHl r IHr]; simpl; [done|]. rewrite !length_app. simpl. lia. Qed.

Lemma holds_size s t rest : holds s t rest -> (length (pairs t) <= size (nodes s))%nat.
Proof. intros [_ Ho%own_length]. by rewrite <- pairs_cells. Qed.

(** ** The primitives *)

Lemma node_at_Ret s a n : nodes s !! a = Some n -> node_at (Some a) s = Ret (n, s).
Proof. unfold node_at. simpl. by intros ->. Qed.

Lemma upd_Ret s a n g : nodes s !! a = Some n -> upd (Some a) g s = Ret (tt, TState (rootp s) (<[a := g n]> (nodes s))).
Proof. intros H. unfold upd. by rewrite (bind_Ret _ _ _ _ _ (node_at_Ret _ _ _ H)). Qed.

Lemma load_Ret s c q L rest : focus s c q L rest -> load (top c) s = Ret (q, s).
Proof.
  intros [Hr Ho]. destruct c as [|f c]; simpl; [unfold gets; by rewrite Hr|].
  assert (Hl : nodes s !! f_a f = Some (node_of (f_dir f) (f_k f) (f_h f) q (root_of (f_other f)))).
  { eapply own_lookup; [done|]. simpl. set_solver. }
  rewrite (bind_Ret _ _ _ _ _ (node_at_Ret _ _ _ Hl)). by destruct (f_dir f).
Qed.

Lemma store_Ret s c q q' L rest : focus s c q L rest ->
  exists s', store (top c) q' s = Ret (tt, s') /\ focus s' c q' L rest.
Proof.
  intros [Hr Ho]. destruct c as [|f c]; simpl.
  - exists (TState q' (nodes s)). by split.
  - simpl in Ho. rewrite <- Permutation_middle in Ho. exists (TState (rootp s)
      (<[f_a f := node_of (f_dir f) (f_k f) (f_h f) q' (root_of (f_other f))]> (nodes s))). split.
    + rewrite (upd_Ret _ _ _ _ (own_head _ _ _ _ _ Ho)). by destruct (f_dir f).
    + split; [simpl; rewrite Hr; unfold top_root; rewrite last_cons; by destruct (last c)|].
      simpl. rewrite <- Permutation_middle. by eapply own_set.
Qed.

Lemma height_Ret s t L rest : own (nodes s) L rest -> cells t ⊆+ L -> height (root_of t) s = Ret (ht t, s).
Proof.
  intros Ho Hsub. destruct t as [|a k x l r]; simpl; [done|].
  rewrite (bind_Ret _ _ _ _ _ (node_at_Ret s a (Node k (root_of l) (root_of r) x)
    ltac:(eapply own_lookup; [done|]; eapply elem_of_submseteq; [|done]; simpl; by left))). done.
Qed.
End Cells.

(** * The pointer code on trees computes the functions on trees. *)

Section Rot.
Context {K : Type}.
Implicit Types (t l r : tree K) (f : frame K) (c : list (frame K)) (s : tstate (K := K)).

Lemma kid_same d k x (q o : option addr) : kid d (node_of (K := K) d k x q o) = q.
Proof. by destruct d. Qed.
Lemma kid_other d k x (q o : option addr) : kid (negb d) (node_of (K := K) d k x q o) = o.
Proof. by destruct d. Qed.
Lemma set_same d k x (q o p : option addr) : set_kid d p (node_of (K := K) d k x q o) = node_of d k x p o.
Proof. by destruct d. Qed.
Lemma set_other d k x (q o p : option addr) : set_kid (negb d) p (node_of (K := K) d k x q o) = node_of d k x q p.
Proof. by destruct d. Qed.
Lemma set_h_of d k x (q o : option addr) y : set_h y (node_of (K := K) d k x q o) = node_of d k y q o.
Proof. by destruct d. Qed.
Lemma h_of d k x (q o : option addr) : h (node_of (K := K) d k x q o) = x.
Proof. by destruct d. Qed.

Lemma upd_in s L1 a n L2 rest g : own (nodes s) (L1 ++ (a, n) :: L2) rest ->
  exists s', upd (Some a) g s = Ret (tt, s') /\ rootp s' = rootp s /\ own (nodes s') (L1 ++ (a, g n) :: L2) rest.
Proof.
  intros Ho. rewrite <- Permutation_middle in Ho. eexists. split; [by apply upd_Ret, (own_head _ _ _ _ _ Ho)|].
  split; [done|]. rewrite <- Permutation_middle. by eapply own_set.
Qed.

Lemma node_in s L1 a n L2 rest : own (nodes s) (L1 ++ (a, n) :: L2) rest -> node_at (Some a) s = Ret (n, s).
Proof. intros Ho. apply node_at_Ret. eapply own_lookup; [done|]. set_solver. Qed.
End Rot.

(** Steps over the pointer operations of a program on owned nodes. *)
Ltac in_list := repeat (apply elem_of_cons; first [left; reflexivity | right]).
Ltac read_node :=
  lazymatch goal with
  | |- context [mbind _ (node_at (Some ?q)) ?s] =>
      match goal with
      | Ho : own (nodes s) ?L _ |- _ =>
          match L with
          | context [(q, ?n) :: _] =>
              mstep (node_at_Ret s q n ltac:(eapply own_lookup; [exact Ho|in_list]))
          end
      end
  end; cbn beta iota zeta; rewrite ?kid_same, ?kid_other, ?h_of.
Ltac split_at q L :=
  lazymatch L with
  | @cons ?T (q, ?n) ?L2 => constr:((@nil T, n, L2))
  | ?p :: ?L => lazymatch split_at q L with (?L1, ?n, ?L2) => constr:((cons p L1, n, L2)) end
  end.
Ltac write_node :=
  lazymatch goal with
  | |- context [mbind _ (upd (Some ?q) ?g) ?s] =>
      match goal with
      | Ho : own (nodes s) ?L ?rest |- _ =>
          lazymatch split_at q L with
          | (?L1, ?n, ?L2) =>
              let s' := fresh "s" in let Hs := fresh "Hs" in let Hr := fresh "Hr" in let Ho' := fresh "Ho" in
              destruct (upd_in s L1 q n L2 rest g Ho) as (s' & Hs & Hr & Ho'); mstep Hs; clear Hs Ho;
              cbn [app] in Ho'; rewrite ?set_same, ?set_other, ?set_h_of in Ho'; cbn beta iota
          end
      end
  end.

Lemma ret_bind {S A B} (v : A) (k : A -> M S B) s : mbind k (mret v) s = k v s.
Proof. reflexivity. Qed.

Lemma height_node {K} (s : tstate (K := K)) a n : nodes s !! a = Some n -> height (Some a) s = Ret (h n, s).
Proof. intros H. unfold height. by rewrite (bind_Ret _ _ _ _ _ (node_at_Ret _ _ _ H)). Qed.

Section Balance.
Context {K : Type}.
Implicit Types (t l r : tree K) (f : frame K) (c : list (frame K)) (s : tstate (K := K)).

Lemma rot_double c d a k x y ky hy outer z kz hz far near other s rest :
  ht outer < hz ->
  holds s (plug c (br d a k x (br d y ky hy outer (br d z kz hz far near)) other)) rest ->
  exists s', rot (top c) (Some a) d s = Ret (hz + 1 - x, s') /\
    holds s' (plug c (br d z kz (hz + 1) (br d y ky hz outer far) (br d a k hz near other))) rest.
Proof.
  intros Hlt [Hr Ho]%holds_focus. rewrite root_br in Hr, Ho. rewrite !cells_br, !root_br in Ho.
  set (R := cells outer ++ cells far ++ cells near ++ cells other ++ around c (Some a)).
  assert (HR : own (nodes s) ((a, node_of d k x (Some y) (root_of other)) ::
     (y, node_of d ky hy (root_of outer) (Some z)) :: (z, node_of d kz hz (root_of far) (root_of near)) :: R) rest).
  { eapply own_perm; [|exact Ho]. subst R. solve_Permutation. }
  assert (Houter : height (root_of outer) s = Ret (ht outer, s)).
  { eapply height_Ret; [exact HR|]. subst R. solve_submseteq. }
  clear Ho. rename HR into Ho. unfold rot. do 2 read_node.
  mstep (height_node s z _ ltac:(eapply own_lookup; [exact Ho|in_list])). mstep Houter. rewrite h_of.
  replace (ht outer <? hz) with true by lia.
  rewrite bind_assoc. read_node. rewrite bind_assoc. write_node. rewrite bind_assoc. read_node.
  do 6 (rewrite bind_assoc; write_node).
  rewrite ret_bind. cbn beta.
  match goal with Ho : own (nodes ?s') _ _ |- _ => assert (Hf : focus s' c (Some a) ((z, node_of d kz (hz + 1) (Some y) (Some a)) ::
     (y, node_of d ky hz (root_of outer) (root_of far)) :: (a, node_of d k hz (root_of near) (root_of other)) ::
     cells outer ++ cells far ++ cells near ++ cells other) rest) end.
  { split; [congruence|]. eapply own_perm; [|eassumption]. subst R. solve_Permutation. }
  destruct (store_Ret _ _ _ (Some z) _ _ Hf) as (sx & Hst & Hf1). mstep Hst. destruct Hf1 as [Hrx Hox].
  mstep (node_at_Ret _ _ _ (own_head _ _ _ _ _ Hox)). rewrite h_of. exists sx. split; [done|].
  apply holds_focus. rewrite root_br. split; [done|]. eapply own_perm; [|exact Hox]. rewrite !cells_br, !root_br. solve_Permutation.
Qed.

Lemma rot_single c d a k x y ky hy outer inner other s rest :
  ht inner <= ht outer ->
  holds s (plug c (br d a k x (br d y ky hy outer inner) other)) rest ->
  exists s', rot (top c) (Some a) d s = Ret (ht inner + 2 - x, s') /\
    holds s' (plug c (br d y ky (ht inner + 2) outer (br d a k (ht inner + 1) inner other))) rest.
Proof.
  intros Hlt [Hr Ho]%holds_focus. rewrite root_br in Hr, Ho. rewrite !cells_br, !root_br in Ho.
  set (R := cells outer ++ cells inner ++ cells other ++ around c (Some a)).
  assert (HR : own (nodes s) ((a, node_of d k x (Some y) (root_of other)) ::
     (y, node_of d ky hy (root_of outer) (root_of inner)) :: R) rest).
  { eapply own_perm; [|exact Ho]. subst R. solve_Permutation. }
  assert (Houter : height (root_of outer) s = Ret (ht outer, s)).
  { eapply height_Ret; [exact HR|]. subst R. solve_submseteq. }
  assert (Hinner : height (root_of inner) s = Ret (ht inner, s)).
  { eapply height_Ret; [exact HR|]. subst R. solve_submseteq. }
  clear Ho. rename HR into Ho. unfold rot. do 2 read_node. mstep Hinner. mstep Houter.
  replace (ht outer <? ht inner) with false by lia.
  do 4 (rewrite bind_assoc; write_node). rewrite ret_bind. cbn beta.
  match goal with Ho : own (nodes ?s') _ _ |- _ => assert (Hf : focus s' c (Some a)
    ((y, node_of d ky (ht inner + 2) (root_of outer) (Some a)) ::
     (a, node_of d k (ht inner + 1) (root_of inner) (root_of other)) ::
     cells outer ++ cells inner ++ cells other) rest) end.
  { split; [congruence|]. eapply own_perm; [|eassumption]. subst R. solve_Permutation. }
  destruct (store_Ret _ _ _ (Some y) _ _ Hf) as (sx & Hst & Hf1). mstep Hst. destruct Hf1 as [Hrx Hox].
  mstep (node_at_Ret _ _ _ (own_head _ _ _ _ _ Hox)). rewrite h_of. exists sx. split; [done|].
  apply holds_focus. rewrite root_br. split; [done|]. eapply own_perm; [|exact Hox]. rewrite !cells_br, !root_br. solve_Permutation.
Qed.

Lemma br_cases d (t : tree K) : t <> Leaf -> exists a k x side other, t = br d a k x side other.
Proof. destruct t as [|a k x l r]; [done|]. intros _. destruct d; [by exists a, k, x, r, l|by exists a, k, x, l, r]. Qed.

Lemma rotated_br d a (k : K) y ky hy outer inner other :
  rotated d a k (br d y ky hy outer inner) other =
    match inner with
    | Br z kz hz zl zr =>
        if ht outer <? hz then
          br d z kz (hz + 1) (br d y ky hz outer (if d then zr else zl)) (br d a k hz (if d then zl else zr) other)
        else br d y ky (hz + 2) outer (br d a k (hz + 1) inner other)
    | Leaf => br d y ky 2 outer (br d a k 1 Leaf other)
    end.
Proof. by destruct d. Qed.

Lemma rot_Ret c d a k x deep other s rest : deep <> Leaf -> avl deep ->
  holds s (plug c (br d a k x deep other)) rest ->
  exists s', rot (top c) (Some a) d s = Ret (ht (rotated d a k deep other) - x, s') /\
    holds s' (plug c (rotated d a k deep other)) rest.
Proof.
  intros Hne Ha Hh. destruct (br_cases d deep Hne) as (y & ky & hy & outer & inner & ->). rewrite rotated_br.
  apply avl_br in Ha as (Hao & Hai & _). destruct inner as [|z kz hz zl zr].
  - pose proof (avl_ht _ Hao) as [? _]. rewrite ht_br. by apply (rot_single c d a k x y ky hy outer Leaf other s rest).
  - destruct (Z.ltb_spec (ht outer) hz).
    + rewrite ht_br. apply (rot_double c d a k x y ky hy outer z kz hz _ _ other s rest); [done|]. by destruct d.
    + rewrite ht_br. by apply (rot_single c d a k x y ky hy outer (Br z kz hz zl zr) other s rest).
Qed.

Lemma balance_Ret c t s rest : t <> Leaf -> (forall a k x l r, t = Br a k x l r -> avl l /\ avl r) ->
  holds s (plug c t) rest ->
  exists s', __tsearch_balance (top c) s = Ret (snd (bal t), s') /\ holds s' (plug c (fst (bal t))) rest.
Proof.
  intros Hne Hav Hh. destruct t as [|a k x l r]; [done|]. destruct (Hav _ _ _ _ _ eq_refl) as [Hl Hr].
  pose proof Hh as Hf. apply holds_focus in Hf. pose proof Hf as [Hroot Ho]. cbn [cells root_of app] in *.
  unfold __tsearch_balance. mstep (load_Ret _ _ _ _ _ Hf). mstep (node_at_Ret _ _ _ (own_head _ _ _ _ _ Ho)).
  cbn [kid0 kid1 h].
  mstep (height_Ret _ l _ _ Ho ltac:(solve_submseteq)). mstep (height_Ret _ r _ _ Ho ltac:(solve_submseteq)).
  unfold bal. destruct (w32 (ht l - ht r + 1) <? 3) eqn:Etest.
  - destruct (upd_in s [] a _ _ _ (set_h (if ht l <? ht r then ht r + 1 else ht l + 1)) Ho) as (s' & Hs & Hr' & Ho').
    mstep Hs. exists s'. split; [done|]. apply holds_focus. split; [by rewrite Hr'|done].
  - destruct (Z.ltb_spec (ht l) (ht r)).
    + apply (rot_Ret c true a k x r l); [|done|done]. intros ->. pose proof (avl_ht _ Hl). simpl in *. lia.
    + apply (rot_Ret c false a k x l r); [|done|done]. intros ->. pose proof (avl_ht _ Hr). simpl in *.
      replace (ht r) with 0 in Etest by lia. done.
Qed.

Lemma rebalance_Ret c : forall t0 t s rest, avl (plug c t0) -> ht (plug c t0) < 2 ^ 31 - 1 -> avl t ->
  - 1 <= ht t - ht t0 <= 1 -> holds s (plug c t) rest ->
  exists s', rebalance (tail (slots c)) s = Ret (tt, s') /\ holds s' (up c t) rest.
Proof.
  induction c as [|f c IH]; intros t0 t s rest Ha Hlt Ht Hd Hh; [by exists s|].
  simpl in Ha, Hlt, Hh. destruct (bal_step c f t0 t Ha Hlt Ht Hd) as (Ho & Hdelta & Ht' & _ & Hd').
  destruct (balance_Ret c (fill f t) s rest) as (s1 & Hrun & Hh1).
  { unfold fill. by destruct (f_dir f). }
  { intros a k x l r. unfold fill, br. destruct (f_dir f); intros [= _ _ _ <- <-]; by split. }
  { done. }
  change (tail (slots (f :: c))) with (slots c).
  replace (slots c) with (top c :: tail (slots c)) by (by destruct c). cbn [rebalance up].
  mstep Hrun. destruct (bal (fill f t)) as [t' delta]. simpl in *.
  destruct (Z.eqb_spec delta 0); [by exists s1|]. by apply (IH (fill f t0)).
Qed.
End Balance.

(** ** Searching *)

Section Search.
Context {K : Type} (cmp : K -> K -> Z) `{!Comparison cmp}.
Implicit Types (t l r : tree K) (f : frame K) (c : list (frame K)) (s : tstate (K := K)).

Definition ordered (ks : list K) : Prop := StronglySorted (fun x y => cmp x y < 0) ks.


Lemma ordered_app ks1 ks2 : ordered (ks1 ++ ks2) <->
  ordered ks1 /\ ordered ks2 /\ forall x y, x ∈ ks1 -> y ∈ ks2 -> cmp x y < 0.
Proof.
  unfold ordered. induction ks1 as [|x ks1 IH]; simpl.
  - split; [intros; split_and!; [constructor|done|intros ? ? Hx; by apply elem_of_nil in Hx]|by intros (_ & ? & _)].
  - split.
    + intros [Hs Hx]%StronglySorted_inv. apply IH in Hs as (H1 & H2 & H3). apply Forall_app in Hx as [Hx1 Hx2].
      rewrite Forall_forall in Hx2. split_and!; [by constructor|done|].
      intros a b [->|Ha]%elem_of_cons Hb; [by apply Hx2|by apply H3].
    + intros ([Hs Hx]%StronglySorted_inv & H2 & H3). constructor.
      * apply IH. split_and!; [done..|]. intros a b Ha Hb. apply H3; [by apply elem_of_cons; right|done].
      * apply Forall_app. split; [done|]. apply Forall_forall. intros b Hb. apply H3; [by apply elem_of_cons; left|done].
Qed.

Lemma ordered_cons k ks : ordered (k :: ks) <-> (forall y, y ∈ ks -> cmp k y < 0) /\ ordered ks.
Proof.
  unfold ordered. split.
  - intros [Hs Hx]%StronglySorted_inv. rewrite Forall_forall in Hx. done.
  - intros [Hx Hs]. constructor; [done|]. by apply Forall_forall.
Qed.

(** The way down. *)
Fixpoint zoom (k : K) t c : tree K * list (frame K) :=
  match t with
  | Leaf => (Leaf, c)
  | Br a k0 x l r =>
      let o := cmp k k0 in
      if o =? 0 then (t, c) else
      if 0 <? o then zoom k r (Frame a k0 x true l :: c) else zoom k l (Frame a k0 x false r :: c)
  end.

Lemma zoom_plug k t c : plug (snd (zoom k t c)) (fst (zoom k t c)) = plug c t.
Proof.
  revert c. induction t as [|a k0 x l IHl r IHr]; intros c; simpl; [done|].
  destruct (_ =? _); [done|]. destruct (_ <? _); [by rewrite IHr|by rewrite IHl].
Qed.

Lemma zoom_depth k t c : (length (snd (zoom k t c)) <= length c + depth t)%nat.
Proof.
  revert c. induction t as [|a k0 x l IHl r IHr]; intros c; simpl; [lia|].
  destruct (_ =? _); [simpl; lia|]. destruct (_ <? _); [specialize (IHr (Frame a k0 x true l :: c))|specialize (IHl (Frame a k0 x false r :: c))]; simpl in *; lia.
Qed.

Definition below (k : K) (ps : list (addr * K)) : Prop := forall p, p ∈ ps -> 0 < cmp k (snd p).
Definition above (k : K) (ps : list (addr * K)) : Prop := forall p, p ∈ ps -> cmp k (snd p) < 0.

Lemma zoom_order k t c : ordered (keys t) -> below k (before c) -> above k (behind c) ->
  let '(t', c') := zoom k t c in
  below k (before c') /\ above k (behind c') /\
  match t' with Leaf => True | Br _ k0 _ _ _ => cmp k k0 = 0 end.
Proof.
  revert c. induction t as [|a k0 x l IHl r IHr]; intros c Hs Hb Ha; simpl; [done|].
  unfold keys in Hs. simpl in Hs. rewrite map_app in Hs. apply ordered_app in Hs as (Hl & Hr & Hlr).
  simpl in Hr. apply ordered_cons in Hr as [Hkr Hr].
  destruct (Z.eqb_spec (cmp k k0) 0); [done|]. destruct (Z.ltb_spec 0 (cmp k k0)) as [Hgt|Hle].
  - apply IHr; [done| |done]. simpl. intros p [?|[Hp|[->|[]%elem_of_nil]%elem_of_cons]%elem_of_app]%elem_of_app;
      [by apply Hb| |done].
    apply (cmp_gt cmp). apply (cmp_lt_trans cmp _ k0); [|apply (cmp_gt cmp) in Hgt; lia]. apply Hlr; [|by left].
    by apply (list_elem_of_fmap_2 snd).
  - apply IHl; [done|simpl; by rewrite app_nil_r|]. simpl. intros p [->|[Hp|?]%elem_of_app]%elem_of_cons; [simpl; lia| |by apply Ha].
    apply (cmp_lt_trans cmp _ k0); [lia|]. apply Z.lt_le_incl, Hkr. by apply (list_elem_of_fmap_2 snd).
Qed.
End Search.
