(* ===== verification/AvlTheorems.v ===== *)
(** What tsearch, tdelete, tfind, twalk and tdestroy do. *)
From Stdlib Require Import Sorted.
From S2P Require Import Prelude.
From S2P Require Import Avl.
From S2P Require Import AvlTree.
From S2P Require Import AvlProofs.

Section Theorems.
Context {K : Type} (cmp : K -> K -> Z) `{!Comparison cmp}.
Implicit Types (t l r : tree K) (f : frame K) (c : list (frame K)) (s : tstate (K := K)).

(** A search tree under the root pointer of [s], next to other nodes [rest]:
    balanced, in strict order, with fewer nodes than there are addresses. *)
Record search_tree s t (rest : gmap addr (node K)) : Prop := {
  st_holds : holds s t rest;
  st_avl : avl t;
  st_ordered : ordered cmp (keys t);
  st_few : Z.of_nat (length (pairs t)) < 2 ^ 32;
}.

Lemma descend_Ret k t : forall c room extra s rest, holds s (plug c t) rest -> (depth t <= room)%nat ->
  descend cmp room k (root_of t) (slots c ++ extra) s =
    Ret ((root_of (fst (zoom cmp k t c)), slots (snd (zoom cmp k t c)) ++ extra), s).
Proof.
  induction t as [|a k0 x l IHl r IHr]; intros c room extra s rest Hh Hroom; [by destruct room|].
  pose proof Hh as [_ Ho]%holds_focus. simpl in Ho. simpl depth in Hroom.
  destruct room as [|room]; [lia|].
  cbn [descend root_of]. mstep (node_at_Ret _ _ _ (own_head _ _ _ _ _ Ho)). cbn [key zoom].
  destruct (Z.eqb_spec (cmp k k0) 0); [done|]. destruct (Z.ltb_spec 0 (cmp k k0)).
  - by apply (IHr (Frame a k0 x true l :: c) room extra s rest); [|lia].
  - by apply (IHl (Frame a k0 x false r :: c) room extra s rest); [|lia].
Qed.

Lemma zoom_search k s t rest : search_tree s t rest ->
  let '(t', c) := zoom cmp k t [] in
  plug c t' = t /\ (length c <= 45)%nat /\ below cmp k (before c) /\ above cmp k (behind c) /\
  match t' with Leaf => True | Br _ k0 _ _ _ => cmp k k0 = 0 end.
Proof.
  intros [_ Ha Ho Hf]. pose proof (zoom_plug cmp k t []) as Hp. pose proof (zoom_depth cmp k t []) as Hd.
  pose proof (avl_depth_bound t Ha Hf).
  pose proof (zoom_order cmp k t [] Ho) as Hz. destruct (zoom cmp k t []) as [t' c]. simpl in *.
  destruct Hz as (? & ? & ?); [by intros p ?%elem_of_nil..|]. split_and!; try done. lia.
Qed.

Lemma search_tree_ht s t rest : search_tree s t rest -> ht t < 2 ^ 31 - 1.
Proof. intros [_ Ha _ Hf]. rewrite avl_depth by done. pose proof (avl_depth_bound t Ha Hf). lia. Qed.

Lemma map_before_behind c t : keys (plug c t) = map snd (before c) ++ keys t ++ map snd (behind c).
Proof. unfold keys. by rewrite pairs_plug, !map_app. Qed.

Section Insert.
Variable malloc : gmap addr (node K) -> option addr.
Hypothesis malloc_fresh : forall m a, malloc m = Some a -> m !! a = None.

(** C6: [tsearch] on a search tree returns the node whose key compares equal,
    and changes nothing, if there is one.  Otherwise it returns a new node
    with the key, in its place in the order, in a tree that is a search tree
    again; every other node keeps its address and key, and nothing outside the
    tree changes.  When there is no memory it returns [NULL] and changes
    nothing.  The array of [MAXH] slots is never overrun. *)
Theorem tsearch_spec k s t rest : search_tree s t rest ->
  exists p s', tsearch cmp malloc k false s = Ret (p, s') /\
    ((exists a k0, (a, k0) ∈ pairs t /\ cmp k k0 = 0 /\ p = Some a /\ s' = s) \/
     ((forall q, q ∈ pairs t -> cmp k (snd q) <> 0) /\
      match malloc (nodes s) with
      | None => p = None /\ s' = s
      | Some a => p = Some a /\ exists t' pre post, pairs t = pre ++ post /\ pairs t' = pre ++ (a, k) :: post /\
          holds s' t' rest /\ avl t' /\ ordered cmp (keys t')
      end)).
Proof.
  intros Hst. pose proof (zoom_search k s t rest Hst) as Hz. pose proof (search_tree_ht s t rest Hst) as Hht.
  destruct Hst as [Hh Ha Ho Hf]. pose proof (avl_depth_bound t Ha Hf) as Hdepth.
  assert (Hload : load Root s = Ret (root_of t, s)) by (by apply (load_Ret s [] (root_of t) (cells t) rest), holds_focus).
  pose proof (descend_Ret k t [] (MAXH - 1) [] s rest Hh ltac:(change (MAXH - 1)%nat with 47%nat; lia)) as Hdesc.
  destruct (zoom cmp k t []) as [t' c]. destruct Hz as (Hplug & _ & Hb & Hab & Hk).
  cbn [fst snd] in Hdesc. rewrite !app_nil_r in Hdesc. change (slots []) with [Root] in Hdesc.
  unfold tsearch. mstep Hload. mstep Hdesc. cbn beta iota. destruct t' as [|a k0 x l r]; cbn [root_of].
  2:{ exists (Some a), s. split; [done|]. left. exists a, k0. split; [|done]. rewrite <- Hplug, pairs_plug. simpl. set_solver. }
  mstep (get_Ret s). assert (Hnone : forall p, p ∈ pairs t -> cmp k (snd p) <> 0).
  { rewrite <- Hplug, pairs_plug. simpl. intros p [Hp|Hp]%elem_of_app; [apply Hb in Hp|apply Hab in Hp]; lia. }
  destruct (malloc (nodes s)) as [r|] eqn:Em; [|exists None, s; split; [done|by right]].
  rewrite <- Hplug in Hh. apply holds_focus in Hh. cbn [root_of cells] in Hh. destruct Hh as [Hr Hown].
  set (s1 := TState (rootp s) (<[r := Node k None None 1]> (nodes s))).
  assert (Hfocus : focus s1 c None (cells (Br r k 1 Leaf Leaf)) rest).
  { split; [done|]. apply own_new; [done|]. by apply malloc_fresh. }
  destruct (store_Ret _ _ _ (Some r) _ _ Hfocus) as (s2 & Hstore & Hfocus2). apply (holds_focus s2 c (Br r k 1 Leaf Leaf)) in Hfocus2.
  rewrite <- Hplug in Ha, Hht.
  destruct (rebalance_Ret c Leaf (Br r k 1 Leaf Leaf) s2 rest Ha Hht) as (s3 & Hreb & Hh3); [done|simpl; lia|done|].
  destruct (up_spec c Leaf (Br r k 1 Leaf Leaf) Ha Hht) as [Hav Hpairs]; [done|simpl; lia|].
  exists (Some r), s3. split.
  - mnext. fold s1. replace (hd Root (slots c)) with (top c) by (by destruct c). mnext_by Hstore. by mstep Hreb.
  - right. split; [done|]. split; [done|]. exists (up c (Br r k 1 Leaf Leaf)), (before c), (behind c).
    rewrite pairs_plug in Hpairs. rewrite <- Hplug, pairs_plug. split_and!; try done.
    rewrite <- Hplug, map_before_behind in Ho. simpl in Ho. unfold keys. rewrite Hpairs, map_app. simpl.
    apply ordered_app in Ho as (Ho1 & Ho2 & Ho12). apply ordered_app. split; [done|]. split.
    + apply ordered_cons. split; [|done]. intros y (p & -> & Hp)%list_elem_of_fmap. by apply Hab.
    + intros x y (p & -> & Hp)%list_elem_of_fmap [->|Hy]%elem_of_cons; [by apply (cmp_gt cmp), Hb|].
      apply Ho12; [by apply list_elem_of_fmap_2|done].
Qed.
End Insert.

(** ** Deletion *)

Lemma before_app c1 c2 : before (c1 ++ c2) = before c2 ++ before c1.
Proof. induction c1 as [|f c1 IH]; simpl; [by rewrite app_nil_r|]. by rewrite IH, app_assoc. Qed.
Lemma behind_app c1 c2 : behind (c1 ++ c2) = behind c1 ++ behind c2.
Proof. induction c1 as [|f c1 IH]; simpl; [done|]. by rewrite IH, app_assoc. Qed.
Lemma plug_app c1 c2 t : plug (c1 ++ c2) t = plug c2 (plug c1 t).
Proof. revert t. induction c1 as [|f c1 IH]; intros t; simpl; [done|]. apply IH. Qed.

Lemma free_Ret s c q a n L rest : focus s c q ((a, n) :: L) rest ->
  exists s', free (Some a) s = Ret (tt, s') /\ focus s' c q L rest.
Proof.
  intros [Hr Ho]. exists (TState (rootp s) (delete a (nodes s))). split.
  - unfold free. by mstep (node_at_Ret _ _ _ (own_head _ _ _ _ _ Ho)).
  - split; [done|]. by eapply own_free.
Qed.

(** The end of [tdelete]: the node in the hole of [c] is freed, its only
    subtree [u] moves up. *)
Lemma splice_Ret c q n nd u t0 s rest parent : focus s c q ((n, nd) :: cells u) rest ->
  avl (plug c t0) -> ht (plug c t0) < 2 ^ 31 - 1 -> avl u -> - 1 <= ht u - ht t0 <= 1 ->
  exists s', (free (Some n);; store (hd Root (slots c ++ [Root])) (root_of u);;
      rebalance (tail (removelast (slots c ++ [Root])));; mret parent) s = Ret (parent : option addr, s') /\
    holds s' (up c u) rest.
Proof.
  intros Hf Ha Hlt Hu Hd. destruct (free_Ret _ _ _ _ _ _ _ Hf) as (s1 & Hfree & Hf1).
  destruct (store_Ret _ _ _ (root_of u) _ _ Hf1) as (s2 & Hstore & Hf2). apply holds_focus in Hf2.
  destruct (rebalance_Ret c t0 u s2 rest Ha Hlt Hu Hd Hf2) as (s3 & Hreb & Hh).
  exists s3. split; [|done]. rewrite removelast_last.
  replace (hd Root (slots c ++ [Root])) with (top c) by (by destruct c).
  mnext_by Hfree. mnext_by Hstore. by mnext_by Hreb.
Qed.

Lemma rightmost_Ret t : forall a c room extra s rest, root_of t = Some a -> holds s (plug c t) rest ->
  (depth t <= S room)%nat ->
  exists m km xm lm cr, t = plug cr (Br m km xm lm Leaf) /\ behind cr = [] /\
    rightmost room a (slots c ++ extra) s = Ret ((m, slots (cr ++ c) ++ extra), s).
Proof.
  induction t as [|a k x l _ r IH]; intros a' c room extra s rest; simpl; [done|]. intros [= <-] Hh Hroom.
  pose proof Hh as [_ Ho]%holds_focus. cbn [cells app] in Ho.
  assert (Hrun : rightmost room a (slots c ++ extra) s =
    match root_of r with
    | None => Ret ((a, slots c ++ extra), s)
    | Some m => match room with O => Stop Undefined | S room => rightmost room m (Kid a true :: slots c ++ extra) s end
    end).
  { destruct room; cbn [rightmost]; mstep (node_at_Ret _ _ _ (own_head _ _ _ _ _ Ho)); cbn [kid1]; by destruct r. }
  destruct r as [|b kb xb lb rb] eqn:Er; [by exists a, k, x, l, []|]. rewrite <- Er in *.
  destruct room as [|room]; [subst r; simpl in Hroom; lia|].
  destruct (IH b (Frame a k x true l :: c) room extra s rest) as (m & km & xm & lm & cr & Ht & Hb & Hrun'); [by subst r|done|lia|].
  exists m, km, xm, lm, (cr ++ [Frame a k x true l]). rewrite plug_app, behind_app, Hb.
  split; [cbn [plug]; unfold fill; simpl; congruence|]. split; [done|].
  rewrite Hrun. replace (root_of r) with (Some b) by (by subst r). rewrite <- app_assoc. exact Hrun'.
Qed.

(** The node above [n] on the path [c], or [n] at the root. *)
Definition parent_of c (n : addr) : option addr := match c with [] => Some n | f :: _ => Some (f_a f) end.

Lemma parent_Ret c n k x l r s rest : holds s (plug c (Br n k x l r)) rest ->
  load (nth 1 (slots c ++ [Root]) Root) s = Ret (parent_of c n, s).
Proof.
  intros Hh. destruct c as [|f c]; simpl.
  - destruct Hh as [Hr _]. unfold gets. by rewrite Hr.
  - cbn [plug] in Hh. apply holds_focus in Hh. unfold fill in Hh. rewrite root_br in Hh.
    replace (nth 0 (slots c ++ [Root]) Root) with (top c) by (by destruct c). by eapply load_Ret.
Qed.

Lemma slots_length c : length (slots c) = S (length c).
Proof. induction c as [|f c IH]; simpl; [done|]. by rewrite IH. Qed.

(** [plug c (Br n k0 x l r)] before and [t'] after the node [n] is unlinked. *)
Definition unlinked c (n : addr) (l r : tree K) (t' : tree K) : Prop :=
  (l = Leaf /\ pairs t' = before c ++ pairs r ++ behind c) \/
  exists pre m km, pairs l = pre ++ [(m, km)] /\ pairs t' = before c ++ pre ++ (n, km) :: pairs r ++ behind c.

Lemma unlink_leaf c n k0 x r s rest parent : holds s (plug c (Br n k0 x Leaf r)) rest ->
  avl (plug c (Br n k0 x Leaf r)) -> ht (plug c (Br n k0 x Leaf r)) < 2 ^ 31 - 1 ->
  exists s' t', remove_node n (slots c ++ [Root]) parent s = Ret (parent, s') /\ holds s' t' rest /\ avl t' /\
    unlinked c n Leaf r t'.
Proof.
  intros Hh Ha Hlt. apply holds_focus in Hh. pose proof Hh as [_ Hown]. cbn [cells app root_of] in *.
  pose proof (plug_avl _ _ Ha) as (_ & Hr & Hx & Hbal). simpl in Hx, Hbal.
  pose proof (avl_ht _ Hr) as [? _].
  destruct (splice_Ret _ _ _ _ r _ _ _ parent Hh Ha Hlt Hr ltac:(simpl; lia)) as (s' & Hrun & Hh').
  destruct (up_spec _ _ _ Ha Hlt Hr ltac:(simpl; lia)) as [Hav Hp].
  exists s', (up c r). split; [|split; [done|]; split; [done|]; left; by rewrite <- pairs_plug].
  unfold remove_node. by mnext_by (node_at_Ret _ _ _ (own_head _ _ _ _ _ Hown)).
Qed.

Lemma unlink_pred c n k0 x l r s rest parent : l <> Leaf -> holds s (plug c (Br n k0 x l r)) rest ->
  avl (plug c (Br n k0 x l r)) -> ht (plug c (Br n k0 x l r)) < 2 ^ 31 - 1 ->
  (length c + depth (Br n k0 x l r) <= 45)%nat ->
  exists s' t', remove_node n (slots c ++ [Root]) parent s = Ret (parent, s') /\ holds s' t' rest /\ avl t' /\
    unlinked c n l r t'.
Proof.
  intros Hne Hh Ha Hlt Hd. pose proof Hh as [Hroot Hown]%holds_focus. cbn [cells app root_of] in *. simpl in Hd.
  destruct (root_of l) as [la|] eqn:El; [|by destruct l].
  destruct (rightmost_Ret l la (Frame n k0 x false r :: c) (46 - length c) [Root] s rest El Hh ltac:(lia))
    as (m & km & xm & lm & cr & Hl & Hbeh & Hright).
  destruct (upd_in s [] n _ _ _ (set_key km) Hown) as (s1 & Hs1 & Hr1 & Ho1). cbn [app] in Ho1. cbn in Ho1.
  set (c2 := cr ++ Frame n km x false r :: c).
  assert (Hplug : plug c (Br n km x l r) = plug c2 (Br m km xm lm Leaf)) by (subst c2 l; by rewrite plug_app).
  assert (Hh1 : holds s1 (plug c2 (Br m km xm lm Leaf)) rest).
  { rewrite <- Hplug. apply holds_focus. split; [by rewrite Hr1|]. cbn [cells app root_of]. rewrite El. exact Ho1. }
  assert (Ha1 : avl (plug c2 (Br m km xm lm Leaf))).
  { rewrite <- Hplug. apply (plug_avl_replace c (Br n k0 x l r)); [done| |done]. by apply plug_avl in Ha. }
  assert (Hlt1 : ht (plug c2 (Br m km xm lm Leaf)) < 2 ^ 31 - 1).
  { rewrite <- Hplug. by rewrite (ht_plug_same c _ (Br n k0 x l r)). }
  assert (Hm : nodes s !! m = Some (Node km (root_of lm) None xm)).
  { pose proof Hh as [_ Ho']. eapply own_lookup; [exact Ho'|]. subst l.
    change (Br n k0 x (plug cr (Br m km xm lm Leaf)) r) with (plug [Frame n k0 x false r] (plug cr (Br m km xm lm Leaf))).
    rewrite <- !plug_app, cells_plug. simpl. by left. }
  apply holds_focus in Hh1. cbn [cells] in Hh1. rewrite app_nil_r in Hh1.
  pose proof (plug_avl _ _ Ha1) as (Hlm & _ & Hx & Hbal). simpl in Hx, Hbal. pose proof (avl_ht _ Hlm) as [? _].
  destruct (splice_Ret _ _ _ _ lm _ _ _ parent Hh1 Ha1 Hlt1 Hlm ltac:(simpl; lia)) as (s' & Hrun & Hh').
  destruct (up_spec _ _ _ Ha1 Hlt1 Hlm ltac:(simpl; lia)) as [Hav Hp].
  exists s', (up c2 lm). split; [|split; [done|]; split; [done|]].
  - unfold remove_node. mnext_by (node_at_Ret _ _ _ (own_head _ _ _ _ _ Hown)). cbn [kid0].
    rewrite length_app, slots_length. replace (MAXH + 1 - (S (length c) + length [Root]))%nat with (S (46 - length c))
      by (change MAXH with 48%nat; simpl; lia).
    replace (slots c2) with (slots (cr ++ Frame n k0 x false r :: c)) in Hrun by (subst c2; clear; by induction cr as [|g cr IH]; simpl; [|rewrite IH; destruct cr]).
    etransitivity; [eapply bind_Ret; mnext_by Hright; mnext_by (node_at_Ret _ _ _ Hm); mnext_by Hs1; reflexivity|].
    exact Hrun.
  - right. exists (before cr ++ pairs lm), m, km. subst l c2. rewrite Hp, !pairs_plug, before_app, behind_app, Hbeh. simpl.
    rewrite !app_nil_r. by rewrite <- !app_assoc.
Qed.

Lemma unlinked_keys c n l r t' k0 x : unlinked c n l r t' ->
  pairs (plug c (Br n k0 x l r)) = (before c ++ pairs l) ++ (n, k0) :: pairs r ++ behind c /\
  (pairs t' = (before c ++ pairs l) ++ pairs r ++ behind c \/
   exists pre' m km, before c ++ pairs l = pre' ++ [(m, km)] /\ pairs t' = pre' ++ (n, km) :: pairs r ++ behind c) /\
  keys t' = map snd (before c ++ pairs l) ++ map snd (pairs r ++ behind c).
Proof.
  intros Hu. split; [rewrite pairs_plug; simpl; by rewrite <- !app_assoc|].
  destruct Hu as [[-> Hp]|(pre & m & km & Hl & Hp)]; unfold keys; rewrite Hp.
  - simpl. rewrite app_nil_r. split; [by left|]. by rewrite !map_app.
  - rewrite Hl. split; [|by repeat (rewrite ?map_app, <- ?app_assoc; simpl)]. right. exists (before c ++ pre), m, km. by rewrite !app_assoc.
Qed.

(** C7: [tdelete] on a search tree without an equal key returns [NULL] and
    changes nothing.  Otherwise one node is freed and the tree without the
    key is a search tree in the same order; if the node of the key had a left
    subtree the node before it is the one freed, its key moved over.  The
    result is the parent of the key's node, which is still in the tree, or,
    for the root, the old address of the root. *)
Theorem tdelete_spec k s t rest : search_tree s t rest ->
  exists ret s', tdelete cmp k false s = Ret (ret, s') /\
    (((forall p, p ∈ pairs t -> cmp k (snd p) <> 0) /\ ret = None /\ s' = s) \/
     exists a k0 pre post t' p, pairs t = pre ++ (a, k0) :: post /\ cmp k k0 = 0 /\
       (pairs t' = pre ++ post \/
        exists pre' m km, pre = pre' ++ [(m, km)] /\ pairs t' = pre' ++ (a, km) :: post) /\
       holds s' t' rest /\ avl t' /\ ordered cmp (keys t') /\ ret = Some p /\
       (root_of t = Some a /\ p = a \/
        p ∈ map fst (pairs t') /\ exists np, nodes s !! p = Some np /\ (kid0 np = Some a \/ kid1 np = Some a))).
Proof.
  intros Hst. pose proof (zoom_search k s t rest Hst) as Hz. pose proof (search_tree_ht s t rest Hst) as Hht.
  destruct Hst as [Hh Ha Ho Hf]. pose proof (avl_depth_bound t Ha Hf) as Hdepth.
  assert (Hload : load Root s = Ret (root_of t, s)) by (by apply (load_Ret s [] (root_of t) (cells t) rest), holds_focus).
  pose proof (descend_Ret k t [] (MAXH - 1) [Root] s rest Hh ltac:(change (MAXH - 1)%nat with 47%nat; lia)) as Hdesc.
  destruct (zoom cmp k t []) as [t' c]. destruct Hz as (Hplug & Hlen & Hb & Hab & Hk).
  cbn [fst snd] in Hdesc. change (slots [] ++ [Root]) with [Root; Root] in Hdesc.
  unfold tdelete. destruct t' as [|n k0 x l r].
  { exists None, s. split; [by mnext_by Hload; mnext_by Hdesc|]. left. split; [|done].
    rewrite <- Hplug, pairs_plug. intros p [Hp|Hp]%elem_of_app; [apply Hb in Hp|apply Hab in Hp]; lia. }
  subst t. pose proof (parent_Ret _ _ _ _ _ _ _ _ Hh) as Hpar.
  assert (Hdl : (length c + depth (Br n k0 x l r) <= 45)%nat) by (pose proof (plug_depth c (Br n k0 x l r)); lia).
  assert (Hun : exists s' t', remove_node n (slots c ++ [Root]) (parent_of c n) s = Ret (parent_of c n, s') /\
    holds s' t' rest /\ avl t' /\ unlinked c n l r t').
  { destruct l; [by apply (unlink_leaf c n k0 x _ s rest)|by apply (unlink_pred c n k0 x _ r s rest)]. }
  destruct Hun as (s' & t' & Hrun & Hh' & Ha' & Hu).
  exists (parent_of c n), s'. split; [by mnext_by Hload; mnext_by Hdesc; mnext_by Hpar|]. right.
  exists n, k0, (before c ++ pairs l), (pairs r ++ behind c), t', (default n (parent_of c n)).
  pose proof (unlinked_keys _ _ _ _ _ k0 x Hu) as (Hpt & Hcase & Hkeys).
  split_and!; try done.
  - rewrite Hkeys. unfold keys in Ho. rewrite Hpt, map_app in Ho.
    apply ordered_app in Ho as (? & [_ ?]%ordered_cons & Hlt). apply ordered_app. split; [done|]. split; [done|].
    intros y z Hy Hz. apply Hlt; [done|]. by right.
  - by destruct c.
  - destruct c as [|f c]; [by left|]. right. cbn [parent_of default]. split.
    + apply (list_elem_of_fmap_2 fst _ (f_a f, f_k f)).
      destruct Hu as [[_ ->]|(pre & m & km & _ & ->)]; simpl; destruct (f_dir f);
        rewrite ?elem_of_app, ?elem_of_cons, ?elem_of_app, ?elem_of_cons; tauto.
    + pose proof Hh as [_ Ho']. eexists. split.
      * eapply own_lookup; [exact Ho'|]. rewrite cells_plug. apply elem_of_app. right. simpl. by left.
      * destruct (f_dir f); [by right|by left].
Qed.
End Theorems.

(** * [tfind], [twalk] and [tdestroy] on search trees. *)

Section Find.
Context {K : Type} (cmp : K -> K -> Z) `{!Comparison cmp}.
Implicit Types (t l r : tree K) (c : list (frame K)) (s : tstate (K := K)).

Lemma find_loop_Ret k t : forall c fuel s rest, holds s (plug c t) rest -> (depth t <= fuel)%nat ->
  find_loop cmp fuel k (root_of t) s = Ret (root_of (fst (zoom cmp k t c)), s).
Proof.
  induction t as [|a k0 x l IHl r IHr]; intros c fuel s rest Hh Hfuel; [by destruct fuel|].
  pose proof Hh as [_ Ho]%holds_focus. simpl in Ho. simpl depth in Hfuel. destruct fuel as [|fuel]; [lia|].
  cbn [find_loop root_of]. mstep (node_at_Ret _ _ _ (own_head _ _ _ _ _ Ho)). cbn [key zoom].
  destruct (Z.eqb_spec (cmp k k0) 0); [done|]. destruct (Z.ltb_spec 0 (cmp k k0)).
  - by apply (IHr (Frame a k0 x true l :: c) fuel s rest); [|lia].
  - by apply (IHl (Frame a k0 x false r :: c) fuel s rest); [|lia].
Qed.

(** [tfind] changes nothing and returns the node whose key compares
    equal, or [NULL] when there is none; its loop ends after at most 45 steps
    down. *)
Theorem tfind_spec k s t rest fuel : search_tree cmp s t rest -> (45 <= fuel)%nat ->
  exists p, tfind cmp fuel k false s = Ret (p, s) /\
    ((exists a k0, (a, k0) ∈ pairs t /\ cmp k k0 = 0 /\ p = Some a) \/
     ((forall q, q ∈ pairs t -> cmp k (snd q) <> 0) /\ p = None)).
Proof.
  intros Hst Hfuel. pose proof (zoom_search cmp k s t rest Hst) as Hz. destruct Hst as [Hh Ha Ho Hf].
  pose proof (avl_depth_bound t Ha Hf) as Hdepth.
  assert (Hload : load Root s = Ret (root_of t, s)) by (by apply (load_Ret s [] (root_of t) (cells t) rest), holds_focus).
  pose proof (find_loop_Ret k t [] fuel s rest Hh ltac:(lia)) as Hfind.
  destruct (zoom cmp k t []) as [t' c]. destruct Hz as (<- & _ & Hb & Hab & Hk).
  exists (root_of t'). split; [by mnext_by Hload|]. rewrite pairs_plug.
  destruct t' as [|a k0 x l r]; [right|left].
  - split; [|done]. intros q [Hq|Hq]%elem_of_app; [apply Hb in Hq|apply Hab in Hq]; lia.
  - exists a, k0. split; [|done]. simpl. rewrite !elem_of_app, elem_of_cons. tauto.
Qed.
End Find.

(** ** Visiting *)

Section Visit.
Context {K : Type}.
Implicit Types (t l r : tree K) (s : tstate (K := K)).

Fixpoint events t (d : Z) : list (addr * VISIT * Z) :=
  match t with
  | Leaf => []
  | Br a _ x l r =>
      if x =? 1 then [(a, leaf, d)]
      else (a, preorder, d) :: events l (d + 1) ++ (a, postorder, d) :: events r (d + 1) ++ [(a, endorder, d)]
  end.

Lemma walk_Ret t : forall L s rest fuel d, own (nodes s) L rest -> cells t ⊆+ L -> (depth t <= fuel)%nat ->
  walk fuel (root_of t) d s = Ret (events t d, s).
Proof.
  induction t as [|a k x l IHl r IHr]; intros L s rest fuel d Ho Hsub Hfuel; [by destruct fuel|].
  simpl in Hfuel. destruct fuel as [|fuel]; [lia|]. cbn [walk root_of events].
  cbn [cells] in Hsub.
  assert (Hn : nodes s !! a = Some (Node k (root_of l) (root_of r) x)).
  { eapply own_lookup; [exact Ho|]. eapply elem_of_submseteq; [|exact Hsub]. by left. }
  mstep (node_at_Ret _ _ _ Hn). cbn [h kid0 kid1]. destruct (x =? 1); [done|].
  assert (Hl : cells l ⊆+ L) by (etransitivity; [|exact Hsub]; solve_submseteq).
  assert (Hr : cells r ⊆+ L) by (etransitivity; [|exact Hsub]; solve_submseteq).
  mstep (IHl L s rest fuel (d + 1) Ho Hl ltac:(lia)). by mstep (IHr L s rest fuel (d + 1) Ho Hr ltac:(lia)).
Qed.

(** The visits that see the keys in order: a node's only or its middle one. *)
Definition middle (e : addr * VISIT * Z) : bool :=
  match snd (fst e) with postorder | leaf => true | _ => false end.
(** The visits of one node. *)
Definition visits (a : addr) (ev : list (addr * VISIT * Z)) : list (VISIT * Z) :=
  map (fun e => (snd (fst e), snd e)) (filter (fun e => fst (fst e) = a) ev).

Lemma ht_one l r : avl l -> avl r -> 1 = 1 + Z.max (ht l) (ht r) -> l = Leaf /\ r = Leaf.
Proof.
  intros Hl%avl_ht Hr%avl_ht Hx. destruct l as [|????], r as [|????]; [done|..]; exfalso;
    destruct Hl as [? Hl], Hr as [? Hr]; try specialize (Hl ltac:(done)); try specialize (Hr ltac:(done)); lia.
Qed.

Lemma events_middle t : avl t -> forall d, map (fun e => fst (fst e)) (filter middle (events t d)) = map fst (pairs t).
Proof.
  induction t as [|a k x l IHl r IHr]; intros Ha d; [done|]. destruct Ha as (Hl & Hr & Hx & _). simpl.
  destruct (Z.eqb_spec x 1) as [->|].
  - by destruct (ht_one l r Hl Hr Hx) as [-> ->].
  - rewrite filter_cons_False by (by intros []). rewrite filter_app, map_app, IHl by done.
    rewrite filter_cons_True by done. rewrite filter_app. rewrite map_app. simpl. rewrite map_app, IHr by done.
    simpl. by rewrite app_nil_r.
Qed.

Lemma visits_app a ev1 ev2 : visits a (ev1 ++ ev2) = visits a ev1 ++ visits a ev2.
Proof. unfold visits. by rewrite filter_app, map_app. Qed.
Lemma visits_same a v d ev : visits a ((a, v, d) :: ev) = (v, d) :: visits a ev.
Proof. unfold visits. by rewrite filter_cons_True. Qed.
Lemma visits_other a b v d ev : b <> a -> visits a ((b, v, d) :: ev) = visits a ev.
Proof. intros. unfold visits. by rewrite filter_cons_False. Qed.

Lemma visits_none t a : a ∉ map fst (pairs t) -> forall d, visits a (events t d) = [].
Proof.
  induction t as [|b k x l IHl r IHr]; intros Ha d; [done|]. simpl in *. rewrite map_app in Ha. simpl in Ha.
  apply not_elem_of_app in Ha as [Hal [Hab Har]%not_elem_of_cons].
  destruct (x =? 1); rewrite visits_other by done; [done|].
  rewrite visits_app, IHl, visits_other, visits_app, IHr by done. by rewrite visits_other.
Qed.

Lemma events_visits t a : avl t -> NoDup (map fst (pairs t)) -> a ∈ map fst (pairs t) -> forall d, exists d',
  visits a (events t d) = [(leaf, d')] \/ visits a (events t d) = [(preorder, d'); (postorder, d'); (endorder, d')].
Proof.
  induction t as [|b k x l IHl r IHr]; intros Hav Hn Ha d; simpl in *; [by apply elem_of_nil in Ha|].
  destruct Hav as (Hl & Hr & Hx & _). rewrite map_app in Hn, Ha. simpl in Hn, Ha.
  apply NoDup_app in Hn as (Hnl & Hlr & [Hbr Hnr]%NoDup_cons).
  assert (Hbl : b ∉ map fst (pairs l)) by (intros Hb; by apply (Hlr b Hb); left).
  apply elem_of_app in Ha. rewrite elem_of_cons in Ha.
  destruct (Z.eqb_spec x 1) as [->|].
  { destruct (ht_one l r Hl Hr Hx) as [-> ->]. destruct Ha as [Ha|[->|Ha]]; [by apply elem_of_nil in Ha| |by apply elem_of_nil in Ha].
    exists d. left. by rewrite visits_same. }
  destruct (decide (a = b)) as [->|Hab].
  - exists d. right. rewrite visits_same, visits_app, visits_none, visits_same, visits_app, visits_none by done.
    by rewrite visits_same.
  - rewrite visits_other, visits_app, visits_other, visits_app, visits_other by done. change (visits a []) with (@nil (VISIT * Z)).
    rewrite app_nil_r. destruct Ha as [Ha|[?|Ha]]; [|done|].
    + rewrite (visits_none r), app_nil_r by (intros Har; apply (Hlr a Ha); by right). by apply IHl.
    + rewrite (visits_none l) by (intros Hal; apply (Hlr a Hal); by right). by apply IHr.
Qed.

Lemma fst_cells t : map fst (pairs t) ≡ₚ (cells t).*1.
Proof.
  induction t as [|a k x l IHl r IHr]; simpl; [done|]. rewrite map_app, fmap_app. simpl. rewrite IHl, IHr.
  by rewrite Permutation_middle.
Qed.

(** [twalk] visits the nodes of a search tree in order: the leaf and
    middle visits are those of the nodes in the order of their keys, and every
    node is visited either once as a leaf or three times, before, between and
    after its subtrees, each time with the same level.  Nothing changes. *)
Theorem twalk_spec s t rest fuel : holds s t rest -> avl t -> (depth t <= fuel)%nat ->
  exists ev, twalk fuel (rootp s) s = Ret (ev, s) /\
    map (fun e => fst (fst e)) (filter middle ev) = map fst (pairs t) /\
    forall a, a ∈ map fst (pairs t) -> exists d,
      visits a ev = [(leaf, d)] \/ visits a ev = [(preorder, d); (postorder, d); (endorder, d)].
Proof.
  intros [Hr Ho] Ha Hfuel. exists (events t 0). split.
  - unfold twalk. rewrite Hr. by eapply walk_Ret.
  - split; [by apply events_middle|]. intros a Hin. apply events_visits; [done| |done].
    rewrite fst_cells. by destruct Ho.
Qed.

Fixpoint postorder_keys t : list K :=
  match t with Leaf => [] | Br _ k _ l r => postorder_keys l ++ postorder_keys r ++ [k] end.

Lemma postorder_keys_keys t : postorder_keys t ≡ₚ keys t.
Proof.
  unfold keys. induction t as [|a k x l IHl r IHr]; simpl; [done|]. rewrite map_app. simpl. rewrite IHl, IHr.
  by rewrite (Permutation_app_comm (map snd (pairs r))).
Qed.

Lemma tdestroy_Ret t : forall L s rest fuel b, own (nodes s) (cells t ++ L) rest -> (depth t <= fuel)%nat ->
  exists s', tdestroy fuel (root_of t) b s = Ret (if b then postorder_keys t else [], s') /\
    rootp s' = rootp s /\ own (nodes s') L rest.
Proof.
  induction t as [|a k x l IHl r IHr]; intros L s rest fuel b Ho Hfuel.
  { exists s. by destruct fuel, b. }
  simpl in Hfuel. destruct fuel as [|fuel]; [lia|]. cbn [tdestroy root_of cells app] in *.
  mstep (node_at_Ret _ _ _ (own_head _ _ _ _ _ Ho)). cbn [kid0].
  set (nd := Node k (root_of l) (root_of r) x) in *.
  assert (Ho1 : own (nodes s) (cells l ++ (a, nd) :: cells r ++ L) rest) by (eapply own_perm; [|exact Ho]; solve_Permutation).
  destruct (IHl _ s rest fuel b Ho1 ltac:(lia)) as (s1 & Hs1 & Hr1 & Ho2). mstep Hs1.
  mstep (node_at_Ret _ _ _ (own_head _ _ _ _ _ Ho2)). cbn [kid1 nd].
  assert (Ho3 : own (nodes s1) (cells r ++ (a, nd) :: L) rest) by (eapply own_perm; [|exact Ho2]; solve_Permutation).
  destruct (IHr _ s1 rest fuel b Ho3 ltac:(lia)) as (s2 & Hs2 & Hr2 & Ho4). mstep Hs2.
  mstep (node_at_Ret _ _ _ (own_head _ _ _ _ _ Ho4)).
  exists (TState (rootp s2) (delete a (nodes s2))). split.
  - unfold free. rewrite bind_assoc. mstep (node_at_Ret _ _ _ (own_head _ _ _ _ _ Ho4)). by destruct b.
  - split; [simpl; congruence|]. by eapply own_free.
Qed.

(** [tdestroy] frees every node of the tree and nothing else, and calls
    [freekey], if given, once on each of its keys. *)
Theorem tdestroy_spec s t rest fuel b : holds s t rest -> (depth t <= fuel)%nat ->
  exists ks s', tdestroy fuel (rootp s) b s = Ret (ks, s') /\ nodes s' = rest /\ ks ≡ₚ (if b then keys t else []).
Proof.
  intros [Hr Ho] Hfuel. rewrite <- (app_nil_r (cells t)) in Ho.
  destruct (tdestroy_Ret t [] s rest fuel b Ho Hfuel) as (s' & Hrun & _ & Ho').
  exists (if b then postorder_keys t else []), s'. rewrite Hr. split; [done|]. split; [by apply own_nil|].
  destruct b; [apply postorder_keys_keys|done].
Qed.
End Visit.
