(* ===== verification/Hsearch.v ===== *)
(** The hash table of hsearch ([musl/src/search/hsearch.c]): open addressing
    with triangular steps. *)
From S2P Require Import Prelude.
From S2P Require Import Wasi.

(** [ENTRY]: [ekey] is [None] in a free entry; [edata] is a [void *]. *)
Record ENTRY := Entry { ekey : option (list Z); edata : Z }.
Inductive ACTION := FIND | ENTER.

(** [struct __tab]; [entries] is [None] for [NULL]. *)
Record __tab := Tab { entries : option (list ENTRY); mask : Z; used : Z }.

Definition MINSIZE : Z := 8.
Definition MAXSIZE : Z := (2 ^ 32 - 1) / 2 + 1.

Definition keyhash (k : list Z) : Z := fold_left (fun h b => w32 (31 * h + b)) k 0.

Definition no_entry : ENTRY := Entry None 0.
Definition entry (tab : list ENTRY) (e : Z) : ENTRY := default no_entry (tab !! Z.to_nat e).
Definition key_null (x : ENTRY) : bool := match ekey x with None => true | Some _ => false end.
(** [strcmp(e->key, key) == 0]. *)
Definition key_is (k : list Z) (x : ENTRY) : bool := bool_decide (ekey x = Some k).

Section Hsearch.
(** The allocator and its state: whether [calloc(n, size)] succeeds. *)
Context {A : Type} (calloc : Z -> Z -> A -> bool * A).

Record hstate := HState { htab : option __tab; alloc : A }.
Abbreviation HM := (M hstate).

Definition tab : HM __tab := fun s => match htab s with Some t => Ret (t, s) | None => Stop Undefined end.
Definition set_tab (t : option __tab) : HM unit := modify (fun s => HState t (alloc s)).
Definition do_calloc (n size : Z) : HM bool := fun s =>
  let '(ok, a) := calloc n size (alloc s) in Ret (ok, HState (htab s) a).

(** The loops over [i += j++]: the first entry of the probe sequence that
    [stop] accepts. *)
Fixpoint probe (fuel : nat) (stop : ENTRY -> bool) (l : list ENTRY) (msk i j : Z) : HM Z :=
  let e := Z.land i msk in
  if stop (entry l e) then mret e else
  match fuel with
  | O => halt OutOfFuel
  | S fuel => probe fuel stop l msk (w32 (i + j)) (w32 (j + 1))
  end.

(** [for (newsize = MINSIZE; newsize < nel; newsize *= 2)]. *)
Fixpoint grow (fuel : nat) (newsize nel : Z) : HM Z :=
  if newsize <? nel then
    match fuel with O => halt OutOfFuel | S fuel => grow fuel (w32 (newsize * 2)) nel end
  else mret newsize.

(** Moves the entries of [old] into the new array [l]. *)
Fixpoint rehash (fuel : nat) (old l : list ENTRY) (msk : Z) : HM (list ENTRY) :=
  match old with
  | [] => mret l
  | e :: old =>
      match ekey e with
      | Some k =>
          newe ← probe fuel key_null l msk (keyhash k) 1;
          rehash fuel old (<[Z.to_nat newe := e]> l) msk
      | None => rehash fuel old l msk
      end
  end.

Definition resize (nel : Z) : HM bool :=
  t ← tab;
  let oldtab := entries t in
  newsize ← grow 32 MINSIZE (if MAXSIZE <? nel then MAXSIZE else nel);
  ok ← do_calloc newsize 8;
  if ok : bool then
    let l := replicate (Z.to_nat newsize) no_entry in
    match oldtab with
    | None => set_tab (Some (Tab (Some l) (newsize - 1) (used t)));; mret true
    | Some old =>
        l ← rehash (Z.to_nat newsize) (take (Z.to_nat (mask t + 1)) old) l (newsize - 1);
        set_tab (Some (Tab (Some l) (newsize - 1) (used t)));;
        mret true
    end
  else mret false.

Definition lookup (k : list Z) (hash : Z) : HM Z :=
  t ← tab;
  match entries t with
  | Some l => probe (Z.to_nat (mask t + 1)) (fun x => key_null x || key_is k x) l (mask t) hash 1
  | None => halt Undefined
  end.

Definition __hcreate_r (nel : Z) : HM Z :=
  ok ← do_calloc 1 12;
  if negb ok then set_tab None;; mret 0 else
  set_tab (Some (Tab None 0 0));;
  r ← resize nel;
  if negb r then set_tab None;; mret 0 else mret 1.

Definition __hdestroy_r : HM unit := set_tab None.

(** [e->...] of the current array. *)
Definition read_entry (e : Z) : HM ENTRY :=
  t ← tab; match entries t with Some l => mret (entry l e) | None => halt Undefined end.
Definition write_entry (e : Z) (x : ENTRY) : HM unit :=
  t ← tab;
  match entries t with
  | Some l => set_tab (Some (Tab (Some (<[Z.to_nat e := x]> l)) (mask t) (used t)))
  | None => halt Undefined
  end.
Definition set_used (n : Z) : HM unit := t ← tab; set_tab (Some (Tab (entries t) (mask t) n)).

(** The result and [*retval], an entry of the table. *)
Definition __hsearch_r (k : list Z) (data : Z) (action : ACTION) : HM (Z * option Z) :=
  let hash := keyhash k in
  e ← lookup k hash;
  x ← read_entry e;
  if negb (key_null x) then mret (1, Some e) else
  match action with
  | FIND => mret (0, None)
  | ENTER =>
      write_entry e (Entry (Some k) data);;
      t ← tab;
      set_used (w32 (used t + 1));;
      t ← tab;
      if mask t - mask t / 4 <? used t then
        ok ← resize (w32 (2 * used t));
        if negb ok then
          t ← tab;
          set_used (w32 (used t - 1));;
          x ← read_entry e;
          write_entry e (Entry None (edata x));;
          mret (0, None)
        else
          e ← lookup k hash;
          mret (1, Some e)
      else mret (1, Some e)
  end.

Definition hcreate (nel : Z) : HM Z := __hcreate_r nel.
Definition hdestroy : HM unit := __hdestroy_r.
Definition hsearch (k : list Z) (data : Z) (action : ACTION) : HM (option Z) :=
  '(_, e) ← __hsearch_r k data action; mret e.
End Hsearch.
Arguments htab {A} _.
Arguments alloc {A} _.
Arguments HState {A} _ _.
