(* ===== verification/HsearchProofs.v ===== *)
(** The hash table: its probe sequences reach every entry, and lookup, insertion
    and growing keep the table a finite map. *)
From S2P Require Import Prelude.
From S2P Require Import Wasi.
From S2P Require Import Hsearch.

(** ** Triangular numbers modulo a power of two *)

Definition tri (t : Z) : Z := t * (t + 1) / 2.

Lemma tri_double t : 2 * tri t = t * (t + 1).
Proof.
  unfold tri. destruct (Z.Even_or_Odd t) as [[q ->]|[q ->]].
  - replace (2 * q * (2 * q + 1)) with (q * (2 * q + 1) * 2) by lia. rewrite Z.div_mul; lia.
  - replace ((2 * q + 1) * (2 * q + 1 + 1)) with ((2 * q + 1) * (q + 1) * 2) by lia. rewrite Z.div_mul; lia.
Qed.

Lemma tri_succ t : tri (t + 1) = tri t + (t + 1).
Proof. pose proof (tri_double t). pose proof (tri_double (t + 1)). nia. Qed.

Lemma odd_cancel k : forall m p, Z.Odd m -> (2 ^ Z.of_nat k | m * p) -> (2 ^ Z.of_nat k | p).
Proof.
  induction k as [|k IH]; intros m p Hm Hd; [apply Z.divide_1_l|].
  rewrite Nat2Z.inj_succ, Z.pow_succ_r in * by lia.
  assert (Hp : Z.Even p).
  { destruct (Z.Even_or_Odd p) as [|[q Hq]]; [done|]. destruct Hm as [r Hr], Hd as [x Hx]. subst. nia. }
  destruct Hp as [q ->]. apply Z.mul_divide_mono_l. apply (IH m); [done|].
  apply (Z.mul_divide_cancel_l _ _ 2); [lia|]. by replace (2 * (m * q)) with (m * (2 * q)) by lia.
Qed.

Lemma tri_inj k a b : 0 <= a < 2 ^ Z.of_nat k -> 0 <= b < 2 ^ Z.of_nat k ->
  tri a mod 2 ^ Z.of_nat k = tri b mod 2 ^ Z.of_nat k -> a = b.
Proof.
  assert (Hlt : forall a b, 0 <= a -> a < b -> b < 2 ^ Z.of_nat k -> tri a mod 2 ^ Z.of_nat k = tri b mod 2 ^ Z.of_nat k -> False).
  { clear a b. intros a b Ha Hab Hb He.
    assert (Hd : (2 ^ Z.of_nat (S k) | (b - a) * (b + a + 1))).
    { rewrite Nat2Z.inj_succ, Z.pow_succ_r by lia.
      replace ((b - a) * (b + a + 1)) with (2 * (tri b - tri a)) by (pose proof (tri_double a); pose proof (tri_double b); lia).
      apply Z.mul_divide_mono_l. apply Z.mod_divide; [lia|]. rewrite Zminus_mod, He, Z.sub_diag. by apply Z.mod_0_l; lia. }
    assert (H2 : 2 ^ Z.of_nat (S k) = 2 * 2 ^ Z.of_nat k) by (rewrite Nat2Z.inj_succ, Z.pow_succ_r; lia).
    destruct (Z.Even_or_Odd (b - a)) as [[q Hq]|Hodd].
    - assert (Hodd : Z.Odd (b + a + 1)) by (exists (a + q); lia).
      rewrite Z.mul_comm in Hd. apply (odd_cancel _ _ _ Hodd) in Hd. apply Z.divide_pos_le in Hd; lia.
    - apply (odd_cancel _ _ _ Hodd) in Hd. apply Z.divide_pos_le in Hd; lia. }
  intros Ha Hb He. destruct (Z.lt_trichotomy a b) as [?|[?|?]]; [exfalso; by apply (Hlt a b); try lia|done|exfalso; by apply (Hlt b a); try lia].
Qed.

(** The entry a probe sequence is at after [t] steps. *)
Definition slot (h : Z) (k : nat) (t : nat) : nat := Z.to_nat ((h + tri (Z.of_nat t)) mod 2 ^ Z.of_nat k).

(** Every entry is reached within the size of the table. *)
Lemma slot_surj h k p : (p < 2 ^ k)%nat -> exists t, (t < 2 ^ k)%nat /\ slot h k t = p.
Proof.
  intros Hp. assert (Hpow : Z.of_nat (2 ^ k) = 2 ^ Z.of_nat k) by (by rewrite Nat2Z.inj_pow).
  assert (Hperm : map (slot h k) (seq 0 (2 ^ k)) ≡ₚ seq 0 (2 ^ k)).
  { apply submseteq_length_Permutation; [|by rewrite length_map].
    apply NoDup_submseteq.
    - apply NoDup_fmap_2_strong; [|apply NoDup_seq]. intros x y Hx%elem_of_seq Hy%elem_of_seq He.
      unfold slot in He. pose proof (Z.mod_pos_bound (h + tri (Z.of_nat x)) (2 ^ Z.of_nat k) ltac:(lia)).
      pose proof (Z.mod_pos_bound (h + tri (Z.of_nat y)) (2 ^ Z.of_nat k) ltac:(lia)).
      apply Z2Nat.inj in He; [|lia..]. apply Nat2Z.inj, (tri_inj k); [lia..|].
      replace (tri (Z.of_nat x)) with (h + tri (Z.of_nat x) - h) by lia.
      replace (tri (Z.of_nat y)) with (h + tri (Z.of_nat y) - h) by lia. by rewrite Zminus_mod, He, <- Zminus_mod.
    - intros x (t & -> & _)%list_elem_of_fmap. apply elem_of_seq. unfold slot.
      pose proof (Z.mod_pos_bound (h + tri (Z.of_nat t)) (2 ^ Z.of_nat k) ltac:(lia)). lia. }
  assert (Hin : p ∈ map (slot h k) (seq 0 (2 ^ k))) by (rewrite Hperm; apply elem_of_seq; lia).
  apply list_elem_of_fmap in Hin as (t & -> & Ht%elem_of_seq). exists t. by split; [lia|].
Qed.

Lemma least (P : nat -> bool) m : P m = true -> exists t, (t <= m)%nat /\ P t = true /\ forall t', (t' < t)%nat -> P t' = false.
Proof.
  induction (lt_wf m) as [m _ IH]. intros Hm.
  destruct (existsb P (seq 0 m)) eqn:E.
  - apply existsb_exists in E as (t & Ht%in_seq & HP). destruct (IH t ltac:(lia) HP) as (t0 & ? & ? & ?).
    exists t0. split_and!; try done. lia.
  - exists m. split_and!; try done. intros t' Ht'. apply not_true_is_false. intros HP.
    apply not_true_iff_false in E. apply E, existsb_exists. exists t'. split; [apply in_seq; lia|done].
Qed.

(** ** Tables as finite maps *)

(** The keys and data in an array of entries. *)
Definition items (l : list ENTRY) : list (list Z * Z) := omap (fun x => k ← ekey x; Some (k, edata x)) l.

(** Every key is at an entry of its probe sequence behind full entries only. *)
Definition placed (l : list ENTRY) (n : nat) : Prop :=
  forall p x k, l !! p = Some x -> ekey x = Some k ->
    exists t, (t < 2 ^ n)%nat /\ slot (keyhash k) n t = p /\
      forall t', (t' < t)%nat -> key_null (entry l (Z.of_nat (slot (keyhash k) n t'))) = false.

Record array (l : list ENTRY) (n : nat) : Prop := {
  ar_len : length l = (2 ^ n)%nat;
  ar_n : (3 <= n <= 28)%nat;
  ar_nodup : NoDup (items l).*1;
  ar_placed : placed l n;
}.

Lemma entry_lookup l p x : l !! p = Some x -> entry l (Z.of_nat p) = x.
Proof. intros H. unfold entry. by rewrite Nat2Z.id, H. Qed.

Lemma items_app l1 l2 : items (l1 ++ l2) = items l1 ++ items l2.
Proof. apply omap_app. Qed.

Lemma items_at l p x : l !! p = Some x -> items l ≡ₚ items [x] ++ items (delete p l).
Proof.
  intros H. rewrite <- (take_drop_middle l p x H) at 1. rewrite delete_take_drop, !items_app.
  change (items (x :: drop (S p) l)) with (items ([x] ++ drop (S p) l)). rewrite items_app. solve_Permutation.
Qed.

Lemma items_write l p x y : l !! p = Some x -> items (<[p := y]> l) ≡ₚ items [y] ++ items (delete p l).
Proof.
  intros H. rewrite insert_take_drop, delete_take_drop, !items_app by (by eapply lookup_lt_Some).
  change (items (y :: drop (S p) l)) with (items ([y] ++ drop (S p) l)). rewrite items_app. solve_Permutation.
Qed.

Lemma items_elem l k d : (k, d) ∈ items l <-> exists p, l !! p = Some (Entry (Some k) d).
Proof.
  unfold items. rewrite list_elem_of_omap. split.
  - intros ([k' d'] & [p Hp]%list_elem_of_lookup & Hk). simpl in Hk. destruct k'; simplify_eq/=. by exists p.
  - intros [p Hp]. exists (Entry (Some k) d). split; [by apply list_elem_of_lookup_2 with p|done].
Qed.

Lemma free_exists l : (length (items l) < length l)%nat -> exists p x, l !! p = Some x /\ ekey x = None.
Proof.
  induction l as [|x l IH]; [simpl; lia|]. destruct x as [[k|] d]; [|by exists 0%nat, (Entry None d)].
  change (items (Entry (Some k) d :: l)) with ((k, d) :: items l). simpl. intros Hl.
  destruct IH as (p & x & Hx & Hk); [lia|]. by exists (S p), x.
Qed.

Lemma array_write l n k d t : array l n -> (t < 2 ^ n)%nat ->
  key_null (entry l (Z.of_nat (slot (keyhash k) n t))) = true ->
  (forall t', (t' < t)%nat -> key_null (entry l (Z.of_nat (slot (keyhash k) n t'))) = false) ->
  k ∉ (items l).*1 ->
  array (<[slot (keyhash k) n t := Entry (Some k) d]> l) n /\
  items (<[slot (keyhash k) n t := Entry (Some k) d]> l) ≡ₚ (k, d) :: items l.
Proof.
  intros [Hlen Hn Hnd Hpl] Ht Hfree Hfull Hk.
  set (p := slot (keyhash k) n t) in *.
  assert (Hp : (p < length l)%nat).
  { rewrite Hlen. subst p. unfold slot. assert (Hpow : Z.of_nat (2 ^ n) = 2 ^ Z.of_nat n) by (by rewrite Nat2Z.inj_pow).
    pose proof (Z.mod_pos_bound (keyhash k + tri (Z.of_nat t)) (2 ^ Z.of_nat n) ltac:(lia)). lia. }
  destruct (lookup_lt_is_Some_2 l p Hp) as [x Hx]. rewrite (entry_lookup _ _ _ Hx) in Hfree.
  assert (Hitems : items (<[p := Entry (Some k) d]> l) ≡ₚ (k, d) :: items l).
  { rewrite (items_write _ _ _ _ Hx), (items_at _ _ _ Hx). destruct x as [[?|] ?]; [done|]. done. }
  split; [|done]. split; [by rewrite length_insert|done|by rewrite Hitems; simpl; apply NoDup_cons|].
  assert (Hmono : forall q, key_null (entry l (Z.of_nat q)) = false ->
    key_null (entry (<[p := Entry (Some k) d]> l) (Z.of_nat q)) = false).
  { intros q. unfold entry. rewrite !Nat2Z.id. destruct (decide (q = p)) as [->|Hqp].
    - by rewrite list_lookup_insert_eq.
    - by rewrite list_lookup_insert_ne. }
  intros q y k' Hy Hk'. destruct (decide (q = p)) as [->|Hqp].
  - rewrite list_lookup_insert_eq in Hy by done. simplify_eq/=. exists t. split_and!; try done. eauto.
  - rewrite list_lookup_insert_ne in Hy by done. destruct (Hpl q y k' Hy Hk') as (t1 & ? & ? & Hfull1). exists t1. split_and!; eauto.
Qed.

(** ** Probing *)

Section Run.
Context {A : Type} (calloc : Z -> Z -> A -> bool * A).
Implicit Types (s : hstate (A := A)).

Lemma mask_slot n i h t : (n <= 28)%nat -> i = w32 (h + tri (Z.of_nat t)) ->
  Z.land i (2 ^ Z.of_nat n - 1) = Z.of_nat (slot h n t).
Proof.
  intros Hn ->. rewrite Z.sub_1_r, <- Z.ones_equiv, land_low by lia. unfold slot, w32.
  rewrite Z2Nat.id by (apply Z.mod_pos_bound; lia). symmetry.
  rewrite <- (Z.mod_mod_divide _ (2 ^ 32)); [done|]. exists (2 ^ (32 - Z.of_nat n)). rewrite <- Z.pow_add_r by lia. f_equal. lia.
Qed.

Lemma probe_Ret stop l n h t0 s : (n <= 28)%nat -> (t0 < 2 ^ n)%nat ->
  stop (entry l (Z.of_nat (slot h n t0))) = true ->
  (forall t, (t < t0)%nat -> stop (entry l (Z.of_nat (slot h n t))) = false) ->
  forall fuel t i j, (t <= t0)%nat -> (t0 <= fuel + t)%nat -> i = w32 (h + tri (Z.of_nat t)) -> j = w32 (Z.of_nat t + 1) ->
  probe fuel stop l (2 ^ Z.of_nat n - 1) i j s = Ret (Z.of_nat (slot h n t0), s).
Proof.
  intros Hn Ht0 Hstop Hgo. assert (Hpow : Z.of_nat (2 ^ n) <= 2 ^ 28).
  { rewrite Nat2Z.inj_pow. apply Z.pow_le_mono_r; lia. }
  induction fuel as [|fuel IH]; intros t i j Ht Hfuel Hi Hj; cbn [probe];
    rewrite (mask_slot _ _ _ _ Hn Hi); (destruct (decide (t = t0)) as [->|]; [by rewrite Hstop|]); [lia|].
  rewrite Hgo by lia. apply (IH (S t)); [lia|lia| |].
  - subst i j. rewrite Nat2Z.inj_succ. unfold w32. rewrite <- Zplus_mod. f_equal. unfold Z.succ. rewrite tri_succ. lia.
  - subst j. rewrite Nat2Z.inj_succ. unfold w32. rewrite Zplus_mod_idemp_l. f_equal. 
Qed.

Lemma keyhash_range k : 0 <= keyhash k < 2 ^ 32.
Proof. unfold keyhash. destruct k as [|b k _] using rev_ind; [done|]. rewrite fold_left_app. apply w32_range. Qed.

Lemma probe_start stop l n k t0 s fuel : (n <= 28)%nat -> (t0 < 2 ^ n)%nat -> (t0 <= fuel)%nat ->
  stop (entry l (Z.of_nat (slot (keyhash k) n t0))) = true ->
  (forall t, (t < t0)%nat -> stop (entry l (Z.of_nat (slot (keyhash k) n t))) = false) ->
  probe fuel stop l (2 ^ Z.of_nat n - 1) (keyhash k) 1 s = Ret (Z.of_nat (slot (keyhash k) n t0), s).
Proof.
  intros Hn Ht0 Hfuel Hs Hmin. pose proof (keyhash_range k).
  apply (probe_Ret stop l n (keyhash k) t0 s) with (t := 0%nat); try done; [lia..|].
  change (tri (Z.of_nat 0)) with 0. by rewrite Z.add_0_r, w32_small.
Qed.

(** ** Lookup *)

(** The table [t] of [s] with the array [l] of [2 ^ n] entries. *)
Record table s (t : __tab) (l : list ENTRY) (n : nat) : Prop := {
  tb_htab : htab s = Some t;
  tb_entries : entries t = Some l;
  tb_mask : mask t = 2 ^ Z.of_nat n - 1;
  tb_array : array l n;
  tb_used : used t = Z.of_nat (length (items l));
}.

Lemma tab_Ret s t : htab s = Some t -> tab s = Ret (t, s).
Proof. unfold tab. by intros ->. Qed.

(** [k] may be stored at [p], the first free entry of its probe sequence. *)
Definition free_place (l : list ENTRY) (n : nat) (k : list Z) (p : nat) : Prop :=
  exists t, (t < 2 ^ n)%nat /\ slot (keyhash k) n t = p /\ key_null (entry l (Z.of_nat p)) = true /\
    forall t', (t' < t)%nat -> key_null (entry l (Z.of_nat (slot (keyhash k) n t'))) = false.

Lemma free_steps l n h : array l n -> (length (items l) < 2 ^ n)%nat ->
  exists t, (t < 2 ^ n)%nat /\ key_null (entry l (Z.of_nat (slot h n t))) = true.
Proof.
  intros Har Hlt. destruct (free_exists l) as (p & x & Hx & Hk); [by rewrite (ar_len _ _ Har)|].
  destruct (slot_surj h n p) as (t & Ht & Hs); [rewrite <- (ar_len _ _ Har); by eapply lookup_lt_Some|].
  exists t. split; [done|]. rewrite Hs, (entry_lookup _ _ _ Hx). unfold key_null. by rewrite Hk.
Qed.

Lemma slot_lt l n h t : array l n -> (slot h n t < length l)%nat.
Proof.
  intros Har. rewrite (ar_len _ _ Har). unfold slot.
  assert (Hpow : Z.of_nat (2 ^ n) = 2 ^ Z.of_nat n) by (by rewrite Nat2Z.inj_pow).
  pose proof (Z.mod_pos_bound (h + tri (Z.of_nat t)) (2 ^ Z.of_nat n) ltac:(lia)). lia.
Qed.

Lemma entry_slot l n h t : array l n -> l !! slot h n t = Some (entry l (Z.of_nat (slot h n t))).
Proof.
  intros Har. destruct (lookup_lt_is_Some_2 _ _ (slot_lt l n h t Har)) as [x Hx]. by rewrite (entry_lookup _ _ _ Hx).
Qed.

Lemma lookup_Ret s t l n k : table s t l n -> (length (items l) < 2 ^ n)%nat ->
  exists p, lookup k (keyhash k) s = Ret (Z.of_nat p, s) /\
    ((exists d, l !! p = Some (Entry (Some k) d)) \/ k ∉ (items l).*1 /\ free_place l n k p).
Proof.
  intros [Ht He Hm Har Hu] Hlt. pose proof (ar_n _ _ Har) as Hn.
  set (stop := fun x => key_null x || key_is k x).
  assert (Hex : exists t0, (t0 < 2 ^ n)%nat /\ stop (entry l (Z.of_nat (slot (keyhash k) n t0))) = true /\
    (key_is k (entry l (Z.of_nat (slot (keyhash k) n t0))) = false -> k ∉ (items l).*1) /\
    forall t', (t' < t0)%nat -> stop (entry l (Z.of_nat (slot (keyhash k) n t'))) = false).
  { destruct (free_steps l n (keyhash k) Har Hlt) as (t1 & Ht1 & Hfree).
    destruct (least (fun t => stop (entry l (Z.of_nat (slot (keyhash k) n t)))) t1) as (t0 & Hle & Hs & Hmin).
    { unfold stop. by rewrite Hfree. }
    exists t0. split_and!; [lia|done| |done]. intros Hnot [[k' d] [-> (p & Hp)%items_elem]]%list_elem_of_fmap. simpl in *.
    destruct (ar_placed _ _ Har p _ k' Hp eq_refl) as (t2 & Ht2 & Hsl & Hfull).
    destruct (decide (t0 < t2)%nat) as [Hb|Hb].
    - unfold stop in Hs. rewrite (Hfull t0 Hb) in Hs. simpl in Hs. congruence.
    - assert (t0 = t2) as ->.
      { destruct (decide (t2 < t0)%nat) as [Hc|]; [|lia]. specialize (Hmin t2 Hc). unfold stop, key_is in Hmin.
        rewrite Hsl, (entry_lookup _ _ _ Hp) in Hmin. simpl in Hmin. by rewrite bool_decide_eq_true_2 in Hmin. }
      unfold key_is in Hnot. rewrite Hsl, (entry_lookup _ _ _ Hp) in Hnot. simpl in Hnot. by rewrite bool_decide_eq_true_2 in Hnot. }
  destruct Hex as (t0 & Ht0 & Hs & Habs & Hmin). exists (slot (keyhash k) n t0). split.
  - unfold lookup. mstep (tab_Ret s t Ht). rewrite He, Hm.
    assert (Hpow : Z.of_nat (2 ^ n) = 2 ^ Z.of_nat n) by (by rewrite Nat2Z.inj_pow).
    apply probe_start; done || lia.
  - pose proof (entry_slot l n (keyhash k) t0 Har) as Hx.
    destruct (key_is k (entry l (Z.of_nat (slot (keyhash k) n t0)))) eqn:Ek.
    + left. apply bool_decide_eq_true_1 in Ek. destruct (entry l _) as [k' d]. simpl in Ek. subst. by exists d.
    + right. split; [by apply Habs|]. exists t0. unfold stop in Hs. rewrite Ek, orb_false_r in Hs. split_and!; try done.
      intros t' Ht'. specialize (Hmin t' Ht'). unfold stop in Hmin. by apply orb_false_iff in Hmin as [? _].
Qed.

(** ** Growing *)

Lemma grow_Ret nel s : nel <= 2 ^ 31 -> forall fuel k, (3 <= k <= 31)%nat -> (31 <= fuel + k)%nat ->
  exists n, (k <= n <= 31)%nat /\ grow fuel (2 ^ Z.of_nat k) nel s = Ret (2 ^ Z.of_nat n, s) /\ nel <= 2 ^ Z.of_nat n.
Proof.
  intros Hnel fuel. induction fuel as [|fuel IH]; intros k Hk Hfuel; cbn [grow].
  - replace k with 31%nat by lia. change (2 ^ Z.of_nat 31) with (2 ^ 31). replace (2 ^ 31 <? nel) with false by lia. by exists 31%nat.
  - destruct (Z.ltb_spec (2 ^ Z.of_nat k) nel) as [Hlt|Hge]; [|by exists k; split; [lia|]].
    assert (k < 31)%nat.
    { destruct (decide (k = 31)%nat) as [->|]; [|lia]. change (2 ^ Z.of_nat 31) with (2 ^ 31) in Hlt. lia. }
    assert (Hdouble : w32 (2 ^ Z.of_nat k * 2) = 2 ^ Z.of_nat (S k)).
    { rewrite Nat2Z.inj_succ, Z.pow_succ_r by lia.
      assert (2 ^ Z.of_nat k <= 2 ^ 30) by (apply Z.pow_le_mono_r; lia). rewrite w32_small; lia. }
    rewrite Hdouble. destruct (IH (S k)) as (n & Hn & Hrun & Hle); [lia..|]. exists n. split; [lia|done].
Qed.

Lemma items_replicate m : items (replicate m no_entry) = [].
Proof. by induction m. Qed.

Lemma array_empty n : (3 <= n <= 28)%nat -> array (replicate (2 ^ n) no_entry) n.
Proof.
  intros Hn. split; [apply length_replicate|done|by rewrite items_replicate; constructor|].
  intros p x k [-> _]%lookup_replicate. done.
Qed.

Lemma rehash_Ret n s fuel : (2 ^ n <= fuel)%nat -> forall old l, array l n ->
  NoDup (items (old ++ l)).*1 -> (length (items (old ++ l)) < 2 ^ n)%nat ->
  exists l', rehash fuel old l (2 ^ Z.of_nat n - 1) s = Ret (l', s) /\ array l' n /\ items l' ≡ₚ items (old ++ l).
Proof.
  intros Hfuel old. induction old as [|x old IH]; intros l Har Hnd Hlen; [by exists l|].
  destruct x as [[k|] d]; cbn [rehash ekey]; [|by apply IH].
  change (items ((Entry (Some k) d :: old) ++ l)) with ((k, d) :: items (old ++ l)) in *. simpl in Hnd, Hlen.
  apply NoDup_cons in Hnd as [Hk Hnd].
  assert (Hsub : (length (items l) < 2 ^ n)%nat) by (rewrite items_app, length_app in Hlen; lia).
  destruct (free_steps l n (keyhash k) Har Hsub) as (t1 & Ht1 & Hfree).
  destruct (least (fun t => key_null (entry l (Z.of_nat (slot (keyhash k) n t)))) t1 Hfree) as (t0 & Hle & Hs & Hmin).
  pose proof (ar_n _ _ Har) as Hn.
  assert (Hprobe : probe fuel key_null l (2 ^ Z.of_nat n - 1) (keyhash k) 1 s = Ret (Z.of_nat (slot (keyhash k) n t0), s))
    by (apply probe_start; done || lia).
  destruct (array_write l n k d t0 Har ltac:(lia) Hs Hmin) as [Har' Hit].
  { intros Hin. apply Hk. rewrite items_app, fmap_app. apply elem_of_app. by right. }
  mstep Hprobe. rewrite Nat2Z.id.
  assert (Hperm : items (old ++ <[slot (keyhash k) n t0 := Entry (Some k) d]> l) ≡ₚ (k, d) :: items (old ++ l)).
  { rewrite !items_app, Hit. by rewrite Permutation_middle. }
  destruct (IH _ Har') as (l' & Hrun & Harl & Hperm').
  - rewrite Hperm. simpl. by apply NoDup_cons.
  - rewrite Hperm. simpl. lia.
  - exists l'. split; [exact Hrun|]. split; [done|]. by rewrite Hperm', Hperm.
Qed.
End Run.

(** * What hcreate and hsearch do to the table as a finite map. *)

(** [calloc] of more bytes than an address can count fails. *)
Class CallocLaws {A} (calloc : Z -> Z -> A -> bool * A) : Prop := {
  calloc_overflow n size a : 2 ^ 32 <= n * size -> fst (calloc n size a) = false;
}.

Section Theorems.
Context {A : Type} (calloc : Z -> Z -> A -> bool * A) `{!CallocLaws calloc}.
Implicit Types (s : hstate (A := A)).

(** A table between two calls: filled to three quarters at most. *)
Definition loaded s t l n : Prop := table s t l n /\ used t <= mask t - mask t / 4.
(** The finite map a table stands for. *)
Definition hash_map s (m : gmap (list Z) Z) : Prop :=
  exists t l n, loaded s t l n /\ m = list_to_map (items l).

Lemma pow_nat n : Z.of_nat (2 ^ n) = 2 ^ Z.of_nat n.
Proof. by rewrite Nat2Z.inj_pow. Qed.

Lemma pow_range n : (3 <= n <= 28)%nat -> exists q, 2 ^ Z.of_nat n = 4 * q /\ 2 <= q <= 2 ^ 26.
Proof.
  intros Hn. exists (2 ^ Z.of_nat (n - 2)). split.
  - change 4 with (2 ^ 2). rewrite <- Z.pow_add_r by lia. f_equal. lia.
  - split; [change 2 with (2 ^ 1) at 1; apply Z.pow_le_mono_r; lia|apply Z.pow_le_mono_r; lia].
Qed.

Lemma threshold n : (3 <= n <= 28)%nat -> 2 ^ Z.of_nat n - 1 - (2 ^ Z.of_nat n - 1) / 4 = 3 * (2 ^ Z.of_nat n / 4).
Proof. intros Hn. destruct (pow_range n Hn) as (q & -> & Hq). Z.to_euclidean_division_equations; lia. Qed.

Lemma loaded_room s t l n : loaded s t l n -> (length (items l) < 2 ^ n)%nat.
Proof.
  intros [[Ht He Hm Har Hu] Hload]. pose proof (ar_n _ _ Har) as Hn. rewrite Hm, threshold, Hu in Hload by done.
  pose proof (pow_nat n). destruct (pow_range n Hn) as (q & Hq & ?). rewrite Hq in *. Z.to_euclidean_division_equations; lia.
Qed.

Lemma resize_Ret s t l n : table s t l n -> (length (items l) < 2 ^ n)%nat ->
  (exists a, resize calloc (w32 (2 * used t)) s = Ret (false, HState (htab s) a) /\
     exists size, fst (calloc size 8 (alloc s)) = false) \/
  exists s' t' l' n', resize calloc (w32 (2 * used t)) s = Ret (true, s') /\ loaded s' t' l' n' /\ items l' ≡ₚ items l.
Proof.
  intros [Ht He Hm Har Hu] Hroom. pose proof (ar_n _ _ Har) as Hn. pose proof (pow_nat n) as Hpow.
  destruct (pow_range n Hn) as (q & Hq & Hqr).
  assert (H2 : w32 (2 * used t) = 2 * used t) by (rewrite w32_small; lia). rewrite H2.
  destruct (grow_Ret (2 * used t) s ltac:(lia) 32 3 ltac:(lia) ltac:(lia)) as (n' & Hn' & Hgrow & Hle).
  unfold resize. rewrite (bind_Ret _ _ _ _ _ (tab_Ret s t Ht)).
  replace (MAXSIZE <? 2 * used t) with false by (change MAXSIZE with (2 ^ 31); lia).
  change MINSIZE with (2 ^ Z.of_nat 3). rewrite (bind_Ret _ _ _ _ _ Hgrow).
  destruct (calloc (2 ^ Z.of_nat n') 8 (alloc s)) as [ok a] eqn:Ec.
  assert (Hcalloc : do_calloc calloc (2 ^ Z.of_nat n') 8 s = Ret (ok, HState (htab s) a)) by (unfold do_calloc; by rewrite Ec).
  rewrite (bind_Ret _ _ _ _ _ Hcalloc). destruct ok; [|left; exists a; split; [done|]; exists (2 ^ Z.of_nat n'); by rewrite Ec]. right.
  assert (Hn28 : (n' <= 28)%nat).
  { destruct (decide (n' <= 28)%nat); [done|]. pose proof (calloc_overflow (2 ^ Z.of_nat n') 8 (alloc s)) as Hov.
    rewrite Ec in Hov. assert (2 ^ 29 <= 2 ^ Z.of_nat n') by (apply Z.pow_le_mono_r; lia). simpl in Hov. discriminate Hov. lia. }
  destruct (pow_range n' ltac:(lia)) as (q' & Hq' & Hqr').
  pose proof (pow_nat n') as Hpow'. rewrite He. rewrite <- Hpow', Nat2Z.id, Hpow', Hm.
  replace (take (Z.to_nat (2 ^ Z.of_nat n - 1 + 1)) l) with l
    by (rewrite take_ge; [done|]; rewrite (ar_len _ _ Har); lia).
  set (s1 := HState (htab s) a).
  assert (Hitems : items (l ++ replicate (2 ^ n') no_entry) = items l) by (by rewrite items_app, items_replicate, app_nil_r).
  destruct (rehash_Ret n' s1 (2 ^ n') ltac:(lia) l (replicate (2 ^ n') no_entry)) as (l' & Hre & Har' & Hp).
  { apply array_empty. lia. }
  { rewrite Hitems. apply (ar_nodup _ _ Har). }
  { rewrite Hitems. lia. }
  rewrite Hitems in Hp. set (t' := Tab (Some l') (2 ^ Z.of_nat n' - 1) (used t)).
  exists (HState (Some t') a), t', l', n'. split; [|split; [|done]].
  - fold s1. by mnext_by Hre.
  - split; [by split; [| | | |simpl; rewrite Hu, Hp]|]. simpl. rewrite threshold by lia. rewrite Hq' in *.
    Z.to_euclidean_division_equations; lia.
Qed.

Lemma map_perm l l' : NoDup (items l).*1 -> items l' ≡ₚ items l -> (list_to_map (items l') : gmap (list Z) Z) = list_to_map (items l).
Proof. intros Hn Hp. symmetry. by apply list_to_map_proper. Qed.

Lemma array_clear l n p d : array l n -> key_null (entry l (Z.of_nat p)) = true -> (p < length l)%nat ->
  array (<[p := Entry None d]> l) n /\ items (<[p := Entry None d]> l) ≡ₚ items l.
Proof.
  intros [Hlen Hn Hnd Hpl] Hfree Hp. destruct (lookup_lt_is_Some_2 l p Hp) as [x Hx].
  rewrite (entry_lookup _ _ _ Hx) in Hfree.
  assert (Hit : items (<[p := Entry None d]> l) ≡ₚ items l).
  { rewrite (items_write _ _ _ _ Hx), (items_at _ _ _ Hx). by destruct x as [[?|] ?]. }
  assert (Hnull : forall q, key_null (entry (<[p := Entry None d]> l) (Z.of_nat q)) = key_null (entry l (Z.of_nat q))).
  { intros q. unfold entry. rewrite !Nat2Z.id. destruct (decide (q = p)) as [->|].
    - rewrite list_lookup_insert_eq, Hx by done. by destruct x as [[?|] ?].
    - by rewrite list_lookup_insert_ne. }
  split; [|done]. split; [by rewrite length_insert|done|by rewrite Hit|].
  intros q y k Hy Hk. destruct (decide (q = p)) as [->|].
  { rewrite list_lookup_insert_eq in Hy by done. by simplify_eq/=. }
  rewrite list_lookup_insert_ne in Hy by done. destruct (Hpl q y k Hy Hk) as (t & ? & ? & Hfull).
  exists t. split_and!; try done. intros t' Ht'. rewrite Hnull. by apply Hfull.
Qed.

Lemma write_entry_Ret s t l p x : htab s = Some t -> entries t = Some l ->
  write_entry (Z.of_nat p) x s = Ret (tt, HState (Some (Tab (Some (<[p := x]> l)) (mask t) (used t))) (alloc s)).
Proof. intros Ht He. unfold write_entry. rewrite (bind_Ret _ _ _ _ _ (tab_Ret s t Ht)), He. by rewrite Nat2Z.id. Qed.
Lemma read_entry_Ret s t l p x : htab s = Some t -> entries t = Some l -> l !! p = Some x ->
  read_entry (Z.of_nat p) s = Ret (x, s).
Proof. intros Ht He Hx. unfold read_entry. rewrite (bind_Ret _ _ _ _ _ (tab_Ret s t Ht)), He. by rewrite (entry_lookup _ _ _ Hx). Qed.
Lemma set_used_Ret s t n : htab s = Some t -> set_used n s = Ret (tt, HState (Some (Tab (entries t) (mask t) n)) (alloc s)).
Proof. intros Ht. unfold set_used. by rewrite (bind_Ret _ _ _ _ _ (tab_Ret s t Ht)). Qed.

Lemma found_key l k d p : NoDup (items l).*1 -> l !! p = Some (Entry (Some k) d) ->
  (list_to_map (items l) : gmap (list Z) Z) !! k = Some d.
Proof. intros Hn Hp. apply elem_of_list_to_map_1; [done|]. apply items_elem. by exists p. Qed.

(** What [*retval] points to. *)
Definition points_to s (e : option Z) (k : list Z) (d : Z) : Prop :=
  exists e0, e = Some e0 /\ read_entry e0 s = Ret (Entry (Some k) d, s).

(** The state after a new key is written and counted. *)
Definition entered s t l k d p : hstate :=
  HState (Some (Tab (Some (<[p := Entry (Some k) d]> l)) (mask t) (used t + 1))) (alloc s).

Lemma enter_table s t l n k d p : loaded s t l n -> k ∉ (items l).*1 -> free_place l n k p ->
  table (entered s t l k d p) (Tab (Some (<[p := Entry (Some k) d]> l)) (mask t) (used t + 1)) (<[p := Entry (Some k) d]> l) n /\
  items (<[p := Entry (Some k) d]> l) ≡ₚ (k, d) :: items l /\ w32 (used t + 1) = used t + 1 /\
  (length (items (<[p := Entry (Some k) d]> l)) < 2 ^ n)%nat.
Proof.
  intros [[Ht He Hm Har Hu] Hload] Hk (t0 & Ht0 & <- & Hfree & Hfull).
  pose proof (ar_n _ _ Har) as Hn. pose proof (pow_nat n). destruct (pow_range n Hn) as (q & Hq & ?).
  rewrite Hm, threshold in Hload by done. rewrite Hq in Hload.
  destruct (array_write l n k d t0 Har Ht0 Hfree Hfull Hk) as [Har' Hp].
  split; [split; [done|done|done|done|simpl; rewrite Hp, Hu; simpl; lia]|]. split; [done|].
  rewrite Hp. simpl. split; [apply w32_small|]; Z.to_euclidean_division_equations; lia.
Qed.

Lemma hash_map_insert s t l n k d l' : loaded s t l' n -> NoDup (items l).*1 -> k ∉ (items l).*1 ->
  items l' ≡ₚ (k, d) :: items l -> hash_map s (<[k := d]> (list_to_map (items l))).
Proof.
  intros Hl Hn Hk Hp. exists t, l', n. split; [done|]. change (<[k := d]> (list_to_map (items l))) with
    (list_to_map ((k, d) :: items l) : gmap (list Z) Z).
  symmetry. apply list_to_map_proper; [|done]. rewrite Hp. simpl. by apply NoDup_cons.
Qed.

(** Growing after the insertion, and taking it back. *)
Lemma enter_resize s t l n k d p : loaded s t l n -> k ∉ (items l).*1 -> free_place l n k p ->
  exists ret e s', (ok ← resize calloc (w32 (2 * (used t + 1)));
      if negb ok then
        t ← tab; set_used (w32 (used t - 1));; x ← read_entry (Z.of_nat p);
        write_entry (Z.of_nat p) (Entry None (edata x));; mret (0, None)
      else e ← lookup k (keyhash k); mret (1, Some e)) (entered s t l k d p) = Ret ((ret, e), s') /\
    ((ret = 1 /\ hash_map s' (<[k := d]> (list_to_map (items l))) /\ points_to s' e k d) \/
     (ret = 0 /\ e = None /\ hash_map s' (list_to_map (items l)) /\ exists size, fst (calloc size 8 (alloc s)) = false)).
Proof.
  intros Hl Hk Hplace. destruct (enter_table s t l n k d p Hl Hk Hplace) as (Htab1 & Hp1 & Hu1 & Hroom1).
  pose proof Hl as [[Ht He Hm Har Hu] Hload]. pose proof (ar_nodup _ _ Har) as Hnd.
  destruct (resize_Ret _ _ _ _ Htab1 Hroom1) as [(a & Hres & Hfail)|(s2 & t2 & l2 & n2 & Hres & Hl2 & Hp2)].
  - pose proof Hplace as (t0 & _ & Hslot & Hfree & _).
    assert (Hplen : (p < length l)%nat) by (rewrite <- Hslot; by eapply slot_lt).
    destruct (array_clear l n p d Har Hfree Hplen) as [Har2 Hit2].
    exists 0, None, (HState (Some (Tab (Some (<[p := Entry None d]> l)) (mask t) (used t))) a).
    split; [|right; split_and!; [done|done| |exact Hfail]].
    + assert (Hu2 : w32 (used t + 1 - 1) = used t).
      { rewrite Z.add_simpl_r. apply w32_small. destruct (pow_range n (ar_n _ _ Har)) as (q & Hq & ?).
        pose proof (loaded_room _ _ _ _ Hl). pose proof (pow_nat n). lia. }
      set (l1 := <[p := Entry (Some k) d]> l) in *. set (t1 := Tab (Some l1) (mask t) (used t + 1)) in *.
      set (t3 := Tab (Some l1) (mask t) (used t)).
      assert (Hat : l1 !! p = Some (Entry (Some k) d)) by (by apply list_lookup_insert_eq).
      mnext_by Hres. cbn [negb]. mnext. mnext_by (set_used_Ret (HState (Some t1) a) t1 (w32 (used t + 1 - 1)) eq_refl).
      rewrite Hu2. mnext_by (read_entry_Ret (HState (Some t3) a) t3 l1 p _ eq_refl eq_refl Hat).
      mnext_by (write_entry_Ret (HState (Some t3) a) t3 l1 p (Entry None d) eq_refl eq_refl).
      subst l1. by rewrite list_insert_insert_eq.
    + exists (Tab (Some (<[p := Entry None d]> l)) (mask t) (used t)), (<[p := Entry None d]> l), n.
      split; [|symmetry; by apply map_perm]. split; [|done]. by split; [| | | |simpl; rewrite Hit2].
  - assert (Hp3 : items l2 ≡ₚ (k, d) :: items l) by (by rewrite Hp2).
    pose proof Hl2 as [Htab2 _]. pose proof Htab2 as [Ht2 He2 _ Har3 _].
    destruct (lookup_Ret s2 t2 l2 n2 k Htab2 (loaded_room _ _ _ _ Hl2)) as (p2 & Hlook & Hcase).
    exists 1, (Some (Z.of_nat p2)), s2. split; [by mnext_by Hres; cbn [negb]; mnext_by Hlook|]. left. split; [done|].
    split; [by apply (hash_map_insert s2 t2 l n2 k d l2)|]. exists (Z.of_nat p2). split; [done|].
    destruct Hcase as [[d' Hat]|[Habs _]]; [|exfalso; apply Habs; rewrite Hp3; by left].
    rewrite (read_entry_Ret _ _ _ _ _ Ht2 He2 Hat).
    assert (d' = d) as ->; [|done].
    pose proof (found_key _ _ _ _ (ar_nodup _ _ Har3) Hat) as Hf.
    rewrite (list_to_map_proper _ ((k, d) :: items l)) in Hf; [|apply (ar_nodup _ _ Har3)|done].
    simpl in Hf. rewrite lookup_insert_eq in Hf. congruence.
Qed.

(** C8: [hsearch_r] treats the table as a finite map: a stored key is found
    whatever the action, with the data first entered, and nothing changes; a
    new key is not found by [FIND]; [ENTER] adds it, growing the table past
    three quarters, or, only when [calloc] refuses the larger array, reports
    failure with the map unchanged.  The probing loops always end. *)
Theorem hsearch_spec k d action s m : hash_map s m ->
  exists ret e s', __hsearch_r calloc k d action s = Ret ((ret, e), s') /\
    match m !! k, action with
    | Some d0, _ => ret = 1 /\ s' = s /\ points_to s' e k d0
    | None, FIND => ret = 0 /\ e = None /\ s' = s
    | None, ENTER =>
        (ret = 1 /\ hash_map s' (<[k := d]> m) /\ points_to s' e k d) \/
        (ret = 0 /\ e = None /\ hash_map s' m /\ exists size, fst (calloc size 8 (alloc s)) = false)
    end.
Proof.
  intros (t & l & n & Hl & ->). pose proof (loaded_room _ _ _ _ Hl) as Hroom. pose proof Hl as [Htab Hload].
  pose proof Htab as [Ht He Hm Har Hu]. pose proof (ar_nodup _ _ Har) as Hnd.
  destruct (lookup_Ret s t l n k Htab Hroom) as (p & Hlook & Hcase). unfold __hsearch_r. mstep Hlook.
  destruct Hcase as [[d0 Hp]|[Hk Hplace]].
  { mstep (read_entry_Ret s t l p _ Ht He Hp). rewrite (found_key _ _ _ _ Hnd Hp). exists 1, (Some (Z.of_nat p)), s.
    split; [done|]. split_and!; [done..|]. exists (Z.of_nat p). split; [done|]. by eapply read_entry_Ret. }
  assert (Hnone : (list_to_map (items l) : gmap (list Z) Z) !! k = None) by (by apply not_elem_of_list_to_map_1).
  rewrite Hnone. pose proof Hplace as (t0 & _ & Hslot & Hfree & _).
  assert (Hplen : (p < length l)%nat) by (rewrite <- Hslot; by eapply slot_lt).
  destruct (lookup_lt_is_Some_2 l p Hplen) as [x Hx]. mstep (read_entry_Ret s t l p x Ht He Hx).
  rewrite (entry_lookup _ _ _ Hx) in Hfree. rewrite Hfree. cbn [negb]. destruct action; [by exists 0, None, s|].
  destruct (enter_table s t l n k d p Hl Hk Hplace) as (Htab1 & Hp1 & Hu1 & Hroom1).
  set (s1 := entered s t l k d p) in *. set (l1 := <[p := Entry (Some k) d]> l) in *.
  assert (Hafter : exists ret e s', (if mask t - mask t / 4 <? used t + 1 then
        ok ← resize calloc (w32 (2 * (used t + 1)));
        if negb ok then
          t ← tab; set_used (w32 (used t - 1));; x ← read_entry (Z.of_nat p);
          write_entry (Z.of_nat p) (Entry None (edata x));; mret (0, None)
        else e ← lookup k (keyhash k); mret (1, Some e)
      else mret (1, Some (Z.of_nat p))) s1 = Ret ((ret, e), s') /\
    ((ret = 1 /\ hash_map s' (<[k := d]> (list_to_map (items l))) /\ points_to s' e k d) \/
     (ret = 0 /\ e = None /\ hash_map s' (list_to_map (items l)) /\ exists size, fst (calloc size 8 (alloc s)) = false))).
  { destruct (Z.ltb_spec (mask t - mask t / 4) (used t + 1)) as [Hbig|Hsmall].
    - by apply (enter_resize s t l n k d p).
    - exists 1, (Some (Z.of_nat p)), s1. split; [done|]. left. split; [done|]. split.
      + by apply (hash_map_insert s1 (Tab (Some l1) (mask t) (used t + 1)) l n k d l1).
      + exists (Z.of_nat p). split; [done|]. eapply read_entry_Ret; [done..|]. by apply list_lookup_insert_eq. }
  destruct Hafter as (ret & e & s' & Hrun & Hres). exists ret, e, s'. split; [|exact Hres].
  mnext_by (write_entry_Ret s t l p (Entry (Some k) d) Ht He). mnext.
  mnext_by (set_used_Ret (HState (Some (Tab (Some l1) (mask t) (used t))) (alloc s)) (Tab (Some l1) (mask t) (used t))
    (w32 (used t + 1)) eq_refl).
  cbn [entries mask used alloc]. rewrite Hu1. mnext. exact Hrun.
Qed.

(** [hcreate_r] makes an empty table of [nel] entries or more, or fails with
    no table; no size makes it loop or overflow. *)
Lemma hcreate_Ret nel s : 0 <= nel < 2 ^ 32 ->
  exists ret s', __hcreate_r calloc nel s = Ret (ret, s') /\
    (ret = 1 /\ hash_map s' ∅ \/ ret = 0 /\ htab s' = None).
Proof.
  intros Hnel. unfold __hcreate_r. destruct (calloc 1 12 (alloc s)) as [ok a] eqn:Ec.
  assert (Hc : do_calloc calloc 1 12 s = Ret (ok, HState (htab s) a)) by (unfold do_calloc; by rewrite Ec).
  destruct ok; [|exists 0, (HState None a); split; [mnext_by Hc; cbn [negb]; by mnext|by right]].
  set (t0 := Tab None 0 0). set (s1 := HState (Some t0) a).
  set (nel' := if MAXSIZE <? nel then MAXSIZE else nel).
  assert (Hnel' : nel' <= 2 ^ 31) by (subst nel'; change MAXSIZE with (2 ^ 31); destruct (Z.ltb_spec (2 ^ 31) nel); lia).
  destruct (grow_Ret nel' s1 Hnel' 32 3 ltac:(lia) ltac:(lia)) as (n & Hn & Hgrow & _).
  destruct (calloc (2 ^ Z.of_nat n) 8 a) as [ok2 a2] eqn:Ec2.
  assert (Hcalloc : do_calloc calloc (2 ^ Z.of_nat n) 8 s1 = Ret (ok2, HState (Some t0) a2)) by (unfold do_calloc; simpl; by rewrite Ec2).
  pose proof (pow_nat n) as Hpow.
  set (t2 := Tab (Some (replicate (2 ^ n) no_entry)) (2 ^ Z.of_nat n - 1) 0).
  assert (Hres : resize calloc nel s1 = Ret (ok2, if ok2 then HState (Some t2) a2 else HState (Some t0) a2)).
  { unfold resize. mnext. fold nel'. change MINSIZE with (2 ^ Z.of_nat 3). mnext_by Hgrow. mnext_by Hcalloc.
    destruct ok2; [|done]. cbn [entries t0]. subst t2. by rewrite <- Hpow, Nat2Z.id. }
  exists (if ok2 then 1 else 0), (if ok2 then HState (Some t2) a2 else HState None a2). split.
  - mnext_by Hc. cbn [negb]. mnext. mnext_by Hres. by destruct ok2.
  - destruct ok2; [left|by right]. split; [done|]. exists t2, (replicate (2 ^ n) no_entry), n.
    assert (Hn28 : (n <= 28)%nat).
    { destruct (decide (n <= 28)%nat); [done|]. pose proof (calloc_overflow (2 ^ Z.of_nat n) 8 a) as Hov. rewrite Ec2 in Hov.
      assert (2 ^ 29 <= 2 ^ Z.of_nat n) by (apply Z.pow_le_mono_r; lia). simpl in Hov. discriminate Hov. lia. }
    rewrite items_replicate. split; [|done]. split; [split; try done|].
    + apply array_empty. lia.
    + simpl. by rewrite items_replicate.
    + simpl. rewrite threshold by lia. destruct (pow_range n ltac:(lia)) as (q & -> & ?).
      Z.to_euclidean_division_equations; lia.
Qed.
End Theorems.
