(* ===== verification/Calendar.v ===== *)
(** Calendar times ([musl/src/time]): seconds to a broken-down time and back. *)
From S2P Require Import Prelude.
From S2P Require Import Wasi.

(** [struct tm]; [tm_year] counts from 1900. *)
Record tm := Tm {
  tm_sec : Z; tm_min : Z; tm_hour : Z; tm_mday : Z; tm_mon : Z; tm_year : Z;
  tm_wday : Z; tm_yday : Z; tm_isdst : Z; __tm_gmtoff : Z; __tm_zone : string;
  __tm_nsec : Z }.

Definition INT_MIN : Z := - 2 ^ 31.
Definition INT_MAX : Z := 2 ^ 31 - 1.

Definition LEAPOCH : Z := 946684800 + 86400 * (31 + 29).
Definition DAYS_PER_400Y : Z := 365 * 400 + 97.
Definition DAYS_PER_100Y : Z := 365 * 100 + 24.
Definition DAYS_PER_4Y : Z := 365 * 4 + 1.

(** From March. *)
Definition days_in_month : list Z := [31; 30; 31; 30; 31; 31; 30; 31; 30; 31; 31; 29].

(** The loop over the months: how many are passed and the days left; past
    the end of the table nothing is defined. *)
Fixpoint month_loop (table : list Z) (months remdays : Z) : option (Z * Z) :=
  match table with
  | [] => None
  | d :: table => if d <=? remdays then month_loop table (months + 1) (remdays - d) else Some (months, remdays)
  end.

(** [__secs_to_tm] from the days since [LEAPOCH] and the seconds of the day
    on.  [None]: undefined behaviour; otherwise the return value and [*tm]. *)
Definition days_to_tm (days remsecs : Z) (tm0 : tm) : option (Z * tm) :=
  let wday := Z.rem (3 + days) 7 in
  let wday := if wday <? 0 then wday + 7 else wday in
  let '(remdays, qc_cycles) :=
    if s32 (Z.rem days DAYS_PER_400Y) <? 0
    then (s32 (Z.rem days DAYS_PER_400Y) + DAYS_PER_400Y, s32 (Z.quot days DAYS_PER_400Y) - 1)
    else (s32 (Z.rem days DAYS_PER_400Y), s32 (Z.quot days DAYS_PER_400Y)) in
  let c_cycles := if Z.quot remdays DAYS_PER_100Y =? 4 then Z.quot remdays DAYS_PER_100Y - 1 else Z.quot remdays DAYS_PER_100Y in
  let remdays := remdays - c_cycles * DAYS_PER_100Y in
  let q_cycles := if Z.quot remdays DAYS_PER_4Y =? 25 then Z.quot remdays DAYS_PER_4Y - 1 else Z.quot remdays DAYS_PER_4Y in
  let remdays := remdays - q_cycles * DAYS_PER_4Y in
  let remyears := if Z.quot remdays 365 =? 4 then Z.quot remdays 365 - 1 else Z.quot remdays 365 in
  let remdays := remdays - remyears * 365 in
  let leap := Z.b2z ((remyears =? 0) && (negb (q_cycles =? 0) || (c_cycles =? 0))) in
  let yday := remdays + 31 + 28 + leap in
  let yday := if 365 + leap <=? yday then yday - (365 + leap) else yday in
  let years := remyears + 4 * q_cycles + 100 * c_cycles + 400 * qc_cycles in
  match month_loop days_in_month 0 remdays with
  | None => None
  | Some (months, remdays) =>
      let '(months, years) := if 10 <=? months then (months - 12, years + 1) else (months, years) in
      if (INT_MAX <? years + 100) || (years + 100 <? INT_MIN) then Some (-1, tm0) else
      Some (0, Tm (Z.rem remsecs 60) (Z.rem (Z.quot remsecs 60) 60) (Z.quot remsecs 3600)
                  (remdays + 1) (months + 2) (years + 100) wday yday
                  (tm_isdst tm0) (__tm_gmtoff tm0) (__tm_zone tm0) (__tm_nsec tm0))
  end.

Definition __secs_to_tm (t : Z) (tm0 : tm) : option (Z * tm) :=
  if (t <? INT_MIN * 31622400) || (INT_MAX * 31622400 <? t) then Some (-1, tm0) else
  let secs := s64 (t - LEAPOCH) in
  let '(remsecs, days) :=
    if Z.rem secs 86400 <? 0 then (Z.rem secs 86400 + 86400, Z.quot secs 86400 - 1)
    else (Z.rem secs 86400, Z.quot secs 86400) in
  days_to_tm days remsecs tm0.

(** The seconds up to the year, and whether it is a leap year. *)
Definition __year_to_secs (year : Z) : Z * bool :=
  if w64 (year - 2) <=? 136 then
    let leaps := Z.shiftr (year - 68) 2 in
    let '(leaps, is_leap) := if Z.land (year - 68) 3 =? 0 then (leaps - 1, true) else (leaps, false) in
    (s32 (s32 (31536000 * (year - 70)) + s32 (86400 * leaps)), is_leap)
  else
    let cycles := s32 (Z.quot (year - 100) 400) in
    let rem := Z.rem (year - 100) 400 in
    let '(cycles, rem) := if rem <? 0 then (cycles - 1, rem + 400) else (cycles, rem) in
    let '(is_leap, centuries, leaps) :=
      if rem =? 0 then (true, 0, 0)
      else
        let '(centuries, rem) :=
          if 200 <=? rem then if 300 <=? rem then (3, rem - 300) else (2, rem - 200)
          else if 100 <=? rem then (1, rem - 100) else (0, rem) in
        if rem =? 0 then (false, centuries, 0)
        else (Z.rem rem 4 =? 0, centuries, Z.quot rem 4) in
    let leaps := s32 (leaps + s32 (s32 (97 * cycles) + 24 * centuries - Z.b2z is_leap)) in
    (s64 (s64 (s64 (s64 ((year - 100) * 31536000) + s64 (leaps * 86400)) + 946684800) + 86400), is_leap).

Definition secs_through_month : list Z :=
  map (fun d => d * 86400) [0; 31; 59; 90; 120; 151; 181; 212; 243; 273; 304; 334].
Definition __month_to_secs (month : Z) (is_leap : bool) : Z :=
  let t := default 0 (secs_through_month !! Z.to_nat month) in
  if is_leap && (2 <=? month) then t + 86400 else t.

Definition __tm_to_secs (x : tm) : Z :=
  let year := tm_year x in
  let month := tm_mon x in
  let '(year, month) :=
    if (12 <=? month) || (month <? 0) then
      let adj := Z.quot month 12 in
      let month := Z.rem month 12 in
      let '(adj, month) := if month <? 0 then (adj - 1, month + 12) else (adj, month) in
      (s64 (year + adj), month)
    else (year, month) in
  let '(t, is_leap) := __year_to_secs year in
  let t := s64 (t + __month_to_secs month is_leap) in
  let t := s64 (t + s64 (86400 * s32 (tm_mday x - 1))) in
  let t := s64 (t + s64 (3600 * tm_hour x)) in
  let t := s64 (t + s64 (60 * tm_min x)) in
  s64 (t + tm_sec x).

Definition __utc : string := "UTC".

(** The last assignments of [timegm] and [__gmtime_r]. *)
Definition in_utc (x : tm) : tm :=
  Tm (tm_sec x) (tm_min x) (tm_hour x) (tm_mday x) (tm_mon x) (tm_year x) (tm_wday x) (tm_yday x) 0 0 __utc
    (__tm_nsec x).

(** The return value, [*tm] and [errno] if it is set; [new] is the
    uninitialised local. *)
Definition timegm (x new : tm) : option (Z * tm * option Z) :=
  let t := __tm_to_secs x in
  match __secs_to_tm t new with
  | None => None
  | Some (r, new) => if r <? 0 then Some (-1, x, Some EOVERFLOW) else Some (t, in_utc new, None)
  end.

(** [None] in the result is the null pointer. *)
Definition __gmtime_r (t : Z) (x : tm) : option (option tm * option Z) :=
  match __secs_to_tm t x with
  | None => None
  | Some (r, x) => if r <? 0 then Some (None, Some EOVERFLOW) else Some (Some (in_utc x), None)
  end.

(** [gmtime] on its static buffer. *)
Definition gmtime (t : Z) (buffer : tm) : option (option tm * option Z) := __gmtime_r t buffer.
