(* ===== verification/CalendarProofs.v ===== *)
(** The calendar: the conversions agree with the Gregorian calendar, invert
    each other and do not overflow. *)
From S2P Require Import Prelude.
From S2P Require Import Wasi.
From S2P Require Import Calendar.

(** ** The Gregorian calendar

    Years are counted from 1900 as in [tm_year]. *)
Definition leap_year (y : Z) : bool :=
  let g := 1900 + y in (g mod 4 =? 0) && (negb (g mod 100 =? 0) || (g mod 400 =? 0)).

(** The days from 1 January 1970 to 1 January of the year: 365 for each year
    and one more for each leap year between. *)
Definition year_days (y : Z) : Z :=
  let g := 1899 + y in 365 * (y - 70) + g / 4 - g / 100 + g / 400 - 477.

Definition month_length (m : Z) (leap : bool) : Z :=
  if m =? 1 then if leap then 29 else 28
  else if (m =? 3) || (m =? 5) || (m =? 8) || (m =? 10) then 30 else 31.
Definition month_days (m : Z) (leap : bool) : Z :=
  foldr Z.add 0 (map (fun i => month_length i leap) (seqZ 0 m)).

(** The days from 1 January 1970 to a date; the month may be any integer. *)
Definition civil_days (year mon mday : Z) : Z :=
  let y := year + mon / 12 in year_days y + month_days (mon mod 12) (leap_year y) + (mday - 1).
Definition civil_secs (x : tm) : Z :=
  86400 * civil_days (tm_year x) (tm_mon x) (tm_mday x) + 3600 * tm_hour x + 60 * tm_min x + tm_sec x.

(** The formula for [year_days] is right: it is 0 for 1970 and grows by the
    length of the year. *)
Lemma year_days_succ y : year_days (y + 1) = year_days y + if leap_year y then 366 else 365.
Proof.
  unfold year_days, leap_year. cbv zeta. replace (1899 + (y + 1)) with (1899 + y + 1) by lia.
  replace (1900 + y) with (1899 + y + 1) by lia. set (g := 1899 + y).
  destruct (Z.eqb_spec ((g + 1) mod 4) 0), (Z.eqb_spec ((g + 1) mod 100) 0), (Z.eqb_spec ((g + 1) mod 400) 0);
    cbn [andb orb negb]; Z.to_euclidean_division_equations; lia.
Qed.
Lemma year_days_1970 : year_days 70 = 0.
Proof. reflexivity. Qed.

Lemma year_days_cycle y c : year_days (y + 400 * c) = year_days y + 146097 * c.
Proof.
  unfold year_days. cbv zeta. replace (1899 + (y + 400 * c)) with (1899 + y + c * 400) by lia. set (g := 1899 + y).
  replace (c * 400) with (c * 100 * 4) at 1 by lia. replace (c * 400) with (c * 4 * 100) at 1 by lia.
  rewrite !Z.div_add by lia. lia.
Qed.
Lemma leap_cycle y c : leap_year (y + 400 * c) = leap_year y.
Proof.
  unfold leap_year. cbv zeta. replace (1900 + (y + 400 * c)) with (1900 + y + c * 400) by lia. set (g := 1900 + y).
  replace (c * 400) with (c * 100 * 4) at 1 by lia. replace (c * 400) with (c * 4 * 100) at 1 by lia.
  by rewrite !Z.mod_add by lia.
Qed.

(** ** Years and months *)

Definition year_check (y : Z) (r : Z * bool) : bool := (fst r =? 86400 * year_days y) && eqb (snd r) (leap_year y).
Lemma year_checked y r : year_check y r = true -> r = (86400 * year_days y, leap_year y).
Proof. destruct r as [t b]. unfold year_check. simpl. intros [->%Z.eqb_eq ->%eqb_prop]%andb_true_iff. done. Qed.

Lemma near_years : forallb (fun y => year_check y (__year_to_secs y)) (seqZ 2 137) = true.
Proof. vm_compute. reflexivity. Qed.

(** The slow branch for the year [100 + rem] of the cycle. *)
Definition cycle_year (rem : Z) : bool * Z * Z :=
  if rem =? 0 then (true, 0, 0)
  else
    let '(centuries, rem) :=
      if 200 <=? rem then if 300 <=? rem then (3, rem - 300) else (2, rem - 200)
      else if 100 <=? rem then (1, rem - 100) else (0, rem) in
    if rem =? 0 then (false, centuries, 0)
    else (Z.rem rem 4 =? 0, centuries, Z.quot rem 4).

Lemma cycle_years : forallb (fun rem =>
  let '(is_leap, centuries, leaps) := cycle_year rem in
  (year_days (100 + rem) =? 365 * rem + (leaps + 24 * centuries - Z.b2z is_leap) + 10957 + 1) &&
  eqb is_leap (leap_year (100 + rem)) && (0 <=? leaps) && (leaps <=? 24) && (0 <=? centuries) && (centuries <=? 3))
  (seqZ 0 400) = true.
Proof. vm_compute. reflexivity. Qed.

Lemma year_to_secs_civil y : - 2 ^ 32 <= y <= 2 ^ 32 -> __year_to_secs y = (86400 * year_days y, leap_year y).
Proof.
  intros Hy. destruct (decide (2 <= y < 139)) as [Hnear|Hfar].
  { apply year_checked. apply (forall_below _ 2 137 near_years). lia. }
  unfold __year_to_secs. replace (w64 (y - 2) <=? 136) with false.
  2:{ destruct (Z.lt_ge_cases y 2); [|rewrite w64_small; lia].
      unfold w64. rewrite <- (Z.mod_add _ 1), Z.mod_small by lia. lia. }
  assert (Hcyc : exists cycles rem, (let '(c, r) := if Z.rem (y - 100) 400 <? 0
      then (s32 (Z.quot (y - 100) 400) - 1, Z.rem (y - 100) 400 + 400) else (s32 (Z.quot (y - 100) 400), Z.rem (y - 100) 400) in
      (c, r)) = (cycles, rem) /\ y = 100 + rem + 400 * cycles /\ 0 <= rem < 400 /\ - 2 ^ 24 <= cycles <= 2 ^ 24).
  { assert (Hs : s32 (Z.quot (y - 100) 400) = Z.quot (y - 100) 400)
      by (apply s32_small; Z.to_euclidean_division_equations; lia).
    rewrite Hs. destruct (Z.ltb_spec (Z.rem (y - 100) 400) 0); eexists _, _; (split; [reflexivity|]);
      Z.to_euclidean_division_equations; lia. }
  destruct Hcyc as (cycles & rem & Heq & Hyc & Hrem & Hc).
  destruct (if Z.rem (y - 100) 400 <? 0 then _ else _) as [c' r']. injection Heq as -> ->.
  fold (cycle_year rem). pose proof (forall_below _ _ _ cycle_years rem ltac:(lia)) as Hcheck. cbv beta in Hcheck.
  destruct (cycle_year rem) as [[is_leap centuries] leaps].
  rewrite !andb_true_iff in Hcheck. destruct Hcheck as (((((Hd%Z.eqb_eq & Hl%eqb_prop) & ?) & ?) & ?) & ?).
  replace y with (100 + rem + 400 * cycles) by lia. rewrite year_days_cycle, leap_cycle, Hd, <- Hl.
  assert (0 <= Z.b2z is_leap <= 1) by (by destruct is_leap).
  rewrite (s32_small (97 * cycles)) by lia. rewrite (s32_small (97 * cycles + _ - _)) by lia. rewrite s32_small by lia.
  rewrite (s64_small (_ * 31536000)), (s64_small (_ * 86400)) by lia. rewrite (s64_small (_ * 31536000 + _)) by lia.
  rewrite (s64_small (_ + 946684800)) by lia. rewrite s64_small by lia. f_equal. lia.
Qed.

Lemma month_to_secs_civil m leap : 0 <= m < 12 ->
  __month_to_secs m leap = 86400 * month_days m leap /\ 0 <= month_days m leap <= 335.
Proof.
  intros Hm. assert (Hcheck : forall b, forallb (fun m => (__month_to_secs m b =? 86400 * month_days m b) &&
    (0 <=? month_days m b) && (month_days m b <=? 335)) (seqZ 0 12) = true) by (intros []; vm_compute; reflexivity).
  pose proof (forall_below _ _ _ (Hcheck leap) m ltac:(lia)) as H. cbv beta in H.
  rewrite !andb_true_iff in H. lia.
Qed.

(** C division of a possibly negative number, corrected to round down. *)
Lemma floor_division a b : 0 < b ->
  (if Z.rem a b <? 0 then (Z.rem a b + b, Z.quot a b - 1) else (Z.rem a b, Z.quot a b)) = (a mod b, a / b).
Proof.
  intros Hb. pose proof (Z.quot_rem' a b). pose proof (Z.rem_bound_abs a b ltac:(lia)).
  destruct (Z.ltb_spec (Z.rem a b) 0); f_equal.
  - apply (Z.mod_unique_pos _ _ (Z.quot a b - 1)); lia.
  - apply (Z.div_unique_pos _ _ _ (Z.rem a b + b)); lia.
  - apply (Z.mod_unique_pos _ _ (Z.quot a b)); lia.
  - apply (Z.div_unique_pos _ _ _ (Z.rem a b)); lia.
Qed.

Definition is_int (x : Z) : Prop := - 2 ^ 31 <= x < 2 ^ 31.
Definition int_fields (x : tm) : Prop :=
  is_int (tm_sec x) /\ is_int (tm_min x) /\ is_int (tm_hour x) /\ is_int (tm_mday x) /\ is_int (tm_mon x) /\ is_int (tm_year x).

Lemma year_days_bounds y : 730 * (y - 70) - Z.abs y - 1000 <= 2 * year_days y <= 730 * (y - 70) + Z.abs y + 1000.
Proof. unfold year_days. cbv zeta. Z.to_euclidean_division_equations; lia. Qed.

Lemma tm_to_secs_civil x : int_fields x -> - 2 ^ 31 < tm_mday x -> __tm_to_secs x = civil_secs x.
Proof.
  unfold int_fields, is_int. intros (? & ? & ? & ? & Hmon & ?) Hmday. unfold __tm_to_secs, civil_secs, civil_days.
  assert (Hnorm : (if (12 <=? tm_mon x) || (tm_mon x <? 0) then
      let '(adj, month) := if Z.rem (tm_mon x) 12 <? 0 then (Z.quot (tm_mon x) 12 - 1, Z.rem (tm_mon x) 12 + 12)
        else (Z.quot (tm_mon x) 12, Z.rem (tm_mon x) 12) in
      (s64 (tm_year x + adj), month)
    else (tm_year x, tm_mon x)) = (tm_year x + tm_mon x / 12, tm_mon x mod 12)).
  { destruct (Z.leb_spec 12 (tm_mon x)), (Z.ltb_spec (tm_mon x) 0); cbn [orb]; cbv zeta;
      [lia| | |f_equal; Z.to_euclidean_division_equations; lia];
      destruct (Z.ltb_spec (Z.rem (tm_mon x) 12) 0); rewrite s64_small by (Z.to_euclidean_division_equations; lia);
      f_equal; Z.to_euclidean_division_equations; lia. }
  rewrite Hnorm. assert (Hq : - 2 ^ 28 <= tm_mon x / 12 <= 2 ^ 28) by (Z.to_euclidean_division_equations; lia).
  pose proof (Z.mod_pos_bound (tm_mon x) 12 ltac:(lia)) as Hm.
  set (y := tm_year x + tm_mon x / 12) in *. set (m := tm_mon x mod 12) in *. cbv zeta.
  rewrite year_to_secs_civil by lia. pose proof (year_days_bounds y).
  destruct (month_to_secs_civil m (leap_year y) Hm) as [-> ?].
  rewrite (s32_small (tm_mday x - 1)) by lia.
  rewrite (s64_small (86400 * (tm_mday x - 1))), (s64_small (3600 * tm_hour x)), (s64_small (60 * tm_min x)) by lia.
  rewrite (s64_small (86400 * year_days y + _)) by lia. rewrite (s64_small (_ + 86400 * (tm_mday x - 1))) by lia.
  rewrite (s64_small (_ + 3600 * tm_hour x)) by lia. rewrite (s64_small (_ + 60 * tm_min x)) by lia.
  rewrite s64_small by lia. lia.
Qed.

(** ** From seconds *)

(** A date of the calendar, with its day of the week and of the year. *)
Record valid_tm (x : tm) : Prop := {
  v_sec : 0 <= tm_sec x < 60;
  v_min : 0 <= tm_min x < 60;
  v_hour : 0 <= tm_hour x < 24;
  v_mon : 0 <= tm_mon x < 12;
  v_mday : 1 <= tm_mday x <= month_length (tm_mon x) (leap_year (tm_year x));
  v_wday : tm_wday x = (4 + civil_days (tm_year x) (tm_mon x) (tm_mday x)) mod 7;
  v_yday : tm_yday x = civil_days (tm_year x) (tm_mon x) (tm_mday x) - year_days (tm_year x);
}.

(** The decomposition of the days since 1 March 2000: [r] days into the year
    from March of [Y + 100]. *)
Lemma march_days qc c q y r : 0 <= c <= 3 -> 0 <= q <= 24 -> 0 <= y <= 3 ->
  let Y := y + 4 * q + 100 * c + 400 * qc in
  let D := 146097 * qc + 36524 * c + 1461 * q + 365 * y + r in
  leap_year (Y + 100) = ((y =? 0) && (negb (q =? 0) || (c =? 0))) /\
  D + 11017 = year_days (Y + 100) + 59 + Z.b2z (leap_year (Y + 100)) + r.
Proof.
  intros Hc Hq Hy Y D.
  assert (Hl : leap_year (Y + 100) = ((y =? 0) && (negb (q =? 0) || (c =? 0)))).
  { unfold leap_year. cbv zeta. subst Y.
    destruct (Z.eqb_spec y 0), (Z.eqb_spec q 0), (Z.eqb_spec c 0); cbn [andb orb negb]; 
      repeat (match goal with |- context [?a mod ?b =? 0] => destruct (Z.eqb_spec (a mod b) 0) end; cbn [andb orb negb]);
      try done; exfalso; Z.to_euclidean_division_equations; lia. }
  split; [done|]. rewrite Hl. unfold year_days. subst Y D. cbv zeta.
  destruct (Z.eqb_spec y 0), (Z.eqb_spec q 0), (Z.eqb_spec c 0); cbn [andb orb negb Z.b2z];
    Z.to_euclidean_division_equations; lia.
Qed.

Lemma march_leap qc c q : 0 <= c <= 3 -> 0 <= q <= 24 -> q < 24 \/ c = 3 ->
  leap_year (3 + 4 * q + 100 * c + 400 * qc + 101) = true.
Proof.
  intros Hc Hq Hcase. unfold leap_year. cbv zeta.
  repeat (match goal with |- context [?a mod ?b =? 0] => destruct (Z.eqb_spec (a mod b) 0) end; cbn [andb orb negb]);
    try done; exfalso; Z.to_euclidean_division_equations; lia.
Qed.

Lemma clip a b n : 0 < b -> 0 <= n -> 0 <= a < (n + 2) * b ->
  let k := if Z.quot a b =? n + 1 then Z.quot a b - 1 else Z.quot a b in
  0 <= k <= n /\ 0 <= a - k * b < 2 * b /\ (b <= a - k * b -> k = n).
Proof.
  intros Hb Hn Ha k. assert (Hq : Z.quot a b = a / b) by (apply Z.quot_div_nonneg; lia). subst k. rewrite Hq.
  pose proof (Z.div_mod a b ltac:(lia)). pose proof (Z.mod_pos_bound a b Hb).
  assert (0 <= a / b < n + 2) by (split; [apply Z.div_pos; lia|apply Z.div_lt_upper_bound; lia]).
  destruct (Z.eqb_spec (a / b) (n + 1)); split_and!; nia.
Qed.

(** The months from March and from January. *)
Definition month_check (r : Z) : bool :=
  match month_loop days_in_month 0 r with
  | None => false
  | Some (ms, d) =>
      (0 <=? d) &&
      if r <? 306 then
        (0 <=? ms) && (ms <? 10) && forallb (fun leap =>
          (59 + Z.b2z leap + r =? month_days (ms + 2) leap + d) && (d <? month_length (ms + 2) leap)) [true; false]
      else
        (10 <=? ms) && (ms <? 12) && forallb (fun leap =>
          (r - 306 =? month_days (ms - 10) leap + d) && ((d <? month_length (ms - 10) leap) || ((r =? 365) && negb leap))) [true; false]
  end.
Lemma months_checked : forallb month_check (seqZ 0 366) = true.
Proof. vm_compute. reflexivity. Qed.

Lemma month_loop_civil r : 0 <= r < 366 ->
  exists ms d, month_loop days_in_month 0 r = Some (ms, d) /\ 0 <= d /\
    if r <? 306 then
      0 <= ms < 10 /\ forall leap, 59 + Z.b2z leap + r = month_days (ms + 2) leap + d /\ d < month_length (ms + 2) leap
    else
      10 <= ms < 12 /\ forall leap, r - 306 = month_days (ms - 10) leap + d /\
        (r < 365 \/ leap = true -> d < month_length (ms - 10) leap).
Proof.
  intros Hr. pose proof (forall_below _ _ _ months_checked r ltac:(lia)) as Hc. unfold month_check in Hc.
  destruct (month_loop days_in_month 0 r) as [[ms d]|]; [|done]. exists ms, d. split; [done|].
  apply andb_true_iff in Hc as [Hd Hc]. split; [lia|].
  destruct (r <? 306); simpl in Hc; rewrite !andb_true_iff, ?orb_true_iff in Hc.
  - split; [lia|]. intros []; simpl; lia.
  - split; [lia|]. intros []; split; try lia; intros [?|?]; try done; try lia.
    all: destruct Hc as (_ & (? & [?|?]) & (? & [?|Hn]) & _); try lia.
Qed.

(** The year of a day is unique. *)
Lemma year_days_mono y y' : y < y' -> year_days (y + 1) <= year_days y'.
Proof. unfold year_days. cbv zeta. intros. Z.to_euclidean_division_equations; lia. Qed.

Lemma month_days_length m leap : 0 <= m < 12 ->
  month_days m leap + month_length m leap <= (if leap then 366 else 365) /\ 0 <= month_days m leap.
Proof.
  intros Hm. assert (Hcheck : forall b, forallb (fun m => (month_days m b + month_length m b <=? (if b : bool then 366 else 365)) &&
    (0 <=? month_days m b)) (seqZ 0 12) = true) by (intros []; vm_compute; reflexivity).
  pose proof (forall_below _ _ _ (Hcheck leap) m ltac:(lia)) as H. cbv beta in H. rewrite !andb_true_iff in H. lia.
Qed.

Lemma valid_day x : valid_tm x -> let D := civil_days (tm_year x) (tm_mon x) (tm_mday x) in
  year_days (tm_year x) <= D < year_days (tm_year x + 1) /\ civil_secs x = 86400 * D + 3600 * tm_hour x + 60 * tm_min x + tm_sec x /\
  civil_secs x / 86400 = D.
Proof.
  intros [Hs Hmi Hh Hmo Hd _ _] D. rewrite year_days_succ. unfold D, civil_secs, civil_days.
  rewrite Z.div_small, Z.add_0_r, Z.mod_small by lia.
  destruct (month_days_length (tm_mon x) (leap_year (tm_year x)) Hmo) as [Hlen H0].
  split; [destruct (leap_year (tm_year x)); lia|]. split; [done|].
  symmetry. apply (Z.div_unique_pos _ _ _ (3600 * tm_hour x + 60 * tm_min x + tm_sec x)); lia.
Qed.

Lemma valid_year_unique x x' : valid_tm x -> valid_tm x' -> civil_secs x = civil_secs x' -> tm_year x = tm_year x'.
Proof.
  intros Hx Hx' He. destruct (valid_day x Hx) as (H1 & _ & H2), (valid_day x' Hx') as (H3 & _ & H4).
  rewrite He in H2. rewrite <- H2 in H1. rewrite <- H4 in H3.
  destruct (Z.lt_trichotomy (tm_year x) (tm_year x')) as [Hlt|[|Hlt]]; [|done|]; apply year_days_mono in Hlt; lia.
Qed.

(** The year, month and day of a number of days. *)
Lemma split_days D : exists qc c q y r,
  let rem1 := D mod DAYS_PER_400Y in
  let rem2 := rem1 - c * DAYS_PER_100Y in
  let rem3 := rem2 - q * DAYS_PER_4Y in
  qc = D / DAYS_PER_400Y /\
  c = (if Z.quot rem1 DAYS_PER_100Y =? 4 then Z.quot rem1 DAYS_PER_100Y - 1 else Z.quot rem1 DAYS_PER_100Y) /\
  q = (if Z.quot rem2 DAYS_PER_4Y =? 25 then Z.quot rem2 DAYS_PER_4Y - 1 else Z.quot rem2 DAYS_PER_4Y) /\
  y = (if Z.quot rem3 365 =? 4 then Z.quot rem3 365 - 1 else Z.quot rem3 365) /\
  r = rem3 - y * 365 /\
  D = 146097 * qc + 36524 * c + 1461 * q + 365 * y + r /\
  0 <= c <= 3 /\ 0 <= q <= 24 /\ 0 <= y <= 3 /\ 0 <= r < 366 /\ (r = 365 -> y = 3 /\ (q < 24 \/ c = 3)).
Proof.
  change DAYS_PER_400Y with 146097. change DAYS_PER_100Y with 36524. change DAYS_PER_4Y with 1461.
  pose proof (Z.mod_pos_bound D 146097 ltac:(lia)) as Hrem1. pose proof (Z.div_mod D 146097 ltac:(lia)) as Hdm.
  set (rem1 := D mod 146097) in *.
  destruct (clip rem1 36524 3 ltac:(lia) ltac:(lia) ltac:(lia)) as (Hc & Hc2 & Hc3).
  set (c := if Z.quot rem1 36524 =? 3 + 1 then _ else _) in *. set (rem2 := rem1 - c * 36524) in *.
  destruct (clip rem2 1461 24 ltac:(lia) ltac:(lia) ltac:(lia)) as (Hq & Hq2 & Hq3).
  set (q := if Z.quot rem2 1461 =? 24 + 1 then _ else _) in *. set (rem3 := rem2 - q * 1461) in *.
  destruct (clip rem3 365 3 ltac:(lia) ltac:(lia) ltac:(lia)) as (Hy & Hy2 & Hy3).
  set (y := if Z.quot rem3 365 =? 3 + 1 then _ else _) in *.
  exists (D / 146097), c, q, y, (rem3 - y * 365). cbv zeta. split_and!; try reflexivity; try lia.
Qed.

Lemma days_to_tm_civil D remsecs tm0 : - 2 ^ 62 <= 86400 * D <= 2 ^ 62 -> 0 <= remsecs < 86400 ->
  exists x, valid_tm x /\ civil_secs x = 86400 * (D + 11017) + remsecs /\
    days_to_tm D remsecs tm0 = Some (if bool_decide (is_int (tm_year x)) then (0, x) else (-1, tm0)).
Proof.
  intros HD Hrs. destruct (split_days D) as (qc & c & q & y & r & Hqc & Hc & Hq & Hy & Hr & HDeq & ? & ? & ? & Hr366 & Hr365).
  destruct (march_days qc c q y r) as [Hleap Hmarch]; [done..|]. rewrite <- HDeq in Hmarch.
  assert (Hs1 : s32 (Z.rem D 146097) = Z.rem D 146097)
    by (apply s32_small; clear; Z.to_euclidean_division_equations; lia).
  assert (Hs2 : s32 (Z.quot D 146097) = Z.quot D 146097)
    by (apply s32_small; clear -HD; Z.to_euclidean_division_equations; lia).
  unfold days_to_tm. change DAYS_PER_400Y with 146097 in *. rewrite Hs1, Hs2, floor_division by lia. cbv zeta.
  rewrite <- Hqc, <- Hc, <- Hq, <- Hy, <- Hr.
  replace (if Z.rem (3 + D) 7 <? 0 then Z.rem (3 + D) 7 + 7 else Z.rem (3 + D) 7) with ((3 + D) mod 7)
    by (clear; destruct (Z.ltb_spec (Z.rem (3 + D) 7) 0); Z.to_euclidean_division_equations; lia).
  set (Y := y + 4 * q + 100 * c + 400 * qc) in *. rewrite <- Hleap.
  assert (Hwd : (3 + D) mod 7 = (4 + (D + 11017)) mod 7).
  { replace (4 + (D + 11017)) with (3 + D + 1574 * 7) by lia. by rewrite Z.mod_add by lia. }
  destruct (month_loop_civil r) as (ms & d & Hloop & Hd & Hcase); [lia|]. rewrite Hloop.
  set (mk := fun mon year yday => Tm (Z.rem remsecs 60) (Z.rem (Z.quot remsecs 60) 60) (Z.quot remsecs 3600)
     (d + 1) mon year ((3 + D) mod 7) yday (tm_isdst tm0) (__tm_gmtoff tm0) (__tm_zone tm0) (__tm_nsec tm0)).
  assert (Hvalid : forall mon year yday, 0 <= mon < 12 -> d < month_length mon (leap_year year) ->
    D + 11017 = year_days year + month_days mon (leap_year year) + d -> yday = D + 11017 - year_days year ->
    valid_tm (mk mon year yday) /\ civil_secs (mk mon year yday) = 86400 * (D + 11017) + remsecs).
  { intros mon year yday Hmon Hlen Hday Hyd. unfold civil_secs.
    assert (Hcd : civil_days (tm_year (mk mon year yday)) (tm_mon (mk mon year yday)) (tm_mday (mk mon year yday)) = D + 11017).
    { unfold civil_days, mk. simpl. rewrite Z.div_small, Z.add_0_r, Z.mod_small by lia. lia. }
    split; [split; rewrite ?Hcd; simpl; try done; try lia; clear -Hrs; Z.to_euclidean_division_equations; lia|].
    rewrite Hcd. simpl. clear -Hrs. Z.to_euclidean_division_equations; lia. }
  assert (Hb : 0 <= Z.b2z (leap_year (Y + 100)) <= 1) by (by destruct (leap_year (Y + 100))).
  destruct (Z.ltb_spec r 306) as [Hspring|Hwinter]; destruct Hcase as [Hms Hmon].
  - specialize (Hmon (leap_year (Y + 100))) as [Hmd Hlen].
    destruct (Hvalid (ms + 2) (Y + 100) (r + 31 + 28 + Z.b2z (leap_year (Y + 100)))) as [Hv Hs]; [lia|done|lia|lia|].
    exists (mk (ms + 2) (Y + 100) (r + 31 + 28 + Z.b2z (leap_year (Y + 100)))). split; [done|]. split; [done|].
    replace (365 + Z.b2z (leap_year (Y + 100)) <=? r + 31 + 28 + Z.b2z (leap_year (Y + 100))) with false by lia.
    replace (10 <=? ms) with false by lia. unfold is_int, INT_MAX, INT_MIN. simpl tm_year.
    case_bool_decide; [by replace ((2 ^ 31 - 1 <? Y + 100) || (Y + 100 <? - 2 ^ 31)) with false by lia|].
    by replace ((2 ^ 31 - 1 <? Y + 100) || (Y + 100 <? - 2 ^ 31)) with true by lia.
  - specialize (Hmon (leap_year (Y + 101))) as [Hmd Hlen].
    assert (Hnext : year_days (Y + 101) = year_days (Y + 100) + 365 + Z.b2z (leap_year (Y + 100))).
    { replace (Y + 101) with (Y + 100 + 1) by lia. rewrite year_days_succ. destruct (leap_year (Y + 100)); simpl; lia. }
    destruct (Hvalid (ms - 10) (Y + 101) (r - 306)) as [Hv Hs]; [lia| |lia|lia|].
    { apply Hlen. destruct (decide (r = 365)) as [Hr'|]; [right|left; lia].
      destruct (Hr365 Hr') as [Hy3 Hqc3]. unfold Y. rewrite Hy3. by apply march_leap. }
    exists (mk (ms - 10) (Y + 101) (r - 306)). split; [done|]. split; [done|].
    replace (365 + Z.b2z (leap_year (Y + 100)) <=? r + 31 + 28 + Z.b2z (leap_year (Y + 100))) with true by lia.
    replace (10 <=? ms) with true by lia. unfold is_int, INT_MAX, INT_MIN. simpl tm_year.
    replace (Y + 1 + 100) with (Y + 101) by lia. replace (ms - 12 + 2) with (ms - 10) by lia.
    replace (r + 31 + 28 + Z.b2z (leap_year (Y + 100)) - (365 + Z.b2z (leap_year (Y + 100)))) with (r - 306) by lia.
    case_bool_decide; [by replace ((2 ^ 31 - 1 <? Y + 101) || (Y + 101 <? - 2 ^ 31)) with false by lia|].
    by replace ((2 ^ 31 - 1 <? Y + 101) || (Y + 101 <? - 2 ^ 31)) with true by lia.
Qed.

Lemma secs_to_tm_civil t tm0 : - 2 ^ 63 <= t < 2 ^ 63 ->
  exists r x, __secs_to_tm t tm0 = Some (r, x) /\
    ((r = 0 /\ valid_tm x /\ is_int (tm_year x) /\ civil_secs x = t) \/
     (r = -1 /\ x = tm0 /\ forall x', valid_tm x' -> is_int (tm_year x') -> civil_secs x' <> t)).
Proof.
  intros Ht. unfold __secs_to_tm, INT_MIN, INT_MAX.
  destruct ((t <? - 2 ^ 31 * 31622400) || ((2 ^ 31 - 1) * 31622400 <? t)) eqn:Ebound.
  - exists (-1), tm0. split; [done|]. right. split; [done|]. split; [done|]. intros x' Hv Hi Heq. unfold is_int in Hi.
    destruct (valid_day x' Hv) as (Hd & Hs & _). pose proof (year_days_bounds (tm_year x')).
    pose proof (year_days_bounds (tm_year x' + 1)). destruct Hv. lia.
  - assert (Hin : - 2 ^ 31 * 31622400 <= t <= (2 ^ 31 - 1) * 31622400) by lia. clear Ebound.
    change LEAPOCH with 951868800. rewrite (s64_small (t - 951868800)) by lia. rewrite floor_division by lia.
    pose proof (Z.div_mod (t - 951868800) 86400 ltac:(lia)). pose proof (Z.mod_pos_bound (t - 951868800) 86400 ltac:(lia)).
    destruct (days_to_tm_civil ((t - 951868800) / 86400) ((t - 951868800) mod 86400) tm0) as (x & Hv & Hs & ->); [lia|lia|].
    assert (Hsx : civil_secs x = t) by lia. case_bool_decide as Hint.
    + exists 0, x. split; [done|]. by left.
    + exists (-1), tm0. split; [done|]. right. split; [done|]. split; [done|]. intros x' Hv' Hi' Heq.
      apply Hint. rewrite (valid_year_unique x x' Hv Hv') by lia. done.
Qed.

Lemma valid_int_fields x : valid_tm x -> is_int (tm_year x) -> int_fields x /\ - 2 ^ 31 < tm_mday x.
Proof.
  intros [] Hi. assert (Hlen : month_length (tm_mon x) (leap_year (tm_year x)) <= 31).
  { unfold month_length. repeat case_match; lia. }
  unfold int_fields, is_int in *. lia.
Qed.

(** C9: for any 64-bit time [__secs_to_tm] succeeds exactly when the year of
    the time fits an [int], and then gives the date of the Gregorian calendar
    (month lengths, leap years, day of the week and of the year), from which
    [__tm_to_secs] computes the same time again.  When it fails [*tm] is
    unchanged. *)
Theorem secs_to_tm_spec t tm0 : - 2 ^ 63 <= t < 2 ^ 63 ->
  exists r x, __secs_to_tm t tm0 = Some (r, x) /\
    ((r = 0 /\ valid_tm x /\ is_int (tm_year x) /\ civil_secs x = t /\ __tm_to_secs x = t) \/
     (r = -1 /\ x = tm0 /\ forall x', valid_tm x' -> is_int (tm_year x') -> civil_secs x' <> t)).
Proof.
  intros Ht. destruct (secs_to_tm_civil t tm0 Ht) as (r & x & Hrun & [(Hr & Hv & Hi & Hs)|Hfail]); exists r, x;
    (split; [exact Hrun|]); [left|by right].
  destruct (valid_int_fields x Hv Hi). split_and!; try done. by rewrite tm_to_secs_civil.
Qed.

(** C10: [timegm] of any fields in the range of [int] is the time they denote
    in the Gregorian calendar, fields outside their usual range included, and
    the fields are replaced by those of that time in UTC; or, when its year
    does not fit an [int], -1 with [EOVERFLOW] and the fields unchanged. *)
Theorem timegm_spec x new : int_fields x -> - 2 ^ 31 < tm_mday x ->
  exists t x' e, timegm x new = Some (t, x', e) /\
    ((e = None /\ t = civil_secs x /\ valid_tm x' /\ is_int (tm_year x') /\ civil_secs x' = t /\
        tm_isdst x' = 0 /\ __tm_gmtoff x' = 0 /\ __tm_zone x' = __utc) \/
     (e = Some EOVERFLOW /\ t = -1 /\ x' = x /\
        forall x', valid_tm x' -> is_int (tm_year x') -> civil_secs x' <> civil_secs x)).
Proof.
  intros Hi Hd. unfold timegm. rewrite tm_to_secs_civil by done.
  assert (Hrange : - 2 ^ 63 <= civil_secs x < 2 ^ 63).
  { unfold civil_secs, civil_days. unfold int_fields, is_int in Hi. pose proof (Z.mod_pos_bound (tm_mon x) 12 ltac:(lia)) as Hm.
    assert (Hq : - 2 ^ 28 <= tm_mon x / 12 <= 2 ^ 28) by (clear -Hi; Z.to_euclidean_division_equations; lia).
    set (y := tm_year x + tm_mon x / 12) in *. pose proof (year_days_bounds y).
    destruct (month_to_secs_civil (tm_mon x mod 12) (leap_year y) Hm) as [_ ?]. lia. }
  destruct (secs_to_tm_civil (civil_secs x) new Hrange) as (r & x' & -> & [(-> & Hv & Hi' & Hs)|(-> & _ & Hno)]).
  - exists (civil_secs x), (in_utc x'), None. split; [done|]. left. split_and!; try done. destruct Hv. by split.
  - exists (-1), x, (Some EOVERFLOW). split; [done|]. by right.
Qed.
