(* ===== verification/Dirent.v ===== *)
(** Directory streams ([cloudlibc/src/libc/dirent], and [opendir] and [scandir]
    of [posix.c]). *)
From S2P Require Import Prelude.
From S2P Require Import Wasi.
From S2P Require Import Unistd.
From S2P Require Import TimeConv.
From S2P Require Import Paths.
From S2P Require Import At.

(** [fd_readdir]: the error and the bytes written, for a descriptor, the size
    of the buffer and a cookie. *)
Class WasiDir (W : Type) := {
  wasi_fd_readdir : Z -> Z -> Z -> W -> Z * list Z * W }.

Definition DT_UNKNOWN : Z := 0.
Definition DT_BLK : Z := 1.
Definition DT_CHR : Z := 2.
Definition DT_DIR : Z := 3.
Definition DT_REG : Z := 4.
Definition DT_FIFO : Z := 6.
Definition DT_LNK : Z := 7.
Definition DT_SOCK : Z := 255.

Definition __wasilibc_iftodt (x : Z) : Z :=
  if x =? S_IFDIR then DT_DIR
  else if x =? S_IFCHR then DT_CHR
  else if x =? S_IFBLK then DT_BLK
  else if x =? S_IFREG then DT_REG
  else if x =? S_IFIFO then DT_FIFO
  else if x =? S_IFLNK then DT_LNK
  else if x =? S_IFSOCK then DT_SOCK
  else DT_UNKNOWN.

Definition __wasilibc_dttoif (x : Z) : Z :=
  if x =? DT_DIR then S_IFDIR
  else if x =? DT_CHR then S_IFCHR
  else if x =? DT_BLK then S_IFBLK
  else if x =? DT_REG then S_IFREG
  else if x =? DT_FIFO then S_IFIFO
  else if x =? DT_LNK then S_IFLNK
  else if x =? DT_SOCK then S_IFSOCK
  else S_IFSOCK.

Definition DIRENT_DEFAULT_BUFFER_SIZE : Z := 4096.
Definition DIRCOOKIE_START : Z := 0.
Definition O_DIRECTORY : Z := 8192.

(** [struct dirent]; [d_name] without its terminator. *)
Record dirent := Dirent { d_ino : Z; d_type : Z; d_name : list Z }.

(** [__wasi_dirent_t] and the 24 bytes it is read from. *)
Record wasi_dirent := WDirent { wd_next : Z; wd_ino : Z; wd_namlen : Z; wd_type : Z }.
Definition SIZEOF_DIRENT : Z := 24.
Definition OFFSETOF_D_NAME : Z := 9.

Definition parse_dirent (l : list Z) : wasi_dirent :=
  WDirent (le (take 8 l)) (le (take 8 (drop 8 l))) (le (take 4 (drop 16 l))) (at_ l 20).

(** [struct _DIR].  [d_buffer] holds the bytes the last [fd_readdir] wrote;
    [d_dirent] is the object that [readdir] returns a pointer to. *)
Record DIR := Dir {
  d_fd : Z; d_cookie : Z;
  d_buffer : list Z; d_processed : Z; d_size : Z; d_used : Z;
  d_dirent : option dirent; d_dirent_size : Z }.

Section Dirent.
  Context {W : Type} `{WasiFd W, WasiPath W, Alloc W, WasiDir W}.
  Variable threaded : bool.

(** The state: the stream at hand and the rest of libc. *)
Record dstate := DState { dir : DIR; libc : pstate W }.
Abbreviation DM := (M dstate).

Definition lift {A} (m : M (pstate W) A) : DM A := fun s =>
  match m (libc s) with
  | Ret (a, p) => Ret (a, DState (dir s) p)
  | Stop r => Stop r
  end.
Definition set_dir (d : DIR) : DM unit := modify (fun s => DState d (libc s)).
Definition with_position (processed used : Z) (d : DIR) : DIR :=
  Dir (d_fd d) (d_cookie d) (d_buffer d) processed (d_size d) used (d_dirent d) (d_dirent_size d).
Definition with_cookie (c : Z) (d : DIR) : DIR :=
  Dir (d_fd d) c (d_buffer d) (d_processed d) (d_size d) (d_used d) (d_dirent d) (d_dirent_size d).
Definition with_buffer (l : list Z) (d : DIR) : DIR :=
  Dir (d_fd d) (d_cookie d) l (d_processed d) (d_size d) (d_used d) (d_dirent d) (d_dirent_size d).
Definition with_size (n : Z) (d : DIR) : DIR :=
  Dir (d_fd d) (d_cookie d) (d_buffer d) (d_processed d) n (d_used d) (d_dirent d) (d_dirent_size d).
Definition with_dirent (x : option dirent) (n : Z) (d : DIR) : DIR :=
  Dir (d_fd d) (d_cookie d) (d_buffer d) (d_processed d) (d_size d) (d_used d) x n.

Definition fd_readdir (fd n cookie : Z) : DM (Z * list Z) := lift (pcall (host (wasi_fd_readdir fd n cookie))).
Definition realloc (n : Z) : DM bool := lift (malloc n).
Definition dfail (e : Z) : DM unit := lift (pfail e).

(** [GROW]: the new size, [None] if there is no memory. *)
Fixpoint doubled (fuel : nat) (size target : Z) : DM Z :=
  if size <? target then
    match fuel with O => halt OutOfFuel | S fuel => doubled fuel (w32 (size * 2)) target end
  else mret size.
Definition GROW (size target : Z) : DM (option Z) :=
  if size <? target then
    new_size ← doubled 32 size target;
    ok ← realloc new_size;
    mret (if ok : bool then Some new_size else None)
  else mret (Some size).

(** The label [read_entries] of [readdir].  An outcome [None] continues the
    loop, [Some r] returns [r]. *)
Definition read_entries : DM (option (option dirent)) :=
  s ← get;
  let d := dir s in
  set_dir (with_position (d_size d) (d_size d) d);;
  '(error, bytes) ← fd_readdir (d_fd d) (d_size d) (d_cookie d);
  if negb (error =? 0) then dfail error;; mret (Some None) else
  set_dir (with_position 0 (w32 (Z.of_nat (length bytes))) (with_buffer bytes d));;
  mret None.

(** The entry is complete in the buffer and its name has no null byte: fill
    in the object to return. *)
Definition return_entry (entry : wasi_dirent) (name : list Z) : DM (option (option dirent)) :=
  let entry_size := w32 (SIZEOF_DIRENT + wd_namlen entry) in
  s ← get;
  grown ← GROW (d_dirent_size (dir s)) (w32 (OFFSETOF_D_NAME + wd_namlen entry + 1));
  match grown with
  | None => mret (Some None)
  | Some new_size =>
      let type1 := if (wd_type entry =? 5) || (wd_type entry =? 8) || (wd_type entry =? 9) || (wd_type entry =? 6)
                   then DT_SOCK else wd_type entry in
      s ← get;
      set_dir (with_dirent (Some (Dirent (default 0 (d_ino <$> d_dirent (dir s))) type1 name)) new_size (dir s));;
      found ← (if (wd_ino entry =? 0) && negb (bool_decide (name = [dot; dot])) then
                 '(r, st) ← lift (fstatat threaded (d_fd (dir s)) name AT_SYMLINK_NOFOLLOW);
                 match st with
                 | Some st => mret (inl (st_ino st, __wasilibc_iftodt (Z.land (st_mode st) S_IFMT)))
                 | None => s ← get; mret (inr (errno (penv (libc s)) =? ENOENT))
                 end
               else mret (inl (wd_ino entry, wd_type entry)));
      s ← get;
      let d := dir s in
      let behind := with_position (w32 (d_processed d + entry_size)) (d_used d) in
      match found with
      | inr true => set_dir (behind d);; mret None
      | inr false => mret (Some None)
      | inl (ino, type) =>
          let x := Dirent ino type name in
          set_dir (behind (with_cookie (wd_next entry) (with_dirent (Some x) (d_dirent_size d) d)));;
          mret (Some (Some x))
      end
  end.

(** One round of the loop of [readdir]. *)
Definition readdir_round : DM (option (option dirent)) :=
  s ← get;
  let d := dir s in
  let buffer_left := w32 (d_used d - d_processed d) in
  if buffer_left <? SIZEOF_DIRENT then
    if d_used d <? d_size d then mret (Some None) else read_entries
  else
    let at_entry := drop (Z.to_nat (d_processed d)) (d_buffer d) in
    let entry := parse_dirent at_entry in
    let entry_size := w32 (SIZEOF_DIRENT + wd_namlen entry) in
    let skip := set_dir (with_position (w32 (d_processed d + entry_size)) (d_used d) d);; mret None in
    if wd_namlen entry =? 0 then skip
    else if buffer_left <? entry_size then
      grown ← GROW (d_size d) entry_size;
      match grown with
      | None => mret (Some None)
      | Some new_size => set_dir (with_size new_size d);; read_entries
      end
    else
      let name := take (Z.to_nat (wd_namlen entry)) (drop 24 at_entry) in
      if existsb (fun b => b =? 0) name then skip else return_entry entry name.

Fixpoint readdir (fuel : nat) : DM (option dirent) :=
  match fuel with
  | O => halt OutOfFuel
  | S fuel => r ← readdir_round; match r with Some x => mret x | None => readdir fuel end
  end.

(** The functions that only move the stream.  [long] has 32 bits. *)
Definition dirfd (d : DIR) : Z := d_fd d.
Definition telldir (d : DIR) : Z := s32 (d_cookie d).
Definition seekdir (loc : Z) (d : DIR) : DIR := with_position (d_size d) (d_size d) (with_cookie (w32 loc) d).
Definition rewinddir (d : DIR) : DIR := with_position (d_size d) (d_size d) (with_cookie DIRCOOKIE_START d).

Abbreviation PM := (M (pstate W)).

(** The new stream, [None] for [NULL]. *)
Definition fdopendir (fd : Z) : PM (option DIR) :=
  ok ← malloc 40;
  if negb (ok : bool) then mret None else
  ok ← malloc DIRENT_DEFAULT_BUFFER_SIZE;
  if negb (ok : bool) then mret None else
  '(error, bytes) ← pcall (host (wasi_fd_readdir fd DIRENT_DEFAULT_BUFFER_SIZE DIRCOOKIE_START));
  if negb (error =? 0) then pfail error;; mret None else
  mret (Some (Dir fd DIRCOOKIE_START bytes 0 DIRENT_DEFAULT_BUFFER_SIZE (w32 (Z.of_nat (length bytes))) None 1)).

Definition fdclosedir (d : DIR) : Z := d_fd d.
Definition closedir (d : DIR) : PM Z := pcall (close (fdclosedir d)).

Definition __wasilibc_nocwd_opendirat (dirfd : Z) (dirname : list Z) : PM (option DIR) :=
  fd ← pcall (__wasilibc_nocwd_openat_nomode dirfd dirname (Z.lor O_RDONLY (Z.lor O_NONBLOCK O_DIRECTORY)));
  if fd =? -1 then mret None else
  result ← fdopendir fd;
  match result with
  | None => pcall (close fd);; mret None
  | Some d => mret (Some d)
  end.

Definition opendir (dirname : list Z) : PM (option DIR) :=
  '(dirfd, relative_path) ← find_relpath threaded dirname;
  if dirfd =? -1 then pfail ENOENT;; mret None else
  rel ← deref relative_path;
  __wasilibc_nocwd_opendirat dirfd rel.

(** ** [scandirat.c]

    The local variables of the loop are those of a stream; [ds] lists the
    entries selected so far, [cap] is [dirents_size]. *)
Inductive scan_outcome : Type :=
  | Continue (ds : list dirent) (cap : Z)
  | Finished
  | Bad
  | ReturnError.

Definition scan_read (ds : list dirent) (cap : Z) : DM scan_outcome :=
  s ← get;
  let d := dir s in
  '(error, bytes) ← fd_readdir (d_fd d) (d_size d) (d_cookie d);
  if negb (error =? 0) then dfail error;; mret Bad else
  set_dir (with_position 0 (w32 (Z.of_nat (length bytes))) (with_buffer bytes d));;
  mret (Continue ds cap).

(** An entry that is complete in the buffer and behind which the loop already
    is. *)
Definition scan_entry (sel : dirent -> bool) (entry : wasi_dirent) (name : list Z) (ds : list dirent) (cap : Z) : DM scan_outcome :=
  ok ← realloc (w32 (OFFSETOF_D_NAME + wd_namlen entry + 1));
  if negb (ok : bool) then mret Bad else
  found ← (if wd_ino entry =? 0 then
             s ← get;
             '(r, st) ← lift (fstatat threaded (d_fd (dir s)) name AT_SYMLINK_NOFOLLOW);
             mret (option_map (fun st => (st_ino st, __wasilibc_iftodt (Z.land (st_mode st) S_IFMT))) st)
           else mret (Some (wd_ino entry, wd_type entry)));
  match found with
  | None => mret ReturnError
  | Some (ino, type) =>
      let x := Dirent ino type name in
      s ← get;
      set_dir (with_cookie (wd_next entry) (dir s));;
      if sel x then
        if Z.of_nat (length ds) =? cap then
          let cap := if cap <? 8 then 8 else w32 (cap * 2) in
          ok ← realloc (w32 (cap * 4));
          if ok : bool then mret (Continue (ds ++ [x]) cap) else mret Bad
        else mret (Continue (ds ++ [x]) cap)
      else mret (Continue ds cap)
  end.

Definition scan_round (sel : dirent -> bool) (ds : list dirent) (cap : Z) : DM scan_outcome :=
  s ← get;
  let d := dir s in
  let buffer_left := w32 (d_used d - d_processed d) in
  if buffer_left <? SIZEOF_DIRENT then
    if d_used d <? d_size d then mret Finished else scan_read ds cap
  else
    let at_entry := drop (Z.to_nat (d_processed d)) (d_buffer d) in
    let entry := parse_dirent at_entry in
    let entry_size := w32 (SIZEOF_DIRENT + wd_namlen entry) in
    let behind := with_position (w32 (d_processed d + entry_size)) (d_used d) d in
    if wd_namlen entry =? 0 then set_dir behind;; mret (Continue ds cap)
    else if buffer_left <? entry_size then
      new_size ← doubled 32 (d_size d) entry_size;
      set_dir (with_size new_size d);;
      ok ← realloc new_size;
      if ok : bool then scan_read ds cap else mret Bad
    else
      let name := take (Z.to_nat (wd_namlen entry)) (drop 24 at_entry) in
      set_dir behind;;
      if existsb (fun b => b =? 0) name then mret (Continue ds cap) else scan_entry sel entry name ds cap.

(** The loop, and what it is left with: the entries, or the return of -1. *)
Fixpoint scan_loop (fuel : nat) (sel : dirent -> bool) (ds : list dirent) (cap : Z) : DM scan_outcome :=
  match fuel with
  | O => halt OutOfFuel
  | S fuel =>
      r ← scan_round sel ds cap;
      match r with
      | Continue ds cap => scan_loop fuel sel ds cap
      | Finished => mret (Continue ds cap)
      | r => mret r
      end
  end.

(** [qsort] is a parameter: what it makes of the entries. *)
Definition __wasilibc_nocwd_scandirat (qsort : list dirent -> list dirent) (fuel : nat) (dirfd : Z) (name : list Z)
    (sel : option (dirent -> bool)) : M (pstate W) (Z * option (list dirent)) :=
  let sel := match sel with Some f => f | None => fun _ => true end in
  fd ← pcall (__wasilibc_nocwd_openat_nomode dirfd name (Z.lor O_RDONLY (Z.lor O_NONBLOCK O_DIRECTORY)));
  if fd =? -1 then mret (-1, None) else
  ok ← malloc DIRENT_DEFAULT_BUFFER_SIZE;
  if negb (ok : bool) then pcall (close fd);; mret (-1, None) else
  let d := Dir fd DIRCOOKIE_START [] DIRENT_DEFAULT_BUFFER_SIZE DIRENT_DEFAULT_BUFFER_SIZE DIRENT_DEFAULT_BUFFER_SIZE None 1 in
  r ← (fun p => match scan_loop fuel sel [] 0 (DState d p) with
                | Ret (r, s) => Ret (r, libc s)
                | Stop e => Stop e
                end);
  match r with
  | Continue ds _ => pcall (close fd);; mret (Z.of_nat (length ds), Some (qsort ds))
  | ReturnError => mret (-1, None)
  | _ => pcall (close fd);; mret (-1, None)
  end.

Definition scandir (qsort : list dirent -> list dirent) (fuel : nat) (name : list Z)
    (sel : option (dirent -> bool)) : M (pstate W) (Z * option (list dirent)) :=
  '(dirfd, relative_path) ← find_relpath threaded name;
  if dirfd =? -1 then pfail ENOENT;; mret (-1, None) else
  rel ← deref relative_path;
  __wasilibc_nocwd_scandirat qsort fuel dirfd rel sel.

End Dirent.
Arguments DState {W} _ _.
Arguments dir {W} _.
Arguments libc {W} _.
