(* ===== verification/DirentProofs.v ===== *)
(** Directory streams deliver every entry of the directory once, in order. *)
From S2P Require Import Prelude.
From S2P Require Import Wasi.
From S2P Require Import Unistd.
From S2P Require Import Paths.
From S2P Require Import PathsProofs.
From S2P Require Import TimeConv.
From S2P Require Import At.
From S2P Require Import Dirent.

(** ** The bytes of a directory *)

Record hent := Hent { h_next : Z; h_ino : Z; h_type : Z; h_name : list Z }.


(** Entries as a well-behaved host lists them: the inode number is 0 when it
    is unknown, names are not empty and have no null byte and no slash. *)
Record good_entry (e : hent) : Prop := {
  ge_next : 0 <= h_next e < 2 ^ 64;
  ge_ino : 0 <= h_ino e < 2 ^ 64;
  ge_type : 0 <= h_type e < 256;
  ge_name : h_name e <> [];
  ge_bytes : Forall (fun b => 0 < b < 256) (h_name e);
  ge_slash : slash ∉ h_name e;
  ge_len : Z.of_nat (length (h_name e)) <= 2 ^ 20;
}.
Definition header (e : hent) : list Z :=
  lb 8 (h_next e) ++ lb 8 (h_ino e) ++ lb 4 (Z.of_nat (length (h_name e))) ++ [h_type e; 0; 0; 0].
Definition serialize (e : hent) : list Z := header e ++ h_name e.
Definition bytes_of_dir (es : list hent) : list Z := concat (map serialize es).

(** An entry as it is listed. *)
Definition as_dirent (e : hent) : dirent := Dirent (h_ino e) (h_type e) (h_name e).

(** The type of directory entries for a [__wasi_filetype_t]: the kinds of
    sockets are one ([DT_SOCK], 255), unknown types are 0. *)
Definition type_of_stat (t : Z) : Z :=
  if decide (t ∈ [1; 2; 3; 4; 7]) then t else if decide (t ∈ [5; 6; 8; 9]) then 255 else 0.

(** A directory nobody changes: reading with a cookie gives as many bytes as
    fit of the entries from the cookie's position on, the last perhaps cut;
    the cookie of an entry is the position behind it.  What the host says of a
    listed name stays the same, and is never that it does not exist. *)
Class StableDir (W : Type) `{WasiDir W, WasiPath W} (fd : Z) (ents : list hent) := {
  pos : Z -> nat;
  pos_start : pos 0 = O;
  pos_next : forall i e, ents !! i = Some e -> pos (h_next e) = S i;
  readdir_bytes : forall n c w, 0 <= n -> exists w',
    wasi_fd_readdir fd n c w = (0, take (Z.to_nat n) (bytes_of_dir (drop (pos c) ents)), w');
  about : list Z -> Z * filestat;
  about_exists : forall name, fst (about name) <> ENOENT;
  about_get : forall e w, e ∈ ents -> exists w',
    wasi_path_filestat_get fd 0 (h_name e) w = (about (h_name e), w') }.
Arguments about {W _ _} fd ents {_} _.

(** An entry whose inode number the host gives with the listing, or with the
    status of the file, or an error. *)
Definition with_status (st : Z * filestat) (e : hent) : Z + dirent :=
  if fst st =? 0 then inr (Dirent (fst_ino (snd st)) (type_of_stat (fst_filetype (snd st))) (h_name e)) else inl (fst st).

Lemma length_header e : length (header e) = 24%nat.
Proof. reflexivity. Qed.

Lemma parse_header e l : good_entry e ->
  parse_dirent (header e ++ l) = WDirent (h_next e) (h_ino e) (Z.of_nat (length (h_name e))) (h_type e).
Proof.
  intros [Hn Hi Ht _ _ _ Hl].
  unfold parse_dirent. unfold header at 1 2 3. rewrite <- !app_assoc.
  rewrite take_app_length' by (by rewrite length_lb). rewrite drop_app_length' by (by rewrite length_lb).
  rewrite take_app_length' by (by rewrite length_lb).
  replace (drop 16 (lb 8 (h_next e) ++ lb 8 (h_ino e) ++ lb 4 (Z.of_nat (length (h_name e))) ++ [h_type e; 0; 0; 0] ++ l))
    with (lb 4 (Z.of_nat (length (h_name e))) ++ [h_type e; 0; 0; 0] ++ l) by reflexivity.
  rewrite take_app_length' by (by rewrite length_lb).
  rewrite !le_lb by (simpl Z.of_nat; lia). reflexivity.
Qed.

Lemma take_header e k l : (24 <= k)%nat -> take k (serialize e ++ l) = header e ++ take (k - 24) (h_name e ++ l).
Proof.
  intros Hk. unfold serialize. rewrite <- app_assoc. rewrite take_app_ge by (rewrite length_header; lia).
  by rewrite length_header.
Qed.

Lemma bytes_drop ents i e : ents !! i = Some e ->
  bytes_of_dir (drop i ents) = serialize e ++ bytes_of_dir (drop (S i) ents).
Proof. intros Hi. unfold bytes_of_dir. by rewrite (drop_S _ _ _ Hi). Qed.

Section Stream.
  Context {W : Type} `{WasiFd W, WasiPath W, Alloc W, HD : WasiDir W}.
  Context (threaded : bool) (fd : Z) (ents : list hent) `{!StableDir W fd ents}.
  Hypothesis good : Forall good_entry ents.
  Hypothesis valid : 0 <= fd.
  Implicit Types (s : dstate (W := W)) (d : DIR).

(** The stream [d] delivers the entry [i] next: its cookie is behind the
    entries before, and the unread bytes in its buffer, if any, begin with the
    entry; they are all the rest when the last read did not fill the buffer. *)
Definition loaded (i : nat) d : Prop :=
  exists k, (k <= length (bytes_of_dir (drop i ents)))%nat /\ d_processed d + Z.of_nat k = d_used d /\ 0 <= d_processed d /\
    d_used d <= d_size d /\ drop (Z.to_nat (d_processed d)) (d_buffer d) = take k (bytes_of_dir (drop i ents)) /\
    (d_used d < d_size d -> k = length (bytes_of_dir (drop i ents))).

Record cookie_at (i : nat) d : Prop := {
  ca_fd : d_fd d = fd;
  ca_pos : pos (d_cookie d) = i;
  ca_size : 4096 <= d_size d <= 2 ^ 22;
  ca_dirent_size : 1 <= d_dirent_size d <= 2 ^ 22;
}.
Record stream_at (i : nat) d : Prop := {
  sa_cookie : cookie_at i d;
  sa_buffer : (d_processed d = d_size d /\ d_used d = d_size d) \/ loaded i d;
}.

(** What [readdir] is to make of an entry: it asks for the status when the inode
    number is 0, but for [..]. *)
Definition delivered (e : hent) : Z + dirent :=
  if decide (h_ino e = 0 /\ h_name e <> [46; 46]) then with_status (about fd ents (h_name e)) e else inr (as_dirent e).

Lemma dir_realloc_Ret n s : exists b p, realloc n s = Ret (b, DState (dir s) p) /\ (b = false -> denied (world (penv p))).
Proof.
  unfold realloc, lift, malloc, pcall, host. destruct (malloc_ok n (world (penv (libc s)))) as [ok w] eqn:E.
  eexists ok, _. split; [reflexivity|]. intros ->. by exists n, (world (penv (libc s))).
Qed.

Lemma fd_readdir_Ret n c s : 0 <= n -> exists p, fd_readdir fd n c s =
  Ret ((0, take (Z.to_nat n) (bytes_of_dir (drop (pos c) ents))), DState (dir s) p).
Proof.
  intros Hn. unfold fd_readdir, lift, pcall, host. destruct (readdir_bytes n c (world (penv (libc s))) Hn) as [w' ->]. eauto.
Qed.

Lemma doubled_Ret fuel s size target : 1 <= size -> target <= 2 ^ 21 -> target <= size * 2 ^ Z.of_nat fuel ->
  (size <= 2 ^ 22 -> exists n, doubled fuel size target s = Ret (n, s) /\ target <= n /\ size <= n <= 2 ^ 22).
Proof.
  revert size. induction fuel as [|fuel IH]; intros size Hs Ht Hf Hb; cbn [doubled].
  - destruct (Z.ltb_spec size target); [simpl in Hf; lia|]. exists size. split; [done|lia].
  - destruct (Z.ltb_spec size target); [|exists size; split; [done|lia]].
    rewrite w32_small by lia. rewrite Nat2Z.inj_succ, Z.pow_succ_r in Hf by lia.
    destruct (IH (size * 2)) as (n & Hrun & ?); [lia..|]. exists n. split; [exact Hrun|lia].
Qed.

Lemma GROW_Ret s size target : 1 <= size <= 2 ^ 22 -> target <= 2 ^ 21 ->
  exists r p, GROW size target s = Ret (r, DState (dir s) p) /\
    match r with Some n => target <= n /\ size <= n <= 2 ^ 22 | None => denied (world (penv p)) end.
Proof.
  intros Hs Ht. unfold GROW. destruct (Z.ltb_spec size target).
  - destruct (doubled_Ret 32 s size target) as (n & Hrun & ?); [lia|lia|change (2 ^ Z.of_nat 32) with (2 ^ 32); lia|lia|].
    mstep Hrun. destruct (dir_realloc_Ret n s) as (b & p & Hre & Hb). mstep Hre. eexists _, p. split; [reflexivity|].
    destruct b; [lia|by apply Hb].
  - exists (Some size), (libc s). destruct s. by split; [|lia].
Qed.

(** The status of an entry. *)
Lemma mode_type t : __wasilibc_iftodt (Z.land (mode_of_filetype t) S_IFMT) = type_of_stat t.
Proof.
  destruct (decide (t ∈ [1; 2; 3; 4; 5; 6; 7; 8; 9])) as [Hin|Hout].
  - repeat (apply elem_of_cons in Hin as [->|Hin]; [reflexivity|]). by apply elem_of_nil in Hin.
  - unfold type_of_stat. rewrite !decide_False by (rewrite !elem_of_cons in *; tauto).
    rewrite !elem_of_cons in Hout. unfold mode_of_filetype, filetype_code.
    repeat match goal with |- context [t =? ?n] => replace (t =? n) with false by (symmetry; apply Z.eqb_neq; tauto) end. done.
Qed.

(** The stream after its buffer was filled again. *)
Definition refilled (i : nat) d : DIR :=
  let l := take (Z.to_nat (d_size d)) (bytes_of_dir (drop i ents)) in
  with_position 0 (w32 (Z.of_nat (length l))) (with_buffer l d).

Lemma refilled_at i d : cookie_at i d ->
  stream_at i (refilled i d) /\ loaded i (refilled i d) /\
  d_used (refilled i d) = Z.min (d_size d) (Z.of_nat (length (bytes_of_dir (drop i ents)))).
Proof.
  intros [Hfd Hpos Hsize Hds]. unfold refilled. set (l := take _ _).
  assert (Hl : Z.of_nat (length l) = Z.min (d_size d) (Z.of_nat (length (bytes_of_dir (drop i ents))))).
  { subst l. rewrite length_take. lia. }
  assert (Hload : loaded i (with_position 0 (w32 (Z.of_nat (length l))) (with_buffer l d))).
  { exists (length l). cbn [with_position with_buffer d_processed d_used d_size d_buffer].
    rewrite w32_small by lia. split_and!; try lia. subst l.
    rewrite Z2Nat.inj_0, drop_0, length_take, <- take_take. by rewrite (take_ge (bytes_of_dir _) (length _)) by lia. }
  split; [split; [by split|by right]|]. split; [done|].
  cbn [with_position with_buffer d_processed d_used]. rewrite w32_small by lia. lia.
Qed.

(** Reading again at the same place. *)
Lemma read_entries_Ret i s : cookie_at i (dir s) ->
  exists p, read_entries s = Ret (None, DState (refilled i (dir s)) p).
Proof.
  intros [Hfd Hpos Hsize Hds].
  destruct (fd_readdir_Ret (d_size (dir s)) (d_cookie (dir s))
    (DState (with_position (d_size (dir s)) (d_size (dir s)) (dir s)) (libc s)) ltac:(lia)) as [p Hrd].
  exists p. unfold read_entries. mnext. mnext. rewrite Hfd. mnext_by Hrd. unfold refilled. by rewrite Hpos.
Qed.

Lemma scan_read_Ret i ds cap s : cookie_at i (dir s) ->
  exists p, scan_read ds cap s = Ret (Continue ds cap, DState (refilled i (dir s)) p).
Proof.
  intros [Hfd Hpos Hsize Hds].
  destruct (fd_readdir_Ret (d_size (dir s)) (d_cookie (dir s)) s ltac:(lia)) as [p Hrd].
  exists p. unfold scan_read. mnext. rewrite Hfd. mnext_by Hrd. unfold refilled. by rewrite Hpos.
Qed.

Lemma entry_length i e : ents !! i = Some e ->
  (24 + length (h_name e) <= length (bytes_of_dir (drop i ents)))%nat.
Proof. intros Hi. rewrite (bytes_drop _ _ _ Hi), length_app. unfold serialize. rewrite length_app, length_header. lia. Qed.
Lemma end_length i : ents !! i = None -> length (bytes_of_dir (drop i ents)) = 0%nat.
Proof. intros Hi. by rewrite (drop_ge ents i) by (by apply lookup_ge_None_1). Qed.

(** ** Rounds of the loop *)

Lemma good_at i e : ents !! i = Some e -> good_entry e.
Proof. intros Hi. rewrite Forall_forall in good. apply good. by eapply list_elem_of_lookup_2. Qed.

(** Behind a complete entry. *)
Lemma advance_at i e x n d : ents !! i = Some e -> cookie_at i d -> loaded i d ->
  24 + Z.of_nat (length (h_name e)) <= d_used d - d_processed d -> 1 <= n <= 2 ^ 22 ->
  stream_at (S i) (with_position (w32 (d_processed d + w32 (SIZEOF_DIRENT + Z.of_nat (length (h_name e))))) (d_used d)
    (with_cookie (h_next e) (with_dirent x n d))).
Proof.
  intros Hi [Hfd Hpos Hsize Hds] (k & Hkl & Hk & Hp & Hu & Hdrop & Hall) Hleft Hn.
  pose proof (good_at i e Hi) as [_ _ _ _ _ _ Hlen]. unfold SIZEOF_DIRENT. rewrite (w32_small (24 + _)) by lia.
  rewrite (bytes_drop _ _ _ Hi) in *.
  assert (Hser : length (serialize e) = (24 + length (h_name e))%nat) by (unfold serialize; by rewrite length_app, length_header).
  rewrite length_app, Hser in *.
  split; [split; cbn; try done; by apply pos_next|]. right. exists (k - (24 + length (h_name e)))%nat. cbn.
  rewrite w32_small by lia. split_and!; try lia.
  replace (Z.to_nat (d_processed d + (24 + Z.of_nat (length (h_name e)))))
    with (Z.to_nat (d_processed d) + (24 + length (h_name e)))%nat by lia.
  rewrite <- drop_drop, Hdrop. rewrite <- Hser. rewrite take_app_ge by lia. by rewrite drop_app_length.
Qed.

(** What the header of the entry at hand says. *)
Lemma entry_header i e d k : ents !! i = Some e -> (24 <= k)%nat ->
  drop (Z.to_nat (d_processed d)) (d_buffer d) = take k (bytes_of_dir (drop i ents)) ->
  parse_dirent (drop (Z.to_nat (d_processed d)) (d_buffer d)) =
    WDirent (h_next e) (h_ino e) (Z.of_nat (length (h_name e))) (h_type e) /\
  ((24 + length (h_name e) <= k)%nat ->
    take (length (h_name e)) (drop 24 (drop (Z.to_nat (d_processed d)) (d_buffer d))) = h_name e).
Proof.
  intros Hi Hk ->. rewrite (bytes_drop _ _ _ Hi), take_header by lia. split; [by apply parse_header, (good_at i)|].
  intros Hle. rewrite <- (length_header e), drop_app_length, length_header. by rewrite take_take, take_app_le, take_ge by lia.
Qed.

Lemma name_good i e : ents !! i = Some e ->
  (Z.of_nat (length (h_name e)) =? 0) = false /\ existsb (fun b => b =? 0) (h_name e) = false.
Proof.
  intros Hi. pose proof (good_at i e Hi) as [_ _ _ Hne Hb _ _]. split; [destruct (h_name e); [done|simpl; lia]|].
  apply not_true_is_false. intros (b & Hin & Hz)%existsb_exists. rewrite Forall_forall in Hb.
  specialize (Hb b ltac:(by apply list_elem_of_In)). lia.
Qed.

(** The entry is delivered and the stream moves on; or it is not, for its
    status or for want of memory, and the stream stays. *)
Definition answers (i : nat) (e : hent) (r : option dirent) s : Prop :=
  (exists x, delivered e = inr x /\ r = Some x /\ stream_at (S i) (dir s)) \/
  (r = None /\ stream_at i (dir s) /\ (delivered e = inl (errno (penv (libc s))) \/ denied (world (penv (libc s))))).

Lemma listed_status_Ret i e s : ents !! i = Some e -> exists p,
  lift (fstatat threaded fd (h_name e) AT_SYMLINK_NOFOLLOW) s =
    Ret (if fst (about fd ents (h_name e)) =? 0 then (0, Some (to_public_stat (snd (about fd ents (h_name e))))) else (-1, None),
      DState (dir s) p) /\
  (fst (about fd ents (h_name e)) <> 0 -> errno (penv p) = fst (about fd ents (h_name e))).
Proof.
  intros Hi. pose proof (good_at i e Hi) as [_ _ _ Hne _ Hsl _].
  assert (Hto : to_cwd fd (h_name e) = false).
  { unfold to_cwd, AT_FDCWD. replace (fd =? -2) with false by lia. destruct (h_name e) as [|c l]; [done|].
    rewrite elem_of_cons in Hsl. change (at_ (c :: l) 0) with c. apply Z.eqb_neq. intros ->. tauto. }
  unfold fstatat. rewrite Hto. unfold lift, pcall, __wasilibc_nocwd_fstatat, host.
  change (if has AT_SYMLINK_NOFOLLOW AT_SYMLINK_NOFOLLOW then 0 else SYMLINK_FOLLOW) with 0. unfold mbind, M_bind.
  destruct (about_get e (world (penv (libc s)))) as [w' Hget]; [by eapply list_elem_of_lookup_2|]. rewrite Hget.
  destruct (about fd ents (h_name e)) as [er st]. cbn [fst snd].
  destruct (Z.eqb_spec er 0) as [->|Her]; cbn [negb]; eexists; (split; [reflexivity|done]).
Qed.

Lemma kept_at i x n d : stream_at i d -> 1 <= n <= 2 ^ 22 -> stream_at i (with_dirent x n d).
Proof. intros [[Hfd Hpos Hsize _] Hbuf] Hn. by split. Qed.

Lemma return_entry_Ret i e s : ents !! i = Some e -> cookie_at i (dir s) -> loaded i (dir s) ->
  24 + Z.of_nat (length (h_name e)) <= d_used (dir s) - d_processed (dir s) ->
  exists r s', return_entry threaded (WDirent (h_next e) (h_ino e) (Z.of_nat (length (h_name e))) (h_type e)) (h_name e) s =
      Ret (Some r, s') /\ answers i e r s'.
Proof.
  intros Hi Hat Hload Hleft. pose proof (good_at i e Hi) as [_ Hino _ _ _ _ Hlen]. pose proof Hat as [Hfd _ _ Hds].
  assert (Hhere : stream_at i (dir s)) by (split; [done|by right]).
  destruct (GROW_Ret s (d_dirent_size (dir s)) (w32 (OFFSETOF_D_NAME + Z.of_nat (length (h_name e)) + 1))) as (r & p & Hg & Hr).
  { lia. }
  { unfold OFFSETOF_D_NAME. rewrite w32_small; lia. }
  unfold return_entry. cbn [wd_next wd_ino wd_namlen wd_type].
  destruct r as [n|]; [|exists None, (DState (dir s) p); split; [mnext; by mnext_by Hg|right; split; [done|]; split; [done|by right]]].
  pose proof (fun x => advance_at i e x n (dir s) Hi Hat Hload Hleft ltac:(lia)) as Hadv.
  unfold answers, delivered.
  destruct (decide (h_ino e = 0 /\ h_name e <> [46; 46])) as [[Hino0 Hdd]|Hno].
  - set (x0 := Some (Dirent (default 0 (d_ino <$> d_dirent (dir s)))
      (if (h_type e =? 5) || (h_type e =? 8) || (h_type e =? 9) || (h_type e =? 6) then DT_SOCK else h_type e) (h_name e))).
    destruct (listed_status_Ret i e (DState (with_dirent x0 n (dir s)) p) Hi) as (p' & Hst & Herr).
    pose proof (about_exists (h_name e) : fst (about fd ents (h_name e)) <> ENOENT) as Hex.
    unfold with_status. destruct (about fd ents (h_name e)) as [er st]. cbn [fst snd] in *.
    assert (Hc : (h_ino e =? 0) && negb (bool_decide (h_name e = [dot; dot])) = true).
    { rewrite bool_decide_eq_false_2 by done. lia. }
    destruct (Z.eqb_spec er 0) as [->|Her].
    + eexists (Some (Dirent (fst_ino st) (type_of_stat (fst_filetype st)) (h_name e))), (DState _ p'). split.
      * mnext. mnext_by Hg. mnext. mnext. fold x0. rewrite Hc. cbn [dir]. change (d_fd (with_dirent x0 n (dir s))) with (d_fd (dir s)). rewrite Hfd.
        rewrite bind_assoc. mnext_by Hst. mnext. mnext. cbn [to_public_stat st_ino st_mode]. rewrite mode_type. mnext. reflexivity.
      * left. eexists. split; [reflexivity|]. split; [done|]. apply Hadv.
    + exists None, (DState (with_dirent x0 n (dir s)) p'). split.
      * mnext. mnext_by Hg. mnext. mnext. fold x0. rewrite Hc. cbn [dir]. change (d_fd (with_dirent x0 n (dir s))) with (d_fd (dir s)). rewrite Hfd.
        rewrite bind_assoc. mnext_by Hst. rewrite bind_assoc. mnext. mnext. mnext. cbn [libc]. rewrite Herr by done.
        replace (er =? ENOENT) with false by lia. reflexivity.
      * right. split; [done|]. split; [apply kept_at; (done || lia)|]. left. cbn [libc]. by rewrite Herr.
  - eexists (Some (as_dirent e)), (DState _ p). split.
    + mnext. mnext_by Hg. mnext. mnext.
      assert (Hc : (h_ino e =? 0) && negb (bool_decide (h_name e = [dot; dot])) = false).
      { destruct (Z.eqb_spec (h_ino e) 0); [|done]. cbn [andb]. apply negb_false_iff, bool_decide_eq_true_2.
        destruct (decide (h_name e = [dot; dot])); [done|tauto]. }
      rewrite Hc. mnext. mnext. mnext. reflexivity.
    + left. eexists. split; [reflexivity|]. split; [done|]. apply Hadv.
Qed.

(** A complete entry in the buffer. *)
Lemma round_ready i e s : ents !! i = Some e -> cookie_at i (dir s) -> loaded i (dir s) ->
  24 + Z.of_nat (length (h_name e)) <= d_used (dir s) - d_processed (dir s) ->
  exists r s', readdir_round threaded s = Ret (Some r, s') /\ answers i e r s'.
Proof.
  intros Hi Hat Hload Hleft. destruct (return_entry_Ret i e s Hi Hat Hload Hleft) as (r & s' & Hrun & Hans). exists r, s'. split; [|done].
  pose proof Hat as [_ _ Hsize _]. destruct Hload as (k & Hkl & Hk & Hp & Hu & Hdrop & Hall).
  destruct (entry_header i e (dir s) k Hi ltac:(lia) Hdrop) as [Hhead Hname]. destruct (name_good i e Hi) as [Hlen0 Hnul].
  pose proof (good_at i e Hi) as [_ _ _ _ _ _ Hlen].
  unfold readdir_round. mnext. unfold SIZEOF_DIRENT. rewrite (w32_small (d_used (dir s) - _)) by lia.
  replace (_ <? 24) with false by lia. rewrite Hhead. cbn [wd_namlen]. rewrite Hlen0, (w32_small (24 + _)) by lia.
  replace (_ <? 24 + _) with false by lia. rewrite Nat2Z.id, Hname by lia. by rewrite Hnul.
Qed.

(** An incomplete entry: the buffer grows and is read again. *)
Lemma round_partial i e s : ents !! i = Some e -> stream_at i (dir s) -> loaded i (dir s) ->
  24 <= d_used (dir s) - d_processed (dir s) < 24 + Z.of_nat (length (h_name e)) ->
  (exists s', readdir_round threaded s = Ret (None, s') /\ stream_at i (dir s') /\ loaded i (dir s') /\
    24 + Z.of_nat (length (h_name e)) <= d_used (dir s') - d_processed (dir s')) \/
  (exists s', readdir_round threaded s = Ret (Some None, s') /\ stream_at i (dir s') /\ denied (world (penv (libc s')))).
Proof.
  intros Hi Hat (k & Hkl & Hk & Hp & Hu & Hdrop & Hall) Hleft. pose proof (good_at i e Hi) as Hg. pose proof Hg as [_ _ _ Hne Hb _ Hlen].
  pose proof Hat as [[Hfd Hpos Hsize Hds] _]. pose proof (entry_length i e Hi).
  destruct (GROW_Ret s (d_size (dir s)) (24 + Z.of_nat (length (h_name e))) ltac:(lia) ltac:(lia)) as ([n|] & p & Hgrow & Hr).
  2: { right. exists (DState (dir s) p). split; [|done]. unfold readdir_round. mnext. unfold SIZEOF_DIRENT.
    rewrite (w32_small (d_used (dir s) - _)) by lia. replace (_ <? 24) with false by lia.
    rewrite (proj1 (entry_header i e (dir s) k Hi ltac:(lia) Hdrop)). cbn [wd_namlen].
    rewrite (proj1 (name_good i e Hi)), (w32_small (24 + _)) by lia. replace (_ <? 24 + _) with true by lia.
    by mnext_by Hgrow. }
  left. destruct Hr as [Hn1 Hn2]. assert (Hc : cookie_at i (with_size n (dir s))) by (split; try done; simpl; lia).
  destruct (read_entries_Ret i (DState (with_size n (dir s)) p) Hc) as [p' Hrun].
  destruct (refilled_at i _ Hc) as (Hat' & Hload' & Hused').
  exists (DState (refilled i (with_size n (dir s))) p'). split; [|split; [exact Hat'|split; [exact Hload'|]]].
  - unfold readdir_round. mnext. unfold SIZEOF_DIRENT.
    rewrite (w32_small (d_used (dir s) - _)) by lia. replace (_ <? 24) with false by lia.
    rewrite (proj1 (entry_header i e (dir s) k Hi ltac:(lia) Hdrop)). cbn [wd_namlen].
    rewrite (proj1 (name_good i e Hi)), (w32_small (24 + _)) by lia. replace (_ <? 24 + _) with true by lia.
    mnext_by Hgrow. mnext. exact Hrun.
  - cbn [dir]. rewrite Hused'. simpl. lia.
Qed.

(** Nothing to look at in the buffer, and more may come: it is read again. *)
Lemma round_read i s : stream_at i (dir s) -> d_used (dir s) = d_size (dir s) ->
  d_used (dir s) - 24 < d_processed (dir s) <= d_used (dir s) ->
  exists p, readdir_round threaded s = Ret (None, DState (refilled i (dir s)) p).
Proof.
  intros Hat Hu Hp. pose proof Hat as [[_ _ Hsize _] _]. destruct (read_entries_Ret i s (sa_cookie _ _ Hat)) as [p Hrun]. exists p.
  unfold readdir_round. mnext. unfold SIZEOF_DIRENT. rewrite w32_small by lia.
  replace (_ <? 24) with true by lia. replace (d_used (dir s) <? d_size (dir s)) with false by lia. exact Hrun.
Qed.

(** The end of the directory. *)
Lemma round_end s : d_used (dir s) < d_size (dir s) -> d_size (dir s) <= 2 ^ 22 -> 0 <= d_used (dir s) ->
  d_used (dir s) = d_processed (dir s) -> readdir_round threaded s = Ret (Some None, s).
Proof.
  intros Hlt Hs Hu Hp. unfold readdir_round. mstep (get_Ret s). unfold SIZEOF_DIRENT. rewrite w32_small by lia.
  replace (_ <? 24) with true by lia. by replace (d_used (dir s) <? d_size (dir s)) with true by lia.
Qed.

Lemma readdir_loaded i s fuel : (2 <= fuel)%nat -> stream_at i (dir s) -> loaded i (dir s) ->
  24 <= d_used (dir s) - d_processed (dir s) \/ ents !! i = None /\ d_used (dir s) < d_size (dir s) ->
  exists r s', readdir threaded fuel s = Ret (r, s') /\
    match ents !! i with Some e => answers i e r s' | None => r = None /\ stream_at i (dir s') end.
Proof.
  intros Hfuel Hat Hload Hcase. destruct fuel as [|[|fuel]]; [lia..|]. destruct (ents !! i) as [e|] eqn:Hi.
  - destruct Hcase as [Hleft|[? _]]; [|done].
    destruct (decide (24 + Z.of_nat (length (h_name e)) <= d_used (dir s) - d_processed (dir s))) as [Hready|Hpart].
    + destruct (round_ready i e s Hi (sa_cookie _ _ Hat) Hload Hready) as (r & s' & Hrun & Hans). exists r, s'. split; [|done].
      cbn [readdir]. by mnext_by Hrun.
    + destruct (round_partial i e s Hi Hat Hload ltac:(lia)) as [(s1 & Hrun1 & Hat1 & Hload1 & Hleft1)|(s1 & Hrun1 & Hat1 & Href)].
      * destruct (round_ready i e s1 Hi (sa_cookie _ _ Hat1) Hload1 Hleft1) as (r & s' & Hrun & Hans). exists r, s'. split; [|done].
        cbn [readdir]. mnext_by Hrun1. by mnext_by Hrun.
      * exists None, s1. split; [cbn [readdir]; by mnext_by Hrun1|]. right. split; [done|]. split; [done|by right].
  - pose proof Hat as [[_ _ Hsize _] _]. destruct Hload as (k & Hkl & Hk & Hp & Hu & _ & Hall).
    assert (Hk0 : k = 0%nat).
    { rewrite (drop_ge ents i) in Hkl by (by apply lookup_ge_None_1). simpl in Hkl. lia. }
    subst k. assert (Hlt : d_used (dir s) < d_size (dir s)) by (destruct Hcase as [?|[_ ?]]; lia).
    exists None, s. split; [|done]. cbn [readdir].
    mnext_by (round_end s ltac:(lia) ltac:(lia) ltac:(lia) ltac:(lia)). reflexivity.
Qed.

Lemma readdir_Ret i s fuel : (3 <= fuel)%nat -> stream_at i (dir s) ->
  exists r s', readdir threaded fuel s = Ret (r, s') /\
    match ents !! i with Some e => answers i e r s' | None => r = None /\ stream_at i (dir s') end.
Proof.
  intros Hfuel Hat. pose proof Hat as [[_ _ Hsize _] Hbuf].
  assert (Hlen : match ents !! i with Some _ => 24 <= Z.of_nat (length (bytes_of_dir (drop i ents)))
    | None => length (bytes_of_dir (drop i ents)) = 0%nat end).
  { destruct (ents !! i) as [e|] eqn:Hi.
    - rewrite (bytes_drop _ _ _ Hi), length_app. unfold serialize. rewrite length_app, length_header. lia.
    - by rewrite (drop_ge ents i) by (by apply lookup_ge_None_1). }
  destruct (decide (d_used (dir s) = d_size (dir s) /\ d_used (dir s) - 24 < d_processed (dir s) <= d_used (dir s))) as [[Hu Hp]|Hno].
  - destruct (round_read i s Hat Hu Hp) as [p Hrun1]. destruct (refilled_at i _ (sa_cookie _ _ Hat)) as (Hat1 & Hload1 & Hused1).
    destruct fuel as [|fuel]; [lia|].
    destruct (readdir_loaded i (DState (refilled i (dir s)) p) fuel ltac:(lia) Hat1 Hload1) as (r & s' & Hrun & Hat').
    { cbn [dir]. rewrite Hused1. simpl. destruct (ents !! i); [left; lia|right]. split; [done|]. lia. }
    exists r, s'. split; [|done]. cbn [readdir]. by mnext_by Hrun1.
  - destruct Hbuf as [[Hp Hu]|Hload]; [exfalso; apply Hno; lia|].
    apply readdir_loaded; [lia|done|done|]. destruct Hload as (k & Hkl & Hk & Hp & Hu & _ & Hall).
    destruct (decide (d_used (dir s) < d_size (dir s))) as [Hlt|Hge].
    + specialize (Hall Hlt). destruct (ents !! i); [left; lia|by right].
    + left. lia.
Qed.

(** Calls of [readdir] until it returns [NULL], at most [n]. *)
Fixpoint read_all (n fuel : nat) : M (dstate (W := W)) (list dirent) :=
  match n with
  | O => mret []
  | S n => x ← readdir threaded fuel; match x with None => mret [] | Some x => xs ← read_all n fuel; mret (x :: xs) end
  end.

(** Why a run of calls that was not cut short stopped at the entry [j]. *)
Definition stopped (j : nat) s : Prop :=
  ents !! j = None \/ (exists e, ents !! j = Some e /\ delivered e = inl (errno (penv (libc s)))) \/ denied (world (penv (libc s))).

Lemma read_all_Ret n : forall i s fuel, (3 <= fuel)%nat -> (length ents < i + n)%nat -> stream_at i (dir s) ->
  exists xs s', read_all n fuel s = Ret (xs, s') /\ map inr xs = map delivered (take (length xs) (drop i ents)) /\
    stream_at (i + length xs) (dir s') /\ stopped (i + length xs) s'.
Proof.
  induction n as [|n IH]; intros i s fuel Hfuel Hn Hat.
  { exists [], s. rewrite Nat.add_0_r. split; [done|]. split; [done|]. split; [done|]. left. apply lookup_ge_None_2. lia. }
  destruct (readdir_Ret i s fuel Hfuel Hat) as (r & s1 & Hrun & Hans). cbn [read_all].
  destruct (ents !! i) as [e|] eqn:Hi.
  - destruct Hans as [(x & Hx & -> & Hat1)|(-> & Hat1 & Hwhy)].
    + destruct (IH (S i) s1 fuel Hfuel ltac:(lia) Hat1) as (xs & s2 & Hrun2 & Hxs & Hat2 & Hst). exists (x :: xs), s2.
      cbn [length]. rewrite Nat.add_succ_r. split; [mnext_by Hrun; by mnext_by Hrun2|]. split; [|done].
      rewrite (drop_S _ _ _ Hi). cbn [take map]. by rewrite Hxs, Hx.
    + exists [], s1. cbn [length take map]. rewrite Nat.add_0_r. split; [by mnext_by Hrun|]. split; [done|]. split; [done|].
      right. destruct Hwhy as [Hd|Href]; [left; by exists e|by right].
  - destruct Hans as [-> Hat1]. exists [], s1. cbn [length take map]. rewrite Nat.add_0_r.
    split; [by mnext_by Hrun|]. split; [done|]. split; [done|]. by left.
Qed.

(** C14: a stream that is at the [i]-th entry of a directory that does not
    change, however its buffer is filled, delivers the entries from the [i]-th
    on, each once and in order, until it returns [NULL], every call ending
    within three rounds of reading, long names growing the buffer.  An entry is
    delivered with the inode number and type of the listing (a socket's type is
    the host's, never [DT_SOCK]) or, when the host lists it with inode 0, with
    those of the file's status.  [NULL] comes at the end of the directory; or at
    an entry whose status the host refuses, with that error in [errno]; or when
    the allocator has just denied the memory for an entry: the stream is then
    still at the entry that was not delivered. *)
Theorem readdir_spec i s n fuel : (3 <= fuel)%nat -> (length ents < i + n)%nat -> stream_at i (dir s) ->
  exists xs s', read_all n fuel s = Ret (xs, s') /\ map inr xs = map delivered (take (length xs) (drop i ents)) /\
    stream_at (i + length xs) (dir s') /\ stopped (i + length xs) s'.
Proof. apply read_all_Ret. Qed.

(** Where streams are.  [fdopendir] gives a stream at the first entry, or none
    when memory was denied; [rewinddir] moves to the first entry; [seekdir] to what [telldir] returned
    moves back to that entry, from anywhere in the directory, if the cookie
    has no more than 32 bits ([long] has not); and the descriptor stays. *)
Theorem dir_positions i j p d d' : stream_at i d -> stream_at j d' -> 0 <= d_cookie d < 2 ^ 32 ->
  (exists r p', fdopendir fd p = Ret (r, p') /\
    match r with Some d0 => stream_at 0 d0 /\ dirfd d0 = fd | None => denied (world (penv p')) end) /\
  stream_at 0 (rewinddir d') /\ stream_at i (seekdir (telldir d) d').
Proof.
  intros [[Hfd Hpos Hsize Hds] Hbuf] [[Hfd' Hpos' Hsize' Hds'] Hbuf'] Hc. split; [|split].
  - unfold fdopendir, malloc, pcall, host, mbind, M_bind.
    destruct (malloc_ok 40 (world (penv p))) as [[] w1] eqn:E1; [|eexists None, _; split; [reflexivity|by exists 40, (world (penv p))]].
    cbn [negb penv set_env world errno].
    destruct (malloc_ok DIRENT_DEFAULT_BUFFER_SIZE w1) as [[] w2] eqn:E2; [|eexists None, _; split; [reflexivity|by exists DIRENT_DEFAULT_BUFFER_SIZE, w1]].
    cbn [negb penv set_env world errno].
    destruct (readdir_bytes DIRENT_DEFAULT_BUFFER_SIZE DIRCOOKIE_START w2 ltac:(done)) as [w3 ->]. cbn [Z.eqb negb].
    eexists (Some _), _. split; [reflexivity|]. split; [|done].
    unfold DIRCOOKIE_START, DIRENT_DEFAULT_BUFFER_SIZE. rewrite pos_start, drop_0.
    set (l := take (Z.to_nat 4096) (bytes_of_dir ents)).
    assert (Hl : length l = Nat.min 4096 (length (bytes_of_dir ents))) by (subst l; by rewrite length_take).
    split; [split; cbn; [done|apply pos_start|lia|lia]|]. right. exists (length l). cbn. rewrite drop_0, w32_small by lia.
    split_and!; try lia. subst l. rewrite length_take. rewrite <- take_take. 
    rewrite (take_ge (bytes_of_dir ents) (length (bytes_of_dir ents))) by lia. done.
  - split; [split; try done; apply pos_start|by left].
  - split; [split; try done|by left]. cbn. unfold telldir, s32. rewrite <- Hpos. f_equal. unfold w32.
    destruct (Z.lt_ge_cases (d_cookie d) (2 ^ 31)).
    + rewrite (Z.mod_small (d_cookie d + 2 ^ 31)) by lia. rewrite Z.mod_small by lia. lia.
    + rewrite <- (Z.mod_add (d_cookie d + 2 ^ 31) (-1)) by lia. rewrite (Z.mod_small (d_cookie d + 2 ^ 31 + _)) by lia.
      rewrite <- (Z.mod_add _ 1) by lia. rewrite Z.mod_small by lia. lia.
Qed.

End Stream.

(** * [scandirat] collects the selected entries of a directory. *)

Section Scan.
  Context {W : Type} `{WasiFd W, WasiPath W, Alloc W, HD : WasiDir W}.
  Context (threaded : bool) (fd : Z) (ents : list hent) `{!StableDir W fd ents}.
  Hypothesis good : Forall good_entry ents.
  Hypothesis valid : 0 <= fd.
  Implicit Types (s : dstate (W := W)) (d : DIR).

(** What [scandirat] makes of an entry: here [..] with inode 0 is asked for like
    any other. *)
Definition scan_delivered (e : hent) : Z + dirent :=
  if decide (h_ino e = 0) then with_status (about fd ents (h_name e)) e else inr (as_dirent e).

(** The entries that are selected. *)
Definition selected (sel : dirent -> bool) (xs : list dirent) : list dirent := filter sel xs.

Lemma selected_cons (sel : dirent -> bool) x xs : (if sel x then [x] else []) ++ selected sel xs = selected sel (x :: xs).
Proof.
  unfold selected. rewrite filter_cons. case_decide as Hd; [apply Is_true_true_1 in Hd|apply Is_true_false_1 in Hd]; by rewrite Hd.
Qed.

(** Why the loop gives up at an entry: memory was denied, or the status of the
    entry is not to be had. *)
Definition gives_up (e : hent) (o : scan_outcome) (p : pstate W) : Prop :=
  (o = Bad /\ denied (world (penv p))) \/ (o = ReturnError /\ scan_delivered e = inl (errno (penv p))).

(** The loop is behind the entry, with it if it is selected; or it gives up. *)
Definition scanned (i : nat) (sel : dirent -> bool) (ds : list dirent) (e : hent) (o : scan_outcome) s : Prop :=
  (exists x cap, scan_delivered e = inr x /\ o = Continue (ds ++ if sel x then [x] else []) cap /\
     stream_at fd ents (S i) (dir s)) \/ gives_up e o (libc s).

Lemma scan_keep_Ret i (sel : dirent -> bool) (ds : list dirent) (cap : Z) (e : hent) d x s : stream_at fd ents (S i) (with_cookie (h_next e) d) -> dir s = d -> scan_delivered e = inr x ->
  exists o s', ((s ← get;
      set_dir (with_cookie (h_next e) (dir s));;
      if sel x then
        if Z.of_nat (length ds) =? cap then
          let cap := if cap <? 8 then 8 else w32 (cap * 2) in
          ok ← Dirent.realloc (w32 (cap * 4));
          if ok : bool then mret (Continue (ds ++ [x]) cap) else mret Bad
        else mret (Continue (ds ++ [x]) cap)
      else mret (Continue ds cap)) : M (dstate (W := W)) scan_outcome) s = Ret (o, s') /\ scanned i sel ds e o s'.
Proof.
  intros Hat <- Hx.
  assert (Hgo : forall cap' p, scanned i sel ds e (Continue (ds ++ if sel x then [x] else []) cap')
    (DState (with_cookie (h_next e) (dir s)) p)) by (intros cap' p; left; by exists x, cap').
  destruct (sel x) eqn:Hsel; [|rewrite app_nil_r in Hgo; eexists _, _; split; [mnext; by mnext|apply Hgo]].
  destruct (Z.of_nat (length ds) =? cap); [|eexists _, _; split; [mnext; by mnext|apply Hgo]].
  set (cap1 := if cap <? 8 then 8 else w32 (cap * 2)).
  destruct (dir_realloc_Ret (w32 (cap1 * 4)) (DState (with_cookie (h_next e) (dir s)) (libc s))) as ([] & p & Hre & Hden).
  - eexists _, _. split; [mnext; mnext; rewrite ?Hsel; fold cap1; by mnext_by Hre|apply Hgo].
  - exists Bad. eexists. split; [mnext; mnext; rewrite ?Hsel; fold cap1; by mnext_by Hre|]. right. left. split; [done|]. by apply Hden.
Qed.

Lemma scan_entry_Ret i e sel ds cap s : ents !! i = Some e -> d_fd (dir s) = fd ->
  stream_at fd ents (S i) (with_cookie (h_next e) (dir s)) ->
  exists o s', scan_entry threaded sel (WDirent (h_next e) (h_ino e) (Z.of_nat (length (h_name e))) (h_type e)) (h_name e) ds cap s =
    Ret (o, s') /\ scanned i sel ds e o s'.
Proof.
  intros Hi Hfd Hat. unfold scan_entry. cbn [wd_next wd_ino wd_namlen wd_type].
  destruct (dir_realloc_Ret (w32 (OFFSETOF_D_NAME + Z.of_nat (length (h_name e)) + 1)) s) as (ok & p & Hre & Hden).
  destruct ok; [|exists Bad; eexists; split; [by mnext_by Hre|right; left; split; [done|by apply Hden]]].
  assert (Hd : scan_delivered e = if decide (h_ino e = 0) then with_status (about fd ents (h_name e)) e else inr (as_dirent e))
    by reflexivity.
  destruct (decide (h_ino e = 0)) as [Hz|Hnz].
  - destruct (listed_status_Ret threaded fd ents good valid i e (DState (dir s) p) Hi) as (p' & Hst & Herr).
    unfold with_status in Hd. destruct (about fd ents (h_name e)) as [er st]. cbn [fst snd] in *.
    destruct (Z.eqb_spec er 0) as [->|Her].
    + destruct (scan_keep_Ret i sel ds cap e (dir s) _ (DState (dir s) p') Hat eq_refl Hd) as (o & s' & Hrun & Hsc).
      exists o, s'. split; [|exact Hsc]. mnext_by Hre. cbn [negb]. rewrite Hz. cbn [Z.eqb]. rewrite bind_assoc. mnext. cbn [dir]. rewrite Hfd.
      rewrite bind_assoc. mnext_by Hst. mnext. cbn [option_map to_public_stat st_ino st_mode]. rewrite mode_type. exact Hrun.
    + exists ReturnError, (DState (dir s) p'). split; [|right; right; split; [done|]; cbn [libc]; by rewrite Hd, Herr].
      mnext_by Hre. cbn [negb]. rewrite Hz. cbn [Z.eqb]. rewrite bind_assoc. mnext. cbn [dir]. rewrite Hfd. rewrite bind_assoc. by mnext_by Hst.
  - destruct (scan_keep_Ret i sel ds cap e (dir s) _ (DState (dir s) p) Hat eq_refl Hd) as (o & s' & Hrun & Hsc).
    exists o, s'. split; [|exact Hsc]. mnext_by Hre. cbn [negb]. replace (h_ino e =? 0) with false by lia. exact Hrun.
Qed.

Lemma scan_ready i e sel ds cap s : ents !! i = Some e -> cookie_at fd ents i (dir s) -> loaded ents i (dir s) ->
  24 + Z.of_nat (length (h_name e)) <= d_used (dir s) - d_processed (dir s) ->
  exists o s', scan_round threaded sel ds cap s = Ret (o, s') /\ scanned i sel ds e o s'.
Proof.
  intros Hi Hat Hload Hleft. pose proof Hat as [Hfd _ Hsize Hds].
  set (d1 := with_position (w32 (d_processed (dir s) + w32 (SIZEOF_DIRENT + Z.of_nat (length (h_name e))))) (d_used (dir s)) (dir s)).
  destruct (scan_entry_Ret i e sel ds cap (DState d1 (libc s)) Hi Hfd) as (o & s' & Hrun & Hsc).
  { exact (advance_at fd ents good i e (d_dirent (dir s)) (d_dirent_size (dir s)) (dir s) Hi Hat Hload Hleft Hds). }
  exists o, s'. split; [|exact Hsc]. destruct Hload as (k & Hkl & Hk & Hp & Hu & Hdrop & Hall).
  destruct (entry_header ents good i e (dir s) k Hi ltac:(lia) Hdrop) as [Hhead Hname].
  destruct (name_good ents good i e Hi) as [Hlen0 Hnul]. pose proof (good_at ents good i e Hi) as [_ _ _ _ _ _ Hlen].
  unfold scan_round. mnext. rewrite Hhead. cbn [wd_namlen]. unfold SIZEOF_DIRENT in *.
  rewrite (w32_small (d_used (dir s) - _)) by lia. replace (_ <? 24) with false by lia. rewrite Hlen0.
  replace (_ <? w32 (24 + Z.of_nat (length (h_name e)))) with false by (rewrite w32_small by lia; lia).
  mnext. rewrite Nat2Z.id, Hname by lia. rewrite Hnul. exact Hrun.
Qed.

Lemma scan_partial i e sel ds cap s : ents !! i = Some e -> cookie_at fd ents i (dir s) -> loaded ents i (dir s) ->
  24 <= d_used (dir s) - d_processed (dir s) < 24 + Z.of_nat (length (h_name e)) ->
  (exists s', scan_round threaded sel ds cap s = Ret (Bad, s') /\ denied (world (penv (libc s')))) \/
  exists s', scan_round threaded sel ds cap s = Ret (Continue ds cap, s') /\ stream_at fd ents i (dir s') /\ loaded ents i (dir s') /\
    24 + Z.of_nat (length (h_name e)) <= d_used (dir s') - d_processed (dir s').
Proof.
  intros Hi Hat Hload Hleft. pose proof Hat as [Hfd Hpos Hsize Hds]. destruct Hload as (k & Hkl & Hk & Hp & Hu & Hdrop & Hall).
  pose proof (good_at ents good i e Hi) as [_ _ _ _ _ _ Hlen]. pose proof (entry_length ents i e Hi).
  destruct (doubled_Ret 32 s (d_size (dir s)) (24 + Z.of_nat (length (h_name e)))) as (n & Hgrow & Hn1 & Hn2);
    [lia|lia|change (2 ^ Z.of_nat 32) with (2 ^ 32); lia|lia|].
  assert (Hc : cookie_at fd ents i (with_size n (dir s))) by (split; try done; simpl; lia).
  destruct (dir_realloc_Ret n (DState (with_size n (dir s)) (libc s))) as (ok & p & Hre & Hden).
  assert (Hround : scan_round threaded sel ds cap s =
    (if ok : bool then scan_read ds cap else mret Bad) (DState (with_size n (dir s)) p)).
  { unfold scan_round. mnext. rewrite (proj1 (entry_header ents good i e (dir s) k Hi ltac:(lia) Hdrop)). cbn [wd_namlen].
    unfold SIZEOF_DIRENT. rewrite (w32_small (d_used (dir s) - _)) by lia. replace (_ <? 24) with false by lia.
    rewrite (proj1 (name_good ents good i e Hi)), (w32_small (24 + _)) by lia. replace (_ <? 24 + _) with true by lia.
    mnext_by Hgrow. mnext. by mnext_by Hre. }
  rewrite Hround. destruct ok; [right|left; eexists; split; [reflexivity|by apply Hden]].
  destruct (scan_read_Ret fd ents i ds cap (DState (with_size n (dir s)) p) Hc) as [p' Hrun].
  destruct (refilled_at fd ents i _ Hc) as (Hat' & Hload' & Hused').
  exists (DState (refilled ents i (with_size n (dir s))) p'). split; [exact Hrun|split; [exact Hat'|split; [exact Hload'|]]].
  cbn [dir]. rewrite Hused'. simpl. lia.
Qed.

Lemma scan_refill i sel ds cap s : stream_at fd ents i (dir s) -> d_used (dir s) = d_size (dir s) ->
  d_used (dir s) - 24 < d_processed (dir s) <= d_used (dir s) ->
  exists p, scan_round threaded sel ds cap s = Ret (Continue ds cap, DState (refilled ents i (dir s)) p).
Proof.
  intros Hat Hu Hp. pose proof (sa_cookie _ _ _ _ Hat) as Hc. pose proof Hc as [_ _ Hsize _].
  destruct (scan_read_Ret fd ents i ds cap s Hc) as [p Hrun]. exists p.
  unfold scan_round. mnext. unfold SIZEOF_DIRENT. rewrite w32_small by lia.
  replace (_ <? 24) with true by lia. replace (d_used (dir s) <? d_size (dir s)) with false by lia. exact Hrun.
Qed.

Lemma scan_finished sel ds cap s : d_used (dir s) < d_size (dir s) -> d_size (dir s) <= 2 ^ 22 -> 0 <= d_used (dir s) ->
  d_used (dir s) = d_processed (dir s) -> scan_round threaded sel ds cap s = Ret (Finished, s).
Proof.
  intros Hlt Hs Hu Hp. unfold scan_round. mnext. unfold SIZEOF_DIRENT. rewrite w32_small by lia.
  replace (_ <? 24) with true by lia. by replace (d_used (dir s) <? d_size (dir s)) with true by lia.
Qed.

(** The rest of the loop after a round. *)
Definition scan_on (fuel : nat) (sel : dirent -> bool) (o : scan_outcome) : M (dstate (W := W)) scan_outcome :=
  match o with
  | Continue ds cap => scan_loop threaded fuel sel ds cap
  | o => mret o
  end.

Lemma scan_on_match i sel ds e o s fuel ds0 cap0 : scanned i sel ds e o s ->
  match o with
  | Continue ds cap => scan_loop threaded fuel sel ds cap
  | Finished => mret (Continue ds0 cap0)
  | r => mret r
  end = scan_on fuel sel o.
Proof. by intros [(x & c & _ & -> & _)|[[-> _]|[-> _]]]. Qed.

(** Rounds until the entry at hand is behind or the loop gives up, or the end is
    reached, when the buffer has a header or the end. *)
Lemma scan_loaded i sel ds cap s fuel : stream_at fd ents i (dir s) -> loaded ents i (dir s) ->
  24 <= d_used (dir s) - d_processed (dir s) \/ ents !! i = None /\ d_used (dir s) < d_size (dir s) ->
  match ents !! i with
  | Some e => exists m o s', (m <= 2)%nat /\ scanned i sel ds e o s' /\
      scan_loop threaded (m + fuel) sel ds cap s = scan_on fuel sel o s'
  | None => scan_loop threaded (S fuel) sel ds cap s = Ret (Continue ds cap, s)
  end.
Proof.
  intros Hat Hload Hcase. pose proof (sa_cookie _ _ _ _ Hat) as Hc. destruct (ents !! i) as [e|] eqn:Hi.
  - destruct Hcase as [Hleft|[? _]]; [|done].
    destruct (decide (24 + Z.of_nat (length (h_name e)) <= d_used (dir s) - d_processed (dir s))) as [Hready|Hpart].
    + destruct (scan_ready i e sel ds cap s Hi Hc Hload Hready) as (o & s' & Hrun & Hsc).
      exists 1%nat, o, s'. split; [lia|]. split; [done|]. cbn [Nat.add scan_loop]. mnext_by Hrun. by rewrite (scan_on_match _ _ _ _ _ _ _ _ _ Hsc).
    + destruct (scan_partial i e sel ds cap s Hi Hc Hload ltac:(lia)) as [(s1 & Hrun1 & Hden)|(s1 & Hrun1 & Hat1 & Hload1 & Hleft1)].
      { exists 1%nat, Bad, s1. split; [lia|]. split; [right; by left|]. cbn [Nat.add scan_loop]. by mnext_by Hrun1. }
      destruct (scan_ready i e sel ds cap s1 Hi (sa_cookie _ _ _ _ Hat1) Hload1 Hleft1) as (o & s' & Hrun & Hsc).
      exists 2%nat, o, s'. split; [lia|]. split; [done|]. cbn [Nat.add scan_loop]. mnext_by Hrun1. mnext_by Hrun. by rewrite (scan_on_match _ _ _ _ _ _ _ _ _ Hsc).
  - pose proof Hc as [_ _ Hsize _]. destruct Hload as (k & Hkl & Hk & Hp & Hu & _ & Hall). rewrite (end_length ents i Hi) in Hkl.
    assert (k = 0%nat) as -> by lia.
    assert (Hlt : d_used (dir s) < d_size (dir s)) by (destruct Hcase as [?|[_ ?]]; lia).
    cbn [scan_loop]. by mnext_by (scan_finished sel ds cap s ltac:(lia) ltac:(lia) ltac:(lia) ltac:(lia)).
Qed.

Lemma scan_step_Ret i sel ds cap s fuel : stream_at fd ents i (dir s) ->
  match ents !! i with
  | Some e => exists m o s', (m <= 3)%nat /\ scanned i sel ds e o s' /\
      scan_loop threaded (m + fuel) sel ds cap s = scan_on fuel sel o s'
  | None => exists m s', (m <= 2)%nat /\ scan_loop threaded (m + fuel) sel ds cap s = Ret (Continue ds cap, s')
  end.
Proof.
  intros Hat. pose proof (sa_cookie _ _ _ _ Hat) as Hc. pose proof Hc as [_ _ Hsize _].
  destruct (decide (d_used (dir s) = d_size (dir s) /\ d_used (dir s) - 24 < d_processed (dir s) <= d_used (dir s))) as [[Hu Hp]|Hno].
  - destruct (scan_refill i sel ds cap s Hat Hu Hp) as [p Hrun]. destruct (refilled_at fd ents i _ Hc) as (Hat1 & Hload1 & Hused1).
    pose proof (scan_loaded i sel ds cap (DState (refilled ents i (dir s)) p) fuel Hat1 Hload1) as Hnext.
    cbn [dir] in Hnext. rewrite Hused1 in Hnext. simpl d_processed in Hnext. simpl d_size in Hnext.
    destruct (ents !! i) as [e|] eqn:Hi.
    + pose proof (entry_length ents i e Hi). destruct Hnext as (m & o & s' & Hm & Hsc & Hrun'); [left; lia|].
      exists (S m), o, s'. split; [lia|]. split; [done|]. cbn [Nat.add scan_loop]. by mnext_by Hrun.
    + pose proof (end_length ents i Hi). exists 2%nat, (DState (refilled ents i (dir s)) p). split; [lia|].
      change (2 + fuel)%nat with (S (S fuel)). cbn [scan_loop]. mnext_by Hrun. apply Hnext. right. split; [done|]. lia.
  - destruct Hat as [_ [[Hp Hu]|Hload]]; [exfalso; apply Hno; lia|].
    pose proof Hload as (k & Hkl & Hk & Hp & Hu & _ & Hall).
    assert (Hat : stream_at fd ents i (dir s)) by (split; [done|by right]).
    pose proof (scan_loaded i sel ds cap s fuel Hat Hload) as Hnext. destruct (ents !! i) as [e|] eqn:Hi.
    + pose proof (entry_length ents i e Hi). destruct Hnext as (m & o & s' & Hm & Hsc & Hrun').
      { left. destruct (decide (d_used (dir s) < d_size (dir s))) as [Hlt|]; [specialize (Hall Hlt)|]; lia. }
      exists m, o, s'. split; [lia|]. by split.
    + exists 1%nat, s. split; [lia|]. apply Hnext. right. split; [done|].
      destruct (decide (d_used (dir s) < d_size (dir s))); [done|].
      pose proof (end_length ents i Hi). lia.
Qed.

Lemma scan_loop_mono fuel sel : forall ds cap s r more, scan_loop threaded fuel sel ds cap s = Ret r ->
  scan_loop threaded (fuel + more) sel ds cap s = Ret r.
Proof.
  induction fuel as [|fuel IH]; intros ds cap s r more Hrun; [done|]. cbn [Nat.add scan_loop] in *.
  unfold mbind, M_bind in *. destruct (scan_round threaded sel ds cap s) as [[[] s1]|]; try done. by apply IH.
Qed.

(** What the loop ends with for the entries [es] that are left, with [ds]
    selected before: all that are selected, or why it gave up, at the first
    entry that made it. *)
Definition scan_result (sel : dirent -> bool) (ds : list dirent) (es : list hent) (o : scan_outcome) (p : pstate W) : Prop :=
  (exists xs cap, map scan_delivered es = map inr xs /\ o = Continue (ds ++ selected sel xs) cap) \/
  (exists xs e rest, es = xs ++ e :: rest /\ Forall (fun x => exists y, scan_delivered x = inr y) xs /\ gives_up e o p).

Lemma scan_loop_Ret n : forall i sel ds cap s, (i + n = length ents)%nat -> stream_at fd ents i (dir s) ->
  exists o s', scan_loop threaded (3 * n + 2) sel ds cap s = Ret (o, s') /\ scan_result sel ds (drop i ents) o (libc s').
Proof.
  induction n as [|n IH]; intros i sel ds cap s Hn Hat.
  - pose proof (scan_step_Ret i sel ds cap s 0 Hat) as Hstep. rewrite lookup_ge_None_2 in Hstep by lia.
    destruct Hstep as (m & s' & Hm & Hrun). exists (Continue ds cap), s'. split.
    + replace (3 * 0 + 2)%nat with (m + 0 + (2 - m))%nat by lia. by apply scan_loop_mono.
    + left. exists [], cap. rewrite drop_ge by lia. by rewrite app_nil_r.
  - destruct (lookup_lt_is_Some_2 ents i ltac:(lia)) as [e Hi].
    pose proof (scan_step_Ret i sel ds cap s (3 * n + 2) Hat) as Hstep. rewrite Hi in Hstep.
    destruct Hstep as (m & o & s1 & Hm & Hsc & Hrun). rewrite (drop_S _ _ _ Hi).
    assert (Hmore : forall r, scan_on (3 * n + 2) sel o s1 = Ret r -> scan_loop threaded (3 * S n + 2) sel ds cap s = Ret r).
    { intros r Hr. replace (3 * S n + 2)%nat with (m + (3 * n + 2) + (3 - m))%nat by lia.
      apply scan_loop_mono. by rewrite Hrun. }
    destruct Hsc as [(x & cap1 & Hx & -> & Hat1)|Hup].
    + destruct (IH (S i) sel (ds ++ if sel x then [x] else []) cap1 s1 ltac:(lia) Hat1) as (o' & s' & Hrest & Hres).
      exists o', s'. split; [by apply Hmore|]. destruct Hres as [(xs & cap' & Hxs & ->)|(xs & e' & rest & Hes & Hxs & Hup)]; [left|right].
      * exists (x :: xs), cap'. split; [cbn [map]; by rewrite Hx, Hxs|]. by rewrite <- app_assoc, selected_cons.
      * exists (e :: xs), e', rest. rewrite Hes. split; [done|]. split; [|done]. constructor; [by exists x|done].
    + exists o, s1. split; [apply Hmore; by destruct Hup as [[-> _]|[-> _]]|]. right. by exists [], e, (drop (S i) ents).
Qed.

Lemma close_returns f (p : pstate W) : exists r e, pcall (close f) p = Ret (r, set_env e p) /\
  snd (wasi_fd_close f (world (penv p))) = world e.
Proof.
  unfold pcall, close, host, mbind, M_bind. destruct (wasi_fd_close f (world (penv p))) as [error w].
  destruct (error =? 0); eexists _, _; (split; [reflexivity|done]).
Qed.

Lemma pcall_Ret {A} (m : M (env W) A) p (a : A) e : m (penv p) = Ret (a, e) -> pcall m p = Ret (a, set_env e p).
Proof. intros Hm. unfold pcall. by rewrite Hm. Qed.

(** How [scandirat] ends on a directory opened as [fd]. *)
Definition scandir_result qsort sel (res : Z * option (list dirent)) (p : pstate W) : Prop :=
  (exists xs, map scan_delivered ents = map inr xs /\
     res = (Z.of_nat (length (selected sel xs)), Some (qsort (selected sel xs)))) \/
  (res = (-1, None) /\ exists xs e rest, ents = xs ++ e :: rest /\
     Forall (fun x => exists y, scan_delivered x = inr y) xs /\ scan_delivered e = inl (errno (penv p))) \/
  (res = (-1, None) /\ exists w, denied w /\ snd (wasi_fd_close fd w) = world (penv p)).

(** C15: [scandirat].  If the directory cannot be opened it returns -1.  If it
    opens as [fd] and does not change, the loop takes at most three rounds for an
    entry, and there are three ends.  All entries are to be had, those listed
    with inode 0 by their status: [scandirat] returns the number of those that
    the filter selects (all without a filter) and stores them as sorted by
    [qsort].  Or there is a first entry with inode 0 whose status the host
    refuses: it returns -1 with that error in [errno].  Or the allocator denied
    memory: it closes the descriptor and returns -1. *)
Theorem scandirat_spec qsort dirfd name sel p r e :
  __wasilibc_nocwd_openat_nomode dirfd name (Z.lor O_RDONLY (Z.lor O_NONBLOCK O_DIRECTORY)) (penv p) = Ret (r, e) ->
  let run := __wasilibc_nocwd_scandirat threaded qsort (3 * length ents + 2) dirfd name sel p in
  (r = -1 -> run = Ret ((-1, None), set_env e p)) /\
  (r = fd -> exists res p', run = Ret (res, p') /\ scandir_result qsort (default (fun _ => true) sel) res p').
Proof.
  intros Hopen run. apply pcall_Ret in Hopen. split.
  - intros ->. unfold run, __wasilibc_nocwd_scandirat. by mnext_by Hopen.
  - intros ->. destruct (malloc_ok DIRENT_DEFAULT_BUFFER_SIZE (world (penv (set_env e p)))) as [ok w] eqn:Em.
    assert (Hm : malloc DIRENT_DEFAULT_BUFFER_SIZE (set_env e p) = Ret (ok, set_env (Env (errno (penv (set_env e p))) w) (set_env e p)))
      by (by apply pcall_host).
    set (p1 := set_env _ (set_env e p)) in *. destruct ok.
    2:{ destruct (close_returns fd p1) as (rc & e2 & Hclose & Hw). eexists _, _. split.
        - unfold run, __wasilibc_nocwd_scandirat. mnext_by Hopen. replace (fd =? -1) with false by lia.
          mnext_by Hm. cbn [negb]. by mnext_by Hclose.
        - right. right. split; [done|]. exists (world (penv p1)). split; [|exact Hw].
          by exists DIRENT_DEFAULT_BUFFER_SIZE, (world (penv (set_env e p))). }
    set (d0 := Dir fd DIRCOOKIE_START [] DIRENT_DEFAULT_BUFFER_SIZE DIRENT_DEFAULT_BUFFER_SIZE DIRENT_DEFAULT_BUFFER_SIZE None 1).
    assert (Hat : stream_at fd ents 0 d0).
    { split; [split; [done|apply pos_start| |]|by left]; unfold d0, DIRENT_DEFAULT_BUFFER_SIZE; simpl; lia. }
    destruct (scan_loop_Ret (length ents) 0 (default (fun _ => true) sel) [] 0 (DState d0 p1) ltac:(lia) Hat) as (o & s' & Hloop & Hres).
    assert (Hrun : run = (match o with
      | Continue ds _ => pcall (close fd);; mret (Z.of_nat (length ds), Some (qsort ds))
      | ReturnError => mret (-1, None)
      | _ => pcall (close fd);; mret (-1, None)
      end) (libc s')).
    { unfold run, __wasilibc_nocwd_scandirat. mnext_by Hopen. replace (fd =? -1) with false by lia. mnext_by Hm. cbn [negb]. fold d0.
      unfold mbind at 1, M_bind at 1. cbn beta.
      change (match sel with Some f => f | None => fun _ => true end) with (default (fun _ => true) sel). by rewrite Hloop. }
    rewrite Hrun. destruct (close_returns fd (libc s')) as (rc & e2 & Hclose & Hw). rewrite drop_0 in Hres.
    destruct Hres as [(xs & cap & Hxs & ->)|(xs & e' & rest & Hes & Hxs & [[-> Hden]|[-> Hd]])].
    + eexists _, _. split; [by mnext_by Hclose|]. left. by exists xs.
    + eexists _, _. split; [by mnext_by Hclose|]. right. right. split; [done|]. by exists (world (penv (libc s'))).
    + eexists _, _. split; [reflexivity|]. right. left. split; [done|]. by exists xs, e', rest.
Qed.
End Scan.
