(* ===== verification/PathsExamples.v ===== *)
(** The theorems on paths and on directory streams at a concrete table, working
    directory and host. *)
From stdpp Require Import sorting.
From S2P Require Import Prelude.
From S2P Require Import Wasi.
From S2P Require Import Sim.
From S2P Require Import Unistd.
From S2P Require Import Paths.
From S2P Require Import PathsProofs.
From S2P Require Import PathsResolve.
From S2P Require Import TimeConv.
From S2P Require Import At.
From S2P Require Import AtProofs.
From S2P Require Import Dirent.
From S2P Require Import DirentProofs.

(** A host that records the directories it is asked to create and finds a
    directory under every path. *)
Definition journal : Type := list (Z * list Z).

#[export] Instance journal_alloc : Alloc journal := {| malloc_ok n w := (true, w) |}.

#[export] Instance journal_fd : WasiFd journal := {|
  wasi_fd_pread fd n o w := (0, [], w);
  wasi_fd_pwrite fd l o w := (0, 0, w);
  wasi_fd_dup fd w := (0, fd + 100, w);
  wasi_fd_close fd w := (0, w);
  wasi_fd_fdstat_get fd w := (0, FdStat 3 0 0 0, w) |}.

Definition given0 : list (Z * list Z) := [(0, bytes_of "/"); (1, bytes_of "sock"); (0, bytes_of "/tmp")].

#[export] Instance journal_path : WasiPath journal := {|
  wasi_fd_prestat_get fd w :=
    match given0 !! Z.to_nat (fd - 3) with
    | Some (t, name) => (0, Prestat t (Z.of_nat (length name)), w)
    | None => (EBADF, Prestat 0 0, w)
    end;
  wasi_fd_prestat_dir_name fd n w :=
    match given0 !! Z.to_nat (fd - 3) with Some (t, name) => (0, name, w) | None => (EBADF, [], w) end;
  wasi_getcwd b n w := (0, bytes_of "/", 2, w);
  wasi_chdir p w := (0, w);
  wasi_path_open2 fd fl p o rb ri ff fe w := (0, 9, w);
  wasi_path_link fd1 fl p1 fd2 p2 w := (0, w);
  wasi_path_rename fd1 p1 fd2 p2 w := (0, (fd1, p1) :: (fd2, p2) :: w);
  wasi_path_symlink p1 fd p2 w := (0, w);
  wasi_path_readlink fd p n w := (0, [], w);
  wasi_path_create_directory fd p w := (0, (fd, p) :: w);
  wasi_path_unlink_file fd p w := (EISDIR, w);
  wasi_path_remove_directory fd p w := (0, w);
  wasi_path_filestat_get fd fl p w := (0, FileStat 0 7 3 1 0 0 0 0, w);
  wasi_path_filestat_set_times fd fl p a m f w := (0, w);
  wasi_fd_filestat_get fd w := (0, FileStat 0 0 3 1 0 0 0 0, w);
  wasi_fd_filestat_set_times fd a m f w := (0, w) |}.

#[export] Instance journal_given : Preopened (W := journal).
Proof.
  refine {| given := given0 |}.
  - intros i w. simpl. by replace (Z.to_nat (3 + Z.of_nat i - 3)) with i by lia.
  - intros i t name w Hi. simpl. replace (Z.to_nat (3 + Z.of_nat i - 3)) with i by lia. by rewrite Hi.
Defined.

Definition table0 : list preopen := [Preopen [] 3; Preopen (bytes_of "tmp") 4].
Definition cwd0 : list Z := bytes_of "/home".

Definition bufs0 (b : which) : pbuf := match b with REL => PBuf (Some 10) 4 | _ => PBuf None 0 end.

Definition pstate0 : pstate journal :=
  PState table0 4 false false (Some cwd0) false false true bufs0 {[10 := CBlock 4 (Some (bytes_of "abc"))]} (Env 0 []).
Definition pstate_shadow : pstate journal :=
  PState [Preopen (bytes_of "a/b") 3; Preopen (bytes_of "a") 4] 4 false false (Some cwd0) false false true
    bufs0 ∅ (Env 0 []).
Definition pstate_start : pstate journal :=
  PState [] 0 false false (Some [slash]) false false false (fun _ => PBuf None 0) ∅ (Env 0 []).

Lemma table0_ok : table_ok table0.
Proof. repeat constructor; vm_compute; done. Qed.

Lemma pstate0_ready : ready pstate0 cwd0.
Proof.
  split; [by split|]. split.
  - intros []; simpl; [|done..]. by exists (Some (bytes_of "abc")).
  - by intros [] [] p; simpl.
Qed.

Definition path0 : list Z := bytes_of "./x/y".

Ltac c_str_tac := repeat constructor; vm_compute; done.

Lemma strip_prefixes_spec_witness :
  c_string (bytes_of "/.//./a/b") /\ strip_prefixes (bytes_of "/.//./a/b") = bytes_of "a/b" /\
  comps (strip_prefixes (bytes_of "/.//./a/b")) = comps (bytes_of "/.//./a/b").
Proof.
  assert (Hs : c_string (bytes_of "/.//./a/b")) by c_str_tac.
  split; [exact Hs|]. split; [reflexivity|]. apply (strip_prefixes_spec _ Hs).
Defined.

Lemma find_abspath_spec_witness :
  c_string (bytes_of "//tmp//f") /\ table_ok (preopens pstate0) /\
  ((__wasilibc_find_abspath true (bytes_of "//tmp//f") pstate0 =
      Ret ((-1, [], []), set_env (Env ENOENT []) pstate0) /\
    Forall (fun q => ~ covers (prefix_ q) (unslashed (bytes_of "//tmp//f"))) table0) \/
   exists p rel, __wasilibc_find_abspath true (bytes_of "//tmp//f") pstate0 = Ret ((pfd p, prefix_ p, rel), pstate0) /\
     pfd p <> -1 /\ chosen table0 (bytes_of "//tmp//f") p /\ rest_path (bytes_of "//tmp//f") (prefix_ p) rel).
Proof.
  assert (Hs : c_string (bytes_of "//tmp//f")) by c_str_tac.
  split; [exact Hs|]. split; [exact table0_ok|].
  exact (find_abspath_spec true (bytes_of "//tmp//f") pstate0 Hs table0_ok eq_refl).
Defined.

Lemma find_abspath_longest_witness :
  __wasilibc_find_abspath false (bytes_of "/tmp/f") pstate0 = Ret ((4, bytes_of "tmp", bytes_of "f"), pstate0) /\
  Forall (fun q => covers (prefix_ q) (unslashed (bytes_of "/tmp/f")) ->
    (length (prefix_ q) <= length (bytes_of "tmp"))%nat) table0.
Proof.
  assert (Hrun : __wasilibc_find_abspath false (bytes_of "/tmp/f") pstate0 =
    Ret ((4, bytes_of "tmp", bytes_of "f"), pstate0)) by reflexivity.
  split; [exact Hrun|].
  refine (find_abspath_longest false (bytes_of "/tmp/f") pstate0 4 (bytes_of "tmp") (bytes_of "f") pstate0
    _ table0_ok eq_refl _ Hrun _); [c_str_tac| |discriminate].
  repeat constructor; vm_compute; lia.
Defined.

Lemma find_abspath_shadowed_witness :
  covers (bytes_of "a/b") (unslashed (bytes_of "/a/b/c")) /\
  __wasilibc_find_abspath false (bytes_of "/a/b/c") pstate_shadow = Ret ((4, bytes_of "a", bytes_of "b/c"), pstate_shadow).
Proof. exact (find_abspath_shadowed false pstate_shadow eq_refl eq_refl). Defined.

Lemma register_spec_witness :
  exists v cap w, __wasilibc_register_preopened_fd true 7 (bytes_of "/data") pstate0 =
      Ret (v, set_env (Env 0 w) (set_table (table0 ++ if v =? 0 then [Preopen (strip_prefixes (bytes_of "/data")) 7] else []) cap pstate0)) /\
    (v = 0 \/ v = -1) /\ 2 + (if v =? 0 then 1 else 0) <= cap < 2 ^ 29 /\ 4 <= cap.
Proof. refine (register_spec true 7 (bytes_of "/data") pstate0 eq_refl _). simpl. lia. Defined.

Lemma populate_spec_witness :
  __wasilibc_populate_preopens false 5 pstate_start = Stop (Exited EX_SOFTWARE) \/
  exists cap e, __wasilibc_populate_preopens false 5 pstate_start =
    Ret (tt, set_env e (set_populated true (set_table [Preopen [] 3; Preopen (bytes_of "tmp") 5] cap pstate_start))).
Proof. refine (populate_spec false 5 pstate_start eq_refl eq_refl _ _ _); simpl; lia. Defined.

Lemma cwd0_string : c_string cwd0.
Proof. c_str_tac. Qed.
Lemma path0_string : c_string path0.
Proof. c_str_tac. Qed.


(** [mkdir] reaches the host as the descriptor 3 and the path below it. *)
Lemma path_calls_spec_witness :
  match perform true Plain Mkdir path0 pstate0 with
  | Ret (a, s') => (a, world (penv s')) = (Result 0, [(3, bytes_of "/home/x/y")])
  | Stop _ => False
  end /\
  exists s1, ready s1 cwd0 /\ preopens s1 = table0 /\ mallocs [] (world (penv s1)) /\
    ((exists fd abs rel, located table0 (absolutize cwd0 path0) fd abs rel /\
        let '(a, e) := host_ends Mkdir fd rel (penv s1) in
        perform true Plain Mkdir path0 pstate0 = Ret (a, set_env e s1)) \/
     (perform true Plain Mkdir path0 pstate0 = Ret (Result (-1), s1) /\ errno (penv s1) = ENOENT /\
      (unlocated table0 (absolutize cwd0 path0) \/ denied (world (penv s1))))).
Proof.
  split; [vm_compute; reflexivity|].
  exact (path_calls_spec true Plain Mkdir path0 pstate0 cwd0 pstate0_ready table0_ok cwd0_string path0_string ltac:(simpl; lia)).
Defined.

(** A file opened for reading and writing through a descriptor; this host hands
    on no rights, so that write access is denied; and a file must be opened for
    something. *)
Example open_from_descriptor :
  result (perform true (From 5) (Open O_RDWR) (bytes_of "x")) pstate0 = Some (Result 9) /\
  result (perform true Plain (Access 2) path0) pstate0 = Some (Result (-1)) /\
  result (perform true Plain (Open 0) path0) pstate0 = Some (Result (-1)).
Proof. split_and!; vm_compute; reflexivity. Qed.

Lemma two_paths_spec_witness : ready pstate0 cwd0 /\
  exists s', ready s' cwd0 /\ preopens s' = table0 /\
    ((exists ofd oabs orel nfd nabs nrel,
        resolve table0 (absolutize cwd0 path0) = Some (ofd, oabs, orel) /\
        resolve table0 (absolutize cwd0 (bytes_of "/tmp/z")) = Some (nfd, nabs, nrel) /\
        rename true path0 (bytes_of "/tmp/z") pstate0 = pcall (__wasilibc_nocwd_renameat ofd orel nfd nrel) s' /\
        link true path0 (bytes_of "/tmp/z") pstate0 = pcall (__wasilibc_nocwd_linkat ofd orel nfd nrel 0) s') \/
     (errno (penv s') = ENOENT /\ rename true path0 (bytes_of "/tmp/z") pstate0 = Ret (-1, s') /\
      link true path0 (bytes_of "/tmp/z") pstate0 = Ret (-1, s') /\
      (resolve table0 (absolutize cwd0 path0) = None \/ resolve table0 (absolutize cwd0 (bytes_of "/tmp/z")) = None \/
       denied (world (penv s'))))).
Proof.
  split; [exact pstate0_ready|].
  refine (two_paths_spec true path0 (bytes_of "/tmp/z") pstate0 cwd0 pstate0_ready _ _); simpl; lia.
Defined.

Lemma link_loses_old_path_witness : ready pstate0 cwd0 /\
  exists s', __wasilibc_link true path0 (bytes_of "/tmp/z") 0 pstate0 = Stop Undefined \/
    (errno (penv s') = ENOENT /\ __wasilibc_link true path0 (bytes_of "/tmp/z") 0 pstate0 = Ret (-1, s')) \/
    __wasilibc_link true path0 (bytes_of "/tmp/z") 0 pstate0 =
      pcall (__wasilibc_nocwd_linkat 3 (bytes_of "z") 4 (bytes_of "z") 0) s'.
Proof.
  split; [exact pstate0_ready|].
  refine (link_loses_old_path true path0 (bytes_of "/tmp/z") 0 pstate0 cwd0 3 [] (bytes_of "/home/x/y") 4
    (bytes_of "tmp") (bytes_of "z") pstate0_ready _ _ _ _); [simpl; lia|simpl; lia|reflexivity|reflexivity].
Defined.

Lemma chdir_spec_witness : ready pstate0 cwd0 /\
  exists v s1 s', chdir_legacy true path0 pstate0 = Ret (v, s1) /\
    (v = 0 \/ v = -1) /\
    (if v =? 0
     then (exists fd abs rel, resolve table0 (absolutize cwd0 path0) = Some (fd, abs, rel) /\
             cwd s1 = Some (new_cwd abs rel)) /\
          chdir true path0 pstate0 = Ret (0, s') /\ cwd s' = cwd s1 /\ (0 <> 0 -> errno (penv s') = 0)
     else cwd s1 = Some cwd0 /\ s' = s1 /\ chdir true path0 pstate0 = Ret (-1, s1)).
Proof.
  split; [exact pstate0_ready|]. refine (chdir_spec true path0 pstate0 cwd0 pstate0_ready table0_ok cwd0_string path0_string _). simpl. lia.
Defined.

Lemma chdir_root_slashes_witness :
  resolve table0 (bytes_of "/home/x") = Some (3, [], bytes_of "/home/x") /\
  new_cwd [] (bytes_of "/home/x") = bytes_of "//home/x".
Proof.
  split; [reflexivity|].
  refine (proj2 (chdir_root_slashes table0 (bytes_of "/home/x") 3 (bytes_of "/home/x") _ eq_refl eq_refl _));
    [c_str_tac|discriminate].
Defined.

Lemma open_rights_spec_witness :
  match open_rights O_RDONLY with
  | Some max => Z.testbit max 6 =
      if Z.testbit READ_RIGHTS 6 then has O_RDONLY O_RDONLY && negb (has O_RDONLY O_EXEC) && negb (has O_RDONLY O_SEARCH)
      else if Z.testbit WRITE_RIGHTS 6 then has O_RDONLY O_WRONLY && negb (has O_RDONLY O_EXEC) && negb (has O_RDONLY O_SEARCH)
      else true
  | None => ~ (Z.land O_RDONLY O_ACCMODE = O_RDONLY \/ Z.land O_RDONLY O_ACCMODE = O_WRONLY \/
               Z.land O_RDONLY O_ACCMODE = O_RDWR \/ Z.land O_RDONLY O_ACCMODE = O_EXEC \/
               Z.land O_RDONLY O_ACCMODE = O_SEARCH)
  end.
Proof. apply (open_rights_spec O_RDONLY 6). lia. Defined.

Lemma timestamp_roundtrip_witness :
  0 <= 1700000000123456789 < 2 ^ 64 /\
  timespec_to_timestamp_exact (timestamp_to_timespec 1700000000123456789) = Some 1700000000123456789.
Proof.
  assert (Hts : 0 <= 1700000000123456789 < 2 ^ 64) by lia.
  split; [exact Hts|]. exact (proj1 (proj2 (proj2 (timestamp_roundtrip (Timespec 0 0) _ Hts)))).
Defined.

Lemma utimens_flags_witness :
  utimens_get_timestamps (Some (Timespec 5 7, Timespec 0 UTIME_NOW)) = Some (Some 5000000007, None, 9) /\
  (has 9 FSTFLAGS_ATIM = true <-> Some 5000000007 = Some (nanos (Timespec 5 7))).
Proof.
  assert (Hu : utimens_get_timestamps (Some (Timespec 5 7, Timespec 0 UTIME_NOW)) = Some (Some 5000000007, None, 9))
    by reflexivity.
  split; [exact Hu|]. exact (proj1 (utimens_flags _ _ _ _ _ Hu)).
Defined.

(** * The theorems on directory streams for a directory of three entries, the
    last listed without its inode number. *)

Definition ents0 : list hent :=
  [Hent 17 100 4 (bytes_of "a.txt"); Hent 42 101 5 (bytes_of "sock"); Hent 77 0 0 (bytes_of "d")].
Definition pos0 (c : Z) : nat := if c =? 17 then 1%nat else if c =? 42 then 2%nat else if c =? 77 then 3%nat else 0%nat.

#[export] Instance journal_dir : WasiDir journal := {|
  wasi_fd_readdir fd n c w := (0, take (Z.to_nat n) (bytes_of_dir (drop (pos0 c) ents0)), w) |}.

#[export] Instance journal_stable : StableDir journal 9 ents0.
Proof.
  refine {| pos := pos0; about := fun _ => (0, FileStat 0 7 3 1 0 0 0 0) |};
    [reflexivity| |by intros n c w _; exists w|done|by intros e w _; exists w].
  intros [|[|[|i]]] e; simpl; intros Hi; by simplify_eq.
Defined.

Lemma ents0_good : Forall good_entry ents0.
Proof.
  repeat constructor; first [vm_compute; done|apply (bool_decide_unpack _); vm_compute; done].
Qed.

(** Streams at the first and at the second entry, with nothing read yet. *)
Definition stream0 : DIR := Dir 9 0 [] 4096 4096 4096 None 1.
Definition stream1 : DIR := Dir 9 17 [] 4096 4096 4096 None 1.

Lemma stream0_at : stream_at 9 ents0 0 stream0.
Proof. split; [split; [done|done|simpl; lia|simpl; lia]|by left]. Qed.
Lemma stream1_at : stream_at 9 ents0 1 stream1.
Proof. split; [split; [done|done|simpl; lia|simpl; lia]|by left]. Qed.

(** The entry without an inode number is delivered with its status. *)
Definition listed0 : list dirent :=
  [Dirent 100 4 (bytes_of "a.txt"); Dirent 101 5 (bytes_of "sock"); Dirent 7 3 (bytes_of "d")].

Lemma readdir_spec_witness :
  result (read_all false 4 3) (DState stream0 pstate0) = Some listed0 /\
  exists xs s', read_all false 4 3 (DState stream0 pstate0) = Ret (xs, s') /\
    map inr xs = map (delivered 9 ents0) (take (length xs) (drop 0 ents0)) /\
    stream_at 9 ents0 (0 + length xs) (dir s') /\ stopped 9 ents0 (0 + length xs) s'.
Proof.
  split; [vm_compute; reflexivity|].
  apply (readdir_spec false 9 ents0 ents0_good ltac:(lia) 0 (DState stream0 pstate0) 4 3);
    [lia|simpl; lia|exact stream0_at].
Defined.

Lemma dir_positions_witness :
  (exists r p', fdopendir 9 pstate0 = Ret (r, p') /\
    match r with Some d0 => stream_at 9 ents0 0 d0 /\ dirfd d0 = 9 | None => denied (world (penv p')) end) /\
  stream_at 9 ents0 0 (rewinddir stream1) /\ stream_at 9 ents0 1 (seekdir (telldir stream1) stream0).
Proof.
  apply (dir_positions 9 ents0 1 0 pstate0 stream1 stream0); [exact stream1_at|exact stream0_at|simpl; lia].
Defined.

(** The socket and the entry without an inode number are asked for. *)
Definition not_file (x : dirent) : bool := negb (d_type x =? 4).

Lemma scandirat_spec_witness :
  result (__wasilibc_nocwd_scandirat false (fun ds => ds) (3 * length ents0 + 2) 3 (bytes_of "d") (Some not_file)) pstate0 =
    Some (2, Some [Dirent 101 5 (bytes_of "sock"); Dirent 7 3 (bytes_of "d")]) /\
  exists res p', __wasilibc_nocwd_scandirat false (fun ds => ds) (3 * length ents0 + 2) 3 (bytes_of "d") (Some not_file) pstate0 =
    Ret (res, p') /\ scandir_result 9 ents0 (fun ds => ds) not_file res p'.
Proof.
  split; [vm_compute; reflexivity|].
  refine (proj2 (scandirat_spec false 9 ents0 ents0_good ltac:(lia) (fun ds => ds) 3 (bytes_of "d") (Some not_file)
    pstate0 9 (penv pstate0) _) eq_refl). vm_compute; reflexivity.
Defined.
