(* ===== verification/Sort.v ===== *)
(** Sorting and searching arrays: smoothsort ([musl/src/stdlib/qsort.c]) and
    binary search ([bsearch.c]) on bytes in memory. *)
From S2P Require Import Prelude.

(** The byte at each address.  Only the arrays at hand and the local array
    [tmp] of [cycle] matter; pointers are addresses. *)
Definition memory : Type := Z -> Z.
Definition bytes (m : memory) (a n : Z) : list Z := map m (seqZ a n).

(** Copying between overlapping regions is undefined. *)
Definition memcpy (dst src l : Z) : M memory unit :=
  if (l =? 0) || (dst + l <=? src) || (src + l <=? dst) then
    modify (fun m a => if (dst <=? a) && (a <? dst + l) then m (src + (a - dst)) else m a)
  else halt Undefined.

(** ** Double words

    A set of tree orders is a 64-bit word in two halves.  [__builtin_ctz] is
    undefined at 0, and so are shifts by 32 or more. *)
Section Words.
Context {S : Type}.

Definition ctz (x : Z) : Z := Z.log2 (Z.land x (- x)).
Definition ntz (x : Z) : M S Z := if x =? 0 then halt Undefined else mret (ctz x).

Definition pntz (p : Z * Z) : M S Z :=
  r ← ntz (w32 (fst p - 1));
  if negb (r =? 0) then mret r else
  r ← ntz (snd p);
  if negb (32 + r =? 32) then mret (32 + r) else mret 0.

Definition shift_ok (n : Z) : bool := (0 <? n) && (n <? 32).

Definition shl (p : Z * Z) (n : Z) : M S (Z * Z) :=
  let '(p0, p1, n) := if 32 <=? w32 n then (0, fst p, n - 32) else (fst p, snd p, n) in
  if shift_ok n then
    mret (w32 (Z.shiftl p0 n), Z.lor (w32 (Z.shiftl p1 n)) (Z.shiftr p0 (32 - n)))
  else halt Undefined.

Definition shr (p : Z * Z) (n : Z) : M S (Z * Z) :=
  let '(p0, p1, n) := if 32 <=? w32 n then (snd p, 0, n - 32) else (fst p, snd p, n) in
  if shift_ok n then
    mret (Z.lor (Z.shiftr p0 n) (w32 (Z.shiftl p1 (32 - n))), Z.shiftr p1 n)
  else halt Undefined.
End Words.

Section Sort.
(** The comparison function sees the bytes of two elements.  [tmp] is where
    the array of that name of [cycle] lies. *)
Variable cmp : list Z -> list Z -> Z.
Variable tmp : Z.
Variable width : Z.

Definition compare (a b : Z) : M memory Z := gets (fun m => cmp (bytes m a width) (bytes m b width)).

(** The loop over [i] in [cycle]: [ar] are the first [n] pointers. *)
Fixpoint copy_down (ar : list Z) (l : Z) : M memory unit :=
  match ar with
  | [] => mret tt
  | a :: ar => memcpy a (hd tmp ar) l;; copy_down ar l
  end.

Fixpoint cycle_loop (fuel : nat) (width : Z) (ar : list Z) : M memory unit :=
  if width =? 0 then mret tt else
  match fuel with
  | O => halt OutOfFuel
  | S fuel =>
      let l := if 256 <? width then 256 else width in
      memcpy tmp (hd tmp ar) l;;
      copy_down ar l;;
      cycle_loop fuel (width - l) (map (fun a => a + l) ar)
  end.

(** Pointers are stored in an array of 57 entries, the last of which [cycle]
    may need for [tmp]. *)
Definition cycle (ar : list Z) : M memory unit :=
  if (length ar <? 2)%nat then mret tt
  else if (56 <? length ar)%nat then halt Undefined
  else cycle_loop (Z.to_nat width) width ar.

Definition lp_at (lp : list Z) (i : Z) : M memory Z :=
  if i <? 0 then halt Undefined else
  match lp !! Z.to_nat i with Some x => mret x | None => halt Undefined end.

(** The loop of [sift]; the pointers it stores behind [ar[0]]. *)
Fixpoint sift_path (fuel : nat) (lp : list Z) (top head : Z) (pshift : Z) : M memory (list Z) :=
  if pshift <=? 1 then mret [] else
  match fuel with
  | O => halt OutOfFuel
  | S fuel =>
      o ← lp_at lp (pshift - 2);
      let rt := head - width in
      let lf := head - width - o in
      c1 ← compare top lf;
      c2 ← compare top rt;
      if (0 <=? c1) && (0 <=? c2) then mret [] else
      c ← compare lf rt;
      if 0 <=? c then
        path ← sift_path fuel lp top lf (pshift - 1); mret (lf :: path)
      else
        path ← sift_path fuel lp top rt (pshift - 2); mret (rt :: path)
  end.

Definition sift (lp : list Z) (head pshift : Z) : M memory unit :=
  path ← sift_path (Z.to_nat pshift) lp head head pshift;
  cycle (head :: path).

(** The test for a subtree of an untrusty tree that reaches the next root. *)
Definition reaches (lp : list Z) (head stepson pshift : Z) (trusty : bool) : M memory bool :=
  if negb trusty && (1 <? pshift) then
    o ← lp_at lp (pshift - 2);
    let rt := head - width in
    let lf := head - width - o in
    c1 ← compare rt stepson;
    if 0 <=? c1 then mret true else
    c2 ← compare lf stepson;
    mret (0 <=? c2)
  else mret false.

(** The loop of [trinkle]: the pointers, and [head], [pshift] and [trusty] at
    its end. *)
Fixpoint trinkle_path (fuel : nat) (lp : list Z) (top head : Z) (p : Z * Z) (pshift : Z) (trusty : bool) :
    M memory (list Z * Z * Z * bool) :=
  if (fst p =? 1) && (snd p =? 0) then mret ([], head, pshift, trusty) else
  match fuel with
  | O => halt OutOfFuel
  | S fuel =>
      o ← lp_at lp pshift;
      let stepson := head - o in
      c ← compare stepson top;
      if c <=? 0 then mret ([], head, pshift, trusty) else
      stop ← reaches lp head stepson pshift trusty;
      if (stop : bool) then mret ([], head, pshift, trusty) else
      trail ← pntz p;
      p ← shr p trail;
      '(path, head, pshift, trusty) ← trinkle_path fuel lp top stepson p (pshift + trail) false;
      mret (stepson :: path, head, pshift, trusty)
  end.

Definition trinkle (lp : list Z) (head : Z) (p : Z * Z) (pshift : Z) (trusty : bool) : M memory unit :=
  '(path, head', pshift, trusty) ← trinkle_path 64 lp head head p pshift trusty;
  if negb trusty then cycle (head :: path);; sift lp head' pshift else mret tt.

(** The Leonardo numbers times [width]; the array has 48 entries. *)
Fixpoint leonardo (fuel : nat) (size : Z) (lp : list Z) : M memory (list Z) :=
  match fuel with
  | O => halt OutOfFuel
  | S fuel =>
      let i := length lp in
      if (48 <=? i)%nat then halt Undefined else
      let x := w32 (w32 (lp !!! (i - 2)%nat + lp !!! (i - 1)%nat) + width) in
      if x <? size then leonardo fuel size (lp ++ [x]) else mret (lp ++ [x])
  end.

Definition low (p : Z * Z) (f : Z -> Z) : Z * Z := (f (fst p), snd p).

(** The first loop of [qsort] ends with the last element and the trees that
    cover the array. *)
Definition build_round (lp : list Z) (high head : Z) (p : Z * Z) (pshift : Z) : M memory ((Z * Z) * Z) :=
  if Z.land (fst p) 3 =? 3 then
    sift lp head pshift;;
    p ← shr p 2;
    mret (p, pshift + 2)
  else
    o ← lp_at lp (pshift - 1);
    (if w32 (high - head) <=? o then trinkle lp head p pshift false else sift lp head pshift);;
    if pshift =? 1 then p ← shl p 1; mret (p, 0)
    else p ← shl p (pshift - 1); mret (p, 1).

Fixpoint build (fuel : nat) (lp : list Z) (high head : Z) (p : Z * Z) (pshift : Z) : M memory (Z * (Z * Z) * Z) :=
  if head <? high then
    match fuel with
    | O => halt OutOfFuel
    | S fuel =>
        '(p, pshift) ← build_round lp high head p pshift;
        build fuel lp high (head + width) (low p (fun x => Z.lor x 1)) pshift
    end
  else mret (head, p, pshift).

(** The second loop. *)
Definition tear_round (lp : list Z) (head : Z) (p : Z * Z) (pshift : Z) : M memory ((Z * Z) * Z) :=
  if pshift <=? 1 then
    trail ← pntz p;
    p ← shr p trail;
    mret (p, pshift + trail)
  else
    p ← shl p 2;
    let pshift := pshift - 2 in
    p ← shr (low p (fun x => Z.lxor x 7)) 1;
    o ← lp_at lp pshift;
    trinkle lp (head - o - width) p (pshift + 1) true;;
    p ← shl p 1;
    let p := low p (fun x => Z.lor x 1) in
    trinkle lp (head - width) p pshift true;;
    mret (p, pshift).

Fixpoint tear (fuel : nat) (lp : list Z) (head : Z) (p : Z * Z) (pshift : Z) : M memory unit :=
  if (pshift =? 1) && (fst p =? 1) && (snd p =? 0) then mret tt else
  match fuel with
  | O => halt OutOfFuel
  | S fuel =>
      '(p, pshift) ← tear_round lp head p pshift;
      tear fuel lp (head - width) p pshift
  end.

Definition qsort (base nel : Z) : M memory unit :=
  let size := w32 (width * nel) in
  if size =? 0 then mret tt else
  let high := base + size - width in
  lp ← leonardo 48 size [width; width];
  '(head, p, pshift) ← build (Z.to_nat nel) lp high base (1, 0) 1;
  trinkle lp head p pshift false;;
  tear (Z.to_nat nel) lp head p pshift.

(** [bsearch.c]; [None] is [NULL]. *)
Fixpoint bsearch (fuel : nat) (key base nel : Z) : M memory (option Z) :=
  if 0 <? nel then
    match fuel with
    | O => halt OutOfFuel
    | S fuel =>
        let try := base + w32 (width * (nel / 2)) in
        sign ← compare key try;
        if sign <? 0 then bsearch fuel key base (nel / 2)
        else if 0 <? sign then bsearch fuel key (try + width) (w32 (nel - (nel / 2 + 1)))
        else mret (Some try)
    end
  else mret None.
End Sort.
