(* ===== verification/SortTrees.v ===== *)
(** Smoothsort on the elements of an array: Leonardo heaps, sifting and
    trinkling by exchanges, and why they sort. *)
From S2P Require Import Prelude.

(** ** Exchanges *)
Section Exchange.
Context {A : Type} `{!Inhabited A}.
Implicit Types (l : list A) (i j k lo hi : nat).

Definition swap i j l : list A := <[i := l !!! j]> (<[j := l !!! i]> l).

Lemma swap_length i j l : length (swap i j l) = length l.
Proof. unfold swap. by rewrite !length_insert. Qed.
Lemma swap_l i j l : (i < length l)%nat -> swap i j l !!! i = l !!! j.
Proof. intros. apply list_lookup_total_correct, list_lookup_insert_eq. by rewrite length_insert. Qed.
Lemma swap_r i j l : (i < length l)%nat -> (j < length l)%nat -> swap i j l !!! j = l !!! i.
Proof.
  intros Hi Hj. destruct (decide (i = j)) as [->|Hne]; [by apply swap_l|].
  apply list_lookup_total_correct. unfold swap. rewrite list_lookup_insert_ne by done. by apply list_lookup_insert_eq.
Qed.
Lemma swap_other i j k l : k <> i -> k <> j -> swap i j l !!! k = l !!! k.
Proof. intros. rewrite !list_lookup_total_alt. unfold swap. by rewrite !list_lookup_insert_ne by done. Qed.

Lemma swap_perm i j l : (i < length l)%nat -> (j < length l)%nat -> swap i j l ≡ₚ l.
Proof.
  intros Hi Hj. unfold swap. destruct (decide (i = j)) as [->|Hne].
  { by rewrite list_insert_insert_eq, list_insert_id by (by apply list_lookup_lookup_total_lt). }
  destruct (lookup_lt_is_Some_2 l i Hi) as [x Hx]. destruct (lookup_lt_is_Some_2 l j Hj) as [y Hy].
  rewrite (list_lookup_total_correct _ _ _ Hx), (list_lookup_total_correct _ _ _ Hy).
  apply Permutation_inj. split; [by rewrite !length_insert|].
  exists (fun k => if decide (k = i) then j else if decide (k = j) then i else k). split.
  - intros a b. repeat case_decide; congruence.
  - intros k. repeat case_decide; subst; try done.
    + by rewrite list_lookup_insert_eq by (by rewrite length_insert).
    + by rewrite list_lookup_insert_ne, list_lookup_insert_eq.
    + by rewrite !list_lookup_insert_ne by done.
Qed.

(** What exchanges of elements between [lo] and [hi] lead to. *)
Inductive shuffled lo hi l : list A -> Prop :=
  | shuffled_refl : shuffled lo hi l l
  | shuffled_swap l' i j : shuffled lo hi l l' -> (lo <= i < hi)%nat -> (lo <= j < hi)%nat -> shuffled lo hi l (swap i j l').

Lemma shuffled_trans lo hi l l1 l2 : shuffled lo hi l l1 -> shuffled lo hi l1 l2 -> shuffled lo hi l l2.
Proof. induction 2; [done|]. by apply shuffled_swap. Qed.
Lemma shuffled_first lo hi l l' i j : (lo <= i < hi)%nat -> (lo <= j < hi)%nat ->
  shuffled lo hi (swap i j l) l' -> shuffled lo hi l l'.
Proof. intros Hi Hj. apply shuffled_trans. by apply shuffled_swap; [constructor|..]. Qed.
Lemma shuffled_weaken lo hi lo' hi' l l1 : (lo' <= lo)%nat -> (hi <= hi')%nat ->
  shuffled lo hi l l1 -> shuffled lo' hi' l l1.
Proof. induction 3; [constructor|apply shuffled_swap; [done|lia|lia]]. Qed.
Lemma shuffled_length lo hi l l1 : shuffled lo hi l l1 -> length l1 = length l.
Proof. induction 1; [done|]. by rewrite swap_length. Qed.
Lemma shuffled_perm lo hi l l1 : (hi <= length l)%nat -> shuffled lo hi l l1 -> l1 ≡ₚ l.
Proof.
  intros Hhi. induction 1 as [|l1 i j Hs IH Hi Hj]; [done|]. pose proof (shuffled_length _ _ _ _ Hs).
  by rewrite swap_perm by lia.
Qed.
Lemma shuffled_outside lo hi l l1 k : shuffled lo hi l l1 -> ~ (lo <= k < hi)%nat -> l1 !!! k = l !!! k.
Proof. intros Hs Hk. induction Hs; [done|]. rewrite swap_other; [done|lia|lia]. Qed.
Lemma shuffled_from lo hi l l1 k : (hi <= length l)%nat -> shuffled lo hi l l1 -> (lo <= k < hi)%nat ->
  exists k', (lo <= k' < hi)%nat /\ l1 !!! k = l !!! k'.
Proof.
  intros Hhi Hs. revert k. induction Hs as [|l1 i j Hs IH Hi Hj]; intros k Hk; [by exists k|].
  pose proof (shuffled_length _ _ _ _ Hs). destruct (decide (k = i)) as [->|Hki].
  { rewrite swap_l by lia. by apply IH. }
  destruct (decide (k = j)) as [->|Hkj]; [rewrite swap_r by lia; by apply IH|]. rewrite swap_other by done. by apply IH.
Qed.
Lemma shuffled_to lo hi l l1 k : (hi <= length l)%nat -> shuffled lo hi l l1 -> (lo <= k < hi)%nat ->
  exists k', (lo <= k' < hi)%nat /\ l1 !!! k' = l !!! k.
Proof.
  intros Hhi Hs Hk. induction Hs as [|l1 i j Hs (k' & Hk' & <-) Hi Hj]; [by exists k|].
  pose proof (shuffled_length _ _ _ _ Hs). destruct (decide (k' = i)) as [->|Hki].
  { exists j. split; [done|]. by rewrite swap_r by lia. }
  destruct (decide (k' = j)) as [->|Hkj]; [exists i; split; [done|]; by rewrite swap_l by lia|].
  exists k'. split; [done|]. by rewrite swap_other.
Qed.

(** Moving the elements at the given places down the list of places, the
    first to the last place. *)
Fixpoint rotate (ps : list nat) l : list A :=
  match ps with
  | i :: ps => match ps with j :: _ => rotate ps (swap i j l) | [] => l end
  | [] => l
  end.
End Exchange.

(** ** Leonardo trees *)

Fixpoint leo (n : nat) : nat :=
  match n with S (S n as n1) => leo n + leo n1 + 1 | _ => 1 end.

Lemma leo_SS n : leo (S (S n)) = (leo n + leo (S n) + 1)%nat.
Proof. reflexivity. Qed.
Lemma leo_pos n : (1 <= leo n)%nat.
Proof. destruct n as [|[|n]]; simpl; lia. Qed.
Lemma leo_S n : (leo n <= leo (S n))%nat.
Proof. destruct n as [|n]; [done|]. rewrite leo_SS. lia. Qed.
Lemma leo_mono m n : (m <= n)%nat -> (leo m <= leo n)%nat.
Proof. induction 1; [done|]. pose proof (leo_S m0). lia. Qed.
Lemma leo_strict m n : (1 <= m < n)%nat -> (leo m < leo n)%nat.
Proof.
  intros Hmn. destruct n as [|[|n]]; [lia|lia|]. pose proof (leo_mono m (S n) ltac:(lia)). pose proof (leo_pos n).
  rewrite leo_SS. lia.
Qed.
#[export] Hint Resolve leo_pos : core.

Section Trees.
Context {A : Type} `{!Inhabited A} (cmp : A -> A -> Z) `{!Comparison cmp}.
Implicit Types (l : list A) (i j k lo hi o r : nat) (os : list nat).

Definition below x y : Prop := cmp x y <= 0.

Lemma below_refl x : below x x.
Proof. unfold below. by rewrite cmp_refl. Qed.
Lemma below_trans x y z : below x y -> below y z -> below x z.
Proof. apply cmp_le_trans. Qed.
Lemma not_below x y : ~ below x y -> below y x.
Proof. unfold below. pose proof (cmp_swap x y). lia. Qed.

(** The tree of order [o] whose root is at [r]: the left subtree, then the
    right one, then the root. *)
Fixpoint heap o r l : Prop :=
  match o with
  | S (S o2 as o1) =>
      below (l !!! (r - 1 - leo o2)%nat) (l !!! r) /\ below (l !!! (r - 1)%nat) (l !!! r) /\
      heap o1 (r - 1 - leo o2) l /\ heap o2 (r - 1) l
  | _ => True
  end.
Definition kids o r l : Prop :=
  match o with
  | S (S o2 as o1) => heap o1 (r - 1 - leo o2) l /\ heap o2 (r - 1) l
  | _ => True
  end.

Lemma heap_kids o r l : heap o r l -> kids o r l.
Proof. destruct o as [|[|o]]; simpl; tauto. Qed.

Lemma order_ind (P : nat -> Prop) : P O -> P 1%nat -> (forall o, P o -> P (S o) -> P (S (S o))) -> forall o, P o.
Proof.
  intros H0 H1 HS o. enough (P o /\ P (S o)) by tauto. induction o as [|o [IH1 IH2]]; [done|]. split; [done|].
  by apply HS.
Qed.

Lemma heap_ext o : forall r l l', (leo o <= S r)%nat -> (forall i, S r - leo o <= i <= r -> l' !!! i = l !!! i)%nat ->
  heap o r l -> heap o r l'.
Proof.
  induction o as [| |o IH2 IH1] using order_ind; intros r l l' Hr Heq; [done|done|].
  rewrite leo_SS in *. pose proof (leo_pos o). pose proof (leo_pos (S o)). change (heap (S (S o)) r) with
    (fun l => below (l !!! (r - 1 - leo o)%nat) (l !!! r) /\ below (l !!! (r - 1)%nat) (l !!! r) /\
      heap (S o) (r - 1 - leo o) l /\ heap o (r - 1) l).
  cbn beta. intros (H1 & H2 & H3 & H4). rewrite !Heq by lia. split_and!; [done|done| |].
  - eapply IH1; [|intros i Hi; apply Heq|exact H3]; lia.
  - eapply IH2; [|intros i Hi; apply Heq|exact H4]; lia.
Qed.

Lemma kids_ext o r l l' : (leo o <= S r)%nat -> (forall i, S r - leo o <= i < r -> l' !!! i = l !!! i)%nat ->
  kids o r l -> kids o r l'.
Proof.
  intros Hr Heq. destruct o as [|[|o]]; [done|done|]. rewrite leo_SS in *. pose proof (leo_pos o). pose proof (leo_pos (S o)).
  intros [H3 H4]. split; [apply (heap_ext (S o) _ l)|apply (heap_ext o _ l)]; try done; try lia; intros i Hi; apply Heq; lia.
Qed.

(** The root is the greatest element. *)
Lemma heap_max o : forall r l i, (leo o <= S r)%nat -> heap o r l -> (S r - leo o <= i <= r)%nat -> below (l !!! i) (l !!! r).
Proof.
  induction o as [| |o IH2 IH1] using order_ind; intros r l i Hr Hh Hi.
  1,2: simpl in Hi; replace i with r by lia; apply below_refl.
  rewrite leo_SS in *. pose proof (leo_pos o). pose proof (leo_pos (S o)). destruct Hh as (H1 & H2 & H3 & H4).
  destruct (decide (i = r)) as [->|Hne]; [apply below_refl|].
  destruct (decide (i <= r - 1 - leo o)%nat).
  - eapply below_trans; [|exact H1]. apply IH1; [lia|done|lia].
  - eapply below_trans; [|exact H2]. apply IH2; [lia|done|lia].
Qed.

(** ** Sifting *)

Fixpoint sifted o r l : list A :=
  match o with
  | S (S o2 as o1) =>
      let rt := (r - 1)%nat in
      let lf := (r - 1 - leo o2)%nat in
      if (0 <=? cmp (l !!! r) (l !!! lf)) && (0 <=? cmp (l !!! r) (l !!! rt)) then l
      else if 0 <=? cmp (l !!! lf) (l !!! rt) then sifted o1 lf (swap r lf l)
      else sifted o2 rt (swap r rt l)
  | _ => l
  end.

Lemma sifted_SS o r l : sifted (S (S o)) r l =
  let rt := (r - 1)%nat in
  let lf := (rt - leo o)%nat in
  if (0 <=? cmp (l !!! r) (l !!! lf)) && (0 <=? cmp (l !!! r) (l !!! rt)) then l
  else if 0 <=? cmp (l !!! lf) (l !!! rt) then sifted (S o) lf (swap r lf l)
  else sifted o rt (swap r rt l).
Proof. reflexivity. Qed.
Lemma heap_SS o r l : heap (S (S o)) r l =
  let rt := (r - 1)%nat in
  let lf := (rt - leo o)%nat in
  (below (l !!! lf) (l !!! r) /\ below (l !!! rt) (l !!! r) /\ heap (S o) lf l /\ heap o rt l).
Proof. reflexivity. Qed.

Lemma sifted_shuffled o : forall r l, (leo o <= S r)%nat -> shuffled (S r - leo o) (S r) l (sifted o r l).
Proof.
  induction o as [| |o IH2 IH1] using order_ind; intros r l Hr; [constructor|constructor|].
  rewrite leo_SS in *. pose proof (leo_pos o). pose proof (leo_pos (S o)). rewrite sifted_SS. cbv zeta.
  destruct (_ && _); [constructor|].
  destruct (0 <=? _); (eapply shuffled_first; [| |eapply shuffled_weaken; [| |first [apply IH1|apply IH2]]]); lia.
Qed.

(** The root [x] of a tree is exchanged with a greater child [c], below which
    anything is then exchanged. *)
Lemma sunk o c r l : (leo o <= S c)%nat -> (c < r)%nat -> (r < length l)%nat -> heap o c l -> below (l !!! r) (l !!! c) ->
  kids o c (swap r c l) /\
  forall l', shuffled (S c - leo o) (S c) (swap r c l) l' ->
    l' !!! r = l !!! c /\ (forall k, S c - leo o <= k <= c -> below (l' !!! k) (l !!! c))%nat /\
    (forall k, ~ (S c - leo o <= k <= c) -> k <> r -> l' !!! k = l !!! k)%nat.
Proof.
  intros Ho Hc Hr Hh Hb. split.
  { apply (kids_ext o c l); [done| |by apply heap_kids]. intros i Hi. apply swap_other; lia. }
  intros l' Hs. assert (Hlen : (S c <= length (swap r c l))%nat) by (rewrite swap_length; lia). split_and!.
  - rewrite (shuffled_outside _ _ _ _ _ Hs) by lia. apply swap_l. lia.
  - intros k Hk. destruct (shuffled_from _ _ _ _ k Hlen Hs ltac:(lia)) as (k' & Hk' & ->).
    destruct (decide (k' = c)) as [->|Hne]; [by rewrite swap_r by lia|]. rewrite swap_other by lia.
    apply (heap_max o c l k'); [done|done|lia].
  - intros k Hk Hne. rewrite (shuffled_outside _ _ _ _ _ Hs) by lia. apply swap_other; [done|].
    pose proof (leo_pos o). lia.
Qed.

Lemma sifted_heap o : forall r l, (leo o <= S r)%nat -> (r < length l)%nat -> kids o r l -> heap o r (sifted o r l).
Proof.
  induction o as [| |o IH2 IH1] using order_ind; intros r l Hr Hl Hk; [done|done|].
  rewrite leo_SS in *. pose proof (leo_pos o). pose proof (leo_pos (S o)). rewrite sifted_SS. cbv zeta.
  destruct Hk as [Hkl Hkr]. rewrite heap_SS. cbv zeta.
  set (rt := (r - 1)%nat) in *. set (lf := (rt - leo o)%nat) in *.
  destruct ((0 <=? cmp (l !!! r) (l !!! lf)) && (0 <=? cmp (l !!! r) (l !!! rt))) eqn:Hstop.
  { apply andb_true_iff in Hstop as [?%Z.leb_le%(cmp_ge cmp) ?%Z.leb_le%(cmp_ge cmp)]. by split_and!. }
  destruct (Z.leb_spec 0 (cmp (l !!! lf) (l !!! rt))) as [Hlr|Hlr].
  - apply (cmp_ge cmp) in Hlr.
    assert (Hb : below (l !!! r) (l !!! lf)).
    { apply andb_false_iff in Hstop as [Hlt|Hlt]; apply Z.leb_gt in Hlt; [unfold below; lia|].
      eapply below_trans; [|exact Hlr]. unfold below. lia. }
    destruct (sunk (S o) lf r l ltac:(lia) ltac:(lia) Hl Hkl Hb) as [Hkids Hrest].
    destruct (Hrest _ (sifted_shuffled (S o) lf _ ltac:(lia))) as (Hroot & Hle & Hsame).
    assert (Hlen : (lf < length (swap r lf l))%nat) by (rewrite swap_length; lia).
    specialize (IH1 lf (swap r lf l) ltac:(lia) Hlen Hkids).
    rewrite Hroot. split_and!; [apply Hle; lia| |done|].
    + rewrite (Hsame rt) by lia. done.
    + apply (heap_ext o rt l); [lia| |done]. intros i Hi. apply Hsame; lia.
  - assert (Hb : below (l !!! r) (l !!! rt)).
    { apply andb_false_iff in Hstop as [Hlt|Hlt]; apply Z.leb_gt in Hlt; [|unfold below; lia].
      eapply below_trans; [|unfold below; apply Z.lt_le_incl, Hlr]. unfold below. lia. }
    destruct (sunk o rt r l ltac:(lia) ltac:(lia) Hl Hkr Hb) as [Hkids Hrest].
    destruct (Hrest _ (sifted_shuffled o rt _ ltac:(lia))) as (Hroot & Hle & Hsame).
    assert (Hlen : (rt < length (swap r rt l))%nat) by (rewrite swap_length; lia).
    specialize (IH2 rt (swap r rt l) ltac:(lia) Hlen Hkids).
    rewrite Hroot. split_and!; [|apply Hle; lia| |done].
    + rewrite (Hsame lf) by lia. unfold below. lia.
    + apply (heap_ext (S o) lf l); [lia| |done]. intros i Hi. apply Hsame; lia.
Qed.

(** ** Rows of trees

    The trees of orders [o :: os] lie next to each other, the first with its
    root at [r], the last from the beginning of the array; their roots do not
    descend. *)
Definition cells os : nat := sum_list (map leo os).

Fixpoint forest o os r l : Prop :=
  heap o r l /\
  match os with
  | [] => True
  | o' :: os => below (l !!! (r - leo o)%nat) (l !!! r) /\ forest o' os (r - leo o) l
  end.

Lemma cells_cons o os : cells (o :: os) = (leo o + cells os)%nat.
Proof. reflexivity. Qed.
Lemma cells_tail o o' os r : cells (o :: o' :: os) = S r -> cells (o' :: os) = S (r - leo o) /\ (leo o <= r)%nat.
Proof. rewrite !cells_cons. pose proof (leo_pos o). pose proof (leo_pos o'). lia. Qed.

Lemma forest_ext os : forall o r l l', cells (o :: os) = S r -> (forall i, i <= r -> l' !!! i = l !!! i)%nat ->
  forest o os r l -> forest o os r l'.
Proof.
  induction os as [|o' os IH]; intros o r l l' Hc Heq [Hh Hrest]; cbn [forest].
  - split; [|done]. rewrite cells_cons in Hc. apply (heap_ext o r l); [lia| |done]. intros i Hi. apply Heq. lia.
  - destruct (cells_tail _ _ _ _ Hc) as [Hc' Hle]. rewrite cells_cons in Hc. split; [|split].
    + apply (heap_ext o r l); [lia| |done]. intros i Hi. apply Heq. lia.
    + rewrite !Heq by lia. apply Hrest.
    + apply (IH _ _ l); [done| |apply Hrest]. intros i Hi. apply Heq. lia.
Qed.

Lemma forest_max os : forall o r l i, cells (o :: os) = S r -> forest o os r l -> (i <= r)%nat -> below (l !!! i) (l !!! r).
Proof.
  induction os as [|o' os IH]; intros o r l i Hc [Hh Hrest] Hi.
  - rewrite cells_cons in Hc. apply (heap_max o r l i); [lia|done|]. unfold cells in Hc. simpl in Hc. lia.
  - destruct (cells_tail _ _ _ _ Hc) as [Hc' Hle]. rewrite cells_cons in Hc.
    destruct (decide (i <= r - leo o)%nat).
    + eapply below_trans; [|apply Hrest]. apply (IH o'); [done|apply Hrest|done].
    + apply (heap_max o r l i); [lia|done|lia].
Qed.

Fixpoint trinkled os o r (trusty : bool) l : list A :=
  let stop := if trusty then l else sifted o r l in
  match os with
  | [] => stop
  | o' :: os =>
      let s := (r - leo o)%nat in
      if (cmp (l !!! s) (l !!! r) <=? 0) ||
         (negb trusty && (1 <? o)%nat &&
          ((0 <=? cmp (l !!! (r - 1)%nat) (l !!! s)) || (0 <=? cmp (l !!! (r - 1 - leo (o - 2))%nat) (l !!! s))))
      then stop
      else trinkled os o' s false (swap r s l)
  end.

Lemma stopped_shuffled o os r (trusty : bool) l : cells (o :: os) = S r ->
  shuffled 0 (S r) l (if trusty then l else sifted o r l).
Proof.
  intros Hc. rewrite cells_cons in Hc. destruct trusty; [constructor|].
  eapply shuffled_weaken; [| |apply (sifted_shuffled o r l)]; lia.
Qed.

Lemma trinkled_shuffled os : forall o r trusty l, cells (o :: os) = S r -> shuffled 0 (S r) l (trinkled os o r trusty l).
Proof.
  induction os as [|o' os IH]; intros o r trusty l Hc; cbn [trinkled]; cbv zeta.
  { by apply (stopped_shuffled o []). }
  destruct (_ || _); [by apply (stopped_shuffled o (o' :: os))|]. destruct (cells_tail _ _ _ _ Hc) as [Hc' Hle].
  eapply shuffled_first; [| |eapply shuffled_weaken; [| |apply IH, Hc']]; lia.
Qed.

(** Where trinkling stops: some element of the tree is not below the next root. *)
Lemma sifted_forest o o' os r l j : cells (o :: o' :: os) = S r -> (r < length l)%nat -> kids o r l ->
  forest o' os (r - leo o) l -> (S r - leo o <= j <= r)%nat -> below (l !!! (r - leo o)%nat) (l !!! j) ->
  forest o (o' :: os) r (sifted o r l).
Proof.
  intros Hc Hr Hk Hf Hj Hb. destruct (cells_tail _ _ _ _ Hc) as [Hc' Hle].
  pose proof (leo_pos o). pose proof (sifted_shuffled o r l ltac:(lia)) as Hs.
  pose proof (sifted_heap o r l ltac:(lia) Hr Hk) as Hh. split; [done|]. split.
  - rewrite (shuffled_outside _ _ _ _ (r - leo o) Hs) by lia. eapply below_trans; [exact Hb|].
    destruct (shuffled_to _ _ _ _ j Hr Hs ltac:(lia)) as (k & Hk' & <-).
    apply (heap_max o r _ k); [lia|done|lia].
  - apply (forest_ext _ _ _ l); [done| |done]. intros i Hi. apply (shuffled_outside _ _ _ _ _ Hs). lia.
Qed.

Lemma trinkled_forest os : forall o r (trusty : bool) l, cells (o :: os) = S r -> (r < length l)%nat -> kids o r l ->
  (trusty -> heap o r l) -> match os with [] => True | o' :: os => forest o' os (r - leo o) l end ->
  forest o os r (trinkled os o r trusty l).
Proof.
  induction os as [|o' os IH]; intros o r trusty l Hc Hr Hk Ht Hf; cbn [trinkled]; cbv zeta.
  { rewrite cells_cons in Hc. split; [|done]. destruct trusty; [by apply Ht|]. apply sifted_heap; [lia|done|done]. }
  destruct (cells_tail _ _ _ _ Hc) as [Hc' Hle]. pose proof (leo_pos o). set (s := (r - leo o)%nat) in *.
  destruct ((cmp (l !!! s) (l !!! r) <=? 0) || _) eqn:Hstop.
  - apply orb_true_iff in Hstop as [Hstop|Hstop].
    + apply Z.leb_le in Hstop. destruct trusty; [split; [by apply Ht|by split]|].
      by apply (sifted_forest o o' os r l r); [..|lia|].
    + apply andb_true_iff in Hstop as [[Ht1 Ho]%andb_true_iff Hstop]. destruct trusty; [done|]. apply Nat.ltb_lt in Ho.
      destruct o as [|[|o]]; [lia..|]. rewrite leo_SS in *. pose proof (leo_pos o). pose proof (leo_pos (S o)).
      replace (S (S o) - 2)%nat with o in Hstop by lia.
      apply orb_true_iff in Hstop as [Hb%Z.leb_le%(cmp_ge cmp)|Hb%Z.leb_le%(cmp_ge cmp)].
      * apply (sifted_forest (S (S o)) o' os r l (r - 1)); rewrite ?leo_SS; try done; lia.
      * apply (sifted_forest (S (S o)) o' os r l (r - 1 - leo o)); rewrite ?leo_SS; try done; lia.
  - apply orb_false_iff in Hstop as [Hlt%Z.leb_gt Hgo].
    assert (Hs : (s < length l)%nat) by lia. pose proof (swap_length r s l) as Hlen.
    set (l1 := swap r s l). assert (Hc1 : cells (o' :: os) = S s) by done.
    assert (Hf1 : forest o' os s (trinkled os o' s false l1)).
    { apply IH; [done|by unfold l1; rewrite Hlen| |done|].
      - apply (kids_ext o' s l); [rewrite cells_cons in Hc1; lia| |by destruct os; apply heap_kids, Hf].
        intros i Hi. apply swap_other; lia.
      - destruct os as [|o2 os]; [done|]. destruct (cells_tail _ _ _ _ Hc1) as [Hc2 Hle2]. pose proof (leo_pos o').
        apply (forest_ext _ _ _ l); [done| |apply Hf]. intros i Hi. apply swap_other; lia. }
    pose proof (trinkled_shuffled os o' s false l1 Hc1) as Hsh.
    assert (Hroot : trinkled os o' s false l1 !!! r = l !!! s).
    { rewrite (shuffled_outside _ _ _ _ _ Hsh) by lia. apply swap_l. lia. }
    assert (Hlen1 : (S s <= length l1)%nat) by (unfold l1; lia).
    split; [|split; [|done]].
    + (* The old root of the next tree is above both subtrees. *)
      assert (Hkid : forall j, (S r - leo o <= j < r)%nat -> trinkled os o' s false l1 !!! j = l !!! j).
      { intros j Hj. rewrite (shuffled_outside _ _ _ _ _ Hsh) by lia. apply swap_other; lia. }
      destruct o as [|[|o]]; [done..|]. rewrite leo_SS in *. pose proof (leo_pos o). pose proof (leo_pos (S o)).
      rewrite heap_SS. cbv zeta. rewrite Hroot, !Hkid by lia.
      assert (Hbelow : below (l !!! (r - 1 - leo o)%nat) (l !!! s) /\ below (l !!! (r - 1)%nat) (l !!! s)).
      { destruct trusty.
        - specialize (Ht I). rewrite heap_SS in Ht. cbv zeta in Ht. destruct Ht as (Hb1 & Hb2 & _).
          split; (eapply below_trans; [eassumption|unfold below; pose proof (cmp_gt cmp (l !!! s) (l !!! r)); lia]).
        - cbn [negb andb] in Hgo. replace (1 <? S (S o))%nat with true in Hgo by done. cbn [andb] in Hgo.
          replace (S (S o) - 2)%nat with o in Hgo by lia.
          apply orb_false_iff in Hgo as [?%Z.leb_gt ?%Z.leb_gt]. unfold below. split; lia. }
      split_and!; [apply Hbelow|apply Hbelow| |].
      * apply (heap_ext _ _ l); [lia| |apply Hk]. intros i Hi. apply Hkid. lia.
      * apply (heap_ext _ _ l); [lia| |apply Hk]. intros i Hi. apply Hkid. lia.
    + fold s. rewrite Hroot.
      destruct (shuffled_from _ _ _ _ s Hlen1 Hsh ltac:(lia)) as (k & Hk1 & ->).
      destruct (decide (k = s)) as [->|Hne].
      * unfold l1. rewrite swap_r by lia. unfold below. pose proof (cmp_gt cmp (l !!! s) (l !!! r)). lia.
      * unfold l1. rewrite swap_other by lia. apply (forest_max os o' s l k); [done|done|lia].
Qed.
End Trees.

(** * Smoothsort on the elements of an array: the rows of trees that the first
    loop of [qsort] builds and the second takes apart. *)

(** ** Orders in a row *)

(** Orders of trees that will not be merged with each other. *)
Fixpoint wide (o : nat) (os : list nat) : Prop :=
  match os with [] => True | o' :: os => (o + 2 <= o')%nat /\ wide o' os end.
(** Orders while the row is built: only the first two may be neighbours. *)
Definition stretch (o : nat) (os : list nat) : Prop :=
  match os with
  | [] => o <> O
  | o' :: os => (o < o')%nat /\ (o = O -> o' = 1%nat) /\ wide o' os
  end.
(** Orders while it is taken apart. *)
Fixpoint rising (o : nat) (os : list nat) : Prop :=
  match os with
  | [] => o <> O
  | o' :: os => (o < o')%nat /\ (o = O -> o' = 1%nat) /\ rising o' os
  end.

Lemma wide_rising o os : o <> O -> wide o os -> rising o os.
Proof.
  revert o. induction os as [|o' os IH]; intros o Ho Hw; [done|]. destruct Hw as [Hw1 Hw2].
  split; [lia|]. split; [lia|]. apply IH; [lia|done].
Qed.
Lemma stretch_rising o os : stretch o os -> rising o os.
Proof.
  destruct os as [|o' os]; [done|]. intros (? & ? & ?). split; [done|]. split; [done|]. apply wide_rising; [lia|done].
Qed.

Section Rows.
Context {A : Type} `{!Inhabited A} (cmp : A -> A -> Z) `{!Comparison cmp}.
Implicit Types (l : list A) (i j k h o r : nat) (os : list nat).
Abbreviation below := (below cmp).
Abbreviation heap := (heap cmp).
Abbreviation kids := (kids cmp).
Abbreviation forest := (forest cmp).
Abbreviation sifted := (sifted cmp).
Abbreviation trinkled := (trinkled cmp).

(** ** Building

    [h] is the last place of the array.  A tree whose elements to come would
    not complete the one that takes it in stays; the roots of those do not
    descend. *)
Fixpoint built h o os r l : Prop :=
  heap o r l /\
  match os with
  | [] => True
  | o' :: os => (h - r <= leo (o - 1) -> below (l !!! (r - leo o)) (l !!! r))%nat /\ built h o' os (r - leo o) l
  end.

Lemma built_inv h o os r l : built h o os r l -> heap o r l /\
  match os with [] => True | o' :: os => built h o' os (r - leo o) l end.
Proof. destruct os as [|o' os]; simpl; tauto. Qed.
Lemma forest_inv o os r l : forest o os r l -> heap o r l /\
  match os with [] => True | o' :: os => forest o' os (r - leo o) l end.
Proof. destruct os as [|o' os]; simpl; tauto. Qed.

Lemma forest_built h os : forall o r l, forest o os r l -> built h o os r l.
Proof.
  induction os as [|o' os IH]; intros o r l; [done|]. intros (Hh & Hb & Hf). split; [done|]. split; [done|]. by apply IH.
Qed.

Lemma built_forest h os : forall o r l, cells (o :: os) = S r -> (r <= h)%nat -> o <> O -> wide o os ->
  built h o os r l -> (h - r <= leo (o - 1))%nat -> forest o os r l.
Proof.
  induction os as [|o' os IH]; intros o r l Hc Hr Ho Hw Hb Hfin; [done|]. destruct Hb as (Hh & Hbelow & Hb).
  destruct (cells_tail _ _ _ _ Hc) as [Hc' Hle]. destruct Hw as [Hgap Hw]. split; [done|]. split; [by apply Hbelow|].
  apply IH; [done|lia|lia|done|done|]. pose proof (leo_mono (S o) (o' - 1) ltac:(lia)).
  destruct o as [|o]; [done|]. rewrite leo_SS in *. replace (S o - 1)%nat with o in Hfin by lia. lia.
Qed.

Lemma built_ext h os : forall o r l l', cells (o :: os) = S r -> (forall i, i <= r -> l' !!! i = l !!! i)%nat ->
  built h o os r l -> built h o os r l'.
Proof.
  induction os as [|o' os IH]; intros o r l l' Hc Heq [Hh Hrest]; cbn [built].
  - split; [|done]. rewrite cells_cons in Hc. apply (heap_ext cmp o r l); [lia| |done]. intros i Hi. apply Heq. lia.
  - destruct (cells_tail _ _ _ _ Hc) as [Hc' Hle]. rewrite cells_cons in Hc. split; [|split].
    + apply (heap_ext cmp o r l); [lia| |done]. intros i Hi. apply Heq. lia.
    + rewrite !Heq by lia. apply Hrest.
    + apply (IH _ _ l); [done| |apply Hrest]. intros i Hi. apply Heq. lia.
Qed.

(** The state of the first loop. *)
Record building h o os r l : Prop := {
  bd_cells : cells (o :: os) = S r;
  bd_orders : stretch o os;
  bd_last : (r <= h < length l)%nat;
  bd_kids : kids o r l;
  bd_rest : match os with [] => True | o' :: os => built h o' os (r - leo o) l end;
}.

Lemma rest_ext h o os r l l' : cells (o :: os) = S r -> (forall i, i <= r - leo o -> l' !!! i = l !!! i)%nat ->
  match os with [] => True | o' :: os => built h o' os (r - leo o) l end ->
  match os with [] => True | o' :: os => built h o' os (r - leo o) l' end.
Proof.
  intros Hc Heq Hb. destruct os as [|o' os]; [done|]. destruct (cells_tail _ _ _ _ Hc) as [Hc' Hle].
  by apply (built_ext _ _ _ _ l).
Qed.

Lemma sifted_same o r l i : (leo o <= S r)%nat -> ~ (S r - leo o <= i <= r)%nat -> sifted o r l !!! i = l !!! i.
Proof. intros Ho Hi. apply (shuffled_outside _ _ _ _ _ (sifted_shuffled cmp o r l Ho)). lia. Qed.
Lemma sifted_length o r l : (leo o <= S r)%nat -> length (sifted o r l) = length l.
Proof. intros Ho. apply (shuffled_length _ _ _ _ (sifted_shuffled cmp o r l Ho)). Qed.

Lemma building_merge h o os r l : building h o (S o :: os) r l -> (r < h)%nat ->
  building h (S (S o)) os (S r) (sifted o r l).
Proof.
  intros [Hc Ho Hr Hk Hb] Hlt. pose proof (leo_pos o). pose proof (leo_pos (S o)).
  destruct (cells_tail _ _ _ _ Hc) as [Hc' Hle]. pose proof Hc as Hsum. rewrite !cells_cons in Hsum.
  pose proof (sifted_same o r l) as Hsame. apply built_inv in Hb as [Hh Hb].
  assert (Hlen : length (sifted o r l) = length l) by (apply sifted_length; lia).
  split; [rewrite cells_cons, leo_SS; lia| |lia| |].
  - destruct os as [|o3 os]; [done|]. destruct Ho as (_ & _ & Hgap & Hw). simpl. split; [lia|]. split; [lia|done].
  - cbn [SortTrees.kids]. replace (S r - 1)%nat with r by lia. split.
    + apply (heap_ext cmp _ _ l); [lia| |exact Hh]. intros i Hi. apply Hsame; lia.
    + apply sifted_heap; [done|lia|lia|done].
  - replace (S r - leo (S (S o)))%nat with (r - leo o - leo (S o))%nat by (rewrite leo_SS; lia).
    apply (rest_ext h (S o) os (r - leo o) l); [done| |done].
    intros i Hi. apply Hsame; lia.
Qed.

(** The tree at hand stays or not. *)
Definition settle h os o r l : list A :=
  if (h - r <=? leo (o - 1))%nat then trinkled os o r false l else sifted o r l.

Lemma settle_shuffled h os o r l : cells (o :: os) = S r -> shuffled 0 (S r) l (settle h os o r l).
Proof.
  intros Hc. unfold settle. destruct (_ <=? _)%nat; [by apply trinkled_shuffled|]. rewrite cells_cons in Hc.
  eapply shuffled_weaken; [| |apply sifted_shuffled]; lia.
Qed.

Lemma building_single h o os r l : building h o os r l -> (r < h)%nat -> hd O os <> S o ->
  building h (if (o =? 1)%nat then 0 else 1)%nat (o :: os) (S r) (settle h os o r l).
Proof.
  intros [Hc Ho Hr Hk Hb] Hlt Hadj. pose proof (leo_pos o).
  assert (Ho0 : o <> O). { intros ->. destruct os as [|o' os]; [done|]. destruct Ho as (_ & Ho & _). rewrite Ho in Hadj; done. }
  assert (Hw : wide o os). { destruct os as [|o' os]; [done|]. simpl in Hadj. destruct Ho as (? & _ & ?). split; [lia|done]. }
  pose proof (settle_shuffled h os o r l Hc) as Hs. apply shuffled_length in Hs as Hlen.
  assert (Hsmall : leo (if (o =? 1)%nat then 0 else 1)%nat = 1%nat) by (by destruct (o =? 1)%nat).
  split; [rewrite cells_cons, Hsmall, Hc; lia| |lia|by destruct (o =? 1)%nat|].
  { destruct (Nat.eqb_spec o 1); simpl; (split; [lia|]); split; try done; lia. }
  rewrite Hsmall. replace (S r - 1)%nat with r by lia. unfold settle in *.
  destruct (Nat.leb_spec (h - r) (leo (o - 1))) as [Hfin|Hnot].
  - apply forest_built, trinkled_forest; [done|done|lia|done|done|].
    destruct os as [|o' os]; [done|]. destruct (cells_tail _ _ _ _ Hc) as [Hc' Hle]. destruct Hw as [Hgap Hw].
    apply (built_forest h); [done|lia|lia|done|done|]. pose proof (leo_mono (S o) (o' - 1) ltac:(lia)).
    destruct o as [|o]; [done|]. rewrite leo_SS in *. replace (S o - 1)%nat with o in Hfin by lia. lia.
  - assert (Hh : heap o r (sifted o r l)) by (apply sifted_heap; [done|rewrite cells_cons in Hc; lia|lia|done]).
    destruct os as [|o' os]; [done|]. destruct (cells_tail _ _ _ _ Hc) as [Hc' Hle].
    split; [done|]. split; [lia|]. apply (rest_ext h o (o' :: os) r l); [done| |done].
    intros i Hi. apply sifted_same; [lia|]. lia.
Qed.

Lemma building_last o os r l : building r o os r l -> forest o os r (trinkled os o r false l).
Proof.
  intros [Hc Ho Hr Hk Hb]. apply trinkled_forest; [done|done|lia|done|done|].
  destruct os as [|o' os]; [done|]. destruct (cells_tail _ _ _ _ Hc) as [Hc' Hle]. destruct Ho as (Hlt & _ & Hw).
  apply (built_forest r); [done|lia|lia|done|done|]. pose proof (leo_mono o (o' - 1) ltac:(lia)). lia.
Qed.

(** ** Taking apart *)

(** From [k] on everything is in its place. *)
Definition above k l : Prop := forall i j, (i <= j)%nat -> (k <= j < length l)%nat -> below (l !!! i) (l !!! j).

Lemma above_shuffled k l l' : (k <= length l)%nat -> above k l -> shuffled 0 k l l' -> above k l'.
Proof.
  intros Hk Ha Hs i j Hij Hj. rewrite (shuffled_length _ _ _ _ Hs) in Hj.
  rewrite (shuffled_outside _ _ _ _ j Hs) by lia. destruct (decide (i < k)%nat).
  - destruct (shuffled_from _ _ _ _ i Hk Hs ltac:(lia)) as (i' & Hi' & ->). apply Ha; lia.
  - rewrite (shuffled_outside _ _ _ _ i Hs) by lia. apply Ha; lia.
Qed.

Lemma above_root o os r l : cells (o :: os) = S r -> forest o os r l -> above (S r) l -> above r l.
Proof.
  intros Hc Hf Ha i j Hij Hj. destruct (decide (j = r)) as [->|]; [|apply Ha; lia]. by apply (forest_max cmp os o).
Qed.

(** The state of the second loop. *)
Record tearing o os r l : Prop := {
  tg_cells : cells (o :: os) = S r;
  tg_orders : rising o os;
  tg_last : (r < length l)%nat;
  tg_forest : forest o os r l;
  tg_above : above (S r) l;
}.

Lemma tearing_start o os r l : building r o os r l -> length l = S r -> tearing o os r (trinkled os o r false l).
Proof.
  intros Hb Hl. pose proof (building_last _ _ _ _ Hb) as Hf. destruct Hb as [Hc Ho Hr Hk Hb].
  pose proof (shuffled_length _ _ _ _ (trinkled_shuffled cmp os o r false l Hc)) as Hlen.
  split; [done|by apply stretch_rising|lia|done|]. intros i j Hij Hj. lia.
Qed.

Lemma tearing_remove o o' os r l : tearing o (o' :: os) r l -> (o <= 1)%nat -> tearing o' os (r - 1) l /\ (1 <= r)%nat.
Proof.
  intros [Hc Ho Hr Hf Ha] Hsmall. assert (Hleo : leo o = 1%nat) by (by destruct o as [|[|o]]; [..|lia]).
  destruct (cells_tail _ _ _ _ Hc) as [Hc' Hle]. rewrite Hleo in *. split; [|lia].
  split; [done|apply Ho|lia| |].
  - destruct Hf as (_ & _ & Hf). by rewrite Hleo in Hf.
  - replace (S (r - 1)) with r by lia. by apply (above_root o (o' :: os)).
Qed.

Definition split1 o os r l : list A := trinkled os (S o) (r - 1 - leo o) true l.
Definition split2 o os r l : list A := trinkled (S o :: os) o (r - 1) true l.

Lemma split_cells o os r : cells (S (S o) :: os) = S r -> cells (S o :: os) = S (r - 1 - leo o) /\
  cells (o :: S o :: os) = S (r - 1) /\ (leo o + 1 <= r)%nat.
Proof. rewrite !cells_cons, leo_SS. pose proof (leo_pos (S o)). lia. Qed.

Lemma tearing_split o os r l : tearing (S (S o)) os r l ->
  tearing o (S o :: os) (r - 1) (split2 o os r (split1 o os r l)).
Proof.
  intros [Hc Ho Hr Hf Ha]. destruct (split_cells _ _ _ Hc) as (Hc1 & Hc2 & Hle). pose proof (leo_pos o). pose proof (leo_pos (S o)).
  pose proof Hc as Hsum. rewrite cells_cons, leo_SS in Hsum.
  pose proof (trinkled_shuffled cmp os (S o) (r - 1 - leo o) true l Hc1) as Hs1. fold (split1 o os r l) in Hs1.
  pose proof (trinkled_shuffled cmp (S o :: os) o (r - 1) true (split1 o os r l) Hc2) as Hs2.
  fold (split2 o os r (split1 o os r l)) in Hs2. pose proof (above_root _ _ _ _ Hc Hf Ha) as Har.
  pose proof (forest_inv _ _ _ _ Hf) as [Hh Hrest]. rewrite heap_SS in Hh. destruct Hh as (_ & _ & Hhl & Hhr). cbv zeta in Hhl, Hhr.
  apply shuffled_length in Hs1 as Hl1. apply shuffled_length in Hs2 as Hl2.
  assert (Hf1 : forest (S o) os (r - 1 - leo o) (split1 o os r l)).
  { apply trinkled_forest; [done|done|lia|by apply heap_kids|done|]. destruct os as [|o' os]; [done|].
    replace (r - 1 - leo o - leo (S o))%nat with (r - leo (S (S o)))%nat by (rewrite leo_SS; lia). apply Hrest. }
  assert (Hf2 : forest o (S o :: os) (r - 1) (split2 o os r (split1 o os r l))).
  { assert (Hhr1 : heap o (r - 1) (split1 o os r l)).
    { apply (heap_ext cmp _ _ l); [lia| |done]. intros i Hi. apply (shuffled_outside _ _ _ _ _ Hs1). lia. }
    apply trinkled_forest; [done|done|lia|by apply heap_kids|done|]. by replace (r - 1 - leo o)%nat with (r - 1 - leo o)%nat in Hf1. }
  split; [done| |lia|done|].
  - split; [lia|]. split; [by intros ->|]. destruct os as [|o' os]; [done|]. destruct Ho as (? & _ & ?). split; [lia|]. by split.
  - replace (S (r - 1)) with r by lia. apply (above_shuffled r (split1 o os r l)); [lia| |].
    + apply (above_shuffled r l); [lia|done|]. eapply shuffled_weaken; [| |exact Hs1]; lia.
    + eapply shuffled_weaken; [| |exact Hs2]; lia.
Qed.

Lemma tearing_done r l : tearing 1 [] r l -> r = O /\ forall i j, (i <= j < length l)%nat -> below (l !!! i) (l !!! j).
Proof.
  intros [Hc Ho Hr Hf Ha]. simpl in Hc. assert (r = O) as -> by (unfold cells in Hc; simpl in Hc; lia).
  split; [done|]. intros i j Hij. apply (above_root 1 [] 0 l Hc Hf Ha); lia.
Qed.
End Rows.
