(* ===== verification/SortWords.v ===== *)
(** The double words of [qsort.c] as sets of tree orders. *)
From S2P Require Import Prelude.
From S2P Require Import Sort.
From S2P Require Import SortTrees.

(** The word [x] in two halves. *)
Definition rep (p : Z * Z) (x : Z) : Prop :=
  0 <= fst p < 2 ^ 32 /\ 0 <= snd p < 2 ^ 32 /\ fst p + 2 ^ 32 * snd p = x.

(** The orders relative to the first of them, as bits. *)
Fixpoint code (o : nat) (os : list nat) : Z :=
  match os with [] => 1 | o' :: os => 1 + 2 ^ (Z.of_nat o' - Z.of_nat o) * code o' os end.

Lemma pow2_pos n : 0 < 2 ^ Z.of_nat n.
Proof. apply Z.pow_pos_nonneg; lia. Qed.

(** [2 ^ n] as a factor and [2 ^ 32] as a product of powers. *)
Lemma pow2_split n : 0 <= n <= 32 -> 2 ^ 32 = 2 ^ n * 2 ^ (32 - n) /\ 0 < 2 ^ n /\ 0 < 2 ^ (32 - n).
Proof. intros. rewrite <- Z.pow_add_r by lia. replace (n + (32 - n)) with 32 by lia. split_and!; [done|apply Z.pow_pos_nonneg; lia..]. Qed.

Lemma halves_shl p0 p1 a b : 0 < a -> 0 < b -> a * b = 2 ^ 32 -> 0 <= p0 < 2 ^ 32 -> 0 <= p1 -> (p0 + 2 ^ 32 * p1) * a < 2 ^ 64 ->
  p0 * a mod 2 ^ 32 + 2 ^ 32 * (p1 * a + p0 / b) = (p0 + 2 ^ 32 * p1) * a /\ 0 <= p1 * a + p0 / b < 2 ^ 32 /\ p0 / b < a /\ 0 <= p0 / b /\
  p1 * a < 2 ^ 32.
Proof.
  intros Ha Hb Hab Hp0 Hp1 Hbig. rewrite <- Hab in *.
  assert (Hmod : p0 * a mod (a * b) = a * (p0 mod b)) by (rewrite (Z.mul_comm p0), Z.mul_mod_distr_l; lia).
  rewrite Hmod. pose proof (Z.div_mod p0 b ltac:(lia)) as Hdm. pose proof (Z.mod_pos_bound p0 b Hb).
  assert (p0 / b < a) by (apply Z.div_lt_upper_bound; lia). assert (0 <= p0 / b) by (apply Z.div_pos; lia).
  replace (2 ^ 64) with (2 ^ 32 * 2 ^ 32) in Hbig by reflexivity. rewrite <- Hab in Hbig.
  assert (p1 * a < a * b) by nia. assert (p1 < b) by nia.
  split_and!; nia.
Qed.

Section Words.
Context {S : Type}.
Implicit Types (s : S) (p : Z * Z) (x n : Z) (o : nat) (os : list nat).

Lemma shl_Ret p x n s : rep p x -> 0 < n < 32 -> x * 2 ^ n < 2 ^ 64 -> exists p', shl p n s = Ret (p', s) /\ rep p' (x * 2 ^ n).
Proof.
  intros (Hp0 & Hp1 & <-) Hn Hbig. destruct (pow2_split n ltac:(lia)) as (Hsplit & Ha & Hb).
  destruct (halves_shl (fst p) (snd p) (2 ^ n) (2 ^ (32 - n)) Ha Hb ltac:(lia) Hp0 ltac:(lia) Hbig) as (Heq & Hrange & Hdiv & Hdiv0 & Hmul).
  unfold shl. rewrite w32_small by lia. replace (32 <=? n) with false by lia.
  unfold shift_ok. replace ((0 <? n) && (n <? 32)) with true by lia. eexists. split; [reflexivity|].
  rewrite !Z.shiftl_mul_pow2, Z.shiftr_div_pow2 by lia. rewrite (w32_small (snd p * 2 ^ n)) by lia.
  rewrite lor_add by lia. unfold rep. cbn [fst snd]. split; [apply w32_range|]. split; [lia|]. exact Heq.
Qed.

Lemma shr_Ret p x n s : rep p x -> 0 < n < 32 -> exists p', shr p n s = Ret (p', s) /\ rep p' (x / 2 ^ n).
Proof.
  intros (Hp0 & Hp1 & <-) Hn. destruct (pow2_split n ltac:(lia)) as (Hsplit & Ha & Hb).
  unfold shr. rewrite w32_small by lia. replace (32 <=? n) with false by lia.
  unfold shift_ok. replace ((0 <? n) && (n <? 32)) with true by lia. eexists. split; [reflexivity|].
  rewrite !Z.shiftl_mul_pow2, !Z.shiftr_div_pow2 by lia. unfold rep, w32. cbn [fst snd].
  set (a := 2 ^ n) in *. set (b := 2 ^ (32 - n)) in *. rewrite Hsplit.
  rewrite Z.mul_mod_distr_r by lia.
  assert (Hlow : 0 <= fst p / a < b) by (split; [apply Z.div_pos; lia|apply Z.div_lt_upper_bound; lia]).
  assert (Hlor : Z.lor (fst p / a) (snd p mod a * b) = snd p mod a * b + fst p / a).
  { rewrite Z.lor_comm. unfold b. apply lor_add; [lia|exact Hlow]. }
  rewrite Hlor.
  pose proof (Z.mod_pos_bound (snd p) a Ha). pose proof (Z.div_mod (snd p) a ltac:(lia)).
  assert (0 <= snd p / a) by (apply Z.div_pos; lia).
  split; [nia|]. split; [nia|]. replace (fst p + a * b * snd p) with (fst p + (b * snd p) * a) by lia.
  rewrite Z.div_add by lia. nia.
Qed.

Lemma odd_land y : Z.odd y = true -> Z.land y (- y) = 1.
Proof.
  intros Hy. rewrite (Z.div_mod y 2) by lia. rewrite Zmod_odd, Hy. set (z := y / 2).
  replace (- (2 * z + 1)) with (2 * Z.lnot z + 1) by (unfold Z.lnot; lia).
  apply Z.bits_inj'. intros n Hn. rewrite Z.land_spec. destruct (decide (n = 0)) as [->|Hn0].
  - by rewrite !Z.testbit_odd_0.
  - replace n with (Z.succ (n - 1)) by lia. rewrite !Z.testbit_odd_succ by lia. rewrite Z.lnot_spec by lia.
    change 1 with (2 * 0 + 1). rewrite Z.testbit_odd_succ, Z.bits_0 by lia. apply andb_negb_r.
Qed.

Lemma ctz_spec d y : 0 <= d -> Z.odd y = true -> ctz (2 ^ d * y) = d.
Proof.
  intros Hd Hy. unfold ctz. replace (- (2 ^ d * y)) with (2 ^ d * - y) by lia.
  rewrite !(Z.mul_comm (2 ^ d)), <- !Z.shiftl_mul_pow2, <- Z.shiftl_land by lia. rewrite odd_land by done.
  rewrite Z.shiftl_1_l. by apply Z.log2_pow2.
Qed.

(** The distance to the next tree, if it is less than 32. *)
Lemma pntz_Ret p d y s : rep p (1 + 2 ^ d * y) -> 0 < d < 32 -> Z.odd y = true -> 0 <= y -> pntz p s = Ret (d, s).
Proof.
  intros (Hp0 & Hp1 & Hx) Hd Hy Hy0. unfold pntz. destruct (pow2_split d ltac:(lia)) as (Hsplit & Ha & Hb).
  assert (Heven : Z.odd (2 ^ d) = false) by (replace d with (1 + (d - 1)) by lia; rewrite Z.pow_add_r by lia; by rewrite Z.odd_mul).
  assert (Hodd : Z.odd (fst p) = true).
  { replace (fst p) with (1 + 2 ^ d * y + 2 * (- 2 ^ 31 * snd p)) by lia. rewrite Z.odd_add_mul_2, Z.odd_add, Z.odd_mul, Heven. done. }
  assert (Hp0' : fst p <> 0) by (intros Hz; by rewrite Hz in Hodd).
  assert (Heq : w32 (fst p - 1) = 2 ^ d * (y mod 2 ^ (32 - d))).
  { rewrite w32_small by lia. replace (fst p - 1) with ((2 ^ d * y) mod 2 ^ 32).
    - rewrite Hsplit. apply Z.mul_mod_distr_l; lia.
    - replace (2 ^ d * y) with (fst p - 1 + snd p * 2 ^ 32) by lia. rewrite Z.mod_add by lia. apply Z.mod_small. lia. }
  assert (Hyodd : Z.odd (y mod 2 ^ (32 - d)) = true).
  { rewrite <- Hy. rewrite (Z.div_mod y (2 ^ (32 - d))) at 2 by lia. replace (32 - d) with (1 + (31 - d)) at 2 by lia.
    rewrite Z.pow_add_r by lia. rewrite Z.add_comm, <- Z.mul_assoc. change (2 ^ 1) with 2. by rewrite Z.odd_add_mul_2. }
  unfold ntz. rewrite Heq. destruct (Z.eqb_spec (2 ^ d * (y mod 2 ^ (32 - d))) 0) as [Hz|_].
  { assert (Hz' : y mod 2 ^ (32 - d) = 0) by nia. by rewrite Hz' in Hyodd. }
  mnext. rewrite ctz_spec by (done || lia). by replace (d =? 0) with false by lia.
Qed.
End Words.

(** ** Codes *)

Lemma code_odd o os : Z.odd (code o os) = true \/ exists o' os', os = o' :: os' /\ (o' <= o)%nat.
Proof.
  destruct os as [|o' os]; [by left|]. destruct (decide (o' <= o)%nat); [right; eauto|]. left. cbn [code].
  replace (Z.of_nat o' - Z.of_nat o) with (1 + (Z.of_nat o' - Z.of_nat o - 1)) by lia.
  rewrite Z.pow_add_r, <- Z.mul_assoc by lia. change (2 ^ 1) with 2. by rewrite Z.odd_add_mul_2.
Qed.
Lemma rising_odd o os : rising o os -> Z.odd (code o os) = true.
Proof. intros Hr. destruct (code_odd o os) as [|(o' & os' & -> & ?)]; [done|]. destruct Hr. lia. Qed.

Lemma code_range o os b : rising o os -> Forall (fun x => x <= b)%nat (o :: os) ->
  0 < code o os < 2 ^ (Z.of_nat b + 1 - Z.of_nat o).
Proof.
  revert o. induction os as [|o' os IH]; intros o Hr Hb; cbn [code].
  - apply Forall_inv in Hb. split; [lia|]. change 1 with (2 ^ 0) at 1. apply Z.pow_lt_mono_r; lia.
  - apply Forall_cons in Hb as [Ho Hb]. pose proof Hb as Ho'%Forall_inv. destruct Hr as (Hlt & _ & Hr).
    specialize (IH o' Hr Hb). replace (Z.of_nat b + 1 - Z.of_nat o) with ((Z.of_nat o' - Z.of_nat o) + (Z.of_nat b + 1 - Z.of_nat o')) by lia.
    rewrite Z.pow_add_r by lia. set (d := Z.of_nat o' - Z.of_nat o) in *. set (c := code o' os) in *.
    assert (0 < 2 ^ d) by (apply Z.pow_pos_nonneg; lia). assert (2 ^ 1 <= 2 ^ d) by (apply Z.pow_le_mono_r; lia). nia.
Qed.

(** Whether the first two trees are neighbours. *)
Lemma code_mod_4 o os : rising o os -> (code o os mod 4 =? 3) = bool_decide (hd O os = S o).
Proof.
  intros Hr. destruct os as [|o' os]; [done|]. destruct Hr as (Hlt & _ & Hr). pose proof (rising_odd _ _ Hr) as Hodd.
  cbn [code hd]. set (c := code o' os) in *. rewrite (Z.div_mod c 2), Zmod_odd, Hodd by lia. set (z := c / 2).
  case_bool_decide as Heq.
  - subst o'. replace (Z.of_nat (S o) - Z.of_nat o) with 1 by lia. apply Z.eqb_eq.
    replace (1 + 2 ^ 1 * (2 * z + 1)) with (3 + z * 4) by lia. rewrite Z.mod_add by lia. done.
  - replace (Z.of_nat o' - Z.of_nat o) with (2 + (Z.of_nat o' - Z.of_nat o - 2)) by lia. rewrite Z.pow_add_r by lia.
    set (e := 2 ^ (_ - _ - 2)). apply Z.eqb_neq. replace (1 + 2 ^ 2 * e * (2 * z + 1)) with (1 + (e * (2 * z + 1)) * 4) by lia.
    by rewrite Z_mod_plus_full.
Qed.

Lemma code_cons o o' os : code o (o' :: os) = 1 + 2 ^ (Z.of_nat o' - Z.of_nat o) * code o' os.
Proof. reflexivity. Qed.

(** Taking the orders relative to another one. *)
Lemma code_rest o o2 os : (o <= o2)%nat -> match os with [] => True | o' :: _ => (o2 <= o')%nat end ->
  code o os = 1 + 2 ^ (Z.of_nat o2 - Z.of_nat o) * (code o2 os - 1).
Proof.
  intros H1 H2. destruct os as [|o' os]; [simpl; lia|]. rewrite !code_cons.
  replace (Z.of_nat o' - Z.of_nat o) with ((Z.of_nat o2 - Z.of_nat o) + (Z.of_nat o' - Z.of_nat o2)) by lia.
  rewrite Z.pow_add_r by lia. lia.
Qed.

Lemma rep_one p o os : rising o os -> rep p (code o os) -> (fst p =? 1) && (snd p =? 0) = bool_decide (os = []).
Proof.
  intros Hr (Hp0 & Hp1 & Hx). case_bool_decide as Hos.
  - subst os. simpl in Hx. lia.
  - destruct os as [|o' os]; [done|]. pose proof Hr as (Hlt & _ & Hr'). rewrite code_cons in Hx.
    assert (2 ^ 1 <= 2 ^ (Z.of_nat o' - Z.of_nat o)) by (apply Z.pow_le_mono_r; lia).
    assert (0 < code o' os). { destruct (code_range o' os (list_max (o' :: os)) Hr'); [|done]. apply list_max_le. done. }
    nia.
Qed.

Lemma land_shifted k a b : 0 <= k -> 0 <= b < 2 ^ k -> Z.land (a * 2 ^ k) b = 0.
Proof.
  intros Hk Hb. apply Z.bits_inj'. intros n Hn. rewrite Z.land_spec, Z.bits_0. destruct (Z.lt_ge_cases n k).
  - by rewrite Z.mul_pow2_bits_low.
  - rewrite <- (Z.mod_small b (2 ^ k)) by done. by rewrite Z.mod_pow2_bits_high, andb_false_r by lia.
Qed.

Lemma low_or p x : rep p (2 * x) -> rep (low p (fun y => Z.lor y 1)) (1 + 2 * x).
Proof.
  intros (Hp0 & Hp1 & Hx). assert (Heven : fst p = (fst p / 2) * 2 ^ 1).
  { pose proof (Z.div_mod (fst p) 2 ltac:(lia)). assert (fst p mod 2 = 0); [|lia].
    replace (fst p) with (0 + (x - 2 ^ 31 * snd p) * 2) by lia. by rewrite Z.mod_add by lia. }
  unfold rep, low. cbn [fst snd]. rewrite Heven, lor_add by lia. lia.
Qed.

Lemma low_xor p x : rep p (8 * x + 4) -> rep (low p (fun y => Z.lxor y 7)) (8 * x + 3).
Proof.
  intros (Hp0 & Hp1 & Hx). set (q := fst p / 8). assert (Hq : fst p = q * 2 ^ 3 + 4).
  { pose proof (Z.div_mod (fst p) 8 ltac:(lia)). assert (fst p mod 8 = 4); [|lia].
    replace (fst p) with (4 + (x - 2 ^ 29 * snd p) * 8) by lia. by rewrite Z.mod_add by lia. }
  unfold rep, low. cbn [fst snd]. assert (Hxor : Z.lxor (fst p) 7 = q * 2 ^ 3 + 3).
  { rewrite Hq, (Z.add_nocarry_lxor _ 4), Z.lxor_assoc by (apply land_shifted; lia). change (Z.lxor 4 7) with 3.
    symmetry. apply Z.add_nocarry_lxor, land_shifted; lia. }
  rewrite Hxor. lia.
Qed.

Lemma rising_length o os b : rising o os -> Forall (fun x => x <= b)%nat (o :: os) -> (o + length os <= b)%nat.
Proof.
  revert o. induction os as [|o' os IH]; intros o Hr Hb; apply Forall_cons in Hb as [Ho Hb]; [simpl; lia|].
  destruct Hr as (Hlt & _ & Hr). specialize (IH o' Hr Hb). simpl. lia.
Qed.

(** The next tree in the double word. *)
Lemma next_tree {S} (s : S) p o o' os : rising o (o' :: os) -> Forall (fun x => x <= 32)%nat (o :: o' :: os) ->
  rep p (code o (o' :: os)) -> let d := Z.of_nat o' - Z.of_nat o in
  pntz p s = Ret (d, s) /\ exists p', shr p d s = Ret (p', s) /\ rep p' (code o' os).
Proof.
  intros (Hlt & H0 & Hr) Hb Hrep d. rewrite !Forall_cons in Hb. destruct Hb as (Ho & Ho' & Hb).
  pose proof (code_range o' os 32 Hr ltac:(by constructor)) as Hc. rewrite code_cons in Hrep. fold d in Hrep.
  assert (Hd : 0 < d < 32) by (subst d; destruct (decide (o = 0%nat)) as [Hz|]; [specialize (H0 Hz)|]; lia).
  split; [apply (pntz_Ret p d (code o' os)); [done|done|by apply rising_odd|lia]|].
  destruct (shr_Ret p _ d s Hrep Hd) as (p' & Hrun & Hp'). exists p'. split; [done|].
  replace ((1 + 2 ^ d * code o' os) / 2 ^ d) with (code o' os) in Hp'; [done|].
  pose proof (Z.pow_gt_1 2 d ltac:(lia)). symmetry. rewrite Z.mul_comm, Z.div_add by lia. rewrite (Z.div_small 1); lia.
Qed.

(** * [cycle] of [qsort.c] moves whole elements, chunk by chunk, through a local
    array of 256 bytes. *)

Definition inside (a n x : Z) : bool := (a <=? x) && (x <? a + n).

(** Regions of [l] bytes that do not overlap. *)
Definition apart2 (l a b : Z) : Prop := a + l <= b \/ b + l <= a.
Fixpoint apart (l : Z) (ar : list Z) : Prop :=
  match ar with [] => True | a :: ar => Forall (apart2 l a) ar /\ apart l ar end.

(** The memory after the regions of [ar] got the next one's contents, the last
    the contents of [t]. *)
Fixpoint moved (t : Z) (ar : list Z) (l : Z) (m : memory) (x : Z) : Z :=
  match ar with
  | [] => m x
  | a :: ar => if inside a l x then m (hd t ar + (x - a)) else moved t ar l m x
  end.

Lemma inside_spec a n x : inside a n x = true <-> a <= x < a + n.
Proof. unfold inside. lia. Qed.

Lemma moved_outside t ar l m x : Forall (fun a => inside a l x = false) ar -> moved t ar l m x = m x.
Proof. induction 1 as [|a ar Ha _ IH]; simpl; [done|]. by rewrite Ha. Qed.

(** Changing the memory only in a region that no source overlaps. *)
Lemma moved_change t ar l m1 m2 a x : apart2 l a t -> Forall (apart2 l a) ar ->
  (forall y, inside a l y = false -> m1 y = m2 y) -> inside a l x = false -> moved t ar l m1 x = moved t ar l m2 x.
Proof.
  intros Ht Har Hm Hx. induction Har as [|b ar Hb Har IH]; simpl; [by apply Hm|].
  destruct (inside b l x) eqn:Hb'; [|done]. apply inside_spec in Hb'. apply Hm.
  destruct ar as [|c ar]; simpl; [|apply Forall_inv in Har as Hc]; unfold inside, apart2 in *; lia.
Qed.

Lemma memcpy_Ret a b l m : apart2 l a b -> exists m', memcpy a b l m = Ret (tt, m') /\
  forall x, m' x = if inside a l x then m (b + (x - a)) else m x.
Proof.
  intros Hab. unfold memcpy. replace (_ || _ || _) with true; [by eexists|]. unfold apart2 in Hab. lia.
Qed.

Section Cycle.
Context (tmp : Z).

Lemma copy_down_Ret ar l : forall m, apart l (tmp :: ar) ->
  exists m', copy_down tmp ar l m = Ret (tt, m') /\ forall x, m' x = moved tmp ar l m x.
Proof.
  induction ar as [|a ar IH]; intros m [Htmp Hapart]; [by exists m|].
  apply Forall_cons in Htmp as [Hta Htmp]. destruct Hapart as [Ha Hapart]. cbn [copy_down moved].
  assert (Hnext : apart2 l a (hd tmp ar)).
  { destruct ar as [|b ar]; [simpl; unfold apart2 in *; lia|]. by apply Forall_inv in Ha. }
  destruct (memcpy_Ret a (hd tmp ar) l m Hnext) as (m1 & Hrun & Hm1). destruct (IH m1) as (m2 & Hrest & Hm2); [by split|].
  exists m2. split; [by mnext_by Hrun|]. intros x. rewrite Hm2. destruct (inside a l x) eqn:Hx.
  - rewrite moved_outside; [by rewrite Hm1, Hx|]. apply inside_spec in Hx. eapply Forall_impl; [exact Ha|].
    intros b Hb. unfold apart2, inside in *. lia.
  - apply (moved_change tmp ar l m1 m a); [unfold apart2 in *; lia|done| |done]. intros y Hy. by rewrite Hm1, Hy.
Qed.

Definition advance (d : Z) (ar : list Z) : list Z := map (fun a => a + d) ar.

Lemma apart_less l d k ar : apart l ar -> 0 <= d -> 0 <= k -> d + k <= l -> apart k (advance d ar).
Proof.
  intros Ha Hd Hk Hl. induction ar as [|a ar IH]; [done|]. destruct Ha as [Ha Har]. split; [|by apply IH].
  apply List.Forall_map. eapply Forall_impl; [exact Ha|]. intros b Hb. unfold apart2 in *. lia.
Qed.

Lemma hd_advance t d ar : hd (t + d) (advance d ar) = hd t ar + d.
Proof. by destruct ar. Qed.

(** One chunk more. *)
Lemma moved_chunk t d k w ar m0 m1 x : apart w ar -> 0 <= d -> 0 <= k -> d + k <= w ->
  (forall a y, a ∈ ar -> a + d <= y < a + w -> m1 y = m0 y) ->
  (forall j, 0 <= j < k -> m1 (tmp + j) = m0 (t + d + j)) ->
  m1 x = moved t ar d m0 x ->
  moved tmp (advance d ar) k m1 x = moved t ar (d + k) m0 x.
Proof.
  intros Hapart Hd Hk Hdk Hfresh Htmp. induction ar as [|a ar IH]; [done|]. destruct Hapart as [Ha Hapart].
  cbn [advance map moved]. fold (advance d ar). destruct (inside a d x) eqn:Hin.
  - intros Hx. apply inside_spec in Hin. replace (inside (a + d) k x) with false by (unfold inside; lia).
    replace (inside a (d + k) x) with true by (unfold inside; lia). rewrite moved_outside.
    + exact Hx.
    + apply List.Forall_map. eapply Forall_impl; [exact Ha|]. intros b Hb. unfold apart2, inside in *. lia.
  - intros Hx. destruct (inside (a + d) k x) eqn:Hin2.
    + apply inside_spec in Hin2. replace (inside a (d + k) x) with true by (unfold inside; lia).
      destruct ar as [|b ar]; simpl.
      * rewrite Htmp by lia. f_equal. lia.
      * rewrite (Hfresh b); [f_equal; lia|by right; left|lia].
    + replace (inside a (d + k) x) with false by (unfold inside in *; lia). apply IH; [done| |done].
      intros b y Hb. apply Hfresh. by right.
Qed.

(** [tmp] overlaps no element. *)
Definition tmp_apart (w : Z) (ar : list Z) : Prop := Forall (fun a => a + w <= tmp \/ tmp + 256 <= a) ar.

Lemma cycle_loop_Ret ar w m0 : ar <> [] -> apart w ar -> tmp_apart w ar -> forall fuel d m, 0 <= d <= w -> w - d <= Z.of_nat fuel ->
  (forall x, inside tmp 256 x = false -> m x = moved (hd 0 ar) ar d m0 x) ->
  exists m', cycle_loop tmp fuel (w - d) (advance d ar) m = Ret (tt, m') /\
    forall x, inside tmp 256 x = false -> m' x = moved (hd 0 ar) ar w m0 x.
Proof.
  intros Hne Hapart Htmp. unfold tmp_apart in Htmp. rewrite Forall_forall in Htmp. set (t := hd 0 ar).
  assert (Ht : t ∈ ar) by (destruct ar; [done|left]).
  induction fuel as [|fuel IH]; intros d m Hd Hfuel Hm.
  { assert (d = w) as -> by lia. exists m. split; [by rewrite Z.sub_diag|done]. }
  cbn [cycle_loop]. destruct (Z.eqb_spec (w - d) 0) as [Hz|Hz].
  { assert (d = w) as -> by lia. by exists m. }
  set (k := if 256 <? w - d then 256 else w - d). assert (Hk : 0 < k /\ k <= 256 /\ d + k <= w) by (unfold k; destruct (Z.ltb_spec 256 (w - d)); lia).
  assert (Hhd : hd tmp (advance d ar) = t + d) by (subst t; by destruct ar).
  assert (Hfresh : forall a y, a ∈ ar -> a + d <= y < a + w -> m y = m0 y).
  { intros a y Ha Hy. rewrite Hm by (specialize (Htmp a Ha); unfold inside; lia). apply moved_outside.
    clear -Hapart Ha Hy Hd. induction ar as [|b ar IH]; [done|]. destruct Hapart as [Hb Hapart].
    rewrite Forall_forall in Hb. apply elem_of_cons in Ha as [->|Ha].
    - constructor; [unfold inside; lia|]. apply Forall_forall. intros c Hc. specialize (Hb c Hc). unfold apart2, inside in *. lia.
    - constructor; [|by apply IH]. specialize (Hb a Ha). unfold apart2, inside in *. lia. }
  destruct (memcpy_Ret tmp (t + d) k m) as (m1 & Hrun1 & Hm1).
  { specialize (Htmp t Ht). unfold apart2. lia. }
  destruct (copy_down_Ret (advance d ar) k m1) as (m2 & Hrun2 & Hm2).
  { split; [|apply (apart_less w); lia || done]. apply List.Forall_map, Forall_forall. intros a Ha. specialize (Htmp a Ha).
    unfold apart2. lia. }
  destruct (IH (d + k) m2) as (m' & Hrun & Hm'); [lia|lia| |].
  { intros x Hx. rewrite Hm2. apply (moved_chunk t d k w); [done|lia|lia|lia| | |].
    - intros a y Ha Hy. rewrite Hm1, (Hfresh a y Ha Hy). replace (inside tmp k y) with false; [done|].
      specialize (Htmp a Ha). unfold inside. lia.
    - intros j Hj. rewrite Hm1. replace (inside tmp k (tmp + j)) with true by (unfold inside; lia).
      rewrite (Hfresh t) by (done || lia). f_equal. lia.
    - rewrite Hm1. replace (inside tmp k x) with false by (unfold inside in *; lia). by apply Hm. }
  exists m'. split; [|done]. rewrite Hhd. mnext_by Hrun1. mnext_by Hrun2.
  replace (w - d - k) with (w - (d + k)) by lia.
  replace (map (fun a => a + k) (advance d ar)) with (advance (d + k) ar); [done|].
  unfold advance. rewrite map_map. apply map_ext. intros a. lia.
Qed.

Lemma cycle_moves w ar m : 0 <= w -> (2 <= length ar <= 56)%nat -> apart w ar -> tmp_apart w ar ->
  exists m', cycle tmp w ar m = Ret (tt, m') /\ forall x, inside tmp 256 x = false -> m' x = moved (hd 0 ar) ar w m x.
Proof.
  intros Hw Hlen Hapart Htmp. unfold cycle. rewrite (proj2 (Nat.ltb_ge _ _)) by lia. rewrite (proj2 (Nat.ltb_ge _ _)) by lia.
  assert (Hne : ar <> []) by (by intros ->; simpl in *; lia).
  assert (H0 : forall x, moved (hd 0 ar) ar 0 m x = m x).
  { intros x. apply moved_outside, Forall_forall. intros a _. unfold inside. lia. }
  destruct (cycle_loop_Ret ar w m Hne Hapart Htmp (Z.to_nat w) 0 m) as (m' & Hrun & Hm'); [lia|lia|done|].
  exists m'. split; [|done]. rewrite Z.sub_0_r in Hrun. rewrite <- Hrun. f_equal. unfold advance.
  rewrite (map_ext _ id), map_id; [done|]. intros a. unfold id. lia.
Qed.
End Cycle.

(** ** Elements *)

(** Where [rotate] takes the element for the place [i] from. *)
Fixpoint source (t : nat) (ps : list nat) (i : nat) : nat :=
  match ps with
  | [] => i
  | p :: ps => if decide (i = p) then hd t ps else source t ps i
  end.

Section Rotate.
Context {A : Type} `{!Inhabited A}.
Implicit Types (l : list A) (ps : list nat).

Lemma Forall_tail {B} (P : B -> Prop) (qs : list B) : Forall P qs -> Forall P (tail qs).
Proof. by destruct 1. Qed.

Lemma swap_source i0 j l ps i : (i0 < length l)%nat -> (j < length l)%nat -> i <> i0 -> (i = j -> ps <> [] /\ hd 0%nat ps = j) ->
  Forall (fun q => q <> j /\ q <> i0) (tail ps) ->
  swap i0 j l !!! source j ps i = l !!! source i0 ps i.
Proof.
  intros Hi0 Hj Hne. induction ps as [|q ps IH]; intros Hij Hps.
  { simpl. apply swap_other; [done|]. intros Heq. by destruct (Hij Heq). }
  cbn [source]. destruct (decide (i = q)) as [->|Hq].
  - destruct ps as [|q2 ps]; [by apply swap_r|]. apply Forall_inv in Hps as [? ?]. by apply swap_other.
  - apply IH; [|by apply Forall_tail]. intros ->. destruct (Hij eq_refl) as [_ Heq]. by simpl in Heq.
Qed.

Lemma rotate_lookup ps : forall l i, NoDup ps -> Forall (fun p => p < length l)%nat ps ->
  rotate ps l !!! i = l !!! source (hd O ps) ps i.
Proof.
  induction ps as [|i0 ps IH]; intros l i Hnd Hlen; [done|]. destruct ps as [|j ps].
  { cbn [rotate source hd]. destruct (decide (i = i0)) as [Hi|Hi]; by rewrite ?Hi. }
  apply NoDup_cons in Hnd as [Hi0 Hnd]. apply Forall_cons in Hlen as [Hl0 Hlen]. apply Forall_inv in Hlen as Hlj.
  change (rotate (i0 :: j :: ps) l) with (rotate (j :: ps) (swap i0 j l)).
  rewrite IH by (done || by rewrite swap_length).
  change (hd 0%nat (j :: ps)) with j. change (hd 0%nat (i0 :: j :: ps)) with i0.
  change (source i0 (i0 :: j :: ps) i) with (if decide (i = i0) then j else source i0 (j :: ps) i).
  case_decide as Hi.
  - subst i. assert (Hs : forall t qs, i0 ∉ qs -> source t qs i0 = i0).
    { intros t qs. induction qs as [|q qs IHq]; intros Hq; [done|]. simpl. rewrite decide_False by set_solver. apply IHq. set_solver. }
    rewrite Hs by done. by apply swap_l.
  - apply swap_source; [done|done|done|done|]. apply NoDup_cons in Hnd as [Hj Hnd]. cbn [tail].
    apply Forall_forall. intros q Hq. split; intros ->; set_solver.
Qed.

Lemma rotate_length ps : forall l, length (rotate ps l) = length l.
Proof.
  induction ps as [|i ps IH]; intros l; [done|]. destruct ps as [|j ps]; [done|].
  change (rotate (i :: j :: ps) l) with (rotate (j :: ps) (swap i j l)). by rewrite IH, swap_length.
Qed.
End Rotate.
