(* ===== verification/SortProofs.v ===== *)
(** The pointer code of [qsort.c] does to the elements of the array what the
    functions of [SortTrees] do to their list. *)
From S2P Require Import Prelude.
From S2P Require Import Sort.
From S2P Require Import SortTrees.
From S2P Require Import SortWords.

Lemma list_eq_total {A} `{!Inhabited A} (l l' : list A) : length l = length l' ->
  (forall i, (i < length l)%nat -> l !!! i = l' !!! i) -> l = l'.
Proof.
  intros Hlen Heq. apply list_eq_same_length with (length l); [done|done|].
  intros i x y Hi Hx Hy. specialize (Heq i Hi). by rewrite (list_lookup_total_correct _ _ _ Hx), (list_lookup_total_correct _ _ _ Hy) in Heq.
Qed.

Section Memory.
Context (cmp : list Z -> list Z -> Z) `{!Comparison cmp} (tmp base width : Z) (N : nat).
Hypothesis width_pos : 0 < width.
(** The local array of [cycle] is not in the array to sort. *)
Hypothesis tmp_outside : tmp + 256 <= base \/ base + width * Z.of_nat N <= tmp.
Implicit Types (m : memory) (i j r t o : nat) (os ps : list nat) (l : list (list Z)).
Abbreviation sifted := (sifted cmp).
Abbreviation trinkled := (trinkled cmp).

Definition addr (i : nat) : Z := base + width * Z.of_nat i.
Definition elems (m : memory) : list (list Z) := map (fun i => bytes m (addr i) width) (seq 0 N).
(** Nothing else changes. *)
Definition frame (m m' : memory) : Prop :=
  forall x, inside tmp 256 x = false -> inside base (width * Z.of_nat N) x = false -> m' x = m x.

Lemma frame_refl m : frame m m.
Proof. by intros x. Qed.
Lemma frame_trans m1 m2 m3 : frame m1 m2 -> frame m2 m3 -> frame m1 m3.
Proof. intros H1 H2 x Ht Hb. by rewrite H2, H1. Qed.

Lemma elems_length m : length (elems m) = N.
Proof. unfold elems. by rewrite length_map, length_seq. Qed.
Lemma elems_at m i : (i < N)%nat -> elems m !!! i = bytes m (addr i) width.
Proof.
  intros Hi. apply list_lookup_total_correct. unfold elems. apply list_lookup_fmap_Some. exists i. split; [done|].
  by apply lookup_seq.
Qed.

Lemma compare_Ret i j m : (i < N)%nat -> (j < N)%nat ->
  compare cmp width (addr i) (addr j) m = Ret (cmp (elems m !!! i) (elems m !!! j), m).
Proof. intros Hi Hj. unfold compare, gets. by rewrite !elems_at. Qed.

Lemma addr_inside p i k : 0 <= k < width -> inside (addr p) width (addr i + k) = bool_decide (i = p).
Proof.
  intros Hk. unfold inside, addr. case_bool_decide as Hi; [subst; lia|].
  destruct (decide (i < p)%nat).
  - assert (width * Z.of_nat i + width <= width * Z.of_nat p) by nia. lia.
  - assert (width * Z.of_nat p + width <= width * Z.of_nat i) by nia. lia.
Qed.

Lemma addr_apart i j : i <> j -> apart2 width (addr i) (addr j).
Proof.
  intros Hij. unfold apart2, addr. destruct (decide (i < j)%nat).
  - assert (width * Z.of_nat i + width <= width * Z.of_nat j) by nia. lia.
  - assert (width * Z.of_nat j + width <= width * Z.of_nat i) by nia. lia.
Qed.

Lemma addrs_apart ps : NoDup ps -> apart width (map addr ps).
Proof.
  induction 1 as [|p ps Hp Hnd IH]; [done|]. split; [|done]. apply List.Forall_map, Forall_forall. intros q Hq.
  apply addr_apart. intros ->. done.
Qed.

Lemma addr_range i : (i < N)%nat -> base <= addr i /\ addr i + width <= base + width * Z.of_nat N.
Proof. intros Hi. unfold addr. assert (width * Z.of_nat i + width <= width * Z.of_nat N) by nia. nia. Qed.

Lemma moved_source ps t i k m : 0 <= k < width ->
  moved (addr t) (map addr ps) width m (addr i + k) = m (addr (source t ps i) + k).
Proof.
  intros Hk. induction ps as [|p ps IH]; [done|]. cbn [map moved source]. rewrite addr_inside by done.
  case_bool_decide as Hi.
  - rewrite decide_True by done. subst p. f_equal. destruct ps; simpl; lia.
  - by rewrite decide_False.
Qed.

Lemma source_range ps t i : Forall (fun p => p < N)%nat ps -> (t < N)%nat -> (i < N)%nat -> (source t ps i < N)%nat.
Proof.
  intros Hps Ht Hi. induction Hps as [|p ps Hp Hps IH]; [done|]. simpl. destruct (decide (i = p)); [|done].
  by destruct Hps.
Qed.

Lemma cycle_Ret ps m : ps <> [] -> NoDup ps -> Forall (fun p => p < N)%nat ps -> (length ps <= 56)%nat ->
  exists m', cycle tmp width (map addr ps) m = Ret (tt, m') /\ elems m' = rotate ps (elems m) /\ frame m m'.
Proof.
  intros Hne Hnd Hps Hlen. destruct ps as [|p0 [|p1 ps]]; [done|by exists m|]. set (qs := p0 :: p1 :: ps) in *.
  assert (Ht : tmp_apart tmp width (map addr qs)).
  { apply List.Forall_map. eapply Forall_impl; [exact Hps|]. intros p Hp. pose proof (addr_range p Hp). lia. }
  destruct (cycle_moves tmp width (map addr qs) m) as (m' & Hrun & Hm');
    [lia|rewrite length_map; simpl in *; lia|by apply addrs_apart|done|].
  change (hd 0 (map addr qs)) with (addr p0) in Hm'. exists m'. split; [done|]. split.
  - apply list_eq_total; [by rewrite rotate_length, !elems_length|]. rewrite elems_length. intros i Hi.
    rewrite rotate_lookup by (rewrite ?elems_length; done). change (hd 0%nat qs) with p0.
    assert (Hs : (source p0 qs i < N)%nat) by (apply source_range; [done|by apply Forall_inv in Hps|done]).
    rewrite !elems_at by done. unfold bytes. apply list_eq_total; [by rewrite !length_map, !length_seqZ|].
    rewrite length_map, length_seqZ. intros k Hk. rewrite !list_lookup_total_alt, !list_lookup_fmap.
    rewrite !lookup_seqZ_lt by lia. cbn [fmap option_fmap option_map default from_option id].
    rewrite Hm', moved_source by (lia || (pose proof (addr_range i Hi); unfold inside; lia)). done.
  - intros x Hx Hb. rewrite Hm' by done. apply moved_outside, List.Forall_map. eapply Forall_impl; [exact Hps|].
    intros p Hp. pose proof (addr_range p Hp). unfold inside in *. lia.
Qed.

(** The Leonardo numbers the trees of the array need. *)
Definition lp_ok (lp : list Z) : Prop := forall o, (leo o <= N)%nat -> lp !! o = Some (width * Z.of_nat (leo o)).

Lemma lp_at_Ret lp o z m : lp_ok lp -> (leo o <= N)%nat -> z = Z.of_nat o -> lp_at lp z m = Ret (width * Z.of_nat (leo o), m).
Proof. intros Hlp Ho ->. unfold lp_at. rewrite (proj2 (Z.ltb_ge _ _)) by apply Nat2Z.is_nonneg. by rewrite Nat2Z.id, (Hlp o Ho). Qed.

Lemma addr_sub r n a : (n <= r)%nat -> a = addr r - width * Z.of_nat n -> a = addr (r - n).
Proof. intros Hn ->. unfold addr. rewrite Nat2Z.inj_sub by done. lia. Qed.

Lemma sift_path_Ret lp t m : lp_ok lp -> (t < N)%nat -> forall o r l fuel, (o <= fuel)%nat -> (leo o <= S r)%nat -> (r < N)%nat ->
  length l = N -> l !!! r = elems m !!! t -> (forall i, S r - leo o <= i < r -> l !!! i = elems m !!! i)%nat ->
  exists ps, sift_path cmp width fuel lp (addr t) (addr r) (Z.of_nat o) m = Ret (map addr ps, m) /\
    sifted o r l = rotate (r :: ps) l /\ NoDup ps /\ Forall (fun p => S r - leo o <= p < r)%nat ps /\ (length ps <= o)%nat.
Proof.
  intros Hlp Ht o. induction o as [| |o IH2 IH1] using order_ind; intros r l fuel Hfuel Hr HrN Hlen Htop Hsame.
  1,2: exists []; split; [by destruct fuel|]; split; [done|]; split; [constructor|]; split; [constructor|simpl; lia].
  rewrite leo_SS in *. pose proof (leo_pos o). pose proof (leo_pos (S o)). destruct fuel as [|fuel]; [lia|].
  cbn [sift_path]. rewrite (proj2 (Z.leb_gt (Z.of_nat (S (S o))) 1)) by lia. rewrite sifted_SS. cbv zeta.
  set (rt := (r - 1)%nat). set (lf := (rt - leo o)%nat).
  assert (Hrt : addr r - width = addr rt) by (apply (addr_sub r 1); lia).
  assert (Hlf : addr r - width - width * Z.of_nat (leo o) = addr lf).
  { rewrite Hrt. apply addr_sub; lia. }
  assert (Hsteps : forall c o', (S o' <= S (S o))%nat -> (leo o' <= S c)%nat -> (c < r)%nat -> (S r - (leo o + leo (S o) + 1) <= S c - leo o')%nat ->
    forall ps, sift_path cmp width fuel lp (addr t) (addr c) (Z.of_nat o') m = Ret (map addr ps, m) ->
    sifted o' c (swap r c l) = rotate (c :: ps) (swap r c l) -> NoDup ps -> Forall (fun p => S c - leo o' <= p < c)%nat ps -> (length ps <= o')%nat ->
    sifted o' c (swap r c l) = rotate (r :: c :: ps) l /\ NoDup (c :: ps) /\
    Forall (fun p => S r - (leo o + leo (S o) + 1) <= p < r)%nat (c :: ps) /\ (length (c :: ps) <= S (S o))%nat).
  { intros c o' Ho' Hc Hcr Hrange ps _ Hsift Hnd Hps Hl. split; [done|]. split.
    - constructor; [|done]. intros Hin. rewrite Forall_forall in Hps. specialize (Hps c Hin). lia.
    - split; [|simpl; lia]. constructor; [pose proof (leo_pos o'); lia|]. eapply Forall_impl; [exact Hps|]. intros p Hp; cbv beta in *; lia. }
  mstep (lp_at_Ret lp o (Z.of_nat (S (S o)) - 2) m Hlp ltac:(lia) ltac:(lia)). cbv beta. rewrite Hlf, Hrt.
  mstep (compare_Ret t lf m Ht ltac:(lia)).
  mstep (compare_Ret t rt m Ht ltac:(lia)).
  cbv beta. rewrite Htop, (Hsame lf), (Hsame rt) by lia. destruct (_ && _).
  { exists []. split; [done|]. split; [done|]. split; [constructor|]. split; [constructor|simpl; lia]. }
  mstep (compare_Ret lf rt m ltac:(lia) ltac:(lia)). cbv beta.
  destruct (0 <=? cmp _ _).
  - destruct (IH1 lf (swap r lf l) fuel) as (ps & Hrun & Hsift & Hnd & Hps & Hl);
      [lia|lia|lia|by rewrite swap_length|rewrite swap_r by lia; done|intros i Hi; rewrite swap_other by lia; apply Hsame; lia|].
    exists (lf :: ps). split; [|apply (Hsteps lf (S o)); done || lia].
    replace (Z.of_nat (S (S o)) - 1) with (Z.of_nat (S o)) by lia. by mnext_by Hrun.
  - destruct (IH2 rt (swap r rt l) fuel) as (ps & Hrun & Hsift & Hnd & Hps & Hl);
      [lia|lia|lia|by rewrite swap_length|rewrite swap_r by lia; done|intros i Hi; rewrite swap_other by lia; apply Hsame; lia|].
    exists (rt :: ps). split; [|apply (Hsteps rt o); done || lia].
    replace (Z.of_nat (S (S o)) - 2) with (Z.of_nat o) by lia. by mnext_by Hrun.
Qed.

Lemma sift_Ret lp o r m : lp_ok lp -> (leo o <= S r)%nat -> (r < N)%nat -> (o <= 32)%nat ->
  exists m', sift cmp tmp width lp (addr r) (Z.of_nat o) m = Ret (tt, m') /\ elems m' = sifted o r (elems m) /\ frame m m'.
Proof.
  intros Hlp Ho Hr Hmax.
  destruct (sift_path_Ret lp r m Hlp Hr o r (elems m) (Z.to_nat (Z.of_nat o))) as (ps & Hrun & Hsift & Hnd & Hps & Hl);
    [lia|done|done|apply elems_length|done|done|].
  destruct (cycle_Ret (r :: ps) m) as (m' & Hcyc & Hel & Hfr); [done| | |simpl; lia|].
  - constructor; [|done]. intros Hin. rewrite Forall_forall in Hps. specialize (Hps r Hin). lia.
  - constructor; [done|]. eapply Forall_impl; [exact Hps|]. intros p Hp; cbv beta in *; lia.
  - exists m'. split; [|by rewrite Hsift]. unfold sift. by mnext_by Hrun.
Qed.

Lemma reaches_Ret lp o r s (trusty : bool) m : lp_ok lp -> (leo o <= S r)%nat -> (r < N)%nat -> (s < r)%nat ->
  reaches cmp width lp (addr r) (addr s) (Z.of_nat o) trusty m =
    Ret (negb trusty && (1 <? o)%nat && ((0 <=? cmp (elems m !!! (r - 1)%nat) (elems m !!! s)) ||
      (0 <=? cmp (elems m !!! (r - 1 - leo (o - 2))%nat) (elems m !!! s))), m).
Proof.
  intros Hlp Ho Hr Hs. unfold reaches. destruct trusty; [done|]. cbn [negb andb].
  destruct (Nat.ltb_spec 1 o) as [H1|H1]; [rewrite (proj2 (Z.ltb_lt 1 (Z.of_nat o))) by lia|
    by rewrite (proj2 (Z.ltb_ge 1 (Z.of_nat o))) by lia].
  destruct o as [|[|o]]; [lia..|]. rewrite leo_SS in Ho. pose proof (leo_pos o). pose proof (leo_pos (S o)).
  replace (S (S o) - 2)%nat with o by lia. cbn [andb].
  mstep (lp_at_Ret lp o (Z.of_nat (S (S o)) - 2) m Hlp ltac:(lia) ltac:(lia)). cbv beta.
  rewrite (addr_sub r 1 (addr r - width) ltac:(lia) ltac:(lia)).
  rewrite (addr_sub (r - 1) (leo o) (addr (r - 1) - width * Z.of_nat (leo o)) ltac:(lia) eq_refl).
  mstep (compare_Ret (r - 1) s m ltac:(lia) ltac:(lia)). destruct (0 <=? cmp _ _); [done|].
  by mstep (compare_Ret (r - 1 - leo o) s m ltac:(lia) ltac:(lia)).
Qed.

Lemma trinkle_path_Ret lp t m : lp_ok lp -> (t < N)%nat -> forall os o r l p trusty fuel, (length os <= fuel)%nat ->
  cells (o :: os) = S r -> (r < N)%nat -> rising o os -> Forall (fun x => x <= 32)%nat (o :: os) -> rep p (code o os) ->
  length l = N -> l !!! r = elems m !!! t -> (forall i, i < r -> l !!! i = elems m !!! i)%nat ->
  exists ps o' r' trusty',
    trinkle_path cmp width fuel lp (addr t) (addr r) p (Z.of_nat o) trusty m = Ret ((map addr ps, addr r', Z.of_nat o', trusty'), m) /\
    trinkled os o r trusty l = (if (trusty' : bool) then l else sifted o' r' (rotate (r :: ps) l)) /\
    (trusty' = true -> ps = [] /\ trusty = true) /\ NoDup ps /\ Forall (fun i => i < r)%nat ps /\ (length ps <= length os)%nat /\
    (leo o' <= S r')%nat /\ (r' <= r)%nat /\ (o' <= 32)%nat.
Proof.
  intros Hlp Ht os. induction os as [|o' os IH]; intros o r l p trusty fuel Hfuel Hc HrN Hr Hb Hrep Hlen Htop Hsame;
    pose proof (rep_one p o _ Hr Hrep) as Hone; (assert (Hstop : (leo o <= S r)%nat) by (rewrite cells_cons in Hc; lia));
    apply Forall_inv in Hb as Ho.
  { exists [], o, r, trusty. split; [destruct fuel; cbn [trinkle_path]; by rewrite Hone|].
    split; [done|]. split; [done|]. split; [constructor|]. split; [constructor|]. simpl. lia. }
  destruct (cells_tail _ _ _ _ Hc) as [Hc' Hle]. destruct fuel as [|fuel]; [simpl in Hfuel; lia|].
  pose proof (leo_pos o). set (s := (r - leo o)%nat) in *. cbn [trinkle_path trinkled]. rewrite Hone. cbv zeta. fold s.
  rewrite bool_decide_false by done.
  mstep (lp_at_Ret lp o (Z.of_nat o) m Hlp ltac:(lia) eq_refl). cbv beta zeta.
  assert (Hs : addr r - width * Z.of_nat (leo o) = addr s) by (apply addr_sub; lia). rewrite Hs.
  mstep (compare_Ret s t m ltac:(lia) Ht). cbv beta. rewrite Htop, (Hsame s) by lia.
  destruct (cmp (elems m !!! s) (elems m !!! t) <=? 0); cbn [orb].
  { exists [], o, r, trusty. split; [done|]. split; [done|]. split; [done|]. split; [constructor|]. split; [constructor|]. simpl. lia. }
  mstep (reaches_Ret lp o r s trusty m Hlp Hstop HrN ltac:(lia)). cbv beta.
  assert (Hsame2 : (1 < o)%nat -> l !!! (r - 1)%nat = elems m !!! (r - 1)%nat /\
    l !!! (r - 1 - leo (o - 2))%nat = elems m !!! (r - 1 - leo (o - 2))%nat).
  { intros Ho1. split; apply Hsame; [|pose proof (leo_pos (o - 2))]; lia. }
  replace (negb trusty && (1 <? o)%nat && ((0 <=? cmp (l !!! (r - 1)%nat) (elems m !!! s)) ||
      (0 <=? cmp (l !!! (r - 1 - leo (o - 2))%nat) (elems m !!! s)))) with
    (negb trusty && (1 <? o)%nat && ((0 <=? cmp (elems m !!! (r - 1)%nat) (elems m !!! s)) ||
      (0 <=? cmp (elems m !!! (r - 1 - leo (o - 2))%nat) (elems m !!! s)))).
  2: { destruct (Nat.ltb_spec 1 o) as [Ho1|]; [by destruct (Hsame2 Ho1) as [-> ->]|by rewrite !andb_false_r]. }
  destruct (negb trusty && _ && _).
  { exists [], o, r, trusty. split; [done|]. split; [done|]. split; [done|]. split; [constructor|]. split; [constructor|]. simpl. lia. }
  destruct (next_tree m p o o' os Hr Hb Hrep) as (Hpntz & p' & Hshr & Hrep'). cbv zeta in Hpntz, Hshr.
  mstep Hpntz. mstep Hshr. replace (Z.of_nat o + (Z.of_nat o' - Z.of_nat o)) with (Z.of_nat o') by lia.
  destruct (IH o' s (swap r s l) p' false fuel) as (ps & o1 & r1 & trusty1 & Hrun & Htr & Hps0 & Hnd & Hps & Hl & Ho1 & Hr1 & Hmax);
    [simpl in Hfuel; lia|done|lia|apply Hr|by apply Forall_cons in Hb as [_ Hb]|done|by rewrite swap_length|
     rewrite swap_r by lia; done|intros i Hi; rewrite swap_other by lia; apply Hsame; lia|].
  destruct trusty1; [by destruct (Hps0 eq_refl)|].
  exists (s :: ps), o1, r1, false. split; [by mstep Hrun|]. split; [exact Htr|]. split; [done|]. split.
  { constructor; [|done]. intros Hin. rewrite Forall_forall in Hps. specialize (Hps s Hin). lia. }
  split; [|simpl; lia]. constructor; [lia|]. eapply Forall_impl; [exact Hps|]. intros i Hi; cbv beta in *; lia.
Qed.

Lemma trinkle_Ret lp os o r p trusty m : lp_ok lp -> cells (o :: os) = S r -> (r < N)%nat -> rising o os ->
  Forall (fun x => x <= 32)%nat (o :: os) -> rep p (code o os) ->
  exists m', trinkle cmp tmp width lp (addr r) p (Z.of_nat o) trusty m = Ret (tt, m') /\
    elems m' = trinkled os o r trusty (elems m) /\ frame m m'.
Proof.
  intros Hlp Hc HrN Hr Hb Hrep. pose proof (rising_length _ _ _ Hr Hb) as Hlen.
  destruct (trinkle_path_Ret lp r m Hlp HrN os o r (elems m) p trusty 64)
    as (ps & o' & r' & trusty' & Hrun & Htr & Hps0 & Hnd & Hps & Hl & Ho' & Hr' & Hmax);
    [lia|done|done|done|done|done|apply elems_length|done|done|].
  unfold trinkle. mstep Hrun. destruct trusty'; cbn [negb].
  { exists m. split; [done|]. by split; [|apply frame_refl]. }
  destruct (cycle_Ret (r :: ps) m) as (m1 & Hcyc & Hel1 & Hfr1); [done| | |simpl; lia|].
  - constructor; [|done]. intros Hin. rewrite Forall_forall in Hps. specialize (Hps r Hin). lia.
  - constructor; [done|]. eapply Forall_impl; [exact Hps|]. intros i Hi; cbv beta in *; lia.
  - destruct (sift_Ret lp o' r' m1 Hlp Ho' ltac:(lia) Hmax) as (m2 & Hsift & Hel2 & Hfr2).
    exists m2. split; [by mstep Hcyc|]. split; [by rewrite Htr, Hel2, Hel1|by eapply frame_trans].
Qed.
End Memory.
