(* ===== verification/SortTheorems.v ===== *)
(** [qsort] sorts; [bsearch] finds. *)
From S2P Require Import Prelude.
From S2P Require Import Sort.
From S2P Require Import SortTrees.
From S2P Require Import SortWords.
From S2P Require Import SortProofs.

(** ** Large Leonardo numbers, in binary *)

Fixpoint leo_pair (n : nat) : Z * Z :=
  match n with O => (1, 1) | S n => let '(a, b) := leo_pair n in (b, a + b + 1) end.

Lemma leo_pair_spec n : leo_pair n = (Z.of_nat (leo n), Z.of_nat (leo (S n))).
Proof.
  induction n as [|n IH]; [done|]. cbn [leo_pair]. rewrite IH, leo_SS. f_equal. lia.
Qed.
Lemma leo_eval n z : leo_pair n = z -> Z.of_nat (leo n) = fst z.
Proof. intros <-. by rewrite leo_pair_spec. Qed.

(** [qsort] is used with fewer elements: no two trees are 32 orders apart. *)
Definition MAX_NEL : Z := 11405773.
Lemma leo_33 : Z.of_nat (leo 33) = MAX_NEL.
Proof. by apply (leo_eval 33 (MAX_NEL, 18454929)); vm_compute. Qed.
Lemma leo_44 : 2 ^ 31 < Z.of_nat (leo 44).
Proof. rewrite (leo_eval 44 _ eq_refl). vm_compute. done. Qed.

Lemma order_bound o N : (leo o <= N)%nat -> Z.of_nat N < MAX_NEL -> (o <= 32)%nat.
Proof.
  intros Ho HN. destruct (decide (o <= 32)%nat) as [|Hgt]; [done|]. pose proof (leo_mono 33 o ltac:(lia)). rewrite <- leo_33 in HN. lia.
Qed.
Lemma orders_bound os N : (cells os <= N)%nat -> Z.of_nat N < MAX_NEL -> Forall (fun x => x <= 32)%nat os.
Proof.
  intros Hc HN. induction os as [|o os IH]; [done|]. rewrite cells_cons in Hc.
  constructor; [apply (order_bound o N)|apply IH]; lia.
Qed.

Section Qsort.
Context (cmp : list Z -> list Z -> Z) `{!Comparison cmp} (tmp base width : Z) (N : nat).
Hypothesis width_pos : 0 < width.
Hypothesis tmp_outside : tmp + 256 <= base \/ base + width * Z.of_nat N <= tmp.
Hypothesis small : width <= 2 ^ 30 /\ width * Z.of_nat N < 2 ^ 31.
Implicit Types (m : memory) (i j r o n : nat) (os : list nat).
Abbreviation addr := (addr base width).
Abbreviation elems := (elems base width N).
Abbreviation frame := (frame tmp base width N).
Abbreviation lp_ok := (lp_ok width N).

Definition lps n : list Z := map (fun i => width * Z.of_nat (leo i)) (seq 0 n).

Lemma lps_at n i : (i < n)%nat -> lps n !! i = Some (width * Z.of_nat (leo i)).
Proof. intros Hi. unfold lps. apply list_lookup_fmap_Some. exists i. split; [done|]. by apply lookup_seq. Qed.
Lemma lps_total n i : (i < n)%nat -> lps n !!! i = width * Z.of_nat (leo i).
Proof. intros Hi. apply list_lookup_total_correct. by apply lps_at. Qed.
Lemma lps_length n : length (lps n) = n.
Proof. unfold lps. by rewrite length_map, length_seq. Qed.
Lemma lps_S n : lps (S n) = lps n ++ [width * Z.of_nat (leo n)].
Proof. unfold lps. rewrite seq_S, map_app. done. Qed.

(** The entries do not wrap. *)
Lemma leo_step n : (1 <= n)%nat -> (leo n < leo (S n) -> leo (S (S n)) <= 2 * leo (S n))%nat.
Proof. intros Hn. rewrite leo_SS. lia. Qed.

Lemma entry_range n : (forall i, 2 <= i < S (S n) -> (width * Z.of_nat (leo i) < width * Z.of_nat N)%Z)%nat ->
  width * Z.of_nat (leo (S (S n))) < 2 ^ 32.
Proof.
  intros Hbelow. destruct n as [|n].
  - change (leo 2) with 3%nat. lia.
  - pose proof (leo_strict (S n) (S (S n)) ltac:(lia)) as Hlt. pose proof (leo_step (S n) ltac:(lia) Hlt).
    specialize (Hbelow (S (S n)) ltac:(lia)). nia.
Qed.

Lemma leonardo_Ret fuel : forall n m, (2 <= n)%nat -> (46 <= n + fuel)%nat ->
  (forall i, 2 <= i < n -> (width * Z.of_nat (leo i) < width * Z.of_nat N)%Z)%nat ->
  exists k, leonardo width fuel (width * Z.of_nat N) (lps n) m = Ret (lps (S k), m) /\ (2 <= k)%nat /\ (N <= leo k)%nat.
Proof.
  induction fuel as [|fuel IH]; intros n m Hn Hfuel Hbelow.
  { pose proof (Hbelow 44%nat ltac:(lia)). pose proof leo_44. nia. }
  assert (Hn45 : (n <= 44)%nat).
  { destruct (decide (n <= 44)%nat); [done|]. pose proof (Hbelow 44%nat ltac:(lia)). pose proof leo_44. nia. }
  destruct n as [|[|n]]; [lia..|]. pose proof (entry_range n Hbelow) as Hrange.
  cbn [leonardo]. rewrite lps_length. rewrite (proj2 (Nat.leb_gt 48 (S (S n)))) by lia.
  replace (S (S n) - 2)%nat with n by lia. replace (S (S n) - 1)%nat with (S n) by lia. rewrite !lps_total by lia.
  replace (w32 (w32 (width * Z.of_nat (leo n) + width * Z.of_nat (leo (S n))) + width)) with (width * Z.of_nat (leo (S (S n)))).
  2: { rewrite leo_SS in *. rewrite (w32_small (_ + _ * _)) by nia. rewrite w32_small by nia. nia. }
  rewrite <- lps_S. destruct (Z.ltb_spec (width * Z.of_nat (leo (S (S n)))) (width * Z.of_nat N)) as [Hlt|Hge].
  - destruct (IH (S (S (S n))) m) as (k & Hrun & Hk); [lia|lia| |by exists k].
    intros i Hi. destruct (decide (i = S (S n))) as [->|]; [done|]. apply Hbelow. lia.
  - exists (S (S n)). split; [done|]. split; [lia|]. nia.
Qed.

Lemma lps_ok k : (2 <= k)%nat -> (N <= leo k)%nat -> lp_ok (lps (S k)).
Proof.
  intros Hk HN o Ho. apply lps_at. destruct (decide (o < S k)%nat); [done|]. pose proof (leo_strict k o ltac:(lia)). lia.
Qed.

(** ** The first loop *)

Lemma code_mod_land p o os : rep p (code o os) -> Z.land (fst p) 3 = code o os mod 4.
Proof.
  intros (Hp0 & Hp1 & <-). change 3 with (Z.ones 2). rewrite Z.land_ones by lia.
  replace (fst p + 2 ^ 32 * snd p) with (fst p + (2 ^ 30 * snd p) * 2 ^ 2) by lia. by rewrite Z.mod_add by lia.
Qed.

Context (lp : list Z) (Hlp : lp_ok lp) (few : Z.of_nat N < MAX_NEL).

(** The double word after a merge. *)
Lemma merged_word m p o os : rep p (code o (S o :: os)) -> stretch o (S o :: os) ->
  exists p', shr p 2 m = Ret (p', m) /\ rep (low p' (fun x => Z.lor x 1)) (code (S (S o)) os).
Proof.
  intros Hrep (_ & _ & Hw). assert (Hhd : match os with [] => True | o' :: _ => (S (S o) <= o')%nat end).
  { destruct os; [done|]. destruct Hw. lia. }
  assert (Hodd : Z.odd (code (S (S o)) os) = true).
  { apply rising_odd. destruct os as [|o' os]; [done|]. destruct Hw as [Hgap Hw]. split; [lia|]. split; [lia|].
    apply wide_rising; [lia|done]. }
  destruct (shr_Ret p _ 2 m Hrep ltac:(lia)) as (p' & Hrun & Hrep'). exists p'. split; [done|].
  rewrite code_cons, (code_rest (S o) (S (S o)) os) in Hrep' by (lia || done).
  replace (Z.of_nat (S o) - Z.of_nat o) with 1 in Hrep' by lia. replace (Z.of_nat (S (S o)) - Z.of_nat (S o)) with 1 in Hrep' by lia.
  set (c := code (S (S o)) os) in *. pose proof (Z.div_mod c 2 ltac:(lia)) as Hc. rewrite Zmod_odd, Hodd in Hc.
  rewrite Hc. replace (2 * (c / 2) + 1) with (1 + 2 * (c / 2)) by lia. apply low_or.
  replace (2 * (c / 2)) with ((1 + 2 ^ 1 * (1 + 2 ^ 1 * (c - 1))) / 2 ^ 2); [done|].
  replace (1 + 2 ^ 1 * (1 + 2 ^ 1 * (c - 1))) with (3 + (c - 1) * 2 ^ 2) by lia. rewrite Z.div_add by lia.
  change (3 / 2 ^ 2) with 0. lia.
Qed.

Lemma single_word m p o os : rep p (code o os) -> rising o os -> Forall (fun x => x <= 32)%nat (o :: os) -> (1 <= o)%nat ->
  exists p', (if Z.of_nat o =? 1 then p ← shl p 1; mret (p, 0) else p ← shl p (Z.of_nat o - 1); mret (p, 1)) m =
      Ret ((p', Z.of_nat (if (o =? 1)%nat then 0 else 1)), m) /\
    rep (low p' (fun x => Z.lor x 1)) (code (if (o =? 1)%nat then 0 else 1) (o :: os)).
Proof.
  intros Hrep Hr Hb Ho. pose proof (code_range o os 32 Hr Hb) as Hc. apply Forall_inv in Hb as Ho32.
  assert (Hbig : forall n : Z, 0 <= n <= Z.of_nat o -> code o os * 2 ^ n < 2 ^ 64).
  { intros n Hn. apply Z.lt_le_trans with (2 ^ (33 - Z.of_nat o) * 2 ^ n).
    - apply Z.mul_lt_mono_pos_r; [apply Z.pow_pos_nonneg; lia|]. replace (33 - Z.of_nat o) with (Z.of_nat 32 + 1 - Z.of_nat o) by lia. apply Hc.
    - rewrite <- Z.pow_add_r by lia. apply Z.pow_le_mono_r; lia. }
  destruct (Nat.eqb_spec o 1) as [->|Hne].
  - destruct (shl_Ret p _ 1 m Hrep ltac:(lia) (Hbig 1 ltac:(lia))) as (p' & Hrun & Hrep'). exists p'.
    split; [by mnext_by Hrun|]. rewrite code_cons. change (2 ^ (Z.of_nat 1 - Z.of_nat 0)) with 2. apply low_or.
    by replace (2 * code 1 os) with (code 1 os * 2 ^ 1) by lia.
  - destruct (shl_Ret p _ (Z.of_nat o - 1) m Hrep ltac:(lia) (Hbig (Z.of_nat o - 1) ltac:(lia))) as (p' & Hrun & Hrep'). exists p'.
    rewrite (proj2 (Z.eqb_neq (Z.of_nat o) 1)) by lia. split; [by mnext_by Hrun|]. rewrite code_cons.
    change (Z.of_nat 1) with 1. replace (Z.of_nat o - 1) with (1 + (Z.of_nat o - 2)) in * by lia.
    rewrite Z.pow_add_r in * by lia. change (2 ^ 1) with 2 in *. rewrite <- Z.mul_assoc. apply low_or.
    by replace (2 * (2 ^ (Z.of_nat o - 2) * code o os)) with (code o os * (2 * 2 ^ (Z.of_nat o - 2))) by lia.
Qed.

Abbreviation building := (building cmp).
Abbreviation tearing := (tearing cmp).

Lemma addr_S r : addr r + width = addr (S r).
Proof. unfold SortProofs.addr. lia. Qed.
Lemma addr_lt i j : (addr i <? addr j) = bool_decide (i < j)%nat.
Proof. unfold SortProofs.addr. case_bool_decide; [apply Z.ltb_lt|apply Z.ltb_ge]; nia. Qed.

(** The order and the place of the first tree of a row. *)
Lemma row_bounds h o os r m : N = S h -> building h o os r (elems m) -> rising o os /\ (leo o <= S r)%nat /\ (r < N)%nat /\
  Forall (fun x => x <= 32)%nat (o :: os) /\ (o <= 32)%nat.
Proof.
  intros HN [Hc Ho Hr Hk Hb]. rewrite elems_length in Hr. pose proof Hc as Hsum. rewrite cells_cons in Hsum.
  assert (Hf : Forall (fun x => x <= 32)%nat (o :: os)) by (apply (orders_bound _ N); [lia|done]).
  split; [by apply stretch_rising|]. split; [lia|]. split; [lia|]. split; [done|]. by apply Forall_inv in Hf.
Qed.

(** Whether the tree at hand stays: the comparison of [build_round]. *)
Lemma stays_spec h o r : (r <= h)%nat -> N = S h ->
  (w32 (addr h - addr r) <=? width * Z.of_nat (leo (o - 1))) = (h - r <=? leo (o - 1))%nat.
Proof.
  intros Hrh HN. assert (Hdiff : addr h - addr r = width * Z.of_nat (h - r)).
  { unfold SortProofs.addr. rewrite Nat2Z.inj_sub by lia. lia. }
  rewrite Hdiff, w32_small by nia. destruct (Nat.leb_spec (h - r) (leo (o - 1))); [apply Z.leb_le|apply Z.leb_gt]; nia.
Qed.

Lemma build_round_Ret h o os r p m : N = S h -> building h o os r (elems m) -> (r < h)%nat -> rep p (code o os) ->
  exists o' os' p' m', build_round cmp tmp width lp (addr h) (addr r) p (Z.of_nat o) m = Ret ((p', Z.of_nat o'), m') /\
    building h o' os' (S r) (elems m') /\ rep (low p' (fun x => Z.lor x 1)) (code o' os') /\ elems m' ≡ₚ elems m /\ frame m m'.
Proof.
  intros HN Hbd Hrh Hrep. destruct (row_bounds _ _ _ _ _ HN Hbd) as (Hr & Hle & HrN & Hb & Ho32).
  pose proof Hbd as [Hc Ho Hlast _ _]. pose proof (elems_length base width N m) as Hlen.
  unfold build_round. rewrite (code_mod_land p o os Hrep), (code_mod_4 o os Hr). case_bool_decide as Hadj.
  - destruct os as [|o' os]; [done|]. simpl in Hadj. subst o'.
    destruct (sift_Ret cmp tmp base width N width_pos tmp_outside lp o r m Hlp Hle HrN Ho32) as (m' & Hrun & Hel & Hfr).
    destruct (merged_word m' p o os Hrep Ho) as (p' & Hshr & Hrep'). exists (S (S o)), os, p', m'. split_and!; [|by rewrite Hel; apply building_merge|done| |done].
    + mnext_by Hrun. mnext_by Hshr. unfold mret, M_ret. do 3 f_equal. lia.
    + rewrite Hel. apply (shuffled_perm (S r - leo o) (S r)); [lia|by apply sifted_shuffled].
  - assert (Ho1 : (1 <= o)%nat).
    { destruct o; [|lia]. destruct os as [|o' os]; [done|]. destruct Ho as (_ & Ho & _). rewrite Ho in Hadj; done. }
    assert (Hsettle : exists m', (if w32 (addr h - addr r) <=? width * Z.of_nat (leo (o - 1)) then trinkle cmp tmp width lp (addr r) p (Z.of_nat o) false
      else sift cmp tmp width lp (addr r) (Z.of_nat o)) m = Ret (tt, m') /\ elems m' = settle cmp h os o r (elems m) /\ frame m m').
    { rewrite stays_spec by (done || lia). unfold settle. destruct (_ <=? _)%nat.
      - by apply (trinkle_Ret cmp tmp base width N width_pos tmp_outside).
      - by apply (sift_Ret cmp tmp base width N width_pos tmp_outside). }
    destruct Hsettle as (m' & Hrun & Hel & Hfr). destruct (single_word m' p o os Hrep Hr Hb Ho1) as (p' & Hshl & Hrep').
    exists (if (o =? 1)%nat then 0 else 1)%nat, (o :: os), p', m'. split_and!; [|by rewrite Hel; apply building_single|done| |done].
    + pose proof (leo_mono (o - 1) o ltac:(lia)).
      mnext_by (lp_at_Ret width N lp (o - 1) (Z.of_nat o - 1) m Hlp ltac:(lia) ltac:(lia)). mnext_by Hrun. exact Hshl.
    + rewrite Hel. apply (shuffled_perm 0 (S r)); [lia|by apply settle_shuffled].
Qed.

Lemma build_Ret h : N = S h -> forall n o os r p m, (h - r <= n)%nat -> building h o os r (elems m) -> rep p (code o os) ->
  exists o' os' p' m', build cmp tmp width n lp (addr h) (addr r) p (Z.of_nat o) m = Ret ((addr h, p', Z.of_nat o'), m') /\
    building h o' os' h (elems m') /\ rep p' (code o' os') /\ elems m' ≡ₚ elems m /\ frame m m'.
Proof.
  intros HN n. induction n as [|n IH]; intros o os r p m Hn Hbd Hrep; pose proof (bd_last _ _ _ _ _ _ Hbd) as Hlast;
    rewrite elems_length in Hlast; cbn [build]; rewrite addr_lt; case_bool_decide as Hrh; try lia.
  1,3: assert (r = h) as -> by lia; exists o, os, p, m; by split_and!; [..|apply frame_refl].
  destruct (build_round_Ret h o os r p m HN Hbd Hrh Hrep) as (o1 & os1 & p1 & m1 & Hrun & Hbd1 & Hrep1 & Hperm1 & Hfr1).
  destruct (IH o1 os1 (S r) (low p1 (fun x => Z.lor x 1)) m1 ltac:(lia) Hbd1 Hrep1)
    as (o' & os' & p' & m' & Hrest & Hbd' & Hrep' & Hperm' & Hfr').
  exists o', os', p', m'. split; [|split_and!; [done|done|by rewrite Hperm'|by eapply frame_trans]].
  mnext_by Hrun. rewrite addr_S. exact Hrest.
Qed.

(** ** The second loop *)

(** The double words of a split. *)
Lemma split_words m p o os : rep p (code (S (S o)) os) -> rising (S (S o)) os -> Forall (fun x => x <= 32)%nat (S (S o) :: os) ->
  exists p1 p2 p3, shl p 2 m = Ret (p1, m) /\ shr (low p1 (fun x => Z.lxor x 7)) 1 m = Ret (p2, m) /\ rep p2 (code (S o) os) /\
    (forall m', shl p2 1 m' = Ret (p3, m')) /\ rep (low p3 (fun x => Z.lor x 1)) (code o (S o :: os)).
Proof.
  intros Hrep Hr Hb. pose proof (code_range _ _ 32 Hr Hb) as Hc.
  assert (Hb32 : 2 ^ (Z.of_nat 32 + 1 - Z.of_nat (S (S o))) <= 2 ^ 31) by (apply Z.pow_le_mono_r; lia).
  pose proof (rising_odd _ _ Hr) as Hodd. assert (Hhd : match os with [] => True | o' :: _ => (S (S o) <= o')%nat end).
  { destruct os; [done|]. destruct Hr. lia. }
  pose proof (code_rest (S o) (S (S o)) os ltac:(lia) Hhd) as Hrest.
  replace (Z.of_nat (S (S o)) - Z.of_nat (S o)) with 1 in Hrest by lia. set (c := code (S (S o)) os) in *.
  pose proof (Z.div_mod c 2 ltac:(lia)) as Hc2. rewrite Zmod_odd, Hodd in Hc2.
  destruct (shl_Ret p c 2 m Hrep ltac:(lia) ltac:(lia)) as (p1 & Hrun1 & Hp1).
  replace (c * 2 ^ 2) with (8 * (c / 2) + 4) in Hp1 by lia. apply low_xor in Hp1.
  destruct (shr_Ret _ _ 1 m Hp1 ltac:(lia)) as (p2 & Hrun2 & Hp2).
  replace ((8 * (c / 2) + 3) / 2 ^ 1) with (code (S o) os) in Hp2.
  2: { rewrite Hrest. replace (8 * (c / 2) + 3) with (1 + (1 + 2 ^ 1 * (c - 1)) * 2 ^ 1) by lia. rewrite Z.div_add by lia. done. }
  destruct (shl_Ret p2 _ 1 m Hp2 ltac:(lia) ltac:(lia)) as (p3 & Hrun3 & Hp3).
  exists p1, p2, p3. split_and!; [done|done|done| |].
  - intros m'. revert Hrun3. unfold shl. destruct (if 32 <=? w32 1 then _ else _) as [[? ?] ?]. by destruct (shift_ok _); [intros [= <-]|].
  - rewrite code_cons. replace (Z.of_nat (S o) - Z.of_nat o) with 1 by lia. change (2 ^ 1) with 2 in *.
    apply low_or. by rewrite Z.mul_comm in Hp3.
Qed.

Lemma tear_round_Ret o os r p m : tearing o os r (elems m) -> rep p (code o os) -> (o, os) <> (1%nat, []) ->
  exists o' os' p' m', tear_round cmp tmp width lp (addr r) p (Z.of_nat o) m = Ret ((p', Z.of_nat o'), m') /\
    (1 <= r)%nat /\ tearing o' os' (r - 1) (elems m') /\ rep p' (code o' os') /\ elems m' ≡ₚ elems m /\ frame m m'.
Proof.
  intros Ht Hrep Hnot. pose proof Ht as [Hc Hr Hlast _ _]. rewrite elems_length in Hlast.
  assert (Hb : Forall (fun x => x <= 32)%nat (o :: os)) by (apply (orders_bound _ N); [lia|done]).
  pose proof (elems_length base width N m) as Hlen. unfold tear_round. destruct o as [|[|o]].
  1,2: destruct os as [|o' os]; [done|]; destruct (next_tree m p _ o' os Hr Hb Hrep) as (Hpntz & p' & Hshr & Hrep');
    cbv zeta in Hpntz, Hshr; destruct (tearing_remove cmp _ o' os r _ Ht ltac:(lia)) as [Ht' Hr1];
    exists o', os, p', m; (split; [|by split_and!; [..|apply frame_refl]]);
    mnext_by Hpntz; mnext_by Hshr; unfold mret, M_ret; do 3 f_equal; lia.
  destruct (split_words m p o os Hrep Hr Hb) as (p1 & p2 & p3 & Hrun1 & Hrun2 & Hp2 & Hrun3 & Hp3).
  destruct (split_cells _ _ _ Hc) as (Hc1 & Hc2 & Hle). pose proof (tearing_split cmp o os r (elems m) Ht) as Hnext.
  pose proof (tg_orders _ _ _ _ _ Hnext) as Hr2. pose proof Hr2 as (_ & _ & Hr1).
  assert (Hb2 : Forall (fun x => x <= 32)%nat (o :: S o :: os)) by (apply (orders_bound _ N); [lia|done]).
  destruct (trinkle_Ret cmp tmp base width N width_pos tmp_outside lp os (S o) (r - 1 - leo o) p2 true m Hlp Hc1 ltac:(lia) Hr1
    ltac:(by apply Forall_cons in Hb2 as [_ ?]) Hp2) as (m1 & Hrun4 & Hel1 & Hfr1).
  destruct (trinkle_Ret cmp tmp base width N width_pos tmp_outside lp (S o :: os) o (r - 1) (low p3 (fun x => Z.lor x 1)) true m1
    Hlp Hc2 ltac:(lia) Hr2 Hb2 Hp3) as (m2 & Hrun5 & Hel2 & Hfr2).
  exists o, (S o :: os), (low p3 (fun x => Z.lor x 1)), m2. split_and!; [|lia| |done| |by eapply frame_trans].
  - rewrite (proj2 (Z.leb_gt (Z.of_nat (S (S o))) 1)) by lia. mnext_by Hrun1. cbv zeta. mnext_by Hrun2.
    replace (Z.of_nat (S (S o)) - 2) with (Z.of_nat o) by lia.
    pose proof (leo_mono o (S o) ltac:(lia)). rewrite cells_cons in Hc1. unfold cells in Hc1.
    mnext_by (lp_at_Ret width N lp o (Z.of_nat o) m Hlp ltac:(lia) eq_refl).
    replace (addr r - width * Z.of_nat (leo o) - width) with (addr (r - 1 - leo o)) by (unfold SortProofs.addr; rewrite !Nat2Z.inj_sub by lia; lia).
    replace (Z.of_nat o + 1) with (Z.of_nat (S o)) by lia. mnext_by Hrun4. mnext_by (Hrun3 m1).
    replace (addr r - width) with (addr (r - 1)) by (unfold SortProofs.addr; rewrite Nat2Z.inj_sub by lia; lia).
    by mnext_by Hrun5.
  - by rewrite Hel2, Hel1.
  - rewrite Hel2, Hel1. etransitivity.
    + apply (shuffled_perm 0 (S (r - 1))); [|by apply trinkled_shuffled].
      rewrite (shuffled_length _ _ _ _ (trinkled_shuffled cmp _ _ _ _ _ Hc1)). lia.
    + apply (shuffled_perm 0 (S (r - 1 - leo o))); [lia|by apply trinkled_shuffled].
Qed.

Definition ordered (l : list (list Z)) : Prop := forall i j, (i <= j < length l)%nat -> cmp (l !!! i) (l !!! j) <= 0.

Lemma tear_Ret n : forall o os r p m, (r <= n)%nat -> tearing o os r (elems m) -> rep p (code o os) ->
  exists m', tear cmp tmp width n lp (addr r) p (Z.of_nat o) m = Ret (tt, m') /\
    ordered (elems m') /\ elems m' ≡ₚ elems m /\ frame m m'.
Proof.
  induction n as [|n IH]; intros o os r p m Hn Ht Hrep; pose proof (tg_orders _ _ _ _ _ Ht) as Hr;
    cbn [tear]; rewrite <- andb_assoc, (rep_one p o os Hr Hrep);
    (destruct (decide ((o, os) = (1%nat, []))) as [[= -> ->]|Hnot];
      [exists m; split; [done|]; split; [exact (proj2 (tearing_done cmp r _ Ht))|by split; [|apply frame_refl]]|]);
    destruct (tear_round_Ret o os r p m Ht Hrep Hnot) as (o1 & os1 & p1 & m1 & Hrun & Hr1 & Ht1 & Hrep1 & Hperm1 & Hfr1); [lia|].
  destruct (IH o1 os1 (r - 1)%nat p1 m1 ltac:(lia) Ht1 Hrep1) as (m' & Hrest & Hord & Hperm & Hfr).
  exists m'. split; [|split_and!; [done|by rewrite Hperm|by eapply frame_trans]].
  replace ((Z.of_nat o =? 1) && bool_decide (os = [])) with false.
  - mnext_by Hrun. by replace (addr r - width) with (addr (r - 1)) by (unfold SortProofs.addr; rewrite Nat2Z.inj_sub by lia; lia).
  - symmetry. apply andb_false_iff. destruct (decide (o = 1%nat)) as [->|]; [right; apply bool_decide_false; congruence|left; apply Z.eqb_neq; lia].
Qed.
End Qsort.

(** ** The functions *)

Section Theorems.
Context (cmp : list Z -> list Z -> Z) `{!Comparison cmp} (tmp width : Z).
Implicit Types (m : memory) (N : nat).

(** C25: [qsort] with a comparison function that is a total preorder returns,
    with the elements of the array in ascending order, a permutation of what
    they were, and nothing else changed but the local array of [cycle]; for
    any width of elements up to 1 GiB, arrays up to 2 GiB and fewer than
    [MAX_NEL] elements (below which the orders of neighbouring trees differ
    by less than 32). *)
Theorem qsort_sorts base N m : 0 < width <= 2 ^ 30 -> width * Z.of_nat N < 2 ^ 31 -> Z.of_nat N < MAX_NEL ->
  tmp + 256 <= base \/ base + width * Z.of_nat N <= tmp ->
  exists m', qsort cmp tmp width base (Z.of_nat N) m = Ret (tt, m') /\
    elems base width N m' ≡ₚ elems base width N m /\ ordered cmp (elems base width N m') /\
    frame tmp base width N m m'.
Proof.
  intros [Hw Hw30] Hsize Hfew Htmp. unfold qsort. rewrite w32_small by nia.
  destruct (Z.eqb_spec (width * Z.of_nat N) 0) as [Hz|Hz].
  { assert (N = O) as -> by nia. exists m. split; [done|]. split; [done|]. split; [intros i j Hij; simpl in Hij; lia|apply frame_refl]. }
  destruct N as [|h]; [lia|]. set (N := S h) in *.
  replace [width; width] with (lps width 2) by (unfold lps; simpl; f_equal; [lia|f_equal; lia]).
  destruct (leonardo_Ret width N Hw (conj Hw30 Hsize) 48 2 m) as (k & Hlp & Hk & HN); [lia|lia|intros i Hi; lia|]. mstep Hlp.
  assert (Hok : lp_ok width N (lps width (S k))) by (by apply lps_ok).
  assert (Hbd : building cmp h 1 [] 0 (elems base width N m)).
  { split; [done|done|rewrite elems_length; lia|done|done]. }
  destruct (build_Ret cmp tmp base width N Hw Htmp (conj Hw30 Hsize) _ Hok Hfew h eq_refl N 1 [] 0 (1, 0) m)
    as (o & os & p & m1 & Hbuild & Hbd1 & Hrep1 & Hperm1 & Hfr1); [lia|done|by split_and!|].
  assert (Hhigh : base + width * Z.of_nat N - width = addr base width h) by (unfold addr; subst N; lia).
  assert (Hbase : base = addr base width 0) by (unfold addr; lia).
  rewrite Hhigh. rewrite <- Hbase in Hbuild. rewrite Nat2Z.id. mstep Hbuild.
  destruct (row_bounds cmp base width N Hfew h o os h m1 eq_refl Hbd1) as (Hr & Hle & HhN & Hb & Ho32).
  destruct (trinkle_Ret cmp tmp base width N Hw Htmp _ os o h p false m1 Hok (bd_cells _ _ _ _ _ _ Hbd1) HhN Hr Hb Hrep1)
    as (m2 & Htr & Hel2 & Hfr2). mstep Htr.
  assert (Ht : tearing cmp o os h (elems base width N m2)).
  { rewrite Hel2. apply tearing_start; [done|done|by apply elems_length]. }
  destruct (tear_Ret cmp tmp base width N Hw Htmp _ Hok Hfew N o os h p m2 ltac:(lia) Ht Hrep1)
    as (m3 & Htear & Hord & Hperm3 & Hfr3).
  exists m3. split; [done|]. split; [|split; [done|]].
  - rewrite Hperm3, Hel2. rewrite <- Hperm1. apply (shuffled_perm 0 (S h)); [by rewrite elems_length|].
    apply trinkled_shuffled, Hbd1.
  - eapply frame_trans; [exact Hfr1|]. by eapply frame_trans.
Qed.

(** [pntz], which looks for the next tree, is undefined whenever that tree
    is 32 or more orders away (the low word is 1 and [__builtin_ctz] gets 0).
    [trinkle] comes to it when the root of a single element is less than that
    of a tree of order 33, as in the row of [MAX_NEL + 1] elements. *)
Theorem qsort_far lp head p m : fst p = 1 -> snd p <> 0 -> lp_at lp 1 m = Ret (width, m) ->
  0 < cmp (bytes m (head - width) width) (bytes m head width) ->
  pntz p m = Stop Undefined /\ trinkle cmp tmp width lp head p 1 false m = Stop Undefined.
Proof.
  intros Hlow Hhigh Hlp Hcmp. assert (Hp : pntz p m = Stop Undefined) by (unfold pntz; by rewrite Hlow).
  split; [done|]. apply bind_Stop. cbn [trinkle_path]. rewrite Hlow. replace (snd p =? 0) with false by lia. cbn [Z.eqb Pos.eqb andb].
  assert (Hc : compare cmp width (head - width) head m = Ret (cmp (bytes m (head - width) width) (bytes m head width), m)) by done.
  mstep Hlp. cbv zeta. mstep Hc. replace (_ <=? 0) with false by lia.
  assert (Hreach : reaches cmp width lp head (head - width) 1 false m = Ret (false, m)) by done.
  mstep Hreach. by apply bind_Stop.
Qed.

(** The keys less than the one searched for come first, then equal ones, then
    greater ones. *)
Definition partitioned (key : list Z) (l : list (list Z)) : Prop :=
  forall i j, (i <= j < length l)%nat -> (cmp key (l !!! i) < 0 -> cmp key (l !!! j) < 0) /\ (0 < cmp key (l !!! j) -> 0 < cmp key (l !!! i)).

Lemma bsearch_Ret N base key m : 0 < width -> width * Z.of_nat N < 2 ^ 32 -> Z.of_nat N < 2 ^ 32 ->
  partitioned (bytes m key width) (elems base width N m) ->
  forall fuel lo n, (lo + n <= N)%nat -> Z.of_nat n < 2 ^ Z.of_nat fuel ->
  (forall i, (i < lo)%nat -> 0 < cmp (bytes m key width) (elems base width N m !!! i)) ->
  (forall i, (lo + n <= i < N)%nat -> cmp (bytes m key width) (elems base width N m !!! i) < 0) ->
  exists r, bsearch cmp width fuel key (addr base width lo) (Z.of_nat n) m = Ret (r, m) /\
    match r with
    | Some a => exists i, (i < N)%nat /\ a = addr base width i /\ cmp (bytes m key width) (elems base width N m !!! i) = 0
    | None => forall i, (i < N)%nat -> cmp (bytes m key width) (elems base width N m !!! i) <> 0
    end.
Proof.
  intros Hw Hsize HN Hpart fuel. induction fuel as [|fuel IH]; intros lo n Hn Hfuel Hbelow Habove; cbn [bsearch].
  - assert (n = O) as -> by (simpl in Hfuel; lia). exists None. split; [done|]. intros i Hi.
    destruct (decide (i < lo)%nat); [specialize (Hbelow i)|specialize (Habove i)]; lia.
  - destruct (Z.ltb_spec 0 (Z.of_nat n)) as [Hpos|Hzero].
    2: { exists None. split; [done|]. intros i Hi. destruct (decide (i < lo)%nat); [specialize (Hbelow i)|specialize (Habove i)]; lia. }
    rewrite Nat2Z.inj_succ, Z.pow_succ_r in Hfuel by lia. set (k := (n / 2)%nat).
    assert (Hk : Z.of_nat n / 2 = Z.of_nat k) by (subst k; by rewrite Nat2Z.inj_div). rewrite Hk.
    assert (Hkn : (k < n)%nat) by (apply Nat.div_lt; lia). assert (Hkf : Z.of_nat n / 2 < 2 ^ Z.of_nat fuel) by (apply Z.div_lt_upper_bound; lia).
    assert (Hhalf : Z.of_nat n < 2 * Z.of_nat k + 2) by (rewrite <- Hk; pose proof (Z.mod_pos_bound (Z.of_nat n) 2); pose proof (Z.div_mod (Z.of_nat n) 2); lia).
    assert (Htry : addr base width lo + w32 (width * Z.of_nat k) = addr base width (lo + k)).
    { unfold addr. rewrite w32_small by nia. lia. }
    cbv zeta. rewrite Htry. set (c := cmp (bytes m key width) (elems base width N m !!! (lo + k)%nat)).
    assert (Hc : compare cmp width key (addr base width (lo + k)) m = Ret (c, m)).
    { unfold compare, gets, c. by rewrite elems_at by lia. }
    mstep Hc. destruct (Z.ltb_spec c 0) as [Hneg|Hnn]; [|destruct (Z.ltb_spec 0 c) as [Hgt|Hz]].
    + destruct (IH lo k) as (r & Hrun & Hr); [lia|lia|done| |by exists r].
      intros i Hi. destruct (decide (lo + n <= i)%nat); [apply Habove; lia|].
      refine (proj1 (Hpart (lo + k)%nat i _) Hneg). rewrite elems_length. lia.
    + destruct (IH (lo + k + 1)%nat (n - (k + 1))%nat) as (r & Hrun & Hr); [lia|lia| |intros i Hi; apply Habove; lia|].
      * intros i Hi. destruct (decide (i < lo)%nat); [by apply Hbelow|].
        refine (proj2 (Hpart i (lo + k)%nat _) Hgt). rewrite elems_length. lia.
      * exists r. split; [|done]. rewrite <- Hrun. f_equal; [unfold addr; lia|]. rewrite w32_small; lia.
    + exists (Some (addr base width (lo + k))). split; [done|]. exists (lo + k)%nat. split_and!; [lia|done|fold c; lia].
Qed.

(** C26: [bsearch] in an array that is partitioned with respect to the key ends
    within 32 comparisons; it returns the address of an element that is equal
    to the key, or [NULL] when there is none, and changes nothing. *)
Theorem bsearch_finds base N key m : 0 < width -> width * Z.of_nat N < 2 ^ 32 ->
  partitioned (bytes m key width) (elems base width N m) ->
  exists r, bsearch cmp width 32 key base (Z.of_nat N) m = Ret (r, m) /\
    match r with
    | Some a => exists i, (i < N)%nat /\ a = addr base width i /\ cmp (bytes m key width) (elems base width N m !!! i) = 0
    | None => forall i, (i < N)%nat -> cmp (bytes m key width) (elems base width N m !!! i) <> 0
    end.
Proof.
  intros Hw Hsize Hpart. assert (Hbase : addr base width 0 = base) by (unfold addr; lia).
  destruct (bsearch_Ret N base key m Hw Hsize ltac:(nia) Hpart 32 0 N) as (r & Hrun & Hr);
    [lia|change (2 ^ Z.of_nat 32) with (2 ^ 32); nia|lia|lia|].
  exists r. by rewrite Hbase in Hrun.
Qed.
End Theorems.
