(* ===== verification/SearchExamples.v ===== *)
(** The theorems on search trees applied to trees of integers, on hash tables
    and on sorting. *)
From S2P Require Import Prelude.
From S2P Require Import Wasi.
From S2P Require Import Sim.
From S2P Require Import Avl.
From S2P Require Import AvlTree.
From S2P Require Import AvlProofs.
From S2P Require Import AvlTheorems.
From S2P Require Import Hsearch.
From S2P Require Import HsearchProofs.

#[export] Instance sub_comparison : Comparison Z.sub.
Proof. split; lia. Qed.

(** An allocator that always finds a free address. *)
Definition next_free (m : gmap addr (node Z)) : option addr := Some (fresh (dom m)).

Lemma next_free_fresh m a : next_free m = Some a -> m !! a = None.
Proof. intros [= <-]. apply not_elem_of_dom, is_fresh. Qed.

Definition heap_of (t : tree Z) : tstate := TState (root_of t) (list_to_map (cells t)).

Lemma holds_heap_of t : NoDup (cells t).*1 -> holds (heap_of t) t ∅.
Proof. intros Hn. split; [done|]. split; [done|]. split; [done|]. by rewrite (right_id_L ∅ _). Qed.

(** 10 with 20 to its right; 20 with 10 and 30. *)
Definition two : tree Z := Br 1%positive 10 2 Leaf (Br 2%positive 20 1 Leaf Leaf).
Definition three : tree Z := Br 2%positive 20 2 (Br 1%positive 10 1 Leaf Leaf) (Br 3%positive 30 1 Leaf Leaf).

Lemma two_search_tree : search_tree Z.sub (heap_of two) two ∅.
Proof.
  split; [apply holds_heap_of, (proj1 (bool_decide_eq_true _)); vm_compute; reflexivity|simpl; lia|repeat constructor|reflexivity].
Qed.
Lemma three_search_tree : search_tree Z.sub (heap_of three) three ∅.
Proof.
  split; [apply holds_heap_of, (proj1 (bool_decide_eq_true _)); vm_compute; reflexivity|simpl; lia|repeat constructor|reflexivity].
Qed.

(** Inserting 30 rotates: afterwards 20 is the root. *)
Lemma tsearch_spec_witness :
  rootp (after (tsearch Z.sub next_free 30 false) (heap_of two)) = Some 2%positive /\
  exists p s', tsearch Z.sub next_free 30 false (heap_of two) = Ret (p, s') /\
    ((exists a k0, (a, k0) ∈ pairs two /\ 30 - k0 = 0 /\ p = Some a /\ s' = heap_of two) \/
     ((forall q, q ∈ pairs two -> 30 - snd q <> 0) /\
      match next_free (nodes (heap_of two)) with
      | None => p = None /\ s' = heap_of two
      | Some a => p = Some a /\ exists t' pre post, pairs two = pre ++ post /\ pairs t' = pre ++ (a, 30) :: post /\
          holds s' t' ∅ /\ avl t' /\ ordered Z.sub (keys t')
      end)).
Proof.
  split; [vm_compute; reflexivity|]. apply (tsearch_spec Z.sub next_free next_free_fresh 30 _ two ∅), two_search_tree.
Defined.

(** Deleting 20 frees the node of 10 and leaves 10 in the node of 20. *)
Lemma tdelete_spec_witness :
  nodes (after (tdelete Z.sub 20 false) (heap_of three)) !! 2%positive = Some (Node 10 None (Some 3%positive) 2) /\
  exists ret s', tdelete Z.sub 20 false (heap_of three) = Ret (ret, s') /\
    (((forall p, p ∈ pairs three -> 20 - snd p <> 0) /\ ret = None /\ s' = heap_of three) \/
     exists a k0 pre post t' p, pairs three = pre ++ (a, k0) :: post /\ 20 - k0 = 0 /\
       (pairs t' = pre ++ post \/
        exists pre' m km, pre = pre' ++ [(m, km)] /\ pairs t' = pre' ++ (a, km) :: post) /\
       holds s' t' ∅ /\ avl t' /\ ordered Z.sub (keys t') /\ ret = Some p /\
       (root_of three = Some a /\ p = a \/
        p ∈ map fst (pairs t') /\ exists np, nodes (heap_of three) !! p = Some np /\ (kid0 np = Some a \/ kid1 np = Some a))).
Proof.
  split; [vm_compute; reflexivity|]. apply (tdelete_spec Z.sub 20 (heap_of three) three ∅), three_search_tree.
Defined.

Lemma tfind_spec_witness :
  tfind Z.sub 45 30 false (heap_of three) = Ret (Some 3%positive, heap_of three) /\
  exists p, tfind Z.sub 45 30 false (heap_of three) = Ret (p, heap_of three) /\
    ((exists a k0, (a, k0) ∈ pairs three /\ 30 - k0 = 0 /\ p = Some a) \/
     ((forall q, q ∈ pairs three -> 30 - snd q <> 0) /\ p = None)).
Proof.
  split; [reflexivity|]. apply (tfind_spec Z.sub 30 (heap_of three) three ∅ 45); [apply three_search_tree|lia].
Defined.

Lemma twalk_spec_witness :
  exists ev, twalk 2 (rootp (heap_of three)) (heap_of three) = Ret (ev, heap_of three) /\
    map (fun e => fst (fst e)) (filter middle ev) = [1; 2; 3]%positive /\
    forall a, a ∈ [1; 2; 3]%positive -> exists d,
      visits a ev = [(leaf, d)] \/ visits a ev = [(preorder, d); (postorder, d); (endorder, d)].
Proof.
  apply (twalk_spec (heap_of three) three ∅ 2); [apply three_search_tree|simpl; lia|simpl; lia].
Defined.

Lemma tdestroy_spec_witness :
  exists ks s', tdestroy 2 (rootp (heap_of three)) true (heap_of three) = Ret (ks, s') /\ nodes s' = ∅ /\
    ks ≡ₚ [10; 20; 30].
Proof.
  apply (tdestroy_spec (heap_of three) three ∅ 2 true); [apply three_search_tree|simpl; lia].
Defined.

(** * The theorem on the hash table applied to a table with room for six keys. *)

(** An allocator with a megabyte that is never used up. *)
Definition megabyte (n size : Z) (a : unit) : bool * unit := (n * size <? 2 ^ 20, a).

#[export] Instance megabyte_laws : CallocLaws megabyte.
Proof. split. intros n size a Hov. unfold megabyte. simpl. lia. Qed.

Definition created : hstate (A := unit) := after (__hcreate_r megabyte 5) (HState None tt).

Lemma created_empty : hash_map created ∅.
Proof.
  destruct (hcreate_Ret megabyte 5 (HState None tt) ltac:(lia)) as (ret & s' & Hrun & Hcase).
  unfold created, after. rewrite Hrun. destruct Hcase as [[_ Hm]|[Hret _]]; [exact Hm|]. exfalso.
  assert (Hone : result (__hcreate_r megabyte 5) (HState None tt) = Some 1) by (vm_compute; reflexivity).
  unfold result in Hone. rewrite Hrun in Hone. injection Hone as ->. done.
Qed.

(** Entering "ab" with data 7. *)
Lemma hsearch_spec_witness :
  result (hsearch megabyte [97; 98] 7 ENTER) created = Some (Some 1) /\
  exists ret e s', __hsearch_r megabyte [97; 98] 7 ENTER created = Ret ((ret, e), s') /\
    ((ret = 1 /\ hash_map s' (<[[97; 98] := 7]> ∅) /\ points_to s' e [97; 98] 7) \/
     (ret = 0 /\ e = None /\ hash_map s' ∅ /\ exists size, fst (megabyte size 8 (alloc created)) = false)).
Proof.
  split; [vm_compute; reflexivity|]. apply (hsearch_spec megabyte [97; 98] 7 ENTER created ∅ created_empty).
Defined.

(** * The theorems on sorting and searching applied to an array of seven pairs of
    bytes, ordered by their first bytes. *)
From S2P Require Import Sort.
From S2P Require Import SortTrees.
From S2P Require Import SortProofs.
From S2P Require Import SortTheorems.

Definition by_first (x y : list Z) : Z := hd 0 x - hd 0 y.
#[export] Instance by_first_ok : Comparison by_first.
Proof. split; unfold by_first; lia. Qed.

(** The array at address 100, read from a list. *)
Definition array_at (l : list Z) : memory := fun a => if a <? 100 then 0 else default 0 (l !! Z.to_nat (a - 100)).
Definition pairs0 : memory := array_at [9; 1; 5; 2; 9; 3; 3; 4; 2; 5; 1; 6; 7; 7].

Lemma qsort_sorts_witness :
  elems 100 2 7 (after (qsort by_first 1000 2 100 7) pairs0) = [[1; 6]; [2; 5]; [3; 4]; [5; 2]; [7; 7]; [9; 1]; [9; 3]] /\
  exists m', qsort by_first 1000 2 100 (Z.of_nat 7) pairs0 = Ret (tt, m') /\
    elems 100 2 7 m' ≡ₚ elems 100 2 7 pairs0 /\ ordered by_first (elems 100 2 7 m') /\ frame 1000 100 2 7 pairs0 m'.
Proof. split; [vm_compute; reflexivity|]. apply (qsort_sorts by_first 1000 2 100 7 pairs0); unfold MAX_NEL; lia. Defined.

(** A descending pair of a tree of order 33 and a single element. *)
Lemma qsort_far_witness :
  pntz (1, 1) pairs0 = Stop Undefined /\ trinkle by_first 1000 2 [2; 2; 6] 102 (1, 1) 1 false pairs0 = Stop Undefined.
Proof. apply (qsort_far by_first 1000 2 [2; 2; 6] 102 (1, 1) pairs0); by vm_compute. Defined.

Definition sorted0 : memory := array_at [1; 6; 2; 5; 3; 4; 5; 2; 7; 7; 9; 1; 9; 3; 7; 0].

Lemma bsearch_finds_witness :
  result (bsearch by_first 2 32 114 100 7) sorted0 = Some (Some 108) /\
  exists r, bsearch by_first 2 32 114 100 (Z.of_nat 7) sorted0 = Ret (r, sorted0) /\
    match r with
    | Some a => exists i, (i < 7)%nat /\ a = addr 100 2 i /\ by_first (bytes sorted0 114 2) (elems 100 2 7 sorted0 !!! i) = 0
    | None => forall i, (i < 7)%nat -> by_first (bytes sorted0 114 2) (elems 100 2 7 sorted0 !!! i) <> 0
    end.
Proof.
  split; [vm_compute; reflexivity|]. apply (bsearch_finds by_first 2 100 7 114 sorted0); [lia|lia|].
  change (elems 100 2 7 sorted0) with [[1; 6]; [2; 5]; [3; 4]; [5; 2]; [7; 7]; [9; 1]; [9; 3]].
  change (bytes sorted0 114 2) with [7; 0]. intros i j Hij. simpl in Hij.
  do 7 (destruct i as [|i]; [do 7 (destruct j as [|j]; [unfold by_first; simpl; lia|]); lia|]). lia.
Defined.
