(* ===== verification/IntScan.v ===== *)
(** Parsing integers: [__intscan] on strings ([musl/src/internal/intscan.c],
    [shgetc.c]) and the functions of [stdlib/strtol.c]; [atoi] and its kin. *)
From S2P Require Import Prelude.
From S2P Require Import Wasi.

Definition ULLONG_MAX : Z := 2 ^ 64 - 1.
Definition UINT_MAX : Z := 2 ^ 32 - 1.

(** Characters are [unsigned char]. *)
Definition isspace (c : Z) : bool := (c =? 32) || (w32 (c - 9) <? 5).
Definition isdigit (c : Z) : bool := w32 (c - 48) <? 10.

(** [table], with its entry for [EOF] in front; -1 is 255. *)
Definition table : list Z :=
  replicate 49 255 ++ seqZ 0 10 ++ replicate 7 255 ++ seqZ 10 26 ++ replicate 6 255 ++ seqZ 10 26 ++ replicate 133 255.
Definition val (c : Z) : Z := table !!! Z.to_nat (c + 1).

(** The shift for a power of two: the string literal indexed by a hash. *)
Definition bs_of (base : Z) : Z :=
  [0; 1; 2; 4; 7; 3; 6; 5] !!! Z.to_nat (Z.land (Z.shiftr (w32 (23 * base)) 5) 7).

Section Scan.
(** The string that the pseudo-FILE reads. *)
Variable s : list Z.

(** The fields of [FILE] that change ([rpos] counted from the string;
    [shlim] is 0 and [shend] is never reached) and [errno]. *)
Record sfile := SFile { rpos : Z; shcnt : Z; scan_errno : Z }.
Abbreviation FM := (M sfile).

Definition shgetc : FM Z :=
  f ← get;
  if (0 <=? rpos f) && (rpos f <=? Z.of_nat (length s)) then
    put (SFile (rpos f + 1) (shcnt f) (scan_errno f));; mret (at_ s (Z.to_nat (rpos f)))
  else halt Undefined.
Definition shunget : FM unit := modify (fun f => SFile (rpos f - 1) (shcnt f) (scan_errno f)).
(** [shlim(f, 0)]. *)
Definition shlim0 : FM unit := modify (fun f => SFile (rpos f) (- rpos f) (scan_errno f)).
Definition scan_fail (e : Z) : FM unit := modify (fun f => SFile (rpos f) (shcnt f) e).

(** Loops: [fuel] bounds the characters read. *)
Fixpoint skip_spaces (fuel : nat) : FM Z :=
  match fuel with
  | O => halt OutOfFuel
  | S fuel => c ← shgetc; if isspace c then skip_spaces fuel else mret c
  end.

(** [for (; go c x; c=shgetc(f)) x = step x c]. *)
Fixpoint accumulate (fuel : nat) (go : Z -> Z -> bool) (step : Z -> Z -> Z) (c x : Z) : FM (Z * Z) :=
  if go c x then
    match fuel with
    | O => halt OutOfFuel
    | S fuel => c' ← shgetc; accumulate fuel go step c' (step x c)
    end
  else mret (c, x).

(** The two loops of each kind of base; [x] is [unsigned], [y] is
    [unsigned long long]. *)
Definition scan_ten (fuel : nat) (c : Z) : FM (Z * Z) :=
  '(c, x) ← accumulate fuel (fun c x => isdigit c && (x <=? UINT_MAX / 10 - 1)) (fun x c => w32 (w32 (x * 10) + w32 (c - 48))) c 0;
  accumulate fuel (fun c y => isdigit c && (y <=? ULLONG_MAX / 10) && (w64 (10 * y) <=? ULLONG_MAX - (c - 48)))
    (fun y c => w64 (w64 (y * 10) + w64 (c - 48))) c x.

Definition scan_power (fuel : nat) (base c : Z) : FM (Z * Z) :=
  let bs := bs_of base in
  '(c, x) ← accumulate fuel (fun c x => (val c <? base) && (x <=? UINT_MAX / 32)) (fun x c => Z.lor (w32 (Z.shiftl x bs)) (val c)) c 0;
  accumulate fuel (fun c y => (val c <? base) && (y <=? Z.shiftr ULLONG_MAX bs)) (fun y c => Z.lor (w64 (Z.shiftl y bs)) (val c)) c x.

Definition scan_other (fuel : nat) (base c : Z) : FM (Z * Z) :=
  '(c, x) ← accumulate fuel (fun c x => (val c <? base) && (x <=? UINT_MAX / 36 - 1)) (fun x c => w32 (w32 (x * base) + val c)) c 0;
  accumulate fuel (fun c y => (val c <? base) && (y <=? ULLONG_MAX / base) && (w64 (base * y) <=? ULLONG_MAX - val c))
    (fun y c => w64 (w64 (y * base) + val c)) c x.

(** The base and the first digit, or the value returned at once. *)
Definition scan_prefix (base : Z) (pok : bool) (c : Z) : FM (Z + Z * Z) :=
  if ((base =? 0) || (base =? 16)) && (c =? 48) then
    c ← shgetc;
    if Z.lor c 32 =? 120 then
      c ← shgetc;
      if 16 <=? val c then
        shunget;;
        (if pok then shunget else shlim0);;
        mret (inl 0)
      else mret (inr (16, c))
    else mret (inr (if base =? 0 then 8 else base, c))
  else
    let base := if base =? 0 then 10 else base in
    if base <=? val c then
      shunget;; shlim0;; scan_fail EINVAL;; mret (inl 0)
    else mret (inr (base, c)).

(** From the label [done] on. *)
Definition scan_done (lim neg y : Z) : FM Z :=
  shunget;;
  if (lim <=? y) && (Z.land lim 1 =? 0) && (neg =? 0) then scan_fail ERANGE;; mret (w64 (lim - 1))
  else if (lim <=? y) && (lim <? y) then scan_fail ERANGE;; mret lim
  else mret (w64 (Z.lxor y (w64 neg) - w64 neg)).

Definition __intscan (fuel : nat) (base : Z) (pok : bool) (lim : Z) : FM Z :=
  if (36 <? base) || (base =? 1) then scan_fail EINVAL;; mret 0 else
  c ← skip_spaces fuel;
  '(c, neg) ← (if (c =? 43) || (c =? 45) then
                 let neg := if c =? 45 then -1 else 0 in
                 c ← shgetc; mret (c, neg)
               else mret (c, 0));
  r ← scan_prefix base pok c;
  match r with
  | inl v => mret v
  | inr (base, c) =>
      '(c, y) ← (if base =? 10 then scan_ten fuel c
                 else if Z.land base (base - 1) =? 0 then scan_power fuel base c
                 else scan_other fuel base c);
      if (base =? 10) && (10 <=? w32 (c - 48)) then scan_done lim neg y else
      if val c <? base then
        '(c, _) ← accumulate fuel (fun c _ => val c <? base) (fun x _ => x) c 0;
        scan_fail ERANGE;;
        scan_done lim (if Z.land lim 1 =? 0 then neg else 0) lim
      else scan_done lim neg y
  end.

(** The value and the number of characters before the pointer stored. *)
Definition strtox (base lim : Z) : FM (Z * Z) :=
  f ← get;
  put (SFile 0 0 (scan_errno f));;
  shlim0;;
  y ← __intscan (S (length s)) (w32 base) true lim;
  f ← get;
  mret (y, shcnt f + rpos f).

Definition LLONG_MIN : Z := - 2 ^ 63.
Definition LONG_MIN : Z := - 2 ^ 31.
Definition ULONG_MAX : Z := 2 ^ 32 - 1.

Definition strtoull (base : Z) : FM (Z * Z) := strtox base ULLONG_MAX.
Definition strtoll (base : Z) : FM (Z * Z) := '(y, n) ← strtox base (w64 LLONG_MIN); mret (s64 y, n).
Definition strtoul (base : Z) : FM (Z * Z) := '(y, n) ← strtox base ULONG_MAX; mret (w32 y, n).
Definition strtol (base : Z) : FM (Z * Z) := '(y, n) ← strtox base (w32 LONG_MIN); mret (s32 y, n).
Definition strtoimax (base : Z) : FM (Z * Z) := strtoll base.
Definition strtoumax (base : Z) : FM (Z * Z) := strtoull base.
End Scan.

(** ** [atoi], [atol], [atoll]

    Characters are [char], which is signed; the signed arithmetic must not
    overflow a [w]-bit type. *)
Definition char (c : Z) : Z := if c <? 128 then c else c - 256.
Definition in_range (w : Z) (x : Z) : bool := (- 2 ^ (w - 1) <=? x) && (x <? 2 ^ (w - 1)).

Fixpoint ato_digits (w : Z) (n : Z) (s : list Z) : option Z :=
  match s with
  | c :: s' =>
      if isdigit (char c) then
        let n1 := 10 * n in
        let n2 := n1 - (char c - 48) in
        if in_range w n1 && in_range w n2 then ato_digits w n2 s' else None
      else Some n
  | [] => Some n
  end.

Fixpoint drop_spaces (s : list Z) : list Z :=
  match s with c :: s' => if isspace (char c) then drop_spaces s' else s | [] => [] end.

(** [None] when the behaviour is undefined. *)
Definition ato (w : Z) (s : list Z) : option Z :=
  let s := drop_spaces s in
  let '(neg, s) := if at_ s 0 =? 45 then (true, tail s) else if at_ s 0 =? 43 then (false, tail s) else (false, s) in
  n ← ato_digits w 0 s;
  if (neg : bool) then Some n else if in_range w (- n) then Some (- n) else None.

Definition atoi (s : list Z) : option Z := ato 32 s.
Definition atol (s : list Z) : option Z := ato 32 s.
Definition atoll (s : list Z) : option Z := ato 64 s.
