(* ===== verification/IntScanProofs.v ===== *)
(** [strtol] and its kin against the grammar of integers: the longest numeral
    is read, its value is exact or clamped, and nothing overflows. *)
From S2P Require Import Prelude.
From S2P Require Import Wasi.
From S2P Require Import IntScan.

(** ** The subject sequence

    The grammar is that of the C standard, by the characters themselves; it
    shares no definition with the scanner. *)

(** ['0'] to ['9'], ['A'] to ['Z'] and ['a'] to ['z']; no other character is a
    digit of any base. *)
Definition digit_of (c : Z) : Z :=
  if (48 <=? c) && (c <=? 57) then c - 48
  else if (65 <=? c) && (c <=? 90) then c - 65 + 10
  else if (97 <=? c) && (c <=? 122) then c - 97 + 10
  else 255.
(** Space, [\t], [\n], [\v], [\f] and [\r]. *)
Definition is_blank (c : Z) : bool := bool_decide (c ∈ [32; 9; 10; 11; 12; 13]).

Fixpoint digits (b : Z) (l : list Z) : list Z :=
  match l with c :: l => if digit_of c <? b then digit_of c :: digits b l else [] | [] => [] end.
Definition value (b : Z) (x : Z) (ds : list Z) : Z := fold_left (fun x d => x * b + d) ds x.

Fixpoint spaces (l : list Z) : nat := match l with c :: l => if is_blank c then S (spaces l) else O | [] => O end.
(** Whether there is a minus sign, and the length of the sign. *)
Definition sign (l : list Z) : bool * nat :=
  if at_ l 0 =? 45 then (true, 1%nat) else if at_ l 0 =? 43 then (false, 1%nat) else (false, O).

(** The value of the numeral that [l] begins with, and its length, 0 if there
    is none.  A prefix [0x] without digits counts as the numeral 0. *)
Definition numeral (b : Z) (l : list Z) : Z * nat :=
  if ((b =? 0) || (b =? 16)) && (at_ l 0 =? 48) then
    if (at_ l 1 =? 120) || (at_ l 1 =? 88) then
      let ds := digits 16 (drop 2 l) in
      match ds with [] => (0, 1%nat) | _ => (value 16 0 ds, (2 + length ds)%nat) end
    else
      let b := if b =? 0 then 8 else b in
      let ds := digits b (drop 1 l) in (value b 0 ds, S (length ds))
  else
    let b := if b =? 0 then 10 else b in
    let ds := digits b l in (value b 0 ds, length ds).

(** The sign, the value and the length of all that is read. *)
Definition subject (b : Z) (l : list Z) : bool * Z * nat :=
  let k := spaces l in
  let '(neg, j) := sign (drop k l) in
  let '(v, n) := numeral b (drop (k + j) l) in
  (neg, v, match n with O => O | S _ => (k + j + n)%nat end).

(** ** Characters *)

Definition is_char (c : Z) : Prop := 0 <= c < 256.

Lemma by_cases (P : Z -> bool) : forallb P (seqZ 0 256) = true -> forall c, is_char c -> P c = true.
Proof. intros HP c Hc. apply (forall_below P 0 256 HP). unfold is_char in Hc. lia. Qed.

Lemma val_range c : is_char c -> 0 <= val c < 256.
Proof. intros Hc. pose proof (by_cases (fun c => (0 <=? val c) && (val c <? 256)) eq_refl c Hc). simpl in *. lia. Qed.
Lemma isdigit_val c : is_char c -> isdigit c = (val c <? 10).
Proof. intros Hc. by apply eqb_prop, (by_cases (fun c => Bool.eqb (isdigit c) (val c <? 10)) eq_refl). Qed.
Lemma isdigit_sub c : is_char c -> isdigit c = true -> c - 48 = val c.
Proof.
  intros Hc Hd. pose proof (by_cases (fun c => negb (isdigit c) || (c - 48 =? val c)) eq_refl c Hc) as Hv.
  cbv beta in Hv. rewrite Hd in Hv. simpl in Hv. lia.
Qed.
Lemma val_0 : val 0 = 255.
Proof. reflexivity. Qed.
(** The table and the tests of the code agree with the grammar. *)
Lemma val_digit c : is_char c -> val c = digit_of c.
Proof. intros Hc. by apply Z.eqb_eq, (by_cases (fun c => val c =? digit_of c) eq_refl). Qed.
Lemma isspace_blank c : is_char c -> isspace c = is_blank c.
Proof. intros Hc. by apply eqb_prop, (by_cases (fun c => Bool.eqb (isspace c) (is_blank c)) eq_refl). Qed.
Lemma lor_x c : is_char c -> (Z.lor c 32 =? 120) = (c =? 120) || (c =? 88).
Proof. intros Hc. by apply eqb_prop, (by_cases (fun c => Bool.eqb (Z.lor c 32 =? 120) ((c =? 120) || (c =? 88))) eq_refl). Qed.
Lemma digits_cons b c l : is_char c -> digits b (c :: l) = if val c <? b then val c :: digits b l else [].
Proof. intros Hc. cbn [digits]. by rewrite <- val_digit. Qed.
Lemma spaces_cons c l : is_char c -> spaces (c :: l) = if isspace c then S (spaces l) else O.
Proof. intros Hc. cbn [spaces]. by rewrite isspace_blank. Qed.

Lemma at_char s j : Forall is_char s -> is_char (at_ s j).
Proof.
  intros Hs. unfold at_. destruct (s !! j) as [c|] eqn:Hj; [|split; simpl; lia]. rewrite Forall_forall in Hs.
  apply Hs. by eapply list_elem_of_lookup_2.
Qed.

Lemma at_drop s i j : at_ (drop i s) j = at_ s (i + j).
Proof. unfold at_. by rewrite lookup_drop. Qed.

(** ** Values *)

Lemma digits_range b l d : Forall is_char l -> d ∈ digits b l -> 0 <= d < b.
Proof.
  induction 1 as [|c l Hc _ IH]; [set_solver|]. rewrite digits_cons by done. destruct (Z.ltb_spec (val c) b) as [Hlt|]; [|set_solver].
  intros [->|Hd]%elem_of_cons; [|by apply IH]. pose proof (val_range c Hc). lia.
Qed.
Lemma digits_length b l : (length (digits b l) <= length l)%nat.
Proof. induction l as [|c l IH]; simpl; [done|]. destruct (digit_of c <? b); simpl; lia. Qed.
Lemma digits_end b l : Forall is_char l -> b <= 255 -> (val (at_ l (length (digits b l))) <? b) = false.
Proof.
  intros Hl Hb. induction Hl as [|c l Hch _ IH]; [rewrite at_end by (simpl; lia); rewrite val_0; lia|]. rewrite digits_cons by done.
  destruct (val c <? b) eqn:Hc; [by rewrite <- IH|done].
Qed.

Lemma value_app b x ds ds' : value b x (ds ++ ds') = value b (value b x ds) ds'.
Proof. apply fold_left_app. Qed.
Lemma value_ge b x ds : 1 <= b -> 0 <= x -> Forall (fun d => 0 <= d) ds -> x <= value b x ds.
Proof.
  intros Hb Hx Hds. revert x Hx. induction Hds as [|d ds Hd _ IH]; intros x Hx; simpl; [lia|].
  etransitivity; [|apply IH]; nia.
Qed.
Lemma digits_nonneg b l : Forall is_char l -> Forall (fun d => 0 <= d) (digits b l).
Proof. intros Hl. apply Forall_forall. intros d Hd. pose proof (digits_range b l d Hl Hd). lia. Qed.

(** ** Loops *)

(** What [accumulate] does: the number of characters it takes, and the result. *)
Fixpoint run (go : Z -> Z -> bool) (step : Z -> Z -> Z) (l : list Z) (x : Z) : nat * Z :=
  match l with
  | c :: l => if go c x then let '(k, x) := run go step l (step x c) in (S k, x) else (O, x)
  | [] => (O, x)
  end.

Lemma drop_inv {A} (l l' : list A) j c : drop j l = c :: l' -> l !! j = Some c /\ drop (S j) l = l'.
Proof.
  intros Hd. split.
  - rewrite <- (Nat.add_0_r j), <- lookup_drop. by rewrite Hd.
  - replace (S j) with (j + 1)%nat by lia. by rewrite <- drop_drop, Hd.
Qed.

(** A loop over digits of base [b]: it goes on while [ok] and adds digits
    exactly, to at most [top]. *)
Record digit_loop (b : Z) (go : Z -> Z -> bool) (step : Z -> Z -> Z) (ok : Z -> Z -> bool) (top : Z) : Prop := {
  dl_go : forall c x, is_char c -> 0 <= x <= top -> go c x = (val c <? b) && ok x (val c);
  dl_step : forall c x, is_char c -> 0 <= x <= top -> val c < b -> ok x (val c) = true -> step x c = x * b + val c;
  dl_top : forall x d, 0 <= x <= top -> 0 <= d < b -> ok x d = true -> x * b + d <= top;
  dl_stop : forall x, go 0 x = false;
}.

Lemma run_digits b go step ok top l : Forall is_char l -> 0 <= b -> digit_loop b go step ok top -> forall x, 0 <= x <= top ->
  let '(k, y) := run go step l x in
  (k <= length (digits b l))%nat /\ y = value b x (take k (digits b l)) /\ digits b (drop k l) = drop k (digits b l) /\
  0 <= y <= top /\ (forall d, digits b l !! k = Some d -> ok y d = false).
Proof.
  intros Hl Hb Hloop. induction Hl as [|c l Hc Hl IH]; intros x Hx; rewrite ?digits_cons by done; cbn [run].
  { split; [done|]. split; [done|]. split; [done|]. by split. }
  rewrite (dl_go _ _ _ _ _ Hloop c x Hc Hx). pose proof (val_range c Hc) as Hv. destruct (Z.ltb_spec (val c) b) as [Hlt|Hge]; cbn [andb].
  2: { split; [done|]. split; [done|]. split; [|by split]. cbn [drop]. rewrite digits_cons by done. by replace (val c <? b) with false by lia. }
  destruct (ok x (val c)) eqn:Hok.
  2: { split; [simpl; lia|]. split; [done|]. split; [cbn [drop]; rewrite digits_cons by done; by replace (val c <? b) with true by lia|]. split; [done|].
       intros d [= <-]. done. }
  rewrite (dl_step _ _ _ _ _ Hloop) by done. pose proof (dl_top _ _ _ _ _ Hloop x (val c) Hx ltac:(lia) Hok) as Htop.
  specialize (IH (x * b + val c) ltac:(nia)). destruct (run go step l (x * b + val c)) as [k y].
  destruct IH as (Hk & Hy & Hd & Hy0 & Hstop). split; [simpl; lia|]. split; [done|]. split; [done|]. split; [done|].
  intros d Hd'. by apply Hstop.
Qed.

(** The digits taken, and why the loops stopped. *)
Record scanned (b : Z) (l : list Z) (k : nat) (y : Z) : Prop := {
  sc_length : (k <= length (digits b l))%nat;
  sc_value : y = value b 0 (take k (digits b l));
  sc_range : 0 <= y <= ULLONG_MAX;
  sc_stop : forall d, digits b l !! k = Some d -> ULLONG_MAX < y * b + d;
}.

Lemma scanned_all b l k y : Forall is_char l -> 1 <= b -> scanned b l k y ->
  let v := value b 0 (digits b l) in
  if (k <? length (digits b l))%nat then ULLONG_MAX < v else y = v /\ k = length (digits b l).
Proof.
  intros Hl Hb [Hk Hy Hr Hs] v. destruct (Nat.ltb_spec k (length (digits b l))) as [Hlt|Hge].
  - destruct (lookup_lt_is_Some_2 _ _ Hlt) as [d Hd]. specialize (Hs d Hd). unfold v.
    rewrite <- (take_drop k (digits b l)), value_app, <- Hy, (drop_S _ _ _ Hd). simpl.
    pose proof (digits_nonneg b l Hl) as Hnn. rewrite <- (take_drop k (digits b l)), (drop_S _ _ _ Hd) in Hnn.
    apply Forall_app in Hnn as [_ Hnn]. apply Forall_cons in Hnn as [Hd0 Hnn].
    pose proof (value_ge b (y * b + d) _ Hb ltac:(nia) Hnn). lia.
  - assert (k = length (digits b l)) as -> by lia. split; [|done]. by rewrite take_ge in Hy by lia.
Qed.

(** *** The loops for each kind of base *)

Lemma ten_loop1 : digit_loop 10 (fun c x => isdigit c && (x <=? UINT_MAX / 10 - 1))
  (fun x c => w32 (w32 (x * 10) + w32 (c - 48))) (fun x _ => x <=? UINT_MAX / 10 - 1) UINT_MAX.
Proof.
  change (UINT_MAX / 10 - 1) with 429496728. unfold UINT_MAX. split.
  - intros c x Hc _. by rewrite isdigit_val.
  - intros c x Hc Hx Hlt Hok. apply Z.leb_le in Hok. rewrite isdigit_sub by (rewrite ?isdigit_val by done; done || lia).
    pose proof (val_range c Hc). rewrite (w32_small (x * 10)), (w32_small (val c)) by lia. apply w32_small. lia.
  - intros x d Hx Hd Hok%Z.leb_le. lia.
  - done.
Qed.

Lemma ten_loop2 : digit_loop 10 (fun c y => isdigit c && (y <=? ULLONG_MAX / 10) && (w64 (10 * y) <=? ULLONG_MAX - (c - 48)))
  (fun y c => w64 (w64 (y * 10) + w64 (c - 48))) (fun y d => (y <=? ULLONG_MAX / 10) && (w64 (10 * y) <=? ULLONG_MAX - d)) ULLONG_MAX.
Proof.
  change (ULLONG_MAX / 10) with 1844674407370955161. unfold ULLONG_MAX. split.
  - intros c y Hc _. rewrite <- (isdigit_val c Hc). destruct (isdigit c) eqn:Hd; [|done]. cbn [andb]. by rewrite isdigit_sub.
  - intros c y Hc Hy Hlt [Hok1%Z.leb_le Hok2%Z.leb_le]%andb_true_iff.
    rewrite isdigit_sub by (rewrite ?isdigit_val by done; done || lia). pose proof (val_range c Hc).
    rewrite (w64_small (10 * y)) in Hok2 by lia. rewrite (w64_small (y * 10)), (w64_small (val c)) by lia. apply w64_small. lia.
  - intros y d Hy Hd [Hok1%Z.leb_le Hok2%Z.leb_le]%andb_true_iff. rewrite w64_small in Hok2 by lia. lia.
  - done.
Qed.

Lemma ten_over y d : 0 <= y <= ULLONG_MAX -> 0 <= d < 10 ->
  (y <=? ULLONG_MAX / 10) && (w64 (10 * y) <=? ULLONG_MAX - d) = false -> ULLONG_MAX < y * 10 + d.
Proof.
  change (ULLONG_MAX / 10) with 1844674407370955161. unfold ULLONG_MAX.
  intros Hy Hd [Hok%Z.leb_gt|Hok%Z.leb_gt]%andb_false_iff; [lia|].
  destruct (decide (y <= 1844674407370955161)); [|lia]. rewrite w64_small in Hok by lia. lia.
Qed.

(** Powers of two: [bs_of] is the logarithm. *)
Lemma powers b : 2 <= b <= 36 -> Z.land b (b - 1) = 0 ->
  b = 2 /\ bs_of b = 1 \/ b = 4 /\ bs_of b = 2 \/ b = 8 /\ bs_of b = 3 \/ b = 16 /\ bs_of b = 4 \/ b = 32 /\ bs_of b = 5.
Proof.
  intros Hb Hland.
  pose proof (forall_below (fun b => negb (Z.land b (b - 1) =? 0) || (b =? 2) && (bs_of b =? 1) || (b =? 4) && (bs_of b =? 2) ||
    (b =? 8) && (bs_of b =? 3) || (b =? 16) && (bs_of b =? 4) || (b =? 32) && (bs_of b =? 5)) 2 35 eq_refl b ltac:(lia)) as H.
  cbv beta in H. rewrite Hland in H. simpl negb in H. lia.
Qed.

Lemma power_loop1 b : 2 <= b <= 36 -> Z.land b (b - 1) = 0 ->
  digit_loop b (fun c x => (val c <? b) && (x <=? UINT_MAX / 32)) (fun x c => Z.lor (w32 (Z.shiftl x (bs_of b))) (val c))
    (fun x _ => x <=? UINT_MAX / 32) UINT_MAX.
Proof.
  intros Hb Hp. destruct (powers b Hb Hp) as [[-> ->]|[[-> ->]|[[-> ->]|[[-> ->]|[-> ->]]]]];
    change (UINT_MAX / 32) with 134217727; unfold UINT_MAX; (split; [done| | |done]).
  all: first [intros c x Hc Hx Hlt Hok%Z.leb_le; pose proof (val_range c Hc)
    |intros x d Hx Hd Hok%Z.leb_le; lia].
  all: rewrite Z.shiftl_mul_pow2, w32_small by lia; apply lor_add; lia.
Qed.
Lemma power_loop2 b : 2 <= b <= 36 -> Z.land b (b - 1) = 0 ->
  digit_loop b (fun c y => (val c <? b) && (y <=? Z.shiftr ULLONG_MAX (bs_of b))) (fun y c => Z.lor (w64 (Z.shiftl y (bs_of b))) (val c))
    (fun y _ => y <=? Z.shiftr ULLONG_MAX (bs_of b)) ULLONG_MAX /\
  (forall y d, 0 <= y <= ULLONG_MAX -> 0 <= d < b -> (y <=? Z.shiftr ULLONG_MAX (bs_of b)) = false -> ULLONG_MAX < y * b + d).
Proof.
  intros Hb Hp. destruct (powers b Hb Hp) as [[-> ->]|[[-> ->]|[[-> ->]|[[-> ->]|[-> ->]]]]];
    (let z := eval vm_compute in (Z.shiftr ULLONG_MAX 1) in change (Z.shiftr ULLONG_MAX 1) with z);
    (let z := eval vm_compute in (Z.shiftr ULLONG_MAX 2) in change (Z.shiftr ULLONG_MAX 2) with z);
    (let z := eval vm_compute in (Z.shiftr ULLONG_MAX 3) in change (Z.shiftr ULLONG_MAX 3) with z);
    (let z := eval vm_compute in (Z.shiftr ULLONG_MAX 4) in change (Z.shiftr ULLONG_MAX 4) with z);
    (let z := eval vm_compute in (Z.shiftr ULLONG_MAX 5) in change (Z.shiftr ULLONG_MAX 5) with z);
    unfold ULLONG_MAX; (split; [split; [done| | |done]|]).
  all: first [intros c y Hc Hy Hlt Hok%Z.leb_le; pose proof (val_range c Hc)
    |intros y d Hy Hd Hok%Z.leb_le; lia|intros y d Hy Hd Hok%Z.leb_gt; lia].
  all: rewrite Z.shiftl_mul_pow2, w64_small by lia; apply lor_add; lia.
Qed.

Lemma other_loop1 b : 2 <= b <= 36 -> digit_loop b (fun c x => (val c <? b) && (x <=? UINT_MAX / 36 - 1))
  (fun x c => w32 (w32 (x * b) + val c)) (fun x _ => x <=? UINT_MAX / 36 - 1) UINT_MAX.
Proof.
  intros Hb. change (UINT_MAX / 36 - 1) with 119304646. unfold UINT_MAX. split.
  - done.
  - intros c x Hc Hx Hlt Hok%Z.leb_le. pose proof (val_range c Hc). assert (x * b <= 119304646 * 36) by nia.
    rewrite (w32_small (x * b)) by nia. apply w32_small. nia.
  - intros x d Hx Hd Hok%Z.leb_le. assert (x * b <= 119304646 * 36) by nia. lia.
  - intros x. rewrite val_0. by replace (255 <? b) with false by lia.
Qed.
Lemma other_loop2 b : 2 <= b <= 36 ->
  digit_loop b (fun c y => (val c <? b) && (y <=? ULLONG_MAX / b) && (w64 (b * y) <=? ULLONG_MAX - val c))
    (fun y c => w64 (w64 (y * b) + val c)) (fun y d => (y <=? ULLONG_MAX / b) && (w64 (b * y) <=? ULLONG_MAX - d)) ULLONG_MAX /\
  (forall y d, 0 <= y <= ULLONG_MAX -> 0 <= d < b -> (y <=? ULLONG_MAX / b) && (w64 (b * y) <=? ULLONG_MAX - d) = false ->
    ULLONG_MAX < y * b + d).
Proof.
  intros Hb. pose proof (Z.mul_div_le ULLONG_MAX b ltac:(lia)) as Hle. pose proof (Z.mul_succ_div_gt ULLONG_MAX b ltac:(lia)) as Hgt.
  set (q := ULLONG_MAX / b) in *. assert (Hmax : ULLONG_MAX = 2 ^ 64 - 1) by done.
  assert (Hsmall : forall y, 0 <= y <= q -> 0 <= b * y <= ULLONG_MAX) by (intros y Hy; nia).
  split; [split|].
  - intros c y _ _. by rewrite andb_assoc.
  - intros c y Hc Hy Hlt [Hok1%Z.leb_le Hok2%Z.leb_le]%andb_true_iff. pose proof (val_range c Hc). specialize (Hsmall y ltac:(lia)).
    rewrite (w64_small (b * y)) in Hok2 by lia. rewrite (w64_small (y * b)) by lia. apply w64_small. lia.
  - intros y d Hy Hd [Hok1%Z.leb_le Hok2%Z.leb_le]%andb_true_iff. specialize (Hsmall y ltac:(lia)). rewrite w64_small in Hok2 by lia. lia.
  - intros x. rewrite val_0. by replace (255 <? b) with false by lia.
  - intros y d Hy Hd Hok. apply andb_false_iff in Hok as [Hok%Z.leb_gt|Hok%Z.leb_gt]; [nia|].
    destruct (decide (y <= q)); [|nia]. specialize (Hsmall y ltac:(lia)). rewrite w64_small in Hok by lia. lia.
Qed.

Section Loops.
Context (s : list Z).
Hypothesis chars : Forall is_char s.
Implicit Types (j k fuel : nat) (l ds : list Z).

Definition st (j : nat) (e : Z) : sfile := SFile (Z.of_nat j) 0 e.

Lemma shgetc_Ret j e : (j <= length s)%nat -> shgetc s (st j e) = Ret (at_ s j, st (S j) e).
Proof.
  intros Hj. unfold shgetc, st. mstep (get_Ret (SFile (Z.of_nat j) 0 e)). cbn [rpos shcnt scan_errno].
  rewrite (proj2 (Z.leb_le 0 (Z.of_nat j))), (proj2 (Z.leb_le (Z.of_nat j) (Z.of_nat (length s)))) by lia.
  cbn [andb]. rewrite Nat2Z.id, Nat2Z.inj_succ. reflexivity.
Qed.

Lemma char_at j c : s !! j = Some c -> is_char c.
Proof. intros Hc. rewrite Forall_lookup in chars. by eapply chars. Qed.
Lemma chars_drop j : Forall is_char (drop j s).
Proof. by apply Forall_drop. Qed.

Lemma accumulate_Ret go step (stops : forall x, go 0 x = false) l : forall j fuel x e, drop j s = l -> (j <= length s)%nat ->
  (length l <= fuel)%nat -> accumulate s fuel go step (at_ s j) x (st (S j) e) =
    let '(k, x') := run go step l x in Ret ((at_ s (j + k), x'), st (S (j + k)) e).
Proof.
  induction l as [|c l IH]; intros j fuel x e Hl Hj Hfuel.
  - assert (length s <= j)%nat. { apply (f_equal length) in Hl. rewrite length_drop in Hl. simpl in Hl. lia. }
    rewrite at_end by done. cbn [run]. rewrite Nat.add_0_r, at_end by done. destruct fuel; cbn [accumulate]; by rewrite stops.
  - destruct (drop_inv s l j c Hl) as [Hc Hl']. rewrite (at_lookup _ _ _ Hc). cbn [run].
    destruct (go c x) eqn:Hgo.
    2: { rewrite Nat.add_0_r, (at_lookup _ _ _ Hc). destruct fuel; cbn [accumulate]; by rewrite Hgo. }
    destruct fuel as [|fuel]; [simpl in Hfuel; lia|]. cbn [accumulate]. rewrite Hgo. apply lookup_lt_Some in Hc as Hlt.
    mstep (shgetc_Ret (S j) e ltac:(lia)). rewrite (IH (S j)) by (done || simpl in Hfuel; lia).
    destruct (run go step l (step x c)) as [k x']. by replace (j + S k)%nat with (S j + k)%nat by lia.
Qed.

Lemma two_loops b fuel j e go1 step1 ok1 top1 go2 step2 ok2 : 0 <= b -> 0 <= top1 <= ULLONG_MAX ->
  digit_loop b go1 step1 ok1 top1 -> digit_loop b go2 step2 ok2 ULLONG_MAX ->
  (forall y d, 0 <= y <= ULLONG_MAX -> 0 <= d < b -> ok2 y d = false -> ULLONG_MAX < y * b + d) ->
  (j <= length s)%nat -> (length s <= fuel)%nat ->
  exists k y, ('(c, x) ← accumulate s fuel go1 step1 (at_ s j) 0; accumulate s fuel go2 step2 c x) (st (S j) e) =
      Ret ((at_ s (j + k), y), st (S (j + k)) e) /\ scanned b (drop j s) k y.
Proof.
  intros Hb Htop H1 H2 Hover Hj Hfuel. pose proof (run_digits b go1 step1 ok1 top1 (drop j s) (chars_drop j) Hb H1 0 ltac:(lia)) as Hr1.
  pose proof (accumulate_Ret go1 step1 (dl_stop _ _ _ _ _ H1) (drop j s) j fuel 0 e eq_refl Hj) as Ha1.
  rewrite length_drop in Ha1. specialize (Ha1 ltac:(lia)). destruct (run go1 step1 (drop j s) 0) as [k1 x1].
  destruct Hr1 as (Hk1 & Hx1 & Hd1 & Hr1 & _). pose proof (digits_length b (drop j s)) as Hlen. rewrite length_drop in Hlen.
  rewrite drop_drop in Hd1.
  pose proof (run_digits b go2 step2 ok2 ULLONG_MAX (drop (j + k1) s) (chars_drop (j + k1)) Hb H2 x1 ltac:(lia)) as Hr2.
  pose proof (accumulate_Ret go2 step2 (dl_stop _ _ _ _ _ H2) (drop (j + k1) s) (j + k1) fuel x1 e eq_refl ltac:(lia)) as Ha2.
  rewrite length_drop in Ha2. specialize (Ha2 ltac:(lia)). destruct (run go2 step2 (drop (j + k1) s) x1) as [k2 y].
  destruct Hr2 as (Hk2 & Hy & Hd2 & Hr2 & Hstop). rewrite Hd1 in *. rewrite length_drop in Hk2.
  exists (k1 + k2)%nat, y. split.
  - mstep Ha1. rewrite Ha2. by rewrite Nat.add_assoc.
  - split; [lia| |done|].
    + rewrite Hy, Hx1, <- value_app. f_equal. by rewrite take_take_drop.
    + intros d Hd. apply (Hover y d Hr2).
      * apply (digits_range b (drop j s)); [apply chars_drop|]. by eapply list_elem_of_lookup_2.
      * apply Hstop. by rewrite lookup_drop.
Qed.

(** Whatever the base, the loops take digits as long as the value fits. *)
Lemma scan_Ret b fuel j e : 2 <= b <= 36 -> (j <= length s)%nat -> (length s <= fuel)%nat ->
  exists k y, (if b =? 10 then scan_ten s fuel (at_ s j) else if Z.land b (b - 1) =? 0 then scan_power s fuel b (at_ s j)
      else scan_other s fuel b (at_ s j)) (st (S j) e) =
    Ret ((at_ s (j + k), y), st (S (j + k)) e) /\ scanned b (drop j s) k y.
Proof.
  intros Hb Hj Hfuel. destruct (Z.eqb_spec b 10) as [->|_]; [|destruct (Z.eqb_spec (Z.land b (b - 1)) 0) as [Hp|_]].
  - eapply two_loops; [lia| |exact ten_loop1|exact ten_loop2|exact ten_over|done|done]. unfold UINT_MAX, ULLONG_MAX. lia.
  - destruct (power_loop2 b Hb Hp) as [H2 Hover].
    eapply two_loops; [lia| |exact (power_loop1 b Hb Hp)|exact H2|exact Hover|done|done]. unfold UINT_MAX, ULLONG_MAX. lia.
  - destruct (other_loop2 b Hb) as [H2 Hover].
    eapply two_loops; [lia| |exact (other_loop1 b Hb)|exact H2|exact Hover|done|done]. unfold UINT_MAX, ULLONG_MAX. lia.
Qed.

Lemma skip_spaces_Ret e : forall l j fuel, drop j s = l -> (j <= length s)%nat -> (length l < fuel)%nat ->
  skip_spaces s fuel (st j e) = Ret (at_ s (j + spaces l), st (S (j + spaces l)) e) /\ (j + spaces l <= length s)%nat.
Proof.
  intros l. induction l as [|c l IH]; intros j fuel Hl Hj Hfuel; destruct fuel as [|fuel]; simpl in Hfuel; try lia; cbn [skip_spaces].
  - mstep (shgetc_Ret j e Hj). assert (length s <= j)%nat. { apply (f_equal length) in Hl. rewrite length_drop in Hl. simpl in Hl. lia. }
    rewrite at_end by done. cbn [spaces]. rewrite Nat.add_0_r, at_end by done. done.
  - destruct (drop_inv s l j c Hl) as [Hc Hl']. mstep (shgetc_Ret j e Hj). rewrite (at_lookup _ _ _ Hc), spaces_cons by (by eapply char_at).
    apply lookup_lt_Some in Hc as Hlt. destruct (isspace c); [|by rewrite Nat.add_0_r, (at_lookup _ _ _ Hc)].
    destruct (IH (S j) fuel Hl' Hlt ltac:(lia)) as [-> Hle]. replace (j + S (spaces l))%nat with (S j + spaces l)%nat by lia. done.
Qed.

Definition minus (neg : bool) : Z := if neg then -1 else 0.

(** A character that is not the terminator has a successor. *)
Lemma at_not_end i c : at_ s i = c -> c <> 0 -> (S i <= length s)%nat.
Proof. intros Hc Hc0. destruct (decide (i < length s)%nat); [lia|]. rewrite at_end in Hc by lia. congruence. Qed.

Lemma sign_Ret i e : let '(neg, j) := sign (drop i s) in
  (if (at_ s i =? 43) || (at_ s i =? 45) then
     let neg := if at_ s i =? 45 then -1 else 0 in c ← shgetc s; mret (c, neg)
   else mret (at_ s i, 0)) (st (S i) e) = Ret ((at_ s (i + j), minus neg), st (S (i + j)) e) /\
  ((i <= length s)%nat -> (i + j <= length s)%nat).
Proof.
  unfold sign. rewrite !at_drop, !Nat.add_0_r. destruct (Z.eqb_spec (at_ s i) 45) as [H45|H45]; [|destruct (Z.eqb_spec (at_ s i) 43) as [H43|H43]].
  - rewrite H45. pose proof (at_not_end i _ H45 ltac:(lia)). cbn [Z.eqb Pos.eqb orb]. cbv zeta.
    mstep (shgetc_Ret (S i) e ltac:(lia)). by replace (i + 1)%nat with (S i) by lia.
  - rewrite H43. pose proof (at_not_end i _ H43 ltac:(lia)). cbn [Z.eqb Pos.eqb orb]. cbv zeta.
    mstep (shgetc_Ret (S i) e ltac:(lia)). by replace (i + 1)%nat with (S i) by lia.
  - cbn [orb]. by rewrite Nat.add_0_r.
Qed.

Lemma scan_prefix_Ret b i e : (i <= length s)%nat -> b = 0 \/ 2 <= b <= 36 ->
  let '(v, n) := numeral b (drop i s) in
  (exists b' i', scan_prefix s b true (at_ s i) (st (S i) e) = Ret (inr (b', at_ s i'), st (S i') e) /\
    2 <= b' <= 36 /\ (i <= i' <= length s)%nat /\ v = value b' 0 (digits b' (drop i' s)) /\
    n = (i' - i + length (digits b' (drop i' s)))%nat /\ n <> O) \/
  (v = 0 /\ n = 1%nat /\ scan_prefix s b true (at_ s i) (st (S i) e) = Ret (inl 0, st (S i) e)) \/
  (n = O /\ scan_prefix s b true (at_ s i) (st (S i) e) = Ret (inl 0, SFile (Z.of_nat i) (- Z.of_nat i) EINVAL)).
Proof.
  intros Hi Hb. unfold numeral, scan_prefix. rewrite !at_drop, Nat.add_0_r.
  destruct (((b =? 0) || (b =? 16)) && (at_ s i =? 48)) eqn:Hzero.
  - apply andb_true_iff in Hzero as [Hb0 H48%Z.eqb_eq]. pose proof (at_not_end i _ H48 ltac:(lia)) as Hi1.
    mstep (shgetc_Ret (S i) e Hi1). replace (i + 1)%nat with (S i) by lia. rewrite <- lor_x by (by apply at_char).
    destruct (Z.eqb_spec (Z.lor (at_ s (S i)) 32) 120) as [Hx|Hx].
    + assert (Hi2 : (S (S i) <= length s)%nat).
      { destruct (decide (S i < length s)%nat); [lia|]. by rewrite at_end in Hx by lia. }
      mstep (shgetc_Ret (S (S i)) e Hi2). rewrite drop_drop. replace (i + 2)%nat with (S (S i)) by lia.
      destruct (Z.leb_spec 16 (val (at_ s (S (S i))))) as [Hge|Hlt].
      * assert (Hnil : digits 16 (drop (S (S i)) s) = []).
        { destruct (drop (S (S i)) s) as [|c l] eqn:Hd; [done|]. destruct (drop_inv s l _ c Hd) as [Hc _].
          rewrite (at_lookup _ _ _ Hc) in Hge. rewrite digits_cons by (by eapply char_at). by replace (val c <? 16) with false by lia. }
        rewrite Hnil. right. left. split; [done|]. split; [done|]. unfold shunget, mbind, M_bind, modify, mret, M_ret, st. cbn [rpos shcnt scan_errno].
        do 3 f_equal. lia.
      * destruct (drop (S (S i)) s) as [|c l] eqn:Hd.
        { assert (length s <= S (S i))%nat by (apply (f_equal length) in Hd; rewrite length_drop in Hd; simpl in Hd; lia).
          rewrite at_end in Hlt by done. rewrite val_0 in Hlt. lia. }
        destruct (drop_inv s l _ c Hd) as [Hc _]. rewrite (at_lookup _ _ _ Hc) in Hlt.
        assert (Hcons : digits 16 (c :: l) = val c :: digits 16 l) by (rewrite digits_cons by (by eapply char_at); by replace (val c <? 16) with true by lia).
        rewrite Hcons. left. exists 16, (S (S i)). rewrite Hd, Hcons. split; [done|]. split; [lia|]. split; [lia|]. split; [done|]. simpl. lia.
    + left. exists (if b =? 0 then 8 else b), (S i). rewrite drop_drop. replace (i + 1)%nat with (S i) by lia.
      split; [done|]. split; [destruct (Z.eqb_spec b 0); lia|]. split; [lia|]. split; [done|]. lia.
  - set (b' := if b =? 0 then 10 else b). assert (Hb' : 2 <= b' <= 36) by (unfold b'; destruct (Z.eqb_spec b 0); lia).
    destruct (Z.leb_spec b' (val (at_ s i))) as [Hge|Hlt].
    + right. right. assert (Hnil : digits b' (drop i s) = []).
      { destruct (drop i s) as [|c l] eqn:Hd; [done|]. destruct (drop_inv s l _ c Hd) as [Hc _].
        rewrite (at_lookup _ _ _ Hc) in Hge. rewrite digits_cons by (by eapply char_at). by replace (val c <? b') with false by lia. }
      rewrite Hnil. split; [done|]. unfold shunget, shlim0, scan_fail, mbind, M_bind, modify, mret, M_ret, st. cbn [rpos shcnt scan_errno].
      do 3 f_equal; lia.
    + left. exists b', i. split; [done|]. split; [done|]. split; [lia|]. split; [done|]. split; [lia|].
      destruct (drop i s) as [|c l] eqn:Hd.
      { assert (length s <= i)%nat by (apply (f_equal length) in Hd; rewrite length_drop in Hd; simpl in Hd; lia).
        rewrite at_end in Hlt by done. rewrite val_0 in Hlt. lia. }
      destruct (drop_inv s l _ c Hd) as [Hc _]. rewrite (at_lookup _ _ _ Hc) in Hlt.
      rewrite digits_cons by (by eapply char_at). by replace (val c <? b') with true by lia.
Qed.

(** *** The end of the scan *)

Definition finish (lim neg y : Z) : Z * bool :=
  if (lim <=? y) && (Z.land lim 1 =? 0) && (neg =? 0) then (w64 (lim - 1), true)
  else if (lim <=? y) && (lim <? y) then (lim, true)
  else (w64 (Z.lxor y (w64 neg) - w64 neg), false).
(** The value and whether there is a range error, for a numeral of value [v]. *)
Definition convert (lim : Z) (neg : bool) (v : Z) : Z * bool :=
  if ULLONG_MAX <? v then (fst (finish lim (if Z.land lim 1 =? 0 then minus neg else 0) lim), true)
  else finish lim (minus neg) v.

Lemma scan_done_Ret lim neg y p e : scan_done lim neg y (st (S p) e) =
  Ret (fst (finish lim neg y), st p (if snd (finish lim neg y) then ERANGE else e)).
Proof.
  assert (Hun : shunget (st (S p) e) = Ret (tt, st p e)).
  { unfold shunget, modify, st. cbn [rpos shcnt scan_errno]. do 3 f_equal. lia. }
  unfold scan_done, finish. mstep Hun. destruct (_ && _ && _); [done|]. by destruct (_ && _).
Qed.

Lemma scan_end_Ret b lim neg i k y fuel e : 2 <= b <= 36 -> (i <= length s)%nat -> (length s <= fuel)%nat -> scanned b (drop i s) k y ->
  let v := value b 0 (digits b (drop i s)) in
  exists e', (let c := at_ s (i + k) in
    if (b =? 10) && (10 <=? w32 (c - 48)) then scan_done lim (minus neg) y else
    if val c <? b then
      '(c, _) ← accumulate s fuel (fun c _ => val c <? b) (fun x _ => x) c 0;
      scan_fail ERANGE;;
      scan_done lim (if Z.land lim 1 =? 0 then minus neg else 0) lim
    else scan_done lim (minus neg) y) (st (S (i + k)) e) =
      Ret (fst (convert lim neg v), st (i + length (digits b (drop i s))) e') /\
    e' = if snd (convert lim neg v) then ERANGE else e.
Proof.
  intros Hb Hi Hfuel Hsc v. pose proof (scanned_all b _ k y (chars_drop i) ltac:(lia) Hsc) as Hall. cbv zeta in Hall. fold v in Hall.
  pose proof (digits_length b (drop i s)) as Hlen. rewrite length_drop in Hlen. cbv zeta. unfold convert.
  destruct (Nat.ltb_spec k (length (digits b (drop i s)))) as [Hk|Hk].
  - destruct (lookup_lt_is_Some_2 _ _ Hk) as [d Hd].
    (* The digit at which the loops stopped. *)
    assert (Hdig : forall l, Forall is_char l -> forall k, (k < length (digits b l))%nat -> val (at_ l k) < b /\ length (digits b (drop k l)) = (length (digits b l) - k)%nat).
    { clear. intros l. induction 1 as [|c l Hch Hl IH]; intros k Hk; [simpl in Hk; lia|]. rewrite digits_cons in Hk |- * by done. destruct (Z.ltb_spec (val c) b) as [Hc|]; [|simpl in Hk; lia].
      simpl in Hk. destruct k as [|k].
      - split; [done|]. cbn [drop]. rewrite digits_cons by done. replace (val c <? b) with true by lia. simpl. lia.
      - destruct (IH k ltac:(lia)) as [H1 H2]. split; [done|]. cbn [drop length]. lia. }
    destruct (Hdig (drop i s) (chars_drop i) k Hk) as [Hval Hrest]. rewrite at_drop in Hval. rewrite drop_drop in Hrest.
    replace ((b =? 10) && (10 <=? w32 (at_ s (i + k) - 48))) with false.
    2: { symmetry. destruct (Z.eqb_spec b 10) as [->|]; [|done]. cbn [andb]. apply Z.leb_gt.
         pose proof (isdigit_val (at_ s (i + k)) (at_char s _ chars)) as Hd10. unfold isdigit in Hd10. lia. }
    replace (val (at_ s (i + k)) <? b) with true by lia. replace (ULLONG_MAX <? v) with true by lia.
    assert (Hrun : forall l x, Forall is_char l -> run (fun c _ => val c <? b) (fun x _ => x) l x = (length (digits b l), x)).
    { clear. intros l x Hl. induction Hl as [|c l Hc Hl IH]; [done|]. rewrite digits_cons by done. cbn [run]. destruct (val c <? b); [by rewrite IH|done]. }
    pose proof (accumulate_Ret (fun c _ => val c <? b) (fun x _ => x)) as Hacc.
    specialize (Hacc ltac:(intros x; cbv beta; rewrite val_0; lia) (drop (i + k) s) (i + k)%nat fuel 0 e eq_refl ltac:(lia)).
    rewrite length_drop, Hrun in Hacc by apply chars_drop. specialize (Hacc ltac:(lia)). rewrite Hrest in Hacc.
    replace (i + k + (length (digits b (drop i s)) - k))%nat with (i + length (digits b (drop i s)))%nat in Hacc by lia.
    mstep Hacc. eexists. split; [|reflexivity]. cbn [fst snd].
    assert (Hfail : forall p e, scan_fail ERANGE (st p e) = Ret (tt, st p ERANGE)) by done. mstep (Hfail (S (i + length (digits b (drop i s)))) e).
    rewrite scan_done_Ret. cbn [fst snd]. by destruct (snd (finish _ _ _)).
  - destruct Hall as [Hy Hk']. subst y k. pose proof (sc_range _ _ _ _ Hsc). replace (ULLONG_MAX <? v) with false by lia.
    pose proof (digits_end b (drop i s) (chars_drop i) ltac:(lia)) as Hend. rewrite at_drop in Hend. rewrite Hend.
    exists (if snd (finish lim (minus neg) v) then ERANGE else e). split; [|done]. destruct (_ && _); apply scan_done_Ret.
Qed.
End Loops.
