(* ===== verification/IntScanTheorems.v ===== *)
(** What [strtol], [strtoll], [strtoul] and [strtoull] return, and [atoi]. *)
From S2P Require Import Prelude.
From S2P Require Import Wasi.
From S2P Require Import IntScan.
From S2P Require Import IntScanProofs.

(** ** The contract *)

Definition valid_base (b : Z) : bool := (b =? 0) || (2 <=? b) && (b <=? 36).
(** The value, the characters read and [errno] after a call. *)
Definition contract (conv : bool -> Z -> Z * bool) (s : list Z) (b e : Z) : Z * nat * Z :=
  if valid_base b then
    let '(neg, v, n) := subject b s in
    match n with
    | O => (0, O, EINVAL)
    | S _ => let '(r, err) := conv neg v in (r, n, if (err : bool) then ERANGE else e)
    end
  else (0, O, EINVAL).

Definition signed_value (neg : bool) (v : Z) : Z := if neg then - v else v.
(** Signed results are clamped; unsigned ones are negated modulo [2 ^ w], and
    clamped when the numeral itself does not fit. *)
Definition to_signed (w : Z) (neg : bool) (v : Z) : Z * bool :=
  let x := signed_value neg v in (Z.max (- 2 ^ (w - 1)) (Z.min (2 ^ (w - 1) - 1) x), (x <? - 2 ^ (w - 1)) || (2 ^ (w - 1) <=? x)).
Definition to_unsigned (w : Z) (neg : bool) (v : Z) : Z * bool :=
  if 2 ^ w <=? v then (2 ^ w - 1, true) else (signed_value neg v mod 2 ^ w, false).

(** ** Conversions *)

Lemma lxor_ones y : 0 <= y < 2 ^ 64 -> Z.lxor y ULLONG_MAX = ULLONG_MAX - y.
Proof.
  intros Hy. change ULLONG_MAX with (Z.ones 64). assert (Hld : Z.ldiff y (Z.ones 64) = 0).
  { rewrite Z.ldiff_ones_r by lia. by rewrite Z.shiftr_div_pow2, Z.div_small, Z.shiftl_0_l by lia. }
  rewrite (Z.sub_nocarry_ldiff _ _ Hld). apply Z.bits_inj'. intros n Hn. rewrite Z.lxor_spec, Z.ldiff_spec.
  destruct (Z.lt_ge_cases n 64) as [Hlt|Hge].
  - rewrite Z.ones_spec_low by lia. by destruct (Z.testbit y n).
  - rewrite Z.ones_spec_high by lia. rewrite <- (Z.mod_small y (2 ^ 64)) by done. by rewrite Z.mod_pow2_bits_high by lia.
Qed.

(** [(y^neg)-neg] negates. *)
Lemma negate_spec neg y : 0 <= y <= ULLONG_MAX -> w64 (Z.lxor y (w64 (minus neg)) - w64 (minus neg)) = signed_value neg y mod 2 ^ 64.
Proof.
  unfold ULLONG_MAX. intros Hy. destruct neg; simpl.
  - change (w64 (-1)) with ULLONG_MAX. rewrite lxor_ones by lia. unfold w64. f_equal. lia.
  - change (w64 0) with 0. by rewrite Z.lxor_0_r, Z.sub_0_r.
Qed.

Lemma s32_mod x : s32 (x mod 2 ^ 64) = s32 x.
Proof.
  unfold s32. f_equal. rewrite (Z.div_mod x (2 ^ 64)) at 2 by lia.
  replace (2 ^ 64 * (x / 2 ^ 64) + x mod 2 ^ 64 + 2 ^ 31) with (x mod 2 ^ 64 + 2 ^ 31 + (2 ^ 32 * (x / 2 ^ 64)) * 2 ^ 32) by lia.
  by rewrite Z.mod_add by lia.
Qed.
Lemma w32_mod x : w32 (x mod 2 ^ 64) = x mod 2 ^ 32.
Proof.
  unfold w32. rewrite (Z.div_mod x (2 ^ 64)) at 2 by lia.
  replace (2 ^ 64 * (x / 2 ^ 64) + x mod 2 ^ 64) with (x mod 2 ^ 64 + (2 ^ 32 * (x / 2 ^ 64)) * 2 ^ 32) by lia.
  by rewrite Z.mod_add by lia.
Qed.

(** The limits of the signed functions are even. *)
Lemma convert_even lim neg v : 0 <= v -> 0 < lim <= 2 ^ 63 -> Z.land lim 1 = 0 ->
  let x := signed_value neg v in
  if x <? - lim then convert lim neg v = (lim, true) \/ convert lim neg v = ((- lim) mod 2 ^ 64, true)
  else if lim <=? x then convert lim neg v = (lim - 1, true)
  else convert lim neg v = (x mod 2 ^ 64, false).
Proof.
  intros Hv Hlim Heven x. assert (Hw : w64 (lim - 1) = lim - 1) by (apply w64_small; lia).
  unfold convert, finish. rewrite Heven, Hw. change (0 =? 0) with true. pose proof (negate_spec neg lim) as Hneg. pose proof (negate_spec neg v) as Hnegv.
  unfold x, signed_value, ULLONG_MAX in *. cbv zeta.
  destruct neg; cbn [minus Z.eqb]; rewrite ?andb_true_r, ?andb_false_r; cbn [minus] in Hneg, Hnegv;
    destruct (Z.ltb_spec (2 ^ 64 - 1) v); rewrite ?Z.leb_refl, ?Z.ltb_irrefl; cbn [andb fst].
  - replace (- v <? - lim) with true by lia. right. by rewrite Hneg by lia.
  - destruct (Z.ltb_spec (- v) (- lim)).
    + left. replace (lim <=? v) with true by lia. by replace (lim <? v) with true by lia.
    + replace (lim <=? - v) with false by lia. replace (lim <? v) with false by lia. by rewrite andb_false_r, Hnegv by lia.
  - replace (v <? - lim) with false by lia. by replace (lim <=? v) with true by lia.
  - replace (v <? - lim) with false by lia. destruct (Z.leb_spec lim v); [done|]. cbn [andb]. by rewrite Hnegv by lia.
Qed.

Lemma convert_odd lim neg v : 0 <= v -> 0 < lim <= ULLONG_MAX -> Z.land lim 1 = 1 ->
  convert lim neg v = if lim <? v then (lim, true) else (signed_value neg v mod 2 ^ 64, false).
Proof.
  intros Hv Hlim Hodd. unfold convert, finish. rewrite Hodd. change (1 =? 0) with false. rewrite !andb_false_r. cbn [andb].
  rewrite Z.leb_refl, Z.ltb_irrefl. cbn [andb fst]. unfold ULLONG_MAX in *.
  destruct (Z.ltb_spec (2 ^ 64 - 1) v).
  - replace (lim <? v) with true by lia. change (w64 0) with 0. rewrite Z.lxor_0_r, Z.sub_0_r, w64_small by lia. done.
  - destruct (Z.ltb_spec lim v); [by replace (lim <=? v) with true by lia|]. rewrite andb_false_r.
    by rewrite negate_spec by (unfold ULLONG_MAX; lia).
Qed.

Definition long_result (w : Z) (r : Z) : Z := if w =? 32 then s32 r else s64 r.

Lemma s64_mod x : s64 (x mod 2 ^ 64) = s64 x.
Proof. unfold s64. f_equal. by rewrite Zplus_mod_idemp_l. Qed.

Lemma convert_signed w neg v : w = 32 \/ w = 64 -> 0 <= v ->
  let '(r, err) := convert (2 ^ (w - 1)) neg v in (long_result w r, err) = to_signed w neg v.
Proof.
  intros Hw Hv. assert (Hland : Z.land (2 ^ (w - 1)) 1 = 0) by (by destruct Hw as [-> | ->]).
  assert (Hlim : 0 < 2 ^ (w - 1) <= 2 ^ 63) by (destruct Hw as [-> | ->]; simpl; lia).
  pose proof (convert_even _ neg v Hv Hlim Hland) as Hc. cbv zeta in Hc. unfold to_signed, long_result.
  set (x := signed_value neg v) in *. destruct (Z.ltb_spec x (- 2 ^ (w - 1))) as [Hlo|Hlo]; [|destruct (Z.leb_spec (2 ^ (w - 1)) x) as [Hhi|Hhi]].
  - cbn [orb]. destruct Hc as [-> | ->]; f_equal; destruct Hw as [-> | ->]; simpl Z.eqb; cbv iota; rewrite ?s32_mod, ?s64_mod;
      [change (s32 _) with (- 2 ^ (32 - 1))|change (s64 _) with (- 2 ^ (64 - 1))|change (s32 _) with (- 2 ^ (32 - 1))|change (s64 _) with (- 2 ^ (64 - 1))]; lia.
  - rewrite Hc. cbn [orb]. f_equal.
    destruct Hw as [-> | ->]; simpl Z.eqb; cbv iota; [rewrite s32_small|rewrite s64_small]; lia.
  - rewrite Hc. cbn [orb]. f_equal.
    destruct Hw as [-> | ->]; simpl Z.eqb; cbv iota; [rewrite s32_mod, s32_small|rewrite s64_mod, s64_small]; lia.
Qed.

Lemma convert_unsigned w neg v : w = 32 \/ w = 64 -> 0 <= v ->
  let '(r, err) := convert (2 ^ w - 1) neg v in (r mod 2 ^ w, err) = to_unsigned w neg v.
Proof.
  intros Hw Hv. assert (Hland : Z.land (2 ^ w - 1) 1 = 1) by (by destruct Hw as [-> | ->]).
  assert (Hlim : 0 < 2 ^ w - 1 <= ULLONG_MAX) by (unfold ULLONG_MAX; destruct Hw as [-> | ->]; simpl; lia).
  rewrite (convert_odd _ neg v Hv Hlim Hland). unfold to_unsigned. destruct (Z.ltb_spec (2 ^ w - 1) v).
  - replace (2 ^ w <=? v) with true by lia. by rewrite Z.mod_small by lia.
  - replace (2 ^ w <=? v) with false by lia. f_equal. destruct Hw as [-> | ->]; [apply w32_mod|apply Z.mod_mod; lia].
Qed.

(** ** The functions *)

Section Strings.
Context (s : list Z).
Hypothesis chars : Forall is_char s.

Lemma numeral_nonneg b l : Forall is_char l -> b = 0 \/ 2 <= b -> 0 <= fst (numeral b l).
Proof.
  intros Hl Hb. assert (Hv : forall b k, 1 <= b -> 0 <= value b 0 (digits b (drop k l))).
  { intros b' k Hb'. apply value_ge; [done|done|]. by apply digits_nonneg, Forall_drop. }
  unfold numeral. destruct (((_ =? _) || _) && _); [destruct ((_ =? 120) || _)|]; cbn [fst].
  - destruct (digits 16 (drop 2 l)) as [|d ds] eqn:Hd; [done|]. cbn [fst]. rewrite <- Hd. apply Hv. lia.
  - apply Hv. destruct (Z.eqb_spec b 0); lia.
  - apply (Hv _ O). destruct (Z.eqb_spec b 0); lia.
Qed.

Lemma convert_0 lim neg : 0 < lim -> convert lim neg 0 = (0, false).
Proof.
  intros Hlim. unfold convert, finish. replace (lim <=? 0) with false by lia. cbn [andb].
  change (ULLONG_MAX <? 0) with false. cbv iota. rewrite negate_spec by (unfold ULLONG_MAX; lia). by destruct neg.
Qed.

Lemma intscan_Ret b lim e : valid_base b = true -> 0 < lim -> let '(neg, v, n) := subject b s in
  0 <= v /\ exists f', __intscan s (S (length s)) b true lim (st 0 e) = Ret (match n with O => 0 | _ => fst (convert lim neg v) end, f') /\
    shcnt f' + rpos f' = Z.of_nat n /\
    scan_errno f' = match n with O => EINVAL | _ => if snd (convert lim neg v) then ERANGE else e end.
Proof.
  intros Hb Hlim. unfold valid_base in Hb. assert (Hbase : b = 0 \/ 2 <= b <= 36) by lia. unfold subject.
  set (k := spaces s). pose proof (sign_Ret s k e) as Hsign. destruct (sign (drop k s)) as [neg j]. destruct Hsign as [Hsign Hkj].
  destruct (skip_spaces_Ret s chars e s 0 (S (length s)) eq_refl ltac:(lia) ltac:(lia)) as [Hspaces Hk]. cbn [Nat.add] in Hspaces, Hk. fold k in Hspaces, Hk.
  specialize (Hkj Hk). set (i := (k + j)%nat) in *.
  pose proof (numeral_nonneg b (drop i s) ltac:(by apply Forall_drop) ltac:(lia)) as Hnn.
  pose proof (scan_prefix_Ret s chars b i e Hkj Hbase) as Hprefix. destruct (numeral b (drop i s)) as [v n]. split; [done|].
  unfold __intscan. replace ((36 <? b) || (b =? 1)) with false by lia. mstep Hspaces. mstep Hsign.
  destruct Hprefix as [(b' & i' & Hrun & Hb' & Hi' & Hv & Hn & Hn0)|[(Hv & Hn & Hrun)|(Hn & Hrun)]]; mstep Hrun.
  - destruct (scan_Ret s chars b' (S (length s)) i' e Hb' ltac:(lia) ltac:(lia)) as (k1 & y & Hscan & Hsc). mstep Hscan.
    destruct (scan_end_Ret s chars b' lim neg i' k1 y (S (length s)) e Hb' ltac:(lia) ltac:(lia) Hsc) as (e' & Hend & He').
    cbv zeta in Hend. rewrite Hend. rewrite <- Hv in *. destruct n as [|n]; [done|]. rewrite Nat.add_succ_r.
    eexists. split; [reflexivity|]. split; [|exact He']. unfold st. cbn [shcnt rpos]. lia.
  - subst v n. rewrite Nat.add_1_r, convert_0 by done. exists (st (S i) e). split; [done|]. split; [unfold st; cbn [shcnt rpos]; lia|done].
  - subst n. eexists. split; [reflexivity|]. cbn [shcnt rpos scan_errno]. split; [lia|done].
Qed.

Lemma strtox_Ret b lim f : 0 < lim -> - 2 ^ 31 <= b < 2 ^ 31 ->
  exists f', strtox s b lim f =
    Ret ((if valid_base b then let '(neg, v, n) := subject b s in match n with O => 0 | _ => fst (convert lim neg v) end else 0,
          if valid_base b then let '(neg, v, n) := subject b s in Z.of_nat n else 0), f') /\
    scan_errno f' = if valid_base b then let '(neg, v, n) := subject b s in
      match n with O => EINVAL | _ => if snd (convert lim neg v) then ERANGE else scan_errno f end else EINVAL.
Proof.
  intros Hlim Hb. unfold strtox. mstep (get_Ret f).
  assert (Hput : put (SFile 0 0 (scan_errno f)) f = Ret (tt, SFile 0 0 (scan_errno f))) by done. mstep Hput.
  assert (Hsh : shlim0 (SFile 0 0 (scan_errno f)) = Ret (tt, st 0 (scan_errno f))) by done. mstep Hsh.
  destruct (valid_base b) eqn:Hvalid.
  - assert (Hw : w32 b = b) by (unfold valid_base in Hvalid; apply w32_small; lia). rewrite Hw.
    pose proof (intscan_Ret b lim (scan_errno f) Hvalid Hlim) as Hscan. destruct (subject b s) as [[neg v] n].
    destruct Hscan as (_ & f' & Hrun & Hcnt & Herr). mstep Hrun. exists f'. split; [|done]. mstep (get_Ret f'). by rewrite Hcnt.
  - assert (Hbad : (36 <? w32 b) || (w32 b =? 1) = true).
    { unfold valid_base in Hvalid. destruct (Z.lt_ge_cases b 0).
      - unfold w32. rewrite <- (Z.mod_add b 1) by lia. rewrite Z.mod_small by lia. lia.
      - rewrite w32_small by lia. lia. }
    unfold __intscan. rewrite Hbad. eexists. split; [reflexivity|]. done.
Qed.

Lemma subject_nonneg b : valid_base b = true -> 0 <= snd (fst (subject b s)).
Proof.
  intros Hb. pose proof (intscan_Ret b 1 0 Hb ltac:(lia)) as Hs. destruct (subject b s) as [[neg v] n]. apply Hs.
Qed.

Lemma strtol_runs b f : - 2 ^ 31 <= b < 2 ^ 31 -> exists f', let '(r, n, e) := contract (to_signed 32) s b (scan_errno f) in
  strtol s b f = Ret ((r, Z.of_nat n), f') /\ scan_errno f' = e.
Proof.
  intros Hb. pose proof (subject_nonneg b) as Hnn. destruct (strtox_Ret b (w32 LONG_MIN) f eq_refl Hb) as (f' & Hrun & Herr).
  exists f'. unfold contract, strtol. destruct (valid_base b); [|by mstep Hrun]. specialize (Hnn eq_refl).
  destruct (subject b s) as [[neg v] [|n]]; cbn [fst snd] in Hnn; [by mstep Hrun|].
  pose proof (convert_signed 32 neg v (or_introl eq_refl) Hnn) as Hc. change (w32 LONG_MIN) with (2 ^ (32 - 1)) in *.
  destruct (convert _ neg v) as [r err]. destruct (to_signed 32 neg v) as [r' err']. injection Hc as Hr ->. split; [|done].
  mstep Hrun. by rewrite <- Hr.
Qed.

Lemma strtoll_runs b f : - 2 ^ 31 <= b < 2 ^ 31 -> exists f', let '(r, n, e) := contract (to_signed 64) s b (scan_errno f) in
  strtoll s b f = Ret ((r, Z.of_nat n), f') /\ scan_errno f' = e.
Proof.
  intros Hb. pose proof (subject_nonneg b) as Hnn. destruct (strtox_Ret b (w64 LLONG_MIN) f eq_refl Hb) as (f' & Hrun & Herr).
  exists f'. unfold contract, strtoll. destruct (valid_base b); [|by mstep Hrun]. specialize (Hnn eq_refl).
  destruct (subject b s) as [[neg v] [|n]]; cbn [fst snd] in Hnn; [by mstep Hrun|].
  pose proof (convert_signed 64 neg v (or_intror eq_refl) Hnn) as Hc. change (w64 LLONG_MIN) with (2 ^ (64 - 1)) in *.
  destruct (convert _ neg v) as [r err]. destruct (to_signed 64 neg v) as [r' err']. injection Hc as Hr ->. split; [|done].
  mstep Hrun. by rewrite <- Hr.
Qed.

(** C23: [strtol] and [strtoll] (32 and 64 bits): for every string and every
    base the longest integer of the grammar is read (spaces, sign, prefix,
    digits below the base), its exact value is returned or, out of range, the
    nearest value with [ERANGE]; without an integer, or for an invalid base, 0
    with [EINVAL] and nothing read.  The accumulation never overflows. *)
Theorem strtol_spec b f : - 2 ^ 31 <= b < 2 ^ 31 ->
  (exists f', let '(r, n, e) := contract (to_signed 32) s b (scan_errno f) in
    strtol s b f = Ret ((r, Z.of_nat n), f') /\ scan_errno f' = e) /\
  (exists f', let '(r, n, e) := contract (to_signed 64) s b (scan_errno f) in
    strtoll s b f = Ret ((r, Z.of_nat n), f') /\ scan_errno f' = e).
Proof. intros Hb. split; [by apply strtol_runs|by apply strtoll_runs]. Qed.

(** [strtoul] and [strtoull] read the same integers; a numeral that fits
    is negated modulo [2 ^ 32] or [2 ^ 64] when it has a minus sign, and one
    that does not gives the maximum with [ERANGE]. *)
Theorem strtoul_spec b f : - 2 ^ 31 <= b < 2 ^ 31 ->
  (exists f', let '(r, n, e) := contract (to_unsigned 32) s b (scan_errno f) in
    strtoul s b f = Ret ((r, Z.of_nat n), f') /\ scan_errno f' = e) /\
  (exists f', let '(r, n, e) := contract (to_unsigned 64) s b (scan_errno f) in
    strtoull s b f = Ret ((r, Z.of_nat n), f') /\ scan_errno f' = e).
Proof.
  intros Hb. pose proof (subject_nonneg b) as Hnn.
  split; [destruct (strtox_Ret b ULONG_MAX f eq_refl Hb) as (f' & Hrun & Herr)|
    destruct (strtox_Ret b ULLONG_MAX f eq_refl Hb) as (f' & Hrun & Herr)];
    exists f'; unfold contract, strtoul, strtoull; (destruct (valid_base b); [|first [by mstep Hrun|done]]); specialize (Hnn eq_refl);
    destruct (subject b s) as [[neg v] [|n]]; cbn [fst snd] in Hnn; try (by mstep Hrun); try done.
  - pose proof (convert_unsigned 32 neg v (or_introl eq_refl) Hnn) as Hc. change ULONG_MAX with (2 ^ 32 - 1) in *.
    destruct (convert _ neg v) as [r err]. destruct (to_unsigned 32 neg v) as [r' err']. injection Hc as Hr ->. split; [|done].
    mstep Hrun. by rewrite <- Hr.
  - pose proof (convert_unsigned 64 neg v (or_intror eq_refl) Hnn) as Hc. change ULLONG_MAX with (2 ^ 64 - 1) in *.
    pose proof (convert_odd (2 ^ 64 - 1) neg v Hnn ltac:(done) ltac:(done)) as Hodd. 
    destruct (convert _ neg v) as [r err]. destruct (to_unsigned 64 neg v) as [r' err']. injection Hc as Hr ->. split; [|done].
    rewrite Hrun. cbn [fst]. do 3 f_equal. rewrite <- Hr. symmetry. apply Z.mod_small.
    destruct (_ <? v); injection Hodd as -> _; [lia|apply Z.mod_pos_bound; lia].
Qed.
End Strings.

(** ** [atoi] and its kin *)

Section Ato.
Context (w : Z).
Hypothesis wide : 8 <= w.

Lemma char_isspace c : is_char c -> isspace (char c) = isspace c.
Proof. intros Hc. by apply eqb_prop, (by_cases (fun c => Bool.eqb (isspace (char c)) (isspace c)) eq_refl). Qed.
Lemma char_isdigit c : is_char c -> isdigit (char c) = (val c <? 10).
Proof. intros Hc. by apply eqb_prop, (by_cases (fun c => Bool.eqb (isdigit (char c)) (val c <? 10)) eq_refl). Qed.
Lemma char_digit c : is_char c -> val c < 10 -> char c - 48 = val c.
Proof.
  intros Hc Hv. pose proof (by_cases (fun c => (10 <=? val c) || (char c - 48 =? val c)) eq_refl c Hc) as H. cbv beta in H. lia.
Qed.

Lemma drop_spaces_spec s : Forall is_char s -> drop_spaces s = drop (spaces s) s.
Proof.
  induction 1 as [|c s Hc _ IH]; [done|]. rewrite spaces_cons by done. simpl. rewrite char_isspace by done. by destruct (isspace c).
Qed.

Lemma ato_digits_spec l : Forall is_char l -> forall x, 0 <= x <= 2 ^ (w - 1) ->
  ato_digits w (- x) l = if value 10 x (digits 10 l) <=? 2 ^ (w - 1) then Some (- value 10 x (digits 10 l)) else None.
Proof.
  intros Hl. induction Hl as [|c l Hc Hl IH]; intros x Hx; [cbn [ato_digits digits value fold_left]|rewrite digits_cons by done; cbn [ato_digits]].
  { by replace (x <=? 2 ^ (w - 1)) with true by lia. }
  rewrite char_isdigit by done. pose proof (val_range c Hc). destruct (Z.ltb_spec (val c) 10) as [Hd|Hd].
  2: { cbn [value fold_left]. by replace (x <=? 2 ^ (w - 1)) with true by lia. }
  rewrite char_digit by done. cbn [value fold_left]. fold (value 10 (x * 10 + val c) (digits 10 l)). unfold in_range.
  replace (10 * - x - val c) with (- (x * 10 + val c)) by lia.
  destruct (Z.leb_spec (x * 10 + val c) (2 ^ (w - 1))) as [Hle|Hgt].
  - replace (- 2 ^ (w - 1) <=? 10 * - x) with true by lia. replace (10 * - x <? 2 ^ (w - 1)) with true by lia.
    replace (- 2 ^ (w - 1) <=? - (x * 10 + val c)) with true by lia. replace (- (x * 10 + val c) <? 2 ^ (w - 1)) with true by lia.
    cbn [andb]. apply IH. lia.
  - replace (- 2 ^ (w - 1) <=? - (x * 10 + val c)) with false by lia. rewrite andb_false_r.
    pose proof (value_ge 10 (x * 10 + val c) (digits 10 l) ltac:(lia) ltac:(lia) (digits_nonneg 10 l Hl)).
    by replace (value 10 (x * 10 + val c) (digits 10 l) <=? 2 ^ (w - 1)) with false by lia.
Qed.

Lemma tail_drop {A} (l : list A) : tail l = drop 1 l.
Proof. by destruct l. Qed.
End Ato.

(** [atoi], [atol] ([w] = 32) and [atoll] (64) return the value of the
    decimal integer that [strtol] would read, 0 if there is none, the most
    negative value included, whenever it is representable; otherwise their
    behaviour is undefined (the accumulation or the last negation overflows). *)
Theorem atoi_spec w s : 8 <= w -> Forall is_char s -> let '(neg, v, _) := subject 10 s in
  ato w s = if in_range w (signed_value neg v) then Some (signed_value neg v) else None.
Proof.
  intros Hw Hs. unfold subject, ato, sign. rewrite drop_spaces_spec by done. set (l := drop (spaces s) s).
  assert (Hl : Forall is_char l) by (by apply Forall_drop).
  assert (Hpos : 0 < 2 ^ (w - 1)) by (apply Z.pow_pos_nonneg; lia).
  assert (Hnum : forall j, numeral 10 (drop (spaces s + j) s) = (value 10 0 (digits 10 (drop j l)), length (digits 10 (drop j l)))).
  { intros j. unfold l. by rewrite drop_drop. }
  assert (Hv : forall j, 0 <= value 10 0 (digits 10 (drop j l))).
  { intros j. apply value_ge; [lia|lia|]. by apply digits_nonneg, Forall_drop. }
  assert (Hrun : forall j, ato_digits w 0 (drop j l) = if value 10 0 (digits 10 (drop j l)) <=? 2 ^ (w - 1)
    then Some (- value 10 0 (digits 10 (drop j l))) else None).
  { intros j. change 0 with (- 0) at 1. apply ato_digits_spec; [done|by apply Forall_drop|lia]. }
  pose proof (Hrun 0%nat) as Hrun0. change (drop 0 l) with l in Hrun0. unfold in_range.
  destruct (at_ l 0 =? 45); [|destruct (at_ l 0 =? 43)]; rewrite Hnum, ?tail_drop, ?Hrun, ?Hrun0; unfold signed_value.
  - specialize (Hv 1%nat). set (v := value _ _ _) in *. destruct (Z.leb_spec v (2 ^ (w - 1))).
    + replace (- 2 ^ (w - 1) <=? - v) with true by lia. by replace (- v <? 2 ^ (w - 1)) with true by lia.
    + by replace (- 2 ^ (w - 1) <=? - v) with false by lia.
  - specialize (Hv 1%nat). set (v := value _ _ _) in *. replace (- 2 ^ (w - 1) <=? v) with true by lia. destruct (Z.leb_spec v (2 ^ (w - 1))).
    + simpl. unfold in_range. rewrite Z.opp_involutive. replace (- 2 ^ (w - 1) <=? v) with true by lia. done.
    + by replace (v <? 2 ^ (w - 1)) with false by lia.
  - specialize (Hv 0%nat). change (drop 0 l) with l in *. set (v := value _ _ _) in *. replace (- 2 ^ (w - 1) <=? v) with true by lia. destruct (Z.leb_spec v (2 ^ (w - 1))).
    + simpl. unfold in_range. rewrite Z.opp_involutive. replace (- 2 ^ (w - 1) <=? v) with true by lia. done.
    + by replace (v <? 2 ^ (w - 1)) with false by lia.
Qed.
