(* ===== verification/TextExamples.v ===== *)
(** The theorems on multibyte characters and on integer parsing applied to
    concrete strings. *)
From S2P Require Import Prelude.
From S2P Require Import Wasi.
From S2P Require Import Sim.
From S2P Require Import Utf8.
From S2P Require Import Utf8Proofs.
From S2P Require Import Utf8Strings.
From S2P Require Import Utf8Mbs.
From S2P Require Import Utf8MbsTheorems.
From S2P Require Import IntScan.
From S2P Require Import IntScanProofs.
From S2P Require Import IntScanTheorems.

Definition env0 : mbenv := MbEnv 0 0.

(** The three bytes of the euro sign. *)
Definition euro : list Z := [226; 130; 172].

Lemma euro_bytes : bytes euro.
Proof. repeat constructor; lia. Qed.

Lemma mbrtowc_spec_witness :
  mbrtowc 4 (Some euro) 3 env0 = Ret ((3, Some 8364), MbEnv 0 0) /\
  exists ret out s', mbrtowc 4 (Some euro) (length euro) env0 = Ret ((ret, out), s') /\
    ((exists wc rest, scalar wc /\ euro = utf8 wc ++ rest /\
        ret = (if wc =? 0 then 0 else Z.of_nat (length (utf8 wc))) /\ out = Some wc /\ initial s') \/
     (exists wc more, scalar wc /\ utf8 wc = euro ++ more /\ more <> [] /\ ret = SZ2 /\ out = None /\ ~ initial s') \/
     ((forall wc, scalar wc -> ~ (utf8 wc `prefix_of` euro) /\ ~ (euro `prefix_of` utf8 wc)) /\
        ret = SZ1 /\ out = None /\ s' = MbEnv 0 EILSEQ)).
Proof.
  split; [reflexivity|]. apply (mbrtowc_spec euro env0); [reflexivity|exact euro_bytes|done].
Defined.

Lemma mbrtowc_pieces_witness :
  exists ret out s2 s3,
    mbrtowc 4 (Some [130; 172]) 2 (after (mbrtowc 4 (Some [226]) 1) env0) = Ret ((ret, out), s2) /\
    mbrtowc 4 (Some euro) 3 env0 = Ret ((if ret <=? 4 then ret + 1 else ret, out), s3) /\
    (initial s2 <-> initial s3) /\ mb_errno s2 = mb_errno s3.
Proof.
  apply (mbrtowc_pieces [226] [130; 172] env0); [reflexivity|exact euro_bytes|done|done|reflexivity].
Defined.

Lemma wcrtomb_spec_witness :
  wcrtomb 4 false 8364 env0 = Ret ((3, euro), env0) /\
  (scalar 8364 -> initial env0 -> exists s', mbrtowc 4 (Some (utf8 8364)) (length (utf8 8364)) env0 =
     Ret ((3, Some 8364), s') /\ initial s').
Proof.
  destruct (wcrtomb_spec 8364 env0 ltac:(lia)) as [H1 H2]. split; [reflexivity|exact H2].
Defined.

Lemma mbtowc_mbrtowc_witness :
  mbtowc 4 (Some euro) 3 env0 = Ret ((3, Some 8364), env0) /\
  exists ret out s', mbrtowc 4 (Some euro) (length euro) (MbEnv 0 (mb_errno env0)) = Ret ((ret, out), s') /\
    mbtowc 4 (Some euro) (length euro) env0 =
      if ret <=? 4 then Ret ((ret, out), env0) else Ret ((-1, None), MbEnv (shift env0) EILSEQ).
Proof.
  split; [reflexivity|]. apply (mbtowc_mbrtowc euro env0 euro_bytes). done.
Defined.

Definition a_euro : list Z := [97; 8364].

(** An "a" and a euro sign into three bytes: the euro sign does not fit. *)
Lemma wcsrtombs_spec_witness :
  wcsrtombs 4 false a_euro 3 env0 = Ret ((1, [97], Some 1%nat), env0) /\
  exists k out, out = encode (take k a_euro) /\ (k <= 2)%nat /\ (length out <= 3)%nat /\
    ((k < 2)%nat -> (3 < length (encode (take (S k) a_euro)))%nat) /\
    wcsrtombs 4 false a_euro 3 env0 =
      Ret (if decide (k = 2%nat /\ (length out < 3)%nat)
           then (Z.of_nat (length out), out ++ [0], None)
           else (Z.of_nat (length out), out, Some k), env0).
Proof.
  split; [reflexivity|]. apply (wcsrtombs_spec a_euro 3 env0); [|reflexivity].
  repeat constructor; unfold scalar; lia.
Defined.

Lemma utf16_pairs_witness :
  exists s1 s2 s3 s4 s5,
    mbrtoc16 4 (Some (utf8 128512)) 4 env0 = Ret ((4, Some 55357), s1) /\
    mbrtoc16 4 (Some []) 0 s1 = Ret ((SZ3, Some 56832), s2) /\ initial s2 /\
    c16rtomb 4 false 55357 env0 = Ret ((0, []), s3) /\
    c16rtomb 4 false 56832 s3 = Ret ((4, utf8 128512), s4) /\ initial s4 /\
    c16rtomb 4 false 65 s3 = Ret ((SZ1, []), s5) /\ s5 = MbEnv 0 EILSEQ.
Proof.
  apply (utf16_pairs 128512 (Some []) 0 65 env0); [unfold scalar; lia|lia|reflexivity|lia|lia].
Defined.

(** "a", a euro sign, and a byte that begins no character. *)
Definition a_euro_bad : list Z := [97; 226; 130; 172; 255].

Lemma mbsrtowcs_spec_witness :
  mbsrtowcs 4 false 0 a_euro_bad 2 false env0 = Ret ((2, [97; 8364], Some 4), env0) /\
  mbsrtowcs 4 false 0 a_euro_bad 3 false env0 = Ret ((SZ1, [97; 8364], Some 4), MbEnv 0 EILSEQ) /\
  exists ws rest, a_euro_bad = encode ws ++ rest /\ wide ws /\ no_char rest /\
    forall base st wn, 0 <= wn < 2 ^ 32 ->
      mbsrtowcs 4 true base a_euro_bad wn st env0 =
        Ret (if decide (rest = []) then ((Z.of_nat (length ws), [], Some 0), env0)
             else ((SZ1, [], Some 0), MbEnv 0 EILSEQ)) /\
      mbsrtowcs 4 false base a_euro_bad wn st env0 =
        Ret (if wn =? 0 then ((0, [], Some 0), env0) else mbs_result 0 ws rest wn env0).
Proof.
  split; [reflexivity|]. split; [reflexivity|].
  apply (mbsrtowcs_spec a_euro_bad env0); [repeat constructor; lia|reflexivity|reflexivity].
Defined.

(** The rest of the euro sign and five letters with no room at all: all six
    characters and the terminator are stored. *)
Definition rest_abcde : list Z := [130; 172; 97; 98; 99; 100; 101].

Lemma mbsrtowcs_resume_witness :
  mbsrtowcs 4 false 0 rest_abcde 0 true (after (mbrtowc 4 (Some [226]) 1) env0) =
    Ret ((6, [8364; 97; 98; 99; 100; 101; 0], None), env0) /\
  exists ws rest, [226] ++ rest_abcde = encode ws ++ rest /\ wide ws /\ no_char rest /\
    forall base wn, 0 <= wn < 2 ^ 32 ->
      mbsrtowcs 4 true base rest_abcde wn true (after (mbrtowc 4 (Some [226]) 1) env0) =
        Ret (if decide (ws <> [] /\ rest = []) then ((Z.of_nat (length ws), [], Some 0), after (mbrtowc 4 (Some [226]) 1) env0)
             else ((SZ1, [], Some 0), MbEnv (shift (after (mbrtowc 4 (Some [226]) 1) env0)) EILSEQ)) /\
      mbsrtowcs 4 false base rest_abcde wn true (after (mbrtowc 4 (Some [226]) 1) env0) =
        Ret (match ws with
             | [] => ((SZ1, [], Some (-1)), MbEnv 0 EILSEQ)
             | _ => mbs_result 1 ws rest wn (MbEnv 0 0)
             end).
Proof.
  split; [reflexivity|].
  apply (mbsrtowcs_resume [226] rest_abcde 0 (after (mbrtowc 4 (Some [226]) 1) env0));
    [repeat constructor; lia|reflexivity|done|reflexivity].
Defined.

(** [mbsnrtowcs] without a state, on bytes that stop inside a character: it
    clears a state that is not there. *)
Example mbsnrtowcs_null_state : mbsnrtowcs 4 false 0 [226; 130] 2 8 false env0 = Stop Undefined.
Proof. reflexivity. Qed.
Example mbsnrtowcs_partial : mbsnrtowcs 4 false 0 [97; 226; 130] 3 8 true env0 = Ret ((1, [97], Some 1), env0).
Proof. reflexivity. Qed.
(** Whole blocks and then the rest: 140 letters of a longer string. *)
Example mbsnrtowcs_blocks : mbsnrtowcs 4 false 0 (repeat 97 300) 140 1000 true env0 = Ret ((140, repeat 97 140, Some 140), env0).
Proof. vm_compute. reflexivity. Qed.

(** * The theorems on parsing integers at concrete strings. *)

Definition file0 : sfile := SFile 0 0 0.
Lemma chars_of (x : string) : forallb (fun c => (0 <=? c) && (c <? 256)) (bytes_of x) = true -> Forall is_char (bytes_of x).
Proof. intros H. apply Forall_forall. intros c Hc. rewrite List.forallb_forall in H. specialize (H c ltac:(by apply list_elem_of_In)). unfold is_char. lia. Qed.

Lemma strtol_spec_witness :
  contract (to_signed 32) (bytes_of " -0x7Fg") 0 0 = (-127, 6%nat, 0) /\
  contract (to_signed 64) (bytes_of "9223372036854775808") 10 0 = (2 ^ 63 - 1, 19%nat, ERANGE) /\
  (exists f', strtol (bytes_of " -0x7Fg") 0 file0 = Ret ((-127, 6), f') /\ scan_errno f' = 0) /\
  (exists f', strtoll (bytes_of "9223372036854775808") 10 file0 = Ret ((2 ^ 63 - 1, 19), f') /\ scan_errno f' = ERANGE).
Proof.
  split; [vm_compute; reflexivity|]. split; [vm_compute; reflexivity|]. split.
  - exact (proj1 (strtol_spec (bytes_of " -0x7Fg") (chars_of " -0x7Fg" eq_refl) 0 file0 ltac:(lia))).
  - exact (proj2 (strtol_spec (bytes_of "9223372036854775808") (chars_of "9223372036854775808" eq_refl) 10 file0 ltac:(lia))).
Defined.

Lemma strtoul_spec_witness :
  (exists f', strtoul (bytes_of "-1") 10 file0 = Ret ((2 ^ 32 - 1, 2), f') /\ scan_errno f' = 0) /\
  (exists f', strtoull (bytes_of "zzzzzzzzzzzzzzzz") 36 file0 = Ret ((2 ^ 64 - 1, 16), f') /\ scan_errno f' = ERANGE).
Proof.
  split.
  - exact (proj1 (strtoul_spec (bytes_of "-1") (chars_of "-1" eq_refl) 10 file0 ltac:(lia))).
  - exact (proj2 (strtoul_spec (bytes_of "zzzzzzzzzzzzzzzz") (chars_of "zzzzzzzzzzzzzzzz" eq_refl) 36 file0 ltac:(lia))).
Defined.

Lemma atoi_spec_witness : ato 32 (bytes_of " -2147483648.") = Some (- 2 ^ 31) /\ ato 32 (bytes_of "2147483648") = None.
Proof.
  split; [exact (atoi_spec 32 (bytes_of " -2147483648.") ltac:(lia) (chars_of " -2147483648." eq_refl))|].
  exact (atoi_spec 32 (bytes_of "2147483648") ltac:(lia) (chars_of "2147483648" eq_refl)).
Defined.
