(* ===== verification/Threads.v ===== *)
(** Threads ([musl/src/thread], [sources/__wasilibc_futex.c]): programs as
    machines that make one access to shared memory at a time, interleaved in
    any order; the futex on which they sleep; counting of threads. *)
From S2P Require Import Prelude.

(** ** Interleaving

    A thread is at a program counter [pc] that carries its local variables.
    [sh] is what the threads share, [op] the calls a thread may make. *)
Record machine (sh pc op : Type) := Machine {
  begin : sh -> pc -> op -> option pc;       (* a thread calls a function *)
  step : sh -> pc -> option (sh * pc);       (* its next access *)
  wakes : pc -> option (bool * pc);          (* it calls the host to wake one thread, or all *)
  wakeup : pc -> bool -> option pc }.        (* a thread asleep: the host returns, and says whether it was woken *)
Arguments begin {sh pc op} _ _ _ _.
Arguments step {sh pc op} _ _ _.
Arguments wakes {sh pc op} _ _.
Arguments wakeup {sh pc op} _ _ _.

Inductive event (op : Type) :=
  | Begin (t : nat) (o : op)
  | Run (t : nat)
  | WakeOne (t : nat) (u : option nat)
  | WakeAll (t : nat)
  | Return (u : nat) (woken : bool).    (* a timeout or a signal ends the wait of [u] *)
Arguments Begin {op} _ _.
Arguments Run {op} _.
Arguments WakeOne {op} _ _.
Arguments WakeAll {op} _.
Arguments Return {op} _ _.

Record config (sh pc : Type) := Config { shared : sh; threads : list pc }.
Arguments Config {sh pc} _ _.
Arguments shared {sh pc} _.
Arguments threads {sh pc} _.

Section Machine.
Context {sh pc op : Type} (m : machine sh pc op).

Definition asleep (p : pc) : bool := match wakeup m p true with Some _ => true | None => false end.
Definition awaken (p : pc) : pc := default p (wakeup m p true).

Definition exec (c : config sh pc) (e : event op) : option (config sh pc) :=
  match e with
  | Begin t o =>
      p ← threads c !! t; p' ← begin m (shared c) p o;
      Some (Config (shared c) (<[t := p']> (threads c)))
  | Run t =>
      p ← threads c !! t; '(s, p') ← step m (shared c) p;
      Some (Config s (<[t := p']> (threads c)))
  | Return u b =>
      p ← threads c !! u; p' ← wakeup m p b;
      Some (Config (shared c) (<[u := p']> (threads c)))
  | WakeOne t u =>
      p ← threads c !! t;
      match wakes m p with
      | Some (false, p') =>
          match u with
          | None => if existsb asleep (threads c) then None
                    else Some (Config (shared c) (<[t := p']> (threads c)))
          | Some u =>
              q ← threads c !! u; q' ← wakeup m q true;
              Some (Config (shared c) (<[t := p']> (<[u := q']> (threads c))))
          end
      | _ => None
      end
  | WakeAll t =>
      p ← threads c !! t;
      match wakes m p with
      | Some (true, p') => Some (Config (shared c) (<[t := p']> (map awaken (threads c))))
      | _ => None
      end
  end.

Fixpoint execs (c : config sh pc) (es : list (event op)) : option (config sh pc) :=
  match es with
  | [] => Some c
  | e :: es => c' ← exec c e; execs c' es
  end.

Inductive reachable (c : config sh pc) : config sh pc -> Prop :=
  | reach_here : reachable c c
  | reach_exec c' e c'' : reachable c c' -> exec c' e = Some c'' -> reachable c c''.

Lemma reachable_inv (I : config sh pc -> Prop) c c' : I c ->
  (forall c e c', I c -> exec c e = Some c' -> I c') -> reachable c c' -> I c'.
Proof. intros Hc Hstep. induction 1; eauto. Qed.

Lemma execs_reachable es : forall c c' c'', reachable c c' -> execs c' es = Some c'' -> reachable c c''.
Proof.
  induction es as [|e es IH]; intros c c' c'' Hr; simpl; [by intros [= <-]|].
  destruct (exec c' e) as [d|] eqn:E; [|done]. apply IH. by eapply reach_exec.
Qed.

(** What one event does: a thread moves, or a thread wakes another or none or
    all. *)
Inductive move (c : config sh pc) : config sh pc -> Prop :=
  | move_begin t p p' o : threads c !! t = Some p -> begin m (shared c) p o = Some p' ->
      move c (Config (shared c) (<[t := p']> (threads c)))
  | move_run t p p' s : threads c !! t = Some p -> step m (shared c) p = Some (s, p') ->
      move c (Config s (<[t := p']> (threads c)))
  | move_return t p p' b : threads c !! t = Some p -> wakeup m p b = Some p' ->
      move c (Config (shared c) (<[t := p']> (threads c)))
  | move_wake_none t p p' : threads c !! t = Some p -> wakes m p = Some (false, p') ->
      (forall u q, threads c !! u = Some q -> asleep q = false) ->
      move c (Config (shared c) (<[t := p']> (threads c)))
  | move_wake_one t p p' u q q' : threads c !! t = Some p -> wakes m p = Some (false, p') ->
      threads c !! u = Some q -> wakeup m q true = Some q' ->
      move c (Config (shared c) (<[t := p']> (<[u := q']> (threads c))))
  | move_wake_all t p p' : threads c !! t = Some p -> wakes m p = Some (true, p') ->
      move c (Config (shared c) (<[t := p']> (map awaken (threads c)))).

Lemma exec_move c e c' : exec c e = Some c' -> move c c'.
Proof.
  destruct e as [t o|t|t u|t|u b]; simpl; destruct (threads c !! _) as [p|] eqn:Ht; simpl; try done.
  - destruct (begin _ _ _ _) eqn:E; [|done]. intros [= <-]. by eapply move_begin.
  - destruct (step _ _ _) as [[s p']|] eqn:E; [|done]. intros [= <-]. by eapply move_run.
  - destruct (wakes _ _) as [[[] p']|] eqn:E; [done| |done]. destruct u as [u|].
    + destruct (threads c !! u) as [q|] eqn:Hu; [|done]. simpl. destruct (wakeup m q true) as [q'|] eqn:Hq; [|done].
      intros [= <-]. by eapply move_wake_one.
    + destruct (existsb _ _) eqn:Ex; [done|]. intros [= <-]. eapply move_wake_none; [done..|].
      intros u q Hu. destruct (asleep q) eqn:Hq; [|done].
      assert (existsb asleep (threads c) = true); [|congruence].
      apply existsb_exists. exists q. split; [|done]. by eapply list_elem_of_In, list_elem_of_lookup_2.
  - destruct (wakes _ _) as [[[] p']|] eqn:E; [|done..]. intros [= <-]. by eapply move_wake_all.
  - destruct (wakeup _ _ _) eqn:E; [|done]. intros [= <-]. by eapply move_return.
Qed.

End Machine.

(** ** Counting threads *)
Section Count.
Context {pc : Type}.

Fixpoint count (P : pc -> bool) (l : list pc) : Z :=
  match l with
  | [] => 0
  | p :: l => Z.b2z (P p) + count P l
  end.

Lemma count_range P l : 0 <= count P l <= Z.of_nat (length l).
Proof. induction l as [|p l IH]; simpl; [lia|]. destruct (P p); simpl; lia. Qed.

Lemma count_insert P l t p q : l !! t = Some p -> count P (<[t := q]> l) = count P l - Z.b2z (P p) + Z.b2z (P q).
Proof.
  revert t. induction l as [|a l IH]; intros [|t] Ht; simplify_eq/=; [lia|]. rewrite (IH _ Ht). lia.
Qed.

Lemma count_in P l t p : l !! t = Some p -> Z.b2z (P p) <= count P l.
Proof.
  revert t. induction l as [|a l IH]; intros [|t] Ht; simplify_eq/=.
  - pose proof (count_range P l). lia.
  - specialize (IH _ Ht). destruct (P a); simpl; lia.
Qed.

Lemma count_out P l t p : l !! t = Some p -> P p = false -> count P l < Z.of_nat (length l).
Proof.
  revert t. induction l as [|a l IH]; intros [|t] Ht Hp; simplify_eq/=.
  - rewrite Hp. pose proof (count_range P l). simpl. lia.
  - specialize (IH _ Ht Hp). destruct (P a); simpl; lia.
Qed.

Lemma count_two P l t u p q : l !! t = Some p -> l !! u = Some q -> t <> u ->
  Z.b2z (P p) + Z.b2z (P q) <= count P l.
Proof.
  revert t u. induction l as [|a l IH]; intros [|t] [|u] Ht Hu Hne; simplify_eq/=.
  - pose proof (count_in P _ _ _ Hu). lia.
  - pose proof (count_in P _ _ _ Ht). lia.
  - specialize (IH _ _ Ht Hu ltac:(congruence)). destruct (P a); simpl; lia.
Qed.

Lemma count_exists P l : 0 < count P l <-> exists t p, l !! t = Some p /\ P p = true.
Proof.
  split.
  - induction l as [|a l IH]; simpl; [lia|]. destruct (P a) eqn:Ha; simpl; [intros _; by exists 0%nat, a|].
    intros Hl. destruct IH as (t & p & Ht & Hp); [lia|]. by exists (S t), p.
  - intros (t & p & Ht & Hp). pose proof (count_in P _ _ _ Ht) as Hc. rewrite Hp in Hc. simpl in Hc. lia.
Qed.

Lemma count_existsb P l : existsb P l = (0 <? count P l).
Proof.
  induction l as [|a l IH]; simpl; [done|]. pose proof (count_range P l). rewrite IH.
  destruct (P a); simpl; [|by rewrite Z.add_0_l]. symmetry. apply Z.ltb_lt. lia.
Qed.

Lemma count_replicate P n p : count P (replicate n p) = if P p then Z.of_nat n else 0.
Proof. induction n as [|n IH]; simpl; [by destruct (P p)|]. rewrite IH. destruct (P p); simpl; lia. Qed.

Lemma count_map P f l : count P (map f l) = count (fun p => P (f p)) l.
Proof. induction l as [|a l IH]; simpl; [done|]. by rewrite IH. Qed.

(** Inequalities between numbers of threads from inequalities for each. *)
Lemma count_sum P Q R l : (forall t p, l !! t = Some p -> Z.b2z (P p) + Z.b2z (Q p) <= Z.b2z (R p)) -> count P l + count Q l <= count R l.
Proof.
  induction l as [|a l IH]; intros H; simpl; [lia|]. pose proof (H 0%nat a eq_refl).
  specialize (IH (fun t p Ht => H (S t) p Ht)). lia.
Qed.

Lemma count_le P Q l : (forall t p, l !! t = Some p -> P p = true -> Q p = true) -> count P l <= count Q l.
Proof.
  intros H. pose proof (count_range (fun _ => false) l).
  enough (count P l + count (fun _ => false) l <= count Q l) by lia. apply count_sum. intros t p Ht.
  specialize (H t p Ht). destruct (P p); [rewrite H by done|destruct (Q p)]; simpl; lia.
Qed.

Lemma count_ext P Q l : (forall t p, l !! t = Some p -> P p = Q p) -> count P l = count Q l.
Proof. intros H. apply Z.le_antisymm; apply count_le; intros t p Ht Hp; [by rewrite <- (H t p Ht)|by rewrite (H t p Ht)]. Qed.

End Count.

(** ** [__wait] and the futex

    [__wait(addr, NULL, val, priv)] by its accesses to [*addr], and
    [__wasilibc_futex_wait_wasix] within it.  The host compares [*addr] with
    [val] again when it puts the thread to sleep.  The header of the host's
    interface says that it fails with [EINVAL] when they differ ([einval]),
    which traps; other hosts return as if woken. *)
Inductive waiting :=
  | WSpin (spins : nat)     (* [while (spins-- ...)], [*addr==val] *)
  | WTest                   (* [while ( *addr==val)] *)
  | WCheck                  (* [if ( *paddr != expected)] *)
  | WHost                   (* [__wasi_futex_wait] *)
  | WAsleep
  | WBack (woken : bool)    (* [woken == FALSE && *paddr == expected] *)
  | WTrap.

Definition wait_start : waiting := WSpin 100.

(** The next access; [None] when [__wait] has returned. *)
Definition wait_step (einval : bool) (addr val : Z) (w : waiting) : option waiting :=
  match w with
  | WSpin (S n) => if addr =? val then Some (WSpin n) else None
  | WSpin O => Some WTest
  | WTest => if addr =? val then Some WCheck else None
  | WCheck => if addr =? val then Some WHost else Some WTest
  | WHost => if addr =? val then Some WAsleep else if einval then Some WTrap else Some (WBack true)
  | WBack _ => Some WTest
  | WAsleep | WTrap => Some w
  end.

Definition wait_runs (w : waiting) : bool := match w with WAsleep | WTrap => false | _ => true end.
Definition wait_asleep (w : waiting) : bool := match w with WAsleep => true | _ => false end.
Definition wait_trapped (w : waiting) : bool := match w with WTrap => true | _ => false end.
Definition wait_wakeup (w : waiting) (woken : bool) : option waiting :=
  match w with WAsleep => Some (WBack woken) | _ => None end.
