(* ===== verification/Lock.v ===== *)
(** [__lock] and [__unlock] ([thread/__lock.c]): the lock of the library's own
    tables, one [int] with a flag and a count of the threads inside. *)
From S2P Require Import Prelude.
From S2P Require Import Threads.

Definition INT_MIN : Z := - 2 ^ 31.

(** [*l] and [libc.need_locks]. *)
Record lock_mem := LockMem { l : Z; need_locks : Z }.

Inductive lock_op := Lock_ | Unlock_.

Inductive lock_pc :=
  | Out                                     (* outside of the lock *)
  | Enter                                   (* [need_locks = libc.need_locks] *)
  | Fast (need : Z)                         (* [a_cas(l, 0, INT_MIN + 1)] *)
  | Fast_end (need current : Z)             (* the two tests behind it *)
  | Spin (rounds : nat) (current : Z)       (* the loop of 10 rounds; with 0 left, [a_fetch_add(l, 1)] *)
  | Loop (current : Z)                      (* the head of [for (;;)] *)
  | Wait (current : Z) (w : waiting)        (* in [__futexwait(l, current, 1)] *)
  | Acquire (current : Z)                   (* [a_cas(l, current, INT_MIN + current)] *)
  | Inside                                  (* [__lock] has returned *)
  | Unlock_test                             (* [l[0] < 0] *)
  | Unlock_add                              (* [a_fetch_add(l, -(INT_MIN + 1))] *)
  | Unlock_wake.                            (* [__wake(l, 1, 1)] *)

Section Lock.
Variable einval : bool.

Definition lock_begin (s : lock_mem) (p : lock_pc) (o : lock_op) : option lock_pc :=
  match o, p with
  | Lock_, Out => Some Enter
  | Unlock_, Inside => Some Unlock_test
  | _, _ => None
  end.

Definition set_l (s : lock_mem) (v : Z) : lock_mem := LockMem v (need_locks s).

(** [a_cas(l, t, v)]: the new memory; it returns the old [*l]. *)
Definition cas_l (s : lock_mem) (t v : Z) : lock_mem := if l s =? t then set_l s v else s.
Definition fetch_add_l (s : lock_mem) (v : Z) : lock_mem := set_l s (s32 (l s + v)).

Definition lock_step (s : lock_mem) (p : lock_pc) : option (lock_mem * lock_pc) :=
  match p with
  | Enter => Some (s, if need_locks s =? 0 then Inside else Fast (need_locks s))
  | Fast need => Some (cas_l s 0 (INT_MIN + 1), Fast_end need (l s))
  | Fast_end need current =>
      Some (if need <? 0 then LockMem (l s) 0 else s, if current =? 0 then Inside else Spin 10 current)
  | Spin (S i) current =>
      let current := if current <? 0 then current - (INT_MIN + 1) else current in
      let val := l s in
      Some (cas_l s current (INT_MIN + (current + 1)), if val =? current then Inside else Spin i val)
  | Spin O _ => Some (fetch_add_l s 1, Loop (s32 (l s + 1)))
  | Loop current => Some (s, if current <? 0 then Wait current wait_start else Acquire current)
  | Wait current w =>
      if wait_runs w then
        Some (s, match wait_step einval (l s) current w with
                 | Some w => Wait current w
                 | None => Acquire (current - (INT_MIN + 1))
                 end)
      else None
  | Acquire current =>
      let val := l s in
      Some (cas_l s current (INT_MIN + current), if val =? current then Inside else Loop val)
  | Unlock_test => Some (s, if l s <? 0 then Unlock_add else Out)
  | Unlock_add =>
      Some (fetch_add_l s (- (INT_MIN + 1)), if negb (l s =? INT_MIN + 1) then Unlock_wake else Out)
  | Out | Inside | Unlock_wake => None
  end.

Definition lock_wakes (p : lock_pc) : option (bool * lock_pc) :=
  match p with Unlock_wake => Some (false, Out) | _ => None end.

Definition lock_wakeup (p : lock_pc) (woken : bool) : option lock_pc :=
  match p with Wait current w => option_map (Wait current) (wait_wakeup w woken) | _ => None end.

Definition lock_machine : machine lock_mem lock_pc lock_op := Machine _ _ _ lock_begin lock_step lock_wakes lock_wakeup.

(** [n] threads, the lock free. *)
Definition lock_init (n : nat) : config lock_mem lock_pc := Config (LockMem 0 1) (replicate n Out).

End Lock.

(** * [__lock] keeps its promises under every interleaving: one thread at most
    inside, and no thread asleep when nobody will wake it. *)

(** ** What the comments of [__lock.c] say of the [int] *)

(** The threads counted by it, those that hold the lock, those that sleep,
    and those that have trapped, and those that will take the lock or wake a thread. *)
Definition in_section (p : lock_pc) : bool :=
  match p with
  | Fast_end _ 0 | Loop _ | Wait _ _ | Acquire _ | Inside | Unlock_test | Unlock_add => true
  | _ => false
  end.
Definition holds (p : lock_pc) : bool :=
  match p with Fast_end _ 0 | Inside | Unlock_test | Unlock_add => true | _ => false end.
Definition sleeps (p : lock_pc) : bool := match p with Wait _ w => wait_asleep w | _ => false end.
Definition trapped (p : lock_pc) : bool := match p with Wait _ w => wait_trapped w | _ => false end.
Definition will_act (p : lock_pc) : bool :=
  match p with Loop _ | Acquire _ | Unlock_wake => true | Wait _ w => wait_runs w | _ => false end.

(** The values [*l] can have with [n] threads: a congestion, or a lock flag
    and a congestion of at least [k]. *)
Definition lock_value (n k v : Z) : Prop := k - 1 <= v <= n \/ INT_MIN + k <= v <= INT_MIN + n.

(** The local variables; [current >= 0] and [current > 0] are the assertions
    in comments of the source. *)
Definition lock_pc_ok (einval : bool) (n : Z) (p : lock_pc) : Prop :=
  match p with
  | Fast need => 0 < need
  | Fast_end need current => 0 < need /\ lock_value n 1 current
  | Spin _ current => lock_value n 1 current
  | Loop current => lock_value n 2 current
  | Wait current w => INT_MIN + 2 <= current <= INT_MIN + n /\ (wait_trapped w = true -> einval = true)
  | Acquire current => 0 < current <= n
  | _ => True
  end.

Record lock_inv (einval : bool) (n : nat) (c : config lock_mem lock_pc) : Prop := {
  li_threads : length (threads c) = n /\ Z.of_nat n < 2 ^ 31 - 1;
  li_need : 0 < need_locks (shared c);
  li_one : count holds (threads c) <= 1;
  li_value : l (shared c) = INT_MIN * count holds (threads c) + count in_section (threads c);
  li_local : forall t p, threads c !! t = Some p -> lock_pc_ok einval (Z.of_nat n) p;
  li_wake : count trapped (threads c) = 0 -> 0 < count sleeps (threads c) -> 0 <= l (shared c) -> 0 < count will_act (threads c) }.

(** A thread that moves from [p] to [p'] with [*l] from [v] to [v']. *)
Lemma lock_inv_move einval n c t p p' s : lock_inv einval n c -> threads c !! t = Some p ->
  need_locks s = need_locks (shared c) ->
  lock_pc_ok einval (Z.of_nat n) p' ->
  count holds (threads c) - Z.b2z (holds p) + Z.b2z (holds p') <= 1 ->
  l s - l (shared c) = INT_MIN * (Z.b2z (holds p') - Z.b2z (holds p)) + (Z.b2z (in_section p') - Z.b2z (in_section p)) ->
  (count trapped (threads c) - Z.b2z (trapped p) + Z.b2z (trapped p') = 0 -> 0 < count sleeps (threads c) - Z.b2z (sleeps p) + Z.b2z (sleeps p') -> 0 <= l s ->
    0 < count will_act (threads c) - Z.b2z (will_act p) + Z.b2z (will_act p')) ->
  lock_inv einval n (Config s (<[t := p']> (threads c))).
Proof.
  intros [Hlen Hneed Hone Hval Hloc Hwake] Ht Hn Hp' H1 Hl Hw. split; simpl.
  - by rewrite length_insert.
  - by rewrite Hn.
  - by rewrite (count_insert _ _ _ _ _ Ht).
  - rewrite !(count_insert _ _ _ _ _ Ht). lia.
  - intros u q Hu. destruct (decide (t = u)) as [->|Hne].
    + rewrite list_lookup_insert_eq in Hu by (by eapply lookup_lt_Some). by simplify_eq.
    + rewrite list_lookup_insert_ne in Hu by done. by eapply Hloc.
  - by rewrite !(count_insert _ _ _ _ _ Ht).
Qed.

(** Bounds a state of the invariant gives. *)
Lemma lock_counts einval n c : lock_inv einval n c ->
  0 <= count holds (threads c) /\ 0 <= count trapped (threads c) /\ 0 <= count sleeps (threads c) /\ 0 <= count will_act (threads c) /\
  count holds (threads c) + count sleeps (threads c) <= count in_section (threads c) <= Z.of_nat n.
Proof.
  intros H. pose proof (proj1 (li_threads _ _ _ H)) as Hlen. pose proof (count_range holds (threads c)).
  pose proof (count_range sleeps (threads c)). pose proof (count_range will_act (threads c)). pose proof (count_range trapped (threads c)).
  pose proof (count_range in_section (threads c)). split_and!; try lia.
  apply count_sum. intros t p _. destruct p as [| | |? []|?| |? []| | | | |]; simpl; lia.
Qed.

Ltac lock_cases := repeat (case_match; simplify_eq/=).

(** What [*l] can be when a thread at [p] reads it. *)
Lemma lock_value_seen einval n c t p : lock_inv einval n c -> threads c !! t = Some p ->
  lock_value (Z.of_nat n) 1 (l (shared c)) /\
  (in_section p = true -> holds p = false -> lock_value (Z.of_nat n) 2 (l (shared c))) /\
  (holds p = true -> l (shared c) = INT_MIN + count in_section (threads c)).
Proof.
  intros H Ht. pose proof (lock_counts _ _ _ H). pose proof (li_one _ _ _ H). pose proof (li_value _ _ _ H) as Hv.
  pose proof (count_in in_section _ _ _ Ht). pose proof (count_in holds _ _ _ Ht).
  assert (Hout : count holds (threads c) + Z.b2z (in_section p && negb (holds p)) <= count in_section (threads c)).
  { pose proof (count_in (fun p => in_section p && negb (holds p)) _ _ _ Ht) as Hc. cbv beta in Hc.
    enough (count holds (threads c) + count (fun p => in_section p && negb (holds p)) (threads c) <= count in_section (threads c)) by lia.
    apply count_sum. intros u q _. destruct q as [| | |? []|?| |? []| | | | |]; simpl; lia. }
  unfold lock_value, INT_MIN in *.
  assert (Hc : count holds (threads c) = 0 \/ count holds (threads c) = 1) by lia.
  split_and!.
  - destruct Hc as [Hc|Hc]; rewrite Hc in *; lia.
  - intros Hi Hh. rewrite Hi, Hh in *. simpl in *. destruct Hc as [Hc|Hc]; rewrite Hc in *; lia.
  - intros Hh. rewrite Hh in *. simpl in *. replace (count holds (threads c)) with 1 in * by lia. lia.
Qed.

Lemma fast_end_kind need current : current <> 0 ->
  in_section (Fast_end need current) = false /\ holds (Fast_end need current) = false.
Proof. by destruct current. Qed.

Lemma s32_here x : - 2 ^ 31 <= x < 2 ^ 31 -> s32 x = x.
Proof. apply s32_small. Qed.

(** Applies [lock_inv_move] to the thread at hand and does the arithmetic. *)
Tactic Notation "moved_by" tactic(tac) :=
  lazymatch goal with
  | H : lock_inv _ _ ?c, Ht : threads ?c !! _ = Some _, Hwake : _ -> 0 < count sleeps _ -> _ |- _ =>
      apply (lock_inv_move _ _ _ _ _ _ _ H Ht); tac; simpl; unfold lock_value, INT_MIN; try done; try lia; try (split; [lia|done]);
      try (intros He; specialize (Hwake ltac:(lia)); lia)
  end.
Tactic Notation "moved" := moved_by idtac.

Lemma lock_inv_run einval n c t p p' s : lock_inv einval n c -> threads c !! t = Some p ->
  lock_step einval (shared c) p = Some (s, p') -> lock_inv einval n (Config s (<[t := p']> (threads c))).
Proof.
  intros H Ht Hs. pose proof (li_local _ _ _ H _ _ Ht) as Hp. pose proof (lock_counts _ _ _ H) as Hcnt.
  pose proof (li_one _ _ _ H) as H1. pose proof (li_wake _ _ _ H) as Hwake. pose proof (li_need _ _ _ H) as Hneed.
  pose proof (lock_value_seen _ _ _ _ _ H Ht) as (Hv1 & Hv2 & Hv3). pose proof (li_value _ _ _ H) as Hval.
  pose proof (count_in holds _ _ _ Ht) as Hh. pose proof (count_in in_section _ _ _ Ht) as Hi. pose proof (count_in will_act _ _ _ Ht) as Ha.
  pose proof (proj2 (li_threads _ _ _ H)) as Hn. unfold lock_value, INT_MIN in *.
  destruct p as [| |need|need current|[|i] current|current|current w|current| | | |]; simplify_eq/=.
  - (* Enter *)
    rewrite (proj2 (Z.eqb_neq _ _)) by lia. moved.
  - (* Fast *)
    unfold cas_l, set_l. destruct (Z.eqb_spec (l (shared c)) 0) as [E|E].
    + moved_by (rewrite ?E).
    + destruct (fast_end_kind need _ E) as [E1 E2].
      moved_by (rewrite ?E1, ?E2).
  - (* Fast_end *)
    destruct Hp as [Hpn Hp]. replace (need <? 0) with false by lia. destruct (Z.eqb_spec current 0) as [->|E].
    + moved.
    + destruct (fast_end_kind need _ E) as [E1 E2].
      moved_by (rewrite ?E1, ?E2).
  - (* the last round failed *)
    pose proof (count_out in_section _ _ _ Ht eq_refl) as Hout. rewrite (proj1 (li_threads _ _ _ H)) in Hout.
    unfold fetch_add_l, set_l. rewrite s32_here by lia. moved.
  - (* a round *)
    set (cur := if current <? 0 then _ else current).
    assert (Hcur : 0 <= cur) by (subst cur; unfold lock_value, INT_MIN in *; destruct (Z.ltb_spec current 0); lia).
    clearbody cur.
    unfold cas_l, set_l. destruct (Z.eqb_spec (l (shared c)) cur) as [E|E];
      moved.
  - (* Loop *)
    unfold lock_value, INT_MIN in Hp. destruct (Z.ltb_spec current 0); moved.
  - (* Wait *)
    destruct (wait_runs w) eqn:Er; [|done]. simplify_eq/=. destruct Hp as [Hp Htr]. unfold INT_MIN in Hp.
    assert (Hacq : lock_inv einval n (Config (shared c) (<[t := Acquire (current - (INT_MIN + 1))]> (threads c)))).
    { apply (lock_inv_move einval n c t _ _ _ H Ht); simpl; rewrite ?Er; unfold INT_MIN; try done; try lia.
      simpl. lia. }
    assert (Hkeep : forall w', wait_trapped w' = false -> wait_runs w' = true ->
      lock_inv einval n (Config (shared c) (<[t := Wait current w']> (threads c)))).
    { intros w' Htr' Hr'. apply (lock_inv_move einval n c t _ _ _ H Ht); simpl; rewrite ?Er, ?Hr'; unfold INT_MIN; try done; try lia.
      split; [done|congruence]. }
    destruct w as [[|k]| | | | |b|]; simpl; try done; try by apply Hkeep.
    all: destruct (Z.eqb_spec (l (shared c)) current) as [E|E]; try by first [exact Hacq|apply Hkeep].
    + moved.
    + destruct einval eqn:Ee; [|by apply Hkeep].
      moved.
  - (* Acquire *)
    unfold cas_l, set_l. destruct (Z.eqb_spec (l (shared c)) current) as [E|E];
      moved.
  - (* Unlock_test *)
    destruct (Z.ltb_spec (l (shared c)) 0); moved.
  - (* Unlock_add *)
    unfold fetch_add_l, set_l, INT_MIN. rewrite s32_here by lia.
    destruct (Z.eqb_spec (l (shared c)) (- 2 ^ 31 + 1)) as [E|E]; simpl;
      moved.
Qed.

Lemma lock_inv_begin einval n c t p p' o : lock_inv einval n c -> threads c !! t = Some p ->
  lock_begin (shared c) p o = Some p' -> lock_inv einval n (Config (shared c) (<[t := p']> (threads c))).
Proof.
  intros H Ht Hb. pose proof (li_one _ _ _ H). pose proof (li_wake _ _ _ H) as Hwake.
  destruct o, p; simplify_eq/=; moved.
Qed.

Lemma lock_inv_wakeup einval n c t p p' b : lock_inv einval n c -> threads c !! t = Some p ->
  lock_wakeup p b = Some p' -> lock_inv einval n (Config (shared c) (<[t := p']> (threads c))).
Proof.
  intros H Ht Hb. pose proof (li_one _ _ _ H). pose proof (li_wake _ _ _ H) as Hwake.
  pose proof (li_local _ _ _ H _ _ Ht) as Hp. pose proof (lock_counts _ _ _ H).
  destruct p as [| | | | | |current w| | | | |]; try done. destruct w; simplify_eq/=.
  destruct Hp as [Hp _]. unfold INT_MIN in Hp. moved.
Qed.

Lemma lock_sleeps einval p : asleep (lock_machine einval) p = sleeps p.
Proof. by destruct p as [| | | | | |? []| | | | |]. Qed.

Lemma lock_inv_move_any einval n c c' : lock_inv einval n c -> move (lock_machine einval) c c' -> lock_inv einval n c'.
Proof.
  intros H [t p p' o Ht Hb|t p p' s Ht Hs|t p p' b Ht Hb|t p p' Ht Hw Hno|t p p' u q q' Ht Hw Hu Hq|t p p' Ht Hw]; simpl in *.
  - by eapply lock_inv_begin.
  - by eapply lock_inv_run.
  - by eapply lock_inv_wakeup.
  - destruct p; simplify_eq/=. pose proof (li_one _ _ _ H). pose proof (li_wake _ _ _ H) as Hwake.
    assert (Hs : ~ 0 < count sleeps (threads c)).
    { intros (u & q & Hu & Hq)%count_exists. specialize (Hno u q Hu). rewrite lock_sleeps in Hno. congruence. }
    moved.
  - destruct p; simplify_eq/=. pose proof (lock_inv_wakeup _ _ _ _ _ _ _ H Hu Hq) as H'.
    assert (Hne : t <> u) by (intros ->; rewrite Ht in Hu; by simplify_eq).
    change (lock_inv einval n (Config (shared c) (<[t := Out]> (threads (Config (shared c) (<[u := q']> (threads c))))))).
    change (shared c) with (shared (Config (shared c) (<[u := q']> (threads c)))) at 1.
    assert (Ht' : threads (Config (shared c) (<[u := q']> (threads c))) !! t = Some Unlock_wake).
    { simpl. by rewrite list_lookup_insert_ne. }
    assert (Hu' : threads (Config (shared c) (<[u := q']> (threads c))) !! u = Some q').
    { simpl. apply list_lookup_insert_eq. by eapply lookup_lt_Some. }
    generalize dependent (Config (shared c) (<[u := q']> (threads c))). intros c1 H' Ht' Hu'.
    pose proof (li_one _ _ _ H'). pose proof (li_wake _ _ _ H') as Hwake.
    assert (Hq' : will_act q' = true).
    { destruct q as [| | | | | |? []| | | | |]; by simplify_eq/=. }
    pose proof (count_two will_act _ _ _ _ _ Ht' Hu' Hne) as H2. rewrite Hq' in H2. simpl in H2. clear Hu'. moved.
  - by destruct p.
Qed.

Lemma lock_inv_init einval n : Z.of_nat n < 2 ^ 31 - 1 -> lock_inv einval n (lock_init n).
Proof.
  intros Hn. split; simpl; rewrite ?count_replicate, ?length_replicate; simpl; try lia; try done.
  intros t p Ht. apply lookup_replicate in Ht as [-> _]. done.
Qed.

Lemma lock_inv_reachable einval n c : Z.of_nat n < 2 ^ 31 - 1 ->
  reachable (lock_machine einval) (lock_init n) c -> lock_inv einval n c.
Proof.
  intros Hn. apply reachable_inv; [by apply lock_inv_init|]. intros c1 e c2 H He.
  eapply lock_inv_move_any; [done|]. by eapply exec_move.
Qed.

(** C33: [__lock] excludes: with fewer than 2^31 - 1 threads, in any order of
    their accesses to the [int], at most one is between the end of [__lock]
    and the update in [__unlock].  The [int] is what its comment says: the
    number of threads in the critical section, waiting ones included, and the
    sign bit when one of them has the lock.  The two assertions in comments
    hold: [current] is not negative before the first compare-and-swap and
    positive before the second. *)
Theorem lock_exclusive einval n c : Z.of_nat n < 2 ^ 31 - 1 -> reachable (lock_machine einval) (lock_init n) c ->
  (forall t u p q, threads c !! t = Some p -> threads c !! u = Some q -> holds p = true -> holds q = true -> t = u) /\
  l (shared c) = (if existsb holds (threads c) then INT_MIN else 0) +
    count in_section (threads c) /\
  (forall t i current, threads c !! t = Some (Spin (S i) current) ->
     0 <= (if current <? 0 then current - (INT_MIN + 1) else current)) /\
  (forall t current, threads c !! t = Some (Acquire current) -> 0 < current).
Proof.
  intros Hn Hr. pose proof (lock_inv_reachable _ _ _ Hn Hr) as H. pose proof (li_one _ _ _ H) as H1.
  pose proof (lock_counts _ _ _ H). split_and!.
  - intros t u p q Ht Hu Hp Hq. destruct (decide (t = u)) as [|Hne]; [done|].
    pose proof (count_two holds _ _ _ _ _ Ht Hu Hne) as H2. rewrite Hp, Hq in H2. simpl in H2. lia.
  - rewrite (li_value _ _ _ H), count_existsb. destruct (Z.ltb_spec 0 (count holds (threads c))).
    + replace (count holds (threads c)) with 1 by lia. lia.
    + replace (count holds (threads c)) with 0 by lia. lia.
  - intros t i current Ht. pose proof (li_local _ _ _ H _ _ Ht) as Hp. unfold lock_pc_ok, lock_value, INT_MIN in *.
    destruct (Z.ltb_spec current 0); lia.
  - intros t current Ht. by destruct (li_local _ _ _ H _ _ Ht).
Qed.

(** C34: no wake-up of [__lock] is lost: whenever a thread is asleep on the
    [int], another one has the lock, or is on its way to take it without
    sleeping, or is about to wake a sleeper, or has trapped.  The last is
    possible only on a host that reports a changed value as [EINVAL]
    ([einval]), as the declaration of [__wasi_futex_wait] says it does:
    [__wasilibc_futex_wait_wasix] traps on every error. *)
Theorem lock_wakes_up einval n c t p : Z.of_nat n < 2 ^ 31 - 1 -> reachable (lock_machine einval) (lock_init n) c ->
  threads c !! t = Some p -> sleeps p = true ->
  exists u q, threads c !! u = Some q /\ (holds q || will_act q || einval && trapped q) = true.
Proof.
  intros Hn Hr Ht Hp. pose proof (lock_inv_reachable _ _ _ Hn Hr) as H. pose proof (lock_counts _ _ _ H).
  assert (Hs : 0 < count sleeps (threads c)) by (apply count_exists; eauto).
  destruct (decide (0 < count holds (threads c))) as [Hh|Hh]; [|destruct (decide (0 < count trapped (threads c))) as [Htr|Htr]].
  - apply count_exists in Hh as (u & q & Hu & Hq). exists u, q. by rewrite Hq.
  - apply count_exists in Htr as (u & q & Hu & Hq). exists u, q. split; [done|].
    rewrite Hq, andb_true_r. pose proof (li_local _ _ _ H _ _ Hu) as Hok. destruct q; try done. simpl in Hq, Hok.
    rewrite (proj2 Hok Hq). by rewrite orb_true_r.
  - pose proof (li_value _ _ _ H) as Hv. replace (count holds (threads c)) with 0 in Hv by lia.
    pose proof (li_wake _ _ _ H ltac:(lia) Hs ltac:(lia)) as Hw. apply count_exists in Hw as (u & q & Hu & Hq).
    exists u, q. by rewrite Hq, orb_true_r.
Qed.
