(* ===== verification/Sem.v ===== *)
(** Semaphores ([thread/sem_post.c], [sem_trywait.c], [sem_timedwait.c],
    [sem_wait.c], [sem_init.c]): a value that is -1 when it is 0 and threads
    may be waiting, and a count of waiters. *)
From S2P Require Import Prelude.
From S2P Require Import Threads.

Definition SEM_VALUE_MAX : Z := 2147483647.

(** [__val[0]] and [__val[1]].  [posted] and [taken] count the successful
    calls; the code does not have them. *)
Record sem_mem := SemMem { val : Z; waiters : Z; posted : Z; taken : Z }.

(** [sem_timedwait] with or without a time; [sem_wait] has none. *)
Inductive sem_op := Post | Trywait | Timedwait (timed : bool).

(** Where a failing [sem_trywait] goes on: it was called by itself, first in
    [sem_timedwait], or in its loop. *)
Inductive try_for := ByItself | First (timed : bool) | Again (timed : bool).

Inductive sem_pc :=
  | Idle
  | Post_val                                (* [val = sem->__val[0]] *)
  | Post_waiters (v : Z)                    (* [waiters = sem->__val[1]], the test *)
  | Post_cas (v w : Z)
  | Post_wake
  | Try_val (k : try_for)                   (* [(val=sem->__val[0]) > 0] *)
  | Try_waiters (k : try_for)               (* [sem->__val[1]], read when [val == 1] *)
  | Try_cas (k : try_for) (v new : Z)
  | Spin_val (n : nat) (timed : bool)       (* [spins-- && sem->__val[0] <= 0] *)
  | Spin_waiters (n : nat) (timed : bool)   (* [!sem->__val[1]] *)
  | Wait_inc (timed : bool)                 (* [a_inc(sem->__val+1)] *)
  | Wait_cas (timed : bool)                 (* [a_cas(sem->__val, 0, -1)] *)
  | Wait_time (timed : bool)                (* [__timedwait_cp], its computation of the time left *)
  | Wait_check (timed : bool)               (* the futex word against -1 *)
  | Wait_host (timed : bool)
  | Wait_asleep (timed : bool)
  | Wait_back (timed woken : bool)
  | Wait_dec (timed timedout : bool)        (* [a_dec], by the cleanup handler *)
  | Failed.                                 (* returned -1 *)

Definition sem_begin (s : sem_mem) (p : sem_pc) (o : sem_op) : option sem_pc :=
  match p with
  | Idle | Failed =>
      Some (match o with Post => Post_val | Trywait => Try_val ByItself | Timedwait timed => Try_val (First timed) end)
  | _ => None
  end.

Definition set_val (s : sem_mem) (v : Z) : sem_mem := SemMem v (waiters s) (posted s) (taken s).
Definition set_waiters (s : sem_mem) (w : Z) : sem_mem := SemMem (val s) w (posted s) (taken s).

(** [sem_trywait] gives up. *)
Definition try_failed (k : try_for) : sem_pc :=
  match k with
  | ByItself => Failed
  | First timed => Spin_val 100 timed
  | Again timed => Wait_inc timed
  end.

(** Each function by its accesses. *)
Definition sem_post_step (s : sem_mem) (p : sem_pc) : option (sem_mem * sem_pc) :=
  match p with
  | Post_val => Some (s, Post_waiters (val s))
  | Post_waiters v => Some (s, if v =? SEM_VALUE_MAX then Failed else Post_cas v (waiters s))
  | Post_cas v w =>
      if val s =? v then
        Some (SemMem (v + 1 + (if v <? 0 then 1 else 0)) (waiters s) (posted s + 1) (taken s),
              if (v <? 0) || negb (w =? 0) then Post_wake else Idle)
      else Some (s, Post_val)
  | _ => None
  end.

Definition sem_trywait_step (s : sem_mem) (p : sem_pc) : option (sem_mem * sem_pc) :=
  match p with
  | Try_val k =>
      let v := val s in
      Some (s, if 0 <? v then if v =? 1 then Try_waiters k else Try_cas k v (v - 1) else try_failed k)
  | Try_waiters k => Some (s, Try_cas k 1 (1 - 1 - (if waiters s =? 0 then 0 else 1)))
  | Try_cas k v new =>
      if val s =? v then Some (SemMem new (waiters s) (posted s) (taken s + 1), Idle)
      else Some (s, Try_val k)
  | _ => None
  end.

Definition sem_timedwait_step (s : sem_mem) (p : sem_pc) : option (sem_mem * sem_pc) :=
  match p with
  | Spin_val O timed => Some (s, Try_val (Again timed))
  | Spin_val (S n) timed => Some (s, if val s <=? 0 then Spin_waiters n timed else Try_val (Again timed))
  | Spin_waiters n timed => Some (s, if waiters s =? 0 then Spin_val n timed else Try_val (Again timed))
  | Wait_inc timed => Some (set_waiters s (s32 (waiters s + 1)), Wait_cas timed)
  | Wait_cas timed => Some (if val s =? 0 then set_val s (-1) else s, Wait_time timed)
  | Wait_time timed => Some (s, Wait_check timed)
  | Wait_check timed => Some (s, if val s =? -1 then Wait_host timed else Wait_dec timed false)
  | Wait_host timed => Some (s, if val s =? -1 then Wait_asleep timed else Wait_back timed true)
  | Wait_back timed woken => Some (s, Wait_dec timed (negb woken && (val s =? -1)))
  | Wait_dec timed timedout =>
      Some (set_waiters s (s32 (waiters s - 1)), if timedout then Failed else Try_val (Again timed))
  | _ => None
  end.

Definition sem_step (s : sem_mem) (p : sem_pc) : option (sem_mem * sem_pc) :=
  match p with
  | Post_val | Post_waiters _ | Post_cas _ _ => sem_post_step s p
  | Try_val _ | Try_waiters _ | Try_cas _ _ _ => sem_trywait_step s p
  | _ => sem_timedwait_step s p
  end.

Definition sem_wakes (p : sem_pc) : option (bool * sem_pc) :=
  match p with Post_wake => Some (false, Idle) | _ => None end.

(** The host returns to a sleeper; it reports a timeout only if it was given
    a time.  The time may also have passed when it is computed. *)
Definition sem_wakeup (p : sem_pc) (woken : bool) : option sem_pc :=
  match p with
  | Wait_asleep timed => if woken || timed then Some (Wait_back timed woken) else None
  | Wait_time true => if woken then None else Some (Wait_dec true true)
  | _ => None
  end.

Definition sem_machine : machine sem_mem sem_pc sem_op := Machine _ _ _ sem_begin sem_step sem_wakes sem_wakeup.

(** [sem_init(sem, 0, value)] and [n] threads. *)
Definition sem_init (n : nat) (value : Z) : config sem_mem sem_pc :=
  Config (SemMem value 0 0 0) (replicate n Idle).

(** * Semaphores under every interleaving: units are conserved; a post whose
    count of waiters is out of date loses a wake-up. *)

(** The threads counted by [__val[1]]. *)
Definition sem_waits (p : sem_pc) : bool :=
  match p with
  | Wait_cas _ | Wait_time _ | Wait_check _ | Wait_host _ | Wait_asleep _ | Wait_back _ _ | Wait_dec _ _ => true
  | _ => false
  end.

Definition sem_pc_ok (p : sem_pc) : Prop :=
  match p with
  | Post_waiters v => -1 <= v <= SEM_VALUE_MAX
  | Post_cas v _ => -1 <= v < SEM_VALUE_MAX
  | Try_cas _ v new => 1 <= v /\ -1 <= new /\ Z.max 0 new = v - 1
  | _ => True
  end.

Record sem_inv (n : nat) (value : Z) (c : config sem_mem sem_pc) : Prop := {
  si_threads : length (threads c) = n /\ Z.of_nat n < 2 ^ 31;
  si_val : -1 <= val (shared c) <= SEM_VALUE_MAX;
  si_units : Z.max 0 (val (shared c)) = value + posted (shared c) - taken (shared c);
  si_counts : 0 <= posted (shared c) /\ 0 <= taken (shared c);
  si_waiters : waiters (shared c) = count sem_waits (threads c);
  si_local : Forall sem_pc_ok (threads c) }.

Lemma sem_inv_move n value c t p p' s : sem_inv n value c -> threads c !! t = Some p -> sem_pc_ok p' ->
  -1 <= val s <= SEM_VALUE_MAX ->
  Z.max 0 (val s) - Z.max 0 (val (shared c)) = posted s - posted (shared c) - (taken s - taken (shared c)) ->
  posted (shared c) <= posted s /\ taken (shared c) <= taken s ->
  waiters s - waiters (shared c) = Z.b2z (sem_waits p') - Z.b2z (sem_waits p) ->
  sem_inv n value (Config s (<[t := p']> (threads c))).
Proof.
  intros [Hlen Hval Hunits Hcounts Hw Hloc] Ht Hp' Hv Hu Hc Hws. split; simpl; try lia.
  - by rewrite length_insert.
  - rewrite (count_insert _ _ _ _ _ Ht). lia.
  - by apply Forall_insert.
Qed.

Ltac sem_moved := eapply sem_inv_move; simpl; rewrite ?Z.sub_diag; try done; try lia.

Lemma sem_inv_run n value c t p p' s : sem_inv n value c -> threads c !! t = Some p ->
  sem_step (shared c) p = Some (s, p') -> sem_inv n value (Config s (<[t := p']> (threads c))).
Proof.
  intros H Ht Hs. pose proof (si_val _ _ _ H) as Hv. pose proof (si_waiters _ _ _ H) as Hw.
  pose proof (count_range sem_waits (threads c)) as Hr. pose proof (count_in sem_waits _ _ _ Ht) as Hin.
  pose proof (proj1 (si_threads _ _ _ H)) as Hn. pose proof (proj2 (si_threads _ _ _ H)) as Hn2.
  assert (Hp : sem_pc_ok p) by exact (proj1 (Forall_lookup _ _) (si_local _ _ _ H) _ _ Ht).
  assert (Hout : sem_waits p = false -> count sem_waits (threads c) < Z.of_nat n).
  { intros Hf. pose proof (count_out _ _ _ _ Ht Hf). lia. }
  unfold SEM_VALUE_MAX in *.
  destruct p as [| |v|v w| |k|k|k v new|[|i] timed|i timed|timed|timed|timed|timed|timed|timed|timed woken|timed timedout|]; simplify_eq/=;
    unfold set_val, set_waiters, SEM_VALUE_MAX in *.
  all: rewrite ?s32_small by lia.
  all: try destruct k; repeat case_match; simplify_eq/=; sem_moved; simpl; unfold SEM_VALUE_MAX; try lia.
Qed.

Lemma sem_inv_move_any n value c c' : sem_inv n value c -> move sem_machine c c' -> sem_inv n value c'.
Proof.
  intros H [t p p' o Ht Hb|t p p' s Ht Hs|t p p' b Ht Hb|t p p' Ht Hw Hno|t p p' u q q' Ht Hw Hu Hq|t p p' Ht Hw]; simpl in *;
    pose proof (si_val _ _ _ H).
  - destruct p, o; simplify_eq/=; sem_moved.
  - by eapply sem_inv_run.
  - destruct p as [| | | | | | | | | | | | []| | | | | |], b; simplify_eq/=; repeat case_match; simplify_eq/=; sem_moved.
  - destruct p; simplify_eq/=; sem_moved.
  - assert (H' : sem_inv n value (Config (shared c) (<[u := q']> (threads c)))).
    { destruct q; simplify_eq/=; repeat case_match; simplify_eq/=; sem_moved. }
    assert (Hne : t <> u) by (intros ->; destruct p, q; simplify_eq/=).
    destruct p; simplify_eq/=. assert (Ht' : <[u := q']> (threads c) !! t = Some Post_wake) by (by rewrite list_lookup_insert_ne).
    eapply (sem_inv_move _ value (Config (shared c) (<[u := q']> (threads c))) t Post_wake); simpl; rewrite ?Z.sub_diag; try done; lia.
  - by destruct p.
Qed.

Lemma sem_inv_init n value : Z.of_nat n < 2 ^ 31 -> 0 <= value <= SEM_VALUE_MAX -> sem_inv n value (sem_init n value).
Proof.
  intros Hn Hv. split; simpl; rewrite ?count_replicate, ?length_replicate; simpl; try lia. by apply Forall_replicate.
Qed.

(** C35: semaphores conserve their units.  Whatever the order in which threads
    call [sem_post], [sem_trywait], [sem_wait] and [sem_timedwait], time out or
    are woken for no reason, the value counts the initial units and those
    posted, less those taken: no call takes a unit that is not there and no
    posted unit disappears.  The value stays in its range (-1 stands for 0)
    and the second word is the number of threads in the waiting part. *)
Theorem sem_conserves n value c : Z.of_nat n < 2 ^ 31 -> 0 <= value <= SEM_VALUE_MAX ->
  reachable sem_machine (sem_init n value) c ->
  Z.max 0 (val (shared c)) = value + posted (shared c) - taken (shared c) /\
  -1 <= val (shared c) <= SEM_VALUE_MAX /\
  0 <= taken (shared c) <= value + posted (shared c) /\
  waiters (shared c) = count sem_waits (threads c).
Proof.
  intros Hn Hv Hr. assert (H : sem_inv n value c).
  { revert Hr. apply reachable_inv; [by apply sem_inv_init|]. intros c1 e c2 H1 He. eapply sem_inv_move_any; [done|]. by eapply exec_move. }
  destruct H as [_ Hval Hunits Hcounts Hw _]. split_and!; try done; lia.
Qed.

(** *** A lost wake-up

    Threads 0 and 1 wait; thread 2 posts, with a count of waiters it has read
    when the value was 1 before; thread 3 takes that unit and posts one. *)
Definition run (t k : nat) : list (event sem_op) := replicate k (Run t).

Definition stale_post : list (event sem_op) :=
  Begin 2 Post :: run 2 2 ++                               (* thread 2 has read value 1 and no waiters *)
  Begin 3 Trywait :: run 3 3 ++                            (* thread 3 takes the unit *)
  Begin 0 (Timedwait false) :: run 0 (1 + 200 + 2 + 5) ++  (* thread 0 spins and falls asleep: value -1 *)
  Begin 1 (Timedwait false) :: run 1 (1 + 2 + 1 + 5) ++    (* thread 1 falls asleep *)
  Begin 3 Post :: run 3 3 ++ [WakeOne 3 (Some 0%nat)] ++   (* thread 3 posts, value 1, and wakes thread 0 *)
  run 2 1 ++                                               (* thread 2 posts, value 2, and sees no waiters *)
  run 0 4.                                                 (* thread 0 takes a unit, value 1 *)

(** [sem_post] can lose a wake-up.  From a semaphore of one unit four
    threads come to a state in which the value is 1, a thread sleeps in
    [sem_wait], and no call is under way that would wake it: only
    new calls, or a spurious return of the host, change the state. *)
Theorem sem_lost_wakeup : exists c, reachable sem_machine (sem_init 4 1) c /\
  val (shared c) = 1 /\ threads c = [Idle; Wait_asleep false; Idle; Idle] /\
  (forall e c', exec sem_machine c e = Some c' -> (exists t o, e = Begin t o) \/ e = Return 1 true).
Proof.
  destruct (execs sem_machine (sem_init 4 1) stale_post) as [c|] eqn:E; [|vm_compute in E; discriminate].
  exists c. split; [eapply execs_reachable; [constructor|exact E]|].
  vm_compute in E. injection E as <-. split; [done|]. split; [done|].
  intros [t o|t|t u|t|u b] c'; simpl.
  - left. eauto.
  - by destruct t as [|[|[|[|t]]]].
  - by destruct t as [|[|[|[|t]]]].
  - by destruct t as [|[|[|[|t]]]].
  - destruct u as [|[|[|[|u]]]]; try done. destruct b; simpl; [by right|done].
Qed.
