(* ===== verification/Rwlock.v ===== *)
(** Read-write locks ([thread/pthread_rwlock_tryrdlock.c], [trywrlock],
    [timedrdlock], [timedwrlock], [rdlock], [wrlock], [unlock]) and
    [pthread_once] ([thread/pthread_once.c]). *)
From S2P Require Import Prelude.
From S2P Require Import Threads.

(** ** Read-write locks

    [_rw_lock]: the number of readers, or 0x7fffffff for a writer, and the sign
    bit when threads may be waiting.  [_rw_waiters] counts them. *)
Record rw_mem := RwMem { rw_lock : Z; rw_waiters : Z }.

Inductive rw_op := Tryrdlock | Trywrlock | Rdlock (timed : bool) | Wrlock (timed : bool) | Unlock.

(** A lock call: [wr] for writing; by itself, first of all, or in the loop. *)
Inductive rw_try := Once (wr : bool) | Before (wr timed : bool) | In_loop (wr timed : bool).

Inductive rw_pc :=
  | R_idle
  | R_reader | R_writer                     (* the call has returned 0 *)
  | R_rd_val (k : rw_try)                   (* [val = rw->_rw_lock], [cnt] *)
  | R_rd_cas (k : rw_try) (v : Z)
  | R_wr_cas (k : rw_try)
  | R_spin_lock (n : nat) (wr timed : bool) (* [spins-- && rw->_rw_lock] *)
  | R_spin_wait (n : nat) (wr timed : bool) (* [!rw->_rw_waiters] *)
  | R_look (wr timed : bool)                (* [r = rw->_rw_lock] *)
  | R_inc (wr timed : bool) (r : Z)
  | R_flag (wr timed : bool) (r : Z)        (* [a_cas(&rw->_rw_lock, r, t)] *)
  | R_time (wr timed : bool) (t : Z)        (* [__timedwait] *)
  | R_check (wr timed : bool) (t : Z)
  | R_host (wr timed : bool) (t : Z)
  | R_asleep (wr timed : bool) (t : Z)
  | R_back (wr timed woken : bool) (t : Z)
  | R_dec (wr timed timedout : bool)
  | R_un_val (wr : bool)                    (* [unlock]; the code does not know [wr] *)
  | R_un_waiters (wr : bool) (v : Z)
  | R_un_cas (wr : bool) (v w : Z)
  | R_wake (all : bool).

Definition rw_cnt (v : Z) : Z := Z.land v 2147483647.
Definition rw_flag (r : Z) : Z := s32 (Z.lor (w32 r) 2147483648).

Definition rw_try_pc (k : rw_try) : rw_pc :=
  match k with
  | Once wr | Before wr _ | In_loop wr _ => if wr then R_wr_cas k else R_rd_val k
  end.

Definition rw_begin (s : rw_mem) (p : rw_pc) (o : rw_op) : option rw_pc :=
  match p, o with
  | R_idle, Tryrdlock => Some (rw_try_pc (Once false))
  | R_idle, Trywrlock => Some (rw_try_pc (Once true))
  | R_idle, Rdlock timed => Some (rw_try_pc (Before false timed))
  | R_idle, Wrlock timed => Some (rw_try_pc (Before true timed))
  | R_reader, Unlock => Some (R_un_val false)
  | R_writer, Unlock => Some (R_un_val true)
  | _, _ => None
  end.

(** The try returns [EBUSY]. *)
Definition rw_busy (k : rw_try) : rw_pc :=
  match k with
  | Once _ => R_idle
  | Before wr timed => R_spin_lock 100 wr timed
  | In_loop wr timed => R_look wr timed
  end.

Definition rw_set (s : rw_mem) (v : Z) : rw_mem := RwMem v (rw_waiters s).
Definition rw_again (wr timed : bool) : rw_pc := rw_try_pc (In_loop wr timed).

(** Each function by its accesses. *)
Definition tryrdlock_step (s : rw_mem) (p : rw_pc) : option (rw_mem * rw_pc) :=
  match p with
  | R_rd_val k =>
      let v := rw_lock s in
      let cnt := rw_cnt v in
      Some (s, if cnt =? 2147483647 then rw_busy k
               else if cnt =? 2147483646 then R_idle       (* EAGAIN *)
               else R_rd_cas k v)
  | R_rd_cas k v => Some (if rw_lock s =? v then (rw_set s (v + 1), R_reader) else (s, R_rd_val k))
  | _ => None
  end.

Definition trywrlock_step (s : rw_mem) (p : rw_pc) : option (rw_mem * rw_pc) :=
  match p with
  | R_wr_cas k => Some (if rw_lock s =? 0 then (rw_set s 2147483647, R_writer) else (s, rw_busy k))
  | _ => None
  end.

(** [timedrdlock] and [timedwrlock], which differ in one test. *)
Definition timedlock_step (s : rw_mem) (p : rw_pc) : option (rw_mem * rw_pc) :=
  match p with
  | R_spin_lock O wr timed => Some (s, rw_again wr timed)
  | R_spin_lock (S n) wr timed => Some (s, if rw_lock s =? 0 then rw_again wr timed else R_spin_wait n wr timed)
  | R_spin_wait n wr timed => Some (s, if rw_waiters s =? 0 then R_spin_lock n wr timed else rw_again wr timed)
  | R_look wr timed =>
      let r := rw_lock s in
      Some (s, if (r =? 0) || (negb wr && negb (rw_cnt r =? 2147483647)) then rw_again wr timed else R_inc wr timed r)
  | R_inc wr timed r => Some (RwMem (rw_lock s) (s32 (rw_waiters s + 1)), R_flag wr timed r)
  | R_flag wr timed r => Some (if rw_lock s =? r then rw_set s (rw_flag r) else s, R_time wr timed (rw_flag r))
  | R_time wr timed t => Some (s, R_check wr timed t)
  | R_check wr timed t => Some (s, if rw_lock s =? t then R_host wr timed t else R_dec wr timed false)
  | R_host wr timed t => Some (s, if rw_lock s =? t then R_asleep wr timed t else R_back wr timed true t)
  | R_back wr timed woken t => Some (s, R_dec wr timed (negb woken && (rw_lock s =? t)))
  | R_dec wr timed timedout =>
      Some (RwMem (rw_lock s) (s32 (rw_waiters s - 1)), if timedout then R_idle else rw_again wr timed)
  | _ => None
  end.

Definition unlock_step (s : rw_mem) (p : rw_pc) : option (rw_mem * rw_pc) :=
  match p with
  | R_un_val wr => Some (s, R_un_waiters wr (rw_lock s))
  | R_un_waiters wr v => Some (s, R_un_cas wr v (rw_waiters s))
  | R_un_cas wr v w =>
      let cnt := rw_cnt v in
      let new := if (cnt =? 2147483647) || (cnt =? 1) then 0 else v - 1 in
      Some (if rw_lock s =? v then
              (rw_set s new, if (new =? 0) && (negb (w =? 0) || (v <? 0)) then R_wake (cnt =? 2147483647) else R_idle)
            else (s, R_un_val wr))
  | _ => None
  end.

Definition rw_step (s : rw_mem) (p : rw_pc) : option (rw_mem * rw_pc) :=
  match p with
  | R_rd_val _ | R_rd_cas _ _ => tryrdlock_step s p
  | R_wr_cas _ => trywrlock_step s p
  | R_un_val _ | R_un_waiters _ _ | R_un_cas _ _ _ => unlock_step s p
  | _ => timedlock_step s p
  end.

(** [__wake(&rw->_rw_lock, cnt, priv)]: [cnt] is 1 or [INT_MAX] there. *)
Definition rw_wakes (p : rw_pc) : option (bool * rw_pc) :=
  match p with R_wake all => Some (all, R_idle) | _ => None end.

Definition rw_wakeup (p : rw_pc) (woken : bool) : option rw_pc :=
  match p with
  | R_asleep wr timed t => if woken || timed then Some (R_back wr timed woken t) else None
  | R_time wr true t => if woken then None else Some (R_dec wr true true)
  | _ => None
  end.

Definition rw_machine : machine rw_mem rw_pc rw_op := Machine _ _ _ rw_begin rw_step rw_wakes rw_wakeup.
Definition rw_init (n : nat) : config rw_mem rw_pc := Config (RwMem 0 0) (replicate n R_idle).

(** ** [pthread_once]

    [*control], and how often [init] has returned (which the code does not
    count). *)
Record once_mem := OnceMem { control : Z; completed : Z }.

Inductive once_op :=
  | Pthread_once
  | Init_returns
  | Init_cancelled.             (* the thread is cancelled in [init]: [undo] *)

Inductive once_pc :=
  | O_idle
  | O_test                      (* [*(volatile int * )control == 2] *)
  | O_enter                     (* [a_cas(control, 0, 1)] *)
  | O_init                      (* in [init] *)
  | O_finish                    (* [a_swap(control, 2) == 3] *)
  | O_undo                      (* [a_swap(control, 0) == 3] *)
  | O_mark                      (* [a_cas(control, 1, 3)] *)
  | O_wait (w : waiting)        (* [__wait(control, 0, 3, 1)] *)
  | O_wake (cancelled : bool)   (* [__wake(control, -1, 1)] *)
  | O_done                      (* has returned 0 *)
  | O_cancelled.

Section Once.
Variable einval : bool.

Definition once_begin (s : once_mem) (p : once_pc) (o : once_op) : option once_pc :=
  match p, o with
  | (O_idle | O_done), Pthread_once => Some O_test
  | O_init, Init_returns => Some O_finish
  | O_init, Init_cancelled => Some O_undo
  | _, _ => None
  end.

Definition once_step (s : once_mem) (p : once_pc) : option (once_mem * once_pc) :=
  match p with
  | O_test => Some (s, if control s =? 2 then O_done else O_enter)
  | O_enter =>
      let v := control s in
      if v =? 0 then Some (OnceMem 1 (completed s), O_init)
      else if v =? 1 then Some (s, O_mark)
      else if v =? 3 then Some (s, O_wait wait_start)
      else if v =? 2 then Some (s, O_done)
      else Some (s, O_enter)
  | O_finish => Some (OnceMem 2 (completed s + 1), if control s =? 3 then O_wake false else O_done)
  | O_undo => Some (OnceMem 0 (completed s), if control s =? 3 then O_wake true else O_cancelled)
  | O_mark => Some (if control s =? 1 then OnceMem 3 (completed s) else s, O_wait wait_start)
  | O_wait w =>
      if wait_runs w then
        Some (s, match wait_step einval (control s) 3 w with Some w => O_wait w | None => O_enter end)
      else None
  | O_idle | O_init | O_wake _ | O_done | O_cancelled => None
  end.

Definition once_wakes (p : once_pc) : option (bool * once_pc) :=
  match p with O_wake cancelled => Some (true, if cancelled then O_cancelled else O_done) | _ => None end.

Definition once_wakeup (p : once_pc) (woken : bool) : option once_pc :=
  match p with O_wait w => option_map O_wait (wait_wakeup w woken) | _ => None end.

Definition once_machine : machine once_mem once_pc once_op := Machine _ _ _ once_begin once_step once_wakes once_wakeup.
Definition once_init (n : nat) : config once_mem once_pc := Config (OnceMem 0 0) (replicate n O_idle).

End Once.

(** * Read-write locks and [pthread_once] under every interleaving. *)

(** ** Read-write locks *)

Definition reads (p : rw_pc) : bool :=
  match p with R_reader | R_un_val false | R_un_waiters false _ | R_un_cas false _ _ => true | _ => false end.
Definition writes (p : rw_pc) : bool :=
  match p with R_writer | R_un_val true | R_un_waiters true _ | R_un_cas true _ _ => true | _ => false end.

Definition word (v : Z) : Prop := - 2 ^ 31 <= v < 2 ^ 31.

Definition rw_pc_ok (p : rw_pc) : Prop :=
  match p with
  | R_rd_cas _ v => word v /\ rw_cnt v < 2147483646
  | R_inc _ _ r | R_flag _ _ r => word r
  | R_un_waiters _ v | R_un_cas _ v _ => word v
  | _ => True
  end.

Record rw_inv (n : nat) (c : config rw_mem rw_pc) : Prop := {
  ri_threads : length (threads c) = n /\ Z.of_nat n < 2 ^ 31 - 2;
  ri_word : word (rw_lock (shared c));
  ri_writer : count writes (threads c) = 0 /\ rw_cnt (rw_lock (shared c)) = count reads (threads c) \/
              count writes (threads c) = 1 /\ count reads (threads c) = 0 /\ rw_cnt (rw_lock (shared c)) = 2147483647;
  ri_local : Forall rw_pc_ok (threads c) }.

Lemma rw_cnt_mod v : rw_cnt v = v mod 2 ^ 31.
Proof. unfold rw_cnt. change 2147483647 with (Z.ones 31). by rewrite land_low. Qed.

Lemma s32_low y : s32 y mod 2 ^ 31 = y mod 2 ^ 31.
Proof.
  unfold s32. rewrite (Z.mod_eq (y + 2 ^ 31)) by lia. replace (y + 2 ^ 31 - 2 ^ 32 * ((y + 2 ^ 31) / 2 ^ 32) - 2 ^ 31)
    with (y + - (2 * ((y + 2 ^ 31) / 2 ^ 32)) * 2 ^ 31) by lia. by rewrite Z.mod_add.
Qed.

Lemma rw_flag_spec r : word r -> word (rw_flag r) /\ rw_cnt (rw_flag r) = rw_cnt r.
Proof.
  intros Hr. unfold word in *. rewrite !rw_cnt_mod. unfold rw_flag.
  split; [pose proof (s32_range (Z.lor (w32 r) 2147483648)); lia|].
  rewrite s32_low, <- Z.land_ones, Z.land_lor_distr_l by lia.
  change (Z.land 2147483648 (Z.ones 31)) with 0. rewrite Z.lor_0_r, Z.land_ones by lia.
  unfold w32. replace (2 ^ 32) with (2 ^ 31 * 2) by lia. rewrite Z.rem_mul_r by lia.
  rewrite Z.mul_comm, Z.mod_add, Z.mod_mod by lia. done.
Qed.

(** Adding and removing a reader. *)
Lemma rw_cnt_small v k : word v -> 0 <= rw_cnt v + k < 2 ^ 31 -> word (v + k) /\ rw_cnt (v + k) = rw_cnt v + k.
Proof.
  unfold word. rewrite !rw_cnt_mod. intros Hv Hk. split.
  - pose proof (Z.div_mod v (2 ^ 31) ltac:(lia)). assert (v / 2 ^ 31 = 0 \/ v / 2 ^ 31 = -1) by (Z.to_euclidean_division_equations; lia). lia.
  - rewrite <- Zplus_mod_idemp_l, Z.mod_small by lia. done.
Qed.

Lemma rw_inv_move n c t p p' s : rw_inv n c -> threads c !! t = Some p -> rw_pc_ok p' -> word (rw_lock s) ->
  (let w := count writes (threads c) - Z.b2z (writes p) + Z.b2z (writes p') in
   let r := count reads (threads c) - Z.b2z (reads p) + Z.b2z (reads p') in
   w = 0 /\ rw_cnt (rw_lock s) = r \/ w = 1 /\ r = 0 /\ rw_cnt (rw_lock s) = 2147483647) ->
  rw_inv n (Config s (<[t := p']> (threads c))).
Proof.
  intros [Hlen Hword Hw Hloc] Ht Hp' Hv Hwr. split; simpl; try done.
  - by rewrite length_insert.
  - by rewrite !(count_insert _ _ _ _ _ Ht).
  - by apply Forall_insert.
Qed.

Ltac rw_moved :=
  eapply rw_inv_move; simpl; rewrite ?Z.sub_0_r, ?Z.add_0_r, ?Z.sub_add; try done; try lia; simpl; rewrite ?Z.sub_0_r, ?Z.sub_add; try done.

Lemma rw_try_kind k : reads (rw_try_pc k) = false /\ writes (rw_try_pc k) = false /\ rw_pc_ok (rw_try_pc k) /\
  reads (rw_busy k) = false /\ writes (rw_busy k) = false /\ rw_pc_ok (rw_busy k).
Proof. by destruct k as [[]|[] ?|[] ?]. Qed.

Lemma rw_inv_run n c t p p' s : rw_inv n c -> threads c !! t = Some p ->
  rw_step (shared c) p = Some (s, p') -> rw_inv n (Config s (<[t := p']> (threads c))).
Proof.
  intros H Ht Hs. pose proof (ri_word _ _ H) as Hv. pose proof (ri_writer _ _ H) as Hw.
  pose proof (count_range reads (threads c)) as Hr. pose proof (count_in reads _ _ _ Ht) as Hin.
  pose proof (count_range writes (threads c)) as Hr2. pose proof (count_in writes _ _ _ Ht) as Hin2.
  pose proof (proj1 (ri_threads _ _ H)) as Hn. pose proof (proj2 (ri_threads _ _ H)) as Hn2.
  assert (Hp : rw_pc_ok p) by exact (proj1 (Forall_lookup _ _) (ri_local _ _ H) _ _ Ht).
  (* the moves that leave the word and the roles alone *)
  assert (Hsame : forall w q, reads q = reads p -> writes q = writes p -> rw_pc_ok q ->
    rw_inv n (Config (RwMem (rw_lock (shared c)) w) (<[t := q]> (threads c)))).
  { intros w q E1 E2 Hq. eapply rw_inv_move; try done. cbv zeta. rewrite E1, E2, !Z.sub_add. exact Hw. }
  assert (Hsame' : forall q, reads q = reads p -> writes q = writes p -> rw_pc_ok q ->
    rw_inv n (Config (shared c) (<[t := q]> (threads c)))).
  { intros q. specialize (Hsame (rw_waiters (shared c)) q). by destruct (shared c). }
  pose proof (Z.mod_pos_bound (rw_lock (shared c)) (2 ^ 31) ltac:(lia)) as Hcnt. rewrite <- rw_cnt_mod in Hcnt.
  destruct p as [| | |k|k v|k|[|m] wr timed|m wr timed|wr timed|wr timed r|wr timed r|wr timed tv|wr timed tv|wr timed tv|wr timed tv|wr timed woken tv|wr timed timedout|wr|wr v|wr v w|all];
    simplify_eq/=; try done.
  - destruct (Z.eqb_spec (rw_cnt (rw_lock (shared c))) 2147483647); [apply Hsame'; by apply rw_try_kind|].
    destruct (Z.eqb_spec (rw_cnt (rw_lock (shared c))) 2147483646); apply Hsame'; simpl; try done. split; [done|lia].
  - destruct Hp as [Hvw Hvc]. destruct (Z.eqb_spec (rw_lock (shared c)) v) as [E|E]; simplify_eq/=; [|by apply Hsame'].
    assert (H0 : 0 <= rw_cnt (rw_lock (shared c))) by lia.
    destruct (rw_cnt_small (rw_lock (shared c)) 1 Hv ltac:(lia)) as [H1 H2]. rw_moved. cbv zeta. rewrite H2. simpl. lia.
  - destruct (Z.eqb_spec (rw_lock (shared c)) 0) as [E|E]; simplify_eq/=; [|apply Hsame'; by apply rw_try_kind].
    rewrite E in Hw. change (rw_cnt 0) with 0 in Hw. rw_moved. cbv zeta. change (rw_cnt 2147483647) with 2147483647. simpl. lia.
  - apply Hsame'; by apply rw_try_kind.
  - destruct (_ =? _); apply Hsame'; done || by apply rw_try_kind.
  - destruct (_ =? _); apply Hsame'; done || by apply rw_try_kind.
  - destruct (_ || _); apply Hsame'; done || by apply rw_try_kind.
  - by apply Hsame.
  - destruct (Z.eqb_spec (rw_lock (shared c)) r) as [E|E]; simplify_eq/=; [|by apply Hsame'].
    destruct (rw_flag_spec _ Hp) as [Hf1 Hf2].
    eapply rw_inv_move; [exact H|exact Ht|done|exact Hf1|]. cbv zeta. simpl. rewrite Hf2, !Z.sub_0_r, !Z.add_0_r. exact Hw.
  - by apply Hsame'.
  - destruct (_ =? _); by apply Hsame'.
  - destruct (_ =? _); by apply Hsame'.
  - by apply Hsame'.
  - destruct timedout; apply Hsame; done || by apply rw_try_kind.
  - by apply Hsame'.
  - by apply Hsame'.
  - destruct (Z.eqb_spec (rw_lock (shared c)) v) as [E|E]; simplify_eq/=; [|by apply Hsame'].
    set (q := if _ && _ then _ else _).
    assert (Hq : reads q = false /\ writes q = false /\ rw_pc_ok q) by (subst q; by destruct (_ && _)).
    destruct Hq as (Hq1 & Hq2 & Hq3). eapply rw_inv_move; [exact H|exact Ht|exact Hq3| |]; simpl; rewrite ?Hq1, ?Hq2.
    + destruct (_ || _) eqn:E2; [done|]. apply orb_false_iff in E2 as [E2%Z.eqb_neq E3%Z.eqb_neq].
      apply (rw_cnt_small _ (-1)); [done|]. destruct wr; simpl in *; lia.
    + destruct (_ || _) eqn:E2.
      * change (rw_cnt 0) with 0. destruct wr; simpl in *; lia.
      * apply orb_false_iff in E2 as [E2%Z.eqb_neq E3%Z.eqb_neq].
        destruct (rw_cnt_small (rw_lock (shared c)) (-1)) as [_ Hm]; [done|destruct wr; simpl in *; lia|].
        replace (rw_lock (shared c) - 1) with (rw_lock (shared c) + -1) by lia. rewrite Hm. destruct wr; simpl in *; lia.
Qed.

Lemma rw_inv_all n c l : rw_inv n c -> length l = length (threads c) -> Forall rw_pc_ok l ->
  count reads l = count reads (threads c) -> count writes l = count writes (threads c) -> rw_inv n (Config (shared c) l).
Proof. intros [[Hlen Hn] Hword Hw Hloc] Hl Hok Hr Hwr. split; simpl; [by rewrite Hl|done|by rewrite Hr, Hwr|done]. Qed.

Lemma rw_inv_wakeup n c t p p' b : rw_inv n c -> threads c !! t = Some p -> rw_wakeup p b = Some p' ->
  rw_inv n (Config (shared c) (<[t := p']> (threads c))).
Proof.
  intros H Ht Hb. pose proof (ri_word _ _ H). pose proof (ri_writer _ _ H).
  destruct p as [| | | | | | | | | | |wr timed tv| | |wr timed tv| | | | | |]; try done; destruct timed, b; simplify_eq/=; rw_moved.
Qed.

Lemma rw_inv_move_any n c c' : rw_inv n c -> move rw_machine c c' -> rw_inv n c'.
Proof.
  intros H [t p p' o Ht Hb|t p p' s Ht Hs|t p p' b Ht Hb|t p p' Ht Hw Hno|t p p' u q q' Ht Hw Hu Hq|t p p' Ht Hw]; simpl in *;
    pose proof (ri_word _ _ H); pose proof (ri_writer _ _ H).
  - destruct p, o; simplify_eq/=; rw_moved.
  - by eapply rw_inv_run.
  - by eapply rw_inv_wakeup.
  - destruct p; simplify_eq/=; rw_moved.
  - assert (Hne : t <> u) by (intros ->; destruct p, q; simplify_eq/=).
    pose proof (rw_inv_wakeup _ _ _ _ _ _ H Hu Hq) as H'. destruct p; simplify_eq/=.
    assert (Ht' : <[u := q']> (threads c) !! t = Some (R_wake false)) by (by rewrite list_lookup_insert_ne).
    pose proof (ri_writer _ _ H'). apply (rw_inv_move n (Config (shared c) (<[u := q']> (threads c))) t _ _ _ H' Ht'); try done.
    simpl. by rewrite !Z.sub_0_r, !Z.add_0_r.
  - destruct p; simplify_eq/=. assert (Hkind : forall q, reads (awaken rw_machine q) = reads q /\ writes (awaken rw_machine q) = writes q /\
      (rw_pc_ok q -> rw_pc_ok (awaken rw_machine q)) /\ (q = R_wake true -> awaken rw_machine q = q)).
    { intros q. destruct q as [| | | | | | | | | | |wr [] tv| | |wr timed tv| | | | | |]; try done; by destruct timed. }
    assert (H' : rw_inv n (Config (shared c) (map (awaken rw_machine) (threads c)))).
    { apply rw_inv_all; [done|by rewrite length_map| |rewrite count_map; apply count_ext; intros; apply Hkind..].
      apply Forall_map. eapply Forall_impl; [exact (ri_local _ _ H)|]. intros q Hq. cbv beta in *. by apply Hkind. }
    assert (Ht' : map (awaken rw_machine) (threads c) !! t = Some (R_wake true)).
    { rewrite list_lookup_fmap, Ht. done. }
    apply (rw_inv_move n (Config (shared c) (map (awaken rw_machine) (threads c))) t _ _ _ H' Ht'); try done.
    pose proof (ri_writer _ _ H'). simpl in *. by rewrite !Z.sub_0_r, !Z.add_0_r.
Qed.

Lemma rw_inv_init n : Z.of_nat n < 2 ^ 31 - 2 -> rw_inv n (rw_init n).
Proof.
  intros Hn. split; simpl; rewrite ?count_replicate, ?length_replicate; simpl; try done; [by left|by apply Forall_replicate].
Qed.

(** C36: read-write locks exclude.  In any order of the accesses of threads that
    try, wait with or without a time, or unlock what they hold, a writer holds
    the lock alone, and the low 31 bits of the word are the number of readers,
    or 0x7fffffff when a writer holds it, whatever the flag of the waiting
    threads. *)
Theorem rwlock_exclusive n c : Z.of_nat n < 2 ^ 31 - 2 -> reachable rw_machine (rw_init n) c ->
  (forall t u p q, threads c !! t = Some p -> threads c !! u = Some q ->
     writes p = true -> (reads q || writes q) = true -> t = u) /\
  rw_cnt (rw_lock (shared c)) = (if existsb writes (threads c) then 2147483647 else count reads (threads c)).
Proof.
  intros Hn Hr. assert (H : rw_inv n c).
  { revert Hr. apply reachable_inv; [by apply rw_inv_init|]. intros c1 e c2 H1 He. eapply rw_inv_move_any; [done|]. by eapply exec_move. }
  destruct H as [_ _ Hw _]. split.
  - intros t u p q Ht Hu Hp Hq. pose proof (count_in writes _ _ _ Ht) as H1. pose proof (count_in reads _ _ _ Hu) as H2.
    rewrite Hp in H1. apply orb_true_iff in Hq as [Hq|Hq].
    + rewrite Hq in H2. simpl in *. lia.
    + destruct (decide (t = u)) as [|Hne]; [done|]. pose proof (count_two writes _ _ _ _ _ Ht Hu Hne) as H3.
      rewrite Hp, Hq in H3. simpl in *. lia.
  - rewrite count_existsb. pose proof (count_range reads (threads c)). destruct (Z.ltb_spec 0 (count writes (threads c))); lia.
Qed.

(** ** [pthread_once] *)

Definition initialising (p : once_pc) : bool := match p with O_init | O_finish | O_undo => true | _ => false end.
Definition once_sleeps (p : once_pc) : bool := match p with O_wait w => wait_asleep w | _ => false end.
Definition once_waking (p : once_pc) : bool := match p with O_wake _ => true | _ => false end.
Definition after_init (p : once_pc) : bool := match p with O_done | O_wake false => true | _ => false end.

Record once_inv (einval : bool) (n : nat) (c : config once_mem once_pc) : Prop := {
  oi_control : control (shared c) = 0 /\ count initialising (threads c) = 0 /\ completed (shared c) = 0 \/
               (control (shared c) = 1 \/ control (shared c) = 3) /\ count initialising (threads c) = 1 /\ completed (shared c) = 0 \/
               control (shared c) = 2 /\ count initialising (threads c) = 0 /\ completed (shared c) = 1;
  oi_done : 0 < count after_init (threads c) -> control (shared c) = 2;
  oi_wake : 0 < count once_sleeps (threads c) -> control (shared c) = 3 \/ 0 < count once_waking (threads c) }.

Lemma once_inv_move einval n c t p p' s : once_inv einval n c -> threads c !! t = Some p ->
  (let i := count initialising (threads c) - Z.b2z (initialising p) + Z.b2z (initialising p') in
   control s = 0 /\ i = 0 /\ completed s = 0 \/
   (control s = 1 \/ control s = 3) /\ i = 1 /\ completed s = 0 \/
   control s = 2 /\ i = 0 /\ completed s = 1) ->
  (0 < count after_init (threads c) - Z.b2z (after_init p) + Z.b2z (after_init p') -> control s = 2) ->
  (0 < count once_sleeps (threads c) - Z.b2z (once_sleeps p) + Z.b2z (once_sleeps p') ->
     control s = 3 \/ 0 < count once_waking (threads c) - Z.b2z (once_waking p) + Z.b2z (once_waking p')) ->
  once_inv einval n (Config s (<[t := p']> (threads c))).
Proof. intros H Ht Hc Hd Hw. split; simpl; by rewrite ?(count_insert _ _ _ _ _ Ht). Qed.

Ltac once_moved := eapply once_inv_move; simpl; try done; simpl; try lia.

Lemma once_inv_run einval n c t p p' s : once_inv einval n c -> threads c !! t = Some p ->
  once_step einval (shared c) p = Some (s, p') -> once_inv einval n (Config s (<[t := p']> (threads c))).
Proof.
  intros H Ht Hs. pose proof (oi_control _ _ _ H) as Hc. pose proof (oi_done _ _ _ H) as Hd. pose proof (oi_wake _ _ _ H) as Hw.
  pose proof (count_in initialising _ _ _ Ht) as Hi. pose proof (count_in after_init _ _ _ Ht) as Ha.
  pose proof (count_in once_waking _ _ _ Ht) as Hk. pose proof (count_range initialising (threads c)) as Hi0.
  destruct p as [| | | | | | |w| | |]; simplify_eq/=.
  - destruct (Z.eqb_spec (control (shared c)) 2); once_moved.
  - repeat case_match; simplify_eq/=; once_moved.
  - destruct (Z.eqb_spec (control (shared c)) 3); once_moved.
  - destruct (Z.eqb_spec (control (shared c)) 3); once_moved.
  - destruct (Z.eqb_spec (control (shared c)) 1); once_moved.
  - destruct w as [[|k]| | | | |b|]; simplify_eq/=; try (destruct (Z.eqb_spec (control (shared c)) 3)); try destruct einval; once_moved.
Qed.

Lemma once_awaken einval q : let q' := awaken (once_machine einval) q in
  initialising q' = initialising q /\ after_init q' = after_init q /\ once_sleeps q' = false.
Proof. by destruct q as [| | | | | | |[]| | |]. Qed.

Lemma once_inv_move_any einval n c c' : once_inv einval n c -> move (once_machine einval) c c' -> once_inv einval n c'.
Proof.
  intros H [t p p' o Ht Hb|t p p' s Ht Hs|t p p' b Ht Hb|t p p' Ht Hw Hno|t p p' u q q' Ht Hw Hu Hq|t p p' Ht Hw]; simpl in *;
    pose proof (oi_control _ _ _ H) as Hc; pose proof (oi_done _ _ _ H) as Hd; pose proof (oi_wake _ _ _ H) as Hk.
  - pose proof (count_in after_init _ _ _ Ht). destruct p, o; simplify_eq/=; once_moved.
  - by eapply once_inv_run.
  - destruct p as [| | | | | | |[]| | |]; simplify_eq/=; once_moved.
  - by destruct p.
  - by destruct p.
  - destruct p; simplify_eq/=. pose proof (once_awaken einval) as Hkind. cbv zeta in Hkind.
    pose proof (count_in after_init _ _ _ Ht) as Ha.
    set (l' := map (awaken (once_machine einval)) (threads c)).
    assert (Ei : count initialising l' = count initialising (threads c)) by (unfold l'; rewrite count_map; apply count_ext; intros; apply Hkind).
    assert (Ea : count after_init l' = count after_init (threads c)) by (unfold l'; rewrite count_map; apply count_ext; intros; apply Hkind).
    assert (Es : count once_sleeps l' <= 0).
    { destruct (Z.lt_ge_cases 0 (count once_sleeps l')) as [Hs|]; [|lia]. apply count_exists in Hs as (v & q & Hv & Hq).
      unfold l' in Hv. rewrite list_lookup_fmap in Hv. destruct (threads c !! v) as [q0|]; simplify_eq/=.
      by destruct (Hkind q0) as (_ & _ & ?); congruence. }
    assert (Ht' : l' !! t = Some (O_wake cancelled)) by (unfold l'; rewrite list_lookup_fmap, Ht; done).
    split; simpl; rewrite !(count_insert _ _ _ _ _ Ht'), ?Ei, ?Ea; simpl.
    + destruct cancelled; simpl; lia.
    + destruct cancelled; simpl in *; lia.
    + destruct cancelled; simpl; lia.
Qed.

(** [pthread_once] runs the routine once.  In any order, with
    cancellations, at most one thread is in [init] at a time and [init] is
    completed at most once; a call returns only after it has been completed;
    and whenever a thread is asleep another one is initialising or is about to
    wake all. *)
Theorem once_runs_once einval n c : reachable (once_machine einval) (once_init n) c ->
  0 <= completed (shared c) <= 1 /\
  (forall t u p q, threads c !! t = Some p -> threads c !! u = Some q ->
     initialising p = true -> initialising q = true -> t = u) /\
  (forall t, threads c !! t = Some O_done -> completed (shared c) = 1) /\
  (forall t p, threads c !! t = Some p -> once_sleeps p = true ->
     exists u q, threads c !! u = Some q /\ (initialising q || once_waking q) = true).
Proof.
  intros Hr. assert (H : once_inv einval n c).
  { revert Hr. apply reachable_inv.
    - split; simpl; rewrite ?count_replicate; simpl; lia.
    - intros c1 e c2 H1 He. eapply once_inv_move_any; [done|]. by eapply exec_move. }
  destruct H as [Hc Hd Hw]. split; [lia|]. split.
  - intros t u p q Ht Hu Hp Hq. destruct (decide (t = u)) as [|Hne]; [done|].
    pose proof (count_two initialising _ _ _ _ _ Ht Hu Hne) as H2. rewrite Hp, Hq in H2. simpl in *. lia.
  - split.
    + intros t Ht. pose proof (count_in after_init _ _ _ Ht) as Ha. simpl in Ha. specialize (Hd ltac:(lia)). lia.
    + intros t p Ht Hp. assert (Hs : 0 < count once_sleeps (threads c)) by (apply count_exists; eauto).
      destruct (Hw Hs) as [H3|Hk].
      * assert (Hi : 0 < count initialising (threads c)) by lia. apply count_exists in Hi as (u & q & Hu & Hq).
        exists u, q. by rewrite Hq.
      * apply count_exists in Hk as (u & q & Hu & Hq). exists u, q. by rewrite Hq, orb_true_r.
Qed.
