(* ===== verification/ThreadsExamples.v ===== *)
(** The theorems on locks, semaphores, read-write locks and [pthread_once]
    applied to runs of two or three threads. *)
From S2P Require Import Prelude.
From S2P Require Import Threads.
From S2P Require Import Lock.
From S2P Require Import Sem.
From S2P Require Import Rwlock.

Definition runs {op} (t k : nat) : list (event op) := replicate k (Run t).

(** Thread 0 takes the lock; thread 1 finds it taken, spins, counts itself and
    falls asleep with [*l = INT_MIN + 2]. *)
Definition contended : list (event lock_op) :=
  Begin 0 Lock_ :: runs 0 3 ++ Begin 1 Lock_ :: runs 1 (3 + 10 + 2 + 101 + 3).
Definition contended_state : config lock_mem lock_pc :=
  Config (LockMem (INT_MIN + 2) 1) [Inside; Wait (INT_MIN + 2) WAsleep].

Lemma contended_reachable einval : reachable (lock_machine einval) (lock_init 2) contended_state.
Proof. apply (execs_reachable _ contended _ _ _ (reach_here _ _)). by destruct einval. Defined.

Lemma lock_exclusive_witness :
  (forall t u p q, threads contended_state !! t = Some p -> threads contended_state !! u = Some q ->
     holds p = true -> holds q = true -> t = u) /\
  l (shared contended_state) = (if existsb holds (threads contended_state) then INT_MIN else 0) +
    count in_section (threads contended_state) /\
  (forall t i current, threads contended_state !! t = Some (Spin (S i) current) ->
     0 <= (if current <? 0 then current - (INT_MIN + 1) else current)) /\
  (forall t current, threads contended_state !! t = Some (Acquire current) -> 0 < current).
Proof. apply (lock_exclusive true 2 contended_state); [lia|apply contended_reachable]. Defined.

(** The thread that sleeps has the holder to wake it. *)
Lemma lock_wakes_up_witness :
  exists u q, threads contended_state !! u = Some q /\ (holds q || will_act q || true && trapped q) = true.
Proof.
  apply (lock_wakes_up true 2 contended_state 1 (Wait (INT_MIN + 2) WAsleep)); [lia|apply contended_reachable|reflexivity..].
Defined.

(** The same race one access earlier: the lock is released between the check
    of [__wasilibc_futex_wait_wasix] and that of a host that reports the
    difference as [EINVAL]. *)
Example unlock_traps_waiter :
  option_map threads (execs (lock_machine true) (lock_init 2)
    (Begin 0 Lock_ :: runs 0 3 ++ Begin 1 Lock_ :: runs 1 (3 + 10 + 2 + 101 + 2) ++ Begin 0 Unlock_ :: runs 0 2 ++ [Run 1]))
  = Some [Unlock_wake; Wait (INT_MIN + 2) WTrap].
Proof. vm_compute. reflexivity. Qed.

(** A unit is posted while a thread waits for it. *)
Definition posted_state : config sem_mem sem_pc :=
  Config (SemMem 1 1 1 0) [Wait_asleep false; Post_wake].

Lemma sem_conserves_witness :
  Z.max 0 (val (shared posted_state)) = 0 + posted (shared posted_state) - taken (shared posted_state) /\
  -1 <= val (shared posted_state) <= SEM_VALUE_MAX /\
  0 <= taken (shared posted_state) <= 0 + posted (shared posted_state) /\
  waiters (shared posted_state) = count sem_waits (threads posted_state).
Proof.
  apply (sem_conserves 2 0 posted_state); [lia|unfold SEM_VALUE_MAX; lia|].
  apply (execs_reachable _ (Begin 0%nat (Timedwait false) :: runs 0 (1 + 200 + 2 + 5) ++ Begin 1%nat Post :: runs 1 3) _ _ _ (reach_here _ _)).
  reflexivity.
Defined.

(** One reader inside, a writer asleep behind the flag. *)
Definition reading_state : config rw_mem rw_pc :=
  Config (RwMem (1 - 2 ^ 31) 1) [R_reader; R_asleep true false (1 - 2 ^ 31)].

Lemma rwlock_exclusive_witness :
  (forall t u p q, threads reading_state !! t = Some p -> threads reading_state !! u = Some q ->
     writes p = true -> (reads q || writes q) = true -> t = u) /\
  rw_cnt (rw_lock (shared reading_state)) =
    (if existsb writes (threads reading_state) then 2147483647 else count reads (threads reading_state)).
Proof.
  apply (rwlock_exclusive 2 reading_state); [lia|].
  apply (execs_reachable _ (Begin 0%nat Tryrdlock :: runs 0 2 ++ Begin 1%nat (Wrlock false) :: runs 1 (1 + 200 + 2 + 6)) _ _ _ (reach_here _ _)).
  reflexivity.
Defined.

(** Thread 0 initialises, thread 1 sleeps until it has. *)
Definition initialising_state : config once_mem once_pc := Config (OnceMem 3 0) [O_init; O_wait WAsleep].

Lemma once_runs_once_witness :
  0 <= completed (shared initialising_state) <= 1 /\
  (forall t u p q, threads initialising_state !! t = Some p -> threads initialising_state !! u = Some q ->
     initialising p = true -> initialising q = true -> t = u) /\
  (forall t, threads initialising_state !! t = Some O_done -> completed (shared initialising_state) = 1) /\
  (forall t p, threads initialising_state !! t = Some p -> once_sleeps p = true ->
     exists u q, threads initialising_state !! u = Some q /\ (initialising q || once_waking q) = true).
Proof.
  apply (once_runs_once false 2 initialising_state).
  apply (execs_reachable _ (Begin 0%nat Pthread_once :: runs 0 2 ++ Begin 1%nat Pthread_once :: runs 1 (3 + 101 + 3)) _ _ _ (reach_here _ _)).
  reflexivity.
Defined.
