(* ===== verification/Poll.v ===== *)
(** Clocks, sleeping and timed waits on futexes ([cloudlibc/src/libc/time],
    [sys/time], [sleep], [usleep], [clocks/clock.c], [__wasilibc_futex.c],
    [thread/__timedwait.c]). *)
From S2P Require Import Prelude.
From S2P Require Import Wasi.
From S2P Require Import TimeConv.

Definition ETIMEDOUT : Z := 73.
Definition ECANCELED : Z := 11.
Definition EWOULDBLOCK : Z := EAGAIN.

Definition CLOCKID_REALTIME : Z := 0.
Definition CLOCKID_MONOTONIC : Z := 1.
Definition TIMER_ABSTIME : Z := 1.

(** ** What the host waits for *)
Inductive sub_what :=
  | SubClock (id timeout flags : Z)
  | SubRead (fd : Z)
  | SubWrite (fd : Z).
Record subscription := Sub { userdata : Z; what : sub_what }.
Record wevent := WEvent { ev_userdata : Z; ev_error : Z; ev_type : Z; ev_flags : Z; ev_nbytes : Z }.

Definition EVENTTYPE_CLOCK : Z := 0.
Definition EVENTTYPE_FD_READ : Z := 1.
Definition EVENTTYPE_FD_WRITE : Z := 2.

(** The host's clocks, [poll_oneoff] with the events it delivers (as many as
    [nevents] says), and its futexes; [load32] reads the shared memory. *)
Class WasiPoll (W : Type) := {
  wasi_clock_time_get : Z -> Z -> W -> Z * Z * W;
  wasi_clock_res_get : Z -> W -> Z * Z * W;
  wasi_clock_time_set : Z -> Z -> W -> Z * W;
  wasi_poll_oneoff : list subscription -> W -> Z * list wevent * W;
  wasi_futex_wait : Z -> Z -> option Z -> W -> Z * bool * W;
  wasi_futex_wake : Z -> W -> Z * bool * W;
  wasi_futex_wake_all : Z -> W -> Z * bool * W;
  load32 : Z -> W -> Z }.

Section Clock.
Context {W : Type} `{WasiPoll W}.

(** ** Clocks *)

(** [clock_gettime]: the return value and what is stored at [*tp]. *)
Definition clock_gettime (clock_id : Z) : M (env W) (Z * option timespec) :=
  '(error, ts) ← host (wasi_clock_time_get clock_id 1);
  if error =? 0 then mret (0, Some (timestamp_to_timespec ts))
  else set_errno error;; mret (-1, None).

Definition clock_getres (clock_id : Z) : M (env W) (Z * option timespec) :=
  '(error, ts) ← host (wasi_clock_res_get clock_id);
  if error =? 0 then mret (0, Some (timestamp_to_timespec ts))
  else set_errno error;; mret (-1, None).

Definition clock_settime (clock_id : Z) (tp : timespec) : M (env W) Z :=
  match timespec_to_timestamp_exact tp with
  | None => set_errno EINVAL;; mret (-1)
  | Some ts =>
      error ← host (wasi_clock_time_set clock_id ts);
      if error =? 0 then mret 0 else set_errno error;; mret (-1)
  end.

(** The timestamp starts as 0 in these three, and the error is not looked at. *)
Definition time : M (env W) Z :=
  '(error, ts) ← host (wasi_clock_time_get CLOCKID_REALTIME NSEC_PER_SEC);
  mret (if error =? 0 then ts / NSEC_PER_SEC else 0).

Definition gettimeofday : M (env W) timeval :=
  '(error, ts) ← host (wasi_clock_time_get CLOCKID_REALTIME 1000);
  mret (timestamp_to_timeval (if error =? 0 then ts else 0)).

Definition clock (start : Z) : M (env W) Z :=
  '(error, now) ← host (wasi_clock_time_get CLOCKID_MONOTONIC 0);
  mret (s64 (w64 ((if error =? 0 then now else 0) - start))).

(** ** Sleeping *)

Definition clock_nanosleep (clock_id flags : Z) (rqtp : timespec) : M (env W) Z :=
  if negb (Z.land flags (Z.lnot TIMER_ABSTIME) =? 0) then mret EINVAL else
  match timespec_to_timestamp_exact rqtp with
  | None => mret EINVAL
  | Some timeout =>
      let timeout := if timeout =? 0 then 1 else timeout in
      '(error, evs) ← host (wasi_poll_oneoff [Sub 0 (SubClock clock_id timeout flags)]);
      if error =? 0 then
        match evs with
        | ev :: _ => mret (if ev_error ev =? 0 then 0 else ENOTSUP)
        | [] => halt Undefined        (* [ev] is not set *)
        end
      else mret ENOTSUP
  end.

Definition nanosleep (rqtp : timespec) : M (env W) Z :=
  error ← clock_nanosleep CLOCKID_REALTIME 0 rqtp;
  if error =? 0 then mret 0 else set_errno error;; mret (-1).

Definition usleep (useconds : Z) : M (env W) Z :=
  error ← clock_nanosleep CLOCKID_REALTIME 0 (Timespec (useconds / 1000000) (useconds mod 1000000 * 1000));
  if error =? 0 then mret 0 else set_errno error;; mret (-1).

Definition sleep (seconds : Z) : M (env W) Z :=
  error ← clock_nanosleep CLOCKID_REALTIME 0 (Timespec seconds 0);
  mret (if error =? 0 then 0 else seconds).

(** ** Futexes *)

Definition futex_wait_wasix (addr expected max_wait_ns : Z) : M (env W) Z :=
  if negb (Z.land addr 3 =? 0) then mret (- EINVAL) else
  let timeout := if 0 <? max_wait_ns then Some max_wait_ns else None in
  s ← get;
  if negb (load32 addr (world s) =? expected) then mret (- EWOULDBLOCK) else
  '(error, woken) ← host (wasi_futex_wait addr expected timeout);
  if negb (error =? 0) then halt Trapped else
  s ← get;
  mret (if negb woken && (load32 addr (world s) =? expected) then - ETIMEDOUT else 0).

Fixpoint futex_wake_some (addr : Z) (cnt : nat) : M (env W) Z :=
  match cnt with
  | O => mret 0
  | S cnt =>
      '(ret, _) ← host (wasi_futex_wake addr);
      if negb (ret =? 0) then mret (- ret) else futex_wake_some addr cnt
  end.

Definition INT_MAX : Z := 2 ^ 31 - 1.

Definition futex_wake_wasix (addr cnt : Z) : M (env W) Z :=
  if cnt =? INT_MAX then
    '(ret, _) ← host (wasi_futex_wake_all addr);
    mret (if negb (ret =? 0) then - ret else 0)
  else futex_wake_some addr (Z.to_nat cnt).

(** [__futex4_cp] of this target: [int64_t] arithmetic that must not
    overflow. *)
Definition futex4_cp (addr val : Z) (to : option timespec) : M (env W) Z :=
  match to with
  | None => futex_wait_wasix addr val (-1)
  | Some to =>
      let ns := tv_sec to * 1000000000 in
      if (ns <? - 2 ^ 63) || (2 ^ 63 <=? ns) || (2 ^ 63 <=? ns + tv_nsec to) then halt Undefined
      else futex_wait_wasix addr val (ns + tv_nsec to)
  end.

Definition timedwait_finish (r : Z) : Z :=
  if (r =? EINTR) || (r =? ETIMEDOUT) || (r =? ECANCELED) then r else 0.

Definition timedwait_cp (addr val clk : Z) (at_time : option timespec) : M (env W) Z :=
  match at_time with
  | None => r ← futex4_cp addr val None; mret (timedwait_finish (- r))
  | Some at_time =>
      if 1000000000 <=? w32 (tv_nsec at_time) then mret EINVAL else
      '(e, now) ← clock_gettime clk;
      match now with
      | None => mret EINVAL
      | Some now =>
          if negb (e =? 0) then mret EINVAL else
          let sec := tv_sec at_time - tv_sec now in
          let nsec := tv_nsec at_time - tv_nsec now in
          let to := if nsec <? 0 then Timespec (sec - 1) (nsec + 1000000000) else Timespec sec nsec in
          if tv_sec to <? 0 then mret ETIMEDOUT
          else r ← futex4_cp addr val (Some to); mret (timedwait_finish (- r))
      end
  end.

End Clock.

(** * [poll], [pselect], [select] ([cloudlibc/src/libc/poll], [sys/select]) and
    the sets of [__fd_set.h]. *)

(** ** [fd_set]

    The array [__fds] up to [__nfds], with room for [FD_SETSIZE]. *)
Definition FD_SETSIZE : nat := 1024.
Abbreviation fd_set := (list Z).

Definition FD_ZERO : fd_set := [].

Fixpoint FD_ISSET (fd : Z) (set : fd_set) : bool :=
  match set with
  | [] => false
  | p :: set => if p =? fd then true else FD_ISSET fd set
  end.

(** Adding to a full set writes behind the array. *)
Definition FD_SET (fd : Z) (set : fd_set) : option fd_set :=
  if FD_ISSET fd set then Some set
  else if (length set <? FD_SETSIZE)%nat then Some (set ++ [fd]) else None.

(** The first entry that is [fd] is overwritten by the last one. *)
Fixpoint FD_CLR_from (fd : Z) (front set : fd_set) : fd_set :=
  match set with
  | [] => front
  | p :: rest =>
      if p =? fd then take (length front + length rest) (front ++ List.last set p :: rest)
      else FD_CLR_from fd (front ++ [p]) rest
  end.
Definition FD_CLR (fd : Z) (set : fd_set) : fd_set := FD_CLR_from fd [] set.

(** ** [poll] *)

Definition POLLRDNORM : Z := 1.
Definition POLLWRNORM : Z := 2.
Definition POLLERR : Z := 4096.
Definition POLLHUP : Z := 8192.
Definition POLLNVAL : Z := 16384.
Definition EPIPE : Z := 64.
Definition RW_HANGUP : Z := 1.

Record pollfd := Pollfd { pfd : Z; events : Z; revents : Z }.

Section Poll.
Context {W : Type} `{WasiPoll W}.

(** The subscriptions of the entries from [i] on; a pointer to an entry, the
    [userdata], is its index.  [None] when an entry has nothing to wait for. *)
Fixpoint poll_subscriptions (i : Z) (fds : list pollfd) : option (list subscription) :=
  match fds with
  | [] => Some []
  | p :: fds =>
      if pfd p <? 0 then poll_subscriptions (i + 1) fds else
      let rd := if has (events p) POLLRDNORM then [Sub i (SubRead (pfd p))] else [] in
      let wr := if has (events p) POLLWRNORM then [Sub i (SubWrite (pfd p))] else [] in
      match rd ++ wr with
      | [] => None
      | subs => rest ← poll_subscriptions (i + 1) fds; Some (subs ++ rest)
      end
  end.

Definition poll_timeout (timeout : Z) : list subscription :=
  if 0 <=? timeout then
    [Sub 0 (SubClock CLOCKID_REALTIME (if negb (timeout =? 0) then timeout * 1000000 else 1) 0)]
  else [].

Definition is_rw (ev : wevent) : bool := (ev_type ev =? EVENTTYPE_FD_READ) || (ev_type ev =? EVENTTYPE_FD_WRITE).

(** What one event adds to [revents]. *)
Definition event_revents (ev : wevent) : Z :=
  if ev_error ev =? EBADF then POLLNVAL
  else if ev_error ev =? EPIPE then POLLHUP
  else if negb (ev_error ev =? 0) then POLLERR
  else
    let hup := if has (ev_flags ev) RW_HANGUP then POLLHUP else 0 in
    if ev_type ev =? EVENTTYPE_FD_READ then Z.lor POLLRDNORM hup
    else if ev_type ev =? EVENTTYPE_FD_WRITE then Z.lor POLLWRNORM hup
    else 0.

Fixpoint poll_events (evs : list wevent) (fds : list pollfd) : option (list pollfd) :=
  match evs with
  | [] => Some fds
  | ev :: evs =>
      if is_rw ev then
        p ← fds !! Z.to_nat (ev_userdata ev);
        poll_events evs
          (<[Z.to_nat (ev_userdata ev) := Pollfd (pfd p) (events p) (Z.lor (revents p) (event_revents ev))]> fds)
      else poll_events evs fds
  end.

(** [POLLHUP] contradicts [POLLWRNORM]. *)
Definition poll_hup (p : pollfd) : pollfd :=
  if has (revents p) POLLHUP then Pollfd (pfd p) (events p) (Z.land (revents p) (Z.lnot POLLWRNORM)) else p.

Definition poll (fds : list pollfd) (timeout : Z) : M (env W) (Z * list pollfd) :=
  match poll_subscriptions 0 fds with
  | None => set_errno ENOSYS;; mret (-1, fds)
  | Some subs =>
      let subs := subs ++ poll_timeout timeout in
      '(error, evs) ← host (wasi_poll_oneoff subs);
      if negb (error =? 0) then
        set_errno (if (length subs =? 0)%nat then ENOTSUP else error);; mret (-1, fds)
      else
        match poll_events evs (map (fun p => Pollfd (pfd p) (events p) 0) fds) with
        | None => halt Undefined
        | Some fds =>
            let fds := map poll_hup fds in
            mret (Z.of_nat (length (filter (fun p => negb (revents p =? 0)) fds)), fds)
        end
  end.

(** ** [pselect], [select]

    The result sets; [None] for [NULL]. *)
Definition select_subscriptions (nfds : Z) (mk : Z -> sub_what) (set : fd_set) : list subscription :=
  map (fun fd => Sub fd (mk fd)) (filter (fun fd => fd <? nfds) set).

(** Where the sets end up: read, written. *)
Definition select_sets (evs : list wevent) : fd_set * fd_set :=
  (map ev_userdata (filter (fun ev => ev_type ev =? EVENTTYPE_FD_READ) evs),
   map ev_userdata (filter (fun ev => ev_type ev =? EVENTTYPE_FD_WRITE) evs)).

Abbreviation select_result := (Z * option fd_set * option fd_set)%type.

(** From the call of the host on. *)
Definition pselect_wait (readfds writefds : option fd_set) (subs : list subscription) : M (env W) select_result :=
  '(error, evs) ← host (wasi_poll_oneoff subs);
  if negb (error =? 0) then
    set_errno (if (length subs =? 0)%nat then ENOTSUP else error);; mret (-1, readfds, writefds)
  else if existsb (fun ev => is_rw ev && (ev_error ev =? EBADF)) evs then
    set_errno EBADF;; mret (-1, readfds, writefds)
  else
    let '(rd, wr) := select_sets evs in
    mret (Z.of_nat (length rd + length wr), option_map (fun _ => rd) readfds, option_map (fun _ => wr) writefds).

Definition pselect (nfds : Z) (readfds writefds errorfds : option fd_set) (timeout : option timespec)
    : M (env W) select_result :=
  let failed (error : Z) : M (env W) select_result := set_errno error;; mret (-1, readfds, writefds) in
  if nfds <? 0 then failed EINVAL else
  if (match errorfds with Some set => (0 <? length set)%nat | None => false end) then failed ENOSYS else
  let subs := select_subscriptions nfds SubRead (default FD_ZERO readfds) ++
              select_subscriptions nfds SubWrite (default FD_ZERO writefds) in
  match timeout with
  | None => pselect_wait readfds writefds subs
  | Some timeout =>
      match timespec_to_timestamp_clamp timeout with
      | None => failed EINVAL
      | Some ts => pselect_wait readfds writefds (subs ++ [Sub 0 (SubClock CLOCKID_REALTIME ts 0)])
      end
  end.

Definition select (nfds : Z) (readfds writefds errorfds : option fd_set) (timeout : option timeval)
    : M (env W) select_result :=
  match timeout with
  | None => pselect nfds readfds writefds errorfds None
  | Some tv =>
      if (tval_usec tv <? 0) || (1000000 <=? tval_usec tv) then
        set_errno EINVAL;; mret (-1, readfds, writefds)
      else pselect nfds readfds writefds errorfds (Some (Timespec (tval_sec tv) (tval_usec tv * 1000)))
  end.

End Poll.
