(* ===== verification/PollProofs.v ===== *)
(** [poll], [pselect], the descriptor sets and timed waits, over any host. *)
From S2P Require Import Prelude.
From S2P Require Import Wasi.
From S2P Require Import TimeConv.
From S2P Require Import Poll.

(** ** Descriptor sets *)

Lemma FD_ISSET_spec fd set : FD_ISSET fd set = bool_decide (fd ∈ set).
Proof.
  induction set as [|p set IH]; simpl; [done|]. destruct (Z.eqb_spec p fd) as [->|Hne].
  - symmetry. apply bool_decide_eq_true. left.
  - rewrite IH. apply bool_decide_ext. rewrite elem_of_cons. naive_solver.
Qed.

Lemma FD_CLR_from_spec fd set : forall front, NoDup (front ++ set) -> fd ∉ front ->
  NoDup (FD_CLR_from fd front set) /\ forall x, x ∈ FD_CLR_from fd front set <-> x <> fd /\ x ∈ front ++ set.
Proof.
  induction set as [|p rest IH]; intros front Hnd Hf; cbn [FD_CLR_from].
  { rewrite app_nil_r in *. split; [done|]. intros x. naive_solver. }
  destruct (Z.eqb_spec p fd) as [->|Hne].
  - destruct rest as [|q rest _] using rev_ind.
    + simpl. rewrite Nat.add_0_r, take_app_length. apply NoDup_app in Hnd as (Hnd & _ & _).
      split; [done|]. intros x. set_solver.
    + replace (List.last (fd :: rest ++ [q]) fd) with q by (rewrite app_comm_cons, List.last_last; done).
      rewrite length_app, Nat.add_assoc, take_app_ge by (simpl; lia).
      replace (length front + length rest + length [q] - length front)%nat with (S (length rest)) by (simpl; lia).
      simpl take. rewrite take_app_length.
      assert (Hp : front ++ fd :: rest ++ [q] ≡ₚ fd :: front ++ q :: rest).
      { rewrite <- Permutation_middle. apply perm_skip. apply Permutation_app_head. by rewrite Permutation_app_comm. }
      rewrite Hp in Hnd. apply NoDup_cons in Hnd as [Hni Hnd]. split; [done|].
      intros x. rewrite Hp, elem_of_cons. naive_solver.
  - destruct (IH (front ++ [p])) as [H1 H2].
    + by rewrite <- app_assoc.
    + set_solver.
    + split; [done|]. intros x. rewrite H2, <- app_assoc. done.
Qed.

(** An [fd_set] is a finite set: its array keeps its entries distinct, and
    [FD_ISSET], [FD_SET] and [FD_CLR] test, add and remove; only adding a
    descriptor to [FD_SETSIZE] others is not possible. *)
Theorem fd_sets fd set : NoDup set -> (length set <= FD_SETSIZE)%nat ->
  FD_ISSET fd set = bool_decide (fd ∈ set) /\
  (forall set', FD_SET fd set = Some set' ->
     NoDup set' /\ (length set' <= FD_SETSIZE)%nat /\ forall x, x ∈ set' <-> x = fd \/ x ∈ set) /\
  (FD_SET fd set = None <-> fd ∉ set /\ length set = FD_SETSIZE) /\
  NoDup (FD_CLR fd set) /\ forall x, x ∈ FD_CLR fd set <-> x <> fd /\ x ∈ set.
Proof.
  intros Hnd Hlen. split; [apply FD_ISSET_spec|]. unfold FD_SET. rewrite FD_ISSET_spec.
  assert (Hclr : NoDup (FD_CLR fd set) /\ forall x, x ∈ FD_CLR fd set <-> x <> fd /\ x ∈ set).
  { apply (FD_CLR_from_spec fd set []); [done|by apply not_elem_of_nil]. }
  split; [|split; [|done]]; case_bool_decide as Hin.
  - intros set' [= <-]. split; [done|]. split; [done|]. intros x. naive_solver.
  - destruct (Nat.ltb_spec (length set) FD_SETSIZE) as [Hl|]; [|done]. intros set' [= <-]. split.
    + apply NoDup_app. split; [done|]. split; [|apply NoDup_singleton]. intros x Hx ->%list_elem_of_singleton. done.
    + split; [rewrite length_app; simpl; lia|]. intros x. rewrite elem_of_app, list_elem_of_singleton. tauto.
  - split; [done|]. intros [? _]. done.
  - destruct (Nat.ltb_spec (length set) FD_SETSIZE) as [Hl|]; [split; [done|intros [_ He]; lia]|].
    split; [intros _; split; [done|lia]|done].
Qed.

(** ** [poll] *)

Definition event_type (s : sub_what) : Z :=
  match s with SubClock _ _ _ => EVENTTYPE_CLOCK | SubRead _ => EVENTTYPE_FD_READ | SubWrite _ => EVENTTYPE_FD_WRITE end.

(** [poll_oneoff] (as documented): each event reports one of the
    subscriptions, by its [userdata] and type. *)
Class PollLaws (W : Type) `{WasiPoll W} := {
  poll_oneoff_spec : forall subs w evs w', wasi_poll_oneoff subs w = (0, evs, w') ->
    forall ev, ev ∈ evs -> exists s, s ∈ subs /\ ev_userdata ev = userdata s /\ ev_type ev = event_type (what s) }.

(** What the events report of the entry at index [i]. *)
Definition reported (P : wevent -> bool) (evs : list wevent) (i : nat) : bool :=
  existsb (fun ev => is_rw ev && (ev_userdata ev =? Z.of_nat i) && P ev) evs.

Definition ok (ev : wevent) : bool := ev_error ev =? 0.
Definition is_nval (ev : wevent) : bool := ev_error ev =? EBADF.
Definition is_hup (ev : wevent) : bool := (ev_error ev =? EPIPE) || ok ev && has (ev_flags ev) RW_HANGUP.
Definition is_err (ev : wevent) : bool := negb (ok ev || is_nval ev || (ev_error ev =? EPIPE)).
Definition is_read (ev : wevent) : bool := ok ev && (ev_type ev =? EVENTTYPE_FD_READ).
Definition is_written (ev : wevent) : bool := ok ev && (ev_type ev =? EVENTTYPE_FD_WRITE).

Definition revents_bits (nval hup err rd wr : bool) : Z :=
  Z.lor (if nval then POLLNVAL else 0) (Z.lor (if hup then POLLHUP else 0) (Z.lor (if err then POLLERR else 0)
    (Z.lor (if rd then POLLRDNORM else 0) (if wr then POLLWRNORM else 0)))).

Lemma lor_if (a b : bool) x : Z.lor (if a then x else 0) (if b then x else 0) = if a || b then x else 0.
Proof. destruct a, b; simpl; rewrite ?Z.lor_diag, ?Z.lor_0_r; done. Qed.

Lemma lor_if_cons (a b : bool) x y z :
  Z.lor (Z.lor (if a then x else 0) y) (Z.lor (if b then x else 0) z) = Z.lor (if a || b then x else 0) (Z.lor y z).
Proof.
  rewrite <- lor_if, !Z.lor_assoc. f_equal. rewrite <- !Z.lor_assoc. f_equal. apply Z.lor_comm.
Qed.

Lemma revents_bits_lor n h e r w n' h' e' r' w' :
  Z.lor (revents_bits n h e r w) (revents_bits n' h' e' r' w') =
  revents_bits (n || n') (h || h') (e || e') (r || r') (w || w').
Proof. unfold revents_bits. by rewrite !lor_if_cons, lor_if. Qed.

Lemma event_bits ev : is_rw ev = true ->
  event_revents ev = revents_bits (is_nval ev) (is_hup ev) (is_err ev) (is_read ev) (is_written ev).
Proof.
  unfold is_rw, event_revents, is_err, is_nval, is_hup, is_read, is_written, ok, EBADF, EPIPE, EVENTTYPE_FD_READ, EVENTTYPE_FD_WRITE.
  intros Hrw. destruct (Z.eqb_spec (ev_error ev) 8) as [E8|E8]; [rewrite E8; done|].
  destruct (Z.eqb_spec (ev_error ev) 64) as [E64|E64]; [rewrite E64; done|].
  destruct (Z.eqb_spec (ev_error ev) 0) as [E0|E0]; simpl; [|done].
  destruct (Z.eqb_spec (ev_type ev) 1) as [E1|E1], (Z.eqb_spec (ev_type ev) 2) as [E2|E2]; simpl in *; try lia; try done;
    by destruct (has _ _).
Qed.

(** [revents] of every entry before and after [POLLHUP] is made to win. *)
Definition entry_bits (evs : list wevent) (i : nat) : Z :=
  revents_bits (reported is_nval evs i) (reported is_hup evs i) (reported is_err evs i)
    (reported is_read evs i) (reported is_written evs i).
Definition poll_revents (evs : list wevent) (i : nat) : Z :=
  revents_bits (reported is_nval evs i) (reported is_hup evs i) (reported is_err evs i)
    (reported is_read evs i) (reported is_written evs i && negb (reported is_hup evs i)).

Lemma entry_bits_cons ev evs i :
  entry_bits (ev :: evs) i =
    Z.lor (if is_rw ev && (ev_userdata ev =? Z.of_nat i) then event_revents ev else 0) (entry_bits evs i).
Proof.
  unfold entry_bits, reported. cbn [existsb]. rewrite <- revents_bits_lor. f_equal.
  destruct (is_rw ev) eqn:Hrw; simpl; [|done]. destruct (ev_userdata ev =? Z.of_nat i); simpl; [|done].
  symmetry. by apply event_bits.
Qed.

Lemma poll_events_Ret evs : forall fds,
  (forall ev, ev ∈ evs -> is_rw ev = true -> 0 <= ev_userdata ev < Z.of_nat (length fds)) ->
  poll_events evs fds = Some (imap (fun i p => Pollfd (pfd p) (events p) (Z.lor (revents p) (entry_bits evs i))) fds).
Proof.
  induction evs as [|ev evs IH]; intros fds Hin; cbn [poll_events].
  - f_equal. apply list_eq. intros i. rewrite list_lookup_imap. destruct (fds !! i) as [[a b c]|]; simpl; [|done].
    unfold entry_bits, reported. simpl. change (revents_bits _ _ _ _ _) with 0. by rewrite Z.lor_0_r.
  - assert (Hin' : forall ev', ev' ∈ evs -> is_rw ev' = true -> 0 <= ev_userdata ev' < Z.of_nat (length fds)).
    { intros ev' He. apply Hin. by right. }
    assert (Hrest : forall fds', length fds' = length fds ->
      poll_events evs fds' = Some (imap (fun i p => Pollfd (pfd p) (events p) (Z.lor (revents p) (entry_bits evs i))) fds')).
    { intros fds' Hl. apply IH. by rewrite Hl. }
    destruct (is_rw ev) eqn:Hrw.
    + specialize (Hin ev ltac:(left) Hrw). destruct (fds !! Z.to_nat (ev_userdata ev)) as [p|] eqn:Hp.
      2:{ apply lookup_ge_None in Hp. lia. }
      simpl. rewrite Hrest by (by rewrite length_insert). f_equal. apply list_eq. intros i. rewrite !list_lookup_imap.
      destruct (decide (i = Z.to_nat (ev_userdata ev))) as [->|Hne].
      * rewrite list_lookup_insert_eq, Hp by (by eapply lookup_lt_Some). simpl. f_equal. f_equal.
        rewrite entry_bits_cons, Hrw. rewrite (proj2 (Z.eqb_eq _ _)) by lia. simpl. by rewrite Z.lor_assoc.
      * rewrite list_lookup_insert_ne by done. destruct (fds !! i) as [q|]; simpl; [|done]. do 2 f_equal.
        rewrite entry_bits_cons, Hrw. replace (_ =? _) with false; [by rewrite Z.lor_0_l|]. symmetry. apply Z.eqb_neq. lia.
    + rewrite Hrest by done. f_equal. apply imap_ext. intros i p _. f_equal. rewrite entry_bits_cons, Hrw. by rewrite Z.lor_0_l.
Qed.

Lemma poll_hup_bits a b nval hup err rd wr :
  poll_hup (Pollfd a b (revents_bits nval hup err rd wr)) = Pollfd a b (revents_bits nval hup err rd (wr && negb hup)).
Proof. by destruct nval, hup, err, rd, wr. Qed.

(** *** The subscriptions *)

Definition wanted (p : pollfd) (i : Z) (s : subscription) : Prop :=
  has (events p) POLLRDNORM = true /\ s = Sub i (SubRead (pfd p)) \/
  has (events p) POLLWRNORM = true /\ s = Sub i (SubWrite (pfd p)).

(** An entry that is to be waited for without a condition it could meet. *)
Definition idle_entry (p : pollfd) : bool :=
  (0 <=? pfd p) && negb (has (events p) POLLRDNORM) && negb (has (events p) POLLWRNORM).

Lemma poll_subscriptions_spec fds : forall i,
  match poll_subscriptions i fds with
  | None => existsb idle_entry fds = true
  | Some subs => existsb idle_entry fds = false /\
      forall s, s ∈ subs <-> exists k p, fds !! k = Some p /\ 0 <= pfd p /\ wanted p (i + Z.of_nat k) s
  end.
Proof.
  induction fds as [|p fds IH]; intros i; cbn [poll_subscriptions existsb].
  { split; [done|]. intros s. rewrite elem_of_nil. split; [done|]. by intros (k & p & Hk & _). }
  specialize (IH (i + 1)). unfold idle_entry at 1 3.
  assert (Hsplit : forall (P : Prop) s, (P <-> 0 <= pfd p /\ wanted p i s) ->
    (P \/ (exists k q, fds !! k = Some q /\ 0 <= pfd q /\ wanted q (i + 1 + Z.of_nat k) s)) <->
    exists k q, (p :: fds) !! k = Some q /\ 0 <= pfd q /\ wanted q (i + Z.of_nat k) s).
  { intros P s HP. rewrite HP. split.
    - intros [Hp|(k & q & Hk & Hq & Hw)]; [exists 0%nat, p; by rewrite Z.add_0_r|].
      exists (S k), q. split; [done|]. split; [done|]. by replace (i + Z.of_nat (S k)) with (i + 1 + Z.of_nat k) by lia.
    - intros ([|k] & q & Hk & Hq & Hw); simplify_eq/=; [left; by rewrite Z.add_0_r in Hw|].
      right. exists k, q. split; [done|]. split; [done|]. by replace (i + 1 + Z.of_nat k) with (i + Z.of_nat (S k)) by lia. }
  destruct (Z.ltb_spec (pfd p) 0) as [Hneg|Hpos].
  - replace (0 <=? pfd p) with false by lia. simpl. destruct (poll_subscriptions (i + 1) fds) as [subs|]; [|done].
    destruct IH as [H1 H2]. split; [done|]. intros s. rewrite <- (Hsplit False), H2; [tauto|]. split; [done|lia].
  - replace (0 <=? pfd p) with true by lia.
    assert (Hgo : forall hd, (forall s, s ∈ hd <-> wanted p i s) ->
      match (rest ← poll_subscriptions (i + 1) fds; Some (hd ++ rest)) with
      | None => existsb idle_entry fds = true
      | Some subs => existsb idle_entry fds = false /\
          forall s, s ∈ subs <-> exists k q, (p :: fds) !! k = Some q /\ 0 <= pfd q /\ wanted q (i + Z.of_nat k) s
      end).
    { intros hd Hhd. destruct (poll_subscriptions (i + 1) fds) as [subs|]; simpl; [|done].
      destruct IH as [H1 H2]. split; [done|]. intros s. rewrite elem_of_app, H2. apply Hsplit. rewrite Hhd. tauto. }
    unfold wanted in Hgo at 1.
    destruct (has (events p) POLLRDNORM) eqn:Hr, (has (events p) POLLWRNORM) eqn:Hw; cbn [negb andb orb app]; [..|done].
    + apply (Hgo [_; _]). intros s. rewrite !elem_of_cons, elem_of_nil. tauto.
    + apply (Hgo [_]). intros s. rewrite list_elem_of_singleton. split; [tauto|]. intros [[_ ?]|[? _]]; done.
    + apply (Hgo [_]). intros s. rewrite list_elem_of_singleton. split; [tauto|]. intros [[? _]|[_ ?]]; done.
Qed.

Lemma sub_index fds subs timeout s : poll_subscriptions 0 fds = Some subs -> s ∈ subs ++ poll_timeout timeout ->
  event_type (what s) <> EVENTTYPE_CLOCK -> 0 <= userdata s < Z.of_nat (length fds).
Proof.
  intros Hs Hin Ht. pose proof (poll_subscriptions_spec fds 0) as Hspec. rewrite Hs in Hspec. destruct Hspec as [_ Hspec].
  apply elem_of_app in Hin as [Hin|Hin].
  - apply Hspec in Hin as (k & p & Hk & _ & [[_ ->]|[_ ->]]); apply lookup_lt_Some in Hk; simpl; lia.
  - unfold poll_timeout in Hin. destruct (0 <=? timeout); [|by apply elem_of_nil in Hin].
    apply list_elem_of_singleton in Hin as ->. done.
Qed.

(** C24: [poll] fails with [ENOSYS], without a call of the host, when an entry
    with a descriptor asks for neither direction.  Otherwise it makes one call,
    with a subscription for each direction of each entry that has a
    descriptor, and one for the time unless that is negative (zero becomes one
    nanosecond).  When that succeeds each [revents] is what the events of its
    entry report, [POLLWRNORM] only without [POLLHUP], and the result is the
    number of entries with a report. *)
Theorem poll_spec {W} `{PollLaws W} fds timeout (e : env W) :
  if existsb idle_entry fds then poll fds timeout e = Ret ((-1, fds), Env ENOSYS (world e))
  else exists subs,
    (forall s, s ∈ subs <-> exists k p, fds !! k = Some p /\ 0 <= pfd p /\ wanted p (Z.of_nat k) s) /\
    let call := subs ++ (if 0 <=? timeout
                         then [Sub 0 (SubClock CLOCKID_REALTIME (Z.max 1 (timeout * 1000000)) 0)] else []) in
    let '(error, evs, w) := wasi_poll_oneoff call (world e) in
    poll fds timeout e =
      if error =? 0 then
        let fds' := imap (fun i p => Pollfd (pfd p) (events p) (poll_revents evs i)) fds in
        Ret ((Z.of_nat (length (filter (fun p => negb (revents p =? 0)) fds')), fds'), Env (errno e) w)
      else Ret ((-1, fds), Env (if decide (call = []) then ENOTSUP else error) w).
Proof.
  pose proof (poll_subscriptions_spec fds 0) as Hspec. unfold poll.
  destruct (poll_subscriptions 0 fds) as [subs|] eqn:Hs.
  2:{ rewrite Hspec. done. }
  destruct Hspec as [Hidle Hspec]. rewrite Hidle. exists subs. split; [intros s; rewrite Hspec; done|].
  replace (if 0 <=? timeout then _ else _) with (poll_timeout timeout).
  2:{ unfold poll_timeout. destruct (Z.leb_spec 0 timeout); [|done]. do 2 f_equal. f_equal.
      destruct (Z.eqb_spec timeout 0); simpl; lia. }
  cbv zeta. set (call := subs ++ poll_timeout timeout).
  destruct (wasi_poll_oneoff call (world e)) as [[error evs] w] eqn:Hcall.
  assert (Hhost : host (wasi_poll_oneoff call) e = Ret ((error, evs), Env (errno e) w)) by (unfold host; by rewrite Hcall).
  mstep Hhost. destruct (Z.eqb_spec error 0) as [->|Herr]; simpl.
  - rewrite poll_events_Ret.
    + simpl. assert (Hfds : map poll_hup (imap (fun i p => Pollfd (pfd p) (events p) (Z.lor (revents p) (entry_bits evs i)))
        (map (fun p => Pollfd (pfd p) (events p) 0) fds)) =
        imap (fun i p => Pollfd (pfd p) (events p) (poll_revents evs i)) fds).
      { apply list_eq. intros i. rewrite list_lookup_fmap, !list_lookup_imap, list_lookup_fmap.
        destruct (fds !! i) as [[a b c]|]; cbn [fmap option_fmap option_map pfd events revents]; [|done].
        rewrite Z.lor_0_l. f_equal. apply poll_hup_bits. }
      by rewrite Hfds.
    + intros ev Hev Hrw. rewrite length_map. destruct (poll_oneoff_spec _ _ _ _ Hcall ev Hev) as (s & Hin & -> & Hty).
      eapply sub_index; [exact Hs|exact Hin|]. rewrite <- Hty. intros Hc. unfold is_rw in Hrw. by rewrite Hc in Hrw.
  - destruct call; [by rewrite decide_True|by rewrite decide_False].
Qed.

(** ** [pselect] *)

(** [pselect] with a valid bound and time and no set for exceptions makes
    one call of the host, for the descriptors below the bound and the time,
    which is at least a nanosecond; a time below one second is one nanosecond,
    whatever it is.  If the call fails or an event says that a descriptor is
    bad the sets stay; otherwise they become those with an event, which are
    among those asked for, and the result is their number. *)
Theorem pselect_spec {W} `{PollLaws W} nfds rd wr timeout (e : env W) : 0 <= nfds ->
  (forall t, timeout = Some t -> normal t) ->
  exists call,
    (forall s, s ∈ call <->
      (exists fd, fd ∈ default [] rd /\ fd < nfds /\ s = Sub fd (SubRead fd)) \/
      (exists fd, fd ∈ default [] wr /\ fd < nfds /\ s = Sub fd (SubWrite fd)) \/
      (exists t, timeout = Some t /\
         s = Sub 0 (SubClock CLOCKID_REALTIME (if tv_sec t <=? 0 then 1 else Z.min (nanos t) (2 ^ 64 - 1)) 0))) /\
    let '(error, evs, w) := wasi_poll_oneoff call (world e) in
    exists ret rd' wr' er, pselect nfds rd wr None timeout e = Ret ((ret, rd', wr'), Env er w) /\
      if negb (error =? 0) || existsb (fun ev => is_rw ev && (ev_error ev =? EBADF)) evs then
        ret = -1 /\ rd' = rd /\ wr' = wr /\
        er = (if error =? 0 then EBADF else if decide (call = []) then ENOTSUP else error)
      else
        er = errno e /\ (is_Some rd' <-> is_Some rd) /\ (is_Some wr' <-> is_Some wr) /\
        (rd <> None -> wr <> None -> ret = Z.of_nat (length (default [] rd') + length (default [] wr'))) /\
        (forall fd, fd ∈ default [] rd' -> fd ∈ default [] rd /\ fd < nfds) /\
        (forall fd, fd ∈ default [] wr' -> fd ∈ default [] wr /\ fd < nfds) /\
        (forall fd, rd <> None -> fd ∈ default [] rd' <->
           exists ev, ev ∈ evs /\ ev_type ev = EVENTTYPE_FD_READ /\ ev_userdata ev = fd) /\
        (forall fd, wr <> None -> fd ∈ default [] wr' <->
           exists ev, ev ∈ evs /\ ev_type ev = EVENTTYPE_FD_WRITE /\ ev_userdata ev = fd).
Proof.
  intros Hnfds Htime. set (subs := select_subscriptions nfds SubRead (default FD_ZERO rd) ++
              select_subscriptions nfds SubWrite (default FD_ZERO wr)).
  set (clk := match timeout with
              | Some t => [Sub 0 (SubClock CLOCKID_REALTIME (if tv_sec t <=? 0 then 1 else Z.min (nanos t) (2 ^ 64 - 1)) 0)]
              | None => [] end).
  assert (Hmem : forall mk set s, s ∈ select_subscriptions nfds mk set <-> exists fd, fd ∈ set /\ fd < nfds /\ s = Sub fd (mk fd)).
  { intros mk set s. unfold select_subscriptions. rewrite list_elem_of_fmap. split.
    - intros (fd & -> & [Hlt Hfd]%list_elem_of_filter). exists fd. split_and!; [done| |done]. apply Is_true_eq_true in Hlt. lia.
    - intros (fd & Hfd & Hlt & ->). exists fd. split; [done|]. apply list_elem_of_filter. split; [|done]. apply Is_true_eq_left. lia. }
  exists (subs ++ clk). split.
  { intros s. unfold subs. rewrite !elem_of_app, !Hmem. unfold clk, FD_ZERO. destruct timeout as [t|].
    - rewrite list_elem_of_singleton. split; [intros [[?|?]| -> ]; eauto|]. intros [?|[?|(t' & [= <-] & ->)]]; eauto.
    - rewrite elem_of_nil. split; [intros [[?|?]|?]; [eauto..|done]|]. intros [?|[?|(t' & Ht' & _)]]; [eauto..|done]. }
  destruct (wasi_poll_oneoff (subs ++ clk) (world e)) as [[error evs] w] eqn:Hcall.
  assert (Hhost : host (wasi_poll_oneoff (subs ++ clk)) e = Ret ((error, evs), Env (errno e) w)) by (unfold host; by rewrite Hcall).
  assert (Hrun : pselect nfds rd wr None timeout e = pselect_wait rd wr (subs ++ clk) e).
  { unfold pselect. replace (nfds <? 0) with false by lia. cbv zeta. fold subs. unfold clk.
    destruct timeout as [t|]; [|by rewrite app_nil_r].
    by rewrite clamp_spec, bool_decide_eq_true_2 by (by apply Htime). }
  rewrite Hrun. unfold pselect_wait. rewrite !(bind_Ret _ _ _ _ _ Hhost). clear Hrun Hhost.
  destruct (Z.eqb_spec error 0) as [->|Herr]; simpl.
  2:{ eexists _, _, _, _. split; [reflexivity|]. split_and!; try done. destruct (subs ++ clk); [by rewrite decide_True|by rewrite decide_False]. }
  destruct (existsb _ evs); [eexists _, _, _, _; split; [reflexivity|]; by split_and!|].
  assert (Hty : forall ty (P : wevent -> bool), (forall ev, P ev = (ev_type ev =? ty)) ->
    forall fd, fd ∈ map ev_userdata (filter P evs) <-> exists ev, ev ∈ evs /\ ev_type ev = ty /\ ev_userdata ev = fd).
  { intros ty P HP fd. rewrite list_elem_of_fmap. split.
    - intros (ev & -> & [Ht Hev]%list_elem_of_filter). exists ev. rewrite HP in Ht. apply Is_true_eq_true in Ht. split_and!; [done|lia|done].
    - intros (ev & Hev & Ht & <-). exists ev. split; [done|]. apply list_elem_of_filter. split; [|done]. rewrite HP. apply Is_true_eq_left. lia. }
  assert (Hsub : forall ev, ev ∈ evs ->
    (ev_type ev = EVENTTYPE_FD_READ -> ev_userdata ev ∈ default [] rd /\ ev_userdata ev < nfds) /\
    (ev_type ev = EVENTTYPE_FD_WRITE -> ev_userdata ev ∈ default [] wr /\ ev_userdata ev < nfds)).
  { intros ev Hev. destruct (poll_oneoff_spec _ _ _ _ Hcall ev Hev) as (s & Hs & -> & ->).
    unfold subs in Hs. rewrite !elem_of_app, !Hmem in Hs. destruct Hs as [[(fd & ? & ? & ->)|(fd & ? & ? & ->)]|Hs]; simpl.
    - by split.
    - by split.
    - unfold clk in Hs. destruct timeout; [apply list_elem_of_singleton in Hs as ->; by split|by apply elem_of_nil in Hs]. }
  pose proof (Hty EVENTTYPE_FD_READ (fun ev => ev_type ev =? EVENTTYPE_FD_READ) (fun _ => eq_refl)) as Hr.
  pose proof (Hty EVENTTYPE_FD_WRITE (fun ev => ev_type ev =? EVENTTYPE_FD_WRITE) (fun _ => eq_refl)) as Hv.
  eexists _, _, _, _. split; [reflexivity|]. split; [done|].
  split; [destruct rd; simpl; by rewrite ?is_Some_alt|]. split; [destruct wr; simpl; by rewrite ?is_Some_alt|].
  split; [by destruct rd, wr|]. split.
  { intros fd Hfd. destruct rd as [rd|]; simpl in *; [|by apply elem_of_nil in Hfd]. apply Hr in Hfd as (ev & Hev & Ht & <-). by apply Hsub. }
  split.
  { intros fd Hfd. destruct wr as [wr|]; simpl in *; [|by apply elem_of_nil in Hfd]. apply Hv in Hfd as (ev & Hev & Ht & <-). by apply Hsub. }
  split; intros fd Hne; [destruct rd; [|done]; apply Hr|destruct wr; [|done]; apply Hv].
Qed.

(** ** Timed waits on a futex *)

(** The result of a wait that the host has been asked for. *)
Definition waited {W} `{WasiPoll W} (addr val : Z) (timeout : option Z) (e : env W) : outcome (Z * env W) :=
  let '(error, woken, w) := wasi_futex_wait addr val timeout (world e) in
  if error =? 0 then
    Ret (if negb woken && (load32 addr w =? val) then ETIMEDOUT else 0, Env (errno e) w)
  else Stop Trapped.

Lemma futex_wait_Ret {W} `{WasiPoll W} addr val ns (e : env W) : Z.land addr 3 = 0 ->
  (r ← futex_wait_wasix addr val ns; mret (timedwait_finish (- r))) e =
    if load32 addr (world e) =? val then waited addr val (if 0 <? ns then Some ns else None) e else Ret (0, e).
Proof.
  intros Ha. unfold futex_wait_wasix, waited. rewrite Ha. simpl.
  destruct (load32 addr (world e) =? val) eqn:Hv; unfold mbind, M_bind, get, host, mret, M_ret, halt; simpl; rewrite Hv; simpl.
  - destruct (wasi_futex_wait addr val _ (world e)) as [[error woken] w]. destruct (error =? 0); simpl; [|done].
    by destruct (negb woken && _).
  - done.
Qed.

(** A timed wait for the word at an aligned address until the time [t]
    on the clock.  A nanosecond field out of range is [EINVAL] and a time that
    is past is [ETIMEDOUT], both without waiting.  With [left] nanoseconds to go
    the host is asked to wait for exactly that, unless the word has changed;
    the result is [ETIMEDOUT] if the host gives up and the word is as it was.
    But with no nanosecond left the host is asked to wait without limit, and
    from 2^63 nanoseconds on the computation overflows. *)
Theorem timedwait_spec {W} `{WasiPoll W} addr val clk t now w (e : env W) :
  Z.land addr 3 = 0 -> wasi_clock_time_get clk 1 (world e) = (0, now, w) -> 0 <= now < 2 ^ 64 -> timespec_ok t -> - 2 ^ 62 <= tv_sec t ->
  let left := nanos t - now in
  timedwait_cp addr val clk (Some t) e =
    if negb (bool_decide (normal t)) then Ret (EINVAL, e)
    else if left <? 0 then Ret (ETIMEDOUT, Env (errno e) w)
    else if 2 ^ 63 <=? left then Stop Undefined
    else if load32 addr w =? val then
      waited addr val (if left =? 0 then None else Some left) (Env (errno e) w)
    else Ret (0, Env (errno e) w).
Proof.
  intros Ha Hclk Hnow [_ Hns] _ left. unfold timedwait_cp.
  assert (Hrange : (1000000000 <=? w32 (tv_nsec t)) = negb (bool_decide (normal t))).
  { unfold normal, NSEC_PER_SEC. case_bool_decide as Hn; [rewrite w32_small by lia; simpl; lia|]. simpl. apply Z.leb_le.
    destruct (Z.lt_ge_cases (tv_nsec t) 0) as [H0|H0]; [|rewrite w32_small by lia; lia].
    replace (w32 (tv_nsec t)) with (tv_nsec t + 2 ^ 32); [lia|].
    unfold w32. rewrite <- (Z.mod_add _ 1) by lia. by rewrite Z.mod_small by lia. }
  rewrite Hrange. case_bool_decide as Hn; [|done]. cbn [negb].
  assert (Hget : clock_gettime clk e = Ret ((0, Some (timestamp_to_timespec now)), Env (errno e) w)).
  { unfold clock_gettime, mbind, M_bind, host. by rewrite Hclk. }
  mstep Hget. cbn [Z.eqb negb]. change (negb (0 =? 0)) with false. cbn iota. unfold timestamp_to_timespec. cbn [tv_sec tv_nsec].
  unfold normal in Hn. unfold nanos in left. unfold NSEC_PER_SEC in *.
  pose proof (Z.div_mod now 1000000000 ltac:(lia)) as Hdm. pose proof (Z.mod_pos_bound now 1000000000 ltac:(lia)) as Hm.
  assert (Hs : s64 (now / 1000000000) = now / 1000000000).
  { apply s64_small. split; [|apply Z.div_lt_upper_bound; lia]. pose proof (Z.div_pos now 1000000000). lia. }
  rewrite Hs. set (to := if tv_nsec t - now mod 1000000000 <? 0 then _ else _).
  assert (Hto : tv_sec to * 1000000000 + tv_nsec to = left /\ 0 <= tv_nsec to < 1000000000).
  { subst to left. destruct (Z.ltb_spec (tv_nsec t - now mod 1000000000) 0); simpl; lia. }
  clearbody to. destruct Hto as [Hl Hnr].
  replace (tv_sec to <? 0) with (left <? 0) by lia. destruct (Z.ltb_spec left 0) as [Hneg|Hpos]; [done|].
  unfold futex4_cp.
  replace ((tv_sec to * 1000000000 <? - 2 ^ 63) || (2 ^ 63 <=? tv_sec to * 1000000000) || (2 ^ 63 <=? tv_sec to * 1000000000 + tv_nsec to))
    with (2 ^ 63 <=? left) by lia.
  destruct (2 ^ 63 <=? left); [done|]. rewrite Hl, futex_wait_Ret by done. simpl.
  by replace (0 <? left) with (negb (left =? 0)) by lia; destruct (left =? 0).
Qed.
