(* ===== verification/TimeExamples.v ===== *)
(** The theorems on calendar times at 29 February 2024, 12:34:56, and on
    polling. *)
From S2P Require Import Prelude.
From S2P Require Import Wasi.
From S2P Require Import TimeConv.
From S2P Require Import Calendar.
From S2P Require Import CalendarProofs.
From S2P Require Import Poll.
From S2P Require Import PollProofs.

Definition no_tm : tm := Tm 0 0 0 0 0 0 0 0 0 0 "" 0.
Definition leap_day : tm := Tm 56 34 12 29 1 124 4 59 0 0 "" 0.

Lemma secs_to_tm_spec_witness :
  __secs_to_tm 1709210096 no_tm = Some (0, leap_day) /\
  exists r x, __secs_to_tm 1709210096 no_tm = Some (r, x) /\
    ((r = 0 /\ valid_tm x /\ is_int (tm_year x) /\ civil_secs x = 1709210096 /\ __tm_to_secs x = 1709210096) \/
     (r = -1 /\ x = no_tm /\ forall x', valid_tm x' -> is_int (tm_year x') -> civil_secs x' <> 1709210096)).
Proof. split; [vm_compute; reflexivity|]. apply (secs_to_tm_spec 1709210096 no_tm). lia. Defined.

(** The 60th day of 2024, written as 60 January. *)
Definition january_60 : tm := Tm 56 34 12 60 0 124 0 0 0 0 "" 0.

Lemma timegm_spec_witness :
  timegm january_60 no_tm = Some (1709210096, in_utc leap_day, None) /\
  exists t x' e, timegm january_60 no_tm = Some (t, x', e) /\
    ((e = None /\ t = civil_secs january_60 /\ valid_tm x' /\ is_int (tm_year x') /\ civil_secs x' = t /\
        tm_isdst x' = 0 /\ __tm_gmtoff x' = 0 /\ __tm_zone x' = __utc) \/
     (e = Some EOVERFLOW /\ t = -1 /\ x' = january_60 /\
        forall x', valid_tm x' -> is_int (tm_year x') -> civil_secs x' <> civil_secs january_60)).
Proof.
  split; [vm_compute; reflexivity|]. apply (timegm_spec january_60 no_tm); [|simpl; lia].
  unfold int_fields, is_int. simpl. lia.
Defined.

(** * The theorems on [poll], [pselect], descriptor sets and timed waits applied
    to a host with some descriptors ready. *)

(** Descriptors that can be read, written, or are not open; the time; the word
    of shared memory that the futex calls look at, and whether a wait ends by
    being woken. *)
Record desk := Desk { readable : list Z; writable : list Z; bad : list Z; hour : Z; futex_word : Z; will_wake : bool }.

Definition desk_event (d : desk) (s : subscription) : option wevent :=
  match what s with
  | SubClock _ _ _ => Some (WEvent (userdata s) 0 EVENTTYPE_CLOCK 0 0)
  | SubRead fd =>
      if bool_decide (fd ∈ bad d) then Some (WEvent (userdata s) EBADF EVENTTYPE_FD_READ 0 0)
      else if bool_decide (fd ∈ readable d) then Some (WEvent (userdata s) 0 EVENTTYPE_FD_READ 0 0) else None
  | SubWrite fd =>
      if bool_decide (fd ∈ bad d) then Some (WEvent (userdata s) EBADF EVENTTYPE_FD_WRITE 0 0)
      else if bool_decide (fd ∈ writable d) then Some (WEvent (userdata s) 0 EVENTTYPE_FD_WRITE RW_HANGUP 0) else None
  end.

#[export] Instance desk_poll : WasiPoll desk := {
  wasi_clock_time_get id _ d := (0, hour d, d);
  wasi_clock_res_get id d := (0, 1, d);
  wasi_clock_time_set id t d := (0, d);
  wasi_poll_oneoff subs d := (0, omap (desk_event d) subs, d);
  wasi_futex_wait addr val timeout d := (0, will_wake d, d);
  wasi_futex_wake addr d := (0, false, d);
  wasi_futex_wake_all addr d := (0, false, d);
  load32 addr d := futex_word d }.

#[export] Instance desk_laws : PollLaws desk.
Proof.
  split. intros subs d evs d' [= <- <-] ev (s & Hs & He)%list_elem_of_omap. exists s. split; [done|].
  unfold desk_event in He. destruct (what s); repeat case_match; by simplify_eq.
Defined.

Definition desk0 : desk := Desk [3] [4] [9] 5000000000 1 false.
Definition env_desk : env desk := Env 0 desk0.

(** Reading from 3 and 9, which is not open; writing to 4, which has been hung
    up; an entry that is not used. *)
Definition fds0 : list pollfd := [Pollfd 3 POLLRDNORM 7; Pollfd (-1) 0 7; Pollfd 4 (POLLRDNORM + POLLWRNORM) 0; Pollfd 9 POLLRDNORM 0].

Lemma poll_spec_witness :
  poll fds0 0 env_desk = Ret ((3, [Pollfd 3 POLLRDNORM POLLRDNORM; Pollfd (-1) 0 0;
    Pollfd 4 (POLLRDNORM + POLLWRNORM) POLLHUP; Pollfd 9 POLLRDNORM POLLNVAL]), env_desk) /\
  exists subs,
    (forall s, s ∈ subs <-> exists k p, fds0 !! k = Some p /\ 0 <= pfd p /\ wanted p (Z.of_nat k) s) /\
    let call := subs ++ [Sub 0 (SubClock CLOCKID_REALTIME 1 0)] in
    let '(error, evs, w) := wasi_poll_oneoff call (world env_desk) in
    poll fds0 0 env_desk =
      if error =? 0 then
        let fds' := imap (fun i p => Pollfd (pfd p) (events p) (poll_revents evs i)) fds0 in
        Ret ((Z.of_nat (length (filter (fun p => negb (revents p =? 0)) fds')), fds'), Env (errno env_desk) w)
      else Ret ((-1, fds0), Env (if decide (call = []) then ENOTSUP else error) w).
Proof. split; [reflexivity|]. apply (poll_spec fds0 0 env_desk). Defined.

Lemma fd_sets_witness :
  FD_CLR 5 [5; 8; 3] = [3; 8] /\
  FD_ISSET 5 [5; 8; 3] = bool_decide (5 ∈ [5; 8; 3]) /\
  (forall set', FD_SET 5 [5; 8; 3] = Some set' ->
     NoDup set' /\ (length set' <= FD_SETSIZE)%nat /\ forall x, x ∈ set' <-> x = 5 \/ x ∈ [5; 8; 3]) /\
  (FD_SET 5 [5; 8; 3] = None <-> 5 ∉ [5; 8; 3] /\ 3%nat = FD_SETSIZE) /\
  NoDup (FD_CLR 5 [5; 8; 3]) /\ forall x, x ∈ FD_CLR 5 [5; 8; 3] <-> x <> 5 /\ x ∈ [5; 8; 3].
Proof.
  split; [reflexivity|]. apply (fd_sets 5 [5; 8; 3]); [|unfold FD_SETSIZE; simpl; lia].
  apply (bool_decide_unpack _). reflexivity.
Defined.

(** Half a second becomes a nanosecond. *)
Lemma pselect_spec_witness :
  exists call, (Sub 0 (SubClock CLOCKID_REALTIME 1 0)) ∈ call /\
    let '(error, evs, w) := wasi_poll_oneoff call (world env_desk) in
    exists ret rd' wr' er, pselect 8 (Some [3; 7]) None None (Some (Timespec 0 500000000)) env_desk = Ret ((ret, rd', wr'), Env er w) /\
      (negb (error =? 0) || existsb (fun ev => is_rw ev && (ev_error ev =? EBADF)) evs = false ->
       forall fd, fd ∈ default [] rd' -> fd ∈ [3; 7] /\ fd < 8).
Proof.
  destruct (pselect_spec 8 (Some [3; 7]) None (Some (Timespec 0 500000000)) env_desk) as (call & Hcall & Hrun); [lia| |].
  - intros t [= <-]. unfold normal, NSEC_PER_SEC. simpl. lia.
  - exists call. split; [apply Hcall; right; right; by exists (Timespec 0 500000000)|].
    destruct (wasi_poll_oneoff call (world env_desk)) as [[error evs] w].
    destruct Hrun as (ret & rd' & wr' & er & Hr & Hcase). exists ret, rd', wr', er. split; [exact Hr|].
    intros Hok. rewrite Hok in Hcase. intros fd Hfd. by apply Hcase.
Defined.

Example select_half_second :
  select 8 (Some [7]) None None (Some (Timeval 0 500000)) env_desk = Ret ((0, Some [], None), env_desk).
Proof. reflexivity. Qed.

(** At the very time of the deadline the wait has no limit. *)
Lemma timedwait_spec_witness :
  timedwait_cp 16 1 0 (Some (Timespec 5 0)) env_desk = waited 16 1 None env_desk /\
  let left := nanos (Timespec 6 0) - 5000000000 in
  timedwait_cp 16 1 0 (Some (Timespec 6 0)) env_desk =
    if negb (bool_decide (normal (Timespec 6 0))) then Ret (EINVAL, env_desk)
    else if left <? 0 then Ret (ETIMEDOUT, Env (errno env_desk) desk0)
    else if 2 ^ 63 <=? left then Stop Undefined
    else if load32 16 desk0 =? 1 then
      waited 16 1 (if left =? 0 then None else Some left) (Env (errno env_desk) desk0)
    else Ret (0, Env (errno env_desk) desk0).
Proof.
  split; [reflexivity|].
  apply (timedwait_spec 16 1 0 (Timespec 6 0) 5000000000 desk0 env_desk); [reflexivity|reflexivity|lia| |simpl; lia].
  unfold timespec_ok. simpl. lia.
Defined.
