(* ===== verification/Fd.v ===== *)
(** Descriptors: transfers, positions, flags, duplication, pipes and [ioctl]
    ([cloudlibc/src/libc/unistd], [fcntl], [sys/uio], [sys/ioctl]) and the
    functions of [sources] that are about one descriptor. *)
From S2P Require Import Prelude.
From S2P Require Import Wasi.
From S2P Require Import Unistd.
From S2P Require Import Poll.
From S2P Require Import Paths.
From S2P Require Import At.

Definition EIO : Z := 29.
Definition ENOTTY : Z := 59.

(** ** Constants ([__header_fcntl.h], [api_wasi.h], [api_wasix.h]) *)
Definition F_GETFD : Z := 1.
Definition F_SETFD : Z := 2.
Definition F_GETFL : Z := 3.
Definition F_SETFL : Z := 4.
Definition F_DUPFD : Z := 5.
Definition F_DUPFD_CLOEXEC : Z := 6.
Definition FD_CLOEXEC : Z := 1.
Definition FDFLAGSEXT_CLOEXEC : Z := 1.
Definition FDFLAGS_NONBLOCK : Z := 4.
Definition O_CLOEXEC : Z := Z.shiftl FDFLAGSEXT_CLOEXEC 30.
Definition O_NOCTTY : Z := 0.

Definition RIGHTS_FD_SEEK : Z := 4.
Definition RIGHTS_FD_TELL : Z := 32.
Definition FILETYPE_CHARACTER_DEVICE : Z := 2.

Definition FIONREAD : Z := 1.
Definition FIONBIO : Z := 2.
Definition TIOCGWINSZ : Z := 257.
Definition TIOCSWINSZ : Z := 258.

(** ** The host's operations

    A transfer is told the lengths of the buffers or the bytes in them. *)
Record tty := Tty { cols : Z; rows : Z; width : Z; height : Z }.

(** The rest of the host's terminal state: which of the standard descriptors
    are terminals, echo, and the two line modes. *)
Record tty_modes := TtyModes {
  stdin_tty : bool; stdout_tty : bool; stderr_tty : bool; echo : bool; line_buffered : bool; line_feeds : bool }.

Class WasiFile (W : Type) := {
  wasi_fd_read : Z -> list Z -> W -> Z * list Z * W;
  wasi_fd_write : Z -> list (list Z) -> W -> Z * Z * W;
  wasi_fd_preadv : Z -> list Z -> Z -> W -> Z * list Z * W;
  wasi_fd_pwritev : Z -> list (list Z) -> Z -> W -> Z * Z * W;
  wasi_fd_seek : Z -> Z -> Z -> W -> Z * Z * W;
  wasi_fd_tell : Z -> W -> Z * Z * W;
  wasi_fd_sync : Z -> W -> Z * W;
  wasi_fd_datasync : Z -> W -> Z * W;
  wasi_fd_filestat_set_size : Z -> Z -> W -> Z * W;
  wasi_fd_advise : Z -> Z -> Z -> Z -> W -> Z * W;
  wasi_fd_allocate : Z -> Z -> Z -> W -> Z * W;
  wasi_fd_fdflags_get : Z -> W -> Z * Z * W;
  wasi_fd_fdflags_set : Z -> Z -> W -> Z * W;
  wasi_fd_fdstat_set_flags : Z -> Z -> W -> Z * W;
  wasi_fd_dup2 : Z -> Z -> bool -> W -> Z * Z * W;
  wasi_fd_renumber : Z -> Z -> W -> Z * W;
  wasi_fd_pipe : W -> Z * Z * Z * W;
  wasi_tty_get : W -> Z * tty * tty_modes * W;
  wasi_tty_set : tty -> option tty_modes -> W -> Z * W;
  wasi_random_get : Z -> W -> Z * list Z * W;
  wasi_proc_id : W -> Z * Z * W;
  wasi_proc_parent : Z -> W -> Z * Z * W }.

Section Fd.
Context {W : Type} `{WasiFd W, WasiPath W, WasiFile W, WasiPoll W}.

(** ** Transfers *)

Definition failed (error : Z) : M (env W) Z := set_errno error;; mret (-1).

Definition not_capable (error instead : Z) : Z := if error =? ENOTCAPABLE then instead else error.

Definition read (fildes nbyte : Z) : M (env W) (Z * list Z) :=
  '(error, l) ← host (wasi_fd_read fildes [nbyte]);
  if negb (error =? 0) then set_errno (not_capable error EBADF);; mret (-1, [])
  else mret (s32 (Z.of_nat (length l)), l).

Definition write (fildes : Z) (buf : list Z) : M (env W) Z :=
  '(error, n) ← host (wasi_fd_write fildes [buf]);
  if negb (error =? 0) then failed (not_capable error EBADF) else mret (s32 n).

Definition readv (fildes : Z) (iov : list Z) (iovcnt : Z) : M (env W) (Z * list Z) :=
  if iovcnt <? 0 then set_errno EINVAL;; mret (-1, []) else
  '(error, l) ← host (wasi_fd_read fildes (take (Z.to_nat iovcnt) iov));
  if negb (error =? 0) then set_errno error;; mret (-1, []) else mret (s32 (Z.of_nat (length l)), l).

Definition writev (fildes : Z) (iov : list (list Z)) (iovcnt : Z) : M (env W) Z :=
  if iovcnt <? 0 then failed EINVAL else
  '(error, n) ← host (wasi_fd_write fildes (take (Z.to_nat iovcnt) iov));
  if negb (error =? 0) then failed error else mret (s32 n).

Definition preadv (fildes : Z) (iov : list Z) (iovcnt offset : Z) : M (env W) (Z * list Z) :=
  if (iovcnt <? 0) || (offset <? 0) then set_errno EINVAL;; mret (-1, []) else
  '(error, l) ← host (wasi_fd_preadv fildes (take (Z.to_nat iovcnt) iov) offset);
  if negb (error =? 0) then set_errno error;; mret (-1, []) else mret (s32 (Z.of_nat (length l)), l).

Definition pwritev (fildes : Z) (iov : list (list Z)) (iovcnt offset : Z) : M (env W) Z :=
  if (iovcnt <? 0) || (offset <? 0) then failed EINVAL else
  '(error, n) ← host (wasi_fd_pwritev fildes (take (Z.to_nat iovcnt) iov) offset);
  if negb (error =? 0) then failed error else mret (s32 n).

(** ** Positions and sizes *)

Definition lseek (fildes offset whence : Z) : M (env W) Z :=
  '(error, new_offset) ← host (wasi_fd_seek fildes offset whence);
  if negb (error =? 0) then failed (not_capable error ESPIPE) else mret (s64 new_offset).

Definition tell (fildes : Z) : M (env W) Z :=
  '(error, offset) ← host (wasi_fd_tell fildes);
  if negb (error =? 0) then failed (not_capable error ESPIPE) else mret (s64 offset).

Definition fsync (fildes : Z) : M (env W) Z :=
  error ← host (wasi_fd_sync fildes);
  if negb (error =? 0) then failed (not_capable error EINVAL) else mret 0.

Definition fdatasync (fildes : Z) : M (env W) Z :=
  error ← host (wasi_fd_datasync fildes);
  if negb (error =? 0) then failed (not_capable error EBADF) else mret 0.

Definition ftruncate (fildes length : Z) : M (env W) Z :=
  if length <? 0 then failed EINVAL else
  error ← host (wasi_fd_filestat_set_size fildes length);
  ret_errno error.

(** These two return the error. *)
Definition posix_fadvise (fd offset len advice : Z) : M (env W) Z :=
  if (offset <? 0) || (len <? 0) then mret EINVAL else host (wasi_fd_advise fd offset len advice).

Definition posix_fallocate (fd offset len : Z) : M (env W) Z :=
  if (offset <? 0) || (len <? 0) then mret EINVAL else host (wasi_fd_allocate fd offset len).

(** ** Flags and duplication *)

(** [F_GETFL] approximates the access mode by the rights. *)
Definition access_mode (rights : Z) : Z :=
  if has rights (Z.lor RIGHTS_FD_READ RIGHTS_FD_READDIR) then
    if has rights RIGHTS_FD_WRITE then O_RDWR else O_RDONLY
  else if has rights RIGHTS_FD_WRITE then O_WRONLY else O_SEARCH.

Definition fcntl (fildes cmd arg : Z) : M (env W) Z :=
  if cmd =? F_GETFD then
    '(error, flags) ← host (wasi_fd_fdflags_get fildes);
    if negb (error =? 0) then failed error
    else mret (if has flags FDFLAGSEXT_CLOEXEC then FD_CLOEXEC else 0)
  else if cmd =? F_SETFD then
    error ← host (wasi_fd_fdflags_set fildes (if has arg FD_CLOEXEC then FDFLAGSEXT_CLOEXEC else 0));
    ret_errno error
  else if cmd =? F_GETFL then
    '(error, fds) ← host (wasi_fd_fdstat_get fildes);
    if negb (error =? 0) then failed error
    else mret (Z.lor (fs_flags fds) (access_mode (fs_rights_base fds)))
  else if cmd =? F_SETFL then
    error ← host (wasi_fd_fdstat_set_flags fildes (Z.land arg 4095));
    ret_errno error
  else if (cmd =? F_DUPFD) || (cmd =? F_DUPFD_CLOEXEC) then
    '(error, fd) ← host (wasi_fd_dup2 fildes arg (cmd =? F_DUPFD_CLOEXEC));
    if negb (error =? 0) then failed error else mret fd
  else failed EINVAL.

Definition dup2 (fd newfd : Z) : M (env W) Z :=
  error ← host (wasi_fd_renumber fd newfd);
  if negb (error =? 0) then failed error else mret newfd.

(** [dup3] has a third argument, which it does not look at. *)
Definition dup3 (fd newfd flags : Z) : M (env W) Z :=
  error ← host (wasi_fd_renumber fd newfd);
  if negb (error =? 0) then failed error else mret newfd.

Definition __wasilibc_fd_renumber (fd newfd : Z) : M (env W) Z :=
  error ← host (wasi_fd_renumber fd newfd);
  ret_errno error.

(** ** Pipes: the result and what is stored in the array *)

Definition pipe : M (env W) (Z * option (Z * Z)) :=
  '(error, fd1, fd2) ← host wasi_fd_pipe;
  if negb (error =? 0) then set_errno error;; mret (-1, None) else mret (0, Some (fd1, fd2)).

(** Closes both ends and reports the error that was set before. *)
Definition pipe_failed (fd1 fd2 : Z) : M (env W) (Z * option (Z * Z)) :=
  saved_errno ← gets errno;
  close fd1;;
  close fd2;;
  set_errno saved_errno;;
  mret (-1, None).

(** Whether the call on one end or, if that succeeds, on the other fails. *)
Definition either_fails (a b : M (env W) Z) : M (env W) bool :=
  r ← a;
  if r <? 0 then mret true else r ← b; mret (r <? 0).

Definition pipe2_nonblock (fd1 fd2 flag : Z) : M (env W) (Z * option (Z * Z)) :=
  if has flag O_NONBLOCK then
    flags1 ← fcntl fd1 F_GETFL 0;
    flags2 ← fcntl fd2 F_GETFL 0;
    if (flags1 <? 0) || (flags2 <? 0) then pipe_failed fd1 fd2 else
    bad ← either_fails (fcntl fd1 F_SETFL (Z.lor flags1 O_NONBLOCK)) (fcntl fd2 F_SETFL (Z.lor flags2 O_NONBLOCK));
    if (bad : bool) then pipe_failed fd1 fd2 else mret (0, Some (fd1, fd2))
  else mret (0, Some (fd1, fd2)).

Definition pipe2 (flag : Z) : M (env W) (Z * option (Z * Z)) :=
  '(error, fd1, fd2) ← host wasi_fd_pipe;
  if negb (error =? 0) then set_errno error;; mret (-1, None) else
  if has flag O_CLOEXEC then
    bad ← either_fails (fcntl fd1 F_SETFD FD_CLOEXEC) (fcntl fd2 F_SETFD FD_CLOEXEC);
    if (bad : bool) then pipe_failed fd1 fd2 else pipe2_nonblock fd1 fd2 flag
  else pipe2_nonblock fd1 fd2 flag.

(** ** [ioctl]

    The object behind its pointer. *)
Record winsize := Winsize { ws_row : Z; ws_col : Z; ws_xpixel : Z; ws_ypixel : Z }.
Inductive ioctl_obj := IInt (v : Z) | IWin (w : winsize).

(** The first event that is an error or about reading decides. *)
Fixpoint fionread_events (evs : list wevent) : Z + Z :=
  match evs with
  | [] => inr 0
  | ev :: evs =>
      if negb (ev_error ev =? 0) then inl (ev_error ev)
      else if ev_type ev =? EVENTTYPE_FD_READ then inr (s32 (ev_nbytes ev))
      else fionread_events evs
  end.

(** The array has two elements; the second is all zeros, a clock. *)
Definition ioctl_fionread (fildes : Z) (result : ioctl_obj) : M (env W) (Z * ioctl_obj) :=
  '(error, evs) ← host (wasi_poll_oneoff [Sub 0 (SubRead fildes); Sub 0 (SubClock 0 0 0)]);
  if negb (error =? 0) then set_errno error;; mret (-1, result) else
  match fionread_events evs with
  | inl error => set_errno error;; mret (-1, result)
  | inr n => mret (0, IInt n)
  end.

Definition ioctl_fionbio (fildes : Z) (on : Z) : M (env W) Z :=
  '(error, fds) ← host (wasi_fd_fdstat_get fildes);
  if negb (error =? 0) then failed error else
  let flags := if negb (on =? 0) then Z.lor (fs_flags fds) FDFLAGS_NONBLOCK
               else Z.land (fs_flags fds) (Z.lnot FDFLAGS_NONBLOCK) in
  error ← host (wasi_fd_fdstat_set_flags fildes flags);
  ret_errno error.

Definition ioctl (fildes request : Z) (p : ioctl_obj) : M (env W) (Z * ioctl_obj) :=
  if request =? FIONREAD then
    match p with IInt _ => ioctl_fionread fildes p | IWin _ => halt Undefined end
  else if request =? FIONBIO then
    match p with IInt on => r ← ioctl_fionbio fildes on; mret (r, p) | IWin _ => halt Undefined end
  else if request =? TIOCGWINSZ then
    match p with
    | IWin _ =>
        '(r, t, _) ← host wasi_tty_get;
        if negb (r =? 0) then set_errno r;; mret (-1, p)
        else mret (0, IWin (Winsize (w16 (rows t)) (w16 (cols t)) (w16 (width t)) (w16 (height t))))
    | IInt _ => halt Undefined
    end
  else if request =? TIOCSWINSZ then
    match p with
    | IWin wsz =>
        (* the modes are not set *)
        r ← host (wasi_tty_set (Tty (ws_col wsz) (ws_row wsz) (ws_xpixel wsz) (ws_ypixel wsz)) None);
        if negb (r =? 0) then set_errno r;; mret (-1, p) else mret (0, p)
    | IInt _ => halt Undefined
    end
  else set_errno EINVAL;; mret (-1, p).

(** ** Terminals, randomness, processes *)

Definition isatty (fd : Z) : M (env W) Z :=
  '(r, statbuf) ← host (wasi_fd_fdstat_get fd);
  if negb (r =? 0) then set_errno r;; mret 0 else
  if negb (fs_filetype statbuf =? FILETYPE_CHARACTER_DEVICE) ||
     has (fs_rights_base statbuf) (Z.lor RIGHTS_FD_SEEK RIGHTS_FD_TELL)
  then set_errno ENOTTY;; mret 0
  else mret 1.

Definition getentropy (len : Z) : M (env W) (Z * list Z) :=
  if 256 <? len then set_errno EIO;; mret (-1, []) else
  '(r, l) ← host (wasi_random_get len);
  if negb (r =? 0) then set_errno r;; mret (-1, []) else mret (0, l).

Definition getrandom (buflen flags : Z) : M (env W) (Z * list Z) :=
  '(r, l) ← host (wasi_random_get buflen);
  if negb (r =? 0) then set_errno r;; mret (-1, []) else mret (s32 buflen, l).

Definition getpid : M (env W) Z :=
  '(error, pid) ← host wasi_proc_id;
  if negb (error =? 0) then failed error else mret (s32 pid).

Definition getppid : M (env W) Z :=
  '(error, pid) ← host wasi_proc_id;
  if negb (error =? 0) then failed error else
  '(error, parent) ← host (wasi_proc_parent pid);
  if negb (error =? 0) then failed error else mret (s32 parent).

(** ** [truncate]: by path *)
Context `{Alloc W}.
Variable threaded : bool.

Definition truncate (path : list Z) (length : Z) : M (pstate W) Z :=
  fd ← __wasilibc_open_nomode threaded path (Z.lor O_WRONLY (Z.lor O_CLOEXEC O_NOCTTY));
  if fd <? 0 then mret (-1) else
  result ← pcall (ftruncate fd length);
  if negb (result =? 0) then
    save_errno ← gets (fun s => errno (penv s));
    pcall (close fd);;
    pcall (set_errno save_errno);;
    mret (-1)
  else pcall (close fd).

End Fd.
