(* ===== verification/FdProofs.v ===== *)
(** The descriptor functions against a table of descriptors. *)
From S2P Require Import Prelude.
From S2P Require Import Wasi.
From S2P Require Import Unistd.
From S2P Require Import Poll.
From S2P Require Import Paths.
From S2P Require Import At.
From S2P Require Import Fd.

(** What a descriptor has besides the file it is open on. *)
Record desc := Desc { d_flags : Z; d_cloexec : bool; d_rights : Z }.

(** The host keeps a table.  An operation that reports an error leaves it, a
    number that is closed is free again whatever [fd_close] reports, and a
    pipe has two new numbers. *)
Class FdTable (W : Type) `{WasiFd W, WasiFile W} := {
  fds : W -> gmap Z desc;
  fds_flags : forall w fd d, fds w !! fd = Some d -> 0 <= d_flags d < 32;
  fdstat_get_fds : forall fd w e st w', wasi_fd_fdstat_get fd w = (e, st, w') -> fds w' = fds w /\
    (e = 0 -> exists d, fds w !! fd = Some d /\ fs_flags st = d_flags d /\ fs_rights_base st = d_rights d);
  fdstat_set_fds : forall fd fl w e w', wasi_fd_fdstat_set_flags fd fl w = (e, w') ->
    if e =? 0 then exists d, fds w !! fd = Some d /\ fds w' = <[fd := Desc fl (d_cloexec d) (d_rights d)]> (fds w)
    else fds w' = fds w;
  fdflags_get_fds : forall fd w e fl w', wasi_fd_fdflags_get fd w = (e, fl, w') -> fds w' = fds w /\
    (e = 0 -> exists d, fds w !! fd = Some d /\ has fl FDFLAGSEXT_CLOEXEC = d_cloexec d);
  fdflags_set_fds : forall fd fl w e w', wasi_fd_fdflags_set fd fl w = (e, w') ->
    if e =? 0
    then exists d, fds w !! fd = Some d /\ fds w' = <[fd := Desc (d_flags d) (has fl FDFLAGSEXT_CLOEXEC) (d_rights d)]> (fds w)
    else fds w' = fds w;
  pipe_fds : forall w e a b w', wasi_fd_pipe w = (e, a, b, w') ->
    if e =? 0
    then a <> b /\ fds w !! a = None /\ fds w !! b = None /\
      exists ra rb, fds w' = <[a := Desc 0 false ra]> (<[b := Desc 0 false rb]> (fds w))
    else fds w' = fds w;
  close_fds : forall fd w e w', wasi_fd_close fd w = (e, w') -> fds w' = delete fd (fds w) }.

Section FdProofs.
Context {W : Type} `{FdTable W}.

(** ** Flags *)

Lemma has_cloexec arg : has (if has arg FD_CLOEXEC then FDFLAGSEXT_CLOEXEC else 0) FDFLAGSEXT_CLOEXEC = has arg FD_CLOEXEC.
Proof. by destruct (has arg FD_CLOEXEC). Qed.

Lemma access_mode_bits rights : Z.land (access_mode rights) 4095 = 0 /\ 0 <= access_mode rights /\
  Z.land (access_mode rights) O_ACCMODE = access_mode rights.
Proof. unfold access_mode. by destruct (has rights _), (has rights _). Qed.

Lemma small_flags x : 0 <= x < 32 -> Z.land x 4095 = x /\ Z.land x O_ACCMODE = 0.
Proof.
  intros Hx. change 4095 with (Z.ones 12). rewrite Z.land_ones, Z.mod_small by lia. split; [done|].
  rewrite <- (Z.mod_small x (2 ^ 5)), <- Z.land_ones, <- Z.land_assoc by lia. change (Z.land (Z.ones 5) O_ACCMODE) with 0.
  apply Z.land_0_r.
Qed.

(** A call that ends like [fcntl]: 0 and the table [T d] with the descriptor
    [d] changed, or -1 and an error. *)
Definition changes (fd : Z) (f : desc -> desc) (e : env W) (r : Z) (e' : env W) : Prop :=
  (r = 0 /\ exists d, fds (world e) !! fd = Some d /\ fds (world e') = <[fd := f d]> (fds (world e))) \/
  (r = -1 /\ fds (world e') = fds (world e) /\ errno e' <> 0).

Lemma setfd_spec fd arg e : exists r e', fcntl fd F_SETFD arg e = Ret (r, e') /\
  changes fd (fun d => Desc (d_flags d) (has arg FD_CLOEXEC) (d_rights d)) e r e'.
Proof.
  unfold fcntl. change (F_SETFD =? F_GETFD) with false. change (F_SETFD =? F_SETFD) with true. cbv iota.
  unfold mbind, M_bind, host. destruct (wasi_fd_fdflags_set _ _ _) as [er w'] eqn:Hc. apply fdflags_set_fds in Hc.
  rewrite has_cloexec in Hc. unfold ret_errno. destruct (er =? 0) eqn:E; simpl.
  - eexists 0, _. split; [done|]. left. done.
  - eexists (-1), _. split; [done|]. right. split_and!; [done|exact Hc|]. by apply Z.eqb_neq.
Qed.

Lemma setfl_spec fd arg e : exists r e', fcntl fd F_SETFL arg e = Ret (r, e') /\
  changes fd (fun d => Desc (Z.land arg 4095) (d_cloexec d) (d_rights d)) e r e'.
Proof.
  unfold fcntl. change (F_SETFL =? F_GETFD) with false. change (F_SETFL =? F_SETFD) with false.
  change (F_SETFL =? F_GETFL) with false. change (F_SETFL =? F_SETFL) with true. cbv iota.
  unfold mbind, M_bind, host. destruct (wasi_fd_fdstat_set_flags _ _ _) as [er w'] eqn:Hc. apply fdstat_set_fds in Hc.
  unfold ret_errno. destruct (er =? 0) eqn:E; simpl.
  - eexists 0, _. split; [done|]. left. done.
  - eexists (-1), _. split; [done|]. right. split_and!; [done|exact Hc|]. by apply Z.eqb_neq.
Qed.

Lemma getfl_spec fd arg e : exists r e', fcntl fd F_GETFL arg e = Ret (r, e') /\ fds (world e') = fds (world e) /\
  ((exists d, fds (world e) !! fd = Some d /\ r = Z.lor (d_flags d) (access_mode (d_rights d)) /\ 0 <= r /\ errno e' = errno e) \/
   (r = -1 /\ errno e' <> 0)).
Proof.
  unfold fcntl. change (F_GETFL =? F_GETFD) with false. change (F_GETFL =? F_SETFD) with false.
  change (F_GETFL =? F_GETFL) with true. cbv iota.
  unfold mbind, M_bind, host. destruct (wasi_fd_fdstat_get _ _) as [[er st] w'] eqn:Hc.
  apply fdstat_get_fds in Hc as [Hw Hd]. destruct (er =? 0) eqn:E; simpl.
  - destruct Hd as (d & Hd & Hf & Hr); [by apply Z.eqb_eq|]. eexists _, _. split; [done|]. split; [done|]. left.
    exists d. rewrite Hf, Hr. split_and!; [done..| |done]. apply Z.lor_nonneg. split; [apply fds_flags in Hd; lia|apply access_mode_bits].
  - eexists (-1), _. split; [done|]. split; [done|]. right. split; [done|]. by apply Z.eqb_neq.
Qed.

Lemma getfd_spec fd arg e r e' : fcntl fd F_GETFD arg e = Ret (r, e') -> fds (world e') = fds (world e) /\
  (r <> -1 -> exists d, fds (world e) !! fd = Some d /\ r = if d_cloexec d then FD_CLOEXEC else 0).
Proof.
  unfold fcntl. change (F_GETFD =? F_GETFD) with true. cbv iota.
  unfold mbind, M_bind, host. destruct (wasi_fd_fdflags_get _ _) as [[er fl] w'] eqn:Hc.
  apply fdflags_get_fds in Hc as [Hw Hd]. destruct (er =? 0) eqn:E; simpl; intros [= <- <-].
  - split; [done|]. intros _. destruct Hd as (d & Hd & Hf); [by apply Z.eqb_eq|]. exists d. by rewrite Hf.
  - done.
Qed.

(** Adding flags to what [F_GETFL] returned. *)
Lemma getfl_or flags rights more : 0 <= flags < 32 -> 0 <= more < 32 ->
  Z.land (Z.lor (Z.lor flags (access_mode rights)) more) 4095 = Z.lor flags more.
Proof.
  intros Hf Hm. rewrite !Z.land_lor_distr_l. rewrite (proj1 (small_flags flags Hf)), (proj1 (small_flags more Hm)).
  by rewrite (proj1 (access_mode_bits rights)), Z.lor_0_r.
Qed.

(** ** Pipes *)

(** A call that makes a pipe or leaves the table as it was. *)
Definition pipe_result (e : env W) (f : Z -> desc) (r : Z * option (Z * Z)) (e' : env W) : Prop :=
  (exists fd1 fd2 r1 r2, r = (0, Some (fd1, fd2)) /\ fd1 <> fd2 /\
     fds (world e) !! fd1 = None /\ fds (world e) !! fd2 = None /\
     fds (world e') = <[fd1 := f r1]> (<[fd2 := f r2]> (fds (world e)))) \/
  (r = (-1, None) /\ fds (world e') = fds (world e) /\ errno e' <> 0).

(** The table with both ends. *)
Definition with_pipe (t : gmap Z desc) (fd1 fd2 : Z) (d1 d2 : desc) : gmap Z desc := <[fd1 := d1]> (<[fd2 := d2]> t).

Lemma close_world fd (e : env W) : exists r e', close fd e = Ret (r, e') /\ fds (world e') = delete fd (fds (world e)).
Proof.
  unfold close, mbind, M_bind, host. destruct (wasi_fd_close _ _) as [er w'] eqn:Hc. apply close_fds in Hc.
  destruct (er =? 0); eexists _, _; split; done.
Qed.

Lemma delete_with_pipe t fd1 fd2 d1 d2 : fd1 <> fd2 -> t !! fd1 = None -> t !! fd2 = None ->
  delete fd2 (delete fd1 (with_pipe t fd1 fd2 d1 d2)) = t.
Proof.
  intros Hne Hn1 Hn2. unfold with_pipe. rewrite delete_insert_id by (by rewrite lookup_insert_ne by done). by rewrite delete_insert_id.
Qed.

Lemma pipe_failed_spec fd1 fd2 d1 d2 t (e : env W) : fd1 <> fd2 -> t !! fd1 = None -> t !! fd2 = None ->
  fds (world e) = with_pipe t fd1 fd2 d1 d2 ->
  exists e', pipe_failed fd1 fd2 e = Ret ((-1, None), e') /\ fds (world e') = t /\ errno e' = errno e.
Proof.
  intros Hne Hn1 Hn2 Ht. unfold pipe_failed.
  destruct (close_world fd1 e) as (r1 & e1 & Hc1 & Hw1). destruct (close_world fd2 e1) as (r2 & e2 & Hc2 & Hw2).
  eexists. split.
  { rewrite (bind_Ret _ _ e (errno e) e) by done. rewrite (bind_Ret _ _ _ _ _ Hc1), (bind_Ret _ _ _ _ _ Hc2). reflexivity. }
  split; [|done]. simpl. by rewrite Hw2, Hw1, Ht, delete_with_pipe.
Qed.

Lemma with_pipe_change t fd1 fd2 d1 d2 f (e : env W) r e' : fd1 <> fd2 ->
  fds (world e) = with_pipe t fd1 fd2 d1 d2 ->
  (changes fd1 f e r e' -> (r = 0 /\ fds (world e') = with_pipe t fd1 fd2 (f d1) d2) \/
     (r = -1 /\ fds (world e') = with_pipe t fd1 fd2 d1 d2 /\ errno e' <> 0)) /\
  (changes fd2 f e r e' -> (r = 0 /\ fds (world e') = with_pipe t fd1 fd2 d1 (f d2)) \/
     (r = -1 /\ fds (world e') = with_pipe t fd1 fd2 d1 d2 /\ errno e' <> 0)).
Proof.
  intros Hne Ht. unfold changes. rewrite Ht. unfold with_pipe.
  split; (intros [(-> & d & Hd & Hw)|(-> & Hw & He)]; [left|right; done]); (split; [done|]).
  - rewrite lookup_insert_eq in Hd. injection Hd as <-. by rewrite Hw, insert_insert_eq.
  - rewrite lookup_insert_ne, lookup_insert_eq in Hd by done. injection Hd as <-.
    rewrite Hw, insert_insert_ne by done. by rewrite insert_insert_eq.
Qed.

(** The same call on both ends. *)
Lemma either_fails_spec t fd1 fd2 d1 d2 (a b : M (env W) Z) f1 f2 (e : env W) : fd1 <> fd2 ->
  (forall e, exists r e', a e = Ret (r, e') /\ changes fd1 f1 e r e') ->
  (forall e, exists r e', b e = Ret (r, e') /\ changes fd2 f2 e r e') ->
  fds (world e) = with_pipe t fd1 fd2 d1 d2 ->
  exists bad e', either_fails a b e = Ret (bad, e') /\
    if bad then errno e' <> 0 /\ exists d1' d2', fds (world e') = with_pipe t fd1 fd2 d1' d2'
    else fds (world e') = with_pipe t fd1 fd2 (f1 d1) (f2 d2).
Proof.
  intros Hne Ha Hb Ht. unfold either_fails. destruct (Ha e) as (r & e1 & Ha1 & Hc). rewrite (bind_Ret _ _ _ _ _ Ha1).
  apply (with_pipe_change _ _ _ _ _ _ _ _ _ Hne Ht) in Hc as [[-> Hw]|(-> & Hw & He)]; cbn [Z.ltb Z.compare].
  - destruct (Hb e1) as (r2 & e2 & Hb2 & Hc2). rewrite (bind_Ret _ _ _ _ _ Hb2).
    apply (with_pipe_change _ _ _ _ _ _ _ _ _ Hne Hw) in Hc2 as [[-> Hw2]|(-> & Hw2 & He)].
    + by eexists false, _.
    + exists true. eexists. split; [done|]. split; [done|]. eauto.
  - exists true. eexists. split; [done|]. split; [done|]. eauto.
Qed.

Lemma pipe2_nonblock_spec t fd1 fd2 d1 d2 flag (e : env W) : fd1 <> fd2 -> t !! fd1 = None -> t !! fd2 = None ->
  d_flags d1 = 0 -> d_flags d2 = 0 -> fds (world e) = with_pipe t fd1 fd2 d1 d2 ->
  exists r e', pipe2_nonblock fd1 fd2 flag e = Ret (r, e') /\
    ((r = (0, Some (fd1, fd2)) /\
      let fl := if has flag O_NONBLOCK then O_NONBLOCK else 0 in
      fds (world e') = with_pipe t fd1 fd2 (Desc fl (d_cloexec d1) (d_rights d1)) (Desc fl (d_cloexec d2) (d_rights d2))) \/
     (r = (-1, None) /\ fds (world e') = t /\ errno e' <> 0)).
Proof.
  intros Hne Hn1 Hn2 Hf1 Hf2 Ht. unfold pipe2_nonblock. destruct (has flag O_NONBLOCK).
  2: { eexists _, _. split; [done|]. left. split; [done|]. simpl. rewrite Ht, <- Hf1, <- Hf2 at 1. by destruct d1, d2; simplify_eq/=. }
  destruct (getfl_spec fd1 0 e) as (v1 & e1 & Hg1 & Hw1 & Hv1). rewrite (bind_Ret _ _ _ _ _ Hg1).
  destruct (getfl_spec fd2 0 e1) as (v2 & e2 & Hg2 & Hw2 & Hv2). rewrite (bind_Ret _ _ _ _ _ Hg2).
  rewrite Ht in Hw1, Hv1. rewrite Hw1 in Hw2, Hv2. unfold with_pipe in Hv1, Hv2.
  rewrite lookup_insert_eq in Hv1. rewrite lookup_insert_ne, lookup_insert_eq in Hv2 by done.
  destruct ((v1 <? 0) || (v2 <? 0)) eqn:Hneg.
  - assert (He : errno e2 <> 0) by (destruct Hv2 as [(? & ? & ? & ? & ->)|[_ ?]], Hv1 as [(? & ? & ? & ? & _)|[_ ?]]; [lia|done..]).
    destruct (pipe_failed_spec fd1 fd2 d1 d2 t e2 Hne Hn1 Hn2 Hw2) as (e' & Hp & Hw & He').
    eexists _, _. split; [exact Hp|]. right. split_and!; [done..|congruence].
  - destruct Hv1 as [(d & Hd & Hv1 & _)|[-> _]]; [|done]. injection Hd as <-.
    destruct Hv2 as [(d & Hd & Hv2 & _)|[-> _]]; [|lia]. injection Hd as <-.
    assert (Hfl : forall d v, d_flags d = 0 -> v = Z.lor (d_flags d) (access_mode (d_rights d)) -> Z.land (Z.lor v O_NONBLOCK) 4095 = O_NONBLOCK).
    { intros d v Hd ->. rewrite Hd, getfl_or by (unfold O_NONBLOCK; lia). done. }
    destruct (either_fails_spec t fd1 fd2 d1 d2 _ _ _ _ e2 Hne (setfl_spec fd1 (Z.lor v1 O_NONBLOCK)) (setfl_spec fd2 (Z.lor v2 O_NONBLOCK)) Hw2)
      as (bad & e3 & Hb & Hw3). rewrite (bind_Ret _ _ _ _ _ Hb). destruct bad.
    + destruct Hw3 as (He & d1' & d2' & Hw3).
      destruct (pipe_failed_spec fd1 fd2 d1' d2' t e3 Hne Hn1 Hn2 Hw3) as (e' & Hp & Hw & He').
      eexists _, _. split; [exact Hp|]. right. split_and!; [done..|congruence].
    + eexists _, _. split; [done|]. left. split; [done|]. by rewrite Hw3, (Hfl d1 v1), (Hfl d2 v2).
Qed.

(** C20: [pipe2] makes a pipe whole or not at all.  When it returns 0 the table
    has two new descriptors, both close-on-exec exactly when [O_CLOEXEC] is
    asked for and both with the flags [O_NONBLOCK] or none, and nothing else
    has changed.  When it returns -1, whichever of its calls has failed, the
    table is what it was, and [errno] is set. *)
Theorem pipe2_spec flag (e : env W) : exists r e', pipe2 flag e = Ret (r, e') /\
  pipe_result e (fun rights => Desc (if has flag O_NONBLOCK then O_NONBLOCK else 0) (has flag O_CLOEXEC) rights) r e'.
Proof.
  unfold pipe2. destruct (wasi_fd_pipe (world e)) as [[[er fd1] fd2] w1] eqn:Hp.
  rewrite (bind_Ret _ _ e (er, fd1, fd2) (Env (errno e) w1)) by (unfold host; by rewrite Hp).
  apply pipe_fds in Hp. destruct (er =? 0) eqn:E; cbn [negb].
  2: { eexists _, _. split; [done|]. right. split_and!; [done|exact Hp|]. by apply Z.eqb_neq. }
  destruct Hp as (Hne & Hn1 & Hn2 & ra & rb & Ht).
  assert (Hend : forall c (e1 : env W), fds (world e1) = with_pipe (fds (world e)) fd1 fd2 (Desc 0 c ra) (Desc 0 c rb) ->
    exists r e', pipe2_nonblock fd1 fd2 flag e1 = Ret (r, e') /\
      pipe_result e (fun rights => Desc (if has flag O_NONBLOCK then O_NONBLOCK else 0) c rights) r e').
  { intros c e1 He1. destruct (pipe2_nonblock_spec (fds (world e)) fd1 fd2 (Desc 0 c ra) (Desc 0 c rb) flag e1) as (r & e' & Hr & Hres); [done..|].
    exists r, e'. split; [exact Hr|]. destruct Hres as [[-> Hw]|Hres]; [left|by right].
    exists fd1, fd2, ra, rb. done. }
  destruct (has flag O_CLOEXEC); [|by apply Hend].
  destruct (either_fails_spec (fds (world e)) fd1 fd2 _ _ _ _ _ _ (Env (errno e) w1) Hne (setfd_spec fd1 FD_CLOEXEC) (setfd_spec fd2 FD_CLOEXEC) Ht)
    as (bad & e2 & Hb & Hw2).
  rewrite (bind_Ret _ _ _ _ _ Hb). destruct bad; [|by apply Hend].
  destruct Hw2 as (He & d1' & d2' & Hw2).
  destruct (pipe_failed_spec fd1 fd2 d1' d2' (fds (world e)) e2 Hne Hn1 Hn2 Hw2) as (e' & Hf & Hw & He').
  eexists _, _. split; [exact Hf|]. right. split_and!; [done..|congruence].
Qed.

(** The flags of a descriptor.  [F_GETFD] returns what [F_SETFD] has set;
    setting with [F_SETFL] what [F_GETFL] returned together with more flags
    adds exactly these, the access mode is left out; and [FIONBIO] sets or
    clears the non-blocking flag alone.  No other descriptor changes. *)
Theorem fcntl_flags fd (e : env W) :
  (forall arg e1 v e2, fcntl fd F_SETFD arg e = Ret (0, e1) -> fcntl fd F_GETFD 0 e1 = Ret (v, e2) -> v <> -1 ->
     v = (if has arg FD_CLOEXEC then FD_CLOEXEC else 0) /\
     forall fd', fd' <> fd -> fds (world e2) !! fd' = fds (world e) !! fd') /\
  (forall v e1 more e2, fcntl fd F_GETFL 0 e = Ret (v, e1) -> 0 <= v -> 0 <= more < 32 ->
     fcntl fd F_SETFL (Z.lor v more) e1 = Ret (0, e2) ->
     exists d, fds (world e) !! fd = Some d /\ Z.land v O_ACCMODE = access_mode (d_rights d) /\
       fds (world e2) = <[fd := Desc (Z.lor (d_flags d) more) (d_cloexec d) (d_rights d)]> (fds (world e))) /\
  (forall on e1, ioctl_fionbio fd on e = Ret (0, e1) ->
     exists d, fds (world e) !! fd = Some d /\
       fds (world e1) = <[fd := Desc (if on =? 0 then Z.clearbit (d_flags d) 2 else Z.setbit (d_flags d) 2) (d_cloexec d) (d_rights d)]> (fds (world e))).
Proof.
  split_and!.
  - intros arg e1 v e2 Hs Hg Hv. destruct (setfd_spec fd arg e) as (r & e' & Hs' & Hc). rewrite Hs in Hs'. simplify_eq.
    destruct Hc as [(_ & d & Hd & Hw)|[? _]]; [|done]. apply getfd_spec in Hg as [Hw2 Hg].
    destruct (Hg Hv) as (d' & Hd' & ->). rewrite Hw, lookup_insert_eq in Hd'. simplify_eq/=. split; [done|].
    intros fd' Hne. by rewrite Hw2, Hw, lookup_insert_ne.
  - intros v e1 more e2 Hg Hv Hm Hs. destruct (getfl_spec fd 0 e) as (r & e' & Hg' & Hw & Hr). rewrite Hg in Hg'. simplify_eq.
    destruct Hr as [(d & Hd & -> & _)|[-> _]]; [|done].
    destruct (setfl_spec fd (Z.lor (Z.lor (d_flags d) (access_mode (d_rights d))) more) e') as (r & e3 & Hs' & Hc).
    rewrite Hs in Hs'. simplify_eq. destruct Hc as [(_ & d' & Hd' & Hw2)|[? _]]; [|done].
    rewrite Hw, Hd in Hd'. simplify_eq. pose proof (fds_flags _ _ _ Hd) as Hf. exists d'. split; [done|]. split.
    + by rewrite Z.land_lor_distr_l, (proj2 (small_flags _ Hf)), Z.lor_0_l, (proj2 (proj2 (access_mode_bits _))).
    + by rewrite Hw2, Hw, getfl_or.
  - intros on e1. unfold ioctl_fionbio, mbind, M_bind, host. destruct (wasi_fd_fdstat_get _ _) as [[er st] w'] eqn:Hg.
    apply fdstat_get_fds in Hg as [Hw Hd]. destruct (er =? 0) eqn:E; [|done]. apply Z.eqb_eq in E.
    destruct (Hd E) as (d & Hd' & Hf & _). cbn [negb]. cbn beta iota zeta. simpl world.
    destruct (wasi_fd_fdstat_set_flags _ _ _) as [er2 w2] eqn:Hs. apply fdstat_set_fds in Hs.
    unfold ret_errno. destruct (er2 =? 0); [|done]. intros [= <-]. destruct Hs as (d' & Hd2 & Hw2).
    rewrite Hw, Hd' in Hd2. simplify_eq. exists d'. split; [done|]. simpl. rewrite Hw2, Hw, Hf.
    unfold Z.clearbit, Z.setbit. rewrite Z.ldiff_land. by destruct (on =? 0).
Qed.

End FdProofs.
