(* ===== verification/Sock.v ===== *)
(** Sockets ([cloudlibc/src/libc/sys/socket], [common/net.h]): addresses are
    converted between [struct sockaddr], a row of bytes of the caller's, and the
    host's tagged union. *)
From S2P Require Import Prelude.
From S2P Require Import Wasi.
From S2P Require Import Unistd.
From S2P Require Import Paths.
From S2P Require Import TimeConv.
From S2P Require Import At.
From S2P Require Import Poll.
From S2P Require Import Fd.

Definition ENOPROTOOPT : Z := 50.
Definition ENOTSOCK : Z := 57.

(** ** Constants ([__header_sys_socket.h], [__header_netinet_in.h]) *)
Definition AF_UNSPEC : Z := 0.
Definition AF_INET : Z := 1.
Definition AF_INET6 : Z := 2.
Definition AF_UNIX : Z := 3.

Definition SOCK_STREAM : Z := 1.
Definition SOCK_DGRAM : Z := 2.
Definition SOCK_RAW : Z := 3.
Definition SOCK_SEQPACKET : Z := 4.
Definition SOCK_NONBLOCK : Z := 16384.
Definition SOCK_CLOEXEC : Z := 8192.
Definition IPPROTO_TCP : Z := 6.
Definition IPPROTO_UDP : Z := 17.
Definition IPPROTO_IPV6 : Z := 41.
Definition IPV6_V6ONLY : Z := 26.
Definition TCP_NODELAY : Z := 1.

Definition SHUT_RD : Z := 1.
Definition SHUT_WR : Z := 2.
Definition SHUT_RDWR : Z := Z.lor SHUT_RD SHUT_WR.
Definition MSG_PEEK : Z := 2.
Definition MSG_TRUNC : Z := 32.
Definition MSG_DONTWAIT : Z := 64.
Definition MSG_WAITALL : Z := 256.

Definition SIFLAGS_SEND_DONT_WAIT : Z := 1.
Definition RIFLAGS_RECV_PEEK : Z := 1.
Definition RIFLAGS_RECV_WAITALL : Z := 2.
Definition RIFLAGS_RECV_DATA_TRUNCATED : Z := 4.
Definition RIFLAGS_RECV_DONT_WAIT : Z := 8.

(** ** Addresses

    [struct __wasi_addr_port_t]: the 4, 16 and 108 bytes of an address as a
    list, the flow information and scope of the second in halves. *)
Inductive wasi_addr :=
  | Inet4 (port : Z) (addr : list Z)
  | Inet6 (port : Z) (addr : list Z) (flow_info1 flow_info0 scope_id1 scope_id0 : Z)
  | UnixAddr (path : list Z)
  | OtherAddr (tag : Z).

Definition SIZEOF_SOCKADDR : Z := 16.
Definition SIZEOF_SOCKADDR_IN : Z := 16.
Definition SIZEOF_SOCKADDR_IN6 : Z := 32.
Definition OFFSETOF_SUN_PATH : Z := 2.
Definition SIZEOF_SUN_PATH : nat := 108.

(** [htons], [ntohs]. *)
Definition swap16 (x : Z) : Z := x mod 256 * 256 + x / 256.

Definition field (l : list Z) (off n : nat) : Z := le (take n (drop off l)).

Class WasiSock (W : Type) := {
  wasi_sock_open : Z -> Z -> Z -> W -> Z * Z * W;
  wasi_sock_pair : Z -> Z -> Z -> W -> Z * Z * Z * W;
  wasi_sock_bind : Z -> wasi_addr -> W -> Z * W;
  wasi_sock_connect : Z -> wasi_addr -> W -> Z * W;
  wasi_sock_listen : Z -> Z -> W -> Z * W;
  wasi_sock_accept_v2 : Z -> Z -> W -> Z * Z * wasi_addr * W;
  wasi_sock_addr_local : Z -> W -> Z * wasi_addr * W;
  wasi_sock_addr_peer : Z -> W -> Z * wasi_addr * W;
  wasi_sock_shutdown : Z -> Z -> W -> Z * W;
  wasi_sock_send : Z -> list (list Z) -> Z -> W -> Z * Z * W;
  wasi_sock_send_to : Z -> list (list Z) -> Z -> wasi_addr -> W -> Z * Z * W;
  wasi_sock_recv : Z -> list Z -> Z -> W -> Z * list Z * Z * W;
  wasi_sock_recv_from : Z -> list Z -> Z -> W -> Z * list Z * Z * wasi_addr * W;
  wasi_sock_send_file : Z -> Z -> Z -> Z -> W -> Z * Z * W;
  wasi_sock_get_opt_flag : Z -> Z -> W -> Z * bool * W;
  wasi_sock_set_opt_flag : Z -> Z -> bool -> W -> Z * W;
  wasi_sock_get_opt_size : Z -> Z -> W -> Z * Z * W;
  wasi_sock_set_opt_size : Z -> Z -> Z -> W -> Z * W;
  wasi_sock_get_opt_time : Z -> Z -> W -> Z * option Z * W;
  wasi_sock_set_opt_time : Z -> Z -> option Z -> W -> Z * W }.

(** [sockaddr_to_wasi]: [addr] are the [addrlen] bytes of the caller's
    address.  The error is 0 or -1, which becomes 65535 in the 16 bits of a
    [__wasi_errno_t]. *)
Definition sockaddr_to_wasi (addr : list Z) : option (Z * wasi_addr) :=
  if (length addr <? 2)%nat then None else        (* reads [sa_family] *)
  let addrlen := Z.of_nat (length addr) in
  let family := field addr 0 2 in
  let refused := Some (65535, OtherAddr 0) in
  if (family =? AF_INET) && (SIZEOF_SOCKADDR_IN <=? addrlen) then
    Some (0, Inet4 (swap16 (field addr 2 2)) (take 4 (drop 4 addr)))
  else if (family =? AF_INET6) && (SIZEOF_SOCKADDR_IN6 <=? addrlen) then
    let flowinfo := field addr 4 4 in
    let scope := field addr 24 4 in
    Some (0, Inet6 (swap16 (field addr 2 2)) (take 16 (drop 8 addr))
            (Z.shiftr flowinfo 16) (Z.land flowinfo 65535) (Z.shiftr scope 16) (Z.land scope 65535))
  else if (family =? AF_UNIX) && (OFFSETOF_SUN_PATH + 1 <=? addrlen) then
    let pathlen := addrlen - OFFSETOF_SUN_PATH in
    if 107 <? pathlen then refused
    else Some (0, UnixAddr (take SIZEOF_SUN_PATH (drop 2 addr ++ replicate SIZEOF_SUN_PATH 0)))
  else refused.

(** The bytes that the code leaves as they are on its stack: [sin_zero], and
    the end of [struct sockaddr_in6]. *)
Record junk := Junk { sin_zero : list Z; in6_pad : list Z }.

(** [addr4], [addr6]; the halves are shifted as [int]s, which must not reach
    the sign. *)
Definition sockaddr_in (j : junk) (port : Z) (addr : list Z) : list Z :=
  lb 2 AF_INET ++ lb 2 port ++ addr ++ sin_zero j.

Definition join (h l : Z) : option Z := if h <? 2 ^ 15 then Some (Z.lor (Z.shiftl h 16) l) else None.

Definition sockaddr_in6 (j : junk) (port : Z) (addr : list Z) (flow_info scope_id : Z) : list Z :=
  lb 2 AF_INET6 ++ lb 2 port ++ lb 4 flow_info ++ addr ++ lb 4 scope_id ++ in6_pad j.

(** [memset(addr, 0, *addrlen)], then [memcpy] of what fits. *)
Definition stored_addr (addrlen : nat) (a : list Z) : list Z := take addrlen (a ++ replicate addrlen 0).

(** [wasi_to_sockaddr] with an address to fill, of [addrlen] bytes: its bytes
    and the new [*addrlen].  The address [addrun] is not copied to it. *)
Definition fill_sockaddr (j : junk) (need_revert : bool) (a : wasi_addr) (addrlen : nat) : option (list Z * Z) :=
  let port p := if need_revert then swap16 p else p in
  match a with
  | Inet4 p addr => Some (stored_addr addrlen (sockaddr_in j (port p) addr), SIZEOF_SOCKADDR_IN)
  | Inet6 p addr f1 f0 s1 s0 =>
      flow ← join f1 f0;
      scope ← join s1 s0;
      Some (stored_addr addrlen (sockaddr_in6 j (port p) addr flow scope), SIZEOF_SOCKADDR_IN6)
  | UnixAddr path =>
      Some (replicate addrlen 0, OFFSETOF_SUN_PATH + Z.of_nat (length (c_str (take 107 path))))
  | OtherAddr _ =>
      if (addrlen <? 2)%nat then None else Some (replicate addrlen 0, SIZEOF_SOCKADDR)
  end.

(** ** State

    [wasi_to_sockaddr] is a static inline function of a header: each file that
    includes it has its own variables [tested] and [need_revert] ([None] when
    not tested). *)
Inductive cfile := Accept_c | Getsockname_c | Getpeername_c | Recvfrom_c | Recvmsg_c.
#[export] Instance cfile_eq_dec : EqDecision cfile.
Proof. solve_decision. Defined.

Record sstate (W : Type) := SState { tested : cfile -> option bool; senv : env W }.
Arguments SState {W} _ _.
Arguments tested {W} _.
Arguments senv {W} _.

Section Sock.
Context {W : Type} `{WasiFd W, WasiPath W, WasiFile W, WasiSock W}.
Variable stack : junk.

Abbreviation SM := (M (sstate W)).

Definition scall {A} (m : M (env W) A) : SM A := fun s =>
  match m (senv s) with
  | Ret (a, e) => Ret (a, SState (tested s) e)
  | Stop r => Stop r
  end.

(** ** Making sockets *)

(** TCP and UDP are the defaults. *)
Definition default_protocol (socktype protocol : Z) : Z :=
  if negb (protocol =? 0) then protocol
  else if socktype =? SOCK_STREAM then IPPROTO_TCP
  else if socktype =? SOCK_DGRAM then IPPROTO_UDP
  else protocol.

(** The error that [fdstat_get] or [fdstat_set_flags] reports. *)
Definition set_nonblock (fd : Z) : M (env W) Z :=
  '(error, fds) ← host (wasi_fd_fdstat_get fd);
  if error =? 0 then host (wasi_fd_fdstat_set_flags fd (Z.lor (fs_flags fds) FDFLAGS_NONBLOCK)) else mret error.

Definition socket_failed (fd error : Z) : M (env W) Z := close fd;; set_errno error;; mret (-1).

Definition socket_cloexec (fd flags : Z) : M (env W) Z :=
  if has flags SOCK_CLOEXEC then
    error ← host (wasi_fd_fdflags_set fd FDFLAGSEXT_CLOEXEC);
    if negb (error =? 0) then socket_failed fd error else mret fd
  else mret fd.

Definition SOCK_FLAGS : Z := Z.lor SOCK_NONBLOCK SOCK_CLOEXEC.

Definition socket (domain ty protocol : Z) : M (env W) Z :=
  let flags := Z.land ty SOCK_FLAGS in
  let socktype := Z.land ty (Z.lnot SOCK_FLAGS) in
  '(error, fd) ← host (wasi_sock_open domain socktype (default_protocol socktype protocol));
  if negb (error =? 0) then failed error else
  if has flags SOCK_NONBLOCK then
    error ← set_nonblock fd;
    if negb (error =? 0) then socket_failed fd error else socket_cloexec fd flags
  else socket_cloexec fd flags.

Definition socketpair_set_flags (fd flags : Z) : M (env W) Z :=
  let cloexec := if has flags SOCK_CLOEXEC then host (wasi_fd_fdflags_set fd FDFLAGSEXT_CLOEXEC) else mret 0 in
  if has flags SOCK_NONBLOCK then
    error ← set_nonblock fd;
    if negb (error =? 0) then mret error else cloexec
  else cloexec.

(** The result and what is stored in the vector. *)
Definition socketpair (domain ty protocol : Z) : M (env W) (Z * option (Z * Z)) :=
  let flags := Z.land ty SOCK_FLAGS in
  let socktype := Z.land ty (Z.lnot SOCK_FLAGS) in
  '(error, fd1, fd2) ← host (wasi_sock_pair domain socktype (default_protocol socktype protocol));
  if negb (error =? 0) then set_errno error;; mret (-1, None) else
  error ← socketpair_set_flags fd1 flags;
  error ← (if error =? 0 then socketpair_set_flags fd2 flags else mret error);
  if negb (error =? 0) then
    close fd1;; close fd2;; set_errno error;; mret (-1, None)
  else mret (0, Some (fd1, fd2)).

(** ** Names *)

Definition with_sockaddr (addr : list Z) (k : wasi_addr -> M (env W) Z) : M (env W) Z :=
  match sockaddr_to_wasi addr with
  | None => halt Undefined
  | Some (error, a) => if negb (error =? 0) then failed error else k a
  end.

Definition bind (socket : Z) (addr : list Z) : M (env W) Z :=
  with_sockaddr addr (fun a => error ← host (wasi_sock_bind socket a); ret_errno error).

Definition connect (socket : Z) (addr : list Z) : M (env W) Z :=
  with_sockaddr addr (fun a => error ← host (wasi_sock_connect socket a); ret_errno error).

Definition listen (socket backlog : Z) : M (env W) Z :=
  error ← host (wasi_sock_listen socket backlog); ret_errno error.

Definition shutdown (socket how : Z) : M (env W) Z :=
  if negb (how =? SHUT_RD) && negb (how =? SHUT_WR) && negb (how =? SHUT_RDWR) then failed EINVAL else
  error ← host (wasi_sock_shutdown socket how); ret_errno error.

(** Port 9000 and a zero address. *)
Definition probe_addr : list Z := lb 2 AF_INET ++ lb 2 9000 ++ replicate 12 0.

(** [local_addr.u.inet4.port], whatever the tag. *)
Definition port_field (a : wasi_addr) : Z :=
  match a with
  | Inet4 p _ => p
  | Inet6 p _ _ _ _ _ => p
  | UnixAddr path => le (take 2 path)
  | OtherAddr _ => 0
  end.

Definition is_wasi_port_ok : M (env W) bool :=
  sock ← socket AF_INET SOCK_STREAM 0;
  if sock <? 0 then mret true else
  r ← bind sock probe_addr;
  if r <? 0 then close sock;; mret true else
  '(error, local_addr) ← host (wasi_sock_addr_local sock);
  if negb (error =? 0) then close sock;; mret true else
  close sock;;
  mret (port_field local_addr =? 10275).

(** [wasi_to_sockaddr] in the file [f]; [addrlen] is [None] for a null
    address, to which nothing is done. *)
Definition wasi_to_sockaddr (f : cfile) (a : wasi_addr) (addrlen : option nat) : SM (Z * option (list Z * Z)) :=
  match addrlen with
  | None => mret (-1, None)
  | Some n =>
      s ← get;
      need_revert ←
        match tested s f with
        | Some b => mret b
        | None =>
            b ← scall is_wasi_port_ok;
            modify (fun s => SState (fun g => if decide (g = f) then Some b else tested s g) (senv s));;
            mret b
        end;
      match fill_sockaddr stack need_revert a n with
      | Some r => mret (0, Some r)
      | None => halt Undefined
      end
  end.

(** [socket], -1 or 0 with the address that is filled. *)
Definition accept4 (socket : Z) (addrlen : option nat) (flags : Z) : SM (Z * option (list Z * Z)) :=
  if has flags (Z.lnot SOCK_FLAGS) then scall (set_errno EINVAL);; mret (-1, None) else
  '(error, ret, peer_addr) ← scall (host (wasi_sock_accept_v2 socket (if has flags SOCK_NONBLOCK then FDFLAGS_NONBLOCK else 0)));
  if negb (error =? 0) then scall (set_errno error);; mret (-1, None) else
  '(_, r) ← wasi_to_sockaddr Accept_c peer_addr addrlen;
  mret (ret, r).

Definition accept (socket : Z) (addrlen : option nat) : SM (Z * option (list Z * Z)) := accept4 socket addrlen 0.

(** Not a socket: two bytes of family. *)
Definition getsockname (socket : Z) (addrlen : nat) : SM (Z * option (list Z * Z)) :=
  '(error, local_addr) ← scall (host (wasi_sock_addr_local socket));
  if error =? ENOTSOCK then mret (0, Some (lb 2 AF_UNIX, 2)) else
  if negb (error =? 0) then scall (set_errno error);; mret (-1, None) else
  '(_, r) ← wasi_to_sockaddr Getsockname_c local_addr (Some addrlen);
  mret (0, r).

Definition getpeername (socket : Z) (addrlen : nat) : SM (Z * option (list Z * Z)) :=
  '(error, peer_addr) ← scall (host (wasi_sock_addr_peer socket));
  if negb (error =? 0) then scall (set_errno error);; mret (-1, None) else
  '(_, r) ← wasi_to_sockaddr Getpeername_c peer_addr (Some addrlen);
  mret (0, r).

End Sock.

(** * Transfers over sockets and socket options ([sys/socket/send.c], [sendto.c],
    [sendmsg.c], [sendfile.c], [recv.c], [recvfrom.c], [recvmsg.c],
    [getsockopt.c], [setsockopt.c]). *)

(** ** Options ([__header_sys_socket.h], [api_wasix.h]) *)
Definition SOL_SOCKET : Z := 2147483647.
Definition SO_REUSEPORT : Z := 1.
Definition SO_REUSEADDR : Z := 2.
Definition SO_NODELAY : Z := 3.
Definition SO_DONTROUTE : Z := 4.
Definition SO_ONLYV6 : Z := 5.
Definition SO_BROADCAST : Z := 6.
Definition SO_MCASTLOOPV4 : Z := 7.
Definition SO_MCASTLOOPV6 : Z := 8.
Definition SO_ACCEPTCONN : Z := 10.
Definition SO_ERROR : Z := 11.
Definition SO_KEEPALIVE : Z := 12.
Definition SO_LINGER : Z := 13.
Definition SO_OOBINLINE : Z := 14.
Definition SO_RCVBUF : Z := 15.
Definition SO_SNDBUF : Z := 16.
Definition SO_RCVTIMEO : Z := 19.
Definition SO_SNDTIMEO : Z := 20.
Definition SO_CONNTIMEO : Z := 21.
Definition SO_ACCPTIMEO : Z := 22.
Definition SO_TTL : Z := 23.
Definition SO_MCASTTTLV4 : Z := 24.
Definition SO_TYPE : Z := 25.
Definition SO_PROTOCOL : Z := 26.

(** The cases of the two switches. *)
Definition one_of (o : Z) (l : list Z) : bool := existsb (Z.eqb o) l.
Definition flag_option (o : Z) : bool :=
  one_of o [SO_ACCEPTCONN; SO_BROADCAST; SO_DONTROUTE; SO_NODELAY; SO_OOBINLINE; SO_ONLYV6; SO_REUSEPORT;
            SO_REUSEADDR; SO_MCASTLOOPV4; SO_MCASTLOOPV6; SO_KEEPALIVE].
Definition time_option (o : Z) : bool := one_of o [SO_RCVTIMEO; SO_SNDTIMEO; SO_CONNTIMEO; SO_ACCPTIMEO].
Definition size_option (o : Z) : bool := one_of o [SO_RCVBUF; SO_SNDBUF; SO_TTL; SO_MCASTTTLV4].

(** The first lines: two options of other levels are options of the socket. *)
Definition option_level (level name : Z) : Z * Z :=
  let '(level, name) :=
    if (level =? IPPROTO_IPV6) && (name =? IPV6_V6ONLY) then (SOL_SOCKET, SO_ONLYV6) else (level, name) in
  if (level =? IPPROTO_TCP) && (name =? TCP_NODELAY) then (SOL_SOCKET, SO_NODELAY) else (level, name).

(** The objects behind the pointers. *)
Definition int_bytes (v : Z) : list Z := lb 4 (w32 v).
Definition linger_bytes (l_onoff l_linger : Z) : list Z := int_bytes l_onoff ++ int_bytes l_linger.
Definition timeval_bytes (tv : timeval) : list Z := lb 8 (w64 (tval_sec tv)) ++ lb 8 (w64 (tval_usec tv)).

Section SockOpt.
Context {W : Type} `{WasiFd W, WasiPath W, WasiFile W, WasiSock W}.

(** What an option of time has when it is not set. *)
Variable unset : Z.

(** The bytes stored and the new [*option_len]. *)
Definition opt_result (option_len : nat) (l : list Z) : M (env W) (Z * option (list Z * Z)) :=
  mret (0, Some (take option_len l, Z.of_nat (length l))).
Definition opt_failed (error : Z) : M (env W) (Z * option (list Z * Z)) := set_errno error;; mret (-1, None).

Definition SOCKET_FILETYPES : list (Z * Z) :=
  [(filetype_code FT_SOCKET_DGRAM, SOCK_DGRAM); (filetype_code FT_SOCKET_STREAM, SOCK_STREAM);
   (filetype_code FT_SOCKET_SEQPACKET, SOCK_SEQPACKET); (filetype_code FT_SOCKET_RAW, SOCK_RAW)].

Definition getsockopt (socket level option_name : Z) (option_len : nat) : M (env W) (Z * option (list Z * Z)) :=
  let '(level, o) := option_level level option_name in
  if negb (level =? SOL_SOCKET) then opt_failed ENOPROTOOPT else
  if flag_option o then
    '(error, on) ← host (wasi_sock_get_opt_flag socket o);
    if negb (error =? 0) then opt_failed error
    else opt_result option_len (int_bytes (if (on : bool) then 1 else 0))
  else if o =? SO_ERROR then
    '(error, fs) ← host (wasi_sock_get_opt_size socket o);
    if negb (error =? 0) then opt_failed error else opt_result option_len (int_bytes fs)
  else if o =? SO_LINGER then
    '(error, tm) ← host (wasi_sock_get_opt_time socket o);
    if negb (error =? 0) then opt_failed error
    else opt_result option_len
      (linger_bytes (match tm with Some _ => 1 | None => 0 end) (default unset tm / 1000000000))
  else if time_option o then
    '(error, tm) ← host (wasi_sock_get_opt_time socket o);
    if negb (error =? 0) then opt_failed error
    else opt_result option_len
      (timeval_bytes match tm with
                     | Some t => Timeval (t / 1000000000) (t mod 1000000000 / 1000)
                     | None => Timeval 0 0
                     end)
  else if size_option o then
    '(error, fs) ← host (wasi_sock_get_opt_size socket o);
    if negb (error =? 0) then opt_failed error else opt_result option_len (int_bytes fs)
  else if o =? SO_PROTOCOL then
    '(error, fs) ← host (wasi_sock_get_opt_size socket o);
    if negb (error =? 0) then opt_failed error else opt_result option_len (int_bytes 0)
  else if o =? SO_TYPE then
    '(error, fsb) ← host (wasi_fd_fdstat_get socket);
    if negb (error =? 0) then opt_failed EBADF else
    match List.find (fun p => fst p =? fs_filetype fsb) SOCKET_FILETYPES with
    | None => opt_failed ENOTSOCK
    | Some (_, value) => opt_result option_len (int_bytes value)
    end
  else opt_failed ENOPROTOOPT.

(** [value] are the [option_len] bytes of the caller. *)
Definition setsockopt (socket level option_name : Z) (value : list Z) : M (env W) Z :=
  let option_len := length value in
  let '(level, o) := option_level level option_name in
  if negb (level =? SOL_SOCKET) then failed ENOSYS else
  if flag_option o then
    if (option_len <? 4)%nat then failed EINVAL else
    error ← host (wasi_sock_set_opt_flag socket o (negb (s32 (field value 0 4) =? 0)));
    ret_errno error
  else if o =? SO_LINGER then
    if (option_len <? 8)%nat then failed EINVAL else
    let l_onoff := s32 (field value 0 4) in
    let l_linger := s32 (field value 4 4) in
    error ← host (wasi_sock_set_opt_time socket o (if 0 <? l_onoff then Some (w64 (l_linger * 1000000000)) else None));
    ret_errno error
  else if time_option o then
    if (option_len <? 16)%nat then failed EINVAL else
    let tv_sec := s64 (field value 0 8) in
    let tv_usec := s64 (field value 8 8) in
    error ← host (wasi_sock_set_opt_time socket o
              (if (0 <? tv_sec) || (0 <? tv_usec) then Some (w64 (tv_sec * 1000000000 + tv_usec * 1000)) else None));
    ret_errno error
  else if size_option o then
    if (option_len <? 4)%nat then failed EINVAL else
    error ← host (wasi_sock_set_opt_size socket o (field value 0 4));
    ret_errno error
  else failed ENOPROTOOPT.

(** ** Sending; a buffer or address may be [NULL] *)

Definition si_flags (flags : Z) : Z := if has flags MSG_DONTWAIT then SIFLAGS_SEND_DONT_WAIT else 0.

Definition sent (r : Z * Z) : M (env W) Z :=
  let '(error, so_datalen) := r in
  if negb (error =? 0) then failed error else mret (s32 so_datalen).

Definition send (socket : Z) (buffer : option (list Z)) (flags : Z) : M (env W) Z :=
  match buffer with
  | None => failed EINVAL
  | Some b => r ← host (wasi_sock_send socket [b] (si_flags flags)); sent r
  end.

Definition sendto (socket : Z) (buffer : option (list Z)) (flags : Z) (addr : option (list Z)) : M (env W) Z :=
  match buffer, addr with
  | Some b, Some addr =>
      with_sockaddr addr (fun a => r ← host (wasi_sock_send_to socket [b] (si_flags flags) a); sent r)
  | _, _ => failed EINVAL
  end.

Definition sendmsg (socket : Z) (msg_iov : option (list (list Z))) (msg_name : option (list Z)) (flags : Z) : M (env W) Z :=
  match msg_iov with
  | None => failed EINVAL
  | Some iov =>
      match msg_name with
      | None => r ← host (wasi_sock_send socket iov (si_flags flags)); sent r
      | Some addr => with_sockaddr addr (fun a => r ← host (wasi_sock_send_to socket iov (si_flags flags) a); sent r)
      end
  end.

Definition sendfile (socket in_fd : Z) (ofs : option Z) (count : Z) : M (env W) Z :=
  '(error, ofs) ← match ofs with
                  | Some o => mret (0, w64 o)
                  | None => host (wasi_fd_tell in_fd)
                  end;
  if negb (error =? 0) then failed error else
  r ← host (wasi_sock_send_file socket in_fd ofs count); sent r.

(** ** Receiving *)
Variable stack : junk.

Definition ri_flags (flags : Z) : Z :=
  Z.lor (if has flags MSG_PEEK then RIFLAGS_RECV_PEEK else 0)
 (Z.lor (if has flags MSG_WAITALL then RIFLAGS_RECV_WAITALL else 0)
 (Z.lor (if has flags MSG_TRUNC then RIFLAGS_RECV_DATA_TRUNCATED else 0)
        (if has flags MSG_DONTWAIT then RIFLAGS_RECV_DONT_WAIT else 0))).

Definition recv (socket len flags : Z) : M (env W) (Z * list Z) :=
  '(error, l, _) ← host (wasi_sock_recv socket [len] (ri_flags flags));
  if negb (error =? 0) then set_errno error;; mret (-1, []) else mret (s32 (Z.of_nat (length l)), l).

Definition recvfrom (socket len flags : Z) (addrlen : option nat) : M (sstate W) (Z * list Z * option (list Z * Z)) :=
  '(error, l, _, peer_addr) ← scall (host (wasi_sock_recv_from socket [len] (ri_flags flags)));
  if negb (error =? 0) then scall (set_errno error);; mret (-1, [], None) else
  '(_, r) ← wasi_to_sockaddr stack Recvfrom_c peer_addr addrlen;
  mret (s32 (Z.of_nat (length l)), l, r).

(** The last result is [msg_flags], [None] when it is given a variable that is
    not set. *)
Definition recvmsg (socket : Z) (iov : list Z) (msg_name : option nat) (flags : Z)
    : M (sstate W) (Z * list Z * option (list Z * Z) * option Z) :=
  match msg_name with
  | None =>
      '(error, l, ro_flags) ← scall (host (wasi_sock_recv socket iov (ri_flags flags)));
      if negb (error =? 0) then scall (set_errno error);; mret (-1, [], None, None)
      else mret (s32 (Z.of_nat (length l)), l, None, Some ro_flags)
  | Some _ =>
      '(error, l, ro_flags, peer_addr) ← scall (host (wasi_sock_recv_from socket iov (ri_flags flags)));
      if negb (error =? 0) then scall (set_errno error);; mret (-1, [], None, None) else
      '(_, r) ← wasi_to_sockaddr stack Recvmsg_c peer_addr msg_name;
      mret (s32 (Z.of_nat (length l)), l, r, Some ro_flags)
  end.

End SockOpt.
