(* ===== verification/SockProofs.v ===== *)
(** Socket addresses survive the host, whichever byte order it reports ports
    in; options survive it too; sockets are made whole or not at all. *)
From S2P Require Import Prelude.
From S2P Require Import Wasi.
From S2P Require Import TimeConv.
From S2P Require Import Unistd.
From S2P Require Import Poll.
From S2P Require Import Paths.
From S2P Require Import At.
From S2P Require Import Fd.
From S2P Require Import FdProofs.
From S2P Require Import Sock.

Abbreviation bytes l := (Forall (fun b => 0 <= b < 256) l).

(** ** Fields *)

Lemma lb_le l : bytes l -> lb (length l) (le l) = l.
Proof.
  induction 1 as [|b l Hb _ IH]; [done|]. simpl. rewrite (Z.mul_comm 256), Z.mod_add, Z.div_add, Z.mod_small, Z.div_small by lia.
  by rewrite Z.add_0_l, IH.
Qed.

Lemma bytes_field l off n : bytes l -> (off + n <= length l)%nat -> lb n (field l off n) = take n (drop off l).
Proof.
  intros Hl Hn. unfold field. rewrite <- (lb_le (take n (drop off l))) at 2 by (by apply Forall_take, Forall_drop).
  f_equal. rewrite length_take, length_drop. lia.
Qed.

Lemma le_range l : bytes l -> 0 <= le l < 256 ^ Z.of_nat (length l).
Proof.
  induction 1 as [|b l Hb _ IH]; [simpl; lia|]. rewrite length_cons, Nat2Z.inj_succ, Z.pow_succ_r by lia. simpl le. lia.
Qed.

Lemma field_range l off n : bytes l -> 0 <= field l off n < 256 ^ Z.of_nat n.
Proof.
  intros Hl. unfold field. pose proof (le_range (take n (drop off l)) ltac:(by apply Forall_take, Forall_drop)) as Hr.
  rewrite length_take in Hr. pose proof (Z.pow_le_mono_r 256 (Z.of_nat (n `min` length (drop off l))) (Z.of_nat n)). lia.
Qed.

Lemma swap16_inv x : 0 <= x < 65536 -> swap16 (swap16 x) = x.
Proof.
  intros Hx. unfold swap16. pose proof (Z.div_lt_upper_bound x 256 256). pose proof (Z.div_pos x 256).
  rewrite (Z.add_comm (x mod 256 * 256)), Z.mod_add, Z.div_add, (Z.mod_small (x / 256)), (Z.div_small (x / 256)) by lia.
  pose proof (Z.div_mod x 256). lia.
Qed.

Lemma join_halves f : 0 <= f < 2 ^ 31 -> join (Z.shiftr f 16) (Z.land f 65535) = Some f.
Proof.
  intros Hf. unfold join. rewrite Z.shiftr_div_pow2, Z.shiftl_mul_pow2 by lia. change 65535 with (Z.ones 16).
  rewrite Z.land_ones by lia. pose proof (Z.div_lt_upper_bound f (2 ^ 16) (2 ^ 15)).
  rewrite (proj2 (Z.ltb_lt _ _)) by lia. rewrite lor_add by (try lia; apply Z.mod_pos_bound; lia).
  f_equal. pose proof (Z.div_mod f (2 ^ 16)). lia.
Qed.

(** ** Names *)

(** What [bind] and [getsockname] keep of an address: family, port, address,
    and for the second family flow information and scope. *)
Definition significant (addr : list Z) : nat := if (field addr 0 2 =? AF_INET)%Z then 8 else 28.

Definition good_sockaddr (addr : list Z) : Prop :=
  bytes addr /\ field addr 2 2 <> 0 /\
  ((field addr 0 2 = AF_INET /\ length addr = 16%nat) \/
   (field addr 0 2 = AF_INET6 /\ length addr = 32%nat /\ field addr 4 4 < 2 ^ 31 /\ field addr 24 4 < 2 ^ 31)).

Definition swap_port (a : wasi_addr) : wasi_addr :=
  match a with
  | Inet4 p addr => Inet4 (swap16 p) addr
  | Inet6 p addr f1 f0 s1 s0 => Inet6 (swap16 p) addr f1 f0 s1 s0
  | a => a
  end.

(** A host that keeps the names of sockets.  Older ones report ports with
    their bytes swapped. *)
Class SockNames (W : Type) `{WasiFd W, WasiSock W} := {
  local : W -> gmap Z wasi_addr;
  swapped : bool;
  open_names : forall d t p w e fd w', wasi_sock_open d t p w = (e, fd, w') ->
    local w' = local w /\ (e = 0 -> 0 <= fd /\ local w !! fd = None);
  bind_names : forall fd a w e w', wasi_sock_bind fd a w = (e, w') ->
    if (e =? 0) && negb (port_field a =? 0) then local w' = <[fd := a]> (local w)
    else forall fd', fd' <> fd -> local w' !! fd' = local w !! fd';
  addr_local_names : forall fd w e a w', wasi_sock_addr_local fd w = (e, a, w') -> local w' = local w /\
    (forall a0, local w !! fd = Some a0 -> e <> ENOTSOCK /\ (e = 0 -> a = if swapped then swap_port a0 else a0));
  close_names : forall fd w e w', wasi_fd_close fd w = (e, w') -> local w' = delete fd (local w) }.

(** In the world [w] the three calls with which the byte order is found out
    succeed: there is room for a socket, and port 10275 is free. *)
Definition probe_works {W} `{WasiSock W} (w : W) : Prop :=
  let '(e1, sock, w1) := wasi_sock_open AF_INET SOCK_STREAM IPPROTO_TCP w in
  let '(e2, w2) := wasi_sock_bind sock (Inet4 10275 [0; 0; 0; 0]) w1 in
  e1 = 0 /\ e2 = 0 /\ (wasi_sock_addr_local sock w2).1.1 = 0.

(** A field of an address between its neighbours. *)
Lemma field_after l off n : bytes l -> (off + n <= length l)%nat -> take off l ++ lb n (field l off n) = take (off + n) l.
Proof. intros Hl Hn. rewrite bytes_field by done. apply take_take_drop. Qed.

Lemma sockaddr_in_bytes j addr : bytes addr -> length addr = 16%nat -> field addr 0 2 = AF_INET ->
  sockaddr_in j (field addr 2 2) (take 4 (drop 4 addr)) = take 8 addr ++ sin_zero j.
Proof.
  intros Hb Hl Hf. unfold sockaddr_in. rewrite <- Hf, (bytes_field addr 0 2), drop_0, !app_assoc, (field_after addr 2 2) by (done || lia).
  by rewrite take_take_drop.
Qed.

Lemma sockaddr_in6_bytes j addr : bytes addr -> length addr = 32%nat -> field addr 0 2 = AF_INET6 ->
  sockaddr_in6 j (field addr 2 2) (take 16 (drop 8 addr)) (field addr 4 4) (field addr 24 4) = take 28 addr ++ in6_pad j.
Proof.
  intros Hb Hl Hf. unfold sockaddr_in6. rewrite <- Hf, (bytes_field addr 0 2), drop_0, !app_assoc, (field_after addr 2 2) by (done || lia).
  cbn [Nat.add]. rewrite (field_after addr 4 4), take_take_drop by (done || lia). cbn [Nat.add].
  by rewrite (field_after addr 24 4) by (done || lia).
Qed.

Lemma stored_prefix n k (l z : list Z) : (k <= n)%nat -> (k <= length l)%nat ->
  take k (stored_addr n (take k l ++ z)) = take k l.
Proof.
  intros Hk Hl. unfold stored_addr. rewrite take_take, Nat.min_l, <- app_assoc by done. apply take_app_length'.
  rewrite length_take. lia.
Qed.

(** The bytes of a good address come back from the conversion and the
    report. *)
Lemma sockaddr_report j addr sw : good_sockaddr addr ->
  exists a, sockaddr_to_wasi addr = Some (0, a) /\ port_field a <> 0 /\
  exists l, fill_sockaddr j (negb sw) (if sw then swap_port a else a) (length addr) = Some (l, Z.of_nat (length addr)) /\
    take (significant addr) l = take (significant addr) addr.
Proof.
  intros (Hb & Hp & Hfam). pose proof (field_range addr 2 2 Hb) as Hr. change (256 ^ Z.of_nat 2) with 65536 in Hr.
  assert (Hp' : swap16 (field addr 2 2) <> 0).
  { intros E. apply Hp. rewrite <- (swap16_inv (field addr 2 2)) by lia. by rewrite E. }
  unfold significant, sockaddr_to_wasi. destruct Hfam as [[Hf Hlen]|(Hf & Hlen & Hflow & Hscope)]; rewrite Hlen, Hf.
  - eexists. split; [reflexivity|]. split; [exact Hp'|]. eexists. split.
    + destruct sw; cbn [negb swap_port fill_sockaddr]; rewrite ?swap16_inv by lia; reflexivity.
    + rewrite sockaddr_in_bytes by done. apply stored_prefix; simpl; lia.
  - eexists. split; [reflexivity|]. split; [exact Hp'|]. eexists. split.
    + pose proof (field_range addr 4 4 Hb). pose proof (field_range addr 24 4 Hb).
      destruct sw; cbn [negb swap_port fill_sockaddr]; rewrite !join_halves by lia; cbn [mbind option_bind];
        rewrite ?swap16_inv by lia; reflexivity.
    + rewrite sockaddr_in6_bytes by done. apply stored_prefix; simpl; lia.
Qed.

Section Names.
Context {W : Type} `{SockNames W} `{WasiPath W, !WasiFile W}.

Lemma close_local fd (e : env W) : exists r e', close fd e = Ret (r, e') /\ local (world e') = delete fd (local (world e)).
Proof.
  unfold close, mbind, M_bind, host. destruct (wasi_fd_close _ _) as [er w'] eqn:Hc. apply close_names in Hc.
  destruct (er =? 0); eexists _, _; split; done.
Qed.

Lemma socket_tcp (e : env W) : socket AF_INET SOCK_STREAM 0 e =
  let '(error, fd, w) := wasi_sock_open AF_INET SOCK_STREAM IPPROTO_TCP (world e) in
  if error =? 0 then Ret (fd, Env (errno e) w) else Ret (-1, Env error w).
Proof.
  unfold socket. change (Z.land SOCK_STREAM SOCK_FLAGS) with 0. change (Z.land SOCK_STREAM (Z.lnot SOCK_FLAGS)) with SOCK_STREAM.
  change (default_protocol SOCK_STREAM 0) with IPPROTO_TCP. unfold mbind, M_bind, host.
  destruct (wasi_sock_open _ _ _ _) as [[error fd] w]. by destruct (error =? 0).
Qed.

Lemma bind_call sock addr a (e : env W) : sockaddr_to_wasi addr = Some (0, a) ->
  bind sock addr e = let '(error, w) := wasi_sock_bind sock a (world e) in
    if error =? 0 then Ret (0, Env (errno e) w) else Ret (-1, Env error w).
Proof.
  intros Ha. unfold bind, with_sockaddr. rewrite Ha. cbn [negb Z.eqb]. unfold mbind, M_bind, host, ret_errno.
  destruct (wasi_sock_bind _ _ _) as [error w]. by destruct (error =? 0).
Qed.

(** Once a new socket is closed names are what they were. *)
Lemma close_probe {A} sock (t : gmap Z wasi_addr) (a : A) (e : env W) : t !! sock = None ->
  (forall fd, fd <> sock -> local (world e) !! fd = t !! fd) ->
  exists e', (close sock;; mret a : M (env W) A) e = Ret (a, e') /\ local (world e') = t.
Proof.
  intros Hn Ht. destruct (close_local sock e) as (r & e2 & Hc & Hw). exists e2. rewrite (bind_Ret _ _ _ _ _ Hc).
  split; [done|]. rewrite Hw. apply map_eq. intros fd. destruct (decide (fd = sock)) as [->|Hne].
  - by rewrite lookup_delete_eq.
  - rewrite lookup_delete_ne by done. by apply Ht.
Qed.

(** The test of the byte order leaves names alone; a host of the new kind
    passes it in any case. *)
Lemma is_wasi_port_ok_spec (e : env W) : exists b e', is_wasi_port_ok e = Ret (b, e') /\
  local (world e') = local (world e) /\ (swapped = false -> b = true) /\ (swapped = true -> probe_works (world e) -> b = false).
Proof.
  unfold is_wasi_port_ok, probe_works. unfold mbind at 1, M_bind at 1. rewrite socket_tcp.
  destruct (wasi_sock_open _ _ _ _) as [[er sock] w1] eqn:Ho. pose proof (open_names _ _ _ _ _ _ _ Ho) as [Hw1 Hfd].
  destruct (er =? 0) eqn:E.
  2: { eexists true, _. split; [done|]. split; [done|]. split; [done|]. intros _. destruct (wasi_sock_bind _ _ _).
       intros [? _]. lia. }
  destruct Hfd as [Hge Hn]; [lia|]. rewrite (proj2 (Z.ltb_ge _ _)) by lia.
  unfold mbind at 1, M_bind at 1. rewrite (bind_call sock probe_addr (Inet4 10275 [0; 0; 0; 0])) by done. simpl world.
  destruct (wasi_sock_bind _ _ _) as [er2 w2] eqn:Hb. pose proof (bind_names _ _ _ _ _ Hb) as Hw2.
  destruct (er2 =? 0) eqn:E2; cbv iota; cbn [Z.ltb Z.compare].
  2: { destruct (close_probe sock (local (world e)) true (Env er2 w2)) as (e' & Hc & Hw); [done| |].
       { intros fd Hne. simpl. by rewrite Hw2, Hw1. }
       exists true, e'. split; [exact Hc|]. split; [done|]. split; [done|]. intros _ (_ & ? & _). lia. }
  cbn [andb negb port_field Z.eqb] in Hw2.
  unfold mbind at 1, M_bind at 1, host. simpl world. destruct (wasi_sock_addr_local _ _) as [[er3 a] w3] eqn:Hl.
  pose proof (addr_local_names _ _ _ _ _ Hl) as [Hw3 Ha]. cbn beta iota.
  assert (Hothers : forall fd, fd <> sock -> local w3 !! fd = local (world e) !! fd).
  { intros fd Hne. by rewrite Hw3, Hw2, lookup_insert_ne, Hw1. }
  destruct (er3 =? 0) eqn:E3; cbn [negb].
  - destruct (close_probe sock (local (world e)) (port_field a =? 10275) (Env (errno e) w3)) as (e' & Hc & Hw); [done|done|].
    eexists _, e'. split; [exact Hc|]. split; [done|]. destruct (Ha (Inet4 10275 [0; 0; 0; 0])) as [_ Ha'].
    { by rewrite Hw2, lookup_insert_eq. }
    rewrite Ha' by lia. destruct swapped; split; done.
  - destruct (close_probe sock (local (world e)) true (Env (errno e) w3)) as (e' & Hc & Hw); [done|done|].
    exists true, e'. split; [exact Hc|]. split; [done|]. split; [done|]. intros _ (_ & _ & Hp3).
    simpl in Hp3. lia.
Qed.

(** Whether the file [f] has found out the byte order, or can in the world
    [w]. *)
Definition order_known (f : cfile) (s : sstate W) (w : W) : Prop :=
  tested s f = None /\ (swapped = true -> probe_works w) \/ tested s f = Some (negb swapped).

Lemma wasi_to_sockaddr_spec stack f a n s r : order_known f s (world (senv s)) -> fill_sockaddr stack (negb swapped) a n = Some r ->
  exists s', wasi_to_sockaddr stack f a (Some n) s = Ret ((0, Some r), s') /\ tested s' f = Some (negb swapped).
Proof.
  intros Ho Hf. unfold wasi_to_sockaddr. rewrite (bind_Ret _ _ _ _ _ (get_Ret s)).
  destruct Ho as [[Ht Hprobe]|Ht]; rewrite Ht.
  - destruct (is_wasi_port_ok_spec (senv s)) as (b & e' & Hok & _ & Hb1 & Hb2).
    assert (Hb : b = negb swapped) by (destruct swapped; [by apply Hb2, Hprobe|by apply Hb1]). subst b.
    eexists. unfold mbind, M_bind, scall. rewrite Hok. simpl. rewrite Hf. split; [reflexivity|]. simpl. by rewrite decide_True.
  - eexists. split; [|exact Ht]. unfold mbind, M_bind. simpl. by rewrite Hf.
Qed.

(** C22: IPv4 and IPv6 addresses survive the host.  After a socket has been
    bound to an address of one of these families ([good_sockaddr]: of the
    family's exact length, with a port that is not 0, flow information and scope
    below 2^31), [getsockname] fails exactly when the host's call does, with its
    error; otherwise it gives the family, port, address, flow information and
    scope back byte for byte and the length, and the byte order it finds out
    stays right for the next call.  This holds whether the host reports ports as
    they are or swapped, for the latter provided that the calls which find it
    out succeed.  (The name of an [AF_UNIX] socket does not survive.) *)
Theorem getsockname_bound stack sock addr (s : sstate W) e1 : good_sockaddr addr ->
  bind sock addr (senv s) = Ret (0, e1) ->
  order_known Getsockname_c s (wasi_sock_addr_local sock (world e1)).2 ->
  exists r s', getsockname stack sock (length addr) (SState (tested s) e1) = Ret (r, s') /\
    let error := (wasi_sock_addr_local sock (world e1)).1.1 in
    if error =? 0 then
      tested s' Getsockname_c = Some (negb swapped) /\
      exists l, r = (0, Some (l, Z.of_nat (length addr))) /\ take (significant addr) l = take (significant addr) addr
    else r = (-1, None) /\ errno (senv s') = error.
Proof.
  intros Hgood Hb Ht. destruct (sockaddr_report stack addr swapped Hgood) as (a & Ha & Hp & l & Hl & Hlen).
  rewrite (bind_call _ _ _ _ Ha) in Hb. destruct (wasi_sock_bind _ _ _) as [er w1] eqn:Hbind.
  apply bind_names in Hbind. destruct (er =? 0) eqn:E; [|done]. injection Hb as <-.
  rewrite (proj2 (Z.eqb_neq _ _) Hp) in Hbind. cbn [negb andb] in Hbind.
  unfold getsockname. destruct (wasi_sock_addr_local sock w1) as [[er2 a2] w2] eqn:Hloc.
  rewrite (bind_Ret _ _ _ (er2, a2) (SState (tested s) (Env (errno (senv s)) w2))) by (unfold scall, host; simpl; by rewrite Hloc).
  cbn [world] in Ht. rewrite Hloc in Ht. pose proof Hloc as Hloc0. apply addr_local_names in Hloc as [Hw2 Hrep].
  destruct (Hrep a) as [Hns Ha2]; [by rewrite Hbind, lookup_insert_eq|].
  rewrite (proj2 (Z.eqb_neq _ _) Hns). destruct (er2 =? 0) eqn:E2; cbn [negb].
  - rewrite <- Ha2 in Hl by lia.
    destruct (wasi_to_sockaddr_spec stack Getsockname_c a2 (length addr) (SState (tested s) (Env (errno (senv s)) w2)) _ Ht Hl) as (s' & Hr & Ho).
    rewrite (bind_Ret _ _ _ _ _ Hr). eexists _, s'. split; [done|]. cbn [world fst]. rewrite Hloc0. cbn [fst]. rewrite E2. split; [done|]. by exists l.
  - eexists _, _. split; [done|]. cbn [world fst]. rewrite Hloc0. cbn [fst]. rewrite E2. done.
Qed.
End Names.
