(* ===== verification/SockTheorems.v ===== *)
(** Sockets are made whole or not at all, and options come back as they were
    set. *)
From S2P Require Import Prelude.
From S2P Require Import Wasi.
From S2P Require Import TimeConv.
From S2P Require Import Unistd.
From S2P Require Import Poll.
From S2P Require Import Paths.
From S2P Require Import At.
From S2P Require Import Fd.
From S2P Require Import FdProofs.
From S2P Require Import Sock.
From S2P Require Import SockProofs.

(** New sockets are new entries of the table of descriptors. *)
Class SockFds (W : Type) `{FdTable W, WasiSock W} := {
  open_fds : forall d t p w e fd w', wasi_sock_open d t p w = (e, fd, w') ->
    if e =? 0 then fds w !! fd = None /\ exists r, fds w' = <[fd := Desc 0 false r]> (fds w) else fds w' = fds w;
  pair_fds : forall d t p w e a b w', wasi_sock_pair d t p w = (e, a, b, w') ->
    if e =? 0
    then a <> b /\ fds w !! a = None /\ fds w !! b = None /\
      exists ra rb, fds w' = <[a := Desc 0 false ra]> (<[b := Desc 0 false rb]> (fds w))
    else fds w' = fds w }.

Lemma has_sock_flag ty m : Z.land SOCK_FLAGS m = m -> has (Z.land ty SOCK_FLAGS) m = has ty m.
Proof. intros Hm. unfold has. by rewrite <- Z.land_assoc, Hm. Qed.

Section Made.
Context {W : Type} `{SockFds W} `{WasiPath W}.

(** The descriptor with the flags of a type of socket. *)
Definition flagged (ty : Z) (d : desc) : desc :=
  Desc (if has ty SOCK_NONBLOCK then Z.lor (d_flags d) FDFLAGS_NONBLOCK else d_flags d)
    (has ty SOCK_CLOEXEC || d_cloexec d) (d_rights d).

(** [m] returns an error number; on 0 the descriptor [fd] has become [d'],
    otherwise it may be different, and [errno] is not touched. *)
Definition sets (m : M (env W) Z) (fd : Z) (d d' : desc) (t : gmap Z desc) (e : env W) : Prop :=
  exists er e', m e = Ret (er, e') /\ errno e' = errno e /\
    if er =? 0 then fds (world e') = <[fd := d']> t else exists d1, fds (world e') = <[fd := d1]> t.

Lemma set_nonblock_spec fd d t e : fds (world e) = <[fd := d]> t ->
  sets (set_nonblock fd) fd d (Desc (Z.lor (d_flags d) FDFLAGS_NONBLOCK) (d_cloexec d) (d_rights d)) t e.
Proof.
  intros Ht. unfold sets, set_nonblock, mbind, M_bind, host. destruct (wasi_fd_fdstat_get _ _) as [[er st] w1] eqn:Hg.
  apply fdstat_get_fds in Hg as [Hw1 Hd]. destruct (er =? 0) eqn:E.
  - destruct Hd as (d0 & Hd0 & Hf & _); [lia|]. rewrite Ht, lookup_insert_eq in Hd0. injection Hd0 as <-. simpl.
    destruct (wasi_fd_fdstat_set_flags _ _ _) as [er2 w2] eqn:Hs. apply fdstat_set_fds in Hs.
    eexists _, _. split; [done|]. split; [done|]. simpl. rewrite Hw1, Ht in Hs. destruct (er2 =? 0); [|by eexists].
    destruct Hs as (d0 & Hd0 & ->). rewrite lookup_insert_eq in Hd0. injection Hd0 as <-. by rewrite Hf, insert_insert_eq.
  - eexists _, _. split; [done|]. split; [done|]. simpl. rewrite E. exists d. by rewrite Hw1.
Qed.

Lemma set_cloexec_spec fd d t e : fds (world e) = <[fd := d]> t ->
  sets (host (wasi_fd_fdflags_set fd FDFLAGSEXT_CLOEXEC)) fd d (Desc (d_flags d) true (d_rights d)) t e.
Proof.
  intros Ht. unfold sets, host. destruct (wasi_fd_fdflags_set _ _ _) as [er w1] eqn:Hs. apply fdflags_set_fds in Hs.
  eexists _, _. split; [done|]. split; [done|]. simpl. rewrite Ht in Hs. destruct (er =? 0); [|by eexists].
  destruct Hs as (d0 & Hd0 & ->). rewrite lookup_insert_eq in Hd0. injection Hd0 as <-. by rewrite insert_insert_eq.
Qed.

(** Two such steps, the second unless the first fails. *)
Lemma sets_bind m1 m2 fd d d1 d2 t e : sets m1 fd d d1 t e ->
  (forall e1, fds (world e1) = <[fd := d1]> t -> sets m2 fd d1 d2 t e1) ->
  sets (error ← m1; if negb (error =? 0) then mret error else m2) fd d d2 t e.
Proof.
  intros (er & e1 & Hm & He & Ht) Hnext. unfold sets. rewrite (bind_Ret _ _ _ _ _ Hm). destruct (er =? 0) eqn:E; cbn [negb].
  - destruct (Hnext e1 Ht) as (er2 & e2 & Hm2 & He2 & Ht2). exists er2, e2. split; [done|]. split; [congruence|done].
  - exists er, e1. rewrite E. done.
Qed.

Lemma socketpair_set_flags_spec fd ty d t e : fds (world e) = <[fd := d]> t ->
  sets (socketpair_set_flags fd (Z.land ty SOCK_FLAGS)) fd d (flagged ty d) t e.
Proof.
  intros Ht. unfold socketpair_set_flags, flagged. rewrite !has_sock_flag by done.
  assert (Hclo : forall d e1, fds (world e1) = <[fd := d]> t ->
    sets (if has ty SOCK_CLOEXEC then host (wasi_fd_fdflags_set fd FDFLAGSEXT_CLOEXEC) else mret 0) fd d
      (Desc (d_flags d) (has ty SOCK_CLOEXEC || d_cloexec d) (d_rights d)) t e1).
  { intros d1 e1 H1'. destruct (has ty SOCK_CLOEXEC); [by apply set_cloexec_spec|]. exists 0, e1. split; [done|]. split; [done|].
    simpl. by destruct d1. }
  destruct (has ty SOCK_NONBLOCK); [|by apply Hclo].
  eapply sets_bind; [by apply set_nonblock_spec|]. intros e1 He1. by apply (Hclo (Desc _ _ _)).
Qed.

(** A call that makes a socket or leaves the table as it was. *)
Definition socket_result (e : env W) (ty r : Z) (e' : env W) : Prop :=
  (exists rights, fds (world e) !! r = None /\ fds (world e') = <[r := flagged ty (Desc 0 false rights)]> (fds (world e))) \/
  (r = -1 /\ fds (world e') = fds (world e) /\ errno e' <> 0).

Lemma socket_failed_spec fd error d (e0 e : env W) : fds (world e0) !! fd = None -> fds (world e) = <[fd := d]> (fds (world e0)) ->
  error <> 0 -> exists e', socket_failed fd error e = Ret (-1, e') /\ fds (world e') = fds (world e0) /\ errno e' <> 0.
Proof.
  intros Hn Ht He. unfold socket_failed. destruct (close_world fd e) as (r & e1 & Hc & Hw). eexists.
  rewrite (bind_Ret _ _ _ _ _ Hc). split; [reflexivity|]. split; [|done]. simpl. by rewrite Hw, Ht, delete_insert_id.
Qed.

Lemma socket_spec domain ty protocol (e : env W) : exists r e', socket domain ty protocol e = Ret (r, e') /\ socket_result e ty r e'.
Proof.
  unfold socket. cbv zeta. set (sty := Z.land ty (Z.lnot SOCK_FLAGS)).
  destruct (wasi_sock_open domain sty (default_protocol sty protocol) (world e)) as [[er fd] w1] eqn:Ho.
  rewrite (bind_Ret _ _ _ (er, fd) (Env (errno e) w1)) by (unfold host; by rewrite Ho). apply open_fds in Ho.
  destruct (er =? 0) eqn:E; cbn [negb]. 2: { eexists _, _. split; [done|]. right. split_and!; [done..|simpl; lia]. }
  destruct Ho as (Hn & rights & Ht). rewrite has_sock_flag by done.
  assert (Hclo : forall d (e1 : env W), fds (world e1) = <[fd := d]> (fds (world e)) ->
    exists r e', socket_cloexec fd (Z.land ty SOCK_FLAGS) e1 = Ret (r, e') /\
      ((r = fd /\ fds (world e') = <[fd := Desc (d_flags d) (has ty SOCK_CLOEXEC || d_cloexec d) (d_rights d)]> (fds (world e))) \/
       (r = -1 /\ fds (world e') = fds (world e) /\ errno e' <> 0))).
  { intros d e1 H1'. unfold socket_cloexec. rewrite has_sock_flag by done. destruct (has ty SOCK_CLOEXEC).
    - destruct (set_cloexec_spec fd d (fds (world e)) e1 H1') as (er2 & e2 & Hs & _ & Ht2). rewrite (bind_Ret _ _ _ _ _ Hs).
      destruct (er2 =? 0) eqn:E2; cbn [negb].
      + eexists _, _. split; [done|]. by left.
      + destruct Ht2 as [d1 Ht2]. destruct (socket_failed_spec fd er2 d1 e e2) as (e' & Hf & Hw); [done..|lia|].
        eexists _, _. split; [exact Hf|]. by right.
    - eexists _, _. split; [done|]. left. split; [done|]. simpl. by destruct d. }
  unfold flagged. destruct (has ty SOCK_NONBLOCK) eqn:Enb.
  - destruct (set_nonblock_spec fd _ _ (Env (errno e) w1) Ht) as (er2 & e2 & Hs & _ & Ht2). rewrite (bind_Ret _ _ _ _ _ Hs).
    destruct (er2 =? 0) eqn:E2; cbn [negb].
    + destruct (Hclo _ _ Ht2) as (r & e' & Hr & Hres). eexists _, _. split; [exact Hr|].
      destruct Hres as [[-> Hw]|Hw]; [left|by right]. exists rights. unfold flagged. by rewrite Enb.
    + destruct Ht2 as [d1 Ht2]. destruct (socket_failed_spec fd er2 d1 e e2) as (e' & Hf & Hw); [done..|lia|].
      eexists _, _. split; [exact Hf|]. by right.
  - destruct (Hclo (Desc 0 false rights) (Env (errno e) w1) Ht) as (r & e' & Hr & Hres). eexists _, _. split; [exact Hr|].
    destruct Hres as [[-> Hw]|Hw]; [left|by right]. exists rights. unfold flagged. by rewrite Enb.
Qed.

(** C21: [socket] and [socketpair] make sockets whole or not at all.  What they
    return is new in the table of descriptors and has the flags of the type:
    non-blocking, close-on-exec, both or neither, at both ends of a pair.  If
    any of their calls fails they return -1, [errno] is set and the table is
    what it was. *)
Theorem sockets_whole domain ty protocol (e : env W) :
  (exists r e', socket domain ty protocol e = Ret (r, e') /\ socket_result e ty r e') /\
  (exists r e', socketpair domain ty protocol e = Ret (r, e') /\
     pipe_result e (fun rights => flagged ty (Desc 0 false rights)) r e').
Proof.
  split; [apply socket_spec|]. unfold socketpair. cbv zeta. set (sty := Z.land ty (Z.lnot SOCK_FLAGS)).
  destruct (wasi_sock_pair domain sty (default_protocol sty protocol) (world e)) as [[[er fd1] fd2] w1] eqn:Ho.
  rewrite (bind_Ret _ _ _ (er, fd1, fd2) (Env (errno e) w1)) by (unfold host; by rewrite Ho). apply pair_fds in Ho.
  destruct (er =? 0) eqn:E; cbn [negb]. 2: { eexists _, _. split; [done|]. right. split_and!; [done..|simpl; lia]. }
  destruct Ho as (Hne & Hn1 & Hn2 & ra & rb & Ht). set (t := fds (world e)) in *.
  assert (Hfail : forall er d1 d2 (e1 : env W), er <> 0 -> fds (world e1) = with_pipe t fd1 fd2 d1 d2 ->
    exists e', (close fd1;; close fd2;; set_errno er;; mret (-1, None) : M (env W) (Z * option (Z * Z))) e1 = Ret ((-1, None), e') /\
      fds (world e') = t /\ errno e' <> 0).
  { intros er0 d1 d2 e1 Her H1'. destruct (close_world fd1 e1) as (r1 & e2 & Hc1 & Hw1). destruct (close_world fd2 e2) as (r2 & e3 & Hc2 & Hw2).
    eexists. rewrite (bind_Ret _ _ _ _ _ Hc1), (bind_Ret _ _ _ _ _ Hc2). split; [reflexivity|]. split; [|done].
    simpl. by rewrite Hw2, Hw1, H1', delete_with_pipe. }
  destruct (socketpair_set_flags_spec fd1 ty _ _ (Env (errno e) w1) Ht) as (er1 & e1 & Hs1 & _ & Ht1). rewrite (bind_Ret _ _ _ _ _ Hs1).
  destruct (er1 =? 0) eqn:E1.
  - rewrite insert_insert_ne in Ht1 by done.
    destruct (socketpair_set_flags_spec fd2 ty _ _ e1 Ht1) as (er2 & e2 & Hs2 & _ & Ht2). rewrite (bind_Ret _ _ _ _ _ Hs2).
    destruct (er2 =? 0) eqn:E2; cbn [negb].
    + eexists _, _. split; [done|]. left. exists fd1, fd2, ra, rb. rewrite insert_insert_ne in Ht2 by done. done.
    + destruct Ht2 as [d2 Ht2]. rewrite insert_insert_ne in Ht2 by done.
      destruct (Hfail er2 _ _ e2 ltac:(lia) Ht2) as (e' & Hf & Hw). eexists _, _. split; [exact Hf|]. by right.
  - rewrite (bind_Ret _ _ _ er1 e1) by done. rewrite E1. cbn [negb]. destruct Ht1 as [d1 Ht1].
    destruct (Hfail er1 _ _ e1 ltac:(lia) Ht1) as (e' & Hf & Hw). eexists _, _. split; [exact Hf|]. by right.
Qed.
End Made.

(** ** Options *)

(** A host on which an option that has been set is got back, if at all. *)
Class SockOpts (W : Type) `{WasiSock W} := {
  opt_flag_back : forall s o v w w1 e v' w2, wasi_sock_set_opt_flag s o v w = (0, w1) ->
    wasi_sock_get_opt_flag s o w1 = (e, v', w2) -> e = 0 -> v' = v;
  opt_size_back : forall s o v w w1 e v' w2, wasi_sock_set_opt_size s o v w = (0, w1) ->
    wasi_sock_get_opt_size s o w1 = (e, v', w2) -> e = 0 -> v' = v;
  opt_time_back : forall s o v w w1 e v' w2, wasi_sock_set_opt_time s o v w = (0, w1) ->
    wasi_sock_get_opt_time s o w1 = (e, v', w2) -> e = 0 -> v' = v }.

Lemma s32_w32 x : s32 (w32 x) = s32 x.
Proof. unfold s32, w32. by rewrite Zplus_mod_idemp_l. Qed.

Lemma field_int v l : field (int_bytes v ++ l) 0 4 = w32 v.
Proof.
  unfold field, int_bytes. rewrite drop_0, take_app_length' by (by rewrite length_lb). apply le_lb.
  pose proof (w32_range v). change (256 ^ Z.of_nat 4) with (2 ^ 32). lia.
Qed.

Lemma field_8 x l : 0 <= x < 2 ^ 64 -> field (lb 8 x ++ l) 0 8 = x.
Proof.
  intros Hx. unfold field. rewrite drop_0, take_app_length' by (by rewrite length_lb). apply le_lb.
  change (256 ^ Z.of_nat 8) with (2 ^ 64). lia.
Qed.

Lemma field_skip p l n k : length p = n -> field (p ++ l) n k = field l 0 k.
Proof. intros <-. unfold field. by rewrite drop_app_length, drop_0. Qed.

Section Options.
Context {W : Type} `{SockOpts W} `{WasiFd W, WasiPath W, !WasiFile W}.
Variable unset : Z.

Lemma set_returned (m : W -> Z * W) (e e1 : env W) : (error ← host m; ret_errno error) e = Ret (0, e1) ->
  m (world e) = (0, world e1).
Proof.
  unfold mbind, M_bind, host, ret_errno. destruct (m (world e)) as [er w]. destruct (Z.eqb_spec er 0) as [->|]; simpl; [|done].
  by intros [= <-].
Qed.

Lemma opt_returned {A} (m : W -> Z * A * W) (k : A -> list Z) n (e e2 : env W) r :
  ('(error, v) ← host m; if negb (error =? 0) then opt_failed error else opt_result n (k v)) e = Ret ((0, r), e2) ->
  exists v, m (world e) = (0, v, world e2) /\ r = Some (take n (k v), Z.of_nat (length (k v))).
Proof.
  unfold mbind, M_bind, host, opt_failed, opt_result. destruct (m (world e)) as [[er v] w].
  destruct (Z.eqb_spec er 0) as [->|]; simpl; [|done]. intros [= <- <-]. eauto.
Qed.

Lemma opt_bytes_fit (l : list Z) n : (length l <= n)%nat -> take n l = l.
Proof. apply take_ge. Qed.

Lemma one_of_elim (P : Z -> Prop) o l : one_of o l = true -> Forall P l -> P o.
Proof. unfold one_of. rewrite existsb_exists. intros (x & Hx & ->%Z.eqb_eq) HP. by apply (proj1 (List.Forall_forall _ _) HP). Qed.

Lemma time_cases o : time_option o = true -> flag_option o = false /\ (o =? SO_ERROR) = false /\ (o =? SO_LINGER) = false.
Proof. intros Ho. pattern o. apply (one_of_elim _ _ _ Ho). by repeat constructor. Qed.

Lemma size_cases o : size_option o = true ->
  flag_option o = false /\ (o =? SO_ERROR) = false /\ (o =? SO_LINGER) = false /\ time_option o = false.
Proof. intros Ho. pattern o. apply (one_of_elim _ _ _ Ho). by repeat constructor. Qed.

Lemma time_split sec usec : 0 <= usec < 1000000 ->
  (sec * 1000000000 + usec * 1000) / 1000000000 = sec /\ (sec * 1000000000 + usec * 1000) mod 1000000000 / 1000 = usec.
Proof.
  intros Hu. rewrite Z.add_comm, Z.div_add, Z.mod_add, Z.div_small, Z.mod_small, Z.div_mul by lia. lia.
Qed.

(** The objects a set option is got back as, from those it was set with. *)
Inductive comes_back : Z -> list Z -> list Z -> Prop :=
  | Flag_back o v : flag_option o = true -> comes_back o (int_bytes v) (int_bytes (if s32 v =? 0 then 0 else 1))
  | Linger_back l_onoff l_linger : 0 < l_onoff < 2 ^ 31 -> 0 <= l_linger < 2 ^ 31 ->
      comes_back SO_LINGER (linger_bytes l_onoff l_linger) (linger_bytes 1 l_linger)
  | Time_back o sec usec : time_option o = true -> 0 <= sec -> 0 <= usec < 1000000 ->
      sec * 1000000000 + usec * 1000 < 2 ^ 64 ->
      comes_back o (timeval_bytes (Timeval sec usec)) (timeval_bytes (Timeval sec usec))
  | Size_back o v : size_option o = true -> comes_back o (int_bytes v) (int_bytes v).

(** Socket options come back.  After [setsockopt] of a flag, a size, a
    time or the linger time, [getsockopt] with room for it stores the bytes
    that were set, flags as 0 or 1 and microseconds exactly, and their
    length; or it fails. *)
Theorem sockopt_roundtrip s o v v' n (e e1 e2 : env W) r : comes_back o v v' -> (length v' <= n)%nat ->
  setsockopt s SOL_SOCKET o v e = Ret (0, e1) -> getsockopt unset s SOL_SOCKET o n e1 = Ret ((0, r), e2) ->
  r = Some (v', Z.of_nat (length v')).
Proof.
  intros Hback Hn. unfold setsockopt, getsockopt. change (option_level SOL_SOCKET o) with (SOL_SOCKET, o). cbn [negb].
  change (SOL_SOCKET =? SOL_SOCKET) with true. cbn [negb].
  destruct Hback as [o v Ho|on li Hon Hli|o sec usec Ho Hsec Husec Hall|o v Ho].
  - rewrite Ho. change (length (int_bytes v) <? 4)%nat with false. cbv iota.
    intros Hset%set_returned (b & Hget & ->)%opt_returned. eapply opt_flag_back in Hget; [|exact Hset|done]. subst b.
    pose proof (field_int v []) as Hf. rewrite app_nil_r in Hf. rewrite Hf, s32_w32, opt_bytes_fit; [by destruct (s32 v =? 0)|].
    by destruct (s32 v =? 0).
  - change (flag_option SO_LINGER) with false. change (SO_LINGER =? SO_ERROR) with false. change (SO_LINGER =? SO_LINGER) with true. cbv iota.
    change (length (linger_bytes on li) <? 8)%nat with false. cbv iota zeta.
    intros Hset%set_returned (b & Hget & ->)%opt_returned. eapply opt_time_back in Hget; [|exact Hset|done]. subst b.
    unfold linger_bytes. rewrite field_int, (field_skip (int_bytes on)) by done. pose proof (field_int li []) as Hf.
    rewrite app_nil_r in Hf. rewrite Hf, !s32_w32, !s32_small, (proj2 (Z.ltb_lt 0 on)) by lia. simpl default.
    rewrite w64_small, Z.div_mul, opt_bytes_fit by (done || lia). done.
  - destruct (time_cases _ Ho) as (-> & -> & ->). rewrite Ho.
    change (length (timeval_bytes (Timeval sec usec)) <? 16)%nat with false. cbv iota zeta.
    intros Hset%set_returned (b & Hget & ->)%opt_returned. eapply opt_time_back in Hget; [|exact Hset|done]. subst b.
    assert (Hs : forall x, 0 <= x < 2 ^ 63 -> s64 (w64 x) = x) by (intros; rewrite w64_small, s64_small; lia).
    unfold timeval_bytes. cbn [tval_sec tval_usec]. rewrite field_8, (field_skip (lb 8 (w64 sec))) by (done || apply w64_range).
    pose proof (field_8 (w64 usec) [] (w64_range _)) as Hf. rewrite app_nil_r in Hf. rewrite Hf, (Hs sec), (Hs usec) by lia.
    destruct ((0 <? sec) || (0 <? usec)) eqn:Epos.
    + rewrite !(w64_small (sec * 1000000000 + usec * 1000)) by lia. destruct (time_split sec usec Husec) as [-> ->]. by rewrite opt_bytes_fit.
    + replace sec with 0 by lia. replace usec with 0 by lia. by rewrite opt_bytes_fit.
  - destruct (size_cases _ Ho) as (-> & -> & -> & ->). rewrite Ho.
    change (length (int_bytes v) <? 4)%nat with false. cbv iota.
    intros Hset%set_returned (b & Hget & ->)%opt_returned. eapply opt_size_back in Hget; [|exact Hset|done]. subst b.
    pose proof (field_int v []) as Hf. rewrite app_nil_r in Hf. rewrite Hf. unfold int_bytes. rewrite w32_idem. by rewrite opt_bytes_fit.
Qed.
End Options.
