(* ===== verification/SockExamples.v ===== *)
(** The theorems on descriptors and sockets applied to a host with a table of
    descriptors, names of sockets and their options; it is one of those that
    report ports with their bytes swapped. *)
From S2P Require Import Prelude.
From S2P Require Import Wasi.
From S2P Require Import TimeConv.
From S2P Require Import Unistd.
From S2P Require Import Poll.
From S2P Require Import Paths.
From S2P Require Import At.
From S2P Require Import Fd.
From S2P Require Import FdProofs.
From S2P Require Import Sock.
From S2P Require Import SockProofs.
From S2P Require Import SockTheorems.

Record harbour := Harbour {
  table : gmap Z desc; names : gmap Z wasi_addr; next_fd : Z;
  flag_opts : gmap (Z * Z) bool; size_opts : gmap (Z * Z) Z; time_opts : gmap (Z * Z) (option Z) }.

Definition put_table (t : gmap Z desc) (h : harbour) : harbour :=
  Harbour t (names h) (next_fd h) (flag_opts h) (size_opts h) (time_opts h).
Definition put_names (t : gmap Z wasi_addr) (h : harbour) : harbour :=
  Harbour (table h) t (next_fd h) (flag_opts h) (size_opts h) (time_opts h).
Definition free_fd (h : harbour) (fd : Z) : bool :=
  bool_decide (0 <= fd /\ table h !! fd = None /\ names h !! fd = None).

(** A new descriptor, if the next number is free. *)
Definition new_fd (h : harbour) : Z * Z * harbour :=
  if free_fd h (next_fd h)
  then (0, next_fd h, Harbour (<[next_fd h := Desc 0 false 66]> (table h)) (names h) (next_fd h + 1) (flag_opts h) (size_opts h) (time_opts h))
  else (ENOMEM, 0, h).
Definition new_pair (h : harbour) : Z * Z * Z * harbour :=
  if free_fd h (next_fd h) && free_fd h (next_fd h + 1)
  then (0, next_fd h, next_fd h + 1,
        Harbour (<[next_fd h := Desc 0 false 2]> (<[next_fd h + 1 := Desc 0 false 64]> (table h))) (names h) (next_fd h + 2)
          (flag_opts h) (size_opts h) (time_opts h))
  else (ENOMEM, 0, 0, h).

(** Changes an open descriptor. *)
Definition change (fd : Z) (f : desc -> desc) (h : harbour) : Z * harbour :=
  match table h !! fd with Some d => (0, put_table (<[fd := f d]> (table h)) h) | None => (EBADF, h) end.

#[export] Instance harbour_fd : WasiFd harbour := {
  wasi_fd_pread _ _ _ h := (EBADF, [], h);
  wasi_fd_pwrite _ _ _ h := (EBADF, 0, h);
  wasi_fd_dup _ h := (EBADF, 0, h);
  wasi_fd_close fd h :=
    (if table h !! fd then 0 else EBADF, put_names (delete fd (names h)) (put_table (delete fd (table h)) h));
  wasi_fd_fdstat_get fd h :=
    match table h !! fd with
    | Some d => (0, FdStat 6 (d_flags d mod 32) (d_rights d) 0, h)
    | None => (EBADF, FdStat 0 0 0 0, h)
    end }.

#[export] Instance harbour_path : WasiPath harbour := {
  wasi_fd_prestat_get _ h := (EBADF, Prestat 0 0, h);
  wasi_fd_prestat_dir_name _ _ h := (EBADF, [], h);
  wasi_getcwd _ _ h := (ENOSYS, [], 0, h);
  wasi_chdir _ h := (ENOSYS, h);
  wasi_path_open2 _ _ _ _ _ _ _ _ h := (ENOSYS, 0, h);
  wasi_path_link _ _ _ _ _ h := (ENOSYS, h);
  wasi_path_rename _ _ _ _ h := (ENOSYS, h);
  wasi_path_symlink _ _ _ h := (ENOSYS, h);
  wasi_path_readlink _ _ _ h := (ENOSYS, [], h);
  wasi_path_create_directory _ _ h := (ENOSYS, h);
  wasi_path_unlink_file _ _ h := (ENOSYS, h);
  wasi_path_remove_directory _ _ h := (ENOSYS, h);
  wasi_path_filestat_get _ _ _ h := (ENOSYS, FileStat 0 0 0 0 0 0 0 0, h);
  wasi_path_filestat_set_times _ _ _ _ _ _ h := (ENOSYS, h);
  wasi_fd_filestat_get _ h := (ENOSYS, FileStat 0 0 0 0 0 0 0 0, h);
  wasi_fd_filestat_set_times _ _ _ _ h := (ENOSYS, h) }.

#[export] Instance harbour_file : WasiFile harbour := {
  wasi_fd_read _ _ h := (EBADF, [], h);
  wasi_fd_write _ _ h := (EBADF, 0, h);
  wasi_fd_preadv _ _ _ h := (EBADF, [], h);
  wasi_fd_pwritev _ _ _ h := (EBADF, 0, h);
  wasi_fd_seek _ _ _ h := (ESPIPE, 0, h);
  wasi_fd_tell _ h := (ESPIPE, 0, h);
  wasi_fd_sync _ h := (0, h);
  wasi_fd_datasync _ h := (0, h);
  wasi_fd_filestat_set_size _ _ h := (EBADF, h);
  wasi_fd_advise _ _ _ _ h := (0, h);
  wasi_fd_allocate _ _ _ h := (EBADF, h);
  wasi_fd_fdflags_get fd h :=
    match table h !! fd with Some d => (0, if d_cloexec d then 1 else 0, h) | None => (EBADF, 0, h) end;
  wasi_fd_fdflags_set fd fl h := change fd (fun d => Desc (d_flags d) (has fl FDFLAGSEXT_CLOEXEC) (d_rights d)) h;
  wasi_fd_fdstat_set_flags fd fl h :=
    if (0 <=? fl) && (fl <? 32) then change fd (fun d => Desc fl (d_cloexec d) (d_rights d)) h else (EINVAL, h);
  wasi_fd_dup2 _ _ _ h := (EBADF, 0, h);
  wasi_fd_renumber _ _ h := (EBADF, h);
  wasi_fd_pipe := new_pair;
  wasi_tty_get h := (0, Tty 80 25 0 0, TtyModes true true true true true true, h);
  wasi_tty_set _ _ h := (0, h);
  wasi_random_get n h := (0, replicate (Z.to_nat n) 4, h);
  wasi_proc_id h := (0, 2, h);
  wasi_proc_parent _ h := (0, 1, h) }.

#[export] Instance harbour_sock : WasiSock harbour := {
  wasi_sock_open _ _ _ := new_fd;
  wasi_sock_pair _ _ _ := new_pair;
  wasi_sock_bind fd a h := (0, put_names (<[fd := a]> (names h)) h);
  wasi_sock_connect _ _ h := (0, h);
  wasi_sock_listen _ _ h := (0, h);
  wasi_sock_accept_v2 _ _ h := (EAGAIN, 0, OtherAddr 0, h);
  wasi_sock_addr_local fd h := (0, match names h !! fd with Some a => swap_port a | None => OtherAddr 0 end, h);
  wasi_sock_addr_peer _ h := (ENOTSOCK, OtherAddr 0, h);
  wasi_sock_shutdown _ _ h := (0, h);
  wasi_sock_send _ _ _ h := (0, 0, h);
  wasi_sock_send_to _ _ _ _ h := (0, 0, h);
  wasi_sock_recv _ _ _ h := (EAGAIN, [], 0, h);
  wasi_sock_recv_from _ _ _ h := (EAGAIN, [], 0, OtherAddr 0, h);
  wasi_sock_send_file _ _ _ _ h := (0, 0, h);
  wasi_sock_get_opt_flag s o h := (0, default false (flag_opts h !! (s, o)), h);
  wasi_sock_set_opt_flag s o v h :=
    (0, Harbour (table h) (names h) (next_fd h) (<[(s, o) := v]> (flag_opts h)) (size_opts h) (time_opts h));
  wasi_sock_get_opt_size s o h := (0, default 0 (size_opts h !! (s, o)), h);
  wasi_sock_set_opt_size s o v h :=
    (0, Harbour (table h) (names h) (next_fd h) (flag_opts h) (<[(s, o) := v]> (size_opts h)) (time_opts h));
  wasi_sock_get_opt_time s o h := (0, default None (time_opts h !! (s, o)), h);
  wasi_sock_set_opt_time s o v h :=
    (0, Harbour (table h) (names h) (next_fd h) (flag_opts h) (size_opts h) (<[(s, o) := v]> (time_opts h))) }.

(** ** The laws *)

Definition harbour_desc (d : desc) : desc := Desc (d_flags d mod 32) (d_cloexec d) (d_rights d).

Lemma change_spec fd f h e h' g : change fd f h = (e, h') -> (forall d, harbour_desc (f d) = g (harbour_desc d)) ->
  if e =? 0 then exists d, (harbour_desc <$> table h) !! fd = Some d /\
                   harbour_desc <$> table h' = <[fd := g d]> (harbour_desc <$> table h)
  else harbour_desc <$> table h' = harbour_desc <$> table h.
Proof.
  unfold change. intros Hc Hg. destruct (table h !! fd) as [d|] eqn:E; injection Hc as <- <-; simpl; [|done].
  exists (harbour_desc d). rewrite lookup_fmap, E, fmap_insert, Hg. done.
Qed.

Lemma free_fd_spec h fd : free_fd h fd = true -> 0 <= fd /\ (harbour_desc <$> table h) !! fd = None /\ names h !! fd = None.
Proof. unfold free_fd. rewrite bool_decide_eq_true, lookup_fmap. by intros (? & -> & ?). Qed.

Lemma new_pair_spec h e a b h' : new_pair h = (e, a, b, h') ->
  if e =? 0
  then a <> b /\ (harbour_desc <$> table h) !! a = None /\ (harbour_desc <$> table h) !! b = None /\
    exists ra rb, harbour_desc <$> table h' = <[a := Desc 0 false ra]> (<[b := Desc 0 false rb]> (harbour_desc <$> table h))
  else harbour_desc <$> table h' = harbour_desc <$> table h.
Proof.
  unfold new_pair. destruct (_ && _) eqn:E; intros [= <- <- <- <-]; simpl; [|done].
  apply andb_true_iff in E as [(_ & Ha & _)%free_fd_spec (_ & Hb & _)%free_fd_spec].
  split_and!; [lia|done..|]. exists 2, 64. by rewrite !fmap_insert.
Qed.

#[export] Instance harbour_table : FdTable harbour.
Proof.
  refine {| fds h := harbour_desc <$> table h |}.
  - intros h fd d. rewrite lookup_fmap. destruct (table h !! fd); [|done]. intros [= <-]. simpl. apply Z.mod_pos_bound. lia.
  - intros fd h e st h'. simpl. destruct (table h !! fd) as [d|] eqn:E; intros [= <- <- <-]; (split; [done|]); [|done].
    intros _. exists (harbour_desc d). by rewrite lookup_fmap, E.
  - intros fd fl h e h'. simpl. destruct ((0 <=? fl) && (fl <? 32)) eqn:E; [|by intros [= <- <-]].
    intros Hc. eapply change_spec in Hc; [exact Hc|]. intros d. unfold harbour_desc. simpl. by rewrite (Z.mod_small fl) by lia.
  - intros fd h e fl h'. simpl. destruct (table h !! fd) as [d|] eqn:E; intros [= <- <- <-]; (split; [done|]); [|done].
    intros _. exists (harbour_desc d). rewrite lookup_fmap, E. split; [done|]. simpl. by destruct (d_cloexec d).
  - intros fd fl h e h' Hc. simpl in Hc. eapply change_spec in Hc; [exact Hc|done].
  - intros h e a b h'. apply new_pair_spec.
  - intros fd h e h'. simpl. intros [= _ <-]. simpl. apply fmap_delete.
Defined.

#[export] Instance harbour_sockfds : SockFds harbour.
Proof.
  split.
  - intros d t p h e fd h'. simpl. unfold new_fd. destruct (free_fd h (next_fd h)) eqn:E; intros [= <- <- <-]; simpl; [|done].
    apply free_fd_spec in E as (_ & E & _). split; [done|]. exists 66. by rewrite fmap_insert.
  - intros d t p h e a b h'. apply new_pair_spec.
Defined.

#[export] Instance harbour_names : SockNames harbour.
Proof.
  refine {| local := names; swapped := true |}.
  - intros d t p h e fd h'. simpl. unfold new_fd. destruct (free_fd h (next_fd h)) eqn:E; intros [= <- <- <-]; simpl; [|done].
    by apply free_fd_spec in E as (? & _ & ?).
  - intros fd a h e h'. simpl. intros [= <- <-]. simpl. destruct (port_field a =? 0); simpl; [|done].
    intros fd' Hne. by rewrite lookup_insert_ne.
  - intros fd h e a h'. simpl. intros [= <- <- <-]. split; [done|]. by intros a0 ->.
  - intros fd h e h'. simpl. by intros [= _ <-].
Defined.

#[export] Instance harbour_opts : SockOpts harbour.
Proof.
  split; intros s o v h h1 e v' h2; simpl; intros [= <-] [= <- <- _] _; simpl; by rewrite lookup_insert_eq.
Defined.

(** ** The theorems at work *)

Definition harbour0 : env harbour := Env 0 (Harbour {[ 3 := Desc 1 false 66 ]} ∅ 5 ∅ ∅ ∅).

Definition value {S A} (o : outcome (A * S)) : option A := match o with Ret (a, _) => Some a | Stop _ => None end.

Lemma pipe2_spec_witness : value (pipe2 (Z.lor O_CLOEXEC O_NONBLOCK) harbour0) = Some (0, Some (5, 6)) /\
  exists r e', pipe2 (Z.lor O_CLOEXEC O_NONBLOCK) harbour0 = Ret (r, e') /\
    pipe_result harbour0 (fun rights => Desc O_NONBLOCK true rights) r e'.
Proof.
  split; [vm_compute; reflexivity|]. apply (pipe2_spec (Z.lor O_CLOEXEC O_NONBLOCK) harbour0).
Defined.

Lemma fcntl_flags_witness : exists e1 e2,
  fcntl 3 F_GETFL 0 harbour0 = Ret (Z.lor 1 O_RDWR, e1) /\
  fcntl 3 F_SETFL (Z.lor (Z.lor 1 O_RDWR) O_NONBLOCK) e1 = Ret (0, e2) /\
  exists d, fds (world harbour0) !! 3 = Some d /\ Z.land (Z.lor 1 O_RDWR) O_ACCMODE = access_mode (d_rights d) /\
    fds (world e2) = <[3 := Desc (Z.lor (d_flags d) O_NONBLOCK) (d_cloexec d) (d_rights d)]> (fds (world harbour0)).
Proof.
  destruct (fcntl 3 F_SETFL (Z.lor (Z.lor 1 O_RDWR) O_NONBLOCK) harbour0) as [[r e2]|] eqn:E; [|vm_compute in E; discriminate].
  assert (r = 0) as -> by (apply (f_equal value) in E; vm_compute in E; congruence).
  assert (Hg : fcntl 3 F_GETFL 0 harbour0 = Ret (Z.lor 1 O_RDWR, harbour0)) by (vm_compute; reflexivity).
  exists harbour0, e2. split; [exact Hg|]. split; [exact E|].
  destruct (fcntl_flags 3 harbour0) as (_ & Hfl & _). eapply Hfl; [exact Hg|vm_compute; discriminate|unfold O_NONBLOCK; lia|exact E].
Defined.

Lemma sockets_whole_witness : value (socketpair AF_UNIX (Z.lor SOCK_STREAM SOCK_CLOEXEC) 0 harbour0) = Some (0, Some (5, 6)) /\
  (exists r e', socket AF_UNIX (Z.lor SOCK_STREAM SOCK_CLOEXEC) 0 harbour0 = Ret (r, e') /\
     socket_result harbour0 (Z.lor SOCK_STREAM SOCK_CLOEXEC) r e') /\
  (exists r e', socketpair AF_UNIX (Z.lor SOCK_STREAM SOCK_CLOEXEC) 0 harbour0 = Ret (r, e') /\
     pipe_result harbour0 (fun rights => flagged (Z.lor SOCK_STREAM SOCK_CLOEXEC) (Desc 0 false rights)) r e').
Proof.
  split; [vm_compute; reflexivity|]. apply (sockets_whole AF_UNIX (Z.lor SOCK_STREAM SOCK_CLOEXEC) 0 harbour0).
Defined.

(** 192.0.2.7, port 8080 in network order, and the bytes that are not set. *)
Definition web : list Z := lb 2 AF_INET ++ [31; 144] ++ [192; 0; 2; 7] ++ replicate 8 0.
Definition junk0 : junk := Junk (replicate 8 170) (replicate 4 170).
Definition bound : env harbour := Env 0 (put_names {[ 3 := Inet4 8080 [192; 0; 2; 7] ]} (world harbour0)).

Lemma getsockname_bound_witness :
  value (getsockname junk0 3 16 (SState (fun _ => None) bound)) = Some (0, Some (take 8 web ++ replicate 8 170, 16)) /\
  exists r s', getsockname junk0 3 (length web) (SState (fun _ => None) bound) = Ret (r, s') /\
    let error := (wasi_sock_addr_local 3 (world bound)).1.1 in
    if error =? 0 then
      tested s' Getsockname_c = Some (negb (swapped (W := harbour))) /\
      exists l, r = (0, Some (l, Z.of_nat (length web))) /\ take (significant web) l = take (significant web) web
    else r = (-1, None) /\ errno (senv s') = error.
Proof.
  split; [vm_compute; reflexivity|].
  apply (getsockname_bound junk0 3 web (SState (fun _ => None) harbour0) bound).
  - split; [apply (bool_decide_unpack _); vm_compute; exact I|]. split; [vm_compute; discriminate|]. left. split; reflexivity.
  - vm_compute. reflexivity.
  - left. split; [reflexivity|]. intros _. vm_compute. done.
Defined.

Definition rcvtimeo : env harbour := match setsockopt 3 SOL_SOCKET SO_RCVTIMEO (timeval_bytes (Timeval 2 500000)) harbour0 with
                                     | Ret (_, e) => e | Stop _ => harbour0 end.

Lemma sockopt_roundtrip_witness :
  getsockopt 0 3 SOL_SOCKET SO_RCVTIMEO 16 rcvtimeo = Ret ((0, Some (timeval_bytes (Timeval 2 500000), 16)), rcvtimeo) /\
  Some (timeval_bytes (Timeval 2 500000), 16) = Some (timeval_bytes (Timeval 2 500000), Z.of_nat 16).
Proof.
  assert (Hg : getsockopt 0 3 SOL_SOCKET SO_RCVTIMEO 16 rcvtimeo = Ret ((0, Some (timeval_bytes (Timeval 2 500000), 16)), rcvtimeo))
    by (vm_compute; reflexivity).
  split; [exact Hg|].
  apply (sockopt_roundtrip 0 3 SO_RCVTIMEO (timeval_bytes (Timeval 2 500000)) (timeval_bytes (Timeval 2 500000)) 16 harbour0 rcvtimeo rcvtimeo).
  - apply Time_back; [reflexivity|lia..].
  - reflexivity.
  - vm_compute. reflexivity.
  - exact Hg.
Defined.

(** The name of a local socket is lost on the way back; only its length is
    reported. *)
Example unix_name_lost :
  let e1 := match bind 3 (lb 2 AF_UNIX ++ bytes_of "/tmp/s"%string) harbour0 with Ret (_, e) => e | Stop _ => harbour0 end in
  names (world e1) !! 3 = Some (UnixAddr (bytes_of "/tmp/s"%string ++ replicate 102 0)) /\
  value (getsockname junk0 3 32 (SState (fun _ => None) e1)) = Some (0, Some (replicate 32 0, 8)).
Proof. split; vm_compute; reflexivity. Qed.

(** The error of an address of an unknown family. *)
Example bad_family_errno :
  match bind 3 (lb 2 77 ++ replicate 14 0) harbour0 with Ret (r, e) => (r, errno e) = (-1, 65535) | Stop _ => False end.
Proof. vm_compute. reflexivity. Qed.
