(* ===== verification/Stdio.v ===== *)
(** Buffered streams ([musl/src/stdio], [internal/stdio_impl.h]).  A [FILE] has
    a buffer with room for [UNGET] bytes in front of it, pointers into the
    buffer, and functions that move bytes between it and what lies below.
    These functions are the class [Device]: descriptors and memory streams are
    its instances ([StdioFd], [StdioMem]). *)
From S2P Require Import Prelude.
From S2P Require Import Wasi.

(** ** The structure ([stdio_impl.h]) *)
Definition UNGET : Z := 8.
Definition F_PERM : Z := 1.
Definition F_NORD : Z := 4.
Definition F_NOWR : Z := 8.
Definition F_EOF : Z := 16.
Definition F_ERR : Z := 32.
Definition F_SVB : Z := 64.
Definition F_APP : Z := 128.
Definition MAYBE_WAITERS : Z := 1073741824.

Definition EOF : Z := -1.
Definition BUFSIZ : Z := 1024.
Definition _IOFBF : Z := 0.
Definition _IOLBF : Z := 1.
Definition _IONBF : Z := 2.
Definition SEEK_SET : Z := 0.
Definition SEEK_CUR : Z := 1.
Definition SEEK_END : Z := 2.
Definition newline : Z := 10.

(** What [f->write] points to on a descriptor: standard output finds out
    whether it is a terminal when it is first written. *)
Inductive writer := Stdio_write | Stdout_write.

(** A pointer is an address, 0 the null pointer; [bytes] is the memory from
    [buf - UNGET] to the end of the buffer. *)
Record FILE := File {
  flags : Z;
  rpos : Z; rend : Z;
  wend : Z; wpos : Z; wbase : Z;
  write_fn : writer;
  buf : Z; buf_size : Z; bytes : list Z;
  fd : Z;
  mode : Z;
  lock : Z;
  lbf : Z }.

Definition set_flags (v : Z) (f : FILE) : FILE :=
  File v (rpos f) (rend f) (wend f) (wpos f) (wbase f) (write_fn f) (buf f) (buf_size f) (bytes f) (fd f) (mode f) (lock f) (lbf f).
Definition set_r (rp re : Z) (f : FILE) : FILE :=
  File (flags f) rp re (wend f) (wpos f) (wbase f) (write_fn f) (buf f) (buf_size f) (bytes f) (fd f) (mode f) (lock f) (lbf f).
Definition set_w (we wp wb : Z) (f : FILE) : FILE :=
  File (flags f) (rpos f) (rend f) we wp wb (write_fn f) (buf f) (buf_size f) (bytes f) (fd f) (mode f) (lock f) (lbf f).
Definition set_fn (w : writer) (f : FILE) : FILE :=
  File (flags f) (rpos f) (rend f) (wend f) (wpos f) (wbase f) w (buf f) (buf_size f) (bytes f) (fd f) (mode f) (lock f) (lbf f).
Definition set_buf (b n : Z) (l : list Z) (f : FILE) : FILE :=
  File (flags f) (rpos f) (rend f) (wend f) (wpos f) (wbase f) (write_fn f) b n l (fd f) (mode f) (lock f) (lbf f).
Definition set_bytes (l : list Z) (f : FILE) : FILE := set_buf (buf f) (buf_size f) l f.
Definition set_fd (v : Z) (f : FILE) : FILE :=
  File (flags f) (rpos f) (rend f) (wend f) (wpos f) (wbase f) (write_fn f) (buf f) (buf_size f) (bytes f) v (mode f) (lock f) (lbf f).
Definition set_mode (v : Z) (f : FILE) : FILE :=
  File (flags f) (rpos f) (rend f) (wend f) (wpos f) (wbase f) (write_fn f) (buf f) (buf_size f) (bytes f) (fd f) v (lock f) (lbf f).
Definition set_lock (v : Z) (f : FILE) : FILE :=
  File (flags f) (rpos f) (rend f) (wend f) (wpos f) (wbase f) (write_fn f) (buf f) (buf_size f) (bytes f) (fd f) (mode f) v (lbf f).
Definition set_lbf (v : Z) (f : FILE) : FILE :=
  File (flags f) (rpos f) (rend f) (wend f) (wpos f) (wbase f) (write_fn f) (buf f) (buf_size f) (bytes f) (fd f) (mode f) (lock f) v.

(** A stream and the world below it. *)
Record io (X : Type) := Io { file : FILE; sys : env X }.
Arguments Io {X} _ _.
Arguments file {X} _.
Arguments sys {X} _.

Section Access.
Context {X : Type}.

Definition update (g : FILE -> FILE) : M (io X) unit := modify (fun s => Io (g (file s)) (sys s)).

(** A call that does not see the stream. *)
Definition below {A} (m : M (env X) A) : M (io X) A :=
  fun s => match m (sys s) with Ret (a, e) => Ret (a, Io (file s) e) | Stop r => Stop r end.

Definition set_flag (m : Z) : M (io X) unit := update (fun f => set_flags (Z.lor (flags f) m) f).
Definition clear_flag (m : Z) : M (io X) unit := update (fun f => set_flags (Z.land (flags f) (Z.lnot m)) f).

(** [n] bytes at a pointer into the buffer; outside it the behaviour is
    undefined.  Nothing is read or written through a pointer of a copy of no
    bytes. *)
Definition load (p n : Z) : M (io X) (list Z) :=
  f ← gets file;
  let i := p - (buf f - UNGET) in
  if n =? 0 then mret []
  else if (0 <=? i) && (0 <=? n) && (i + n <=? Z.of_nat (length (bytes f)))
  then mret (take (Z.to_nat n) (drop (Z.to_nat i) (bytes f)))
  else halt Undefined.

Definition store (p : Z) (l : list Z) : M (io X) unit :=
  f ← gets file;
  let i := p - (buf f - UNGET) in
  let n := Z.of_nat (length l) in
  if n =? 0 then mret tt
  else if (0 <=? i) && (i + n <=? Z.of_nat (length (bytes f)))
  then update (set_bytes (take (Z.to_nat i) (bytes f) ++ l ++ drop (Z.to_nat (i + n)) (bytes f)))
  else halt Undefined.

Definition load1 (p : Z) : M (io X) Z :=
  l ← load p 1;
  match l with b :: _ => mret b | [] => halt Undefined end.

Definition advance (k : Z) : M (io X) unit := update (fun f => set_r (rpos f + k) (rend f) f).

(** Byte orientation, unless the stream is wide already. *)
Definition orient : M (io X) unit := update (fun f => set_mode (Z.lor (mode f) (mode f - 1)) f).
End Access.

(** ** What lies below: [f->read], [f->write], [f->seek], [f->close]

    [f_read n] gives the bytes stored in the caller's buffer, as many as it
    returns. *)
Class Device (X : Type) := {
  f_read : Z -> M (io X) (list Z);
  f_write : list Z -> M (io X) Z;
  f_seek : Z -> Z -> M (io X) Z;
  f_close : M (io X) Z }.

Section Stream.
Context {X : Type} `{Device X}.
(** The identifier of the calling thread. *)
Variable tid : Z.

(** ** Locks ([__lockfile.c]): a call that must wait for another thread does
    not return; nobody else waits *)
Definition mine (l : Z) : bool := Z.land l (Z.lnot MAYBE_WAITERS) =? tid.

Definition __lockfile : M (io X) Z :=
  owner ← gets (fun s => lock (file s));
  if mine owner then mret 0
  else if owner =? 0 then update (set_lock tid);; mret 1
  else halt Deadlock.

Definition __unlockfile : M (io X) unit := update (set_lock 0).

(** [FLOCK] and [FUNLOCK] around a body. *)
Definition with_lock {A} (m : M (io X) A) : M (io X) A :=
  l ← gets (fun s => lock (file s));
  need_unlock ← (if 0 <=? l then __lockfile else mret 0);
  r ← m;
  when (negb (need_unlock =? 0)) __unlockfile;;
  mret r.

(** ** Modes *)

Definition __towrite : M (io X) Z :=
  orient;;
  f ← gets file;
  if has (flags f) F_NOWR then set_flag F_ERR;; mret EOF else
  update (set_r 0 0);;
  update (set_w (buf f + buf_size f) (buf f) (buf f));;
  mret 0.

Definition __toread : M (io X) Z :=
  orient;;
  f ← gets file;
  when (negb (wpos f =? wbase f)) (f_write [];; mret tt);;
  update (set_w 0 0 0);;
  f ← gets file;
  if has (flags f) F_NORD then set_flag F_ERR;; mret EOF else
  update (set_r (buf f + buf_size f) (buf f + buf_size f));;
  mret (if has (flags f) F_EOF then EOF else 0).

(** ** Output *)

(** The length of the longest prefix that is empty or ends in a newline, of at
    most [i] bytes. *)
Fixpoint upto_newline (s : list Z) (i : nat) : nat :=
  match i with
  | O => O
  | S j => if at_ s j =? newline then S j else upto_newline s j
  end.

(** Whether the stream can be written. *)
Definition ready_to_write : M (io X) bool :=
  f ← gets file;
  if wend f =? 0 then r ← __towrite; mret (r =? 0) else mret true.

Definition buffer_bytes (s : list Z) : M (io X) unit :=
  f ← gets file;
  store (wpos f) s;;
  update (fun f => set_w (wend f) (wpos f + Z.of_nat (length s)) (wbase f) f).

Definition __fwritex (s : list Z) : M (io X) Z :=
  ready ← ready_to_write;
  if negb ready then mret 0 else
  f ← gets file;
  let l := Z.of_nat (length s) in
  if w32 (wend f - wpos f) <? l then f_write s else
  let i := if 0 <=? lbf f then upto_newline s (length s) else O in
  if (0 <? i)%nat then
    n ← f_write (take i s);
    if n <? Z.of_nat i then mret n else buffer_bytes (drop i s);; mret l
  else buffer_bytes s;; mret l.

Definition fwrite (src : list Z) (size nmemb : Z) : M (io X) Z :=
  let l := w32 (size * nmemb) in
  let nmemb := if size =? 0 then 0 else nmemb in
  if Z.of_nat (length src) <? l then halt Undefined else
  k ← with_lock (__fwritex (take (Z.to_nat l) src));
  mret (if k =? l then nmemb else k / size).

Definition fputs (s : list Z) : M (io X) Z :=
  let l := Z.of_nat (length s) in
  k ← fwrite s 1 l;
  mret ((if k =? l then 1 else 0) - 1).

Definition __overflow (_c : Z) : M (io X) Z :=
  let c := w8 _c in
  ready ← ready_to_write;
  if negb ready then mret EOF else
  f ← gets file;
  if negb (wpos f =? wend f) && negb (c =? lbf f) then buffer_bytes [c];; mret c else
  n ← f_write [c];
  mret (if n =? 1 then c else EOF).

Definition putc_unlocked (c : Z) : M (io X) Z :=
  f ← gets file;
  if negb (w8 c =? lbf f) && negb (wpos f =? wend f) then buffer_bytes [w8 c];; mret (w8 c)
  else __overflow (w8 c).

(** [do_putc] and [do_getc] ([putc.h], [getc.h]): the lock is taken with an
    identifier of no thread. *)
Definition locking {A} (m : M (io X) A) : M (io X) A :=
  l ← gets (fun s => lock (file s));
  (if l =? 0 then update (set_lock (MAYBE_WAITERS - 1)) else __lockfile;; mret tt);;
  r ← m;
  __unlockfile;;
  mret r.

Definition once_locked {A} (m : M (io X) A) : M (io X) A :=
  l ← gets (fun s => lock (file s));
  if (l <? 0) || (negb (l =? 0) && mine l) then m else locking m.

Definition fputc (c : Z) : M (io X) Z := once_locked (putc_unlocked c).

Definition puts (s : list Z) : M (io X) Z :=
  with_lock
    (r ← fputs s;
     if r <? 0 then mret (-1) else
     r ← putc_unlocked newline;
     mret (if r <? 0 then -1 else 0)).

(** ** Input *)

(** What is in the buffer and not read yet. *)
Definition avail (f : FILE) : Z := rend f - rpos f.

(** Copies at most [l] bytes out of the buffer. *)
Definition from_buffer (l : Z) : M (io X) (list Z) :=
  f ← gets file;
  if rpos f =? rend f then mret [] else
  let k := Z.min (avail f) l in
  bs ← load (rpos f) k;
  advance k;;
  mret bs.

(** [for (; l; l -= k, dest += k)]: reads until [l] bytes are there or a call
    gives none. *)
Fixpoint read_rest (fuel : nat) (l : Z) : M (io X) (list Z) :=
  if l =? 0 then mret [] else
  match fuel with
  | O => halt OutOfFuel
  | S fuel =>
      r ← __toread;
      bs ← (if r =? 0 then f_read l else mret []);
      if (length bs =? 0)%nat then mret [] else
      rest ← read_rest fuel (l - Z.of_nat (length bs));
      mret (bs ++ rest)
  end.

(** Result: the number of items and the bytes stored. *)
Definition fread (size nmemb : Z) : M (io X) (Z * list Z) :=
  let len := w32 (size * nmemb) in
  let nmemb := if size =? 0 then 0 else nmemb in
  with_lock
    (orient;;
     bs ← from_buffer len;
     rest ← read_rest (S (Z.to_nat len)) (len - Z.of_nat (length bs));
     let all := bs ++ rest in
     mret (if Z.of_nat (length all) =? len then nmemb else Z.of_nat (length all) / size, all)).

Definition __uflow : M (io X) Z :=
  r ← __toread;
  if negb (r =? 0) then mret EOF else
  l ← f_read 1;
  match l with [c] => mret c | _ => mret EOF end.

Definition getc_unlocked : M (io X) Z :=
  f ← gets file;
  if negb (rpos f =? rend f) then c ← load1 (rpos f); advance 1;; mret c else __uflow.

Definition fgetc : M (io X) Z := once_locked getc_unlocked.

Definition ungetc (c : Z) : M (io X) Z :=
  if c =? EOF then mret c else
  with_lock
    (f ← gets file;
     when (rpos f =? 0) (__toread;; mret tt);;
     f ← gets file;
     if (rpos f =? 0) || (rpos f <=? buf f - UNGET) then mret EOF else
     advance (-1);;
     f ← gets file;
     store (rpos f) [w8 c];;
     clear_flag F_EOF;;
     mret (w8 c)).

(** [memchr] at an address: bytes up to a word boundary, then words that do not
    hold [c], then bytes.  Each loop leaves the bytes it has not passed; the
    result is the number of those passed. *)
Definition ONES : Z := 16843009.
Definition HIGHS : Z := ONES * 128.
Definition HASZERO (x : Z) : Z := Z.land (Z.land (w32 (x - ONES)) (w32 (Z.lnot x))) HIGHS.

Fixpoint to_aligned (p : Z) (s : list Z) (c : Z) : list Z :=
  match s with
  | b :: s' => if negb (Z.land p 3 =? 0) && negb (b =? c) then to_aligned (p + 1) s' c else s
  | [] => []
  end.
Fixpoint pass_words (s : list Z) (c : Z) : list Z :=
  match s with
  | b0 :: b1 :: b2 :: b3 :: s' =>
      if HASZERO (Z.lxor (le [b0; b1; b2; b3]) (w32 (ONES * c))) =? 0 then pass_words s' c else s
  | _ => s
  end.
Fixpoint pass_bytes (s : list Z) (c : Z) : list Z :=
  match s with
  | b :: s' => if b =? c then s else pass_bytes s' c
  | [] => []
  end.

Definition memchr (p : Z) (src : list Z) (c : Z) : option nat :=
  let c := w8 c in
  let s := to_aligned p src c in
  let s := match s with b :: _ => if b =? c then s else pass_words s c | [] => [] end in
  match pass_bytes s c with
  | [] => None
  | r => Some (length src - length r)%nat
  end.

(** [getdelim] and [fgets] look in the buffer for the end of the line: how many
    bytes to take, and whether the end is among them. *)
Definition find_in_buffer (delim : Z) : M (io X) (Z * bool) :=
  f ← gets file;
  if rpos f =? rend f then mret (0, false) else
  bs ← load (rpos f) (avail f);
  mret (match memchr (rpos f) bs delim with
        | Some z => (Z.of_nat z + 1, true)
        | None => (avail f, false)
        end).

(** The loop of [fgets]: room for [n] bytes, [p] stored so far; [None] when the
    result is the null pointer. *)
Fixpoint fgets_loop (fuel : nat) (n : Z) (p : list Z) : M (io X) (option unit * list Z) :=
  if n =? 0 then mret (Some tt, p) else
  match fuel with
  | O => halt OutOfFuel
  | S fuel =>
      f ← gets file;
      '(k, z) ← find_in_buffer newline;
      let k := Z.min k n in
      bs ← load (rpos f) k;
      advance k;;
      let p := p ++ bs in
      let n := n - k in
      if negb (rpos f =? rend f) && (z || (n =? 0)) then mret (Some tt, p) else
      c ← getc_unlocked;
      if c <? 0 then
        f ← gets file;
        mret (if (length p =? 0)%nat || negb (has (flags f) F_EOF) then None else Some tt, p)
      else
        let p := p ++ [c] in
        if c =? newline then mret (Some tt, p) else fgets_loop fuel (n - 1) p
  end.

(** Result: whether [s] or the null pointer is returned, and the bytes stored. *)
Definition fgets (n : Z) : M (io X) (option unit * list Z) :=
  with_lock
    (if n <=? 1 then
       orient;;
       mret (if negb (n - 1 =? 0) then (None, []) else (Some tt, [0]))
     else
       '(s, p) ← fgets_loop (S (Z.to_nat n)) (n - 1) [];
       mret (s, match s with Some _ => p ++ [0] | None => p end)).

(** ** Positions *)

(** Sends what has been written below; false when that failed. *)
Definition flush_pending : M (io X) bool :=
  f ← gets file;
  if negb (wpos f =? wbase f) then
    f_write [];;
    f ← gets file;
    mret (negb (wpos f =? 0))
  else mret true.

Definition fflush : M (io X) Z :=
  with_lock
    (ok ← flush_pending;
     if negb ok then mret EOF else
     f ← gets file;
     when (negb (rpos f =? rend f)) (f_seek (rpos f - rend f) SEEK_CUR;; mret tt);;
     update (set_w 0 0 0);;
     update (set_r 0 0);;
     mret 0).

Definition __fseeko_unlocked (off whence : Z) : M (io X) Z :=
  f ← gets file;
  let off := if (whence =? SEEK_CUR) && negb (rend f =? 0) then s64 (off - (rend f - rpos f)) else off in
  ok ← flush_pending;
  if negb ok then mret (-1) else
  update (set_w 0 0 0);;
  r ← f_seek off whence;
  if r <? 0 then mret (-1) else
  update (set_r 0 0);;
  clear_flag F_EOF;;
  mret 0.

Definition __fseeko (off whence : Z) : M (io X) Z := with_lock (__fseeko_unlocked off whence).

Definition fseek (off whence : Z) : M (io X) Z := __fseeko off whence.

Definition __ftello_unlocked : M (io X) Z :=
  f ← gets file;
  pos ← f_seek 0 (if has (flags f) F_APP && negb (wpos f =? wbase f) then SEEK_END else SEEK_CUR);
  if pos <? 0 then mret pos else
  f ← gets file;
  if negb (rend f =? 0) then mret (pos + (rpos f - rend f))
  else if negb (wbase f =? 0) then mret (pos + (wpos f - wbase f))
  else mret pos.

Definition __ftello : M (io X) Z := with_lock __ftello_unlocked.

Definition ftell : M (io X) Z :=
  pos ← __ftello;
  if 2 ^ 31 - 1 <? pos then below (set_errno EOVERFLOW);; mret (-1) else mret pos.

Definition rewind : M (io X) unit :=
  with_lock (__fseeko_unlocked 0 SEEK_SET;; clear_flag F_ERR).

(** The position in [*pos] on success. *)
Definition fgetpos : M (io X) (Z * option Z) :=
  off ← __ftello;
  mret (if off <? 0 then (-1, None) else (0, Some off)).

Definition fsetpos (pos : Z) : M (io X) Z := __fseeko pos SEEK_SET.

(** ** Indicators and small functions *)

Definition clearerr : M (io X) unit := with_lock (clear_flag (Z.lor F_EOF F_ERR)).
Definition feof : M (io X) bool := with_lock (gets (fun s => has (flags (file s)) F_EOF)).
Definition ferror : M (io X) bool := with_lock (gets (fun s => has (flags (file s)) F_ERR)).

Definition fileno : M (io X) Z :=
  n ← with_lock (gets (fun s => fd (file s)));
  if n <? 0 then below (set_errno EBADF);; mret (-1) else mret n.

(** A buffer of the caller is its address and its bytes. *)
Definition setvbuf (b : option (Z * list Z)) (type size : Z) : M (io X) Z :=
  update (set_lbf EOF);;
  let done_ := set_flag F_SVB;; mret 0 in
  if type =? _IONBF then
    update (fun f => set_buf (buf f) 0 (bytes f) f);; done_
  else if (type =? _IOLBF) || (type =? _IOFBF) then
    match b with
    | Some (p, l) =>
        when (UNGET <=? size)
          (if Z.of_nat (length l) <? size then halt Undefined
           else update (set_buf (p + UNGET) (size - UNGET) (take (Z.to_nat size) l)))
    | None => mret tt
    end;;
    f ← gets file;
    when ((type =? _IOLBF) && negb (buf_size f =? 0)) (update (set_lbf newline));;
    done_
  else mret (-1).

Definition setbuf (b : option (Z * list Z)) : M (io X) Z :=
  setvbuf b (match b with Some _ => _IOFBF | None => _IONBF end) BUFSIZ.
Definition setlinebuf : M (io X) Z := setvbuf None _IOLBF 0.

Definition putw (x : Z) : M (io X) Z :=
  r ← fwrite (lb 4 (w32 x)) 4 1; mret (r - 1).
Definition getw : M (io X) Z :=
  '(r, l) ← fread 4 1;
  mret (if negb (r =? 0) then s32 (le l) else EOF).

(** [stdio_ext.h] ([ext.c], [ext2.c]). *)
Definition __fwriting (f : FILE) : bool := has (flags f) F_NORD || negb (wend f =? 0).
Definition __freading (f : FILE) : bool := has (flags f) F_NOWR || negb (rend f =? 0).
Definition __freadable (f : FILE) : bool := negb (has (flags f) F_NORD).
Definition __fwritable (f : FILE) : bool := negb (has (flags f) F_NOWR).
Definition __flbf (f : FILE) : bool := 0 <=? lbf f.
Definition __fpending (f : FILE) : Z := if negb (wend f =? 0) then wpos f - wbase f else 0.
Definition __freadahead (f : FILE) : Z := if negb (rend f =? 0) then rend f - rpos f else 0.
Definition __fpurge (f : FILE) : FILE := set_r 0 0 (set_w 0 0 0 f).
End Stream.
