(* ===== verification/StdioDev.v ===== *)
(** What lies below a stream: descriptors ([__stdio_read.c], [__stdio_write.c],
    [__stdio_seek.c], [__stdio_close.c], [__stdout_write.c]) and growing memory
    ([open_memstream.c]).  Both are instances of [Device]. *)
From S2P Require Import Prelude.
From S2P Require Import Wasi.
From S2P Require Import Unistd.
From S2P Require Import Fd.
From S2P Require Import Stdio.

(** ** Descriptors *)
Section Descriptor.
Context {W : Type} `{WasiFd W, WasiFile W}.

(** The bytes that were read go to the caller's buffer ([len] bytes, the last
    one left out when the stream has a buffer) and then to the stream's. *)
Definition __stdio_read (len : Z) : M (io W) (list Z) :=
  f ← gets file;
  let n0 := w32 (len - (if buf_size f =? 0 then 0 else 1)) in
  '(cnt, l) ← below (if negb (n0 =? 0) then readv (fd f) [n0; buf_size f] 2 else Fd.read (fd f) (buf_size f));
  if cnt <=? 0 then set_flag (if cnt =? 0 then F_EOF else F_ERR);; mret []
  else if w32 cnt <=? n0 then mret l
  else
    let cnt := cnt - n0 in
    store (buf f) (drop (Z.to_nat n0) l);;
    update (set_r (buf f) (buf f + cnt));;
    if negb (buf_size f =? 0) then
      c ← load1 (buf f);
      advance 1;;
      mret (take (Z.to_nat n0) l ++ [c])
    else mret (take (Z.to_nat n0) l).

(** The vector has one or two elements; elements that are written whole are
    dropped. *)
Fixpoint write_vector (fuel : nat) (iov : list (list Z)) (rem len : Z) : M (io W) Z :=
  match fuel with
  | O => halt OutOfFuel
  | S fuel =>
      f ← gets file;
      cnt ← below (writev (fd f) iov (Z.of_nat (length iov)));
      if w32 cnt =? rem then
        update (set_w (buf f + buf_size f) (buf f) (buf f));; mret len
      else if cnt <? 0 then
        update (set_w 0 0 0);;
        set_flag F_ERR;;
        mret (if (length iov =? 2)%nat then 0 else w32 (len - Z.of_nat (length (default [] (head iov)))))
      else
        let rem := w32 (rem - cnt) in
        match iov with
        | [] => halt Undefined
        | v :: rest =>
            if Z.of_nat (length v) <? w32 cnt then
              match rest with
              | [] => halt Undefined
              | v' :: rest' => write_vector fuel (drop (Z.to_nat (cnt - Z.of_nat (length v))) v' :: rest') rem len
              end
            else write_vector fuel (drop (Z.to_nat cnt) v :: rest) rem len
        end
  end.

Definition __stdio_write (l : list Z) : M (io W) Z :=
  f ← gets file;
  pending ← load (wbase f) (wpos f - wbase f);
  let rem := w32 (Z.of_nat (length pending) + Z.of_nat (length l)) in
  write_vector (S (Z.to_nat rem)) [pending; l] rem (Z.of_nat (length l)).

Definition __stdio_seek (off whence : Z) : M (io W) Z :=
  f ← gets file; below (lseek (fd f) off whence).

Definition __stdio_close : M (io W) Z :=
  f ← gets file; below (close (fd f)).

(** The first write to standard output: without a terminal it is not line
    buffered. *)
Definition __stdout_write (l : list Z) : M (io W) Z :=
  update (set_fn Stdio_write);;
  f ← gets file;
  plain ← (if has (flags f) F_SVB then mret false else r ← below (isatty (fd f)); mret (r =? 0));
  when plain (update (set_lbf (-1)));;
  __stdio_write l.

#[export] Instance descriptor : Device W := {|
  f_read := __stdio_read;
  f_write l := f ← gets file; match write_fn f with Stdio_write => __stdio_write l | Stdout_write => __stdout_write l end;
  f_seek := __stdio_seek;
  f_close := __stdio_close |}.
End Descriptor.

(** The standard streams ([stdin.c], [stdout.c], [stderr.c]) on static buffers
    at the given address. *)
Definition __stdin_FILE (at_buf : Z) (l : list Z) : FILE :=
  File (Z.lor F_PERM F_NOWR) 0 0 0 0 0 Stdio_write (at_buf + UNGET) BUFSIZ l 0 0 (-1) 0.
Definition __stdout_FILE (at_buf : Z) (l : list Z) : FILE :=
  File (Z.lor F_PERM F_NORD) 0 0 0 0 0 Stdout_write (at_buf + UNGET) BUFSIZ l 1 0 (-1) newline.
Definition __stderr_FILE (at_buf : Z) (l : list Z) : FILE :=
  File (Z.lor F_PERM F_NORD) 0 0 0 0 0 Stdio_write (at_buf + UNGET) 0 l 2 0 (-1) (-1).

(** ** Memory that grows ([open_memstream.c])

    The world has the allocator; the buffer is the list of its [space] bytes
    (one byte when [space] is 0), [sizep] is the caller's object. *)
Record mstream (W : Type) := MStream {
  ms_pos : Z; ms_buf : list Z; ms_len : Z; ms_space : Z; sizep : Z; heap_ : W }.
Arguments MStream {W} _ _ _ _ _ _.
Arguments ms_pos {W} _.
Arguments ms_buf {W} _.
Arguments ms_len {W} _.
Arguments ms_space {W} _.
Arguments sizep {W} _.
Arguments heap_ {W} _.

Section Memory.
Context {W : Type} `{Alloc W}.

Definition cookie : M (io (mstream W)) (mstream W) := gets (fun s => world (sys s)).
Definition set_cookie (c : mstream W) : M (io (mstream W)) unit := below (fun e => Ret (tt, Env (errno e) c)).

Definition ms_seek (off whence : Z) : M (io (mstream W)) Z :=
  c ← cookie;
  if 2 <? w32 whence then below (set_errno EINVAL);; mret (-1) else
  let base := s32 (if whence =? SEEK_SET then 0 else if whence =? SEEK_CUR then ms_pos c else ms_len c) in
  if (off <? - base) || (2 ^ 31 - 1 - base <? off) then below (set_errno EINVAL);; mret (-1) else
  let p := w32 (base + off) in
  set_cookie (MStream p (ms_buf c) (ms_len c) (ms_space c) (sizep c) (heap_ c));;
  mret p.

(** [realloc] gives the old bytes, and new ones that are cleared. *)
Definition ms_put (l : list Z) : M (io (mstream W)) Z :=
  c ← cookie;
  let len := Z.of_nat (length l) in
  ok ← (if ms_space c <=? w32 (len + ms_pos c) then
          let len2 := Z.lor (w32 (2 * ms_space c + 1)) (w32 (ms_pos c + len + 1)) in
          let '(ok, w) := malloc_ok len2 (heap_ c) in
          let c := MStream (ms_pos c) (ms_buf c) (ms_len c) (ms_space c) (sizep c) w in
          if ok then
            set_cookie (MStream (ms_pos c)
              (take (Z.to_nat (ms_space c)) (ms_buf c) ++ replicate (Z.to_nat (len2 - ms_space c)) 0)
              (ms_len c) len2 (sizep c) w);;
            mret true
          else below (set_errno ENOMEM);; set_cookie c;; mret false
        else mret true);
  if negb (ok : bool) then mret 0 else
  c ← cookie;
  let p := ms_pos c in
  if Z.of_nat (length (ms_buf c)) <? p + len then halt Undefined else
  let pos := w32 (p + len) in
  set_cookie (MStream pos
    (take (Z.to_nat p) (ms_buf c) ++ l ++ drop (Z.to_nat (p + len)) (ms_buf c))
    (if ms_len c <=? pos then pos else ms_len c) (ms_space c) pos (heap_ c));;
  mret len.

(** The call on itself finds nothing pending. *)
Definition ms_write (l : list Z) : M (io (mstream W)) Z :=
  f ← gets file;
  let len2 := wpos f - wbase f in
  if negb (len2 =? 0) then
    pending ← load (wbase f) len2;
    update (set_w (wend f) (wbase f) (wbase f));;
    r ← ms_put pending;
    if r <? len2 then mret 0 else ms_put l
  else ms_put l.

#[export] Instance memory_device : Device (mstream W) := {|
  f_read _ := halt Trapped;
  f_write := ms_write;
  f_seek := ms_seek;
  f_close := mret 0 |}.
End Memory.

(** The stream and the cookie that [open_memstream] makes, with a buffer at the
    given address. *)
Definition memstream_FILE (threaded : bool) (at_buf : Z) (l : list Z) : FILE :=
  File F_NORD 0 0 0 0 0 Stdio_write at_buf BUFSIZ l (-1) (-1) (if threaded then 0 else -1) EOF.
Definition memstream_cookie {W} (w : W) : mstream W := MStream 0 [0] 0 0 0 w.
