(* ===== verification/StdioProofs.v ===== *)
(** What a stream holds: the bytes written and not sent, the bytes received and
    not read, and the file below ([DeviceLaws]).  For each operation of [Stdio]:
    it returns, stays inside the buffer and does to the file that the program
    sees what it should, or reports a failure of the device. *)
From S2P Require Import Prelude.
From S2P Require Import Wasi.
From S2P Require Import Stdio.

Abbreviation byte_list := (Forall (fun b => 0 <= b < 256)).
Abbreviation zlen l := (Z.of_nat (length l)).

(** ** Files: writing at a position, or at the end *)
Definition splice (d : list Z) (p : Z) (l : list Z) : list Z :=
  take (Z.to_nat p) d ++ replicate (Z.to_nat p - length d) 0 ++ l ++ drop (Z.to_nat p + length l) d.

Definition write_at (app : bool) (d : list Z) (p : Z) (l : list Z) : list Z * Z :=
  if decide (l = []) then (d, p)
  else let p := if app then zlen d else p in (splice d p l, p + zlen l).

Lemma length_splice d p l : length (splice d p l) = (Nat.max (length d) (Z.to_nat p + length l))%nat.
Proof.
  unfold splice. rewrite !length_app, length_take, length_replicate, length_drop. lia.
Qed.

Lemma splice_app d p l m : 0 <= p -> splice (splice d p l) (p + zlen l) m = splice d p (l ++ m).
Proof.
  intros Hp. unfold splice at 1. rewrite length_splice.
  replace (Z.to_nat (p + zlen l)) with (Z.to_nat p + length l)%nat by lia.
  replace (Z.to_nat p + length l - Nat.max (length d) (Z.to_nat p + length l))%nat with O by lia.
  unfold splice. cbn [replicate app].
  set (h := take (Z.to_nat p) d ++ replicate (Z.to_nat p - length d) 0).
  assert (Hh : length h = Z.to_nat p).
  { unfold h. rewrite length_app, length_take, length_replicate. lia. }
  replace (take (Z.to_nat p) d ++ replicate (Z.to_nat p - length d) 0 ++ l ++ drop (Z.to_nat p + length l) d)
    with ((h ++ l) ++ drop (Z.to_nat p + length l) d) by (unfold h; by rewrite <- !app_assoc).
  rewrite take_app_length' by (rewrite length_app; lia).
  rewrite drop_app_ge by (rewrite length_app; lia). rewrite drop_drop, !length_app.
  rewrite Hh. unfold h. rewrite <- !app_assoc. do 4 f_equal. f_equal. lia.
Qed.

Lemma write_at_nil app d p : write_at app d p [] = (d, p).
Proof. done. Qed.

Lemma write_at_app app d p l m : 0 <= p ->
  write_at app d p (l ++ m) =
  let '(d1, p1) := write_at app d p l in write_at app d1 p1 m.
Proof.
  intros Hp. unfold write_at. destruct (decide (l = [])) as [->|Hl]; [done|].
  destruct (decide (m = [])) as [->|Hm].
  { rewrite app_nil_r. by destruct (decide (l = [])). }
  destruct (decide (l ++ m = [])) as [[? ?]%app_eq_nil|_]; [done|]. destruct app.
  - rewrite length_splice, length_app. replace (Z.to_nat (zlen d)) with (length d) by lia.
    rewrite <- splice_app by lia. f_equal; [|lia]. f_equal. lia.
  - rewrite splice_app by lia. f_equal. rewrite length_app. lia.
Qed.

Lemma write_at_pos app d p l : 0 <= p -> 0 <= (write_at app d p l).2.
Proof. intros. unfold write_at. destruct (decide (l = [])); [done|]. destruct app; simpl; lia. Qed.

Lemma splice_bytes d p l : byte_list d -> byte_list l -> byte_list (splice d p l).
Proof.
  intros Hd Hl. unfold splice. repeat apply Forall_app_2.
  - by apply Forall_take.
  - apply Forall_replicate. lia.
  - done.
  - by apply Forall_drop.
Qed.

Lemma write_at_bytes app d p l : byte_list d -> byte_list l -> byte_list (write_at app d p l).1.
Proof. intros. unfold write_at. destruct (decide (l = [])); [done|]. by apply splice_bytes. Qed.

Lemma write_at_size app d p l : zlen (write_at app d p l).1 <= Z.max (zlen d) (write_at app d p l).2 \/ p < 0.
Proof.
  unfold write_at. destruct (decide (l = [])); [simpl; lia|]. cbn [fst snd]. rewrite length_splice. destruct app; lia.
Qed.

Lemma write_at_take app d p l n lim : p <= lim -> zlen d <= lim -> (write_at app d p l).2 <= lim ->
  (write_at app d p (take n l)).2 <= lim.
Proof.
  unfold write_at. intros Hp Hd. destruct (decide (l = [])) as [->|]; [by rewrite take_nil|].
  destruct (decide (take n l = [])); [done|]. cbn [snd]. rewrite length_take. lia.
Qed.

(** After a write at or behind the end there is nothing left to read. *)
Lemma write_at_end app d p l : 0 <= p -> drop (Z.to_nat p) d = [] ->
  let '(d', p') := write_at app d p l in drop (Z.to_nat p') d' = [].
Proof.
  intros Hp Hd. unfold write_at. destruct (decide (l = [])); [done|].
  assert (length d <= Z.to_nat p)%nat.
  { apply (f_equal length) in Hd. rewrite length_drop in Hd. simpl in Hd. lia. }
  apply drop_ge. rewrite length_splice. destruct app; lia.
Qed.

Lemma has_lor x m k : has (Z.lor x m) k = has x k || has m k.
Proof.
  unfold has. rewrite Z.land_lor_distr_l.
  destruct (Z.eqb_spec (Z.land x k) 0) as [->|Hx]; [by rewrite Z.lor_0_l|].
  destruct (Z.eqb_spec (Z.lor (Z.land x k) (Z.land m k)) 0) as [[? _]%Z.lor_eq_0_iff|]; done.
Qed.

Lemma has_clear x m k : Z.land m k = 0 -> has (Z.land x (Z.lnot m)) k = has x k.
Proof.
  intros Hm. unfold has. do 2 f_equal. rewrite <- Z.land_assoc. f_equal.
  apply Z.bits_inj'. intros n Hn. rewrite Z.land_spec, Z.lnot_spec by lia.
  assert (Hb : Z.testbit (Z.land m k) n = false) by (rewrite Hm; apply Z.bits_0).
  rewrite Z.land_spec in Hb. by destruct (Z.testbit m n), (Z.testbit k n).
Qed.

Lemma has_cleared x m k : Z.land (Z.lnot m) k = 0 -> has (Z.land x (Z.lnot m)) k = false.
Proof. intros Hm. unfold has. by rewrite <- Z.land_assoc, Hm, Z.land_0_r. Qed.

(** ** Buffers *)

Definition slice (f : FILE) (p n : Z) : list Z :=
  take (Z.to_nat n) (drop (Z.to_nat (p - (buf f - UNGET))) (bytes f)).

Definition pending (f : FILE) : list Z := slice f (wbase f) (wpos f - wbase f).
Definition unread (f : FILE) : list Z := slice f (rpos f) (rend f - rpos f).

Record wf (f : FILE) : Prop := {
  wf_buf : UNGET < buf f;
  wf_size : 0 <= buf_size f;
  wf_high : buf f + buf_size f < 2 ^ 31;
  wf_len : UNGET + buf_size f <= zlen (bytes f);
  wf_byte : byte_list (bytes f) }.

Definition w_off (f : FILE) : Prop := wend f = 0 /\ wpos f = 0 /\ wbase f = 0.
Definition r_off (f : FILE) : Prop := rpos f = 0 /\ rend f = 0.
Definition w_on (f : FILE) : Prop := wbase f = buf f /\ buf f <= wpos f <= wend f /\ wend f = buf f + buf_size f.
Definition r_on (f : FILE) : Prop := buf f - UNGET <= rpos f <= rend f /\ buf f <= rend f <= buf f + buf_size f.

(** Idle, reading or writing. *)
Definition ptrs (f : FILE) : Prop := (w_off f /\ (r_off f \/ r_on f)) \/ (w_on f /\ r_off f).

(** What no operation changes: the buffer, the descriptor, the permissions. *)
Definition perms (f : FILE) : Z := Z.land (flags f) (Z.lnot (Z.lor F_EOF F_ERR)).
Record kept (f f' : FILE) : Prop := {
  k_buf : buf f' = buf f;
  k_size : buf_size f' = buf_size f;
  k_fd : fd f' = fd f;
  k_perms : perms f' = perms f }.

#[export] Instance kept_preorder : PreOrder kept.
Proof. split; [done|]. intros f g h [] []. split; congruence. Qed.

Lemma perms_has f m : Z.land m (Z.lor F_EOF F_ERR) = 0 -> has (perms f) m = has (flags f) m.
Proof.
  intros Hm. unfold has, perms. f_equal. f_equal. rewrite <- Z.land_assoc. f_equal.
  apply Z.bits_inj'. intros n Hn. rewrite Z.land_spec, Z.lnot_spec by lia.
  assert (Hb : Z.testbit (Z.land m (Z.lor F_EOF F_ERR)) n = false) by (rewrite Hm; apply Z.bits_0).
  rewrite Z.land_spec in Hb. destruct (Z.testbit m n), (Z.testbit (Z.lor F_EOF F_ERR) n); done.
Qed.

Lemma perms_lor f m : Z.land m (Z.lnot (Z.lor F_EOF F_ERR)) = 0 -> perms (set_flags (Z.lor (flags f) m) f) = perms f.
Proof. intros Hm. unfold perms. simpl. by rewrite Z.land_lor_distr_l, Hm, Z.lor_0_r. Qed.

Lemma perms_clear f m : Z.land (Z.lnot m) (Z.lnot (Z.lor F_EOF F_ERR)) = Z.lnot (Z.lor F_EOF F_ERR) ->
  perms (set_flags (Z.land (flags f) (Z.lnot m)) f) = perms f.
Proof. intros Hm. unfold perms. simpl. by rewrite <- Z.land_assoc, Hm. Qed.

Definition readable (f : FILE) : bool := negb (has (flags f) F_NORD).
Definition writable (f : FILE) : bool := negb (has (flags f) F_NOWR).
Definition appends (f : FILE) : bool := has (flags f) F_APP.
Definition at_eof (f : FILE) : bool := has (flags f) F_EOF.
Definition in_error (f : FILE) : bool := has (flags f) F_ERR.

Lemma kept_flags f f' : kept f f' ->
  readable f' = readable f /\ writable f' = writable f /\ appends f' = appends f.
Proof.
  intros [_ _ _ Hp]. unfold readable, writable, appends.
  by rewrite <- !(perms_has f), <- !(perms_has f'), Hp by done.
Qed.

(** ** The law of what lies below

    [content] and [position] are the file and where it stands, for a stream on
    the given descriptor.  A call may fail only where [may_fail] says so;
    [reports] says that a failed write takes the stream out of writing and sets
    the error indicator.  Positions up to [limit] can be reached. *)
Class DeviceLaws (X : Type) `{Device X} := {
  content : Z -> X -> list Z;
  position : Z -> X -> Z;
  opened : FILE -> X -> Prop;
  may_fail : Prop;
  reports : Prop;
  limit : Z;
  limit_range : 0 <= limit <= 2 ^ 62;
  opened_kept : forall f f' x, kept f f' -> opened f x -> opened f' x;
  opened_pos : forall f x, opened f x -> 0 <= position (fd f) x /\ byte_list (content (fd f) x);
  read_law : forall f e len, opened f (world e) -> wf f -> w_off f -> r_on f -> unread f = [] ->
    readable f = true -> 0 < len -> len + buf_size f < 2 ^ 31 ->
    exists l f' e', f_read len (Io f e) = Ret (l, Io f' e') /\
      opened f' (world e') /\ wf f' /\ kept f f' /\ lock f' = lock f /\ w_off f' /\ r_on f' /\ buf f <= rpos f' /\
      zlen l <= len /\ (zlen l < len -> unread f' = []) /\ content (fd f) (world e') = content (fd f) (world e) /\
      position (fd f) (world e') = position (fd f) (world e) + zlen l + zlen (unread f') /\
      let left := drop (Z.to_nat (position (fd f) (world e))) (content (fd f) (world e)) in
      l ++ unread f' = take (length l + length (unread f')) left /\
      ((l <> [] /\ flags f' = flags f) \/
       (l = [] /\ unread f' = [] /\ left = [] /\ flags f' = Z.lor (flags f) F_EOF) \/
       (may_fail /\ l = [] /\ unread f' = [] /\ flags f' = Z.lor (flags f) F_ERR));
  write_law : forall f e l, opened f (world e) -> wf f -> w_on f -> r_off f -> writable f = true ->
    pending f ++ l <> [] -> byte_list l -> zlen l + buf_size f < 2 ^ 31 ->
    let d := content (fd f) (world e) in let p := position (fd f) (world e) in
    (write_at (appends f) d p (pending f ++ l)).2 <= limit ->
    exists k f' e' n, f_write l (Io f e) = Ret (k, Io f' e') /\
      opened f' (world e') /\ wf f' /\ kept f f' /\ lock f' = lock f /\ r_off f' /\ 0 <= n <= zlen (pending f ++ l) /\
      (content (fd f) (world e'), position (fd f) (world e')) =
        write_at (appends f) d p (take (Z.to_nat n) (pending f ++ l)) /\
      ((n = zlen (pending f ++ l) /\ k = zlen l /\ w_on f' /\ pending f' = [] /\ flags f' = flags f) \/
       (may_fail /\ n < zlen (pending f ++ l) /\ k = Z.max 0 (n - zlen (pending f)) /\
        (w_off f' \/ w_on f') /\ pending f' = [] /\ at_eof f' = at_eof f /\
        (in_error f = true -> in_error f' = true) /\
        (reports -> w_off f' /\ in_error f' = true)));
  seek_law : forall f e off whence, opened f (world e) -> wf f -> - 2 ^ 63 <= off < 2 ^ 63 -> 0 <= whence <= 2 ->
    let d := content (fd f) (world e) in let p := position (fd f) (world e) in
    let t := (if whence =? SEEK_SET then 0 else if whence =? SEEK_CUR then p else zlen d) + off in
    t <= limit ->
    exists r e', f_seek off whence (Io f e) = Ret (r, Io f e') /\ opened f (world e') /\
      content (fd f) (world e') = d /\
      ((0 <= t /\ r = t /\ position (fd f) (world e') = t) \/
       ((t < 0 \/ may_fail) /\ r = -1 /\ position (fd f) (world e') = p)) }.

(** ** What the program sees of a stream *)
Inductive dir := Idle | Reading | Writing.

(** The file as the program has written it, where the program stands, the bytes
    that come next, those of them that are in the buffer, the indicators, and
    how many bytes can be pushed back. *)
Record view := View {
  data : list Z;
  here : Z;
  ahead : list Z;
  buffered : list Z;
  queued : list Z;
  sent : list Z * Z;
  eof : bool;
  err : bool;
  direction : dir;
  room : Z }.

Section Streams.
Context {X : Type} `{DeviceLaws X}.
Variable tid : Z.

Definition dir_of (f : FILE) : dir :=
  if negb (wend f =? 0) then Writing else if negb (rend f =? 0) then Reading else Idle.

Definition disk (s : io X) : list Z := content (fd (file s)) (world (sys s)).
Definition offset (s : io X) : Z := position (fd (file s)) (world (sys s)).
Definition shown (s : io X) : list Z * Z := write_at (appends (file s)) (disk s) (offset s) (pending (file s)).

Definition view_of (s : io X) : view :=
  View (shown s).1 ((shown s).2 - zlen (unread (file s)))
    (unread (file s) ++ drop (Z.to_nat (shown s).2) (shown s).1) (unread (file s)) (pending (file s)) (disk s, offset s)
    (at_eof (file s)) (in_error (file s)) (dir_of (file s))
    (if rpos (file s) =? 0 then UNGET else rpos (file s) - (buf (file s) - UNGET)).

Record inv (s : io X) : Prop := {
  i_opened : opened (file s) (world (sys s));
  i_wf : wf (file s);
  i_ptrs : ptrs (file s);
  i_pos : (shown s).2 <= limit;
  i_off : offset s <= limit;
  i_disk : zlen (disk s) <= limit;
  i_mode : wend (file s) <> 0 -> writable (file s) = true;
  i_eof : at_eof (file s) = true -> unread (file s) = [] /\ drop (Z.to_nat (offset s)) (disk s) = [] }.

(** [m] returns; the stream stays in order and [Q] holds of the result and of
    what the program sees then. *)
Definition runs {A} (m : M (io X) A) (s : io X) (Q : A -> view -> Prop) : Prop :=
  exists a s', m s = Ret (a, s') /\ inv s' /\ kept (file s) (file s') /\ lock (file s') = lock (file s) /\
    Q a (view_of s').

Lemma runs_bind {A B} (m : M (io X) A) (k : A -> M (io X) B) s Q R :
  runs m s Q ->
  (forall a s', inv s' -> kept (file s) (file s') -> lock (file s') = lock (file s) -> Q a (view_of s') -> runs (k a) s' R) ->
  runs (m ≫= k) s R.
Proof.
  intros (a & s1 & Hm & Hi & Hk & Hl & HQ) HR.
  destruct (HR a s1 Hi Hk Hl HQ) as (b & s2 & Hb & Hi2 & Hk2 & Hl2 & HQ2).
  exists b, s2. rewrite (bind_Ret _ _ _ _ _ Hm). split_and!; [done..| |congruence|done]. by etransitivity.
Qed.

Lemma runs_ret {A} (a : A) s (Q : A -> view -> Prop) : inv s -> Q a (view_of s) -> runs (mret a) s Q.
Proof. intros. by exists a, s. Qed.

Lemma runs_mono {A} (m : M (io X) A) s (Q R : A -> view -> Prop) :
  runs m s Q -> (forall a v, Q a v -> R a v) -> runs m s R.
Proof. intros (a & s' & Hm & Hi & Hk & Hl & HQ) HR. exists a, s'. split_and!; auto. Qed.

(** A change of fields that are not looked at. *)
Lemma runs_update g s (Q : unit -> view -> Prop) :
  inv (Io (g (file s)) (sys s)) -> kept (file s) (g (file s)) -> lock (g (file s)) = lock (file s) ->
  Q tt (view_of (Io (g (file s)) (sys s))) -> runs (update g) s Q.
Proof. intros. by exists tt, (Io (g (file s)) (sys s)). Qed.

Lemma gets_bind {B} {A} (g : io X -> A) (k : A -> M (io X) B) s : (gets g ≫= k) s = k (g s) s.
Proof. reflexivity. Qed.

Lemma runs_gets {A B} (g : io X -> A) (k : A -> M (io X) B) s Q :
  runs (k (g s)) s Q -> runs (gets g ≫= k) s Q.
Proof. done. Qed.

Lemma runs_step {A B} (m : M (io X) A) (k : A -> M (io X) B) s a s1 Q :
  m s = Ret (a, s1) -> kept (file s) (file s1) -> lock (file s1) = lock (file s) -> runs (k a) s1 Q ->
  runs (m ≫= k) s Q.
Proof.
  intros Hm Hk Hl (b & s2 & Hb & Hi & Hk2 & Hl2 & HQ). exists b, s2. rewrite (bind_Ret _ _ _ _ _ Hm).
  split_and!; [done..| |congruence|done]. by etransitivity.
Qed.

Lemma runs_set {B} (g : FILE -> FILE) (k : unit -> M (io X) B) f e Q :
  kept f (g f) -> lock (g f) = lock f -> runs (k tt) (Io (g f) e) Q -> runs (update g ≫= k) (Io f e) Q.
Proof. intros. by eapply runs_step. Qed.

Lemma runs_assoc {A B C} (m : M (io X) A) (g : A -> M (io X) B) (k : B -> M (io X) C) s Q :
  runs (m ≫= (fun a => g a ≫= k)) s Q -> runs ((m ≫= g) ≫= k) s Q.
Proof. intros (c & s' & Hm & Hr). exists c, s'. by rewrite bind_assoc. Qed.

Lemma runs_unassoc {A B C} (m : M (io X) A) (g : A -> M (io X) B) (k : B -> M (io X) C) s Q :
  runs ((m ≫= g) ≫= k) s Q -> runs (m ≫= (fun a => g a ≫= k)) s Q.
Proof. intros (c & s' & Hm & Hr). exists c, s'. by rewrite <- bind_assoc. Qed.

(** ** The buffer *)

Lemma load_slice f (e : env X) p n : 0 <= n -> buf f - UNGET <= p -> p + n <= buf f - UNGET + zlen (bytes f) ->
  load p n (Io f e) = Ret (slice f p n, Io f e).
Proof.
  intros Hn Hp Hl. unfold load, slice. rewrite gets_bind. cbn [file].
  destruct (Z.eqb_spec n 0) as [->|Hn0]; [done|].
  replace (0 <=? p - (buf f - UNGET)) with true by lia. replace (0 <=? n) with true by lia.
  replace (p - (buf f - UNGET) + n <=? zlen (bytes f)) with true by lia. done.
Qed.

Definition stored_at (f : FILE) (p : Z) (l : list Z) : FILE :=
  let i := p - (buf f - UNGET) in
  if decide (l = []) then f
  else set_bytes (take (Z.to_nat i) (bytes f) ++ l ++ drop (Z.to_nat (i + zlen l)) (bytes f)) f.

Lemma store_at f (e : env X) p l : (l <> [] -> buf f - UNGET <= p) -> p + zlen l <= buf f - UNGET + zlen (bytes f) ->
  store p l (Io f e) = Ret (tt, Io (stored_at f p l) e).
Proof.
  intros Hp Hl. unfold store, stored_at. rewrite gets_bind. cbn [file].
  destruct (decide (l = [])) as [->|Hl0]; [done|]. specialize (Hp Hl0).
  assert (zlen l <> 0) by (by destruct l). destruct (Z.eqb_spec (zlen l) 0); [done|].
  replace (0 <=? p - (buf f - UNGET)) with true by lia.
  replace (p - (buf f - UNGET) + zlen l <=? zlen (bytes f)) with true by lia. done.
Qed.

Lemma length_stored f p l : buf f - UNGET <= p -> p + zlen l <= buf f - UNGET + zlen (bytes f) ->
  length (bytes (stored_at f p l)) = length (bytes f).
Proof.
  intros. unfold stored_at. destruct (decide (l = [])); [done|]. simpl.
  rewrite !length_app, length_take, length_drop. lia.
Qed.

Lemma slice_stored f p l n : buf f - UNGET <= p -> p + zlen l <= buf f - UNGET + zlen (bytes f) ->
  n = zlen l -> slice (stored_at f p l) p n = l.
Proof.
  intros Hp Hl ->. unfold slice, stored_at. destruct (decide (l = [])) as [->|]; [done|]. simpl.
  rewrite Nat2Z.id, drop_app_length' by (rewrite length_take; lia).
  by rewrite take_app_length.
Qed.

(** A slice that ends where the store begins. *)
Lemma slice_before f p l q n : 0 <= n -> buf f - UNGET <= q -> q + n <= p ->
  p + zlen l <= buf f - UNGET + zlen (bytes f) -> slice (stored_at f p l) q n = slice f q n.
Proof.
  intros Hn Hq Hp Hl. unfold slice, stored_at. destruct (decide (l = [])); [done|]. simpl.
  rewrite drop_app_le by (rewrite length_take; lia). rewrite take_app_le by (rewrite length_drop, length_take; lia).
  rewrite skipn_firstn_comm, take_take. f_equal. lia.
Qed.

Lemma slice_app f p n m : 0 <= n -> 0 <= m -> buf f - UNGET <= p ->
  slice f p (n + m) = slice f p n ++ slice f (p + n) m.
Proof.
  intros. unfold slice. rewrite Z2Nat.inj_add by lia.
  replace (Z.to_nat (p + n - (buf f - UNGET))) with (Z.to_nat (p - (buf f - UNGET)) + Z.to_nat n)%nat by lia.
  rewrite <- drop_drop, <- (take_drop (Z.to_nat n) (drop (Z.to_nat (p - _)) (bytes f))) at 1.
  rewrite take_app, take_take, length_take. f_equal; [f_equal; lia|].
  set (r := drop _ (bytes f)). destruct (decide (Z.to_nat n <= length r)%nat).
  - f_equal. lia.
  - rewrite !(drop_ge r) by lia. by rewrite !take_nil.
Qed.

Lemma length_slice f p n : 0 <= n -> buf f - UNGET <= p -> p + n <= buf f - UNGET + zlen (bytes f) ->
  zlen (slice f p n) = n.
Proof. intros. unfold slice. rewrite length_take, length_drop. lia. Qed.

Lemma slice_bytes f p n : byte_list (bytes f) -> byte_list (slice f p n).
Proof. intros. by apply Forall_take, Forall_drop. Qed.

(** ** States *)

Lemma pending_off f : w_off f -> pending f = [].
Proof. intros (_ & Hp & Hb). unfold pending, slice. by rewrite Hp, Hb. Qed.
Lemma unread_off f : r_off f -> unread f = [].
Proof. intros [Hp He]. unfold unread, slice. by rewrite Hp, He. Qed.
Lemma unread_none f : rpos f = rend f -> unread f = [].
Proof. intros Hp. unfold unread, slice. by rewrite Hp, Z.sub_diag. Qed.

Lemma writing_on s : inv s -> wend (file s) <> 0 -> w_on (file s) /\ r_off (file s).
Proof. intros [_ _ [[[? _] _]|?] _ _ _ _ _]; [lia|done]. Qed.
Lemma not_writing s : inv s -> wend (file s) = 0 -> w_off (file s) /\ (r_off (file s) \/ r_on (file s)).
Proof.
  intros [_ [] [?|[(? & ? & ?) _]] _ _ _ _ _] Hw; [done|]. unfold UNGET in *. lia.
Qed.
Lemma reading_on s : inv s -> rend (file s) <> 0 -> w_off (file s) /\ r_on (file s).
Proof. intros [_ _ [[? [[_ ?]|?]]|[_ [_ ?]]] _ _ _ _ _]; [lia|done|lia]. Qed.

Lemma length_unread s : inv s -> zlen (unread (file s)) = rend (file s) - rpos (file s).
Proof.
  intros [_ [] [[_ [[Hp He]|[? ?]]]|[_ [Hp He]]] _ _ _ _ _]; unfold unread.
  - by rewrite Hp, He.
  - apply length_slice; lia.
  - by rewrite Hp, He.
Qed.
Lemma length_pending s : inv s -> zlen (pending (file s)) = wpos (file s) - wbase (file s).
Proof.
  intros [_ [] [[(Hwe & Hp & He) _]|[(Hb & ? & ?) _]] _ _ _ _ _]; unfold pending.
  - by rewrite Hp, He.
  - apply length_slice; unfold UNGET in *; lia.
Qed.
Lemma unread_nil s : inv s -> unread (file s) = [] <-> rpos (file s) = rend (file s).
Proof.
  intros Hi. pose proof (length_unread s Hi) as Hl. split; [|apply unread_none].
  intros Hu. rewrite Hu in Hl. simpl in Hl. lia.
Qed.
Lemma pending_nil s : inv s -> pending (file s) = [] <-> wpos (file s) = wbase (file s).
Proof.
  intros Hi. pose proof (length_pending s Hi) as Hl. split.
  - intros Hu. rewrite Hu in Hl. simpl in Hl. lia.
  - intros Hp. rewrite Hp in Hl. destruct (pending (file s)); [done|]. simpl in Hl. lia.
Qed.

Lemma shown_quiet s : pending (file s) = [] -> shown s = (disk s, offset s).
Proof. unfold shown. by intros ->. Qed.

Lemma offset_pos s : inv s -> 0 <= offset s.
Proof. intros []. by apply opened_pos. Qed.
Lemma disk_bytes s : inv s -> byte_list (disk s).
Proof. intros []. by apply (opened_pos (file s)). Qed.
Lemma pending_bytes s : inv s -> byte_list (pending (file s)).
Proof. intros [_ [] _ _ _ _ _ _]. by apply slice_bytes. Qed.
Lemma ahead_bytes s : inv s -> byte_list (ahead (view_of s)).
Proof.
  intros Hi. apply Forall_app_2; [destruct Hi as [_ [] _ _ _ _ _ _]; by apply slice_bytes|].
  apply Forall_drop, write_at_bytes; [by apply disk_bytes|by apply pending_bytes].
Qed.
Lemma data_size s : inv s -> zlen (data (view_of s)) <= limit.
Proof.
  intros Hi. pose proof (offset_pos s Hi). destruct Hi as [_ _ _ Hp _ Hd _ _].
  destruct (write_at_size (appends (file s)) (disk s) (offset s) (pending (file s))); [|lia].
  unfold view_of, shown in *. simpl in *. lia.
Qed.
Lemma shown_pos s : inv s -> 0 <= (shown s).2.
Proof. intros. by apply write_at_pos, offset_pos. Qed.

Lemma eof_nothing s : inv s -> eof (view_of s) = true -> ahead (view_of s) = [].
Proof.
  intros Hi He. pose proof (offset_pos s Hi) as Hp. destruct Hi as [_ _ _ _ _ _ _ Heof]. destruct (Heof He) as [Hu Hd].
  pose proof (write_at_end (appends (file s)) (disk s) (offset s) (pending (file s)) Hp Hd) as Hend.
  unfold view_of, shown. simpl. rewrite Hu. by destruct (write_at _ _ _ _).
Qed.

(** Two states of the structure with the same buffer and pointers. *)
Record alike (f f' : FILE) : Prop := {
  al_kept : kept f f';
  al_r : rpos f' = rpos f /\ rend f' = rend f;
  al_w : wend f' = wend f /\ wpos f' = wpos f /\ wbase f' = wbase f;
  al_bytes : bytes f' = bytes f }.

Lemma alike_slice f f' p n : alike f f' -> slice f' p n = slice f p n.
Proof. intros [[Hb _ _ _] _ _ Hl]. unfold slice. by rewrite Hb, Hl. Qed.
Lemma alike_unread f f' : alike f f' -> unread f' = unread f.
Proof. intros Ha. unfold unread. rewrite (alike_slice f f') by done. destruct Ha as [_ [-> ->] _ _]. done. Qed.
Lemma alike_pending f f' : alike f f' -> pending f' = pending f.
Proof. intros Ha. unfold pending. rewrite (alike_slice f f') by done. destruct Ha as [_ _ (_ & -> & ->) _]. done. Qed.

Lemma alike_disk f f' e : kept f f' -> disk (Io f' e) = disk (Io f e) /\ offset (Io f' e) = offset (Io f e).
Proof. intros [_ _ Hd _]. unfold disk, offset. simpl. by rewrite Hd. Qed.

Lemma alike_shown f f' e : alike f f' -> shown (Io f' e) = shown (Io f e).
Proof.
  intros Ha. destruct (alike_disk f f' e (al_kept _ _ Ha)) as [Hd Ho].
  destruct (kept_flags f f' (al_kept _ _ Ha)) as (_ & _ & Hap).
  unfold shown. cbn [file]. by rewrite Hd, Ho, Hap, (alike_pending f f').
Qed.

Definition with_flags (e r : bool) (v : view) : view :=
  View (data v) (here v) (ahead v) (buffered v) (queued v) (sent v) e r (direction v) (room v).

Lemma alike_view f f' e : alike f f' -> view_of (Io f' e) = with_flags (at_eof f') (in_error f') (view_of (Io f e)).
Proof.
  intros Ha. unfold view_of, with_flags, dir_of. rewrite (alike_shown f f') by done. cbn [file].
  rewrite (alike_unread f f'), (alike_pending f f') by done.
  destruct (alike_disk f f' e (al_kept _ _ Ha)) as [-> ->]. by destruct Ha as [[-> _ _ _] [-> ->] (-> & _) _].
Qed.

Lemma alike_inv f f' e : alike f f' ->
  (at_eof f' = true -> unread f = [] /\ drop (Z.to_nat (offset (Io f e))) (disk (Io f e)) = []) ->
  inv (Io f e) -> inv (Io f' e).
Proof.
  intros Ha He [Ho Hw Hp Hl Hf Hd Hm Heof]. cbn [file sys] in *. pose proof Ha as [Hk [Hrp Hre] (Hwe & Hwp & Hwb) Hb].
  destruct (alike_disk f f' e Hk) as [Hdisk Hoff]. pose proof Hk as [Hkb Hks _ _]. split; cbn [file sys].
  - by eapply opened_kept, Ho.
  - destruct Hw. split; by rewrite ?Hkb, ?Hks, ?Hb.
  - unfold ptrs, w_off, r_off, w_on, r_on in *. by rewrite Hrp, Hre, Hwe, Hwp, Hwb, Hkb, Hks.
  - by rewrite (alike_shown f f').
  - by rewrite Hoff.
  - by rewrite Hdisk.
  - destruct (kept_flags f f' Hk) as (_ & Hwr & _). by rewrite Hwe, Hwr.
  - rewrite (alike_unread f f'), Hdisk, Hoff by done. done.
Qed.

Lemma set_mode_alike v f : alike f (set_mode v f).
Proof. by repeat split. Qed.
Lemma set_lock_alike v f : alike f (set_lock v f).
Proof. by repeat split. Qed.
Lemma set_err_alike f : alike f (set_flags (Z.lor (flags f) F_ERR) f).
Proof. repeat split. by apply perms_lor. Qed.
Lemma set_eof_alike f : alike f (set_flags (Z.lor (flags f) F_EOF) f).
Proof. repeat split. by apply perms_lor. Qed.
Lemma clear_alike f m : Z.land (Z.lnot m) (Z.lnot (Z.lor F_EOF F_ERR)) = Z.lnot (Z.lor F_EOF F_ERR) ->
  alike f (set_flags (Z.land (flags f) (Z.lnot m)) f).
Proof. intros. repeat split. by apply perms_clear. Qed.

Lemma orient_inv v f e : inv (Io f e) -> inv (Io (set_mode v f) e).
Proof. intros Hi. apply (alike_inv f); [apply set_mode_alike|apply Hi|done]. Qed.

Lemma runs_orient {B} (k : unit -> M (io X) B) s Q : inv s ->
  (forall s', inv s' -> alike (file s) (file s') -> flags (file s') = flags (file s) -> lock (file s') = lock (file s) ->
     view_of s' = view_of s -> sys s' = sys s -> runs (k tt) s' Q) ->
  runs (orient ≫= k) s Q.
Proof.
  destruct s as [f e]. intros Hi Hk. apply runs_set; [by repeat split|done|].
  apply Hk; [by apply orient_inv|apply set_mode_alike|done..].
Qed.

Lemma runs_set_err s (Q : Z -> view -> Prop) r : inv s ->
  Q r (with_flags (eof (view_of s)) true (view_of s)) -> runs (set_flag F_ERR;; mret r) s Q.
Proof.
  destruct s as [f e]. intros Hi HQ. pose proof (set_err_alike f) as Ha.
  apply runs_set; [apply Ha|done|]. apply runs_ret.
  - apply (alike_inv f); [done| |done]. intros He. apply Hi. unfold at_eof in *. simpl in He.
    by rewrite has_lor, orb_false_r in He.
  - rewrite (alike_view f) by done. unfold at_eof, in_error. simpl. rewrite !has_lor, orb_false_r, orb_true_r. done.
Qed.

(** ** Modes *)

Definition turned (d : dir) (v : view) : view :=
  View (data v) (here v) (ahead v) (buffered v) [] (sent v) (eof v) (err v) d UNGET.

Lemma towrite_spec s : inv s -> wend (file s) = 0 -> buffered (view_of s) = [] ->
  runs (__towrite (X := X)) s (fun r v =>
    if writable (file s) then r = 0 /\ v = turned Writing (view_of s)
    else r = EOF /\ v = with_flags (eof (view_of s)) true (view_of s)).
Proof.
  intros Hi Hw Hu. unfold __towrite. apply runs_orient; [done|].
  intros s1 Hi1 Ha Hf _ Hv Hs. apply runs_gets. cbv beta. unfold writable. rewrite <- Hf.
  destruct (has (flags (file s1)) F_NOWR) eqn:Hn; cbn [negb].
  { apply runs_set_err; [done|]. by rewrite Hv. }
  rewrite <- Hv. rewrite <- Hv in Hu. assert (Hw1 : wend (file s1) = 0) by (destruct Ha as [_ _ (-> & _) _]; done).
  clear s Hi Hw Ha Hf Hv Hs. destruct s1 as [f e]. cbn [file] in *.
  destruct (not_writing _ Hi1 Hw1) as [Hoff _]. pose proof (pending_off f Hoff) as Hp.
  apply runs_set; [by repeat split|done|]. apply runs_set; [by repeat split|done|].
  set (f' := set_w _ _ _ _). assert (Hk : kept f f') by (by repeat split).
  assert (Hr : r_off f') by done.
  pose proof Hi1 as [Ho [] _ Hl Hof Hd _ Heof]. cbn [file sys] in *.
  assert (Hwon : w_on f') by (unfold w_on, f'; simpl; lia).
  assert (Hpend : pending f' = []) by (unfold pending, f', slice; simpl; by rewrite Z.sub_diag).
  assert (Hsh : shown (Io f' e) = shown (Io f e)) by (unfold shown; cbn [file]; by rewrite Hpend, Hp).
  apply runs_ret.
  - split; cbn [file sys]; [by eapply opened_kept, Ho|done|by right|by rewrite Hsh|done|done|unfold writable; cbn; by rewrite Hn|].
    intros He. split; [by apply unread_off|]. apply Heof, He.
  - split; [done|]. unfold view_of, turned. rewrite Hsh. cbn [file data here ahead buffered eof err] in *.
    unfold view_of in Hu. cbn [buffered file] in Hu. rewrite Hu, Hpend, (unread_off f') by done.
    unfold dir_of, f'. cbn [wend rpos set_r set_w]. unfold UNGET in *.
    by replace (buf f + buf_size f =? 0) with false by lia.
Qed.

(** ** Sending *)

(** What the program sees once [l] is written: [q] is still to be sent, and the
    file below is [st]. *)
Definition wrote (app : bool) (l q : list Z) (st : list Z * Z) (v : view) : view :=
  let '(d, p) := write_at app (data v) (here v) l in
  View d p (drop (Z.to_nat p) d) [] q st (eof v) (err v) Writing UNGET.

(** A failed transfer: [n] bytes of what was queued and of [l] have reached the
    file, [k] of them from [l]; nothing is queued any more. *)
Definition lost (app : bool) (l : list Z) (v : view) (k : Z) (v' : view) : Prop :=
  may_fail /\ exists n, 0 <= n < zlen (queued v ++ l) /\ k = Z.max 0 (n - zlen (queued v)) /\
    (data v', here v') = write_at app (sent v).1 (sent v).2 (take (Z.to_nat n) (queued v ++ l)) /\
    ahead v' = drop (Z.to_nat (here v')) (data v') /\ buffered v' = [] /\ queued v' = [] /\
    sent v' = (data v', here v') /\ eof v' = eof v /\
    (err v = true -> err v' = true) /\ (reports -> err v' = true /\ direction v' = Idle).

Lemma dir_writing s : direction (view_of s) = Writing <-> wend (file s) <> 0.
Proof. unfold view_of, dir_of. simpl. destruct (Z.eqb_spec (wend (file s)) 0); simpl; [|done]. by destruct (rend (file s) =? 0). Qed.

Lemma writing_view s : inv s -> direction (view_of s) = Writing ->
  view_of s = View (shown s).1 (shown s).2 (drop (Z.to_nat (shown s).2) (shown s).1) [] (pending (file s))
    (disk s, offset s) (at_eof (file s)) (in_error (file s)) Writing UNGET.
Proof.
  intros Hi Hd. destruct (writing_on s Hi) as [_ Hr]; [by apply dir_writing|].
  revert Hd. unfold view_of. cbn [direction]. intros ->. rewrite (unread_off _ Hr). destruct Hr as [-> _].
  simpl. by rewrite Z.sub_0_r.
Qed.

Lemma dwrite_spec s l : inv s -> direction (view_of s) = Writing -> writable (file s) = true ->
  pending (file s) ++ l <> [] -> byte_list l -> zlen l + buf_size (file s) < 2 ^ 31 ->
  (write_at (appends (file s)) (data (view_of s)) (here (view_of s)) l).2 <= limit ->
  runs (f_write l) s (fun k v =>
    (k = zlen l /\ v = wrote (appends (file s)) l [] (write_at (appends (file s)) (data (view_of s)) (here (view_of s)) l) (view_of s)) \/
    lost (appends (file s)) l (view_of s) k v).
Proof.
  intros Hi Hd Hwr Hne Hl Hsz Hlim. destruct (writing_on s Hi) as [Hon Hroff]; [by apply dir_writing|].
  rewrite (writing_view s Hi Hd) in *. cbn [data here] in Hlim. pose proof (offset_pos s Hi) as Hpos.
  destruct s as [f e]. cbn [file sys] in *.
  assert (Happ : write_at (appends f) (disk (Io f e)) (offset (Io f e)) (pending f ++ l) =
    write_at (appends f) (shown (Io f e)).1 (shown (Io f e)).2 l).
  { rewrite write_at_app by done. unfold shown. cbn [file]. by destruct (write_at _ _ _ (pending f)). }
  pose proof Hi as [Ho Hwf _ _ Hoff Hdisk Hmd Heof]. cbn [file sys] in *.
  destruct (write_law f e l) as (k & f' & e' & n & Hrun & Ho' & Hwf' & Hk & Hlock & Hr' & Hn & Hdp & Hcase); try done.
  { unfold disk, offset in Happ. cbn [file sys] in Happ. by rewrite Happ. }
  destruct (kept_flags _ _ Hk) as (_ & _ & Hap). pose proof Hk as [Hkb Hks Hkf _].
  assert (Hdp' : (disk (Io f' e'), offset (Io f' e')) =
    write_at (appends f) (disk (Io f e)) (offset (Io f e)) (take (Z.to_nat n) (pending f ++ l))).
  { unfold disk, offset. cbn [file sys]. by rewrite Hkf. }
  assert (Hoff' : offset (Io f' e') <= limit).
  { change (offset (Io f' e')) with (disk (Io f' e'), offset (Io f' e')).2. rewrite Hdp'.
    apply write_at_take; [done..|by rewrite Happ]. }
  assert (Hend : drop (Z.to_nat (offset (Io f e))) (disk (Io f e)) = [] -> drop (Z.to_nat (offset (Io f' e'))) (disk (Io f' e')) = []).
  { intros Hnil. pose proof (write_at_end (appends f) _ _ (take (Z.to_nat n) (pending f ++ l)) Hpos Hnil) as He.
    by rewrite <- Hdp' in He. }
  assert (Hfin : pending f' = [] -> (w_off f' \/ w_on f') -> (at_eof f' = true -> at_eof f = true) -> inv (Io f' e')).
  { intros Hp' Hw' Heof'. assert (Hs' : shown (Io f' e') = (disk (Io f' e'), offset (Io f' e'))) by by apply shown_quiet.
    split; cbn [file sys]; [done|done| |by rewrite Hs'|done| | |].
    - destruct Hw'; [left; split; [done|by left]|by right].
    - change (disk (Io f' e')) with (disk (Io f' e'), offset (Io f' e')).1. rewrite Hdp'.
      destruct (write_at_size (appends f) (disk (Io f e)) (offset (Io f e)) (take (Z.to_nat n) (pending f ++ l))); [|lia].
      rewrite <- Hdp' in *. cbn [fst snd] in *. lia.
    - intros _. destruct (kept_flags _ _ Hk) as (_ & Hw1 & _). by rewrite Hw1.
    - intros He. split; [by apply unread_off|]. apply Hend, Heof. auto. }
  exists k, (Io f' e'). split; [done|]. cbn [file].
  destruct Hcase as [(-> & -> & Hw' & Hp' & Hfl)|(Hmay & Hlt & -> & Hw' & Hp' & He' & Her & Hrep)].
  - split; [apply Hfin; [done|by right|unfold at_eof; by rewrite Hfl]|]. split_and!; [done..|]. left. split; [done|].
    rewrite Nat2Z.id, take_ge in Hdp' by lia. rewrite Happ in Hdp'.
    unfold wrote. cbn [data here eof err]. rewrite <- Hdp'. unfold view_of.
    rewrite shown_quiet by done. cbn [file fst snd]. rewrite Hdp', Hp', (unread_off f') by done.
    destruct Hr' as [-> _], Hw' as (_ & Hwp & Hwe). destruct Hwf'. unfold dir_of, at_eof, in_error. rewrite Hfl.
    unfold UNGET in *. replace (wend f' =? 0) with false by lia. simpl. by rewrite Z.sub_0_r.
  - split; [apply Hfin; [done|done|by rewrite He']|]. split_and!; [done..|]. right. split; [done|]. exists n.
    cbn [file queued sent fst snd eof err]. rewrite <- Hdp'. unfold view_of. rewrite shown_quiet by done. cbn [data here ahead buffered queued sent eof err direction file fst snd].
    rewrite (unread_off f') by done. simpl. rewrite Z.sub_0_r. split_and!; try done; [lia..|].
    intros Hre. destruct (Hrep Hre) as [(Hwe & _) Hie]. split; [done|]. unfold dir_of. destruct Hr' as [_ ->]. by rewrite Hwe.
Qed.

(** [l] put into a buffer that holds it. *)
Definition put_in (f : FILE) (l bs : list Z) : FILE := set_w (wend f) (wpos f + zlen l) (wbase f) (set_bytes bs f).

Lemma buffer_bytes_at f (e : env X) l : wf f -> w_on f -> byte_list l -> wpos f + zlen l <= wend f ->
  exists bs, buffer_bytes l (Io f e) = Ret (tt, Io (put_in f l bs) e) /\
    wf (put_in f l bs) /\ w_on (put_in f l bs) /\ pending (put_in f l bs) = pending f ++ l.
Proof.
  intros Hwf (Hwb & Hwp & Hwe) Hl Hfit. pose proof Hwf as []. unfold UNGET in *. unfold buffer_bytes. rewrite gets_bind. cbn [file].
  rewrite (bind_Ret _ _ _ _ _ (store_at f e (wpos f) l ltac:(unfold UNGET; lia) ltac:(unfold UNGET; lia))).
  set (f1 := stored_at f (wpos f) l).
  assert (Hf1 : f1 = set_bytes (bytes f1) f).
  { unfold f1, stored_at. destruct (decide (l = [])); [by destruct f|done]. }
  assert (Hlen : length (bytes f1) = length (bytes f)) by (apply length_stored; unfold UNGET; lia).
  assert (Hb1 : byte_list (bytes f1)).
  { unfold f1, stored_at. destruct (decide (l = [])); [done|]. simpl. repeat apply Forall_app_2; [|done|].
    - by apply Forall_take.
    - by apply Forall_drop. }
  assert (Hpend : slice f1 (wbase f) (wpos f + zlen l - wbase f) = pending f ++ l).
  { replace (wpos f + zlen l - wbase f) with ((wpos f - wbase f) + zlen l) by lia.
    assert (Hbuf : buf f1 = buf f) by by rewrite Hf1.
    rewrite slice_app by (rewrite ?Hbuf; unfold UNGET; lia). f_equal.
    - unfold f1. apply slice_before; unfold UNGET; lia.
    - replace (wbase f + (wpos f - wbase f)) with (wpos f) by lia. unfold f1. apply slice_stored; unfold UNGET; lia. }
  exists (bytes f1). rewrite Hf1. clearbody f1. unfold put_in. split_and!; try done.
  - split; simpl; unfold UNGET; by rewrite ?Hlen.
  - unfold w_on. simpl. lia.
  - rewrite <- Hpend, Hf1. reflexivity.
Qed.

Lemma buffer_bytes_spec s l : inv s -> direction (view_of s) = Writing -> byte_list l ->
  wpos (file s) + zlen l <= wend (file s) ->
  (write_at (appends (file s)) (data (view_of s)) (here (view_of s)) l).2 <= limit ->
  runs (buffer_bytes l) s (fun _ v => v = wrote (appends (file s)) l (queued (view_of s) ++ l) (sent (view_of s)) (view_of s)).
Proof.
  intros Hi Hd Hl Hfit Hlim. destruct (writing_on s Hi) as [Hon Hroff]; [by apply dir_writing|].
  rewrite (writing_view s Hi Hd) in *. cbn [data here queued sent] in *. pose proof (offset_pos s Hi) as Hpos.
  destruct s as [f e]. pose proof Hi as [Ho Hwf _ _ Hoff Hdisk Hmd Heof]. cbn [file sys] in *.
  destruct (buffer_bytes_at f e l Hwf Hon Hl Hfit) as (bs & Hr & Hwf2 & Hon2 & Hp2). set (f2 := put_in f l bs) in *.
  exists tt, (Io f2 e). split; [exact Hr|]. cbn [file].
  assert (Hr2 : r_off f2) by done.
  assert (Hk : kept f f2) by done.
  assert (Hsh : shown (Io f2 e) = write_at (appends f) (shown (Io f e)).1 (shown (Io f e)).2 l).
  { unfold shown at 1. cbn [file]. rewrite Hp2. change (disk (Io f2 e)) with (disk (Io f e)).
    change (offset (Io f2 e)) with (offset (Io f e)). change (appends f2) with (appends f).
    rewrite write_at_app by done. unfold shown. cbn [file]. by destruct (write_at _ _ _ (pending f)). }
  split_and!; try done.
  - split; cbn [file sys].
    + by eapply opened_kept, Ho.
    + exact Hwf2.
    + by right.
    + by rewrite Hsh.
    + done.
    + done.
    + exact Hmd.
    + intros He. split; [by apply unread_off|]. apply Heof, He.
  - unfold view_of. rewrite Hsh. cbn [file]. rewrite Hp2, (unread_off f2) by done.
    unfold wrote. cbn [data here eof err]. destruct (write_at _ _ _ l) as [d p]. cbn [fst snd].
    pose proof Hwf as []. destruct Hon as (Hwb & Hwp & Hwe). unfold UNGET in *.
    unfold dir_of. cbn [f2 put_in wend set_w set_bytes set_buf rpos]. destruct Hroff as [-> _].
    replace (wend f =? 0) with false by lia. simpl. by rewrite Z.sub_0_r.
Qed.

(** ** Writing *)

(** What a refused write leaves. *)
Definition refused (v v' : view) : Prop := v' = with_flags (eof v) true v.

Lemma ready_spec s : inv s -> buffered (view_of s) = [] ->
  runs (ready_to_write (X := X)) s (fun ready v =>
    if ready then writable (file s) = true /\ direction v = Writing /\
      v = (if wend (file s) =? 0 then turned Writing (view_of s) else view_of s)
    else writable (file s) = false /\ refused (view_of s) v).
Proof.
  intros Hi Hb. unfold ready_to_write. apply runs_gets. cbv beta. destruct (Z.eqb_spec (wend (file s)) 0) as [Hw|Hw].
  - eapply runs_bind; [by apply towrite_spec|]. intros r s1 Hi1 Hk1 _ Hq. apply runs_ret; [done|].
    destruct (writable (file s)); destruct Hq as [-> ->]; [by rewrite Z.eqb_refl|by replace (EOF =? 0) with false].
  - apply runs_ret; [done|]. cbv iota. split_and!; [by apply i_mode|by apply dir_writing|done].
Qed.

Lemma upto_newline_le s n : (upto_newline s n <= n)%nat.
Proof. induction n as [|n IH]; simpl; [done|]. destruct (_ =? _); lia. Qed.

(** How a write ends: refused, done, or cut short. *)
Definition written (f : FILE) (l : list Z) (v : view) (k : Z) (v' : view) : Prop :=
  if negb (writable f) then k = 0 /\ refused v v'
  else (k = zlen l /\ exists q st, v' = wrote (appends f) l q st v) \/ lost (appends f) l v k v'.

Lemma wrote_app app l m q st q' st' v : 0 <= here v ->
  wrote app m q st (wrote app l q' st' v) = wrote app (l ++ m) q st v.
Proof.
  intros Hh. unfold wrote. rewrite write_at_app by done. destruct (write_at app (data v) (here v) l) as [d1 p1].
  cbn [data here eof err]. by destruct (write_at app d1 p1 m).
Qed.

Lemma wrote_turned app l q st d v : wrote app l q st (turned d v) = wrote app l q st v.
Proof. done. Qed.

Lemma lost_turned app l d v k v' : queued v = [] -> lost app l (turned d v) k v' -> lost app l v k v'.
Proof. unfold lost, turned. cbn [queued sent eof err]. by intros ->. Qed.

Lemma here_pos s : inv s -> direction (view_of s) = Writing -> 0 <= here (view_of s).
Proof. intros Hi Hd. rewrite (writing_view s Hi Hd). by apply shown_pos. Qed.

Lemma lost_prefix app l m v k v' : lost app l v k v' -> lost app (l ++ m) v k v'.
Proof.
  intros (Hm & n & Hn & Hk & Hd & Hr). split; [done|]. exists n. rewrite app_assoc, length_app.
  split; [lia|]. split; [done|]. rewrite take_app_le by lia. done.
Qed.

(** The first part of each writing function: from idle or reading the end to
    writing. *)
Lemma ready_then {B} (k : bool -> M (io X) B) s (Q : B -> view -> Prop) : inv s -> buffered (view_of s) = [] ->
  (writable (file s) = false -> forall s', inv s' -> kept (file s) (file s') -> lock (file s') = lock (file s) ->
     refused (view_of s) (view_of s') -> runs (k false) s' Q) ->
  (writable (file s) = true -> forall s', inv s' -> kept (file s) (file s') -> lock (file s') = lock (file s) ->
     direction (view_of s') = Writing -> (view_of s' = view_of s \/ queued (view_of s) = [] /\ view_of s' = turned Writing (view_of s)) ->
     runs (k true) s' Q) ->
  runs (ready_to_write ≫= k) s Q.
Proof.
  intros Hi Hb Hf Ht. eapply runs_bind; [by apply ready_spec|]. intros [] s' Hi' Hk' Hl' Hq.
  - destruct Hq as (Hw & Hd & Hv). apply Ht; try done. destruct (Z.eqb_spec (wend (file s)) 0) as [Hz|]; [|by left].
    right. split; [|done]. destruct (not_writing s Hi Hz) as [Hoff _]. by apply pending_off.
  - destruct Hq. by apply Hf.
Qed.

Lemma ready_written f l v v1 k v' :
  (v1 = v \/ queued v = [] /\ v1 = turned Writing v) -> writable f = true ->
  ((k = zlen l /\ exists q st, v' = wrote (appends f) l q st v1) \/ lost (appends f) l v1 k v') ->
  written f l v k v'.
Proof.
  intros Hv Hw Hc. unfold written. rewrite Hw. destruct Hv as [->|[Hq ->]]; [done|].
  destruct Hc as [(-> & q & st & ->)|Hl]; [left|right; by eapply lost_turned]. split; [done|]. by exists q, st.
Qed.

Lemma ready_limit app l v v1 : (v1 = v \/ queued v = [] /\ v1 = turned Writing v) ->
  write_at app (data v1) (here v1) l = write_at app (data v) (here v) l.
Proof. by intros [->|[_ ->]]. Qed.

Lemma fwritex_spec s l : inv s -> buffered (view_of s) = [] -> byte_list l ->
  zlen l + buf_size (file s) < 2 ^ 31 ->
  (write_at (appends (file s)) (data (view_of s)) (here (view_of s)) l).2 <= limit ->
  runs (__fwritex l) s (written (file s) l (view_of s)).
Proof.
  intros Hi Hb Hl Hsz Hlim. unfold __fwritex. apply ready_then; [done|done| |].
  { intros Hw s1 Hi1 _ _ Hr. cbn [negb]. apply runs_ret; [done|]. unfold written. by rewrite Hw. }
  intros Hw s1 Hi1 Hk1 _ Hd1 Hv. cbn [negb]. apply runs_gets. cbv beta zeta.
  destruct (kept_flags _ _ Hk1) as (_ & Hwr1 & Hap1). pose proof Hk1 as [Hbuf1 Hsz1 _ _].
  rewrite <- (ready_limit _ l _ _ Hv) in Hlim.
  destruct (writing_on s1 Hi1) as [(Hwb & Hwp & Hwe) _]; [by apply dir_writing|].
  pose proof (i_wf _ Hi1) as []. rewrite w32_small by (unfold UNGET in *; lia).
  pose proof (here_pos s1 Hi1 Hd1) as Hhere.
  eapply runs_mono with (Q := fun k v' => (k = zlen l /\ exists q st, v' = wrote (appends (file s)) l q st (view_of s1)) \/
    lost (appends (file s)) l (view_of s1) k v'); [|by intros; eapply ready_written].
  rewrite <- Hap1 in *. rewrite <- Hwr1 in Hw. rewrite <- Hsz1 in Hsz. clear Hv Hi Hb Hk1 Hwr1 Hap1 Hbuf1 Hsz1 s.
  assert (Hall : forall m, byte_list m -> wpos (file s1) + zlen m <= wend (file s1) -> m = l ->
    runs (buffer_bytes m;; mret (zlen l)) s1 (fun k v' => (k = zlen l /\ exists q st, v' = wrote (appends (file s1)) l q st (view_of s1)) \/
    lost (appends (file s1)) l (view_of s1) k v')).
  { intros m _ Hfit ->. eapply runs_bind; [by apply buffer_bytes_spec|]. intros [] s2 Hi2 _ _ Hv2.
    apply runs_ret; [done|]. left. split; [done|]. eauto. }
  destruct (Z.ltb_spec (wend (file s1) - wpos (file s1)) (zlen l)) as [Hbig|Hfit].
  { eapply runs_mono; [apply dwrite_spec; try done|].
    - intros [_ Hnil]%app_eq_nil. rewrite Hnil in Hbig. simpl in Hbig. lia.
    - intros k v [[-> ->]|Hlost]; [left|by right]. split; [done|]. eauto. }
  destruct (0 <=? lbf (file s1)); [|by apply Hall; [|lia|]].
  destruct (upto_newline l (length l)) as [|i] eqn:Hup; [by apply Hall; [|lia|]|].
  pose proof (upto_newline_le l (length l)) as Hile. rewrite Hup in Hile.
  replace (0 <? S i)%nat with true by (symmetry; apply Nat.ltb_lt; lia).
  assert (Hlen : zlen (take (S i) l) = Z.of_nat (S i)) by (rewrite length_take; lia).
  pose proof (take_drop (S i) l) as Htd.
  assert (Hlim1 : (write_at (appends (file s1)) (data (view_of s1)) (here (view_of s1)) (take (S i) l)).2 <= limit).
  { apply write_at_take; [|by apply data_size|done]. rewrite (writing_view s1 Hi1 Hd1). by apply i_pos. }
  eapply runs_bind; [apply dwrite_spec; try done|].
  { intros [_ Hnil]%app_eq_nil. rewrite Hnil in Hlen. simpl in Hlen. lia. }
  { by apply Forall_take. }
  { lia. }
  intros n s2 Hi2 Hk2 _ [[-> Hv2]|Hlost].
  - rewrite Hlen, Z.ltb_irrefl. pose proof (write_at_app (appends (file s1)) (data (view_of s1)) (here (view_of s1)) (take (S i) l) (drop (S i) l) Hhere) as Hwa.
    rewrite Htd in Hwa. unfold wrote in Hv2. destruct (write_at _ _ _ (take (S i) l)) as [d1 p1] eqn:E1.
    destruct (kept_flags _ _ Hk2) as (_ & _ & Hap2).
    assert (Hd2 : direction (view_of s2) = Writing) by by rewrite Hv2.
    destruct (writing_on s2 Hi2) as [(Hwb2 & Hwp2 & Hwe2) _]; [by apply dir_writing|].
    pose proof (length_pending s2 Hi2) as Hp2. pose proof (f_equal queued Hv2) as Hq2. cbn [queued view_of] in Hq2. rewrite Hq2 in Hp2.
    destruct Hk2 as [Hb2 Hs2 _ _].
    eapply runs_bind; [apply buffer_bytes_spec; try done|].
    + by apply Forall_drop.
    + rewrite length_drop. simpl in Hp2. lia.
    + rewrite Hap2, Hv2. cbn [data here]. by rewrite <- Hwa.
    + intros [] s3 Hi3 _ _ Hv3. apply runs_ret; [done|]. left. split; [done|]. rewrite Hv3, Hv2, Hap2.
      unfold wrote. rewrite Hwa. cbn [data here eof err queued sent]. destruct (write_at _ d1 p1 _). eauto.
  - pose proof Hlost as (_ & j & Hj & Hn & _). assert (n < Z.of_nat (S i)) by (rewrite length_app in Hj; lia).
    rewrite (proj2 (Z.ltb_lt n (Z.of_nat (S i)))) by done. apply runs_ret; [done|]. right.
    rewrite <- Htd. by apply lost_prefix.
Qed.

Lemma overflow_spec s c : inv s -> buffered (view_of s) = [] -> 1 + buf_size (file s) < 2 ^ 31 ->
  (write_at (appends (file s)) (data (view_of s)) (here (view_of s)) [w8 c]).2 <= limit ->
  runs (__overflow (X := X) c) s (fun r v' =>
    exists k, written (file s) [w8 c] (view_of s) k v' /\ r = if k =? 1 then w8 c else EOF).
Proof.
  intros Hi Hb Hsz Hlim. unfold __overflow. cbv zeta. apply ready_then; [done|done| |].
  { intros Hw s1 Hi1 _ _ Hr. cbn [negb]. apply runs_ret; [done|]. exists 0. unfold written. by rewrite Hw. }
  intros Hw s1 Hi1 Hk1 _ Hd1 Hv. cbn [negb]. apply runs_gets. cbv beta.
  destruct (kept_flags _ _ Hk1) as (_ & Hwr1 & Hap1). pose proof Hk1 as [Hbuf1 Hsz1 _ _].
  rewrite <- (ready_limit _ _ _ _ Hv), <- Hap1 in Hlim. rewrite <- Hsz1 in Hsz.
  assert (Hbyte : byte_list [w8 c]) by (constructor; [apply w8_range|done]).
  destruct (writing_on s1 Hi1) as [(Hwb & Hwp & Hwe) _]; [by apply dir_writing|].
  destruct (negb (wpos (file s1) =? wend (file s1)) && negb (w8 c =? lbf (file s1))) eqn:Hfit.
  - apply andb_true_iff in Hfit as [Hfit _]. apply negb_true_iff, Z.eqb_neq in Hfit.
    eapply runs_bind; [apply buffer_bytes_spec; try done; simpl; lia|]. intros [] s2 Hi2 _ _ Hv2.
    apply runs_ret; [done|]. exists 1. split; [|done]. eapply ready_written; [done|done|]. left. split; [done|].
    rewrite <- Hap1. eauto.
  - eapply runs_bind; [apply dwrite_spec; try done|].
    + by rewrite Hwr1.
    + by intros [_ ?]%app_eq_nil.
    + intros n s2 Hi2 _ _ Hq. apply runs_ret; [done|]. exists n. split; [|done]. eapply ready_written; [done|done|].
      rewrite <- Hap1. destruct Hq as [[-> ->]|]; [left; eauto|by right].
Qed.

Lemma putc_spec s c : inv s -> buffered (view_of s) = [] -> 1 + buf_size (file s) < 2 ^ 31 ->
  (write_at (appends (file s)) (data (view_of s)) (here (view_of s)) [w8 c]).2 <= limit ->
  runs (putc_unlocked (X := X) c) s (fun r v' =>
    exists k, written (file s) [w8 c] (view_of s) k v' /\ r = if k =? 1 then w8 c else EOF).
Proof.
  intros Hi Hb Hsz Hlim. unfold putc_unlocked. apply runs_gets. cbv beta.
  assert (Hww : w8 (w8 c) = w8 c) by (apply w8_small, w8_range).
  destruct (negb (w8 c =? lbf (file s)) && negb (wpos (file s) =? wend (file s))) eqn:Hfit.
  - apply andb_true_iff in Hfit as [_ Hfit]. apply negb_true_iff, Z.eqb_neq in Hfit.
    destruct (decide (wend (file s) = 0)) as [Hz|Hz].
    { destruct (not_writing s Hi Hz) as [(_ & ? & _) _]. lia. }
    destruct (writing_on s Hi Hz) as [(Hwb & Hwp & Hwe) _].
    eapply runs_bind; [apply buffer_bytes_spec; try done|].
    + by apply dir_writing.
    + constructor; [apply w8_range|done].
    + simpl. lia.
    + intros [] s2 Hi2 _ _ Hv2. apply runs_ret; [done|]. exists 1. split; [|done].
      unfold written. rewrite (i_mode s Hi Hz). left. split; [done|]. eauto.
  - pose proof (overflow_spec s (w8 c)) as Ho. rewrite Hww in Ho. by apply Ho.
Qed.

(** ** Locks *)

(** The lock is not held by another thread. *)
Definition lock_ok (f : FILE) : Prop := lock f < 0 \/ lock f = 0 \/ mine tid (lock f) = true.

Lemma relock s l : inv s -> inv (Io (set_lock l (file s)) (sys s)) /\ view_of (Io (set_lock l (file s)) (sys s)) = view_of s.
Proof.
  destruct s as [f e]. intros Hi. split; [|done]. apply (alike_inv f); [apply set_lock_alike|apply Hi|done].
Qed.

Lemma runs_locked {A} (m : M (io X) A) s l (Q : A -> view -> Prop) :
  runs m (Io (set_lock l (file s)) (sys s)) Q ->
  exists a s', m (Io (set_lock l (file s)) (sys s)) = Ret (a, s') /\ let s2 := Io (set_lock (lock (file s)) (file s')) (sys s') in
    inv s2 /\ kept (file s) (file s2) /\ lock (file s2) = lock (file s) /\ Q a (view_of s2).
Proof.
  intros (a & s' & Hm & Hi & Hk & _ & HQ). exists a, s'. split; [done|]. cbv zeta.
  destruct (relock s' (lock (file s)) Hi) as [Hi2 Hv2]. split_and!; [done| |done|by rewrite Hv2].
  by etransitivity; [|etransitivity; [exact Hk|]].
Qed.

Lemma runs_with_lock {A} (m : M (io X) A) s Q : 0 < tid -> inv s -> lock_ok (file s) ->
  (forall l, runs m (Io (set_lock l (file s)) (sys s)) Q) -> runs (with_lock tid m) s Q.
Proof.
  intros Ht Hi Hlock Hm. unfold with_lock.
  assert (Hsame : Io (set_lock (lock (file s)) (file s)) (sys s) = s) by (by destruct s as [[]]).
  destruct (decide (lock (file s) = 0)) as [Hz|Hz].
  - destruct (runs_locked m s tid Q (Hm tid)) as (a & s' & Hr & Hi' & Hk' & Hl' & HQ).
    exists a, (Io (set_lock (lock (file s)) (file s')) (sys s')). split; [|done].
    rewrite gets_bind. cbv beta. rewrite Hz. unfold __lockfile.
    assert (Hno : mine tid 0 = false) by (unfold mine; rewrite Z.land_0_l; apply Z.eqb_neq; lia).
    assert (Hin : (owner ← gets (fun s => lock (file s)); if mine tid owner then mret 0
      else if owner =? 0 then update (set_lock tid);; mret 1 else halt Deadlock) s = Ret (1, Io (set_lock tid (file s)) (sys s))).
    { rewrite gets_bind. cbv beta. by rewrite Hz, Hno. }
    change (0 <=? 0) with true. cbv iota. rewrite (bind_Ret _ _ _ _ _ Hin), (bind_Ret _ _ _ _ _ Hr). done.
  - specialize (Hm (lock (file s))). rewrite Hsame in Hm. destruct Hm as (a & s' & Hr & Hi' & Hk' & Hl' & HQ).
    exists a, s'. split; [|done]. rewrite gets_bind. cbv beta.
    assert (Hin : (if 0 <=? lock (file s) then __lockfile tid else mret 0) s = Ret (0, s)).
    { destruct (Z.leb_spec 0 (lock (file s))); [|done]. unfold __lockfile. rewrite gets_bind. cbv beta.
      destruct Hlock as [?|[?|Hown]]; [lia|lia|by rewrite Hown]. }
    rewrite (bind_Ret _ _ _ _ _ Hin), (bind_Ret _ _ _ _ _ Hr). done.
Qed.

Lemma runs_once_locked {A} (m : M (io X) A) s Q : 0 < tid -> inv s -> lock_ok (file s) ->
  (forall l, runs m (Io (set_lock l (file s)) (sys s)) Q) -> runs (once_locked tid m) s Q.
Proof.
  intros Ht Hi Hlock Hm. unfold once_locked. apply runs_gets. cbv beta.
  assert (Hsame : Io (set_lock (lock (file s)) (file s)) (sys s) = s) by (by destruct s as [[]]).
  destruct (decide (lock (file s) = 0)) as [Hz|Hz].
  - rewrite Hz. change ((0 <? 0) || (negb (0 =? 0) && mine tid 0)) with false. cbv iota. unfold locking.
    destruct (runs_locked m s (MAYBE_WAITERS - 1) Q (Hm _)) as (a & s' & Hr & Hi' & Hk' & Hl' & HQ).
    exists a, (Io (set_lock (lock (file s)) (file s')) (sys s')). split; [|done].
    rewrite gets_bind. cbv beta. rewrite Hz. change (0 =? 0) with true. cbv iota.
    erewrite bind_Ret by reflexivity. rewrite (bind_Ret _ _ _ _ _ Hr). done.
  - specialize (Hm (lock (file s))). rewrite Hsame in Hm.
    assert (Hin : ((lock (file s) <? 0) || (negb (lock (file s) =? 0) && mine tid (lock (file s)))) = true).
    { destruct Hlock as [?|[?|Hown]]; [|lia|rewrite Hown].
      - by replace (lock (file s) <? 0) with true by lia.
      - replace (lock (file s) =? 0) with false by lia. by rewrite orb_true_r. }
    by rewrite Hin.
Qed.

(** ** Reading *)

(** Reading may start: what is queued will reach the file. *)
Definition may_turn (v : view) : Prop := queued v = [] \/ ~ may_fail.

(** [l] has been taken from what is ahead. *)
Record took (l : list Z) (v v' : view) : Prop := {
  t_data : data v' = data v;
  t_here : here v' = here v + zlen l;
  t_ahead : ahead v = l ++ ahead v';
  t_queued : queued v = [] -> queued v' = [];
  t_room : Z.min UNGET (room v + zlen l) <= room v' }.

Lemma took_trans l m u v w : took l u v -> took m v w -> took (l ++ m) u w.
Proof.
  intros [] []. split; [congruence| | |auto|].
  - rewrite length_app. lia.
  - rewrite <- app_assoc. congruence.
  - rewrite length_app. lia.
Qed.

(** Why no more came: the end, or an error. *)
Definition ended (f : FILE) (v v' : view) : Prop :=
  (ahead v' = [] /\ eof v' = true /\ err v' = err v) \/
  ((readable f = false \/ may_fail) /\ err v' = true /\ eof v' = eof v).

Definition same_flags (v v' : view) : Prop := eof v' = eof v /\ err v' = err v.

Lemma room_pos s : inv s -> 0 <= room (view_of s).
Proof.
  intros Hi. unfold view_of. cbn [room]. destruct (Z.eqb_spec (rpos (file s)) 0) as [|Hne]; [unfold UNGET; lia|].
  destruct Hi as [_ [] [[_ [[? _]|[? ?]]]|[_ [? _]]] _ _ _ _ _]; lia.
Qed.

(** What [view_of] is when nothing is queued. *)
Lemma quiet_view s : pending (file s) = [] ->
  view_of s = View (disk s) (offset s - zlen (unread (file s))) (unread (file s) ++ drop (Z.to_nat (offset s)) (disk s))
    (unread (file s)) [] (disk s, offset s) (at_eof (file s)) (in_error (file s)) (dir_of (file s))
    (if rpos (file s) =? 0 then UNGET else rpos (file s) - (buf (file s) - UNGET)).
Proof. intros Hp. unfold view_of. by rewrite shown_quiet, Hp. Qed.

(** The pending bytes are sent first, whatever comes of it; here it works. *)
Lemma send_first s : inv s -> may_turn (view_of s) ->
  runs (when (negb (wpos (file s) =? wbase (file s))) (f_write [];; mret tt)) s (fun _ v =>
    v = view_of s /\ queued v = [] \/
    queued (view_of s) <> [] /\ v = wrote (appends (file s)) [] [] (data (view_of s), here (view_of s)) (view_of s)).
Proof.
  intros Hi Hq. pose proof (pending_nil s Hi) as Hpn. destruct (Z.eqb_spec (wpos (file s)) (wbase (file s))) as [He|Hne]; cbn [negb when].
  { apply runs_ret; [done|]. left. split; [done|]. by apply Hpn. }
  assert (Hpe : pending (file s) <> []) by (intros ?%Hpn; done).
  assert (Hd : direction (view_of s) = Writing).
  { apply dir_writing. intros Hz. destruct (not_writing s Hi Hz) as [(_ & Hp0 & Hb0) _]. congruence. }
  destruct Hq as [|Hno]; [done|]. pose proof (i_wf s Hi) as [].
  eapply runs_bind; [apply dwrite_spec; try done|].
  - apply i_mode; [done|]. by apply dir_writing.
  - by rewrite app_nil_r.
  - simpl. unfold UNGET in *. lia.
  - rewrite write_at_nil, (writing_view s Hi Hd). cbn [data here snd]. by apply i_pos.
  - intros k s1 Hi1 _ _ [[_ Hv]|[Hm _]]; [|done]. apply runs_ret; [done|]. right. split; [done|].
    by rewrite Hv, write_at_nil.
Qed.

Lemma set_r_same f : set_r (rpos f) (rend f) f = f.
Proof. by destruct f. Qed.
Lemma set_w_same f : set_w (wend f) (wpos f) (wbase f) f = f.
Proof. by destruct f. Qed.

(** Out of writing, with nothing in the buffer. *)
Definition emptied (d : dir) (r : Z) (v : view) : view :=
  View (data v) (here v) (ahead v) [] [] (data v, here v) (eof v) (err v) d r.

Lemma empty_inv f e rp re : inv (Io f e) -> pending f = [] -> unread f = [] ->
  (rp = 0 /\ re = 0) \/ (rp = re /\ buf f <= rp <= buf f + buf_size f) ->
  let s' := Io (set_r rp re (set_w 0 0 0 f)) e in
  inv s' /\ view_of s' = emptied (if re =? 0 then Idle else Reading) (if rp =? 0 then UNGET else rp - buf f + UNGET) (view_of (Io f e)).
Proof.
  intros Hi Hp Hu Hre. pose proof Hi as [Ho Hwf _ Hl Hof Hd _ Heof]. cbn [file sys] in *. cbv zeta.
  set (f' := set_r rp re (set_w 0 0 0 f)). pose proof Hwf as [].
  assert (Hoff : w_off f') by done. pose proof (pending_off f' Hoff) as Hp'.
  assert (Hu' : unread f' = []) by (apply unread_none; unfold f'; simpl; lia).
  assert (Hsh : shown (Io f' e) = shown (Io f e)) by (unfold shown; cbn [file]; by rewrite Hp, Hp').
  split.
  - split; cbn [file sys]; [by eapply opened_kept, Ho| | |by rewrite Hsh|done|done|done|].
    + done.
    + left. split; [done|]. destruct Hre as [[-> ->]|[-> ?]]; [by left|right]. unfold r_on, f'. simpl. unfold UNGET in *. lia.
    + intros He. split; [done|]. apply Heof, He.
  - unfold view_of, emptied. rewrite !shown_quiet by done. cbn [file fst snd data here ahead eof err].
    rewrite Hu, Hu', Hp'. unfold dir_of, f'. simpl.
    change (disk (Io (set_r rp re (set_w 0 0 0 f)) e)) with (disk (Io f e)).
    change (offset (Io (set_r rp re (set_w 0 0 0 f)) e)) with (offset (Io f e)).
    rewrite !Z.sub_0_r. f_equal.
    + by destruct (re =? 0).
    + destruct (rp =? 0); lia.
Qed.

(** A write of nothing. *)
Lemma wrote_nil_view s st : inv s -> direction (view_of s) = Writing ->
  wrote (appends (file s)) [] [] st (view_of s) =
  View (data (view_of s)) (here (view_of s)) (ahead (view_of s)) [] [] st (eof (view_of s)) (err (view_of s)) Writing UNGET.
Proof. intros Hi Hd. unfold wrote. rewrite write_at_nil. by rewrite (writing_view s Hi Hd). Qed.

Lemma toread_spec s : inv s -> buffered (view_of s) = [] -> may_turn (view_of s) ->
  runs (__toread (X := X)) s (fun r v =>
    if readable (file s) then
      r = (if eof (view_of s) then EOF else 0) /\
      v = emptied Reading (buf_size (file s) + UNGET) (view_of s)
    else r = EOF /\ took [] (view_of s) v /\ buffered v = [] /\ eof v = eof (view_of s) /\ err v = true).
Proof.
  intros Hi Hb Hq. unfold __toread. apply runs_orient; [done|].
  intros s1 Hi1 Ha Hf _ Hv _. rewrite <- Hv in *. assert (Hrd : readable (file s) = readable (file s1)) by (unfold readable; by rewrite Hf).
  assert (Hbs : buf_size (file s) = buf_size (file s1)) by (by destruct Ha as [[_ -> _ _] _ _ _]).
  rewrite Hrd, Hbs. clear s Hi Ha Hf Hv Hrd Hbs. apply runs_gets. cbv beta.
  eapply runs_bind; [by apply send_first|]. intros [] s2 Hi2 Hk2 _ Hq2. cbv beta.
  assert (Hv2 : data (view_of s2) = data (view_of s1) /\ here (view_of s2) = here (view_of s1) /\
    ahead (view_of s2) = ahead (view_of s1) /\ buffered (view_of s2) = [] /\ queued (view_of s2) = [] /\
    eof (view_of s2) = eof (view_of s1) /\ err (view_of s2) = err (view_of s1) /\
    Z.min UNGET (room (view_of s1)) <= room (view_of s2)).
  { destruct Hq2 as [[-> Hqn]|[Hne ->]]; [split_and!; (done || lia)|].
    assert (Hd : direction (view_of s1) = Writing).
    { apply dir_writing. intros Hz. destruct (not_writing s1 Hi1 Hz) as [Hoff _]. by apply Hne, pending_off. }
    rewrite (wrote_nil_view s1 _ Hi1 Hd). cbn. split_and!; (done || lia). }
  clear Hq2. destruct s2 as [f e]. cbn [file sys] in *.
  destruct Hv2 as (Hd2 & Hh2 & Ha2 & Hb2 & Hqn2 & He2 & Hr2 & Hroom).
  apply runs_set; [by repeat split|done|]. apply runs_gets. cbn [file].
  destruct (kept_flags _ _ Hk2) as (Hrd & _ & _). pose proof Hk2 as [Hkb Hks _ _].
  change (has (flags (set_w 0 0 0 f)) F_NORD) with (has (flags f) F_NORD).
  assert (Hn : has (flags f) F_NORD = negb (readable (file s1))) by (rewrite <- Hrd; unfold readable; by rewrite negb_involutive).
  rewrite Hn. pose proof (i_wf _ Hi2) as []. cbn [file] in *.
  destruct (readable (file s1)) eqn:Hrs; cbn [negb].
  - apply runs_set; [by repeat split|done|]. cbn [file set_w buf buf_size].
    destruct (empty_inv f e (buf f + buf_size f) (buf f + buf_size f) Hi2 Hqn2 Hb2) as [Hi3 Hv3]; [right; lia|].
    apply runs_ret; [exact Hi3|]. split.
    + unfold has. rewrite <- He2. done.
    + etransitivity; [exact Hv3|]. unfold UNGET in *. replace (buf f + buf_size f =? 0) with false by lia.
      unfold emptied. rewrite Hd2, Hh2, Ha2, He2, Hr2. f_equal. lia.
  - destruct (decide (rpos f = 0 /\ rend f = 0)) as [Hz|Hz].
    + destruct (empty_inv f e 0 0 Hi2 Hqn2 Hb2) as [Hi3 Hv3]; [by left|].
      assert (Hsame : set_r 0 0 (set_w 0 0 0 f) = set_w 0 0 0 f) by (destruct Hz as [Hz1 Hz2]; pose proof (set_r_same (set_w 0 0 0 f)) as Hs; cbn [rpos rend set_w] in Hs; by rewrite Hz1, Hz2 in Hs).
      rewrite Hsame in *. apply runs_set_err; [done|]. rewrite Hv3. split; [done|]. split_and!; [|done..].
      split; cbn -[view_of]; [done|by rewrite Hh2, Z.add_0_r|done|done|unfold UNGET; lia].
    + assert (Hoff : w_off f /\ r_on f).
      { destruct Hi2 as [_ _ [[? [[? ?]|?]]|[_ [? ?]]] _ _ _ _ _]; cbn [file] in *; [naive_solver|done|naive_solver]. }
      destruct Hoff as [(Hwe & Hwp & Hwb) Hron].
      assert (Hsame : set_w 0 0 0 f = f) by (pose proof (set_w_same f) as Hs; by rewrite Hwe, Hwp, Hwb in Hs).
      rewrite Hsame. apply runs_set_err; [done|]. split; [done|]. split_and!; [|done..].
      split; cbn -[view_of]; [done|by rewrite Hh2, Z.add_0_r|by rewrite Ha2|done|lia].
Qed.

Lemma dread_spec s n : inv s -> direction (view_of s) = Reading -> buffered (view_of s) = [] ->
  readable (file s) = true -> 0 < n -> n + buf_size (file s) < 2 ^ 31 ->
  runs (f_read n) s (fun l v =>
    took l (view_of s) v /\ UNGET <= room v /\ zlen l <= n /\ (zlen l < n -> buffered v = []) /\
    ((l <> [] /\ same_flags (view_of s) v) \/ (l = [] /\ ended (file s) (view_of s) v))).
Proof.
  intros Hi Hd Hb Hrd Hn Hsz.
  assert (Hre : rend (file s) <> 0).
  { revert Hd. unfold view_of, dir_of. cbn. destruct (wend (file s) =? 0); [|done]. by destruct (Z.eqb_spec (rend (file s)) 0). }
  destruct (reading_on s Hi Hre) as [Hw Hr]. pose proof (pending_off _ Hw) as Hp.
  pose proof (offset_pos s Hi) as Hpos. pose proof (disk_bytes s Hi) as Hbytes.
  rewrite (quiet_view s Hp). destruct s as [f e]. pose proof Hi as [Ho Hwf _ _ Hof Hdk _ Heof]. cbn [file sys] in *.
  destruct (read_law f e n) as (l & f' & e' & Hrun & Ho' & Hwf' & Hk & Hlock & Hw' & Hr' & Hrp & Hln & Hfull & Hc & Hpo & Hleft & Hcase); try done.
  pose proof Hk as [Hkb Hks Hkf _]. destruct (kept_flags _ _ Hk) as (Hrd' & Hwr' & Hap').
  pose proof (pending_off _ Hw') as Hp'.
  assert (Hdisk : disk (Io f' e') = disk (Io f e)) by (unfold disk; cbn [file sys]; by rewrite Hkf).
  assert (Hoff : offset (Io f' e') = offset (Io f e) + zlen l + zlen (unread f')) by (unfold offset; cbn [file sys]; by rewrite Hkf).
  cbv zeta in *. fold (disk (Io f e)) in *.
  change (drop (Z.to_nat (position (fd f) (world e))) (content (fd f) (world e))) with (drop (Z.to_nat (offset (Io f e))) (disk (Io f e))) in *.
  set (left := drop (Z.to_nat (offset (Io f e))) (disk (Io f e))) in *.
  assert (Hlen : (length l + length (unread f') <= length left)%nat).
  { apply (f_equal length) in Hleft. rewrite length_app, length_take in Hleft. lia. }
  assert (Hrest : drop (Z.to_nat (offset (Io f' e'))) (disk (Io f' e')) = drop (length l + length (unread f')) left).
  { rewrite Hdisk, Hoff. unfold left. rewrite drop_drop. f_equal. lia. }
  assert (Hahead : left = l ++ unread f' ++ drop (Z.to_nat (offset (Io f' e'))) (disk (Io f' e'))).
  { rewrite Hrest, app_assoc, Hleft. symmetry. apply take_drop. }
  assert (Hi' : inv (Io f' e')).
  { split; cbn [file sys]; [done|done|by left; split; [|right]| | | | |].
    - rewrite shown_quiet by done. cbn [snd]. rewrite Hoff.
      unfold left in Hlen. rewrite length_drop in Hlen. lia.
    - rewrite Hoff. unfold left in Hlen. rewrite length_drop in Hlen. lia.
    - by rewrite Hdisk.
    - by destruct Hw' as [-> _].
    - intros He'. assert (left = []) as Hl0.
      { destruct Hcase as [[_ Hfl]|[(_ & _ & ? & _)|(_ & _ & _ & Hfl)]]; [| done|].
        - apply Heof. unfold at_eof in *. by rewrite Hfl in He'.
        - apply Heof. unfold at_eof in *. rewrite Hfl, has_lor, orb_false_r in He'. done. }
      rewrite Hl0 in Hahead. symmetry in Hahead. apply app_eq_nil in Hahead as [_ [??]%app_eq_nil]. done. }
  exists l, (Io f' e'). split; [done|]. split; [done|]. split; [done|]. split; [done|].
  rewrite (quiet_view (Io f' e') Hp'). cbn [file]. destruct Hwf'. unfold UNGET in *.
  assert (Hu : unread f = []) by done. rewrite Hu. cbn [app].
  split_and!.
  - split; cbn -[disk offset].
    + done.
    + rewrite Hoff. lia.
    + done.
    + done.
    + unfold UNGET. destruct (Z.eqb_spec (rpos f') 0); lia.
  - cbn. destruct (Z.eqb_spec (rpos f') 0); lia.
  - done.
  - done.
  - unfold ended, same_flags. cbn. unfold at_eof, in_error. destruct Hcase as [[Hl Hfl]|[(-> & Hul & Hl0 & Hfl)|(Hm & -> & Hul & Hfl)]].
    + left. split; [done|]. by rewrite Hfl.
    + right. split; [done|]. left. rewrite Hfl, !has_lor, orb_false_r, orb_true_r. rewrite Hl0 in Hahead. cbn [app] in Hahead. split_and!; [by symmetry|done..].
    + right. split; [done|]. right. rewrite Hfl, !has_lor, orb_false_r, orb_true_r. split; [by right|done].
Qed.

(** One round of [fread] below the buffer. *)
Definition fill (n : Z) : M (io X) (list Z) :=
  r ← __toread; if r =? 0 then f_read n else mret [].

Definition filled (f : FILE) (n : Z) (v : view) (l : list Z) (v' : view) : Prop :=
  took l v v' /\ zlen l <= n /\ (zlen l < n -> buffered v' = []) /\
  ((l <> [] /\ same_flags v v') \/ (l = [] /\ ended f v v')).

Lemma fill_spec s n : inv s -> buffered (view_of s) = [] -> may_turn (view_of s) -> 0 < n -> n + buf_size (file s) < 2 ^ 31 ->
  runs (fill n) s (filled (file s) n (view_of s)).
Proof.
  intros Hi Hb Hq Hn Hsz. unfold fill. eapply runs_bind; [by apply toread_spec|].
  intros r s1 Hi1 Hk1 _ Hr. destruct (kept_flags _ _ Hk1) as (Hrd & _ & _). destruct (readable (file s)) eqn:Hrs.
  - destruct Hr as [-> Hv]. destruct (eof (view_of s)) eqn:He.
    + change (EOF =? 0) with false. cbv iota. apply runs_ret; [done|].
      split_and!; [|simpl; lia|by rewrite Hv|right; split; [done|left]].
      * rewrite Hv. split; cbn -[view_of]; [done|lia|done|done|unfold UNGET; pose proof (i_wf s Hi) as []; lia].
      * rewrite Hv. cbn -[view_of]. split_and!; [by apply eof_nothing|done|done].
    + change (0 =? 0) with true. cbv iota. eapply runs_mono.
      * apply dread_spec; [done|by rewrite Hv|by rewrite Hv|by rewrite Hrd|done|]. by destruct Hk1 as [_ -> _ _].
      * intros l v' (Ht & Hroom & Hl & Hfull & Hc). unfold filled. rewrite Hv in *. split_and!; try done.
        { destruct Ht. split; cbn -[view_of] in *; [done|done|done|auto|lia]. }
        destruct Hc as [[Hl0 Hs]|[-> He']]; [by left|right]. split; [done|]. unfold ended in *. rewrite Hrd in He'. by rewrite Hrs.
  - destruct Hr as (-> & Ht & Hb' & He' & Hr'). change (EOF =? 0) with false. cbv iota. apply runs_ret; [done|].
    split_and!; [done|simpl; lia|done|]. right. split; [done|]. right. rewrite Hrs. split; [by left|done].
Qed.

Lemma ended_trans f f' u v w l : kept f f' -> took l u v -> same_flags u v -> ended f' v w -> ended f u w.
Proof.
  intros Hk _ [He Hr] [(Ha & He' & Hr')|(Hx & Hr' & He')]; [left|right]; split_and!; try done; [congruence| |congruence].
  by destruct (kept_flags _ _ Hk) as (<- & _).
Qed.

(** What a read of [n] bytes gives. *)
Definition fetched (f : FILE) (n : Z) (v : view) (l : list Z) (v' : view) : Prop :=
  took l v v' /\ ((zlen l = n /\ same_flags v v') \/ (zlen l < n /\ ended f v v')).

Lemma took_turn l v v' : took l v v' -> may_turn v -> may_turn v'.
Proof. intros [] [?|?]; [left; auto|by right]. Qed.

Lemma took_nil s : inv s -> took [] (view_of s) (view_of s).
Proof. intros Hi. pose proof (room_pos s Hi). split; [done|change (zlen []) with 0; lia|done|done|change (zlen []) with 0; lia]. Qed.

Lemma read_rest_spec fuel n : forall s, inv s -> 0 <= n -> (0 < n -> buffered (view_of s) = []) -> may_turn (view_of s) ->
  n + buf_size (file s) < 2 ^ 31 -> n < Z.of_nat fuel ->
  runs (read_rest fuel n) s (fetched (file s) n (view_of s)).
Proof.
  revert n. induction fuel as [|fuel IH]; intros n s Hi Hn Hb Hq Hsz Hfuel; [simpl in Hfuel; lia|].
  cbn [read_rest]. destruct (Z.eqb_spec n 0) as [->|Hn0].
  { apply runs_ret; [done|]. split; [by apply took_nil|by left]. }
  apply (runs_unassoc _ (fun r => if r =? 0 then f_read n else mret [])).
  eapply runs_bind; [apply (fill_spec s n); try done; [apply Hb|]; lia|].
  intros bs s1 Hi1 Hk1 _ (Ht & Hlen & Hfull & Hc). destruct Hc as [[Hne Hs]|[-> He]].
  - assert (0 < zlen bs) by (destruct bs; [done|simpl; lia]).
    assert ((length bs =? 0)%nat = false) as -> by (apply Nat.eqb_neq; lia).
    eapply runs_bind; [apply IH; [done|lia| |by eapply took_turn| |lia]|].
    + intros Hlt. apply Hfull. lia.
    + destruct Hk1 as [_ -> _ _]. lia.
    + intros rest s2 Hi2 Hk2 _ [Ht2 Hc2]. apply runs_ret; [done|]. split; [by eapply took_trans|].
      rewrite length_app. destruct Hc2 as [[Hl2 Hs2]|[Hl2 He2]]; [left|right].
      * split; [lia|]. destruct Hs, Hs2. split; congruence.
      * split; [lia|]. by eapply ended_trans.
  - cbn [length Nat.eqb]. apply runs_ret; [done|]. split; [done|]. right. split; [simpl; lia|done].
Qed.

(** ** The buffer first *)

Lemma skip_inv s k : inv s -> 0 <= k <= rend (file s) - rpos (file s) -> rend (file s) <> 0 ->
  let s' := Io (set_r (rpos (file s) + k) (rend (file s)) (file s)) (sys s) in
  let v := view_of s in
  inv s' /\ view_of s' = View (data v) (here v + k) (drop (Z.to_nat k) (ahead v)) (drop (Z.to_nat k) (buffered v))
    (queued v) (sent v) (eof v) (err v) (direction v) (room v + k).
Proof.
  intros Hi Hk Hre. destruct (reading_on s Hi Hre) as [Hw Hr]. pose proof (length_unread s Hi) as Hlu.
  destruct s as [f e]. pose proof Hi as [Ho Hwf Hptr Hl Hof Hd Hm Heof]. cbn [file sys] in *. cbv zeta.
  set (f' := set_r (rpos f + k) (rend f) f). pose proof Hwf as []. destruct Hr as [Hr1 Hr2]. unfold UNGET in *.
  assert (Hu : unread f' = drop (Z.to_nat k) (unread f)).
  { unfold unread, f'. cbn [rpos rend set_r]. replace (rend f - rpos f) with (k + (rend f - (rpos f + k))) by lia.
    rewrite slice_app by (unfold UNGET; lia). rewrite drop_app_length'; [done|].
    pose proof (length_slice f (rpos f) k) as Hs. unfold UNGET in Hs. lia. }
  assert (Hp' : pending f' = pending f) by done.
  assert (Hsh : shown (Io f' e) = shown (Io f e)) by done.
  split.
  - split; cbn [file sys]; [by eapply opened_kept, Ho|done| |done|done|done|done|].
    + left. split; [done|]. right. unfold r_on, f'. simpl. unfold UNGET. lia.
    + intros He. destruct (Heof He) as [Hun ?]. split; [|done]. rewrite Hu, Hun. apply drop_nil.
  - unfold view_of. rewrite Hsh. cbn [file data here ahead buffered queued sent eof err direction room].
    rewrite Hu, length_drop. unfold dir_of, f'. cbn [rpos rend set_r wend]. f_equal.
    + lia.
    + rewrite drop_app_le by lia. done.
    + replace (rpos f =? 0) with false by lia. replace (rpos f + k =? 0) with false by lia. unfold UNGET. cbn [buf set_r]. lia.
Qed.

Lemma load_unread s k : inv s -> 0 <= k <= rend (file s) - rpos (file s) -> rend (file s) <> 0 ->
  load (rpos (file s)) k s = Ret (take (Z.to_nat k) (unread (file s)), s).
Proof.
  intros Hi Hk Hre. destruct (reading_on s Hi Hre) as [Hw [Hr1 Hr2]]. pose proof (i_wf s Hi) as [].
  destruct s as [f e]. cbn [file] in *. rewrite load_slice by lia.
  do 2 f_equal. unfold unread, slice. rewrite take_take. f_equal. lia.
Qed.

Lemma runs_advance {B} (m : unit -> M (io X) B) s k Q : inv s -> 0 <= k <= rend (file s) - rpos (file s) -> rend (file s) <> 0 ->
  (forall s', inv s' -> kept (file s) (file s') -> took (take (Z.to_nat k) (unread (file s))) (view_of s) (view_of s') ->
     same_flags (view_of s) (view_of s') -> buffered (view_of s') = drop (Z.to_nat k) (buffered (view_of s)) ->
     lock (file s') = lock (file s) -> runs (m tt) s' Q) ->
  runs (advance k ≫= m) s Q.
Proof.
  intros Hi Hk Hre Hm. destruct (skip_inv s k Hi Hk Hre) as [Hi' Hv']. pose proof (room_pos s Hi) as Hroom.
  pose proof (length_unread s Hi) as Hlu.
  destruct s as [f e]. cbn [file sys] in *. apply runs_set; [done|done|]. cbn [file] in Hm.
  apply Hm; [done|done| |by rewrite Hv'|by rewrite Hv'|done]. rewrite Hv'.
  split; cbn -[view_of]; [done| | |done|].
  - rewrite length_take. lia.
  - unfold view_of. cbn [ahead file]. rewrite drop_app_le by lia. rewrite app_assoc, take_drop. done.
  - rewrite length_take. unfold UNGET in *. lia.
Qed.
End Streams.
