(* ===== verification/StdioOps.v ===== *)
(** The operations of [Stdio] one by one, over any device that keeps
    [DeviceLaws]: what a call returns, what it takes from the bytes ahead, and
    where the stream stands afterwards. *)
From S2P Require Import Prelude.
From S2P Require Import Wasi.
From S2P Require Import Stdio.
From S2P Require Import StdioProofs.

Section Operations.
Context {X : Type} `{DeviceLaws X}.
Variable tid : Z.
Abbreviation runs := (runs (X := X)).

(** ** Output *)

Lemma fwrite_runs s src size nmemb : 0 < tid -> inv s -> lock_ok tid (file s) -> buffered (view_of s) = [] -> byte_list src ->
  let l := w32 (size * nmemb) in let bs := take (Z.to_nat l) src in
  l <= zlen src -> l + buf_size (file s) < 2 ^ 31 ->
  (write_at (appends (file s)) (data (view_of s)) (here (view_of s)) bs).2 <= limit ->
  runs (fwrite tid src size nmemb) s (fun r v => exists k, written (file s) bs (view_of s) k v /\
    r = if k =? l then (if size =? 0 then 0 else nmemb) else k / size).
Proof.
  intros Ht Hi Hlk Hb Hby l bs Hl Hsz Hlim. unfold fwrite. fold l. cbv zeta. rewrite (proj2 (Z.ltb_ge _ _)) by done. fold bs.
  assert (Hl0 : 0 <= l) by apply w32_range. assert (Hbl : zlen bs = l) by (unfold bs; rewrite length_take; lia).
  eapply runs_bind with (Q := written (file s) bs (view_of s)).
  - apply runs_with_lock; [done..|]. intros lk. destruct (relock s lk Hi) as [Hi0 Hv0]. rewrite <- Hv0 in *.
    apply (fwritex_spec (Io (set_lock lk (file s)) (sys s))); try done; [by apply Forall_take|by rewrite Hbl].
  - intros k s1 Hi1 _ _ Hk. apply runs_ret; [done|]. by exists k.
Qed.

Lemma fputc_runs s c : 0 < tid -> inv s -> lock_ok tid (file s) -> buffered (view_of s) = [] -> 1 + buf_size (file s) < 2 ^ 31 ->
  (write_at (appends (file s)) (data (view_of s)) (here (view_of s)) [w8 c]).2 <= limit ->
  runs (fputc tid c) s (fun r v => exists k, written (file s) [w8 c] (view_of s) k v /\ r = if k =? 1 then w8 c else EOF).
Proof.
  intros Ht Hi Hlk Hb Hsz Hlim. apply runs_once_locked; [done..|]. intros l. destruct (relock s l Hi) as [Hi0 Hv0].
  rewrite <- Hv0 in *. by apply (putc_spec (Io (set_lock l (file s)) (sys s))).
Qed.

(** ** Input *)

Lemma from_buffer_spec s l : inv s -> 0 <= l ->
  runs (from_buffer l) s (fun bs v => took bs (view_of s) v /\ zlen bs <= l /\ (zlen bs < l -> buffered v = []) /\
    same_flags (view_of s) v).
Proof.
  intros Hi Hl. unfold from_buffer. apply runs_gets. cbv beta. pose proof (length_unread s Hi) as Hlu.
  destruct (Z.eqb_spec (rpos (file s)) (rend (file s))) as [He|Hne].
  { apply runs_ret; [done|]. split_and!; [by apply took_nil|simpl; lia|intros _; by apply unread_none|done]. }
  assert (Hre : rend (file s) <> 0).
  { intros Hz. destruct Hi as [_ [] [[_ [[? ?]|[? ?]]]|[_ [? ?]]] _ _ _ _ _]; unfold UNGET in *; lia. }
  unfold avail. set (k := Z.min (rend (file s) - rpos (file s)) l).
  eapply runs_step; [apply load_unread; [done| |done]; lia|done|done|].
  apply runs_advance; [done|lia|done|]. intros s' Hi' Hk' Ht Hs Hb _. apply runs_ret; [done|].
  split_and!; [done|rewrite length_take; lia| |done].
  rewrite length_take. intros Hlt. rewrite Hb. apply drop_ge. change (buffered (view_of s)) with (unread (file s)). lia.
Qed.

(** The items and bytes of [fread]. *)
Lemma fread_runs s size nmemb : 0 < tid -> inv s -> lock_ok tid (file s) -> may_turn (view_of s) ->
  let len := w32 (size * nmemb) in
  len + buf_size (file s) < 2 ^ 31 ->
  runs (fread tid size nmemb) s (fun r v =>
    fetched (file s) len (view_of s) r.2 v /\
    r.1 = if zlen r.2 =? len then (if size =? 0 then 0 else nmemb) else zlen r.2 / size).
Proof.
  intros Ht Hi Hlk Hq len Hsz. unfold fread. fold len. cbv zeta. apply runs_with_lock; [done..|]. intros l.
  destruct (relock s l Hi) as [Hi0 Hv0]. set (s0 := Io (set_lock l (file s)) (sys s)) in *.
  apply runs_orient; [done|]. intros s1 Hi1 Ha Hf _ Hv1 _. rewrite Hv0 in Hv1. rewrite <- Hv1 in *.
  assert (Hlen : 0 <= len) by (apply w32_range). pose proof (al_kept _ _ Ha) as Hk1.
  eapply runs_bind; [by apply from_buffer_spec|]. intros bs s2 Hi2 Hk2 _ (Ht2 & Hl2 & Hfull & Hs2).
  assert (Hbs2 : buf_size (file s2) = buf_size (file s)).
  { destruct Hk1 as [_ Hx _ _], Hk2 as [_ Hy _ _]. by rewrite Hy, Hx. }
  eapply runs_bind; [apply read_rest_spec; [done|lia| |by eapply took_turn|lia|lia]|].
  { intros Hlt. apply Hfull. lia. }
  intros rest s3 Hi3 _ _ [Ht3 Hc3]. apply runs_ret; [done|]. cbn [fst snd]. split; [|done].
  assert (Hkk : kept (file s) (file s2)) by (etransitivity; [|exact Hk2]; etransitivity; [|exact Hk1]; done).
  split; [by eapply took_trans|]. rewrite length_app. destruct Hc3 as [[Hl3 Hs3]|[Hl3 He3]]; [left|right].
  - split; [lia|]. destruct Hs2, Hs3. split; congruence.
  - split; [lia|]. by eapply ended_trans.
Qed.

(** One byte, or none. *)
Definition got (f : FILE) (v : view) (c : Z) (v' : view) : Prop :=
  (0 <= c < 256 /\ took [c] v v' /\ same_flags v v') \/ (c = EOF /\ took [] v v' /\ ended f v v').

Lemma uflow_fill s : __uflow s = (l ← fill 1; match l with [c] => mret c | _ => mret EOF end) s.
Proof.
  unfold __uflow, fill, mbind, M_bind. destruct (__toread s) as [[r s1]|]; [|done]. by destruct (r =? 0).
Qed.

Lemma getc_spec s : inv s -> may_turn (view_of s) -> runs getc_unlocked s (got (file s) (view_of s)).
Proof.
  intros Hi Hq. unfold getc_unlocked. apply runs_gets. cbv beta. pose proof (length_unread s Hi) as Hlu.
  pose proof (ahead_bytes s Hi) as Hbytes. pose proof (i_wf s Hi) as [].
  destruct (Z.eqb_spec (rpos (file s)) (rend (file s))) as [He|Hne]; cbn [negb].
  - enough (Hr : runs (l ← fill 1; match l with [c] => mret c | _ => mret EOF end) s (got (file s) (view_of s))).
    { destruct Hr as (c & s' & Hr & Hrest). exists c, s'. by rewrite uflow_fill. }
    eapply runs_bind; [apply (fill_spec s 1); try done; [by apply unread_none|unfold UNGET in *; lia]|].
    intros l s1 Hi1 Hk1 _ (Ht & Hl & _ & Hc). destruct Hc as [[Hne Hs]|[-> Hend]].
    + destruct l as [|c [|c' l]]; [done| |simpl in Hl; lia]. apply runs_ret; [done|]. left. split; [|done].
      destruct Ht. rewrite t_ahead in Hbytes. by apply Forall_inv in Hbytes.
    + apply runs_ret; [done|]. right. done.
  - assert (Hre : rend (file s) <> 0).
    { intros Hz. destruct Hi as [_ _ [[_ [[? ?]|[? ?]]]|[_ [? ?]]] _ _ _ _ _]; unfold UNGET in *; lia. }
    assert (Hr1 : 1 <= rend (file s) - rpos (file s)).
    { destruct (reading_on s Hi Hre) as [_ [? _]]. lia. }
    destruct (unread (file s)) as [|c u] eqn:Hu; [simpl in Hlu; lia|].
    assert (Hload : load1 (rpos (file s)) s = Ret (c, s)).
    { unfold load1. rewrite (bind_Ret _ _ _ _ _ (load_unread s 1 Hi ltac:(lia) Hre)). by rewrite Hu. }
    eapply runs_step; [exact Hload|done|done|]. apply runs_advance; [done|lia|done|].
    intros s' Hi' Hk' Ht Hs _ _. apply runs_ret; [done|]. left. rewrite Hu in Ht. split; [|done].
    destruct Ht. rewrite t_ahead in Hbytes. by apply Forall_inv in Hbytes.
Qed.

Lemma fgetc_runs s : 0 < tid -> inv s -> lock_ok tid (file s) -> may_turn (view_of s) ->
  runs (fgetc tid) s (got (file s) (view_of s)).
Proof.
  intros Ht Hi Hlk Hq. apply runs_once_locked; [done..|]. intros l. destruct (relock s l Hi) as [Hi0 Hv0].
  rewrite <- Hv0 in *. exact (getc_spec _ Hi0 Hq).
Qed.

(** ** Pushing back *)

(** [c] comes next again. *)
Definition pushed (c : Z) (v v' : view) : Prop :=
  data v' = data v /\ here v' = here v - 1 /\ ahead v' = c :: ahead v /\ buffered v' = c :: buffered v /\
  queued v' = [] /\ eof v' = false /\ err v' = err v /\ room v' = room v - 1 /\ direction v' = Reading.

(** The last steps of [ungetc], where there is room. *)
Lemma push_spec s c : inv s -> rpos (file s) <> 0 -> buf (file s) - UNGET < rpos (file s) ->
  runs (advance (-1);; f ← gets file; store (rpos f) [w8 c];; clear_flag F_EOF;; mret (w8 c)) s (fun r v =>
    r = w8 c /\ pushed (w8 c) (view_of s) v).
Proof.
  intros Hi Hr0 Hroom.
  assert (Hre : rend (file s) <> 0).
  { intros Hz. destruct Hi as [_ [] [[_ [[? ?]|[? ?]]]|[_ [? ?]]] _ _ _ _ _]; unfold UNGET in *; lia. }
  destruct (reading_on s Hi Hre) as [Hw Hr]. pose proof (pending_off _ Hw) as Hp. pose proof (length_unread s Hi) as Hlu.
  rewrite (quiet_view s Hp). destruct s as [f e]. pose proof Hi as [Ho Hwf _ Hl Hof Hd Hm Heof]. cbn [file sys] in *.
  destruct Hr as [Hr1 Hr2]. pose proof Hwf as []. unfold UNGET in *.
  apply runs_set; [done|done|]. apply runs_gets. cbn [file].
  set (f1 := set_r (rpos f + -1) (rend f) f).
  assert (Hst : store (rpos f1) [w8 c] (Io f1 e) = Ret (tt, Io (stored_at f1 (rpos f1) [w8 c]) e)).
  { apply store_at; unfold f1, UNGET; cbn [rpos buf bytes set_r length]; lia. }
  assert (Hs1 : stored_at f1 (rpos f1) [w8 c] = set_bytes (bytes (stored_at f1 (rpos f1) [w8 c])) f1) by done.
  set (bs := bytes (stored_at f1 (rpos f1) [w8 c])) in *.
  eapply runs_step; [exact Hst|done|done|]. rewrite Hs1. apply runs_set; [by split; [..|apply perms_clear]|done|].
  cbn [file]. set (f2 := set_flags _ _).
  assert (Hlen : length bs = length (bytes f)).
  { unfold bs. rewrite length_stored; unfold f1, UNGET; cbn [rpos buf bytes set_r length]; lia. }
  assert (Hbs : byte_list bs).
  { assert (Hc : byte_list [w8 c]) by (constructor; [apply w8_range|done]).
    unfold bs, stored_at. destruct (decide ([w8 c] = [])); [done|]. cbn [bytes set_bytes set_buf]. repeat apply Forall_app_2; [by apply Forall_take|exact Hc|by apply Forall_drop]. }
  assert (Hu : unread f2 = w8 c :: unread f).
  { unfold unread at 1. change (rpos f2) with (rpos f1). change (rend f2) with (rend f).
    transitivity (slice (stored_at f1 (rpos f1) [w8 c]) (rpos f1) (1 + (rend f - rpos f))).
    { rewrite Hs1. unfold f1. cbn [rpos set_r]. unfold slice. cbn [f2 buf bytes set_bytes set_flags set_buf set_r]. do 2 f_equal. lia. }
    rewrite slice_app by (change (buf (stored_at f1 (rpos f1) [w8 c])) with (buf f); unfold f1, UNGET; cbn [rpos set_r]; lia).
    rewrite slice_stored by (unfold f1, UNGET; cbn [rpos buf bytes set_r length]; lia). cbn [app]. f_equal.
    unfold unread, slice, stored_at. cbn [decide]. destruct (decide ([w8 c] = [])); [done|].
    cbn [bytes buf set_bytes set_buf length]. change (bytes f1) with (bytes f). change (buf f1) with (buf f).
    f_equal. unfold f1. cbn [rpos set_r]. unfold UNGET.
    rewrite drop_app_ge by (rewrite length_take; lia). rewrite length_take.
    replace (Z.to_nat (rpos f + -1 + 1 - (buf f - 8)) - _)%nat with 1%nat by lia. cbn [app]. rewrite skipn_cons, drop_0.
    f_equal. lia. }
  assert (Hk : kept f f2) by (split; [done..|exact (perms_clear f F_EOF eq_refl)]).
  destruct (kept_flags _ _ Hk) as (Hk1 & Hk2 & Hk3).
  assert (Hw2 : w_off f2) by done. pose proof (pending_off _ Hw2) as Hp2.
  assert (He2 : at_eof f2 = false) by (apply has_cleared; done).
  apply runs_ret.
  - split; cbn [file sys].
    + by eapply opened_kept, Ho.
    + split; simpl; unfold UNGET; by rewrite ?Hlen.
    + left. split; [done|]. right. unfold r_on, f2, f1. cbn [rpos rend buf buf_size set_flags set_bytes set_buf set_r]. unfold UNGET. lia.
    + by rewrite shown_quiet by done.
    + done.
    + done.
    + by destruct Hw2 as [-> _].
    + by rewrite He2.
  - split; [done|]. rewrite (quiet_view (Io f2 e) Hp2). cbn [file]. rewrite Hu, He2.
    change (disk (Io f2 e)) with (disk (Io f e)). change (offset (Io f2 e)) with (offset (Io f e)).
    assert (Hr' : rpos f2 = rpos f - 1) by (unfold f2, f1; cbn [rpos set_flags set_bytes set_buf set_r]; lia).
    assert (Herr : in_error f2 = in_error f) by (apply has_clear; done).
    assert (Hdir : dir_of f2 = Reading).
    { unfold dir_of. destruct Hw2 as [-> _]. change (rend f2) with (rend f). cbn. by replace (rend f =? 0) with false by lia. }
    rewrite Hr', Herr, Hdir. unfold pushed. cbn [data here ahead buffered queued eof err room direction length].
    replace (rpos f - 1 =? 0) with false by lia. replace (rpos f =? 0) with false by lia.
    change (buf f2) with (buf f). unfold UNGET. split_and!; (done || lia).
Qed.

Lemma ungetc_runs s c : 0 < tid -> inv s -> lock_ok tid (file s) -> may_turn (view_of s) -> readable (file s) = true ->
  c <> EOF -> 0 < room (view_of s) ->
  runs (ungetc tid c) s (fun r v => r = w8 c /\ exists v1, took [] (view_of s) v1 /\ same_flags (view_of s) v1 /\ 0 < room v1 /\
    pushed (w8 c) v1 v).
Proof.
  intros Ht Hi Hlk Hq Hrd Hc Hroom. unfold ungetc. rewrite (proj2 (Z.eqb_neq c EOF)) by done.
  apply runs_with_lock; [done..|]. intros l. destruct (relock s l Hi) as [Hi0 Hv0].
  set (s0 := Io (set_lock l (file s)) (sys s)) in *.
  assert (Hrd0 : readable (file s0) = true) by done. rewrite <- Hv0 in *. clearbody s0. clear s Hi Hlk Hrd Hv0.
  apply runs_gets. cbv beta. destruct (Z.eqb_spec (rpos (file s0)) 0) as [Hz|Hnz]; cbn [when].
  - assert (Hun : buffered (view_of s0) = []).
    { cbn [buffered view_of]. apply unread_none. destruct Hi0 as [_ [] [[_ [[? ?]|[? ?]]]|[_ [? ?]]] _ _ _ _ _]; unfold UNGET in *; lia. }
    apply runs_assoc. eapply runs_bind; [by apply toread_spec|]. rewrite Hrd0. intros r s1 Hi1 Hk1 _ [_ Hv1].
    change (mret tt ≫= ?k) with (k tt). cbv beta. 
    assert (Hre : rend (file s1) <> 0).
    { pose proof (f_equal direction Hv1) as Hd. cbn in Hd. unfold dir_of in Hd. destruct (wend (file s1) =? 0), (Z.eqb_spec (rend (file s1)) 0); done. }
    destruct (reading_on s1 Hi1 Hre) as [_ [Hr1 Hr2]]. pose proof (i_wf s1 Hi1) as []. unfold UNGET in *.
    assert (Hrp : rpos (file s1) = rend (file s1)) by (apply unread_nil; [done|]; change (unread (file s1)) with (buffered (view_of s1)); by rewrite Hv1).
    change (runs (f ← gets file; if (rpos f =? 0) || (rpos f <=? buf f - UNGET) then mret EOF
      else advance (-1);; f ← gets file; store (rpos f) [w8 c];; clear_flag F_EOF;; mret (w8 c)) s1
      (fun r v => r = w8 c /\ exists v1, took [] (view_of s0) v1 /\ same_flags (view_of s0) v1 /\ 0 < room v1 /\ pushed (w8 c) v1 v)).
    apply runs_gets. cbv beta. unfold UNGET. replace (rpos (file s1) =? 0) with false by lia.
    replace (rpos (file s1) <=? buf (file s1) - 8) with false by lia. cbn [orb].
    eapply runs_mono; [apply push_spec; unfold UNGET; (done || lia)|]. intros r' v' [-> Hp]. split; [done|].
    exists (view_of s1). split_and!; [| | |done].
    + rewrite Hv1. split; cbn -[view_of]; [done|lia|done|done|unfold UNGET; pose proof (i_wf s0 Hi0) as []; lia].
    + by rewrite Hv1.
    + rewrite Hv1. cbn -[view_of]. unfold UNGET. pose proof (i_wf s0 Hi0) as []. lia.
  - change (mret tt ≫= ?k) with (k tt). cbv beta. apply runs_gets. cbv beta.
    assert (Hrm : buf (file s0) - UNGET < rpos (file s0)).
    { cbn [room view_of] in Hroom. rewrite (proj2 (Z.eqb_neq _ _) Hnz) in Hroom. lia. }
    rewrite (proj2 (Z.eqb_neq _ _) Hnz). rewrite (proj2 (Z.leb_gt _ _) Hrm). cbn [orb].
    eapply runs_mono; [by apply push_spec|]. intros r' v' [-> Hp]. split; [done|].
    exists (view_of s0). split_and!; [by apply took_nil|done|done|done].
Qed.

(** ** Flushing and positions *)

(** Nothing is queued; the rest is as it was. *)
Definition flushed (v : view) : view :=
  View (data v) (here v) (ahead v) (buffered v) [] (if decide (queued v = []) then sent v else (data v, here v))
    (eof v) (err v) (direction v) (if decide (queued v = []) then room v else UNGET).

Lemma flushed_quiet v : queued v = [] -> flushed v = v.
Proof. intros Hq. unfold flushed. rewrite Hq. by destruct v; simpl in *; subst. Qed.

Lemma flush_spec s : inv s ->
  runs flush_pending s (fun ok v =>
    (ok = true /\ v = flushed (view_of s)) \/
    (exists k, lost (appends (file s)) [] (view_of s) k v /\ (reports -> ok = false) /\ queued v = [])).
Proof.
  intros Hi. unfold flush_pending. apply runs_gets. cbv beta. pose proof (pending_nil s Hi) as Hpn.
  destruct (Z.eqb_spec (wpos (file s)) (wbase (file s))) as [He|Hne]; cbn [negb].
  { apply runs_ret; [done|]. left. split; [done|]. symmetry. apply flushed_quiet. by apply Hpn. }
  assert (Hpe : pending (file s) <> []) by (intros ?%Hpn; done).
  assert (Hd : direction (view_of s) = Writing).
  { apply dir_writing. intros Hz. destruct (not_writing s Hi Hz) as [(_ & Hp0 & Hb0) _]. congruence. }
  pose proof (i_wf s Hi) as [].
  eapply runs_bind; [apply dwrite_spec; try done|].
  - apply i_mode; [done|]. by apply dir_writing.
  - by rewrite app_nil_r.
  - simpl. unfold UNGET in *. lia.
  - rewrite write_at_nil, (writing_view s Hi Hd). cbn [data here snd]. by apply i_pos.
  - intros k s1 Hi1 Hk1 _ Hq1. apply runs_gets. cbv beta. apply runs_ret; [done|]. destruct Hq1 as [[_ Hv]|Hl].
    + left. assert (Hw : wend (file s1) <> 0) by (apply dir_writing; by rewrite Hv).
      destruct (writing_on s1 Hi1 Hw) as [(Hwb & Hwp & _) _]. pose proof (i_wf s1 Hi1) as [].
      replace (wpos (file s1) =? 0) with false by (unfold UNGET in *; lia). split; [done|].
      rewrite Hv, (wrote_nil_view s _ Hi Hd), write_at_nil. unfold flushed.
      destruct (decide (queued (view_of s) = [])) as [Hq|_]; [by destruct (Hpe Hq)|].
      rewrite (writing_view s Hi Hd). done.
    + right. exists k. split; [done|]. pose proof Hl as (_ & n & _ & _ & _ & _ & _ & Hqn & _ & _ & _ & Hrep).
      split; [|done]. intros Hr. destruct (Hrep Hr) as [_ Hidle].
      assert (Hz : wend (file s1) = 0).
      { destruct (decide (wend (file s1) = 0)) as [|Hx]; [done|]. apply dir_writing in Hx. congruence. }
      destruct (not_writing s1 Hi1 Hz) as [(_ & -> & _) _]. done.
Qed.

(** After a flush: nothing is buffered, the file is as the program sees it. *)
Definition synced (v v' : view) : Prop :=
  data v' = data v /\ ahead v' = drop (Z.to_nat (here v')) (data v') /\ buffered v' = [] /\ queued v' = [] /\
  sent v' = (data v', here v') /\ eof v' = eof v /\ err v' = err v /\ direction v' = Idle /\
  (here v' = here v \/ (may_fail \/ here v < 0) /\ here v' = here v + zlen (buffered v)).

Lemma here_limit s : inv s -> here (view_of s) <= limit /\ - 2 ^ 32 < here (view_of s).
Proof.
  intros Hi. pose proof (i_pos s Hi). pose proof (shown_pos s Hi). pose proof (length_unread s Hi) as Hl.
  cbn [here view_of]. split; [lia|]. pose proof (i_wf s Hi) as [].
  destruct Hi as [_ _ [[_ [[? ?]|[? ?]]]|[_ [? ?]]] _ _ _ _ _]; unfold UNGET in *; lia.
Qed.

(** Seeking below. *)
Lemma dseek_spec s off whence : inv s -> - 2 ^ 63 <= off < 2 ^ 63 -> 0 <= whence <= 2 ->
  let t := (if whence =? SEEK_SET then 0 else if whence =? SEEK_CUR then offset s else zlen (disk s)) + off in
  t <= limit ->
  exists r e', f_seek off whence s = Ret (r, Io (file s) e') /\ disk (Io (file s) e') = disk s /\
    opened (file s) (world e') /\
    ((0 <= t /\ r = t /\ offset (Io (file s) e') = t) \/
     ((t < 0 \/ may_fail) /\ r = -1 /\ offset (Io (file s) e') = offset s)).
Proof.
  intros Hi Ho Hwh t Ht. destruct s as [f e]. cbn [file].
  destruct (seek_law f e off whence) as (r & e' & Hr & Hop & Hc & Hcase); try done; [apply Hi|apply Hi|].
  exists r, e'. done.
Qed.

(** The stream after the device has moved to [p], with [f'] idle. *)
Lemma moved_inv f f' e p : kept f f' -> wf f' -> w_off f' -> r_off f' -> opened f' (world e) ->
  offset (Io f' e) = p -> p <= limit -> zlen (disk (Io f' e)) <= limit ->
  (at_eof f' = true -> drop (Z.to_nat p) (disk (Io f' e)) = []) ->
  inv (Io f' e) /\
  view_of (Io f' e) = View (disk (Io f' e)) p (drop (Z.to_nat p) (disk (Io f' e))) [] [] (disk (Io f' e), p)
    (at_eof f') (in_error f') Idle UNGET.
Proof.
  intros Hk Hwf Hw Hr Ho Hof Hp Hd He. pose proof (pending_off _ Hw) as Hpe. pose proof (unread_off _ Hr) as Hu. split.
  - split; cbn [file sys]; [done|done|left; split; [done|by left]| | |done| |].
    + rewrite shown_quiet by done. cbn [snd]. lia.
    + lia.
    + by destruct Hw as [-> _].
    + rewrite Hof. auto.
  - rewrite (quiet_view (Io f' e) Hpe). cbn [file]. rewrite Hu, Hof. unfold dir_of.
    destruct Hw as [-> _], Hr as [-> ->]. simpl. by rewrite Z.sub_0_r.
Qed.

Lemma pointers_near s : inv s -> 0 <= rend (file s) - rpos (file s) < 2 ^ 32 /\ (rend (file s) = 0 -> rpos (file s) = 0).
Proof.
  intros Hi. pose proof (i_wf s Hi) as [].
  destruct Hi as [_ _ [[_ [[? ?]|[? ?]]]|[_ [? ?]]] _ _ _ _ _]; unfold UNGET in *; lia.
Qed.

(** The last steps of [fflush], after the device has gone back over what was
    read ahead, or could not. *)
Lemma settle_spec s e' : inv s -> queued (view_of s) = [] -> disk (Io (file s) e') = disk s -> opened (file s) (world e') ->
  (offset (Io (file s) e') = offset s - zlen (unread (file s)) /\ 0 <= offset (Io (file s) e')) \/
  (unread (file s) <> [] /\ (may_fail \/ offset s - zlen (unread (file s)) < 0) /\ offset (Io (file s) e') = offset s) ->
  runs (update (set_w 0 0 0);; update (set_r 0 0);; mret 0) (Io (file s) e') (fun r v => r = 0 /\ synced (view_of s) v).
Proof.
  intros Hi Hq Hde Hop Hoff. pose proof (here_limit s Hi) as [Hh1 Hh2]. pose proof (i_wf s Hi) as Hwf.
  pose proof (i_off s Hi) as Hofl. rewrite (quiet_view s Hq) in *. cbn [here] in *.
  apply runs_set; [done|done|]. apply runs_set; [done|done|].
  set (f' := set_r 0 0 (set_w 0 0 0 (file s))).
  assert (Hd' : disk (Io f' e') = disk s) by (rewrite <- Hde; done).
  assert (Ho' : offset (Io f' e') = offset (Io (file s) e')) by done.
  destruct (moved_inv (file s) f' e' (offset (Io f' e'))) as [Hi' Hv']; try done.
  - by destruct Hwf.
  - by eapply opened_kept, Hop.
  - rewrite Ho'. destruct Hoff as [[-> _]|(_ & _ & ->)]; lia.
  - rewrite Hd'. by apply i_disk.
  - intros He. destruct (i_eof s Hi He) as [Hu0 Hdn]. rewrite Hd', Ho'.
    destruct Hoff as [[-> _]|(Hu1 & _)]; [|by rewrite Hu0 in Hu1]. rewrite Hu0. simpl. by rewrite Z.sub_0_r.
  - apply runs_ret; [done|]. split; [done|]. rewrite Hv', Ho', Hd'. unfold synced.
    cbn [data here ahead buffered queued sent eof err direction]. split_and!; try done.
    destruct Hoff as [[-> _]|(_ & Hx & ->)]; [by left|right]. split; [done|lia].
Qed.

(** The steps of [fflush] after the pending bytes. *)
Lemma sync_spec s : inv s -> queued (view_of s) = [] ->
  runs (f ← gets file; when (negb (rpos f =? rend f)) (f_seek (rpos f - rend f) SEEK_CUR;; mret tt);;
    update (set_w 0 0 0);; update (set_r 0 0);; mret 0) s (fun r v => r = 0 /\ synced (view_of s) v).
Proof.
  intros Hi Hq. apply runs_gets. cbv beta. pose proof (length_unread s Hi) as Hlu. pose proof (offset_pos s Hi) as Hop.
  destruct (Z.eqb_spec (rpos (file s)) (rend (file s))) as [Heq|Hne]; cbn [negb when].
  - change (mret tt ≫= ?k) with (k tt). cbv beta. assert (Hs : s = Io (file s) (sys s)) by by destruct s.
    rewrite Hs at 1. apply settle_spec; [done|done|by rewrite <- Hs|apply Hi|]. left. rewrite <- Hs, (unread_none _ Heq).
    simpl. lia.
  - assert (Hun : unread (file s) <> []) by (intros Hn%(unread_nil s Hi); done). apply runs_assoc.
    pose proof (pointers_near s Hi) as [Hn _]. pose proof limit_range. pose proof (i_off s Hi).
    destruct (dseek_spec s (rpos (file s) - rend (file s)) SEEK_CUR) as (r & e' & Hr & Hde & Hopn & Hc); [done|lia|done| |].
    { change (SEEK_CUR =? SEEK_SET) with false. change (SEEK_CUR =? SEEK_CUR) with true. cbv iota. lia. }
    change (SEEK_CUR =? SEEK_SET) with false in Hc. change (SEEK_CUR =? SEEK_CUR) with true in Hc. cbv iota in Hc.
    eapply runs_step; [exact Hr|done|done|]. change (mret tt ≫= ?k) with (k tt). cbv beta.
    apply settle_spec; try done. destruct Hc as [(Hc1 & _ & Hc2)|(Hc1 & _ & Hc2)]; [left|right].
    + rewrite Hc2. lia.
    + split; [done|]. split; [|done]. destruct Hc1; [right; lia|by left].
Qed.

Lemma fflush_runs s : 0 < tid -> inv s -> lock_ok tid (file s) ->
  runs (fflush tid) s (fun r v =>
    (r = 0 /\ synced (view_of s) v) \/ (exists k v1, lost (appends (file s)) [] (view_of s) k v1 /\ (reports -> r = EOF /\ v = v1))).
Proof.
  intros Ht Hi Hlk. apply runs_with_lock; [done..|]. intros l. destruct (relock s l Hi) as [Hi0 Hv0].
  set (s0 := Io (set_lock l (file s)) (sys s)) in *. rewrite <- Hv0. change (appends (file s)) with (appends (file s0)).
  eapply runs_bind; [by apply flush_spec|]. intros ok s1 Hi1 Hk1 _ [[-> Hv1]|(k & Hl & Hrep & Hq1)].
  - cbn [negb]. eapply runs_mono; [apply sync_spec; [done|by rewrite Hv1]|]. intros r v [-> Hs]. left. split; [done|].
    rewrite Hv1 in Hs. exact Hs.
  - destruct ok; cbn [negb].
    + eapply runs_mono; [by apply sync_spec|]. intros r v _. right. exists k, (view_of s1). split; [done|].
      intros Hr. by specialize (Hrep Hr).
    + apply runs_ret; [done|]. right. exists k, (view_of s1). done.
Qed.

(** Where a seek leads to. *)
Definition seek_target (v : view) (off whence : Z) : Z :=
  (if whence =? SEEK_SET then 0 else if whence =? SEEK_CUR then here v else zlen (data v)) + off.

Definition at_place (v : view) (p : Z) (v' : view) : Prop :=
  data v' = data v /\ here v' = p /\ ahead v' = drop (Z.to_nat p) (data v) /\ buffered v' = [] /\ queued v' = [] /\
  sent v' = (data v, p) /\ eof v' = false /\ err v' = err v /\ direction v' = Idle.

(** What a failed seek leaves: nothing is queued. *)
Definition unmoved (v v' : view) : Prop :=
  data v' = data v /\ here v' = here v /\ ahead v' = ahead v /\ buffered v' = buffered v /\ queued v' = [] /\
  eof v' = eof v /\ err v' = err v /\ direction v' <> Writing /\ room v <= room v'.

Definition sought (f : FILE) (off whence : Z) (v : view) (r : Z) (v' : view) : Prop :=
  let t := seek_target v off whence in
  (0 <= t /\ r = 0 /\ at_place v t v') \/
  ((t < 0 \/ may_fail) /\ r = -1 /\ unmoved v v') \/
  (exists k, lost (appends f) [] v k v' /\ r = -1).

Lemma leave_writing s : inv s -> queued (view_of s) = [] ->
  let s1 := Io (set_w 0 0 0 (file s)) (sys s) in inv s1 /\ unmoved (view_of s) (view_of s1) /\ w_off (file s1).
Proof.
  intros Hi Hq. destruct s as [f e]. cbn [file sys]. destruct (decide (wend f = 0)) as [Hz|Hz].
  - destruct (not_writing _ Hi Hz) as [(Hwe & Hwp & Hwb) _]. cbn [file] in *.
    assert (Hs : set_w 0 0 0 f = f) by (pose proof (set_w_same f) as Hs; by rewrite Hwe, Hwp, Hwb in Hs).
    cbv zeta. rewrite Hs. split; [done|]. split; [|done]. unfold unmoved. split_and!; try done. intros Hd%dir_writing. done.
  - destruct (writing_on _ Hi Hz) as [_ [Hrp Hre]]. cbn [file] in *.
    destruct (empty_inv f e 0 0 Hi Hq) as [Hi1 Hv1]; [by apply unread_none; congruence|by left|].
    assert (Hs : set_r 0 0 (set_w 0 0 0 f) = set_w 0 0 0 f).
    { pose proof (set_r_same (set_w 0 0 0 f)) as Hs. cbn [rpos rend set_w] in Hs. by rewrite Hrp, Hre in Hs. }
    rewrite Hs in *. cbv zeta. split; [done|]. split; [|done]. rewrite Hv1. unfold unmoved. split_and!; try done.
    + cbn -[view_of]. symmetry. by apply unread_none; cbn; congruence.
    + unfold view_of. cbn [room file]. by rewrite Hrp.
Qed.

Lemma env_inv f e e' : opened f (world e') -> disk (Io f e') = disk (Io f e) -> offset (Io f e') = offset (Io f e) ->
  inv (Io f e) -> inv (Io f e') /\ view_of (Io f e') = view_of (Io f e).
Proof.
  intros Ho Hd Hp [_ Hw Hpt Hl Hof Hdk Hm He]. cbn [file sys] in *.
  assert (Hs : shown (Io f e') = shown (Io f e)) by (unfold shown; by rewrite Hd, Hp).
  split; [split; cbn [file sys]; rewrite ?Hs, ?Hd, ?Hp; done|]. unfold view_of. by rewrite Hs, Hd, Hp.
Qed.


(** The distance that the device is told leads to the target. *)
Lemma seek_distance s off whence : inv s -> queued (view_of s) = [] -> - 2 ^ 62 <= off <= 2 ^ 62 ->
  let o := if (whence =? SEEK_CUR) && negb (rend (file s) =? 0) then s64 (off - (rend (file s) - rpos (file s))) else off in
  - 2 ^ 63 <= o < 2 ^ 63 /\
  (if whence =? SEEK_SET then 0 else if whence =? SEEK_CUR then offset s else zlen (disk s)) + o =
  seek_target (view_of s) off whence.
Proof.
  intros Hi Hq Hoff. pose proof (length_unread s Hi) as Hlu. pose proof (pointers_near s Hi) as [Hn Hz].
  unfold seek_target. rewrite (quiet_view s Hq). cbn [here data]. cbv zeta.
  destruct (Z.eqb_spec whence SEEK_CUR) as [->|Hne]; cbn [andb].
  - change (SEEK_CUR =? SEEK_SET) with false. cbv iota. destruct (Z.eqb_spec (rend (file s)) 0) as [Hr|_]; cbn [negb]; [specialize (Hz Hr); lia|].
    rewrite s64_small by lia. lia.
  - destruct (whence =? SEEK_SET); lia.
Qed.

(** The steps after the flush: [o] is the distance that the device is told. *)
Lemma seek_below s off o whence : inv s -> queued (view_of s) = [] -> - 2 ^ 62 <= off <= 2 ^ 62 -> 0 <= whence <= 2 ->
  seek_target (view_of s) off whence <= limit ->
  o = (if (whence =? SEEK_CUR) && negb (rend (file s) =? 0) then s64 (off - (rend (file s) - rpos (file s))) else off) ->
  runs (update (set_w 0 0 0);; r ← f_seek o whence; if r <? 0 then mret (-1) else
    update (set_r 0 0);; clear_flag F_EOF;; mret 0) s (fun r v =>
    (0 <= seek_target (view_of s) off whence /\ r = 0 /\ at_place (view_of s) (seek_target (view_of s) off whence) v) \/
    ((seek_target (view_of s) off whence < 0 \/ may_fail) /\ r = -1 /\ unmoved (view_of s) v)).
Proof.
  intros Hi Hq Hoff Hwh Ht Ho. destruct (seek_distance s off whence Hi Hq Hoff) as [Ho63 Hdist].
  rewrite <- Ho in Ho63, Hdist. clear Ho. pose proof (quiet_view s Hq) as Hqv.
  set (t := seek_target (view_of s) off whence) in *. destruct (leave_writing s Hi Hq) as (Hi1 & Hum & Hw1).
  destruct s as [f e]. cbn [file sys] in *. apply runs_set; [done|done|]. set (f1 := set_w 0 0 0 f) in *.
  destruct (dseek_spec (Io f1 e) o whence Hi1) as (r & e' & Hr & Hde & Hop & Hc); [done|done|by rewrite <- Hdist in Ht|].
  cbn [file] in *. eapply runs_step; [exact Hr|done|done|].
  change (disk (Io f1 e)) with (disk (Io f e)) in *. change (offset (Io f1 e)) with (offset (Io f e)) in *. rewrite Hdist in Hc.
  destruct Hc as [(Ht0 & -> & Hof)|(Hbad & -> & Hof)].
  - replace (t <? 0) with false by lia. apply runs_set; [done|done|]. apply runs_set; [by split; [..|apply perms_clear]|done|].
    set (f2 := set_flags _ _). assert (He2 : at_eof f2 = false) by (apply has_cleared; done).
    assert (Hk2 : kept f f2) by (split; [done..|exact (perms_clear f F_EOF eq_refl)]).
    assert (Herr : in_error f2 = in_error f) by (apply has_clear; done).
    assert (Hd2 : disk (Io f2 e') = disk (Io f e)) by (rewrite <- Hde; done).
    destruct (moved_inv f f2 e' t) as [Hi2 Hv2]; try done.
    + destruct (i_wf _ Hi). done.
    + eapply opened_kept, Hop. split; [done..|exact (perms_clear f F_EOF eq_refl)].
    + rewrite Hd2. apply (i_disk _ Hi).
    + by rewrite He2.
    + apply runs_ret; [done|]. left. split; [done|]. split; [done|]. rewrite Hv2, Hd2, He2, Herr, Hqv. by split_and!.
  - apply runs_ret; [by apply (env_inv f1 e e')|]. right. split; [done|]. split; [done|].
    destruct (env_inv f1 e e') as [_ ->]; done.
Qed.

Lemma fseeko_spec s off whence : (may_fail -> reports) -> inv s -> - 2 ^ 62 <= off <= 2 ^ 62 -> 0 <= whence <= 2 ->
  seek_target (view_of s) off whence <= limit ->
  runs (__fseeko_unlocked off whence) s (sought (file s) off whence (view_of s)).
Proof.
  intros Hhonest Hi Hoff Hwh Ht. unfold __fseeko_unlocked. apply runs_gets. cbv beta zeta.
  set (o := if (whence =? SEEK_CUR) && negb (rend (file s) =? 0) then s64 (off - (rend (file s) - rpos (file s))) else off).
  destruct (decide (queued (view_of s) = [])) as [Hq|Hq].
  - assert (Hfp : flush_pending s = Ret (true, s)).
    { unfold flush_pending. rewrite gets_bind. cbv beta. apply pending_nil in Hq; [|done]. by rewrite Hq, Z.eqb_refl. }
    eapply runs_step; [exact Hfp|done|done|]. cbn [negb]. eapply runs_mono; [by apply (seek_below s off)|].
    intros r v [Hc|Hc]; [by left|by right; left].
  - assert (Hd : direction (view_of s) = Writing).
    { apply dir_writing. intros Hz. destruct (not_writing s Hi Hz) as [Hoff' _]. by apply Hq, pending_off. }
    destruct (writing_on s Hi) as [Hon Hroff]; [by apply dir_writing|].
    eapply runs_bind; [by apply flush_spec|]. intros ok s1 Hi1 Hk1 _ [[-> Hv1]|(k & Hl & Hrep & Hq1)].
    + cbn [negb]. assert (Ho : o = off).
      { unfold o. destruct Hroff as [_ ->]. by rewrite andb_false_r. }
      assert (Hd1 : direction (view_of s1) = Writing) by (by rewrite Hv1).
      destruct (writing_on s1 Hi1) as [_ [_ Hre1]]; [by apply dir_writing|].
      assert (Htt : seek_target (view_of s1) off whence = seek_target (view_of s) off whence) by (by rewrite Hv1).
      eapply runs_mono; [apply (seek_below s1 off o whence); try done|].
      * by rewrite Hv1.
      * by rewrite Htt.
      * rewrite Ho, Hre1. by rewrite andb_false_r.
      * intros r v Hc. unfold sought. cbv zeta. rewrite Htt, Hv1 in Hc.
        assert (Hro : room (flushed (view_of s)) = room (view_of s)) by (by rewrite (writing_view s Hi Hd); unfold flushed; cbn; case_match).
        destruct Hc as [Hc|(Hc & -> & Hum)]; [by left|right; left]. split; [done|]. split; [done|].
        unfold unmoved in *. by rewrite Hro in Hum.
    + pose proof Hl as [Hm _]. rewrite (Hrep (Hhonest Hm)). cbn [negb]. apply runs_ret; [done|]. right. right. by exists k.
Qed.

Lemma fseek_runs s off whence : 0 < tid -> (may_fail -> reports) -> inv s -> lock_ok tid (file s) ->
  - 2 ^ 62 <= off <= 2 ^ 62 -> 0 <= whence <= 2 -> seek_target (view_of s) off whence <= limit ->
  runs (fseek tid off whence) s (sought (file s) off whence (view_of s)).
Proof.
  intros Ht Hh Hi Hlk Hoff Hwh Htg. apply runs_with_lock; [done..|]. intros l. destruct (relock s l Hi) as [Hi0 Hv0].
  rewrite <- Hv0 in *. exact (fseeko_spec _ off whence Hh Hi0 Hoff Hwh Htg).
Qed.

(** What [ftell] leaves: only the device may have moved. *)
Definition same_text (v v' : view) : Prop :=
  data v' = data v /\ here v' = here v /\ ahead v' = ahead v /\ buffered v' = buffered v /\ queued v' = queued v /\
  eof v' = eof v /\ err v' = err v /\ direction v' = direction v /\ room v' = room v.

(** The device has moved, but bytes that go to the end are queued. *)
Lemma append_moved f e e' : inv (Io f e) -> appends f = true -> pending f <> [] -> opened f (world e') ->
  disk (Io f e') = disk (Io f e) -> 0 <= offset (Io f e') <= limit ->
  (at_eof f = true -> drop (Z.to_nat (offset (Io f e'))) (disk (Io f e')) = []) ->
  inv (Io f e') /\ same_text (view_of (Io f e)) (view_of (Io f e')).
Proof.
  intros [_ Hw Hpt Hl Hof Hdk Hm He] Ha Hp Ho Hd Hlim Heof. cbn [file sys] in *.
  assert (Hs : shown (Io f e') = shown (Io f e)).
  { unfold shown, write_at. cbn [file]. destruct (decide (pending f = [])); [done|]. by rewrite Ha, Hd. }
  split.
  - split; cbn [file sys]; rewrite ?Hs; try done; [lia|by rewrite Hd|]. intros Hx. split; [by apply He|by apply Heof].
  - unfold same_text, view_of. cbn [data here ahead buffered queued eof err direction room file]. by rewrite Hs.
Qed.

(** The position that [ftell] computes from the device's. *)
Definition told (f : FILE) (pos : Z) : Z :=
  if negb (rend f =? 0) then pos + (rpos f - rend f)
  else if negb (wbase f =? 0) then pos + (wpos f - wbase f) else pos.

Lemma told_here s : inv s -> appends (file s) && negb (wpos (file s) =? wbase (file s)) = false ->
  told (file s) (offset s) = here (view_of s).
Proof.
  intros Hi Ha. pose proof (length_unread s Hi) as Hlu. pose proof (length_pending s Hi) as Hlp. cbn [here view_of].
  unfold told. pose proof (i_wf s Hi) as [].
  destruct (Z.eqb_spec (rend (file s)) 0) as [Hre|Hre]; cbn [negb].
  - assert (Hu : zlen (unread (file s)) = 0) by (destruct (pointers_near s Hi) as [_ Hz]; specialize (Hz Hre); lia).
    unfold shown, write_at. destruct (decide (pending (file s) = [])) as [Hp|Hp].
    + rewrite Hp in Hlp. simpl in Hlp. cbn [snd]. destruct (wbase (file s) =? 0); cbn [negb]; lia.
    + assert (Hne : wpos (file s) <> wbase (file s)) by (intros ?%(pending_nil s Hi); done).
      rewrite (proj2 (Z.eqb_neq _ _) Hne), andb_true_r in Ha. rewrite Ha. cbn [snd].
      assert (Hwb : wbase (file s) <> 0).
      { destruct Hi as [_ _ [[(_ & ? & ?) _]|[(? & _) _]] _ _ _ _ _]; unfold UNGET in *; lia. }
      rewrite (proj2 (Z.eqb_neq _ _) Hwb). cbn [negb]. lia.
  - destruct (reading_on s Hi Hre) as [Hw _]. rewrite (shown_quiet s (pending_off _ Hw)). cbn [snd]. lia.
Qed.

Lemma told_append s : inv s -> appends (file s) = true -> pending (file s) <> [] ->
  told (file s) (zlen (disk s)) = here (view_of s).
Proof.
  intros Hi Ha Hp. pose proof (length_pending s Hi) as Hlp. pose proof (i_wf s Hi) as [].
  destruct (writing_on s Hi) as [(Hwb & Hwp & _) Hr].
  { intros Hz. destruct (not_writing s Hi Hz) as [Hoff _]. by apply Hp, pending_off. }
  cbn [here view_of]. rewrite (unread_off _ Hr). destruct Hr as [_ Hre]. unfold told, shown, write_at.
  destruct (decide (pending (file s) = [])); [done|]. rewrite Ha, Hre. cbn [snd negb Z.eqb]. unfold UNGET in *.
  replace (wbase (file s) =? 0) with false by lia. cbn [negb]. simpl. lia.
Qed.

Lemma ftello_spec s : inv s ->
  runs __ftello_unlocked s (fun r v =>
    (r = here (view_of s) \/ (may_fail /\ r = -1)) /\ same_text (view_of s) v).
Proof.
  intros Hi. unfold __ftello_unlocked. apply runs_gets. cbv beta. change (has (flags (file s)) F_APP) with (appends (file s)).
  pose proof (offset_pos s Hi) as Hop. pose proof (i_off s Hi) as Hol. pose proof (i_disk s Hi) as Hdl. pose proof limit_range as Hlr.
  set (wh := if appends (file s) && negb (wpos (file s) =? wbase (file s)) then SEEK_END else SEEK_CUR).
  destruct (dseek_spec s 0 wh Hi) as (pos & e' & Hr & Hde & Hopn & Hc); [lia|unfold wh, SEEK_END, SEEK_CUR; destruct (_ && _); lia| |].
  { unfold wh. destruct (_ && _); simpl; lia. }
  eapply runs_step; [exact Hr|done|done|].
  assert (Hafter : (pos = -1 /\ may_fail) \/ told (file s) pos = here (view_of s) /\ 0 <= pos).
  { unfold wh in Hc. destruct (appends (file s) && negb (wpos (file s) =? wbase (file s))) eqn:Ha.
    - apply andb_true_iff in Ha as [Ha Hw]. apply negb_true_iff, Z.eqb_neq in Hw.
      change (SEEK_END =? SEEK_SET) with false in Hc. change (SEEK_END =? SEEK_CUR) with false in Hc. cbv iota in Hc.
      rewrite Z.add_0_r in Hc. destruct Hc as [(_ & -> & _)|([|?] & -> & _)]; [right|lia|by left]. split; [|lia].
      apply told_append; [done..|]. by intros ?%(pending_nil s Hi).
    - change (SEEK_CUR =? SEEK_SET) with false in Hc. change (SEEK_CUR =? SEEK_CUR) with true in Hc. cbv iota in Hc.
      rewrite Z.add_0_r in Hc. destruct Hc as [(_ & -> & _)|([|?] & -> & _)]; [right|lia|by left]. split; [|lia].
      by apply told_here. }
  assert (Hst : inv (Io (file s) e') /\ same_text (view_of s) (view_of (Io (file s) e'))).
  { destruct (decide (offset (Io (file s) e') = offset s)) as [Hsame|Hdiff].
    - destruct s as [f e]. cbn [file] in *. destruct (env_inv f e e') as [Hi' Hv']; try done. rewrite Hv'. by split.
    - unfold wh in Hc. destruct (appends (file s) && negb (wpos (file s) =? wbase (file s))) eqn:Ha.
      + apply andb_true_iff in Ha as [Ha Hw]. apply negb_true_iff, Z.eqb_neq in Hw.
        change (SEEK_END =? SEEK_SET) with false in Hc. change (SEEK_END =? SEEK_CUR) with false in Hc. cbv iota in Hc.
        destruct Hc as [(_ & _ & Hof)|(_ & _ & Hof)]; [|done]. destruct s as [f e]. cbn [file sys] in *.
        apply append_moved; [done|done|by intros ?%(pending_nil _ Hi)|done|done|lia|].
        intros _. rewrite Hof, Hde. apply drop_ge. lia.
      + change (SEEK_CUR =? SEEK_SET) with false in Hc. change (SEEK_CUR =? SEEK_CUR) with true in Hc. cbv iota in Hc.
        destruct Hc as [(_ & _ & Hof)|(_ & _ & Hof)]; [lia|done]. }
  destruct Hst as [Hi' Hs']. destruct Hafter as [[-> Hm]|[Htold Hpos]].
  - apply runs_ret; [done|]. split; [by right|done].
  - replace (pos <? 0) with false by lia. apply runs_gets. cbn [file].
    enough (Hfin : runs (mret (told (file s) pos)) (Io (file s) e') (fun r v =>
      (r = here (view_of s) \/ (may_fail /\ r = -1)) /\ same_text (view_of s) v)).
    { revert Hfin. unfold told. destruct (negb (rend (file s) =? 0)); [done|]. by destruct (negb (wbase (file s) =? 0)). }
    apply runs_ret; [done|]. split; [by left|done].
Qed.

Lemma ftell_runs s : 0 < tid -> inv s -> lock_ok tid (file s) ->
  runs (ftell tid) s (fun r v =>
    ((r = here (view_of s) /\ here (view_of s) < 2 ^ 31) \/ (r = -1 /\ (may_fail \/ 2 ^ 31 <= here (view_of s)))) /\
    same_text (view_of s) v).
Proof.
  intros Ht Hi Hlk. unfold ftell. eapply runs_bind with (Q := fun r v =>
    (r = here (view_of s) \/ (may_fail /\ r = -1)) /\ same_text (view_of s) v).
  { apply runs_with_lock; [done..|]. intros l. destruct (relock s l Hi) as [Hi0 Hv0]. rewrite <- Hv0 in *. by apply ftello_spec. }
  intros r s1 Hi1 Hk1 _ [Hr Hs1]. destruct (Z.ltb_spec (2 ^ 31 - 1) r) as [Hbig|Hsmall].
  - destruct s1 as [f e]. assert (Hset : below (set_errno EOVERFLOW) (Io f e) = Ret (tt, Io f (Env EOVERFLOW (world e)))) by done.
    eapply runs_step; [exact Hset|done|done|]. destruct (env_inv f e (Env EOVERFLOW (world e))) as [Hi2 Hv2]; [apply Hi1|done..|].
    apply runs_ret; [done|]. rewrite Hv2. split; [|done]. right. split; [done|]. right. destruct Hr as [->|[_ ->]]; lia.
  - apply runs_ret; [done|]. split; [|done]. destruct Hr as [->|[? ->]]; [left; split; [done|lia]|right]. split; [done|by left].
Qed.

(** ** Lines *)

(** The first line, with its newline, or the first [n] bytes if it is longer. *)
Fixpoint first_line (n : nat) (l : list Z) : list Z :=
  match n, l with
  | S n, b :: l => if b =? newline then [b] else b :: first_line n l
  | _, _ => []
  end.

Lemma first_line_app n q l : newline ∉ q -> (length q <= n)%nat -> first_line n (q ++ l) = q ++ first_line (n - length q) l.
Proof.
  revert n. induction q as [|b q IH]; intros n Hq Hn; simpl in Hn; [simpl; by rewrite Nat.sub_0_r|].
  apply not_elem_of_cons in Hq as [Hb Hq]. destruct n as [|n]; [lia|]. cbn [app first_line length].
  destruct (Z.eqb_spec b newline); [congruence|]. f_equal. by apply IH; [|lia].
Qed.

Lemma bit_of q r k : 0 <= k -> 0 <= r < 2 * 2 ^ k -> Z.testbit (2 * 2 ^ k * q + r) k = (2 ^ k <=? r).
Proof.
  intros Hk Hr. assert (Hp : 0 < 2 ^ k) by lia. replace (2 * 2 ^ k * q + r) with (r + 2 * q * 2 ^ k) by ring.
  destruct (Z.leb_spec (2 ^ k) r) as [Hle|Hlt].
  - apply Z.testbit_true; [done|]. rewrite Z.div_add by lia. replace (r / 2 ^ k) with 1; [|by apply (Z.div_unique _ _ _ (r - 2 ^ k)); lia].
    rewrite (Z.mul_comm 2), Z.mod_add by done. done.
  - apply Z.testbit_false; [done|]. rewrite Z.div_add, (Z.div_small r) by lia. rewrite (Z.mul_comm 2), Z.mod_add by done. done.
Qed.

(** A word is not passed when one of its bytes is zero. *)
Lemma haszero_bit x k : 0 <= k < 32 -> Z.testbit HIGHS k = true -> HASZERO x = 0 ->
  Z.testbit (w32 (x - ONES)) k = true -> Z.testbit x k = true.
Proof.
  intros Hk Hh Hz Hy. assert (Hb : Z.testbit (HASZERO x) k = false) by (rewrite Hz; apply Z.bits_0).
  unfold HASZERO in Hb. rewrite !Z.land_spec, Hh, Hy, andb_true_r in Hb. cbn [andb] in Hb. unfold w32 in Hb.
  rewrite Z.mod_pow2_bits_low, Z.lnot_spec in Hb by lia. by apply negb_false_iff in Hb.
Qed.

Lemma haszero_spec x0 x1 x2 x3 : byte_list [x0; x1; x2; x3] -> HASZERO (le [x0; x1; x2; x3]) = 0 -> 0 ∉ [x0; x1; x2; x3].
Proof.
  intros Hb Hz. rewrite !Forall_cons in Hb. destruct Hb as (Hb0 & Hb1 & Hb2 & Hb3 & _). cbn [le] in Hz.
  set (x := x0 + 256 * _) in Hz. assert (Hx : x = x0 + 256 * x1 + 65536 * x2 + 16777216 * x3) by (unfold x; lia).
  assert (Hw : exists j, w32 (x - ONES) = x - ONES + 2 ^ 32 * j).
  { exists (- ((x - ONES) / 2 ^ 32)). unfold w32. rewrite Z.mod_eq by done. ring. }
  destruct Hw as [j Hj]. unfold ONES in Hj. clearbody x.
  assert (Hbits : forall k q r q' r', 0 <= k < 32 -> Z.testbit HIGHS k = true -> 2 ^ k <= r < 2 * 2 ^ k -> 0 <= r' < 2 ^ k ->
    x - 16843009 + 2 ^ 32 * j = 2 * 2 ^ k * q + r -> x = 2 * 2 ^ k * q' + r' -> False).
  { intros k q r q' r' Hk Hh Hr Hr' Hy Hxx. pose proof (haszero_bit x k Hk Hh Hz) as Hbit. unfold ONES in Hbit.
    rewrite Hj, Hy, bit_of, (proj2 (Z.leb_le _ _)) in Hbit by lia. specialize (Hbit eq_refl).
    rewrite Hxx, bit_of in Hbit by lia. apply Z.leb_le in Hbit. lia. }
  rewrite !not_elem_of_cons. split_and!; [intros <-..|apply not_elem_of_nil].
  - eapply (Hbits 7 (x1 + 256 * x2 + 65536 * x3 - 65794 + 2 ^ 24 * j) 255 (x1 + 256 * x2 + 65536 * x3) 0); (done || lia).
  - eapply (Hbits 15 (x2 + 256 * x3 - 258 + 2 ^ 16 * j) (65279 + x0) (x2 + 256 * x3) x0); (done || lia).
  - eapply (Hbits 23 (x3 - 2 + 2 ^ 8 * j) (16711423 + x0 + 256 * x1) x3 (x0 + 256 * x1)); (done || lia).
  - eapply (Hbits 31 (-1 + j) (2 ^ 32 - 16843009 + x0 + 256 * x1 + 65536 * x2) 0 (x0 + 256 * x1 + 65536 * x2)); (done || lia).
Qed.

Lemma byte_bit a0 a n : 0 <= a0 < 256 -> 0 <= n -> Z.testbit (a0 + 256 * a) n = if n <? 8 then Z.testbit a0 n else Z.testbit a (n - 8).
Proof.
  intros Ha Hn. change 256 with (2 ^ 8) in *. destruct (Z.ltb_spec n 8).
  - rewrite <- (Z.mod_pow2_bits_low (a0 + 2 ^ 8 * a) 8 n) by lia. by rewrite Z.mul_comm, Z.mod_add, Z.mod_small by lia.
  - rewrite <- (Z.sub_add 8 n) at 1. rewrite <- Z.div_pow2_bits by lia. by rewrite Z.mul_comm, Z.div_add, Z.div_small by lia.
Qed.

Lemma lxor_byte a c : 0 <= a < 256 -> 0 <= c < 256 -> 0 <= Z.lxor a c < 256.
Proof.
  intros Ha Hc. replace (Z.lxor a c) with (Z.lxor a c mod 2 ^ 8); [by apply Z.mod_pos_bound|].
  apply Z.bits_inj'. intros n Hn. destruct (Z.ltb_spec n 8); [by rewrite Z.mod_pow2_bits_low by lia|].
  rewrite Z.mod_pow2_bits_high, Z.lxor_spec by lia.
  replace a with (a mod 2 ^ 8) by (apply Z.mod_small; lia). replace c with (c mod 2 ^ 8) by (apply Z.mod_small; lia).
  by rewrite !Z.mod_pow2_bits_high by lia.
Qed.

Lemma lxor_bytes a0 a c0 c : 0 <= a0 < 256 -> 0 <= c0 < 256 ->
  Z.lxor (a0 + 256 * a) (c0 + 256 * c) = Z.lxor a0 c0 + 256 * Z.lxor a c.
Proof.
  intros Ha Hc. apply Z.bits_inj'. intros n Hn.
  rewrite Z.lxor_spec, !byte_bit by (done || by apply lxor_byte). rewrite !Z.lxor_spec. by destruct (n <? 8).
Qed.

Lemma pass_words_spec c : 0 <= c < 256 -> forall n s, (length s <= n)%nat -> byte_list s -> pass_bytes (pass_words s c) c = pass_bytes s c.
Proof.
  intros Hc n. induction n as [|n IH]; intros s Hn Hs; [destruct s; [done|simpl in Hn; lia]|].
  destruct s as [|b0 [|b1 [|b2 [|b3 s]]]]; try done. cbn [pass_words]. destruct (Z.eqb_spec (HASZERO (Z.lxor (le [b0; b1; b2; b3]) (w32 (ONES * c)))) 0) as [Hz|]; [|done].
  rewrite !Forall_cons in Hs. destruct Hs as (Hb0 & Hb1 & Hb2 & Hb3 & Hs). rewrite IH by (simpl in Hn; done || lia).
  replace (w32 (ONES * c)) with (c + 256 * (c + 256 * (c + 256 * (c + 256 * 0)))) in Hz
    by (unfold ONES; rewrite w32_small by lia; ring).
  cbn [le] in Hz. rewrite !lxor_bytes in Hz by done. change (Z.lxor 0 0) with 0 in Hz.
  apply (haszero_spec (Z.lxor b0 c) (Z.lxor b1 c) (Z.lxor b2 c) (Z.lxor b3 c)) in Hz; [|by repeat constructor; apply lxor_byte].
  assert (Hne : forall b, Z.lxor b c ∈ [Z.lxor b0 c; Z.lxor b1 c; Z.lxor b2 c; Z.lxor b3 c] -> (b =? c) = false).
  { intros b Hb. apply Z.eqb_neq. intros ->. rewrite Z.lxor_nilpotent in Hb. done. }
  cbn [pass_bytes]. rewrite !Hne; [done|set_solver..].
Qed.

Lemma to_aligned_spec c s : forall p, pass_bytes (to_aligned p s c) c = pass_bytes s c.
Proof.
  induction s as [|b s IH]; intros p; [done|]. cbn [to_aligned]. destruct (negb (Z.land p 3 =? 0)); [|done].
  cbn [andb pass_bytes]. destruct (Z.eqb_spec b c) as [->|Hb]; cbn [negb]; [|by rewrite IH].
  cbn [pass_bytes]. by rewrite Z.eqb_refl.
Qed.

Lemma to_aligned_suffix c s : forall p, to_aligned p s c `suffix_of` s.
Proof.
  induction s as [|b s IH]; intros p; [done|]. cbn [to_aligned]. destruct (_ && _); [|done]. by apply suffix_cons_r.
Qed.

Lemma pass_bytes_spec c s :
  match pass_bytes s c with
  | [] => c ∉ s
  | r => exists u w, r = c :: w /\ s = u ++ r /\ (c ∉ u)
  end.
Proof.
  induction s as [|b s IH]; simpl; [apply not_elem_of_nil|]. destruct (Z.eqb_spec b c) as [->|Hb].
  - exists [], s. split; [done|]. split; [done|apply not_elem_of_nil].
  - destruct (pass_bytes s c) as [|b' r]; [by apply not_elem_of_cons|]. destruct IH as (u & w & Hr & Hs & Hu).
    exists (b :: u), w. split; [done|]. split; [by rewrite Hs|]. by apply not_elem_of_cons.
Qed.

(** The first [c], wherever the words lie. *)
Lemma memchr_spec p l c : byte_list l -> 0 <= c < 256 ->
  match memchr p l c with
  | Some z => exists u w, l = u ++ c :: w /\ (c ∉ u) /\ z = length u
  | None => c ∉ l
  end.
Proof.
  intros Hl Hc. unfold memchr. rewrite w8_small by done. cbv zeta.
  assert (Hb : byte_list (to_aligned p l c)).
  { destruct (to_aligned_suffix c l p) as [u Hu]. rewrite Hu in Hl. by apply Forall_app in Hl as [_ ?]. }
  set (s := match to_aligned p l c with b :: _ => if b =? c then to_aligned p l c else pass_words (to_aligned p l c) c | [] => [] end).
  assert (Hs : pass_bytes s c = pass_bytes l c).
  { rewrite <- (to_aligned_spec c l p). unfold s. destruct (to_aligned p l c) as [|b r] eqn:E; [done|]. destruct (b =? c); [done|].
    by eapply pass_words_spec. }
  rewrite Hs. pose proof (pass_bytes_spec c l) as Hspec. destruct (pass_bytes l c) as [|b r]; [done|].
  destruct Hspec as (u & w & Hr & Hu & Hd). exists u, w. rewrite <- Hr. split; [done|]. split; [done|]. rewrite Hu, length_app. lia.
Qed.

Lemma load_all s : inv s -> rpos (file s) <> rend (file s) ->
  load (rpos (file s)) (avail (file s)) s = Ret (unread (file s), s).
Proof.
  intros Hi Hne. destruct (pointers_near s Hi) as [Hn Hz]. pose proof (length_unread s Hi) as Hlu. unfold avail.
  rewrite load_unread; [by rewrite take_ge by lia|done|lia|]. intros Hr. specialize (Hz Hr). lia.
Qed.

(** What [find_in_buffer] says about a buffer [u]. *)
Definition found (d : Z) (u : list Z) (k : Z) (z : bool) : Prop :=
  0 <= k <= zlen u /\ (z = true -> exists a w, u = a ++ d :: w /\ (d ∉ a) /\ k = zlen a + 1) /\
  (z = false -> (d ∉ u) /\ k = zlen u).

Lemma find_spec s d : inv s -> 0 <= d < 256 -> exists k z, find_in_buffer d s = Ret ((k, z), s) /\ found d (unread (file s)) k z.
Proof.
  intros Hi Hd. unfold find_in_buffer. rewrite gets_bind. cbv beta. pose proof (length_unread s Hi) as Hlu.
  destruct (Z.eqb_spec (rpos (file s)) (rend (file s))) as [He|Hne].
  { exists 0, false. rewrite (unread_none _ He). split; [done|]. unfold found. split_and!; try done. intros _. split; [apply not_elem_of_nil|done]. }
  rewrite (bind_Ret _ _ _ _ _ (load_all s Hi Hne)). unfold avail.
  pose proof (memchr_spec (rpos (file s)) (unread (file s)) d) as Hm.
  specialize (Hm (slice_bytes _ _ _ (wf_byte _ (i_wf _ Hi))) Hd). destruct (memchr _ (unread (file s)) d) as [z|].
  - destruct Hm as (u & w & Hu & Hn & ->). exists (zlen u + 1), true. split; [done|]. unfold found.
    split; [rewrite Hu, length_app; cbn [length]; lia|]. split; [|done]. intros _. by exists u, w.
  - exists (rend (file s) - rpos (file s)), false. split; [done|]. unfold found. split_and!; try done; lia.
Qed.

(** Taking [k] bytes that are in the buffer. *)
Lemma take_spec {B} s k (m : list Z -> M (io X) B) Q : inv s -> 0 <= k <= zlen (unread (file s)) ->
  (forall s', inv s' -> kept (file s) (file s') -> lock (file s') = lock (file s) ->
     took (take (Z.to_nat k) (unread (file s))) (view_of s) (view_of s') ->
     same_flags (view_of s) (view_of s') -> buffered (view_of s') = drop (Z.to_nat k) (buffered (view_of s)) ->
     runs (m (take (Z.to_nat k) (unread (file s)))) s' Q) ->
  runs (bs ← load (rpos (file s)) k; advance k;; m bs) s Q.
Proof.
  intros Hi Hk Hm. pose proof (length_unread s Hi) as Hlu. destruct (pointers_near s Hi) as [Hn Hz].
  destruct (decide (rend (file s) = 0)) as [Hre|Hre].
  - assert (k = 0) as -> by (specialize (Hz Hre); lia). assert (Hl : load (rpos (file s)) 0 s = Ret ([], s)) by done.
    eapply runs_step; [exact Hl|done|done|]. rewrite <- (take_0 (unread (file s))).
    destruct s as [f e]. cbn [file sys] in *.
    assert (Ha : advance 0 (Io f e) = Ret (tt, Io f e)).
    { change (advance 0 (Io f e)) with (@Ret (unit * io X) (tt, Io (set_r (rpos f + 0) (rend f) f) e)).
      by rewrite Z.add_0_r, set_r_same. }
    eapply runs_step; [exact Ha|done|done|]. apply Hm; try done. by apply (took_nil (Io f e)).
  - eapply runs_step; [apply load_unread; [done|lia|done]|done|done|]. apply runs_advance; [done|lia|done|].
    intros s' Hi' Hk' Ht Hs Hb Hl. by apply Hm.
Qed.

Lemma not_in_take (d : Z) n u : d ∉ u -> d ∉ take n u.
Proof. intros Hd Hin. apply Hd. rewrite <- (take_drop n u). apply elem_of_app. by left. Qed.

(** The bytes taken end the line, or there are [n] of them. *)
Lemma line_stops u k z n rest : found newline u k z -> 0 < n -> z || (n - Z.min k n =? 0) = true ->
  let bs := take (Z.to_nat (Z.min k n)) u in
  bs = first_line (Z.to_nat n) (bs ++ rest) /\ (zlen bs = n \/ last bs = Some newline).
Proof.
  intros (Hk & Hz1 & Hz2) Hn Hstop bs. assert (Hlb : zlen bs = Z.min k n) by (unfold bs; rewrite length_take; lia).
  assert (Hfull : newline ∉ bs -> zlen bs = n -> bs = first_line (Z.to_nat n) (bs ++ rest) /\ (zlen bs = n \/ last bs = Some newline)).
  { intros Hnl Hln. split; [|by left]. rewrite first_line_app by (done || lia).
    replace (Z.to_nat n - length bs)%nat with O by lia. by rewrite app_nil_r. }
  destruct z; cbn [orb] in Hstop.
  - destruct (Hz1 eq_refl) as (a & w & -> & Hnl & Hka). destruct (decide (k <= n)) as [Hkn|Hkn].
    + assert (Hbs : bs = a ++ [newline]).
      { unfold bs. replace (Z.to_nat (Z.min k n)) with (length (a ++ [newline])) by (rewrite length_app; cbn [length]; lia).
        rewrite (cons_middle newline a w), app_assoc. apply take_app_length. }
      split; [|right; rewrite Hbs; apply last_snoc]. rewrite Hbs, <- app_assoc. cbn [app].
      rewrite first_line_app by (done || lia). replace (Z.to_nat n - length a)%nat with (S (Z.to_nat n - length a - 1)) by lia.
      cbn [first_line]. by rewrite Z.eqb_refl.
    + apply Hfull; [|lia]. unfold bs. rewrite take_app_le by lia. by apply not_in_take.
  - apply Z.eqb_eq in Hstop. destruct (Hz2 eq_refl) as [Hnl _]. apply Hfull; [by apply not_in_take|lia].
Qed.

(** The line goes on. *)
Lemma line_goes_on u k z n : found newline u k z -> 0 < n -> u = [] \/ z || (n - Z.min k n =? 0) = false ->
  let bs := take (Z.to_nat (Z.min k n)) u in (newline ∉ bs) /\ zlen bs < n.
Proof.
  intros (Hk & Hz1 & Hz2) Hn Hst bs. destruct Hst as [Hu|[-> Hst]%orb_false_iff].
  - unfold bs. rewrite Hu, take_nil. split; [apply not_elem_of_nil|simpl; lia].
  - apply Z.eqb_neq in Hst. destruct (Hz2 eq_refl) as [Hnl _]. split; [by apply not_in_take|].
    unfold bs. rewrite length_take. lia.
Qed.

Definition line_got (f : FILE) (n : Z) (v : view) (acc : list Z) (r : option unit * list Z) (v' : view) : Prop :=
  exists q, r.2 = acc ++ q /\ took q v v' /\
    ((q = first_line (Z.to_nat n) (ahead v) /\ (zlen q = n \/ last q = Some newline) /\ same_flags v v' /\ r.1 = Some tt) \/
     (zlen q < n /\ (newline ∉ q) /\ ended f v v' /\
      r.1 = if (length r.2 =? 0)%nat || negb (eof v') then None else Some tt)).

(** More of the same line. *)
Lemma line_got_more f f1 n v acc bs v1 r v' : kept f f1 -> took bs v v1 -> same_flags v v1 -> newline ∉ bs -> zlen bs <= n ->
  line_got f1 (n - zlen bs) v1 (acc ++ bs) r v' -> line_got f n v acc r v'.
Proof.
  intros Hk Ht Hs Hnl Hlen (q & Hr & Htq & Hc). exists (bs ++ q). rewrite app_assoc. split; [done|].
  split; [by eapply took_trans|]. destruct Hc as [(Hq & Hl & Hs2 & Hr1)|(Hl & Hn & He & Hr1)]; [left|right].
  - rewrite (t_ahead _ _ _ Ht), first_line_app by (done || lia).
    replace (Z.to_nat n - length bs)%nat with (Z.to_nat (n - zlen bs)) by lia. rewrite <- Hq.
    split; [done|]. split; [|split; [by destruct Hs, Hs2; split; congruence|done]].
    destruct Hl as [Hl|Hl]; [left; rewrite length_app; lia|right; by rewrite last_app, Hl].
  - split; [rewrite length_app; lia|]. split; [by rewrite elem_of_app; intros [?|?]|]. split; [by eapply ended_trans|done].
Qed.

Lemma fgets_loop_spec fuel : forall n acc s, inv s -> may_turn (view_of s) -> 0 <= n < Z.of_nat fuel ->
  runs (fgets_loop fuel n acc) s (line_got (file s) n (view_of s) acc).
Proof.
  induction fuel as [|fuel IH]; intros n acc s Hi Hq Hn; [simpl in Hn; lia|]. cbn [fgets_loop].
  destruct (Z.eqb_spec n 0) as [->|Hn0].
  { apply runs_ret; [done|]. exists []. rewrite app_nil_r. split; [done|]. split; [by apply took_nil|]. left. by split_and!; try left. }
  apply runs_gets. cbv beta. destruct (find_spec s newline Hi ltac:(by split)) as (k & z & Hf & Hfound).
  eapply runs_step; [exact Hf|done|done|]. cbv beta iota zeta.
  apply take_spec; [done|destruct Hfound; lia|]. intros s1 Hi1 Hk1 _ Ht1 Hs1 _.
  pose proof (line_stops _ k z n (ahead (view_of s1)) Hfound ltac:(lia)) as Hst. pose proof (line_goes_on _ k z n Hfound ltac:(lia)) as Hgo.
  assert (Hlb : zlen (take (Z.to_nat (Z.min k n)) (unread (file s))) = Z.min k n) by (rewrite length_take; destruct Hfound; lia).
  set (bs := take (Z.to_nat (Z.min k n)) (unread (file s))) in *. cbv zeta in *. rewrite <- (t_ahead _ _ _ Ht1) in Hst.
  destruct (negb (rpos (file s) =? rend (file s)) && (z || (n - Z.min k n =? 0))) eqn:Hstop.
  { apply andb_true_iff in Hstop as [_ Hstop]. apply runs_ret; [done|]. exists bs. split; [done|]. split; [done|]. left.
    destruct (Hst Hstop). done. }
  destruct Hgo as [Hnl Hlt].
  { apply andb_false_iff in Hstop as [Hstop|?]; [left|by right]. by apply negb_false_iff, Z.eqb_eq, unread_none in Hstop. }
  pose proof (took_turn _ _ _ Ht1 Hq) as Hq1.
  eapply runs_bind; [by apply getc_spec|]. intros c s2 Hi2 Hk2 _ Hgot.
  enough (Hrest : runs (if c <? 0 then f ← gets file;
        mret (if (length (acc ++ bs) =? 0)%nat || negb (has (flags f) F_EOF) then None else Some tt, acc ++ bs)
      else if c =? newline then mret (Some tt, (acc ++ bs) ++ [c]) else fgets_loop fuel (n - Z.min k n - 1) ((acc ++ bs) ++ [c])) s2
    (line_got (file s1) (n - zlen bs) (view_of s1) (acc ++ bs))).
  { eapply runs_mono; [exact Hrest|]. intros r v Hr. by eapply line_got_more; [exact Hk1|exact Ht1|done|done|lia|]. }
  destruct Hgot as [(Hc & Ht2 & Hs2)|(-> & Ht2 & He2)].
  - replace (c <? 0) with false by lia. destruct (Z.eqb_spec c newline) as [->|Hcn].
    + apply runs_ret; [done|]. exists [newline]. split; [done|]. split; [done|]. left.
      rewrite (t_ahead _ _ _ Ht2). replace (Z.to_nat (n - zlen bs)) with (S (Z.to_nat (n - zlen bs) - 1)) by lia.
      cbn [app first_line]. rewrite Z.eqb_refl. split; [done|]. split; [by right|done].
    + eapply runs_mono; [apply IH; [done|by eapply took_turn|lia]|]. intros r v Hr.
      eapply line_got_more; [exact Hk2|exact Ht2|done|by rewrite list_elem_of_singleton|cbn [length]; lia|].
      by replace (n - zlen bs - zlen [c]) with (n - Z.min k n - 1) by (cbn [length]; lia).
  - change (EOF <? 0) with true. cbv iota. apply runs_gets. cbv beta. apply runs_ret; [done|]. exists [].
    rewrite app_nil_r. split; [done|]. split; [done|]. right. split; [cbn [length]; lia|]. split; [apply not_elem_of_nil|done].
Qed.

Lemma fgets_runs s n : 0 < tid -> inv s -> lock_ok tid (file s) -> may_turn (view_of s) -> 1 < n ->
  runs (fgets tid n) s (fun r v => exists q s0, line_got (file s) (n - 1) (view_of s) [] (s0, q) v /\
    r = (s0, match s0 with Some _ => q ++ [0] | None => q end)).
Proof.
  intros Ht Hi Hlk Hq Hn. apply runs_with_lock; [done..|]. intros l. destruct (relock s l Hi) as [Hi0 Hv0].
  rewrite (proj2 (Z.leb_gt n 1)) by done. rewrite <- Hv0 in *.
  eapply runs_bind; [apply fgets_loop_spec; [done|done|lia]|]. intros [s0 q] s1 Hi1 Hk1 _ Hl. apply runs_ret; [done|].
  exists q, s0. by split.
Qed.
End Operations.
