(* ===== verification/StdioHost.v ===== *)
(** The devices of [StdioDev] keep [DeviceLaws]: descriptors of files that the
    host keeps ([FileHost]), and growing memory. *)
From S2P Require Import Prelude.
From S2P Require Import Wasi.
From S2P Require Import Unistd.
From S2P Require Import Fd.
From S2P Require Import Stdio.
From S2P Require Import StdioDev.
From S2P Require Import StdioProofs.

(** ** Files of the host

    A descriptor [fd] that is open on a file stands at a position of its
    content.  Transfers move as many bytes as they say, at least one where there
    are any; a call that reports an error has done nothing, and there are errors
    only where [fh_may_fail] says so. *)
Class FileHost (W : Type) `{WasiFd W, WasiFile W} := {
  fh_content : Z -> W -> list Z;
  fh_pos : Z -> W -> Z;
  fh_app : Z -> W -> bool;
  fh_open : Z -> W -> Prop;
  fh_may_fail : Prop;
  fh_ok : forall fd w, fh_open fd w -> 0 <= fh_pos fd w /\ byte_list (fh_content fd w);
  fh_read : forall fd lens w e l w', fh_open fd w -> Forall (Z.le 0) lens -> wasi_fd_read fd lens w = (e, l, w') ->
    fh_open fd w' /\ fh_app fd w' = fh_app fd w /\ fh_content fd w' = fh_content fd w /\
    let left := drop (Z.to_nat (fh_pos fd w)) (fh_content fd w) in
    if e =? 0 then
      zlen l <= foldr Z.add 0 lens /\ l = take (length l) left /\ fh_pos fd w' = fh_pos fd w + zlen l /\
      (l = [] -> foldr Z.add 0 lens = 0 \/ left = [])
    else fh_may_fail /\ fh_pos fd w' = fh_pos fd w;
  fh_write : forall fd iovs w e n w', fh_open fd w -> byte_list (concat iovs) -> wasi_fd_write fd iovs w = (e, n, w') ->
    fh_open fd w' /\ fh_app fd w' = fh_app fd w /\
    if e =? 0 then
      0 <= n <= zlen (concat iovs) /\ (concat iovs <> [] -> 0 < n) /\
      (fh_content fd w', fh_pos fd w') = write_at (fh_app fd w) (fh_content fd w) (fh_pos fd w) (take (Z.to_nat n) (concat iovs))
    else fh_may_fail /\ fh_content fd w' = fh_content fd w /\ fh_pos fd w' = fh_pos fd w;
  fh_seek : forall fd off whence w e n w', fh_open fd w -> 0 <= whence <= 2 -> wasi_fd_seek fd off whence w = (e, n, w') ->
    let t := (if whence =? SEEK_SET then 0 else if whence =? SEEK_CUR then fh_pos fd w else zlen (fh_content fd w)) + off in
    t <= 2 ^ 62 ->
    fh_open fd w' /\ fh_app fd w' = fh_app fd w /\ fh_content fd w' = fh_content fd w /\
    if e =? 0 then 0 <= t /\ n = t /\ fh_pos fd w' = t
    else (t < 0 \/ fh_may_fail) /\ fh_pos fd w' = fh_pos fd w;
  fh_fdstat : forall fd w e st w', fh_open fd w -> wasi_fd_fdstat_get fd w = (e, st, w') ->
    fh_open fd w' /\ fh_app fd w' = fh_app fd w /\ fh_content fd w' = fh_content fd w /\ fh_pos fd w' = fh_pos fd w }.

Section Descriptor.
Context {W : Type} `{FileHost W}.

Lemma below_Ret {A} (m : M (env W) A) f e a e' : m e = Ret (a, e') -> below m (Io f e) = Ret (a, Io f e').
Proof. unfold below. cbn [sys file]. by intros ->. Qed.

(** *** Reading *)

Lemma readv_spec fd lens e : fh_open fd (world e) -> Forall (Z.le 0) lens -> foldr Z.add 0 lens < 2 ^ 31 ->
  forall m, (m = readv fd lens (zlen lens) \/ exists n, lens = [n] /\ m = Fd.read fd n) ->
  exists cnt l e', m e = Ret ((cnt, l), e') /\
    fh_open fd (world e') /\ fh_app fd (world e') = fh_app fd (world e) /\
    fh_content fd (world e') = fh_content fd (world e) /\
    let left := drop (Z.to_nat (fh_pos fd (world e))) (fh_content fd (world e)) in
    ((cnt = zlen l /\ zlen l <= foldr Z.add 0 lens /\ l = take (length l) left /\
      fh_pos fd (world e') = fh_pos fd (world e) + zlen l /\ (l = [] -> foldr Z.add 0 lens = 0 \/ left = [])) \/
     (cnt = -1 /\ l = [] /\ fh_may_fail /\ fh_pos fd (world e') = fh_pos fd (world e))).
Proof.
  intros Ho Hl Hs m Hm. destruct (wasi_fd_read fd lens (world e)) as [[er l] w'] eqn:Hr.
  pose proof (fh_read _ _ _ _ _ _ Ho Hl Hr) as (Ho' & Ha & Hc & Hcase). cbv zeta in *.
  assert (Hrun : exists cnt er', m e = Ret ((cnt, if er =? 0 then l else []), Env er' w') /\
    cnt = (if er =? 0 then s32 (zlen l) else -1)).
  { destruct Hm as [->|(n & -> & ->)]; unfold readv, Fd.read, mbind, M_bind, host.
    - rewrite (proj2 (Z.ltb_ge (zlen lens) 0)) by lia. rewrite Nat2Z.id, firstn_all, Hr. destruct (er =? 0); eexists _, _; by split.
    - rewrite Hr. destruct (er =? 0); eexists _, _; by split. }
  destruct Hrun as (cnt & er' & Hrun & Hcnt). exists cnt, (if er =? 0 then l else []), (Env er' w').
  split; [done|]. cbn [world]. split_and!; try done. destruct (er =? 0).
  - left. destruct Hcase as (Hlen & ? & ? & ?). rewrite Hcnt, s32_small by lia. done.
  - right. by destruct Hcase.
Qed.

(** More bytes than the caller's [n0] have come: the rest goes to the stream's
    buffer, and its first byte is taken out again. *)
Lemma spill f (e : env W) l n0 : wf f -> 0 <= n0 -> n0 < zlen l <= n0 + buf_size f -> byte_list l ->
  exists f2 c rest, drop (Z.to_nat n0) l = c :: rest /\
    (store (buf f) (drop (Z.to_nat n0) l);;
     update (set_r (buf f) (buf f + (zlen l - n0)));;
     c ← load1 (buf f); advance 1;; mret (take (Z.to_nat n0) l ++ [c])) (Io f e) = Ret (take (Z.to_nat n0) l ++ [c], Io f2 e) /\
    wf f2 /\ kept f f2 /\ lock f2 = lock f /\ flags f2 = flags f /\ (w_off f -> w_off f2) /\ r_on f2 /\ buf f <= rpos f2 /\ unread f2 = rest.
Proof.
  intros Hwf Hn0 Hmore Hl. pose proof Hwf as []. set (over := drop (Z.to_nat n0) l).
  assert (Hov : zlen over = zlen l - n0) by (unfold over; rewrite length_drop; lia). rewrite <- Hov.
  assert (Hob : byte_list over) by by apply Forall_drop.
  assert (Hst : stored_at f (buf f) over = set_bytes (bytes (stored_at f (buf f) over)) f).
  { unfold stored_at. destruct (decide (over = [])); [by destruct f|done]. }
  pose proof (length_stored f (buf f) over) as Hlb. pose proof (slice_stored f (buf f) over (zlen over)) as Hsl.
  assert (Hby : byte_list (bytes (stored_at f (buf f) over))).
  { unfold stored_at. destruct (decide (over = [])); [done|]. cbn [bytes set_bytes set_buf].
    repeat apply Forall_app_2; [by apply Forall_take|done|by apply Forall_drop]. }
  pose proof (store_at f e (buf f) over) as Hstore. unfold UNGET in *. rewrite (bind_Ret _ _ _ _ _ (Hstore ltac:(lia) ltac:(lia))).
  set (bs := bytes (stored_at f (buf f) over)) in *. rewrite Hst in Hsl |- *. specialize (Hlb ltac:(lia) ltac:(lia)).
  specialize (Hsl ltac:(lia) ltac:(lia) ltac:(lia)). clearbody bs. clear Hst Hstore.
  destruct over as [|c rest] eqn:Eo; [simpl in Hov; lia|]. set (n := zlen (c :: rest)) in *.
  assert (Hn : n = 1 + zlen rest) by (unfold n; cbn [length]; lia).
  set (f1 := set_r (buf f) (buf f + n) (set_bytes bs f)). rewrite (bind_Ret (update _) _ _ tt (Io f1 e)) by done.
  rewrite Hn, slice_app in Hsl by (cbn [buf set_bytes set_buf]; unfold UNGET; lia).
  assert (Hl1 : zlen (slice (set_bytes bs f) (buf f) 1) = 1) by (apply length_slice; cbn [buf bytes set_bytes set_buf]; unfold UNGET; lia).
  destruct (slice (set_bytes bs f) (buf f) 1) as [|c' [|? ?]] eqn:E1; simpl in Hl1; [lia| |lia]. injection Hsl as -> Hrest.
  assert (Hload : load1 (buf f) (Io f1 e) = Ret (c, Io f1 e)).
  { unfold load1. rewrite (bind_Ret _ _ _ [c] (Io f1 e)); [done|].
    rewrite load_slice by (unfold f1, UNGET; cbn [buf bytes set_r set_bytes set_buf]; lia). by rewrite <- E1. }
  rewrite (bind_Ret _ _ _ _ _ Hload). set (f2 := set_r (buf f + 1) (buf f + n) (set_bytes bs f)).
  exists f2, c, rest. split; [done|]. split; [by unfold advance, update, modify, f2, f1|].
  split_and!; try done.
  - by split; unfold f2; cbn [buf buf_size bytes set_r set_bytes set_buf]; rewrite ?Hlb.
  - unfold r_on, f2. cbn [rpos rend buf buf_size set_r set_bytes set_buf]. unfold UNGET. lia.
  - unfold f2. cbn. lia.
  - rewrite <- Hrest. unfold unread, f2. cbn [rpos rend set_r]. f_equal. lia.
Qed.

Lemma stdio_read_law f e len : fh_open (fd f) (world e) -> fh_app (fd f) (world e) = appends f -> wf f -> w_off f -> r_on f ->
  unread f = [] -> 0 < len -> len + buf_size f < 2 ^ 31 ->
  exists l f' e', __stdio_read len (Io f e) = Ret (l, Io f' e') /\
    (fh_open (fd f) (world e') /\ fh_app (fd f) (world e') = appends f) /\ wf f' /\ kept f f' /\ lock f' = lock f /\ w_off f' /\ r_on f' /\
    buf f <= rpos f' /\ zlen l <= len /\ (zlen l < len -> unread f' = []) /\
    fh_content (fd f) (world e') = fh_content (fd f) (world e) /\
    fh_pos (fd f) (world e') = fh_pos (fd f) (world e) + zlen l + zlen (unread f') /\
    let left := drop (Z.to_nat (fh_pos (fd f) (world e))) (fh_content (fd f) (world e)) in
    l ++ unread f' = take (length l + length (unread f')) left /\
    ((l <> [] /\ flags f' = flags f) \/
     (l = [] /\ unread f' = [] /\ left = [] /\ flags f' = Z.lor (flags f) F_EOF) \/
     (fh_may_fail /\ l = [] /\ unread f' = [] /\ flags f' = Z.lor (flags f) F_ERR)).
Proof.
  intros Ho Ha Hwf Hw Hr Hu Hlen Hsz. pose proof Hwf as []. destruct Hr as [Hr1 Hr2].
  assert (Hrr : rpos f = rend f).
  { pose proof (length_slice f (rpos f) (rend f - rpos f)) as Hs. unfold unread in Hu. rewrite Hu in Hs.
    unfold UNGET in *. simpl in Hs. lia. }
  unfold __stdio_read. rewrite gets_bind. cbn [file]. set (n0 := w32 (len - (if buf_size f =? 0 then 0 else 1))).
  assert (Hn0 : n0 = len - (if buf_size f =? 0 then 0 else 1)).
  { unfold n0. apply w32_small. destruct (buf_size f =? 0); lia. }
  set (lens := if negb (n0 =? 0) then [n0; buf_size f] else [buf_size f]).
  assert (Hsum : foldr Z.add 0 lens = n0 + buf_size f).
  { unfold lens. destruct (Z.eqb_spec n0 0) as [->|]; simpl; lia. }
  destruct (readv_spec (fd f) lens e Ho) with (m := if negb (n0 =? 0) then readv (fd f) [n0; buf_size f] 2 else Fd.read (fd f) (buf_size f))
    as (cnt & l & e' & Hrun & Ho' & Ha' & Hc' & Hcase).
  { unfold lens. destruct (Z.eqb_spec (buf_size f) 0); destruct (negb (n0 =? 0)); repeat constructor; lia. }
  { rewrite Hsum. destruct (Z.eqb_spec (buf_size f) 0); lia. }
  { unfold lens. destruct (negb (n0 =? 0)); [by left|right]. by eexists. }
  rewrite (bind_Ret _ _ _ _ _ (below_Ret _ f _ _ _ Hrun)). cbv beta iota zeta in *.
  set (left := drop _ _) in *. rewrite Hsum in Hcase.
  assert (Hpos : 0 < n0 + buf_size f) by (destruct (Z.eqb_spec (buf_size f) 0); lia).
  assert (Hnon : 0 <= n0 <= len /\ len - 1 <= n0) by (destruct (Z.eqb_spec (buf_size f) 0); lia).
  destruct Hcase as [(-> & Hln & Hl & Hp & Hnil)|(-> & -> & Hm & Hp)].
  2:{ change (-1 <=? 0) with true. cbv iota. exists [], (set_flags (Z.lor (flags f) F_ERR) f), e'. split; [done|].
    assert (Hu' : unread (set_flags (Z.lor (flags f) F_ERR) f) = []) by done. rewrite Hu'. cbn [length app].
    split_and!; try done; try lia; [by rewrite Ha'|by split; [..|apply perms_lor]|cbn; lia|by right; right]. }
  destruct (Z.leb_spec (zlen l) 0) as [Hz|Hz].
  { assert (l = []) as -> by (destruct l; [done|simpl in Hz; lia]). cbn [length Z.of_nat Z.eqb].
    exists [], (set_flags (Z.lor (flags f) F_EOF) f), e'. split; [done|].
    assert (Hu' : unread (set_flags (Z.lor (flags f) F_EOF) f) = []) by done. rewrite Hu'. cbn [length app].
    destruct (Hnil eq_refl) as [?|Hleft]; [lia|].
    split_and!; try done; try lia; [by rewrite Ha'|by split; [..|apply perms_lor]|cbn; lia|by right; left]. }
  rewrite w32_small by lia. destruct (Z.leb_spec (zlen l) n0) as [Hfit|Hmore].
  { exists l, f, e'. split; [done|]. rewrite Hu. cbn [length]. rewrite app_nil_r, Nat.add_0_r.
    split_and!; try done; try lia; [by rewrite Ha'|left; split; [|done]].
    intros ->. simpl in Hz. lia. }
  assert (Hbs : buf_size f <> 0) by lia. rewrite (proj2 (Z.eqb_neq (buf_size f) 0) Hbs) in *.
  assert (Hlb : byte_list l) by (rewrite Hl; apply Forall_take, Forall_drop; by apply fh_ok).
  destruct (spill f e' l n0 Hwf ltac:(lia) ltac:(lia) Hlb) as (f2 & c & rest & Hd & Hrs & Hwf2 & Hk2 & Hlk2 & Hfl2 & Hw2 & Hron & Hrp2 & Hu2).
  exists (take (Z.to_nat n0) l ++ [c]), f2, e'. rewrite Hu2.
  pose proof (take_drop (Z.to_nat n0) l) as Htl. rewrite Hd in Htl.
  assert (Hll : length l = (length (take (Z.to_nat n0) l ++ [c]) + length rest)%nat) by (rewrite <- Htl at 1; rewrite !length_app; simpl; lia).
  assert (Hlt : length (take (Z.to_nat n0) l) = Z.to_nat n0) by (rewrite length_take; lia).
  split; [exact Hrs|]. rewrite length_app in Hll |- *. cbn [length] in *. split_and!; try done; try lia; [by rewrite Ha'|by apply Hw2| |].
  - rewrite <- Hll, <- Hl, <- app_assoc. exact Htl.
  - left. split; [|done]. by intros [_ ?]%app_eq_nil.
Qed.

(** *** Writing *)

Lemma writev_spec fd iov e : fh_open fd (world e) -> byte_list (concat iov) -> zlen (concat iov) < 2 ^ 31 ->
  exists cnt e', writev fd iov (zlen iov) e = Ret (cnt, e') /\
    fh_open fd (world e') /\ fh_app fd (world e') = fh_app fd (world e) /\
    ((0 <= cnt <= zlen (concat iov) /\ (concat iov <> [] -> 0 < cnt) /\
      (fh_content fd (world e'), fh_pos fd (world e')) =
        write_at (fh_app fd (world e)) (fh_content fd (world e)) (fh_pos fd (world e)) (take (Z.to_nat cnt) (concat iov))) \/
     (cnt = -1 /\ fh_may_fail /\ fh_content fd (world e') = fh_content fd (world e) /\ fh_pos fd (world e') = fh_pos fd (world e))).
Proof.
  intros Ho Hb Hs. destruct (wasi_fd_write fd iov (world e)) as [[er n] w'] eqn:Hw.
  pose proof (fh_write _ _ _ _ _ _ Ho Hb Hw) as (Ho' & Ha & Hcase).
  unfold writev, mbind, M_bind, host. rewrite (proj2 (Z.ltb_ge (zlen iov) 0)) by lia.
  rewrite Nat2Z.id, firstn_all, Hw. destruct (er =? 0); cbn [negb]; eexists _, _; (split; [reflexivity|]); cbn [world].
  - split_and!; [done..|]. left. destruct Hcase as (Hn & Hp & Hc). rewrite s32_small by lia. done.
  - split_and!; [done..|]. right. by destruct Hcase as (? & ? & ?).
Qed.

(** What is left of the vector after [m] bytes of [p ++ l]. *)
Definition vector_at (p l : list Z) (m : Z) (iov : list (list Z)) : Prop :=
  (exists v, iov = [v; l] /\ v ++ l = drop (Z.to_nat m) (p ++ l) /\ m <= zlen p) \/
  (iov = [drop (Z.to_nat m) (p ++ l)] /\ zlen p <= m).

Lemma vector_concat p l m iov : vector_at p l m iov -> concat iov = drop (Z.to_nat m) (p ++ l).
Proof. intros [(v & -> & Hv & _)|[-> _]]; simpl; by rewrite app_nil_r. Qed.

(** One round that wrote [cnt] bytes, not all. *)
Lemma vector_step p l m iov cnt : vector_at p l m iov -> 0 <= m -> 0 <= cnt < zlen (p ++ l) - m ->
  exists v rest, iov = v :: rest /\
    if zlen v <? cnt then
      exists v' rest', rest = v' :: rest' /\ vector_at p l (m + cnt) (drop (Z.to_nat (cnt - zlen v)) v' :: rest')
    else vector_at p l (m + cnt) (drop (Z.to_nat cnt) v :: rest).
Proof.
  intros Hv Hm Hcnt. rewrite length_app in Hcnt.
  assert (Hd : forall a, 0 <= a -> drop (Z.to_nat (m + a)) (p ++ l) = drop (Z.to_nat a) (drop (Z.to_nat m) (p ++ l))).
  { intros a Ha. rewrite drop_drop. f_equal. lia. }
  destruct Hv as [(v & -> & Hv & Hmp)|[-> Hmp]].
  - exists v, [l]. split; [done|].
    assert (Hlv : zlen v = zlen p - m).
    { apply (f_equal length) in Hv. rewrite length_app, length_drop, length_app in Hv. lia. }
    destruct (Z.ltb_spec (zlen v) cnt).
    + exists l, []. split; [done|]. right. split; [|lia]. rewrite Hd by lia. rewrite <- Hv.
      rewrite drop_app_ge by lia. do 2 f_equal. lia.
    + left. exists (drop (Z.to_nat cnt) v). split; [done|]. split; [|lia]. rewrite Hd by lia. rewrite <- Hv.
      by rewrite drop_app_le by lia.
  - exists (drop (Z.to_nat m) (p ++ l)), []. split; [done|].
    rewrite (proj2 (Z.ltb_ge (zlen (drop (Z.to_nat m) (p ++ l))) cnt)) by (rewrite length_drop, length_app; lia).
    right. split; [|lia]. by rewrite Hd by lia.
Qed.

Lemma write_vector_spec p l D P ap fuel : forall f e m iov,
  fh_open (fd f) (world e) -> fh_app (fd f) (world e) = ap -> byte_list (p ++ l) -> zlen (p ++ l) < 2 ^ 31 -> 0 <= P ->
  vector_at p l m iov -> 0 <= m < zlen (p ++ l) -> zlen (p ++ l) - m < Z.of_nat fuel ->
  (fh_content (fd f) (world e), fh_pos (fd f) (world e)) = write_at ap D P (take (Z.to_nat m) (p ++ l)) ->
  exists k f' e' n, write_vector fuel iov (zlen (p ++ l) - m) (zlen l) (Io f e) = Ret (k, Io f' e') /\
    fh_open (fd f) (world e') /\ fh_app (fd f) (world e') = ap /\ 0 <= n <= zlen (p ++ l) /\
    (fh_content (fd f) (world e'), fh_pos (fd f) (world e')) = write_at ap D P (take (Z.to_nat n) (p ++ l)) /\
    ((n = zlen (p ++ l) /\ k = zlen l /\ f' = set_w (buf f + buf_size f) (buf f) (buf f) f) \/
     (fh_may_fail /\ n < zlen (p ++ l) /\ k = Z.max 0 (n - zlen p) /\
      f' = set_flags (Z.lor (flags f) F_ERR) (set_w 0 0 0 f))).
Proof.
  induction fuel as [|fuel IH]; intros f e m iov Ho Hap Hb Hsz HP Hv Hm Hf Hdp; [lia|]. cbn [write_vector].
  rewrite gets_bind. cbn [file]. pose proof (vector_concat _ _ _ _ Hv) as Hc.
  assert (Hlc : zlen (concat iov) = zlen (p ++ l) - m) by (rewrite Hc, length_drop; lia).
  destruct (writev_spec (fd f) iov e Ho) as (cnt & e' & Hrun & Ho' & Hap' & Hcase).
  { rewrite Hc. by apply Forall_drop. }
  { lia. }
  rewrite (bind_Ret _ _ _ _ _ (below_Ret _ f _ _ _ Hrun)). rewrite Hap in *.
  destruct Hcase as [(Hcnt & Hpos & Hw)|(-> & Hmay & Hcc & Hpp)].
  - assert (Hcnt0 : 0 < cnt). { apply Hpos. intros Hnil. rewrite Hnil in Hlc. simpl in Hlc. lia. }
    assert (Hw2 : (fh_content (fd f) (world e'), fh_pos (fd f) (world e')) = write_at ap D P (take (Z.to_nat (m + cnt)) (p ++ l))).
    { rewrite Hw, Hc. replace (Z.to_nat (m + cnt)) with (Z.to_nat m + Z.to_nat cnt)%nat by lia.
      rewrite <- (take_take_drop (p ++ l)), write_at_app by done. by rewrite <- Hdp. }
    rewrite w32_small by lia. destruct (Z.eqb_spec cnt (zlen (p ++ l) - m)) as [Hall|Hpart].
    + eexists _, _, e', (zlen (p ++ l)). split; [reflexivity|]. split_and!; try done; [lia| |by left].
      rewrite Hw2. do 2 f_equal. lia.
    + replace (cnt <? 0) with false by lia. rewrite w32_small by lia.
      destruct (vector_step p l m iov cnt Hv) as (v & rest & -> & Hstep); [lia|lia|].
      replace (zlen (p ++ l) - m - cnt) with (zlen (p ++ l) - (m + cnt)) by lia.
      destruct (zlen v <? cnt).
      * destruct Hstep as (v' & rest' & -> & Hv'). apply IH; (done || lia).
      * apply IH; (done || lia).
  - change (w32 (-1)) with (2 ^ 32 - 1). rewrite (proj2 (Z.eqb_neq (2 ^ 32 - 1) _)) by lia.
    change (-1 <? 0) with true. cbv iota. eexists _, _, e', m. split; [reflexivity|].
    split_and!; try done; try lia; [by rewrite Hcc, Hpp|]. right. split_and!; try done; [lia|].
    destruct Hv as [(v & -> & Hvl & Hmp)|[-> Hmp]]; [cbn [length Nat.eqb]; lia|].
    cbn [length Nat.eqb default head]. unfold id. rewrite length_drop, length_app in *. rewrite w32_small; lia.
Qed.

Lemma stdio_write_law f e l : fh_open (fd f) (world e) -> fh_app (fd f) (world e) = appends f -> wf f -> w_on f -> r_off f ->
  pending f ++ l <> [] -> byte_list l -> zlen l + buf_size f < 2 ^ 31 ->
  exists k f' e' n, __stdio_write l (Io f e) = Ret (k, Io f' e') /\
    (fh_open (fd f) (world e') /\ fh_app (fd f) (world e') = appends f) /\ wf f' /\ kept f f' /\ lock f' = lock f /\ r_off f' /\
    0 <= n <= zlen (pending f ++ l) /\
    (fh_content (fd f) (world e'), fh_pos (fd f) (world e')) =
      write_at (appends f) (fh_content (fd f) (world e)) (fh_pos (fd f) (world e)) (take (Z.to_nat n) (pending f ++ l)) /\
    ((n = zlen (pending f ++ l) /\ k = zlen l /\ w_on f' /\ pending f' = [] /\ flags f' = flags f) \/
     (fh_may_fail /\ n < zlen (pending f ++ l) /\ k = Z.max 0 (n - zlen (pending f)) /\
      w_off f' /\ pending f' = [] /\ at_eof f' = at_eof f /\ in_error f' = true)).
Proof.
  intros Ho Ha Hwf Hw Hr Hne Hl Hsz. pose proof Hwf as []. destruct Hw as (Hwb & Hwp & Hwe). unfold UNGET in *.
  assert (Hlp : zlen (pending f) = wpos f - wbase f) by (apply length_slice; unfold UNGET; lia).
  destruct (fh_ok _ _ Ho) as [HP HD].
  assert (Hpos : 0 < zlen (pending f ++ l)) by (destruct (pending f ++ l); [done|simpl; lia]).
  unfold __stdio_write. rewrite gets_bind. cbn [file].
  rewrite (bind_Ret _ _ _ _ _ (load_slice f e (wbase f) (wpos f - wbase f) ltac:(lia) ltac:(unfold UNGET; lia) ltac:(unfold UNGET; lia))).
  fold (pending f). cbv zeta. rewrite length_app in Hpos. rewrite (w32_small (_ + _)) by lia.
  destruct (write_vector_spec (pending f) l (fh_content (fd f) (world e)) (fh_pos (fd f) (world e)) (appends f)
    (S (Z.to_nat (zlen (pending f) + zlen l))) f e 0 [pending f; l]) as (k & f' & e' & n & Hrun & Ho' & Ha' & Hn & Hdp & Hcase); try done.
  - apply Forall_app. split; [by apply slice_bytes|done].
  - rewrite length_app. lia.
  - left. exists (pending f). split_and!; [done|done|lia].
  - rewrite length_app. lia.
  - rewrite length_app. lia.
  - rewrite Z.sub_0_r, length_app, Nat2Z.inj_add in Hrun.
    exists k, f', e', n. split; [done|]. split; [done|].
    destruct Hcase as [(-> & -> & ->)|(Hm & Hlt & -> & ->)].
    + split_and!; try done; try lia. left. split_and!; try done.
      * unfold w_on. cbn. lia.
      * unfold pending, slice. cbn. by rewrite Z.sub_diag.
    + assert (Hk : kept f (set_flags (Z.lor (flags f) F_ERR) (set_w 0 0 0 f))) by (split; [done..|exact (perms_lor f F_ERR eq_refl)]).
      split_and!; try done; try lia. right. split_and!; try done.
      * unfold at_eof. cbn. by rewrite has_lor, orb_false_r.
      * unfold in_error. cbn. by rewrite has_lor, orb_true_r.
Qed.

Lemma isatty_quiet fd e : fh_open fd (world e) -> exists r e', isatty fd e = Ret (r, e') /\
  fh_open fd (world e') /\ fh_app fd (world e') = fh_app fd (world e) /\
  fh_content fd (world e') = fh_content fd (world e) /\ fh_pos fd (world e') = fh_pos fd (world e).
Proof.
  intros Ho. destruct (wasi_fd_fdstat_get fd (world e)) as [[er st] w'] eqn:Hw.
  pose proof (fh_fdstat _ _ _ _ _ Ho Hw) as Hs. unfold isatty, mbind, M_bind, host. rewrite Hw. cbn beta iota.
  destruct (negb (er =? 0)); [by eexists _, _; split|].
  destruct (negb _ || _); by eexists _, _; split.
Qed.

(** What a write on a descriptor does, for a structure that differs from [f] in
    fields that are not looked at. *)
Definition descriptor_wrote (f : FILE) (e : env W) (l : list Z) (k : Z) (f' : FILE) (e' : env W) (n : Z) : Prop :=
  (fh_open (fd f') (world e') /\ fh_app (fd f') (world e') = appends f') /\ wf f' /\ kept f f' /\ lock f' = lock f /\ r_off f' /\
  0 <= n <= zlen (pending f ++ l) /\
  (fh_content (fd f) (world e'), fh_pos (fd f) (world e')) =
    write_at (appends f) (fh_content (fd f) (world e)) (fh_pos (fd f) (world e)) (take (Z.to_nat n) (pending f ++ l)) /\
  ((n = zlen (pending f ++ l) /\ k = zlen l /\ w_on f' /\ pending f' = [] /\ flags f' = flags f) \/
   (fh_may_fail /\ n < zlen (pending f ++ l) /\ k = Z.max 0 (n - zlen (pending f)) /\
    (w_off f' \/ w_on f') /\ pending f' = [] /\ at_eof f' = at_eof f /\
    (in_error f = true -> in_error f' = true) /\ (True -> w_off f' /\ in_error f' = true))).

Lemma stdio_write_like f f1 e e1 l : fh_open (fd f) (world e1) -> fh_app (fd f) (world e1) = appends f ->
  kept f f1 -> wf f1 -> w_on f1 -> r_off f1 -> pending f1 = pending f -> lock f1 = lock f -> flags f1 = flags f ->
  fh_content (fd f) (world e1) = fh_content (fd f) (world e) -> fh_pos (fd f) (world e1) = fh_pos (fd f) (world e) ->
  pending f ++ l <> [] -> byte_list l -> zlen l + buf_size f < 2 ^ 31 ->
  exists k f' e' n, __stdio_write l (Io f1 e1) = Ret (k, Io f' e') /\ descriptor_wrote f e l k f' e' n.
Proof.
  intros Ho1 Ha1 Hk1 Hwf1 Hw1 Hr1 Hp1 Hl1 Hf1 Hc1 Hpo1 Hne Hl Hsz. pose proof Hk1 as [Hb1 Hs1 Hd1 _].
  assert (Hap1 : appends f1 = appends f) by (by apply kept_flags).
  destruct (stdio_write_law f1 e1 l) as (k & f' & e' & n & Hrun & [Ho' Ha'] & Hwf' & Hk' & Hlk & Hr' & Hn & Hdp & Hcase); try done.
  { by rewrite Hd1. } { by rewrite Hd1, Hap1. } { by rewrite Hp1. } { by rewrite Hs1. }
  rewrite Hd1, Hap1, Hp1, Hc1, Hpo1, ?Hl1, ?Hf1 in *. exists k, f', e', n. split; [done|].
  assert (Hkk : kept f f') by (by etransitivity). destruct (kept_flags _ _ Hkk) as (_ & _ & Hap). pose proof Hkk as [_ _ Hfd _].
  unfold descriptor_wrote. rewrite Hfd, Hap. split_and!; try done; try lia. destruct Hcase as [?|(? & ? & ? & ? & ? & He & ?)]; [by left|right].
  split_and!; try done; [by left|]. unfold at_eof in *. by rewrite <- Hf1.
Qed.

(** Standard output looks at its terminal first. *)
Lemma stdout_write_law f e l : fh_open (fd f) (world e) -> fh_app (fd f) (world e) = appends f -> wf f -> w_on f -> r_off f ->
  pending f ++ l <> [] -> byte_list l -> zlen l + buf_size f < 2 ^ 31 ->
  exists k f' e' n, __stdout_write l (Io f e) = Ret (k, Io f' e') /\ descriptor_wrote f e l k f' e' n.
Proof.
  intros Ho Ha Hwf Hw Hr Hne Hl Hsz. destruct (isatty_quiet (fd f) e Ho) as (r & e1 & Hr1 & Ho1 & Ha1 & Hc1 & Hp1).
  set (f1 := set_fn Stdio_write f). set (plain := if has (flags f) F_SVB then false else r =? 0).
  set (f2 := if plain then set_lbf (-1) f1 else f1). set (e2 := if has (flags f) F_SVB then e else e1).
  destruct (stdio_write_like f f2 e e2 l) as (k & f' & e' & n & Hrun & Hrest);
    try (unfold f2; by destruct plain); try (unfold e2; by destruct (has (flags f) F_SVB)); try done.
  { unfold e2. destruct (has (flags f) F_SVB); [done|congruence]. } { unfold f2. destruct Hwf; by destruct plain. }
  exists k, f', e', n. split; [|done]. unfold __stdout_write.
  rewrite (bind_Ret (update _) _ _ tt (Io f1 e)) by done. rewrite gets_bind. cbn [file].
  change (has (flags f1) F_SVB) with (has (flags f) F_SVB). change (fd f1) with (fd f). rewrite <- Hrun. unfold f2, e2, plain.
  destruct (has (flags f) F_SVB); [done|].
  rewrite (bind_Ret (_ ≫= _) _ _ (r =? 0) (Io f1 e1)) by (rewrite (bind_Ret _ _ _ _ _ (below_Ret _ f1 _ _ _ Hr1)); done).
  by destruct (r =? 0).
Qed.

Lemma stdio_seek_law f e off whence : fh_open (fd f) (world e) -> fh_app (fd f) (world e) = appends f ->
  - 2 ^ 63 <= off < 2 ^ 63 -> 0 <= whence <= 2 ->
  let d := fh_content (fd f) (world e) in let p := fh_pos (fd f) (world e) in
  let t := (if whence =? SEEK_SET then 0 else if whence =? SEEK_CUR then p else zlen d) + off in
  t <= 2 ^ 62 ->
  exists r e', __stdio_seek off whence (Io f e) = Ret (r, Io f e') /\
    (fh_open (fd f) (world e') /\ fh_app (fd f) (world e') = appends f) /\ fh_content (fd f) (world e') = d /\
    ((0 <= t /\ r = t /\ fh_pos (fd f) (world e') = t) \/
     ((t < 0 \/ fh_may_fail) /\ r = -1 /\ fh_pos (fd f) (world e') = p)).
Proof.
  intros Ho Ha Hoff Hwh d p t Ht. unfold __stdio_seek.
  rewrite gets_bind. cbn [file]. destruct (wasi_fd_seek (fd f) off whence (world e)) as [[er n] w'] eqn:Hs.
  pose proof (fh_seek _ _ _ _ _ _ _ Ho Hwh Hs Ht) as (Ho' & Ha' & Hc' & Hcase).
  assert (Hrun : exists er' r, lseek (fd f) off whence e = Ret (r, Env er' w') /\ r = if er =? 0 then s64 n else -1).
  { unfold lseek, mbind, M_bind, host. rewrite Hs. destruct (er =? 0); by eexists _, _. }
  destruct Hrun as (er' & r & Hrun & Hr). exists r, (Env er' w'). split; [by apply below_Ret|]. cbn [world].
  split; [by rewrite Ha'|]. split; [done|]. rewrite Hr. destruct (er =? 0).
  - left. destruct Hcase as (Ht0 & Hn & Hp'). change (n = t) in Hn. change (0 <= t) in Ht0. change (fh_pos (fd f) w' = t) in Hp'.
    clearbody t. subst n. rewrite s64_small by lia. done.
  - right. by destruct Hcase.
Qed.

#[export] Instance descriptor_laws : DeviceLaws W.
Proof.
  refine {| content := fh_content; position := fh_pos; opened f w := fh_open (fd f) w /\ fh_app (fd f) w = appends f;
    may_fail := fh_may_fail; reports := True; limit := 2 ^ 62 |}.
  - lia.
  - intros f f' w Hk [Ho Ha]. destruct (kept_flags _ _ Hk) as (_ & _ & ->). by destruct Hk as [_ _ -> _].
  - intros f w [Ho _]. by apply fh_ok.
  - intros f e len [Ho Ha] Hwf Hw Hr Hu _ Hn Hsz.
    destruct (stdio_read_law f e len Ho Ha Hwf Hw Hr Hu Hn Hsz) as (l & f' & e' & Hrun & [Ho' Ha'] & Hwf' & Hk & Hrest).
    exists l, f', e'. split; [done|]. destruct (kept_flags _ _ Hk) as (_ & _ & Hap). pose proof Hk as [_ _ Hfd _].
    split; [by rewrite Hfd, Hap|]. done.
  - intros f e l [Ho Ha] Hwf Hw Hr _ Hne Hl Hsz d p _. unfold f_write. cbn [descriptor]. destruct (write_fn f) eqn:Hfn.
    + destruct (stdio_write_like f f e e l) as (k & f' & e' & n & Hrun & Hrest); try done.
      exists k, f', e', n. split; [|done]. rewrite gets_bind. cbn [file]. by rewrite Hfn.
    + destruct (stdout_write_law f e l) as (k & f' & e' & n & Hrun & Hrest); try done.
      exists k, f', e', n. split; [|done]. rewrite gets_bind. cbn [file]. by rewrite Hfn.
  - intros f e off whence [Ho Ha] _ Hoff Hwh d p t Ht. by apply stdio_seek_law.
Defined.
End Descriptor.

(** ** Growing memory *)
Section Memory.
Context {W : Type} `{Alloc W}.

(** The buffer is the content and zeros behind it. *)
Record ms_ok (c : mstream W) : Prop := {
  mo_pos : 0 <= ms_pos c < 2 ^ 31;
  mo_space : 0 <= ms_space c < 2 ^ 32;
  mo_buf : zlen (ms_buf c) = Z.max 1 (ms_space c);
  mo_len : 0 <= ms_len c <= ms_space c /\ ms_len c < 2 ^ 31;
  mo_bytes : byte_list (ms_buf c);
  mo_zeros : drop (Z.to_nat (ms_len c)) (ms_buf c) = replicate (length (ms_buf c) - Z.to_nat (ms_len c)) 0 }.

Definition ms_content (c : mstream W) : list Z := take (Z.to_nat (ms_len c)) (ms_buf c).

Lemma ms_split c : ms_ok c -> ms_buf c = ms_content c ++ replicate (length (ms_buf c) - Z.to_nat (ms_len c)) 0.
Proof. intros []. unfold ms_content. rewrite <- mo_zeros0. symmetry. apply take_drop. Qed.

Lemma ms_content_len c : ms_ok c -> zlen (ms_content c) = ms_len c.
Proof. intros []. unfold ms_content. rewrite length_take. lia. Qed.

(** The buffer once it is large enough. *)
Definition grown (c : mstream W) (space : Z) (w : W) : mstream W :=
  MStream (ms_pos c) (take (Z.to_nat (ms_space c)) (ms_buf c) ++ replicate (Z.to_nat (space - ms_space c)) 0)
    (ms_len c) space (sizep c) w.

Lemma grown_ok c space w : ms_ok c -> ms_space c < space < 2 ^ 32 ->
  ms_ok (grown c space w) /\ ms_content (grown c space w) = ms_content c.
Proof.
  intros Hok Hs. pose proof (ms_split c Hok) as Hsp. pose proof (ms_content_len c Hok) as Hcl. destruct Hok as [].
  set (z := (length (ms_buf c) - Z.to_nat (ms_len c))%nat) in *.
  assert (Hbuf : ms_buf (grown c space w) = ms_content c ++ replicate (Z.to_nat (space - ms_len c)) 0).
  { unfold grown. cbn [ms_buf]. rewrite Hsp, take_app, take_ge by lia. rewrite take_replicate, <- app_assoc, <- replicate_add.
    do 2 f_equal. lia. }
  assert (Hc : ms_content (grown c space w) = ms_content c).
  { unfold ms_content at 1. rewrite Hbuf. cbn [grown ms_len]. rewrite take_app_length'; [done|lia]. }
  split; [|done]. split; cbn [grown ms_pos ms_space ms_len]; [done|lia| |lia| |].
  - change (zlen (ms_buf (grown c space w)) = Z.max 1 space). rewrite Hbuf, length_app, length_replicate. lia.
  - change (byte_list (ms_buf (grown c space w))). rewrite Hbuf. apply Forall_app_2; [by apply Forall_take|]. apply Forall_replicate. lia.
  - change (drop (Z.to_nat (ms_len c)) (ms_buf (grown c space w)) = replicate (length (ms_buf (grown c space w)) - Z.to_nat (ms_len c)) 0).
    rewrite Hbuf, drop_app_length' by lia. rewrite length_app, length_replicate. f_equal. lia.
Qed.

(** Storing where there is room. *)
Definition stored_ms (c : mstream W) (l : list Z) : mstream W :=
  let pos := ms_pos c + zlen l in
  MStream pos (take (Z.to_nat (ms_pos c)) (ms_buf c) ++ l ++ drop (Z.to_nat (ms_pos c + zlen l)) (ms_buf c))
    (if ms_len c <=? pos then pos else ms_len c) (ms_space c) pos (heap_ c).

Lemma stored_ms_ok c l : ms_ok c -> byte_list l -> l <> [] \/ ms_pos c <= ms_len c -> ms_pos c + zlen l <= 2 ^ 30 -> ms_pos c + zlen l < ms_space c ->
  ms_ok (stored_ms c l) /\ (ms_content (stored_ms c l), ms_pos (stored_ms c l)) = write_at false (ms_content c) (ms_pos c) l.
Proof.
  intros Hok Hl Hne Hlim Hs. pose proof (ms_split c Hok) as Hsp. pose proof (ms_content_len c Hok) as Hcl. destruct Hok as [].
  set (n := length (ms_buf c)) in *. assert (Hn : Z.of_nat n = ms_space c) by lia.
  set (len' := if ms_len c <=? ms_pos c + zlen l then ms_pos c + zlen l else ms_len c).
  assert (Hlen' : len' = Z.max (ms_len c) (ms_pos c + zlen l)) by (unfold len'; destruct (Z.leb_spec (ms_len c) (ms_pos c + zlen l)); lia).
  assert (Hbuf : ms_buf (stored_ms c l) = splice (ms_content c) (ms_pos c) l ++ replicate (n - Z.to_nat len') 0).
  { unfold stored_ms. cbn [ms_buf]. rewrite Hsp. unfold splice. rewrite take_app, drop_app, take_replicate, drop_replicate.
    rewrite <- !app_assoc. do 2 f_equal; [f_equal; lia|]. do 2 f_equal; [f_equal; lia|]. f_equal. lia. }
  pose proof (length_splice (ms_content c) (ms_pos c) l) as Hls.
  assert (Hc : ms_content (stored_ms c l) = splice (ms_content c) (ms_pos c) l).
  { unfold ms_content at 1. rewrite Hbuf. cbn [stored_ms ms_len]. fold len'. rewrite take_app_length'; [done|lia]. }
  split.
  - split.
    + cbn [stored_ms ms_pos]. lia.
    + done.
    + rewrite Hbuf, length_app, length_replicate. cbn [stored_ms ms_space]. lia.
    + cbn [stored_ms ms_len ms_space]. fold len'. lia.
    + rewrite Hbuf. apply Forall_app_2; [apply splice_bytes; [by apply Forall_take|done]|]. apply Forall_replicate. lia.
    + rewrite Hbuf. cbn [stored_ms ms_len]. fold len'. rewrite drop_app_length' by lia.
      rewrite length_app, length_replicate. f_equal. lia.
  - rewrite Hc. cbn [stored_ms ms_pos]. unfold write_at. destruct (decide (l = [])) as [->|]; [|done]. simpl. rewrite Z.add_0_r. f_equal.
    destruct Hne as [?|Hle]; [done|]. unfold splice. simpl. rewrite Nat.add_0_r.
    replace (Z.to_nat (ms_pos c) - length (ms_content c))%nat with O by lia. apply take_drop.
Qed.

Lemma lor_ge_r a b : 0 <= a -> 0 <= b -> b <= Z.lor a b.
Proof.
  intros Ha Hb. assert (Hd : Z.ldiff b (Z.lor a b) = 0).
  { apply Z.bits_inj'. intros n Hn. rewrite Z.ldiff_spec, Z.lor_spec, Z.bits_0.
    by destruct (Z.testbit a n), (Z.testbit b n). }
  pose proof (Z.sub_nocarry_ldiff (Z.lor a b) b Hd).
  assert (0 <= Z.ldiff (Z.lor a b) b) by (apply Z.ldiff_nonneg; left; by apply Z.lor_nonneg). lia.
Qed.

Lemma lor_ge a b : 0 <= a -> 0 <= b -> Z.max a b <= Z.lor a b.
Proof. intros Ha Hb. pose proof (lor_ge_r a b Ha Hb). pose proof (lor_ge_r b a Hb Ha) as Hs. rewrite Z.lor_comm in Hs. lia. Qed.

Lemma lor_lt a b n : 0 <= a < 2 ^ n -> 0 <= b < 2 ^ n -> 0 <= n -> Z.lor a b < 2 ^ n.
Proof.
  intros Ha Hb Hn. pose proof (lor_ge a b). destruct (Z.eq_dec (Z.lor a b) 0) as [->|Hne]; [lia|].
  apply Z.log2_lt_pow2; [lia|]. rewrite Z.log2_lor by lia.
  assert (Hlog : forall x, 0 <= x < 2 ^ n -> Z.log2 x < n \/ x = 0).
  { intros x Hx. destruct (Z.eq_dec x 0); [by right|left]. apply Z.log2_lt_pow2; lia. }
  pose proof (Z.log2_nonneg a) as Ha'. pose proof (Z.log2_nonneg b) as Hb'.
  destruct (Hlog a Ha) as [?| ->], (Hlog b Hb) as [?| ->]; [lia| | |done]; change (Z.log2 0) with 0; lia.
Qed.

(** A write of [l]: stored, or the allocator has failed and nothing is changed. *)
Lemma ms_put_spec f (e : env (mstream W)) l : ms_ok (world e) -> byte_list l -> l <> [] \/ ms_pos (world e) <= ms_len (world e) ->
  ms_pos (world e) + zlen l <= 2 ^ 30 ->
  exists r e', ms_put l (Io f e) = Ret (r, Io f e') /\ ms_ok (world e') /\
    ((r = zlen l /\ (ms_content (world e'), ms_pos (world e')) = write_at false (ms_content (world e)) (ms_pos (world e)) l) \/
     (r = 0 /\ (exists n w w', malloc_ok n w = (false, w')) /\
      ms_content (world e') = ms_content (world e) /\ ms_pos (world e') = ms_pos (world e))).
Proof.
  intros Hok Hl Hne Hlim. destruct e as [er c]. cbn [world] in *. pose proof Hok as [].
  assert (Hput : forall er c1, ms_ok c1 -> ms_content c1 = ms_content c -> ms_pos c1 = ms_pos c -> ms_len c1 = ms_len c -> ms_pos c1 + zlen l < ms_space c1 ->
    exists e', (c ← cookie; let p := ms_pos c in if Z.of_nat (length (ms_buf c)) <? p + zlen l then halt Undefined else
      let pos := w32 (p + zlen l) in
      set_cookie (MStream pos (take (Z.to_nat p) (ms_buf c) ++ l ++ drop (Z.to_nat (p + zlen l)) (ms_buf c))
        (if ms_len c <=? pos then pos else ms_len c) (ms_space c) pos (heap_ c));; mret (zlen l)) (Io f (Env er c1)) = Ret (zlen l, Io f e') /\
      ms_ok (world e') /\ (ms_content (world e'), ms_pos (world e')) = write_at false (ms_content c) (ms_pos c) l).
  { intros er1 c1 Hok1 Hc1 Hp1 Hl1 Hs1. destruct (stored_ms_ok c1 l Hok1 Hl) as [Hok2 Hw2]; [by rewrite Hp1, Hl1|by rewrite Hp1|done|].
    exists (Env er1 (stored_ms c1 l)). rewrite Hc1, Hp1 in Hw2. split; [|done]. unfold cookie. rewrite gets_bind. cbn [world sys].
    destruct Hok1. rewrite (proj2 (Z.ltb_ge (zlen (ms_buf c1)) (ms_pos c1 + zlen l))) by lia. rewrite w32_small by lia. done. }
  unfold ms_put. unfold cookie. rewrite gets_bind. cbn [world sys].
  rewrite (w32_small (zlen l + ms_pos c)) by lia. destruct (Z.leb_spec (ms_space c) (zlen l + ms_pos c)) as [Hgrow|Hfit].
  - rewrite (w32_small (2 * ms_space c + 1)) by lia. rewrite (w32_small (ms_pos c + zlen l + 1)) by lia.
    set (len2 := Z.lor (2 * ms_space c + 1) (ms_pos c + zlen l + 1)).
    assert (Hl2 : ms_pos c + zlen l < len2 < 2 ^ 32 /\ ms_space c < len2).
    { pose proof (lor_ge (2 * ms_space c + 1) (ms_pos c + zlen l + 1)).
      pose proof (lor_lt (2 * ms_space c + 1) (ms_pos c + zlen l + 1) 32). unfold len2. lia. }
    destruct (malloc_ok len2 (heap_ c)) as [ok w] eqn:Hm. destruct ok.
    + destruct (grown_ok c len2 w Hok) as [Hok1 Hc1]; [lia|].
      destruct (Hput er (grown c len2 w)) as (e' & Hrun & Hrest); [done|done|done|done|cbn [grown ms_pos ms_space]; lia|].
      exists (zlen l), e'. split; [|split; [apply Hrest|left; split; [done|apply Hrest]]].
      etransitivity; [|exact Hrun]. done.
    + eexists _, _. split; [reflexivity|]. cbn [world]. split; [by destruct Hok|]. right. split; [done|]. split; [by eexists _, _, _|done].
  - destruct (Hput er c) as (e' & Hrun & Hrest); [done|done|done|done|lia|].
    exists (zlen l), e'. split; [done|]. split; [apply Hrest|]. left. split; [done|apply Hrest].
Qed.

(** Every write goes through [ms_put], what is in the stream's buffer first. *)
Lemma ms_flush_spec f (e : env (mstream W)) l : ms_ok (world e) -> wf f -> w_on f -> pending f <> [] -> byte_list l ->
  ms_pos (world e) + zlen (pending f ++ l) <= 2 ^ 30 ->
  let f' := set_w (wend f) (wbase f) (wbase f) f in
  exists k e' n, ms_write l (Io f e) = Ret (k, Io f' e') /\ ms_ok (world e') /\ 0 <= n <= zlen (pending f ++ l) /\
    (ms_content (world e'), ms_pos (world e')) =
      write_at false (ms_content (world e)) (ms_pos (world e)) (take (Z.to_nat n) (pending f ++ l)) /\
    ((n = zlen (pending f ++ l) /\ k = zlen l) \/
     ((exists n w w', malloc_ok n w = (false, w')) /\ n < zlen (pending f ++ l) /\ k = Z.max 0 (n - zlen (pending f)))).
Proof.
  intros Hok Hwf (Hwb & Hwp & Hwe) Hne Hl Hlim f'. pose proof Hwf as []. unfold UNGET in *. rewrite length_app in Hlim.
  assert (Hlp : zlen (pending f) = wpos f - wbase f) by (apply length_slice; unfold UNGET; lia).
  assert (Hpb : byte_list (pending f)) by by apply slice_bytes.
  assert (Hp0 : 0 < zlen (pending f)) by (destruct (pending f); [done|simpl; lia]).
  assert (Hpos : 0 <= ms_pos (world e)) by by destruct Hok as [[? _]].
  unfold ms_write. rewrite gets_bind. cbn [file]. rewrite <- Hlp, (proj2 (Z.eqb_neq (zlen (pending f)) 0)) by lia. cbn [negb].
  rewrite Hlp, (bind_Ret _ _ _ _ _ (load_slice f e (wbase f) (wpos f - wbase f) ltac:(lia) ltac:(unfold UNGET; lia) ltac:(unfold UNGET; lia))).
  fold (pending f). rewrite <- Hlp, (bind_Ret (update _) _ _ tt (Io f' e)) by done.
  destruct (ms_put_spec f' e (pending f) Hok Hpb) as (r & e1 & Hrun & Hok1 & Hcase); [by left|lia|].
  rewrite (bind_Ret _ _ _ _ _ Hrun). destruct Hcase as [[-> Hw]|(-> & Hm & Hc & Hp)].
  2:{ rewrite (proj2 (Z.ltb_lt 0 _)) by lia. exists 0, e1, 0. rewrite length_app. split_and!; try done; [lia|by rewrite Hc, Hp|].
      right. split_and!; [done|lia|lia]. }
  rewrite Z.ltb_irrefl. pose proof (f_equal snd Hw) as Hp1. unfold write_at in Hp1. rewrite decide_False in Hp1 by done. cbn [snd] in Hp1.
  destruct (ms_put_spec f' e1 l Hok1 Hl) as (r & e2 & Hrun2 & Hok2 & Hcase2); [| |].
  { right. apply (f_equal fst) in Hw. unfold write_at in Hw. rewrite decide_False in Hw by done. cbn [fst] in Hw.
    rewrite <- (ms_content_len _ Hok1), Hw, length_splice. lia. }
  { rewrite Hp1. lia. }
  rewrite Hrun2. rewrite length_app.
  assert (Hwhole : forall d p, ms_content (world e2) = d -> ms_pos (world e2) = p -> (d, p) = write_at false (ms_content (world e1)) (ms_pos (world e1)) l ->
    (ms_content (world e2), ms_pos (world e2)) = write_at false (ms_content (world e)) (ms_pos (world e)) (pending f ++ l)).
  { intros d p <- <- Hd. by rewrite write_at_app, <- Hw by done. }
  destruct Hcase2 as [[-> Hw2]|(-> & Hm & Hc2 & Hp2)].
  - exists (zlen l), e2, (zlen (pending f) + zlen l). split_and!; try done; try lia.
    rewrite take_ge by (rewrite length_app; lia). by eapply Hwhole.
  - exists 0, e2, (zlen (pending f)). split_and!; try done; try lia.
    + rewrite Nat2Z.id, take_app_length. by rewrite Hc2, Hp2.
    + destruct (decide (l = [])) as [->|Hnl]; [left; simpl; lia|right].
      assert (0 < zlen l) by (destruct l; [done|simpl; lia]). split_and!; [done|lia|lia].
Qed.

#[export] Instance memory_laws : DeviceLaws (mstream W).
Proof.
  refine {| content := fun _ => ms_content; position := fun _ => ms_pos;
    opened f c := ms_ok c /\ readable f = false /\ appends f = false;
    may_fail := exists n w w', malloc_ok n w = (false, w'); reports := False; limit := 2 ^ 30 |}.
  - lia.
  - intros f f' c Hk (Hok & Hr & Ha). by destruct (kept_flags _ _ Hk) as (-> & _ & ->).
  - intros f c ([[? _] ? ? ? ? ?] & _). split; [done|]. by apply Forall_take.
  - by intros f e len (_ & -> & _) _ _ _ _ ?.
  - intros f e l (Hok & Hr & Ha) Hwf Hw Hro _ Hne Hl Hsz d p Hlim. unfold d, p in *. clear d p. rewrite Ha in *.
    unfold write_at in Hlim. rewrite decide_False in Hlim by done. cbn [snd] in Hlim. cbn [f_write memory_device].
    destruct (decide (pending f = [])) as [Hp|Hp].
    + destruct (ms_put_spec f e l Hok Hl) as (r & e' & Hrun & Hok' & Hcase); [left; by rewrite Hp in Hne|by rewrite Hp in Hlim|].
      assert (Hlw : ms_write l (Io f e) = ms_put l (Io f e)).
      { unfold ms_write. rewrite gets_bind. cbn [file]. pose proof Hw as (? & ? & ?). destruct Hwf. unfold UNGET in *.
        assert (zlen (pending f) = wpos f - wbase f) as Hlp by (apply length_slice; unfold UNGET; lia).
        rewrite Hp in Hlp. simpl in Hlp. by rewrite <- Hlp. }
      rewrite Hlw, Hp. cbn [app]. rewrite Hp in Hne. cbn [app] in Hne.
      assert (Hl0 : 0 < zlen l) by (destruct l; [done|simpl; lia]).
      destruct Hcase as [[-> Hwr]|(-> & Hm & Hc & Hps)].
      * exists (zlen l), f, e', (zlen l). rewrite take_ge by lia. split_and!; try done; try lia. by left.
      * exists 0, f, e', 0. split_and!; try done; try lia; [by rewrite Hc, Hps|].
        right. split_and!; try done; try (simpl; lia). by right.
    + destruct (ms_flush_spec f e l Hok Hwf Hw Hp Hl Hlim) as (k & e' & n & Hrun & Hok' & Hn & Hwr & Hcase).
      set (f' := set_w (wend f) (wbase f) (wbase f) f) in *.
      assert (Hw' : w_on f') by (destruct Hwf, Hw as (? & ? & ?); unfold w_on, f'; cbn; lia).
      assert (Hp' : pending f' = []) by (unfold pending, slice, f'; cbn; by rewrite Z.sub_diag).
      exists k, f', e', n. split_and!; try done; try lia; [by destruct Hwf|].
      destruct Hcase as [[-> ->]|(Hm & Hlt & ->)]; [by left|right]. split_and!; try done. by right.
  - intros f e off whence (Hok & Hr & Ha) Hwf Hoff Hwh d p t Ht. cbn [f_seek memory_device]. pose proof Hok as [].
    assert (Hb : (if whence =? SEEK_SET then 0 else if whence =? SEEK_CUR then ms_pos (world e) else ms_len (world e)) + off = t).
    { unfold t, d, p. by rewrite ms_content_len. }
    unfold ms_seek, cookie. rewrite gets_bind. cbn [sys]. rewrite w32_small by lia.
    rewrite (proj2 (Z.ltb_ge 2 whence)) by lia. rewrite s32_small by (destruct (whence =? SEEK_SET), (whence =? SEEK_CUR); lia).
    clearbody t. set (base := if whence =? SEEK_SET then 0 else _) in *. destruct (Z.ltb_spec off (- base)); cbn [orb].
    { eexists _, _. split; [reflexivity|]. split; [done|]. split; [done|]. right. split; [left; lia|done]. }
    rewrite (proj2 (Z.ltb_ge _ _)) by lia. rewrite w32_small by lia. rewrite Hb.
    eexists _, _. split; [reflexivity|]. split; [split; [|done]|]; [split; cbn; (lia || done)|]. split; [done|]. left. cbn. split_and!; (lia || done).
Defined.
End Memory.
