(* ===== verification/Printf.v ===== *)
(** Formatted output ([stdio/vfprintf.c], [vsnprintf.c], [vsprintf.c],
    [vasprintf.c], [vdprintf.c] and the functions that call them) on the streams of [Stdio].  Floating-point conversions and the
    texts of [strerror] are arguments. *)
From S2P Require Import Prelude.
From S2P Require Import Wasi.
From S2P Require Import Utf8.
From S2P Require Import Unistd.
From S2P Require Import Fd.
From S2P Require Import Stdio.
From S2P Require Import StdioDev.

Definition INT_MAX : Z := 2 ^ 31 - 1.
Definition INT_MIN : Z := - 2 ^ 31.
Definition INTMAX_MAX : Z := 2 ^ 63 - 1.
Definition ULONG_MAX : Z := 2 ^ 32 - 1.
Definition NL_ARGMAX : Z := 9.

(** ** Flags *)
Definition ALT_FORM : Z := Z.shiftl 1 (35 - 32).
Definition ZERO_PAD : Z := Z.shiftl 1 (48 - 32).
Definition LEFT_ADJ : Z := Z.shiftl 1 (45 - 32).
Definition PAD_POS : Z := Z.shiftl 1 (32 - 32).
Definition MARK_POS : Z := Z.shiftl 1 (43 - 32).
Definition GROUPED : Z := Z.shiftl 1 (39 - 32).
Definition FLAGMASK : Z :=
  Z.lor ALT_FORM (Z.lor ZERO_PAD (Z.lor LEFT_ADJ (Z.lor PAD_POS (Z.lor MARK_POS GROUPED)))).

Definition isdigit (c : Z) : bool := w32 (c - 48) <? 10.

(** ** The state machine of conversion specifiers *)
Definition BARE : Z := 0.
Definition LPRE : Z := 1.
Definition LLPRE : Z := 2.
Definition HPRE : Z := 3.
Definition HHPRE : Z := 4.
Definition BIGLPRE : Z := 5.
Definition ZTPRE : Z := 6.
Definition JPRE : Z := 7.
Definition STOP : Z := 8.
Definition PTR : Z := 9.
Definition INT : Z := 10.
Definition UINT : Z := 11.
Definition ULLONG : Z := 12.
Definition LONG : Z := 13.
Definition ULONG : Z := 14.
Definition SHORT : Z := 15.
Definition USHORT : Z := 16.
Definition CHAR : Z := 17.
Definition UCHAR : Z := 18.
Definition LLONG : Z := 19.
Definition SIZET : Z := 20.
Definition IMAX : Z := 21.
Definition UMAX : Z := 22.
Definition PDIFF : Z := 23.
Definition UIPTR : Z := 24.
Definition DBL : Z := 25.
Definition LDBL : Z := 26.
Definition NOARG : Z := 27.

(** A row of the table: characters and what follows them. *)
Abbreviation row := (list (string * Z)).
Definition integers (i u : Z) : row := [("di", i); ("ouxX", u)]%string.
Definition floats (t : Z) : row := [("efgaEFGA", t)]%string.
Definition states : list row := [
  integers INT UINT ++ floats DBL ++
    [("c", CHAR); ("C", INT); ("sS", PTR); ("p", UIPTR); ("n", PTR); ("m", NOARG);
     ("l", LPRE); ("h", HPRE); ("L", BIGLPRE); ("zt", ZTPRE); ("j", JPRE)]%string;
  integers LONG ULONG ++ floats DBL ++ [("c", INT); ("sn", PTR); ("l", LLPRE)]%string;
  integers LLONG ULLONG ++ [("n", PTR)]%string;
  integers SHORT USHORT ++ [("n", PTR); ("h", HHPRE)]%string;
  integers CHAR UCHAR ++ [("n", PTR)]%string;
  floats LDBL ++ [("n", PTR)]%string;
  integers PDIFF SIZET ++ [("n", PTR)]%string;
  integers IMAX UMAX ++ [("n", PTR)]%string ].

Definition next_state (st c : Z) : Z :=
  match list_find (fun e => c ∈ bytes_of (fst e)) (default [] (states !! Z.to_nat st)) with
  | Some (_, (_, st')) => st'
  | None => 0
  end.

Definition OOB (x : Z) : bool := 122 - 65 <? w32 (x - 65).

(** ** Arguments

    What a pointer points to: characters up to the terminator, wide characters,
    or an object of the caller.  [union arg] has the value converted to
    [uintmax_t], a number, or a pointer. *)
Inductive pointee :=
  | Chars (s : list Z)
  | Wchars (s : list Z)
  | Object.
Record pointer := Ptr { addr : Z; target : pointee }.

Inductive argument (F : Type) :=
  | Int (z : Z)
  | LongLong (z : Z)
  | Double (f : F)
  | Pointer (p : pointer).
Arguments Int {F} _.
Arguments LongLong {F} _.
Arguments Double {F} _.
Arguments Pointer {F} _.

Inductive arg (F : Type) :=
  | ArgI (i : Z)
  | ArgF (f : F)
  | ArgP (p : pointer).
Arguments ArgI {F} _.
Arguments ArgF {F} _.
Arguments ArgP {F} _.

(** The ways out of a step: the labels [inval] and [overflow], or undefined
    behaviour. *)
Inductive jump (A : Type) :=
  | Go (a : A)
  | Inval
  | Overflow
  | Undef.
Arguments Go {A} _.
Arguments Inval {A}.
Arguments Overflow {A}.
Arguments Undef {A}.

#[global] Instance jump_bind : MBind jump := fun A B f m =>
  match m with
  | Go a => f a
  | Inval => Inval
  | Overflow => Overflow
  | Undef => Undef
  end.

Definition s8 (x : Z) : Z := (x + 128) mod 256 - 128.
Definition s16 (x : Z) : Z := (x + 2 ^ 15) mod 2 ^ 16 - 2 ^ 15.

(** What becomes of an argument of each type; [int], [long], [size_t] and
    [ptrdiff_t] are 32 bits. *)
Definition pop_arg {F} (type : Z) (ap : list (argument F)) : jump (arg F * list (argument F)) :=
  match ap with
  | Pointer p :: ap =>
      if type =? PTR then Go (ArgP p, ap) else if type =? UIPTR then Go (ArgI (w32 (addr p)), ap) else Undef
  | Int z :: ap =>
      if (type =? INT) || (type =? LONG) || (type =? PDIFF) then Go (ArgI (w64 (s32 z)), ap)
      else if (type =? UINT) || (type =? ULONG) || (type =? SIZET) then Go (ArgI (w32 z), ap)
      else if type =? SHORT then Go (ArgI (w64 (s16 z)), ap)
      else if type =? USHORT then Go (ArgI (w16 z), ap)
      else if type =? CHAR then Go (ArgI (w64 (s8 z)), ap)
      else if type =? UCHAR then Go (ArgI (w8 z), ap)
      else Undef
  | LongLong z :: ap =>
      if (type =? ULLONG) || (type =? LLONG) || (type =? IMAX) || (type =? UMAX) then Go (ArgI (w64 z), ap) else Undef
  | Double f :: ap => if (type =? DBL) || (type =? LDBL) then Go (ArgF f, ap) else Undef
  | [] => Undef
  end.

(** ** Digits

    Each loop puts digits in front of [s]; [fuel] bounds their number. *)
Fixpoint fmt_x (fuel : nat) (x : Z) (s : list Z) (lower : Z) : list Z :=
  match fuel with
  | O => s
  | S fuel =>
      if x =? 0 then s
      else fmt_x fuel (Z.shiftr x 4) (Z.lor (at_ (bytes_of "0123456789ABCDEF") (Z.to_nat (Z.land x 15))) lower :: s) lower
  end.
Fixpoint fmt_o (fuel : nat) (x : Z) (s : list Z) : list Z :=
  match fuel with
  | O => s
  | S fuel => if x =? 0 then s else fmt_o fuel (Z.shiftr x 3) (48 + Z.land x 7 :: s)
  end.
(** The loop on [uintmax_t] and the loop on [unsigned long]. *)
Fixpoint fmt_u_long (fuel : nat) (y : Z) (s : list Z) : list Z :=
  match fuel with
  | O => s
  | S fuel => if y =? 0 then s else fmt_u_long fuel (y / 10) (48 + y mod 10 :: s)
  end.
Fixpoint fmt_u (fuel : nat) (x : Z) (s : list Z) : list Z :=
  match fuel with
  | O => s
  | S fuel' => if ULONG_MAX <? x then fmt_u fuel' (x / 10) (48 + x mod 10 :: s) else fmt_u_long fuel (w32 x) s
  end.

(** ** Parsing a conversion

    The variables of [printf_core] that outlive a conversion. *)
Record vars (F : Type) := Vars {
  ap : list (argument F);
  l10n : bool;
  nl_arg : gmap Z (arg F);
  nl_type : gmap Z Z }.
Arguments Vars {F} _ _ _ _.
Arguments ap {F} _.
Arguments l10n {F} _.
Arguments nl_arg {F} _.
Arguments nl_type {F} _.

Definition star : Z := 42.
Definition dollar : Z := 36.
Definition percent : Z := 37.

Fixpoint getint (s : list Z) (i : Z) : Z * list Z :=
  match s with
  | c :: s' =>
      if isdigit c then
        getint s' (if (INT_MAX / 10 <? w32 i) || (INT_MAX - 10 * i <? c - 48) then -1 else 10 * i + (c - 48))
      else (i, s)
  | [] => (i, [])
  end.

(** A digit and a dollar sign at [s]. *)
Definition position (s : list Z) : option Z :=
  if isdigit (at_ s 0) && (at_ s 1 =? dollar) then Some (at_ s 0 - 48) else None.

Section Parse.
Context {F : Type}.
(** Whether the stream is not null: whether this is the second pass. *)
Variable f : bool.

(** An [int] of [nl_arg]; the first pass reads the array before it is set, and
    uses nothing of it. *)
Definition nl_int (v : vars F) (k : Z) : jump Z :=
  match nl_arg v !! k with
  | Some (ArgI i) => Go (s32 i)
  | _ => if f then Undef else Go 0
  end.

(** The next argument, an [int]. *)
Definition next_int (v : vars F) : jump (Z * vars F) :=
  if f then
    '(a, rest) ← pop_arg INT (ap v);
    match a with ArgI i => Go (s32 i, Vars rest (l10n v) (nl_arg v) (nl_type v)) | _ => Undef end
  else Go (0, v).

Definition set_type (k t : Z) (v : vars F) : vars F := Vars (ap v) (l10n v) (nl_arg v) (<[k := t]> (nl_type v)).
Definition positional (v : vars F) : vars F := Vars (ap v) true (nl_arg v) (nl_type v).

Definition argument_position (s : list Z) (v : vars F) : Z * list Z * vars F :=
  match position (drop 1 s) with
  | Some k => (k, drop 3 s, positional v)
  | None => (-1, drop 1 s, v)
  end.

Fixpoint read_flags (s : list Z) (fl : Z) : Z * list Z :=
  match s with
  | c :: s' =>
      if (w32 (c - 32) <? 32) && has FLAGMASK (Z.shiftl 1 (c - 32)) then read_flags s' (Z.lor fl (Z.shiftl 1 (c - 32)))
      else (fl, s)
  | [] => (fl, [])
  end.

Definition read_width (s : list Z) (v : vars F) (fl : Z) : jump (Z * Z * list Z * vars F) :=
  if at_ s 0 =? star then
    '(w, s, v) ← match position (drop 1 s) with
      | Some k => w ← nl_int v k; Go (w, drop 3 s, set_type k INT (positional v))
      | None => if negb (l10n v) then '(w, v) ← next_int v; Go (w, drop 1 s, v) else Inval
      end;
    if w <? 0 then if w =? INT_MIN then Undef else Go (- w, Z.lor fl LEFT_ADJ, s, v)
    else Go (w, fl, s, v)
  else
    let '(w, s) := getint s 0 in
    if w <? 0 then Overflow else Go (w, fl, s, v).

(** The precision and whether there is one. *)
Definition read_precision (s : list Z) (v : vars F) : jump (Z * bool * list Z * vars F) :=
  if (at_ s 0 =? dot) && (at_ s 1 =? star) then
    '(p, s, v) ← match position (drop 2 s) with
      | Some k => p ← nl_int v k; Go (p, drop 4 s, set_type k INT v)
      | None => if negb (l10n v) then '(p, v) ← next_int v; Go (p, drop 2 s, v) else Inval
      end;
    Go (p, 0 <=? p, s, v)
  else if at_ s 0 =? dot then
    let '(p, s) := getint (drop 1 s) 0 in Go (p, true, s, v)
  else Go (-1, false, s, v).

(** The previous state, the state, and the last character. *)
Fixpoint specifier (st : Z) (s : list Z) : jump (Z * Z * Z * list Z) :=
  match s with
  | [] => Inval
  | c :: s =>
      if OOB c then Inval else
      let st' := next_state st c in
      if w32 (st' - 1) <? STOP then specifier st' s
      else if st' =? 0 then Inval
      else Go (st, st', c, s)
  end.

(** A conversion: length state, character, flags, width, precision, argument. *)
Record conversion := Conv {
  c_ps : Z; c_t : Z; c_fl : Z; c_w : Z; c_p : Z; c_xp : bool; c_arg : option (arg F) }.

(** Gives [None] where the first pass ends because arguments are taken in
    order. *)
Definition parse (s : list Z) (v : vars F) : jump (option conversion * list Z * vars F) :=
  let '(argpos, s, v) := argument_position s v in
  let '(fl, s) := read_flags s 0 in
  '(w, fl, s, v) ← read_width s v fl;
  '(p, xp, s, v) ← read_precision s v;
  '(ps, st, t, s) ← specifier BARE s;
  let conv a := Conv ps t fl w p xp a in
  if st =? NOARG then
    if 0 <=? argpos then Inval else Go (Some (conv None), s, v)
  else if 0 <=? argpos then
    Go (Some (conv (nl_arg v !! argpos)), s, set_type argpos st v)
  else if f then
    '(a, rest) ← pop_arg st (ap v);
    Go (Some (conv (Some a)), s, Vars rest (l10n v) (nl_arg v) (nl_type v))
  else Go (None, s, v).
End Parse.
Arguments conversion : clear implicits.

(** ** Output *)

Definition prefix : list Z := bytes_of "-+   0X0x".

(** The digits of an integer: its magnitude, precision, flags, the prefix (its
    offset and length) and the digits. *)
Record digits := Digits { g_i : Z; g_p : Z; g_fl : Z; g_off : Z; g_pl : Z; g_a : list Z }.

Definition hexadecimal (t p fl i : Z) : digits :=
  let alt := negb (i =? 0) && has fl ALT_FORM in
  Digits i p fl (if alt then Z.shiftr t 4 else 0) (if alt then 2 else 0) (fmt_x 16 i [] (Z.land t 32)).
Definition octal (p fl i : Z) : digits :=
  let a := fmt_o 22 i [] in
  let n := Z.of_nat (length a) in
  Digits i (if has fl ALT_FORM && (p <? n + 1) then n + 1 else p) fl 0 0 a.
Definition decimal (p fl i : Z) : digits :=
  if INTMAX_MAX <? i then let i := w64 (- i) in Digits i p fl 0 1 (fmt_u 20 i [])
  else if has fl MARK_POS then Digits i p fl 1 1 (fmt_u 20 i [])
  else if has fl PAD_POS then Digits i p fl 2 1 (fmt_u 20 i [])
  else Digits i p fl 0 0 (fmt_u 20 i []).

(** [MAX(p, 2*sizeof(void* ))] is unsigned. *)
Definition digits_of (t p fl i : Z) : digits :=
  if t =? 112 then hexadecimal 120 (s32 (if 8 <? w32 p then w32 p else 8)) (Z.lor fl ALT_FORM) i
  else if (t =? 120) || (t =? 88) then hexadecimal t p fl i
  else if t =? 111 then octal p fl i
  else if (t =? 100) || (t =? 105) then decimal p fl i
  else Digits i p fl 0 0 (fmt_u 20 i []).

(** [strnlen] ([string/strnlen.c]) of a string with that many bytes. *)
Definition strnlen (s : list Z) (n : Z) : Z := Z.min (Z.of_nat (length s)) n.

Section Output.
Context {X : Type} `{Device X} {F : Type}.
(** [fmt_fp], [strerror] and [MB_CUR_MAX]. *)
Variable fmt_fp : F -> Z -> Z -> Z -> Z -> M (io X) Z.
Variable strerror : Z -> list Z.
Variable mb_cur_max : Z.

Definition out (s : list Z) : M (io X) unit :=
  f ← gets file;
  when (negb (has (flags f) F_ERR)) (__fwritex s;; mret tt).

Fixpoint pad_loop (fuel : nat) (c l : Z) : M (io X) unit :=
  match fuel with
  | O => halt OutOfFuel
  | S fuel =>
      if 256 <=? l then out (replicate 256 c);; pad_loop fuel c (l - 256)
      else out (replicate (Z.to_nat l) c)
  end.

Definition pad (c w l fl : Z) : M (io X) unit :=
  if has fl (Z.lor LEFT_ADJ ZERO_PAD) || (w <=? l) then mret tt
  else pad_loop (S (Z.to_nat (w - l))) c (w - l).

(** From [if (p < z-a)] on, with the text [a] and the first [pl] characters of
    the prefix; gives [l]. *)
Definition finish (cnt w p pl fl : Z) (pre a : list Z) : M (io X) (jump (option Z)) :=
  let n := Z.of_nat (length a) in
  let p := if p <? n then n else p in
  if INT_MAX - pl <? p then mret Overflow else
  let w := if w <? pl + p then pl + p else w in
  if INT_MAX - cnt <? w then mret Overflow else
  pad 32 w (pl + p) fl;;
  out (take (Z.to_nat pl) pre);;
  pad 48 w (pl + p) (Z.lxor fl ZERO_PAD);;
  pad 48 p n 0;;
  out a;;
  pad 32 w (pl + p) (Z.lxor fl LEFT_ADJ);;
  mret (Go (Some w)).

Definition clear_pad (fl : Z) : Z := Z.land fl (Z.lnot ZERO_PAD).

Definition convert_integer (cnt : Z) (c : conversion F) (fl i : Z) : M (io X) (jump (option Z)) :=
  let g := digits_of (c_t c) (c_p c) fl i in
  if c_xp c && (g_p g <? 0) then mret Overflow else
  let fl := if c_xp c then clear_pad (g_fl g) else g_fl g in
  let pre := drop (Z.to_nat (g_off g)) prefix in
  if (g_i g =? 0) && (g_p g =? 0) then finish cnt (c_w c) (g_p g) (g_pl g) fl pre []
  else
    let n := Z.of_nat (length (g_a g)) + (if g_i g =? 0 then 1 else 0) in
    finish cnt (c_w c) (Z.max (g_p g) n) (g_pl g) fl pre (g_a g).

Definition convert_string (cnt : Z) (c : conversion F) (fl : Z) (s : list Z) : M (io X) (jump (option Z)) :=
  let n := strnlen s (if c_p c <? 0 then INT_MAX else c_p c) in
  if (c_p c <? 0) && (n <? Z.of_nat (length s)) then mret Overflow else
  finish cnt (c_w c) n 0 (clear_pad fl) prefix (take (Z.to_nat n) s).

(** [wctomb]; it may set [errno]. *)
Definition wide (c : Z) : M (io X) (Z * list Z) :=
  below (fun e =>
    match Utf8.wctomb mb_cur_max false c (MbEnv 0 (errno e)) with
    | Ret (r, b) => Ret (r, Env (mb_errno b) (world e))
    | Stop r => Stop r
    end).

(** The two loops over a wide string: measuring at most [p] bytes, writing
    them.  The first gives [i] and the last result [l]. *)
Fixpoint measure_wide (p : Z) (ws : list Z) (i l : Z) : M (io X) (Z * Z) :=
  match ws with
  | c :: ws =>
      if i <? w32 p then
        '(l, _) ← wide c;
        if (0 <=? l) && (l <=? w32 (w32 p - i)) then measure_wide p ws (i + l) l else mret (i, l)
      else mret (i, l)
  | [] => mret (i, l)
  end.
Fixpoint write_wide (p : Z) (ws : list Z) (i : Z) : M (io X) unit :=
  match ws with
  | c :: ws =>
      if i <? w32 p then
        '(l, mb) ← wide c;
        if w32 (i + l) <=? w32 p then out (take (Z.to_nat l) mb);; write_wide p ws (i + l) else mret tt
      else mret tt
  | [] => mret tt
  end.

Definition convert_wide (w p fl : Z) (ws : list Z) : M (io X) (jump (option Z)) :=
  '(i, l) ← measure_wide p ws 0 0;
  if l <? 0 then mret (Go None) else
  if INT_MAX <? i then mret Overflow else
  pad 32 w i fl;;
  write_wide i ws 0;;
  pad 32 w i (Z.lxor fl LEFT_ADJ);;
  mret (Go (Some (if i <? w then w else i))).

(** The conversion character after "ls, lc -> S, C". *)
Definition upper_t (c : conversion F) : Z :=
  if negb (c_ps c =? 0) && (Z.land (c_t c) 15 =? 3) then Z.land (c_t c) (Z.lnot 32) else c_t c.

Definition null_text : list Z := bytes_of "(null)".

(** The body of the [switch] but for [n]; [Go None] returns -1. *)
Definition convert (cnt : Z) (c : conversion F) : M (io X) (jump (option Z)) :=
  let t := upper_t c in
  let fl := if has (c_fl c) LEFT_ADJ then clear_pad (c_fl c) else c_fl c in
  if t =? 109 then
    e ← gets (fun s => errno (sys s));
    convert_string cnt c fl (strerror e)
  else match c_arg c with
  | Some (ArgI i) =>
      if t =? 99 then finish cnt (c_w c) 1 0 (clear_pad fl) prefix [w8 i]
      else if t =? 67 then
        convert_wide (c_w c) (-1) fl (if s32 i =? 0 then [] else [s32 i])
      else convert_integer cnt c fl i
  | Some (ArgP p) =>
      if t =? 115 then
        if addr p =? 0 then convert_string cnt c fl null_text
        else match target p with Chars s => convert_string cnt c fl s | _ => mret Undef end
      else match target p with
        | Wchars ws => if addr p =? 0 then mret Undef else convert_wide (c_w c) (c_p c) fl ws
        | _ => mret Undef
        end
  | Some (ArgF y) =>
      if c_xp c && (c_p c <? 0) then mret Overflow else
      l ← fmt_fp y (c_w c) (c_p c) fl t;
      mret (if l <? 0 then Overflow else Go (Some l))
  | None => mret Undef
  end.

(** [%n]: the bytes stored at the pointer. *)
Definition store_count (cnt : Z) (c : conversion F) : jump (list (Z * list Z)) :=
  match c_arg c with
  | Some (ArgP p) =>
      let ps := c_ps c in
      if ps =? BIGLPRE then Go []
      else if addr p =? 0 then Undef
      else Go [(addr p, lb (if (ps =? LLPRE) || (ps =? JPRE) then 8 else if ps =? HPRE then 2 else if ps =? HHPRE then 1 else 4) cnt)]
  | _ => Undef
  end.

(** ** [printf_core] *)

(** The length of the text up to a percent sign, and the number of pairs of
    percent signs at [s]. *)
Fixpoint literal (s : list Z) : nat :=
  match s with
  | c :: s => if c =? percent then O else S (literal s)
  | [] => O
  end.
Fixpoint pairs (s : list Z) : nat :=
  match s with
  | a :: b :: s => if (a =? percent) && (b =? percent) then S (pairs s) else O
  | _ => O
  end.

Definition error (e : Z) : M (io X) Z := below (set_errno e);; mret (-1).

(** After the format: the first pass takes the arguments that have positions. *)
Fixpoint pop_types (n : nat) (i : Z) (v : vars F) : jump (Z * vars F) :=
  match n with
  | O => Go (i, v)
  | S n =>
      match nl_type v !! i with
      | Some t =>
          '(a, rest) ← pop_arg t (ap v);
          pop_types n (i + 1) (Vars rest (l10n v) (<[i := a]> (nl_arg v)) (nl_type v))
      | None => Go (i, v)
      end
  end.

Definition core_end (f : bool) (v : vars F) (cnt : Z) : M (io X) (Z * vars F) :=
  if f then mret (cnt, v)
  else if negb (l10n v) then mret (0, v)
  else
    match pop_types 9 1 v with
    | Go (i, v) =>
        if existsb (fun k => bool_decide (is_Some (nl_type v !! k))) (seqZ i (NL_ARGMAX + 1 - i))
        then r ← error EINVAL; mret (r, v) else mret (1, v)
    | _ => halt Undefined
    end.

(** Result: the value returned, the variables, and the bytes that [%n] stores.
    A round passes at least one character of the format. *)
Fixpoint printf_core (fuel : nat) (f : bool) (s : list Z) (v : vars F) (cnt l : Z) (log : list (Z * list Z)) :
    M (io X) (Z * vars F * list (Z * list Z)) :=
  match fuel with
  | O => halt OutOfFuel
  | S fuel =>
      if INT_MAX - cnt <? l then r ← error EOVERFLOW; mret (r, v, log) else
      let cnt := cnt + l in
      match s with
      | [] => '(r, v) ← core_end f v cnt; mret (r, v, log)
      | _ =>
          let a := literal s in
          let k := pairs (drop a s) in
          let l := Z.of_nat (a + k) in
          if INT_MAX - cnt <? l then r ← error EOVERFLOW; mret (r, v, log) else
          when f (out (take (a + k) s));;
          if negb (l =? 0) then printf_core fuel f (drop (a + 2 * k) s) v cnt l log else
          match parse f s v with
          | Inval => r ← error EINVAL; mret (r, v, log)
          | Overflow => r ← error EOVERFLOW; mret (r, v, log)
          | Undef => halt Undefined
          | Go (None, _, v) => mret (0, v, log)
          | Go (Some c, s, v) =>
              if negb f then printf_core fuel f s v cnt l log
              else if c_t c =? 110 then
                match store_count cnt c with
                | Go b => printf_core fuel f s v cnt l (log ++ b)
                | _ => halt Undefined
                end
              else
                r ← convert cnt c;
                match r with
                | Go (Some l) => printf_core fuel f s v cnt l log
                | Go None => mret (-1, v, log)
                | Overflow => r ← error EOVERFLOW; mret (r, v, log)
                | _ => halt Undefined
                end
          end
      end
  end.

Variable tid : Z.

(** The second pass on a stream that can be written, without a buffer on the
    internal one (its address, and the bytes from [UNGET] in front of it).  Result: the value and what [%n]
    stores. *)
Definition vfprintf (internal_buf : Z * list Z) (fmt : list Z) (args : list (argument F)) : M (io X) (Z * list (Z * list Z)) :=
  let fuel := S (S (length fmt)) in
  '(r, v, _) ← printf_core fuel false fmt (Vars args false ∅ ∅) 0 0 [];
  if r <? 0 then mret (-1, []) else
  with_lock tid
    (f0 ← gets file;
     let olderr := Z.land (flags f0) F_ERR in
     when (mode f0 <? 1) (clear_flag F_ERR);;
     let saved := buf_size f0 =? 0 in
     when saved (update (fun f => set_w 0 0 0 (set_buf (fst internal_buf) 80 (snd internal_buf) f)));;
     ready ← ready_to_write;
     '(ret, log) ← (if negb ready then mret (-1, []) else
       '(r, _, log) ← printf_core fuel true fmt (Vars (ap v) false (nl_arg v) (nl_type v)) 0 0 []; mret (r, log));
     ret ← (if saved then
       f_write [];;
       f ← gets file;
       update (fun f => set_w 0 0 0 (set_buf (buf f0) 0 (bytes f0) f));;
       mret (if wpos f =? 0 then -1 else ret)
     else mret ret);
     f ← gets file;
     set_flag olderr;;
     mret (if has (flags f) F_ERR then -1 else ret, log)).

(** The list of arguments after the format is what [va_start] gives; the stream
    of [vprintf] and [printf] is [stdout]. *)
Definition fprintf := vfprintf.
Definition vprintf := vfprintf.
Definition printf := vfprintf.
End Output.

(** ** Descriptors ([vdprintf.c]) *)
Section Descriptors.
Context {W : Type} `{WasiFd W, WasiFile W} {F : Type}.
Variable fmt_fp : F -> Z -> Z -> Z -> Z -> M (io W) Z.
Variable strerror : Z -> list Z.
Variable mb_cur_max : Z.
Variable tid : Z.

(** The buffer is the format, and has size 0: its address, and the bytes from
    [UNGET] in front of it. *)
Definition dprintf_FILE (fd : Z) (fmt_buf : Z * list Z) : FILE :=
  File 0 0 0 0 0 0 Stdio_write (fst fmt_buf) 0 (snd fmt_buf) fd 0 (-1) EOF.

Definition vdprintf (fmt_buf internal_buf : Z * list Z) (fd : Z) (fmt : list Z) (args : list (argument F)) :
    M (env W) (Z * list (Z * list Z)) :=
  fun e =>
  match vfprintf fmt_fp strerror mb_cur_max tid internal_buf fmt args (Io (dprintf_FILE fd fmt_buf) e) with
  | Ret (r, st) => Ret (r, sys st)
  | Stop r => Stop r
  end.

Definition dprintf := vdprintf.
End Descriptors.

(** ** Strings ([vsnprintf.c])

    The caller's buffer, the place and the room that are left in it. *)
Record cookie_ := SnCookie { sn_mem : list Z; sn_s : Z; sn_n : Z }.

Definition sn_copy (l : list Z) : M (io cookie_) unit :=
  c ← gets (fun s => world (sys s));
  let k := Z.min (sn_n c) (Z.of_nat (length l)) in
  if k =? 0 then mret tt
  else if Z.of_nat (length (sn_mem c)) <? sn_s c + k then halt Undefined
  else below (fun e => Ret (tt, Env (errno e)
    (SnCookie (take (Z.to_nat (sn_s c)) (sn_mem c) ++ take (Z.to_nat k) l ++ drop (Z.to_nat (sn_s c + k)) (sn_mem c))
      (sn_s c + k) (sn_n c - k)))).

Definition sn_end : M (io cookie_) unit :=
  c ← gets (fun s => world (sys s));
  if Z.of_nat (length (sn_mem c)) <=? sn_s c then halt Undefined
  else below (fun e => Ret (tt, Env (errno e) (SnCookie (<[Z.to_nat (sn_s c) := 0]> (sn_mem c)) (sn_s c) (sn_n c)))).

Definition sn_write (s : list Z) : M (io cookie_) Z :=
  f ← gets file;
  pending ← load (wbase f) (wpos f - wbase f);
  sn_copy pending;;
  sn_copy s;;
  sn_end;;
  update (fun f => set_w (wend f) (buf f) (buf f) f);;
  mret (Z.of_nat (length s)).

#[export] Instance string_device : Device cookie_ := {|
  f_read _ := halt Trapped;
  f_write := sn_write;
  f_seek _ _ := halt Trapped;
  f_close := halt Trapped |}.

Section Strings.
Context {F : Type}.
Variable fmt_fp : F -> Z -> Z -> Z -> Z -> M (io cookie_) Z.
Variable strerror : Z -> list Z.
Variable mb_cur_max : Z.
Variable tid : Z.
(** The automatic objects [buf] of [vsnprintf] and [internal_buf] of
    [vfprintf]: their addresses, and the bytes from [UNGET] in front of them. *)
Variables stack_buf internal_buf : Z * list Z.

Definition string_FILE : FILE :=
  File 0 0 0 0 0 0 Stdio_write (fst stack_buf) 0 (snd stack_buf) 0 0 (-1) EOF.

(** The caller's [n] bytes, before and after; the value returned, and what [%n]
    stores.  Without room the terminator goes to a local byte. *)
Definition vsnprintf (s : list Z) (n : Z) (fmt : list Z) (args : list (argument F)) :
    M Z (Z * list (Z * list Z) * list Z) :=
  if INT_MAX <? n then put EOVERFLOW;; mret (-1, [], s) else
  fun err =>
  let mem := if n =? 0 then [0] else s in
  if (length mem =? 0)%nat then Stop Undefined else
  let c := SnCookie (<[O := 0]> mem) 0 (if n =? 0 then 0 else n - 1) in
  match vfprintf fmt_fp strerror mb_cur_max tid internal_buf fmt args (Io string_FILE (Env err c)) with
  | Ret (r, log, st) => Ret (r, log, if n =? 0 then s else sn_mem (world (sys st)), errno (sys st))
  | Stop e => Stop e
  end.

(** The caller promises that everything fits. *)
Definition vsprintf (s : list Z) (fmt : list Z) (args : list (argument F)) : M Z (Z * list (Z * list Z) * list Z) :=
  vsnprintf s INT_MAX fmt args.

Definition snprintf := vsnprintf.
Definition sprintf := vsprintf.

(** [vasprintf.c]; [malloc] gives the bytes of a new block. *)
Definition vasprintf (malloc : Z -> option (list Z)) (fmt : list Z) (args : list (argument F)) :
    M Z (Z * list (Z * list Z) * option (list Z)) :=
  '(l, log, _) ← vsnprintf [] 0 fmt args;
  if l <? 0 then mret (-1, log, None) else
  match malloc (w32 (l + 1)) with
  | None => mret (-1, log, None)
  | Some b => '(r, log', s) ← vsnprintf b (w32 (l + 1)) fmt args; mret (r, log ++ log', Some s)
  end.

Definition asprintf := vasprintf.
End Strings.
