(* ===== verification/PrintfProofs.v ===== *)
(** Formatted output against the C standard: [formats] says, rule by rule, what a
    format and its arguments print ([render] for one conversion), and the
    functions of [Printf] print that on any stream that takes text ([Sink]). *)
From S2P Require Import Prelude.
From S2P Require Import Wasi.
From S2P Require Import Utf8.
From S2P Require Import Stdio.
From S2P Require Import StdioProofs.
From S2P Require Import Printf.

(** ** What a conversion prints *)

Definition digit_char (upper : bool) (d : Z) : Z := if d <? 10 then 48 + d else (if upper then 55 else 87) + d.

(** The digits of [n] in base [b], most significant first; none for 0. *)
Fixpoint numeral (fuel : nat) (b : Z) (upper : bool) (n : Z) : list Z :=
  match fuel with
  | O => []
  | S fuel => if n =? 0 then [] else numeral fuel b upper (n / b) ++ [digit_char upper (n mod b)]
  end.

(** A width or a precision: digits in the format, or an argument. *)
Inductive field :=
  | Fixed (ds : list Z)
  | FromArg (n : Z).

Record directive (F : Type) := Directive {
  d_flags : list Z; d_width : option field; d_prec : option field; d_len : list Z; d_conv : Z; d_arg : argument F }.
Arguments Directive {F} _ _ _ _ _ _.
Arguments d_flags {F} _.
Arguments d_width {F} _.
Arguments d_prec {F} _.
Arguments d_len {F} _.
Arguments d_conv {F} _.
Arguments d_arg {F} _.

Definition dec (ds : list Z) : Z := fold_left (fun i c => 10 * i + (c - 48)) ds 0.

Definition show_field (w : field) : list Z := match w with Fixed ds => ds | FromArg _ => [star] end.
Definition field_value (w : field) : Z := match w with Fixed ds => dec ds | FromArg n => n end.

Section Spec.
Context {F : Type}.
Implicit Types d : directive F.

Definition field_args (w : field) : list (argument F) := match w with Fixed _ => [] | FromArg n => [Int n] end.

Definition show d : list Z :=
  percent :: d_flags d ++ from_option show_field [] (d_width d) ++
  match d_prec d with Some w => dot :: show_field w | None => [] end ++ d_len d ++ [d_conv d].

Definition args_of d : list (argument F) :=
  from_option field_args [] (d_width d) ++ from_option field_args [] (d_prec d) ++ [d_arg d].

Definition flag d (c : Z) : bool := bool_decide (c ∈ d_flags d).
Definition width_of d : Z := from_option (fun w => Z.abs (field_value w)) 0 (d_width d).
Definition left_of d : bool := flag d 45 || from_option (fun w => field_value w <? 0) false (d_width d).
(** A negative precision is none. *)
Definition prec_of d : option Z := w ← d_prec d; let p := field_value w in if 0 <=? p then Some p else None.

Definition chars (n c : Z) : list Z := replicate (Z.to_nat n) c.

(** [sign] and [body] in a field. *)
Definition layout d (zero : bool) (sign body : list Z) : list Z :=
  let room := width_of d - zlen (sign ++ body) in
  if left_of d then sign ++ body ++ chars room 32
  else if zero then sign ++ chars room 48 ++ body
  else chars room 32 ++ sign ++ body.

(** At least [m] digits; one more than necessary for [%#o]. *)
Definition integer_body d (a : list Z) : list Z :=
  let m := default 1 (prec_of d) in
  let m := if (d_conv d =? 111) && flag d 35 then Z.max m (zlen a + 1) else m in
  chars (m - zlen a) 48 ++ a.

Definition render_integer d (sign a : list Z) : list Z :=
  layout d (flag d 48 && bool_decide (prec_of d = None)) sign (integer_body d a).

Definition signed_text d (v : Z) : list Z :=
  render_integer d (if v <? 0 then [45] else if flag d 43 then [43] else if flag d 32 then [32] else [])
    (numeral 64 10 false (Z.abs v)).
Definition unsigned_text d (v : Z) : list Z :=
  if d_conv d =? 111 then render_integer d [] (numeral 64 8 false v)
  else if d_conv d =? 117 then render_integer d [] (numeral 64 10 false v)
  else render_integer d (if flag d 35 && negb (v =? 0) then [48; d_conv d] else []) (numeral 64 16 (d_conv d =? 88) v).

(** The value of an argument under a length modifier. *)
Definition int_value (len : list Z) (signed : bool) (a : argument F) : option Z :=
  match a with
  | Int z =>
      if bool_decide (len = []) || bool_decide (len ∈ [bytes_of "l"; bytes_of "z"; bytes_of "t"]) then Some (if signed then s32 z else w32 z)
      else if bool_decide (len = bytes_of "h") then Some (if signed then s16 z else w16 z)
      else if bool_decide (len = bytes_of "hh") then Some (if signed then s8 z else w8 z)
      else None
  | LongLong z => if bool_decide (len ∈ [bytes_of "ll"; bytes_of "j"]) then Some (if signed then s64 z else w64 z) else None
  | _ => None
  end.

(** [d], [i], [u], [o], [x], [X], [c] and [s]. *)
Definition render d : option (list Z) :=
  if (d_conv d =? 100) || (d_conv d =? 105) then signed_text d <$> int_value (d_len d) true (d_arg d)
  else if (d_conv d =? 117) || (d_conv d =? 111) || (d_conv d =? 120) || (d_conv d =? 88) then
    unsigned_text d <$> int_value (d_len d) false (d_arg d)
  else if (d_conv d =? 99) && bool_decide (d_len d = []) then
    match d_arg d with Int z => Some (layout d false [] [w8 z]) | _ => None end
  else if (d_conv d =? 115) && bool_decide (d_len d = []) then
    match d_arg d with
    | Pointer (Ptr a (Chars s)) =>
        if a =? 0 then None else Some (layout d false [] (take (from_option Z.to_nat (length s) (prec_of d)) s))
    | _ => None
    end
  else None.

(** Fields that can be written, and arguments in range. *)
Definition digit_list (ds : list Z) : Prop := Forall (fun c => 48 <= c < 58) ds /\ dec ds <= INT_MAX.
Record wellformed d : Prop := {
  wf_flags : Forall (fun c => c ∈ bytes_of "#0- +'") (d_flags d);
  wf_width : match d_width d with
             | Some (Fixed ds) => digit_list ds /\ from_option (fun c => c <> 48) False (head ds)
             | Some (FromArg n) => - 2 ^ 31 < n < 2 ^ 31
             | None => True
             end;
  wf_prec : match d_prec d with
            | Some (Fixed ds) => digit_list ds
            | Some (FromArg n) => - 2 ^ 31 <= n < 2 ^ 31
            | None => True
            end;
  wf_chars : match d_arg d with Pointer (Ptr _ (Chars s)) => c_string s | _ => True end }.

(** A format, its arguments, and what they print. *)
Inductive formats : list Z -> list (argument F) -> list Z -> Prop :=
  | formats_end args : formats [] args []
  | formats_char c s args o : c <> percent -> 0 < c < 256 -> formats s args o -> formats (c :: s) args (c :: o)
  | formats_percent s args o : formats s args o -> formats (percent :: percent :: s) args (percent :: o)
  | formats_conv d s args t o : wellformed d -> render d = Some t -> formats s args o ->
      formats (show d ++ s) (args_of d ++ args) (t ++ o).
End Spec.

(** ** Digits *)

Lemma numeral_fuel b upper n : 1 < b -> forall k k', 0 <= n < b ^ Z.of_nat k -> 0 <= n < b ^ Z.of_nat k' ->
  numeral k b upper n = numeral k' b upper n.
Proof.
  intros Hb k. revert n. induction k as [|k IH]; intros n k' Hk Hk'.
  - assert (n = 0) as -> by (simpl in Hk; lia). by destruct k'.
  - destruct k' as [|k']; [assert (n = 0) as -> by (simpl in Hk'; lia); done|]. cbn [numeral]. destruct (n =? 0); [done|].
    f_equal. rewrite !Nat2Z.inj_succ, !Z.pow_succ_r in * by lia.
    apply IH; (split; [apply Z.div_pos; lia|apply Z.div_lt_upper_bound; lia]).
Qed.

Lemma hex_digit x lower : 0 <= x < 16 -> lower = 0 \/ lower = 32 ->
  Z.lor (at_ (bytes_of "0123456789ABCDEF") (Z.to_nat x)) lower = digit_char (lower =? 0) x.
Proof.
  intros Hx Hl. pose proof (forall_below (fun x => (Z.lor (at_ (bytes_of "0123456789ABCDEF") (Z.to_nat x)) 0 =? digit_char true x) &&
    (Z.lor (at_ (bytes_of "0123456789ABCDEF") (Z.to_nat x)) 32 =? digit_char false x)) 0 16 ltac:(by vm_compute) x ltac:(lia)) as He.
  apply andb_true_iff in He as [H1%Z.eqb_eq H2%Z.eqb_eq]. by destruct Hl as [-> | ->].
Qed.

Lemma fmt_x_spec lower : lower = 0 \/ lower = 32 -> forall fuel x s, 0 <= x ->
  fmt_x fuel x s lower = numeral fuel 16 (lower =? 0) x ++ s.
Proof.
  intros Hl fuel. induction fuel as [|fuel IH]; intros x s Hx; cbn [fmt_x numeral]; [done|].
  destruct (x =? 0); [done|]. rewrite Z.shiftr_div_pow2, IH by (done || apply Z.div_pos; lia).
  change 15 with (Z.ones 4). rewrite Z.land_ones, hex_digit by (done || apply Z.mod_pos_bound; lia).
  by rewrite <- app_assoc.
Qed.

Lemma fmt_o_spec fuel : forall x s, 0 <= x -> fmt_o fuel x s = numeral fuel 8 false x ++ s.
Proof.
  induction fuel as [|fuel IH]; intros x s Hx; cbn [fmt_o numeral]; [done|].
  destruct (x =? 0); [done|]. rewrite Z.shiftr_div_pow2, IH by (done || apply Z.div_pos; lia).
  change 7 with (Z.ones 3). rewrite Z.land_ones by done. rewrite <- app_assoc. unfold digit_char.
  pose proof (Z.mod_pos_bound x (2 ^ 3)). rewrite (proj2 (Z.ltb_lt (x mod 8) 10)) by (change 8 with (2 ^ 3); lia). done.
Qed.

Lemma fmt_u_long_spec fuel : forall x s, 0 <= x -> fmt_u_long fuel x s = numeral fuel 10 false x ++ s.
Proof.
  induction fuel as [|fuel IH]; intros x s Hx; cbn [fmt_u_long numeral]; [done|].
  destruct (x =? 0); [done|]. rewrite IH by (apply Z.div_pos; lia). rewrite <- app_assoc. unfold digit_char.
  pose proof (Z.mod_pos_bound x 10). by rewrite (proj2 (Z.ltb_lt (x mod 10) 10)) by lia.
Qed.

Lemma fmt_u_spec fuel : forall x s, 0 <= x -> fmt_u fuel x s = numeral fuel 10 false x ++ s.
Proof.
  induction fuel as [|fuel IH]; intros x s Hx; [done|]. cbn [fmt_u]. destruct (Z.ltb_spec ULONG_MAX x) as [Hbig|Hsmall].
  - rewrite IH by (apply Z.div_pos; lia). cbn [numeral]. unfold ULONG_MAX in Hbig.
    rewrite (proj2 (Z.eqb_neq x 0)), <- app_assoc by lia. unfold digit_char.
    pose proof (Z.mod_pos_bound x 10). by rewrite (proj2 (Z.ltb_lt (x mod 10) 10)) by lia.
  - unfold ULONG_MAX in Hsmall. by rewrite w32_small, fmt_u_long_spec by lia.
Qed.

(** ** Flags *)

(** The flag of a character: bit [c - 32]. *)
Lemma flag_char c : 0 <= c < 256 ->
  ((w32 (c - 32) <? 32) && has FLAGMASK (Z.shiftl 1 (c - 32))) = bool_decide (c ∈ bytes_of "#0- +'").
Proof.
  intros Hc. apply eqb_prop.
  exact (forall_below (fun c => eqb ((w32 (c - 32) <? 32) && has FLAGMASK (Z.shiftl 1 (c - 32))) (bool_decide (c ∈ bytes_of "#0- +'")))
    0 256 ltac:(by vm_compute) c ltac:(lia)).
Qed.

Lemma read_flags_spec fs : Forall (fun c => c ∈ bytes_of "#0- +'") fs -> forall s fl, 0 <= at_ s 0 < 256 -> at_ s 0 ∉ bytes_of "#0- +'" ->
  exists fl', read_flags (fs ++ s) fl = (fl', s) /\
    forall k, 0 <= k -> Z.testbit fl' k = Z.testbit fl k || bool_decide (k + 32 ∈ fs).
Proof.
  induction 1 as [|c fs Hc _ IH]; intros s fl Hr Hs; cbn [app read_flags].
  - exists fl. split; [|intros k _; by rewrite orb_false_r]. destruct s as [|c s]; [done|]. cbn [read_flags].
    change (at_ (c :: s) 0) with c in *. by rewrite flag_char, bool_decide_eq_false_2.
  - assert (Hcr : 32 <= c < 64).
    { revert c Hc. apply Forall_forall. vm_compute. repeat constructor; done. }
    rewrite flag_char, bool_decide_eq_true_2 by (done || lia).
    destruct (IH s (Z.lor fl (Z.shiftl 1 (c - 32))) Hr Hs) as (fl' & Hrun & Hb). exists fl'. split; [done|].
    intros k Hk. rewrite Hb, Z.lor_spec, <- orb_assoc by done. f_equal. rewrite Z.shiftl_1_l, Z.pow2_bits_eqb by lia.
    destruct (Z.eqb_spec (c - 32) k) as [He|Hne]; cbn [orb].
    + symmetry. apply bool_decide_eq_true. replace (k + 32) with c by lia. apply elem_of_cons. by left.
    + apply bool_decide_ext. rewrite elem_of_cons. split; [by right|]. intros [?|?]; [lia|done].
Qed.

(** ** Parsing a conversion *)

Lemma fold_dec_le ds : Forall (fun c => 48 <= c < 58) ds -> forall i, 0 <= i -> i <= fold_left (fun i c => 10 * i + (c - 48)) ds i.
Proof. induction 1 as [|c ds Hc _ IH]; intros i Hi; cbn [fold_left]; [lia|]. specialize (IH (10 * i + (c - 48))). lia. Qed.

Lemma isdigit_spec c : 0 <= c < 256 -> isdigit c = (48 <=? c) && (c <? 58).
Proof.
  intros Hc. apply eqb_prop.
  exact (forall_below (fun c => eqb (isdigit c) ((48 <=? c) && (c <? 58))) 0 256 ltac:(by vm_compute) c ltac:(lia)).
Qed.

Lemma getint_spec ds : Forall (fun c => 48 <= c < 58) ds -> forall s i, 0 <= i ->
  fold_left (fun i c => 10 * i + (c - 48)) ds i <= INT_MAX -> isdigit (at_ s 0) = false ->
  getint (ds ++ s) i = (fold_left (fun i c => 10 * i + (c - 48)) ds i, s).
Proof.
  induction 1 as [|c ds Hc Hds IH]; intros s i Hi Hle Hs; cbn [app getint fold_left] in *.
  - destruct s as [|c s]; [done|]. cbn [getint]. change (at_ (c :: s) 0) with c in Hs. by rewrite Hs.
  - pose proof (fold_dec_le ds Hds (10 * i + (c - 48))) as Hmono. unfold INT_MAX in *.
    rewrite isdigit_spec by lia. rewrite (proj2 (Z.leb_le 48 c)), (proj2 (Z.ltb_lt c 58)) by lia. cbn [andb].
    rewrite w32_small by lia. change ((2 ^ 31 - 1) / 10) with 214748364.
    rewrite (proj2 (Z.ltb_ge 214748364 i)), (proj2 (Z.ltb_ge _ (c - 48))) by lia. cbn [orb]. apply IH; (done || lia).
Qed.

(** A character that ends a field: a dot or a letter. *)
Definition ends_field (c : Z) : Prop := c = dot \/ 65 <= c <= 122.

Lemma ends_field_digit c : ends_field c -> isdigit c = false.
Proof. intros [->|Hc]; [done|]. rewrite isdigit_spec by lia. rewrite (proj2 (Z.ltb_ge c 58)) by lia. apply andb_false_r. Qed.

Section Parsing.
Context {F : Type}.
Implicit Types d : directive F.

(** The variables while no argument has a position. *)
Definition in_order (l : list (argument F)) : vars F := Vars l false ∅ ∅.

Lemma next_int_spec n l : - 2 ^ 31 <= n < 2 ^ 31 -> next_int true (in_order (Int n :: l)) = Go (n, in_order l).
Proof.
  intros Hn. transitivity (Go (s32 (w64 (s32 n)), in_order l)); [done|]. do 2 f_equal.
  assert (Hs : s32 (w64 (s32 n)) = n).
  { rewrite (s32_small n) by done. unfold w64, s32. destruct (Z.lt_ge_cases n 0).
    - rewrite <- (Z.mod_unique n (2 ^ 64) (-1) (n + 2 ^ 64)) by lia.
      rewrite <- (Z.mod_unique (n + 2 ^ 64 + 2 ^ 31) (2 ^ 32) (2 ^ 32) (n + 2 ^ 31)) by lia. lia.
    - rewrite (Z.mod_small n) by lia. rewrite Z.mod_small by lia. lia. }
  done.
Qed.

Lemma position_none s : isdigit (at_ s 0) = false \/ at_ s 1 <> dollar -> position s = None.
Proof.
  unfold position. intros [->|Hd]; [done|]. rewrite (proj2 (Z.eqb_neq _ dollar)) by done. by rewrite andb_false_r.
Qed.

Lemma at_1 (c : Z) s : at_ (c :: s) 1 = at_ s 0.
Proof. done. Qed.

(** The width. *)
Lemma read_width_spec d s l fl : wellformed d -> ends_field (at_ s 0) ->
  exists fl', read_width true (from_option show_field [] (d_width d) ++ s) (in_order (from_option field_args [] (d_width d) ++ l)) fl =
    Go (width_of d, fl', s, in_order l) /\
    fl' = if from_option (fun w => field_value w <? 0) false (d_width d) then Z.lor fl LEFT_ADJ else fl.
Proof.
  intros [_ Hw _ _] Hs. pose proof (ends_field_digit _ Hs) as Hd. unfold width_of.
  assert (Hns : (at_ s 0 =? star) = false) by (apply Z.eqb_neq; unfold star; destruct Hs as [->|?]; [done|lia]).
  unfold read_width. destruct (d_width d) as [[ds|n]|]; cbn [from_option show_field field_args field_value app] in *.
  - destruct Hw as [[Hds Hle] Hh]. destruct ds as [|c ds]; [done|].
    assert (Hc : 48 <= c < 58) by by apply Forall_inv in Hds. pose proof (fold_dec_le _ Hds 0) as H0.
    change (at_ ((c :: ds) ++ s) 0) with c. rewrite (proj2 (Z.eqb_neq c star)) by (unfold star; lia).
    rewrite getint_spec by done. fold (dec (c :: ds)). change (fold_left _ _ 0) with (dec (c :: ds)) in H0.
    rewrite (proj2 (Z.ltb_ge _ 0)), Z.abs_eq by lia. by eexists.
  - change (at_ (star :: s) 0 =? star) with true. cbn [drop]. rewrite position_none by by left.
    cbn [in_order l10n negb]. rewrite next_int_spec by lia. cbn.
    destruct (Z.ltb_spec n 0).
    + rewrite (proj2 (Z.eqb_neq n INT_MIN)) by (unfold INT_MIN; lia). rewrite Z.abs_neq by lia. by eexists.
    + rewrite Z.abs_eq by lia. by eexists.
  - rewrite Hns. pose proof (getint_spec [] (Forall_nil_2 _) s 0) as Hg. cbn [app fold_left] in Hg.
    rewrite Hg by (done || unfold INT_MAX; lia). by eexists.
Qed.

(** The precision. *)
Lemma read_precision_spec d s l : wellformed d -> 65 <= at_ s 0 <= 122 ->
  exists p xp, read_precision true (match d_prec d with Some w => dot :: show_field w | None => [] end ++ s)
      (in_order (from_option field_args [] (d_prec d) ++ l)) = Go (p, xp, s, in_order l) /\
    prec_of d = (if 0 <=? p then Some p else None) /\ xp = bool_decide (is_Some (prec_of d)) /\ - 2 ^ 31 <= p < 2 ^ 31.
Proof.
  intros [_ _ Hp _] Hs. assert (He : ends_field (at_ s 0)) by by right. pose proof (ends_field_digit _ He) as Hd.
  unfold read_precision, prec_of. destruct (d_prec d) as [[ds|n]|]; cbn [from_option show_field field_args field_value app mbind option_bind] in *.
  - destruct Hp as [Hds Hle]. pose proof (fold_dec_le _ Hds 0) as H0. change (fold_left _ _ 0) with (dec ds) in H0.
    change (at_ (dot :: ds ++ s) 0 =? dot) with true. cbn [andb].
    assert (Hst : at_ (dot :: ds ++ s) 1 =? star = false).
    { rewrite at_1. apply Z.eqb_neq. unfold star. destruct ds as [|c ds]; [simpl; lia|]. change (at_ ((c :: ds) ++ s) 0) with c.
      apply Forall_inv in Hds. lia. }
    rewrite Hst. change (drop 1 (dot :: ds ++ s)) with (ds ++ s). rewrite getint_spec by done. fold (dec ds).
    exists (dec ds), true. split; [done|]. unfold INT_MAX in Hle. rewrite (proj2 (Z.leb_le 0 _)) by lia.
    split; [done|]. split; [by rewrite bool_decide_eq_true_2 by eauto|lia].
  - change (at_ (dot :: star :: s) 0 =? dot) with true. change (at_ (dot :: star :: s) 1 =? star) with true. cbn [andb drop].
    rewrite position_none by by left. cbn [in_order l10n negb]. rewrite next_int_spec by lia. cbn.
    exists n, (0 <=? n). split; [done|]. split; [done|]. split; [|lia].
    by destruct (0 <=? n); [rewrite bool_decide_eq_true_2 by eauto|rewrite bool_decide_eq_false_2 by (by intros [? ?])].
  - assert (Hdot : at_ s 0 =? dot = false) by (apply Z.eqb_neq; unfold dot; lia). rewrite Hdot. cbn [andb].
    exists (-1), false. split; [done|]. split; [done|]. split; [|lia]. by rewrite bool_decide_eq_false_2 by (by intros [? ?]).
Qed.

(** What the argument becomes, and the text that is due. *)
Inductive operand d : Z -> arg F -> list Z -> Prop :=
  | operand_signed ps v : (d_conv d = 100 \/ d_conv d = 105) -> - 2 ^ 63 <= v < 2 ^ 63 -> operand d ps (ArgI (w64 v)) (signed_text d v)
  | operand_unsigned ps v : d_conv d ∈ [117; 111; 120; 88] -> 0 <= v < 2 ^ 64 -> operand d ps (ArgI v) (unsigned_text d v)
  | operand_char i : d_conv d = 99 -> operand d 0 (ArgI i) (layout d false [] [w8 i])
  | operand_string a s : d_conv d = 115 -> a <> 0 -> c_string s ->
      operand d 0 (ArgP (Ptr a (Chars s))) (layout d false [] (take (from_option Z.to_nat (length s) (prec_of d)) s)).

(** The state machine on the characters of [d], and the argument it takes. *)
Definition specifies d (s : list Z) (l : list (argument F)) (t : list Z) : Prop :=
  65 <= at_ (d_len d ++ d_conv d :: s) 0 <= 122 /\
  exists ps st a, specifier BARE (d_len d ++ d_conv d :: s) = Go (ps, st, d_conv d, s) /\ st <> NOARG /\
    pop_arg st (d_arg d :: l) = Go (a, l) /\ operand d ps a t.

Lemma signed_range z : - 2 ^ 63 <= s32 z < 2 ^ 63 /\ - 2 ^ 63 <= s16 z < 2 ^ 63 /\ - 2 ^ 63 <= s8 z < 2 ^ 63 /\ - 2 ^ 63 <= s64 z < 2 ^ 63.
Proof.
  pose proof (s32_range z). unfold s16, s8, s64.
  pose proof (Z.mod_pos_bound (z + 2 ^ 15) (2 ^ 16)). pose proof (Z.mod_pos_bound (z + 128) 256).
  pose proof (Z.mod_pos_bound (z + 2 ^ 63) (2 ^ 64)). lia.
Qed.
Lemma unsigned_range z : 0 <= w32 z < 2 ^ 64 /\ 0 <= w16 z < 2 ^ 64 /\ 0 <= w8 z < 2 ^ 64 /\ 0 <= w64 z < 2 ^ 64.
Proof.
  pose proof (w32_range z). pose proof (w8_range z). pose proof (w64_range z).
  pose proof (Z.mod_pos_bound z (2 ^ 16)). unfold w16. lia.
Qed.

Lemma w64_s64 z : w64 (s64 z) = w64 z.
Proof.
  unfold w64, s64. rewrite Zminus_mod_idemp_l. f_equal. lia.
Qed.
Lemma w8_s8 z : w8 (w64 (s8 z)) = w8 z.
Proof.
  unfold w8, w64, s8. change 256 with (2 ^ 8). rewrite <- Znumtheory.Zmod_div_mod by (done || by exists (2 ^ 56)).
  rewrite Zminus_mod_idemp_l. f_equal. lia.
Qed.

(** Every length modifier that [int_value] knows. *)
Lemma int_value_cases len sg (x : argument F) v : int_value len sg x = Some v ->
  exists z, (x = Int z /\ ((len ∈ [[]; bytes_of "l"; bytes_of "z"; bytes_of "t"] /\ v = if sg then s32 z else w32 z) \/
     (len = bytes_of "h" /\ v = if sg then s16 z else w16 z) \/ (len = bytes_of "hh" /\ v = if sg then s8 z else w8 z))) \/
    (x = LongLong z /\ len ∈ [bytes_of "ll"; bytes_of "j"] /\ v = if sg then s64 z else w64 z).
Proof.
  unfold int_value. destruct x as [z|z| |]; intros Hv; try done; exists z; [left|right].
  - split; [done|]. destruct (bool_decide (len = [])) eqn:E1; cbn [orb] in Hv.
    { injection Hv as <-. apply bool_decide_eq_true in E1 as ->. left. split; [|done]. by apply elem_of_cons; left. }
    case_bool_decide as E2.
    { injection Hv as <-. left. split; [|done]. by apply elem_of_cons; right. }
    case_bool_decide as E3; [injection Hv as <-; right; by left|]. case_bool_decide as E4; [|done].
    injection Hv as <-. right. by right.
  - case_bool_decide as E1; [|done]. injection Hv as <-. done.
Qed.

Lemma specifies_integer d s l v : (d_conv d = 100 \/ d_conv d = 105) -> int_value (d_len d) true (d_arg d) = Some v -> specifies d s l (signed_text d v).
Proof.
  intros Hc Hv. pose proof (operand_signed d) as Hop.
  assert (Hgo : forall ps st a, specifier BARE (d_len d ++ d_conv d :: s) = Go (ps, st, d_conv d, s) -> st <> NOARG ->
    pop_arg st (d_arg d :: l) = Go (ArgI (w64 v), l) -> 65 <= at_ (d_len d ++ d_conv d :: s) 0 <= 122 -> - 2 ^ 63 <= v < 2 ^ 63 ->
    a = tt -> specifies d s l (signed_text d v)).
  { intros ps st _ H1 H2 H3 H4 H5 _. split; [done|]. exists ps, st, (ArgI (w64 v)). split_and!; auto. }
  destruct (int_value_cases _ _ _ _ Hv) as [z [(Hx & [[Hl ->]|[[Hl ->]|[Hl ->]]])|(Hx & Hl & ->)]]; rewrite Hx in *;
    destruct (signed_range z) as (? & ? & ? & ?); rewrite ?elem_of_cons, ?elem_of_nil in Hl;
    repeat match goal with H : _ \/ _ |- _ => destruct H as [H|H] end; try done; rewrite Hl, Hc in *;
    (eapply Hgo; [reflexivity|done|cbn; rewrite ?w64_s64; reflexivity|cbn; lia|done|done]).
Qed.

Lemma specifies_unsigned d s l v : d_conv d ∈ [117; 111; 120; 88] -> int_value (d_len d) false (d_arg d) = Some v -> specifies d s l (unsigned_text d v).
Proof.
  intros Hc Hv. pose proof (operand_unsigned d) as Hop.
  assert (Hgo : forall ps st, specifier BARE (d_len d ++ d_conv d :: s) = Go (ps, st, d_conv d, s) -> st <> NOARG ->
    pop_arg st (d_arg d :: l) = Go (ArgI v, l) -> 65 <= at_ (d_len d ++ d_conv d :: s) 0 <= 122 -> 0 <= v < 2 ^ 64 ->
    specifies d s l (unsigned_text d v)).
  { intros ps st H1 H2 H3 H4 H5. split; [done|]. exists ps, st, (ArgI v). split_and!; auto. }
  rewrite !elem_of_cons, elem_of_nil in Hc.
  destruct (int_value_cases _ _ _ _ Hv) as [z [(Hx & [[Hl ->]|[[Hl ->]|[Hl ->]]])|(Hx & Hl & ->)]]; rewrite Hx in *;
    destruct (unsigned_range z) as (? & ? & ? & ?); rewrite ?elem_of_cons, ?elem_of_nil in Hl;
    repeat match goal with H : _ \/ _ |- _ => destruct H as [H|H] end; try done; rewrite Hl, Hc in *;
    (eapply Hgo; [reflexivity|done|reflexivity|cbn; lia|done]).
Qed.

Lemma render_specifies d s l t : wellformed d -> render d = Some t -> specifies d s l t.
Proof.
  unfold render. intros Hd Ht.
  destruct ((d_conv d =? 100) || (d_conv d =? 105)) eqn:E1.
  { apply fmap_Some in Ht as (v & Hv & ->). apply specifies_integer; [|done]. apply orb_true_iff in E1. lia. }
  destruct (_ || _ || _ || _) eqn:E2.
  { apply fmap_Some in Ht as (v & Hv & ->). apply specifies_unsigned; [|done]. rewrite !elem_of_cons.
    rewrite !orb_true_iff, !Z.eqb_eq in E2. tauto. }
  clear E1 E2. destruct ((d_conv d =? 99) && bool_decide (d_len d = [])) eqn:E3.
  { apply andb_true_iff in E3 as [Hc%Z.eqb_eq Hl%bool_decide_eq_true]. destruct (d_arg d) as [z| | |] eqn:Ha; try done. injection Ht as <-.
    unfold specifies. rewrite Hl, Ha, Hc. cbn [app]. split; [cbn; lia|]. exists 0, CHAR, (ArgI (w64 (s8 z))).
    split; [reflexivity|]. split; [done|]. split; [reflexivity|]. rewrite <- w8_s8. by constructor. }
  destruct ((d_conv d =? 115) && bool_decide (d_len d = [])) eqn:E4; [|done].
  apply andb_true_iff in E4 as [Hc%Z.eqb_eq Hl%bool_decide_eq_true]. destruct (d_arg d) as [| | |[a [str| |]]] eqn:Ha; try done.
  destruct (Z.eqb_spec a 0); [done|]. injection Ht as <-.
  unfold specifies. rewrite Hl, Ha, Hc. cbn [app]. split; [cbn; lia|]. exists 0, PTR, (ArgP (Ptr a (Chars str))).
  split; [reflexivity|]. split; [done|]. split; [reflexivity|]. constructor; [done|done|]. pose proof (wf_chars _ Hd) as Hch. by rewrite Ha in Hch.
Qed.

(** What [parse] makes of [d]. *)
Definition parsed d (c : conversion F) (t : list Z) : Prop :=
  c_t c = d_conv d /\ c_w c = width_of d /\ prec_of d = (if 0 <=? c_p c then Some (c_p c) else None) /\
  c_xp c = bool_decide (is_Some (prec_of d)) /\ - 2 ^ 31 <= c_p c < 2 ^ 31 /\
  (forall k, 0 <= k -> Z.testbit (c_fl c) k = flag d (k + 32) || (from_option (fun w => field_value w <? 0) false (d_width d) && (k =? 13))) /\
  exists a, c_arg c = Some a /\ operand d (c_ps c) a t.

(** After the percent sign comes no percent sign and no position. *)
Lemma show_start d s l t : wellformed d -> specifies d s l t ->
  at_ (show d ++ s) 1 <> percent /\ position (drop 1 (show d ++ s)) = None.
Proof.
  intros [Hf Hw _ _] [Hl _]. unfold show. cbn [app drop]. rewrite <- !app_assoc. cbn [app]. rewrite at_1.
  set (tl := d_len d ++ d_conv d :: s) in *.
  assert (Hnd : forall c, c ∈ bytes_of "#0- +'" -> c <> percent /\ 32 <= c < 58 /\ c <> dollar).
  { apply Forall_forall. vm_compute. repeat constructor; done. }
  assert (Hpr : forall q, (match d_prec d with Some w => dot :: show_field w | None => [] end ++ tl) = q ->
    at_ q 0 <> percent /\ at_ q 0 <> dollar /\ isdigit (at_ q 0) = false).
  { intros q <-. destruct (d_prec d); cbn [app]; [done|]. rewrite ends_field_digit by by right. unfold percent, dollar. lia. }
  destruct (Hpr _ eq_refl) as (Hp1 & Hp2 & Hp3). set (q := match d_prec d with Some w => _ | None => _ end ++ tl) in *. clearbody q.
  assert (Hwd : forall u, from_option show_field [] (d_width d) ++ q = u -> at_ u 0 <> percent /\ at_ u 0 <> dollar /\
    (isdigit (at_ u 0) = false \/ at_ u 1 <> dollar)).
  { intros u <-. destruct (d_width d) as [[ds|n]|]; cbn [from_option show_field app]; [|by split_and!; [..|left]|by split_and!; [..|left]].
    destruct Hw as [[Hds _] Hh]. destruct ds as [|c [|c' ds]]; [done| |]; cbn [app]; rewrite at_1.
    - apply Forall_inv in Hds. change (at_ (c :: q) 0) with c. unfold percent, dollar in *. split_and!; [lia|lia|by right].
    - apply Forall_cons in Hds as [Hc [Hc' _]%Forall_cons]. change (at_ (c :: c' :: ds ++ q) 0) with c.
      change (at_ (c' :: ds ++ q) 0) with c'. unfold percent, dollar in *. split_and!; [lia|lia|right; lia]. }
  destruct (Hwd _ eq_refl) as (Hw1 & Hw2 & Hw3). set (u := from_option show_field [] (d_width d) ++ q) in *. clearbody u.
  destruct (d_flags d) as [|c [|c' fs]]; cbn [app].
  - split; [done|]. by apply position_none.
  - apply Forall_inv in Hf. destruct (Hnd c Hf) as (? & ? & ?). change (at_ (c :: u) 0) with c. split; [done|].
    apply position_none. right. exact Hw2.
  - apply Forall_cons in Hf as [Hc [Hc' _]%Forall_cons]. destruct (Hnd c Hc) as (? & ? & ?), (Hnd c' Hc') as (? & ? & ?).
    change (at_ (c :: c' :: fs ++ u) 0) with c. split; [done|]. apply position_none. by right.
Qed.

(** The first pass over the fields: arguments are left alone. *)
Lemma dry_width d s (l : list (argument F)) fl : wellformed d -> ends_field (at_ s 0) ->
  exists w fl', read_width false (from_option show_field [] (d_width d) ++ s) (in_order l) fl = Go (w, fl', s, in_order l).
Proof.
  intros Hd Hs. destruct (d_width d) as [[ds|n]|] eqn:Hw.
  - destruct (read_width_spec d s l fl Hd Hs) as (fl' & Hr & _). rewrite Hw in Hr. exists (width_of d), fl'.
    rewrite <- Hr. unfold read_width. pose proof (wf_width _ Hd) as Hwf. rewrite Hw in Hwf. destruct Hwf as [[Hds _] Hh].
    destruct ds as [|c ds]; [done|]. apply Forall_inv in Hds. cbn [from_option show_field app].
    change (at_ (c :: ds ++ s) 0) with c. by rewrite (proj2 (Z.eqb_neq c star)) by (unfold star; lia).
  - unfold read_width. cbn [from_option show_field app]. change (at_ (star :: s) 0 =? star) with true.
    rewrite position_none by (left; by apply ends_field_digit). by eexists _, _.
  - destruct (read_width_spec d s l fl Hd Hs) as (fl' & Hr & _). rewrite Hw in Hr. exists (width_of d), fl'.
    rewrite <- Hr. unfold read_width. cbn [from_option app].
    by rewrite (proj2 (Z.eqb_neq (at_ s 0) star)) by (unfold star, dot in *; destruct Hs as [->|?]; [done|lia]).
Qed.

Lemma dry_precision d s (l : list (argument F)) : wellformed d -> 65 <= at_ s 0 <= 122 ->
  exists p xp, read_precision false (match d_prec d with Some w => dot :: show_field w | None => [] end ++ s) (in_order l) =
    Go (p, xp, s, in_order l).
Proof.
  intros Hd Hs. destruct (read_precision_spec d s l Hd Hs) as (p & xp & Hr & _).
  destruct (d_prec d) as [[ds|n]|] eqn:Hp.
  - exists p, xp. rewrite <- Hr. unfold read_precision. cbn [show_field app from_option field_args].
    assert (Hst : at_ (dot :: ds ++ s) 1 =? star = false).
    { rewrite at_1. apply Z.eqb_neq. unfold star. pose proof (wf_prec _ Hd) as Hwf. rewrite Hp in Hwf. destruct Hwf as [Hds _].
      destruct ds as [|c ds]; [simpl; lia|]. change (at_ ((c :: ds) ++ s) 0) with c. apply Forall_inv in Hds. lia. }
    by rewrite Hst, andb_false_r.
  - unfold read_precision. cbn [show_field app]. change (at_ (dot :: star :: s) 0 =? dot) with true.
    change (at_ (dot :: star :: s) 1 =? star) with true. cbn [andb].
    rewrite position_none by (left; apply ends_field_digit; by right). by eexists _, _.
  - exists p, xp. rewrite <- Hr. unfold read_precision. cbn [app].
    by rewrite (proj2 (Z.eqb_neq (at_ s 0) dot)) by (unfold dot; lia).
Qed.

(** The characters that follow the flags. *)
Lemma after_flags d q : wellformed d -> 65 <= at_ q 0 <= 122 ->
  let u := match d_prec d with Some w => dot :: show_field w | None => [] end ++ q in
  ends_field (at_ u 0) /\ 0 <= at_ (from_option show_field [] (d_width d) ++ u) 0 < 256 /\
  at_ (from_option show_field [] (d_width d) ++ u) 0 ∉ bytes_of "#0- +'".
Proof.
  intros Hd Hq u. assert (Hu : ends_field (at_ u 0)) by (unfold u; destruct (d_prec d); [by left|by right]).
  assert (Hnot : forall c, 49 <= c <= 122 \/ c = star \/ c = dot -> c ∉ bytes_of "#0- +'").
  { intros c Hc Hin. assert (Hall : c ∈ [35; 48; 45; 32; 43; 39]) by done. rewrite !elem_of_cons, elem_of_nil in Hall.
    unfold star, dot in Hc. lia. }
  split; [done|]. pose proof (wf_width _ Hd) as Hwf. destruct (d_width d) as [[ds|n]|]; cbn [from_option show_field app].
  - destruct Hwf as [[Hds _] Hh]. destruct ds as [|c ds]; [done|]. apply Forall_inv in Hds. cbn in Hh. change (at_ ((c :: ds) ++ u) 0) with c.
    split; [lia|]. apply Hnot. lia.
  - change (at_ (star :: u) 0) with star. split; [done|]. apply Hnot. by right; left.
  - unfold dot in *. split; [destruct Hu as [->|?]; unfold dot; lia|]. apply Hnot. destruct Hu as [->|?]; [by right; right|left; lia].
Qed.

Lemma parse_spec d s l t : wellformed d -> specifies d s l t ->
  exists c, parse true (show d ++ s) (in_order (args_of d ++ l)) = Go (Some c, s, in_order l) /\ parsed d c t.
Proof.
  intros Hd Hsp. destruct (show_start d s l t Hd Hsp) as [_ Hpos]. destruct Hsp as [Hl (ps & st & a & Hspec & Hst & Hpop & Hop)].
  unfold parse, argument_position. rewrite Hpos. unfold show, args_of. cbn [app]. rewrite <- !app_assoc. cbn [app].
  set (q := d_len d ++ d_conv d :: s) in *. destruct (after_flags d q Hd Hl) as (Hu & Hr & Hn). cbv zeta in Hu, Hr, Hn.
  change (drop 1 (percent :: ?x)) with x.
  destruct (read_flags_spec _ (wf_flags _ Hd) _ 0 Hr Hn) as (fl & -> & Hfl).
  destruct (read_width_spec d _ (from_option field_args [] (d_prec d) ++ d_arg d :: l) fl Hd Hu) as (fl' & -> & Hfl').
  cbn [mbind jump_bind]. destruct (read_precision_spec d q (d_arg d :: l) Hd Hl) as (p & xp & -> & Hp & Hxp & Hrange).
  cbn [mbind jump_bind]. rewrite Hspec. cbn [mbind jump_bind]. rewrite (proj2 (Z.eqb_neq st NOARG)) by done.
  change (0 <=? -1) with false. cbn [in_order ap]. rewrite Hpop. cbn [mbind jump_bind].
  eexists. split; [reflexivity|]. split_and!; cbn [c_p]; try done; try lia; [|by exists a]. intros k Hk. cbn [c_fl]. rewrite Hfl'. unfold flag.
  destruct (from_option _ false (d_width d)).
  - rewrite Z.lor_spec, Hfl, Z.bits_0 by done. cbn [orb andb]. f_equal. change LEFT_ADJ with (2 ^ 13). rewrite Z.pow2_bits_eqb by done.
    apply Z.eqb_sym.
  - rewrite Hfl, Z.bits_0, orb_false_r by done. done.
Qed.

Lemma parse_dry d s l t (l' : list (argument F)) : wellformed d -> specifies d s l t ->
  exists s', parse false (show d ++ s) (in_order l') = Go (None, s', in_order l').
Proof.
  intros Hd Hsp. destruct (show_start d s l t Hd Hsp) as [_ Hpos]. destruct Hsp as [Hl (ps & st & a & Hspec & Hst & Hpop & Hop)].
  unfold parse, argument_position. rewrite Hpos. unfold show. cbn [app]. rewrite <- !app_assoc. cbn [app].
  set (q := d_len d ++ d_conv d :: s) in *. destruct (after_flags d q Hd Hl) as (Hu & Hr & Hn). cbv zeta in Hu, Hr, Hn.
  change (drop 1 (percent :: ?x)) with x.
  destruct (read_flags_spec _ (wf_flags _ Hd) _ 0 Hr Hn) as (fl & -> & Hfl).
  destruct (dry_width d _ l' fl Hd Hu) as (w & fl' & ->). cbn [mbind jump_bind].
  destruct (dry_precision d q l' Hd Hl) as (p & xp & ->). cbn [mbind jump_bind]. rewrite Hspec. cbn [mbind jump_bind].
  rewrite (proj2 (Z.eqb_neq st NOARG)) by done. change (0 <=? -1) with false. by eexists.
Qed.
End Parsing.

(** ** Streams that take text

    [sink s t]: [t] is what the stream [s] has been given.  Up to [cap] bytes it
    takes what [out] gives it. *)
Class Sink {X} `{Device X} (sink : io X -> list Z -> Prop) (cap : Z) :=
  sink_out : forall s t l, sink s t -> byte_list l -> zlen (t ++ l) <= cap ->
    exists s', out l s = Ret (tt, s') /\ sink s' (t ++ l).

Section Printing.
Context {X : Type} `{Sink X sink cap} {F : Type}.
Implicit Types d : directive F.

(** [m] returns [a] and prints [u]. *)
Definition prints {A} (m : M (io X) A) (a : A) (u : list Z) : Prop :=
  forall s t, sink s t -> zlen (t ++ u) <= cap -> exists s', m s = Ret (a, s') /\ sink s' (t ++ u).

Lemma prints_ret {A} (a : A) : prints (mret a) a [].
Proof. intros s t Hs _. exists s. by rewrite app_nil_r. Qed.

Lemma prints_bind {A B} (m : M (io X) A) (k : A -> M (io X) B) a b u w :
  prints m a u -> prints (k a) b w -> prints (m ≫= k) b (u ++ w).
Proof.
  intros Hm Hk s t Hs Hc. rewrite app_assoc in Hc. destruct (Hm s t Hs) as (s1 & Hr & Hs1); [rewrite !length_app in *; lia|].
  destruct (Hk s1 _ Hs1 Hc) as (s2 & Hr2 & Hs2). exists s2. rewrite (bind_Ret _ _ _ _ _ Hr). by rewrite app_assoc.
Qed.

Lemma prints_out l : byte_list l -> prints (out l) tt l.
Proof. intros Hl s t Hs Hc. by apply sink_out. Qed.

Lemma chars_bytes n c : 0 <= c < 256 -> byte_list (chars n c).
Proof. intros. by apply Forall_replicate. Qed.
Lemma zlen_chars n c : zlen (chars n c) = Z.max 0 n.
Proof. unfold chars. rewrite length_replicate. lia. Qed.
Lemma chars_none n c : n <= 0 -> chars n c = [].
Proof. intros. unfold chars. by replace (Z.to_nat n) with O by lia. Qed.

Lemma pad_loop_prints c fuel : 0 <= c < 256 -> forall l, 0 <= l < Z.of_nat fuel -> prints (pad_loop fuel c l) tt (chars l c).
Proof.
  intros Hc. induction fuel as [|fuel IH]; intros l Hl; [simpl in Hl; lia|]. cbn [pad_loop].
  destruct (Z.leb_spec 256 l) as [Hbig|Hsmall]; [|by apply prints_out, chars_bytes].
  replace (chars l c) with (replicate 256 c ++ chars (l - 256) c).
  - eapply prints_bind; [apply prints_out, Forall_replicate; lia|]. apply IH. lia.
  - unfold chars. rewrite <- replicate_add. f_equal. lia.
Qed.

Lemma pad_prints c w l fl : 0 <= c < 256 ->
  prints (pad c w l fl) tt (if Z.testbit fl 13 || Z.testbit fl 16 then [] else chars (w - l) c).
Proof.
  intros Hc. unfold pad. rewrite has_or. change LEFT_ADJ with (2 ^ 13). change ZERO_PAD with (2 ^ 16). rewrite !has_bit by done.
  destruct (Z.testbit fl 13 || Z.testbit fl 16); cbn [orb]; [apply prints_ret|].
  destruct (Z.leb_spec w l); [rewrite chars_none by lia; apply prints_ret|]. apply pad_loop_prints; lia.
Qed.

Lemma layout_bytes (d : directive F) zero sign body : byte_list sign -> byte_list body -> byte_list (layout d zero sign body).
Proof.
  intros. unfold layout. destruct (left_of d); [|destruct zero]; repeat apply Forall_app_2; try done; apply chars_bytes; lia.
Qed.

Lemma zlen_layout (d : directive F) zero sign body : zlen (layout d zero sign body) = Z.max (width_of d) (zlen (sign ++ body)).
Proof.
  unfold layout. destruct (left_of d); [|destruct zero]; rewrite !length_app, !Nat2Z.inj_add, zlen_chars; lia.
Qed.

(** The tail of a conversion lays out sign, zeros and digits. *)
Lemma finish_prints (d : directive F) cnt w p fl pre sign a zero pl : w = width_of d -> take (Z.to_nat pl) pre = sign -> pl = zlen sign ->
  Z.testbit fl 13 = left_of d -> Z.testbit fl 16 = zero && negb (left_of d) -> byte_list sign -> byte_list a -> 0 <= cnt ->
  let t := layout d zero sign (chars (p - zlen a) 48 ++ a) in
  cnt + zlen t <= INT_MAX -> prints (finish cnt w p pl fl pre a) (Go (Some (zlen t))) t.
Proof.
  intros -> Hsign Hpl Hl Hz Hsb Hab Hcnt t Hlim. unfold t in *. rewrite zlen_layout in *. unfold finish.
  set (m := if p <? zlen a then zlen a else p).
  assert (Hm : zlen (sign ++ chars (p - zlen a) 48 ++ a) = pl + m).
  { unfold m. rewrite !length_app, !Nat2Z.inj_add, zlen_chars, <- Hpl. destruct (Z.ltb_spec p (zlen a)); lia. }
  assert (Hcm : chars (p - zlen a) 48 = chars (m - zlen a) 48).
  { unfold m. destruct (Z.ltb_spec p (zlen a)); [rewrite !chars_none by lia; done|done]. }
  rewrite Hm in *. rewrite (proj2 (Z.ltb_ge (INT_MAX - pl) m)) by lia.
  assert (Hw : (if width_of d <? pl + m then pl + m else width_of d) = Z.max (width_of d) (pl + m)).
  { destruct (Z.ltb_spec (width_of d) (pl + m)); lia. }
  rewrite Hw. rewrite (proj2 (Z.ltb_ge (INT_MAX - cnt) _)) by lia. rewrite Hsign.
  assert (Hroom : forall c, chars (Z.max (width_of d) (pl + m) - (pl + m)) c = chars (width_of d - (pl + m)) c).
  { intros c. destruct (Z.max_spec (width_of d) (pl + m)) as [[? ->]|[? ->]]; [|done]. by rewrite !chars_none by lia. }
  replace (layout d zero sign _) with
    ((if Z.testbit fl 13 || Z.testbit fl 16 then [] else chars (Z.max (width_of d) (pl + m) - (pl + m)) 32) ++ sign ++
     (if Z.testbit (Z.lxor fl ZERO_PAD) 13 || Z.testbit (Z.lxor fl ZERO_PAD) 16 then [] else chars (Z.max (width_of d) (pl + m) - (pl + m)) 48) ++
     (if Z.testbit 0 13 || Z.testbit 0 16 then [] else chars (m - zlen a) 48) ++ a ++
     (if Z.testbit (Z.lxor fl LEFT_ADJ) 13 || Z.testbit (Z.lxor fl LEFT_ADJ) 16 then [] else chars (Z.max (width_of d) (pl + m) - (pl + m)) 32) ++ []).
  { repeat (eapply prints_bind; [first [apply pad_prints; lia|by apply prints_out]|]). apply prints_ret. }
  rewrite !Z.lxor_spec, Hl, Hz, !Hroom. unfold layout. rewrite Hm, <- Hcm.
  change (Z.testbit ZERO_PAD 13) with false. change (Z.testbit ZERO_PAD 16) with true.
  change (Z.testbit LEFT_ADJ 13) with true. change (Z.testbit LEFT_ADJ 16) with false. rewrite app_nil_r.
  destruct (left_of d), zero; cbn [xorb orb andb negb]; rewrite ?app_nil_l, ?app_nil_r, <- ?app_assoc; done.
Qed.

(** *** Integers *)

Lemma digit_char_byte upper n : 0 <= n < 16 -> 0 <= digit_char upper n < 256.
Proof. intros. unfold digit_char. destruct (Z.ltb_spec n 10), upper; lia. Qed.

Lemma numeral_bytes fuel b upper : 1 < b <= 16 -> forall n, 0 <= n -> byte_list (numeral fuel b upper n).
Proof.
  intros Hb. induction fuel as [|fuel IH]; intros n Hn; [done|]. cbn [numeral]. destruct (n =? 0); [done|].
  apply Forall_app_2; [apply IH, Z.div_pos; lia|]. repeat constructor; apply digit_char_byte; pose proof (Z.mod_pos_bound n b); lia.
Qed.

Lemma numeral_nil fuel b upper n : 0 <= n < b ^ Z.of_nat fuel -> numeral fuel b upper n = [] <-> n = 0.
Proof.
  intros Hn. split; [|intros ->; by destruct fuel]. destruct fuel as [|fuel]; [intros _; simpl in Hn; lia|].
  cbn [numeral]. destruct (Z.eqb_spec n 0); [done|]. by intros [_ ?]%app_eq_nil.
Qed.

(** The flags once "-" has cancelled "0". *)
Definition settled (fl : Z) : Z := if has fl LEFT_ADJ then clear_pad fl else fl.

Lemma settled_bits d (c : conversion F) t : parsed d c t ->
  Z.testbit (settled (c_fl c)) 13 = left_of d /\ Z.testbit (settled (c_fl c)) 16 = flag d 48 && negb (left_of d) /\
  Z.testbit (settled (c_fl c)) 3 = flag d 35 /\ Z.testbit (settled (c_fl c)) 11 = flag d 43 /\ Z.testbit (settled (c_fl c)) 0 = flag d 32.
Proof.
  intros (_ & _ & _ & _ & _ & Hb & _).
  assert (Hbit : forall k c0, 0 <= k -> k + 32 = c0 -> k <> 13 -> Z.testbit (c_fl c) k = flag d c0).
  { intros k c0 Hk <- Hne. rewrite Hb, (proj2 (Z.eqb_neq k 13)), andb_false_r by done. apply orb_false_r. }
  pose proof (Hb 13 ltac:(lia)) as H13. change (13 + 32) with 45 in H13. change (13 =? 13) with true in H13. rewrite andb_true_r in H13.
  pose proof (Hbit 16 48) as H16. pose proof (Hbit 3 35) as H3. pose proof (Hbit 11 43) as H11. pose proof (Hbit 0 32) as Hb0.
  clear Hb Hbit. unfold settled. change LEFT_ADJ with (2 ^ 13). rewrite has_bit, H13 by done.
  fold (left_of d) in H13 |- *. unfold clear_pad. destruct (left_of d).
  - rewrite !Z.land_spec, !Z.lnot_spec by done. change (Z.testbit ZERO_PAD 13) with false. change (Z.testbit ZERO_PAD 16) with true.
    change (Z.testbit ZERO_PAD 3) with false. change (Z.testbit ZERO_PAD 11) with false. change (Z.testbit ZERO_PAD 0) with false.
    cbn [negb]. rewrite !andb_true_r, !andb_false_r. rewrite H13, H3, H11, Hb0 by done. done.
  - by rewrite H13, H16, H3, H11, Hb0, andb_true_r.
Qed.

Lemma clear_pad_bits fl k : 0 <= k -> Z.testbit (clear_pad fl) k = Z.testbit fl k && negb (k =? 16).
Proof.
  intros Hk. unfold clear_pad. rewrite Z.land_spec, Z.lnot_spec by done. change ZERO_PAD with (2 ^ 16). rewrite Z.pow2_bits_eqb by done.
  by rewrite (Z.eqb_sym 16).
Qed.

(** The body of an integer conversion, as [convert_integer] computes it. *)
Lemma integer_prints (d : directive F) (c : conversion F) cnt t i g sign :
  parsed d c t -> 0 <= cnt -> digits_of (c_t c) (c_p c) (settled (c_fl c)) i = g ->
  g_fl g = settled (c_fl c) -> byte_list (g_a g) -> (g_a g = [] <-> g_i g = 0) ->
  take (Z.to_nat (g_pl g)) (drop (Z.to_nat (g_off g)) prefix) = sign -> g_pl g = zlen sign -> byte_list sign ->
  g_p g = (if (d_conv d =? 111) && flag d 35 && (c_p c <? zlen (g_a g) + 1) then zlen (g_a g) + 1 else c_p c) ->
  t = render_integer d sign (g_a g) -> cnt + zlen t <= INT_MAX ->
  prints (convert_integer cnt c (settled (c_fl c)) i) (Go (Some (zlen t))) t.
Proof.
  intros Hp Hcnt Hg Hgf Hab Hnil Hsign Hpl Hsb Hgp -> Hlim.
  destruct (settled_bits d c _ Hp) as (H13 & H16 & _). destruct Hp as (_ & Hw & Hprec & Hxp & Hr & _ & _).
  unfold convert_integer. rewrite Hg, Hgf.
  assert (Hover : c_xp c && (g_p g <? 0) = false).
  { rewrite Hxp. destruct (prec_of d) as [p|] eqn:Ep; [|done]. rewrite bool_decide_eq_true_2 by eauto.
    destruct (Z.leb_spec 0 (c_p c)); [|done]. apply Z.ltb_ge. rewrite Hgp. destruct (_ && _ && _); lia. }
  rewrite Hover. set (fl := if c_xp c then clear_pad (settled (c_fl c)) else settled (c_fl c)).
  set (zero := flag d 48 && bool_decide (prec_of d = None)).
  assert (Hl : Z.testbit fl 13 = left_of d) by (unfold fl; destruct (c_xp c); [by rewrite clear_pad_bits, H13, andb_true_r|done]).
  assert (Hz : Z.testbit fl 16 = zero && negb (left_of d)).
  { unfold fl, zero. rewrite Hxp. destruct (prec_of d); [rewrite bool_decide_eq_true_2 by eauto|rewrite bool_decide_eq_false_2 by (by intros [? ?])].
    - rewrite clear_pad_bits by done. by rewrite andb_false_r, bool_decide_eq_false_2, andb_false_r.
    - by rewrite H16, bool_decide_eq_true_2, andb_true_r. }
  assert (Hbody : forall p a, chars (p - zlen a) 48 ++ a = integer_body d (g_a g) -> byte_list a ->
    prints (finish cnt (c_w c) p (g_pl g) fl (drop (Z.to_nat (g_off g)) prefix) a)
      (Go (Some (zlen (render_integer d sign (g_a g))))) (render_integer d sign (g_a g))).
  { intros p a Hb Ha. pose proof (finish_prints d cnt (c_w c) p fl (drop (Z.to_nat (g_off g)) prefix) sign a zero (g_pl g)) as Hfin.
    cbv zeta in Hfin. unfold render_integer in *. fold zero in Hlim |- *. rewrite Hb in Hfin. by apply Hfin. }
  assert (Hm : default 1 (prec_of d) = if 0 <=? c_p c then c_p c else 1) by (rewrite Hprec; by destruct (0 <=? c_p c)).
  assert (Hlen : 0 <= zlen (g_a g)) by lia. unfold integer_body in Hbody. rewrite Hm in Hbody.
  destruct (Z.eqb_spec (g_i g) 0) as [Hz0|Hz0]; cbn [andb].
  - apply Hnil in Hz0. rewrite Hz0 in *. change (zlen []) with 0 in *. destruct (Z.eqb_spec (g_p g) 0) as [Hp0|Hp0].
    + apply (Hbody (g_p g) []); [|done]. f_equal. f_equal. change (zlen []) with 0. rewrite Hp0 in *.
      destruct ((d_conv d =? 111) && flag d 35); cbn [andb] in Hgp; destruct (Z.leb_spec 0 (c_p c)), (Z.ltb_spec (c_p c) (0 + 1)); lia.
    + apply (Hbody (Z.max (g_p g) (0 + 1)) []); [|done]. f_equal. f_equal. change (zlen []) with 0.
      destruct ((d_conv d =? 111) && flag d 35); cbn [andb] in Hgp; destruct (Z.leb_spec 0 (c_p c)), (Z.ltb_spec (c_p c) (0 + 1)); lia.
  - assert (Hne : 0 < zlen (g_a g)) by (destruct (g_a g); [by destruct Hz0; apply Hnil|simpl; lia]).
    apply (Hbody _ (g_a g)); [|done]. rewrite Z.add_0_r.
    destruct ((d_conv d =? 111) && flag d 35); cbn [andb] in Hgp; destruct (Z.leb_spec 0 (c_p c)), (Z.ltb_spec (c_p c) (zlen (g_a g) + 1));
      rewrite Hgp; first [do 2 f_equal; lia|rewrite !chars_none by lia; done].
Qed.

Lemma fmt_u_64 n : 0 <= n < 2 ^ 64 -> fmt_u 20 n [] = numeral 64 10 false n.
Proof.
  intros Hn. assert (H20 : 2 ^ 64 < 10 ^ Z.of_nat 20) by done. assert (H64 : 2 ^ 64 < 10 ^ Z.of_nat 64) by done.
  rewrite fmt_u_spec, app_nil_r by lia. apply numeral_fuel; lia.
Qed.

Lemma signed_digits v p fl : - 2 ^ 63 <= v < 2 ^ 63 ->
  let g := decimal p fl (w64 v) in
  g_i g = Z.abs v /\ g_p g = p /\ g_fl g = fl /\ g_a g = numeral 64 10 false (Z.abs v) /\
  take (Z.to_nat (g_pl g)) (drop (Z.to_nat (g_off g)) prefix) =
    (if v <? 0 then [45] else if Z.testbit fl 11 then [43] else if Z.testbit fl 0 then [32] else []) /\
  g_pl g = zlen (if v <? 0 then [45] else if Z.testbit fl 11 then [43] else if Z.testbit fl 0 then [32] else []).
Proof.
  intros Hv. unfold decimal. change MARK_POS with (2 ^ 11). change PAD_POS with (2 ^ 0). rewrite !has_bit by done.
  destruct (Z.ltb_spec v 0) as [Hneg|Hpos].
  - assert (Hw : w64 v = v + 2 ^ 64) by (unfold w64; rewrite <- (Z.mod_unique v (2 ^ 64) (-1) (v + 2 ^ 64)); lia).
    assert (Hm : w64 (- (v + 2 ^ 64)) = - v) by (unfold w64; rewrite <- (Z.mod_unique _ (2 ^ 64) (-1) (- v)); lia).
    rewrite Hw, (proj2 (Z.ltb_lt INTMAX_MAX _)) by (unfold INTMAX_MAX; lia). rewrite Hm. cbn [g_i g_p g_fl g_a g_pl g_off].
    rewrite Z.abs_neq by lia. by rewrite fmt_u_64 by lia.
  - rewrite w64_small by lia. rewrite (proj2 (Z.ltb_ge INTMAX_MAX _)) by (unfold INTMAX_MAX; lia).
    rewrite Z.abs_eq by lia. destruct (Z.testbit fl 11); [|destruct (Z.testbit fl 0)]; cbn [g_i g_p g_fl g_a g_pl g_off]; by rewrite fmt_u_64 by lia.
Qed.

Lemma prints_signed d (c : conversion F) cnt v : (d_conv d = 100 \/ d_conv d = 105) -> - 2 ^ 63 <= v < 2 ^ 63 ->
  parsed d c (signed_text d v) -> 0 <= cnt -> cnt + zlen (signed_text d v) <= INT_MAX ->
  prints (convert_integer cnt c (settled (c_fl c)) (w64 v)) (Go (Some (zlen (signed_text d v)))) (signed_text d v).
Proof.
  intros Hc Hv Hp Hcnt Hlim. destruct (settled_bits d c _ Hp) as (_ & _ & _ & H11 & Hb0). pose proof Hp as (Ht & _).
  destruct (signed_digits v (c_p c) (settled (c_fl c)) Hv) as (Hi & Hgp & Hfl & Ha & Hs & Hpl). rewrite H11, Hb0 in *.
  assert (Hg : digits_of (c_t c) (c_p c) (settled (c_fl c)) (w64 v) = decimal (c_p c) (settled (c_fl c)) (w64 v)).
  { rewrite Ht. by destruct Hc as [-> | ->]. }
  eapply integer_prints; [exact Hp|done|exact Hg|done| | |exact Hs|done| | |by rewrite Ha|done]; rewrite ?Ha, ?Hi.
  - apply numeral_bytes; lia.
  - apply numeral_nil. change (Z.of_nat 64) with 64. assert (2 ^ 64 < 10 ^ 64) by done. lia.
  - destruct (v <? 0); [|destruct (flag d 43); [|destruct (flag d 32)]]; by repeat constructor.
  - rewrite Hgp. by destruct Hc as [-> | ->].
Qed.

Lemma fmt_o_64 n : 0 <= n < 2 ^ 64 -> fmt_o 22 n [] = numeral 64 8 false n.
Proof.
  intros Hn. assert (H22 : 2 ^ 64 < 8 ^ Z.of_nat 22) by done. assert (H64 : 2 ^ 64 < 8 ^ Z.of_nat 64) by done.
  rewrite fmt_o_spec, app_nil_r by lia. apply numeral_fuel; lia.
Qed.
Lemma fmt_x_64 n lower : lower = 0 \/ lower = 32 -> 0 <= n < 2 ^ 64 -> fmt_x 16 n [] lower = numeral 64 16 (lower =? 0) n.
Proof.
  intros Hl Hn. assert (H16 : 2 ^ 64 <= 16 ^ Z.of_nat 16) by done. assert (H64 : 2 ^ 64 < 16 ^ Z.of_nat 64) by done.
  rewrite fmt_x_spec, app_nil_r by (done || lia). apply numeral_fuel; lia.
Qed.

#[local] Opaque numeral fmt_u fmt_o fmt_x.

(** Base, case and prefix of an unsigned conversion. *)
Definition base_of d : Z := if d_conv d =? 111 then 8 else if d_conv d =? 117 then 10 else 16.
Definition alt_prefix d (v : Z) : list Z :=
  if (d_conv d =? 111) || (d_conv d =? 117) then [] else if flag d 35 && negb (v =? 0) then [48; d_conv d] else [].

Lemma unsigned_text_base d v : d_conv d ∈ [117; 111; 120; 88] ->
  unsigned_text d v = render_integer d (alt_prefix d v) (numeral 64 (base_of d) (d_conv d =? 88) v).
Proof.
  rewrite !elem_of_cons, elem_of_nil. unfold unsigned_text, alt_prefix, base_of.
  intros [Hc|[Hc|[Hc|[Hc|[]]]]]; by rewrite Hc.
Qed.

Lemma unsigned_digits d v p fl : d_conv d ∈ [117; 111; 120; 88] -> 0 <= v < 2 ^ 64 -> has fl ALT_FORM = flag d 35 ->
  let g := digits_of (d_conv d) p fl v in
  g_i g = v /\ g_fl g = fl /\ g_a g = numeral 64 (base_of d) (d_conv d =? 88) v /\
  g_p g = (if (d_conv d =? 111) && flag d 35 && (p <? zlen (g_a g) + 1) then zlen (g_a g) + 1 else p) /\
  take (Z.to_nat (g_pl g)) (drop (Z.to_nat (g_off g)) prefix) = alt_prefix d v /\ g_pl g = zlen (alt_prefix d v).
Proof.
  rewrite !elem_of_cons, elem_of_nil. intros Hc Hv Ha. unfold base_of, alt_prefix, digits_of, hexadecimal, octal.
  rewrite Ha. destruct Hc as [Hc|[Hc|[Hc|[Hc|[]]]]]; rewrite Hc; cbn [Z.eqb Pos.eqb orb g_i g_fl g_a g_p g_off g_pl].
  - by rewrite fmt_u_64.
  - by rewrite fmt_o_64.
  - rewrite fmt_x_64 by (done || by right). destruct (flag d 35), (v =? 0); by split_and!.
  - rewrite fmt_x_64 by (done || by left). destruct (flag d 35), (v =? 0); by split_and!.
Qed.

Lemma prints_unsigned d (c : conversion F) cnt v : d_conv d ∈ [117; 111; 120; 88] -> 0 <= v < 2 ^ 64 ->
  parsed d c (unsigned_text d v) -> 0 <= cnt -> cnt + zlen (unsigned_text d v) <= INT_MAX ->
  prints (convert_integer cnt c (settled (c_fl c)) v) (Go (Some (zlen (unsigned_text d v)))) (unsigned_text d v).
Proof.
  intros Hc Hv Hp Hcnt Hlim. destruct (settled_bits d c _ Hp) as (_ & _ & H3 & _). pose proof Hp as (Ht & _).
  assert (Halt : has (settled (c_fl c)) ALT_FORM = flag d 35) by (change ALT_FORM with (2 ^ 3); by rewrite has_bit).
  destruct (unsigned_digits d v (c_p c) (settled (c_fl c)) Hc Hv Halt) as (Hi & Hfl & Ha & Hgp & Hs & Hpl). rewrite <- Ht in *.
  assert (Hb : 1 < base_of d <= 16 /\ 2 ^ 64 < base_of d ^ Z.of_nat 64).
  { unfold base_of. destruct (d_conv d =? 111), (d_conv d =? 117); by split_and!. }
  eapply integer_prints; [exact Hp|done|reflexivity|exact Hfl| | |exact Hs|exact Hpl| | | |done].
  - rewrite Ha. apply numeral_bytes; lia.
  - rewrite Ha, Hi. apply numeral_nil. lia.
  - rewrite !elem_of_cons, elem_of_nil in Hc. unfold alt_prefix. repeat case_match; repeat constructor; lia.
  - by rewrite <- Ht.
  - rewrite Ha, Ht. apply unsigned_text_base. by rewrite <- Ht.
Qed.

(** *** Every conversion *)

Variable fmt_fp : F -> Z -> Z -> Z -> Z -> M (io X) Z.
Variable strerror : Z -> list Z.
Variable mb_cur_max : Z.

Lemma convert_prints d (c : conversion F) cnt t : wellformed d -> parsed d c t -> 0 <= cnt -> cnt + zlen t <= INT_MAX ->
  prints (convert fmt_fp strerror mb_cur_max cnt c) (Go (Some (zlen t))) t.
Proof.
  intros Hd Hp Hcnt Hlim. destruct (settled_bits d c t Hp) as (H13 & H16 & _). pose proof Hp as (Ht & Hw & Hprec & Hxp & Hr & _ & a & Ha & Hop).
  unfold convert. rewrite Ha. fold (settled (c_fl c)). unfold upper_t. rewrite Ht.
  assert (Hcl : Z.testbit (clear_pad (settled (c_fl c))) 13 = left_of d /\ Z.testbit (clear_pad (settled (c_fl c))) 16 = false && negb (left_of d)).
  { rewrite !clear_pad_bits by done. by rewrite H13, andb_true_r, andb_false_r. }
  destruct Hop as [ps v Hc Hv|ps v Hc Hv|i Hc|p s Hc Hp0 Hch].
  - assert (Hs : forall b : bool, (if b && (Z.land (d_conv d) 15 =? 3) then Z.land (d_conv d) (Z.lnot 32) else d_conv d) = d_conv d).
    { intros b. destruct Hc as [-> | ->]; by destruct b. }
    rewrite Hs. pose proof (prints_signed d c cnt v Hc Hv Hp Hcnt Hlim) as Hpr. by destruct Hc as [-> | ->].
  - rewrite !elem_of_cons, elem_of_nil in Hc.
    assert (Hs : forall b : bool, (if b && (Z.land (d_conv d) 15 =? 3) then Z.land (d_conv d) (Z.lnot 32) else d_conv d) = d_conv d).
    { intros b. destruct Hc as [-> |[-> |[-> |[-> |[]]]]]; by destruct b. }
    rewrite Hs. pose proof (prints_unsigned d c cnt v) as Hpr. rewrite !elem_of_cons, elem_of_nil in Hpr. specialize (Hpr Hc Hv Hp Hcnt Hlim).
    by destruct Hc as [Hc|[Hc|[Hc|[Hc|[]]]]]; rewrite Hc in *.
  - rewrite Hc. cbn [Z.eqb negb andb Pos.eqb].
    pose proof (finish_prints d cnt (c_w c) 1 (clear_pad (settled (c_fl c))) prefix [] [w8 i] false 0) as Hfin. cbv zeta in Hfin.
    change (chars (1 - zlen [w8 i]) 48 ++ [w8 i]) with [w8 i] in Hfin. destruct Hcl. apply Hfin; try done. repeat constructor; apply w8_range.
  - rewrite Hc. cbn [Z.eqb negb andb Pos.eqb addr target]. rewrite (proj2 (Z.eqb_neq p 0)) by done.
    assert (Hcb : byte_list s) by (eapply Forall_impl; [exact Hch|]; cbn; lia).
    rewrite zlen_layout in Hlim. cbn [app] in Hlim. unfold convert_string, strnlen.
    assert (Hn : Z.min (zlen s) (if c_p c <? 0 then INT_MAX else c_p c) = zlen (take (from_option Z.to_nat (length s) (prec_of d)) s) /\
      (c_p c < 0 -> zlen s <= INT_MAX)).
    { rewrite Hprec in *. destruct (Z.leb_spec 0 (c_p c)), (Z.ltb_spec (c_p c) 0); cbn [from_option] in *; rewrite length_take in *; lia. }
    destruct Hn as [Hn Hmax]. rewrite Hn. set (u := take _ s) in *.
    assert (Hover : (c_p c <? 0) && (zlen u <? zlen s) = false).
    { destruct (Z.ltb_spec (c_p c) 0); [|done]. apply Z.ltb_ge. lia. }
    rewrite Hover, Nat2Z.id. assert (Hu : take (length u) s = u) by (unfold u; rewrite length_take; destruct (Nat.min_spec (from_option Z.to_nat (length s) (prec_of d)) (length s)) as [[? ->]|[? ->]]; [done|by rewrite !take_ge by lia]).
    rewrite Hu. pose proof (finish_prints d cnt (c_w c) (zlen u) (clear_pad (settled (c_fl c))) prefix [] u false 0) as Hfin. cbv zeta in Hfin.
    rewrite Z.sub_diag in Hfin. destruct Hcl. apply Hfin; try done; [by apply Forall_take|]. change (chars 0 48) with (@nil Z).
    rewrite zlen_layout. done.
Qed.

(** *** Whole formats *)

Lemma show_percent d s : show d ++ s = percent :: tail (show d ++ s).
Proof. done. Qed.

Lemma formats_literal s (args : list (argument F)) o : formats s args o ->
  byte_list (take (literal s) s) /\ exists o', o = take (literal s) s ++ o' /\ formats (drop (literal s) s) args o' /\ literal (drop (literal s) s) = O.
Proof.
  induction 1 as [args|c s args o Hc Hb Hs (Hby & o' & -> & Hf & Hl)|s args o Hs _|d s args t o Hd Ht Hs _].
  - split; [done|]. exists []. split; [done|]. split; [constructor|done].
  - cbn [literal]. rewrite (proj2 (Z.eqb_neq c percent)) by done. cbn [take drop].
    split; [constructor; [lia|done]|]. by exists o'.
  - cbn [literal]. change (percent =? percent) with true. cbn. split; [done|]. exists (percent :: o). split; [done|]. split; [by constructor|done].
  - rewrite show_percent. cbn [literal]. change (percent =? percent) with true. cbn [take drop]. split; [done|].
    exists (t ++ o). split; [done|]. rewrite <- show_percent. split; [by constructor|]. by rewrite show_percent.
Qed.

Lemma pairs_take n : forall s, (length s <= n)%nat -> (2 * pairs s <= length s)%nat /\ take (pairs s) s = replicate (pairs s) percent.
Proof.
  induction n as [|n IH]; intros s Hn; [destruct s; [by split|simpl in Hn; lia]|].
  destruct s as [|a [|b s]]; [by split; [simpl; lia|]|by split; [simpl; lia|]|]. cbn [pairs].
  destruct (Z.eqb_spec a percent) as [->|]; [|by split; [simpl; lia|]]. destruct (Z.eqb_spec b percent) as [->|]; [|by split; [simpl; lia|]].
  cbn [andb]. destruct (IH s) as [Hl Ht]; [simpl in Hn; lia|]. split; [simpl; lia|]. cbn [take replicate]. f_equal.
  destruct (pairs s) as [|k]; [done|]. cbn [take replicate]. f_equal.
  assert (Hs : s = replicate (S k) percent ++ drop (S k) s) by (rewrite <- Ht; symmetry; apply take_drop).
  rewrite Hs, take_app_le by (rewrite length_replicate; lia). rewrite take_replicate. f_equal. lia.
Qed.

Lemma formats_pairs s (args : list (argument F)) o : formats s args o -> literal s = O ->
  exists o', o = replicate (pairs s) percent ++ o' /\ formats (drop (2 * pairs s) s) args o'.
Proof.
  induction 1 as [args|c s args o Hc Hb Hs _|s args o Hs IH|d s args t o Hd Ht Hs _].
  - intros _. exists []. split; [done|constructor].
  - cbn [literal]. by rewrite (proj2 (Z.eqb_neq c percent)) by done.
  - intros _. cbn [pairs]. change (percent =? percent) with true. cbn [andb].
    destruct (decide (literal s = O)) as [Hl|Hl].
    + destruct (IH Hl) as (o' & -> & Hf). exists o'. split; [done|]. replace (2 * S (pairs s))%nat with (S (S (2 * pairs s))) by lia. done.
    + assert (Hp : pairs s = O).
      { destruct s as [|a [|b s]]; try done. cbn [literal pairs] in *. by destruct (a =? percent). }
      rewrite Hp. exists o. split; [done|]. done.
  - intros _. destruct (show_start d s args t Hd (render_specifies d s args t Hd Ht)) as [H1 _].
    assert (Hp : pairs (show d ++ s) = O).
    { rewrite show_percent in *. destruct (tail (show d ++ s)) as [|b q]; [done|]. cbn [pairs].
      change (at_ (percent :: b :: q) 1) with b in H1. by rewrite (proj2 (Z.eqb_neq b percent)), andb_false_r. }
    rewrite Hp. exists (t ++ o). split; [done|]. by constructor.
Qed.

(** One round of [printf_core]. *)
Lemma formats_round s (args : list (argument F)) o : formats s args o -> s <> [] ->
  let a := literal s in let k := pairs (drop a s) in
  ((a + k)%nat <> O /\ byte_list (take (a + k) s) /\ exists o', o = take (a + k) s ++ o' /\ formats (drop (a + 2 * k) s) args o') \/
  ((a + k)%nat = O /\ exists d s' t args' o', wellformed d /\ render d = Some t /\ s = show d ++ s' /\ args = args_of d ++ args' /\
     o = t ++ o' /\ formats s' args' o').
Proof.
  intros Hf Hne a k. destruct (decide ((a + k)%nat = O)) as [Hz|Hz]; [right|left]; (split; [done|]).
  - assert (Ha : literal s = O) by (unfold a in Hz; lia). unfold k, a in Hz. rewrite Ha in Hz. cbn [drop] in Hz.
    inversion Hf as [?|c s' ? ? Hc ? ? |s' ? ? ?|d s' ? t o' Hd Ht Hfs]; subst; try done.
    + cbn [literal] in Ha. by rewrite (proj2 (Z.eqb_neq c percent)) in Ha by done.
    + by exists d, s', t, args0, o'.
  - destruct (formats_literal s args o Hf) as (Hb & o1 & -> & Hf1 & Hl1). fold a in Hb, Hf1, Hl1 |- *.
    destruct (formats_pairs _ _ _ Hf1 Hl1) as (o2 & -> & Hf2). fold k in Hf2 |- *.
    destruct (pairs_take _ (drop a s) (Nat.le_refl _)) as [_ Ht]. fold k in Ht.
    assert (Htk : take (a + k) s = take a s ++ replicate k percent) by (rewrite <- Ht; by rewrite take_take_drop).
    rewrite Htk. split; [apply Forall_app_2; [done|apply Forall_replicate; unfold percent; lia]|].
    exists o2. split; [by rewrite app_assoc|]. by rewrite drop_drop in Hf2.
Qed.

(** The characters of a round are there. *)
Lemma round_length s : let a := literal s in let k := pairs (drop a s) in length (take (a + k) s) = (a + k)%nat /\ (a + k <= length s)%nat.
Proof.
  intros a k. destruct (pairs_take _ (drop a s) (Nat.le_refl _)) as [Hk _]. fold k in Hk. rewrite length_drop in Hk.
  assert (Ha : (a <= length s)%nat) by (unfold a; clear; induction s as [|b s IH]; cbn [literal]; [done|]; destruct (b =? percent); simpl; lia).
  rewrite length_take. lia.
Qed.

Abbreviation core := (printf_core fmt_fp strerror mb_cur_max).

Lemma core_prints fuel : forall s args o cnt l log, formats s args o -> (length s < fuel)%nat -> 0 <= cnt -> 0 <= l ->
  cnt + l + zlen o <= INT_MAX ->
  exists rest, prints (core fuel true s (in_order args) cnt l log) (cnt + l + zlen o, in_order rest, log) o.
Proof.
  induction fuel as [|fuel IH]; intros s args o cnt l log Hf Hfuel Hcnt Hl Hlim; [lia|]. cbn [printf_core].
  rewrite (proj2 (Z.ltb_ge (INT_MAX - cnt) l)) by lia. destruct (decide (s = [])) as [->|Hne].
  { inversion Hf as [?| | |d s' ? t o' Hd Ht Hfs Heq].
    exists args. rewrite Z.add_0_r. cbn [core_end]. apply prints_ret. }
  destruct s as [|c s]; [done|]. set (q := c :: s) in *. destruct (formats_round q args o Hf Hne) as [(Hz & Hb & o' & -> & Hf')|(Hz & d & s' & t & args' & o' & Hd & Ht & Hs & -> & -> & Hf')].
  - set (a := literal q) in *. set (k := pairs (drop a q)) in *. rewrite length_app in Hlim.
    destruct (round_length q) as [Hlt Hak]. fold a k in Hlt, Hak. rewrite (proj2 (Z.ltb_ge (INT_MAX - (cnt + l)) _)) by lia. cbn [when].
    rewrite (proj2 (Z.eqb_neq (Z.of_nat (a + k)) 0)) by lia. cbn [negb].
    destruct (IH (drop (a + 2 * k) q) args o' (cnt + l) (Z.of_nat (a + k)) log Hf') as [rest Hr]; [rewrite length_drop; lia|lia|lia|lia|].
    exists rest. replace (cnt + l + zlen (take (a + k) q ++ o')) with (cnt + l + Z.of_nat (a + k) + zlen o') by (rewrite length_app; lia).
    eapply prints_bind; [by apply prints_out|exact Hr].
  - rewrite Hz. rewrite (proj2 (Z.ltb_ge (INT_MAX - (cnt + l)) _)) by lia. cbn [when take negb]. change (Z.of_nat 0 =? 0) with true. cbn [negb].
    pose proof (render_specifies d s' args' t Hd Ht) as Hsp.
    destruct (parse_spec d s' args' t Hd Hsp) as (cv & Hparse & Hp). rewrite Hs, Hparse. cbn [negb].
    assert (Hn : c_t cv =? 110 = false).
    { destruct Hp as (-> & _ & _ & _ & _ & _ & a & _ & Hop). apply Z.eqb_neq.
      destruct Hop as [? ? Hc _|? ? Hc _|? Hc|? ? Hc]; rewrite ?elem_of_cons, ?elem_of_nil in Hc; lia. }
    rewrite Hn, length_app in *. pose proof (convert_prints d cv (cnt + l) t Hd Hp) as Hcv.
    destruct (IH s' args' o' (cnt + l) (zlen t) log Hf') as [rest Hr]; [|lia|lia|lia|].
    { rewrite Hs, length_app in Hfuel. assert (0 < length (show d))%nat by (unfold show; simpl; lia). lia. }
    exists rest. rewrite <- (app_nil_l (t ++ o')). replace (cnt + l + Z.of_nat (length t + length o')) with (cnt + l + zlen t + zlen o') by lia.
    eapply prints_bind; [by apply prints_out|]. eapply prints_bind; [apply Hcv; lia|]. exact Hr.
Qed.

(** The first pass does nothing and finds nothing wrong. *)
Lemma core_dry fuel : forall s (args : list (argument F)) o cnt l log (all : list (argument F)) st, formats s args o -> (length s < fuel)%nat -> 0 <= cnt -> 0 <= l ->
  cnt + l + zlen o <= INT_MAX -> core fuel false s (in_order all) cnt l log st = Ret ((0, in_order all, log), st).
Proof.
  induction fuel as [|fuel IH]; intros s args o cnt l log all st Hf Hfuel Hcnt Hl Hlim; [lia|]. cbn [printf_core].
  rewrite (proj2 (Z.ltb_ge (INT_MAX - cnt) l)) by lia. destruct (decide (s = [])) as [->|Hne]; [done|].
  destruct s as [|c s]; [done|]. set (q := c :: s) in *. destruct (formats_round q args o Hf Hne) as [(Hz & Hb & o' & -> & Hf')|(Hz & d & s' & t & args' & o' & Hd & Ht & Hs & -> & -> & Hf')].
  - set (a := literal q) in *. set (k := pairs (drop a q)) in *. rewrite length_app in Hlim.
    destruct (round_length q) as [Hlt Hak]. fold a k in Hlt, Hak. rewrite (proj2 (Z.ltb_ge (INT_MAX - (cnt + l)) _)) by lia. cbn [when].
    rewrite (proj2 (Z.eqb_neq (Z.of_nat (a + k)) 0)) by lia. cbn [negb].
    etransitivity; [|apply (IH (drop (a + 2 * k) q) args o' (cnt + l) (Z.of_nat (a + k)) log all st Hf'); [rewrite length_drop; lia|lia|lia|lia]]. done.
  - rewrite Hz. rewrite (proj2 (Z.ltb_ge (INT_MAX - (cnt + l)) _)) by lia. cbn [when take negb]. change (Z.of_nat 0 =? 0) with true. cbn [negb].
    destruct (parse_dry d s' args' t all Hd (render_specifies d s' args' t Hd Ht)) as (s1 & Hparse). by rewrite Hs, Hparse.
Qed.
End Printing.
