(* ===== verification/StdioTheorems.v ===== *)
(** What a program may rely on when it uses a stream.  [may_call] says when a
    call is allowed; [stream] is the stream of the C standard: a text, a place
    in it and the bytes to come, with no buffer, and [expected] says what each
    call gives there.  A session on the real stream gives the same. *)
From S2P Require Import Prelude.
From S2P Require Import Wasi.
From S2P Require Import Stdio.
From S2P Require Import StdioProofs.
From S2P Require Import StdioOps.

(** ** Calls *)
Inductive call :=
  | Fwrite (src : list Z) (size nmemb : Z) | Fputc (c : Z)
  | Fread (size nmemb : Z) | Fgetc | Ungetc (c : Z) | Fgets (n : Z)
  | Fflush | Fseek (off whence : Z) | Ftell
  | Feof | Ferror | Clearerr.

Inductive answer :=
  | Number (r : Z) | Items (r : Z) (l : list Z) | Line (ok : option unit) (l : list Z) | Flag (b : bool) | Done.

Section Calls.
Context {X : Type} `{DeviceLaws X}.
Variable tid : Z.

Definition do_call (c : call) : M (io X) answer :=
  match c with
  | Fwrite src size nmemb => r ← fwrite tid src size nmemb; mret (Number r)
  | Fputc c => r ← fputc tid c; mret (Number r)
  | Fread size nmemb => '(r, l) ← fread tid size nmemb; mret (Items r l)
  | Fgetc => r ← fgetc tid; mret (Number r)
  | Ungetc c => r ← ungetc tid c; mret (Number r)
  | Fgets n => '(ok, l) ← fgets tid n; mret (Line ok l)
  | Fflush => r ← fflush tid; mret (Number r)
  | Fseek off whence => r ← fseek tid off whence; mret (Number r)
  | Ftell => r ← ftell tid; mret (Number r)
  | Feof => b ← feof tid; mret (Flag b)
  | Ferror => b ← ferror tid; mret (Flag b)
  | Clearerr => clearerr tid;; mret Done
  end.

Fixpoint session (cs : list call) : M (io X) (list answer) :=
  match cs with
  | [] => mret []
  | c :: cs => a ← do_call c; l ← session cs; mret (a :: l)
  end.

(** The bytes that a call writes. *)
Definition output (c : call) : option (list Z) :=
  match c with
  | Fwrite src size nmemb => Some (take (Z.to_nat (w32 (size * nmemb))) src)
  | Fputc c => Some [w8 c]
  | _ => None
  end.

(** When a call is allowed: the objects are large enough, sizes are below
    2^31, the file stays below [limit], there is no output right after input, and
    no more is pushed back than there is room for.  Input after output is
    allowed only where sending the output cannot fail. *)
Definition may_call (f : FILE) (v : view) (c : call) : Prop :=
  match c with
  | Fwrite src size nmemb =>
      buffered v = [] /\ byte_list src /\ w32 (size * nmemb) <= zlen src /\ w32 (size * nmemb) + buf_size f < 2 ^ 31
  | Fputc c => buffered v = [] /\ 1 + buf_size f < 2 ^ 31
  | Fread size nmemb => may_turn v /\ w32 (size * nmemb) + buf_size f < 2 ^ 31
  | Fgetc => may_turn v
  | Ungetc c => may_turn v /\ readable f = true /\ c <> EOF /\ 0 < room v
  | Fgets n => may_turn v /\ 1 < n
  | Fseek off whence => (may_fail -> reports) /\ - 2 ^ 62 <= off <= 2 ^ 62 /\ 0 <= whence <= 2 /\ seek_target v off whence <= limit
  | _ => True
  end /\
  match output c with
  | Some l => (write_at (appends f) (data v) (here v) l).2 <= limit
  | None => True
  end.

(** A call that reads or clears indicators. *)
Lemma runs_flag s m : 0 < tid -> inv s -> lock_ok tid (file s) ->
  runs (with_lock tid (gets (fun s => has (flags (file s)) m))) s (fun b v => b = has (flags (file s)) m /\ v = view_of s).
Proof.
  intros Ht Hi Hlk. apply runs_with_lock; [done..|]. intros l. destruct (relock s l Hi) as [Hi0 Hv0].
  eexists _, _. split; [reflexivity|]. done.
Qed.

Lemma clearerr_runs s : 0 < tid -> inv s -> lock_ok tid (file s) ->
  runs (clearerr tid) s (fun _ v => v = with_flags false false (view_of s)).
Proof.
  intros Ht Hi Hlk. apply runs_with_lock; [done..|]. intros l. destruct (relock s l Hi) as [Hi0 Hv0].
  set (f0 := set_lock l (file s)) in *.
  pose proof (clear_alike f0 (Z.lor F_EOF F_ERR) eq_refl) as Ha.
  set (f1 := set_flags (Z.land (flags f0) (Z.lnot (Z.lor F_EOF F_ERR))) f0) in *.
  assert (He : at_eof f1 = false) by by apply has_cleared. assert (Hr : in_error f1 = false) by by apply has_cleared.
  apply (runs_update (fun f => set_flags (Z.land (flags f) (Z.lnot (Z.lor F_EOF F_ERR))) f)).
  - apply (alike_inv f0); [done|intros Hx; change (at_eof f1 = true) in Hx; congruence|done].
  - apply Ha.
  - done.
  - change (view_of (Io f1 (sys s)) = with_flags false false (view_of s)).
    by rewrite (alike_view f0 f1), He, Hr, Hv0.
Qed.

(** A call that follows an operation which runs. *)
Lemma runs_then {A} (m : M (io X) A) (g : A -> answer) s Q R : runs m s Q -> (forall a v, Q a v -> R (g a) v) ->
  runs (a ← m; mret (g a)) s R.
Proof. intros Hm HR. eapply runs_bind; [exact Hm|]. intros a s' Hi _ _ HQ. apply runs_ret; auto. Qed.

(** What an allowed call gives, operation by operation. *)
Definition outcome (f : FILE) (v : view) (c : call) (a : answer) (v' : view) : Prop :=
  match c with
  | Fwrite src size nmemb => let l := w32 (size * nmemb) in exists k, written f (take (Z.to_nat l) src) v k v' /\
      a = Number (if k =? l then (if size =? 0 then 0 else nmemb) else k / size)
  | Fputc c => exists k, written f [w8 c] v k v' /\ a = Number (if k =? 1 then w8 c else EOF)
  | Fread size nmemb => let len := w32 (size * nmemb) in exists l, fetched f len v l v' /\
      a = Items (if zlen l =? len then (if size =? 0 then 0 else nmemb) else zlen l / size) l
  | Fgetc => exists c, got f v c v' /\ a = Number c
  | Ungetc c => exists v1, took [] v v1 /\ same_flags v v1 /\ 0 < room v1 /\ pushed (w8 c) v1 v' /\ a = Number (w8 c)
  | Fgets n => exists q ok, line_got f (n - 1) v [] (ok, q) v' /\ a = Line ok (match ok with Some _ => q ++ [0] | None => q end)
  | Fflush => (a = Number 0 /\ synced v v') \/ (exists k v1, lost (appends f) [] v k v1 /\ (reports -> a = Number EOF /\ v' = v1))
  | Fseek off whence => exists r, sought f off whence v r v' /\ a = Number r
  | Ftell => same_text v v' /\
      ((a = Number (here v) /\ here v < 2 ^ 31) \/ (a = Number (-1) /\ (may_fail \/ 2 ^ 31 <= here v)))
  | Feof => a = Flag (eof v) /\ v' = v
  | Ferror => a = Flag (err v) /\ v' = v
  | Clearerr => a = Done /\ v' = with_flags false false v
  end.

Lemma call_runs s c : 0 < tid -> inv s -> lock_ok tid (file s) -> may_call (file s) (view_of s) c ->
  runs (do_call c) s (outcome (file s) (view_of s) c).
Proof.
  intros Ht Hi Hlk [Hc Ho]. destruct c; cbn [do_call may_call output outcome] in *.
  - destruct Hc as (? & ? & ? & ?). eapply runs_then; [by apply fwrite_runs|]. intros r v (k & ? & ->). by exists k.
  - destruct Hc. eapply runs_then; [by apply fputc_runs|]. intros r v (k & ? & ->). by exists k.
  - destruct Hc. eapply runs_bind; [by apply fread_runs|]. intros [r l] s' Hi' _ _ [? Hr]. apply runs_ret; [done|].
    cbn [fst snd] in *. exists l. by rewrite <- Hr.
  - eapply runs_then; [by apply fgetc_runs|]. intros r v ?. by exists r.
  - destruct Hc as (? & ? & ? & ?). eapply runs_then; [by apply ungetc_runs|]. intros r v (-> & v1 & ? & ? & ? & ?). by exists v1.
  - destruct Hc. eapply runs_bind; [by apply fgets_runs|]. intros [ok l] s' Hi' _ _ (q & ok' & ? & Hr).
    injection Hr as -> ->. apply runs_ret; [done|]. by exists q, ok'.
  - eapply runs_then; [by apply fflush_runs|]. intros r v [[-> ?]|(k & v1 & ? & Hr)]; [by left|right].
    exists k, v1. split; [done|]. intros Hrep. by destruct (Hr Hrep) as [-> ->].
  - destruct Hc as (? & ? & ? & ?). eapply runs_then; [by apply fseek_runs|]. intros r v ?. by exists r.
  - eapply runs_then; [by apply ftell_runs|]. intros r v [[[-> ?]|[-> ?]] ?]; (split; [done|]); [by left|by right].
  - eapply runs_then; [by apply runs_flag|]. by intros b v [-> ->].
  - eapply runs_then; [by apply runs_flag|]. by intros b v [-> ->].
  - eapply runs_bind; [by apply clearerr_runs|]. intros [] s' Hi' _ _ Hv. apply runs_ret; done.
Qed.
End Calls.

(** ** Streams without a buffer

    [text] is the file as the program has written it, [place] the position in
    it, [next] the bytes that come next: those of the text, unless some were
    pushed back ([pushed_back] of these at most are left).  [reading] is set
    from an input call to the next call that ends it. *)
Record stream := Stream {
  text : list Z;
  place : Z;
  next : list Z;
  at_end : bool;
  failed : bool;
  reading : bool;
  pushed_back : Z }.

Section Expected.
(** Whether the stream can be read and written, whether it appends, the size of
    its buffer and of the largest file. *)
Variables (r w app : bool) (size_ lim : Z).

Definition can_put (st : stream) (l : list Z) : bool :=
  (negb (reading st) || (length (next st) =? 0)%nat) && ((write_at app (text st) (place st) l).2 <=? lim).

Definition put (st : stream) (l : list Z) : stream :=
  if negb w then Stream (text st) (place st) (next st) (at_end st) true (reading st) (pushed_back st)
  else let '(d, p) := write_at app (text st) (place st) l in
    Stream d p (drop (Z.to_nat p) d) (at_end st) (failed st) false 0.

(** The next [n] bytes are taken; there may be fewer. *)
Definition take_out (st : stream) (n : nat) (short : bool) : stream :=
  let l := take n (next st) in
  Stream (text st) (place st + zlen l) (drop n (next st)) (at_end st || short) (failed st) true (Z.max 0 (pushed_back st - zlen l)).

(** The stream at [p]. *)
Definition go_to (st : stream) (p : Z) (e : bool) : stream :=
  Stream (text st) p (drop (Z.to_nat p) (text st)) e (failed st) false 0.

(** What a call gives, and the stream after it; [None] where the call is not
    allowed. *)
Definition expected (st : stream) (c : call) : option (answer * stream) :=
  match c with
  | Fwrite src size nmemb =>
      let l := w32 (size * nmemb) in let bs := take (Z.to_nat l) src in
      if forallb (fun b => (0 <=? b) && (b <? 256)) src && (l <=? zlen src) && (l + size_ <? 2 ^ 31) && can_put st bs then
        Some (Number (if w || (l =? 0) then if size =? 0 then 0 else nmemb else 0), put st bs)
      else None
  | Fputc c =>
      if (1 + size_ <? 2 ^ 31) && can_put st [w8 c] then Some (Number (if w then w8 c else EOF), put st [w8 c]) else None
  | Fread size nmemb =>
      let len := w32 (size * nmemb) in let l := take (Z.to_nat len) (next st) in
      if r && (len + size_ <? 2 ^ 31) then
        Some (Items (if zlen l =? len then if size =? 0 then 0 else nmemb else zlen l / size) l,
              take_out st (Z.to_nat len) (zlen (next st) <? len))
      else None
  | Fgetc =>
      if r then Some (Number (match next st with c :: _ => c | [] => EOF end), take_out st 1 (length (next st) =? 0)%nat) else None
  | Ungetc c =>
      if r && negb (c =? EOF) && (pushed_back st <? UNGET) then
        Some (Number (w8 c),
              Stream (text st) (place st - 1) (w8 c :: next st) false (failed st) true (pushed_back st + 1))
      else None
  | Fgets n =>
      if r && (1 <? n) then
        let l := first_line (Z.to_nat (n - 1)) (next st) in
        let whole := (zlen l =? n - 1) || bool_decide (last l = Some newline) in
        Some (if whole || negb (length l =? 0)%nat then Line (Some tt) (l ++ [0]) else Line None l,
              take_out st (length l) (negb whole))
      else None
  | Fflush => if 0 <=? place st then Some (Number 0, go_to st (place st) (at_end st)) else None
  | Fseek off whence =>
      let t := (if whence =? SEEK_SET then 0 else if whence =? SEEK_CUR then place st else zlen (text st)) + off in
      if (- 2 ^ 62 <=? off) && (off <=? 2 ^ 62) && (0 <=? whence) && (whence <=? 2) && (t <=? lim) then
        if t <? 0 then Some (Number (-1), st) else Some (Number 0, go_to st t false)
      else None
  | Ftell => Some (Number (if place st <? 2 ^ 31 then place st else -1), st)
  | Feof => Some (Flag (at_end st), st)
  | Ferror => Some (Flag (failed st), st)
  | Clearerr => Some (Done, Stream (text st) (place st) (next st) false false (reading st) (pushed_back st))
  end.

Fixpoint expected_all (st : stream) (cs : list call) : option (list answer * stream) :=
  match cs with
  | [] => Some ([], st)
  | c :: cs =>
      '(a, st) ← expected st c; '(l, st) ← expected_all st cs; Some (a :: l, st)
  end.
End Expected.

(** The view of a stream shows the stream without a buffer. *)
Record shows (st : stream) (v : view) : Prop := {
  sh_text : data v = text st;
  sh_place : here v = place st;
  sh_next : ahead v = next st;
  sh_end : eof v = at_end st;
  sh_failed : err v = failed st;
  sh_reading : reading st = false -> buffered v = [];
  sh_pushed : 0 <= pushed_back st /\ UNGET - pushed_back st <= room v }.

Section Refinement.
Context {X : Type} `{DeviceLaws X}.
Hypothesis reliable : ~ may_fail.

Lemma shows_written app_ st f v l k v' : app_ = appends f -> shows st v -> written f l v k v' ->
  shows (put (writable f) app_ st l) v' /\ k = if writable f then zlen l else 0.
Proof.
  intros -> [] Hw. unfold written, put in *. destruct (writable f); cbn [negb] in *.
  - destruct Hw as [(-> & q & t & ->)|[? _]]; [|done]. split; [|done]. unfold wrote. rewrite sh_text0, sh_place0.
    destruct (write_at _ _ _ l) as [d p]. by split.
  - destruct Hw as [-> Hr]. split; [|done]. unfold refused in Hr. subst v'. by split.
Qed.

Lemma shows_took st v l v' short : shows st v -> took l v v' -> err v' = err v -> eof v' = eof v || short ->
  shows (take_out st (length l) short) v' /\ l = take (length l) (next st).
Proof.
  intros [] [] Her Heo. rewrite sh_next0 in *. rewrite t_ahead, take_app_length.
  split; [|done]. unfold take_out. rewrite t_ahead, take_app_length, drop_app_length.
  split; cbn [text place next at_end failed reading pushed_back]; [congruence|congruence|done|congruence|congruence|done|lia].
Qed.

Lemma ended_at_end f v v' : readable f = true -> ended f v v' -> ahead v' = [] /\ eof v' = true /\ err v' = err v.
Proof. intros Hr [?|[[Hf|?] _]]; [done|congruence|done]. Qed.

Lemma shows_fetched st v f n l v' : readable f = true -> shows st v -> fetched f n v l v' ->
  shows (take_out st (Z.to_nat n) (zlen (next st) <? n)) v' /\ l = take (Z.to_nat n) (next st).
Proof.
  intros Hr Hs [Ht [[Hl [He Hf]]|[Hl Hend]]]; pose proof (t_ahead _ _ _ Ht) as Ha; rewrite (sh_next _ _ Hs) in Ha.
  - rewrite <- Hl, Nat2Z.id. apply (shows_took _ _ _ _ _ Hs Ht Hf). rewrite He, Ha, length_app.
    rewrite (proj2 (Z.ltb_ge _ _)) by lia. by rewrite orb_false_r.
  - destruct (ended_at_end _ _ _ Hr Hend) as (Hnil & He & Hf). rewrite Hnil, app_nil_r in Ha.
    destruct (shows_took _ _ _ _ true Hs Ht Hf) as [Hs' _]; [by rewrite orb_true_r|].
    rewrite Ha, take_ge by lia. rewrite (proj2 (Z.ltb_lt _ _)) by lia. split; [|done].
    unfold take_out in *. rewrite Ha in *. rewrite firstn_all, drop_all in Hs'. rewrite take_ge, drop_ge by lia. done.
Qed.

Lemma shows_got st v f c v' : readable f = true -> shows st v -> got f v c v' ->
  shows (take_out st 1 (length (next st) =? 0)%nat) v' /\ c = match next st with c :: _ => c | [] => EOF end.
Proof.
  intros Hr Hs [(Hc & Ht & He & Hf)|(-> & Ht & Hend)]; pose proof (t_ahead _ _ _ Ht) as Ha; rewrite (sh_next _ _ Hs) in Ha.
  - destruct (shows_took _ _ [c] _ (length (next st) =? 0)%nat Hs Ht Hf) as [Hs' _]; rewrite Ha in *; [|done].
    by rewrite He, orb_false_r.
  - destruct (ended_at_end _ _ _ Hr Hend) as (Hnil & He & Hf). rewrite Hnil in Ha.
    destruct (shows_took _ _ [] _ true Hs Ht Hf) as [Hs' _]; [by rewrite orb_true_r|].
    unfold take_out in *. rewrite Ha in *. done.
Qed.

Lemma shows_pushed st v c v1 v' : shows st v -> took [] v v1 -> same_flags v v1 -> pushed c v1 v' ->
  shows (Stream (text st) (place st - 1) (c :: next st) false (failed st) true (pushed_back st + 1)) v'.
Proof.
  intros [] [] [He Hf] (Hd & Hh & Ha & _ & _ & He' & Hf' & Hro & _).
  split; cbn [text place next at_end failed reading pushed_back]; try congruence.
  - rewrite Hh, t_here, sh_place0. simpl. lia.
  - rewrite Ha. simpl in t_ahead. congruence.
  - cbn [length Z.of_nat] in *. unfold UNGET in *. lia.
Qed.

Lemma shows_line st v f n q ok v' : readable f = true -> shows st v -> 0 <= n -> line_got f n v [] (ok, q) v' ->
  let l := first_line (Z.to_nat n) (next st) in
  let whole := (zlen l =? n) || bool_decide (last l = Some newline) in
  q = l /\ ok = (if whole || negb (length l =? 0)%nat then Some tt else None) /\ shows (take_out st (length l) (negb whole)) v'.
Proof.
  intros Hr Hs Hn (q' & Hq & Ht & Hc) l whole. cbn [fst snd app] in *. subst q'.
  destruct Hc as [(-> & Hw & [He Hf] & ->)|(Hlen & Hnl & Hend & ->)].
  - rewrite (sh_next _ _ Hs) in *. fold l in Ht, Hw |- *.
    assert (Hwh : whole = true).
    { unfold whole. destruct Hw as [Hw|Hw]; [by rewrite Hw, Z.eqb_refl|]. rewrite (bool_decide_eq_true_2 _ Hw). by rewrite orb_true_r. }
    rewrite Hwh. split; [done|]. split; [done|]. apply (shows_took _ _ _ _ _ Hs Ht Hf). by rewrite He, orb_false_r.
  - destruct (ended_at_end _ _ _ Hr Hend) as (Hnil & He & Hf). pose proof (t_ahead _ _ _ Ht) as Ha.
    rewrite Hnil, app_nil_r, (sh_next _ _ Hs) in Ha.
    assert (Hl : l = q).
    { unfold l. rewrite Ha, <- (app_nil_r q), first_line_app by (done || lia). by destruct (_ - _)%nat. }
    assert (Hwh : whole = false).
    { unfold whole. rewrite Hl, (proj2 (Z.eqb_neq _ _)) by lia. apply bool_decide_eq_false. intros Hlast.
      apply Hnl. apply last_Some in Hlast as [l' ->]. apply elem_of_app. right. by apply list_elem_of_singleton. }
    rewrite Hwh, Hl, He. split; [done|]. split; [by destruct q|].
    apply (shows_took _ _ _ _ _ Hs Ht Hf). by rewrite He, orb_true_r.
Qed.

Lemma shows_go st v' p e : data v' = text st -> here v' = p -> ahead v' = drop (Z.to_nat p) (text st) -> eof v' = e -> err v' = failed st ->
  buffered v' = [] -> room v' = UNGET -> shows (go_to st p e) v'.
Proof. intros. split; cbn; try done. unfold UNGET in *. lia. Qed.

Lemma shows_like st v v' : shows st v -> data v' = data v -> here v' = here v -> ahead v' = ahead v -> buffered v' = buffered v ->
  eof v' = eof v -> err v' = err v -> room v <= room v' -> shows st v'.
Proof. intros [] ? ? ? ? ? ? ?. split; try congruence; [intros Hr; rewrite <- sh_reading0 by done; congruence|lia]. Qed.

(** An idle stream has all the room for bytes pushed back. *)
Lemma idle_room s : inv s -> direction (view_of s) = Idle -> room (view_of s) = UNGET.
Proof.
  intros Hi Hd. destruct (pointers_near s Hi) as [_ Hz]. unfold view_of, dir_of in *. cbn [direction room] in *.
  destruct (wend (file s) =? 0); [|done]. destruct (Z.eqb_spec (rend (file s)) 0) as [He|]; [|done]. by rewrite (Hz He).
Qed.

Lemma runs_idle {A} (m : M (io X) A) s Q : runs m s Q -> runs m s (fun a v => Q a v /\ (direction v = Idle -> room v = UNGET)).
Proof. intros (a & s' & ? & Hi & ? & ? & ?). exists a, s'. split_and!; try done. by apply idle_room. Qed.

Abbreviation expects s := (expected (readable (file s)) (writable (file s)) (appends (file s)) (buf_size (file s)) limit).

Lemma can_put_spec s st l : shows st (view_of s) -> can_put (appends (file s)) limit st l = true ->
  buffered (view_of s) = [] /\ (write_at (appends (file s)) (data (view_of s)) (here (view_of s)) l).2 <= limit.
Proof.
  intros []. unfold can_put. intros [Hr Hl%Z.leb_le]%andb_true_iff. rewrite sh_text0, sh_place0. split; [|done].
  apply orb_true_iff in Hr as [Hr%negb_true_iff|Hr%Nat.eqb_eq%length_zero_iff_nil]; [by apply sh_reading0|].
  rewrite Hr in sh_next0. cbn [ahead view_of] in sh_next0. by apply app_eq_nil in sh_next0 as [? _].
Qed.

Lemma expected_allowed s st c x : inv s -> shows st (view_of s) -> expects s st c = Some x -> may_call (file s) (view_of s) c.
Proof.
  intros Hi Hs He. assert (Hq : may_turn (view_of s)) by by right.
  destruct c; unfold may_call; cbn [expected output] in *; try (by split); case_match eqn:Hg; try done; clear He;
    repeat match goal with H : _ && _ = true |- _ => apply andb_true_iff in H as [? ?] end;
    repeat match goal with H : can_put _ _ _ _ = true |- _ => apply (can_put_spec s) in H as [? ?]; [|done] end;
    rewrite ?Z.leb_le, ?Z.ltb_lt in *.
  - split; [|done]. split_and!; try done. apply Forall_forall. intros b Hb%list_elem_of_In.
    match goal with H : forallb _ _ = true |- _ => rewrite forallb_forall in H; specialize (H b Hb) end. lia.
  - done.
  - done.
  - split; [|done]. split_and!; try done; [by apply Z.eqb_neq, negb_true_iff|]. destruct Hs. unfold UNGET in *. lia.
  - done.
  - split; [|done]. split_and!; try done; try lia. unfold seek_target. destruct Hs. by rewrite sh_text0, sh_place0.
Qed.

(** Seeks lead where they should, or nowhere. *)
Lemma shows_sought st f v off whence k v' : shows st v -> sought f off whence v k v' ->
  (direction v' = Idle -> room v' = UNGET) ->
  let t := (if whence =? SEEK_SET then 0 else if whence =? SEEK_CUR then place st else zlen (text st)) + off in
  (0 <= t /\ k = 0 /\ shows (go_to st t false) v') \/ (t < 0 /\ k = -1 /\ shows st v').
Proof.
  intros Hs Hc Hidle t. assert (Ht : seek_target v off whence = t) by (unfold seek_target; by rewrite (sh_text _ _ Hs), (sh_place _ _ Hs)).
  unfold sought in Hc. cbv zeta in Hc. rewrite Ht in Hc.
  destruct Hc as [(Hp & -> & Hd & Hh & Ha & Hb & _ & _ & He & Hr & Hdir)|[([Hn|?] & -> & Hd & Hh & Ha & Hb & _ & He & Hr & _ & Hro)|(? & [? _] & _)]]; try done.
  - left. split; [done|]. split; [done|]. destruct Hs. apply shows_go; try congruence. by apply Hidle.
  - right. split; [done|]. split; [done|]. by eapply shows_like.
Qed.

Lemma outcome_shows s st c x a v' : inv s -> shows st (view_of s) -> expects s st c = Some x ->
  outcome (file s) (view_of s) c a v' -> (direction v' = Idle -> room v' = UNGET) -> a = x.1 /\ shows x.2 v'.
Proof.
  intros Hi Hs He Ho Hidle. assert (Hl : forall z, 0 <= w32 z) by (intros; apply w32_range).
  destruct c; cbn [expected outcome] in *;
    repeat match goal with H : (if ?b then _ else _) = Some _ |- _ => destruct b eqn:?; [|done] end;
    repeat match goal with H : _ && _ = true |- _ => apply andb_true_iff in H as [? ?] end; try (injection He as <-); cbn [fst snd].
  - destruct Ho as (k & Hk & ->). eapply shows_written in Hk as [Hs' ->]; [|done..]. split; [|done]. f_equal.
    rewrite length_take. replace (Z.of_nat (Nat.min _ _)) with (w32 (size * nmemb)) by (specialize (Hl (size * nmemb)); lia).
    destruct (writable (file s)); cbn [orb]; [by rewrite Z.eqb_refl|]. rewrite (Z.eqb_sym 0). by destruct (w32 _ =? 0).
  - destruct Ho as (k & Hk & ->). eapply shows_written in Hk as [Hs' ->]; [|done..]. split; [|done]. by destruct (writable (file s)).
  - destruct Ho as (l & Hf & ->). eapply shows_fetched in Hf as [Hs' ->]; [|done..]. done.
  - destruct Ho as (c & Hc & ->). eapply shows_got in Hc as [Hs' ->]; [|done..]. done.
  - destruct Ho as (v1 & Ht & Hf & _ & Hp & ->). split; [done|]. by eapply shows_pushed.
  - destruct Ho as (q & ok & Hg & ->). eapply shows_line in Hg as (-> & -> & Hs'); [|done..|lia]. split; [|done]. by case_match.
  - destruct Ho as [(-> & Hd & Ha & Hb & _ & _ & Heo & Her & Hdir & Hh)|(? & ? & [? _] & _)]; [|done]. split; [done|].
    destruct Hh as [Hh|([?|Hn] & _)]; [|done|destruct Hs; lia]. destruct Hs. apply shows_go; try congruence. by apply Hidle.
  - destruct Ho as (k & Hk & ->). destruct (shows_sought st _ _ _ _ _ _ Hs Hk Hidle) as [(? & -> & ?)|(? & -> & ?)].
    + rewrite (proj2 (Z.ltb_ge _ 0)) in He by done. by injection He as <-.
    + rewrite (proj2 (Z.ltb_lt _ 0)) in He by done. by injection He as <-.
  - destruct Ho as ((Hd & Hh & Ha & Hb & _ & Heo & Her & _ & Hro) & Hc). split; [|by eapply shows_like; try done; lia].
    rewrite <- (sh_place _ _ Hs). destruct Hc as [[-> ?]|(-> & [?|?])]; [|done|]; f_equal; case_match; lia.
  - destruct Ho as [-> ->]. by rewrite (sh_end _ _ Hs).
  - destruct Ho as [-> ->]. by rewrite (sh_failed _ _ Hs).
  - destruct Ho as [-> ->]. split; [done|]. by destruct Hs.
Qed.

Lemma session_shows tid cs : forall s st x, 0 < tid -> inv s -> lock_ok tid (file s) -> shows st (view_of s) ->
  expected_all (readable (file s)) (writable (file s)) (appends (file s)) (buf_size (file s)) limit st cs = Some x ->
  runs (session tid cs) s (fun a v => a = x.1 /\ shows x.2 v).
Proof.
  induction cs as [|c cs IH]; intros s st x Ht Hi Hlk Hs He; cbn [session expected_all] in *.
  { injection He as <-. by apply runs_ret. }
  apply bind_Some in He as ([a st1] & He1 & ([l st2] & He2 & Hx)%bind_Some). injection Hx as <-. cbn [fst snd].
  eapply runs_bind; [apply runs_idle, call_runs; try done; by eapply expected_allowed|].
  intros a1 s1 Hi1 Hk1 Hl1 [Ho Hidle]. destruct (outcome_shows s st c _ _ _ Hi Hs He1 Ho Hidle) as [-> Hs1].
  destruct (kept_flags _ _ Hk1) as (Hr & Hw & Ha). pose proof Hk1 as [_ Hsz _ _]. rewrite <- Hr, <- Hw, <- Ha, <- Hsz in He2.
  eapply runs_bind; [eapply IH; [done|done| |exact Hs1|exact He2]|].
  { unfold lock_ok in *. by rewrite Hl1. }
  intros l1 s2 Hi2 _ _ [-> Hs2]. by apply runs_ret.
Qed.
End Refinement.

(** ** The theorems *)

(** C28: an allowed call on a stream in order returns, whatever the device does:
    no access is outside the buffer, and the stream is in order afterwards, with
    the same buffer, descriptor, permissions and lock. *)
Theorem stream_safe {X} `{DeviceLaws X} tid (s : io X) c : 0 < tid -> inv s -> lock_ok tid (file s) ->
  may_call (file s) (view_of s) c ->
  exists a s', do_call tid c s = Ret (a, s') /\ inv s' /\ kept (file s) (file s') /\ lock (file s') = lock (file s).
Proof.
  intros Ht Hi Hlk Hc. destruct (call_runs tid s c Ht Hi Hlk Hc) as (a & s' & Hr & Hi' & Hk & Hl & _). by exists a, s'.
Qed.

(** C29: [fwrite] on a device that may fail: a stream that cannot be written
    refuses and sets its error indicator; all bytes are written, in the buffer or
    below, at the position or at the end; or the device has failed, and then the
    file below has a prefix of the bytes queued and given, the result counts the
    items of it that were given, nothing stays queued, and the error indicator is
    set where the device reports. *)
Theorem fwrite_spec {X} `{DeviceLaws X} tid (s : io X) src size nmemb : 0 < tid -> inv s -> lock_ok tid (file s) ->
  may_call (file s) (view_of s) (Fwrite src size nmemb) ->
  let f := file s in let v := view_of s in let l := w32 (size * nmemb) in let bs := take (Z.to_nat l) src in
  exists k s', fwrite tid src size nmemb s = Ret (if k =? l then if size =? 0 then 0 else nmemb else k / size, s') /\ inv s' /\
    let v' := view_of s' in
    if negb (writable f) then k = 0 /\ v' = with_flags (eof v) true v
    else
      (k = l /\ (data v', here v') = write_at (appends f) (data v) (here v) bs /\ eof v' = eof v /\ err v' = err v) \/
      (may_fail /\ exists n, 0 <= n < zlen (queued v ++ bs) /\ k = Z.max 0 (n - zlen (queued v)) /\
        (disk s', offset s') = write_at (appends f) (disk s) (offset s) (take (Z.to_nat n) (queued v ++ bs)) /\
        queued v' = [] /\ (reports -> err v' = true)).
Proof.
  intros Ht Hi Hlk [(Hb & Hby & Hl & Hsz) Hlim] f v l bs.
  destruct (fwrite_runs tid s src size nmemb) as (r & s' & Hr & Hi' & _ & _ & k & Hk & ->); try done.
  exists k, s'. split; [done|]. split; [done|]. unfold written in Hk. cbv zeta. fold f v l bs in Hk. destruct (negb (writable f)); [done|].
  assert (Hbl : zlen bs = l) by (unfold bs; rewrite length_take; pose proof (w32_range (size * nmemb)); lia).
  destruct Hk as [(-> & q & t & Hv)|(Hm & n & Hn & Hkn & Hd & _ & _ & Hq & Hse & _ & _ & Hrep)]; [left|right].
  - rewrite Hv, Hbl. unfold wrote. by destruct (write_at _ _ _ bs).
  - split; [done|]. exists n. split; [done|]. split; [done|]. split.
    + assert (Hds : (disk s', offset s') = sent (view_of s')) by done. by rewrite Hds, Hse.
    + split; [done|]. intros Hp. by destruct (Hrep Hp).
Qed.

(** C27: a session on a stream over a device that does not fail gives what the
    stream without a buffer gives, call by call, and a final [fflush] leaves in
    the file below the text that the program has written. *)
Theorem stream_refines {X} `{DeviceLaws X} tid (s : io X) cs st l st' : ~ may_fail -> 0 < tid -> inv s -> lock_ok tid (file s) ->
  shows st (view_of s) ->
  expected_all (readable (file s)) (writable (file s)) (appends (file s)) (buf_size (file s)) limit st cs = Some (l, st') ->
  exists s', session tid cs s = Ret (l, s') /\ inv s' /\ shows st' (view_of s') /\
    exists s'', fflush tid s' = Ret (0, s'') /\ disk s'' = text st'.
Proof.
  intros Hrel Ht Hi Hlk Hs He. destruct (session_shows Hrel tid cs s st _ Ht Hi Hlk Hs He) as (l' & s' & Hr & Hi' & _ & Hl & -> & Hs').
  exists s'. split_and!; try done. cbn [snd] in Hs'.
  destruct (fflush_runs tid s') as (r & s'' & Hf & _ & _ & _ & [[-> Hy]|(? & ? & [? _] & _)]); [done|done|by unfold lock_ok in *; rewrite Hl| |done].
  exists s''. split; [done|]. destruct Hy as (Hd & _ & _ & _ & Hsent & _). change (disk s'') with (sent (view_of s'')).1.
  rewrite Hsent. cbn [fst]. by rewrite Hd, (sh_text _ _ Hs').
Qed.
