(* ===== verification/PrintfTheorems.v ===== *)
(** The [printf] functions on strings and on streams: both take text, so what a
    format prints ([PrintfProofs.formats]) arrives there. *)
From S2P Require Import Prelude.
From S2P Require Import Wasi.
From S2P Require Import IntScan.
From S2P Require Import IntScanProofs.
From S2P Require Import IntScanTheorems.
From S2P Require Import Utf8.
From S2P Require Import Stdio.
From S2P Require Import StdioProofs.
From S2P Require Import StdioOps.
From S2P Require Import Printf.
From S2P Require Import PrintfProofs.

(** A stream without a lock. *)
Lemma with_lock_none {X A} tid (m : M (io X) A) s r : lock (file s) < 0 -> m s = Ret r -> with_lock tid m s = Ret r.
Proof.
  intros Hl Hm. unfold with_lock. rewrite gets_bind, (proj2 (Z.leb_gt 0 _)) by done. destruct r as [a s'].
  mnext. by mnext_by Hm.
Qed.

(** ** Strings *)
Section Strings.
(** The caller's bytes, and how many of them are for text. *)
Variables (mem0 : list Z) (cap : nat) (err : Z).
Hypothesis room : (cap < length mem0)%nat.

(** [t] has been written, but for the terminator. *)
Record sn_mid (c : cookie_) (t : list Z) : Prop := {
  sm_s : sn_s c = zlen (take cap t);
  sm_n : sn_n c = Z.of_nat cap - sn_s c;
  sm_text : take (Z.to_nat (sn_s c)) (sn_mem c) = take cap t;
  sm_rest : drop (S (Z.to_nat (sn_s c))) (sn_mem c) = drop (S (Z.to_nat (sn_s c))) mem0;
  sm_len : length (sn_mem c) = length mem0 }.

Lemma sn_copy_spec f e l t : sn_mid (world e) t ->
  exists c, sn_copy l (Io f e) = Ret (tt, Io f (Env (errno e) c)) /\ sn_mid c (t ++ l).
Proof.
  intros [Hs Hn Ht Hr Hl]. unfold sn_copy. rewrite gets_bind. cbn [world sys]. set (c := world e) in *.
  rewrite length_take in Hs. set (k := Z.min (sn_n c) (zlen l)).
  assert (Hk : Z.to_nat k = (Nat.min cap (length t + length l) - Nat.min cap (length t))%nat) by lia.
  assert (Htk : take cap (t ++ l) = take cap t ++ take (Z.to_nat k) l).
  { rewrite take_app. f_equal. destruct (decide (cap <= length t)%nat); [replace (cap - length t)%nat with O by lia; by replace (Z.to_nat k) with O by lia|].
    destruct (Nat.le_gt_cases (length l) (cap - length t)) as [Hle|Hgt].
    - rewrite !take_ge by lia. done.
    - f_equal. lia. }
  destruct (Z.eqb_spec k 0) as [Hz|Hz].
  - exists c. split; [by destruct e|]. rewrite Hz in *. cbn [Z.to_nat take] in Htk. rewrite app_nil_r in Htk.
    split; rewrite ?Htk; try done. by rewrite length_take.
  - rewrite (proj2 (Z.ltb_ge _ _)) by lia. eexists. split; [reflexivity|].
    assert (Hls : length (take (Z.to_nat (sn_s c)) (sn_mem c)) = Z.to_nat (sn_s c)) by (rewrite length_take; lia).
    assert (Hlk : length (take (Z.to_nat k) l) = Z.to_nat k) by (rewrite length_take; lia).
    split; cbn [sn_s sn_n sn_mem].
    + rewrite length_take, length_app. lia.
    + lia.
    + rewrite Htk, Ht, app_assoc. rewrite take_app_length'; [done|]. rewrite <- Ht, length_app. lia.
    + rewrite !drop_app, !drop_ge by lia. cbn [app]. rewrite !drop_drop, Hls, Hlk.
      replace (Z.to_nat (sn_s c + k) + (S (Z.to_nat (sn_s c + k)) - Z.to_nat (sn_s c) - Z.to_nat k))%nat with
        (S (Z.to_nat (sn_s c)) + Z.to_nat k)%nat by lia.
      rewrite <- drop_drop, Hr, drop_drop. f_equal. lia.
    + rewrite !length_app, Hls, Hlk, length_drop. lia.
Qed.

Definition sn_ok (c : cookie_) (t : list Z) : Prop := sn_mid c t /\ sn_mem c !! Z.to_nat (sn_s c) = Some 0.

Lemma sn_end_spec f e t : sn_mid (world e) t ->
  exists c, sn_end (Io f e) = Ret (tt, Io f (Env (errno e) c)) /\ sn_ok c t.
Proof.
  intros [Hs Hn Ht Hr Hl]. unfold sn_end. rewrite gets_bind. cbn [world sys]. set (c := world e) in *.
  rewrite length_take in Hs. rewrite (proj2 (Z.leb_gt _ _)) by lia. eexists. split; [reflexivity|].
  split; [split; cbn [sn_s sn_n sn_mem]|cbn [sn_s sn_mem]].
  - by rewrite length_take.
  - done.
  - rewrite take_insert_ge by lia. done.
  - rewrite drop_insert_lt by lia. done.
  - by rewrite length_insert.
  - apply list_lookup_insert_eq. lia.
Qed.

Lemma sn_result c t : sn_ok c t -> sn_mem c = take cap t ++ 0 :: drop (S (length (take cap t))) mem0.
Proof.
  intros [[Hs Hn Ht Hr Hl] H0]. rewrite <- (take_drop_middle _ _ _ H0), Ht, Hr, Hs, Nat2Z.id. done.
Qed.

(** What the stream has been given: the text stored and the bytes in its
    buffer. *)
Definition sn_sink (s : io cookie_) (t : list Z) : Prop :=
  let f := file s in
  wf f /\ w_on f /\ has (flags f) F_ERR = false /\ lbf f < 0 /\ errno (sys s) = err /\
  exists t1, t = t1 ++ pending f /\ sn_ok (world (sys s)) t1.

Lemma sn_write_spec f e l t1 : wf f -> w_on f -> sn_ok (world e) t1 ->
  exists c, sn_write l (Io f e) = Ret (zlen l, Io (set_w (wend f) (buf f) (buf f) f) (Env (errno e) c)) /\ sn_ok c (t1 ++ pending f ++ l).
Proof.
  intros Hwf (Hwb & Hwp & Hwe) [Hm _]. pose proof Hwf as []. unfold UNGET in *. unfold sn_write. rewrite gets_bind. cbn [file].
  rewrite (bind_Ret _ _ _ _ _ (load_slice f e (wbase f) (wpos f - wbase f) ltac:(lia) ltac:(unfold UNGET; lia) ltac:(unfold UNGET; lia))).
  fold (pending f). destruct (sn_copy_spec f e (pending f) t1 Hm) as (c1 & Hc1 & Hm1). rewrite (bind_Ret _ _ _ _ _ Hc1).
  destruct (sn_copy_spec f (Env (errno e) c1) l _ Hm1) as (c2 & Hc2 & Hm2). rewrite (bind_Ret _ _ _ _ _ Hc2).
  destruct (sn_end_spec f (Env (errno e) c2) _ Hm2) as (c3 & Hc3 & Hok). rewrite (bind_Ret _ _ _ _ _ Hc3).
  exists c3. split; [done|]. by rewrite app_assoc.
Qed.

#[local] Instance sn_takes : Sink sn_sink INT_MAX.
Proof.
  intros [f e] t l (Hwf & Hon & Herr & Hlbf & He & t1 & -> & Hok) Hl _. cbn [file sys] in *. pose proof Hon as (Hwb & Hwp & Hwe).
  pose proof Hwf as []. unfold UNGET in *.
  unfold out. rewrite gets_bind. cbn [file]. rewrite Herr. cbn [negb when]. unfold __fwritex.
  assert (Hready : ready_to_write (Io f e) = Ret (true, Io f e)).
  { unfold ready_to_write. rewrite gets_bind. cbn [file]. rewrite (proj2 (Z.eqb_neq (wend f) 0)) by lia. done. }
  rewrite bind_assoc, (bind_Ret _ _ _ _ _ Hready). cbn [negb]. rewrite bind_assoc, gets_bind. cbn [file].
  rewrite w32_small by lia. destruct (Z.ltb_spec (wend f - wpos f) (zlen l)).
  - destruct (sn_write_spec f e l t1 Hwf Hon Hok) as (c & Hw & Hok'). cbn [f_write string_device].
    rewrite (bind_Ret _ _ _ _ _ Hw). eexists. split; [reflexivity|]. unfold sn_sink. cbn [file sys world].
    split_and!; try done; [unfold w_on; cbn; lia|]. exists (t1 ++ pending f ++ l). split; [|done].
    unfold pending. cbn. rewrite Z.sub_diag. by rewrite app_nil_r, app_assoc.
  - rewrite (proj2 (Z.leb_gt 0 (lbf f))) by lia. cbn [Nat.ltb].
    destruct (buffer_bytes_at f e l Hwf Hon Hl) as (bs & Hb & Hwf2 & Hon2 & Hp2); [lia|].
    change (0 <? 0)%nat with false. cbn iota. rewrite bind_assoc, (bind_Ret _ _ _ _ _ Hb). eexists. split; [reflexivity|]. unfold sn_sink. cbn [file sys].
    split_and!; try done. exists t1. by rewrite Hp2, app_assoc.
Qed.

(** The buffer is stored at the end. *)
Lemma sn_flush f e t : sn_sink (Io f e) t -> exists c, sn_write [] (Io f e) = Ret (0, Io (set_w (wend f) (buf f) (buf f) f) (Env err c)) /\ sn_ok c t.
Proof.
  intros (Hwf & Hon & _ & _ & He & t1 & -> & Hok). cbn [file sys] in *.
  destruct (sn_write_spec f e [] t1 Hwf Hon Hok) as (c & Hw & Hok'). exists c. by rewrite app_nil_r, He in *.
Qed.

(** The address and the bytes of [internal_buf]. *)
Definition buffer_ok (b : Z * list Z) : Prop :=
  UNGET < fst b /\ fst b + 80 < 2 ^ 31 /\ UNGET + 80 <= zlen (snd b) /\ byte_list (snd b).

Section Text.
Context {F : Type}.
Variable fmt_fp : F -> Z -> Z -> Z -> Z -> M (io cookie_) Z.
Variable strerror : Z -> list Z.
Variables mb_cur_max tid : Z.

(** The stream when the output begins. *)
Definition ready_FILE (b : Z * list Z) : FILE :=
  File 0 0 0 (fst b + 80) (fst b) (fst b) Stdio_write (fst b) 80 (snd b) 0 (-1) (-1) EOF.

Lemma vfprintf_string internal_buf stack_buf fmt (args : list (argument F)) o c0 : buffer_ok internal_buf ->
  formats fmt args o -> zlen o <= INT_MAX -> sn_ok c0 [] ->
  exists f' c, vfprintf fmt_fp strerror mb_cur_max tid internal_buf fmt args (Io (string_FILE stack_buf) (Env err c0)) =
    Ret ((zlen o, []), Io f' (Env err c)) /\ sn_ok c o.
Proof.
  intros (Hb1 & Hb2 & Hb3 & Hb4) Hf Ho Hok. unfold UNGET in *. set (s0 := Io (string_FILE stack_buf) (Env err c0)).
  set (s1 := Io (ready_FILE internal_buf) (Env err c0)).
  assert (Hs1 : sn_sink s1 []).
  { split_and!; try done; unfold w_on, ready_FILE; cbn; try lia.
    exists []. split; [|done]. unfold pending. cbn. by rewrite Z.sub_diag. }
  destruct (core_prints fmt_fp strerror mb_cur_max (S (S (length fmt))) fmt args o 0 0 [] Hf ltac:(lia) ltac:(lia) ltac:(lia) ltac:(lia)) as [rest Hp].
  destruct (Hp s1 [] Hs1 Ho) as ([f2 e2] & Hr & Hs2). destruct (sn_flush _ _ _ Hs2) as (c & Hw & Hokc).
  pose proof Hs2 as (Hwf & Hon & Herr & _). cbn [file] in *. destruct Hwf as []. unfold UNGET in *.
  eexists _, c. split; [|exact Hokc]. unfold vfprintf.
  mnext_by (core_dry fmt_fp strerror mb_cur_max (S (S (length fmt))) fmt args o 0 0 [] args s0 Hf
    ltac:(lia) ltac:(lia) ltac:(lia) ltac:(lia)).
  cbn [Z.ltb Z.compare ap nl_arg nl_type in_order]. apply with_lock_none; [done|].
  mnext. mnext. mnext. etransitivity; [apply (bind_Ret _ _ _ true s1); reflexivity|]. cbn [negb].
  etransitivity; [apply (bind_Ret _ _ _ (zlen o, []) (Io f2 e2)); by mnext_by Hr|]. cbn beta iota.
  etransitivity; [eapply bind_Ret|].
  { cbn [buf_size file s0 string_FILE Z.eqb]. mnext_by Hw. mnext. mnext. cbn [wpos file set_w].
    rewrite (proj2 (Z.eqb_neq (buf f2) 0)) by lia. reflexivity. }
  mnext. mnext. cbn [file flags set_w set_buf]. rewrite Herr. reflexivity.
Qed.
End Text.
End Strings.

Lemma vsnprintf_string {F} (fmt_fp : F -> Z -> Z -> Z -> Z -> M (io cookie_) Z) strerror mb_cur_max tid stack_buf internal_buf
    (s : list Z) n fmt (args : list (argument F)) o err :
  formats fmt args o -> zlen o <= INT_MAX -> 0 <= n <= INT_MAX -> n <= zlen s -> buffer_ok internal_buf ->
  exists c, vsnprintf fmt_fp strerror mb_cur_max tid stack_buf internal_buf s n fmt args err =
    Ret (zlen o, [], (if n =? 0 then s else sn_mem c), err) /\ (n <> 0 -> sn_ok s (Z.to_nat (n - 1)) c o).
Proof.
  intros Hf Ho Hn Hs Hb. unfold vsnprintf. rewrite (proj2 (Z.ltb_ge INT_MAX n)) by lia.
  set (mem := if n =? 0 then [0] else s). set (cap := Z.to_nat (n - 1)).
  assert (Hm : (cap < length mem)%nat) by (unfold mem, cap; destruct (Z.eqb_spec n 0); simpl; lia).
  replace (length mem =? 0)%nat with false by (symmetry; apply Nat.eqb_neq; lia).
  set (c0 := SnCookie _ 0 _).
  assert (Hok : sn_ok mem cap c0 []).
  { assert (Hl : length (<[O:=0]> mem) = length mem) by apply length_insert.
    split; [split|]; cbn [c0 sn_s sn_n sn_mem]; rewrite ?take_nil; try done.
    - unfold cap. destruct (Z.eqb_spec n 0); lia.
    - by rewrite drop_insert_lt by lia.
    - apply list_lookup_insert_eq. lia. }
  destruct (vfprintf_string mem cap err Hm fmt_fp strerror mb_cur_max tid internal_buf stack_buf fmt args o c0 Hb Hf Ho Hok) as (f' & c & -> & Hc).
  exists c. split; [done|]. intros Hn0. unfold mem in Hc. by rewrite (proj2 (Z.eqb_neq n 0)) in Hc.
Qed.

(** C30: [vsnprintf] returns the length of what the format prints, stores as
    much of it as fits in front of a terminator, and nothing behind that; the
    stream, its buffer and its pointers do not show. *)
Theorem vsnprintf_spec {F} (fmt_fp : F -> Z -> Z -> Z -> Z -> M (io cookie_) Z) strerror mb_cur_max tid stack_buf internal_buf
    (s : list Z) n fmt (args : list (argument F)) o err :
  formats fmt args o -> zlen o <= INT_MAX -> 0 <= n <= INT_MAX -> n <= zlen s -> buffer_ok internal_buf ->
  vsnprintf fmt_fp strerror mb_cur_max tid stack_buf internal_buf s n fmt args err =
  Ret (zlen o, [], (if n =? 0 then s else
    let kept := take (Z.to_nat (n - 1)) o in kept ++ 0 :: drop (S (length kept)) s), err).
Proof.
  intros Hf Ho Hn Hs Hb.
  destruct (vsnprintf_string fmt_fp strerror mb_cur_max tid stack_buf internal_buf s n fmt args o err Hf Ho Hn Hs Hb) as (c & -> & Hc).
  destruct (Z.eqb_spec n 0) as [|Hn0]; [done|]. by rewrite (sn_result _ _ _ _ (Hc Hn0)).
Qed.

(** ** Reading back *)

Lemma spaces_app a r : Forall (fun c => c = 32) a -> spaces (a ++ r) = (length a + spaces r)%nat.
Proof. by induction 1 as [|c a -> _ IH]; [done|]; cbn; rewrite IH. Qed.

Lemma digit_val c : 48 <= c < 58 -> digit_of c = c - 48 /\ is_blank c = false.
Proof.
  intros Hc. pose proof (forall_below (fun c => (digit_of c =? c - 48) && negb (is_blank c)) 48 10 eq_refl c ltac:(lia)) as H.
  apply andb_true_iff in H as [H1%Z.eqb_eq H2%negb_true_iff]. done.
Qed.

(** A sign, a numeral and what ends it. *)
Definition decimal_digits (ds : list Z) : Prop := Forall (fun c => 48 <= c < 58) ds.
Definition decimal_value (ds : list Z) : Z := value 10 0 (map (fun c => c - 48) ds).

Lemma digits_app ds r : decimal_digits ds -> IntScanProofs.digits 10 r = [] -> IntScanProofs.digits 10 (ds ++ r) = map (fun c => c - 48) ds.
Proof.
  intros Hd Hr. induction Hd as [|c ds Hc _ IH]; [done|]. destruct (digit_val c Hc) as [Hv _]. cbn [app IntScanProofs.digits map].
  rewrite Hv, IH. by rewrite (proj2 (Z.ltb_lt (c - 48) 10)) by lia.
Qed.

Lemma digits_spaces n : IntScanProofs.digits 10 (chars n 32) = [].
Proof. unfold chars. by destruct (Z.to_nat n). Qed.

(** The sequence that [strtol] reads in any of the layouts of an integer. *)
Lemma subject_text sp sg ds n : Forall (fun c => c = 32) sp -> sg = [] \/ sg = [43] \/ sg = [45] -> decimal_digits ds ->
  exists k, subject 10 (sp ++ sg ++ ds ++ chars n 32) = (bool_decide (sg = [45]), decimal_value ds, k) /\ (k = O -> ds = []).
Proof.
  intros Hsp Hsg Hd. set (q := sg ++ ds ++ chars n 32).
  assert (Hq : (spaces q = O /\ sign q = (bool_decide (sg = [45]), length sg)) \/ (sg = [] /\ ds = [])).
  { unfold q. destruct Hsg as [->|[->| ->]]; [|by left..]. destruct ds as [|c ds]; [by right|left]. inversion Hd as [|? ? Hc _]; subst.
    destruct (digit_val c Hc) as [_ Hs]. cbn [app spaces]. rewrite Hs. split; [done|]. unfold sign. cbn [at_ lookup_total nth].
    unfold at_. cbn. rewrite (proj2 (Z.eqb_neq c 45)), (proj2 (Z.eqb_neq c 43)) by lia. done. }
  unfold subject. rewrite spaces_app by done. destruct Hq as [[Hs0 Hsi]|[-> ->]].
  - rewrite Hs0, Nat.add_0_r, drop_app_length. rewrite Hsi. unfold IntScanProofs.numeral. cbn [Z.eqb orb andb].
    rewrite <- drop_drop, drop_app_length. unfold q. rewrite drop_app_length, digits_app by (done || apply digits_spaces).
    eexists. split; [reflexivity|]. rewrite length_map. destruct ds; [done|simpl; lia].
  - assert (Hall : forall m, spaces (replicate m 32) = m) by (intros m; rewrite <- (app_nil_r (replicate m 32)), spaces_app by (by apply Forall_replicate); cbn; rewrite length_replicate; lia).
    unfold q, chars. cbn [app]. rewrite Hall. rewrite drop_app, drop_ge by lia.
    rewrite drop_ge by (rewrite length_replicate; lia). cbn [app sign]. exists O. split; [|done]. 
    change (sign []) with (false, O). cbn iota beta.
    rewrite drop_ge by (rewrite length_app, length_replicate; lia). done.
Qed.

Lemma value_zeros n ds : value 10 0 (map (fun c => c - 48) (replicate n 48 ++ ds)) = value 10 0 (map (fun c => c - 48) ds).
Proof. induction n as [|n IH]; [done|]. exact IH. Qed.

Lemma numeral_decimal k : forall n, 0 <= n < 10 ^ Z.of_nat k -> decimal_digits (numeral k 10 false n) /\ decimal_value (numeral k 10 false n) = n.
Proof.
  induction k as [|k IH]; intros n Hn; [split; [constructor|change (decimal_value _) with 0; simpl in Hn; lia]|]. cbn [numeral].
  destruct (Z.eqb_spec n 0) as [->|Hn0]; [split; [constructor|done]|]. rewrite Nat2Z.inj_succ, Z.pow_succ_r in Hn by lia.
  destruct (IH (n / 10)) as [Hd Hv]; [split; [apply Z.div_pos; lia|apply Z.div_lt_upper_bound; lia]|].
  pose proof (Z.mod_pos_bound n 10 ltac:(lia)). assert (Hc : digit_char false (n mod 10) = 48 + n mod 10) by (unfold digit_char; by rewrite (proj2 (Z.ltb_lt _ _)) by lia).
  rewrite Hc. split; [apply Forall_app_2; [done|]; repeat constructor; lia|].
  unfold decimal_value in *. rewrite map_app, value_app, Hv. cbn [map value fold_left]. pose proof (Z.div_mod n 10). lia.
Qed.

(** What [d] and [i] print, as [strtol] sees it. *)
Lemma signed_shape {F} (d : directive F) v : d_conv d = 100 \/ d_conv d = 105 -> - 2 ^ 63 <= v < 2 ^ 63 ->
  exists sp sg ds n, signed_text d v = sp ++ sg ++ ds ++ chars n 32 /\ Forall (fun c => c = 32) sp /\ (sg = [] \/ sg = [43] \/ sg = [45]) /\
    decimal_digits ds /\ decimal_value ds = Z.abs v /\ bool_decide (sg = [45]) = (v <? 0).
Proof.
  intros Hconv Hv. destruct (numeral_decimal 64 (Z.abs v)) as [Ha Hav]; [change (Z.of_nat 64) with 64; assert (2 ^ 63 < 10 ^ 64) by done; lia|].
  unfold signed_text, render_integer, integer_body. rewrite (proj2 (Z.eqb_neq (d_conv d) 111)) by lia. cbn [andb].
  set (a := numeral 64 10 false (Z.abs v)) in *. clearbody a. set (m := default 1 (prec_of d) - zlen a). set (sign := if v <? 0 then _ else _).
  assert (Hsign : exists sp0 sg, sign = sp0 ++ sg /\ Forall (fun c => c = 32) sp0 /\ (sg = [] \/ sg = [43] \/ sg = [45]) /\ bool_decide (sg = [45]) = (v <? 0)).
  { unfold sign. destruct (v <? 0); [exists [], [45]; by split_and!; auto|]. destruct (flag d 43); [exists [], [43]; by split_and!; auto|].
    destruct (flag d 32); [exists [32], []; split_and!; auto|exists [], []; by split_and!; auto]. }
  destruct Hsign as (sp0 & sg & -> & Hsp & Hsg & Hneg).
  assert (Hz : forall k l, decimal_digits l -> decimal_digits (chars k 48 ++ l) /\ decimal_value (chars k 48 ++ l) = decimal_value l).
  { intros k l Hl. split; [apply Forall_app_2; [apply Forall_replicate; lia|done]|apply value_zeros]. }
  destruct (Hz m a Ha) as [Hd1 Hv1]. rewrite Hav in Hv1. unfold layout. set (room := width_of d - _). destruct (left_of d).
  { exists sp0, sg, (chars m 48 ++ a), room. by rewrite <- !app_assoc. }
  destruct (flag d 48 && _).
  - destruct (Hz room _ Hd1) as [Hd2 Hv2]. exists sp0, sg, (chars room 48 ++ chars m 48 ++ a), 0. rewrite Hv1 in Hv2.
    cbn [chars replicate Z.to_nat]. by rewrite app_nil_r, <- !app_assoc.
  - exists (chars room 32 ++ sp0), sg, (chars m 48 ++ a), 0. cbn [chars replicate Z.to_nat]. rewrite app_nil_r, <- !app_assoc.
    split_and!; try done. apply Forall_app_2; [by apply Forall_replicate|done].
Qed.

(** C32: what [d] and [i] print for a value under any flags, width and
    precision, [strtoll] reads back as that value. *)
Theorem printf_strtoll {F} (fmt_fp : F -> Z -> Z -> Z -> Z -> M (io cookie_) Z) strerror mb_cur_max tid stack_buf internal_buf
    (s : list Z) n (d : directive F) v t err f :
  wellformed d -> d_conv d = 100 \/ d_conv d = 105 -> int_value (d_len d) true (d_arg d) = Some v -> render d = Some t ->
  zlen t < n <= INT_MAX -> n <= zlen s -> buffer_ok internal_buf ->
  exists rest k f', vsnprintf fmt_fp strerror mb_cur_max tid stack_buf internal_buf s n (show d) (args_of d) err =
    Ret (zlen t, [], t ++ 0 :: rest, err) /\ strtoll t 10 f = Ret ((v, k), f').
Proof.
  intros Hd Hconv Hv Ht Hn Hs Hb. assert (Hf : formats (show d) (args_of d) t).
  { rewrite <- (app_nil_r (show d)), <- (app_nil_r (args_of d)), <- (app_nil_r t). apply formats_conv; [done..|constructor]. }
  destruct (vsnprintf_string fmt_fp strerror mb_cur_max tid stack_buf internal_buf s n _ _ t err Hf ltac:(lia) ltac:(lia) Hs Hb) as (c & -> & Hc).
  rewrite (proj2 (Z.eqb_neq n 0)) by lia. rewrite (sn_result _ _ _ _ (Hc ltac:(lia))), take_ge by lia.
  assert (Hrange : - 2 ^ 63 <= v < 2 ^ 63).
  { destruct (int_value_cases _ _ _ _ Hv) as [z Hz]. pose proof (signed_range z). naive_solver. }
  assert (Hst : t = signed_text d v).
  { unfold render in Ht. rewrite Hv in Ht. by destruct Hconv as [Hc1|Hc1]; rewrite Hc1 in Ht; injection Ht as <-. }
  destruct (signed_shape d v Hconv Hrange) as (sp & sg & ds & m & Hsh & Hsp & Hsg & Hds & Hval & Hneg).
  destruct (subject_text sp sg ds m Hsp Hsg Hds) as (k & Hsub & Hk). rewrite <- Hsh, <- Hst in Hsub.
  assert (Hchars : Forall is_char t).
  { assert (Hblank : forall l, Forall (fun c => c = 32) l -> Forall is_char l) by (intros l Hl; eapply Forall_impl; [exact Hl|intros ? ->; done]).
    rewrite Hst, Hsh. repeat apply Forall_app_2; [by apply Hblank|by destruct Hsg as [->|[->| ->]]; repeat constructor| |apply Hblank; by apply Forall_replicate].
    eapply Forall_impl; [exact Hds|]. intros x Hx. cbv beta in Hx. unfold is_char. lia. }
  destruct (strtoll_runs t Hchars 10 f) as (f' & Hrun); [lia|]. eexists _, (Z.of_nat k), f'. split; [done|].
  unfold contract in Hrun. change (valid_base 10) with true in Hrun. cbn iota in Hrun. rewrite Hsub, Hneg, Hval in Hrun.
  assert (Hx : signed_value (v <? 0) (Z.abs v) = v) by (unfold signed_value; destruct (Z.ltb_spec v 0); lia).
  destruct k as [|k].
  - rewrite (Hk eq_refl) in Hval. assert (v = 0) as -> by (change (decimal_value []) with 0 in Hval; lia). apply Hrun.
  - unfold to_signed in Hrun. rewrite Hx in Hrun. cbv zeta in Hrun. rewrite Z.min_r, Z.max_r in Hrun by lia. apply Hrun.
Qed.

(** ** Streams *)
Lemma olderr_cases x : Z.land x F_ERR = if has x F_ERR then F_ERR else 0.
Proof.
  unfold has. destruct (Z.eqb_spec (Z.land x F_ERR) 0) as [->|Hn]; [done|]. cbn [negb]. change F_ERR with (2 ^ 5) in *.
  assert (Hb : forall n, 0 <= n -> Z.testbit (Z.land x (2 ^ 5)) n = (5 =? n) && Z.testbit x 5).
  { intros n Hn0. rewrite Z.land_spec, Z.pow2_bits_eqb by lia. destruct (Z.eqb_spec 5 n) as [<-|]; by rewrite ?andb_true_r, ?andb_false_r. }
  apply Z.bits_inj'. intros n Hn0. rewrite Hb, Z.pow2_bits_eqb by lia. destruct (Z.testbit x 5) eqn:H5; [by destruct (5 =? n)|].
  destruct Hn. apply Z.bits_inj'. intros m Hm. rewrite Hb, Z.bits_0 by done; by destruct (5 =? m).
Qed.

Lemma write_at_less app d p (l m : list Z) lim : p <= lim -> zlen d <= lim -> zlen m <= zlen l ->
  (write_at app d p l).2 <= lim -> (write_at app d p m).2 <= lim.
Proof.
  unfold write_at. intros Hp Hd Hm. destruct (decide (m = [])) as [|Hne]; [done|].
  destruct (decide (l = [])) as [->|]; [by destruct m|]. cbn [snd]. lia.
Qed.

Section Streams.
Context {X : Type} `{DeviceLaws X}.
Hypothesis reliable : ~ may_fail.
(** Where the output begins, and all of it. *)
Variables (s0 : io X) (o : list Z).
Hypothesis reach : forall t, zlen t <= zlen o -> (write_at (appends (file s0)) (data (view_of s0)) (here (view_of s0)) t).2 <= limit.
Hypothesis start : 0 <= here (view_of s0).
Hypothesis size : zlen o + buf_size (file s0) < 2 ^ 31.

Definition stream_sink (s : io X) (t : list Z) : Prop :=
  let v := view_of s in
  inv s /\ kept (file s0) (file s) /\ lock (file s) = lock (file s0) /\ writable (file s) = true /\ buffered v = [] /\ err v = false /\ eof v = eof (view_of s0) /\
  (data v, here v) = write_at (appends (file s0)) (data (view_of s0)) (here (view_of s0)) t.

#[local] Instance stream_takes : Sink stream_sink (zlen o).
Proof.
  intros s t l (Hi & Hk & Hlk & Hw & Hb & He & Hf & Hd) Hl Hc. destruct (kept_flags _ _ Hk) as (_ & _ & Ha).
  unfold out. rewrite gets_bind. change (has (flags (file s)) F_ERR) with (err (view_of s)). rewrite He. cbn [negb when].
  assert (Hd2 : write_at (appends (file s)) (data (view_of s)) (here (view_of s)) l =
    write_at (appends (file s0)) (data (view_of s0)) (here (view_of s0)) (t ++ l)).
  { rewrite Ha, write_at_app by done. by rewrite <- Hd. }
  destruct (fwritex_spec s l Hi Hb Hl) as (k & s' & Hr & Hi' & Hk' & Hlk' & Hq).
  { rewrite (k_size _ _ Hk). rewrite length_app in Hc. lia. }
  { rewrite Hd2. by apply reach. }
  unfold written in Hq. rewrite Hw in Hq. cbn [negb] in Hq. destruct Hq as [(-> & q & st & Hv)|[Hm _]]; [|done].
  mstep Hr. exists s'. split; [done|]. destruct (kept_flags _ _ Hk') as (_ & Hw' & _).
  unfold wrote in Hv. rewrite Hd2 in Hv. unfold stream_sink. destruct (write_at _ _ _ (t ++ l)) as [d p] eqn:Hwr. rewrite Hv. cbn [buffered err eof data here].
  split_and!; try done; [by etransitivity|congruence|congruence].
Qed.

Lemma core_streams {F} fmt_fp strerror mb_cur_max fuel fmt (args : list (argument F)) s : formats fmt args o -> (length fmt < fuel)%nat ->
  zlen o <= INT_MAX -> stream_sink s [] ->
  exists rest s', printf_core fmt_fp strerror mb_cur_max fuel true fmt (in_order args) 0 0 [] s = Ret ((zlen o, in_order rest, []), s') /\ stream_sink s' o.
Proof.
  intros Hf Hfu Ho Hs. destruct (core_prints fmt_fp strerror mb_cur_max fuel fmt args o 0 0 [] Hf Hfu ltac:(lia) ltac:(lia) ltac:(lia)) as [rest Hp].
  destruct (Hp s [] Hs) as (s' & Hr & Hs'); [simpl; lia|]. by exists rest, s'.
Qed.
End Streams.

(** The error indicator is taken away for the time of the output. *)
Lemma clear_err {X} `{DeviceLaws X} f e : inv (Io f e) -> mode f < 1 \/ err (view_of (Io f e)) = false ->
  exists f1, when (mode f <? 1) (clear_flag F_ERR) (Io f e) = Ret (tt, Io f1 e) /\ inv (Io f1 e) /\ kept f f1 /\ lock f1 = lock f /\
    view_of (Io f1 e) = with_flags (eof (view_of (Io f e))) false (view_of (Io f e)).
Proof.
  intros Hi Hm. destruct (Z.ltb_spec (mode f) 1) as [Hlt|Hge].
  - pose proof (clear_alike f F_ERR eq_refl) as Ha. set (f1 := set_flags (Z.land (flags f) (Z.lnot F_ERR)) f) in *. exists f1.
    assert (He : at_eof f1 = at_eof f) by (unfold at_eof, f1; cbn [flags set_flags]; by rewrite has_clear).
    assert (Hr : in_error f1 = false) by (unfold in_error, f1; cbn [flags set_flags]; by rewrite has_cleared).
    split_and!; try done.
    + eapply alike_inv; [exact Ha| |done]. rewrite He. apply (i_eof _ Hi).
    + apply Ha.
    + rewrite (alike_view f f1) by done. by rewrite He, Hr.
  - destruct Hm as [|Hm]; [lia|]. exists f. split_and!; try done. unfold with_flags. rewrite <- Hm. by destruct (view_of _).
Qed.

Lemma restore_err {X} `{DeviceLaws X} f e x : inv (Io f e) -> err (view_of (Io f e)) = false ->
  let f1 := set_flags (Z.lor (flags f) (Z.land x F_ERR)) f in
  inv (Io f1 e) /\ kept f f1 /\ lock f1 = lock f /\ view_of (Io f1 e) = with_flags (eof (view_of (Io f e))) (has x F_ERR) (view_of (Io f e)).
Proof.
  intros Hi Hr. cbv zeta. rewrite olderr_cases. set (f1 := set_flags _ f). change (has (flags f) F_ERR = false) in Hr.
  assert (Ha : alike f f1) by (repeat split; apply perms_lor; by destruct (has x F_ERR)).
  assert (He : at_eof f1 = at_eof f) by (unfold at_eof, f1; cbn [flags set_flags]; rewrite has_lor; destruct (has x F_ERR); apply orb_false_r).
  assert (Hx : in_error f1 = has x F_ERR) by (unfold in_error, f1; cbn [flags set_flags]; rewrite has_lor, Hr; by destruct (has x F_ERR)).
  split_and!; try done.
  - eapply alike_inv; [exact Ha| |done]. rewrite He. apply (i_eof _ Hi).
  - apply Ha.
  - rewrite (alike_view f f1) by done. by rewrite He, Hx.
Qed.

(** C31: [vfprintf] on a stream with a buffer, above a device that does not fail,
    returns the length of what the format prints, and the text of the stream is
    what writing all of it in one piece would make; the indicators stay. *)
Theorem vfprintf_spec {X} `{DeviceLaws X} {F} (fmt_fp : F -> Z -> Z -> Z -> Z -> M (io X) Z) strerror mb_cur_max tid internal_buf
    (s : io X) fmt (args : list (argument F)) o :
  ~ may_fail -> 0 < tid -> inv s -> lock_ok tid (file s) -> writable (file s) = true -> buf_size (file s) <> 0 ->
  buffered (view_of s) = [] -> mode (file s) < 1 \/ err (view_of s) = false ->
  formats fmt args o -> zlen o <= INT_MAX -> zlen o + buf_size (file s) < 2 ^ 31 ->
  let text := write_at (appends (file s)) (data (view_of s)) (here (view_of s)) o in text.2 <= limit ->
  exists s', vfprintf fmt_fp strerror mb_cur_max tid internal_buf fmt args s = Ret ((zlen o, []), s') /\ inv s' /\
    (data (view_of s'), here (view_of s')) = text /\ eof (view_of s') = eof (view_of s) /\ err (view_of s') = err (view_of s).
Proof.
  intros Hrel Ht Hi Hlk Hw Hsz Hb Hmode Hf Ho Hsize text Hlim. subst text.
  assert (Hh : 0 <= here (view_of s)).
  { assert (Hu : unread (file s) = []) by exact Hb. unfold view_of. cbn [here]. rewrite Hu, Z.sub_0_r. by apply shown_pos. }
  assert (Hreach : forall t, zlen t <= zlen o -> (write_at (appends (file s)) (data (view_of s)) (here (view_of s)) t).2 <= limit).
  { intros t Hl. eapply write_at_less; [apply (here_limit s Hi)|by apply data_size|exact Hl|done]. }
  unfold vfprintf.
  rewrite (bind_Ret _ _ _ _ _ (core_dry fmt_fp strerror mb_cur_max (S (S (length fmt))) fmt args o 0 0 [] args s Hf
    ltac:(lia) ltac:(lia) ltac:(lia) ltac:(lia))).
  cbn [Z.ltb Z.compare ap nl_arg nl_type in_order].
  match goal with |- exists s', with_lock _ ?m s = _ /\ _ => set (body := m) end.
  cut (runs (with_lock tid body) s (fun a v => a = (zlen o, []) /\ (data v, here v) = write_at (appends (file s)) (data (view_of s)) (here (view_of s)) o /\
    eof v = eof (view_of s) /\ err v = err (view_of s))).
  { intros (a & s' & Hr & Hi' & _ & _ & -> & Hv). by exists s'. }
  apply runs_with_lock; [done..|]. intros l. subst body. apply runs_gets. destruct (relock s l Hi) as [Hi1 Hv1].
  set (f1 := set_lock l (file s)) in *. set (v := view_of s) in *. cbn [file].
  destruct (clear_err f1 (sys s) Hi1) as (f2 & Hr2 & Hi2 & Hk2 & Hl2 & Hv2); [by rewrite Hv1|]. rewrite Hv1 in Hv2.
  eapply runs_step; [exact Hr2|done|done|].
  eapply runs_step; [|done|done|]; [rewrite (proj2 (Z.eqb_neq (buf_size f1) 0) Hsz); reflexivity|].
  apply ready_then; [done|by rewrite Hv2| |]; cbn [file].
  { intros Hw2. destruct (kept_flags _ _ Hk2) as (_ & Hw' & _). change (writable f1) with (writable (file s)) in Hw'. congruence. }
  intros Hw2 s3 Hi3 Hk3 Hl3 Hd3 Hv3. cbn [negb].
  assert (Hv3' : data (view_of s3) = data v /\ here (view_of s3) = here v /\ buffered (view_of s3) = [] /\ err (view_of s3) = false /\ eof (view_of s3) = eof v).
  { destruct Hv3 as [->|[_ ->]]; rewrite Hv2; by split_and!. }
  destruct Hv3' as (Hda & Hhe & Hbu & Her & Heo). assert (Hks : kept (file s) (file s3)) by (etransitivity; [|exact Hk3]; etransitivity; [|exact Hk2]; done).
  destruct (kept_flags _ _ Hks) as (_ & Hws & Has).
  destruct (core_streams Hrel s3 o) with (fmt_fp := fmt_fp) (strerror := strerror) (mb_cur_max := mb_cur_max) (fuel := S (S (length fmt)))
    (fmt := fmt) (args := args) (s := s3) as (rest & s4 & Hr4 & Hs4); try done; try lia.
  { intros t Hl. rewrite Has, Hda, Hhe. by apply Hreach. }
  { by rewrite (k_size _ _ Hks). }
  { split_and!; try done; congruence. }
  destruct Hs4 as (Hi4 & Hk4 & Hl4 & Hw4 & Hb4 & He4 & Hf4 & Hd4). rewrite Has, Hda, Hhe in Hd4.
  eapply runs_step; [mnext_by Hr4; reflexivity|done|done|]. cbn beta iota.
  eapply runs_step; [rewrite (proj2 (Z.eqb_neq (buf_size f1) 0) Hsz); reflexivity|done|done|]. apply runs_gets. cbv beta.
  destruct s4 as [f4 e4]. cbn [file]. assert (Hh4 : has (flags f4) F_ERR = false) by exact He4. rewrite Hh4.
  destruct (restore_err f4 e4 (flags f1) Hi4 He4) as (Hi5 & Hk5 & Hl5 & Hv5).
  apply runs_set; [done|done|]. apply runs_ret; [done|]. rewrite Hv5. split_and!; [done|exact Hd4|cbn [eof with_flags]; by rewrite Hf4|done].
Qed.
