(* ===== verification/StdioExamples.v ===== *)
(** The theorems on streams applied to a file on a host that moves at most three
    bytes at a time, and to a memory stream whose allocator fails; formatted
    output to a string and to the file. *)
From S2P Require Import Prelude.
From S2P Require Import Wasi.
From S2P Require Import Unistd.
From S2P Require Import Fd.
From S2P Require Import Stdio.
From S2P Require Import StdioDev.
From S2P Require Import StdioProofs.
From S2P Require Import StdioOps.
From S2P Require Import StdioHost.
From S2P Require Import StdioTheorems.
From S2P Require Import IntScan.
From S2P Require Import Printf.
From S2P Require Import PrintfProofs.
From S2P Require Import PrintfTheorems.

(** ** A host with one file, on descriptor 3 *)
Record drum := Drum { d_data : list Z; d_pos : Z }.

(** How many bytes are moved. *)
Definition batch (n : Z) : nat := Z.to_nat (Z.min 3 n).

Definition drum_seek (off whence : Z) (w : drum) : Z * Z * drum :=
  let t := (if whence =? SEEK_SET then 0 else if whence =? SEEK_CUR then d_pos w else zlen (d_data w)) + off in
  if t <? 0 then (EINVAL, 0, w) else (0, t, Drum (d_data w) t).

#[export] Instance drum_fd : WasiFd drum := {
  wasi_fd_pread _ _ _ w := (ENOSYS, [], w);
  wasi_fd_pwrite _ _ _ w := (ENOSYS, 0, w);
  wasi_fd_dup _ w := (ENOSYS, 0, w);
  wasi_fd_close _ w := (ENOSYS, w);
  wasi_fd_fdstat_get _ w := (0, FdStat 4 0 66 0, w) }.

#[export] Instance drum_file : WasiFile drum := {
  wasi_fd_read _ lens w :=
    let l := take (batch (foldr Z.add 0 lens)) (drop (Z.to_nat (d_pos w)) (d_data w)) in
    (0, l, Drum (d_data w) (d_pos w + zlen l));
  wasi_fd_write _ iovs w :=
    let l := take (batch (zlen (concat iovs))) (concat iovs) in
    let '(d, p) := write_at false (d_data w) (d_pos w) l in (0, zlen l, Drum d p);
  wasi_fd_preadv _ _ _ w := (ENOSYS, [], w);
  wasi_fd_pwritev _ _ _ w := (ENOSYS, 0, w);
  wasi_fd_seek _ off whence w := drum_seek off whence w;
  wasi_fd_tell _ w := (ENOSYS, 0, w);
  wasi_fd_sync _ w := (ENOSYS, w);
  wasi_fd_datasync _ w := (ENOSYS, w);
  wasi_fd_filestat_set_size _ _ w := (ENOSYS, w);
  wasi_fd_advise _ _ _ _ w := (ENOSYS, w);
  wasi_fd_allocate _ _ _ w := (ENOSYS, w);
  wasi_fd_fdflags_get _ w := (ENOSYS, 0, w);
  wasi_fd_fdflags_set _ _ w := (ENOSYS, w);
  wasi_fd_fdstat_set_flags _ _ w := (ENOSYS, w);
  wasi_fd_dup2 _ _ _ w := (ENOSYS, 0, w);
  wasi_fd_renumber _ _ w := (ENOSYS, w);
  wasi_fd_pipe w := (ENOSYS, 0, 0, w);
  wasi_tty_get w := (ENOSYS, Tty 0 0 0 0, TtyModes false false false false false false, w);
  wasi_tty_set _ _ w := (ENOSYS, w);
  wasi_random_get _ w := (ENOSYS, [], w);
  wasi_proc_id w := (ENOSYS, 0, w);
  wasi_proc_parent _ w := (ENOSYS, 0, w) }.

Lemma sum_nonneg l : Forall (Z.le 0) l -> 0 <= foldr Z.add 0 l.
Proof. induction 1; simpl; lia. Qed.

#[export] Instance drum_host : FileHost drum.
Proof.
  refine {| fh_content _ := d_data; fh_pos _ := d_pos; fh_app _ _ := false;
    fh_open fd w := fd = 3 /\ 0 <= d_pos w /\ byte_list (d_data w); fh_may_fail := False |}.
  - by intros fd w (_ & ? & ?).
  - intros fd lens w e l w' (-> & Hp & Hd) Hl Hr. injection Hr as <- <- <-. cbn [d_data d_pos].
    pose proof (sum_nonneg lens Hl) as Hs. set (left := drop _ _). set (n := batch (foldr Z.add 0 lens)). unfold batch in n.
    assert (Hlen : length (take n left) = Nat.min n (length left)) by apply length_take.
    split; [split_and!; (done || lia)|]. split; [done|]. split; [done|]. split; [unfold n in *; lia|].
    split; [by rewrite Hlen, <- take_take, firstn_all|]. split; [done|].
    intros Hnil. rewrite Hnil in Hlen. destruct left; [by right|left]. unfold n in Hlen. simpl in Hlen. lia.
  - intros fd iovs w e n w' (-> & Hp & Hd) Hb Hw. unfold wasi_fd_write, drum_file in Hw.
    pose proof (write_at_pos false (d_data w) (d_pos w) (take (batch (zlen (concat iovs))) (concat iovs)) Hp) as Hpos.
    pose proof (write_at_bytes false (d_data w) (d_pos w) (take (batch (zlen (concat iovs))) (concat iovs)) Hd) as Hby.
    destruct (write_at _ _ _ (take _ _)) as [d p] eqn:Hwa. injection Hw as <- <- <-. cbn [d_data d_pos fst snd] in *.
    set (n := batch _) in *. assert (Hlen : length (take n (concat iovs)) = n) by (rewrite length_take; unfold n, batch; lia).
    assert (Hn : n = batch (zlen (concat iovs))) by done. clearbody n. unfold batch in Hn.
    split; [split_and!; [done|done|by apply Hby, Forall_take]|]. split; [done|]. split; [lia|]. split.
    { intros Hne. destruct (concat iovs); [done|simpl in *; lia]. }
    by rewrite <- Hwa, Hlen, Nat2Z.id.
  - intros fd off whence w e n w' (-> & Hp & Hd) Hwh Hs t Ht. unfold wasi_fd_seek, drum_file, drum_seek in Hs. fold t in Hs.
    destruct (Z.ltb_spec t 0); injection Hs as <- <- <-; cbn [d_data d_pos]; (split; [split_and!; (done || lia)|]); (split; [done|]); (split; [done|]).
    + change (EINVAL =? 0) with false. split; [by left|done].
    + by split_and!.
  - intros fd w e st w' (-> & Hp & Hd) Hf. by injection Hf as <- <- <-.
Defined.

(** A stream on the file, with a buffer of four bytes. *)
Definition book : FILE := File 0 0 0 0 0 0 Stdio_write 1032 4 (replicate 12 0) 3 0 0 (-1).
Definition desk : io drum := Io book (Env 0 (Drum [1; 2] 0)).
Definition blank : stream := Stream [1; 2] 0 [1; 2] false false false 0.

Lemma desk_inv : inv desk.
Proof.
  split; cbn; try done; try lia.
  - split_and!; try done. by repeat constructor.
  - split; cbn; try done. by repeat constructor.
  - left. by repeat split; left.
Qed.

Lemma desk_lock : lock_ok 1 (file desk).
Proof. by right; left. Qed.

(** Two lines are written, read back with a byte pushed back, and the file
    ends. *)
Definition chapter : list call :=
  [Fwrite [104; 105; 10; 120; 121; 122; 10] 1 7; Fseek 0 SEEK_SET; Fgets 20; Ungetc 33; Fread 2 4; Fgetc; Feof; Ftell;
   Fseek (-30) SEEK_END; Fseek 1 SEEK_SET; Fputc 65].

Lemma stream_refines_witness :
  exists s', session 1 chapter desk =
    Ret ([Number 7; Number 0; Line (Some tt) [104; 105; 10; 0]; Number 33; Items 2 [33; 120; 121; 122; 10];
          Number EOF; Flag true; Number 7; Number (-1); Number 0; Number 65], s') /\
    exists s'', fflush 1 s' = Ret (0, s'') /\ disk s'' = [104; 65; 10; 120; 121; 122; 10].
Proof.
  destruct (stream_refines 1 desk chapter blank
    [Number 7; Number 0; Line (Some tt) [104; 105; 10; 0]; Number 33; Items 2 [33; 120; 121; 122; 10];
     Number EOF; Flag true; Number 7; Number (-1); Number 0; Number 65]
    (Stream [104; 65; 10; 120; 121; 122; 10] 2 [10; 120; 121; 122; 10] false false false 0))
    as (s' & Hs & _ & _ & s'' & Hf & Hd).
  - intros [].
  - lia.
  - exact desk_inv.
  - exact desk_lock.
  - split; cbn; try done; unfold UNGET; lia.
  - vm_compute. reflexivity.
  - exists s'. split; [exact Hs|]. exists s''. by split.
Defined.

(** ** A memory stream whose allocator fails *)
Inductive miser := Miser.

#[export] Instance miser_alloc : Alloc miser := { malloc_ok _ w := (false, w) }.

Definition slate : io (mstream miser) :=
  Io (memstream_FILE true 1032 (replicate 1032 0)) (Env 0 (memstream_cookie Miser)).

Lemma slate_inv : inv slate.
Proof.
  split; try done.
  - split; [split; cbn; try done; try lia; by repeat constructor|done].
  - split; cbn; try done; try lia. apply (Forall_replicate (fun b => 0 <= b < 256) 1032). lia.
  - left. by repeat split; left.
Qed.

Lemma slate_lock : lock_ok 1 (file slate).
Proof. by right; left. Qed.

Lemma fwrite_spec_witness : exists r s', fwrite 1 [65; 66] 1 2 slate = Ret (r, s') /\ inv s'.
Proof.
  destruct (fwrite_spec 1 slate [65; 66] 1 2) as (k & s' & Hs & Hi & _).
  - lia.
  - exact slate_inv.
  - exact slate_lock.
  - split; [|by cbn]. split; [done|]. split; [by repeat constructor|]. done.
  - eexists _, s'. by split.
Defined.

(** More bytes than the buffer holds, so that the device is called, and fails. *)
Lemma stream_safe_witness : let c := Fwrite (replicate 1100 65) 1 1100 in
  match (a ← do_call 1 c; e ← do_call 1 Ferror; mret (a, e)) slate with
  | Ret (r, _) => r = (Number 0, Flag false)
  | Stop _ => False
  end /\
  exists a s', do_call 1 c slate = Ret (a, s') /\ inv s' /\ kept (file slate) (file s') /\ lock (file s') = lock (file slate).
Proof.
  intros c. split; [vm_compute; reflexivity|]. apply (stream_safe 1 slate c).
  - lia.
  - exact slate_inv.
  - exact slate_lock.
  - split; [|by vm_compute]. split; [done|]. split; [apply (Forall_replicate (fun b => 0 <= b < 256) 1100); lia|]. by vm_compute.
Defined.

(** The bytes are lost, and neither a result nor the error indicator tells. *)
Example memory_lost : exists s', session 1 [Fputc 65; Fflush; Ferror; Ftell] slate =
  Ret ([Number 65; Number 0; Flag false; Number 0], s') /\ disk s' = [].
Proof. eexists. split; [vm_compute; reflexivity|]. reflexivity. Qed.

(** ** Formatted output *)
Definition no_fp {X} (_ : unit) (_ _ _ _ : Z) : M (io X) Z := halt Trapped.
Definition no_error (_ : Z) : list Z := [].
Definition scrap : Z * list Z := (2056, replicate 88 0).

Definition number_field : directive unit := Directive (bytes_of "+0") (Some (Fixed (bytes_of "8"))) None [] 100 (Int (-42)).
Definition text_field : directive unit := Directive (bytes_of "-") (Some (FromArg 5)) (Some (Fixed (bytes_of "2"))) [] 115 (Pointer (Ptr 4096 (Chars (bytes_of "abc")))).
Definition hex_field : directive unit := Directive (bytes_of "#") None None (bytes_of "ll") 88 (LongLong (-1)).

Definition letter : list Z := bytes_of "x=%+08d %-*.2s|%#llX%%".
Definition contents : list (argument unit) := [Int (-42); Int 5; Pointer (Ptr 4096 (Chars (bytes_of "abc"))); LongLong (-1)].
Definition post : list Z := bytes_of "x=-0000042 ab   |0XFFFFFFFFFFFFFFFF%".

Lemma number_field_ok : wellformed number_field.
Proof. split; cbn; try done; try (apply (bool_decide_unpack _); by vm_compute). Qed.
Lemma text_field_ok : wellformed text_field.
Proof. split; cbn; try done; try (apply (bool_decide_unpack _); by vm_compute). Qed.
Lemma hex_field_ok : wellformed hex_field.
Proof. split; cbn; try done; try (apply (bool_decide_unpack _); by vm_compute). Qed.

Lemma letter_formats : formats letter contents post.
Proof.
  apply (formats_char 120); [done|done|]. apply (formats_char 61); [done|done|].
  apply (formats_conv number_field (bytes_of " %-*.2s|%#llX%%") (tail contents) (bytes_of "-0000042") (bytes_of " ab   |0XFFFFFFFFFFFFFFFF%") number_field_ok); [by vm_compute|].
  apply (formats_char 32); [done|done|].
  apply (formats_conv text_field (bytes_of "|%#llX%%") [LongLong (-1)] (bytes_of "ab   ") (bytes_of "|0XFFFFFFFFFFFFFFFF%") text_field_ok); [by vm_compute|].
  apply (formats_char 124); [done|done|].
  apply (formats_conv hex_field (bytes_of "%%") [] (bytes_of "0XFFFFFFFFFFFFFFFF") (bytes_of "%") hex_field_ok); [by vm_compute|].
  apply (formats_percent []). constructor.
Qed.

Lemma scrap_ok : buffer_ok scrap.
Proof. split_and!; cbn; try done. apply (Forall_replicate (fun b => 0 <= b < 256) 88). lia. Qed.

(** A field of twelve bytes keeps eleven. *)
Lemma vsnprintf_spec_witness :
  vsnprintf no_fp no_error 1 1 scrap scrap (replicate 14 1) 12 letter contents 7 = Ret (36, [], bytes_of "x=-0000042 " ++ [0; 1; 1], 7) /\
  formats letter contents post.
Proof.
  split; [|exact letter_formats].
  rewrite (vsnprintf_spec no_fp no_error 1 1 scrap scrap (replicate 14 1) 12 letter contents post 7); [by vm_compute|exact letter_formats|by vm_compute..|exact scrap_ok].
Defined.

Lemma vfprintf_spec_witness : exists s', vfprintf no_fp no_error 1 1 scrap letter contents desk = Ret ((36, []), s') /\ data (view_of s') = post.
Proof.
  assert (Hfmt : forall t, write_at (appends (file desk)) (data (view_of desk)) (here (view_of desk)) t = write_at false [1; 2] 0 t) by done.
  destruct (vfprintf_spec no_fp no_error 1 1 scrap desk letter contents post) as (s' & Hr & _ & Hd & _).
  - intros [].
  - lia.
  - exact desk_inv.
  - exact desk_lock.
  - reflexivity.
  - discriminate.
  - reflexivity.
  - by left.
  - exact letter_formats.
  - by vm_compute.
  - by vm_compute.
  - rewrite Hfmt. by vm_compute.
  - exists s'. split; [exact Hr|]. rewrite Hfmt in Hd. apply (f_equal fst) in Hd. etransitivity; [exact Hd|]. by vm_compute.
Defined.

Lemma printf_strtoll_witness : exists rest k f',
  vsnprintf no_fp no_error 1 1 scrap scrap (replicate 20 1) 20 (show number_field) (args_of number_field) 7 =
    Ret (8, [], bytes_of "-0000042" ++ 0 :: rest, 7) /\ strtoll (bytes_of "-0000042") 10 (SFile 0 0 0) = Ret ((-42, k), f').
Proof.
  apply (printf_strtoll no_fp no_error 1 1 scrap scrap (replicate 20 1) 20 number_field (-42) (bytes_of "-0000042") 7 (SFile 0 0 0));
    [exact number_field_ok|by left|by vm_compute..|exact scrap_ok].
Defined.

(** A pointer without leading zeros. *)
Example pointer_short : vsnprintf no_fp no_error 1 1 scrap scrap (replicate 8 1) 8 (bytes_of "%p") [Pointer (Ptr 4096 Object)] 0 =
  Ret (6, [], bytes_of "0x1000" ++ [0; 1], 0).
Proof. by vm_compute. Qed.
