(* ===== verification/Emmalloc.v ===== *)
(** The allocator ([emmalloc/emmalloc.c]): regions with their size at both
    ends, 64 circular lists of free regions, a bit for each list, and blocks
    of memory claimed with [sbrk].  Assertions are compiled out; the lock is a
    no-op. *)
From S2P Require Import Prelude.
From S2P Require Import Wasi.
From S2P Require Import Mman.

(** ** Memory *)
Definition load (m : Z -> Z) (a : Z) : Z := le [m a; m (a + 1); m (a + 2); m (a + 3)].
Definition store (m : Z -> Z) (a v : Z) : Z -> Z :=
  fun x => if (a <=? x) && (x <? a + 4) then v / 256 ^ (x - a) mod 256 else m x.

(** [memcpy], [memset]. *)
Definition copy (m : Z -> Z) (dst src n : Z) : Z -> Z :=
  fun x => if (dst <=? x) && (x <? dst + n) then m (src + (x - dst)) else m x.
Definition fill (m : Z -> Z) (dst c n : Z) : Z -> Z :=
  fun x => if (dst <=? x) && (x <? dst + n) then c else m x.

(** Memory, the two variables of the file, and the world. *)
Record heap (W : Type) := Heap {
  hmem : Z -> Z;
  listOfAllRegions : Z;
  freeRegionBucketsUsed : Z;
  henv : env W }.
Arguments Heap {W} _ _ _ _.
Arguments hmem {W} _.
Arguments listOfAllRegions {W} _.
Arguments freeRegionBucketsUsed {W} _.
Arguments henv {W} _.

(** ** Constants *)
Definition MALLOC_ALIGNMENT : Z := 16.
Definition NUM_FREE_BUCKETS : Z := 64.
Definition FREE_REGION_FLAG : Z := 1.
Definition MAX_ALLOC_SIZE : Z := 4294967239.
Definition SIZEOF_REGION : Z := 16.
Definition REGION_HEADER_SIZE : Z := 8.
Definition SMALLEST_ALLOCATION_SIZE : Z := 8.
Definition PAGE_SIZE : Z := PAGE.

(** The fields of [Region] and [RootRegion]. *)
Definition PREV : Z := 4.
Definition NEXT : Z := 8.
Definition ROOT_NEXT : Z := 4.
Definition END_PTR : Z := 8.

Definition IS_POWER_OF_2 (val : Z) : bool := Z.land val (w32 (val - 1)) =? 0.
Definition ALIGN_UP (ptr alignment : Z) : Z := Z.land (w32 (ptr + (alignment - 1))) (Z.lnot (alignment - 1)).
Definition DECODE_CEILING_SIZE (size : Z) : Z := Z.land size (Z.lnot FREE_REGION_FLAG).

(** [__builtin_clz] of a 32-bit number, [__builtin_ctzll]; not of 0. *)
Definition clz (x : Z) : Z := 31 - Z.log2 x.
Definition ctzll (x : Z) : Z := Z.log2 (Z.land x (- x)).

Definition compute_free_list_bucket (allocSize : Z) : Z :=
  if allocSize <? 128 then Z.shiftr allocSize 3 - 1 else
  let c := clz allocSize in
  if 19 <? c then 110 - Z.shiftl c 2 + Z.lxor (Z.shiftr allocSize (29 - c)) 4
  else Z.min (71 - Z.shiftl c 1 + Z.lxor (Z.shiftr allocSize (30 - c)) 2) (NUM_FREE_BUCKETS - 1).

Definition validate_alloc_alignment (alignment : Z) : Z := Z.max alignment MALLOC_ALIGNMENT.
Definition validate_alloc_size (size : Z) : Z :=
  if SMALLEST_ALLOCATION_SIZE <? size then ALIGN_UP size 4 else SMALLEST_ALLOCATION_SIZE.

Section Emmalloc.
Context {W : Type} `{WasmMem W}.

(** The addresses of [freeRegionBuckets] and [__heap_base]. *)
Variables freeRegionBuckets heap_base : Z.

Abbreviation HM := (M (heap W)).

Definition ld (a : Z) : HM Z := gets (fun s => load (hmem s) a).
Definition st (a v : Z) : HM unit :=
  modify (fun s => Heap (store (hmem s) a v) (listOfAllRegions s) (freeRegionBucketsUsed s) (henv s)).
Definition set_used (u : Z) : HM unit :=
  modify (fun s => Heap (hmem s) (listOfAllRegions s) u (henv s)).
Definition set_list (r : Z) : HM unit :=
  modify (fun s => Heap (hmem s) r (freeRegionBucketsUsed s) (henv s)).

Definition hcall {A} (m : M (env W) A) : HM A := fun s =>
  match m (henv s) with
  | Ret (a, e) => Ret (a, Heap (hmem s) (listOfAllRegions s) (freeRegionBucketsUsed s) e)
  | Stop r => Stop r
  end.

Definition bucket_head (i : Z) : Z := freeRegionBuckets + SIZEOF_REGION * i.

(** ** Regions *)

Definition prev_region (region : Z) : HM Z :=
  prevRegionSize ← ld (region - 4);
  mret (region - DECODE_CEILING_SIZE prevRegionSize).

Definition next_region (region : Z) : HM Z := size ← ld region; mret (region + size).

Definition region_ceiling_size (region : Z) : HM Z := size ← ld region; ld (region + size - 4).

Definition region_is_free (r : Z) : HM bool := c ← region_ceiling_size r; mret (has c FREE_REGION_FLAG).

Definition create_used_region (ptr size : Z) : HM unit :=
  st ptr size;; st (ptr + 4 * (size / 4 - 1)) size.

Definition create_free_region (ptr size : Z) : HM unit :=
  st ptr size;; st (ptr + 4 * (size / 4 - 1)) (Z.lor size FREE_REGION_FLAG).

(** ** Lists of free regions *)

Definition prepend_to_free_list (region prependTo : Z) : HM unit :=
  st (region + NEXT) prependTo;;
  prev ← ld (prependTo + PREV);
  st (region + PREV) prev;;
  st (prependTo + PREV) region;;
  prev ← ld (region + PREV);
  st (prev + NEXT) region.

Definition unlink_from_free_list (region : Z) : HM unit :=
  prev ← ld (region + PREV);
  next ← ld (region + NEXT);
  st (prev + NEXT) next;;
  next ← ld (region + NEXT);
  prev ← ld (region + PREV);
  st (next + PREV) prev.

Definition link_to_free_list (freeRegion : Z) : HM unit :=
  size ← ld freeRegion;
  let bucketIndex := compute_free_list_bucket (w32 (size - REGION_HEADER_SIZE)) in
  let freeListHead := bucket_head bucketIndex in
  st (freeRegion + PREV) freeListHead;;
  next ← ld (freeListHead + NEXT);
  st (freeRegion + NEXT) next;;
  st (freeListHead + NEXT) freeRegion;;
  next ← ld (freeRegion + NEXT);
  st (next + PREV) freeRegion;;
  s ← get;
  set_used (Z.lor (freeRegionBucketsUsed s) (Z.shiftl 1 bucketIndex)).

(** ** Claiming memory *)

(** The end of the function: a free region from [startPtr] to the sentinel. *)
Definition claim_free (startPtr endSentinelRegion : Z) : HM bool :=
  create_free_region startPtr (endSentinelRegion - startPtr);;
  link_to_free_list startPtr;;
  mret true.

(** From the claimed memory on. *)
Definition claim_block (startPtr endPtr : Z) : HM bool :=
  let endSentinelRegion := endPtr - SIZEOF_REGION in
  create_used_region endSentinelRegion SIZEOF_REGION;;
  root ← gets listOfAllRegions;
  previousSbrkEndAddress ← (if negb (root =? 0) then ld (root + END_PTR) else mret 0);
  if startPtr =? previousSbrkEndAddress then
    prevEndSentinel ← prev_region startPtr;
    prevRegion ← prev_region prevEndSentinel;
    st (root + END_PTR) endPtr;;
    free ← region_is_free prevRegion;
    if (free : bool) then
      unlink_from_free_list prevRegion;;
      claim_free prevRegion endSentinelRegion
    else claim_free (startPtr - SIZEOF_REGION) endSentinelRegion
  else
    create_used_region startPtr SIZEOF_REGION;;
    st (startPtr + ROOT_NEXT) root;;
    st (startPtr + END_PTR) endPtr;;
    set_list startPtr;;
    claim_free (startPtr + SIZEOF_REGION) endSentinelRegion.

Definition claim_pages (numBytes : Z) : HM bool :=
  let numBytes := Z.land (w32 (numBytes + (PAGE_SIZE - 1))) (2 ^ 32 - PAGE_SIZE) in
  startPtr ← hcall (sbrk (s32 numBytes));
  if startPtr =? 2 ^ 32 - 1 then mret false
  else claim_block startPtr (startPtr + numBytes).

(** The first time the memory between [__heap_base] and its end may do. *)
Definition claim_more_memory (numBytes : Z) : HM bool :=
  root ← gets listOfAllRegions;
  if root =? 0 then
    heap_end ← hcall (sbrk 0);
    if numBytes <=? w32 (heap_end - heap_base) then claim_block heap_base heap_end
    else claim_pages numBytes
  else claim_pages numBytes.

(** ** Allocating *)

(** Moves the boundary to the region before, so that the payload is aligned. *)
Definition bump_region (freeRegion payloadStartPtr payloadStartPtrAligned : Z) : HM Z :=
  if payloadStartPtr =? payloadStartPtrAligned then mret freeRegion else
  prevRegion ← prev_region freeRegion;
  let regionBoundaryBumpAmount := payloadStartPtrAligned - payloadStartPtr in
  size ← ld freeRegion;
  let newThisRegionSize := size - regionBoundaryBumpAmount in
  prevSize ← ld prevRegion;
  create_used_region prevRegion (prevSize + regionBoundaryBumpAmount);;
  st (freeRegion + regionBoundaryBumpAmount) newThisRegionSize;;
  mret (freeRegion + regionBoundaryBumpAmount).

(** Splits the region, or uses it whole. *)
Definition carve_region (freeRegion size : Z) : HM unit :=
  regionSize ← ld freeRegion;
  if w32 (SIZEOF_REGION + REGION_HEADER_SIZE + size) <=? regionSize then
    let newFreeRegion := freeRegion + REGION_HEADER_SIZE + size in
    create_free_region newFreeRegion (regionSize - size - REGION_HEADER_SIZE);;
    link_to_free_list newFreeRegion;;
    create_used_region freeRegion (size + REGION_HEADER_SIZE)
  else
    regionSize' ← ld freeRegion;
    st (freeRegion + regionSize - 4) regionSize'.

(** The pointer, or 0.  A pointer past the end of the address space is
    undefined. *)
Definition attempt_allocate (freeRegion alignment size : Z) : HM Z :=
  let payloadStartPtr := freeRegion + 4 in
  let payloadStartPtrAligned := ALIGN_UP payloadStartPtr alignment in
  regionSize ← ld freeRegion;
  let payloadEndPtr := freeRegion + regionSize - 4 in
  if 2 ^ 32 <=? payloadStartPtrAligned + size then halt Undefined else
  if payloadEndPtr <? payloadStartPtrAligned + size then mret 0 else
  unlink_from_free_list freeRegion;;
  freeRegion ← bump_region freeRegion payloadStartPtr payloadStartPtrAligned;
  carve_region freeRegion size;;
  mret (freeRegion + 4).

(** The loop over the buckets with a bit set from [bucketIndex] on; [fuel]
    counts bits. *)
Fixpoint bucket_loop (fuel : nat) (alignment size bucketIndex bucketMask : Z) : HM Z :=
  if bucketMask =? 0 then mret 0 else
  match fuel with
  | O => halt OutOfFuel
  | S fuel =>
      let indexAdd := ctzll bucketMask in
      let bucketIndex := bucketIndex + indexAdd in
      let bucketMask := Z.shiftr bucketMask indexAdd in
      freeRegion ← ld (bucket_head bucketIndex + NEXT);
      if negb (freeRegion =? bucket_head bucketIndex) then
        ptr ← attempt_allocate freeRegion alignment size;
        if negb (ptr =? 0) then mret ptr else
        unlink_from_free_list freeRegion;;
        prepend_to_free_list freeRegion (bucket_head bucketIndex);;
        bucket_loop fuel alignment size (bucketIndex + 1) (Z.shiftr bucketMask 1)
      else
        s ← get;
        set_used (Z.land (freeRegionBucketsUsed s) (Z.lnot (Z.shiftl 1 bucketIndex)));;
        bucket_loop fuel alignment size bucketIndex (Z.lxor bucketMask 1)
  end.

(** Tries [numTriesLeft] regions of a list; where it stops. *)
Fixpoint try_regions (numTriesLeft : nat) (head freeRegion alignment size : Z) : HM (Z * Z) :=
  match numTriesLeft with
  | O => mret (0, freeRegion)
  | S n =>
      if freeRegion =? head then mret (0, freeRegion) else
      ptr ← attempt_allocate freeRegion alignment size;
      if negb (ptr =? 0) then mret (ptr, freeRegion) else
      next ← ld (freeRegion + NEXT);
      try_regions n head next alignment size
  end.

(** The same to the end of the list. *)
Fixpoint all_regions (fuel : nat) (head freeRegion alignment size : Z) : HM Z :=
  if freeRegion =? head then mret 0 else
  match fuel with
  | O => halt OutOfFuel
  | S fuel =>
      ptr ← attempt_allocate freeRegion alignment size;
      if negb (ptr =? 0) then mret ptr else
      next ← ld (freeRegion + NEXT);
      all_regions fuel head next alignment size
  end.

(** The search of the list of the largest free regions: the pointer, where it
    stopped, and the list. *)
Definition search_largest (alignment size : Z) : HM (Z * Z * Z) :=
  used ← gets freeRegionBucketsUsed;
  let largestBucket := bucket_head (Z.log2 used) in
  freeRegion ← (if negb (used =? 0) then ld (largestBucket + NEXT) else mret 0);
  '(ptr, freeRegion) ←
    (if negb (Z.shiftr used 30 =? 0) then try_regions 99 largestBucket freeRegion alignment size
     else mret (0, freeRegion));
  mret (ptr, freeRegion, largestBucket).

(** [depth] bounds the recursion, one level for each block claimed; [fuel]
    the length of a list. *)
Fixpoint allocate_memory (depth fuel : nat) (alignment size : Z) : HM Z :=
  match depth with
  | O => halt OutOfFuel
  | S depth =>
      if negb (IS_POWER_OF_2 alignment) then mret 0 else
      if MAX_ALLOC_SIZE <? size then mret 0 else
      let alignment := validate_alloc_alignment alignment in
      let size := validate_alloc_size size in
      let bucketIndex := compute_free_list_bucket size in
      used ← gets freeRegionBucketsUsed;
      ptr ← bucket_loop 65 alignment size bucketIndex (Z.shiftr used bucketIndex);
      if negb (ptr =? 0) then mret ptr else
      '(ptr, freeRegion, largestBucket) ← search_largest alignment size;
      if negb (ptr =? 0) then mret ptr else
      success ← claim_more_memory (w32 (size + SIZEOF_REGION * 3));
      if (success : bool) then allocate_memory depth fuel alignment size
      else if freeRegion =? 0 then mret 0
      else all_regions fuel largestBucket freeRegion alignment size
  end.

Variables depth fuel : nat.

Definition emmalloc_memalign (alignment size : Z) : HM Z := allocate_memory depth fuel alignment size.

Definition malloc (size : Z) : HM Z := emmalloc_memalign MALLOC_ALIGNMENT size.

(** The remainder by 0 is undefined. *)
Definition aligned_alloc (alignment size : Z) : HM Z :=
  if negb (alignment mod 4 =? 0) then mret 0 else
  if alignment =? 0 then halt Undefined else
  if negb (size mod alignment =? 0) then mret 0 else emmalloc_memalign alignment size.

(** The result and [*memptr]. *)
Definition posix_memalign (alignment size : Z) : HM (Z * option Z) :=
  if negb (alignment mod 4 =? 0) then mret (22, None) else
  p ← emmalloc_memalign alignment size;
  mret (if negb (p =? 0) then 0 else 12, Some p).

Definition set_mem (f : (Z -> Z) -> Z -> Z) : HM unit :=
  modify (fun s => Heap (f (hmem s)) (listOfAllRegions s) (freeRegionBucketsUsed s) (henv s)).

Definition calloc (num size : Z) : HM Z :=
  let bytes := w32 (num * size) in
  ptr ← emmalloc_memalign MALLOC_ALIGNMENT bytes;
  when (negb (ptr =? 0)) (set_mem (fun m => fill m ptr 0 bytes));;
  mret ptr.

Definition malloc_usable_size (ptr : Z) : HM Z :=
  if ptr =? 0 then mret 0 else
  size ← ld (ptr - 4);
  mret (w32 (size - REGION_HEADER_SIZE)).

(** ** Freeing *)

Definition free (ptr : Z) : HM unit :=
  if ptr =? 0 then mret tt else
  let region := ptr - 4 in
  size ← ld region;
  prevRegionSizeField ← ld (region - 4);
  let prevRegionSize := Z.land prevRegionSizeField (Z.lnot FREE_REGION_FLAG) in
  '(regionStartPtr, size) ←
    (if negb (prevRegionSizeField =? prevRegionSize) then
       let prevRegion := region - prevRegionSize in
       unlink_from_free_list prevRegion;;
       mret (prevRegion, w32 (size + prevRegionSize))
     else mret (region, size));
  nextRegion ← next_region region;
  nextSize ← ld nextRegion;
  sizeAtEnd ← ld (nextRegion + nextSize - 4);
  size ←
    (if negb (nextSize =? sizeAtEnd) then
       unlink_from_free_list nextRegion;;
       nextSize ← ld nextRegion;
       mret (w32 (size + nextSize))
     else mret size);
  create_free_region regionStartPtr size;;
  link_to_free_list regionStartPtr.

(** ** Resizing *)

Definition attempt_region_resize (region size : Z) : HM bool :=
  nextRegion ← next_region region;
  nextSize ← ld nextRegion;
  let nextRegionEndPtr := nextRegion + nextSize in
  sizeAtCeiling ← ld (nextRegionEndPtr - 4);
  if negb (nextSize =? sizeAtCeiling) then
    let newNextRegionStartPtr := region + size in
    if newNextRegionStartPtr + SIZEOF_REGION <=? nextRegionEndPtr then
      unlink_from_free_list nextRegion;;
      create_free_region newNextRegionStartPtr (nextRegionEndPtr - newNextRegionStartPtr);;
      link_to_free_list newNextRegionStartPtr;;
      create_used_region region (newNextRegionStartPtr - region);;
      mret true
    else if newNextRegionStartPtr <=? nextRegionEndPtr then
      unlink_from_free_list nextRegion;;
      regionSize ← ld region;
      nextSize ← ld nextRegion;
      create_used_region region (w32 (regionSize + nextSize));;
      mret true
    else mret false
  else
    regionSize ← ld region;
    if w32 (size + SIZEOF_REGION) <=? regionSize then
      let freeRegionSize := regionSize - size in
      create_used_region region size;;
      let freeRegion := region + size in
      create_free_region freeRegion freeRegionSize;;
      link_to_free_list freeRegion;;
      mret true
    else mret (size <=? regionSize).

Definition emmalloc_aligned_realloc (ptr alignment size : Z) : HM Z :=
  if ptr =? 0 then emmalloc_memalign alignment size else
  if size =? 0 then free ptr;; mret 0 else
  if MAX_ALLOC_SIZE <? size then mret 0 else
  let size := validate_alloc_size size in
  let region := ptr - 4 in
  resized ← attempt_region_resize region (w32 (size + REGION_HEADER_SIZE));
  if (resized : bool) then mret ptr else
  newptr ← emmalloc_memalign alignment size;
  if negb (newptr =? 0) then
    regionSize ← ld region;
    set_mem (fun m => copy m newptr ptr (Z.min size (w32 (regionSize - REGION_HEADER_SIZE))));;
    free ptr;;
    mret newptr
  else mret 0.

Definition realloc (ptr size : Z) : HM Z := emmalloc_aligned_realloc ptr MALLOC_ALIGNMENT size.

End Emmalloc.
