(* ===== verification/EmmallocHeap.v ===== *)
(** The heap of [emmalloc.c] as data: words of memory, the list of regions that
    lie one after the other from [__heap_base] on, and how stores affect what
    memory says about them. *)
From S2P Require Import Prelude.
From S2P Require Import Wasi.
From S2P Require Import Mman.
From S2P Require Import Emmalloc.

(** ** Words *)
Lemma store_other m a v x : x < a \/ a + 4 <= x -> store m a v x = m x.
Proof. intros. unfold store. destruct (Z.leb_spec a x), (Z.ltb_spec x (a + 4)); try done; lia. Qed.

Lemma load_agree m m' a : (forall x, a <= x < a + 4 -> m' x = m x) -> load m' a = load m a.
Proof. intros Hm. unfold load. by rewrite !Hm by lia. Qed.

Lemma load_store_other m a b v : b + 4 <= a \/ a + 4 <= b -> load (store m a v) b = load m b.
Proof. intros. apply load_agree. intros x Hx. apply store_other. lia. Qed.

Lemma load_store_same m a v : 0 <= v < 2 ^ 32 -> load (store m a v) a = v.
Proof.
  intros Hv. rewrite <- (le_lb 4 v) at 2 by done. unfold load. f_equal.
  assert (Hs : forall i, 0 <= i < 4 -> store m a v (a + i) = v / 256 ^ i mod 256).
  { intros i Hi. unfold store. replace (a + i - a) with i by lia.
    destruct (Z.leb_spec a (a + i)), (Z.ltb_spec (a + i) (a + 4)); try done; lia. }
  assert (H0 : store m a v a = v / 1 mod 256) by (rewrite <- (Z.add_0_r a) at 2; by apply Hs).
  rewrite H0, !Hs by lia. cbn [lb]. rewrite !Zdiv.Zdiv_Zdiv by lia. by rewrite Z.div_1_r.
Qed.

(** A number below a power of two has no higher bits. *)
Lemma lor_below a b k : 0 <= a < 2 ^ k -> 0 <= b < 2 ^ k -> Z.lor a b < 2 ^ k.
Proof.
  intros Ha Hb. assert (0 <= k) by (destruct (Z.lt_ge_cases k 0); [rewrite Z.pow_neg_r in Ha by done; lia|done]).
  assert (0 <= Z.lor a b) by (apply Z.lor_nonneg; lia). destruct (Z.eq_dec (Z.lor a b) 0) as [->|]; [lia|].
  apply Z.log2_lt_pow2; [lia|]. rewrite Z.log2_lor by lia. destruct (Z.eq_dec k 0) as [->|].
  { assert (a = 0) as -> by (change (2 ^ 0) with 1 in Ha; lia). assert (b = 0) as -> by (change (2 ^ 0) with 1 in Hb; lia). done. }
  apply Z.max_lub_lt; (destruct (Z.eq_dec a 0), (Z.eq_dec b 0); subst; try (change (Z.log2 0) with 0; lia);
    apply Z.log2_lt_pow2; lia).
Qed.

(** ** Buckets

    The smallest payload of each bucket, as the comment in the source lists
    them. *)
Definition BUCKETS : list Z :=
  [8; 16; 24; 32; 40; 48; 56; 64; 72; 80; 88; 96; 104; 112; 120; 160; 192; 224; 256; 320; 384; 448;
   512; 640; 768; 896; 1024; 1280; 1536; 1792; 2048; 2560; 3072; 3584; 6144; 8192; 12288; 16384;
   24576; 32768; 49152; 65536; 98304; 131072; 196608; 262144; 393216; 524288; 786432; 1048576;
   1572864; 2097152; 3145728; 4194304; 6291456; 8388608; 12582912; 16777216; 25165824; 33554432;
   50331648; 67108864; 100663296; 134217728; 4294967296].

Definition bucket_ok (x : Z) : bool :=
  let i := compute_free_list_bucket x in
  (0 <=? i) && (i <? 64) && (at_ BUCKETS (Z.to_nat i) <=? x) && (x <? at_ BUCKETS (S (Z.to_nat i))).

Lemma bucket_ok_small x : 8 <= x < 4096 -> bucket_ok x = true.
Proof. apply (forall_below bucket_ok 8 4088). vm_compute. reflexivity. Qed.

(** From 4096 on there are two buckets for each power of two. *)
Lemma bucket_large k x : 12 <= k < 32 -> 2 ^ k <= x < 2 ^ (k + 1) ->
  compute_free_list_bucket x = Z.min (9 + 2 * k + (x / 2 ^ (k - 1) - 2)) 63.
Proof.
  intros Hk Hx. unfold compute_free_list_bucket, clz.
  assert (Hl : Z.log2 x = k) by (apply Z.log2_unique; lia). rewrite Hl.
  assert (4096 <= x) by (transitivity (2 ^ k); [change 4096 with (2 ^ 12); apply Z.pow_le_mono_r; lia|lia]).
  replace (x <? 128) with false by lia. replace (19 <? 31 - k) with false by lia.
  rewrite !Z.shiftr_div_pow2, Z.shiftl_mul_pow2 by lia. replace (30 - (31 - k)) with (k - 1) by lia.
  replace (k + 1) with (k - 1 + 2) in Hx by lia. rewrite Z.pow_add_r in Hx by lia.
  replace k with (k - 1 + 1) in Hx at 1 by lia. rewrite Z.pow_add_r in Hx by lia.
  assert (0 < 2 ^ (k - 1)) by (apply Z.pow_pos_nonneg; lia).
  assert (Hd : 2 <= x / 2 ^ (k - 1) < 4)
    by (split; [apply Z.div_le_lower_bound|apply Z.div_lt_upper_bound]; lia).
  change NUM_FREE_BUCKETS with 64.
  assert (x / 2 ^ (k - 1) = 2 \/ x / 2 ^ (k - 1) = 3) as [-> | ->] by lia.
  - change (Z.lxor 2 2) with 0. lia.
  - change (Z.lxor 3 2) with 1. lia.
Qed.

Definition half_ok (k q : Z) : bool :=
  let i := Z.min (9 + 2 * k + (q - 2)) 63 in
  (0 <=? i) && (i <? 64) && (at_ BUCKETS (Z.to_nat i) <=? q * 2 ^ (k - 1))
  && ((q + 1) * 2 ^ (k - 1) <=? at_ BUCKETS (S (Z.to_nat i))).

Lemma half_ok_all k q : 12 <= k < 32 -> q = 2 \/ q = 3 -> half_ok k q = true.
Proof.
  intros Hk Hq. assert (Hb : half_ok k 2 && half_ok k 3 = true).
  { apply (forall_below (fun k => half_ok k 2 && half_ok k 3) 12 20); [vm_compute; reflexivity|lia]. }
  apply andb_true_iff in Hb as [? ?]. by destruct Hq as [-> | ->].
Qed.

Lemma bucket_ok_all x : 8 <= x < 2 ^ 32 -> bucket_ok x = true.
Proof.
  intros Hx. destruct (Z.lt_ge_cases x 4096) as [Hlt|Hge]; [apply bucket_ok_small; lia|].
  assert (Hk : 12 <= Z.log2 x < 32).
  { split; [apply Z.log2_le_pow2; lia|apply Z.log2_lt_pow2; lia]. }
  pose proof (Z.log2_spec x ltac:(lia)) as Hl. rewrite <- Z.add_1_r in Hl.
  unfold bucket_ok. rewrite (bucket_large _ _ Hk Hl). revert Hk Hl. generalize (Z.log2 x). intros k Hk Hl.
  assert (Hp : 0 < 2 ^ (k - 1)) by (apply Z.pow_pos_nonneg; lia).
  assert (H2 : 2 ^ k = 2 * 2 ^ (k - 1)) by (rewrite <- Z.pow_succ_r by lia; f_equal; lia).
  assert (H4 : 2 ^ (k + 1) = 2 * 2 ^ k) by (rewrite <- Z.pow_succ_r by lia; f_equal; lia).
  assert (Hd : 2 <= x / 2 ^ (k - 1) < 4)
    by (split; [apply Z.div_le_lower_bound|apply Z.div_lt_upper_bound]; lia).
  pose proof (half_ok_all k (x / 2 ^ (k - 1)) Hk ltac:(lia)) as Hh. unfold half_ok in Hh.
  pose proof (Z.div_mod x (2 ^ (k - 1)) ltac:(lia)) as Hx'.
  pose proof (Z.mod_pos_bound x (2 ^ (k - 1)) ltac:(lia)) as Hm.
  revert Hh Hx'. generalize (x / 2 ^ (k - 1)). intros q Hh Hx'.
  set (i := Z.min _ 63) in *. clearbody i. rewrite !andb_true_iff, !Z.leb_le, Z.ltb_lt in Hh.
  rewrite !andb_true_iff, !Z.leb_le, !Z.ltb_lt. lia.
Qed.

(** The bucket of a payload is the one whose documented range it lies in. *)
Lemma bucket_range x : 8 <= x < 2 ^ 32 -> 0 <= compute_free_list_bucket x < 64.
Proof.
  intros Hx%bucket_ok_all. unfold bucket_ok in Hx. rewrite !andb_true_iff, Z.leb_le, Z.ltb_lt in Hx. lia.
Qed.

(** ** Layouts

    From [__heap_base] on memory is a list of regions: parts that are not the
    allocator's (or that an operation is working on), the root and the end
    sentinel of each block, blocks given out and free regions. *)
Inductive kind := Gap | Root (next endPtr : Z) | Used | Free | End.
#[export] Instance kind_eq_dec : EqDecision kind.
Proof. solve_decision. Defined.

Abbreviation layout := (list (Z * kind)).

Fixpoint total (l : layout) : Z := match l with [] => 0 | (size, _) :: l => size + total l end.

(** The regions with their addresses, from [a] on. *)
Fixpoint regions (a : Z) (l : layout) : list (Z * Z * kind) :=
  match l with [] => [] | (size, k) :: l => (a, size, k) :: regions (a + size) l end.

Definition wf_region (r : Z * kind) : Prop :=
  r.1 mod 4 = 0 /\ 0 <= r.1 /\ (r.2 <> Gap -> 16 <= r.1) /\ (r.2 = End -> r.1 = 16).

(** What the words of a region say. *)
Definition region_words (m : Z -> Z) (a size : Z) (k : kind) : Prop :=
  match k with
  | Gap => True
  | Root next endPtr =>
      load m a = size /\ load m (a + size - 4) = size /\ load m (a + 4) = next /\ load m (a + 8) = endPtr
  | Used | End => load m a = size /\ load m (a + size - 4) = size
  | Free => load m a = size /\ load m (a + size - 4) = size + 1
  end.

Fixpoint seg (m : Z -> Z) (a : Z) (l : layout) : Prop :=
  match l with [] => True | (size, k) :: l => region_words m a size k /\ seg m (a + size) l end.

Lemma total_app l1 l2 : total (l1 ++ l2) = total l1 + total l2.
Proof. induction l1 as [|[size k] l1 IH]; cbn [app total]; lia. Qed.

Lemma total_nonneg l : Forall wf_region l -> 0 <= total l.
Proof. induction 1 as [|[size k] l (_ & Hs & _) _ IH]; cbn [total fst] in *; lia. Qed.

Lemma seg_app m a l1 l2 : seg m a (l1 ++ l2) <-> seg m a l1 /\ seg m (a + total l1) l2.
Proof.
  revert a. induction l1 as [|[size k] l1 IH]; intros a; cbn [app seg total].
  - rewrite Z.add_0_r. tauto.
  - rewrite IH, Z.add_assoc. tauto.
Qed.

Lemma regions_app a l1 l2 : regions a (l1 ++ l2) = regions a l1 ++ regions (a + total l1) l2.
Proof.
  revert a. induction l1 as [|[size k] l1 IH]; intros a; cbn [app regions total].
  - by rewrite Z.add_0_r.
  - by rewrite IH, Z.add_assoc.
Qed.

Lemma elem_of_regions a l b size k :
  (b, size, k) ∈ regions a l <-> exists l1 l2, l = l1 ++ (size, k) :: l2 /\ b = a + total l1.
Proof.
  revert a. induction l as [|[size' k'] l IH]; intros a; cbn [regions].
  - split; [by intros ?%elem_of_nil|intros (l1 & l2 & ? & _); by destruct l1].
  - rewrite elem_of_cons, IH. split.
    + intros [[= -> -> ->]|(l1 & l2 & -> & ->)].
      * exists [], l. split; [done|cbn [total]; lia].
      * exists ((size', k') :: l1), l2. split; [done|cbn [total]; lia].
    + intros ([|[size'' k''] l1] & l2 & [= -> -> ->] & ->); cbn [total].
      * left. by rewrite Z.add_0_r.
      * right. exists l1, l2. split; [done|lia].
Qed.

Lemma region_bounds a l b size k : Forall wf_region l -> (b, size, k) ∈ regions a l ->
  a <= b /\ b + size <= a + total l /\ wf_region (size, k).
Proof.
  intros Hwf (l1 & l2 & -> & ->)%elem_of_regions. rewrite total_app. cbn [total].
  apply Forall_app in Hwf as [Hw1 Hw]. apply Forall_cons in Hw as [Hr Hw2].
  pose proof (total_nonneg _ Hw1). pose proof (total_nonneg _ Hw2).
  split; [lia|]. split; [lia|done].
Qed.

(** Two regions are the same one or do not overlap. *)
Lemma regions_apart a l b size k b' size' k' : Forall wf_region l ->
  (b, size, k) ∈ regions a l -> (b', size', k') ∈ regions a l ->
  (b = b' /\ size = size' /\ k = k') \/ b + size <= b' \/ b' + size' <= b.
Proof.
  intros Hwf. revert a. induction Hwf as [|[size0 k0] l Hr Hwf IH]; intros a; cbn [regions];
    [by intros ?%elem_of_nil|].
  rewrite !elem_of_cons. intros [[= -> -> ->]|Hb] [[= -> -> ->]|Hb'].
  - by left.
  - apply region_bounds in Hb' as (? & _); [|done]. lia.
  - apply region_bounds in Hb as (? & _); [|done]. lia.
  - by apply (IH (a + size0)).
Qed.

Lemma region_words_agree m m' a size k : 16 <= size \/ k = Gap ->
  (forall x, a <= x < a + size -> m' x = m x) -> region_words m a size k -> region_words m' a size k.
Proof.
  intros Hs Hm. destruct Hs as [Hs| ->]; [|done].
  assert (Hl : forall b, a <= b -> b + 4 <= a + size -> load m' b = load m b)
    by (intros; apply load_agree; intros; apply Hm; lia).
  destruct k; simpl; rewrite ?(Hl a), ?(Hl (a + size - 4)), ?(Hl (a + 4)), ?(Hl (a + 8)) by lia; done.
Qed.

Lemma wf_size r : wf_region r -> 16 <= r.1 \/ r.2 = Gap.
Proof. intros (_ & _ & Hs & _). destruct (decide (r.2 = Gap)); [by right|left; auto]. Qed.

Lemma seg_agree m m' a l : Forall wf_region l ->
  (forall x, a <= x < a + total l -> m' x = m x) -> seg m a l -> seg m' a l.
Proof.
  intros Hwf. revert a. induction Hwf as [|[size k] l Hr Hwf IH]; intros a Hm; cbn [seg total] in *; [done|].
  pose proof (total_nonneg _ Hwf). pose proof Hr as (_ & Hs & _). cbn [fst] in Hs. intros [Hw Hseg]. split.
  - apply (region_words_agree m); [by apply (wf_size (size, k))| |done]. intros. apply Hm. lia.
  - apply IH; [|done]. intros. apply Hm. lia.
Qed.

Lemma seg_store_out m a l x v : Forall wf_region l -> x + 4 <= a \/ a + total l <= x ->
  seg m a l -> seg (store m x v) a l.
Proof. intros Hwf Hx. apply seg_agree; [done|]. intros y Hy. apply store_other. lia. Qed.

(** Stores in a part nobody describes change nothing. *)
Lemma seg_store_gap m a l1 size l2 x v : Forall wf_region (l1 ++ (size, Gap) :: l2) ->
  a + total l1 <= x -> x + 4 <= a + total l1 + size ->
  seg m a (l1 ++ (size, Gap) :: l2) -> seg (store m x v) a (l1 ++ (size, Gap) :: l2).
Proof.
  intros [Hw1 [_ Hw2]%Forall_cons]%Forall_app Hlo Hhi. rewrite !seg_app. cbn [seg]. intros (Hs1 & _ & Hs2).
  split; [|split; [done|]]; apply seg_store_out; try done; lia.
Qed.

(** Neither do stores to the list pointers of a free region. *)
Lemma seg_store_free m a l b size x v : Forall wf_region l -> (b, size, Free) ∈ regions a l ->
  x = b + 4 \/ x = b + 8 -> seg m a l -> seg (store m x v) a l.
Proof.
  intros Hwf (l1 & l2 & -> & ->)%elem_of_regions Hx.
  apply Forall_app in Hwf as [Hw1 [(_ & _ & Hs & _) Hw2]%Forall_cons]. cbn [fst snd] in Hs.
  specialize (Hs ltac:(done)). rewrite !seg_app. cbn [seg]. intros (Hs1 & [Hh Hc] & Hs2).
  split; [|split; [split|]].
  - apply seg_store_out; [done|lia|done].
  - rewrite load_store_other by lia. done.
  - rewrite load_store_other by lia. done.
  - apply seg_store_out; [done|lia|done].
Qed.

(** ** One region among the others *)
Lemma elem_mid {A} (r : A) (l1 l2 : list A) x : x ∈ l1 ++ r :: l2 <-> x = r \/ x ∈ l1 ++ l2.
Proof. rewrite !elem_of_app, elem_of_cons. tauto. Qed.

Section Mid.
Variable heap_base : Z.
Abbreviation regs l := (regions heap_base l).

Lemma regs_mid l1 r l2 : regs (l1 ++ r :: l2) =
  regs l1 ++ (heap_base + total l1, r.1, r.2) :: regions (heap_base + total l1 + r.1) l2.
Proof. rewrite regions_app. by destruct r. Qed.

Lemma mid_in l1 size k l2 : (heap_base + total l1, size, k) ∈ regs (l1 ++ (size, k) :: l2).
Proof. rewrite regs_mid, elem_mid. by left. Qed.

Lemma mid_wf l1 size k l2 : Forall wf_region (l1 ++ (size, k) :: l2) -> wf_region (size, k).
Proof. by intros [_ [? _]%Forall_cons]%Forall_app. Qed.

(** The other regions lie before and after. *)
Lemma others_apart l1 size k l2 a size' k' : Forall wf_region (l1 ++ (size, k) :: l2) ->
  (a, size', k') ∈ regs l1 ++ regions (heap_base + total l1 + size) l2 ->
  (heap_base <= a /\ a + size' <= heap_base + total l1 \/
   heap_base + total l1 + size <= a /\ a + size' <= heap_base + total (l1 ++ (size, k) :: l2)) /\
  wf_region (size', k').
Proof.
  intros [Hw1 [Hr Hw2]%Forall_cons]%Forall_app. rewrite total_app. cbn [total].
  pose proof (total_nonneg _ Hw1). pose proof (total_nonneg _ Hw2).
  intros [Ha|Ha]%elem_of_app; (apply region_bounds in Ha as (? & ? & ?); [|done]); (split; [lia|done]).
Qed.

(** The free regions when one region changes. *)
Lemma free_becomes_gap l1 size l2 a size' : Forall wf_region (l1 ++ (size, Free) :: l2) ->
  (a, size', Free) ∈ regs (l1 ++ (size, Gap) :: l2) <->
  (a, size', Free) ∈ regs (l1 ++ (size, Free) :: l2) /\ a <> heap_base + total l1.
Proof.
  intros Hwf. destruct (mid_wf _ _ _ _ Hwf) as (_ & _ & Hs & _). specialize (Hs ltac:(done)).
  rewrite !regs_mid, !elem_mid. cbn [fst snd] in *. split.
  - intros [[=]|Ha]. split; [by right|].
    destruct (others_apart _ _ _ _ _ _ _ Hwf Ha) as (? & _ & _ & Hs' & _). specialize (Hs' ltac:(done)).
    cbn [fst] in Hs'. lia.
  - intros [[[= -> ->]|Ha] Hne]; [done|by right].
Qed.

Lemma wf_gap l1 size k l2 : Forall wf_region (l1 ++ (size, k) :: l2) -> Forall wf_region (l1 ++ (size, Gap) :: l2).
Proof.
  rewrite !Forall_app, !Forall_cons. intros (? & (? & ? & _) & ?). split; [done|]. split; [|done].
  split; [done|]. split; [done|]. by split.
Qed.
Lemma seg_gap m a l1 size k l2 : seg m a (l1 ++ (size, k) :: l2) -> seg m a (l1 ++ (size, Gap) :: l2).
Proof. rewrite !seg_app. simpl. tauto. Qed.

Lemma wf_free l1 size l2 : 16 <= size -> Forall wf_region (l1 ++ (size, Gap) :: l2) ->
  Forall wf_region (l1 ++ (size, Free) :: l2).
Proof.
  intros Hs. rewrite !Forall_app, !Forall_cons. intros (? & (? & ? & _) & ?). split; [done|].
  split; [|done]. split; [done|]. split; [done|]. by split.
Qed.

Lemma seg_free m a l1 size l2 : region_words m (a + total l1) size Free ->
  seg m a (l1 ++ (size, Gap) :: l2) -> seg m a (l1 ++ (size, Free) :: l2).
Proof. rewrite !seg_app. cbn [seg]. tauto. Qed.

Lemma same_frees l1 r r' l2 a size : r.1 = r'.1 -> r.2 <> Free -> r'.2 <> Free ->
  (a, size, Free) ∈ regs (l1 ++ r :: l2) <-> (a, size, Free) ∈ regs (l1 ++ r' :: l2).
Proof. intros Hs Hr Hr'. rewrite !regs_mid, !elem_mid, Hs. naive_solver. Qed.
End Mid.

(** ** Sizes and the flag of free regions *)
Lemma last_word size : size mod 4 = 0 -> 4 * (size / 4 - 1) = size - 4.
Proof. intros Hs. pose proof (Z.div_mod size 4). lia. Qed.

Lemma lor_flag size : size mod 4 = 0 -> Z.lor size FREE_REGION_FLAG = size + 1.
Proof.
  intros Hs. pose proof (Z.div_mod size 4). assert (E : size = 2 * (size / 4) * 2 ^ 1) by lia.
  rewrite E at 1. rewrite lor_add by (unfold FREE_REGION_FLAG; lia). by rewrite <- E.
Qed.

Lemma land_flag size : size mod 4 = 0 ->
  DECODE_CEILING_SIZE size = size /\ DECODE_CEILING_SIZE (size + 1) = size /\ has (size + 1) FREE_REGION_FLAG = true /\
  has size FREE_REGION_FLAG = false.
Proof.
  intros Hs. rewrite <- lor_flag by done. unfold DECODE_CEILING_SIZE, FREE_REGION_FLAG, has.
  assert (Hb : forall n, Z.testbit size n && Z.testbit 1 n = false).
  { intros n. destruct (decide (n = 0)) as [->|Hn].
    - rewrite Z.bit0_odd, <- Z.negb_even. replace (Z.even size) with true; [done|].
      symmetry. apply Z.even_spec. exists (2 * (size / 4)). pose proof (Z.div_mod size 4). lia.
    - destruct n; [done|by destruct p; rewrite andb_false_r|by rewrite andb_false_r]. }
  assert (Hand : Z.land size 1 = 0) by (apply Z.bits_inj'; intros n _; by rewrite Z.land_spec, Z.bits_0).
  assert (Hdec : Z.land size (Z.lnot 1) = size).
  { apply Z.bits_inj'. intros n Hn. rewrite Z.land_spec, Z.lnot_spec by done. specialize (Hb n).
    destruct (Z.testbit size n); [|done]. cbn in Hb. by rewrite Hb. }
  rewrite !Z.land_lor_distr_l, Hdec, Hand. split; [done|]. split; [|done].
  change (Z.land 1 (Z.lnot 1)) with 0. apply Z.lor_0_r.
Qed.

(** ** Circular lists

    Neighbours point at each other. *)
Definition next_of (m : Z -> Z) (x : Z) : Z := load m (x + NEXT).
Definition prev_of (m : Z -> Z) (x : Z) : Z := load m (x + PREV).

Fixpoint links (m : Z -> Z) (x : Z) (l : list Z) (e : Z) : Prop :=
  match l with
  | [] => next_of m x = e /\ prev_of m e = x
  | y :: l => next_of m x = y /\ prev_of m y = x /\ links m y l e
  end.

Lemma links_app m x l1 y l2 e : links m x (l1 ++ y :: l2) e <-> links m x l1 y /\ links m y l2 e.
Proof. revert x. induction l1 as [|z l1 IH]; intros x; cbn [app links]; [tauto|]. rewrite IH. tauto. Qed.

Lemma links_frame m m' x l e :
  (forall y, y = x \/ y ∈ l -> next_of m' y = next_of m y) ->
  (forall y, y = e \/ y ∈ l -> prev_of m' y = prev_of m y) ->
  links m x l e -> links m' x l e.
Proof.
  revert x. induction l as [|z l IH]; intros x Hn Hp; cbn [links].
  - by rewrite Hn, Hp by auto.
  - intros (? & ? & Hl). rewrite Hn, Hp by (rewrite ?elem_of_cons; auto). split; [done|]. split; [done|].
    apply IH; [| |done]; intros y Hy; [apply Hn|apply Hp]; rewrite elem_of_cons; tauto.
Qed.

(** The neighbours of a member. *)
Lemma links_next m x l y e : links m x (l ++ [y]) e -> next_of m y = e /\ prev_of m e = y.
Proof. rewrite links_app. cbn [links]. tauto. Qed.

Definition last_of (x : Z) (l : list Z) : Z := default x (last l).
Definition first_of (l : list Z) (e : Z) : Z := default e (head l).

Lemma links_first m x l e : links m x l e -> next_of m x = first_of l e.
Proof. destruct l; simpl; tauto. Qed.
Lemma links_last m x l e : links m x l e -> prev_of m e = last_of x l.
Proof.
  revert x. induction l as [|y l IH]; intros x; cbn [links]; [tauto|]. intros (_ & _ & Hl).
  rewrite (IH _ Hl). unfold last_of. rewrite last_cons. by destruct (last l).
Qed.

Lemma last_of_snoc x l y : last_of x (l ++ [y]) = y.
Proof. unfold last_of. by rewrite last_snoc. Qed.

(** What splicing asks of the memory after it. *)
Definition set_at (f : Z -> Z) (a v : Z) : Z -> Z := fun y => if decide (y = a) then v else f y.

Lemma set_at_eq f a v : set_at f a v a = v.
Proof. unfold set_at. by rewrite decide_True. Qed.
Lemma set_at_ne f a v y : y <> a -> set_at f a v y = f y.
Proof. intros. unfold set_at. by rewrite decide_False. Qed.

Ltac at_other := rewrite set_at_ne by set_solver.
Ltac spliced :=
  match goal with
  | |- _ /\ _ => split; spliced
  | Hn : forall y, y ∈ _ -> next_of ?m' y = _ |- next_of ?m' _ = _ =>
      rewrite Hn by set_solver; repeat (apply set_at_eq || at_other); auto
  | Hp : forall y, y ∈ _ -> prev_of ?m' y = _ |- prev_of ?m' _ = _ =>
      rewrite Hp by set_solver; repeat (apply set_at_eq || at_other); auto
  | Hl : links ?m ?x ?l ?e |- links _ ?x ?l ?e =>
      apply (links_frame m); [intros y Hy; spliced|intros y Hy; spliced|exact Hl]
  | _ => idtac
  end.

Lemma links_remove m m' h l1 x l2 : NoDup (h :: l1 ++ x :: l2) ->
  (forall y, y ∈ h :: l1 ++ x :: l2 -> next_of m' y = set_at (next_of m) (last_of h l1) (first_of l2 h) y) ->
  (forall y, y ∈ h :: l1 ++ x :: l2 -> prev_of m' y = set_at (prev_of m) (first_of l2 h) (last_of h l1) y) ->
  links m h (l1 ++ x :: l2) h -> links m' h (l1 ++ l2) h.
Proof.
  rewrite NoDup_cons, NoDup_app, NoDup_cons. intros (Hh & H1 & H12 & Hx & H2) Hn Hp.
  rewrite links_app. intros [Hl1 Hl2].
  destruct l1 as [|p l1 _] using rev_ind; destruct l2 as [|n l2];
    rewrite ?last_of_snoc in *; unfold first_of, last_of in *; cbn [app last head default from_option links] in *.
  - spliced.
  - destruct Hl2 as (_ & _ & Hl2). apply NoDup_cons in H2 as [Hn2 H2]. spliced.
  - rewrite app_nil_r in *. rewrite links_app in Hl1 |- *. cbn [links] in *. destruct Hl1 as [Hl1 _].
    apply NoDup_app in H1 as (H1 & Hp1 & _). spliced.
  - rewrite !links_app in *. cbn [links] in *. destruct Hl1 as [Hl1 _], Hl2 as (_ & _ & Hl2).
    apply NoDup_app in H1 as (H1 & Hp1 & _). apply NoDup_cons in H2 as [Hn2 H2]. spliced.
Qed.

Lemma links_insert m m' h l1 x l2 : NoDup (h :: l1 ++ x :: l2) ->
  (forall y, y ∈ h :: l1 ++ x :: l2 ->
    next_of m' y = set_at (set_at (next_of m) x (first_of l2 h)) (last_of h l1) x y) ->
  (forall y, y ∈ h :: l1 ++ x :: l2 ->
    prev_of m' y = set_at (set_at (prev_of m) x (last_of h l1)) (first_of l2 h) x y) ->
  links m h (l1 ++ l2) h -> links m' h (l1 ++ x :: l2) h.
Proof.
  rewrite NoDup_cons, NoDup_app, NoDup_cons. intros (Hh & H1 & H12 & Hx & H2) Hn Hp.
  destruct l1 as [|p l1 _] using rev_ind; destruct l2 as [|n l2];
    rewrite ?last_of_snoc in *; unfold first_of, last_of in *; cbn [app last head default from_option links] in *.
  - intros _. spliced.
  - intros (_ & _ & Hl2). apply NoDup_cons in H2 as [Hn2 H2]. spliced.
  - rewrite app_nil_r in *. rewrite !links_app. cbn [links]. intros [Hl1 _].
    apply NoDup_app in H1 as (H1 & Hp1 & _). spliced.
  - rewrite !links_app. cbn [links]. intros ([Hl1 _] & Hl2).
    apply NoDup_app in H1 as (H1 & Hp1 & _). apply NoDup_cons in H2 as [Hn2 H2]. spliced.
Qed.
