(* ===== verification/EmmallocCore.v ===== *)
(** What holds of the allocator's memory between two of its steps: the regions
    say what the layout says, and every free region is in the circular list of
    its bucket, once.  A region an operation is working on is a [Gap] here. *)
From S2P Require Import Prelude.
From S2P Require Import Wasi.
From S2P Require Import Mman.
From S2P Require Import Emmalloc.
From S2P Require Import EmmallocHeap.

(** Where the linker puts the static array and the end of static memory. *)
Class Placed (freeRegionBuckets heap_base : Z) : Prop := {
  buckets_pos : 0 < freeRegionBuckets;
  buckets_below : freeRegionBuckets + 64 * SIZEOF_REGION <= heap_base;
  heap_base_aligned : heap_base mod 16 = 0 }.

Definition brk {W} `{WasmMem W} (s : heap W) : Z := memory_size (world (henv s)) * PAGE.

(** The same world and the same blocks. *)
Definition quiet {W} (s s' : heap W) : Prop :=
  henv s' = henv s /\ listOfAllRegions s' = listOfAllRegions s.

#[export] Instance quiet_preorder {W} : PreOrder (quiet (W := W)).
Proof. split; [done|]. intros ??? [] []. split; congruence. Qed.

Section Core.
Context {W : Type} `{WasmMemLaws W} `{!Below4GiB W}.
Context (freeRegionBuckets heap_base : Z) `{!Placed freeRegionBuckets heap_base}.
Abbreviation hd_of i := (bucket_head freeRegionBuckets i).
Abbreviation regs l := (regions heap_base l).

Definition is_head (x : Z) : Prop := exists i, 0 <= i < 64 /\ x = hd_of i.
Definition is_node (l : layout) (x : Z) : Prop :=
  is_head x \/ exists size, (x, size, Free) ∈ regs l.

(** The addresses of the array. *)
Definition in_buckets (x : Z) : Prop :=
  freeRegionBuckets <= x < freeRegionBuckets + 64 * SIZEOF_REGION.

Record free_lists (m : Z -> Z) (l : layout) (L : Z -> list Z) (used : Z) : Prop := {
  lists_members : forall i a, a ∈ L i <->
    exists size, (a, size, Free) ∈ regs l /\ compute_free_list_bucket (size - REGION_HEADER_SIZE) = i;
  lists_nodup : forall i, NoDup (L i);
  lists_rings : forall i, 0 <= i < 64 -> links m (hd_of i) (L i) (hd_of i);
  lists_bits : forall i, L i <> [] -> Z.testbit used i = true;
  lists_used : 0 <= used < 2 ^ 64 }.

(** An operation that started with memory [m0] may change it at [P]. *)
Record core (P : Z -> Prop) (m0 : Z -> Z) (s : heap W) (l : layout) (L : Z -> list Z) : Prop := {
  core_wf : Forall wf_region l;
  core_seg : seg (hmem s) heap_base l;
  core_lists : free_lists (hmem s) l L (freeRegionBucketsUsed s);
  core_top : heap_base + total l <= brk s;
  core_heads : forall x, in_buckets x -> P x;
  core_frees : forall a size x, (a, size, Free) ∈ regs l -> a <= x < a + size -> P x;
  core_agree : forall x, ~ P x -> hmem s x = m0 x }.

Lemma brk_range (s : heap W) : 0 <= brk s < 2 ^ 32 - PAGE + 1.
Proof. unfold brk, PAGE. pose proof (memory_size_below (world (henv s))). lia. Qed.

Lemma head_below x : is_head x -> freeRegionBuckets <= x /\ x + 16 <= heap_base.
Proof.
  intros (i & Hi & ->). pose proof buckets_below. unfold bucket_head, SIZEOF_REGION in *. lia.
Qed.

Lemma free_size l a size : Forall wf_region l -> (a, size, Free) ∈ regs l ->
  heap_base <= a /\ a + size <= heap_base + total l /\ 16 <= size /\ size mod 4 = 0.
Proof.
  intros Hwf Ha. destruct (region_bounds _ _ _ _ _ Hwf Ha) as (? & ? & Hm & _ & Hs & _). cbn [fst snd] in *.
  specialize (Hs ltac:(done)). lia.
Qed.

Lemma nodes_apart l x y : Forall wf_region l -> is_node l x -> is_node l y ->
  x = y \/ x + 16 <= y \/ y + 16 <= x.
Proof.
  intros Hwf [Hx|[sx Hx]] [Hy|[sy Hy]].
  - destruct Hx as (i & ? & ->), Hy as (j & ? & ->). unfold bucket_head, SIZEOF_REGION. lia.
  - apply head_below in Hx. apply free_size in Hy; [lia|done].
  - apply head_below in Hy. apply free_size in Hx; [lia|done].
  - pose proof (free_size _ _ _ Hwf Hx). pose proof (free_size _ _ _ Hwf Hy).
    destruct (regions_apart _ _ _ _ _ _ _ _ Hwf Hx Hy) as [(-> & _)|?]; [by left|lia].
Qed.

(** Stores to the list pointers of nodes. *)
Section Nodes.
Context (l : layout) (x y v : Z) (m : Z -> Z).
Context (Hwf : Forall wf_region l) (Hx : is_node l x) (Hy : is_node l y) (Hv : 0 <= v < 2 ^ 32).

Lemma next_of_next : next_of (store m (x + NEXT) v) y = set_at (next_of m) x v y.
Proof.
  unfold next_of, set_at. destruct (decide (y = x)) as [->|]; [by apply load_store_same|].
  apply load_store_other. destruct (nodes_apart l x y) as [?|?]; auto; [done|]. unfold NEXT. lia.
Qed.
Lemma prev_of_prev : prev_of (store m (x + PREV) v) y = set_at (prev_of m) x v y.
Proof.
  unfold prev_of, set_at. destruct (decide (y = x)) as [->|]; [by apply load_store_same|].
  apply load_store_other. destruct (nodes_apart l x y) as [?|?]; auto; [done|]. unfold PREV. lia.
Qed.
Lemma next_of_prev : next_of (store m (x + PREV) v) y = next_of m y.
Proof.
  apply load_store_other. unfold NEXT, PREV. destruct (nodes_apart l x y) as [->|?]; auto; lia.
Qed.
Lemma prev_of_next : prev_of (store m (x + NEXT) v) y = prev_of m y.
Proof.
  apply load_store_other. unfold NEXT, PREV. destruct (nodes_apart l x y) as [->|?]; auto; lia.
Qed.
End Nodes.

(** They do not touch what regions say. *)
Lemma seg_node m l x v : Forall wf_region l -> is_node l x -> seg m heap_base l ->
  seg (store m (x + NEXT) v) heap_base l /\ seg (store m (x + PREV) v) heap_base l.
Proof.
  intros Hwf [Hx|[size Hx]] Hs.
  - apply head_below in Hx. split; apply seg_store_out; auto; unfold NEXT, PREV; lia.
  - split; apply (seg_store_free _ _ _ x size); auto.
Qed.

Lemma node_range (s : heap W) l x : Forall wf_region l -> heap_base + total l <= brk s -> is_node l x ->
  0 < x < 2 ^ 32.
Proof.
  intros Hwf Ht Hx. pose proof (brk_range s). pose proof buckets_pos. unfold PAGE in *.
  destruct Hx as [Hx|[size Hx]].
  - apply head_below in Hx. pose proof (total_nonneg _ Hwf). lia.
  - apply free_size in Hx; [|done]. pose proof buckets_below. unfold SIZEOF_REGION in *. lia.
Qed.

(** Where the two words of a node are. *)
Lemma node_words (P : Z -> Prop) l x : (forall y, in_buckets y -> P y) ->
  (forall a size y, (a, size, Free) ∈ regs l -> a <= y < a + size -> P y) ->
  Forall wf_region l -> is_node l x -> forall y, x + 4 <= y < x + 12 -> P y.
Proof.
  intros Hh Hf Hwf [(i & Hi & ->)|[size Hx]] y Hy.
  - apply Hh. unfold in_buckets, bucket_head, SIZEOF_REGION in *. lia.
  - pose proof (free_size _ _ _ Hwf Hx). apply (Hf _ _ _ Hx). lia.
Qed.

(** ** Members of lists *)
Section Lists.
Context (m : Z -> Z) (l : layout) (L : Z -> list Z) (used : Z).
Context (Hwf : Forall wf_region l) (Hl : free_lists m l L used).

Lemma member_node i x : x ∈ L i -> is_node l x.
Proof. rewrite (lists_members _ _ _ _ Hl). intros (size & Hx & _). right. eauto. Qed.

Lemma ring_node i x : 0 <= i < 64 -> x ∈ hd_of i :: L i -> is_node l x.
Proof. intros Hi [->|Hx]%elem_of_cons; [left; by exists i|by apply (member_node i)]. Qed.

Lemma member_not_head i x : x ∈ L i -> ~ is_head x.
Proof.
  rewrite (lists_members _ _ _ _ Hl). intros (size & Hx & _) Hh.
  apply free_size in Hx; [|done]. apply head_below in Hh. lia.
Qed.

Lemma ring_nodup i : 0 <= i < 64 -> NoDup (hd_of i :: L i).
Proof.
  intros Hi. apply NoDup_cons. split; [|apply (lists_nodup _ _ _ _ Hl)].
  intros Hh. apply (member_not_head _ _ Hh). by exists i.
Qed.

Lemma member_bucket i x size : (x, size, Free) ∈ regs l -> x ∈ L i ->
  i = compute_free_list_bucket (size - REGION_HEADER_SIZE).
Proof.
  intros Hx. rewrite (lists_members _ _ _ _ Hl). intros (size' & Hx' & <-).
  pose proof (free_size _ _ _ Hwf Hx). pose proof (free_size _ _ _ Hwf Hx').
  destruct (regions_apart _ _ _ _ _ _ _ _ Hwf Hx Hx') as [(_ & -> & _)|?]; [done|lia].
Qed.

Lemma rings_apart i j x : 0 <= i < 64 -> 0 <= j < 64 ->
  x ∈ hd_of i :: L i -> x ∈ hd_of j :: L j -> i = j.
Proof.
  intros Hi Hj [->|Hx]%elem_of_cons [He|Hx']%elem_of_cons.
  - unfold bucket_head, SIZEOF_REGION in He. lia.
  - destruct (member_not_head _ _ Hx'). by exists i.
  - destruct (member_not_head _ _ Hx). exists j. done.
  - pose proof Hx as (size & Hs & <-)%(lists_members _ _ _ _ Hl). symmetry. by apply member_bucket with x.
Qed.
End Lists.
End Core.
