(* ===== verification/EmmallocSteps.v ===== *)
(** The steps of the allocator on regions and free lists: linking and
    unlinking a region, stores in a region being worked on, splitting, joining
    and appending regions. *)
From S2P Require Import Prelude.
From S2P Require Import Wasi.
From S2P Require Import Mman.
From S2P Require Import Emmalloc.
From S2P Require Import EmmallocHeap.
From S2P Require Import EmmallocCore.

Section Steps.
Context {W : Type} `{WasmMemLaws W} `{!Below4GiB W}.
Context (freeRegionBuckets heap_base : Z) `{!Placed freeRegionBuckets heap_base}.
Context (P : Z -> Prop) (m0 : Z -> Z).
Abbreviation hd_of i := (bucket_head freeRegionBuckets i).
Abbreviation regs l := (regions heap_base l).
Abbreviation core := (core freeRegionBuckets heap_base P m0).
Abbreviation is_node := (is_node freeRegionBuckets heap_base).
Abbreviation free_lists := (free_lists freeRegionBuckets heap_base).

Definition with_mem (s : heap W) (m : Z -> Z) : heap W :=
  Heap m (listOfAllRegions s) (freeRegionBucketsUsed s) (henv s).

(** ** Unlinking *)
Lemma last_of_in h la : last_of h la ∈ h :: la.
Proof.
  unfold last_of. destruct (last la) as [y|] eqn:Hy; simpl; [|by left].
  right. by apply last_Some_elem_of.
Qed.
Lemma first_of_in lb h : first_of lb h ∈ h :: lb.
Proof. destruct lb; unfold first_of; simpl; [by left|]. rewrite !elem_of_cons. auto. Qed.

(** The memory after a node [x] was cut out between [p] and [n]. *)
Definition cut (m : Z -> Z) (x : Z) : Z -> Z :=
  let m1 := store m (prev_of m x + NEXT) (next_of m x) in
  store m1 (next_of m1 x + PREV) (prev_of m1 x).

Lemma unlink_run s x : unlink_from_free_list x s = Ret (tt, with_mem s (cut (hmem s) x)).
Proof. reflexivity. Qed.

(** Only list pointers of nodes change, so regions and everything outside the
    allocator's memory stay. *)
Section Node_store.
Context (l : layout) (Hwf : Forall wf_region l) (Hh : forall x, in_buckets freeRegionBuckets x -> P x).
Context (Hf : forall a size x, (a, size, Free) ∈ regs l -> a <= x < a + size -> P x).

Lemma node_store_out m x v y : is_node l x -> ~ P y ->
  store m (x + NEXT) v y = m y /\ store m (x + PREV) v y = m y.
Proof.
  intros Hx Hy. pose proof (node_words _ _ P _ _ Hh Hf Hwf Hx) as HPx.
  assert (y < x + 4 \/ x + 12 <= y).
  { destruct (Z.lt_ge_cases y (x + 4)); [by left|]. right.
    destruct (Z.lt_ge_cases y (x + 12)); [|done]. destruct Hy. apply HPx. lia. }
  split; apply store_other; unfold NEXT, PREV; lia.
Qed.

Lemma node_stores_kept m m' x v : is_node l x ->
  m' = store m (x + NEXT) v \/ m' = store m (x + PREV) v ->
  seg m heap_base l /\ (forall y, ~ P y -> m y = m0 y) -> seg m' heap_base l /\ (forall y, ~ P y -> m' y = m0 y).
Proof.
  intros Hx Hm' [Hseg Hag]. destruct (seg_node freeRegionBuckets heap_base m l x v Hwf Hx Hseg).
  split; [by destruct Hm' as [-> | ->]|]. intros y Hy. destruct (node_store_out m x v y Hx Hy).
  rewrite <- Hag by done. by destruct Hm' as [-> | ->].
Qed.
End Node_store.

Lemma cut_frame s l L x : core s l L -> is_node l x -> is_node l (prev_of (hmem s) x) ->
  is_node l (next_of (hmem s) x) -> prev_of (hmem s) x <> x ->
  let m' := cut (hmem s) x in
  seg m' heap_base l /\ (forall y, ~ P y -> m' y = m0 y) /\
  (forall y, is_node l y ->
    next_of m' y = set_at (next_of (hmem s)) (prev_of (hmem s) x) (next_of (hmem s) x) y /\
    prev_of m' y = set_at (prev_of (hmem s)) (next_of (hmem s) x) (prev_of (hmem s) x) y).
Proof.
  intros [Hwf Hseg Hl Ht Hh Hf Ha] Hx Hp Hn Hne. cbn zeta. unfold cut.
  pose proof (node_range _ _ _ _ _ Hwf Ht Hp) as Hpr. pose proof (node_range _ _ _ _ _ Hwf Ht Hn) as Hnr.
  set (p := prev_of (hmem s) x) in *. set (n := next_of (hmem s) x) in *.
  rewrite (next_of_next _ _ l), (prev_of_next _ _ l), set_at_ne by (done || lia). fold p n.
  apply Logic.and_assoc. split.
  - apply (node_stores_kept l Hwf Hh Hf (store (hmem s) (p + NEXT) n) _ n p); auto.
    apply (node_stores_kept l Hwf Hh Hf (hmem s) _ p n); auto.
  - intros y Hy. rewrite (next_of_prev _ _ l), (next_of_next _ _ l), (prev_of_prev _ _ l) by (done || lia).
    split; [done|]. unfold set_at. case_decide; [done|]. by rewrite (prev_of_next _ _ l).
Qed.

Section Unlink.
Context (s : heap W) (l1 l2 : layout) (size : Z) (L : Z -> list Z).
Context (Hc : core s (l1 ++ (size, Free) :: l2) L).
Abbreviation x := (heap_base + total l1).
Abbreviation l := (l1 ++ (size, Free) :: l2).
Abbreviation i := (compute_free_list_bucket (size - REGION_HEADER_SIZE)).

Lemma free_bucket : 0 <= i < 64.
Proof.
  pose proof Hc as [Hwf _ _ Ht _ _ _]. pose proof (free_size _ _ _ _ Hwf (mid_in heap_base l1 size Free l2)).
  pose proof (brk_range s). unfold PAGE, REGION_HEADER_SIZE in *.
  pose proof (buckets_pos (heap_base := heap_base)). pose proof buckets_below. unfold SIZEOF_REGION in *.
  apply bucket_range. lia.
Qed.

Section Cut.
Context (la lb : list Z) (HL : L i = la ++ x :: lb).

Definition cut_out (j : Z) : list Z := if decide (j = i) then la ++ lb else L j.

Lemma cut_nodup : NoDup (hd_of i :: la ++ x :: lb).
Proof.
  pose proof Hc as [Hwf _ Hl _ _ _ _]. rewrite <- HL. apply (ring_nodup _ _ _ _ _ _ Hwf Hl i free_bucket).
Qed.

Lemma cut_neighbours : prev_of (hmem s) x = last_of (hd_of i) la /\ next_of (hmem s) x = first_of lb (hd_of i).
Proof.
  pose proof Hc as [_ _ Hl _ _ _ _]. pose proof (lists_rings _ _ _ _ _ _ Hl i free_bucket) as Hr.
  rewrite HL, links_app in Hr. destruct Hr as [Hra%links_last Hrb%links_first]. done.
Qed.

Lemma cut_nodes y : y ∈ hd_of i :: la ++ x :: lb -> is_node l y.
Proof.
  pose proof Hc as [_ _ Hl _ _ _ _]. rewrite <- HL. by apply (ring_node _ _ _ _ _ _ Hl i y free_bucket).
Qed.

Lemma cut_effect : let m' := cut (hmem s) x in
  seg m' heap_base l /\ (forall y, ~ P y -> m' y = m0 y) /\
  (forall y, is_node l y ->
    next_of m' y = set_at (next_of (hmem s)) (last_of (hd_of i) la) (first_of lb (hd_of i)) y /\
    prev_of m' y = set_at (prev_of (hmem s)) (first_of lb (hd_of i)) (last_of (hd_of i) la) y).
Proof.
  destruct cut_neighbours as [Hp Hn]. rewrite <- Hp, <- Hn.
  pose proof (last_of_in (hd_of i) la) as Hpin. pose proof (first_of_in lb (hd_of i)) as Hnin.
  rewrite <- Hp in Hpin. rewrite <- Hn in Hnin.
  apply (cut_frame s l L x Hc); [apply cut_nodes; set_solver..|].
  intros E. rewrite E in Hpin. pose proof cut_nodup as Hnd.
  revert Hnd. rewrite NoDup_cons, NoDup_app. set_solver.
Qed.

Lemma cut_members j a : a ∈ cut_out j <->
  exists sz, (a, sz, Free) ∈ regs (l1 ++ (size, Gap) :: l2) /\
    compute_free_list_bucket (sz - REGION_HEADER_SIZE) = j.
Proof.
  pose proof Hc as [Hwf _ Hl _ _ _ _]. transitivity (a ∈ L j /\ a <> x).
  { unfold cut_out. pose proof cut_nodup as [_ Hnd]%NoDup_cons. case_decide as Hj; [subst j; rewrite HL|].
    - revert Hnd. rewrite NoDup_app, NoDup_cons. set_solver.
    - split; [|tauto]. intros Haj. split; [done|]. intros ->.
      apply Hj, (member_bucket _ _ _ _ _ _ Hwf Hl j x size); [apply mid_in|done]. }
  rewrite (lists_members _ _ _ _ _ _ Hl). setoid_rewrite (free_becomes_gap heap_base l1 size l2 a); [|done]. split.
  - intros [(sz & ? & ?) ?]. eauto.
  - intros (sz & [? ?] & ?). eauto.
Qed.

Lemma cut_rings j : 0 <= j < 64 -> links (cut (hmem s) x) (hd_of j) (cut_out j) (hd_of j).
Proof.
  pose proof Hc as [Hwf _ Hl _ _ _ _]. destruct cut_effect as (_ & _ & Hm'). intros Hj.
  unfold cut_out. case_decide as Hji; [subst j|].
  - apply (links_remove (hmem s) _ _ la x lb cut_nodup); [intros y Hy; by apply Hm', cut_nodes..|].
    rewrite <- HL. by apply (lists_rings _ _ _ _ _ _ Hl).
  - assert (Hoff : forall y, y ∈ hd_of j :: L j -> is_node l y /\ y ∉ hd_of i :: L i).
    { intros y Hy. split; [by apply (ring_node _ _ _ _ _ _ Hl j)|]. intros Hy'.
      apply Hji. apply (rings_apart _ _ _ _ _ _ Hwf Hl j i y); [done|apply free_bucket|done|done]. }
    rewrite HL in Hoff. pose proof (last_of_in (hd_of i) la). pose proof (first_of_in lb (hd_of i)).
    apply (links_frame (hmem s)); [| |by apply (lists_rings _ _ _ _ _ _ Hl)];
      intros y Hy; destruct (Hoff y) as [Hy1 Hy2]; [set_solver| |set_solver|];
      destruct (Hm' y Hy1) as [Hn' Hp']; [rewrite Hn'|rewrite Hp']; apply set_at_ne; set_solver.
Qed.
End Cut.

Lemma unlink_core : exists s' L', unlink_from_free_list x s = Ret (tt, s') /\
  core s' (l1 ++ (size, Gap) :: l2) L' /\ quiet s s' /\ freeRegionBucketsUsed s' = freeRegionBucketsUsed s /\
  region_words (hmem s') x size Free.
Proof.
  pose proof Hc as [Hwf Hseg Hl Ht Hh Hf Ha]. pose proof (mid_in heap_base l1 size Free l2) as Hx.
  assert (Hin : x ∈ L i) by (apply (lists_members _ _ _ _ _ _ Hl); eauto).
  apply list_elem_of_split in Hin as (la & lb & HL). destruct (cut_effect la lb HL) as (Hseg' & Hag & _).
  exists (with_mem s (cut (hmem s) x)), (cut_out la lb).
  split; [apply unlink_run|]. split; [|split; [done|]; split; [done|]].
  2:{ apply seg_app in Hseg' as [_ [Hw _]]. exact Hw. }
  split; cbn [with_mem hmem freeRegionBucketsUsed].
  - by apply (wf_gap _ _ Free).
  - by apply (seg_gap _ _ _ _ Free).
  - split; [by apply cut_members| |by apply cut_rings| |apply (lists_used _ _ _ _ _ _ Hl)].
    + intros j. unfold cut_out. case_decide; [|apply (lists_nodup _ _ _ _ _ _ Hl)].
      pose proof (cut_nodup la lb HL) as [_ Hnd]%NoDup_cons. revert Hnd. rewrite !NoDup_app, NoDup_cons. set_solver.
    + intros j Hj. apply (lists_bits _ _ _ _ _ _ Hl). unfold cut_out in Hj. case_decide; [|done]. subst j.
      rewrite HL. by destruct la.
  - rewrite total_app in *. cbn [total] in *. exact Ht.
  - done.
  - intros a sz y [? _]%free_becomes_gap; [|done]. by apply Hf.
  - done.
Qed.
End Unlink.

(** ** Linking *)
Section Insert.
Context (s : heap W) (l1 l2 : layout) (size : Z) (L : Z -> list Z).
Context (Hc : core s (l1 ++ (size, Gap) :: l2) L) (Hs : 16 <= size).
Context (Hw : region_words (hmem s) (heap_base + total l1) size Free).
Context (HP : forall y, heap_base + total l1 <= y < heap_base + total l1 + size -> P y).
Abbreviation x := (heap_base + total l1).
Abbreviation l := (l1 ++ (size, Free) :: l2).
Abbreviation i := (compute_free_list_bucket (size - REGION_HEADER_SIZE)).

Lemma gap_limit : 0 < x /\ x + size <= brk s.
Proof.
  pose proof Hc as [Hwf _ _ Ht _ _ _]. rewrite total_app in Ht. cbn [total] in Ht.
  apply Forall_app in Hwf as [Hw1 [_ Hw2]%Forall_cons].
  pose proof (total_nonneg _ Hw1). pose proof (total_nonneg _ Hw2).
  pose proof (buckets_pos (heap_base := heap_base)). pose proof buckets_below. unfold SIZEOF_REGION in *. lia.
Qed.

Lemma gap_bucket : 0 <= i < 64.
Proof.
  pose proof gap_limit. pose proof (brk_range s). unfold PAGE, REGION_HEADER_SIZE in *. apply bucket_range. lia.
Qed.

Lemma gap_members : Forall wf_region l /\ (forall y, is_node (l1 ++ (size, Gap) :: l2) y -> is_node l y) /\
  is_node l x /\ (forall j, x ∉ L j).
Proof.
  pose proof Hc as [Hwf _ Hl _ _ _ _]. pose proof (wf_free _ _ _ Hs Hwf) as Hwf'. split; [done|].
  split; [|split].
  - intros y [Hy|[sz Hy]]; [by left|right]. exists sz. by apply free_becomes_gap in Hy as [? _].
  - right. exists size. apply mid_in.
  - intros j. rewrite (lists_members _ _ _ _ _ _ Hl). intros (sz & Hx & _).
    by apply free_becomes_gap in Hx as [_ []].
Qed.

(** Putting the region between two neighbours of its bucket. *)
Section Splice.
Context (m' : Z -> Z) (la lb : list Z) (HL : L i = la ++ lb).
Context (Hm' : forall y, is_node l y ->
  next_of m' y = set_at (set_at (next_of (hmem s)) x (first_of lb (hd_of i))) (last_of (hd_of i) la) x y /\
  prev_of m' y = set_at (set_at (prev_of (hmem s)) x (last_of (hd_of i) la)) (first_of lb (hd_of i)) x y).

Definition spliced_in (j : Z) : list Z := if decide (j = i) then la ++ x :: lb else L j.

Lemma only_size sz : (x, sz, Free) ∈ regs l -> sz = size.
Proof.
  destruct gap_members as (Hwf' & _). intros Hz. pose proof (free_size _ _ _ _ Hwf' Hz).
  destruct (regions_apart _ _ _ _ _ _ _ _ Hwf' Hz (mid_in heap_base l1 size Free l2)) as [(_ & ? & _)|?]; [done|lia].
Qed.

Lemma not_head j : 0 <= j < 64 -> x <> hd_of j.
Proof.
  intros Hj E. destruct gap_members as (Hwf' & _).
  pose proof (head_below freeRegionBuckets heap_base (hd_of j) ltac:(by exists j)) as [_ ?].
  destruct (free_size _ _ _ _ Hwf' (mid_in heap_base l1 size Free l2)). lia.
Qed.

Lemma spliced_members j a : a ∈ spliced_in j <->
  exists sz, (a, sz, Free) ∈ regs l /\ compute_free_list_bucket (sz - REGION_HEADER_SIZE) = j.
Proof.
  pose proof Hc as [Hwf _ Hl _ _ _ _]. destruct gap_members as (Hwf' & _).
  pose proof (free_becomes_gap heap_base l1 size l2) as Hgap.
  transitivity (a ∈ L j \/ (a = x /\ j = i)).
  { unfold spliced_in. case_decide as Hj; [subst j; rewrite HL; set_solver|]. split; [auto|]. by intros [?|[_ ?]]. }
  rewrite (lists_members _ _ _ _ _ _ Hl). split.
  - intros [(sz & Hz & ?)|[-> ->]]; [apply Hgap in Hz as [? _]; eauto|]. exists size. split; [apply mid_in|done].
  - intros (sz & Hz & Hb). destruct (decide (a = x)) as [->|Hne].
    + right. split; [done|]. by rewrite <- Hb, (only_size _ Hz).
    + left. exists sz. split; [by apply Hgap|done].
Qed.

Lemma spliced_nodup : NoDup (hd_of i :: la ++ x :: lb).
Proof.
  pose proof Hc as [Hwf _ Hl _ _ _ _]. destruct gap_members as (_ & _ & _ & Hout). pose proof gap_bucket as Hi.
  pose proof (ring_nodup _ _ _ _ _ _ Hwf Hl i Hi) as Hnd. rewrite HL in Hnd.
  pose proof (not_head i Hi). specialize (Hout i). rewrite HL in Hout.
  revert Hnd. rewrite !NoDup_cons, !NoDup_app, NoDup_cons. set_solver.
Qed.

Lemma spliced_rings j : 0 <= j < 64 -> links m' (hd_of j) (spliced_in j) (hd_of j).
Proof.
  pose proof Hc as [Hwf _ Hl _ _ _ _]. destruct gap_members as (Hwf' & Hnodes & Hx & Hout).
  pose proof gap_bucket as Hi. intros Hj. unfold spliced_in. case_decide as Hji; [subst j|].
  - assert (Hall : forall y, y ∈ hd_of i :: la ++ x :: lb -> is_node l y).
    { intros y Hy. destruct (decide (y = x)) as [->|Hne]; [done|].
      apply Hnodes, (ring_node _ _ _ _ _ _ Hl i y Hi). rewrite HL. set_solver. }
    apply (links_insert (hmem s) _ _ la x lb spliced_nodup); [intros y Hy; by apply Hm', Hall..|].
    rewrite <- HL. by apply (lists_rings _ _ _ _ _ _ Hl).
  - assert (Hoff : forall y, y ∈ hd_of j :: L j -> is_node l y /\ y ∉ hd_of i :: L i /\ y <> x).
    { intros y Hy. split; [by apply Hnodes, (ring_node _ _ _ _ _ _ Hl j)|]. split.
      - intros Hy'. apply Hji. by apply (rings_apart _ _ _ _ _ _ Hwf Hl j i y).
      - intros ->. apply elem_of_cons in Hy as [E|Hy]; [by apply (not_head j)|by apply (Hout j)]. }
    rewrite HL in Hoff. pose proof (last_of_in (hd_of i) la). pose proof (first_of_in lb (hd_of i)).
    apply (links_frame (hmem s)); [| |by apply (lists_rings _ _ _ _ _ _ Hl)];
      intros y Hy; destruct (Hoff y) as (Hy1 & Hy2 & Hy3); [set_solver| |set_solver|];
      destruct (Hm' y Hy1) as [Hn' Hp']; [rewrite Hn'|rewrite Hp']; rewrite !set_at_ne; set_solver.
Qed.

Lemma insert_core used' : seg m' heap_base l -> (forall y, ~ P y -> m' y = m0 y) ->
  0 <= used' < 2 ^ 64 ->
  (forall j, Z.testbit (freeRegionBucketsUsed s) j || (j =? i) = true -> Z.testbit used' j = true) ->
  core (Heap m' (listOfAllRegions s) used' (henv s)) l spliced_in.
Proof.
  intros Hseg' Hag Hu Hbits. pose proof Hc as [Hwf Hseg Hl Ht Hh Hf Ha].
  destruct gap_members as (Hwf' & _). split; cbn [hmem freeRegionBucketsUsed]; [done|done| | |done| |].
  - split; [apply spliced_members| |apply spliced_rings| |done].
    + intros j. unfold spliced_in. case_decide; [|apply (lists_nodup _ _ _ _ _ _ Hl)].
      by pose proof spliced_nodup as [_ ?]%NoDup_cons.
    + intros j Hj. apply Hbits. destruct (Z.eqb_spec j i); [by rewrite orb_true_r|]. rewrite orb_false_r.
      apply (lists_bits _ _ _ _ _ _ Hl). unfold spliced_in in Hj. by rewrite decide_False in Hj.
  - rewrite total_app in *. exact Ht.
  - intros a sz y Hz Hy. destruct (decide (a = x)) as [->|Hne]; [rewrite (only_size _ Hz) in Hy; by apply HP|].
    apply (Hf a sz); [by apply free_becomes_gap|done].
  - done.
Qed.
End Splice.

(** The stores of [link_to_free_list] and of [prepend_to_free_list]. *)
Definition linked_in (m : Z -> Z) (x h : Z) : Z -> Z :=
  let m1 := store m (x + PREV) h in
  let m2 := store m1 (x + NEXT) (next_of m1 h) in
  let m3 := store m2 (h + NEXT) x in
  store m3 (next_of m3 x + PREV) x.

Definition prepended (m : Z -> Z) (x h : Z) : Z -> Z :=
  let m1 := store m (x + NEXT) h in
  let m2 := store m1 (x + PREV) (prev_of m1 h) in
  let m3 := store m2 (h + PREV) x in
  store m3 (prev_of m3 x + NEXT) x.

Lemma gap_frees a sz y : (a, sz, Free) ∈ regs l -> a <= y < a + sz -> P y.
Proof.
  pose proof Hc as [_ _ _ _ _ Hf _]. intros Hz Hy.
  destruct (decide (a = x)) as [->|Hne]; [rewrite (only_size _ Hz) in Hy; by apply HP|].
  apply (Hf a sz); [by apply free_becomes_gap; [apply gap_members|]|done].
Qed.

(** The neighbours the region gets, at either end of its list. *)
Lemma ends : let h := hd_of i in
  next_of (hmem s) h = first_of (L i) h /\ prev_of (hmem s) h = last_of h (L i) /\
  is_node l h /\ is_node l (first_of (L i) h) /\ is_node l (last_of h (L i)) /\
  first_of (L i) h <> x /\ last_of h (L i) <> x /\ x <> h.
Proof.
  cbn zeta. pose proof Hc as [Hwf _ Hl _ _ _ _]. destruct gap_members as (_ & Hnodes & _ & Hout).
  pose proof gap_bucket as Hi. pose proof (lists_rings _ _ _ _ _ _ Hl i Hi) as Hr.
  assert (Hin : forall y, y ∈ hd_of i :: L i -> is_node l y /\ y <> x).
  { intros y Hy. split; [by apply Hnodes, (ring_node _ _ _ _ _ _ Hl i y Hi)|]. intros ->.
    apply elem_of_cons in Hy as [E|Hy]; [by apply (not_head i)|by apply (Hout i)]. }
  split; [by apply links_first in Hr|]. split; [by apply links_last in Hr|].
  split; [apply Hin; by left|]. split; [by apply Hin, first_of_in|]. split; [by apply Hin, last_of_in|].
  split; [by apply Hin, first_of_in|]. split; [by apply Hin, last_of_in|]. by apply not_head.
Qed.

Ltac node_eval := repeat first
  [ rewrite (next_of_prev _ _ l) by done | rewrite (prev_of_next _ _ l) by done
  | rewrite (next_of_next _ _ l) by (done || lia) | rewrite (prev_of_prev _ _ l) by (done || lia)
  | progress unfold set_at; case_decide ]; try done.

Lemma linked_in_effect : let h := hd_of i in let m' := linked_in (hmem s) x h in
  seg m' heap_base l /\ (forall y, ~ P y -> m' y = m0 y) /\
  (forall y, is_node l y ->
    next_of m' y = set_at (set_at (next_of (hmem s)) x (first_of (L i) h)) (last_of h []) x y /\
    prev_of m' y = set_at (set_at (prev_of (hmem s)) x (last_of h [])) (first_of (L i) h) x y).
Proof.
  cbn zeta. pose proof Hc as [Hwf Hseg Hl Ht Hh Hf Ha]. destruct gap_members as (Hwf' & _ & Hx & _).
  destruct ends as (Hn & _ & Hnh & Hnn & _ & Hne & _ & Hxh). set (h := hd_of i) in *.
  rewrite <- Hn in *. change (last_of h []) with h. set (n := next_of (hmem s) h) in *.
  assert (Ht' : heap_base + total l <= brk s) by (rewrite total_app in *; exact Ht).
  pose proof (node_range _ _ _ _ _ Hwf' Ht' Hx) as Hxr. pose proof (node_range _ _ _ _ _ Hwf' Ht' Hnh) as Hhr.
  pose proof (node_range _ _ _ _ _ Hwf' Ht' Hnn) as Hnr.
  unfold linked_in. rewrite (next_of_prev _ _ l) by done. fold n.
  set (m1 := store _ (x + PREV) h). set (m2 := store m1 (x + NEXT) n). set (m3 := store m2 (h + NEXT) x).
  assert (Hn' : next_of m3 x = n) by (unfold m3, m2; node_eval).
  rewrite Hn'. apply Logic.and_assoc. split; [|intros y Hy; unfold m3, m2, m1; split; node_eval].
  pose proof gap_frees as Hf'. apply (node_stores_kept l Hwf' Hh Hf' m3 _ n x); auto.
  apply (node_stores_kept l Hwf' Hh Hf' m2 _ h x); auto.
  apply (node_stores_kept l Hwf' Hh Hf' m1 _ x n); auto.
  apply (node_stores_kept l Hwf' Hh Hf' (hmem s) _ x h); auto. split; [by apply seg_free|done].
Qed.

Lemma prepended_effect : let h := hd_of i in let m' := prepended (hmem s) x h in
  seg m' heap_base l /\ (forall y, ~ P y -> m' y = m0 y) /\
  (forall y, is_node l y ->
    next_of m' y = set_at (set_at (next_of (hmem s)) x (first_of [] h)) (last_of h (L i)) x y /\
    prev_of m' y = set_at (set_at (prev_of (hmem s)) x (last_of h (L i))) (first_of [] h) x y).
Proof.
  cbn zeta. pose proof Hc as [Hwf Hseg Hl Ht Hh Hf Ha]. destruct gap_members as (Hwf' & _ & Hx & _).
  destruct ends as (_ & Hp & Hnh & _ & Hnp & _ & Hpe & Hxh). set (h := hd_of i) in *.
  rewrite <- Hp in *. change (first_of [] h) with h. set (p := prev_of (hmem s) h) in *.
  assert (Ht' : heap_base + total l <= brk s) by (rewrite total_app in *; exact Ht).
  pose proof (node_range _ _ _ _ _ Hwf' Ht' Hx) as Hxr. pose proof (node_range _ _ _ _ _ Hwf' Ht' Hnh) as Hhr.
  pose proof (node_range _ _ _ _ _ Hwf' Ht' Hnp) as Hpr.
  unfold prepended. rewrite (prev_of_next _ _ l) by done. fold p.
  set (m1 := store _ (x + NEXT) h). set (m2 := store m1 (x + PREV) p). set (m3 := store m2 (h + PREV) x).
  assert (Hp' : prev_of m3 x = p) by (unfold m3, m2; node_eval).
  rewrite Hp'. apply Logic.and_assoc. split; [|intros y Hy; unfold m3, m2, m1; split; node_eval].
  pose proof gap_frees as Hf'. apply (node_stores_kept l Hwf' Hh Hf' m3 _ p x); auto.
  apply (node_stores_kept l Hwf' Hh Hf' m2 _ h x); auto.
  apply (node_stores_kept l Hwf' Hh Hf' m1 _ x p); auto.
  apply (node_stores_kept l Hwf' Hh Hf' (hmem s) _ x h); auto. split; [by apply seg_free|done].
Qed.

Lemma link_core : exists s' L', link_to_free_list freeRegionBuckets x s = Ret (tt, s') /\
  core s' l L' /\ quiet s s'.
Proof.
  destruct linked_in_effect as (Hseg' & Hag & Hm'). pose proof gap_bucket as Hi. pose proof gap_limit.
  pose proof (brk_range s) as Hb. pose proof Hw as [Hw1 _]. pose proof Hc as [_ _ Hl _ _ _ _].
  eexists _, (spliced_in [] (L i)). split; [|split].
  - unfold link_to_free_list. mnext. rewrite Hw1, w32_small by (unfold PAGE, REGION_HEADER_SIZE in *; lia).
    reflexivity.
  - apply insert_core; try done.
    + split; [apply Z.lor_nonneg; split; [apply (lists_used _ _ _ _ _ _ Hl)|apply Z.shiftl_nonneg; lia]|].
      apply lor_below; [apply (lists_used _ _ _ _ _ _ Hl)|]. rewrite Z.shiftl_1_l. split; [lia|].
      apply Z.pow_lt_mono_r; lia.
    + intros j. cbn [henv]. rewrite Z.lor_spec, Z.shiftl_1_l. intros [Hj|Hj]%orb_prop.
      * change (Z.testbit (freeRegionBucketsUsed s) j) with (Z.testbit (freeRegionBucketsUsed s) j) in Hj.
        apply orb_true_iff. left. exact Hj.
      * apply Z.eqb_eq in Hj as ->. rewrite Z.pow2_bits_true by lia. apply orb_true_r.
  - done.
Qed.

Lemma prepend_core : Z.testbit (freeRegionBucketsUsed s) i = true ->
  exists s' L', prepend_to_free_list x (hd_of i) s = Ret (tt, s') /\ core s' l L' /\ quiet s s' /\
    freeRegionBucketsUsed s' = freeRegionBucketsUsed s.
Proof.
  intros Hbit. destruct prepended_effect as (Hseg' & Hag & Hm'). pose proof Hc as [_ _ Hl _ _ _ _].
  eexists _, (spliced_in (L i) []). split; [reflexivity|]. split; [|done].
  apply insert_core; try done; [by rewrite app_nil_r|apply (lists_used _ _ _ _ _ _ Hl)|].
  intros j [Hj|Hj]%orb_prop; [exact Hj|]. by apply Z.eqb_eq in Hj as ->.
Qed.
End Insert.

(** ** Rereading the layout *)
Lemma core_relayout s l l' L : core s l L -> Forall wf_region l' -> seg (hmem s) heap_base l' ->
  (forall a size, (a, size, Free) ∈ regs l' <-> (a, size, Free) ∈ regs l) ->
  heap_base + total l' <= brk s -> core s l' L.
Proof.
  intros [Hwf Hseg [Hm Hn Hr Hb Hu] Ht Hh Hf Ha] Hwf' Hseg' Hfr Ht'. split; try done.
  - split; try done. intros i a. setoid_rewrite Hfr. apply Hm.
  - intros a size x. rewrite Hfr. apply Hf.
Qed.

Lemma core_forget s l1 size k l2 L : k <> Free -> core s (l1 ++ (size, k) :: l2) L ->
  core s (l1 ++ (size, Gap) :: l2) L.
Proof.
  intros Hk Hc. pose proof Hc as [Hwf Hseg _ Ht _ _ _]. apply (core_relayout _ _ _ _ Hc).
  - by apply wf_gap in Hwf.
  - by apply seg_gap in Hseg.
  - intros a sz. by apply same_frees.
  - by rewrite total_app in *.
Qed.

Lemma core_fill s l1 size k l2 L : k <> Free -> wf_region (size, k) ->
  region_words (hmem s) (heap_base + total l1) size k -> core s (l1 ++ (size, Gap) :: l2) L ->
  core s (l1 ++ (size, k) :: l2) L.
Proof.
  intros Hk Hr Hw Hc. pose proof Hc as [Hwf Hseg _ Ht _ _ _]. apply (core_relayout _ _ _ _ Hc).
  - revert Hwf. rewrite !Forall_app, !Forall_cons. tauto.
  - revert Hseg. rewrite !seg_app. cbn [seg]. tauto.
  - intros a sz. by apply same_frees.
  - by rewrite total_app in *.
Qed.

Lemma core_split s l1 a b l2 L : 0 <= a -> a mod 4 = 0 -> 0 <= b ->
  core s (l1 ++ (a + b, Gap) :: l2) L -> core s (l1 ++ (a, Gap) :: (b, Gap) :: l2) L.
Proof.
  intros Ha Ha4 Hb Hc. pose proof Hc as [Hwf Hseg _ Ht _ _ _]. apply (core_relayout _ _ _ _ Hc).
  - revert Hwf. rewrite !Forall_app, !Forall_cons. intros (? & (Hab & _) & ?). cbn [fst] in Hab.
    rewrite Zplus_mod, Ha4, Z.add_0_l, Z.mod_mod in Hab by lia.
    split; [done|]. split; [by repeat split|]. split; [by repeat split|done].
  - revert Hseg. rewrite !seg_app. cbn [seg]. rewrite Z.add_assoc. tauto.
  - intros x sz. rewrite !regions_app, !elem_of_app. cbn [regions].
    rewrite !elem_of_cons, Z.add_assoc. naive_solver.
  - rewrite total_app in *. cbn [total] in *. lia.
Qed.

Lemma core_join s l1 a b l2 L : core s (l1 ++ (a, Gap) :: (b, Gap) :: l2) L ->
  core s (l1 ++ (a + b, Gap) :: l2) L.
Proof.
  intros Hc. pose proof Hc as [Hwf Hseg _ Ht _ _ _]. apply (core_relayout _ _ _ _ Hc).
  - revert Hwf. rewrite !Forall_app, !Forall_cons. intros (? & (Ha & ? & _) & (Hb & ? & _) & ?). cbn [fst] in *.
    split; [done|]. split; [|done]. split; [cbn [fst]; by rewrite Zplus_mod, Ha, Hb|]. split; [cbn [fst]; lia|]. by split.
  - revert Hseg. rewrite !seg_app. cbn [seg]. rewrite Z.add_assoc. tauto.
  - intros x sz. rewrite !regions_app, !elem_of_app. cbn [regions].
    rewrite !elem_of_cons, Z.add_assoc. naive_solver.
  - rewrite total_app in *. cbn [total] in *. lia.
Qed.

(** An empty gap is nowhere. *)
Lemma core_zero s l1 l2 L : core s (l1 ++ (0, Gap) :: l2) L <-> core s (l1 ++ l2) L.
Proof.
  assert (Ht : total (l1 ++ (0, Gap) :: l2) = total (l1 ++ l2)) by (rewrite !total_app; cbn [total]; lia).
  assert (Hs : seg (hmem s) heap_base (l1 ++ (0, Gap) :: l2) <-> seg (hmem s) heap_base (l1 ++ l2)).
  { rewrite !seg_app. cbn [seg region_words]. rewrite Z.add_0_r. tauto. }
  assert (Hr : forall x sz, (x, sz, Free) ∈ regs (l1 ++ (0, Gap) :: l2) <-> (x, sz, Free) ∈ regs (l1 ++ l2)).
  { intros x sz. rewrite !regions_app, !elem_of_app. cbn [regions]. rewrite elem_of_cons, Z.add_0_r. naive_solver. }
  assert (Hw : Forall wf_region (l1 ++ (0, Gap) :: l2) <-> Forall wf_region (l1 ++ l2)).
  { rewrite !Forall_app, Forall_cons. assert (wf_region (0, Gap)) by (by repeat split). tauto. }
  split; intros Hc; pose proof Hc as [Hwf Hseg _ Htop _ _ _];
    (apply (core_relayout _ _ _ _ Hc); [by apply Hw|by apply Hs|intros x sz; by rewrite Hr|by rewrite ?Ht in *]).
Qed.

Lemma core_append s l g L : 0 <= g -> g mod 4 = 0 -> heap_base + total l + g <= brk s ->
  core s l L -> core s (l ++ [(g, Gap)]) L.
Proof.
  intros Hg Hg4 Htop Hc. pose proof Hc as [Hwf Hseg _ Ht _ _ _]. apply (core_relayout _ _ _ _ Hc).
  - apply Forall_app. split; [done|]. by repeat constructor.
  - apply seg_app. by split.
  - intros x sz. rewrite regions_app, elem_of_app. cbn [regions]. rewrite elem_of_cons, elem_of_nil. naive_solver.
  - rewrite total_app. cbn [total]. lia.
Qed.

(** The world only matters for where memory ends. *)
Lemma core_world s l L e : memory_size (world (henv s)) <= memory_size (world e) -> core s l L ->
  core (Heap (hmem s) (listOfAllRegions s) (freeRegionBucketsUsed s) e) l L.
Proof.
  intros Hm [Hwf Hseg Hl Ht Hh Hf Ha]. split; try done. unfold brk, PAGE in *. cbn [henv] in *. lia.
Qed.

Lemma core_root s l L r : core s l L -> core (Heap (hmem s) r (freeRegionBucketsUsed s) (henv s)) l L.
Proof. by intros [Hwf Hseg Hl Ht Hh Hf Ha]. Qed.

Lemma core_used s l L u : (forall i, L i <> [] -> Z.testbit u i = true) -> 0 <= u < 2 ^ 64 -> core s l L ->
  core (Heap (hmem s) (listOfAllRegions s) u (henv s)) l L.
Proof. intros Hu Hr [Hwf Hseg [? ? ? _ _] Ht Hh Hf Ha]. by split. Qed.

(** ** Stores in a region being worked on *)
Lemma core_store s l1 size l2 L a v : core s (l1 ++ (size, Gap) :: l2) L ->
  heap_base + total l1 <= a -> a + 4 <= heap_base + total l1 + size ->
  (forall y, a <= y < a + 4 -> P y) ->
  core (with_mem s (store (hmem s) a v)) (l1 ++ (size, Gap) :: l2) L.
Proof.
  intros [Hwf Hseg Hl Ht Hh Hf Ha] Hlo Hhi HPa. split; try done; cbn [with_mem hmem freeRegionBucketsUsed].
  - by apply seg_store_gap.
  - destruct Hl as [Hm Hn Hr Hb Hu]. split; try done. intros i Hi.
    assert (Hoff : forall y, y ∈ hd_of i :: L i -> y + 16 <= a \/ a + 4 <= y).
    { intros y [->|Hy]%elem_of_cons.
      - pose proof (head_below freeRegionBuckets heap_base (hd_of i) ltac:(by exists i)).
        apply Forall_app in Hwf as [Hw1 _]. pose proof (total_nonneg _ Hw1). lia.
      - apply Hm in Hy as (sz & Hz & _). pose proof (free_size _ _ _ _ Hwf Hz).
        rewrite regs_mid, elem_mid in Hz. destruct Hz as [[=]|Hz].
        apply (others_apart _ _ _ Gap) in Hz; [cbn [fst snd] in *|done]. lia. }
    apply (links_frame (hmem s)); [| |by apply Hr]; intros y Hy; apply load_store_other;
      destruct (Hoff y ltac:(set_solver)); unfold NEXT, PREV; lia.
  - intros y Hy. rewrite store_other; [by apply Ha|].
    destruct (Z.lt_ge_cases y a); [by left|]. right. destruct (Z.lt_ge_cases y (a + 4)); [|lia].
    destruct Hy. apply HPa. lia.
Qed.

(** The words at both ends of a region. *)
Definition end_words (x size : Z) : Prop :=
  forall y, x <= y < x + 4 \/ x + size - 4 <= y < x + size -> P y.

Section Create.
Context (s : heap W) (l1 l2 : layout) (size : Z) (L : Z -> list Z).
Context (Hc : core s (l1 ++ (size, Gap) :: l2) L) (Hs : 16 <= size) (HP : end_words (heap_base + total l1) size).
Abbreviation x := (heap_base + total l1).

Lemma create_size : size mod 4 = 0 /\ 0 <= size < 2 ^ 32 - 1.
Proof.
  pose proof Hc as [Hwf _ _ _ _ _ _]. destruct (mid_wf _ _ _ _ Hwf) as (? & _). cbn [fst] in *. split; [done|].
  pose proof (gap_limit _ _ _ _ _ Hc). pose proof (brk_range s). unfold PAGE in *. lia.
Qed.

Lemma create_words v w : 0 <= v < 2 ^ 32 -> 0 <= w < 2 ^ 32 ->
  let m' := store (store (hmem s) x v) (x + 4 * (size / 4 - 1)) w in
  core (with_mem s m') (l1 ++ (size, Gap) :: l2) L /\ load m' x = v /\ load m' (x + size - 4) = w /\
  (forall a, x + 4 <= a -> a + 4 <= x + size - 4 -> load m' a = load (hmem s) a).
Proof.
  intros Hv Hw. destruct create_size as [Hs4 _]. cbn zeta. rewrite last_word by done. split.
  - apply (core_store (with_mem s (store (hmem s) x v))); [apply core_store; [done|..]|..]; try lia;
      intros y Hy; apply HP; lia.
  - rewrite load_store_other, load_store_same by lia. split; [done|]. split.
    + replace (x + size - 4) with (x + (size - 4)) by lia. by apply load_store_same.
    + intros a Ha Hb. by rewrite !load_store_other by lia.
Qed.

Lemma create_used_core k : k = Used \/ (k = End /\ size = 16) \/
    (exists n e, k = Root n e /\ load (hmem s) (x + 4) = n /\ load (hmem s) (x + 8) = e) ->
  exists s', create_used_region x size s = Ret (tt, s') /\ core s' (l1 ++ (size, k) :: l2) L /\ quiet s s' /\
    freeRegionBucketsUsed s' = freeRegionBucketsUsed s.
Proof.
  intros Hk. destruct create_size as [Hs4 Hr].
  destruct (create_words size size) as (Hc' & Hw1 & Hw2 & Hw3); [lia..|].
  eexists. split; [reflexivity|]. split; [|done]. apply core_fill; try done.
  - by destruct Hk as [->|[[-> _]|(? & ? & -> & _)]].
  - repeat split; cbn [fst snd]; [done|lia|lia|]. by destruct Hk as [->|[[-> ?]|(? & ? & -> & _)]].
  - destruct Hk as [->|[[-> _]|(n & e & -> & Hn & He)]]; cbn [region_words with_mem hmem] in *; [done|done|].
    rewrite (Hw3 (x + 4)), (Hw3 (x + 8)) by lia. done.
Qed.

Lemma create_free_core : exists s', create_free_region x size s = Ret (tt, s') /\
  core s' (l1 ++ (size, Gap) :: l2) L /\ quiet s s' /\ region_words (hmem s') x size Free.
Proof.
  destruct create_size as [Hs4 Hr].
  destruct (create_words size (size + 1)) as (Hc' & Hw1 & Hw2 & _); [lia..|].
  eexists. split; [unfold create_free_region; rewrite lor_flag by done; reflexivity|]. done.
Qed.

(** A free region is made and put into its list. *)
Lemma make_free_core : (forall y, x <= y < x + size -> P y) ->
  exists s1 s2 L', create_free_region x size s = Ret (tt, s1) /\
    link_to_free_list freeRegionBuckets x s1 = Ret (tt, s2) /\ core s2 (l1 ++ (size, Free) :: l2) L' /\ quiet s s2.
Proof.
  intros HPx. destruct create_free_core as (s1 & Hr1 & Hc1 & Hq1 & Hw1).
  destruct (link_core s1 l1 l2 size L Hc1 Hs Hw1 HPx) as (s2 & L' & Hr2 & Hc2 & Hq2).
  exists s1, s2, L'. do 3 (split; [done|]). by transitivity s1.
Qed.
End Create.
End Steps.
