(* ===== verification/EmmallocAlloc.v ===== *)
(** The invariant of the allocator's heap: its blocks are made of regions in a
    sensible order, no two free regions are neighbours, and the newest block is
    where [listOfAllRegions] says.  What clients see of it: the blocks they
    own. *)
From S2P Require Import Prelude.
From S2P Require Import Wasi.
From S2P Require Import Mman.
From S2P Require Import Emmalloc.
From S2P Require Import EmmallocHeap.
From S2P Require Import EmmallocCore.
From S2P Require Import EmmallocSteps.

(** ** The order of regions *)
Definition follows (k k' : kind) : bool :=
  match k, k' with
  | End, Gap | Gap, Root _ _ => true
  | Root _ _, (Used | Free | End) | Used, (Used | Free | End) => true
  | Free, (Used | End) => true
  | _, _ => false
  end.

(** A block is a root, regions and an end; blocks are apart. *)
Fixpoint chained (k : kind) (l : layout) : bool :=
  match l with [] => bool_decide (k = End) | (_, k') :: l => follows k k' && chained k' l end.
Fixpoint path (k : kind) (l : layout) (e : kind) : bool :=
  match l with [] => follows k e | (_, k') :: l => follows k k' && path k' l e end.

Lemma chained_app k l1 size k1 l2 : chained k (l1 ++ (size, k1) :: l2) = path k l1 k1 && chained k1 l2.
Proof. revert k. induction l1 as [|[sz k'] l1 IH]; intros k; simpl; [done|]. by rewrite IH, andb_assoc. Qed.

Lemma path_snoc k l1 size k1 e : path k (l1 ++ [(size, k1)]) e = path k l1 k1 && follows k1 e.
Proof. revert k. induction l1 as [|[sz k'] l1 IH]; intros k; simpl; [done|]. by rewrite IH, andb_assoc. Qed.

Lemma path_app k l1 size k1 l2 e : path k (l1 ++ (size, k1) :: l2) e = path k l1 k1 && path k1 l2 e.
Proof. revert k. induction l1 as [|[sz k'] l1 IH]; intros k; simpl; [done|]. by rewrite IH, andb_assoc. Qed.

(** The fields of a root do not matter. *)
Lemma path_root k l1 n e n' e' l2 k2 :
  path k l1 (Root n e) && path (Root n e) l2 k2 = path k l1 (Root n' e') && path (Root n' e') l2 k2.
Proof.
  f_equal; [|by destruct l2 as [|[? []]]]. revert k. induction l1 as [|[sz k1] l1 IH]; intros k; simpl; [by destruct k|].
  by rewrite IH.
Qed.

Lemma path_last l1 e : path End l1 e = true -> e <> Gap ->
  exists l0 size k, l1 = l0 ++ [(size, k)] /\ path End l0 k = true /\ follows k e = true.
Proof.
  intros Hp He. destruct l1 as [|[size k] l0 _] using rev_ind; [by destruct e|].
  rewrite path_snoc in Hp. apply andb_prop in Hp as [? ?]. by exists l0, size, k.
Qed.

Lemma chained_head k l : chained k l = true -> k <> End ->
  exists size k' l', l = (size, k') :: l' /\ follows k k' = true /\ chained k' l' = true.
Proof.
  intros Hl Hk. destruct l as [|[size k'] l]; simpl in Hl; [by apply bool_decide_eq_true in Hl|].
  apply andb_prop in Hl as [? ?]. by exists size, k', l.
Qed.

(** The newest root and the end it names. *)
Fixpoint newest (a : Z) (l : layout) (r : Z * Z) : Z * Z :=
  match l with
  | [] => r
  | (size, Root _ e) :: l => newest (a + size) l (a, e)
  | (size, _) :: l => newest (a + size) l r
  end.

Lemma newest_app a l1 l2 r : newest a (l1 ++ l2) r = newest (a + total l1) l2 (newest a l1 r).
Proof.
  revert a r. induction l1 as [|[size k] l1 IH]; intros a r; cbn [app newest total].
  - by rewrite Z.add_0_r.
  - rewrite Z.add_assoc. by destruct k; rewrite IH.
Qed.

(** ** What is the allocator's

    Everything but gaps and the payload of blocks given out. *)
Definition owned (a : Z) (l : layout) (x : Z) : Prop := exists b size k,
  (b, size, k) ∈ regions a l /\ k <> Gap /\ b <= x < b + size /\ (k = Used -> x < b + 4 \/ b + size - 4 <= x).

(** A block a client owns: its address and its capacity. *)
Definition live (a : Z) (l : layout) (p c : Z) : Prop := (p - 4, c + 8, Used) ∈ regions a l.

Lemma owned_app a l1 l2 x : owned a (l1 ++ l2) x <-> owned a l1 x \/ owned (a + total l1) l2 x.
Proof.
  unfold owned. setoid_rewrite regions_app. setoid_rewrite elem_of_app. split.
  - intros (b & size & k & [?|?] & ?); [left|right]; eauto 6.
  - intros [(b & size & k & ? & ?)|(b & size & k & ? & ?)]; eauto 8.
Qed.

Lemma live_app a l1 l2 p c : live a (l1 ++ l2) p c <-> live a l1 p c \/ live (a + total l1) l2 p c.
Proof. unfold live. by rewrite regions_app, elem_of_app. Qed.

Lemma live_bounds a l p c : Forall wf_region l -> live a l p c ->
  a + 4 <= p /\ 8 <= c /\ p + c + 4 <= a + total l /\ c mod 4 = 0.
Proof.
  intros Hwf Hp. destruct (region_bounds _ _ _ _ _ Hwf Hp) as (? & ? & Hm & _ & Hs & _). cbn [fst snd] in *.
  specialize (Hs ltac:(done)). split; [lia|]. split; [lia|]. split; [lia|].
  pose proof (Z.div_mod (c + 8) 4). replace c with (((c + 8) / 4 - 2) * 4) by lia. apply Z.mod_mul. lia.
Qed.

(** Blocks do not overlap, nor do they touch what is the allocator's. *)
Lemma live_apart a l p c q d : Forall wf_region l -> live a l p c -> live a l q d ->
  (p = q /\ c = d) \/ p + c + 8 <= q \/ q + d + 8 <= p.
Proof.
  intros Hwf Hp Hq. destruct (regions_apart _ _ _ _ _ _ _ _ Hwf Hp Hq) as [(? & ? & _)|?]; lia.
Qed.

Lemma live_not_owned a l p c x : Forall wf_region l -> live a l p c -> p <= x < p + c -> ~ owned a l x.
Proof.
  intros Hwf Hp Hx (b & size & k & Hb & Hk & Hin & Hu).
  destruct (regions_apart _ _ _ _ _ _ _ _ Hwf Hp Hb) as [(E1 & E2 & E3)|?]; [|lia].
  specialize (Hu (eq_sym E3)). lia.
Qed.

(** [l'] has the blocks of [l], none smaller, and the new block [p] of at
    least [n] bytes.  What blocks gained satisfies [P]. *)
Definition keeps (a : Z) (P : Z -> Prop) (l l' : layout) : Prop := forall q c, live a l q c ->
  exists c', c <= c' /\ live a l' q c' /\ forall y, q + c <= y < q + c' -> P y.
Definition granted (a : Z) (P : Z -> Prop) (l l' : layout) (p n : Z) : Prop :=
  keeps a P l l' /\ (exists c, n <= c /\ live a l' p c) /\ (forall c, ~ live a l p c) /\
  (forall q c', live a l' q c' -> q = p \/ exists c, c <= c' /\ live a l q c) /\ (forall y, p <= y < p + n -> P y).

Lemma total_mod4 l : Forall wf_region l -> total l mod 4 = 0.
Proof.
  induction 1 as [|[size k] l (Hs & _) _ IH]; [done|]. cbn [total fst] in *. by rewrite Zplus_mod, Hs, IH.
Qed.

Section Inv.
Context {W : Type} `{WasmMemLaws W} `{!Below4GiB W}.
Context (freeRegionBuckets heap_base : Z) `{!Placed freeRegionBuckets heap_base}.
Abbreviation core := (core freeRegionBuckets heap_base).

Record heap_at (P : Z -> Prop) (m0 : Z -> Z) (s : heap W) (l : layout) (L : Z -> list Z) : Prop := {
  at_core : core P m0 s l L;
  at_chain : chained End l = true;
  at_root : newest heap_base l (0, heap_base) = (listOfAllRegions s, heap_base + total l);
  at_owned : forall x, owned heap_base l x -> P x }.

(** Regions change between [la] and [lb] only. *)
Lemma heap_replace P m0 s s' la mid mid' lb L L' : heap_at P m0 s (la ++ mid ++ lb) L ->
  core P m0 s' (la ++ mid' ++ lb) L' -> quiet s s' -> total mid' = total mid ->
  chained End (la ++ mid' ++ lb) = true ->
  (forall a r, newest a mid' r = newest a mid r) ->
  (forall x, owned (heap_base + total la) mid' x -> P x) -> heap_at P m0 s' (la ++ mid' ++ lb) L'.
Proof.
  intros [Hc Hch Hr Ho] Hc' [_ Hq] Ht Hch' Hn Ho'. split; try done.
  - rewrite Hq. rewrite !newest_app, !total_app in *. by rewrite Hn, Ht.
  - intros x. rewrite !owned_app, Ht. intros [?|[?|?]]; [|by apply Ho'|];
      apply Ho; rewrite !owned_app; auto.
Qed.
End Inv.

(** * Allocating in a free region: aligning the payload by moving the boundary to
    the region before, and giving back what is left over. *)

Lemma land_lnot_low y k : 0 <= k -> Z.land y (Z.lnot (2 ^ k - 1)) = y - y mod 2 ^ k.
Proof.
  intros Hk. rewrite <- Z.ldiff_land. replace (2 ^ k - 1) with (Z.ones k) by (rewrite Z.ones_equiv; lia).
  rewrite Z.ldiff_ones_r, Z.shiftl_mul_pow2, Z.shiftr_div_pow2 by done.
  pose proof (Z.div_mod y (2 ^ k)). lia.
Qed.

Lemma align_up y k : 0 <= k -> 0 <= y -> y + 2 ^ k <= 2 ^ 32 ->
  y <= ALIGN_UP y (2 ^ k) < y + 2 ^ k /\ ALIGN_UP y (2 ^ k) mod 2 ^ k = 0.
Proof.
  intros Hk Hy Hlim. assert (0 < 2 ^ k) by (apply Z.pow_pos_nonneg; lia). unfold ALIGN_UP.
  rewrite w32_small, land_lnot_low by lia.
  pose proof (Z.mod_pos_bound (y + (2 ^ k - 1)) (2 ^ k)). split; [lia|].
  pose proof (Z.div_mod (y + (2 ^ k - 1)) (2 ^ k)).
  replace (_ - _) with ((y + (2 ^ k - 1)) / 2 ^ k * 2 ^ k) by lia. apply Z.mod_mul. lia.
Qed.

(** The alignments asked for. *)
Definition alignment_ok (al : Z) : Prop := exists k, 4 <= k <= 16 /\ al = 2 ^ k.

Lemma alignment_range al : alignment_ok al -> 16 <= al <= 65536 /\ al mod 4 = 0.
Proof.
  intros (k & Hk & ->). change 16 with (2 ^ 4). change 65536 with (2 ^ 16).
  split; [split; apply Z.pow_le_mono_r; lia|]. replace k with (k - 2 + 2) by lia.
  rewrite Z.pow_add_r by lia. apply Z.mod_mul. lia.
Qed.

Section Alloc.
Context {W : Type} `{WasmMemLaws W} `{!Below4GiB W}.
Context (freeRegionBuckets heap_base : Z) `{!Placed freeRegionBuckets heap_base}.
Context (P : Z -> Prop) (m0 : Z -> Z).
Abbreviation core := (core freeRegionBuckets heap_base P m0).
Abbreviation heap_at := (heap_at freeRegionBuckets heap_base P m0).

Lemma region_in (s : heap W) l L l1 size k l2 : core s l L -> l = l1 ++ (size, k) :: l2 ->
  region_words (hmem s) (heap_base + total l1) size k /\ wf_region (size, k).
Proof.
  intros [Hwf Hseg _ _ _ _ _] ->. apply seg_app in Hseg as [_ [Hw _]]. split; [done|]. by apply mid_wf in Hwf.
Qed.

Lemma has_size m a size k : region_words m a size k -> k = Used \/ k = End \/ (exists n e, k = Root n e) ->
  load m a = size /\ load m (a + size - 4) = size.
Proof. intros Hw [->|[->|(n & e & ->)]]; simpl in Hw; tauto. Qed.

(** The size a region carries at its end, and what it decodes to. *)
Definition ceiling (size : Z) (k : kind) : Z := if decide (k = Free) then size + 1 else size.

Lemma region_ends (s : heap W) l L l1 size k l2 a : core s l L -> l = l1 ++ (size, k) :: l2 -> k <> Gap ->
  a = heap_base + total l1 -> load (hmem s) a = size /\ load (hmem s) (a + size - 4) = ceiling size k /\
  size mod 4 = 0 /\ 16 <= size /\ DECODE_CEILING_SIZE (ceiling size k) = size /\
  has (ceiling size k) FREE_REGION_FLAG = bool_decide (k = Free).
Proof.
  intros Hc El Hk ->. destruct (region_in _ _ _ _ _ _ _ Hc El) as [Hw (Hs4 & _ & Hs & _)]. cbn [fst snd] in *.
  specialize (Hs Hk). destruct (land_flag size Hs4) as (Hd1 & Hd2 & Hf1 & Hf2). unfold ceiling.
  destruct k; simpl in Hw; try done; tauto.
Qed.

(** The region before a free region is a root or a block. *)
Lemma before_free k : follows k Free = true -> k = Used \/ exists n e, k = Root n e.
Proof. destruct k; try done; eauto. Qed.

Section Bump.
Context (s : heap W) (la l2 : layout) (p f b : Z) (kp : kind) (L : Z -> list Z).
Abbreviation x := (heap_base + total (la ++ [(p, kp)])).
Context (Hc : core s (la ++ (p, kp) :: (f, Gap) :: l2) L).
Context (Hkp : follows kp Free = true) (Hx : load (hmem s) x = f).
Context (Hb : 0 <= b) (Hb4 : b mod 4 = 0) (Hbf : b + 16 <= f).
Context (HP : forall y, heap_base + total la <= y < heap_base + total la + 4 \/ x - 4 <= y < x + f -> P y).

Lemma bump_at : x = heap_base + total la + p.
Proof. rewrite total_app. cbn [total]. lia. Qed.

Lemma bump_core : exists s', bump_region x (x + 4) (x + 4 + b) s = Ret (x + b, s') /\
  core s' (la ++ (p + b, kp) :: (f - b, Gap) :: l2) L /\ quiet s s' /\
  load (hmem s') (x + b) = f - b.
Proof.
  unfold bump_region. destruct (Z.eqb_spec (x + 4) (x + 4 + b)) as [E|E].
  { assert (b = 0) as -> by lia. exists s. rewrite !Z.add_0_r, Z.sub_0_r. done. }
  pose proof bump_at as Hxa. destruct (region_in _ _ _ la p kp ((f, Gap) :: l2) Hc eq_refl) as [Hw Hpr].
  assert (Hk : kp = Used \/ kp = End \/ exists n e, kp = Root n e) by (apply before_free in Hkp; tauto).
  destruct (has_size _ _ _ _ Hw Hk) as [Hp1 Hp2]. destruct Hpr as (Hp4 & _ & Hp16 & _). cbn [fst snd] in *.
  specialize (Hp16 ltac:(by intros ->)). destruct (land_flag p Hp4) as (Hd & _).
  assert (Hc1 : core s (la ++ (p + b, Gap) :: (f - b, Gap) :: l2) L).
  { apply core_split; [lia|by rewrite Zplus_mod, Hp4, Hb4|lia|]. replace (p + b + (f - b)) with (p + f) by lia.
    apply core_join. apply (core_forget _ _ _ _ _ _ _ kp); [by intros ->|done]. }
  destruct (create_used_core _ _ _ _ _ _ _ _ _ Hc1 ltac:(lia)) with (k := kp) as (s1 & Hr1 & Hc2 & Hq & Hu).
  { intros y [Hy|Hy]; apply HP; lia. }
  { apply before_free in Hkp as [->|(n & e & ->)]; [by left|right; right]. exists n, e. simpl in Hw. tauto. }
  change (la ++ (p + b, kp) :: (f - b, Gap) :: l2) with (la ++ [(p + b, kp)] ++ (f - b, Gap) :: l2) in *.
  rewrite app_assoc in Hc2. rewrite app_assoc.
  assert (Hat : heap_base + total (la ++ [(p + b, kp)]) = x + b) by (rewrite !total_app; cbn [total]; lia).
  eexists. split; [|split; [|split]].
  - unfold prev_region. mnext. replace (x - 4) with (heap_base + total la + p - 4) by lia. rewrite Hp2, Hd.
    replace (x - p) with (heap_base + total la) by lia. mnext. rewrite Hx. mnext. rewrite Hp1.
    replace (x + 4 + b - (x + 4)) with b by lia. mnext_by Hr1. reflexivity.
  - apply (core_store _ _ _ _ s1); [done|lia..|]. intros y Hy. apply HP. lia.
  - exact Hq.
  - cbn [with_mem hmem]. apply load_store_same. pose proof (create_size _ _ _ _ _ _ _ _ _ Hc2). lia.
Qed.
End Bump.

Section Carve.
Context (s : heap W) (l1 l2 : layout) (g n : Z) (L : Z -> list Z).
Abbreviation x := (heap_base + total l1).
Context (Hc : core s (l1 ++ (g, Gap) :: l2) L) (Hx : load (hmem s) x = g).
Context (Hn : 8 <= n) (Hn4 : n mod 4 = 0) (Hng : n + 8 <= g).
Context (HP : forall y, x <= y < x + g -> P y).

(** What is left of the region, if that is a region. *)
Definition left_over (c : Z) (rest : layout) : Prop :=
  (rest = [] /\ c + 8 = g) \/ exists r, rest = [(r, Free)] /\ 16 <= r /\ c + 8 + r = g.

Lemma carve_core : exists s' L' c rest, carve_region freeRegionBuckets x n s = Ret (tt, s') /\
  core s' (l1 ++ (c + 8, Used) :: rest ++ l2) L' /\ quiet s s' /\ n <= c /\ left_over c rest.
Proof.
  pose proof (gap_limit _ _ _ _ _ _ _ _ _ Hc) as Hlim. pose proof (brk_range s) as Hb. unfold PAGE in Hb.
  unfold carve_region, SIZEOF_REGION, REGION_HEADER_SIZE. destruct (Z.leb_spec (16 + 8 + n) g) as [Hle|Hgt].
  - assert (Hc1 : core s ((l1 ++ [(n + 8, Gap)]) ++ (g - n - 8, Gap) :: l2) L).
    { rewrite <- app_assoc. apply core_split; [lia|by rewrite Zplus_mod, Hn4|lia|].
      by replace (n + 8 + (g - n - 8)) with g by lia. }
    assert (Hat : heap_base + total (l1 ++ [(n + 8, Gap)]) = x + 8 + n) by (rewrite total_app; cbn [total]; lia).
    destruct (make_free_core _ _ _ _ _ _ _ _ _ Hc1 ltac:(lia)) as (s1 & s2 & L2 & Hr1 & Hr2 & Hc2 & Hq2).
    { intros y Hy. apply HP. lia. }
    { intros y Hy. apply HP. lia. }
    rewrite Hat in Hr1, Hr2. rewrite <- app_assoc in Hc2.
    destruct (create_used_core _ _ _ _ _ _ _ _ _ Hc2 ltac:(lia)) with (k := Used) as (s3 & Hr3 & Hc3 & Hq3 & _).
    { intros y Hy. apply HP. lia. }
    { by left. }
    exists s3, L2, n, [(g - n - 8, Free)]. split; [|split; [done|split; [by transitivity s2|]]].
    + mnext. rewrite Hx, w32_small by lia. replace (16 + 8 + n <=? g) with true by lia.
      mnext_by Hr1. mnext_by Hr2. exact Hr3.
    + split; [lia|]. right. exists (g - n - 8). split; [done|lia].
  - exists (with_mem s (store (hmem s) (x + g - 4) g)), L, (g - 8), []. split; [|split; [|split; [done|split; [lia|left; split; [done|lia]]]]].
    + mnext. rewrite Hx, w32_small by lia. replace (16 + 8 + n <=? g) with false by lia. mnext. rewrite Hx. reflexivity.
    + cbn [app]. replace (g - 8 + 8) with g by lia.
      apply core_fill; [done| | |apply core_store; [exact _|done|lia..|]].
      * destruct (create_size _ _ _ _ _ _ _ _ _ Hc ltac:(lia)) as [? _]. split; [done|]. split; [cbn [fst]; lia|]. split; [cbn [fst]; lia|done].
      * cbn [with_mem hmem region_words]. rewrite load_store_other by lia. split; [done|].
        apply load_store_same. lia.
      * intros y Hy. apply HP. lia.
Qed.
End Carve.

(** The layout after a block of capacity [c] was made in a free region [f],
    whose start moved by [b]. *)
Section Granted.
Context (la l2 rest : layout) (p f b n c : Z) (kp : kind).
Context (Hwf : Forall wf_region (la ++ [(p, kp); (f, Free)] ++ l2)).
Context (Hch : chained End (la ++ [(p, kp); (f, Free)] ++ l2) = true).
Context (Hb : 0 <= b) (Hc : n <= c) (Hn : 8 <= n) (Hrest : left_over (f - b) c rest).
Abbreviation mid := [(p, kp); (f, Free)].
Abbreviation mid' := ((p + b, kp) :: (c + 8, Used) :: rest).
Abbreviation ptr := (heap_base + total la + p + b + 4).

Lemma mid_total : total mid' = total mid.
Proof. destruct Hrest as [[-> E]|(r & -> & Hr16 & E)]; cbn [total]; lia. Qed.

Lemma granted_chain : chained End (la ++ mid' ++ l2) = true.
Proof.
  change (la ++ mid ++ l2) with (la ++ (p, kp) :: (f, Free) :: l2) in Hch.
  change (la ++ mid' ++ l2) with (la ++ (p + b, kp) :: (c + 8, Used) :: rest ++ l2).
  rewrite chained_app in *. apply andb_prop in Hch as [Hp Hk]. rewrite Hp. cbn [chained andb] in *.
  apply andb_prop in Hk as [Hk H2]. apply chained_head in H2 as (sz & k2 & l2' & -> & Hf & H2); [|done].
  destruct Hrest as [[-> _]|(r & -> & _)]; cbn [chained app]; destruct kp; try done; destruct k2; try done;
    cbn in *; by rewrite ?H2.
Qed.

Lemma granted_newest a r : newest a mid' r = newest a mid r.
Proof. by destruct Hrest as [[-> _]|(? & -> & _)]; destruct kp. Qed.

Lemma granted_owned x : owned (heap_base + total la) mid' x -> owned (heap_base + total la) mid x.
Proof.
  assert (Hsub : forall y, heap_base + total la + p <= y < heap_base + total la + p + f ->
    owned (heap_base + total la) mid y).
  { intros y Hy. exists (heap_base + total la + p), f, Free. split; [right; left|]. done. }
  intros (d & size & k & Hd & Hk & Hin & Hu). cbn [regions] in Hd. apply elem_of_cons in Hd as [[= -> -> ->]|Hd].
  - destruct (Z.lt_ge_cases x (heap_base + total la + p)) as [Hlt|Hge]; [|apply Hsub; destruct Hrest as [[_ E]|(r & _ & Hr16 & E)]; lia].
    exists (heap_base + total la), p, kp. split; [left|]. split; [done|]. split; [lia|]. intros E. specialize (Hu E). lia.
  - apply Hsub. destruct Hrest as [[-> E]|(r & -> & Hr16 & E)]; cbn [regions] in Hd;
      repeat (apply elem_of_cons in Hd as [[= -> -> ->]|Hd]); try (by apply elem_of_nil in Hd); lia.
Qed.

Lemma granted_live : (forall y, heap_base + total la + p - 4 <= y < heap_base + total la + p + f -> P y) -> granted heap_base P (la ++ mid ++ l2) (la ++ mid' ++ l2) ptr n.
Proof.
  intros HP. assert (Hmid : forall q d, live (heap_base + total la) mid q d <->
    q = heap_base + total la + 4 /\ d = p - 8 /\ kp = Used).
  { intros q d. unfold live. cbn [regions]. rewrite !elem_of_cons, elem_of_nil. split.
    - intros [[= ? ? <-]|[[=]|[]]]. split; [lia|split; [lia|done]].
    - intros (-> & -> & ->). left. do 2 f_equal; lia. }
  assert (Hmid' : forall q d, live (heap_base + total la) mid' q d <->
    (q = heap_base + total la + 4 /\ d = p + b - 8 /\ kp = Used) \/ (q = ptr /\ d = c)).
  { intros q d. unfold live. cbn [regions]. rewrite !elem_of_cons. split.
    - intros [[= ? ? <-]|[[= ? ?]|Hr]]; [left; split; [lia|split; [lia|done]]|right; lia|].
      destruct Hrest as [[-> E]|(r & -> & Hr16 & E)]; cbn [regions] in Hr; rewrite ?elem_of_cons, elem_of_nil in Hr;
        naive_solver.
    - intros [(-> & -> & ->)|[-> ->]]; [left; do 2 f_equal; lia|right; left; do 2 f_equal; lia]. }
  assert (Hout : forall d, ~ live heap_base la ptr d /\ ~ live (heap_base + total la + total mid) l2 ptr d).
  { intros d. apply Forall_app in Hwf as [Hw1 [[[_ [Hp0 _]] _]%Forall_cons Hw2]%Forall_app].
    cbn [fst] in Hp0. pose proof (total_nonneg _ Hw1).
    split; intros Hd; [apply (live_bounds _ _ _ _ Hw1) in Hd|apply (live_bounds _ _ _ _ Hw2) in Hd];
      cbn [total] in *; destruct Hrest as [[_ E]|(r & _ & Hr16 & E)]; lia. }
  assert (Hptr : ptr <> heap_base + total la + 4).
  { apply Forall_app in Hwf as [_ [[(_ & _ & Hp & _) _]%Forall_cons _]%Forall_app]. cbn [fst snd] in Hp.
    assert (kp <> Gap) as Hk by (intros ->; cbn [app] in Hch; by rewrite chained_app, andb_false_r in Hch).
    specialize (Hp Hk). lia. }
  split; [|split; [|split; [|split]]].
  - intros q d. rewrite !live_app, Hmid. setoid_rewrite live_app. setoid_rewrite live_app.
    setoid_rewrite mid_total. setoid_rewrite Hmid'.
    intros [Hq|[(-> & -> & ->)|Hq]]; [exists d; auto with lia| |exists d; auto with lia].
    exists (p + b - 8). split; [lia|]. split; [tauto|]. intros y Hy. apply HP.
    destruct Hrest as [[_ E]|(r & _ & Hr16 & E)]; lia.
  - exists c. split; [done|]. rewrite !live_app, Hmid'. tauto.
  - intros d. rewrite !live_app, Hmid. destruct (Hout d). intros [?|[[? _]|?]]; [done|done|done].
  - intros q d. rewrite !live_app, mid_total, Hmid'. setoid_rewrite live_app. setoid_rewrite live_app.
    setoid_rewrite Hmid.
    intros [Hq|[[(-> & -> & ->)|[-> ->]]|Hq]]; [right; exists d; auto with lia| |by left|right; exists d; auto with lia].
    right. exists (p - 8). split; [lia|]. tauto.
  - intros y Hy. apply HP. destruct Hrest as [[_ E]|(r & _ & Hr16 & E)]; lia.
Qed.
End Granted.

(** Where a free region of the heap is: after a root or a block. *)
Lemma free_region s l L x f : heap_at s l L -> (x, f, Free) ∈ regions heap_base l ->
  exists la p kp l2, l = la ++ (p, kp) :: (f, Free) :: l2 /\ follows kp Free = true /\
    x = heap_base + total (la ++ [(p, kp)]) /\ region_words (hmem s) x f Free /\ wf_region (f, Free) /\
    16 <= p /\
    (forall y, heap_base + total la <= y < heap_base + total la + 4 \/ x - 4 <= y < x + f -> P y).
Proof.
  intros [Hc Hch Hr Ho] (l1 & l2 & -> & ->)%elem_of_regions.
  pose proof Hch as Hp. rewrite chained_app in Hp. apply andb_prop in Hp as [Hp _].
  apply path_last in Hp as (la & p & kp & -> & _ & Hk); [|done].
  destruct (region_in _ _ _ _ _ _ _ Hc eq_refl) as [Hw Hwf]. exists la, p, kp, l2.
  rewrite <- app_assoc in *. cbn [app] in *.
  destruct (region_in _ _ _ _ _ _ _ Hc eq_refl) as [_ (_ & _ & Hps & _)]. cbn [fst snd] in Hps.
  specialize (Hps ltac:(by intros ->)). split; [done|]. split; [done|]. split; [done|]. split; [done|].
  split; [done|]. split; [done|]. intros y Hy. rewrite total_app in *. cbn [total] in *.
  destruct (Z.lt_ge_cases y (heap_base + total la + p)) as [Hlt|Hge].
  - apply Ho. exists (heap_base + total la), p, kp. split; [apply mid_in|].
    split; [by intros ->|]. lia.
  - apply (core_frees _ _ _ _ _ _ _ Hc (heap_base + total la + p) f); [|lia].
    replace (heap_base + total la + p) with (heap_base + total (la ++ [(p, kp)])) by (rewrite total_app; cbn [total]; lia).
    replace (la ++ (p, kp) :: (f, Free) :: l2) with ((la ++ [(p, kp)]) ++ (f, Free) :: l2) by (by rewrite <- app_assoc).
    apply mid_in.
Qed.

(** Either nothing happens, or the region is unlinked, aligned and carved. *)
Lemma attempt_Ret s l L x f al n : heap_at s l L -> (x, f, Free) ∈ regions heap_base l ->
  alignment_ok al -> 8 <= n -> n mod 4 = 0 -> x + 4 + al + n < 2 ^ 32 ->
  attempt_allocate freeRegionBuckets x al n s = Ret (0, s) \/
  exists p s' l' L', attempt_allocate freeRegionBuckets x al n s = Ret (p, s') /\ p <> 0 /\ p mod al = 0 /\
    heap_at s' l' L' /\ quiet s s' /\ granted heap_base P l l' p n.
Proof.
  intros Hat Hx Hal Hn Hn4 Hlim. pose proof Hat as [Hc Hch Hr Ho]. pose proof (alignment_range _ Hal) as [Har Ha4].
  pose proof (core_wf _ _ _ _ _ _ _ Hc) as Hwf. pose proof (free_size _ _ _ _ Hwf Hx) as Hsz.
  pose proof (buckets_pos (heap_base := heap_base)) as Hb1. pose proof buckets_below as Hb2. unfold SIZEOF_REGION in Hb2.
  destruct Hal as (k & Hk & ->).
  destruct (align_up (x + 4) k ltac:(lia) ltac:(lia) ltac:(lia)) as [Hup Hmod].
  set (pa := ALIGN_UP (x + 4) (2 ^ k)) in *. set (b := pa - (x + 4)).
  destruct (free_region _ _ _ _ _ Hat Hx) as (la & p & kp & l2 & -> & Hk' & Hxa & [Hw Hw2] & _ & Hp & HP).
  assert (Hb4 : b mod 4 = 0).
  { apply Forall_app in Hwf as [Hwa [(Hp4 & _) _]%Forall_cons]. cbn [fst] in Hp4. apply total_mod4 in Hwa.
    pose proof (heap_base_aligned (freeRegionBuckets := freeRegionBuckets)) as Hh.
    assert (Hpa : pa mod 4 = 0).
    { pose proof (Z.div_mod pa (2 ^ k)). pose proof (Z.div_mod (2 ^ k) 4).
      replace pa with (2 ^ k / 4 * (pa / 2 ^ k) * 4) by lia. apply Z.mod_mul. lia. }
    rewrite total_app in Hxa. cbn [total] in Hxa. unfold b. rewrite Hxa.
    pose proof (Z.div_mod pa 4). pose proof (Z.div_mod p 4). pose proof (Z.div_mod (total la) 4).
    pose proof (Z.div_mod heap_base 16).
    replace (_ - _) with ((pa / 4 - heap_base / 16 * 4 - total la / 4 - p / 4 - 1) * 4) by lia. apply Z.mod_mul. lia. }
  assert (Hfold : attempt_allocate freeRegionBuckets x (2 ^ k) n s =
    (if x + f - 4 <? pa + n then mret 0 else
     unlink_from_free_list x;;
     freeRegion ← bump_region x (x + 4) pa;
     carve_region freeRegionBuckets freeRegion n;;
     mret (freeRegion + 4)) s).
  { unfold attempt_allocate. mnext. fold pa. rewrite Hw. replace (2 ^ 32 <=? pa + n) with false by lia. done. }
  rewrite Hfold. destruct (Z.ltb_spec (x + f - 4) (pa + n)) as [Hlt|Hge]; [by left|right].
  assert (Hlay : la ++ (p, kp) :: (f, Free) :: l2 = (la ++ [(p, kp)]) ++ (f, Free) :: l2) by (by rewrite <- app_assoc).
  rewrite Hlay in Hc. destruct (unlink_core _ _ _ _ _ _ _ _ _ Hc) as (s1 & L1 & Hr1 & Hc1 & Hq1 & _ & [Hw1 _]).
  rewrite <- Hxa in Hr1, Hw1. rewrite <- app_assoc in Hc1.
  destruct (bump_core s1 la l2 p f b kp L1 Hc1 Hk') as (s2 & Hr2 & Hc2 & Hq2 & Hw3);
    [by rewrite <- Hxa|unfold b; lia|done|unfold b; lia|by rewrite <- Hxa|].
  rewrite <- Hxa in Hr2, Hw3. replace (x + 4 + b) with pa in Hr2 by (unfold b; lia).
  replace (la ++ (p + b, kp) :: (f - b, Gap) :: l2) with ((la ++ [(p + b, kp)]) ++ (f - b, Gap) :: l2) in Hc2
    by (by rewrite <- app_assoc).
  assert (Hx2 : heap_base + total (la ++ [(p + b, kp)]) = x + b)
    by (rewrite Hxa, !total_app; cbn [total]; lia).
  destruct (carve_core s2 _ l2 (f - b) n L1 Hc2) as (s3 & L3 & c & rest & Hr3 & Hc3 & Hq3 & Hnc & Hrest);
    [by rewrite Hx2|done|done|unfold b; lia|intros y Hy; apply HP; lia|].
  rewrite Hx2 in Hr3. rewrite <- app_assoc in Hc3.
  exists (x + b + 4), s3, (la ++ ((p + b, kp) :: (c + 8, Used) :: rest) ++ l2), L3.
  split; [mnext_by Hr1; mnext_by Hr2; mnext_by Hr3; done|]. split; [lia|].
  split; [by replace (x + b + 4) with pa by (unfold b; lia)|].
  assert (Hq : quiet s s3) by (transitivity s2; [by transitivity s1|done]).
  change (la ++ (p, kp) :: (f, Free) :: l2) with (la ++ [(p, kp); (f, Free)] ++ l2) in *.
  split; [|split; [done|]].
  - apply (heap_replace _ _ _ _ s _ _ [(p, kp); (f, Free)] _ _ L); try done.
    + by eapply mid_total.
    + by eapply granted_chain.
    + intros a r. by eapply granted_newest.
    + intros y Hy. apply Ho. rewrite !owned_app. right. left. eapply granted_owned in Hy; [exact Hy| |exact Hnc|exact Hn|exact Hrest]. unfold b. lia.
  - replace (x + b + 4) with (heap_base + total la + p + b + 4) by (rewrite Hxa, total_app; cbn [total]; lia).
    eapply granted_live; try done; [unfold b; lia|].
    intros y Hy. apply HP. rewrite total_app in Hxa. cbn [total] in Hxa. lia.
Qed.
End Alloc.

(** * The searches for a free region: over the buckets by their bits, and along a
    list. *)

(** ** Bits *)
Lemma odd_part x : 0 < x -> exists o c, x = (2 * o + 1) * 2 ^ c /\ 0 <= o /\ 0 <= c.
Proof.
  destruct x as [|p|]; [lia| |lia]. intros _. induction p as [p IH|p IH|].
  - exists (Z.pos p), 0. lia.
  - destruct IH as (o & c & E & ? & ?). exists o, (Z.succ c). rewrite Z.pow_succ_r by lia. lia.
  - exists 0, 0. lia.
Qed.

Lemma land_odd_neg o : Z.land (2 * o + 1) (- (2 * o + 1)) = 1.
Proof.
  replace (- (2 * o + 1)) with (2 * Z.lnot o + 1) by (unfold Z.lnot; lia).
  apply Z.bits_inj'. intros n Hn. rewrite Z.land_spec. destruct (Z.eq_dec n 0) as [->|Hne].
  - by rewrite !Z.testbit_odd_0.
  - replace n with (Z.succ (n - 1)) by lia. rewrite !Z.testbit_odd_succ by lia.
    rewrite Z.lnot_spec, andb_negb_r by lia. change 1 with (2 * 0 + 1). by rewrite Z.testbit_odd_succ, Z.bits_0 by lia.
Qed.

Lemma ctzll_spec o c : 0 <= o -> 0 <= c -> ctzll ((2 * o + 1) * 2 ^ c) = c.
Proof.
  intros Ho Hc. unfold ctzll. rewrite <- Z.mul_opp_l, <- !Z.shiftl_mul_pow2, <- Z.shiftl_land, land_odd_neg by done.
  rewrite Z.shiftl_1_l. by apply Z.log2_pow2.
Qed.

Lemma shiftr_odd o c : 0 <= c -> Z.shiftr ((2 * o + 1) * 2 ^ c) c = 2 * o + 1.
Proof. intros. rewrite Z.shiftr_div_pow2 by done. apply Z.div_mul. lia. Qed.

Lemma shiftr_odd_1 o : Z.shiftr (2 * o + 1) 1 = o.
Proof. rewrite Z.shiftr_div_pow2 by lia. change (2 ^ 1) with 2. symmetry. apply (Z.div_unique _ 2 o 1); lia. Qed.

Lemma lxor_odd o : Z.lxor (2 * o + 1) 1 = 2 * o.
Proof.
  apply Z.bits_inj'. intros n Hn. rewrite Z.lxor_spec. destruct (Z.eq_dec n 0) as [->|Hne].
  - by rewrite Z.testbit_odd_0, Z.testbit_even_0.
  - replace n with (Z.succ (n - 1)) by lia. rewrite Z.testbit_odd_succ, Z.testbit_even_succ by lia.
    change 1 with (2 * 0 + 1) at 2. by rewrite Z.testbit_odd_succ, Z.bits_0, xorb_false_r by lia.
Qed.

(** Rounds left: the width of the mask without its trailing zeros. *)
Definition rounds (mask : Z) (k : nat) : Prop :=
  mask = 0 \/ exists o c, mask = (2 * o + 1) * 2 ^ c /\ 0 <= o /\ 0 <= c /\ 2 * o + 1 < 2 ^ Z.of_nat k.

Lemma rounds_less o k : 0 <= o -> 2 * o + 1 < 2 ^ Z.of_nat (S k) -> rounds o k /\ rounds (2 * o) k.
Proof.
  intros Ho Hk. rewrite Nat2Z.inj_succ, Z.pow_succ_r in Hk by lia.
  destruct (Z.eq_dec o 0) as [->|Hne]; [by split; left|].
  destruct (odd_part o ltac:(lia)) as (o' & c & -> & Ho' & Hc).
  assert (1 <= 2 ^ c) by (change 1 with (2 ^ 0); apply Z.pow_le_mono_r; lia).
  split; right; exists o'; [exists c|exists (Z.succ c)].
  - split; [done|]. split; [done|]. split; [done|]. nia.
  - rewrite Z.pow_succ_r by done. split; [lia|]. split; [done|]. split; [lia|]. nia.
Qed.

Lemma rounds_below mask k : 0 <= mask < 2 ^ Z.of_nat k -> rounds mask k.
Proof.
  intros Hm. destruct (Z.eq_dec mask 0) as [->|Hne]; [by left|right].
  destruct (odd_part mask ltac:(lia)) as (o & c & -> & Ho & Hc). exists o, c.
  assert (1 <= 2 ^ c) by (change 1 with (2 ^ 0); apply Z.pow_le_mono_r; lia).
  split; [done|]. split; [done|]. split; [done|]. nia.
Qed.

(** The index a mask leads to. *)
Lemma mask_index o c b : 0 <= o -> 0 <= c -> b <= 64 -> (2 * o + 1) * 2 ^ c < 2 ^ (64 - b) ->
  b + c < 64 /\ o < 2 ^ (64 - (b + c + 1)) /\ 2 * o < 2 ^ (64 - (b + c)).
Proof.
  intros Ho Hc Hb Hm. assert (Hbc : c < 64 - b).
  { apply (Z.pow_lt_mono_r_iff 2); [lia|lia|]. pose proof (Z.pow_pos_nonneg 2 c). nia. }
  assert (E : 2 ^ (64 - b) = 2 ^ (64 - (b + c)) * 2 ^ c) by (rewrite <- Z.pow_add_r by lia; f_equal; lia).
  assert (E' : 2 ^ (64 - (b + c)) = 2 * 2 ^ (64 - (b + c + 1))) by (rewrite <- Z.pow_succ_r by lia; f_equal; lia).
  pose proof (Z.pow_pos_nonneg 2 c ltac:(lia) ltac:(lia)). split; [lia|].
  assert (2 * o + 1 < 2 ^ (64 - (b + c))) by (rewrite E in Hm; nia). lia.
Qed.

(** Clearing a bit. *)
Lemma clear_bit u i : 0 <= u < 2 ^ 64 -> 0 <= i ->
  0 <= Z.land u (Z.lnot (Z.shiftl 1 i)) < 2 ^ 64 /\
  forall j, j <> i -> Z.testbit u j = true -> Z.testbit (Z.land u (Z.lnot (Z.shiftl 1 i))) j = true.
Proof.
  intros Hu Hi. rewrite Z.shiftl_1_l. split.
  - assert (0 <= Z.land u (Z.lnot (2 ^ i)) <= u); [|lia]. apply Z.ldiff_le; [lia|]. apply Z.bits_inj'. intros n Hn.
    rewrite Z.ldiff_spec, Z.land_spec, Z.bits_0. by destruct (Z.testbit u n); rewrite ?andb_false_r.
  - intros j Hj Hb. destruct (Z.lt_ge_cases j 0) as [Hn|Hn]; [by rewrite Z.testbit_neg_r in Hb|].
    rewrite Z.land_spec, Z.lnot_spec, Hb, Z.pow2_bits_false by lia. done.
Qed.

Section Loops.
Context {W : Type} `{WasmMemLaws W} `{!Below4GiB W}.
Context (freeRegionBuckets heap_base : Z) `{!Placed freeRegionBuckets heap_base}.
Context (P : Z -> Prop) (m0 : Z -> Z).
Abbreviation core := (core freeRegionBuckets heap_base P m0).
Abbreviation heap_at := (heap_at freeRegionBuckets heap_base P m0).
Abbreviation hd_of i := (bucket_head freeRegionBuckets i).
Abbreviation regs l := (regions heap_base l).

(** Every free region is low enough for the sums of the search. *)
Definition frees_below (l : layout) (X : Z) : Prop := forall a f, (a, f, Free) ∈ regs l -> a <= X.

(** What a search ends with: no block, and nothing changed for clients, or a
    new block. *)
Definition served (s s' : heap W) (l : layout) (al n p : Z) : Prop :=
  quiet s s' /\
  ((p = 0 /\ exists L', heap_at s' l L') \/
   (p <> 0 /\ p mod al = 0 /\ exists l' L', heap_at s' l' L' /\ granted heap_base P l l' p n)).

Context (l : layout) (al n X : Z).
Context (Hal : alignment_ok al) (Hn : 8 <= n) (Hn4 : n mod 4 = 0).
Context (HX : frees_below l X) (Hlim : X + 4 + al + n < 2 ^ 32).

Lemma attempt_served s L i x : heap_at s l L -> x ∈ L i ->
  attempt_allocate freeRegionBuckets x al n s = Ret (0, s) \/
  exists p s', attempt_allocate freeRegionBuckets x al n s = Ret (p, s') /\ p <> 0 /\ served s s' l al n p.
Proof.
  intros Hat Hx. apply (lists_members _ _ _ _ _ _ (core_lists _ _ _ _ _ _ _ (at_core _ _ _ _ _ _ _ Hat))) in Hx
    as (f & Hx & _). pose proof (HX _ _ Hx).
  destruct (attempt_Ret _ _ _ _ _ _ _ x f al n Hat Hx Hal Hn Hn4) as [?|(p & s' & l' & L' & Hr & Hp & Hm & Hat' & Hq & Hg)];
    [lia|by left|].
  right. exists p, s'. split; [done|]. split; [done|]. split; [done|]. right. eauto 6.
Qed.

(** The first region of a bucket. *)
Lemma bucket_first s L i : heap_at s l L -> 0 <= i < 64 ->
  load (hmem s) (hd_of i + NEXT) = first_of (L i) (hd_of i) /\
  (first_of (L i) (hd_of i) = hd_of i <-> L i = []).
Proof.
  intros [[Hwf _ Hl _ _ _ _] _ _ _] Hi. pose proof (lists_rings _ _ _ _ _ _ Hl i Hi) as Hr%links_first.
  split; [exact Hr|]. destruct (L i) as [|y ly] eqn:E; unfold first_of; simpl; [done|].
  split; [|done]. intros ->. destruct (member_not_head _ _ _ _ _ _ Hwf Hl i (hd_of i)); [rewrite E; by left|by exists i].
Qed.

(** A region that does not do goes to the end of its list. *)
Lemma cycle_head_Ret s L i x : heap_at s l L -> x ∈ L i -> exists s1 s2 L', unlink_from_free_list x s = Ret (tt, s1) /\
  prepend_to_free_list x (hd_of i) s1 = Ret (tt, s2) /\ heap_at s2 l L' /\ quiet s s2.
Proof.
  intros [Hc Hch Hr Ho] Hx. pose proof (core_lists _ _ _ _ _ _ _ Hc) as Hl.
  assert (Hbit : Z.testbit (freeRegionBucketsUsed s) i = true)
    by (apply (lists_bits _ _ _ _ _ _ Hl); intros E; rewrite E in Hx; by apply elem_of_nil in Hx).
  apply (lists_members _ _ _ _ _ _ Hl) in Hx as (f & Hx & <-). pose proof Hx as (l1 & l2 & El & ->)%elem_of_regions.
  pose proof (core_wf _ _ _ _ _ _ _ Hc) as Hwf. pose proof (free_size _ _ _ _ Hwf Hx) as Hf.
  pose proof (fun y Hy => core_frees _ _ _ _ _ _ _ Hc _ _ y Hx Hy) as HP. rewrite El in Hc.
  destruct (unlink_core _ _ _ _ _ _ _ _ _ Hc) as (s1 & L1 & Hr1 & Hc1 & Hq1 & Hu1 & Hw1).
  destruct (prepend_core _ _ _ _ _ _ _ _ _ Hc1 ltac:(lia) Hw1 HP) as (s2 & L2 & Hr2 & Hc2 & Hq2 & Hu2);
    [by rewrite Hu1|].
  exists s1, s2, L2. split; [done|]. split; [done|]. split; [|by transitivity s1].
  assert (Hq : quiet s s2) by (by transitivity s1). destruct Hq as [_ Hq]. rewrite <- El in Hc2. split; try done. by rewrite Hq.
Qed.

Lemma served_quiet s s1 s2 p : quiet s s1 -> served s1 s2 l al n p -> served s s2 l al n p.
Proof. intros Hq [Hq' Hs]. split; [by transitivity s1|done]. Qed.

Lemma bucket_loop_Ret fuel : forall s L b mask, heap_at s l L -> 0 <= b <= 64 -> 0 <= mask < 2 ^ (64 - b) ->
  rounds mask fuel -> exists p s', bucket_loop freeRegionBuckets fuel al n b mask s = Ret (p, s') /\ served s s' l al n p.
Proof.
  induction fuel as [|fuel IH]; intros s L b mask Hat Hb Hm Hk.
  { assert (mask = 0) as ->.
    { destruct Hk as [?|(o & c & _ & Ho & _ & Hk)]; [done|]. change (2 ^ Z.of_nat 0) with 1 in Hk. lia. }
    exists 0, s. split; [done|]. split; [done|]. left. eauto. }
  cbn [bucket_loop]. destruct (Z.eqb_spec mask 0) as [->|Hne].
  { exists 0, s. split; [done|]. split; [done|]. left. eauto. }
  destruct Hk as [?|(o & c & -> & Ho & Hc & Hk)]; [done|]. rewrite ctzll_spec, shiftr_odd by done.
  destruct (mask_index o c b Ho Hc ltac:(lia) ltac:(lia)) as (Hi & Hmo & Hm2). destruct (rounds_less _ _ Ho Hk) as [Hk1 Hk2].
  destruct (bucket_first s L (b + c) Hat ltac:(lia)) as [Hf Hhd].
  assert (Hin : L (b + c) <> [] -> first_of (L (b + c)) (hd_of (b + c)) ∈ L (b + c))
    by (destruct (L (b + c)); [done|intros _; by left]).
  destruct (Z.eqb_spec (first_of (L (b + c)) (hd_of (b + c))) (hd_of (b + c))) as [E|E].
  - set (u := Z.land (freeRegionBucketsUsed s) (Z.lnot (Z.shiftl 1 (b + c)))).
    set (s1 := Heap (hmem s) (listOfAllRegions s) u (henv s)).
    assert (Hat1 : heap_at s1 l L).
    { destruct Hat as [Hcore Hch Hr Hown]. pose proof (core_lists _ _ _ _ _ _ _ Hcore) as Hl.
      destruct (clear_bit (freeRegionBucketsUsed s) (b + c) (lists_used _ _ _ _ _ _ Hl) ltac:(lia)) as [Hu1 Hu2].
      split; try done. apply core_used; [|done|done]. intros j Hj. apply Hu2; [|by apply (lists_bits _ _ _ _ _ _ Hl)].
      intros ->. by apply Hj, Hhd. }
    destruct (IH s1 L (b + c) (2 * o) Hat1 ltac:(lia) ltac:(lia) Hk2) as (p & s' & Hr & Hs).
    exists p, s'. split; [|by apply (served_quiet s s1)].
    mnext. rewrite Hf, E, Z.eqb_refl. cbn [negb]. mnext. mnext. rewrite lxor_odd. exact Hr.
  - assert (Hx : first_of (L (b + c)) (hd_of (b + c)) ∈ L (b + c)) by (apply Hin; intros ?%Hhd; done).
    set (x := first_of _ _) in *. apply Z.eqb_neq in E.
    destruct (attempt_served s L (b + c) x Hat Hx) as [Hr|(p & s' & Hr & Hp & Hs)].
    + destruct (cycle_head_Ret s L (b + c) x Hat Hx) as (s1 & s2 & L2 & Hr1 & Hr2 & Hat2 & Hq2).
      destruct (IH s2 L2 (b + c + 1) o Hat2 ltac:(lia) ltac:(lia) Hk1) as (p & s' & Hr' & Hs).
      exists p, s'. split; [|by apply (served_quiet s s2)].
      mnext. rewrite Hf, E. cbn [negb]. mnext_by Hr. mnext_by Hr1. mnext_by Hr2. by rewrite shiftr_odd_1.
    + exists p, s'. split; [|done]. mnext. rewrite Hf, E. cbn [negb]. mnext_by Hr.
      apply Z.eqb_neq in Hp. by rewrite Hp.
Qed.

(** Walking a list: [x] is the first of what is left of it. *)
Definition walked (L : Z -> list Z) (i x : Z) (more : list Z) : Prop :=
  (exists la, L i = la ++ more) /\ x = first_of more (hd_of i).

Lemma walked_next s L i x y more : heap_at s l L -> 0 <= i < 64 -> walked L i x (y :: more) ->
  x = y /\ x ∈ L i /\ walked L i (load (hmem s) (x + NEXT)) more.
Proof.
  intros [[Hwf _ Hl _ _ _ _] _ _ _] Hi [(la & HL) Hx]. unfold first_of in Hx. simpl in Hx. split; [done|].
  subst y. split; [rewrite HL; set_solver|]. split; [exists (la ++ [x]); by rewrite <- app_assoc|].
  pose proof (lists_rings _ _ _ _ _ _ Hl i Hi) as Hr. rewrite HL, links_app in Hr.
  destruct Hr as [_ Hr]. by apply links_first in Hr.
Qed.

Lemma walked_start s L i : heap_at s l L -> 0 <= i < 64 -> walked L i (load (hmem s) (hd_of i + NEXT)) (L i).
Proof. intros Hat Hi. split; [by exists []|]. by apply (bucket_first s L i Hat Hi). Qed.

(** What a walk found: a block, or nothing from [x'] on. *)
Lemma try_regions_Ret k : forall s L i x more, heap_at s l L -> 0 <= i < 64 -> walked L i x more ->
  exists p x' s', try_regions freeRegionBuckets k (hd_of i) x al n s = Ret ((p, x'), s') /\ served s s' l al n p /\
    (p = 0 -> s' = s /\ exists more', walked L i x' more').
Proof.
  induction k as [|k IH]; intros s L i x more Hat Hi Hx.
  { exists 0, x, s. split; [done|]. split; [split; [done|left; eauto]|eauto]. }
  cbn [try_regions]. destruct (Z.eqb_spec x (hd_of i)) as [E|E].
  { exists 0, x, s. split; [done|]. split; [split; [done|left; eauto]|eauto]. }
  destruct more as [|y more]; [destruct E; apply Hx|].
  destruct (walked_next _ _ _ _ _ _ Hat Hi Hx) as (-> & Hin & Hnext).
  destruct (attempt_served s L i y Hat Hin) as [Hr|(p & s' & Hr & Hp & Hs)].
  - destruct (IH s L i _ more Hat Hi Hnext) as (p & x' & s' & Hr' & Hs).
    exists p, x', s'. split; [|done]. mnext_by Hr. cbn [negb Z.eqb]. mnext. exact Hr'.
  - exists p, y, s'. split; [|done]. mnext_by Hr. apply Z.eqb_neq in Hp. by rewrite Hp.
Qed.

Lemma all_regions_Ret fuel : forall s L i x more, heap_at s l L -> 0 <= i < 64 -> walked L i x more ->
  (length more <= fuel)%nat ->
  exists p s', all_regions freeRegionBuckets fuel (hd_of i) x al n s = Ret (p, s') /\ served s s' l al n p.
Proof.
  induction fuel as [|fuel IH]; intros s L i x more Hat Hi Hx Hf; cbn [all_regions];
    (destruct (Z.eqb_spec x (hd_of i)) as [E|E];
      [exists 0, s; split; [done|split; [done|left; eauto]]|]);
    (destruct more as [|y more]; [destruct E; apply Hx|]); [simpl in Hf; lia|].
  destruct (walked_next _ _ _ _ _ _ Hat Hi Hx) as (-> & Hin & Hnext).
  destruct (attempt_served s L i y Hat Hin) as [Hr|(p & s' & Hr & Hp & Hs)].
  - destruct (IH s L i _ more Hat Hi Hnext ltac:(simpl in Hf; lia)) as (p & s' & Hr' & Hs).
    exists p, s'. split; [|done]. mnext_by Hr. cbn [negb Z.eqb]. mnext. exact Hr'.
  - exists p, s'. split; [|done]. mnext_by Hr. apply Z.eqb_neq in Hp. by rewrite Hp.
Qed.
End Loops.

(** ** How long a list can be

    Free regions have 16 bytes or more, so fewer than [2 ^ 28] fit. *)
Fixpoint free_starts (a : Z) (l : layout) : list Z :=
  match l with
  | [] => []
  | (size, Free) :: l => a :: free_starts (a + size) l
  | (size, _) :: l => free_starts (a + size) l
  end.

Lemma free_starts_spec a l x size : (x, size, Free) ∈ regions a l -> x ∈ free_starts a l.
Proof.
  revert a. induction l as [|[sz k] l IH]; intros a; cbn [regions free_starts]; [by intros ?%elem_of_nil|].
  intros [[= -> -> <-]|Hx%IH]%elem_of_cons; [by left|]. destruct k; try done. by right.
Qed.

Lemma free_starts_length a l : Forall wf_region l -> 16 * Z.of_nat (length (free_starts a l)) <= total l.
Proof.
  intros Hwf. revert a. induction Hwf as [|[sz k] l (_ & Hs & Hs16 & _) Hwf IH]; intros a; cbn [free_starts total];
    [simpl; lia|]. cbn [fst snd] in *.
  specialize (IH (a + sz)). destruct k; try lia. specialize (Hs16 ltac:(done)). cbn [length]. lia.
Qed.

Lemma list_short {W} `{WasmMemLaws W} `{!Below4GiB W} freeRegionBuckets heap_base `{!Placed freeRegionBuckets heap_base}
    P m0 (s : heap W) l L i : core freeRegionBuckets heap_base P m0 s l L -> Z.of_nat (length (L i)) < 2 ^ 28.
Proof.
  intros [Hwf _ Hl Ht _ _ _]. pose proof (brk_range s). pose proof (free_starts_length heap_base l Hwf).
  pose proof (buckets_pos (heap_base := heap_base)). pose proof buckets_below. unfold PAGE, SIZEOF_REGION in *.
  assert (length (L i) <= length (free_starts heap_base l))%nat; [|lia].
  apply submseteq_length, NoDup_submseteq; [apply (lists_nodup _ _ _ _ _ _ Hl)|].
  intros x Hx. apply (lists_members _ _ _ _ _ _ Hl) in Hx as (size & Hx & _). by eapply free_starts_spec.
Qed.
