(* ===== verification/EmmallocMemory.v ===== *)
(** Claiming memory with [sbrk]: a new block, or the newest block made
    longer. *)
From S2P Require Import Prelude.
From S2P Require Import Wasi.
From S2P Require Import Mman.
From S2P Require Import Emmalloc.
From S2P Require Import EmmallocHeap.
From S2P Require Import EmmallocCore.
From S2P Require Import EmmallocSteps.
From S2P Require Import EmmallocAlloc.

(** The newest root in the layout. *)
Definition no_root (l : layout) : Prop := forall b q, newest b l q = q.

Lemma last_root l : no_root l \/ exists l1 size next e l2, l = l1 ++ (size, Root next e) :: l2 /\ no_root l2.
Proof.
  induction l as [|[sz k] l [Hl|(l1 & size & next & e & l2 & -> & Hl2)]]; [by left| |].
  - destruct k; try (by left; intros b q; apply Hl). right. by exists [], sz, next, endPtr, l.
  - right. by exists ((sz, k) :: l1), size, next, e, l2.
Qed.

Lemma newest_root a l r e q : newest a l q = (r, e) -> q <> (r, e) ->
  exists l1 size next l2, l = l1 ++ (size, Root next e) :: l2 /\ r = a + total l1 /\ no_root l2.
Proof.
  intros Hn Hq. destruct (last_root l) as [Hl|(l1 & size & next & e' & l2 & -> & Hl2)].
  - by rewrite Hl in Hn.
  - rewrite newest_app in Hn. cbn [newest] in Hn. rewrite Hl2 in Hn. injection Hn as <- <-.
    by exists l1, size, next, l2.
Qed.

Section Claim.
Context {W : Type} `{WasmMemLaws W} `{!Below4GiB W}.
Context (freeRegionBuckets heap_base : Z) `{!Placed freeRegionBuckets heap_base}.
Context (P : Z -> Prop) (m0 : Z -> Z).
Abbreviation core := (core freeRegionBuckets heap_base P m0).
Abbreviation heap_at := (heap_at freeRegionBuckets heap_base P m0).
Abbreviation regs l := (regions heap_base l).

(** A block that grows has its new end in its root. *)
Lemma retarget_core s l1 size next e e' l2 L : core s (l1 ++ (size, Root next e) :: l2) L -> 0 <= e' < 2 ^ 32 ->
  (forall y, heap_base + total l1 + 8 <= y < heap_base + total l1 + 12 -> P y) ->
  core (with_mem s (store (hmem s) (heap_base + total l1 + END_PTR) e')) (l1 ++ (size, Root next e') :: l2) L.
Proof.
  intros Hc He HP. pose proof Hc as [Hwf Hseg _ _ _ _ _].
  destruct (mid_wf _ _ _ _ Hwf) as (Hs4 & Hs0 & Hs & Hend). cbn [fst snd] in *. specialize (Hs ltac:(done)).
  apply seg_app in Hseg as [_ [(Hw1 & Hw2 & Hw3 & Hw4) _]]. unfold END_PTR.
  apply core_fill; [done|by repeat split| |].
  - cbn [with_mem hmem region_words]. rewrite !load_store_other by lia. rewrite load_store_same by done. done.
  - apply (core_store _ _ _ _ s l1 size l2); [|lia|lia|intros y Hy; apply HP; lia].
    by apply (core_forget _ _ _ _ _ _ _ (Root next e)).
Qed.

(** What a claim does: the blocks of clients stay, free regions stay below
    [X], and the last region is free and ends at the end of memory. *)
Definition last_free (l : layout) : Prop := exists l0 f, l = l0 ++ [(f, Free); (16, End)].
Definition low (X : Z) (s : heap W) (l : layout) : Prop := frees_below heap_base l X /\
  (brk s + 16 <= X \/ (last_free l /\ heap_base + total l = brk s)).
Definition same_live (l l' : layout) : Prop := forall p c, live heap_base l' p c <-> live heap_base l p c.

Section Block.
Context (s : heap W) (l : layout) (L : Z -> list Z) (startPtr endPtr X : Z).
Context (Hat : heap_at s l L) (Hend : endPtr = brk s) (Hstart : heap_base + total l <= startPtr).
Context (Hs4 : startPtr mod 16 = 0) (Hd4 : (endPtr - startPtr) mod 16 = 0) (Hd : 48 <= endPtr - startPtr).
Context (HP : forall y, startPtr <= y < endPtr -> P y).
Context (HX : frees_below heap_base l X).
Abbreviation d := (endPtr - startPtr).
Abbreviation fin := (endPtr - SIZEOF_REGION).

(** The memory below the end of the old block, the new memory and the sentinel
    at its end. *)
Lemma sentinel_core g l' : 0 <= g -> g mod 4 = 0 -> heap_base + total l' + g = startPtr ->
  core s (l' ++ [(g, Gap)]) L -> exists s', create_used_region fin SIZEOF_REGION s = Ret (tt, s') /\
    core s' (l' ++ [(g, Gap); (d - 16, Gap); (16, End)]) L /\ quiet s s' /\
    (forall a, a + 4 <= fin -> load (hmem s') a = load (hmem s) a).
Proof.
  intros Hg Hg4 Hl' Hc. assert (Hd4' : d mod 4 = 0).
  { pose proof (Z.div_mod d 16). replace d with (d / 16 * 4 * 4) by lia. apply Z.mod_mul. lia. }
  assert (Ht : heap_base + total (l' ++ [(g, Gap)]) = startPtr) by (rewrite total_app; cbn [total]; lia).
  apply (core_append _ _ _ _ s _ d) in Hc; [|lia|done|lia].
  rewrite <- (Z.sub_add 16 d) in Hc.
  apply core_split in Hc; [|lia|rewrite Zminus_mod, Hd4'; done|lia].
  replace (((l' ++ [(g, Gap)]) ++ [(d - 16, Gap); (16, Gap)])) with
    ((l' ++ [(g, Gap); (d - 16, Gap)]) ++ (16, Gap) :: []) in Hc by (by rewrite <- !app_assoc).
  assert (Ht' : heap_base + total (l' ++ [(g, Gap); (d - 16, Gap)]) = fin)
    by (rewrite total_app in *; cbn [total] in *; unfold SIZEOF_REGION; lia).
  destruct (create_used_core _ _ _ _ _ _ _ _ _ Hc ltac:(lia)) with (k := End) as (s' & Hr & Hc' & Hq & _).
  { intros y Hy. apply HP. unfold SIZEOF_REGION in *. lia. }
  { by right; left. }
  rewrite Ht' in Hr. exists s'. split; [exact Hr|]. split; [by rewrite <- app_assoc in Hc'|]. split; [done|].
  intros a Ha. injection Hr as <-. cbn [hmem].
  unfold SIZEOF_REGION in *. change (16 / 4) with 4. by rewrite !load_store_other by lia.
Qed.

Lemma claim_free_core s1 l1 sz L1 st : core s1 (l1 ++ [(sz, Gap); (16, End)]) L1 -> 16 <= sz ->
  heap_base + total l1 = st -> st + sz = fin -> (forall y, st <= y < fin -> P y) ->
  exists s' L', claim_free freeRegionBuckets st fin s1 = Ret (true, s') /\ quiet s1 s' /\
    core s' (l1 ++ [(sz, Free); (16, End)]) L'.
Proof.
  intros Hc Hsz Hst Hfin HP1. destruct (make_free_core _ _ _ _ _ _ _ _ _ Hc Hsz) as (s2 & s3 & L3 & Hr1 & Hr2 & Hc3 & Hq);
    [intros y Hy; apply HP1; lia..|].
  exists s3, L3. split; [|done]. unfold claim_free. rewrite Hst in *. replace (fin - st) with sz by lia.
  mnext_by Hr1. mnext_by Hr2. done.
Qed.

(** The newest root. *)
Lemma newest_at : listOfAllRegions s <> 0 -> exists l1 size next l2,
  l = l1 ++ (size, Root next (heap_base + total l)) :: l2 /\ listOfAllRegions s = heap_base + total l1 /\
  no_root l2 /\ 16 <= size /\ total l = total l1 + size + total l2 /\ 0 <= total l1 /\ 0 <= total l2 /\
  load (hmem s) (listOfAllRegions s + END_PTR) = heap_base + total l.
Proof.
  intros Hne. pose proof Hat as [Hc _ Hr _].
  apply newest_root in Hr as (l1 & size & next & l2 & El & Ea & Hl2); [|naive_solver].
  exists l1, size, next, l2. split; [done|]. split; [done|]. split; [done|].
  destruct (region_in _ _ _ _ _ _ _ _ _ _ _ Hc El) as [(_ & _ & _ & He) (_ & _ & Hs & _)]. cbn [fst snd] in Hs.
  split; [by apply Hs|]. split; [rewrite El at 1; rewrite total_app; cbn [total]; lia|].
  pose proof (core_wf _ _ _ _ _ _ _ Hc) as Hwf. rewrite El in Hwf.
  apply Forall_app in Hwf as [Hw1 [_ Hw2]%Forall_cons].
  split; [by apply total_nonneg|]. split; [by apply total_nonneg|]. by rewrite Ea.
Qed.

(** Its end, as the code finds it. *)
Lemma newest_end s1 : listOfAllRegions s1 = listOfAllRegions s ->
  (forall a, a + 4 <= startPtr -> load (hmem s1) a = load (hmem s) a) ->
  ((if negb (listOfAllRegions s =? 0) then ld (listOfAllRegions s + END_PTR) else mret 0) : M (heap W) Z) s1 =
    Ret (if listOfAllRegions s =? 0 then 0 else heap_base + total l, s1).
Proof.
  intros Hl1 Hld. destruct (Z.eqb_spec (listOfAllRegions s) 0) as [E|E]; [done|].
  destruct (newest_at E) as (l1 & size & next & l2 & _ & Ea & _ & Hs & Ht & _ & H2 & He).
  cbn [negb]. unfold ld, gets, END_PTR in *. by rewrite Hld, He by lia.
Qed.

Lemma top_range : 0 < heap_base + total l < 2 ^ 32 /\ 0 <= total l /\ total l mod 4 = 0.
Proof.
  pose proof Hat as [[Hwf _ _ Ht _ _ _] _ _ _]. pose proof (total_nonneg _ Hwf). pose proof (brk_range s).
  pose proof (buckets_pos (heap_base := heap_base)). pose proof buckets_below. unfold PAGE, SIZEOF_REGION in *.
  split; [lia|]. split; [done|]. by apply total_mod4.
Qed.

Lemma root_range : 0 <= listOfAllRegions s < 2 ^ 32.
Proof.
  pose proof top_range. destruct (decide (listOfAllRegions s = 0)) as [->|E]; [lia|].
  destruct (newest_at E) as (l1 & size & next & l2 & _ & Ea & _ & Hs & Ht & ? & ? & _).
  pose proof (buckets_pos (heap_base := heap_base)). pose proof buckets_below. unfold SIZEOF_REGION in *. lia.
Qed.

(** Without a root there is no block. *)
Lemma no_block : listOfAllRegions s = 0 -> total l = 0.
Proof.
  intros E. pose proof Hat as [Hc _ Hr _]. rewrite E in Hr.
  destruct (decide (total l = 0)) as [|Hne]; [done|].
  apply newest_root in Hr as (l1 & size & next & l2 & El & Ea & _); [|intros [= ?]; lia].
  pose proof (core_wf _ _ _ _ _ _ _ Hc) as Hwf. rewrite El in Hwf.
  apply Forall_app in Hwf as [Hw1 _]. pose proof (total_nonneg _ Hw1).
  pose proof (buckets_pos (heap_base := heap_base)). pose proof buckets_below. unfold SIZEOF_REGION in *. lia.
Qed.

Lemma chained_path k l1 : chained k l1 = true -> path k l1 Gap = true.
Proof.
  revert k. induction l1 as [|[sz k'] l1 IH]; intros k; simpl.
  - intros E%bool_decide_eq_true. by rewrite E.
  - intros [-> ?]%andb_prop. by apply IH.
Qed.

(** ** A new block *)
Section New.
Context (Hnew : listOfAllRegions s = 0 \/ startPtr <> heap_base + total l).
Abbreviation g := (startPtr - (heap_base + total l)).
Abbreviation l' := (l ++ [(g, Gap); (16, Root (listOfAllRegions s) endPtr); (d - 32, Free); (16, End)]).

Lemma gap_size : 0 <= g /\ g mod 4 = 0 /\ d mod 4 = 0.
Proof.
  destruct top_range as (_ & _ & Ht). split; [lia|].
  pose proof (heap_base_aligned (freeRegionBuckets := freeRegionBuckets)) as Hh.
  pose proof (Z.div_mod startPtr 16). pose proof (Z.div_mod heap_base 16). pose proof (Z.div_mod (total l) 4).
  pose proof (Z.div_mod d 16). split.
  - replace g with ((startPtr / 16 * 4 - heap_base / 16 * 4 - total l / 4) * 4) by lia. apply Z.mod_mul. lia.
  - replace d with (d / 16 * 4 * 4) by lia. apply Z.mod_mul. lia.
Qed.

Lemma root_core s1 L1 : core s1 ((l ++ [(g, Gap)]) ++ [(d - 16, Gap); (16, End)]) L1 ->
  let m1 := store (store (hmem s1) startPtr 16) (startPtr + 4 * (16 / 4 - 1)) 16 in
  let m2 := store (store m1 (startPtr + ROOT_NEXT) (listOfAllRegions s)) (startPtr + END_PTR) endPtr in
  core (with_mem s1 m2) ((l ++ [(g, Gap); (16, Root (listOfAllRegions s) endPtr)]) ++ [(d - 32, Gap); (16, End)]) L1.
Proof.
  cbn zeta. intros Hc. destruct gap_size as (? & ? & Hd4').
  assert (Hx : heap_base + total (l ++ [(g, Gap)]) = startPtr) by (rewrite total_app; cbn [total]; lia).
  replace (d - 16) with (16 + (d - 32)) in Hc by lia.
  apply core_split in Hc; [|lia|done|lia].
  destruct (create_words _ _ _ _ _ _ _ _ _ Hc ltac:(lia)) with (v := 16) (w := 16) as (Hc1 & Hw1 & Hw2 & _); [|lia..|].
  { intros y Hy. apply HP. lia. }
  rewrite Hx in *. change (16 / 4) with 4 in *.
  set (m1 := store (store (hmem s1) startPtr 16) (startPtr + 4 * (4 - 1)) 16) in *.
  apply (core_store _ _ _ _ (with_mem s1 m1) _ _ _ _ (startPtr + ROOT_NEXT) (listOfAllRegions s)) in Hc1;
    [|unfold ROOT_NEXT; lia|unfold ROOT_NEXT; lia|intros y Hy; apply HP; unfold ROOT_NEXT in *; lia].
  cbn [with_mem hmem listOfAllRegions freeRegionBucketsUsed henv] in Hc1.
  apply (core_store _ _ _ _ (with_mem s1 (store m1 (startPtr + ROOT_NEXT) (listOfAllRegions s)))
    _ _ _ _ (startPtr + END_PTR) endPtr) in Hc1;
    [|unfold END_PTR; lia|unfold END_PTR; lia|intros y Hy; apply HP; unfold END_PTR in *; lia].
  cbn [with_mem hmem listOfAllRegions freeRegionBucketsUsed henv] in Hc1.
  replace ((l ++ [(g, Gap); (16, Root (listOfAllRegions s) endPtr)]) ++ [(d - 32, Gap); (16, End)]) with
    ((l ++ [(g, Gap)]) ++ (16, Root (listOfAllRegions s) endPtr) :: [(d - 32, Gap); (16, End)]) by (by rewrite <- !app_assoc).
  apply core_fill; [done|by repeat split| |exact Hc1]. rewrite Hx. cbn [with_mem hmem region_words].
  unfold ROOT_NEXT, END_PTR. pose proof root_range. pose proof (brk_range s). unfold PAGE in *.
  rewrite !(load_store_other _ (startPtr + 8)), !(load_store_other _ (startPtr + 4)), !load_store_same by lia. done.
Qed.

Lemma new_block_core : exists s' L', claim_block freeRegionBuckets startPtr endPtr s = Ret (true, s') /\
  core s' l' L' /\ henv s' = henv s /\ listOfAllRegions s' = startPtr.
Proof.
  pose proof Hat as [Hc _ _ _]. destruct gap_size as (Hg0 & Hg4 & Hd4'). pose proof top_range.
  destruct (sentinel_core g l Hg0 Hg4 ltac:(lia)) as (s1 & Hr1 & Hc1 & Hq1 & Hld).
  { apply core_append; [done|done|lia|done]. }
  replace (l ++ [(g, Gap); (d - 16, Gap); (16, End)]) with ((l ++ [(g, Gap)]) ++ [(d - 16, Gap); (16, End)]) in Hc1
    by (by rewrite <- !app_assoc).
  apply root_core in Hc1. set (m2 := store _ (startPtr + END_PTR) endPtr) in Hc1.
  apply (core_root _ _ _ _ _ _ _ startPtr) in Hc1.
  destruct (claim_free_core _ _ (d - 32) _ (startPtr + 16) Hc1) as (s' & L' & Hr2 & Hq2 & Hc2).
  { lia. } { rewrite total_app. cbn [total]. lia. } { unfold SIZEOF_REGION. lia. }
  { intros y Hy. apply HP. unfold SIZEOF_REGION in *. lia. }
  exists s', L'. split; [|split; [by rewrite <- app_assoc in Hc2|]].
  - unfold claim_block. mnext_by Hr1. destruct Hq1 as [_ Hq1]. mnext. rewrite Hq1.
    etransitivity; [eapply bind_Ret, newest_end; [done|]|].
    { intros a Ha. apply Hld. unfold SIZEOF_REGION. lia. }
    cbn beta. replace (startPtr =? _) with false.
    2:{ symmetry. apply Z.eqb_neq. destruct (Z.eqb_spec (listOfAllRegions s) 0); destruct Hnew; lia. }
    mnext. mnext. mnext. mnext. mnext. exact Hr2.
  - destruct Hq1 as [Hq1 _], Hq2 as [Hq2 Hq3]. cbn [with_mem henv listOfAllRegions] in *. by rewrite Hq2, Hq3.
Qed.

Lemma new_block_Ret : startPtr + 16 <= X ->
  exists s' l1 L', claim_block freeRegionBuckets startPtr endPtr s = Ret (true, s') /\ heap_at s' l1 L' /\
    henv s' = henv s /\ same_live l l1 /\ frees_below heap_base l1 X /\ last_free l1 /\
    heap_base + total l1 = endPtr.
Proof.
  intros HX2. destruct new_block_core as (s' & L' & Hr & Hc' & He & Hl').
  pose proof Hat as [Hc Hch Hrt Ho]. destruct gap_size as (Hg0 & Hg4 & Hd4'). exists s', l', L'.
  assert (Htot : heap_base + total l' = endPtr) by (rewrite total_app; cbn [total]; lia).
  assert (Hin : forall b sz k, (b, sz, k) ∈ regs l' -> (b, sz, k) ∈ regs l \/ (startPtr <= b /\ b + sz <= endPtr /\
    (k = Root (listOfAllRegions s) endPtr \/ (k = Free /\ b = startPtr + 16) \/ k = End)) \/ k = Gap).
  { intros b sz k. rewrite regions_app, elem_of_app. cbn [regions]. rewrite !elem_of_cons, elem_of_nil.
    intros [?|[[= -> -> ->]|[[= -> -> ->]|[[= -> -> ->]|[[= -> -> ->]|[]]]]]]; [by left|by right; right|right; left..];
      (split; [lia|split; [lia|auto with lia]]). }
  split; [done|]. split; [split|].
  - done.
  - rewrite chained_app, (chained_path _ _ Hch). done.
  - rewrite newest_app, Htot, Hl'. cbn [newest]. do 2 f_equal. lia.
  - intros x (b & sz & k & Hb & Hk & Hx & Hu). destruct (Hin b sz k Hb) as [?|[(? & ? & _)|?]]; [|apply HP; lia|done].
    apply Ho. by exists b, sz, k.
  - split; [done|]. split; [|split; [|split; [|done]]].
    + intros p c. unfold live. split; [|rewrite regions_app, elem_of_app; by left].
      intros Hp%Hin. naive_solver.
    + intros a f Ha%Hin. destruct Ha as [?|[(_ & _ & [?|[[_ ->]|?]])|?]]; [by apply (HX a f)|done|done|done|done].
    + exists (l ++ [(g, Gap); (16, Root (listOfAllRegions s) endPtr)]), (d - 32). by rewrite <- app_assoc.
Qed.
End New.

(** ** A longer block *)
Lemma chained_end k l1 : chained k l1 = true -> k <> End -> Forall wf_region l1 ->
  exists l0, l1 = l0 ++ [(16, End)] /\ path k l0 End = true.
Proof.
  intros Hch Hk Hwf. destruct l1 as [|[sz k'] l0 _] using rev_ind; [by apply bool_decide_eq_true in Hch|].
  rewrite chained_app in Hch. apply andb_prop in Hch as [Hp Hk']. simpl in Hk'. apply bool_decide_eq_true in Hk' as ->.
  apply mid_wf in Hwf as (_ & _ & _ & Hs). cbn [fst snd] in Hs. rewrite (Hs eq_refl). by exists l0.
Qed.

Section Longer.
Context (Hold : listOfAllRegions s <> 0) (Htop : startPtr = heap_base + total l).

(** The layout without its end. *)
Lemma longer_root : exists l1 size next l2, l = (l1 ++ (size, Root next startPtr) :: l2) ++ [(16, End)] /\
  listOfAllRegions s = heap_base + total l1 /\ no_root l2 /\ 16 <= size /\ 0 <= total l1 /\ 0 <= total l2 /\
  total l = total l1 + size + total l2 + 16 /\
  path End (l1 ++ (size, Root next startPtr) :: l2) End = true.
Proof.
  destruct (newest_at Hold) as (l1 & size & next & l2 & El & Ea & Hl2 & Hs & Ht & Hl1 & _ & _).
  pose proof Hat as [Hc Hch _ _]. pose proof (core_wf _ _ _ _ _ _ _ Hc) as Hwf. rewrite <- Htop in El.
  rewrite El in Hch, Hwf. rewrite chained_app in Hch. apply andb_prop in Hch as [Hp Hch].
  apply Forall_app in Hwf as [_ [_ Hwf]%Forall_cons].
  destruct (chained_end _ _ Hch) as (l0 & -> & Hp0); [done|done|]. exists l1, size, next, l0.
  rewrite total_app in Ht. cbn [total] in Ht. apply Forall_app in Hwf as [Hwf _].
  split; [by rewrite <- app_assoc|]. split; [done|]. split.
  { intros b q. specialize (Hl2 b q). rewrite newest_app in Hl2. exact Hl2. }
  split; [done|]. split; [done|]. split; [by apply total_nonneg|]. split; [lia|].
  by rewrite path_app, Hp, Hp0.
Qed.

Context (l1 l2 la : layout) (size next p : Z) (kp : kind).
Abbreviation lr := (l1 ++ (size, Root next startPtr) :: l2).
Abbreviation lr' := (l1 ++ (size, Root next endPtr) :: l2).
Context (El : l = lr ++ [(16, End)]) (Ea : listOfAllRegions s = heap_base + total l1).
Context (Hl2 : no_root l2) (Hs : 16 <= size) (Hpos1 : 0 <= total l1) (Hpos2 : 0 <= total l2).
Context (Ht : total l = total l1 + size + total l2 + 16).
Context (Ela : lr' = la ++ [(p, kp)]) (Hla : path End la kp = true) (Hkp : follows kp End = true).
Abbreviation A := (heap_base + total la).

Lemma prev_at : A + p = startPtr - 16 /\ total lr' = total lr.
Proof.
  assert (E : total lr' = total la + p) by (rewrite Ela, total_app; cbn [total]; lia).
  rewrite !total_app in *. cbn [total] in *. lia.
Qed.

(** Up to the store of the new end. *)
Lemma longer_start : exists s2, core s2 (la ++ (p, kp) :: (d, Gap) :: [(16, End)]) L /\
  henv s2 = henv s /\ listOfAllRegions s2 = listOfAllRegions s /\
  forall r s', (free ← region_is_free A;
      if (free : bool) then unlink_from_free_list A;; claim_free freeRegionBuckets A fin
      else claim_free freeRegionBuckets (startPtr - SIZEOF_REGION) fin) s2 = Ret (r, s') ->
    claim_block freeRegionBuckets startPtr endPtr s = Ret (r, s').
Proof.
  pose proof Hat as [Hc _ _ Ho]. pose proof top_range. destruct prev_at as [HA Htl].
  assert (Hd4' : d mod 4 = 0).
  { pose proof (Z.div_mod d 16). replace d with (d / 16 * 4 * 4) by lia. apply Z.mod_mul. lia. }
  destruct (sentinel_core 0 l ltac:(lia) ltac:(done) ltac:(lia)) as (s1 & Hr1 & Hc1 & [He1 Hq1] & Hld).
  { apply core_append; [done|done|lia|done]. }
  apply core_join in Hc1. rewrite Z.add_0_l, El in Hc1. rewrite <- !app_assoc in Hc1. cbn [app] in Hc1.
  destruct (region_ends _ _ _ _ _ _ _ lr 16 End [(d - 16, Gap); (16, End)] (startPtr - 16) Hc1)
    as (_ & Hend1 & _ & _ & Hdec1 & _); [by rewrite <- app_assoc|done|rewrite total_app; cbn [total]; lia|].
  assert (HPr : forall y, heap_base + total l1 + 8 <= y < heap_base + total l1 + 12 -> P y).
  { intros y Hy. apply Ho. exists (heap_base + total l1), size, (Root next startPtr). rewrite El, <- app_assoc.
    split; [apply mid_in|]. split; [done|]. split; [lia|done]. }
  apply (retarget_core _ _ _ _ _ endPtr) in Hc1; [|pose proof (brk_range s); unfold PAGE in *; lia|done].
  set (m2 := store _ _ endPtr) in Hc1.
  replace (l1 ++ (size, Root next endPtr) :: l2 ++ [(16, End); (d - 16, Gap); (16, End)]) with
    (la ++ (p, kp) :: (16, End) :: (d - 16, Gap) :: [(16, End)]) in Hc1.
  2:{ transitivity (lr' ++ [(16, End); (d - 16, Gap); (16, End)]); [|by rewrite <- app_assoc].
      rewrite Ela. by rewrite <- app_assoc. }
  destruct (region_ends _ _ _ _ _ _ _ la p kp _ A Hc1 eq_refl) as (_ & Hend2 & _ & _ & Hdec & _);
    [by intros ->|done|].
  cbn [with_mem hmem] in Hend2. unfold m2 in Hend2. rewrite load_store_other in Hend2 by (unfold END_PTR; lia).
  exists (with_mem s1 m2). split; [|split; [done|split; [done|]]].
  - replace (la ++ (p, kp) :: (16, End) :: (d - 16, Gap) :: [(16, End)]) with
      ((la ++ [(p, kp)]) ++ (16, End) :: (d - 16, Gap) :: [(16, End)]) in Hc1 by (by rewrite <- app_assoc).
    apply core_forget in Hc1; [|done]. apply core_join in Hc1. rewrite <- app_assoc in Hc1.
    by replace (16 + (d - 16)) with d in Hc1 by lia.
  - intros r s' Hrun. unfold claim_block. mnext_by Hr1. mnext. rewrite Hq1.
    etransitivity; [eapply bind_Ret, newest_end; [done|]|].
    { intros a Ha. apply Hld. unfold SIZEOF_REGION. lia. }
    cbn beta. replace (listOfAllRegions s =? 0) with false by (symmetry; by apply Z.eqb_neq).
    rewrite <- Htop, Z.eqb_refl. unfold prev_region. mnext.
    replace (startPtr - 4) with (startPtr - 16 + 16 - 4) by lia. rewrite Hend1, Hdec1.
    mnext. replace (startPtr - 16 - 4) with (A + p - 4) by lia. rewrite Hend2, Hdec.
    replace (startPtr - 16 - p) with A by lia. mnext. rewrite Ea. exact Hrun.
Qed.

(** The last region of the block grows if it is free; or the old end becomes
    part of a new one. *)
Definition longer_end (l0 : layout) (f : Z) : Prop :=
  (kp = Free /\ l0 = la /\ f = p + d) \/ (kp <> Free /\ l0 = la ++ [(p, kp)] /\ f = d).

Lemma longer_core : exists s' l0 f L', claim_block freeRegionBuckets startPtr endPtr s = Ret (true, s') /\
  core s' (l0 ++ [(f, Free); (16, End)]) L' /\ henv s' = henv s /\
  listOfAllRegions s' = listOfAllRegions s /\ longer_end l0 f.
Proof.
  destruct longer_start as (s2 & Hc2 & He2 & Hl2' & Hrun). destruct prev_at as [HA _].
  pose proof Hat as [_ _ _ Ho].
  destruct (region_ends _ _ _ _ _ _ _ la p kp _ A Hc2 eq_refl) as (Hw1 & Hw2 & _ & Hp16 & _ & Hfree);
    [by intros ->|done|].
  assert (HPend : forall y, startPtr - 16 <= y < startPtr -> P y).
  { intros y Hy. apply Ho. exists (startPtr - 16), 16, End. rewrite El.
    split; [|split; [done|split; [lia|done]]].
    replace (startPtr - 16) with (heap_base + total lr) by (rewrite total_app; cbn [total]; lia). apply mid_in. }
  assert (Hfr : region_is_free A s2 = Ret (bool_decide (kp = Free), s2)).
  { unfold region_is_free. etransitivity; [eapply bind_Ret; unfold region_ceiling_size; mnext; reflexivity|].
    by rewrite Hw1, Hw2, Hfree. }
  destruct (decide (kp = Free)) as [Ek|Ek].
  - pose proof Hc2 as Hc2'. rewrite Ek in Hc2'.
    destruct (unlink_core _ _ _ _ _ _ _ _ _ Hc2') as (s3 & L3 & Hr3 & Hc3 & [He3 Hq3] & _).
    apply core_join in Hc3.
    assert (HPf : forall y, A <= y < A + p -> P y).
    { intros y Hy. rewrite Ek in Hc2. apply (core_frees _ _ _ _ _ _ _ Hc2 A p y); [apply mid_in|done]. }
    destruct (claim_free_core _ _ _ _ A Hc3) as (s4 & L4 & Hr4 & [He4 Hq4] & Hc4); [lia|done| | |].
    { unfold SIZEOF_REGION. lia. }
    { intros y Hy. destruct (Z.lt_ge_cases y (A + p)); [apply HPf; lia|].
      destruct (Z.lt_ge_cases y startPtr); [apply HPend; lia|apply HP; unfold SIZEOF_REGION in *; lia]. }
    exists s4, la, (p + d), L4. split; [apply Hrun|].
    + mnext_by Hfr. rewrite bool_decide_eq_true_2 by done. mnext_by Hr3. exact Hr4.
    + split; [done|]. split; [congruence|]. split; [congruence|]. by left.
  - replace (la ++ (p, kp) :: (d, Gap) :: [(16, End)]) with ((la ++ [(p, kp)]) ++ [(d, Gap); (16, End)]) in Hc2
      by (by rewrite <- app_assoc).
    destruct (claim_free_core _ _ _ _ (startPtr - 16) Hc2) as (s4 & L4 & Hr4 & [He4 Hq4] & Hc4).
    { lia. } { rewrite total_app. cbn [total]. lia. } { unfold SIZEOF_REGION. lia. }
    { intros y Hy. destruct (Z.lt_ge_cases y startPtr); [apply HPend; lia|apply HP; unfold SIZEOF_REGION in *; lia]. }
    exists s4, (la ++ [(p, kp)]), d, L4. split; [apply Hrun|].
    + mnext_by Hfr. rewrite bool_decide_eq_false_2 by done. exact Hr4.
    + split; [done|]. split; [congruence|]. split; [congruence|]. by right.
Qed.

Lemma retarget_in b sz k : (b, sz, k) ∈ regs lr' ->
  exists k', (b, sz, k') ∈ regs l /\ (k' = k \/ exists e, k = Root next e /\ k' = Root next startPtr).
Proof.
  rewrite regs_mid, elem_mid. cbn [fst snd]. intros Hb.
  assert (Hin : forall k', (b, sz, k') = (heap_base + total l1, size, Root next startPtr) \/
    (b, sz, k') ∈ regs l1 ++ regions (heap_base + total l1 + size) l2 -> (b, sz, k') ∈ regs l).
  { intros k' Hk. rewrite El, (regions_app _ lr), elem_of_app, regs_mid, elem_mid. by left. }
  destruct Hb as [[= -> -> ->]|Hb].
  - exists (Root next startPtr). split; [by apply Hin; left|right; by exists endPtr].
  - exists k. split; [by apply Hin; right|by left].
Qed.

Lemma retarget_used b sz : (b, sz, Used) ∈ regs l -> (b, sz, Used) ∈ regs lr'.
Proof.
  rewrite El, (regions_app _ lr), elem_of_app. cbn [regions]. rewrite elem_of_cons, elem_of_nil, !regs_mid, !elem_mid.
  cbn [fst snd]. naive_solver.
Qed.

(** The regions of the longer block. *)
Lemma longer_in l0 f b sz k : longer_end l0 f -> (b, sz, k) ∈ regs (l0 ++ [(f, Free); (16, End)]) ->
  (b, sz, k) ∈ regs lr' \/ (k = Free /\ b = heap_base + total l0 /\ b + sz = fin) \/ (k = End /\ b = fin /\ sz = 16).
Proof.
  destruct prev_at as [HA _]. intros Hf. rewrite regions_app, elem_of_app. cbn [regions].
  rewrite !elem_of_cons, elem_of_nil, Ela, regions_app, elem_of_app. cbn [regions]. unfold SIZEOF_REGION.
  destruct Hf as [(Ek & -> & ->)|(Ek & -> & ->)].
  - intros [?|[[= -> -> ->]|[[= -> -> ->]|[]]]]; [by left; left|right; left; split; [done|lia]|right; right; split; [done|lia]].
  - rewrite regions_app, elem_of_app, total_app. cbn [regions total].
    intros [?|[[= -> -> ->]|[[= -> -> ->]|[]]]]; [by left|right; left; split; [done|lia]|right; right; split; [done|lia]].
Qed.

Lemma last_region_free : last_free l -> kp = Free.
Proof.
  intros (l0 & f & E). rewrite El in E.
  assert (E' : lr = l0 ++ [(f, Free)]).
  { apply (app_inj_tail_iff _ _ (16, End) (16, End)). rewrite E, <- app_assoc. done. }
  destruct l2 as [|r l2' _] using rev_ind; [by apply app_inj_tail in E' as [_ [=]]|].
  rewrite app_comm_cons, app_assoc in E'. apply app_inj_tail in E' as [_ ->].
  rewrite app_comm_cons, app_assoc in Ela. by apply app_inj_tail in Ela as [_ [= _ <-]].
Qed.

Lemma longer_at s' l0 f L' : core s' (l0 ++ [(f, Free); (16, End)]) L' ->
  listOfAllRegions s' = listOfAllRegions s -> longer_end l0 f ->
  heap_at s' (l0 ++ [(f, Free); (16, End)]) L' /\ heap_base + total (l0 ++ [(f, Free); (16, End)]) = endPtr.
Proof.
  intros Hc Hls Hf. destruct prev_at as [HA Htl]. pose proof Hat as [_ _ _ Ho].
  assert (Htot : heap_base + total (l0 ++ [(f, Free); (16, End)]) = endPtr).
  { rewrite total_app. destruct Hf as [(_ & -> & ->)|(_ & -> & ->)]; rewrite ?total_app; cbn [total]; lia. }
  assert (Hnew : newest heap_base lr' (0, heap_base) = (listOfAllRegions s, endPtr)).
  { rewrite newest_app. cbn [newest]. by rewrite Hl2, Ea. }
  split; [split|done]; [done| | |].
  - destruct Hf as [(Ek & -> & ->)|(Ek & -> & ->)].
    + rewrite chained_app, <- Ek, Hla, Ek. done.
    + rewrite chained_app, path_snoc, Hla. by destruct kp.
  - rewrite Htot, Hls, <- Hnew, Ela, newest_app. destruct Hf as [(Ek & -> & ->)|(Ek & -> & ->)].
    + rewrite newest_app, Ek. done.
    + done.
  - intros x (b & sz & k & Hb & Hk & Hx & Hu).
    assert (Hnew' : startPtr - 16 <= x < endPtr -> P x).
    { intros Hx'. destruct (Z.lt_ge_cases x startPtr); [|apply HP; lia]. apply Ho.
      exists (startPtr - 16), 16, End. rewrite El. split; [|split; [done|split; [lia|done]]].
      replace (startPtr - 16) with (heap_base + total lr) by (rewrite total_app; cbn [total]; lia). apply mid_in. }
    assert (Hold' : forall b sz k, (b, sz, k) ∈ regs lr' -> k <> Gap -> b <= x < b + sz ->
      (k = Used -> x < b + 4 \/ b + sz - 4 <= x) -> P x).
    { intros b' sz' k0 Hb' Hk0 Hx' Hu'. destruct (retarget_in _ _ _ Hb') as (k' & Hin & Hk'). apply Ho.
      exists b', sz', k'. split; [done|]. destruct Hk' as [->|(e & -> & ->)]; done. }
    destruct (longer_in _ _ _ _ _ Hf Hb) as [Hb'|[(-> & -> & Hfin)|(-> & -> & ->)]].
    + by eapply Hold'.
    + destruct Hf as [(Ek & -> & ->)|(Ek & -> & ->)].
      * destruct (Z.lt_ge_cases x (A + p)); [|apply Hnew'; unfold SIZEOF_REGION in *; lia].
        eapply (Hold' A p Free); [rewrite Ela, Ek; apply mid_in|done|lia|done].
      * apply Hnew'. rewrite total_app in Hx, Hfin. cbn [total] in Hx, Hfin. unfold SIZEOF_REGION in *. lia.
    + apply Hnew'. unfold SIZEOF_REGION in *. lia.
Qed.

Lemma longer_clients l0 f : longer_end l0 f -> startPtr + 16 <= X \/ last_free l ->
  let l' := l0 ++ [(f, Free); (16, End)] in same_live l l' /\ frees_below heap_base l' X.
Proof.
  intros Hf HX2. destruct prev_at as [HA Htl]. split.
  - intros q c. unfold live. split.
    + intros Hq. destruct (longer_in _ _ _ _ _ Hf Hq) as [Hb|[(? & _)|(? & _)]]; [|done|done].
      destruct (retarget_in _ _ _ Hb) as (k' & Hin & [->|(e & [=] & _)]). done.
    + intros Hq%retarget_used. rewrite Ela, regions_app, elem_of_app in Hq. rewrite regions_app, elem_of_app.
      destruct Hf as [(Ek & -> & ->)|(Ek & -> & ->)].
      * destruct Hq as [?|Hq]; [by left|]. rewrite Ek in Hq. cbn [regions] in Hq.
        by apply elem_of_cons in Hq as [[=]|?%elem_of_nil].
      * left. by rewrite regions_app, elem_of_app.
  - assert (Hold' : forall a g, (a, g, Free) ∈ regs lr' -> a <= X).
    { intros a g Ha. destruct (retarget_in _ _ _ Ha) as (k' & Hin & [->|(e & [=] & _)]). by apply (HX a g). }
    intros a g Ha. destruct (longer_in _ _ _ _ _ Hf Ha) as [Hb|[(_ & -> & Hfin)|(? & _)]]; [by apply (Hold' a g)| |done].
    destruct Hf as [(Ek & -> & ->)|(Ek & -> & ->)].
    + apply (Hold' A p). rewrite Ela, Ek. apply mid_in.
    + rewrite total_app. cbn [total]. destruct HX2 as [HX2|HX2%last_region_free]; [lia|done].
Qed.
End Longer.

(** Claimed memory becomes free memory of the heap. *)
Lemma claim_block_Ret : startPtr + 16 <= X \/ (last_free l /\ heap_base + total l = startPtr) ->
  exists s' l' L', claim_block freeRegionBuckets startPtr endPtr s = Ret (true, s') /\ heap_at s' l' L' /\
    henv s' = henv s /\ same_live l l' /\ frees_below heap_base l' X /\ last_free l' /\
    heap_base + total l' = endPtr.
Proof.
  intros HX2. destruct (decide (listOfAllRegions s = 0 \/ startPtr <> heap_base + total l)) as [Hnew|Hold].
  - apply (new_block_Ret Hnew). destruct HX2 as [?|[(l0 & f & E) Ht]]; [done|].
    destruct Hnew as [Hz|?]; [|done]. apply no_block in Hz.
    pose proof Hat as [[Hwf _ _ _ _ _ _] _ _ _]. rewrite E in Hz, Hwf.
    apply Forall_app in Hwf as [Hw0 [(_ & ? & _) _]%Forall_cons]. pose proof (total_nonneg _ Hw0).
    rewrite total_app in Hz. cbn [total fst] in *. lia.
  - assert (Hz : listOfAllRegions s <> 0) by tauto.
    assert (Ht : startPtr = heap_base + total l) by (destruct (decide (startPtr = heap_base + total l)); tauto).
    destruct (longer_root Hz Ht) as (l1 & size & next & l2 & El & Ea & Hl2 & Hs & Hp1 & Hp2 & Htt & Hpe).
    assert (Hpe' : path End (l1 ++ (size, Root next endPtr) :: l2) End = true) by (rewrite path_app in *; by rewrite (path_root _ _ _ _ next startPtr)).
    apply path_last in Hpe' as (la & p & kp & Ela & Hla & Hkp); [|done].
    destruct (longer_core Hz Ht l1 l2 la size next p kp El Ea Hs Hp2 Htt Ela Hla Hkp)
      as (s' & l0 & f & L' & Hr & Hc & He & Hls & Hf).
    destruct (longer_at Ht l1 l2 la size next p kp El Ea Hl2 Htt Ela Hla Hkp s' l0 f L' Hc Hls Hf) as [Hat' Hend'].
    destruct (longer_clients Hz Ht l1 l2 la size next p kp El Hl2 Hp2 Htt Ela Hla Hkp l0 f Hf) as [Hsl Hfb]; [tauto|].
    exists s', (l0 ++ [(f, Free); (16, End)]), L'. do 5 (split; [done|]). split; [by exists l0, f|done].
Qed.
End Block.
End Claim.

(** * [allocate_memory]: the searches, and claiming memory until one of them
    finds a region or the host refuses. *)

Section Memory.
Context {W : Type} `{WasmMemLaws W} `{!Below4GiB W}.
Context (freeRegionBuckets heap_base : Z) `{!Placed freeRegionBuckets heap_base}.

(** [sbrk] for a number of pages. *)
Lemma sbrk_pages k (e : env W) : 0 < k -> exists e',
  (sbrk (k * PAGE) e = Ret (2 ^ 32 - 1, e') /\ errno e' = ENOMEM /\ memory_size (world e') = memory_size (world e)) \/
  (sbrk (k * PAGE) e = Ret (memory_size (world e) * PAGE, e') /\
    memory_size (world e') = memory_size (world e) + k).
Proof.
  intros Hk. unfold sbrk, PAGE. rewrite (bind_Ret get _ e e e eq_refl).
  replace (k * 65536 =? 0) with false by lia. rewrite Z.rem_mul, Z.quot_mul by lia.
  replace (k * 65536 <? 0) with false by lia. destruct (memory_grow k (world e)) as [old w'] eqn:Hg.
  assert (Hh : host (memory_grow k) e = Ret (old, Env (errno e) w')) by (unfold host; by rewrite Hg).
  cbn [Z.eqb negb]. apply memory_grow_spec in Hg as (_ & Hcase); [|done].
  pose proof (memory_size_below (world e)) as Hm. destruct Hcase as [[-> Hw]|[-> Hw]].
  - exists (Env (errno e) w'). right. split; [|done]. mnext_by Hh.
    replace (memory_size (world e) =? 2 ^ 32 - 1) with false by lia. by rewrite w32_small by lia.
  - exists (Env ENOMEM w'). left. split; [|done]. mnext_by Hh. done.
Qed.

Lemma round_pages n : 0 < n < 2 ^ 32 - 65536 ->
  exists k, Z.land (w32 (n + (PAGE_SIZE - 1))) (2 ^ 32 - PAGE_SIZE) = k * PAGE /\ 0 < k /\ n <= k * PAGE < n + PAGE.
Proof.
  intros Hn. unfold PAGE_SIZE, PAGE in *. rewrite w32_small by lia. set (y := n + (65536 - 1)).
  assert (E : Z.land y (2 ^ 32 - 65536) = y - y mod 2 ^ 16).
  { rewrite <- (land_lnot_low y 16) by lia. change (2 ^ 32 - 65536) with (Z.land (Z.ones 32) (Z.lnot (2 ^ 16 - 1))).
    rewrite Z.land_assoc. f_equal. rewrite Z.land_ones by lia. apply Z.mod_small. lia. }
  rewrite E. exists (y / 65536). pose proof (Z.div_mod y 65536). pose proof (Z.mod_pos_bound y 65536).
  change (2 ^ 16) with 65536. lia.
Qed.

Context (P : Z -> Prop) (m0 : Z -> Z).
Abbreviation heap_at := (heap_at freeRegionBuckets heap_base P m0).
Abbreviation same_live := (same_live heap_base).
Abbreviation low := (low heap_base).

(** Memory the allocator has not claimed yet. *)
Definition unclaimed (s : heap W) (y : Z) : Prop :=
  brk s <= y \/ (listOfAllRegions s = 0 /\ heap_base <= y).

Lemma at_world s l L e : memory_size (world (henv s)) <= memory_size (world e) -> heap_at s l L ->
  heap_at (Heap (hmem s) (listOfAllRegions s) (freeRegionBucketsUsed s) e) l L.
Proof. intros Hm [Hc Hch Hr Ho]. split; try done. by apply core_world. Qed.

(** A claim that succeeds makes memory larger, or is the first one. *)
Definition claimed (X : Z) (s : heap W) (l : layout) (L : Z -> list Z) (ok : bool) (s' : heap W) : Prop :=
  if ok then
    exists l' L', heap_at s' l' L' /\ same_live l l' /\ low X s' l' /\ listOfAllRegions s' <> 0 /\
      (memory_size (world (henv s)) < memory_size (world (henv s')) \/
       (listOfAllRegions s = 0 /\ memory_size (world (henv s)) = memory_size (world (henv s'))))
  else heap_at s' l L /\ errno (henv s') = ENOMEM /\ memory_size (world (henv s)) = memory_size (world (henv s')).

Lemma root_named s l L : heap_at s l L -> last_free l -> listOfAllRegions s <> 0.
Proof.
  intros Hat (l0 & f & E) Hz. apply (no_block _ _ _ _ _ _ _ Hat) in Hz.
  pose proof Hat as [[Hwf _ _ _ _ _ _] _ _ _]. rewrite E in Hz, Hwf.
  apply Forall_app in Hwf as [Hw0 [(_ & ? & _) _]%Forall_cons]. pose proof (total_nonneg _ Hw0).
  rewrite total_app in Hz. cbn [total fst] in *. lia.
Qed.

Section Claims.
Context (s : heap W) (l : layout) (L : Z -> list Z) (X n : Z).
Context (Hat : heap_at s l L) (Hlow : low X s l) (HP : forall y, unclaimed s y -> P y).
Context (Hn : 48 <= n < 2 ^ 31 - 65536).

Lemma claim_pages_Ret : exists ok s', claim_pages freeRegionBuckets n s = Ret (ok, s') /\ claimed X s l L ok s'.
Proof.
  destruct (round_pages n ltac:(lia)) as (k & Ek & Hk & Hnk). unfold claim_pages. rewrite Ek.
  rewrite s32_small by (unfold PAGE in *; lia). pose proof (memory_size_below (world (henv s))) as Hm.
  destruct (sbrk_pages k (henv s) Hk) as (e & [(Hs & He & Hw)|(Hs & Hw)]).
  - exists false, (Heap (hmem s) (listOfAllRegions s) (freeRegionBucketsUsed s) e). split.
    + etransitivity; [eapply bind_Ret; unfold hcall; rewrite Hs; reflexivity|]. done.
    + split; [apply at_world; [lia|done]|done].
  - pose proof (memory_size_below (world e)) as Hm'.
    set (s1 := Heap (hmem s) (listOfAllRegions s) (freeRegionBucketsUsed s) e).
    assert (Hat1 : heap_at s1 l L) by (apply at_world; [lia|done]).
    assert (Hb : brk s = memory_size (world (henv s)) * PAGE) by done.
    assert (Hb1 : brk s + k * PAGE = brk s1) by (unfold brk, PAGE, s1; cbn [henv]; lia).
    pose proof (core_top _ _ _ _ _ _ _ (at_core _ _ _ _ _ _ _ Hat)) as Htop. destruct Hlow as [Hfb Hl2].
    destruct (claim_block_Ret _ _ _ _ s1 l L (brk s) (brk s + k * PAGE) X Hat1 Hb1 Htop) as
      (s' & l' & L' & Hr & Hat' & He' & Hsl & Hfb' & Hlf & Hend).
    { rewrite Hb. unfold PAGE. replace (memory_size _ * 65536) with (memory_size (world (henv s)) * 4096 * 16) by lia.
      apply Z.mod_mul. lia. }
    { replace (brk s + k * PAGE - brk s) with (k * 4096 * 16) by (unfold PAGE; lia). apply Z.mod_mul. lia. }
    { unfold PAGE in *. lia. }
    { intros y Hy. apply HP. left. lia. }
    { done. }
    { destruct Hl2 as [?|[? ?]]; [by left|by right]. }
    exists true, s'. split.
    + etransitivity; [eapply bind_Ret; unfold hcall; rewrite Hs; reflexivity|]. cbn beta. rewrite <- Hb.
      replace (brk s =? 2 ^ 32 - 1) with false by (unfold PAGE in *; lia). exact Hr.
    + exists l', L'. split; [done|]. split; [done|]. assert (brk s' = brk s1) by (unfold brk; by rewrite He').
      split; [split; [done|]|]; [right; split; [done|lia]|]. split; [by apply (root_named s' l' L')|].
      left. rewrite He'. cbn [henv s1]. lia.
Qed.

Lemma claim_more_memory_Ret : exists ok s',
  claim_more_memory freeRegionBuckets heap_base n s = Ret (ok, s') /\ claimed X s l L ok s'.
Proof.
  unfold claim_more_memory. destruct (Z.eqb_spec (listOfAllRegions s) 0) as [Hz|Hz].
  2:{ destruct claim_pages_Ret as (ok & s' & Hr & Hcl). exists ok, s'. split; [|done].
      mnext. apply Z.eqb_neq in Hz. rewrite Hz. exact Hr. }
  pose proof (no_block _ _ _ _ _ _ _ Hat Hz) as Ht.
  pose proof (core_top _ _ _ _ _ _ _ (at_core _ _ _ _ _ _ _ Hat)) as Htop.
  assert (Hb : brk s = memory_size (world (henv s)) * PAGE) by done. pose proof (brk_range s) as Hbr.
  assert (Hs0 : hcall (sbrk 0) s = Ret (brk s, s)).
  { unfold hcall, sbrk. rewrite (bind_Ret get _ _ _ _ eq_refl). cbn [Z.eqb].
    unfold mret, M_ret. rewrite <- Hb, w32_small by (unfold PAGE in *; lia). by destruct s. }
  pose proof (buckets_pos (heap_base := heap_base)) as Hbp. pose proof buckets_below as Hbb.
  unfold SIZEOF_REGION, PAGE in *. assert (Hw : w32 (brk s - heap_base) = brk s - heap_base) by (apply w32_small; lia).
  destruct (Z.leb_spec n (brk s - heap_base)) as [Hle|Hgt].
  - pose proof (heap_base_aligned (freeRegionBuckets := freeRegionBuckets)) as Hal. destruct Hlow as [Hfb Hl2].
    destruct (claim_block_Ret _ _ _ _ s l L heap_base (brk s) X Hat eq_refl) as
      (s' & l' & L' & Hr & Hat' & He' & Hsl & Hfb' & Hlf & Hend).
    { lia. } { done. }
    { pose proof (Z.div_mod heap_base 16). rewrite Hb.
      replace (_ - heap_base) with ((memory_size (world (henv s)) * 4096 - heap_base / 16) * 16) by lia. apply Z.mod_mul. lia. }
    { lia. } { intros y Hy. apply HP. right. split; [done|lia]. } { done. }
    { destruct Hl2 as [?|[Hf ?]]; [left; lia|]. by destruct (root_named s l L Hat Hf). }
    exists true, s'. split; [mnext; rewrite Hz; mnext_by Hs0; rewrite Hw; replace (n <=? brk s - heap_base) with true by lia; exact Hr|].
    exists l', L'. split; [done|]. split; [done|]. assert (Eb : brk s' = brk s) by (unfold brk; by rewrite He').
    split; [split; [done|right; split; [done|lia]]|]. split; [by apply (root_named s' l' L')|]. right. by rewrite He'.
  - destruct claim_pages_Ret as (ok & s' & Hr & Hcl). exists ok, s'. split; [|done].
    mnext. rewrite Hz. mnext_by Hs0. rewrite Hw. replace (n <=? brk s - heap_base) with false by lia. exact Hr.
Qed.
End Claims.

(** ** The allocation *)
Lemma granted_same l l1 l' p n : same_live l l1 -> granted heap_base P l1 l' p n -> granted heap_base P l l' p n.
Proof.
  intros Hs (Hk & Hp & Hf & Hb & HPp). split; [|split; [done|split; [|split; [|done]]]].
  - intros q c Hq. by apply Hk, Hs.
  - intros c Hq. by apply (Hf c), Hs.
  - intros q c' Hq. destruct (Hb q c' Hq) as [?|(c & ? & ?)]; [by left|right]. exists c. split; [done|by apply Hs].
Qed.

(** What an allocation ends with. *)
Definition allocated (s s' : heap W) (l : layout) (al n p : Z) : Prop :=
  memory_size (world (henv s)) <= memory_size (world (henv s')) /\
  ((p = 0 /\ errno (henv s') = ENOMEM /\ exists l' L', heap_at s' l' L' /\ same_live l l') \/
   (p <> 0 /\ p mod al = 0 /\ exists l' L', heap_at s' l' L' /\ granted heap_base P l l' p n)).

Lemma served_allocated s s' l al n p : served freeRegionBuckets heap_base P m0 s s' l al n p -> p <> 0 ->
  allocated s s' l al n p.
Proof. intros [[He _] [[? _]|Hs]] Hp; [done|]. split; [by rewrite He|]. by right. Qed.

Lemma allocated_after s s1 s' l l1 al n p : memory_size (world (henv s)) <= memory_size (world (henv s1)) ->
  same_live l l1 -> allocated s1 s' l1 al n p -> allocated s s' l al n p.
Proof.
  intros Hm Hsl [Hm' Hc]. split; [lia|]. destruct Hc as [(-> & He & l' & L' & Hat & Hs)|(Hp & Hal & l' & L' & Hat & Hg)].
  - left. split; [done|]. split; [done|]. exists l', L'. split; [done|]. intros q c. rewrite (Hs q c). apply Hsl.
  - right. split; [done|]. split; [done|]. exists l', L'. split; [done|]. by eapply granted_same.
Qed.

Lemma validated al n : alignment_ok al -> 8 <= n <= MAX_ALLOC_SIZE -> n mod 4 = 0 ->
  IS_POWER_OF_2 al = true /\ validate_alloc_alignment al = al /\ validate_alloc_size n = n.
Proof.
  intros (k & Hk & ->) Hn Hn4. unfold MAX_ALLOC_SIZE in Hn. split; [|split].
  - assert (Hin : k ∈ seqZ 4 13) by (apply elem_of_seqZ; lia). clear Hk.
    repeat (apply elem_of_cons in Hin as [->|Hin]; [reflexivity|]). by apply elem_of_nil in Hin.
  - unfold validate_alloc_alignment, MALLOC_ALIGNMENT. change 16 with (2 ^ 4).
    pose proof (Z.pow_le_mono_r 2 4 k). lia.
  - unfold validate_alloc_size, SMALLEST_ALLOCATION_SIZE. destruct (Z.ltb_spec 8 n); [|lia].
    change 4 with (2 ^ 2). destruct (align_up n 2 ltac:(lia) ltac:(lia) ltac:(lia)) as [Hr Hm].
    change (2 ^ 2) with 4 in *. pose proof (Z.div_mod (ALIGN_UP n 4) 4). pose proof (Z.div_mod n 4). lia.
Qed.

(** The search of the largest bucket: a block, or where a later search goes
    on. *)
Definition stopped (s : heap W) (l : layout) (x h : Z) : Prop := exists L, heap_at s l L /\
  (x = 0 \/ exists i more, 0 <= i < 64 /\ h = bucket_head freeRegionBuckets i /\ walked freeRegionBuckets L i x more).

Section Search.
Context (l : layout) (al n X : Z).
Context (Hal : alignment_ok al) (Hn : 8 <= n) (Hn4 : n mod 4 = 0).
Context (HX : frees_below heap_base l X) (Hlim : X + 4 + al + n < 2 ^ 32).

Lemma search_largest_Ret s L : heap_at s l L -> exists p x h s',
  search_largest freeRegionBuckets al n s = Ret ((p, x, h), s') /\
  served freeRegionBuckets heap_base P m0 s s' l al n p /\ (p = 0 -> quiet s s' /\ stopped s' l x h).
Proof.
  intros Hat. pose proof (lists_used _ _ _ _ _ _ (core_lists _ _ _ _ _ _ _ (at_core _ _ _ _ _ _ _ Hat))) as Hu.
  unfold search_largest. set (u := freeRegionBucketsUsed s) in *. set (h := bucket_head freeRegionBuckets (Z.log2 u)).
  destruct (Z.eqb_spec u 0) as [E|E].
  - exists 0, 0, h, s. split; [mnext; fold u; unfold h; rewrite E; reflexivity|].
    split; [split; [done|left; eauto]|]. intros _. split; [done|]. exists L. split; [done|by left].
  - assert (Hi : 0 <= Z.log2 u < 64) by (split; [apply Z.log2_nonneg|apply Z.log2_lt_pow2; lia]).
    pose proof (walked_start _ _ _ _ _ s L (Z.log2 u) Hat Hi) as Hw. fold h in Hw.
    set (x := load (hmem s) (h + NEXT)) in *. apply Z.eqb_neq in E as E'.
    destruct (Z.eqb_spec (Z.shiftr u 30) 0) as [E3|E3].
    + exists 0, x, h, s.
      split; [mnext; fold u; rewrite E'; cbn [negb]; mnext; fold h x; rewrite E3; reflexivity|].
      split; [split; [done|left; eauto]|]. intros _. split; [done|]. exists L. split; [done|]. right. eauto 6.
    + destruct (try_regions_Ret _ _ _ _ _ al n X Hal Hn Hn4 HX Hlim 99 s L (Z.log2 u) x _ Hat Hi Hw)
        as (p & x' & s' & Hr & Hs & Hp).
      exists p, x', h, s'. apply Z.eqb_neq in E3.
      split; [mnext; fold u; rewrite E'; cbn [negb]; mnext; fold h x; rewrite E3; cbn [negb]; mnext_by Hr; reflexivity|].
      split; [done|]. intros Hp0. destruct (Hp Hp0) as [-> (more & Hw')]. split; [done|]. exists L.
      split; [done|]. right. eauto 6.
Qed.
End Search.

(** After memory could not be claimed: the search goes on where it stopped. *)
Lemma resume_Ret fuel s l al n X x h : alignment_ok al -> 8 <= n -> n mod 4 = 0 ->
  frees_below heap_base l X -> X + 4 + al + n < 2 ^ 32 -> 2 ^ 28 <= Z.of_nat fuel ->
  errno (henv s) = ENOMEM -> stopped s l x h -> exists p s',
    (if x =? 0 then mret 0 else all_regions freeRegionBuckets fuel h x al n) s = Ret (p, s') /\
    allocated s s' l al n p.
Proof.
  intros Hal Hn Hn4 HX Hlim Hf He (L & Hat & Hx).
  assert (Hnone : forall s', quiet s s' -> (exists L', heap_at s' l L') -> allocated s s' l al n 0).
  { intros s' [Hq _] (L' & Hat'). split; [by rewrite Hq|]. left. split; [done|]. split; [by rewrite Hq|].
    exists l, L'. split; [done|]. by intros ??. }
  destruct (Z.eqb_spec x 0) as [->|Hne]; [exists 0, s; split; [done|]; apply Hnone; [done|eauto]|].
  destruct Hx as [?|(i & more & Hi & -> & Hw)]; [done|].
  destruct (all_regions_Ret _ _ _ _ l al n X Hal Hn Hn4 HX Hlim fuel s L i x more Hat Hi Hw) as (p & s' & Hr & Hs).
  { destruct Hw as [(la & HL) _]. pose proof (list_short _ _ _ _ s l L i (at_core _ _ _ _ _ _ _ Hat)) as Hlen.
    rewrite HL, length_app in Hlen. lia. }
  exists p, s'. split; [done|]. destruct (decide (p = 0)) as [->|Hp]; [|by apply served_allocated].
  destruct Hs as [Hq [[_ HL]|[? _]]]; [by apply Hnone|done].
Qed.

(** A level of the recursion for each claim: there are at most as many as pages
    left, and the first. *)
Definition levels (s : heap W) : Z :=
  65536 - memory_size (world (henv s)) + (if listOfAllRegions s =? 0 then 1 else 0).

(** The rest of a level after the search by buckets gave [ptr]. *)
Definition allocate_round (depth fuel : nat) (al n ptr : Z) : M (heap W) Z :=
  if negb (ptr =? 0) then mret ptr else
  '(ptr, freeRegion, largestBucket) ← search_largest freeRegionBuckets al n;
  if negb (ptr =? 0) then mret ptr else
  success ← claim_more_memory freeRegionBuckets heap_base (w32 (n + SIZEOF_REGION * 3));
  if (success : bool) then allocate_memory freeRegionBuckets heap_base depth fuel al n
  else if freeRegion =? 0 then mret 0
  else all_regions freeRegionBuckets fuel largestBucket freeRegion al n.

Lemma allocate_Ret depth fuel al n X : alignment_ok al -> 8 <= n < 2 ^ 31 - 131072 -> n mod 4 = 0 ->
  X + 4 + al + n < 2 ^ 32 -> 2 ^ 28 <= Z.of_nat fuel ->
  forall s l L, heap_at s l L -> low X s l -> (forall y, unclaimed s y -> P y) -> levels s <= Z.of_nat depth ->
  exists p s', allocate_memory freeRegionBuckets heap_base depth fuel al n s = Ret (p, s') /\ allocated s s' l al n p.
Proof.
  intros Hal Hn Hn4 Hlim Hf. destruct (validated al n Hal) as (Hv1 & Hv2 & Hv3); [unfold MAX_ALLOC_SIZE; lia|done|].
  induction depth as [|depth IH]; intros s l L Hat Hlow HP Hd; pose proof (memory_size_below (world (henv s))) as Hm.
  { unfold levels in Hd. destruct (listOfAllRegions s =? 0); lia. }
  pose proof Hlow as [HX _].
  set (b := compute_free_list_bucket n). assert (Hb : 0 <= b < 64) by (apply bucket_range; lia).
  set (u := freeRegionBucketsUsed s).
  pose proof (lists_used _ _ _ _ _ _ (core_lists _ _ _ _ _ _ _ (at_core _ _ _ _ _ _ _ Hat))) as Hu. fold u in Hu.
  assert (Hmask : 0 <= Z.shiftr u b < 2 ^ (64 - b)).
  { rewrite Z.shiftr_div_pow2 by lia. split; [apply Z.div_pos; lia|]. apply Z.div_lt_upper_bound; [lia|].
    rewrite <- Z.pow_add_r by lia. replace (b + (64 - b)) with 64 by lia. lia. }
  destruct (bucket_loop_Ret _ _ _ _ l al n X Hal ltac:(lia) Hn4 HX Hlim 65 s L b (Z.shiftr u b) Hat ltac:(lia) Hmask)
    as (p1 & s1 & Hr1 & Hs1).
  { apply rounds_below. split; [lia|]. apply Z.lt_le_trans with (2 ^ (64 - b)); [lia|]. apply Z.pow_le_mono_r; lia. }
  assert (Hstart : allocate_memory freeRegionBuckets heap_base (S depth) fuel al n s =
    allocate_round depth fuel al n p1 s1).
  { cbn [allocate_memory]. rewrite Hv1, Hv2, Hv3.
    replace (MAX_ALLOC_SIZE <? n) with false by (unfold MAX_ALLOC_SIZE; lia). cbn [negb].
    mnext. mnext_by Hr1. done. }
  destruct (Z.eqb_spec p1 0) as [->|Hp1].
  2:{ exists p1, s1. apply Z.eqb_neq in Hp1 as Hp1'. split; [by rewrite Hstart; unfold allocate_round; rewrite Hp1'|].
      by apply served_allocated. }
  destruct Hs1 as [Hq1 [[_ (L1 & Hat1)]|[? _]]]; [|done].
  destruct (search_largest_Ret l al n X Hal ltac:(lia) Hn4 HX Hlim s1 L1 Hat1) as (p2 & x & h & s2 & Hr2 & Hs2 & Hp2).
  assert (Hmw : memory_size (world (henv s1)) = memory_size (world (henv s))) by (destruct Hq1 as [-> _]; done).
  assert (Hrefl : same_live l l) by (by intros ??).
  destruct (Z.eqb_spec p2 0) as [->|Hne].
  2:{ exists p2, s2. apply Z.eqb_neq in Hne as Hne'.
      split; [rewrite Hstart; unfold allocate_round; cbn [Z.eqb negb]; mnext_by Hr2; by rewrite Hne'|].
      apply (allocated_after s s1 s2 l l); [lia|done|]. by apply served_allocated. }
  destruct (Hp2 eq_refl) as [Hq2 Hst]. assert (Hq : quiet s s2) by (by transitivity s1).
  destruct Hst as (L2 & Hat2 & Hx). pose proof Hq as [He Hls].
  assert (Hlow2 : low X s2 l) by (unfold low, brk in *; by rewrite He).
  destruct (claim_more_memory_Ret s2 l L2 X (n + 48) Hat2 Hlow2) as (ok & s3 & Hr3 & Hcl).
  { intros y Hy. apply HP. unfold unclaimed, brk in *. by rewrite He, Hls in Hy. }
  { lia. }
  assert (Hrun : forall r, (if (ok : bool) then allocate_memory freeRegionBuckets heap_base depth fuel al n
      else if x =? 0 then mret 0 else all_regions freeRegionBuckets fuel h x al n) s3 = r ->
    allocate_memory freeRegionBuckets heap_base (S depth) fuel al n s = r).
  { intros r <-. rewrite Hstart. unfold allocate_round. cbn [Z.eqb negb]. mnext_by Hr2. cbn [Z.eqb negb]. unfold SIZEOF_REGION.
    rewrite w32_small by lia. replace (n + 16 * 3) with (n + 48) by lia. mnext_by Hr3. done. }
  assert (Hmem : memory_size (world (henv s)) <= memory_size (world (henv s3))).
  { rewrite <- He. destruct ok; [destruct Hcl as (? & ? & _ & _ & _ & _ & Hcl)|destruct Hcl as (_ & _ & Hcl)]; lia. }
  destruct ok.
  - destruct Hcl as (l3 & L3 & Hat3 & Hsl & Hlow3 & Hroot & Hgrow). rewrite He, Hls in Hgrow.
    destruct (IH s3 l3 L3 Hat3 Hlow3) as (p & s' & Hr & Hall).
    { intros y [Hy|[? _]]; [|done]. apply HP. left. unfold brk, PAGE in *. lia. }
    { unfold levels in *. apply Z.eqb_neq in Hroot. rewrite Hroot.
      destruct Hgrow as [Hgrow|[Hz Hgrow]]; [|apply Z.eqb_eq in Hz; rewrite Hz in Hd; lia].
      revert Hd. destruct (listOfAllRegions s =? 0); lia. }
    exists p, s'. split; [by apply Hrun|]. by apply (allocated_after s s3 s' l l3).
  - destruct Hcl as (Hat3 & Herr & Hm3).
    destruct (resume_Ret fuel s3 l al n X x h Hal ltac:(lia) Hn4 HX Hlim Hf Herr) as (p & s' & Hr & Hall).
    { by exists L2. }
    exists p, s'. split; [by apply Hrun|]. by apply (allocated_after s s3 s' l l).
Qed.
End Memory.
