(* ===== verification/EmmallocFree.v ===== *)
(** [free]: the region and its free neighbours become one free region. *)
From S2P Require Import Prelude.
From S2P Require Import Wasi.
From S2P Require Import Mman.
From S2P Require Import Emmalloc.
From S2P Require Import EmmallocHeap.
From S2P Require Import EmmallocCore.
From S2P Require Import EmmallocSteps.
From S2P Require Import EmmallocAlloc.

Section Freeing.
Context {W : Type} `{WasmMemLaws W} `{!Below4GiB W}.
Context (freeRegionBuckets heap_base : Z) `{!Placed freeRegionBuckets heap_base}.
Context (P : Z -> Prop) (m0 : Z -> Z).
Abbreviation core := (core freeRegionBuckets heap_base P m0).
Abbreviation heap_at := (heap_at freeRegionBuckets heap_base P m0).

(** A block given out has a region before it and one after it. *)
Lemma block_region s l L p c : heap_at s l L -> live heap_base l p c ->
  exists la q kq r kr lb, l = la ++ [(q, kq); (c + 8, Used); (r, kr)] ++ lb /\
    p = heap_base + total la + q + 4 /\ path End la kq = true /\ chained kr lb = true /\
    follows kq Used = true /\ follows Used kr = true.
Proof.
  intros [Hc Hch _ _] (l1 & l2 & -> & Ep)%elem_of_regions.
  rewrite chained_app in Hch. apply andb_prop in Hch as [Hp H2].
  apply path_last in Hp as (la & q & kq & -> & Hp & Hk); [|done].
  apply chained_head in H2 as (r & kr & lb & -> & Hr & Hlb); [|done].
  exists la, q, kq, r, kr, lb. rewrite <- app_assoc. rewrite total_app in Ep. cbn [total] in Ep.
  split; [done|]. split; [lia|]. done.
Qed.

(** A neighbour that is free is taken out of its list; another one stays. *)
Definition taken (k : kind) (size : Z) (g : Z) (rest : layout) : Prop :=
  (k = Free /\ g = size /\ rest = []) \/ (k <> Free /\ g = 0 /\ rest = [(size, k)]).

Lemma take_region s l1 size k l2 L : core s (l1 ++ (size, k) :: l2) L ->
  exists s' L' g rest,
    (when (bool_decide (k = Free)) (unlink_from_free_list (heap_base + total l1))) s = Ret (tt, s') /\
    core s' (l1 ++ (g, Gap) :: rest ++ l2) L' /\ core s' (l1 ++ rest ++ (g, Gap) :: l2) L' /\
    quiet s s' /\ taken k size g rest /\
    (k <> Gap -> load (hmem s') (heap_base + total l1) = size).
Proof.
  intros Hc. destruct (decide (k = Free)) as [->|Hk].
  - destruct (unlink_core _ _ _ _ _ _ _ _ _ Hc) as (s' & L' & Hr & Hc' & Hq & _ & [Hw _]).
    exists s', L', size, []. rewrite bool_decide_eq_true_2 by done. split; [done|]. split; [done|]. split; [done|].
    split; [done|]. split; [by left|done].
  - exists s, L, 0, [(size, k)]. rewrite bool_decide_eq_false_2 by done. split; [done|].
    split; [by apply core_zero|]. split.
    + rewrite app_assoc. apply core_zero. by rewrite <- app_assoc.
    + split; [done|]. split; [by right|]. intros Hg. by destruct (region_ends _ _ _ _ _ _ _ _ _ _ _ _ Hc eq_refl Hg eq_refl) as (? & _).
Qed.

Lemma taken_total k size g rest : taken k size g rest -> total rest + g = size.
Proof. intros [(_ & -> & ->)|(_ & -> & ->)]; cbn [total]; lia. Qed.

(** The layout around a region that became free. *)
Section Freed.
Context (la lb ra rb : layout) (q r sz ga gb : Z) (kq kr : kind).
Context (Hta : taken kq q ga ra) (Htb : taken kr r gb rb).
Abbreviation mid' := (ra ++ (ga + sz + gb, Free) :: rb).

Lemma freed_total : total mid' = total [(q, kq); (sz, Used); (r, kr)].
Proof. apply taken_total in Hta, Htb. rewrite total_app. cbn [total]. lia. Qed.

Lemma freed_newest a n : newest a mid' n = newest a [(q, kq); (sz, Used); (r, kr)] n.
Proof.
  destruct Hta as [(-> & -> & ->)|(Hq & -> & ->)], Htb as [(-> & -> & ->)|(Hr & -> & ->)];
    try destruct kq; try destruct kr; cbn [app newest]; rewrite ?Z.add_0_l, ?Z.add_0_r, ?Z.add_assoc; done.
Qed.

Lemma freed_chain : path End la kq = true -> chained kr lb = true -> follows kq Used = true -> follows Used kr = true ->
  chained End (la ++ mid' ++ lb) = true.
Proof.
  intros Hp Hlb Hq Hr.
  destruct Htb as [(-> & -> & ->)|(Hr' & -> & ->)]; destruct Hta as [(-> & -> & ->)|(Hq' & -> & ->)]; cbn [app].
  - rewrite chained_app, Hp. exact Hlb.
  - rewrite chained_app, Hp. cbn [chained]. rewrite Hlb. by destruct kq.
  - rewrite chained_app, Hp. cbn [chained]. rewrite Hlb. by destruct kr.
  - rewrite chained_app, Hp. cbn [chained]. rewrite Hlb. by destruct kq, kr.
Qed.
End Freed.

Lemma ceiling_eqb size k : (size =? ceiling size k) = negb (bool_decide (k = Free)).
Proof. unfold ceiling. destruct (decide (k = Free)) as [->|Hk]; [rewrite bool_decide_eq_true_2 by done; cbn [negb]; lia|]. rewrite bool_decide_eq_false_2, Z.eqb_refl by done. done. Qed.

(** Both neighbours are taken, and the rest of the code has one region to make
    free. *)
Section Merge.
Context (s : heap W) (la lb : layout) (q r sz : Z) (kq kr : kind) (L : Z -> list Z).
Context (Hc : core s (la ++ [(q, kq); (sz, Used); (r, kr)] ++ lb) L).
Context (Hq : follows kq Used = true) (Hr : follows Used kr = true).
Abbreviation x := (heap_base + total la + q).

Lemma merge_bounds : 0 < heap_base + total la /\ 16 <= q /\ 16 <= sz /\ 16 <= r /\
  heap_base + total la + q + sz + r < 2 ^ 32 - 65536 + 1.
Proof.
  pose proof Hc as [Hwf _ _ Ht _ _ _]. rewrite !total_app in Ht. cbn [total] in Ht.
  apply Forall_app in Hwf as [Hwa [(_ & _ & Hsq & _) [(_ & _ & Hsz & _) [(_ & _ & Hsr & _) Hwb]%Forall_cons]%Forall_cons]%Forall_cons].
  cbn [fst snd] in *. pose proof (total_nonneg _ Hwa). pose proof (total_nonneg _ Hwb). pose proof (brk_range s).
  specialize (Hsq ltac:(by intros ->)). specialize (Hsz ltac:(done)). specialize (Hsr ltac:(by intros ->)).
  pose proof (buckets_pos (heap_base := heap_base)). pose proof buckets_below. unfold PAGE, SIZEOF_REGION in *. lia.
Qed.

Lemma merge_Ret : exists s' L' ga gb ra rb, taken kq q ga ra /\ taken kr r gb rb /\ quiet s s' /\
  core s' ((la ++ ra) ++ (ga + sz + gb, Gap) :: rb ++ lb) L' /\
  forall v, (create_free_region (x - ga) (ga + sz + gb);; link_to_free_list freeRegionBuckets (x - ga)) s' = v ->
    free freeRegionBuckets (x + 4) s = v.
Proof.
  destruct merge_bounds as (Hb0 & Hb1 & Hb2 & Hb3 & Hb4). cbn [app] in Hc.
  destruct (region_ends _ _ _ _ _ _ _ la q kq _ (heap_base + total la) Hc eq_refl) as (_ & Hq2 & _ & _ & Hqd & _); [by intros ->|done|].
  destruct (region_ends _ _ _ _ _ _ _ (la ++ [(q, kq)]) sz Used ((r, kr) :: lb) x Hc) as (Hx1 & _);
    [by rewrite <- app_assoc|done|rewrite total_app; cbn [total]; lia|].
  destruct (take_region s la q kq ((sz, Used) :: (r, kr) :: lb) L Hc) as (s1 & L1 & ga & ra & Hr1 & _ & Hc1 & Hq1 & Hta & _).
  pose proof (taken_total _ _ _ _ Hta) as Hta'.
  assert (Hlx : heap_base + total (la ++ ra ++ [(ga, Gap)]) = x) by (rewrite !total_app; cbn [total]; lia).
  destruct (region_ends _ _ _ _ _ _ _ (la ++ ra ++ [(ga, Gap)]) sz Used ((r, kr) :: lb) x Hc1) as (Hx2 & _);
    [by rewrite <- !app_assoc|done|done|].
  assert (Hlr : heap_base + total (la ++ ra ++ [(ga, Gap); (sz, Used)]) = x + sz) by (rewrite !total_app; cbn [total]; lia).
  assert (Ee : la ++ ra ++ (ga, Gap) :: (sz, Used) :: (r, kr) :: lb =
    (la ++ ra ++ [(ga, Gap); (sz, Used)]) ++ (r, kr) :: lb) by (by rewrite <- !app_assoc).
  rewrite Ee in Hc1. destruct (region_ends _ _ _ _ _ _ _ _ r kr lb (x + sz) Hc1 eq_refl) as (Hr3 & Hr4 & _);
    [by intros ->|done|].
  destruct (take_region s1 _ r kr lb L1 Hc1) as (s2 & L2 & gb & rb & Hr2 & Hc2 & _ & Hq2' & Htb & Hn).
  specialize (Hn ltac:(by intros ->)). rewrite Hlr in Hr2, Hn.
  exists s2, L2, ga, gb, ra, rb. split; [done|]. split; [done|]. split; [by transitivity s1|]. split.
  - rewrite <- !app_assoc in Hc2. cbn [app] in Hc2. rewrite app_assoc in Hc2.
    replace ((la ++ ra) ++ (ga, Gap) :: (sz, Used) :: (gb, Gap) :: rb ++ lb) with
      (((la ++ ra) ++ [(ga, Gap)]) ++ (sz, Used) :: (gb, Gap) :: rb ++ lb) in Hc2 by (by rewrite <- !app_assoc).
    apply core_forget in Hc2; [|done]. rewrite <- app_assoc in Hc2. cbn [app] in Hc2.
    by apply core_join, core_join in Hc2.
  - intros v <-. unfold free. replace (x + 4 =? 0) with false by lia. replace (x + 4 - 4) with x by lia.
    mnext. rewrite Hx1. mnext. rewrite Hq2. change (Z.land (ceiling q kq) (Z.lnot FREE_REGION_FLAG)) with
      (DECODE_CEILING_SIZE (ceiling q kq)). rewrite Hqd, Z.eqb_sym, ceiling_eqb, negb_involutive.
    assert (Hfirst : (if bool_decide (kq = Free)
      then unlink_from_free_list (x - q);; mret (x - q, w32 (sz + q)) else mret (x, sz)) s = Ret ((x - ga, ga + sz), s1)).
    { replace (x - q) with (heap_base + total la) by lia. unfold when in Hr1.
      destruct Hta as [(-> & -> & ->)|(Hk & -> & ->)].
      - rewrite bool_decide_eq_true_2 in * by done. mnext_by Hr1. rewrite w32_small by lia. unfold mret, M_ret.
        do 3 f_equal; lia.
      - rewrite bool_decide_eq_false_2 in * by done. injection Hr1 as <-. unfold mret, M_ret. do 3 f_equal; lia. }
    mnext_by Hfirst. unfold next_region. mnext. rewrite Hx2. mnext. rewrite Hr3. mnext. rewrite Hr4, ceiling_eqb, negb_involutive.
    assert (Hsecond : (if bool_decide (kr = Free)
      then unlink_from_free_list (x + sz);; nextSize ← ld (x + sz); mret (w32 (ga + sz + nextSize)) else mret (ga + sz)) s1 =
        Ret (ga + sz + gb, s2)).
    { unfold when in Hr2. destruct Htb as [(-> & -> & ->)|(Hk & -> & ->)].
      - rewrite bool_decide_eq_true_2 in * by done. mnext_by Hr2. mnext. rewrite Hn, w32_small; [done|].
        assert (0 <= ga <= q) by (destruct Hta as [(_ & -> & _)|(_ & -> & _)]; lia). lia.
      - rewrite bool_decide_eq_false_2 in * by done. injection Hr2 as <-. unfold mret, M_ret. do 2 f_equal; lia. }
    mnext_by Hsecond. done.
Qed.
End Merge.

(** What clients and the allocator own around the freed region. *)
Section Freed_view.
Context (la lb ra rb : layout) (q r c ga gb : Z) (kq kr : kind).
Context (Hta : taken kq q ga ra) (Htb : taken kr r gb rb).
Abbreviation A := (heap_base + total la).
Abbreviation mid := [(q, kq); (c + 8, Used); (r, kr)].
Abbreviation mid' := (ra ++ (ga + (c + 8) + gb, Free) :: rb).

Lemma freed_regions b sz k : (b, sz, k) ∈ regions A mid' <->
  ((b, sz, k) = (A, q, kq) /\ kq <> Free) \/ (b, sz, k) = (A + q - ga, ga + (c + 8) + gb, Free) \/
  ((b, sz, k) = (A + q + (c + 8), r, kr) /\ kr <> Free).
Proof.
  destruct Hta as [(Ek & -> & ->)|(Ek & -> & ->)], Htb as [(Ek' & -> & ->)|(Ek' & -> & ->)];
    cbn [app regions]; rewrite !elem_of_cons, elem_of_nil.
  - replace (A + q - q) with A by lia. naive_solver.
  - replace (A + q - q) with A by lia. replace (A + (q + (c + 8) + 0)) with (A + q + (c + 8)) by lia. naive_solver.
  - replace (A + q - 0) with (A + q) by lia. naive_solver.
  - replace (A + q - 0) with (A + q) by lia. replace (A + q + (0 + (c + 8) + 0)) with (A + q + (c + 8)) by lia. naive_solver.
Qed.

Context (Hwf : Forall wf_region (la ++ [(q, kq); (c + 8, Used); (r, kr)] ++ lb)).
Context (Hq : kq <> Gap) (Hr : kr <> Gap).

Lemma freed_live b d : live heap_base (la ++ mid' ++ lb) b d <->
  live heap_base (la ++ mid ++ lb) b d /\ b <> A + q + 4.
Proof.
  apply Forall_app in Hwf as [Hwa [(_ & _ & Hsq & _) [(_ & _ & Hsc & _) [(_ & _ & Hsr & _) Hwb]%Forall_cons]%Forall_cons]%Forall_cons].
  cbn [fst snd] in *. specialize (Hsq Hq). specialize (Hsr Hr). specialize (Hsc ltac:(done)).
  rewrite !(live_app _ la), (live_app _ mid), (live_app _ mid'), (freed_total ra rb q r (c + 8) ga gb kq kr Hta Htb).
  assert (Ha : live heap_base la b d -> b <> A + q + 4) by (intros (? & ? & ? & _)%live_bounds; [lia|done]).
  assert (Hb : live (A + total mid) lb b d -> b <> A + q + 4)
    by (cbn [total]; intros (? & ? & ? & _)%live_bounds; [lia|done]).
  assert (Hm : live A mid' b d <-> live A mid b d /\ b <> A + q + 4).
  { unfold live. rewrite freed_regions. cbn [regions]. rewrite !elem_of_cons, elem_of_nil. split.
    - intros [[[= ? ? <-] _]|[[=]|[[= ? ? <-] _]]]; (split; [|lia]); [left|right; right; left]; do 2 f_equal; lia.
    - intros [[[= ? ? <-]|[[= ? ?]|[[= ? ? <-]|[]]]] Hne]; [left|lia|right; right]; (split; [|done]); do 2 f_equal; lia. }
  tauto.
Qed.

Lemma freed_owned y : (forall z, A + q + 4 <= z < A + q + 4 + c -> P z) ->
  (forall z, owned heap_base (la ++ mid ++ lb) z -> P z) -> owned A mid' y -> P y.
Proof.
  intros Hp Ho (b & sz & k & Hb & Hk & Hy & Hu). apply freed_regions in Hb.
  assert (Hreg : forall b sz k, (b, sz, k) ∈ regions A mid -> k <> Gap -> b <= y < b + sz ->
    (k = Used -> y < b + 4 \/ b + sz - 4 <= y) -> P y).
  { intros b' sz' k' Hb' Hk' Hy' Hu'. apply Ho. rewrite !owned_app. right. left. by exists b', sz', k'. }
  destruct Hb as [[[= -> -> ->] _]|[[= -> -> ->]|[[= -> -> ->] _]]].
  - eapply (Hreg _ q); try done. by left.
  - destruct (Z.lt_ge_cases y (A + q)) as [Hlt|Hge].
    { destruct Hta as [(Ek & Eg & _)|(_ & Eg & _)]; [|lia]. apply (Hreg A q kq); [by left|done|lia|by rewrite Ek]. }
    destruct (Z.lt_ge_cases y (A + q + (c + 8))) as [Hlt|Hge2].
    { destruct (decide (A + q + 4 <= y < A + q + 4 + c)) as [?|?]; [by apply Hp|].
      apply (Hreg (A + q) (c + 8) Used); [by right; left|done|lia|lia]. }
    destruct Htb as [(Ek & Eg & _)|(_ & Eg & _)]; [|lia].
    apply (Hreg (A + q + (c + 8)) r kr); [by right; right; left|done|lia|by rewrite Ek].
  - eapply (Hreg _ r); try done. by right; right; left.
Qed.
End Freed_view.

Lemma free_region_Ret s l L p c : heap_at s l L -> live heap_base l p c -> (forall y, p <= y < p + c -> P y) ->
  exists s' l' L', free freeRegionBuckets p s = Ret (tt, s') /\ heap_at s' l' L' /\ quiet s s' /\
    forall q d, live heap_base l' q d <-> live heap_base l q d /\ q <> p.
Proof.
  intros Hat Hp HPp. destruct (block_region _ _ _ _ _ Hat Hp) as (la & q & kq & r & kr & lb & -> & -> & Hpath & Hch & Hq & Hr).
  pose proof Hat as [Hc _ _ Ho]. pose proof (core_wf _ _ _ _ _ _ _ Hc) as Hwf.
  destruct (merge_Ret s la lb q r (c + 8) kq kr L Hc Hq Hr) as (s1 & L1 & ga & gb & ra & rb & Hta & Htb & Hq1 & Hc1 & Hrun).
  destruct (merge_bounds s la lb q r (c + 8) kq kr L Hc Hq Hr) as (Hb0 & Hb1 & Hb2 & Hb3 & Hb4).
  assert (Hg : 0 <= ga <= q /\ 0 <= gb <= r) by (destruct Hta as [(_ & -> & _)|(_ & -> & _)], Htb as [(_ & -> & _)|(_ & -> & _)]; lia).
  assert (Hx : heap_base + total (la ++ ra) = heap_base + total la + q - ga)
    by (rewrite total_app; apply taken_total in Hta; lia).
  assert (HP : forall y, heap_base + total la + q - ga <= y < heap_base + total la + q - ga + (ga + (c + 8) + gb) -> P y).
  { intros y Hy. apply (freed_owned la lb ra rb q r c ga gb kq kr Hta Htb); [by intros ->|by intros ->|done|done|].
    exists (heap_base + total la + q - ga), (ga + (c + 8) + gb), Free.
    split; [apply (freed_regions la ra rb q r c ga gb kq kr Hta Htb); by right; left|done]. }
  destruct (make_free_core _ _ _ _ _ _ _ _ _ Hc1 ltac:(lia)) as (s2 & s3 & L3 & Hr2 & Hr3 & Hc3 & Hq3);
    [intros y Hy; apply HP; lia..|].
  rewrite Hx in Hr2, Hr3.
  exists s3, (la ++ (ra ++ (ga + (c + 8) + gb, Free) :: rb) ++ lb), L3. split; [|split; [|split]].
  - apply Hrun. mnext_by Hr2. exact Hr3.
  - rewrite <- !app_assoc in Hc3. cbn [app] in Hc3.
    apply (heap_replace _ _ _ _ s _ _ [(q, kq); (c + 8, Used); (r, kr)] _ _ L).
    + done.
    + by rewrite <- !app_assoc.
    + by transitivity s1.
    + by apply freed_total.
    + by apply (freed_chain la lb ra rb q r (c + 8) ga gb kq kr).
    + intros. by apply freed_newest.
    + intros y Hy. apply (freed_owned la lb ra rb q r c ga gb kq kr Hta Htb); [by intros ->|by intros ->|done|done|done].
  - by transitivity s1.
  - intros b d. apply freed_live; [done|done|done|by intros ->|by intros ->].
Qed.
End Freeing.

(** * Resizing a block where it is ([attempt_region_resize]). *)

Section Resizing.
Context {W : Type} `{WasmMemLaws W} `{!Below4GiB W}.
Context (freeRegionBuckets heap_base : Z) `{!Placed freeRegionBuckets heap_base}.
Context (P : Z -> Prop) (m0 : Z -> Z).
Abbreviation core := (core freeRegionBuckets heap_base P m0).
Abbreviation heap_at := (heap_at freeRegionBuckets heap_base P m0).

(** The block has capacity [c'] now. *)
Definition resized (l l' : layout) (p c' : Z) : Prop := forall q d,
  live heap_base l' q d <-> (q = p /\ d = c') \/ (live heap_base l q d /\ q <> p).

Section Block.
Context (s : heap W) (l1 lb : layout) (c r n : Z) (kr : kind) (L : Z -> list Z).
Abbreviation l := (l1 ++ [(c + 8, Used); (r, kr)] ++ lb).
Abbreviation x := (heap_base + total l1).
Context (Hat : heap_at s l L) (Hp : path End l1 Used = true) (Hr : follows Used kr = true) (Hlb : chained kr lb = true).
Context (Hn : 8 <= n < 2 ^ 31) (Hn4 : n mod 4 = 0) (HP : forall y, x + 4 + n <= y < x + 4 + c -> P y).

(** What may follow the block: nothing, or a free region, before the region
    after it if that is in use. *)
Definition followed (c' : Z) (rest : layout) : Prop := n <= c' /\ c' + 8 + total rest = c + 8 + r /\
  ((kr = Free /\ (rest = [] \/ exists g, 16 <= g /\ rest = [(g, Free)])) \/
   (kr <> Free /\ exists g, 16 <= g /\ rest = [(g, Free); (r, kr)])).

Lemma block_bounds : 0 < x /\ 8 <= c /\ 16 <= r /\ c mod 4 = 0 /\ r mod 4 = 0 /\ x + (c + 8) + r < 2 ^ 32 - 65536 + 1 /\
  Forall wf_region l1 /\ Forall wf_region lb.
Proof.
  pose proof Hat as [[Hwf _ _ Ht _ _ _] _ _ _]. rewrite !total_app in Ht. cbn [total] in Ht.
  apply Forall_app in Hwf as [Hwa [(Hc4 & _ & Hsc & _) [(Hr4 & _ & Hsr & _) Hwb]%Forall_cons]%Forall_cons].
  cbn [fst snd] in *. pose proof (total_nonneg _ Hwa). pose proof (total_nonneg _ Hwb). pose proof (brk_range s).
  specialize (Hsc ltac:(done)). specialize (Hsr ltac:(by intros ->)).
  pose proof (buckets_pos (heap_base := heap_base)). pose proof buckets_below. unfold PAGE, SIZEOF_REGION in *.
  split; [lia|]. split; [lia|]. split; [lia|]. split; [|split; [done|split; [lia|done]]].
  pose proof (Z.div_mod (c + 8) 4). replace c with (((c + 8) / 4 - 2) * 4) by lia. apply Z.mod_mul. lia.
Qed.

(** What the resizing may write to. *)
Lemma resize_writes y : x <= y < x + 4 \/ x + 4 + n <= y < x + (c + 8) \/
  (kr = Free /\ x + (c + 8) <= y < x + (c + 8) + r) -> P y.
Proof.
  destruct block_bounds as (? & ? & ? & _). pose proof Hat as [_ _ _ Ho]. intros Hy.
  destruct (decide (x + 4 + n <= y < x + 4 + c)) as [?|Hout]; [by apply HP|]. apply Ho.
  destruct Hy as [Hy|[Hy|[-> Hy]]].
  - exists x, (c + 8), Used. split; [apply mid_in|]. split; [done|]. lia.
  - exists x, (c + 8), Used. split; [apply mid_in|]. split; [done|]. lia.
  - exists (x + (c + 8)), r, Free. split; [|done]. replace (x + (c + 8)) with (heap_base + total (l1 ++ [(c + 8, Used)]))
      by (rewrite total_app; cbn [total]; lia).
    replace (l1 ++ [(c + 8, Used); (r, Free)] ++ lb) with ((l1 ++ [(c + 8, Used)]) ++ (r, Free) :: lb) by (by rewrite <- app_assoc).
    apply mid_in.
Qed.

Lemma resized_at s' L' c' rest : followed c' rest -> quiet s s' ->
  core s' (l1 ++ ((c' + 8, Used) :: rest) ++ lb) L' -> heap_at s' (l1 ++ ((c' + 8, Used) :: rest) ++ lb) L'.
Proof.
  intros (Hnc & Ht & Hrest) Hq Hc. destruct block_bounds as (Hx & Hc8 & Hr16 & _ & _ & _ & Hw1 & Hwb).
  apply (heap_replace _ _ _ _ s _ _ [(c + 8, Used); (r, kr)] _ _ L); [done|done|done|cbn [total]; lia| | |].
  - cbn [app]. rewrite chained_app, Hp. cbn [andb].
    destruct Hrest as [(-> & [->|(g & _ & ->)])|(Hk & g & _ & ->)]; cbn [app chained].
    + apply chained_head in Hlb as (sz & k & lb' & -> & Hf & Hlb'); [|done]. simpl. rewrite Hlb'. by destruct k.
    + done.
    + rewrite Hlb. by destruct kr.
  - intros a m. destruct Hrest as [(-> & [->|(g & _ & ->)])|(Hk & g & _ & ->)]; cbn [newest total] in *; [done|done|].
    destruct kr; try done; do 2 f_equal; lia.
  - intros y (b & sz & k & Hb & Hk & Hy & Hu).
    assert (Hhead : (b, sz, k) = (x, c' + 8, Used) \/ (b, sz, k) ∈ regions (x + (c' + 8)) rest)
      by (by apply elem_of_cons in Hb). clear Hb.
    assert (Hwr : forall hi, hi = (if decide (kr = Free) then x + (c + 8) + r else x + (c + 8)) ->
      x + 4 + n <= y < hi \/ x <= y < x + 4 -> P y).
    { intros hi -> Hy'. apply resize_writes. case_decide; [|tauto].
      destruct (Z.lt_ge_cases y (x + (c + 8))); [|right; right; split; [done|lia]]. lia. }
    destruct Hrest as [(Ek & [->|(g & Hg & ->)])|(Ek & g & Hg & ->)]; cbn [regions total] in *;
      rewrite ?elem_of_cons, elem_of_nil in Hhead; [rewrite decide_True in Hwr by done..|rewrite decide_False in Hwr by done].
    + destruct Hhead as [[= -> -> ->]|[]]. specialize (Hu eq_refl). by eapply Hwr; [reflexivity|lia].
    + destruct Hhead as [[= -> -> ->]|[[= -> -> ->]|[]]]; [specialize (Hu eq_refl)|]; by eapply Hwr; [reflexivity|lia].
    + destruct Hhead as [[= -> -> ->]|[[= -> -> ->]|[[= -> -> ->]|[]]]]; [specialize (Hu eq_refl)| |].
      * by eapply Hwr; [reflexivity|lia].
      * by eapply Hwr; [reflexivity|lia].
      * pose proof Hat as [_ _ _ Ho]. apply Ho. exists (x + (c' + 8) + g), r, kr.
         split; [|done]. replace (x + (c' + 8) + g) with (heap_base + total (l1 ++ [(c + 8, Used)]))
           by (rewrite total_app; cbn [total]; lia).
         replace (l1 ++ [(c + 8, Used); (r, kr)] ++ lb) with ((l1 ++ [(c + 8, Used)]) ++ (r, kr) :: lb)
           by (by rewrite <- app_assoc). apply mid_in.
Qed.

Lemma resized_live c' rest : followed c' rest -> resized l (l1 ++ ((c' + 8, Used) :: rest) ++ lb) (x + 4) c'.
Proof.
  intros (Hnc & Ht & Hrest). destruct block_bounds as (Hx & Hc8 & Hr16 & _ & _ & _ & Hw1 & Hwb).
  intros q d. rewrite !(live_app _ l1), (live_app _ [(c + 8, Used); (r, kr)]), (live_app _ ((c' + 8, Used) :: rest)).
  assert (Htt : total ((c' + 8, Used) :: rest) = total [(c + 8, Used); (r, kr)]) by (cbn [total]; lia).
  assert (Hm' : live x ((c' + 8, Used) :: rest) q d <-> (q = x + 4 /\ d = c') \/
    (q = x + (c + 8) + 4 /\ d = r - 8 /\ kr = Used)).
  { unfold live. destruct Hrest as [(Ek & [->|(g & Hg & ->)])|(Ek & g & Hg & ->)]; cbn [regions total] in *;
      rewrite !elem_of_cons, elem_of_nil; split.
    - intros [[= ? ?]|[]]. left. lia.
    - intros [[-> ->]|(_ & _ & ?)]; [left; do 2 f_equal; lia|congruence].
    - intros [[= ? ?]|[[=]|[]]]. left. lia.
    - intros [[-> ->]|(_ & _ & ?)]; [left; do 2 f_equal; lia|congruence].
    - intros [[= ? ?]|[[=]|[[= ? ? ?]|[]]]]; [left; lia|right]. split; [lia|split; [lia|done]].
    - intros [[-> ->]|(-> & -> & ->)]; [left; do 2 f_equal; lia|right; right; left; do 2 f_equal; lia]. }
  assert (Hm : live x [(c + 8, Used); (r, kr)] q d <-> (q = x + 4 /\ d = c) \/
    (q = x + (c + 8) + 4 /\ d = r - 8 /\ kr = Used)).
  { unfold live. cbn [regions]. rewrite !elem_of_cons, elem_of_nil. split.
    - intros [[= ? ?]|[[= ? ? ?]|[]]]; [left; lia|right]. split; [lia|split; [lia|done]].
    - intros [[-> ->]|(-> & -> & ->)]; [left; do 2 f_equal; lia|right; left; do 2 f_equal; lia]. }
  assert (Ha : live heap_base l1 q d -> q <> x + 4) by (intros (? & ? & ? & _)%live_bounds; [lia|done]).
  assert (Hb : live (x + total [(c + 8, Used); (r, kr)]) lb q d -> q <> x + 4)
    by (cbn [total]; intros (? & ? & ? & _)%live_bounds; [lia|done]).
  rewrite Htt, Hm, Hm'. assert (q = x + (c + 8) + 4 -> q <> x + 4) by lia. tauto.
Qed.

Lemma mid_in' : live heap_base l (x + 4) c.
Proof. unfold live. replace (x + 4 - 4) with x by lia. apply mid_in. Qed.

Abbreviation run s' ok := (attempt_region_resize freeRegionBuckets x (n + 8) s = Ret (ok, s')).

Lemma resize_reads : load (hmem s) x = c + 8 /\ load (hmem s) (x + (c + 8)) = r /\
  load (hmem s) (x + (c + 8) + r - 4) = ceiling r kr.
Proof.
  pose proof Hat as [Hc _ _ _]. cbn [app] in Hc.
  destruct (region_ends _ _ _ _ _ _ _ l1 (c + 8) Used ((r, kr) :: lb) x Hc eq_refl) as (Hx1 & _); [done|done|].
  destruct (region_ends _ _ _ _ _ _ _ (l1 ++ [(c + 8, Used)]) r kr lb (x + (c + 8)) Hc) as (Hx2 & Hx3 & _);
    [by rewrite <- app_assoc|by intros ->|rewrite total_app; cbn [total]; lia|done].
Qed.

(** The next region is free: it gives what is needed, or all of it. *)
Section Next_free.
Context (Ek : kr = Free).

Lemma take_next : exists s1 L1, unlink_from_free_list (x + (c + 8)) s = Ret (tt, s1) /\
  core s1 (l1 ++ (c + 8 + r, Gap) :: lb) L1 /\ quiet s s1 /\ load (hmem s1) x = c + 8 /\ load (hmem s1) (x + (c + 8)) = r.
Proof.
  pose proof Hat as [Hc _ _ _]. cbn [app] in Hc. rewrite Ek in Hc.
  replace (l1 ++ (c + 8, Used) :: (r, Free) :: lb) with ((l1 ++ [(c + 8, Used)]) ++ (r, Free) :: lb) in Hc by (by rewrite <- app_assoc).
  destruct (unlink_core _ _ _ _ _ _ _ _ _ Hc) as (s1 & L1 & Hr1 & Hc1 & Hq1 & _ & [Hw _]).
  replace (heap_base + total (l1 ++ [(c + 8, Used)])) with (x + (c + 8)) in * by (rewrite total_app; cbn [total]; lia).
  rewrite <- app_assoc in Hc1. cbn [app] in Hc1.
  destruct (region_ends _ _ _ _ _ _ _ l1 (c + 8) Used ((r, Gap) :: lb) x Hc1 eq_refl) as (Hx1 & _); [done|done|].
  exists s1, L1. split; [done|]. split; [|done]. apply core_forget in Hc1; [|done]. by apply core_join in Hc1.
Qed.

Lemma grow_part : n + 8 + 16 <= c + 8 + r -> exists s' g L', run s' true /\ quiet s s' /\
  core s' (l1 ++ [(n + 8, Used); (g, Free)] ++ lb) L' /\ 16 <= g /\ n + 8 + g = c + 8 + r.
Proof.
  intros Hfit. destruct block_bounds as (Hx & Hc8 & Hr16 & Hc4 & Hr4 & Hlim & _).
  destruct take_next as (s1 & L1 & Hr1 & Hc1 & Hq1 & _). destruct resize_reads as (Hl1 & Hl2 & Hl3).
  replace (c + 8 + r) with (n + 8 + (c + r - n)) in Hc1 by lia.
  apply core_split in Hc1; [|lia|by rewrite Zplus_mod, Hn4|lia].
  replace (l1 ++ (n + 8, Gap) :: (c + r - n, Gap) :: lb) with ((l1 ++ [(n + 8, Gap)]) ++ (c + r - n, Gap) :: lb) in Hc1
    by (by rewrite <- app_assoc).
  assert (Hy : heap_base + total (l1 ++ [(n + 8, Gap)]) = x + (n + 8)) by (rewrite total_app; cbn [total]; lia).
  assert (HPx : forall y, x <= y < x + 4 \/ x + 4 + n <= y < x + (c + 8) + r -> P y).
  { intros y Hyy. apply resize_writes. destruct (Z.lt_ge_cases y (x + (c + 8))); [lia|].
    destruct Hyy; [lia|]. right. right. split; [done|lia]. }
  destruct (make_free_core _ _ _ _ _ _ _ _ _ Hc1 ltac:(lia)) as (s2 & s3 & L3 & Hr2 & Hr3 & Hc3 & Hq3);
    [intros y Hyy; apply HPx; lia..|].
  rewrite Hy in Hr2, Hr3. rewrite <- app_assoc in Hc3. cbn [app] in Hc3.
  destruct (create_used_core _ _ _ _ _ _ _ _ _ Hc3 ltac:(lia)) with (k := Used) as (s4 & Hr4' & Hc4' & Hq4 & _).
  { intros y Hyy. apply HPx. lia. }
  { by left. }
  exists s4, (c + r - n), L3. split; [|split; [transitivity s3; [by transitivity s1|done]|split; [done|lia]]].
  unfold attempt_region_resize, next_region. mnext. rewrite Hl1. mnext. rewrite Hl2. mnext.
  rewrite Hl3, ceiling_eqb, negb_involutive, bool_decide_eq_true_2 by done. unfold SIZEOF_REGION.
  replace (x + (n + 8) + 16 <=? x + (c + 8) + r) with true by lia. mnext_by Hr1.
  replace (x + (c + 8) + r - (x + (n + 8))) with (c + r - n) by lia. mnext_by Hr2. mnext_by Hr3.
  replace (x + (n + 8) - x) with (n + 8) by lia. mnext_by Hr4'. done.
Qed.

Lemma grow_all : c + 8 + r < n + 8 + 16 -> n + 8 <= c + 8 + r -> exists s' L', run s' true /\ quiet s s' /\
  core s' (l1 ++ [(c + 8 + r, Used)] ++ lb) L'.
Proof.
  intros Hfit Hfit2. destruct block_bounds as (Hx & Hc8 & Hr16 & Hc4 & Hr4 & Hlim & _).
  destruct take_next as (s1 & L1 & Hr1 & Hc1 & Hq1 & Hl4 & Hl5). destruct resize_reads as (Hl1 & Hl2 & Hl3).
  destruct (create_used_core _ _ _ _ _ _ _ _ _ Hc1 ltac:(lia)) with (k := Used) as (s4 & Hr4' & Hc4' & Hq4 & _).
  { intros y Hyy. apply resize_writes. destruct Hyy; [by left|]. right. right. split; [done|lia]. }
  { by left. }
  exists s4, L1. split; [|split; [by transitivity s1|done]].
  unfold attempt_region_resize, next_region. mnext. rewrite Hl1. mnext. rewrite Hl2. mnext.
  rewrite Hl3, ceiling_eqb, negb_involutive, bool_decide_eq_true_2 by done. unfold SIZEOF_REGION.
  replace (x + (n + 8) + 16 <=? x + (c + 8) + r) with false by lia.
  replace (x + (n + 8) <=? x + (c + 8) + r) with true by lia. mnext_by Hr1.
  mnext. rewrite Hl4. mnext. rewrite Hl5, w32_small by lia. mnext_by Hr4'. done.
Qed.
End Next_free.

(** The next region is in use: what the block does not need any more becomes a
    free region. *)
Lemma shrink_block : kr <> Free -> n + 8 + 16 <= c + 8 -> exists s' g L', run s' true /\ quiet s s' /\
  core s' (l1 ++ [(n + 8, Used); (g, Free); (r, kr)] ++ lb) L' /\ 16 <= g /\ n + 8 + g = c + 8.
Proof.
  intros Hk Hfit. destruct block_bounds as (Hx & Hc8 & Hr16 & Hc4 & Hr4 & Hlim & _).
  destruct resize_reads as (Hl1 & Hl2 & Hl3). pose proof Hat as [Hc _ _ _]. cbn [app] in Hc.
  apply core_forget in Hc; [|done]. replace (c + 8) with (n + 8 + (c - n)) in Hc by lia.
  apply core_split in Hc; [|lia|by rewrite Zplus_mod, Hn4|lia].
  destruct (create_used_core _ _ _ _ _ _ _ _ _ Hc ltac:(lia)) with (k := Used) as (s1 & Hr1 & Hc1 & Hq1 & _).
  { intros y Hy. apply resize_writes. lia. }
  { by left. }
  replace (l1 ++ (n + 8, Used) :: (c - n, Gap) :: (r, kr) :: lb) with
    ((l1 ++ [(n + 8, Used)]) ++ (c - n, Gap) :: (r, kr) :: lb) in Hc1 by (by rewrite <- app_assoc).
  assert (Hy : heap_base + total (l1 ++ [(n + 8, Used)]) = x + (n + 8)) by (rewrite total_app; cbn [total]; lia).
  destruct (make_free_core _ _ _ _ _ _ _ _ _ Hc1 ltac:(lia)) as (s2 & s3 & L3 & Hr2 & Hr3 & Hc3 & Hq3);
    [intros y Hyy; apply resize_writes; lia..|].
  rewrite Hy in Hr2, Hr3. rewrite <- app_assoc in Hc3.
  exists s3, (c - n), L3. split; [|split; [by transitivity s1|split; [done|lia]]].
  unfold attempt_region_resize, next_region. mnext. rewrite Hl1. mnext. rewrite Hl2. mnext.
  rewrite Hl3, ceiling_eqb, negb_involutive, bool_decide_eq_false_2 by done.
  mnext. rewrite Hl1. unfold SIZEOF_REGION. rewrite w32_small by lia. replace (n + 8 + 16 <=? c + 8) with true by lia.
  mnext_by Hr1. replace (c + 8 - (n + 8)) with (c - n) by lia. mnext_by Hr2. mnext_by Hr3. done.
Qed.

Lemma resize_block_Ret : exists ok s', run s' ok /\
  if ok then (exists c' l' L', heap_at s' l' L' /\ quiet s s' /\ n <= c' /\ resized l l' (x + 4) c') else s' = s.
Proof.
  destruct block_bounds as (Hx & Hc8 & Hr16 & Hc4 & Hr4 & Hlim & _). destruct resize_reads as (Hl1 & Hl2 & Hl3).
  assert (Hdone : forall s' L' c' rest, followed c' rest -> quiet s s' ->
    core s' (l1 ++ ((c' + 8, Used) :: rest) ++ lb) L' ->
    exists c' l' L', heap_at s' l' L' /\ quiet s s' /\ n <= c' /\ resized l l' (x + 4) c').
  { intros s' L' c' rest Hf Hq Hc. eexists c', _, L'. split; [by eapply resized_at|]. split; [done|].
    split; [apply Hf|by apply resized_live]. }
  destruct (decide (kr = Free)) as [Ek|Ek].
  - destruct (Z.le_gt_cases (n + 8 + 16) (c + 8 + r)) as [Hfit|Hfit].
    { destruct (grow_part Ek Hfit) as (s' & g & L' & Hrun & Hq & Hc & Hg & Hsum). exists true, s'. split; [done|].
      apply (Hdone s' L' n [(g, Free)]); [|done|done]. split; [lia|]. split; [cbn [total]; lia|]. left. eauto. }
    destruct (Z.le_gt_cases (n + 8) (c + 8 + r)) as [Hfit2|Hfit2].
    { destruct (grow_all Ek ltac:(lia) Hfit2) as (s' & L' & Hrun & Hq & Hc). exists true, s'. split; [done|].
      apply (Hdone s' L' (c + r) []); [|done|by replace (c + r + 8) with (c + 8 + r) by lia].
      split; [lia|]. split; [cbn [total]; lia|]. left. auto. }
    exists false, s. split; [|done].
    unfold attempt_region_resize, next_region. mnext. rewrite Hl1. mnext. rewrite Hl2. mnext.
    rewrite Hl3, ceiling_eqb, negb_involutive, bool_decide_eq_true_2 by done. unfold SIZEOF_REGION.
    replace (x + (n + 8) + 16 <=? x + (c + 8) + r) with false by lia.
    replace (x + (n + 8) <=? x + (c + 8) + r) with false by lia. done.
  - destruct (Z.le_gt_cases (n + 8 + 16) (c + 8)) as [Hfit|Hfit].
    { destruct (shrink_block Ek Hfit) as (s' & g & L' & Hrun & Hq & Hc & Hg & Hsum). exists true, s'. split; [done|].
      apply (Hdone s' L' n [(g, Free); (r, kr)]); [|done|done]. split; [lia|]. split; [cbn [total]; lia|]. right. eauto. }
    exists (n + 8 <=? c + 8), s. split.
    + unfold attempt_region_resize, next_region. mnext. rewrite Hl1. mnext. rewrite Hl2. mnext.
      rewrite Hl3, ceiling_eqb, negb_involutive, bool_decide_eq_false_2 by done.
      mnext. rewrite Hl1. unfold SIZEOF_REGION. rewrite w32_small by lia. by replace (n + 8 + 16 <=? c + 8) with false by lia.
    + destruct (Z.leb_spec (n + 8) (c + 8)); [|done]. exists c, l, L. split; [done|]. split; [done|]. split; [lia|].
      intros q d. split; [|intros [[-> ->]|[? _]]; [apply mid_in'|done]].
      intros Hq. destruct (decide (q = x + 4)) as [->|?]; [left|by right]. split; [done|].
      pose proof (core_wf _ _ _ _ _ _ _ (at_core _ _ _ _ _ _ _ Hat)) as Hwf.
      destruct (live_apart _ _ _ _ _ _ Hwf Hq mid_in') as [[_ ?]|?]; [done|]. apply live_bounds in Hq; [lia|done].
Qed.
End Block.
End Resizing.
