(* ===== verification/EmmallocTheorems.v ===== *)
(** The allocator's functions: what they return, what they leave of the heap,
    and that blocks keep their contents. *)
From S2P Require Import Prelude.
From S2P Require Import Wasi.
From S2P Require Import Mman.
From S2P Require Import Emmalloc.
From S2P Require Import EmmallocHeap.
From S2P Require Import EmmallocCore.
From S2P Require Import EmmallocSteps.
From S2P Require Import EmmallocAlloc.
From S2P Require Import EmmallocMemory.
From S2P Require Import EmmallocFree.

(** Regions are described by words the allocator owns. *)
Lemma seg_owned m m' a l : Forall wf_region l -> (forall x, owned a l x -> m' x = m x) -> seg m a l -> seg m' a l.
Proof.
  intros Hwf. revert a. induction Hwf as [|[size k] l Hr Hwf IH]; intros a Hm; cbn [seg]; [done|]. intros [Hw Hs].
  assert (Hin : forall x, (a <= x < a + size /\ k <> Gap /\ (k = Used -> x < a + 4 \/ a + size - 4 <= x)) -> m' x = m x).
  { intros x (? & ? & ?). apply Hm. exists a, size, k. split; [by left|]. done. }
  split.
  - destruct Hr as (_ & _ & Hsz & _). cbn [fst snd] in Hsz. destruct (decide (k = Gap)) as [->|Hk]; [done|].
    specialize (Hsz Hk).
    assert (Hl : forall b, (b = a \/ b = a + size - 4 \/ (k <> Used /\ a <= b /\ b + 4 <= a + size)) -> load m' b = load m b).
    { intros b Hb. apply load_agree. intros x Hx. apply Hin. split; [lia|]. split; [done|]. intros ->.
      destruct Hb as [?|[?|[? _]]]; [lia|lia|done]. }
    pose proof (Hl a ltac:(auto)) as E1. pose proof (Hl (a + size - 4) ltac:(auto)) as E2.
    destruct (decide (k = Used)) as [->|Hu]; [cbn [region_words] in *; by rewrite E1, E2|].
    assert (E : forall d, 0 <= d <= size - 4 -> load m' (a + d) = load m (a + d)).
    { intros d Hd. apply Hl. right. right. split; [done|lia]. }
    destruct k; cbn [region_words] in *; rewrite ?E1, ?E2, ?E by lia; done.
  - apply IH; [|done]. intros x (b & sz & k' & Hb & ?). apply Hm. exists b, sz, k'. split; [by right|done].
Qed.

(** ** Buckets *)
Lemma buckets_sorted i j : (i < j <= 64)%nat -> at_ BUCKETS i < at_ BUCKETS j.
Proof.
  intros [Hij Hj]. assert (Hb : forall k, (k < 64)%nat -> at_ BUCKETS k < at_ BUCKETS (S k)).
  { intros k Hk. do 64 (destruct k as [|k]; [vm_compute; reflexivity|]). lia. }
  induction Hij as [|j Hij IH]; [apply Hb; lia|]. etransitivity; [apply IH; lia|apply Hb; lia].
Qed.

(** A size goes to the bucket whose documented range has it: bucket [i]
    holds the sizes from the [i]-th of the bounds the source lists up to the
    next (the last one from 128 MiB on), for every size from 8 bytes. *)
Theorem bucket_documented x i : 8 <= x < 2 ^ 32 -> 0 <= i < 64 ->
  compute_free_list_bucket x = i <-> at_ BUCKETS (Z.to_nat i) <= x < at_ BUCKETS (S (Z.to_nat i)).
Proof.
  intros Hx Hi. pose proof (bucket_ok_all x Hx) as Hb. unfold bucket_ok in Hb. set (j := compute_free_list_bucket x) in *.
  apply andb_prop in Hb as [[[Hj0 Hj1]%andb_prop Hlo]%andb_prop Hhi]. split; [intros <-; lia|]. intros [Hlo' Hhi'].
  destruct (Z.lt_total j i) as [Hlt|[?|Hlt]]; [|done|]; exfalso.
  - destruct (decide (S (Z.to_nat j) = Z.to_nat i)) as [E|Hne]; [rewrite E in Hhi; lia|].
    pose proof (buckets_sorted (S (Z.to_nat j)) (Z.to_nat i) ltac:(lia)). lia.
  - destruct (decide (S (Z.to_nat i) = Z.to_nat j)) as [E|Hne]; [rewrite E in Hhi'; lia|].
    pose proof (buckets_sorted (S (Z.to_nat i)) (Z.to_nat j) ltac:(lia)). lia.
Qed.

Section Allocator.
Context {W : Type} `{WasmMemLaws W} `{!Below4GiB W}.
Context (freeRegionBuckets heap_base : Z) `{!Placed freeRegionBuckets heap_base}.
Abbreviation heap_at := (heap_at freeRegionBuckets heap_base).
Abbreviation in_buckets := (in_buckets freeRegionBuckets).
Abbreviation owned := (owned heap_base).
Abbreviation live := (live heap_base).

(** The heap between two calls, with the regions [l]. *)
Definition heap_inv (s : heap W) (l : layout) : Prop := exists L, heap_at (fun _ => True) (hmem s) s l L.

(** What the allocator may write to. *)
Definition mine (s : heap W) (l : layout) (x : Z) : Prop := in_buckets x \/ owned l x \/ unclaimed heap_base s x.

Lemma inv_at s l (P : Z -> Prop) : heap_inv s l -> (forall x, in_buckets x -> P x) -> (forall x, owned l x -> P x) ->
  exists L, heap_at P (hmem s) s l L.
Proof.
  intros (L & [[Hwf Hseg Hl Ht _ _ _] Hch Hr _]) Hb Ho. exists L. split; [split|done|done|done]; try done.
  intros a size x Ha Hx. apply Ho. exists a, size, Free. done.
Qed.

Lemma at_inv P m0 s l L : heap_at P m0 s l L -> heap_inv s l.
Proof. intros [[Hwf Hseg Hl Ht _ _ _] Hch Hr _]. exists L. split; [split|done|done|done]; done. Qed.

(** Clients may write to their blocks, and to whatever is not the
    allocator's. *)
Lemma client_writes s l m' : heap_inv s l -> (forall x, in_buckets x \/ owned l x -> m' x = hmem s x) ->
  heap_inv (with_mem s m') l.
Proof.
  intros (L & [[Hwf Hseg Hl Ht _ _ _] Hch Hr _]) Hm. exists L.
  split; [split|done|done|done]; try done; cbn [with_mem hmem freeRegionBucketsUsed].
  - apply (seg_owned (hmem s)); [done| |done]. intros x Hx. apply Hm. by right.
  - destruct Hl as [Hmem Hnd Hrings Hbits Hu]. split; try done. intros i Hi.
    assert (Hnode : forall y, y ∈ bucket_head freeRegionBuckets i :: L i -> forall x, y + 4 <= x < y + 12 -> m' x = hmem s x).
    { intros y Hy x Hx. apply Hm. apply elem_of_cons in Hy as [->|Hy].
      - left. unfold EmmallocCore.in_buckets, bucket_head, SIZEOF_REGION in *. lia.
      - right. apply Hmem in Hy as (sz & Hz & _). pose proof (free_size _ _ _ _ Hwf Hz). exists y, sz, Free.
        split; [done|]. split; [done|]. split; [lia|done]. }
    apply (links_frame (hmem s)); [| |by apply Hrings]; intros y Hy; apply load_agree; intros x Hx;
      apply (Hnode y); [set_solver|unfold NEXT in *; lia|set_solver|unfold PREV in *; lia].
Qed.

Lemma inv_wf s l : heap_inv s l -> Forall wf_region l.
Proof. intros (L & [[Hwf _ _ _ _ _ _] _ _ _]). done. Qed.

Lemma inv_live_bounds s l p c : heap_inv s l -> live l p c ->
  heap_base + 4 <= p /\ 8 <= c /\ c mod 4 = 0 /\ p + c + 4 <= brk s /\ load (hmem s) (p - 4) = c + 8.
Proof.
  intros (L & [Hc _ _ _]) Hp. pose proof Hc as [Hwf _ _ Ht _ _ _]. pose proof (live_bounds _ _ _ _ Hwf Hp).
  apply elem_of_regions in Hp as (l1 & l2 & El & Ep).
  destruct (region_ends _ _ _ _ _ _ _ l1 (c + 8) Used l2 (p - 4) Hc El) as (Hw & _); [done|done|]. lia.
Qed.

(** ** Requests *)

(** The requests covered: alignments up to the page size, and sizes below
    2 GiB that with the memory there is stay below 4 GiB. *)
Definition request (s : heap W) (al n : Z) : Prop :=
  IS_POWER_OF_2 al = true /\ 0 <= al <= 65536 /\ 0 <= n < 2 ^ 31 - 2 ^ 18 /\ brk s + n + 2 ^ 18 <= 2 ^ 32.

(** What [memalign] does with a request: no block, or a new one.  Nothing but
    the allocator's memory changes, and what it owns then was its own. *)
Definition memalign_post (s : heap W) (l : layout) (al n p : Z) (s' : heap W) : Prop :=
  exists l', heap_inv s' l' /\ brk s <= brk s' /\ (forall x, ~ mine s l x -> hmem s' x = hmem s x) /\
    (forall x, owned l' x -> mine s l x) /\
    ((p = 0 /\ errno (henv s') = ENOMEM /\ same_live heap_base l l') \/
     (p <> 0 /\ p mod Z.max al 16 = 0 /\ granted heap_base (mine s l) l l' p n)).

Lemma power_of_2 al : 0 <= al <= 65536 -> IS_POWER_OF_2 al = true -> alignment_ok (Z.max al 16).
Proof.
  unfold IS_POWER_OF_2. intros Hal Hp. destruct (decide (al <= 16)); [exists 4; split; [lia|by rewrite Z.max_r by lia]|].
  rewrite w32_small in Hp by lia. apply Z.eqb_eq in Hp. pose proof (Z.log2_spec al ltac:(lia)) as [Hlo Hhi].
  set (k := Z.log2 al) in *. assert (Hk0 : 0 <= k) by apply Z.log2_nonneg.
  assert (Hk : 4 <= k < 17).
  { split; [apply (Z.log2_le_mono 16)|apply Z.log2_lt_pow2]; lia. }
  exists k. split; [lia|]. rewrite Z.max_l by lia. destruct (decide (al = 2 ^ k)) as [|Hne]; [done|].
  assert (E : Z.log2 (al - 1) = k) by (apply Z.log2_unique; lia).
  assert (Hb : Z.testbit (Z.land al (al - 1)) k = true).
  { rewrite Z.land_spec. unfold k at 1. rewrite Z.bit_log2 by lia. rewrite <- E, Z.bit_log2 by lia. done. }
  by rewrite Hp, Z.testbit_0_l in Hb.
Qed.

Lemma round_size n : 0 <= n < 2 ^ 31 -> let v := validate_alloc_size n in
  n <= v /\ 8 <= v < n + 12 /\ v mod 4 = 0.
Proof.
  intros Hn. unfold validate_alloc_size, SMALLEST_ALLOCATION_SIZE. destruct (Z.ltb_spec 8 n); [|split; [lia|]; split; [lia|done]].
  change 4 with (2 ^ 2). destruct (align_up n 2 ltac:(lia) ltac:(lia) ltac:(lia)) as [Hr Hm].
  change (2 ^ 2) with 4 in *. cbn zeta. lia.
Qed.

Lemma frees_below_top s l : heap_inv s l -> frees_below heap_base l (brk s).
Proof.
  intros (L & [[Hwf _ _ Ht _ _ _] _ _ _]) a f Ha. pose proof (free_size _ _ _ _ Hwf Ha). lia.
Qed.

(** The same, with the slack that rounding the size up takes. *)
Definition roomy (s : heap W) (al n : Z) : Prop :=
  IS_POWER_OF_2 al = true /\ 0 <= al <= 65536 /\ 0 <= n < 2 ^ 31 - 2 ^ 18 + 12 /\ brk s + n + 2 ^ 17 <= 2 ^ 32.

Lemma request_roomy s al n : request s al n -> roomy s al n /\ roomy s al (validate_alloc_size n).
Proof.
  intros (? & ? & ? & ?). pose proof (round_size n ltac:(lia)) as (? & ? & _).
  split; (split; [done|]; split; [done|]; split; lia).
Qed.

(** ** Clients' blocks *)
Lemma live_outside s l p c x : heap_inv s l -> live l p c -> p <= x < p + c -> ~ (in_buckets x \/ owned l x).
Proof.
  intros Hinv Hp Hx. pose proof (inv_live_bounds _ _ _ _ Hinv Hp). pose proof buckets_below as Hb.
  intros [Hx'|Hx']; [unfold EmmallocCore.in_buckets in Hx'; lia|].
  by apply (live_not_owned _ _ _ _ x (inv_wf _ _ Hinv) Hp Hx).
Qed.

(** Writing to a block. *)
Lemma client_block s l p c m' : heap_inv s l -> live l p c ->
  (forall x, ~ (p <= x < p + c) -> m' x = hmem s x) -> heap_inv (with_mem s m') l.
Proof.
  intros Hinv Hp Hm. apply client_writes; [done|]. intros x Hx. apply Hm. intros Hin.
  by apply (live_outside _ _ _ _ _ Hinv Hp Hin).
Qed.

(** ** Freeing *)
Definition free_post (s : heap W) (l : layout) (p c : Z) (s' : heap W) (l' : layout) : Prop :=
  heap_inv s' l' /\ quiet s s' /\
  (forall x, ~ (in_buckets x \/ owned l x \/ p <= x < p + c) -> hmem s' x = hmem s x) /\
  (forall q d, live l' q d <-> live l q d /\ q <> p).

Lemma free_inv s l p c : heap_inv s l -> live l p c -> exists s' l',
  free freeRegionBuckets p s = Ret (tt, s') /\ free_post s l p c s' l'.
Proof.
  intros Hinv Hp. destruct (inv_at s l (fun x => in_buckets x \/ owned l x \/ p <= x < p + c) Hinv) as (L & Hat); [auto..|].
  destruct (free_region_Ret _ _ _ _ _ _ _ _ _ Hat Hp) as (s' & l' & L' & Hr & Hat' & Hq & Hl); [auto|].
  exists s', l'. split; [done|]. split; [by eapply at_inv|]. split; [done|]. split; [|done].
  apply (core_agree _ _ _ _ _ _ _ (at_core _ _ _ _ _ _ _ Hat')).
Qed.

Lemma malloc_usable_size_Ret s l p c : heap_inv s l -> live l p c -> malloc_usable_size p s = Ret (c, s).
Proof.
  intros Hinv Hp. destruct (inv_live_bounds _ _ _ _ Hinv Hp) as (Hlo & Hc & _ & Hhi & Hw). pose proof (brk_range s) as Hb.
  pose proof (buckets_pos (heap_base := heap_base)). pose proof buckets_below. unfold SIZEOF_REGION, PAGE in *.
  unfold malloc_usable_size. replace (p =? 0) with false by lia. mnext. rewrite Hw. unfold REGION_HEADER_SIZE.
  rewrite w32_small by lia. by replace (c + 8 - 8) with c by lia.
Qed.

(** ** Resizing *)

(** The block stays, with a capacity of at least [n]. *)
Definition resized_post (s : heap W) (l : layout) (p c n : Z) (s' : heap W) : Prop := exists c' l',
  heap_inv s' l' /\ quiet s s' /\ n <= c' /\ resized heap_base l l' p c' /\
  (forall x, ~ (mine s l x \/ p + n <= x < p + c) -> hmem s' x = hmem s x).

Lemma resize_inv s l p c n : heap_inv s l -> live l p c -> 8 <= n < 2 ^ 31 -> n mod 4 = 0 -> exists ok s',
  attempt_region_resize freeRegionBuckets (p - 4) (n + 8) s = Ret (ok, s') /\
  if ok then resized_post s l p c n s' else s' = s.
Proof.
  intros Hinv Hp Hn Hn4. pose (P := fun x => mine s l x \/ p + n <= x < p + c).
  destruct (inv_at s l P Hinv) as (L & Hat); [by left; left|by left; right; left|].
  destruct (block_region _ _ _ _ _ _ _ _ _ Hat Hp) as (la & q & kq & r & kr & lb & -> & -> & Hpath & Hch & Hq & Hr).
  assert (Hl : la ++ [(q, kq); (c + 8, Used); (r, kr)] ++ lb = (la ++ [(q, kq)]) ++ [(c + 8, Used); (r, kr)] ++ lb)
    by (by rewrite <- app_assoc).
  pose proof Hat as Hat'. rewrite Hl in Hat'.
  assert (Hx : heap_base + total (la ++ [(q, kq)]) = heap_base + total la + q) by (rewrite total_app; cbn [total]; lia).
  destruct (resize_block_Ret _ _ _ _ s (la ++ [(q, kq)]) lb c r n kr L Hat') as (ok & s' & Hrun & Hpost); try done.
  { rewrite path_snoc, Hpath. done. }
  { rewrite Hx. intros y Hy. right. cbn [app]. lia. }
  exists ok, s'. rewrite Hx in Hrun. replace (heap_base + total la + q + 4 - 4) with (heap_base + total la + q) by lia.
  split; [done|]. destruct ok; [|done]. destruct Hpost as (c' & l' & L' & Hat2 & Hqu & Hc' & Hre). exists c', l'.
  split; [by eapply at_inv|]. split; [done|]. split; [done|]. split; [by rewrite Hl, <- Hx|].
  apply (core_agree _ _ _ _ _ _ _ (at_core _ _ _ _ _ _ _ Hat2)).
Qed.

(** The block moves: a new block is allocated, the contents are copied, the
    old block is freed. *)
Definition moved (s : heap W) (l : layout) (p c n p' : Z) (l' : layout) : Prop := exists l1,
  granted heap_base (mine s l) l l1 p' n /\ forall q d, live l' q d <-> live l1 q d /\ q <> p.

Definition realloc_post (s : heap W) (l : layout) (al p c n p' : Z) (s' : heap W) : Prop := exists l',
  heap_inv s' l' /\ brk s <= brk s' /\
  (forall x, ~ mine s l x -> ~ (p <= x < p + c) -> hmem s' x = hmem s x) /\
  ((p' = 0 /\ errno (henv s') = ENOMEM /\ same_live heap_base l l' /\ forall x, p <= x < p + c -> hmem s' x = hmem s x) \/
   (p' <> 0 /\ (forall i, 0 <= i < Z.min n c -> hmem s' (p' + i) = hmem s (p + i)) /\
    ((p' = p /\ exists c', n <= c' /\ resized heap_base l l' p c') \/
     (p' mod Z.max al 16 = 0 /\ moved s l p c n p' l')))).

Lemma newest_or_above a l r : Forall wf_region l -> (newest a l r).1 = r.1 \/ a <= (newest a l r).1.
Proof.
  intros Hwf. revert a r. induction Hwf as [|[size k] l (_ & Hs & _) _ IH]; intros a r; cbn [newest]; [by left|].
  cbn [fst] in Hs.
  pose proof (IH (a + size) r) as Hr. destruct k as [|next e| | |]; try (destruct Hr as [?|?]; [by left|right; lia]).
  right. destruct (IH (a + size) (a, e)) as [->|?]; cbn [fst]; lia.
Qed.

Lemma root_live s l p c : heap_inv s l -> live l p c -> listOfAllRegions s <> 0.
Proof.
  intros (L & [[Hwf _ _ _ _ _ _] Hch Hr _]) Hp E. rewrite E in Hr.
  pose proof (buckets_pos (heap_base := heap_base)). pose proof buckets_below. unfold SIZEOF_REGION in *.
  destruct l as [|[g []] [|[f []] l]]; try done; [by apply elem_of_nil in Hp|].
  apply Forall_cons in Hwf as [(_ & Hg & _) [(_ & Hf & _) Hwf]%Forall_cons]. cbn [fst newest] in *.
  destruct (newest_or_above (heap_base + g + f) l (heap_base + g, endPtr) Hwf) as [E'|E']; rewrite Hr in E'; cbn [fst] in E'; lia.
Qed.

Lemma live_mine s l p c x : heap_inv s l -> live l p c -> p <= x < p + c -> ~ mine s l x.
Proof.
  intros Hinv Hp Hx Hm. pose proof (root_live _ _ _ _ Hinv Hp). pose proof (inv_live_bounds _ _ _ _ Hinv Hp).
  destruct Hm as [Hm|[Hm|[Hm|[Hm _]]]]; [| |lia|done].
  - by apply (live_outside _ _ _ _ _ Hinv Hp Hx); left.
  - by apply (live_outside _ _ _ _ _ Hinv Hp Hx); right.
Qed.

(** Copying to the new block leaves the heap as it is. *)
Lemma copied s l p c p' c' k i : heap_inv s l -> live l p c -> live l p' c' -> p <> p' -> k <= c -> k <= c' -> 0 <= i < k ->
  let m := copy (hmem s) p' p k in
  heap_inv (with_mem s m) l /\ m (p' + i) = hmem s (p + i) /\ ~ (p <= p' + i < p + c).
Proof.
  intros Hinv Hp Hp' Hne Hkc Hkc' Hi. cbn zeta. split; [|split].
  - apply (client_block _ _ _ _ _ Hinv Hp'). intros x Hx. unfold copy.
    by replace ((p' <=? x) && (x <? p' + k)) with false by lia.
  - unfold copy. replace ((p' <=? p' + i) && (p' + i <? p' + k)) with true by lia. f_equal. lia.
  - destruct (live_apart _ _ _ _ _ _ (inv_wf _ _ Hinv) Hp Hp') as [[? _]|?]; [done|lia].
Qed.

(** ** Allocating *)
Context (depth fuel : nat) (Hdepth : 65537 <= Z.of_nat depth) (Hfuel : 2 ^ 28 <= Z.of_nat fuel).

Lemma memalign_Ret s l al n : heap_inv s l -> roomy s al n -> exists p s',
  emmalloc_memalign freeRegionBuckets heap_base depth fuel al n s = Ret (p, s') /\ memalign_post s l al n p s'.
Proof.
  intros Hinv (Hp2 & Hal & Hn & Hlim). pose proof (power_of_2 al Hal Hp2) as Hok. pose proof (alignment_range _ Hok) as [Har _].
  destruct (round_size n ltac:(lia)) as (Hv1 & Hv2 & Hv3). set (v := validate_alloc_size n) in *.
  destruct (inv_at s l (mine s l) Hinv) as (L & Hat); [by left|by right; left|].
  pose proof (frees_below_top s l Hinv) as Hfb. pose proof (memory_size_below (world (henv s))) as Hm.
  assert (HX : brk s + 16 + 4 + Z.max al 16 + v < 2 ^ 32) by lia.
  destruct (allocate_Ret _ _ (mine s l) (hmem s) depth fuel (Z.max al 16) v (brk s + 16) Hok ltac:(lia) Hv3 HX Hfuel
    s l L Hat) as (p & s' & Hr & Hmem & Hpost).
  { split; [|by left]. intros a f Ha. apply Hfb in Ha. lia. }
  { intros y Hy. by right; right. }
  { unfold levels. destruct (listOfAllRegions s =? 0); lia. }
  assert (Hsame : emmalloc_memalign freeRegionBuckets heap_base depth fuel al n s =
    allocate_memory freeRegionBuckets heap_base depth fuel (Z.max al 16) v s).
  { destruct (validated (Z.max al 16) v Hok) as (E1 & E2 & E3); [unfold MAX_ALLOC_SIZE; lia|done|].
    unfold emmalloc_memalign. destruct depth as [|d]; [lia|]. cbn [allocate_memory].
    rewrite Hp2, E1, E2, E3. replace (MAX_ALLOC_SIZE <? n) with false by (unfold MAX_ALLOC_SIZE; lia).
    by replace (MAX_ALLOC_SIZE <? v) with false by (unfold MAX_ALLOC_SIZE; lia). }
  exists p, s'. rewrite Hsame. split; [done|].
  assert (Hend : forall l' L', heap_at (mine s l) (hmem s) s' l' L' ->
    heap_inv s' l' /\ brk s <= brk s' /\ (forall x, ~ mine s l x -> hmem s' x = hmem s x) /\
    forall x, owned l' x -> mine s l x).
  { intros l' L' Hat'. split; [by eapply at_inv|]. split; [unfold brk, PAGE; lia|].
    split; [apply (core_agree _ _ _ _ _ _ _ (at_core _ _ _ _ _ _ _ Hat'))|apply Hat']. }
  destruct Hpost as [(-> & He & l' & L' & Hat' & Hs)|(Hp & Hpm & l' & L' & Hat' & Hg)]; exists l';
    destruct (Hend l' L' Hat') as (Hi & Hb & Ha & Hw); (split; [done|]; split; [done|]; split; [done|]; split; [done|]).
  - by left.
  - right. split; [done|]. split; [done|]. destruct Hg as (Hk & (c & Hc & Hl) & Hf & Hb' & HPy).
    split; [done|]. split; [exists c; split; [lia|done]|].
    split; [done|]. split; [done|]. intros y Hy. apply HPy. lia.
Qed.

(** ** Moving a block *)
Definition move_block (al v p : Z) : M (heap W) Z :=
  newptr ← emmalloc_memalign freeRegionBuckets heap_base depth fuel al v;
  if negb (newptr =? 0) then
    regionSize ← ld (p - 4);
    set_mem (fun m => copy m newptr p (Z.min v (w32 (regionSize - REGION_HEADER_SIZE))));;
    free freeRegionBuckets p;;
    mret newptr
  else mret 0.

Lemma move_Ret s l al p c n v : heap_inv s l -> live l p c -> roomy s al v -> n <= v -> 0 < v ->
  exists p' s', move_block al v p s = Ret (p', s') /\ realloc_post s l al p c n p' s'.
Proof.
  intros Hinv Hp Hroom Hnv Hv. destruct (memalign_Ret s l al v Hinv Hroom) as (p' & s1 & Hr & l1 & Hinv1 & Hb1 & Ha1 & Ho1 & Hpost).
  destruct Hpost as [(-> & He & Hs)|(Hp0 & Hal & Hg)].
  { exists 0, s1. split; [unfold move_block; mnext_by Hr; done|]. exists l1. split; [done|]. split; [done|].
    split; [auto|]. left. split; [done|]. split; [done|]. split; [done|]. intros x Hx. by apply Ha1, (live_mine _ _ p c). }
  pose proof Hg as (Hk & (c' & Hc' & Hl') & Hf & _ & HP). destruct (Hk p c Hp) as (c1 & Hcc & Hp1 & Hgain).
  assert (Hne : p <> p') by (intros ->; by apply (Hf c)).
  destruct (inv_live_bounds _ _ _ _ Hinv1 Hp1) as (Hlo & Hc8 & _ & Hhi & Hw). pose proof (brk_range s1) as Hbr. unfold PAGE in Hbr.
  pose proof (inv_live_bounds _ _ _ _ Hinv1 Hl') as (Hlo' & _).
  pose proof (buckets_pos (heap_base := heap_base)). pose proof buckets_below. unfold SIZEOF_REGION in *.
  assert (Hsz : w32 (load (hmem s1) (p - 4) - REGION_HEADER_SIZE) = c1)
    by (rewrite Hw; unfold REGION_HEADER_SIZE; rewrite w32_small by lia; lia).
  set (k := Z.min v c1). set (s2 := with_mem s1 (copy (hmem s1) p' p k)).
  assert (Hcopy : forall i, 0 <= i < k -> heap_inv s2 l1 /\ hmem s2 (p' + i) = hmem s1 (p + i) /\ ~ (p <= p' + i < p + c1)).
  { intros i Hi. apply (copied s1 l1 p c1 p' c'); try done; unfold k in *; lia. }
  destruct (free_inv s2 l1 p c1) as (s3 & l3 & Hr3 & Hinv3 & [Hq3 Hq3'] & Ha3 & Hl3); [apply (Hcopy 0); unfold k; lia|done|].
  exists p', s3. split.
  { unfold move_block. mnext_by Hr. replace (p' =? 0) with false by lia. cbn [negb]. mnext. rewrite Hsz. mnext.
    mnext_by Hr3. done. }
  assert (Hout : forall x, ~ mine s l x -> ~ (p <= x < p + c1) -> hmem s3 x = copy (hmem s1) p' p k x).
  { intros x Hx Hx'. apply Ha3. intros [?|[?|?]]; [apply Hx; by left|apply Hx; auto|done]. }
  exists l3. split; [done|]. split; [unfold brk in *; by rewrite Hq3|]. split; [|right; split; [done|split]].
  - intros x Hx Hx'. rewrite Hout; [|done|].
    + unfold copy. replace ((p' <=? x) && (x <? p' + k)) with false; [by apply Ha1|].
      symmetry. apply not_true_iff_false. intros Hin. apply Hx, HP. unfold k in Hin. lia.
    + intros Hin. apply Hx, Hgain. lia.
  - intros i Hi. destruct (Hcopy i) as (_ & Hv' & Hno); [unfold k; lia|].
    rewrite Ha3, Hv'; [apply Ha1; apply (live_mine _ _ p c); [done|done|lia]|].
    intros [Hin|[Hin|Hin]]; [| |done]; apply (live_outside _ _ _ _ (p' + i) Hinv1 Hl'); [unfold k in *; lia|by auto|unfold k in *; lia|by auto].
  - right. split; [done|]. exists l1. split; [|done].
    destruct Hg as (? & _ & ? & ? & ?). split; [done|]. split; [exists c'; split; [lia|done]|]. split; [done|]. split; [done|].
    intros y Hy. apply HP. lia.
Qed.

(** [calloc] within the bounds is [malloc] of the product, and a block it gives
    reads 0. *)
Lemma calloc_Ret s l num size : heap_inv s l -> request s MALLOC_ALIGNMENT (num * size) -> exists p s',
  calloc freeRegionBuckets heap_base depth fuel num size s = Ret (p, s') /\
  memalign_post s l MALLOC_ALIGNMENT (num * size) p s' /\
  (p <> 0 -> forall x, p <= x < p + num * size -> hmem s' x = 0).
Proof.
  intros Hinv Hreq. pose proof Hreq as [Hroom _]%request_roomy. destruct Hreq as (_ & _ & Hn & _).
  destruct (memalign_Ret s l _ _ Hinv Hroom) as (p & s1 & Hr & Hpost). unfold calloc. rewrite w32_small by lia.
  destruct (Z.eqb_spec p 0) as [->|Hp].
  { exists 0, s1. split; [mnext_by Hr; done|]. split; [done|lia]. }
  set (m := fill (hmem s1) p 0 (num * size)). exists p, (with_mem s1 m).
  split; [mnext_by Hr; replace (p =? 0) with false by lia; done|]. split.
  - destruct Hpost as (l' & Hinv' & Hb & Ha & Ho & [[-> _]|(_ & Hal & Hg)]); [done|].
    exists l'. pose proof Hg as (_ & (c & Hc & Hl) & _ & _ & HP). split; [|split; [done|split; [|split; [done|by right]]]].
    + apply (client_block _ _ _ _ _ Hinv' Hl). intros x Hx. unfold m, fill.
      by replace ((p <=? x) && (x <? p + num * size)) with false by lia.
    + intros x Hx. cbn [with_mem hmem]. unfold m, fill. destruct ((p <=? x) && (x <? p + num * size)) eqn:Hin; [|by apply Ha].
      destruct Hx. apply HP. lia.
  - intros _ x Hx. cbn [with_mem hmem]. unfold m, fill. by replace ((p <=? x) && (x <? p + num * size)) with true by lia.
Qed.

Lemma realloc_block_Ret s l al p c n : heap_inv s l -> live l p c -> request s al n ->
  exists p' s', emmalloc_aligned_realloc freeRegionBuckets heap_base depth fuel p al n s = Ret (p', s') /\
  if n =? 0 then p' = 0 /\ exists l', free_post s l p c s' l' else realloc_post s l al p c n p' s'.
Proof.
  intros Hinv Hp Hreq. pose proof Hreq as [_ Hroom]%request_roomy. destruct Hreq as (_ & _ & Hn & _).
  destruct (inv_live_bounds _ _ _ _ Hinv Hp) as (Hlo & _).
  pose proof (buckets_pos (heap_base := heap_base)). pose proof buckets_below. unfold SIZEOF_REGION in *.
  unfold emmalloc_aligned_realloc. replace (p =? 0) with false by lia. destruct (Z.eqb_spec n 0) as [->|Hn0].
  { destruct (free_inv _ _ _ _ Hinv Hp) as (s' & l' & Hr & Hpost). exists 0, s'. split; [mnext_by Hr; done|]. eauto. }
  replace (MAX_ALLOC_SIZE <? n) with false by (unfold MAX_ALLOC_SIZE; lia).
  destruct (round_size n ltac:(lia)) as (Hv1 & Hv2 & Hv3). set (v := validate_alloc_size n) in *.
  replace (w32 (v + REGION_HEADER_SIZE)) with (v + 8) by (unfold REGION_HEADER_SIZE; rewrite w32_small; lia).
  destruct (resize_inv s l p c v Hinv Hp) as (ok & s1 & Hr & Hpost); [lia|done|].
  destruct ok; [|subst s1; destruct (move_Ret s l al p c n v) as (p' & s' & Hr' & Hpost'); try done; [lia|];
    exists p', s'; split; [mnext_by Hr; exact Hr'|done]].
  destruct Hpost as (c' & l' & Hinv' & [He _] & Hc' & Hre & Ha). exists p, s1. split; [mnext_by Hr; done|].
  exists l'. split; [done|]. split; [unfold brk; by rewrite He|]. split; [|right; split; [lia|split]].
  - intros x Hx Hx'. apply Ha. intros [?|?]; [done|lia].
  - intros i Hi. apply Ha. intros [Hm|?]; [|lia]. apply (live_mine _ _ _ _ (p + i) Hinv Hp); [lia|done].
  - left. split; [done|]. exists c'. split; [lia|done].
Qed.
(** ** The properties *)

(** C16: [memalign] (and [malloc], which is [memalign] to 16 bytes): an
    alignment that is no power of two or a size over the largest gives NULL and
    nothing else happens.  Any other request within the bounds ends: either
    with NULL and [ENOMEM], clients having the blocks they had; or with a new
    aligned block of at least the size, apart from every block given out, the
    others keeping their place and capacity (one may have grown).  The heap is
    well-formed again (headers and footers agree, every free region is in the
    list of its bucket, no two free regions are neighbours), and only the
    allocator's own memory was written. *)
Theorem memalign_spec s l al n : heap_inv s l -> 0 <= al ->
  (IS_POWER_OF_2 al = false \/ MAX_ALLOC_SIZE < n ->
    emmalloc_memalign freeRegionBuckets heap_base depth fuel al n s = Ret (0, s)) /\
  (request s al n -> exists p s',
    emmalloc_memalign freeRegionBuckets heap_base depth fuel al n s = Ret (p, s') /\
    memalign_post s l al n p s').
Proof.
  intros Hinv Hal. split; [|intros [Hroom _]%request_roomy; by apply memalign_Ret].
  unfold emmalloc_memalign. destruct depth as [|d]; [lia|]. intros Hbad. cbn [allocate_memory].
  destruct (IS_POWER_OF_2 al); [|done]. destruct Hbad as [?|Hbig]; [done|]. cbn [negb].
  by replace (MAX_ALLOC_SIZE <? n) with true by lia.
Qed.

(** [posix_memalign] and [aligned_alloc] are [memalign] after their checks:
    alignments that are no multiple of 4 are refused (22, NULL), and so is a
    size that is no multiple of [aligned_alloc]'s alignment; out of memory
    is 12. *)
Lemma aligned_Ret s l al n : heap_inv s l -> request s al n -> exists p s',
  memalign_post s l al n p s' /\
  posix_memalign freeRegionBuckets heap_base depth fuel al n s =
    (if al mod 4 =? 0 then Ret ((if p =? 0 then 12 else 0, Some p), s') else Ret ((22, None), s)) /\
  aligned_alloc freeRegionBuckets heap_base depth fuel al n s =
    (if negb (al mod 4 =? 0) then Ret (0, s) else if al =? 0 then Stop Undefined else
     if n mod al =? 0 then Ret (p, s') else Ret (0, s)).
Proof.
  intros Hinv [Hroom _]%request_roomy. destruct (memalign_Ret s l al n Hinv Hroom) as (p & s' & Hr & Hpost).
  exists p, s'. split; [done|]. unfold posix_memalign, aligned_alloc. split.
  - destruct (al mod 4 =? 0); [|done]. cbn [negb]. mnext_by Hr. by destruct (p =? 0).
  - destruct (al mod 4 =? 0); [|done]. destruct (al =? 0); [done|]. by destruct (n mod al =? 0).
Qed.

(** C19: [free] of a block given out ends with the heap well-formed, the region
    merged with free neighbours, and the other blocks as they were: place,
    capacity and contents.  Only the block and the allocator's words are
    written.  [free] of NULL does nothing.  [malloc_usable_size] is the
    capacity. *)
Theorem free_spec s l p c : heap_inv s l -> live l p c -> free freeRegionBuckets 0 s = Ret (tt, s) /\
  malloc_usable_size p s = Ret (c, s) /\
  exists s' l', free freeRegionBuckets p s = Ret (tt, s') /\ free_post s l p c s' l'.
Proof.
  intros Hinv Hp. split; [done|]. split; [by apply (malloc_usable_size_Ret _ l)|by apply free_inv].
Qed.

(** C18: [aligned_realloc] (and [realloc]) of a block given out: NULL with
    [ENOMEM], the block and its contents being untouched; or the block itself
    with a new capacity, or another aligned block, with the contents up to the
    smaller of the sizes; the other blocks stay as they are.  Size 0 frees, and NULL is
    [memalign]. *)
Theorem realloc_spec s l al p c n : heap_inv s l -> live l p c -> request s al n ->
  emmalloc_aligned_realloc freeRegionBuckets heap_base depth fuel 0 al n s =
    emmalloc_memalign freeRegionBuckets heap_base depth fuel al n s /\
  exists p' s', emmalloc_aligned_realloc freeRegionBuckets heap_base depth fuel p al n s = Ret (p', s') /\
  if n =? 0 then p' = 0 /\ exists l', free_post s l p c s' l' else realloc_post s l al p c n p' s'.
Proof. intros Hinv Hp Hreq. split; [done|]. by apply realloc_block_Ret. Qed.
End Allocator.
