(* ===== verification/EmmallocRefine.v ===== *)
(** The allocator as a ledger of blocks: whatever the clients call, every block
    given out keeps its place and contents until it is freed, and a new block
    is apart from all of them. *)
From S2P Require Import Prelude.
From S2P Require Import Wasi.
From S2P Require Import Mman.
From S2P Require Import Emmalloc.
From S2P Require Import EmmallocHeap.
From S2P Require Import EmmallocCore.
From S2P Require Import EmmallocSteps.
From S2P Require Import EmmallocAlloc.
From S2P Require Import EmmallocMemory.
From S2P Require Import EmmallocFree.
From S2P Require Import EmmallocTheorems.

(** ** The abstract allocator *)

(** The blocks clients have, with the bytes they asked for. *)
Abbreviation ledger := (gmap Z (list Z)).

Inductive call :=
  | Memalign (alignment size : Z)
  | Calloc (num size : Z)
  | Realloc (ptr alignment size : Z)
  | Release (ptr : Z)
  | Write (ptr : Z) (i : nat) (b : Z).

(** [n] bytes at [p] overlap no block. *)
Definition apart (A : ledger) (p n : Z) : Prop :=
  forall q bs, A !! q = Some bs -> p + n <= q \/ q + Z.of_nat (length bs) <= p.

Inductive step : ledger -> call -> Z -> ledger -> Prop :=
  | step_no_memory A al n : step A (Memalign al n) 0 A
  | step_memalign A al n p bs : p <> 0 -> p mod Z.max al 16 = 0 -> A !! p = None -> apart A p n ->
      Z.of_nat (length bs) = n -> step A (Memalign al n) p (<[p := bs]> A)
  | step_calloc_no_memory A num size : step A (Calloc num size) 0 A
  | step_calloc A num size p : p <> 0 -> p mod 16 = 0 -> A !! p = None -> apart A p (num * size) ->
      step A (Calloc num size) p (<[p := replicate (Z.to_nat (num * size)) 0]> A)
  | step_realloc_null A al n p A' : step A (Memalign al n) p A' -> step A (Realloc 0 al n) p A'
  | step_realloc_zero A p bs al : A !! p = Some bs -> step A (Realloc p al 0) 0 (delete p A)
  | step_realloc_no_memory A p bs al n : A !! p = Some bs -> n <> 0 -> step A (Realloc p al n) 0 A
  | step_realloc A p bs al n p' bs' : A !! p = Some bs -> n <> 0 -> p' <> 0 ->
      p' = p \/ (A !! p' = None /\ p' mod Z.max al 16 = 0) -> apart (delete p A) p' n ->
      Z.of_nat (length bs') = n -> (forall i, (i < length bs)%nat -> (i < length bs')%nat -> bs' !! i = bs !! i) ->
      step A (Realloc p al n) p' (<[p' := bs']> (delete p A))
  | step_free_null A : step A (Release 0) 0 A
  | step_free A p bs : A !! p = Some bs -> step A (Release p) 0 (delete p A)
  | step_write A p bs i b : A !! p = Some bs -> (i < length bs)%nat ->
      step A (Write p i b) 0 (<[p := <[i := b]> bs]> A).

Definition bytes_at (m : Z -> Z) (p : Z) (n : nat) : list Z := (fun i => m (p + Z.of_nat i)) <$> seq 0 n.

Lemma bytes_at_lookup m p n i : (i < n)%nat -> bytes_at m p n !! i = Some (m (p + Z.of_nat i)).
Proof. intros Hi. unfold bytes_at. by rewrite list_lookup_fmap, lookup_seq_lt by done. Qed.
Lemma bytes_at_length m p n : length (bytes_at m p n) = n.
Proof. unfold bytes_at. by rewrite length_fmap, length_seq. Qed.

Section Refine.
Context {W : Type} `{WasmMemLaws W} `{!Below4GiB W}.
Context (freeRegionBuckets heap_base : Z) `{!Placed freeRegionBuckets heap_base}.
Context (depth fuel : nat).
Abbreviation heap_inv := (heap_inv freeRegionBuckets heap_base).
Abbreviation live := (live heap_base).
Abbreviation mine := (mine freeRegionBuckets heap_base).

(** A call on the heap; a write is the client's own. *)
Definition exec (c : call) : M (heap W) Z :=
  match c with
  | Memalign al n => emmalloc_memalign freeRegionBuckets heap_base depth fuel al n
  | Calloc num size => calloc freeRegionBuckets heap_base depth fuel num size
  | Realloc p al n => emmalloc_aligned_realloc freeRegionBuckets heap_base depth fuel p al n
  | Release p => free freeRegionBuckets p;; mret 0
  | Write p i b => set_mem (fun m => fill m (p + Z.of_nat i) b 1);; mret 0
  end.

(** Calls on blocks that were given out, within the bounds. *)
Definition allowed (s : heap W) (A : ledger) (c : call) : Prop :=
  match c with
  | Memalign al n => request s al n
  | Calloc num size => request s MALLOC_ALIGNMENT (num * size)
  | Realloc p al n => request s al n /\ (p = 0 \/ is_Some (A !! p))
  | Release p => p = 0 \/ is_Some (A !! p)
  | Write p i _ => exists bs, A !! p = Some bs /\ (i < length bs)%nat
  end.

Definition holds (m : Z -> Z) (l : layout) (p : Z) (bs : list Z) : Prop := exists c,
  live l p c /\ Z.of_nat (length bs) <= c /\ forall i b, bs !! i = Some b -> m (p + Z.of_nat i) = b.

Definition ledger_holds (s : heap W) (l : layout) (A : ledger) : Prop :=
  forall p bs, A !! p = Some bs -> holds (hmem s) l p bs.

(** The heap has the blocks of the ledger. *)
Definition refines (s : heap W) (A : ledger) : Prop := exists l, heap_inv s l /\ ledger_holds s l A.

Lemma holds_pos s l p bs : heap_inv s l -> holds (hmem s) l p bs -> 0 < p.
Proof.
  intros Hinv (c & Hp & _). destruct (inv_live_bounds _ _ _ _ _ _ Hinv Hp) as (? & _).
  pose proof (buckets_pos (heap_base := heap_base)). pose proof buckets_below. unfold SIZEOF_REGION in *. lia.
Qed.

Lemma not_held s l A p : ledger_holds s l A -> (forall c, ~ live l p c) -> A !! p = None.
Proof. intros HA Hp. destruct (A !! p) as [bs|] eqn:E; [|done]. destruct (HA p bs E) as (c & Hc & _). by destruct (Hp c). Qed.

(** A block stays when it is not written and its capacity does not shrink. *)
Lemma holds_kept m m' l l' p bs c : holds m l p bs -> live l p c -> Forall wf_region l ->
  (exists c', c <= c' /\ live l' p c') -> (forall x, p <= x < p + c -> m' x = m x) -> holds m' l' p bs.
Proof.
  intros (d & Hd & Hlen & Hm) Hc Hwf (c' & Hcc & Hc') Hsame.
  destruct (live_apart _ _ _ _ _ _ Hwf Hd Hc) as [[_ ->]|?].
  - exists c'. split; [done|]. split; [lia|]. intros i b Hi. rewrite Hsame; [by apply Hm|].
    apply lookup_lt_Some in Hi. lia.
  - destruct (live_bounds _ _ _ _ Hwf Hd) as (_ & ? & _). destruct (live_bounds _ _ _ _ Hwf Hc) as (_ & ? & _). lia.
Qed.

Lemma apart_live l' A p c n : Forall wf_region l' -> live l' p c -> n <= c -> A !! p = None ->
  (forall q bs, A !! q = Some bs -> exists d, live l' q d /\ Z.of_nat (length bs) <= d) -> apart A p n.
Proof.
  intros Hwf Hp Hn Hnone HA q bs Hq. destruct (HA q bs Hq) as (d & Hd & Hlen).
  destruct (live_apart _ _ _ _ _ _ Hwf Hp Hd) as [[-> _]|?]; [by rewrite Hnone in Hq|lia].
Qed.

Lemma holds_cap (m : Z -> Z) l (A : ledger) : (forall p bs, A !! p = Some bs -> holds m l p bs) ->
  forall q bs, A !! q = Some bs -> exists d, live l q d /\ Z.of_nat (length bs) <= d.
Proof. intros HA q bs Hq. destruct (HA q bs Hq) as (d & ? & ? & _). eauto. Qed.

Lemma insert_holds s l A p bs : holds (hmem s) l p bs -> (forall q bs', q <> p -> A !! q = Some bs' -> holds (hmem s) l q bs') ->
  ledger_holds s l (<[p := bs]> A).
Proof.
  intros Hp HA q bs' Hq. apply lookup_insert_Some in Hq as [[<- <-]|[Hne Hq]]; [done|by apply HA].
Qed.

Lemma bytes_at_holds m l p n c : 0 <= n <= c -> live l p c -> holds m l p (bytes_at m p (Z.to_nat n)).
Proof.
  intros Hn Hp. exists c. split; [done|]. rewrite bytes_at_length. split; [lia|]. intros i b Hi.
  pose proof (lookup_lt_Some _ _ _ Hi) as Hlt. rewrite bytes_at_length in Hlt. rewrite bytes_at_lookup in Hi by done.
  by injection Hi.
Qed.

(** ** Calls *)
Lemma memalign_refines s l A al n p s' : heap_inv s l -> ledger_holds s l A -> 0 <= n ->
  memalign_post freeRegionBuckets heap_base s l al n p s' ->
  (p = 0 /\ refines s' A) \/
  (p <> 0 /\ p mod Z.max al 16 = 0 /\ A !! p = None /\ apart A p n /\
   refines s' (<[p := bytes_at (hmem s') p (Z.to_nat n)]> A)).
Proof.
  intros Hinv HA Hn (l' & Hinv' & _ & Ha & _ & Hpost).
  assert (Hkept : (forall q c, live l q c -> exists c', c <= c' /\ live l' q c') ->
    forall q bs, A !! q = Some bs -> holds (hmem s') l' q bs).
  { intros Hk q bs Hq. pose proof (HA q bs Hq) as (c & Hc & Hrest).
    apply (holds_kept (hmem s) _ l l' q bs c); [by apply HA|done|exact (inv_wf _ _ _ _ Hinv)|by apply Hk|].
    intros x Hx. apply Ha. by apply (live_mine _ _ _ _ q c). }
  destruct Hpost as [(-> & _ & Hs)|(Hp & Hal & Hk & (c & Hc & Hl) & Hf & _)].
  - left. split; [done|]. exists l'. split; [done|]. refine (Hkept _). intros q c Hq. exists c. split; [lia|by apply Hs].
  - right. assert (Hk' : forall q bs, A !! q = Some bs -> holds (hmem s') l' q bs).
    { apply Hkept. intros q d Hq. destruct (Hk q d Hq) as (c' & ? & ? & _). eauto. }
    assert (Hnone : A !! p = None) by (by apply (not_held s l)).
    split; [done|]. split; [done|]. split; [done|]. split.
    + apply (apart_live l' A p c n); [exact (inv_wf _ _ _ _ Hinv')|done|done|done|by eapply holds_cap].
    + exists l'. split; [done|]. apply insert_holds; [|by auto]. by apply (bytes_at_holds _ _ _ _ c).
Qed.

Lemma free_refines s l A p c s' l' : heap_inv s l -> ledger_holds s l A -> live l p c ->
  free_post freeRegionBuckets heap_base s l p c s' l' -> refines s' (delete p A).
Proof.
  intros Hinv HA Hp (Hinv' & _ & Ha & Hl). exists l'. split; [done|]. intros q bs Hq.
  apply lookup_delete_Some in Hq as [Hne Hq]. pose proof (HA q bs Hq) as (d & Hd & _).
  pose proof (inv_wf _ _ _ _ Hinv) as Hwf.
  apply (holds_kept (hmem s) _ l l' q bs d); [by apply HA|done|done|exists d; split; [lia|by apply Hl]|].
  intros x Hx. apply Ha. destruct (live_apart _ _ _ _ _ _ Hwf Hp Hd) as [[? _]|Hap]; [done|].
  pose proof (live_outside _ _ _ _ _ _ _ Hinv Hd Hx) as Hout. intros [?|[?|?]]; [by apply Hout; left|by apply Hout; right|lia].
Qed.

Lemma write_refines s l A p bs i b : heap_inv s l -> ledger_holds s l A -> A !! p = Some bs -> (i < length bs)%nat ->
  refines (with_mem s (fill (hmem s) (p + Z.of_nat i) b 1)) (<[p := <[i := b]> bs]> A).
Proof.
  intros Hinv HA Hp Hi. pose proof (HA p bs Hp) as (c & Hc & Hlen & Hm). exists l. split.
  - apply (client_block _ _ _ _ p c); [done|done|]. intros x Hx. unfold fill.
    by replace ((p + Z.of_nat i <=? x) && (x <? p + Z.of_nat i + 1)) with false by lia.
  - apply insert_holds.
    + exists c. split; [done|]. rewrite length_insert. split; [done|]. intros j b' Hj. cbn [with_mem hmem]. unfold fill.
      apply list_lookup_insert_Some in Hj as [(-> & -> & _)|[Hne Hj]].
      * by replace ((p + Z.of_nat j <=? p + Z.of_nat j) && (p + Z.of_nat j <? p + Z.of_nat j + 1)) with true by lia.
      * replace ((p + Z.of_nat i <=? p + Z.of_nat j) && (p + Z.of_nat j <? p + Z.of_nat i + 1)) with false by lia.
        by apply Hm.
    + intros q bs' Hne Hq. pose proof (HA q bs' Hq) as (d & Hd & _). pose proof (inv_wf _ _ _ _ Hinv) as Hwf.
      apply (holds_kept (hmem s) _ l l q bs' d); [by apply HA|done|done|exists d; split; [lia|done]|].
      intros x Hx. cbn [with_mem hmem]. unfold fill. destruct (live_apart _ _ _ _ _ _ Hwf Hc Hd) as [[? _]|Hap]; [done|].
      by replace ((p + Z.of_nat i <=? x) && (x <? p + Z.of_nat i + 1)) with false by lia.
Qed.

Lemma realloc_refines s l A al p c n p' s' bs : heap_inv s l -> ledger_holds s l A -> A !! p = Some bs -> live l p c ->
  Z.of_nat (length bs) <= c -> 0 < n -> realloc_post freeRegionBuckets heap_base s l al p c n p' s' ->
  exists A', step A (Realloc p al n) p' A' /\ refines s' A'.
Proof.
  intros Hinv HA Hbs Hp Hlen Hn (l' & Hinv' & _ & Ha & Hpost). pose proof (inv_wf _ _ _ _ Hinv) as Hwf.
  assert (Hkept : (forall q d, live l q d -> q <> p -> exists d', d <= d' /\ live l' q d') ->
    forall q bs', q <> p -> A !! q = Some bs' -> holds (hmem s') l' q bs').
  { intros Hk q bs' Hne Hq. pose proof (HA q bs' Hq) as (d & Hd & _).
    apply (holds_kept (hmem s) _ l l' q bs' d); [by apply HA|done|done|by apply Hk|].
    intros x Hx. apply Ha; [by apply (live_mine _ _ _ _ q d)|].
    destruct (live_apart _ _ _ _ _ _ Hwf Hp Hd) as [[? _]|?]; [done|lia]. }
  destruct Hpost as [(-> & _ & Hs & Hm)|(Hp' & Hm & Hcase)].
  { exists A. split; [apply (step_realloc_no_memory A p bs); [done|lia]|]. exists l'. split; [done|]. intros q bs' Hq.
    destruct (decide (q = p)) as [->|Hne].
    - apply (holds_kept (hmem s) _ l l' p bs' c); [by apply HA|done|done|exists c; split; [lia|by apply Hs]|done].
    - revert q bs' Hne Hq. refine (Hkept _). intros q d Hq _. exists d. split; [lia|by apply Hs]. }
  set (bs' := bytes_at (hmem s') p' (Z.to_nat n)).
  assert (Hnew : exists c', n <= c' /\ live l' p' c' /\ (forall q d, live l q d -> q <> p -> exists d', d <= d' /\ live l' q d') /\
    (p' = p \/ (A !! p' = None /\ p' mod Z.max al 16 = 0))).
  { destruct Hcase as [(-> & c' & Hc' & Hre)|(Hal & l1 & (Hk & (c' & Hc' & Hl1) & Hf & _) & Hl)]; exists c'.
    - split; [done|]. split; [apply Hre; by left|]. split; [|by left].
      intros q d Hq Hne. exists d. split; [lia|]. apply Hre. by right.
    - assert (Hne : p' <> p) by (intros ->; by apply (Hf c)).
      split; [done|]. split; [by apply Hl|]. split; [|right; split; [by apply (not_held s l)|done]].
      intros q d Hq Hqp. destruct (Hk q d Hq) as (d' & ? & ? & _). exists d'. split; [done|by apply Hl]. }
  destruct Hnew as (c' & Hc' & Hl' & Hothers & Hfresh). specialize (Hkept Hothers).
  assert (Hrest : forall q bs0, delete p A !! q = Some bs0 -> holds (hmem s') l' q bs0).
  { intros q bs0 [Hne Hq]%lookup_delete_Some. by apply Hkept. }
  exists (<[p' := bs']> (delete p A)). split.
  - apply (step_realloc A p bs al n p' bs'); try done; [lia| |unfold bs'; rewrite bytes_at_length; lia|].
    + apply (apart_live l' _ p' c' n); [exact (inv_wf _ _ _ _ Hinv')|done|done| |by eapply holds_cap].
      destruct Hfresh as [->|[Hnone _]]; [by rewrite lookup_delete_eq|].
      destruct (decide (p' = p)) as [->|?]; [by rewrite lookup_delete_eq|by rewrite lookup_delete_ne].
    + intros i Hi Hi'. unfold bs' in *. rewrite bytes_at_length in Hi'. rewrite bytes_at_lookup by done.
      destruct (lookup_lt_is_Some_2 bs i Hi) as [b Hb]. rewrite Hb. f_equal. rewrite Hm by lia.
      destruct (HA p bs Hbs) as (d & _ & _ & Hread). by apply Hread.
  - exists l'. split; [done|]. apply insert_holds; [|intros q bs0 _; apply Hrest].
    apply (bytes_at_holds _ _ _ _ c'); [lia|done].
Qed.

(** ** The start *)

(** The static variables: no region, no bit, every list empty. *)
Definition fresh (s : heap W) : Prop :=
  listOfAllRegions s = 0 /\ freeRegionBucketsUsed s = 0 /\ heap_base <= brk s /\
  forall i, 0 <= i < 64 -> let h := bucket_head freeRegionBuckets i in
    load (hmem s) (h + PREV) = h /\ load (hmem s) (h + NEXT) = h.

Lemma fresh_inv s : fresh s -> heap_inv s [].
Proof.
  intros (Hroot & Hu & Hb & Hh). exists (fun _ => []). split; [split|done| |]; cbn [total newest]; try done.
  - split; [|intros i; apply NoDup_nil_2| |done|by rewrite Hu].
    + intros i a. cbn [regions]. split; [by intros ?%elem_of_nil|by intros (sz & ?%elem_of_nil & _)].
    + intros i Hi. destruct (Hh i Hi). by split.
  - lia.
  - by rewrite Hroot, Z.add_0_r.
Qed.

(** ** The refinement *)
Context (Hdepth : 65537 <= Z.of_nat depth) (Hfuel : 2 ^ 28 <= Z.of_nat fuel).

(** C17: the allocator refines the ledger, from the static initialisation on (no
    blocks): any call within the bounds on blocks
    that were given out returns, and what it returns and leaves is a step of the
    ledger.  So along any sequence of calls the blocks given out are apart,
    stay where they are with what was written to them until they are freed or
    resized, [calloc]'s are zeroed, and [realloc] keeps contents. *)
Theorem allocator_refines s A c : (fresh s -> refines s ∅) /\
  (refines s A -> allowed s A c -> exists r s' A',
    exec c s = Ret (r, s') /\ step A c r A' /\ refines s' A').
Proof.
  split; [intros Hf; exists []; split; [by apply fresh_inv|intros q bs Hq; by rewrite lookup_empty in Hq]|].
  intros (l & Hinv & HA) Hok. destruct c as [al n|num size|p al n|p|p i b]; cbn [exec allowed] in *.
  - pose proof Hok as [Hroom _]%request_roomy. destruct Hok as (_ & _ & Hn & _).
    destruct (memalign_Ret _ _ depth fuel Hdepth Hfuel s l al n Hinv Hroom) as (p & s' & Hr & Hpost).
    destruct (memalign_refines _ _ A _ _ _ _ Hinv HA (proj1 Hn) Hpost) as [(-> & Href)|(Hp & Hal & Hf & Hap & Href)].
    + exists 0, s', A. split; [done|]. split; [constructor|done].
    + eexists p, s', _. split; [done|]. split; [|exact Href]. constructor; try done. rewrite bytes_at_length. lia.
  - pose proof Hok as (_ & _ & Hn & _).
    destruct (calloc_Ret _ _ depth fuel Hdepth Hfuel s l num size Hinv Hok) as (p & s' & Hr & Hpost & Hz).
    destruct (memalign_refines _ _ A _ _ _ _ Hinv HA (proj1 Hn) Hpost) as [(-> & Href)|(Hp & Hal & Hf & Hap & Href)].
    + exists 0, s', A. split; [done|]. split; [constructor|done].
    + eexists p, s', _. split; [done|]. split; [by apply step_calloc|].
      replace (replicate (Z.to_nat (num * size)) 0) with (bytes_at (hmem s') p (Z.to_nat (num * size))); [done|].
      apply list_eq_same_length with (Z.to_nat (num * size)); [by rewrite length_replicate|by rewrite bytes_at_length|].
      intros i x y Hi. rewrite bytes_at_lookup by done. rewrite lookup_replicate_2 by done. intros [= <-] [= <-]. apply Hz; [done|lia].
  - destruct Hok as (Hreq & Hcase). pose proof Hreq as (_ & _ & Hn & _). destruct (decide (p = 0)) as [->|Hp0].
    { pose proof Hreq as [Hroom _]%request_roomy.
      destruct (memalign_Ret _ _ depth fuel Hdepth Hfuel s l al n Hinv Hroom) as (p & s' & Hr & Hpost).
      destruct (memalign_refines _ _ A _ _ _ _ Hinv HA (proj1 Hn) Hpost) as [(-> & Href)|(Hp & Hal & Hf & Hap & Href)].
      - exists 0, s', A. split; [done|]. split; [by do 2 constructor|done].
      - eexists p, s', _. split; [done|]. split; [|exact Href]. do 2 constructor; try done. rewrite bytes_at_length. lia. }
    destruct Hcase as [?|[bs Hbs]]; [done|]. destruct (HA p bs Hbs) as (c & Hp & Hlen & _).
    destruct (realloc_block_Ret _ _ depth fuel Hdepth Hfuel s l al p c n Hinv Hp Hreq) as (p' & s' & Hr & Hpost).
    exists p', s'. destruct (Z.eqb_spec n 0) as [->|Hn0].
    + destruct Hpost as (-> & l' & Hpost). exists (delete p A). split; [done|]. split; [by apply (step_realloc_zero A p bs)|].
      by apply (free_refines s l A p c s' l').
    + destruct (realloc_refines s l A al p c n p' s' bs) as (A' & Hst & Href); try done; [lia|]. by exists A'.
  - destruct Hok as [->|[bs Hbs]]; [exists 0, s, A; split; [done|]; split; [constructor|by exists l]|].
    destruct (HA p bs Hbs) as (c & Hp & Hlen & _). destruct (free_inv _ _ s l p c Hinv Hp) as (s' & l' & Hr & Hpost).
    exists 0, s', (delete p A). split; [mnext_by Hr; done|]. split; [by apply (step_free A p bs)|].
    by apply (free_refines s l A p c s' l').
  - destruct Hok as (bs & Hbs & Hi). exists 0, (with_mem s (fill (hmem s) (p + Z.of_nat i) b 1)), (<[p := <[i := b]> bs]> A).
    split; [done|]. split; [by constructor|]. by apply (write_refines s l).
Qed.
End Refine.
