(* ===== verification/EmmallocExamples.v ===== *)
(** The allocator's theorems at concrete heaps: a fresh one, and one with a
    block of 24 bytes and a free region. *)
From S2P Require Import Prelude.
From S2P Require Import Wasi.
From S2P Require Import Sim.
From S2P Require Import Mman.
From S2P Require Import Emmalloc.
From S2P Require Import EmmallocHeap.
From S2P Require Import EmmallocCore.
From S2P Require Import EmmallocAlloc.
From S2P Require Import EmmallocTheorems.
From S2P Require Import EmmallocRefine.

#[export] Instance placed0 : Placed 1024 4096.
Proof. split; vm_compute; done. Qed.

Definition levels0 : nat := Z.to_nat 65537.
Definition rounds0 : nat := Z.to_nat (2 ^ 28).
Lemma levels0_enough : 65537 <= Z.of_nat levels0.
Proof. unfold levels0. rewrite Z2Nat.id; lia. Qed.
Lemma rounds0_enough : 2 ^ 28 <= Z.of_nat rounds0.
Proof. unfold rounds0. rewrite Z2Nat.id; [done|]. apply Z.pow_nonneg. lia. Qed.
#[global] Opaque levels0 rounds0.

(** ** A fresh heap *)

(** The static array: every list points to itself. *)
Definition static_memory : Z -> Z := foldr (fun i m =>
  let h := bucket_head 1024 i in store (store m (h + PREV) h) (h + NEXT) h) (fun _ => 0) (seqZ 0 64).

Definition heap0 : heap ro := Heap static_memory 0 0 (Env 0 (Ro 4 0)).

Definition ring_ok (m : Z -> Z) (i : Z) : bool :=
  let h := bucket_head 1024 i in (load m (h + PREV) =? h) && (load m (h + NEXT) =? h).

Lemma heap0_fresh : fresh 1024 4096 heap0.
Proof.
  split; [done|]. split; [done|]. split; [vm_compute; discriminate|]. intros i Hi. cbn zeta.
  assert (Hb : ring_ok static_memory i = true).
  { apply (forall_below (ring_ok static_memory) 0 64); [vm_compute; reflexivity|lia]. }
  apply andb_prop in Hb as [Hp%Z.eqb_eq Hn%Z.eqb_eq]. exact (conj Hp Hn).
Qed.

(** ** A heap with a block *)
Definition memory1 : Z -> Z :=
  let m := store (store static_memory 4096 16) 4108 16 in
  let m := store (store m 4100 0) 4104 4288 in
  let m := store (store m 4112 32) 4140 32 in
  let m := store (store m 4144 128) 4268 129 in
  let h := bucket_head 1024 14 in
  let m := store (store m (4144 + PREV) h) (4144 + NEXT) h in
  let m := store (store m (h + PREV) 4144) (h + NEXT) 4144 in
  store (store m 4272 16) 4284 16.

Definition layout1 : layout := [(0, Gap); (16, Root 0 4288); (32, Used); (128, Free); (16, End)].
Definition lists1 (i : Z) : list Z := if i =? 14 then [4144] else [].
Definition heap1 : heap ro := Heap memory1 4096 (2 ^ 14) (Env 0 (Ro 4 0)).

Lemma heap1_free a size : (a, size, Free) ∈ regions 4096 layout1 <-> a = 4144 /\ size = 128.
Proof.
  cbn [regions layout1]. rewrite !elem_of_cons, elem_of_nil. split; [|intros [-> ->]; auto 9].
  intros [[=]|[[=]|[[=]|[[= -> ->]|[[=]|[]]]]]]. done.
Qed.

Lemma heap1_inv : heap_inv 1024 4096 heap1 layout1.
Proof.
  exists lists1. split; [split|reflexivity|reflexivity|exact (fun _ _ => I)].
  - repeat constructor; vm_compute; done.
  - vm_compute. tauto.
  - split.
    + intros i a. setoid_rewrite heap1_free. unfold lists1. split.
      * destruct (Z.eqb_spec i 14) as [->|]; [|by intros ?%elem_of_nil]. intros ->%list_elem_of_singleton. by exists 128.
      * intros (size & [-> ->] & <-). by left.
    + intros i. unfold lists1. destruct (i =? 14); [apply NoDup_singleton|apply NoDup_nil_2].
    + intros i Hi. unfold lists1. destruct (Z.eqb_spec i 14) as [->|Hne]; [vm_compute; tauto|].
      assert (Hb : (i =? 14) || ring_ok memory1 i = true).
      { apply (forall_below (fun i => (i =? 14) || ring_ok memory1 i) 0 64); [vm_compute; reflexivity|lia]. }
      replace (i =? 14) with false in Hb by lia. apply andb_prop in Hb as [Hp%Z.eqb_eq Hn%Z.eqb_eq]. exact (conj Hn Hp).
    + intros i. unfold lists1. destruct (Z.eqb_spec i 14) as [->|]; done.
    + vm_compute. intuition discriminate.
  - vm_compute. discriminate.
  - exact (fun _ _ => I).
  - exact (fun _ _ _ _ _ => I).
  - exact (fun _ _ => eq_refl).
Qed.

Lemma heap1_live : live 4096 layout1 4116 24.
Proof. unfold live. cbn [regions layout1]. right. right. left. Qed.

Lemma heap1_request al n : IS_POWER_OF_2 al = true -> 0 <= al <= 65536 -> 0 <= n <= 1000 -> request heap1 al n.
Proof. intros Hp Hal Hn. split; [done|]. split; [done|]. change (brk heap1) with 262144. lia. Qed.

Lemma memalign_spec_witness :
  heap_inv 1024 4096 heap1 layout1 /\ 0 <= 64 /\
  (IS_POWER_OF_2 64 = false \/ MAX_ALLOC_SIZE < 40 -> emmalloc_memalign 1024 4096 levels0 rounds0 64 40 heap1 = Ret (0, heap1)) /\
  (request heap1 64 40 -> exists p s', emmalloc_memalign 1024 4096 levels0 rounds0 64 40 heap1 = Ret (p, s') /\
    memalign_post 1024 4096 heap1 layout1 64 40 p s').
Proof.
  split; [exact heap1_inv|]. split; [lia|].
  apply (memalign_spec 1024 4096 levels0 rounds0 levels0_enough rounds0_enough heap1 layout1 64 40); [exact heap1_inv|lia].
Defined.

Lemma bucket_documented_witness : 8 <= 5000 < 2 ^ 32 /\ 0 <= 33 < 64 /\
  (compute_free_list_bucket 5000 = 33 <-> at_ BUCKETS 33 <= 5000 < at_ BUCKETS 34).
Proof. split; [lia|]. split; [lia|]. apply (bucket_documented 5000 33); lia. Defined.

Lemma free_spec_witness : free 1024 0 heap1 = Ret (tt, heap1) /\ malloc_usable_size 4116 heap1 = Ret (24, heap1) /\
  exists s' l', free 1024 4116 heap1 = Ret (tt, s') /\ free_post 1024 4096 heap1 layout1 4116 24 s' l'.
Proof. apply (free_spec 1024 4096 heap1 layout1 4116 24); [exact heap1_inv|exact heap1_live]. Defined.

Lemma realloc_spec_witness :
  emmalloc_aligned_realloc 1024 4096 levels0 rounds0 0 16 100 heap1 =
    emmalloc_memalign 1024 4096 levels0 rounds0 16 100 heap1 /\
  exists p' s', emmalloc_aligned_realloc 1024 4096 levels0 rounds0 4116 16 100 heap1 = Ret (p', s') /\
    realloc_post 1024 4096 heap1 layout1 16 4116 24 100 p' s'.
Proof.
  apply (realloc_spec 1024 4096 levels0 rounds0 levels0_enough rounds0_enough heap1 layout1 16 4116 24 100);
    [exact heap1_inv|exact heap1_live|apply heap1_request; [reflexivity|lia|lia]].
Defined.

Lemma allocator_refines_witness :
  refines 1024 4096 heap0 ∅ /\ exists r s' A',
    exec 1024 4096 levels0 rounds0 (Memalign 16 100) heap0 = Ret (r, s') /\ step ∅ (Memalign 16 100) r A' /\
    refines 1024 4096 s' A'.
Proof.
  pose proof (allocator_refines 1024 4096 levels0 rounds0 levels0_enough rounds0_enough heap0 ∅ (Memalign 16 100)) as [H0 H].
  pose proof (H0 heap0_fresh) as H1. split; [exact H1|]. apply H; [exact H1|].
  split; [reflexivity|]. split; [lia|]. change (brk heap0) with 262144. lia.
Defined.
