(* ===== verification/Hash.v ===== *)
(** The hash functions of [crypt] ([crypt/crypt_md5.c], [crypt_sha256.c],
    [crypt_sha512.c]): contexts that collect a message in blocks, and the three
    block functions. *)
From S2P Require Import Prelude.

(** ** Contexts

    [struct md5], [struct sha256] and [struct sha512] differ in the width of
    [h] and the size of [buf]. *)
Record ctx := Ctx { ctx_len : Z; ctx_h : list Z; ctx_buf : list Z }.

(** [memcpy] and [memset] into the buffer at [r]. *)
Definition poke (buf : list Z) (r : nat) (p : list Z) : list Z := take r buf ++ p ++ drop (r + length p) buf.

Definition byte_of (x : Z) (k : Z) : Z := w8 (Z.shiftr x k).
(** A word's bytes, the most significant one first and the other way round. *)
Definition be_bytes (n : nat) (x : Z) : list Z := (fun i => byte_of x (8 * Z.of_nat i)) <$> rev (seq 0 n).
Definition le_bytes (n : nat) (x : Z) : list Z := (fun i => byte_of x (8 * Z.of_nat i)) <$> seq 0 n.

Section Stream.
(** The size of [buf], where [pad] makes a new block, the block function, the
    bytes of the length. *)
Variables (size limit : nat) (processblock : list Z -> list Z -> list Z) (len_bytes : Z -> list Z).

(** [for (; len >= 64; len -= 64, p += 64) processblock(s, p);]: the hash state
    and what is left; [fuel] bounds the blocks. *)
Fixpoint blocks (fuel : nat) (h p : list Z) : list Z * list Z :=
  match fuel with
  | O => (h, p)
  | S fuel =>
      if (size <=? length p)%nat then blocks fuel (processblock h (take size p)) (drop size p)
      else (h, p)
  end.

(** The part of an update after a partial block. *)
Definition update_rest (len : Z) (h buf p : list Z) : ctx :=
  let '(h, p) := blocks (length p) h p in Ctx len h (poke buf 0 p).

Definition update (s : ctx) (m : list Z) : ctx :=
  let r := Z.to_nat (ctx_len s mod Z.of_nat size) in
  let len := w64 (ctx_len s + Z.of_nat (length m)) in
  if negb (r =? 0)%nat then
    if (length m <? size - r)%nat then Ctx len (ctx_h s) (poke (ctx_buf s) r m)
    else
      let buf := poke (ctx_buf s) r (take (size - r) m) in
      update_rest len (processblock (ctx_h s) buf) buf (drop (size - r) m)
  else update_rest len (ctx_h s) (ctx_buf s) m.

Definition pad (s : ctx) : ctx :=
  let r := Z.to_nat (ctx_len s mod Z.of_nat size) in
  let buf := poke (ctx_buf s) r [128] in
  let r := S r in
  let '(h, buf, r) :=
    if (limit <? r)%nat then
      let buf := poke buf r (replicate (size - r) 0) in (processblock (ctx_h s) buf, buf, O)
    else (ctx_h s, buf, r) in
  let buf := poke buf r (replicate (size - 8 - r) 0) in
  let len := w64 (ctx_len s * 8) in
  let buf := poke buf (size - 8) (len_bytes len) in
  Ctx len (processblock h buf) buf.
End Stream.

(** ** MD5 *)
Definition tab : list Z :=
  [0xd76aa478; 0xe8c7b756; 0x242070db; 0xc1bdceee; 0xf57c0faf; 0x4787c62a; 0xa8304613; 0xfd469501;
   0x698098d8; 0x8b44f7af; 0xffff5bb1; 0x895cd7be; 0x6b901122; 0xfd987193; 0xa679438e; 0x49b40821;
   0xf61e2562; 0xc040b340; 0x265e5a51; 0xe9b6c7aa; 0xd62f105d; 0x2441453; 0xd8a1e681; 0xe7d3fbc8;
   0x21e1cde6; 0xc33707d6; 0xf4d50d87; 0x455a14ed; 0xa9e3e905; 0xfcefa3f8; 0x676f02d9; 0x8d2a4c8a;
   0xfffa3942; 0x8771f681; 0x6d9d6122; 0xfde5380c; 0xa4beea44; 0x4bdecfa9; 0xf6bb4b60; 0xbebfbc70;
   0x289b7ec6; 0xeaa127fa; 0xd4ef3085; 0x4881d05; 0xd9d4d039; 0xe6db99e5; 0x1fa27cf8; 0xc4ac5665;
   0xf4292244; 0x432aff97; 0xab9423a7; 0xfc93a039; 0x655b59c3; 0x8f0ccc92; 0xffeff47d; 0x85845dd1;
   0x6fa87e4f; 0xfe2ce6e0; 0xa3014314; 0x4e0811a1; 0xf7537e82; 0xbd3af235; 0x2ad7d2bb; 0xeb86d391].

Definition rol32 (n k : Z) : Z := Z.lor (w32 (Z.shiftl n k)) (Z.shiftr n (32 - k)).
Definition md5_F (x y z : Z) : Z := Z.lxor z (Z.land x (Z.lxor y z)).
Definition md5_G (x y z : Z) : Z := Z.lxor y (Z.land z (Z.lxor y x)).
Definition md5_H (x y z : Z) : Z := Z.lxor (Z.lxor x y) z.
Definition md5_I (x y z : Z) : Z := Z.lxor y (Z.lor x (w32 (Z.lnot z))).
(** [FF], [GG], [HH] and [II]: the new value of [a]. *)
Definition md5_op (f : Z -> Z -> Z -> Z) (a b c d w s t : Z) : Z :=
  w32 (rol32 (w32 (a + f b c d + w + t)) s + b).

(** Four operations from index [i] on; [index] picks the word. *)
Definition md5_four (f : Z -> Z -> Z -> Z) (index : nat -> nat) (s1 s2 s3 s4 : Z) (W : list Z)
    (st : Z * Z * Z * Z) (i : nat) : Z * Z * Z * Z :=
  let '(a, b, c, d) := st in
  let a := md5_op f a b c d (at_ W (index i)) s1 (at_ tab i) in
  let d := md5_op f d a b c (at_ W (index (i + 1)%nat)) s2 (at_ tab (i + 1)) in
  let c := md5_op f c d a b (at_ W (index (i + 2)%nat)) s3 (at_ tab (i + 2)) in
  let b := md5_op f b c d a (at_ W (index (i + 3)%nat)) s4 (at_ tab (i + 3)) in
  (a, b, c, d).

Definition word_le (buf : list Z) (i : nat) : Z :=
  Z.lor (Z.lor (Z.lor (at_ buf (4 * i)) (Z.shiftl (at_ buf (4 * i + 1)) 8)) (Z.shiftl (at_ buf (4 * i + 2)) 16))
    (Z.shiftl (at_ buf (4 * i + 3)) 24).

Definition md5_block (h buf : list Z) : list Z :=
  let W := word_le buf <$> seq 0 16 in
  let st := (at_ h 0, at_ h 1, at_ h 2, at_ h 3) in
  let st := foldl (md5_four md5_F (fun i => i) 7 12 17 22 W) st [0; 4; 8; 12]%nat in
  let st := foldl (md5_four md5_G (fun i => ((5 * i + 1) mod 16)%nat) 5 9 14 20 W) st [16; 20; 24; 28]%nat in
  let st := foldl (md5_four md5_H (fun i => ((3 * i + 5) mod 16)%nat) 4 11 16 23 W) st [32; 36; 40; 44]%nat in
  let '(a, b, c, d) := foldl (md5_four md5_I (fun i => (7 * i mod 16)%nat) 6 10 15 21 W) st [48; 52; 56; 60]%nat in
  [w32 (at_ h 0 + a); w32 (at_ h 1 + b); w32 (at_ h 2 + c); w32 (at_ h 3 + d)].

Definition md5_h0 : list Z := [0x67452301; 0xefcdab89; 0x98badcfe; 0x10325476].
Definition md5_init (buf : list Z) : ctx := Ctx 0 md5_h0 buf.
Definition md5_update : ctx -> list Z -> ctx := update 64 md5_block.
Definition md5_pad : ctx -> ctx := pad 64 56 md5_block (le_bytes 8).
Definition md5_sum (s : ctx) : list Z := concat (le_bytes 4 <$> take 4 (ctx_h (md5_pad s))).

(** ** SHA-2 *)

(** The variables of a round. *)
Record sha := Sha { sa : Z; sb : Z; sc : Z; sd : Z; se : Z; sf : Z; sg : Z; sh : Z }.

Definition Ch (x y z : Z) : Z := Z.lxor z (Z.land x (Z.lxor y z)).
Definition Maj (x y z : Z) : Z := Z.lor (Z.land x y) (Z.land z (Z.lor x y)).

Section Sha.
(** The width of words, [K] and the sums of rotations. *)
Variables (wrap : Z -> Z) (K : list Z) (S0 S1 R0 R1 : Z -> Z).

Definition sha_round (W : list Z) (s : sha) (i : nat) : sha :=
  let t1 := wrap (sh s + S1 (se s) + Ch (se s) (sf s) (sg s) + at_ K i + at_ W i) in
  let t2 := wrap (S0 (sa s) + Maj (sa s) (sb s) (sc s)) in
  Sha (wrap (t1 + t2)) (sa s) (sb s) (sc s) (wrap (sd s + t1)) (se s) (sf s) (sg s).

(** [W[i]] from the words before it. *)
Definition sha_extend (W : list Z) (i : nat) : list Z :=
  W ++ [wrap (R1 (at_ W (i - 2)) + at_ W (i - 7) + R0 (at_ W (i - 15)) + at_ W (i - 16))].

Definition sha_block (rounds : nat) (word : list Z -> nat -> Z) (h buf : list Z) : list Z :=
  let W := foldl sha_extend (word buf <$> seq 0 16) (seq 16 (rounds - 16)) in
  let s := foldl (sha_round W) (Sha (at_ h 0) (at_ h 1) (at_ h 2) (at_ h 3) (at_ h 4) (at_ h 5) (at_ h 6) (at_ h 7))
    (seq 0 rounds) in
  [wrap (at_ h 0 + sa s); wrap (at_ h 1 + sb s); wrap (at_ h 2 + sc s); wrap (at_ h 3 + sd s);
   wrap (at_ h 4 + se s); wrap (at_ h 5 + sf s); wrap (at_ h 6 + sg s); wrap (at_ h 7 + sh s)].
End Sha.

(** ** SHA-256; the constants are those of the source, in decimal *)
Definition K256 : list Z :=
  [1116352408; 1899447441; 3049323471; 3921009573; 961987163; 1508970993; 2453635748; 2870763221;
   3624381080; 310598401; 607225278; 1426881987; 1925078388; 2162078206; 2614888103; 3248222580;
   3835390401; 4022224774; 264347078; 604807628; 770255983; 1249150122; 1555081692; 1996064986;
   2554220882; 2821834349; 2952996808; 3210313671; 3336571891; 3584528711; 113926993; 338241895;
   666307205; 773529912; 1294757372; 1396182291; 1695183700; 1986661051; 2177026350; 2456956037;
   2730485921; 2820302411; 3259730800; 3345764771; 3516065817; 3600352804; 4094571909; 275423344;
   430227734; 506948616; 659060556; 883997877; 958139571; 1322822218; 1537002063; 1747873779;
   1955562222; 2024104815; 2227730452; 2361852424; 2428436474; 2756734187; 3204031479; 3329325298].

Definition ror32 (n k : Z) : Z := Z.lor (Z.shiftr n k) (w32 (Z.shiftl n (32 - k))).
Definition S0_256 (x : Z) : Z := Z.lxor (Z.lxor (ror32 x 2) (ror32 x 13)) (ror32 x 22).
Definition S1_256 (x : Z) : Z := Z.lxor (Z.lxor (ror32 x 6) (ror32 x 11)) (ror32 x 25).
Definition R0_256 (x : Z) : Z := Z.lxor (Z.lxor (ror32 x 7) (ror32 x 18)) (Z.shiftr x 3).
Definition R1_256 (x : Z) : Z := Z.lxor (Z.lxor (ror32 x 17) (ror32 x 19)) (Z.shiftr x 10).

Definition word_be32 (buf : list Z) (i : nat) : Z :=
  Z.lor (Z.lor (Z.lor (Z.shiftl (at_ buf (4 * i)) 24) (Z.shiftl (at_ buf (4 * i + 1)) 16))
    (Z.shiftl (at_ buf (4 * i + 2)) 8)) (at_ buf (4 * i + 3)).

Definition sha256_block : list Z -> list Z -> list Z :=
  sha_block w32 K256 S0_256 S1_256 R0_256 R1_256 64 word_be32.
Definition sha256_h0 : list Z :=
  [1779033703; 3144134277; 1013904242; 2773480762;
   1359893119; 2600822924; 528734635; 1541459225].
Definition sha256_init (buf : list Z) : ctx := Ctx 0 sha256_h0 buf.
Definition sha256_update : ctx -> list Z -> ctx := update 64 sha256_block.
Definition sha256_pad : ctx -> ctx := pad 64 56 sha256_block (be_bytes 8).
Definition sha256_sum (s : ctx) : list Z := concat (be_bytes 4 <$> take 8 (ctx_h (sha256_pad s))).

(** ** SHA-512 *)
Definition K512 : list Z :=
  [0x428a2f98d728ae22; 0x7137449123ef65cd; 0xb5c0fbcfec4d3b2f; 0xe9b5dba58189dbbc;
   0x3956c25bf348b538; 0x59f111f1b605d019; 0x923f82a4af194f9b; 0xab1c5ed5da6d8118;
   0xd807aa98a3030242; 0x12835b0145706fbe; 0x243185be4ee4b28c; 0x550c7dc3d5ffb4e2;
   0x72be5d74f27b896f; 0x80deb1fe3b1696b1; 0x9bdc06a725c71235; 0xc19bf174cf692694;
   0xe49b69c19ef14ad2; 0xefbe4786384f25e3; 0xfc19dc68b8cd5b5; 0x240ca1cc77ac9c65;
   0x2de92c6f592b0275; 0x4a7484aa6ea6e483; 0x5cb0a9dcbd41fbd4; 0x76f988da831153b5;
   0x983e5152ee66dfab; 0xa831c66d2db43210; 0xb00327c898fb213f; 0xbf597fc7beef0ee4;
   0xc6e00bf33da88fc2; 0xd5a79147930aa725; 0x6ca6351e003826f; 0x142929670a0e6e70;
   0x27b70a8546d22ffc; 0x2e1b21385c26c926; 0x4d2c6dfc5ac42aed; 0x53380d139d95b3df;
   0x650a73548baf63de; 0x766a0abb3c77b2a8; 0x81c2c92e47edaee6; 0x92722c851482353b;
   0xa2bfe8a14cf10364; 0xa81a664bbc423001; 0xc24b8b70d0f89791; 0xc76c51a30654be30;
   0xd192e819d6ef5218; 0xd69906245565a910; 0xf40e35855771202a; 0x106aa07032bbd1b8;
   0x19a4c116b8d2d0c8; 0x1e376c085141ab53; 0x2748774cdf8eeb99; 0x34b0bcb5e19b48a8;
   0x391c0cb3c5c95a63; 0x4ed8aa4ae3418acb; 0x5b9cca4f7763e373; 0x682e6ff3d6b2b8a3;
   0x748f82ee5defb2fc; 0x78a5636f43172f60; 0x84c87814a1f0ab72; 0x8cc702081a6439ec;
   0x90befffa23631e28; 0xa4506cebde82bde9; 0xbef9a3f7b2c67915; 0xc67178f2e372532b;
   0xca273eceea26619c; 0xd186b8c721c0c207; 0xeada7dd6cde0eb1e; 0xf57d4f7fee6ed178;
   0x6f067aa72176fba; 0xa637dc5a2c898a6; 0x113f9804bef90dae; 0x1b710b35131c471b;
   0x28db77f523047d84; 0x32caab7b40c72493; 0x3c9ebe0a15c9bebc; 0x431d67c49c100d4c;
   0x4cc5d4becb3e42b6; 0x597f299cfc657e2a; 0x5fcb6fab3ad6faec; 0x6c44198c4a475817].

Definition ror64 (n k : Z) : Z := Z.lor (Z.shiftr n k) (w64 (Z.shiftl n (64 - k))).
Definition S0_512 (x : Z) : Z := Z.lxor (Z.lxor (ror64 x 28) (ror64 x 34)) (ror64 x 39).
Definition S1_512 (x : Z) : Z := Z.lxor (Z.lxor (ror64 x 14) (ror64 x 18)) (ror64 x 41).
Definition R0_512 (x : Z) : Z := Z.lxor (Z.lxor (ror64 x 1) (ror64 x 8)) (Z.shiftr x 7).
Definition R1_512 (x : Z) : Z := Z.lxor (Z.lxor (ror64 x 19) (ror64 x 61)) (Z.shiftr x 6).

(** The eight bytes from [8 i] on. *)
Definition word_be64 (buf : list Z) (i : nat) : Z :=
  foldl (fun w j => Z.lor w (Z.shiftl (at_ buf (8 * i + j)) (56 - 8 * Z.of_nat j))) 0 (seq 0 8).

Definition sha512_block : list Z -> list Z -> list Z :=
  sha_block w64 K512 S0_512 S1_512 R0_512 R1_512 80 word_be64.
Definition sha512_h0 : list Z :=
  [0x6a09e667f3bcc908; 0xbb67ae8584caa73b; 0x3c6ef372fe94f82b; 0xa54ff53a5f1d36f1;
   0x510e527fade682d1; 0x9b05688c2b3e6c1f; 0x1f83d9abfb41bd6b; 0x5be0cd19137e2179].
Definition sha512_init (buf : list Z) : ctx := Ctx 0 sha512_h0 buf.
Definition sha512_update : ctx -> list Z -> ctx := update 128 sha512_block.
Definition sha512_pad : ctx -> ctx := pad 128 112 sha512_block (be_bytes 8).
Definition sha512_sum (s : ctx) : list Z := concat (be_bytes 8 <$> take 8 (ctx_h (sha512_pad s))).
