(* ===== verification/HashProofs.v ===== *)
(** Messages hashed in pieces: a context that was updated with any pieces has
    the digest of their concatenation, which is defined from the padded message
    cut in blocks. *)
From S2P Require Import Prelude.
From S2P Require Import Hash.

(** ** The definition of a digest *)
Section Reference.
Context (size limit : nat) (processblock : list Z -> list Z -> list Z) (len_bytes : Z -> list Z).
Context (Hsize : (8 < size)%nat).

(** The whole blocks of a message, the hash state after them, and the rest. *)
Definition blocks_of (m : list Z) : list (list Z) :=
  (fun i => take size (drop (size * i) m)) <$> seq 0 (length m / size).
Definition hash_state (h m : list Z) : list Z := foldl processblock h (blocks_of m).
Definition rest_of (m : list Z) : list Z := drop (size * (length m / size)) m.

(** A one bit, zeros until [limit] in a block, 0 or 8 bytes more, and the
    length in bits in 8 bytes. *)
Definition zeros (n : nat) : nat :=
  (Z.to_nat ((Z.of_nat limit - (Z.of_nat n + 1)) mod Z.of_nat size) + (size - 8 - limit))%nat.
Definition padded (m : list Z) : list Z :=
  m ++ [128] ++ replicate (zeros (length m)) 0 ++ len_bytes (w64 (8 * Z.of_nat (length m))).

Lemma short_blocks m : (length m < size)%nat -> blocks_of m = [] /\ rest_of m = m.
Proof.
  intros Hm. unfold blocks_of, rest_of. rewrite Nat.div_small by done. rewrite Nat.mul_0_r. split; [done|by rewrite drop_0].
Qed.

Lemma block_blocks b m : length b = size -> blocks_of (b ++ m) = b :: blocks_of m /\ rest_of (b ++ m) = rest_of m.
Proof.
  intros Hb. unfold blocks_of, rest_of. rewrite length_app, Hb.
  replace (size + length m)%nat with (length m + 1 * size)%nat by lia. rewrite Nat.div_add by lia.
  rewrite Nat.add_comm. split.
  - cbn [Nat.add seq fmap list_fmap]. rewrite Nat.mul_0_r, drop_0, take_app_length' by done. f_equal.
    rewrite <- fmap_S_seq, <- list_fmap_compose. apply list_fmap_ext. intros i x _. cbn.
    replace (size * S x)%nat with (size + size * x)%nat by lia. rewrite <- drop_drop, drop_app_length' by done. done.
  - replace (size * (1 + length m / size))%nat with (size + size * (length m / size))%nat by lia.
    rewrite <- drop_drop, drop_app_length' by done. done.
Qed.

Lemma hash_block h b m : length b = size -> hash_state h (b ++ m) = hash_state (processblock h b) m.
Proof. intros Hb. unfold hash_state. by rewrite (proj1 (block_blocks b m Hb)). Qed.
Lemma hash_short h m : (length m < size)%nat -> hash_state h m = h.
Proof. intros Hm. unfold hash_state. by rewrite (proj1 (short_blocks m Hm)). Qed.

Lemma split_block (p : list Z) : (size <= length p)%nat -> exists b d, p = b ++ d /\ length b = size.
Proof. intros Hp. exists (take size p), (drop size p). rewrite take_drop, length_take. split; [done|lia]. Qed.

(** Whole blocks in front. *)
Lemma whole_app k h a m : length a = (k * size)%nat ->
  hash_state h (a ++ m) = hash_state (hash_state h a) m /\ rest_of (a ++ m) = rest_of m /\ rest_of a = [].
Proof.
  revert h a. induction k as [|k IH]; intros h a Ha.
  - apply nil_length_inv in Ha as ->. rewrite (hash_short h []) by (cbn; lia).
    split; [done|]. split; [done|]. apply short_blocks. cbn. lia.
  - destruct (split_block a) as (b & d & -> & Hb); [lia|].
    assert (Hd : length d = (k * size)%nat) by (rewrite length_app in Ha; lia).
    destruct (IH (processblock h b) d Hd) as (E1 & E2 & E3).
    rewrite <- app_assoc, !hash_block, E1 by done.
    rewrite (proj2 (block_blocks _ _ Hb)), (proj2 (block_blocks b d Hb)). by rewrite hash_block.
Qed.

(** A message is whole blocks and the rest. *)
Lemma whole_rest m : exists k a, length a = (k * size)%nat /\ m = a ++ rest_of m /\
  length (rest_of m) = (length m mod size)%nat.
Proof.
  exists (length m / size)%nat, (take (size * (length m / size)) m).
  pose proof (Nat.div_mod_eq (length m) size). pose proof (Nat.mod_upper_bound (length m) size ltac:(lia)).
  split; [rewrite length_take; lia|]. split; [unfold rest_of; by rewrite take_drop|].
  unfold rest_of. rewrite length_drop. lia.
Qed.

Lemma hash_app h m p : hash_state h (m ++ p) = hash_state (hash_state h m) (rest_of m ++ p) /\
  rest_of (m ++ p) = rest_of (rest_of m ++ p).
Proof.
  destruct (whole_rest m) as (k & a & Ha & Em & Hr).
  pose proof (Nat.mod_upper_bound (length m) size ltac:(lia)).
  assert (E : hash_state h m = hash_state h a).
  { rewrite Em at 1. rewrite (proj1 (whole_app k h a _ Ha)). apply hash_short. lia. }
  rewrite E. rewrite Em at 1 3. rewrite <- app_assoc.
  destruct (whole_app k h a (rest_of m ++ p) Ha) as (? & ? & _). done.
Qed.

(** The loop over blocks. *)
Lemma blocks_spec fuel h p : (length p <= fuel)%nat -> blocks size processblock fuel h p = (hash_state h p, rest_of p).
Proof.
  revert h p. induction fuel as [|fuel IH]; intros h p Hp; cbn [blocks].
  - assert (Hs : (length p < size)%nat) by lia. rewrite hash_short by done. by rewrite (proj2 (short_blocks p Hs)).
  - destruct (Nat.leb_spec size (length p)) as [Hle|Hlt].
    + rewrite IH by (rewrite length_drop; lia).
      destruct (split_block p Hle) as (b & d & -> & Hb). rewrite take_app_length', drop_app_length' by done.
      by rewrite hash_block, (proj2 (block_blocks b d Hb)).
    + rewrite hash_short by done. by rewrite (proj2 (short_blocks p Hlt)).
Qed.
End Reference.

(** ** Contexts *)
Lemma poke_length buf r p : (r + length p <= length buf)%nat -> length (poke buf r p) = length buf.
Proof. intros Hr. unfold poke. rewrite !length_app, length_take, length_drop. lia. Qed.

Lemma poke_end buf r p : (r + length p = length buf)%nat -> poke buf r p = take r buf ++ p.
Proof. intros Hr. unfold poke. by rewrite drop_ge, app_nil_r by lia. Qed.

Lemma poke_take buf r p : (r + length p <= length buf)%nat -> take (r + length p) (poke buf r p) = take r buf ++ p.
Proof.
  intros Hr. unfold poke. rewrite app_assoc. apply take_app_length'. rewrite length_app, length_take. lia.
Qed.

Lemma length_le_bytes n x : length (le_bytes n x) = n.
Proof. unfold le_bytes. by rewrite length_fmap, length_seq. Qed.
Lemma length_be_bytes n x : length (be_bytes n x) = n.
Proof. unfold be_bytes. by rewrite length_fmap, length_rev, length_seq. Qed.

Section Stream.
Context (size : nat) (processblock : list Z -> list Z -> list Z) (h0 : list Z).
Context (Hsize : (8 < size)%nat) (Hpow : (Z.of_nat size | 2 ^ 64)).
Abbreviation hash_state := (hash_state size processblock).
Abbreviation rest_of := (rest_of size).

(** The context has taken in the message [m]. *)
Record taken (s : ctx) (m : list Z) : Prop := {
  taken_len : ctx_len s = w64 (Z.of_nat (length m));
  taken_h : ctx_h s = hash_state h0 m;
  taken_buf : take (length (rest_of m)) (ctx_buf s) = rest_of m;
  taken_size : length (ctx_buf s) = size }.

Lemma rest_short m : (length (rest_of m) < size)%nat.
Proof.
  destruct (whole_rest size Hsize m) as (_ & _ & _ & _ & ->). apply Nat.mod_upper_bound. lia.
Qed.

(** [s->len % 64], although [len] wraps. *)
Lemma taken_rest s m : taken s m -> Z.to_nat (ctx_len s mod Z.of_nat size) = length (rest_of m).
Proof.
  intros [-> _ _ _]. destruct (whole_rest size Hsize m) as (_ & _ & _ & _ & ->).
  unfold w64. rewrite Z.mod_mod_divide by done. by rewrite <- Nat2Z.inj_mod, Nat2Z.id.
Qed.

Lemma taken_start buf : length buf = size -> taken (Ctx 0 h0 buf) [].
Proof.
  intros Hb. destruct (short_blocks size []) as [_ E]; [cbn; lia|]. split; [done| |by rewrite E|done].
  symmetry. apply hash_short. cbn. lia.
Qed.

Lemma update_rest_taken M len h buf q : len = w64 (Z.of_nat (length M)) -> length buf = size ->
  hash_state h0 M = hash_state h q -> rest_of M = rest_of q -> taken (update_rest size processblock len h buf q) M.
Proof.
  intros Hlen Hb Hh Hr. unfold update_rest. rewrite blocks_spec by done. pose proof (rest_short M) as Hs. rewrite Hr in Hs.
  split; cbn [ctx_len ctx_h ctx_buf]; [done|by rewrite Hh| |].
  - rewrite Hr. by apply (poke_take buf 0); lia.
  - rewrite poke_length; [done|lia].
Qed.

Lemma update_taken s m p : taken s m -> taken (update size processblock s p) (m ++ p).
Proof.
  intros Hs. pose proof (taken_rest _ _ Hs) as Hr. destruct Hs as [Hlen Hh Hbuf Hsz]. pose proof (rest_short m) as Hshort.
  destruct (hash_app size processblock Hsize h0 m p) as [Hhash Hrest].
  assert (Hl : w64 (ctx_len s + Z.of_nat (length p)) = w64 (Z.of_nat (length (m ++ p)))).
  { rewrite Hlen, length_app, Nat2Z.inj_add. unfold w64. by rewrite Zplus_mod_idemp_l. }
  unfold update. rewrite Hr, Hl. destruct (Nat.eqb_spec (length (rest_of m)) 0) as [E0|E0]; cbn [negb].
  - apply nil_length_inv in E0. rewrite E0 in Hhash, Hrest. apply update_rest_taken; [done|done|by rewrite Hh|done].
  - destruct (Nat.ltb_spec (length p) (size - length (rest_of m))) as [Hlt|Hge].
    + destruct (short_blocks size (rest_of m ++ p)) as [_ E]; [rewrite length_app; lia|].
      split; cbn [ctx_len ctx_h ctx_buf]; [done| | |rewrite poke_length; lia].
      * rewrite Hhash, hash_short, Hh; [done|]. rewrite length_app. lia.
      * rewrite Hrest, E, length_app, poke_take by lia. by rewrite Hbuf.
    + assert (Ht : length (take (size - length (rest_of m)) p) = (size - length (rest_of m))%nat) by (rewrite length_take; lia).
      assert (Hpk : poke (ctx_buf s) (length (rest_of m)) (take (size - length (rest_of m)) p) =
        rest_of m ++ take (size - length (rest_of m)) p) by (rewrite poke_end by lia; by rewrite Hbuf).
      rewrite Hpk. set (b := rest_of m ++ take _ p).
      assert (Hb : length b = size) by (unfold b; rewrite length_app; lia).
      assert (Hsplit : rest_of m ++ p = b ++ drop (size - length (rest_of m)) p)
        by (unfold b; by rewrite <- app_assoc, take_drop).
      apply update_rest_taken; [done|done| |].
      * by rewrite Hhash, Hsplit, hash_block, Hh.
      * rewrite Hrest, Hsplit. by apply (block_blocks size).
Qed.

Lemma updates_taken ms : forall s m, taken s m -> taken (foldl (update size processblock) s ms) (m ++ concat ms).
Proof.
  induction ms as [|p ms IH]; intros s m Hs; cbn [foldl concat]; [by rewrite app_nil_r|].
  rewrite app_assoc. apply IH. by apply update_taken.
Qed.

Context (limit : nat) (len_bytes : Z -> list Z) (Hlimit : (limit <= size - 8)%nat).
Context (Hbytes : forall x, length (len_bytes x) = 8%nat).

(** What [pad] hashes after the whole blocks. *)
Lemma zeros_rest m : let r := length (rest_of m) in
  zeros size limit (length m) = if (limit <? S r)%nat then (size - S r + (size - 8))%nat else (size - 8 - S r)%nat.
Proof.
  cbn zeta. unfold zeros. pose proof (rest_short m) as Hs. pose proof (whole_rest size Hsize m) as (k & a & Ha & Em & _).
  assert (E : Z.of_nat (length m) = Z.of_nat k * Z.of_nat size + Z.of_nat (length (rest_of m))).
  { rewrite Em at 1. rewrite length_app, Ha. lia. }
  set (r := length (rest_of m)) in *. rewrite E.
  replace (Z.of_nat limit - (Z.of_nat k * Z.of_nat size + Z.of_nat r + 1)) with
    (Z.of_nat limit - (Z.of_nat r + 1) + (- Z.of_nat k) * Z.of_nat size) by lia.
  rewrite Z_mod_plus_full. destruct (Nat.ltb_spec limit (S r)).
  - replace (Z.of_nat limit - (Z.of_nat r + 1)) with (Z.of_nat limit - (Z.of_nat r + 1) + Z.of_nat size + (-1) * Z.of_nat size) by lia.
    rewrite Z_mod_plus_full, Z.mod_small; lia.
  - rewrite Z.mod_small; lia.
Qed.

Lemma pad_state s m : taken s m -> ctx_h (pad size limit processblock len_bytes s) = hash_state h0 (padded size limit len_bytes m).
Proof.
  intros Hs. pose proof (taken_rest _ _ Hs) as Hr. destruct Hs as [Hlen Hh Hbuf Hsz]. pose proof (rest_short m) as Hshort.
  unfold padded. destruct (hash_app size processblock Hsize h0 m
    ([128] ++ replicate (zeros size limit (length m)) 0 ++ len_bytes (w64 (8 * Z.of_nat (length m))))) as [-> _].
  rewrite (zeros_rest m). unfold pad. rewrite Hr, <- Hh.
  assert (Hw : w64 (ctx_len s * 8) = w64 (8 * Z.of_nat (length m))).
  { rewrite Hlen. unfold w64. rewrite Zmult_mod_idemp_l. f_equal. lia. }
  rewrite Hw. set (lb := len_bytes _). assert (Hlb : length lb = 8%nat) by apply Hbytes.
  set (rs := rest_of m) in *. set (b1 := poke (ctx_buf s) (length rs) [128]).
  assert (Hb1 : length b1 = size) by (unfold b1; rewrite poke_length; cbn [length]; lia).
  assert (Ht1 : take (S (length rs)) b1 = rs ++ [128]).
  { unfold b1. replace (S (length rs)) with (length rs + length [128%Z])%nat by (cbn [length]; lia).
    rewrite poke_take by (cbn [length]; lia). by rewrite Hbuf. }
  assert (Hend : forall h b (r : nat) p, length b = size -> take r b = p -> (r <= size - 8)%nat ->
    ctx_h (let buf := poke b r (replicate (size - 8 - r) 0) in
      let buf := poke buf (size - 8) lb in Ctx (w64 (8 * Z.of_nat (length m))) (processblock h buf) buf) =
    hash_state h (p ++ replicate (size - 8 - r) 0 ++ lb)).
  { intros h b r p Hb Hp Hle. cbn zeta. cbn [ctx_h].
    rewrite (poke_end _ (size - 8)) by (rewrite poke_length, Hlb by (rewrite length_replicate; lia); lia).
    assert (Htk : take (size - 8) (poke b r (replicate (size - 8 - r) 0)) = p ++ replicate (size - 8 - r) 0).
    { pose proof (poke_take b r (replicate (size - 8 - r) 0)) as Hpt. rewrite length_replicate, Hp in Hpt.
      replace (size - 8)%nat with (r + (size - 8 - r))%nat at 1 by lia. apply Hpt. lia. }
    rewrite Htk, <- app_assoc.
    assert (Hlp : length p = r) by (rewrite <- Hp, length_take; lia).
    pose proof (hash_block size processblock Hsize h (p ++ replicate (size - 8 - r) 0 ++ lb) []) as Hbl.
    rewrite app_nil_r in Hbl. rewrite Hbl; [symmetry; apply hash_short; cbn; lia|].
    rewrite !length_app, length_replicate. lia. }
  cbn zeta in Hend. destruct (Nat.ltb_spec limit (S (length rs))) as [Hlt|Hge].
  - set (b2 := poke b1 (S (length rs)) (replicate (size - S (length rs)) 0)).
    assert (Hb2 : b2 = (rs ++ [128]) ++ replicate (size - S (length rs)) 0).
    { unfold b2. rewrite poke_end by (rewrite length_replicate; lia). by rewrite Ht1. }
    assert (Hl2 : length b2 = size) by (rewrite Hb2, !length_app, length_replicate; cbn [length]; lia).
    rewrite (Hend _ b2 O []) by (done || lia). rewrite Nat.sub_0_r. cbn [app].
    transitivity (hash_state (ctx_h s) (b2 ++ replicate (size - 8) 0 ++ lb)); [symmetry; by apply hash_block|].
    by rewrite Hb2, replicate_add, <- !app_assoc.
  - rewrite (Hend _ b1 (S (length rs)) (rs ++ [128])) by (done || lia). by rewrite <- !app_assoc.
Qed.

(** The digest of pieces. *)
Lemma pieces_state buf ms : length buf = size ->
  ctx_h (pad size limit processblock len_bytes (foldl (update size processblock) (Ctx 0 h0 buf) ms)) =
  hash_state h0 (padded size limit len_bytes (concat ms)).
Proof. intros Hb. apply pad_state. apply (updates_taken ms _ []). by apply taken_start. Qed.
End Stream.

(** ** The three functions *)

(** An implementation of a hash function: [buf] is uninitialised memory. *)
Record hash := HashFns {
  buf_size : nat;
  hash_init : list Z -> ctx;
  hash_update : ctx -> list Z -> ctx;
  hash_pad : ctx -> ctx;
  hash_sum : ctx -> list Z }.

Definition md5_fns : hash := HashFns 64 md5_init md5_update md5_pad md5_sum.
Definition sha256_fns : hash := HashFns 64 sha256_init sha256_update sha256_pad sha256_sum.
Definition sha512_fns : hash := HashFns 128 sha512_init sha512_update sha512_pad sha512_sum.

(** What it promises: the digest [D] of everything it was updated with, [n]
    bytes, whatever was in the buffer. *)
Class Digests (H : hash) (D : list Z -> list Z) (n : nat) : Prop := {
  digest_of buf ms : length buf = buf_size H -> hash_sum H (foldl (hash_update H) (hash_init H buf) ms) = D (concat ms);
  digest_buf buf ms : length buf = buf_size H ->
    length (ctx_buf (hash_pad H (foldl (hash_update H) (hash_init H buf) ms))) = buf_size H;
  digest_length m : length (D m) = n;
  digest_bytes m : Forall (fun b => 0 <= b < 256) (D m) }.

Definition md5 (m : list Z) : list Z :=
  concat (le_bytes 4 <$> hash_state 64 md5_block md5_h0 (padded 64 56 (le_bytes 8) m)).
Definition sha256 (m : list Z) : list Z :=
  concat (be_bytes 4 <$> hash_state 64 sha256_block sha256_h0 (padded 64 56 (be_bytes 8) m)).
Definition sha512 (m : list Z) : list Z :=
  concat (be_bytes 8 <$> hash_state 128 sha512_block sha512_h0 (padded 128 112 (be_bytes 8) m)).

Lemma hash_state_length size f h m n : (forall h b, length (f h b) = n) -> length h = n -> length (hash_state size f h m) = n.
Proof.
  intros Hf. unfold hash_state. generalize (blocks_of size m). intros bs. revert h.
  induction bs as [|b bs IH]; intros h Hh; cbn [foldl]; [done|]. by apply IH.
Qed.

Lemma md5_block_length h b : length (md5_block h b) = 4%nat.
Proof. unfold md5_block. by repeat case_match. Qed.
Lemma sha_block_length w K s0 s1 r0 r1 rounds word h b : length (sha_block w K s0 s1 r0 r1 rounds word h b) = 8%nat.
Proof. done. Qed.

Lemma byte_of_range x k : 0 <= byte_of x k < 256.
Proof. apply w8_range. Qed.
Lemma le_bytes_range n x : Forall (fun b => 0 <= b < 256) (le_bytes n x).
Proof. apply Forall_fmap, Forall_forall. intros i _. apply byte_of_range. Qed.
Lemma be_bytes_range n x : Forall (fun b => 0 <= b < 256) (be_bytes n x).
Proof. apply Forall_fmap, Forall_forall. intros i _. apply byte_of_range. Qed.

Lemma words_length (f : Z -> list Z) n l : (forall x, length (f x) = n) -> length (concat (f <$> l)) = (n * length l)%nat.
Proof. intros Hf. induction l as [|x l IH]; cbn [fmap list_fmap concat length]; [lia|]. rewrite length_app, Hf, IH. lia. Qed.
Lemma words_range (f : Z -> list Z) l : (forall x, Forall (fun b => 0 <= b < 256) (f x)) -> Forall (fun b => 0 <= b < 256) (concat (f <$> l)).
Proof. intros Hf. induction l as [|x l IH]; cbn [fmap list_fmap concat]; [done|]. by apply Forall_app. Qed.

Lemma pad_size size limit f lb s : (8 < size)%nat -> (limit <= size - 8)%nat -> (forall x, length (lb x) = 8%nat) ->
  length (ctx_buf s) = size -> length (ctx_buf (pad size limit f lb s)) = size.
Proof.
  intros Hs Hl Hlb Hb. unfold pad. set (r := Z.to_nat (ctx_len s mod Z.of_nat size)).
  assert (Hr : (r < size)%nat) by (unfold r; pose proof (Z.mod_pos_bound (ctx_len s) (Z.of_nat size)); lia).
  destruct (Nat.ltb_spec limit (S r)); cbn [ctx_buf];
    repeat (rewrite poke_length; rewrite ?Hlb, ?length_replicate; cbn [length]; try lia).
Qed.

(** One proof for the three. *)
Section Streams.
Context (size limit n k : nat) (f : list Z -> list Z -> list Z) (lb out : Z -> list Z) (h0 : list Z).
Context (Hsize : (8 < size)%nat) (Hlimit : (limit <= size - 8)%nat) (Hpow : (Z.of_nat size | 2 ^ 64)).
Context (Hlb : forall x, length (lb x) = 8%nat) (Hf : forall h b, length (f h b) = n) (Hh0 : length h0 = n).
Context (Hout : forall x, length (out x) = k) (Hbyte : forall x, Forall (fun b => 0 <= b < 256) (out x)).

Definition stream_hash : hash := HashFns size (Ctx 0 h0) (update size f) (pad size limit f lb)
  (fun s => concat (out <$> take n (ctx_h (pad size limit f lb s)))).

Lemma stream_digests : Digests stream_hash (fun m => concat (out <$> hash_state size f h0 (padded size limit lb m))) (k * n).
Proof.
  split; cbn [buf_size hash_sum hash_update hash_init hash_pad stream_hash].
  - intros buf ms Hb. rewrite pieces_state by done. by rewrite take_ge by (rewrite (hash_state_length _ _ _ _ n); [lia|done|done]).
  - intros buf ms Hb. apply pad_size; [done|done|done|].
    apply (updates_taken size f h0) with (m := []); [done|done|]. by apply taken_start.
  - intros m. by rewrite (words_length _ k), (hash_state_length _ _ _ _ n).
  - intros m. by apply words_range.
Qed.
End Streams.

#[export] Instance md5_digests : Digests md5_fns md5 16.
Proof.
  refine (stream_digests 64 56 4 4 md5_block (le_bytes 8) (le_bytes 4) md5_h0 _ _ _ _ md5_block_length _ _ _);
    try lia; try done; [by exists (2 ^ 58)|intros; apply length_le_bytes..|apply le_bytes_range].
Qed.
#[export] Instance sha256_digests : Digests sha256_fns sha256 32.
Proof.
  refine (stream_digests 64 56 8 4 sha256_block (be_bytes 8) (be_bytes 4) sha256_h0 _ _ _ _ _ _ _ _);
    try lia; try done; [by exists (2 ^ 58)|intros; apply length_be_bytes..|apply be_bytes_range].
Qed.
#[export] Instance sha512_digests : Digests sha512_fns sha512 64.
Proof.
  refine (stream_digests 128 112 8 8 sha512_block (be_bytes 8) (be_bytes 8) sha512_h0 _ _ _ _ _ _ _ _);
    try lia; try done; [by exists (2 ^ 57)|intros; apply length_be_bytes..|apply be_bytes_range].
Qed.

(** C11: [md5_sum], [sha256_sum] and [sha512_sum] after any number of updates
    give the digest of all that was passed, cut in whatever pieces: the hash
    states of the message padded by a one bit, zeros and its length, cut in
    blocks.  What the context's buffer held before does not matter. *)
Theorem hash_pieces ms b64 b128 : length b64 = 64%nat -> length b128 = 128%nat ->
  md5_sum (foldl md5_update (md5_init b64) ms) = md5 (concat ms) /\
  sha256_sum (foldl sha256_update (sha256_init b64) ms) = sha256 (concat ms) /\
  sha512_sum (foldl sha512_update (sha512_init b128) ms) = sha512 (concat ms).
Proof.
  intros H64 H128. split; [|split].
  - by apply (digest_of (H := md5_fns) (D := md5)).
  - by apply (digest_of (H := sha256_fns) (D := sha256)).
  - by apply (digest_of (H := sha512_fns) (D := sha512)).
Qed.
