(* ===== verification/Crypt.v ===== *)
(** Password hashing ([crypt/crypt_md5.c], [crypt_sha256.c], [crypt_sha512.c]):
    the functions that [crypt] dispatches to for the settings [$1$], [$5$] and
    [$6$].  [errno], which [strtoul] may set, is left out. *)
From S2P Require Import Prelude.
From S2P Require Import Wasi.
From S2P Require Import IntScan.
From S2P Require Import Hash.
From S2P Require Import HashProofs.

(** ** Strings *)

(** [string/strncmp.c], on strings without their terminators. *)
Fixpoint strncmp (l r : list Z) (n : nat) : Z :=
  match n with
  | O => 0
  | S n =>
      let a := at_ l 0 in let b := at_ r 0 in
      if negb (a =? 0) && negb (b =? 0) && negb (n =? 0)%nat && (a =? b) then strncmp (tail l) (tail r) n
      else a - b
  end.

Definition strnlen (s : list Z) (n : nat) : nat := Nat.min (length s) n.

Definition dollar : Z := 36.

(** [b64] and [to64]. *)
Definition b64 : list Z := bytes_of "./0123456789ABCDEFGHIJKLMNOPQRSTUVWXYZabcdefghijklmnopqrstuvwxyz".
Fixpoint to64 (n : nat) (u : Z) : list Z :=
  match n with O => [] | S n => at_ b64 (Z.to_nat (u mod 64)) :: to64 n (u / 64) end.

Definition encode (md : list Z) (perm : list (nat * nat * nat)) : list Z :=
  concat ((fun '(i, j, k) => to64 4 (Z.lor (Z.lor (Z.shiftl (at_ md i) 16) (Z.shiftl (at_ md j) 8)) (at_ md k))) <$> perm).

(** [fmt_u] of [stdio/vfprintf.c] for a number that is not 0, as [sprintf]'s
    [%u] calls it; [fuel] bounds the digits. *)
Fixpoint fmt_u (fuel : nat) (y : Z) (s : list Z) : list Z :=
  match fuel with
  | O => s
  | S fuel => if y =? 0 then s else fmt_u fuel (y / 10) (48 + y mod 10 :: s)
  end.

(** ** Digests of several updates *)

(** One use of a context: its digest, and what it leaves in its buffer. *)
Definition digest (H : hash) (buf : list Z) (pieces : list (list Z)) : list Z * list Z :=
  let s := foldl (hash_update H) (hash_init H buf) pieces in
  (hash_sum H s, ctx_buf (hash_pad H s)).

(** The updates of [hashmd], and of the same loop in [md5crypt]: [n] bytes of
    the repeated [md]. *)
Fixpoint hashmd (fuel n : nat) (md : list Z) : list (list Z) :=
  match fuel with
  | O => []
  | S fuel => if (length md <? n)%nat then md :: hashmd fuel (n - length md) md else [take n md]
  end.

(** [for (i = klen; i > 0; i >>= 1)]: an update for each bit of [i]. *)
Fixpoint key_bits (fuel : nat) (i : Z) (one zero : list Z) : list (list Z) :=
  match fuel with
  | O => []
  | S fuel => if i =? 0 then [] else (if Z.odd i then one else zero) :: key_bits fuel (Z.shiftr i 1) one zero
  end.

(** ** MD5 *)
Definition MD5_KEY_MAX : nat := Z.to_nat 30000.
Definition MD5_SALT_MAX : nat := 8.

Fixpoint md5_salt (n : nat) (salt : list Z) : nat :=
  match n, salt with
  | S n, c :: salt => if c =? dollar then O else S (md5_salt n salt)
  | _, _ => O
  end.

Definition md5_round (key salt : list Z) (md : list Z) (i : nat) : list (list Z) :=
  [if (i mod 2 =? 0)%nat then md else key] ++
  (if (i mod 3 =? 0)%nat then [] else [salt]) ++
  (if (i mod 7 =? 0)%nat then [] else [key]) ++
  [if (i mod 2 =? 0)%nat then key else md].

Definition md5_perm : list (nat * nat * nat) := [(0, 6, 12); (1, 7, 13); (2, 8, 14); (3, 9, 15); (4, 10, 5)]%nat.

(** [buf] is the context's buffer, uninitialised; [None] is a null pointer. *)
Definition md5crypt (buf key setting : list Z) : option (list Z) :=
  let klen := strnlen key (S MD5_KEY_MAX) in
  if (MD5_KEY_MAX <? klen)%nat then None else
  if negb (strncmp setting (bytes_of "$1$") 3 =? 0) then None else
  let slen := md5_salt MD5_SALT_MAX (drop 3 setting) in
  let salt := take slen (drop 3 setting) in
  let '(md, buf) := digest md5_fns buf [key; salt; key] in
  let pieces := [key; take (3 + slen) setting] ++ hashmd (S klen) klen md ++ key_bits 32 (Z.of_nat klen) [0] (take 1 key) in
  let '(md, buf) := digest md5_fns buf pieces in
  let '(md, buf) := foldl (fun '(md, buf) i => digest md5_fns buf (md5_round key salt md i)) (md, buf) (seq 0 1000) in
  Some (take (3 + slen) setting ++ [dollar] ++ encode md md5_perm ++ to64 2 (at_ md 11)).

(** ** SHA *)
Definition KEY_MAX : nat := 256.
Definition SALT_MAX : nat := 16.
Definition ROUNDS_DEFAULT : Z := 5000.
Definition ROUNDS_MIN : Z := 1000.
Definition ROUNDS_MAX : Z := 9999999.

(** The number of rounds, the string for the result, and the salt. *)
Definition parse_rounds (salt : list Z) : outcome (option (Z * list Z * list Z)) :=
  if strncmp salt (bytes_of "rounds=") 7 =? 0 then
    let salt := drop 7 salt in
    if negb (isdigit (char (at_ salt 0))) then Ret None else
    match strtoul salt 10 (SFile 0 0 0) with
    | Stop r => Stop r
    | Ret ((u, e), _) =>
        if negb (at_ salt (Z.to_nat e) =? dollar) then Ret None else
        let salt := drop (S (Z.to_nat e)) salt in
        let rounds r := bytes_of "rounds=" ++ fmt_u 10 r [] ++ [dollar] in
        if u <? ROUNDS_MIN then Ret (Some (ROUNDS_MIN, rounds ROUNDS_MIN, salt))
        else if ROUNDS_MAX <? u then Ret None
        else Ret (Some (u, rounds u, salt))
    end
  else Ret (Some (ROUNDS_DEFAULT, [], salt)).

(** The salt, unless it has a newline or a colon. *)
Fixpoint scan_salt (n : nat) (salt : list Z) : option (list Z) :=
  match n, salt with
  | S n, c :: salt =>
      if c =? dollar then Some [] else
      if (c =? 10) || (c =? 58) then None else cons c <$> scan_salt n salt
  | _, _ => Some []
  end.

Definition sha_round_pieces (key_len : nat) (kmd salt_md md : list Z) (i : nat) : list (list Z) :=
  (if (i mod 2 =? 0)%nat then [md] else hashmd (S key_len) key_len kmd) ++
  (if (i mod 3 =? 0)%nat then [] else [salt_md]) ++
  (if (i mod 7 =? 0)%nat then [] else hashmd (S key_len) key_len kmd) ++
  (if (i mod 2 =? 0)%nat then hashmd (S key_len) key_len kmd else [md]).

Section ShaCrypt.
(** The hash function, the digit of the prefix, and the end of the result. *)
Variables (H : hash) (prefix : list Z) (tail64 : list Z -> list Z).

(** From the salt on. *)
Definition sha_hash (buf key : list Z) (r : Z) (salt : list Z) : list Z :=
  let klen := length key in
  let '(md, buf) := digest H buf [key; salt; key] in
  let pieces := [key; salt] ++ hashmd (S klen) klen md ++ key_bits 32 (Z.of_nat klen) md key in
  let '(md, buf) := digest H buf pieces in
  let '(kmd, buf) := digest H buf (replicate klen key) in
  let '(smd, buf) := digest H buf (replicate (16 + Z.to_nat (at_ md 0)) salt) in
  fst (foldl (fun '(md, buf) i => digest H buf (sha_round_pieces klen kmd (take (length salt) smd) md i)) (md, buf)
    (seq 0 (Z.to_nat r))).

Definition sha_crypt (buf key setting : list Z) : outcome (option (list Z)) :=
  let klen := strnlen key (S KEY_MAX) in
  if (KEY_MAX <? klen)%nat then Ret None else
  if negb (strncmp setting prefix 3 =? 0) then Ret None else
  match parse_rounds (drop 3 setting) with
  | Stop r => Stop r
  | Ret None => Ret None
  | Ret (Some (r, rounds, salt)) =>
      match scan_salt SALT_MAX salt with
      | None => Ret None
      | Some salt => Ret (Some (prefix ++ rounds ++ salt ++ [dollar] ++ tail64 (sha_hash buf key r salt)))
      end
  end.
End ShaCrypt.

Definition sha256_perm : list (nat * nat * nat) :=
  [(0, 10, 20); (21, 1, 11); (12, 22, 2); (3, 13, 23); (24, 4, 14); (15, 25, 5); (6, 16, 26); (27, 7, 17);
   (18, 28, 8); (9, 19, 29)]%nat.
Definition sha512_perm : list (nat * nat * nat) :=
  [(0, 21, 42); (22, 43, 1); (44, 2, 23); (3, 24, 45); (25, 46, 4); (47, 5, 26); (6, 27, 48); (28, 49, 7);
   (50, 8, 29); (9, 30, 51); (31, 52, 10); (53, 11, 32); (12, 33, 54); (34, 55, 13); (56, 14, 35); (15, 36, 57);
   (37, 58, 16); (59, 17, 38); (18, 39, 60); (40, 61, 19); (62, 20, 41)]%nat.

Definition sha256_tail (md : list Z) : list Z :=
  encode md sha256_perm ++ to64 3 (Z.lor (Z.shiftl (at_ md 31) 8) (at_ md 30)).
Definition sha512_tail (md : list Z) : list Z := encode md sha512_perm ++ to64 2 (at_ md 63).

Definition sha256crypt : list Z -> list Z -> list Z -> outcome (option (list Z)) :=
  sha_crypt sha256_fns (bytes_of "$5$") sha256_tail.
Definition sha512crypt : list Z -> list Z -> list Z -> outcome (option (list Z)) :=
  sha_crypt sha512_fns (bytes_of "$6$") sha512_tail.

(** ** The entry points, with their self tests *)
Definition testkey : list Z := bytes_of "Xy01@#" ++ [1; 2; 128; 127; 255; 13; 10; 129; 9] ++ bytes_of " !".

(** [p] is the result for the caller, [q] that of the test; each runs on a
    stack of its own. *)
Definition self_tested (p q : option (list Z)) (testhash : list Z) : list Z :=
  match p, q with
  | Some p, Some q => if memcmp q testhash (S (length testhash)) =? 0 then p else bytes_of "*"
  | _, _ => bytes_of "*"
  end.

Definition __crypt_md5 (buf1 buf2 key setting : list Z) : list Z :=
  self_tested (md5crypt buf1 key setting) (md5crypt buf2 testkey (bytes_of "$1$abcd0123$"))
    (bytes_of "$1$abcd0123$9Qcg8DyviekV3tDGMZynJ1").

Definition self_tested_sha (crypt : list Z -> list Z -> list Z -> outcome (option (list Z)))
    (testsetting testhash buf1 buf2 key setting : list Z) : outcome (list Z) :=
  match crypt buf1 key setting, crypt buf2 testkey testsetting with
  | Ret p, Ret q => Ret (self_tested p q testhash)
  | Stop r, _ | _, Stop r => Stop r
  end.

Definition __crypt_sha256 : list Z -> list Z -> list Z -> list Z -> outcome (list Z) :=
  self_tested_sha sha256crypt (bytes_of "$5$rounds=1234$abc0123456789$")
    (bytes_of "$5$rounds=1234$abc0123456789$3VfDjPt05VHFn47C/ojFZ6KRPYrOjj1lLbH.dkF3bZ6").
Definition __crypt_sha512 : list Z -> list Z -> list Z -> list Z -> outcome (list Z) :=
  self_tested_sha sha512crypt (bytes_of "$6$rounds=1234$abc0123456789$")
    (bytes_of "$6$rounds=1234$abc0123456789$BCpt8zLrc/RcyuXmCDOE1ALqMXB2MH6n1g891HhFj8.w7LxGv.FTkqq6Vxc/km3Y0jE0j24jY5PIv/oOu6reg1").
