(* ===== verification/CryptProofs.v ===== *)
(** Password hashing: what the functions compute, stated with digests of whole
    messages, and that a result verifies the password it was made from. *)
From S2P Require Import Prelude.
From S2P Require Import Wasi.
From S2P Require Import IntScan.
From S2P Require Import IntScanProofs.
From S2P Require Import IntScanTheorems.
From S2P Require Import Hash.
From S2P Require Import HashProofs.
From S2P Require Import Crypt.

(** ** References *)

(** The first [n] bytes of [md] repeated. *)
Definition repeated (md : list Z) (n : nat) : list Z := take n (concat (replicate (S n) md)).

(** A choice for each binary digit of [i], the lowest first. *)
Definition choices (i : Z) (one zero : list Z) : list Z :=
  if i =? 0 then [] else concat ((fun k => if Z.testbit i k then one else zero) <$> seqZ 0 (Z.log2 i + 1)).

Definition sha_reference_hash (D : list Z -> list Z) (key : list Z) (r : Z) (salt : list Z) : list Z :=
  let klen := length key in
  let B := D (key ++ salt ++ key) in
  let A := D (key ++ salt ++ repeated B klen ++ choices (Z.of_nat klen) B key) in
  let P := repeated (D (concat (replicate klen key))) klen in
  let S := take (length salt) (D (concat (replicate (16 + Z.to_nat (at_ A 0)) salt))) in
  foldl (fun md i => D ((if (i mod 2 =? 0)%nat then md else P) ++ (if (i mod 3 =? 0)%nat then [] else S) ++
    (if (i mod 7 =? 0)%nat then [] else P) ++ (if (i mod 2 =? 0)%nat then P else md))) A (seq 0 (Z.to_nat r)).

Definition md5_reference_hash (key prefix salt : list Z) : list Z :=
  let klen := length key in
  let B := md5 (key ++ salt ++ key) in
  let A := md5 (key ++ prefix ++ salt ++ repeated B klen ++ choices (Z.of_nat klen) [0] (take 1 key)) in
  foldl (fun md i => md5 ((if (i mod 2 =? 0)%nat then md else key) ++ (if (i mod 3 =? 0)%nat then [] else salt) ++
    (if (i mod 7 =? 0)%nat then [] else key) ++ (if (i mod 2 =? 0)%nat then key else md))) A (seq 0 1000).

(** *** Settings and results, by the published schemes

    Nothing here is shared with the functions of the code. *)

(** The characters in front of the first [c]. *)
Fixpoint up_to (c : Z) (l : list Z) : list Z :=
  match l with x :: l => if x =? c then [] else x :: up_to c l | [] => [] end.

(** The numeral of a number below [10 ^ 7]. *)
Definition shown_decimal (r : Z) : list Z :=
  (fun k => 48 + r / 10 ^ k mod 10) <$> filter (fun k => 10 ^ k <= r) [6; 5; 4; 3; 2; 1; 0].

(** What follows the prefix of a SHA setting: the number of rounds, how the
    result shows it, and the rest.  A number is at least 1000, at most 9999999
    or refused, ends with a dollar, and is 5000 when there is none. *)
Definition sha_setting (s : list Z) : option (Z * list Z * list Z) :=
  if bool_decide (take 7 s = bytes_of "rounds=") then
    let ds := digits 10 (drop 7 s) in
    let rest := drop (7 + length ds) s in
    if bool_decide (ds <> [] /\ head rest = Some 36 /\ value 10 0 ds <= 9999999) then
      let r := Z.max 1000 (value 10 0 ds) in Some (r, bytes_of "rounds=" ++ shown_decimal r ++ bytes_of "$", tail rest)
    else None
  else Some (5000, [], s).

(** Base 64, least significant digit first: [.], [/], the decimal digits, upper
    and lower case. *)
Definition char64 (v : Z) : Z :=
  if v =? 0 then 46 else if v =? 1 then 47 else if v <? 12 then 48 + (v - 2) else if v <? 38 then 65 + (v - 12) else 97 + (v - 38).
Definition text64 (n : Z) (u : Z) : list Z := (fun k => char64 (u / 64 ^ k mod 64)) <$> seqZ 0 n.
Definition text_of_three (md : list Z) (a b c : nat) : list Z := text64 4 (at_ md a * 65536 + at_ md b * 256 + at_ md c).

(** Group [g] holds byte [g] of each third of the digest, and the thirds rotate
    from group to group; the bytes left over come last. *)
Definition sha256_text (md : list Z) : list Z :=
  concat ((fun g => text_of_three md (g + 10 * ((2 * g) mod 3)) (g + 10 * ((1 + 2 * g) mod 3)) (g + 10 * ((2 + 2 * g) mod 3)))%nat <$> seq 0 10) ++
  text64 3 (at_ md 31 * 256 + at_ md 30).
Definition sha512_text (md : list Z) : list Z :=
  concat ((fun g => text_of_three md (g + 21 * (g mod 3)) (g + 21 * ((1 + g) mod 3)) (g + 21 * ((2 + g) mod 3)))%nat <$> seq 0 21) ++
  text64 2 (at_ md 63).
(** Bytes 0 to 4 with those 6 and 12 places on, 5 standing for 16. *)
Definition md5_text (md : list Z) : list Z :=
  concat ((fun g => text_of_three md g (g + 6) (if g =? 4 then 5 else g + 12))%nat <$> seq 0 5) ++ text64 2 (at_ md 11).

Definition sha_scheme (D : list Z -> list Z) (prefix : list Z) (text : list Z -> list Z) (key setting : list Z) : option (list Z) :=
  if decide (Z.of_nat (length key) <= 256 /\ take 3 setting = prefix) then
    '(r, shown, rest) ← sha_setting (drop 3 setting);
    let salt := take 16 (up_to 36 rest) in
    if decide (10 ∈ salt \/ 58 ∈ salt) then None
    else Some (prefix ++ shown ++ salt ++ bytes_of "$" ++ text (sha_reference_hash D key r salt))
  else None.
Definition md5_scheme (key setting : list Z) : option (list Z) :=
  if decide (Z.of_nat (length key) <= 30000 /\ take 3 setting = bytes_of "$1$") then
    let salt := take 8 (up_to 36 (drop 3 setting)) in
    Some (bytes_of "$1$" ++ salt ++ bytes_of "$" ++ md5_text (md5_reference_hash key (bytes_of "$1$") salt))
  else None.

(** *** The same, with the code's own parsing and encoding *)

Definition sha_reference (D : list Z -> list Z) (prefix : list Z) (tail64 : list Z -> list Z) (key setting : list Z) : option (list Z) :=
  if (KEY_MAX <? length key)%nat then None else
  if negb (bool_decide (take 3 setting = prefix)) then None else
  match parse_rounds (drop 3 setting) with
  | Ret (Some (r, rounds, salt)) =>
      salt ← scan_salt SALT_MAX salt;
      Some (prefix ++ rounds ++ salt ++ [dollar] ++ tail64 (sha_reference_hash D key r salt))
  | _ => None
  end.

Definition md5_reference (key setting : list Z) : option (list Z) :=
  if (MD5_KEY_MAX <? length key)%nat then None else
  if negb (bool_decide (take 3 setting = bytes_of "$1$")) then None else
  let salt := take (md5_salt MD5_SALT_MAX (drop 3 setting)) (drop 3 setting) in
  let md := md5_reference_hash key (bytes_of "$1$") salt in
  Some (bytes_of "$1$" ++ salt ++ [dollar] ++ encode md md5_perm ++ to64 2 (at_ md 11)).

(** ** Pieces *)

(** [for (i = klen; i > 0; i >>= 1)] visits the binary digits. *)
Lemma key_bits_choices one zero fuel : forall i, 0 <= i < 2 ^ Z.of_nat fuel -> concat (key_bits fuel i one zero) = choices i one zero.
Proof.
  unfold choices. induction fuel as [|fuel IH]; intros i Hi.
  - change (2 ^ Z.of_nat 0) with 1 in Hi. by replace i with 0 by lia.
  - cbn [key_bits]. destruct (Z.eqb_spec i 0) as [->|Hi0]; [done|]. rewrite Nat2Z.inj_succ, Z.pow_succ_r in Hi by lia.
    assert (Hhalf : Z.shiftr i 1 = i / 2) by (by rewrite Z.shiftr_div_pow2).
    cbn [concat]. rewrite IH by (rewrite Hhalf; split; [apply Z.div_pos; lia|apply Z.div_lt_upper_bound; lia]). pose proof (Z.log2_nonneg i).
    rewrite <- Z.bit0_odd, (seqZ_cons 0 (Z.log2 i + 1)) by lia. cbn [fmap list_fmap concat]. f_equal. rewrite Hhalf.
    destruct (Z.eqb_spec (i / 2) 0) as [Hz|Hz].
    + assert (Hi1 : i = 1) by (pose proof (Z.div_mod i 2); pose proof (Z.mod_pos_bound i 2); lia). by rewrite Hi1.
    + assert (Hlog : Z.log2 (i / 2) = Z.log2 i - 1).
      { rewrite <- Hhalf, Z.log2_shiftr by lia. assert (1 <= Z.log2 i) by (apply Z.log2_le_pow2; [lia|]; destruct (decide (i = 1)) as [->|]; [done|lia]). lia. }
      rewrite Hlog. replace (Z.pred (Z.log2 i + 1)) with (Z.log2 i - 1 + 1) by lia.
      rewrite <- (fmap_add_seqZ 1 0), <- list_fmap_compose. f_equal. apply list_fmap_ext. intros k x Hx.
      apply list_elem_of_lookup_2, elem_of_seqZ in Hx. cbn [compose]. rewrite <- Hhalf, Z.shiftr_spec by lia. by replace (1 + x) with (x + 1) by lia.
Qed.
Lemma concat_hashmd fuel n md : (0 < length md)%nat -> (n < fuel)%nat -> concat (hashmd fuel n md) = repeated md n.
Proof.
  intros Hmd. assert (Hlen : forall k, length (concat (replicate k md)) = (k * length md)%nat).
  { intros k. induction k as [|k IH]; cbn [replicate concat length]; [done|]. rewrite length_app, IH. lia. }
  assert (Hmore : forall k n, (n <= k * length md)%nat -> take n (concat (replicate k md)) = repeated md n).
  { intros k n' Hk. unfold repeated. destruct (Nat.le_ge_cases k (S n')) as [Hle|Hge].
    - replace (S n') with (k + (S n' - k))%nat by lia. rewrite replicate_add, concat_app, take_app_le by (rewrite Hlen; lia). done.
    - replace k with (S n' + (k - S n'))%nat by lia. rewrite replicate_add, concat_app, take_app_le by (rewrite Hlen; nia). done. }
  revert n. induction fuel as [|fuel IH]; intros n Hn; [lia|]. cbn [hashmd].
  destruct (Nat.ltb_spec (length md) n) as [Hlt|Hge].
  - assert (Hbig : (n <= n * length md)%nat) by (rewrite <- (Nat.mul_1_r n) at 1; apply Nat.mul_le_mono_l; lia).
    cbn [concat]. rewrite IH by lia. unfold repeated at 2. cbn [replicate concat]. rewrite take_app_ge by lia.
    by rewrite (Hmore n) by lia.
  - cbn [concat]. rewrite app_nil_r, <- (Hmore 1%nat n) by lia. cbn [replicate concat]. by rewrite app_nil_r.
Qed.

Section Digest.
Context (H : hash) (D : list Z -> list Z) (n : nat) `{!Digests H D n} (Hn : (0 < n)%nat).

Lemma digest_Ret buf pieces : length buf = buf_size H ->
  exists buf', digest H buf pieces = (D (concat pieces), buf') /\ length buf' = buf_size H.
Proof.
  intros Hb. eexists. split; [unfold digest; by rewrite (digest_of (D := D)) by done|]. by apply (digest_buf (D := D)).
Qed.

Lemma digests_Ret {A} (f : list Z -> A -> list (list Z)) (l : list A) : forall md buf, length buf = buf_size H ->
  fst (foldl (fun '(md, buf) i => digest H buf (f md i)) (md, buf) l) = foldl (fun md i => D (concat (f md i))) md l.
Proof.
  induction l as [|i l IH]; intros md buf Hb; cbn [foldl]; [done|].
  destruct (digest_Ret buf (f md i) Hb) as (buf' & -> & Hb'). by apply IH.
Qed.
End Digest.

Lemma foldl_same {A B} (f g : B -> A -> B) l : (forall b a, f b a = g b a) -> forall b, foldl f b l = foldl g b l.
Proof. intros Hfg. induction l as [|a l IH]; intros b; cbn [foldl]; [done|]. by rewrite Hfg, IH. Qed.

(** ** Strings *)
Lemma strncmp_prefix p s : Forall (fun c => c <> 0) p -> Forall (fun c => c <> 0) s ->
  (strncmp s p (length p) =? 0) = bool_decide (take (length p) s = p).
Proof.
  intros Hp. revert s. induction Hp as [|c p Hc Hp IH]; intros s Hs; [done|]. cbn [length strncmp].
  destruct s as [|a s].
  - cbn [take]. change (at_ [] 0) with 0. change (at_ (c :: p) 0) with c. cbn [Z.eqb negb andb].
    rewrite bool_decide_eq_false_2 by done. lia.
  - apply Forall_cons in Hs as [Ha Hs]. change (at_ (a :: s) 0) with a. change (at_ (c :: p) 0) with c. cbn [tail take].
    replace (a =? 0) with false by lia. replace (c =? 0) with false by lia. cbn [negb andb].
    destruct (Z.eqb_spec a c) as [->|Hac]; [|rewrite andb_false_r, bool_decide_eq_false_2 by congruence; lia].
    rewrite andb_true_r. destruct p as [|c' p]; cbn [length Nat.eqb negb].
    + cbn [take]. rewrite bool_decide_eq_true_2 by done. lia.
    + rewrite IH by done. apply bool_decide_ext. split; [intros Heq; f_equal; exact Heq|by intros [= Heq]].
Qed.

Lemma strnlen_over s n : (n <? strnlen s (S n))%nat = (n <? length s)%nat.
Proof. unfold strnlen. destruct (Nat.ltb_spec n (length s)), (Nat.ltb_spec n (length s `min` S n)); done || lia. Qed.
Lemma strnlen_within s n : (length s <= n)%nat -> strnlen s (S n) = length s.
Proof. unfold strnlen. lia. Qed.

(** [strtoul] in base 10 returns whatever the string. *)
Lemma strtoul_Ret s : Forall is_char s -> exists u e f, strtoul s 10 (SFile 0 0 0) = Ret ((u, e), f).
Proof.
  intros Hs. destruct (strtoul_spec s Hs 10 (SFile 0 0 0)) as [(f' & Hc) _]; [lia|].
  destruct (contract _ _ _ _) as [[r n] e]. destruct Hc as [-> _]. by eexists _, _, _.
Qed.

Lemma parse_rounds_Ret s : Forall is_char s -> exists r, parse_rounds s = Ret r.
Proof.
  intros Hs. unfold parse_rounds. destruct (_ =? 0); [|by eexists]. destruct (negb _); [by eexists|].
  destruct (strtoul_Ret (drop 7 s)) as (u & e & f & ->); [by apply Forall_drop|]. cbn iota beta.
  destruct (negb _); [by eexists|]. destruct (u <? _); [by eexists|]. destruct (_ <? u); by eexists.
Qed.

(** A C string. *)
Lemma c_string_chars s : c_string s -> Forall is_char s /\ Forall (fun c => c <> 0) s.
Proof. intros Hs. split; apply (Forall_impl _ _ _ Hs); intros c Hc; [unfold is_char|]; lia. Qed.

(** ** The references are met *)
Section Sha.
Context (H : hash) (D : list Z -> list Z) (n : nat) `{!Digests H D n} (Hn : (0 < n)%nat).

Lemma sha_hash_reference buf key r salt : length buf = buf_size H -> Z.of_nat (length key) < 2 ^ 32 ->
  sha_hash H buf key r salt = sha_reference_hash D key r salt.
Proof.
  intros Hb Hkey. unfold sha_hash, sha_reference_hash. set (klen := length key).
  assert (Hrep : forall m, concat (hashmd (S klen) klen (D m)) = repeated (D m) klen).
  { intros m. apply concat_hashmd; [rewrite (digest_length (H := H) (D := D)); lia|lia]. }
  destruct (digest_Ret H D n buf [key; salt; key] Hb) as (b1 & -> & Hb1). cbn [concat]. rewrite app_nil_r.
  set (B := D (key ++ salt ++ key)).
  destruct (digest_Ret H D n b1 ([key; salt] ++ hashmd (S klen) klen B ++ key_bits 32 (Z.of_nat klen) B key) Hb1) as (b2 & -> & Hb2).
  pose proof (Hrep (key ++ salt ++ key)) as HB. fold B in HB.
  rewrite !concat_app, HB, key_bits_choices by (split; [lia|exact Hkey]). cbn [concat]. rewrite app_nil_r, <- app_assoc.
  set (A := D _). destruct (digest_Ret H D n b2 (replicate klen key) Hb2) as (b3 & -> & Hb3).
  destruct (digest_Ret H D n b3 (replicate (16 + Z.to_nat (at_ A 0)) salt) Hb3) as (b4 & -> & Hb4).
  rewrite (digests_Ret H D n (sha_round_pieces klen _ _)) by done. apply foldl_same. intros md i. f_equal.
  unfold sha_round_pieces. rewrite !concat_app.
  destruct (i mod 2 =? 0)%nat, (i mod 3 =? 0)%nat, (i mod 7 =? 0)%nat; cbn [concat]; by rewrite ?Hrep, ?app_nil_r.
Qed.

Lemma sha_crypt_reference prefix tail64 buf key setting : length buf = buf_size H -> length prefix = 3%nat ->
  Forall (fun c => c <> 0) prefix -> c_string setting ->
  sha_crypt H prefix tail64 buf key setting = Ret (sha_reference D prefix tail64 key setting).
Proof.
  intros Hb Hp Hp0 [Hs Hs0]%c_string_chars. unfold sha_crypt, sha_reference. rewrite strnlen_over.
  destruct (Nat.ltb_spec KEY_MAX (length key)) as [|Hkey]; [done|]. pose proof (strncmp_prefix prefix setting Hp0 Hs0) as Hcmp.
  rewrite Hp in Hcmp. rewrite Hcmp. destruct (negb _); [done|].
  destruct (parse_rounds_Ret (drop 3 setting)) as (res & ->); [by apply Forall_drop|].
  destruct res as [[[r rounds] salt]|]; [|done]. destruct (scan_salt SALT_MAX salt) as [salt'|]; [|done].
  cbn [mbind option_bind]. by rewrite sha_hash_reference by (done || unfold KEY_MAX in Hkey; lia).
Qed.
End Sha.

Lemma md5_salt_le k s : (md5_salt k s <= length s)%nat.
Proof. revert s. induction k as [|k IH]; intros [|c s]; cbn [md5_salt length]; try lia. destruct (c =? dollar); [lia|]. specialize (IH s). lia. Qed.

Lemma md5crypt_reference buf key setting : length buf = 64%nat -> c_string setting ->
  md5crypt buf key setting = md5_reference key setting.
Proof.
  intros Hb [_ Hs0]%c_string_chars. unfold md5crypt, md5_reference. rewrite strnlen_over.
  destruct (Nat.ltb_spec MD5_KEY_MAX (length key)) as [|Hkey]; [done|]. rewrite strnlen_within by done.
  assert (Hp0 : Forall (fun c => c <> 0) (bytes_of "$1$")) by (repeat constructor; done).
  pose proof (strncmp_prefix _ setting Hp0 Hs0) as Hcmp. change (length (bytes_of "$1$")) with 3%nat in Hcmp.
  rewrite Hcmp. destruct (bool_decide_reflect (take 3 setting = bytes_of "$1$")) as [Hpre|]; [|done]. cbn [negb].
  set (slen := md5_salt MD5_SALT_MAX (drop 3 setting)). set (salt := take slen (drop 3 setting)).
  assert (Htake : take (3 + slen) setting = bytes_of "$1$" ++ salt).
  { unfold salt. rewrite <- Hpre. rewrite <- (take_drop 3 setting) at 1. rewrite take_app_ge.
    - f_equal. f_equal. apply (f_equal length) in Hpre. rewrite Hpre. cbn. lia.
    - apply (f_equal length) in Hpre. rewrite Hpre. cbn. lia. }
  rewrite Htake. set (klen := length key).
  destruct (digest_Ret md5_fns md5 16 buf [key; salt; key] Hb) as (b1 & -> & Hb1). cbn [concat]. rewrite app_nil_r.
  set (B := md5 (key ++ salt ++ key)).
  assert (Hrep : concat (hashmd (S klen) klen B) = repeated B klen).
  { apply concat_hashmd; [unfold B; rewrite (digest_length (H := md5_fns) (D := md5)); lia|lia]. }
  destruct (digest_Ret md5_fns md5 16 b1 ([key; bytes_of "$1$" ++ salt] ++ hashmd (S klen) klen B ++
    key_bits 32 (Z.of_nat klen) [0] (take 1 key)) Hb1) as (b2 & -> & Hb2).
  pose proof (digests_Ret md5_fns md5 16 (md5_round key salt) (seq 0 1000)
    (md5 (concat ([key; bytes_of "$1$" ++ salt] ++ hashmd (S klen) klen B ++ key_bits 32 (Z.of_nat klen) [0] (take 1 key)))) b2 Hb2) as Hr.
  destruct (foldl _ _ _) as [md b3]. cbn [fst] in Hr. subst md.
  rewrite <- (app_assoc (bytes_of "$1$")). do 2 f_equal. f_equal. f_equal.
  replace (md5_reference_hash key (bytes_of "$1$") salt) with
    (foldl (fun md i => md5 (concat (md5_round key salt md i)))
      (md5 (concat ([key; bytes_of "$1$" ++ salt] ++ hashmd (S klen) klen B ++ key_bits 32 (Z.of_nat klen) [0] (take 1 key)))) (seq 0 1000)); [done|].
  unfold md5_reference_hash. fold B klen. rewrite !concat_app, Hrep, key_bits_choices by (split; [lia|]; unfold klen, MD5_KEY_MAX in *; change (2 ^ Z.of_nat 32) with (2 ^ 32); lia). cbn [concat]. rewrite app_nil_r, <- !app_assoc. apply foldl_same. intros md i. f_equal. unfold md5_round. rewrite !concat_app.
  destruct (i mod 2 =? 0)%nat, (i mod 3 =? 0)%nat, (i mod 7 =? 0)%nat; cbn [concat]; by rewrite ?app_nil_r.
Qed.

(** ** Verifying a password *)

(** Decimal digits. *)
Lemma fmt_u_digits fuel : forall y s, 0 <= y < 10 ^ Z.of_nat fuel -> exists ds,
  fmt_u fuel y s = ((fun d => 48 + d) <$> ds) ++ s /\ Forall (fun d => 0 <= d < 10) ds /\ value 10 0 ds = y /\ (0 < y -> ds <> []).
Proof.
  induction fuel as [|fuel IH]; intros y s Hy; cbn [fmt_u].
  - change (10 ^ Z.of_nat 0) with 1 in Hy. exists []. split; [done|]. split; [done|]. cbn [value fold_left]. lia.
  - destruct (Z.eqb_spec y 0) as [->|Hy0]; [exists []; split; [done|split; [done|split; [done|lia]]]|].
    rewrite Nat2Z.inj_succ, Z.pow_succ_r in Hy by lia.
    destruct (IH (y / 10) (48 + y mod 10 :: s)) as (ds & -> & Hds & Hv & _).
    { split; [apply Z.div_pos; lia|apply Z.div_lt_upper_bound; lia]. }
    pose proof (Z.mod_pos_bound y 10 ltac:(lia)). exists (ds ++ [y mod 10]). rewrite fmap_app, <- app_assoc. split; [done|].
    split; [apply Forall_app; split; [done|by apply Forall_singleton]|]. split; [|by destruct ds].
    rewrite value_app, Hv. cbn [value fold_left]. pose proof (Z.div_mod y 10). lia.
Qed.

Definition digit_ok (d : Z) : bool := (digit_of (48 + d) =? d) && isdigit (char (48 + d)) && negb (is_blank (48 + d)).
Lemma digit_char d : 0 <= d < 10 -> digit_of (48 + d) = d /\ isdigit (char (48 + d)) = true /\ is_blank (48 + d) = false.
Proof.
  intros Hd. assert (Hok : digit_ok d = true) by (apply (forall_below digit_ok 0 10); [vm_compute; reflexivity|lia]).
  unfold digit_ok in Hok. apply andb_prop in Hok as [[?%Z.eqb_eq ?]%andb_prop ?%negb_true_iff]. done.
Qed.

Lemma digits_decimal ds t : Forall (fun d => 0 <= d < 10) ds -> digits 10 (((fun d => 48 + d) <$> ds) ++ dollar :: t) = ds.
Proof.
  induction 1 as [|d ds Hd _ IH]; [done|]. cbn [fmap list_fmap app digits]. destruct (digit_char d Hd) as [-> _].
  replace (d <? 10) with true by lia. f_equal. apply IH.
Qed.

Lemma at_digits_end (ds t : list Z) : at_ (((fun d => 48 + d) <$> ds) ++ dollar :: t) (length ds) = dollar.
Proof. pose proof (at_app_r ((fun d => 48 + d) <$> ds) (dollar :: t) 0) as E. rewrite length_fmap, Nat.add_0_r in E. exact E. Qed.

Lemma drop_digits_end (ds t : list Z) : drop (S (length ds)) (((fun d => 48 + d) <$> ds) ++ dollar :: t) = t.
Proof. induction ds as [|d ds IH]; [done|exact IH]. Qed.

(** [strtoul] reads a number back that was printed before a dollar. *)
Lemma strtoul_printed r t : 0 < r < 10 ^ 9 -> Forall is_char t -> exists e f,
  let s := fmt_u 10 r [] ++ dollar :: t in
  strtoul s 10 (SFile 0 0 0) = Ret ((r, Z.of_nat e), f) /\ at_ s e = dollar /\ drop (S e) s = t /\ isdigit (char (at_ s 0)) = true.
Proof.
  intros Hr Ht. destruct (fmt_u_digits 10 r [] ltac:(change (Z.of_nat 10) with 10; lia)) as (ds & E & Hds & Hv & Hne).
  specialize (Hne ltac:(lia)). rewrite E, app_nil_r. cbn zeta. set (s := _ ++ dollar :: t).
  assert (Hs : Forall is_char s).
  { apply Forall_app. split; [|constructor; [unfold is_char, dollar; lia|done]]. apply Forall_fmap.
    apply (Forall_impl _ _ _ Hds). intros d Hd. unfold is_char. cbn. lia. }
  destruct (strtoul_spec s Hs 10 (SFile 0 0 0)) as [(f & Hc) _]; [lia|].
  destruct ds as [|d ds]; [done|]. pose proof (Forall_inv Hds : 0 <= d < 10) as Hd. destruct (digit_char d Hd) as (_ & Hdig & Hsp).
  assert (Hsub : subject 10 s = (false, r, length (d :: ds))).
  { unfold subject. assert (Hk : spaces s = O) by (unfold s; cbn [fmap list_fmap app spaces]; by rewrite Hsp).
    rewrite Hk, drop_0. assert (Hsg : sign s = (false, O)).
    { unfold sign. change (at_ s 0) with (48 + d). rewrite (proj2 (Z.eqb_neq (48 + d) 45)), (proj2 (Z.eqb_neq (48 + d) 43)); [done|lia..]. }
    rewrite Hsg. cbn [Nat.add]. rewrite drop_0. unfold numeral.
    change ((10 =? 0) || (10 =? 16)) with false. change (10 =? 0) with false. cbn [andb]. cbv zeta iota.
    assert (Hdd : digits 10 s = d :: ds) by (by apply digits_decimal). rewrite Hdd, Hv. done. }
  unfold contract in Hc. cbn [valid_base] in Hc. rewrite Hsub in Hc. cbn [length] in Hc. unfold to_unsigned in Hc.
  replace (2 ^ 32 <=? r) with false in Hc by lia. destruct Hc as [Hrun _]. unfold signed_value in Hrun. rewrite Z.mod_small in Hrun by lia.
  exists (length (d :: ds)), f. split; [exact Hrun|]. split; [apply at_digits_end|]. split; [|exact Hdig].
  apply drop_digits_end.
Qed.

(** The salt is read back. *)
Lemma scan_salt_again k s salt t : scan_salt k s = Some salt -> scan_salt k (salt ++ dollar :: t) = Some salt /\ salt `prefix_of` s.
Proof.
  revert s salt. induction k as [|k IH]; intros s salt Hs; [injection Hs as <-; split; [done|apply prefix_nil]|].
  destruct s as [|c s]; cbn [scan_salt] in Hs; [injection Hs as <-; split; [done|apply prefix_nil]|].
  destruct (c =? dollar) eqn:Hc; [injection Hs as <-; split; [done|apply prefix_nil]|].
  destruct ((c =? 10) || (c =? 58)) eqn:Hbad; [done|].
  destruct (scan_salt k s) as [salt'|] eqn:Hr; [|done]. injection Hs as <-. destruct (IH _ _ Hr) as [Ha Hp].
  cbn [app scan_salt]. rewrite Hc, Hbad, Ha. split; [done|by apply prefix_cons].
Qed.

Lemma md5_salt_again k s t : let n := md5_salt k s in md5_salt k (take n s ++ dollar :: t) = n.
Proof.
  revert s. induction k as [|k IH]; intros s; [done|]. destruct s as [|c s]; cbn [md5_salt take app]; [done|].
  destruct (c =? dollar) eqn:Hc; cbn [take app md5_salt]; [done|]. rewrite Hc. f_equal. apply IH.
Qed.

Lemma prefix_before_dollar p a t : dollar ∉ p -> take (length p) (a ++ dollar :: t) = p -> take (length p) a = p.
Proof.
  intros Hp Ht. destruct (Nat.le_gt_cases (length p) (length a)) as [Hle|Hgt]; [by rewrite take_app_le in Ht|].
  destruct Hp. apply list_elem_of_lookup. exists (length a). rewrite <- Ht. rewrite lookup_take_lt by done.
  rewrite lookup_app_r by lia. by rewrite Nat.sub_diag.
Qed.

Lemma rounds_chars : Forall (fun c => c <> 0) (bytes_of "rounds=") /\ dollar ∉ bytes_of "rounds=".
Proof. split; [repeat constructor; done|]. vm_compute. intros H. repeat (apply elem_of_cons in H as [?|H]; [done|]). by apply elem_of_nil in H. Qed.

(** What is printed of the rounds and the salt parses to the same. *)
Lemma parse_again s r rounds salt0 salt t : c_string s -> c_string t -> parse_rounds s = Ret (Some (r, rounds, salt0)) ->
  scan_salt SALT_MAX salt0 = Some salt ->
  parse_rounds (rounds ++ salt ++ dollar :: t) = Ret (Some (r, rounds, salt ++ dollar :: t)) /\
  c_string (rounds ++ salt ++ dollar :: t).
Proof.
  intros Hs Ht Hparse Hsalt. destruct (scan_salt_again _ _ _ t Hsalt) as [_ [rest Hpre]]. destruct rounds_chars as [Hr0 Hr1].
  pose proof (c_string_chars s Hs) as [Hsc Hs0]. unfold parse_rounds in Hparse.
  assert (Hcs : forall a, c_string a -> (strncmp a (bytes_of "rounds=") 7 =? 0) = bool_decide (take 7 a = bytes_of "rounds=")).
  { intros a [_ Ha]%c_string_chars. exact (strncmp_prefix (bytes_of "rounds=") a Hr0 Ha). }
  assert (Hd : c_string (dollar :: t)) by (constructor; [unfold dollar; lia|done]).
  rewrite (Hcs s Hs) in Hparse. destruct (bool_decide_reflect (take 7 s = bytes_of "rounds=")) as [E7|E7].
  - destruct (negb (isdigit _)); [done|]. destruct (strtoul_Ret (drop 7 s)) as (u & e & f & Hu); [by apply Forall_drop|].
    rewrite Hu in Hparse. cbn iota beta in Hparse. destruct (negb _); [done|].
    assert (Hgood : 1000 <= r <= 9999999 /\ rounds = bytes_of "rounds=" ++ fmt_u 10 r [] ++ [dollar] /\ c_string salt0).
    { assert (Hdr : c_string (drop (S (Z.to_nat e)) (drop 7 s))) by (unfold c_string; do 2 apply Forall_drop; exact Hs). unfold ROUNDS_MIN, ROUNDS_MAX in *.
      destruct (Z.ltb_spec u 1000); [injection Hparse as <- <- <-; split; [lia|done]|].
      destruct (Z.ltb_spec 9999999 u); [done|]. injection Hparse as <- <- <-. split; [lia|done]. }
    destruct Hgood as (Hr & -> & Hc0). assert (Hcsalt : c_string salt) by (rewrite Hpre in Hc0; apply Forall_app in Hc0 as [Hc1 _]; exact Hc1).
    assert (Hct : c_string (salt ++ dollar :: t)) by (unfold c_string; apply Forall_app; done).
    assert (Hcu : c_string (fmt_u 10 r [])).
    { destruct (fmt_u_digits 10 r [] ltac:(change (Z.of_nat 10) with 10; lia)) as (ds & -> & Hds & _). rewrite app_nil_r.
      apply Forall_fmap. apply (Forall_impl _ _ _ Hds). intros d Hdd. cbn. lia. }
    destruct (strtoul_printed r (salt ++ dollar :: t) ltac:(lia)) as (e' & f' & Hrun & Hat & Hdrop & Hdig); [by apply c_string_chars|].
    replace ((bytes_of "rounds=" ++ fmt_u 10 r [] ++ [dollar]) ++ salt ++ dollar :: t) with
      (bytes_of "rounds=" ++ fmt_u 10 r [] ++ dollar :: salt ++ dollar :: t) by (by rewrite <- !app_assoc).
    assert (Hall : c_string (bytes_of "rounds=" ++ fmt_u 10 r [] ++ dollar :: salt ++ dollar :: t)).
    { apply Forall_app. split; [repeat constructor; done|]. apply Forall_app. split; [done|]. constructor; [unfold dollar; lia|done]. }
    split; [|done]. unfold parse_rounds. rewrite (Hcs _ Hall), bool_decide_eq_true_2 by done.
    change (drop 7 (bytes_of "rounds=" ++ ?x)) with x. rewrite Hdig. cbn [negb]. rewrite Hrun. cbn iota beta.
    rewrite Nat2Z.id, Hat, Hdrop. rewrite Z.eqb_refl. cbn [negb]. unfold ROUNDS_MIN, ROUNDS_MAX.
    replace (r <? 1000) with false by lia. by replace (9999999 <? r) with false by lia.
  - injection Hparse as <- <- <-. cbn [app]. assert (Hcsalt : c_string salt) by (rewrite Hpre in Hs; apply Forall_app in Hs as [Hc1 _]; exact Hc1).
    assert (Hct : c_string (salt ++ dollar :: t)) by (unfold c_string; apply Forall_app; done). split; [|done]. unfold parse_rounds.
    rewrite (Hcs _ Hct), bool_decide_eq_false_2; [done|]. intros E. apply E7.
    apply (prefix_before_dollar (bytes_of "rounds=")) in E; [|done]. rewrite Hpre.
    transitivity (take 7 salt); [|exact E]. apply take_app_le. apply (f_equal length) in E. rewrite length_take in E.
    change (length (bytes_of "rounds=")) with 7%nat in E. lia.
Qed.

Lemma c_string_app a b : c_string a -> c_string b -> c_string (a ++ b).
Proof. intros Ha Hb. by apply Forall_app. Qed.

Lemma to64_string n u : c_string (to64 n u).
Proof.
  revert u. induction n as [|n IH]; intros u; cbn [to64]; [constructor|]. constructor; [|apply IH].
  pose proof (Z.mod_pos_bound u 64 ltac:(lia)) as Hu.
  assert (Hb : (fun i => (0 <? at_ b64 (Z.to_nat i)) && (at_ b64 (Z.to_nat i) <? 256)) (u mod 64) = true).
  { apply (forall_below (fun i => (0 <? at_ b64 (Z.to_nat i)) && (at_ b64 (Z.to_nat i) <? 256)) 0 64); [vm_compute; reflexivity|lia]. }
  cbn beta in Hb. lia.
Qed.
Lemma encode_string md perm : c_string (encode md perm).
Proof. unfold encode. induction perm as [|[[i j] k] perm IH]; [constructor|]. cbn [fmap list_fmap concat]. apply Forall_app. split; [apply to64_string|done]. Qed.

Lemma sha_verifies D prefix tail64 key setting out : length prefix = 3%nat -> (forall md, c_string (tail64 md)) -> c_string setting ->
  sha_reference D prefix tail64 key setting = Some out -> sha_reference D prefix tail64 key out = Some out.
Proof.
  intros Hp Htail Hs Hout. unfold sha_reference in Hout. destruct (KEY_MAX <? length key)%nat eqn:Hk; [done|].
  destruct (negb _); [done|]. destruct (parse_rounds (drop 3 setting)) as [[[[r rounds] salt0]|]|] eqn:Hparse; try done.
  destruct (scan_salt SALT_MAX salt0) as [salt|] eqn:Hsalt; [|done]. cbn [mbind option_bind] in Hout. injection Hout as <-.
  set (h := tail64 _). destruct (parse_again _ _ _ _ _ h ltac:(by apply Forall_drop) (Htail _) Hparse Hsalt) as [Hagain _].
  unfold sha_reference. rewrite Hk. rewrite take_app_length' by done. rewrite bool_decide_eq_true_2 by done. cbn [negb].
  rewrite drop_app_length' by done. change ([dollar] ++ h) with (dollar :: h). rewrite Hagain.
  destruct (scan_salt_again _ _ _ h Hsalt) as [-> _]. done.
Qed.

Lemma md5_verifies key setting out : md5_reference key setting = Some out -> md5_reference key out = Some out.
Proof.
  intros Hout. unfold md5_reference in Hout. destruct (MD5_KEY_MAX <? length key)%nat eqn:Hk; [done|].
  destruct (negb _); [done|]. apply (inj Some) in Hout. subst out. set (s := drop 3 setting). set (n := md5_salt MD5_SALT_MAX s).
  set (md := md5_reference_hash key (bytes_of "$1$") (take n s)). set (h := encode md md5_perm ++ to64 2 (at_ md 11)).
  unfold md5_reference. rewrite Hk. rewrite take_app_length' by done. rewrite bool_decide_eq_true_2 by done. cbn [negb].
  rewrite drop_app_length' by done. change ([dollar] ++ h) with (dollar :: h).
  pose proof (md5_salt_again MD5_SALT_MAX s h) as Hn. cbn zeta in Hn. fold n in Hn. rewrite Hn.
  assert (Hlen : length (take n s) = n) by (rewrite length_take; pose proof (md5_salt_le MD5_SALT_MAX s); unfold n; lia).
  rewrite take_app_length' by done. done.
Qed.

(** ** The properties *)

Lemma prefix_facts : Forall (fun c => c <> 0) (bytes_of "$5$") /\ Forall (fun c => c <> 0) (bytes_of "$6$").
Proof. split; repeat constructor; done. Qed.

Lemma sha256crypt_reference buf key setting : length buf = 64%nat -> c_string setting ->
  sha256crypt buf key setting = Ret (sha_reference sha256 (bytes_of "$5$") sha256_tail key setting).
Proof. intros. apply (sha_crypt_reference sha256_fns sha256 32); try done; [lia|apply prefix_facts]. Qed.
Lemma sha512crypt_reference buf key setting : length buf = 128%nat -> c_string setting ->
  sha512crypt buf key setting = Ret (sha_reference sha512 (bytes_of "$6$") sha512_tail key setting).
Proof. intros. apply (sha_crypt_reference sha512_fns sha512 64); try done; [lia|apply prefix_facts]. Qed.

(** ** The code's parsing and encoding are those of the schemes *)

Lemma fmt_u_decimal r : 1000 <= r <= 9999999 -> fmt_u 10 r [] = shown_decimal r.
Proof.
  intros Hr. unfold shown_decimal.
  assert (Hcases : r < 10 ^ 4 \/ 10 ^ 4 <= r < 10 ^ 5 \/ 10 ^ 5 <= r < 10 ^ 6 \/ 10 ^ 6 <= r) by lia.
  assert (Hstep : forall k fuel y s, 0 <= k -> y = r / 10 ^ k -> 10 ^ k <= r -> fmt_u (S fuel) y s = fmt_u fuel (r / 10 ^ (k + 1)) (48 + r / 10 ^ k mod 10 :: s)).
  { intros k fuel y s Hk -> Hle. cbn [fmt_u]. assert (0 < r / 10 ^ k) by (apply Z.div_str_pos; split; [apply Z.pow_pos_nonneg|]; lia).
    replace (r / 10 ^ k =? 0) with false by lia. by rewrite Z.pow_add_r, Z.div_div by lia. }
  assert (Hend : forall k fuel s, 0 <= k -> r < 10 ^ k -> fmt_u (S fuel) (r / 10 ^ k) s = s).
  { intros k fuel s Hk Hlt. cbn [fmt_u]. by rewrite Z.div_small by lia. }
  destruct Hcases as [H|[H|[H|H]]]; rewrite !filter_cons, filter_nil; repeat (case_decide; [|try lia]); try lia;
    cbn [fmap list_fmap]; rewrite (Hstep 0 9%nat r []) by (lia || by rewrite Z.div_1_r); cbn [Z.add];
    rewrite !(fun k fuel s Hk => Hstep k fuel _ s Hk eq_refl) by lia; by rewrite Hend by lia.
Qed.

Lemma scan_salt_scheme k s : scan_salt k s = let salt := take k (up_to 36 s) in
  if decide (10 ∈ salt \/ 58 ∈ salt) then None else Some salt.
Proof.
  revert s. induction k as [|k IH]; intros s; cbn [scan_salt take].
  - rewrite decide_False; [done|]. intros [H|H]; by apply elem_of_nil in H.
  - destruct s as [|c s]; cbn [up_to take].
    { rewrite decide_False; [done|]. intros [H|H]; by apply elem_of_nil in H. }
    unfold dollar. destruct (Z.eqb_spec c 36) as [->|Hc]; cbn [take].
    { rewrite decide_False; [done|]. intros [H|H]; by apply elem_of_nil in H. }
    destruct ((c =? 10) || (c =? 58)) eqn:Hbad; cbv zeta.
    + rewrite decide_True; [done|]. rewrite !elem_of_cons. lia.
    + rewrite IH. cbv zeta. set (l := take k _). destruct (decide (10 ∈ l \/ 58 ∈ l)) as [Hin|Hin].
      * rewrite decide_True; [done|]. rewrite !elem_of_cons. tauto.
      * rewrite decide_False; [done|]. rewrite !elem_of_cons. intros [[?|?]|[?|?]]; [lia|tauto|lia|tauto].
Qed.

Lemma md5_salt_scheme k s : take (md5_salt k s) s = take k (up_to 36 s).
Proof.
  revert s. induction k as [|k IH]; intros [|c s]; cbn [md5_salt take up_to]; try done.
  unfold dollar. destruct (c =? 36); cbn [take]; [done|]. by rewrite IH.
Qed.

(** [strtoul] at a digit reads the digits. *)
Lemma strtoul_at_digits t : Forall is_char t -> digits 10 t <> [] -> exists f,
  strtoul t 10 (SFile 0 0 0) =
    Ret ((if 2 ^ 32 <=? value 10 0 (digits 10 t) then 2 ^ 32 - 1 else value 10 0 (digits 10 t), Z.of_nat (length (digits 10 t))), f).
Proof.
  intros Ht Hne. destruct (strtoul_spec t Ht 10 (SFile 0 0 0)) as [(f & Hc) _]; [lia|]. exists f.
  assert (Hsub : subject 10 t = (false, value 10 0 (digits 10 t), length (digits 10 t))).
  { destruct t as [|c t]; [done|]. pose proof (Forall_inv Ht) as Hch. cbn [digits] in Hne. destruct (Z.ltb_spec (digit_of c) 10) as [Hlt|]; [|done].
    assert (Hc' : 48 <= c <= 57).
    { unfold digit_of in Hlt. destruct (_ && _) eqn:E; [lia|]. destruct ((65 <=? c) && _) eqn:E2; [lia|]. destruct ((97 <=? c) && _) eqn:E3; lia. }
    unfold subject. assert (Hk : spaces (c :: t) = O).
    { cbn [spaces]. unfold is_blank. rewrite bool_decide_eq_false_2; [done|]. rewrite !elem_of_cons, elem_of_nil. lia. }
    rewrite Hk, drop_0. unfold sign. change (at_ (c :: t) 0) with c. replace (c =? 45) with false by lia. replace (c =? 43) with false by lia.
    cbn [Nat.add]. rewrite drop_0. unfold numeral. change ((10 =? 0) || (10 =? 16)) with false. cbn [andb]. cbv zeta. change (10 =? 0) with false.
    cbv iota. by destruct (length (digits 10 (c :: t))). }
  unfold contract in Hc. cbn [valid_base] in Hc. rewrite Hsub in Hc. unfold to_unsigned, signed_value in Hc.
  destruct (length (digits 10 t)) as [|n] eqn:Hlen; [by destruct (digits 10 t)|]. rewrite <- Hlen in *.
  pose proof (value_ge 10 0 (digits 10 t) ltac:(lia) ltac:(lia) (digits_nonneg 10 t Ht)).
  destruct (Z.leb_spec (2 ^ 32) (value 10 0 (digits 10 t))); destruct Hc as [-> _]; [done|]. by rewrite Z.mod_small by lia.
Qed.

Lemma parse_rounds_scheme s : c_string s -> parse_rounds s = Ret (sha_setting s).
Proof.
  intros [Hs Hs0]%c_string_chars. unfold parse_rounds, sha_setting. destruct rounds_chars as [Hr0 _].
  pose proof (strncmp_prefix (bytes_of "rounds=") s Hr0 Hs0) as Hcmp. change (length (bytes_of "rounds=")) with 7%nat in Hcmp.
  rewrite Hcmp. destruct (bool_decide _); [|done]. set (t := drop 7 s). cbv zeta.
  assert (Ht : Forall is_char t) by (by apply Forall_drop).
  assert (Hdig : isdigit (char (at_ t 0)) = bool_decide (digits 10 t <> [])).
  { rewrite char_isdigit by (by apply at_char). destruct t as [|c t']; [done|]. change (at_ (c :: t') 0) with c.
    rewrite digits_cons by (by apply Forall_inv in Ht). destruct (val c <? 10); symmetry; [by apply bool_decide_eq_true_2|].
    apply bool_decide_eq_false_2. by intros []. }
  rewrite Hdig. destruct (bool_decide_reflect (digits 10 t <> [])) as [Hne|Hne]; cbn [negb].
  2: { rewrite bool_decide_eq_false_2; [done|]. tauto. }
  destruct (strtoul_at_digits t Ht Hne) as (f & ->). cbn iota beta. rewrite Nat2Z.id. rewrite <- drop_drop. fold t.
  set (v := value 10 0 (digits 10 t)). pose proof (value_ge 10 0 (digits 10 t) ltac:(lia) ltac:(lia) (digits_nonneg 10 t Ht)) as Hv. fold v in Hv.
  set (n := length (digits 10 t)).
  assert (Hat : (at_ t n =? dollar) = bool_decide (head (drop n t) = Some 36)).
  { unfold at_. rewrite head_lookup, lookup_drop, Nat.add_0_r. unfold dollar. destruct (t !! n) as [c|]; cbn [default id].
    1: change (from_option id 0 (Some c)) with c.
    - destruct (Z.eqb_spec c 36) as [->|Hc]; symmetry; [by apply bool_decide_eq_true_2|]. apply bool_decide_eq_false_2. congruence.
    - done. }
  rewrite Hat. destruct (bool_decide_reflect (head (drop n t) = Some 36)) as [Hh|Hh]; cbn [negb].
  2: { rewrite bool_decide_eq_false_2; [done|]. tauto. }
  assert (Htl : drop (S n) t = tail (drop n t)) by (rewrite tail_drop, drop_drop; f_equal; lia).
  rewrite Htl. unfold ROUNDS_MIN, ROUNDS_MAX.
  destruct (Z.leb_spec (2 ^ 32) v) as [Hbig|Hsmall].
  - replace (2 ^ 32 - 1 <? 1000) with false by lia. replace (9999999 <? 2 ^ 32 - 1) with true by lia.
    rewrite bool_decide_eq_false_2 by lia. done.
  - destruct (Z.ltb_spec v 1000).
    + rewrite bool_decide_eq_true_2 by (split_and!; [done|done|lia]). rewrite fmt_u_decimal by lia. by replace (1000 `max` v) with 1000 by lia.
    + destruct (Z.ltb_spec 9999999 v); [by rewrite bool_decide_eq_false_2 by lia|].
      rewrite bool_decide_eq_true_2 by (split_and!; [done|done|lia]). rewrite fmt_u_decimal by lia. by replace (1000 `max` v) with v by lia.
Qed.

(** *** Encoding *)

Lemma b64_char v : 0 <= v < 64 -> at_ b64 (Z.to_nat v) = char64 v.
Proof.
  intros Hv. apply Z.eqb_eq. apply (forall_below (fun v => at_ b64 (Z.to_nat v) =? char64 v) 0 64); [vm_compute; reflexivity|lia].
Qed.

Lemma to64_text n u : to64 n u = text64 (Z.of_nat n) u.
Proof.
  unfold text64. revert u. induction n as [|n IH]; intros u; [done|]. cbn [to64].
  rewrite seqZ_cons by lia. cbn [fmap list_fmap]. rewrite Z.pow_0_r, Z.div_1_r, b64_char by (apply Z.mod_pos_bound; lia). f_equal.
  rewrite IH. replace (Z.pred (Z.of_nat (S n))) with (Z.of_nat n) by lia. rewrite <- (fmap_add_seqZ 1 0), <- list_fmap_compose.
  apply list_fmap_ext. intros k x Hx. apply list_elem_of_lookup_2, elem_of_seqZ in Hx. cbn [compose].
  by rewrite Z.pow_add_r, Z.div_div by (lia || apply Z.pow_pos_nonneg; lia).
Qed.

Lemma three_bytes a b c : 0 <= a < 256 -> 0 <= b < 256 -> 0 <= c < 256 ->
  Z.lor (Z.lor (Z.shiftl a 16) (Z.shiftl b 8)) c = a * 65536 + b * 256 + c.
Proof.
  intros Ha Hb Hc. rewrite !Z.shiftl_mul_pow2 by lia. replace (a * 2 ^ 16) with (a * 256 * 2 ^ 8) by lia.
  rewrite <- !Z.shiftl_mul_pow2, <- Z.shiftl_lor, !Z.shiftl_mul_pow2 by lia. replace (a * 256) with (a * 2 ^ 8) by lia.
  rewrite !lor_add by (rewrite ?Z.shiftl_mul_pow2 by lia; lia). lia.
Qed.

Definition octets (md : list Z) : Prop := Forall (fun b => 0 <= b < 256) md.
Lemma at_bytes md i : octets md -> 0 <= at_ md i < 256.
Proof. exact (at_char md i). Qed.

Lemma encode_text md perm : octets md -> encode md perm = concat ((fun '(i, j, k) => text_of_three md i j k) <$> perm).
Proof.
  intros Hmd. unfold encode. f_equal. apply list_fmap_ext. intros ? [[i j] k] _. unfold text_of_three.
  by rewrite three_bytes, to64_text by (by apply at_bytes).
Qed.

Lemma sha256_tail_text md : octets md -> sha256_tail md = sha256_text md.
Proof.
  intros Hmd. unfold sha256_tail, sha256_text. rewrite encode_text by done. f_equal.
  rewrite to64_text, Z.shiftl_mul_pow2 by lia. f_equal. apply lor_add; pose proof (at_bytes md 30 Hmd); pose proof (at_bytes md 31 Hmd); lia.
Qed.
Lemma sha512_tail_text md : octets md -> sha512_tail md = sha512_text md.
Proof. intros Hmd. unfold sha512_tail, sha512_text. rewrite encode_text by done. f_equal. apply to64_text. Qed.
Lemma md5_tail_text md : octets md -> encode md md5_perm ++ to64 2 (at_ md 11) = md5_text md.
Proof. intros Hmd. unfold md5_text. rewrite encode_text by done. f_equal. apply to64_text. Qed.

(** The digest that is encoded is the last of a chain of digests. *)
Lemma chain_bytes {A} (D : list Z -> list Z) (f : list Z -> A -> list Z) (l : list A) m : (forall m, octets (D m)) ->
  octets (foldl (fun md i => D (f md i)) (D m) l).
Proof. intros HD. induction l as [|i l IH] using rev_ind; [apply HD|]. rewrite foldl_app. apply HD. Qed.

Lemma sha_reference_scheme D prefix tail64 text key setting : (forall m, octets (D m)) -> (forall md, octets md -> tail64 md = text md) ->
  c_string setting -> sha_reference D prefix tail64 key setting = sha_scheme D prefix text key setting.
Proof.
  intros HD Htext Hs. unfold sha_reference, sha_scheme, KEY_MAX. destruct (Nat.ltb_spec 256 (length key)).
  { rewrite decide_False; [done|lia]. }
  destruct (bool_decide_reflect (take 3 setting = prefix)) as [Hp|Hp]; cbn [negb]; [|rewrite decide_False; [done|tauto]].
  rewrite decide_True by (split; [lia|done]). rewrite parse_rounds_scheme by (by apply Forall_drop).
  destruct (sha_setting _) as [[[r rounds] salt]|]; [|done]. cbn [mbind option_bind]. rewrite scan_salt_scheme. cbv zeta.
  unfold SALT_MAX. destruct (decide _); [done|]. cbn [mbind option_bind]. do 4 f_equal. apply (f_equal (cons 36)), Htext. by apply chain_bytes.
Qed.

Lemma md5_reference_scheme key setting : md5_reference key setting = md5_scheme key setting.
Proof.
  unfold md5_reference, md5_scheme. destruct (Nat.ltb_spec MD5_KEY_MAX (length key)) as [Hk|Hk]; unfold MD5_KEY_MAX in Hk.
  { rewrite decide_False; [done|lia]. }
  destruct (bool_decide_reflect (take 3 setting = bytes_of "$1$")) as [Hp|Hp]; cbn [negb]; [|rewrite decide_False; [done|tauto]].
  rewrite decide_True by (split; [lia|done]). rewrite md5_salt_scheme. cbv zeta. do 3 f_equal.
  change ([dollar] ++ ?x) with (36 :: x). apply (f_equal (cons 36)), md5_tail_text. unfold md5_reference_hash. cbv zeta.
  apply (chain_bytes md5), (digest_bytes (H := md5_fns) (D := md5)).
Qed.


Lemma reference_string D prefix tail64 key setting out : c_string prefix -> (forall md, c_string (tail64 md)) -> c_string setting ->
  sha_reference D prefix tail64 key setting = Some out -> c_string out.
Proof.
  intros Hp Htail Hs Hout. unfold sha_reference in Hout. destruct (KEY_MAX <? length key)%nat; [done|].
  destruct (negb _); [done|]. destruct (parse_rounds (drop 3 setting)) as [[[[r rounds] salt0]|]|] eqn:Hparse; try done.
  destruct (scan_salt SALT_MAX salt0) as [salt|] eqn:Hsalt; [|done]. cbn [mbind option_bind] in Hout. injection Hout as <-.
  apply Forall_app. split; [done|].
  by apply (parse_again (drop 3 setting) r rounds salt0 salt); [apply Forall_drop| | |].
Qed.

(** C12: a password verifies against its own hash: whatever setting a hash was
    made with (with or without a number of rounds, clamped or zero-padded, with
    a salt that is cut or not), hashing the same key with the hash as the
    setting gives the hash. *)
Theorem crypt_verifies buf64 buf64' buf128 buf128' key setting out :
  length buf64 = 64%nat -> length buf64' = 64%nat -> length buf128 = 128%nat -> length buf128' = 128%nat -> c_string setting ->
  (md5crypt buf64 key setting = Some out -> md5crypt buf64' key out = Some out) /\
  (sha256crypt buf64 key setting = Ret (Some out) -> sha256crypt buf64' key out = Ret (Some out)) /\
  (sha512crypt buf128 key setting = Ret (Some out) -> sha512crypt buf128' key out = Ret (Some out)).
Proof.
  intros H1 H2 H3 H4 Hs. destruct prefix_facts as [Hp5 Hp6].
  assert (Ht5 : forall md, c_string (sha256_tail md)) by (intros md; apply Forall_app; split; [apply encode_string|apply to64_string]).
  assert (Ht6 : forall md, c_string (sha512_tail md)) by (intros md; apply Forall_app; split; [apply encode_string|apply to64_string]).
  assert (Hc5 : c_string (bytes_of "$5$")) by (repeat constructor; done).
  assert (Hc6 : c_string (bytes_of "$6$")) by (repeat constructor; done).
  split; [|split].
  - rewrite md5crypt_reference by done. intros Hout. rewrite md5crypt_reference; [by apply (md5_verifies key setting)|done|].
    unfold md5_reference in Hout. destruct (_ <? _)%nat; [done|]. destruct (negb _); [done|]. apply (inj Some) in Hout. subst out.
    assert (Hc1 : c_string (bytes_of "$1$")) by (repeat constructor; done). assert (Hd : c_string [dollar]) by (repeat constructor; done).
    apply c_string_app; [done|]. apply c_string_app; [by apply Forall_take, Forall_drop|]. apply c_string_app; [done|].
    apply c_string_app; [apply encode_string|apply to64_string].
  - rewrite sha256crypt_reference by done. intros [= Hout].
    rewrite sha256crypt_reference; [|done|by apply (reference_string _ _ _ _ _ _ Hc5 Ht5 Hs Hout)].
    f_equal. by apply (sha_verifies _ _ _ _ setting).
  - rewrite sha512crypt_reference by done. intros [= Hout].
    rewrite sha512crypt_reference; [|done|by apply (reference_string _ _ _ _ _ _ Hc6 Ht6 Hs Hout)].
    f_equal. by apply (sha_verifies _ _ _ _ setting).
Qed.
