(* ===== verification/CryptExamples.v ===== *)
(** The hash functions on known messages, and the theorems on password hashing
    at concrete keys and settings. *)
From S2P Require Import Prelude.
From S2P Require Import Wasi.
From S2P Require Import IntScan.
From S2P Require Import Hash.
From S2P Require Import HashProofs.
From S2P Require Import Crypt.
From S2P Require Import CryptProofs.

Definition block0 : list Z := replicate 64 255.
Definition block1 : list Z := replicate 64 7.
Definition wide0 : list Z := replicate 128 255.
Definition wide1 : list Z := replicate 128 7.

(** The digests of "abc" that the standards list, from two pieces. *)
Example md5_abc : md5_sum (foldl md5_update (md5_init block0) [bytes_of "a"; bytes_of "bc"]) =
  [144; 1; 80; 152; 60; 210; 79; 176; 214; 150; 63; 125; 40; 225; 127; 114].
Proof. vm_compute. reflexivity. Qed.
Example sha256_abc : take 8 (sha256_sum (foldl sha256_update (sha256_init block0) [bytes_of "a"; bytes_of "bc"])) =
  [186; 120; 22; 191; 143; 1; 207; 234].
Proof. vm_compute. reflexivity. Qed.
Example sha512_abc : take 8 (sha512_sum (foldl sha512_update (sha512_init wide0) [bytes_of "a"; bytes_of "bc"])) =
  [221; 175; 53; 161; 147; 97; 122; 186].
Proof. vm_compute. reflexivity. Qed.

Lemma hash_pieces_witness : length block0 = 64%nat /\ length wide0 = 128%nat /\
  md5_sum (foldl md5_update (md5_init block0) [bytes_of "a"; bytes_of "bc"]) = md5 (bytes_of "abc") /\
  sha256_sum (foldl sha256_update (sha256_init block0) [bytes_of "a"; bytes_of "bc"]) = sha256 (bytes_of "abc") /\
  sha512_sum (foldl sha512_update (sha512_init wide0) [bytes_of "a"; bytes_of "bc"]) = sha512 (bytes_of "abc").
Proof. split; [done|]. split; [done|]. exact (hash_pieces [bytes_of "a"; bytes_of "bc"] block0 wide0 eq_refl eq_refl). Defined.

Definition key0 : list Z := bytes_of "secret".
Definition setting1 : list Z := bytes_of "$1$saltsalty$".
Definition setting5 : list Z := bytes_of "$5$rounds=0010$abc".

Lemma string_of (x : string) : forallb (fun c => (0 <? c) && (c <? 256)) (bytes_of x) = true -> c_string (bytes_of x).
Proof.
  intros Hx. apply Forall_forall. intros c Hc. rewrite List.forallb_forall in Hx.
  specialize (Hx c ltac:(by apply list_elem_of_In)). lia.
Qed.

(** The rounds are clamped. *)
Example parse5 : parse_rounds (drop 3 setting5) = Ret (Some (1000, bytes_of "rounds=1000$", bytes_of "abc")).
Proof. vm_compute. reflexivity. Qed.

(** The setting is accepted, with 1000 rounds shown in the result, and refused
    when its number is not followed by a dollar. *)
Example setting5_scheme : sha_setting (drop 3 setting5) = Some (1000, bytes_of "rounds=1000$", bytes_of "abc") /\
  sha_setting (bytes_of "rounds=5000,abc") = None.
Proof. split; vm_compute; reflexivity. Qed.


(** Eight characters of the salt count. *)
Definition hash1 : list Z :=
  let md := md5_reference_hash key0 (bytes_of "$1$") (bytes_of "saltsalt") in
  bytes_of "$1$" ++ bytes_of "saltsalt" ++ [dollar] ++ encode md md5_perm ++ to64 2 (at_ md 11).

Lemma hash1_made : md5crypt block0 key0 setting1 = Some hash1.
Proof.
  rewrite (md5crypt_reference block0 key0 setting1 eq_refl (string_of "$1$saltsalty$" eq_refl)).
  unfold md5_reference. replace (MD5_KEY_MAX <? length key0)%nat with false by (vm_compute; reflexivity).
  rewrite bool_decide_eq_true_2 by reflexivity. cbn [negb].
  change (take (md5_salt MD5_SALT_MAX (drop 3 setting1)) (drop 3 setting1)) with (bytes_of "saltsalt"). reflexivity.
Qed.

Lemma crypt_verifies_witness : c_string setting1 /\ md5crypt block0 key0 setting1 = Some hash1 /\
  md5crypt block1 key0 hash1 = Some hash1.
Proof.
  split; [exact (string_of "$1$saltsalty$" eq_refl)|]. split; [exact hash1_made|].
  exact (proj1 (crypt_verifies block0 block1 wide0 wide1 key0 setting1 hash1 eq_refl eq_refl eq_refl eq_refl
    (string_of "$1$saltsalty$" eq_refl)) hash1_made).
Defined.
